(* ===== verification/_CoqProject ===== *)
-Q . S2P
Prelude.v
Keyset.v
GoText.v
Encoding.v
Syntax.v
Json.v
JsonDecode.v
Cursor.v
Star.v
Issue.v
Git.v
PullRequest.v
PullRequestService.v
Event.v
Triage.v
CommitStatus.v
Webhook.v
WebhookStore.v
Repository.v
RepositoryStore.v
Transfer.v
TransferStore.v
Organization.v
Team.v
OrganizationStore.v
Access.v
OrganizationHistory.v
Hierarchy.v
Wire.v
Endpoint.v
Profile.v
FederationEvent.v
FederationFacts.v
FederationProjection.v
FederationTables.v
FederationFrame.v
FederationStore.v
FederationExamples.v
Comment.v
Auth.v
AuthStore.v
Gates.v
GitTransport.v
Identity.v
Publisher.v
PublisherFacts.v
Published.v
BranchProtection.v
Release.v
Passkey.v
