(* ===== verification/Prelude.v ===== *)
(** * Adenosine: a verification of the forge's core

    Adenosine is a federated Git forge: a Go API over PostgreSQL, bare Git
    repositories on disk, and AT Protocol records that tell other instances what
    is public. This development translates the packages that decide who may do
    what, what is stored, what is published and what is sent, and proves what
    makes them correct. File names below are of the Go sources under src/; every
    definition keeps the name of the Go function, method, type or query it
    translates, inside a Module named after its package.

    ** How the program is modelled

    - A validator or any other pure function is a Gallina function over byte
      strings ([String.string]), [Z] integers, [time] (an instant in
      nanoseconds) and [UUID] (its 128 bits). [error] keeps the tree of calls
      that built a Go error, so [errors.Is] is computed.
    - A service method is a [prog]: a tree of the effects it performs (calls to
      its store, publisher, git, clock and generators), each answered by a value
      of the effect's type. [guarded] and [ensures] state what holds of every
      run, whatever the answers; they follow from [wp].
    - A package's tables are lists of rows in a record [db], and [handle] answers
      the store's effects with the text of the SQL queries and the constraints of
      the migrations. [exec (handle ...) p s] runs a method against the tables;
      [rtc step] is any history of requests, in any order, from any number of
      clients: one SQL statement, or one transaction, is one step.  Requests that read
      before they write are threads of such steps (CommitStatus), or the steps say what
      other packages do to the same rows (RepositoryStore).
    - Go's standard library is translated as far as it is used: [strings],
      [unicode/utf8] and [slices] (GoText), SHA-256, base32, hex, varints
      (Encoding), the JSON writer (Json) and reader (JsonDecode). Third-party
      packages are parameters with laws: [Syntax] (indigo's identifiers),
      [UUIDs], [GoUnicode], [GoURL], [GoNet], [AEAD]; each has a concrete
      instance, with which the witnesses are computed.

    ** The parts

    - Keyset, Cursor: the pages of every collection (restapi/pagination.go and
      the Page queries). Following the cursors gives the whole listing, each row
      once.
    - Star, Issue, PullRequest: portable records, their validators, and
      (PullRequestService) the refresh, review, status and merge of pull requests
      (star/star.go, issue/issue.go, pullrequest/pullrequest.go, service.go);
      Git: what package git checks before it runs the executable (merge.go,
      remote.go).
    - Triage: labels, milestones and metadata (triage/triage.go).
    - CommitStatus: statuses and check runs over their tables
      (commitstatus/commitstatus.go).
    - Event: the transactional outbox (event/writer.go). Webhook, WebhookStore:
      webhooks, the outbox's dispatch, deliveries, retries, signatures and the
      dialer that refuses private addresses (webhook/webhook.go, worker.go).
    - Repository, RepositoryStore: the life of a repository, its deletion,
      restoration and purge (repository/service.go, postgres.go,
      purge_worker.go).
    - Transfer, TransferStore: bilateral ownership transfers
      (transfer/transfer.go, postgres.go).
    - Organization, Team, OrganizationStore: organizations, invitations, members,
      teams and collaborators with their tables (organization/*.go);
      OrganizationHistory, Hierarchy: what histories of requests keep; Access:
      the permission queries against the rule of roles.
    - Wire, Endpoint, FederationEvent, FederationFacts: the events of other
      instances, from bytes to typed records (federation/event.go);
      FederationProjection: their projection into the tables of network records
      (federation/postgres.go, processor.go); FederationTables: those tables, one definition for each query
      of federation.sql, federation_organizations.sql and triage.sql, named after
      the query, with the recursive reconciliation of transfer lineages;
      FederationFrame, FederationStore, FederationExamples: what a projection may
      change, and the replica it implements.
    - Profile: developer profiles (profile/profile.go, service.go).
    - Auth: access tokens, sessions and SSH keys, the authenticators, and the
      authorization of pushes (auth/*.go); AuthStore: the tables of credentials,
      accounts and owner routes (access_tokens.sql, sessions.sql, ssh_keys.sql,
      accounts.sql), beside the tables the permission queries of Access read.
    - Gates: who a REST request is from and what each gate of the handlers lets
      through (restapi/handler.go, transfer.go). GitTransport: Git over HTTP and SSH
      up to the git process (githttp/handler.go, gitssh/command.go, server.go).
      Identity: logins and the resolver of owner names (identity/login.go, owner/*.go).
    - Publisher: what is written to the accounts' personal data servers, and how: the
      publishers of every kind of record (atproto/*.go), each with its session, its locks
      and what it does when the slot is taken. PublisherFacts: what the strict decoder of
      FederationEvent reads of the JSON of such a record; Published: the publishers and
      the indexer put together.
    - Comment: comments of issues, read through the blocks and hidden records of the
      reader (comment/*.go, moderation/*.go, GetIssueComments of restapi/handler.go).
    - BranchProtection: the protections of a repository and the settings of git that carry
      them out (branchprotection/branchprotection.go, git/service.go).
    - Release: releases, their assets and quotas, over the tables of releases.sql and a
      store of blobs (release/service.go, postgres.go).
    - Passkey: WebAuthn registrations and logins over the tables of passkeys.sql
      (passkey/service.go, postgres.go), the WebAuthn library being the class
      [GoWebAuthn] and an effect.

    ** What the theorems show

    - Safety of services: every write is performed after the permission question
      was asked and answered yes, whatever stores and providers answer
      ([transfers_authorised], [changes_authorised], [team_changes_authorised],
      [triage_writes_authorised], [Merge_authorised_and_recorded]); nothing
      private is published ([publishes_public_only],
      [memberships_published_by_choice]); webhooks are dialled outside the
      reserved ranges only, and are signed ([dials_outside_reserved], which also shows the
      two private ways that are left, and [deliveries_signed]); what an account blocks or
      hides no page shows it ([moderation_applies]).
    - Credentials and requests: no credential outlives its revocation
      ([credentials_history], [revocation_final]), what is issued works
      ([issued_credentials_work]), pushes and REST requests pass exactly with the right
      token, scope and role ([push_authorized_iff], [gates_decide], with the hole that
      [status_tokens_need_no_permission] shows), git serves nobody else
      ([transports_authorised], [parseCommand_iff]); logins are complete or given up
      ([login_settles]) and move the owner routes ([login_owns_handle],
      [current_handle_resolves]).
    - Federation: a decoded event is what its type promises ([DecodeEvent_sound]);
      processing refines an abstract replica - newest accepted value of every
      record and identity, receipts, cursor - whatever fails ([Process_refines]);
      so every history of deliveries, in any order and with repetitions, leaves the
      newest values ([stream_history]) and two instances that received the same
      events agree ([instances_converge]); an event that does not decode is
      receipted with its reason ([rejected_received]).
    - Publication: every record of a person's own that a publisher posts, any instance
      reads back as it was written, statuses with the creation time of their slot
      ([published_records_heard], with the class [RecordLaws] of what indigo's syntax
      package documents); but triage without assignees stops every indexer
      ([unassigned_triage_blocks]). A publisher opens the
      session of its own account only, at its own host, under the account's lock, and
      stores and releases it whatever fails ([publishers_keep_session]).
    - Releases: an upload is stored whole, row and blob, or leaves no row
      ([upload_all_or_nothing]); quotas hold over all histories ([quotas_hold]); deletion
      takes every asset, and resumes where it failed ([Delete_completes]).
    - Passkeys: a ceremony finishes only what it was begun for ([ceremonies_bound]), its
      token serves one attempt ([tokens_single_use]), and the registered keys never change
      hands ([passkeys_history]).
    - Invariants of the tables over all histories: [transfer_history],
      [delivery_history], [deletion_history], [check_runs_history],
      [organization_history], [teams_stay_forest].
    - Liveness and termination: [Accept_completes], [deliveries_drain],
      [purge_completes], [descendants_exact].
    - Equivalence with a reference: [permissions_follow_rule], [pages_complete],
      [publicIP_iff], [comments_paged], [validateCID_iff], [validateBranch_iff].
    - Round trips ([cursor_roundtrip], [decrypt_encrypt]), error paths
      ([lifecycle_compensates], [Create_settles], [deleted_only_once], [failures_stick],
      [limit_zero_panics]), the settings of git ([protection_applied]) and
      idempotency ([refs_updated_once], [CreateCheckRun_replay]).

    ** Bounds and fuel

    Worker loops over a page of due rows recur on the page; [purge], which asks
    for pages until one is empty, takes fuel, and [purge_completes] shows that
    one more than the number of due deletions is enough. The recursive queries
    over teams go as many levels deep as there are teams, and [descendants_exact]
    shows that deeper levels are empty. Paths of repository transfers are at most 32
    edges long, as in the query. [Webhook.webhook.retryDelay] shifts at
    the width of int64. Page limits are at most 100, so that [limit + 1] fits
    int32.

    ** What is not modelled

    - Foreign keys between tables, except where a query depends on them; isolation
      anomalies and locks (a statement or a transaction is atomic, so two concurrent moves
      of teams under READ COMMITTED are not considered, nor which transactions wait for
      each other: the advisory locks of a projection are queries that change no row),
      cancelled contexts, rounding of timestamps to microseconds. Clocks answer
      arbitrary instants. Text is ordered by bytes. A string that a text or jsonb
      column refuses (one with the NUL character) is stored like any other.
    - Running the git executable, HTTP, DNS and AT Protocol requests: effects
      with arbitrary answers.
    - Parsing of HTTP requests (cookies, Basic authentication, headers) and of SSH
      messages, golang.org/x/crypto/ssh and google/uuid: the model starts from what they
      give. Of the Git servers, listening, connection slots, timeouts and the host key.
    - The OAuth provider, the WebAuthn library, the files and buckets that hold the blobs
      of releases, the bodies of the REST handlers behind the gates,
      configuration, observability and the command line: glue around libraries. That
      records of repositories, transfers and organizations decode is not claimed, only
      how they are published. Of the generated
      package dbgen (internal/database/generated) the queries the modelled code
      makes are modelled, by their SQL; the generated REST server is not.
*)

From Stdlib Require Export Ascii.
From Stdlib Require Export ZArith Lia.
From stdpp Require Export base list strings gmap sorting.

#[global] Open Scope string_scope.
#[global] Open Scope list_scope.
#[global] Open Scope Z_scope.

Declare Scope go_scope.
Delimit Scope go_scope with go.

(** ** Errors

    A Go error is kept as the syntax tree of the calls that built it:
    [errors.New], [fmt.Errorf] with its operands (only the [%w] ones are
    unwrapped), the packages' [*ValidationError] (a class and a field), their
    redacted [*ConflictError], [*AuthorizationError] and [*ProviderError] (a
    class and a private cause), and [errors.Join]. *)
Inductive error : Type :=
| New (text : string)
| Errorf (format : string) (operands : list operand)
| FieldError (class : error) (Field Problem : string)
| CauseError (class : error) (operation : string) (cause : option error)
| Join (errs : list error)
with operand : Type :=
| W (e : error)
| V (e : error)
| Str (s : string)
| Int (z : Z).

(** [errors.Is err target] for a package-level [target = errors.New text]. *)
Fixpoint is_text (target : string) (err : error) {struct err} : bool :=
  match err with
  | New t => String.eqb t target
  | Errorf _ ops =>
      (fix any (ops : list operand) : bool :=
         match ops with
         | [] => false
         | W e :: rest => is_text target e || any rest
         | _ :: rest => any rest
         end) ops
  | FieldError c _ _ => is_text target c
  | CauseError c _ cause =>
      is_text target c
      || match cause with Some e => is_text target e | None => false end
  | Join errs =>
      (fix any (errs : list error) : bool :=
         match errs with
         | [] => false
         | e :: rest => is_text target e || any rest
         end) errs
  end.

Definition Is (err target : error) : bool :=
  match target with New t => is_text t err | _ => false end.
#[global] Arguments Is : simpl never.

(** ** Results: a Go [(T, error)] pair of which exactly one half matters. *)
Inductive result (A : Type) : Type :=
| Ok (value : A)
| Err (e : error).
Arguments Ok {A} value.
Arguments Err {A} e.

#[export] Instance result_ret : MRet result := @Ok.
#[export] Instance result_bind : MBind result :=
  fun A B f r => match r with Ok x => f x | Err e => Err e end.
#[export] Instance result_fmap : FMap result :=
  fun A B f r => match r with Ok x => Ok (f x) | Err e => Err e end.

(** [p != nil]. *)
Definition is_some {A} (o : option A) : bool := match o with Some _ => true | None => false end.
Definition is_Ok {A} (r : result A) : bool :=
  match r with Ok _ => true | Err _ => false end.

(** Rewrites the error half: [if err != nil { return wrap(err) }]. *)
Definition mapErr {A} (wrap : error -> error) (r : result A) : result A :=
  match r with Ok x => Ok x | Err e => Err (wrap e) end.

(** [if cond { return err }] in front of the rest of a function. *)
Definition reject {A} (cond : bool) (e : error) (rest : result A) : result A :=
  if cond then Err e else rest.

Notation "'let*' x ':=' r 'in' k" :=
  (mbind (M := result) (fun x => k) r)
  (at level 10, x pattern, r at level 200, k at level 200)
  : go_scope.
Notation "'reject_if' c 'with' e ';;' k" := (reject c e k)
  (at level 10, c at level 99, e at level 99, k at level 200) : go_scope.
(** [==] and [!=] on strings. *)
Notation "s '==' t" := (String.eqb s t) (at level 70, no associativity) : go_scope.
Notation "s '!=' t" := (negb (String.eqb s t)) (at level 70, no associativity) : go_scope.
#[global] Open Scope go_scope.

Lemma neq_false s t : (s != t) = false <-> s = t.
Proof. by rewrite negb_false_iff, String.eqb_eq. Qed.

Lemma eq_true s t : (s == t) = true <-> s = t.
Proof. apply String.eqb_eq. Qed.

Lemma bind_Ok {A B} (f : A -> result B) (r : result A) (b : B) :
  mbind (M := result) f r = Ok b <-> exists a, r = Ok a /\ f a = Ok b.
Proof. destruct r; cbn; naive_solver. Qed.

Lemma bind_unit_Ok {B} (k : result B) (r : result unit) (b : B) :
  mbind (M := result) (fun _ => k) r = Ok b <-> r = Ok tt /\ k = Ok b.
Proof. destruct r as [[] |]; cbn; naive_solver. Qed.

Lemma mapErr_Ok {A} f (r : result A) a : mapErr f r = Ok a <-> r = Ok a.
Proof. destruct r; cbn; naive_solver. Qed.

Lemma reject_Ok {A} c e (k : result A) a :
  reject c e k = Ok a <-> c = false /\ k = Ok a.
Proof. destruct c; cbn; naive_solver. Qed.

(** A key determined by its value. *)
Lemma snd_unique {A B} (l : list (A * B)) x y b :
  NoDup (map snd l) -> (x, b) ∈ l -> (y, b) ∈ l -> x = y.
Proof.
  induction l as [| [a c] l IH]; cbn; [by intros _ ?%elem_of_nil |].
  intros [Hc Hl]%NoDup_cons. rewrite !elem_of_cons.
  assert (Hin : forall z, (z, c) ∉ l).
  { intros z Hz. apply Hc, list_elem_of_fmap. by exists (z, c). }
  intros [[= -> ->] | Hx] [[= ->] | Hy]; try done; subst; naive_solver.
Qed.

Lemma NoDup_map_inj {A B} (f : A -> B) l x y :
  NoDup (map f l) -> x ∈ l -> y ∈ l -> f x = f y -> x = y.
Proof.
  induction l as [| a l IH]; cbn; [by intros _ ?%elem_of_nil |].
  intros [Ha Hl]%NoDup_cons. rewrite !elem_of_cons. intros [-> | Hx] [-> | Hy] Hf; auto.
  - destruct Ha. rewrite Hf. by apply list_elem_of_fmap_2.
  - destruct Ha. rewrite <- Hf. by apply list_elem_of_fmap_2.
Qed.

Lemma existsb_false {A} (f : A -> bool) l : existsb f l = false <-> Forall (fun x => f x = false) l.
Proof.
  induction l as [| x l IH]; cbn; [split; [constructor | done] |].
  by rewrite orb_false_iff, Forall_cons, IH.
Qed.

Lemma Forall2_exists_l {A B} (P : A -> B -> Prop) l k x :
  Forall2 P l k -> x ∈ l -> exists y, y ∈ k /\ P x y.
Proof.
  intros HF (i & Hi)%list_elem_of_lookup_1.
  destruct (Forall2_lookup_l _ _ _ _ _ HF Hi) as (y & Hy & Hp).
  exists y. split; [by eapply list_elem_of_lookup_2 | done].
Qed.

Lemma Forall2_map_eq {A B} (P : A -> A -> Prop) (f : A -> B) l k :
  (forall x y, P x y -> f y = f x) -> Forall2 P l k -> map f k = map f l.
Proof. intros Hf HF. induction HF as [| x y l k Hp _ IH]; cbn; [done |]. by rewrite IH, (Hf x y Hp). Qed.

Lemma Forall2_comp {A B C} (P : A -> B -> Prop) (Q : B -> C -> Prop) (R : A -> C -> Prop) l k m :
  (forall x y z, P x y -> Q y z -> R x z) -> Forall2 P l k -> Forall2 Q k m -> Forall2 R l m.
Proof.
  intros HR HP. revert m. induction HP as [| x y l k Hxy _ IH]; intros m HQ.
  - by apply Forall2_nil_inv_l in HQ as ->.
  - apply Forall2_cons_inv_l in HQ as (z & m' & Hyz & HQ & ->). constructor; eauto.
Qed.

Lemma map_Forall2 {A B} (f : A -> B) l : Forall2 (fun x y => x ∈ l /\ y = f x) l (map f l).
Proof.
  induction l as [| x l IH]; cbn; constructor; [split; [by left | done] |].
  eapply Forall2_impl; [exact IH |]. intros a b [Ha ->]. split; [by right | done].
Qed.

Lemma filter_elem {A} (f : A -> bool) l x : x ∈ List.filter f l <-> x ∈ l /\ f x = true.
Proof. by rewrite !list_elem_of_In, filter_In. Qed.

Lemma NoDup_map_filter {A B} (f : A -> B) (g : A -> bool) l :
  NoDup (map f l) -> NoDup (map f (List.filter g l)).
Proof.
  induction l as [| x l IH]; cbn; [done |]. intros [Hx Hl]%NoDup_cons.
  destruct (g x); cbn; [| by apply IH]. apply NoDup_cons. split; [| by apply IH].
  intros Hin. apply Hx. apply list_elem_of_fmap in Hin as (y & -> & [Hy _]%filter_elem).
  by apply list_elem_of_fmap_2.
Qed.

Lemma elem_of_snoc {A} (l : list A) (x : A) : x ∈ l ++ [x].
Proof. apply elem_of_app. right. by left. Qed.

Lemma Forall_sublist_of {A} (P : A -> Prop) (l k : list A) :
  sublist l k -> Forall P k -> Forall P l.
Proof.
  intros Hlk Hk. rewrite Forall_forall in *. intros x Hx. by eapply Hk, elem_of_sublist.
Qed.

Lemma filter_sublist_of {A} (f : A -> bool) l : sublist (List.filter f l) l.
Proof. induction l as [| x l IH]; cbn; [constructor |]. case_match; by constructor. Qed.
Lemma find_app_last {R} (f : R -> bool) rows row :
  existsb f rows = false -> f row = true -> List.find f (rows ++ [row]) = Some row.
Proof.
  induction rows as [| r rows IH]; cbn; [by intros _ -> |].
  intros [Hr Hrows]%orb_false_iff Hf. rewrite Hr. auto.
Qed.
Lemma filter_twice {A} (f g : A -> bool) l :
  (forall x, f x = true -> g x = true) -> List.filter f (List.filter g l) = List.filter f l.
Proof.
  intros Hfg. induction l as [| x l IH]; [done |]. cbn. destruct (g x) eqn:Hg; cbn; rewrite IH; [done |].
  destruct (f x) eqn:Hf; [by rewrite (Hfg x Hf) in Hg | done].
Qed.
Lemma NoDup_snoc {A} (l : list A) x : x ∉ l -> NoDup l -> NoDup (l ++ [x]).
Proof.
  intros Hx Hl. apply NoDup_app. split_and!; [done | | apply NoDup_singleton].
  intros y Hy ->%list_elem_of_singleton. done.
Qed.
Lemma filter_snoc {A} (f : A -> bool) l x : List.filter f (l ++ [x]) = List.filter f l ++ (if f x then [x] else []).
Proof. induction l as [| y l IH]; cbn; [by destruct (f x) |]. destruct (f y); cbn; by rewrite IH. Qed.
Lemma filter_none {A} (f : A -> bool) l : (forall x, x ∈ l -> f x = false) -> List.filter f l = [].
Proof. induction l as [| x l IH]; [done |]. cbn. intros Hf. rewrite Hf by left. apply IH. set_solver. Qed.
(** The one row of a key. *)
Lemma filter_unique {A} (key : A -> Z) l x :
  NoDup (map key l) -> x ∈ l -> List.filter (fun y => key y =? key x) l = [x].
Proof.
  induction l as [| y l IH]; [by intros _ ?%not_elem_of_nil |]. cbn. intros [Hy Hnd]%NoDup_cons Hx.
  apply elem_of_cons in Hx as [-> | Hx].
  - rewrite Z.eqb_refl. f_equal. apply filter_none. intros z Hz. apply Z.eqb_neq. intros Heq.
    apply Hy. rewrite <- Heq. by apply list_elem_of_fmap_2.
  - destruct (Z.eqb_spec (key y) (key x)) as [Heq |]; [| by apply IH].
    exfalso. apply Hy. rewrite Heq. by apply list_elem_of_fmap_2.
Qed.
Lemma filter_swap {A} (f g : A -> bool) l : List.filter f (List.filter g l) = List.filter g (List.filter f l).
Proof.
  induction l as [| x l IH]; [done |]. cbn. destruct (f x) eqn:Hf, (g x) eqn:Hg; cbn; rewrite ?Hf, ?Hg, IH; done.
Qed.

(** ** Time, identifiers, lengths *)

(** A [time.Time] is its instant: nanoseconds since the zero time
    (January 1, year 1, 00:00:00 UTC), so the zero value is [0] and [UTC()]
    is the identity. *)
Abbreviation time := Z (only parsing).
Definition zeroTime : time := 0.
Definition IsZero (t : time) : bool := t =? 0.
Definition Before (t u : time) : bool := t <? u.
Definition After (t u : time) : bool := u <? t.
Definition UTC (t : time) : time := t.
Definition second : Z := 1000000000.
Definition hour : Z := 3600 * second.

(** The creation and update times of a record: both set, in that order. *)
Definition ordered_times (createdAt updatedAt : time) : Prop :=
  createdAt <> zeroTime /\ updatedAt <> zeroTime /\ createdAt <= updatedAt.

(** A [uuid.UUID] ([[16]byte]) is its 128-bit value; [uuid.Nil] is [0]. *)
Abbreviation UUID := Z (only parsing).
Definition uuid_Nil : UUID := 0.

(** [len(s)] of a Go string, in bytes. *)
Definition len (s : string) : Z := Z.of_nat (String.length s).

Lemma len_nonneg s : 0 <= len s.
Proof. unfold len. lia. Qed.

(** ** Effectful programs

    A service method is a program over the effects [E] of its package: calls
    to its store, its publisher, the clock and other services, each of which
    answers a value of the effect's type.  The answers are arbitrary, so what
    holds of every run holds for every database and provider behaviour. *)
Inductive prog (E : Type -> Type) (A : Type) : Type :=
| Ret (a : A)
| Vis {X : Type} (e : E X) (k : X -> prog E A).
Arguments Ret {E A} a.
Arguments Vis {E A X} e k.

Fixpoint prog_bind {E A B} (p : prog E A) (f : A -> prog E B) : prog E B :=
  match p with
  | Ret a => f a
  | Vis e k => Vis e (fun x => prog_bind (k x) f)
  end.

(** A service returning [(A, error)]. *)
Abbreviation svc E A := (prog E (result A)) (only parsing).

Definition svc_bind {E A B} (p : svc E A) (f : A -> svc E B) : svc E B :=
  prog_bind p (fun r => match r with Ok x => f x | Err e => Ret (Err e) end).
Definition call {E X} (e : E X) : prog E X := Vis e Ret.
Definition wrapErr {E A} (wrap : error -> error) (p : svc E A) : svc E A :=
  prog_bind p (fun r => Ret (mapErr wrap r)).
Definition fail {E A} (e : error) : svc E A := Ret (Err e).
Definition done_ {E A} (a : A) : svc E A := Ret (Ok a).
Definition lift {E A} (r : result A) : svc E A := Ret r.

Notation "'let?' x ':=' p 'in' k" := (svc_bind p (fun x => k))
  (at level 10, x pattern, p at level 200, k at level 200)
  : go_scope.
Notation "'let!' x ':=' p 'in' k" := (prog_bind p (fun x => k))
  (at level 10, x pattern, p at level 200, k at level 200)
  : go_scope.

(** One exchange of a run: an effect and its answer. *)
Inductive event (E : Type -> Type) : Type :=
| Ev {X : Type} (e : E X) (x : X).
Arguments Ev {E X} e x.

(** [runs p tr a]: answered as [tr] says, [p] performs exactly the effects of
    [tr] in that order and returns [a]. *)
Fixpoint runs {E A} (p : prog E A) (tr : list (event E)) (a : A) : Prop :=
  match p, tr with
  | Ret b, [] => b = a
  | Vis e k, ev :: tr => exists x, ev = Ev e x /\ runs (k x) tr a
  | _, _ => False
  end.

(** Weakest precondition: [G h e] must hold whenever effect [e] is performed
    after the history [h], and [Q] must hold of the final history and result. *)
Fixpoint wp {E A} (G : list (event E) -> forall X, E X -> Prop)
    (p : prog E A) (Q : list (event E) -> A -> Prop) (h : list (event E)) : Prop :=
  match p with
  | Ret a => Q h a
  | @Vis _ _ X e k => G h X e /\ forall x, wp G (k x) Q (h ++ [Ev e x])
  end.

Definition no_guard {E} (h : list (event E)) (X : Type) (e : E X) : Prop := True.

Section ProgFacts.
Context {E : Type -> Type}.

Lemma wp_bind {A B} G (p : prog E A) (f : A -> prog E B) Q h :
  wp G (prog_bind p f) Q h <-> wp G p (fun h' a => wp G (f a) Q h') h.
Proof.
  revert h; induction p as [a | X e k IH]; intros h; cbn; [done |].
  split; intros [HG Hk]; (split; [done |]); intros x; apply IH, Hk.
Qed.

Lemma wp_mono {A} G (p : prog E A) (Q R : list (event E) -> A -> Prop) h :
  (forall h' a, Q h' a -> R h' a) -> wp G p Q h -> wp G p R h.
Proof.
  intros HQR; revert h; induction p as [a | X e k IH]; intros h; cbn; [auto |].
  intros [HG Hk]; split; [done |]; intros x; apply IH, Hk.
Qed.

(** What holds of every longer history and result needs no proof about the
    program. *)
Lemma wp_always {A} (p : prog E A) Q h :
  (forall t a, Q (h ++ t) a) -> wp (fun _ _ _ => True) p Q h.
Proof.
  revert h; induction p as [a | X e k IH]; intros h HQ; cbn.
  - specialize (HQ [] a). by rewrite app_nil_r in HQ.
  - split; [done |]. intros x. apply IH. intros t a. rewrite <- app_assoc. apply HQ.
Qed.

Lemma wp_svc_bind {A B} G (p : svc E A) (f : A -> svc E B) Q h :
  wp G (svc_bind p f) Q h <->
  wp G p (fun h' r => match r with Ok a => wp G (f a) Q h' | Err e => Q h' (Err e) end) h.
Proof.
  unfold svc_bind. rewrite wp_bind. split; apply wp_mono; by intros h' [a | e].
Qed.

(** A history only grows. *)
Lemma wp_history {A} G (p : prog E A) Q h :
  wp G p Q h -> wp G p (fun h' a => Q h' a /\ exists t, h' = h ++ t) h.
Proof.
  enough (H : forall t, wp G p Q (h ++ t) ->
            wp G p (fun h' a => Q h' a /\ exists t, h' = h ++ t) (h ++ t)).
  { specialize (H []). by rewrite app_nil_r in H. }
  induction p as [a | X e k IH]; intros t; cbn; [by eauto |].
  intros [HG Hk]. split; [done |]. intros x. specialize (Hk x).
  rewrite <- app_assoc in *. by apply IH.
Qed.

(** What a program does from the empty history it does from any other, if the
    effects it was shown to use are always permitted. *)
Lemma wp_embed {A} (P : forall X, E X -> Prop) G (p : prog E A) Q h :
  (forall h' X (e : E X), P X e -> G h' X e) ->
  wp (fun _ => P) p Q [] -> wp G p (fun h' a => exists t, h' = h ++ t /\ Q t a) h.
Proof.
  intros HPG.
  enough (H : forall t, wp (fun _ => P) p Q t ->
    wp G p (fun h' a => exists t, h' = h ++ t /\ Q t a) (h ++ t)).
  { intros Hw. specialize (H [] Hw). by rewrite app_nil_r in H. }
  induction p as [a | X e k IH]; intros t; cbn; [eauto |].
  intros [HP Hk]. split; [by apply HPG |]. intros x. rewrite <- app_assoc. apply IH, Hk.
Qed.

(** Every run of a program satisfies what its weakest precondition says. *)
Lemma wp_sound {A} G (p : prog E A) Q h tr a :
  wp G p Q h -> runs p tr a ->
  Q (h ++ tr) a /\
  forall pre X (e : E X) x post, tr = pre ++ Ev e x :: post -> G (h ++ pre) X e.
Proof.
  revert h tr; induction p as [b | Y e k IH]; intros h tr; destruct tr as [| ev tr];
    cbn; try tauto.
  - intros HQ <-. rewrite app_nil_r. split; [done |].
    intros [| ? ?] ? ? ? ? [=].
  - intros [HG Hk] (x & -> & Hr).
    destruct (IH x _ _ (Hk x) Hr) as [HQ Hg].
    rewrite <- app_assoc in HQ. split; [done |].
    intros [| ev' pre] X' e' x' post Htr.
    + rewrite app_nil_r. cbn in Htr.
      assert (Hev : Ev e x = Ev e' x') by congruence.
      pose proof (f_equal (fun ev => match ev with @Ev _ Z e0 _ => G h Z e0 end) Hev)
        as HGeq.
      cbn in HGeq. by rewrite <- HGeq.
    + injection Htr as <- Htr.
      specialize (Hg pre X' e' x' post Htr). by rewrite <- app_assoc in Hg.
Qed.

(** Every effect of every run is one that [G] permits after what preceded it;
    every run ends as [Q] says. *)
Definition guarded {A} (G : list (event E) -> forall X, E X -> Prop) (p : prog E A) : Prop :=
  forall tr a pre X (e : E X) x post,
    runs p tr a -> tr = pre ++ Ev e x :: post -> G pre X e.
Definition ensures {A} (Q : list (event E) -> A -> Prop) (p : prog E A) : Prop :=
  forall tr a, runs p tr a -> Q tr a.

Lemma wp_ensures {A} G (p : prog E A) Q : wp G p Q [] -> ensures Q p.
Proof. intros Hw tr a Hr. apply (wp_sound _ _ _ _ _ _ Hw Hr). Qed.

Lemma wp_guarded {A} G (p : prog E A) Q : wp G p Q [] -> guarded G p.
Proof. intros Hw tr a pre X e x post Hr Htr. by eapply (wp_sound _ _ _ _ _ _ Hw Hr). Qed.

(** [P] of every effect a program may perform, whatever it is answered. *)
Fixpoint every {A} (P : forall X, E X -> Prop) (p : prog E A) : Prop :=
  match p with Ret _ => True | @Vis _ _ X e k => P X e /\ forall x, every P (k x) end.

Lemma every_bind {A B} P (p : prog E A) (f : A -> prog E B) :
  every P p -> (forall a, every P (f a)) -> every P (prog_bind p f).
Proof. intros Hp Hf. induction p as [a | X e k IH]; cbn in *; [apply Hf | naive_solver]. Qed.
Lemma every_then {A B} P (p : svc E A) (f : A -> svc E B) :
  every P p -> (forall a, every P (f a)) -> every P (svc_bind p f).
Proof. intros Hp Hf. apply every_bind; [done |]. by intros [a |]. Qed.
Lemma every_ret {A} P (a : A) : every P (Ret a).
Proof. done. Qed.
Lemma every_mono {A} (P Q : forall X, E X -> Prop) (p : prog E A) :
  (forall X e, P X e -> Q X e) -> every P p -> every Q p.
Proof. intros HPQ. induction p as [a | X e k IH]; cbn; [done |]. intros [He Hk]. split; auto. Qed.

Lemma every_guarded {A} (P : forall X, E X -> Prop) (p : prog E A) : every P p -> guarded (fun _ => P) p.
Proof.
  intros Hp. apply (wp_guarded _ _ (fun _ _ => True)). generalize (@nil (event E)).
  induction p as [a | X e k IH]; intros h; cbn in *; [done |]. destruct Hp as [He Hk]. split; auto.
Qed.

(** Monad laws, up to pointwise equality of continuations. *)
Inductive prog_eq {A} : prog E A -> prog E A -> Prop :=
| prog_eq_ret a : prog_eq (Ret a) (Ret a)
| prog_eq_vis X (e : E X) k k' :
    (forall x, prog_eq (k x) (k' x)) -> prog_eq (Vis e k) (Vis e k').

#[export] Instance prog_eq_refl {A} : Reflexive (@prog_eq A).
Proof. intros p; induction p; constructor; auto. Qed.

#[export] Instance runs_proper {A} :
  Proper (prog_eq ==> eq ==> eq ==> iff) (@runs E A).
Proof.
  intros p q Hpq tr _ <- a _ <-. revert tr.
  induction Hpq as [b | X e k k' Hk IH]; intros tr; [done |].
  destruct tr as [| ev tr]; cbn; [done |].
  split; intros (x & -> & Hr); exists x; (split; [done |]); by apply IH.
Qed.

Lemma prog_bind_ret {A} (p : prog E A) : prog_eq (prog_bind p Ret) p.
Proof. induction p; cbn; constructor; auto. Qed.

Lemma prog_bind_assoc {A B C} (p : prog E A) (f : A -> prog E B) (g : B -> prog E C) :
  prog_eq (prog_bind (prog_bind p f) g) (prog_bind p (fun x => prog_bind (f x) g)).
Proof. induction p; cbn; [reflexivity | constructor; auto]. Qed.

(** Running against a concrete environment: a handler over a state [S]. *)
Section Run.
Context {S : Type} (handle : forall X, E X -> S -> X * S).

Fixpoint run {A} (p : prog E A) (s : S) : A * S * list (event E) :=
  match p with
  | Ret a => (a, s, [])
  | Vis e k =>
      let '(x, s') := handle _ e s in
      let '(a, s'', tr) := run (k x) s' in (a, s'', Ev e x :: tr)
  end.

Lemma run_runs {A} (p : prog E A) s :
  let '(a, _, tr) := run p s in runs p tr a.
Proof.
  revert s; induction p as [a | X e k IH]; intros s; cbn; [done |].
  destruct (handle X e s) as [x s'].
  specialize (IH x s'). destruct (run (k x) s') as [[a s''] tr]. cbn. eauto.
Qed.

Lemma run_bind {A B} (p : prog E A) (f : A -> prog E B) s :
  run (prog_bind p f) s =
  let '(a, s', tr) := run p s in
  let '(b, s'', tr') := run (f a) s' in (b, s'', tr ++ tr').
Proof.
  revert s; induction p as [a | X e k IH]; intros s; cbn.
  - by destruct (run (f a) s) as [[? ?] ?].
  - destruct (handle X e s) as [x s']. rewrite IH.
    destruct (run (k x) s') as [[a s''] tr].
    by destruct (run (f a) s'') as [[? ?] ?].
Qed.

(** The result and the final state. *)
Definition exec {A} (p : prog E A) (s : S) : A * S := fst (run p s).

Lemma exec_bind {A B} (p : prog E A) (f : A -> prog E B) s :
  exec (prog_bind p f) s = let '(a, s') := exec p s in exec (f a) s'.
Proof.
  unfold exec. rewrite run_bind. destruct (run p s) as [[a s'] tr]. cbn.
  by destruct (run (f a) s') as [[b s''] tr'].
Qed.
Lemma exec_vis {X A} (e : E X) (k : X -> prog E A) s :
  exec (Vis e k) s = let '(x, s') := handle X e s in exec (k x) s'.
Proof.
  unfold exec. cbn. destruct (handle X e s) as [x s'].
  by destruct (run (k x) s') as [[a s''] tr].
Qed.
Lemma exec_ret {A} (a : A) s : exec (Ret a) s = (a, s).
Proof. done. Qed.
Lemma exec_call {X} (e : E X) s : exec (call e) s = handle X e s.
Proof. unfold call. rewrite exec_vis. by destruct (handle X e s). Qed.
Lemma exec_then {A B} (p : svc E A) (f : A -> svc E B) s :
  exec (svc_bind p f) s =
  match exec p s with (Ok a, s') => exec (f a) s' | (Err e, s') => (Err e, s') end.
Proof. unfold svc_bind. rewrite exec_bind. by destruct (exec p s) as [[a | e] s']. Qed.
Lemma exec_wrap {A} wrap (p : svc E A) s :
  exec (wrapErr wrap p) s = let '(r, s') := exec p s in (mapErr wrap r, s').
Proof. unfold wrapErr. rewrite exec_bind. by destruct (exec p s). Qed.

(** What no effect of a program changes, the program does not change. *)
Lemma exec_every {A T} (view : S -> T) (P : forall X, E X -> Prop) (p : prog E A) s :
  (forall X e s, P X e -> view (snd (handle X e s)) = view s) -> every P p ->
  view (snd (exec p s)) = view s.
Proof.
  intros Hh. revert s. induction p as [a | X e k IH]; intros s; cbn; [done |]. intros [He Hk].
  rewrite exec_vis. specialize (Hh X e s He). destruct (handle X e s) as [x s']. cbn in Hh.
  by rewrite IH.
Qed.

(** A service that succeeds went through the success of its first part. *)
Lemma exec_then_Ok {A B} (p : svc E A) (f : A -> svc E B) s b s' :
  exec (svc_bind p f) s = (Ok b, s') ->
  exists a s1, exec p s = (Ok a, s1) /\ exec (f a) s1 = (Ok b, s').
Proof.
  unfold svc_bind. rewrite exec_bind. destruct (exec p s) as [[a | e] s1]; [eauto | done].
Qed.

(** An invariant of history and state that every permitted exchange keeps holds
    when a guarded program ends. *)
Lemma run_keeps {A} (G : list (event E) -> forall X, E X -> Prop) (I : list (event E) -> S -> Prop)
    (p : prog E A) h s :
  (forall h X (e : E X) s x s', G h X e -> I h s -> handle X e s = (x, s') -> I (h ++ [Ev e x]) s') ->
  (forall pre X (e : E X) x post, snd (run p s) = pre ++ Ev e x :: post -> G (h ++ pre) X e) ->
  I h s -> I (h ++ snd (run p s)) (snd (fst (run p s))).
Proof.
  intros Hstep. revert h s. induction p as [a | X e k IH]; intros h s; cbn.
  - intros _ Hi. by rewrite app_nil_r.
  - destruct (handle X e s) as [x s1] eqn:Hh. specialize (IH x).
    destruct (run (k x) s1) as [[a s2] tr] eqn:Hr. cbn. intros Hg Hi.
    specialize (IH (h ++ [Ev e x]) s1). rewrite Hr in IH. cbn in IH.
    rewrite <- app_assoc in IH. apply IH.
    + intros pre Y e' y post Htr. rewrite <- app_assoc. apply (Hg (Ev e x :: pre) Y e' y post).
      by rewrite Htr.
    + eapply Hstep; [| exact Hi | exact Hh]. specialize (Hg [] X e x tr eq_refl).
      by rewrite app_nil_r in Hg.
Qed.

Lemma exec_guarded {A} (G : list (event E) -> forall X, E X -> Prop) (I : list (event E) -> S -> Prop)
    (p : prog E A) s :
  (forall h X (e : E X) s x s', G h X e -> I h s -> handle X e s = (x, s') -> I (h ++ [Ev e x]) s') ->
  guarded G p -> I [] s -> exists tr, I tr (snd (exec p s)).
Proof.
  intros Hstep Hg Hi. exists (snd (run p s)).
  apply (run_keeps G I p [] s Hstep); [| done].
  pose proof (run_runs p s) as Hr. unfold exec. destruct (run p s) as [[a s'] tr]. cbn.
  intros pre X e x post ->. by eapply Hg.
Qed.
End Run.
End ProgFacts.

(** ** Tables: lists of rows a query selects from and updates *)

Section Tables.
Context {R : Type}.

(** The row a [SELECT] or a [RETURNING] of one row gives, or [missing]. *)
Definition find_row (missing : error) (f : R -> bool) (rows : list R) : result R :=
  match List.find f rows with Some row => Ok row | None => Err missing end.
Definition update_where (hit : R -> bool) (update : R -> R) (rows : list R) : list R :=
  map (fun row => if hit row then update row else row) rows.

Lemma find_row_Ok missing f rows row :
  find_row missing f rows = Ok row -> row ∈ rows /\ f row = true.
Proof.
  unfold find_row. destruct (List.find f rows) as [r |] eqn:Hf; [| done]. intros [= ->].
  apply find_some in Hf as [Hin Hr]. by apply list_elem_of_In in Hin.
Qed.

Lemma update_where_Forall2 (P : R -> R -> Prop) hit update (rows : list R) :
  (forall r, r ∈ rows -> hit r = true -> P r (update r)) -> (forall r, P r r) ->
  Forall2 P rows (update_where hit update rows).
Proof.
  intros Hu Hr. unfold update_where. induction rows as [| r rows IH]; cbn; [constructor |].
  constructor; [| apply IH; set_solver]. destruct (hit r) eqn:Hh; [apply Hu; [left | done] | done].
Qed.

(** A column the update does not set. *)
Lemma update_where_map {B} (column : R -> B) hit update (rows : list R) :
  (forall r, column (update r) = column r) ->
  map column (update_where hit update rows) = map column rows.
Proof.
  intros Hu. apply (Forall2_map_eq (fun r r' => column r' = column r)); [by intros r r' |].
  by apply update_where_Forall2.
Qed.

Lemma update_where_elem hit update (rows : list R) row :
  row ∈ update_where hit update rows <->
  exists r, r ∈ rows /\ row = if hit r then update r else r.
Proof. unfold update_where. rewrite list_elem_of_fmap. naive_solver. Qed.
End Tables.

(** ** Automation *)

Create HintDb go discriminated.
Create Rewrite HintDb go.
#[export] Hint Resolve len_nonneg : go.
#[export] Hint Rewrite @bind_Ok @mapErr_Ok @reject_Ok : go.

(** Takes a [... = Ok _] hypothesis about a validator apart. *)
Ltac go_inv H :=
  repeat (rewrite ?bind_Ok, ?mapErr_Ok, ?reject_Ok in H; cbn in H);
  repeat match goal with
  | H' : _ /\ _ |- _ => destruct H' as [? ?]
  | H' : exists _, _ |- _ => destruct H' as [? ?]
  end; simplify_eq.

(** One step of a weakest-precondition goal: discharge the guard, name the
    answer and split it into success and failure. *)
Ltac wp_step :=
  match goal with
  | |- _ /\ _ => split
  | |- forall _ : result _, _ => intros [?|?]; cbn
  | |- forall _, _ => intros ?; cbn
  | |- context [if ?b then _ else _] => destruct b eqn:?; cbn
  | |- context [match ?o with Some _ => _ | None => _ end] => destruct o eqn:?; cbn
  end.
