(* ===== verification/Keyset.v ===== *)
(** * Keyset: pages in order of creation, newest first.

    The [Page...] queries select the rows of a collection after a cursor row, and
    the services ask them for one row more than a page has, to know whether there
    is a next one. *)

From S2P Require Import Prelude.

Module keyset.

(** [ORDER BY created_at DESC, id DESC]. *)
Definition newer (x y : time * UUID) : Prop := fst y < fst x \/ fst x = fst y /\ snd y <= snd x.
#[export] Instance newer_dec : RelDecision newer.
Proof. intros x y. unfold newer. apply _. Defined.
#[export] Instance newer_trans : Transitive newer.
Proof. intros x y z. unfold newer. lia. Qed.
#[export] Instance newer_total : Total newer.
Proof. intros x y. unfold newer. lia. Qed.

(** A client that follows the cursors of a service's pages. *)
Fixpoint follow {T} (fetch : option UUID -> option (list T * option UUID)) (fuel : nat)
    (after : option UUID) : option (list T) :=
  match fuel with
  | O => None
  | S fuel =>
      '(items, next) ← fetch after;
      match next with
      | None => Some items
      | Some _ => rest ← follow fetch fuel next; Some (items ++ rest)
      end
  end.

Section Keyset.
Context {R : Type} (key : R -> time * UUID) (cursor_row mine : R -> bool).

Definition by_key (x y : R) : Prop := newer (key x) (key y).
#[export] Instance by_key_dec : RelDecision by_key.
Proof. intros x y. unfold by_key. apply _. Defined.
#[export] Instance by_key_trans : Transitive by_key.
Proof. intros x y z. unfold by_key. apply newer_trans. Qed.
#[export] Instance by_key_total : Total by_key.
Proof. intros x y. unfold by_key. apply newer_total. Qed.

Definition sorted_rows (rows : list R) : list R := merge_sort by_key rows.

(** The rows of [mine] after the cursor, at most [limit] of them. A cursor that is
    not one of the [cursor_row]s compares as NULL and yields nothing. *)
Definition page_rows (after : option UUID) (limit : Z) (rows : list R) : list R :=
  let mine_rows := List.filter mine rows in
  let eligible :=
    match after with
    | None => mine_rows
    | Some cursor =>
        match List.find (fun row => cursor_row row && (snd (key row) =? cursor)) rows with
        | None => []
        | Some c => List.filter (fun row => bool_decide (newer (key c) (key row))
                                            && negb (snd (key row) =? cursor)) mine_rows
        end
    end in
  firstn (Z.to_nat limit) (sorted_rows eligible).

(** The page and the next cursor a service makes of the [limit + 1] rows it asked
    for. *)
Definition cut (limit : Z) (rows : list R) : list R * option UUID :=
  let items := firstn (Z.to_nat limit) rows in
  (items, if limit <? Z.of_nat (length rows)
          then option_map (fun row => snd (key row)) (last items) else None).

(** What the pages are of. *)
Definition listing (rows : list R) : list R := sorted_rows (List.filter mine rows).

Context (rows : list R).
Hypothesis ids_unique : NoDup (map (fun row => snd (key row)) rows).
Hypothesis mine_cursor : forall row, mine row = true -> cursor_row row = true.

Lemma listing_elem row : row ∈ listing rows <-> row ∈ rows /\ mine row = true.
Proof.
  unfold listing, sorted_rows. rewrite merge_sort_Permutation, list_elem_of_In, filter_In.
  by rewrite <- list_elem_of_In.
Qed.

Lemma find_cursor row :
  row ∈ rows -> mine row = true ->
  List.find (fun r => cursor_row r && (snd (key r) =? snd (key row))) rows = Some row.
Proof.
  intros Hin Hm. destruct (List.find _ rows) as [c |] eqn:Hf.
  - apply find_some in Hf as [Hc%list_elem_of_In [_ Heq%Z.eqb_eq]%andb_true_iff].
    f_equal. by eapply (NoDup_map_inj (fun row => snd (key row))).
  - apply (find_none _ _) with (x := row) in Hf; [| by apply list_elem_of_In].
    by rewrite (mine_cursor row Hm), Z.eqb_refl in Hf.
Qed.

Lemma NoDup_rows : NoDup rows.
Proof. by eapply NoDup_fmap_1. Qed.

Lemma NoDup_listing : NoDup (listing rows).
Proof.
  unfold listing, sorted_rows. rewrite merge_sort_Permutation.
  apply NoDup_ListNoDup, List.NoDup_filter, NoDup_ListNoDup, NoDup_rows.
Qed.

Lemma by_key_antisym x y : x ∈ rows -> y ∈ rows -> by_key x y -> by_key y x -> x = y.
Proof.
  intros Hx Hy Hxy Hyx. eapply (NoDup_map_inj (fun row => snd (key row))); [done.. |].
  unfold by_key, newer in *. lia.
Qed.

Lemma listing_sorted : StronglySorted by_key (listing rows).
Proof. apply StronglySorted_merge_sort; apply _. Qed.

(** The rows older than one of the listing are those that follow it. *)
Lemma after_elem pre c post row :
  listing rows = pre ++ c :: post ->
  (row ∈ post <-> row ∈ listing rows /\ by_key c row /\ snd (key row) <> snd (key c)).
Proof.
  intros Hl. pose proof listing_sorted as Hs. pose proof NoDup_listing as Hnd.
  rewrite Hl in Hs, Hnd |- *. apply NoDup_app in Hnd as (_ & _ & [Hcp _]%NoDup_cons).
  assert (Hin : forall x, x ∈ pre ++ c :: post -> x ∈ rows).
  { intros x Hx. rewrite <- Hl in Hx. by apply listing_elem in Hx as [Hx _]. }
  apply StronglySorted_app in Hs as (Hpre & _ & Hs%StronglySorted_inv).
  destruct Hs as [_ Hs]. rewrite Forall_forall in Hs. split.
  - intros Hr. split_and!; [set_solver | by apply Hs |]. intros Heq. apply Hcp.
    replace c with row; [done |].
    eapply (NoDup_map_inj (fun row => snd (key row))); [done | apply Hin; set_solver.. | done].
  - intros (Hr & Hk & Hne). apply elem_of_app in Hr as [Hr | [-> | Hr]%elem_of_cons]; [| done..].
    exfalso. apply Hne. f_equal. f_equal.
    apply by_key_antisym; [apply Hin; set_solver.. | | done]. apply Hpre; [done | by left].
Qed.

Lemma listing_after pre c post limit :
  listing rows = pre ++ c :: post ->
  page_rows (Some (snd (key c))) limit rows = firstn (Z.to_nat limit) post.
Proof.
  intros Hl. assert (Hc : c ∈ listing rows) by (rewrite Hl; set_solver).
  pose proof (fun row => after_elem pre c post row Hl) as Hpost.
  apply listing_elem in Hc as [Hc Hm]. unfold page_rows. rewrite (find_cursor c Hc Hm). f_equal.
  assert (Hel : forall x, x ∈ List.filter (fun row => bool_decide (newer (key c) (key row))
            && negb (snd (key row) =? snd (key c))) (List.filter mine rows) <-> x ∈ post).
  { intros x. rewrite Hpost, listing_elem, list_elem_of_In, !filter_In, <- list_elem_of_In.
    rewrite andb_true_iff, bool_decide_eq_true, negb_true_iff, Z.eqb_neq. unfold by_key. tauto. }
  assert (Hperm : sorted_rows (List.filter (fun row => bool_decide (newer (key c) (key row))
            && negb (snd (key row) =? snd (key c))) (List.filter mine rows)) ≡ₚ post).
  { unfold sorted_rows. rewrite merge_sort_Permutation. apply NoDup_Permutation; [| | done].
    - apply NoDup_ListNoDup, List.NoDup_filter, List.NoDup_filter, NoDup_ListNoDup, NoDup_rows.
    - pose proof NoDup_listing as Hnd. rewrite Hl in Hnd.
      by apply NoDup_app in Hnd as (_ & _ & [_ Hnd]%NoDup_cons). }
  apply (StronglySorted_unique_strong by_key); [| apply StronglySorted_merge_sort; apply _ | | done].
  - intros x y Hx Hy. rewrite Hperm in Hx.
    apply by_key_antisym; [apply Hpost, proj1, listing_elem in Hx | apply Hpost, proj1, listing_elem in Hy];
      tauto.
  - pose proof listing_sorted as Hs. rewrite Hl in Hs.
    by apply StronglySorted_app_1_r, StronglySorted_inv in Hs as [Hs _].
Qed.

Lemma page_next limit (post : list R) : 1 <= limit ->
  cut limit (firstn (Z.to_nat (limit + 1)) post) =
  (firstn (Z.to_nat limit) post,
   if limit <? Z.of_nat (length post)
   then option_map (fun row => snd (key row)) (last (firstn (Z.to_nat limit) post)) else None).
Proof.
  intros Hl. unfold cut. rewrite firstn_firstn, length_firstn.
  replace (Nat.min (Z.to_nat limit) (Z.to_nat (limit + 1))) with (Z.to_nat limit) by lia.
  destruct (Z.ltb_spec limit (Z.of_nat (length post))) as [H | H].
  - by rewrite (proj2 (Z.ltb_lt _ _)) by lia.
  - by rewrite (proj2 (Z.ltb_ge _ _)) by lia.
Qed.

(** The position a cursor stands for: what is still to come after it. *)
Definition stands (after : option UUID) (post : list R) : Prop :=
  after = None /\ post = listing rows \/
  exists pre c, after = Some (snd (key c)) /\ listing rows = pre ++ c :: post.

Lemma page_stands after post limit : stands after post ->
  page_rows after limit rows = firstn (Z.to_nat limit) post.
Proof.
  intros [[-> ->] | (pre & c & -> & Hl)]; [done |]. by eapply listing_after.
Qed.

Lemma stands_next after post limit c : stands after post ->
  last (firstn (Z.to_nat limit) post) = Some c ->
  stands (Some (snd (key c))) (skipn (Z.to_nat limit) post).
Proof.
  intros Hst [items Hitems]%last_Some. right.
  assert (Hp : post = items ++ c :: skipn (Z.to_nat limit) post).
  { rewrite <- (firstn_skipn (Z.to_nat limit) post) at 1. by rewrite Hitems, <- app_assoc. }
  destruct Hst as [[-> Hpost] | (pre & c' & -> & Hl)].
  - exists items, c. split; [done |]. by rewrite <- Hpost.
  - exists (pre ++ c' :: items), c. split; [done |]. rewrite Hl, Hp at 1. by rewrite <- app_assoc.
Qed.

(** A service that cuts its pages so. *)
Context {T : Type} (value : R -> T) (limit : Z) (fetch : option UUID -> option (list T * option UUID)).
Hypothesis limit_positive : 1 <= limit.
Hypothesis fetches : forall after,
  fetch after = let '(items, next) := cut limit (page_rows after (limit + 1) rows) in
                Some (map value items, next).

Lemma follow_stands fuel : forall after post, stands after post ->
  (length post < fuel)%nat -> follow fetch fuel after = Some (map value post).
Proof.
  induction fuel as [| fuel IH]; intros after post Hst Hf; [lia |]. cbn [follow].
  rewrite fetches, (page_stands after post _ Hst), (page_next _ _ limit_positive). cbn [mbind option_bind].
  destruct (Z.ltb_spec limit (Z.of_nat (length post))) as [Hlt | Hge].
  2: { by rewrite firstn_all2 by lia. }
  destruct (last (firstn (Z.to_nat limit) post)) as [c |] eqn:Hlast.
  - cbn [option_map]. rewrite (IH _ _ (stands_next _ _ _ _ Hst Hlast)) by (rewrite length_skipn; lia).
    cbn. by rewrite <- map_app, firstn_skipn.
  - apply last_None in Hlast. apply (f_equal length) in Hlast. rewrite length_firstn in Hlast.
    cbn in Hlast. lia.
Qed.

(** The pages from the first on are the listing. *)
Lemma follow_all : follow fetch (S (length rows)) None = Some (map value (listing rows)).
Proof.
  apply follow_stands; [by left |].
  enough (length (listing rows) <= length rows)%nat by lia.
  unfold listing, sorted_rows. rewrite merge_sort_Permutation. apply filter_length_le.
Qed.
End Keyset.
End keyset.
