(* ===== verification/GoText.v ===== *)
(** * GoText: the parts of Go's [strings], [unicode/utf8], [unicode] and
    [slices] packages the modelled code calls.

    A Go string is a sequence of bytes, which is what [String.string] is.
    Ranging over a string yields runes: [decode] follows the acceptance table of
    package [unicode/utf8], so an invalid byte is a [RuneError] of width one. *)

From Stdlib Require Import OrdersEx.
From S2P Require Import Prelude.

(** ** Bytes *)

Definition byte_of (c : Ascii.ascii) : Z := Z.of_N (Ascii.N_of_ascii c).
Definition ascii_of (b : Z) : Ascii.ascii := Ascii.ascii_of_N (Z.to_N b).

Fixpoint bytes (s : string) : list Z :=
  match s with EmptyString => [] | String c s => byte_of c :: bytes s end.
Fixpoint of_bytes (bs : list Z) : string :=
  match bs with [] => EmptyString | b :: bs => String (ascii_of b) (of_bytes bs) end.

Definition is_byte (b : Z) : Prop := 0 <= b < 256.

Lemma byte_of_range c : is_byte (byte_of c).
Proof.
  unfold is_byte, byte_of. pose proof (Ascii.N_ascii_bounded c). lia.
Qed.

Lemma ascii_of_byte_of c : ascii_of (byte_of c) = c.
Proof.
  unfold ascii_of, byte_of. rewrite N2Z.id. apply Ascii.ascii_N_embedding.
Qed.

Lemma byte_of_ascii_of b : is_byte b -> byte_of (ascii_of b) = b.
Proof.
  unfold is_byte, ascii_of, byte_of. intros Hb.
  rewrite Ascii.N_ascii_embedding; lia.
Qed.

Lemma of_bytes_bytes s : of_bytes (bytes s) = s.
Proof. induction s as [| c s IH]; cbn; [done |]. by rewrite ascii_of_byte_of, IH. Qed.

Lemma bytes_of_bytes bs : Forall is_byte bs -> bytes (of_bytes bs) = bs.
Proof.
  induction 1 as [| b bs Hb _ IH]; cbn; [done |].
  by rewrite byte_of_ascii_of, IH.
Qed.

Lemma bytes_is_byte s : Forall is_byte (bytes s).
Proof. induction s; cbn; constructor; auto using byte_of_range. Qed.

Lemma append_nil_l s : EmptyString +:+ s = s.
Proof. done. Qed.

Lemma append_cons c s t : String c s +:+ t = String c (s +:+ t).
Proof. done. Qed.

Lemma bytes_app s t : bytes (s +:+ t) = bytes s ++ bytes t.
Proof. induction s as [| c s IH]; cbn; [done |]. by rewrite <- IH. Qed.

Lemma of_bytes_app bs cs : of_bytes (bs ++ cs) = of_bytes bs +:+ of_bytes cs.
Proof. induction bs as [| b bs IH]; cbn; [done |]. by rewrite IH. Qed.

Lemma length_bytes s : length (bytes s) = String.length s.
Proof. induction s; cbn; auto. Qed.

Lemma bytes_inj s t : bytes s = bytes t -> s = t.
Proof. intros H. by rewrite <- (of_bytes_bytes s), <- (of_bytes_bytes t), H. Qed.

Lemma len_bytes s : len s = Z.of_nat (length (bytes s)).
Proof. unfold len. by rewrite length_bytes. Qed.

(** ** Searching and splitting *)

Fixpoint HasPrefix (s prefix : string) {struct prefix} : bool :=
  match prefix, s with
  | EmptyString, _ => true
  | String p ps, String c cs => Ascii.eqb p c && HasPrefix cs ps
  | _, EmptyString => false
  end.

Fixpoint HasSuffix (s suffix : string) : bool :=
  String.eqb s suffix ||
  match s with EmptyString => false | String _ s' => HasSuffix s' suffix end.

Fixpoint Contains (s sub : string) : bool :=
  HasPrefix s sub ||
  match s with EmptyString => false | String _ s' => Contains s' sub end.

Fixpoint any_char (f : Ascii.ascii -> bool) (s : string) : bool :=
  match s with EmptyString => false | String c s => f c || any_char f s end.
Definition all_chars (f : Ascii.ascii -> bool) (s : string) : bool :=
  negb (any_char (fun c => negb (f c)) s).

(** [strings.ContainsAny(s, chars)] for a set of ASCII characters. *)
Definition ContainsAny (s chars : string) : bool :=
  any_char (fun c => any_char (Ascii.eqb c) chars) s.

(** [strings.TrimPrefix] and [strings.TrimSuffix]. *)
Fixpoint drop_chars (n : nat) (s : string) : string :=
  match n, s with
  | S n, String _ s => drop_chars n s
  | _, _ => s
  end.
Definition TrimPrefix (s prefix : string) : string :=
  if HasPrefix s prefix then drop_chars (String.length prefix) s else s.

(** [strings.TrimSuffix]. *)
Definition TrimSuffix (s suffix : string) : string :=
  if HasSuffix s suffix then String.substring 0 (String.length s - String.length suffix) s else s.

(** [strings.Split(s, sep)] for a one-byte separator. *)
Fixpoint Split (sep : Ascii.ascii) (s : string) : list string :=
  match s with
  | EmptyString => [EmptyString]
  | String c s' =>
      if Ascii.eqb c sep then EmptyString :: Split sep s'
      else match Split sep s' with
           | [] => [String c EmptyString]
           | w :: ws => String c w :: ws
           end
  end.

(** [strings.ReplaceAll] of a one-byte [old] by the empty string. *)
Fixpoint remove_char (c : Ascii.ascii) (s : string) : string :=
  match s with
  | EmptyString => EmptyString
  | String d s' => if Ascii.eqb d c then remove_char c s' else String d (remove_char c s')
  end.

Lemma HasPrefix_spec s p : HasPrefix s p = true <-> exists t, s = p +:+ t.
Proof.
  revert s; induction p as [| c p IH]; intros s; cbn.
  - split; [by exists s | done].
  - destruct s as [| d s]; [split; [done | by intros [? ?]] |].
    rewrite andb_true_iff, IH, Ascii.eqb_eq. split.
    + intros [-> [t ->]]. by exists t.
    + intros [t [= -> ->]]. eauto.
Qed.

Lemma HasSuffix_spec s p : HasSuffix s p = true <-> exists t, s = t +:+ p.
Proof.
  split.
  - induction s as [| c s IH]; cbn [HasSuffix].
    + rewrite orb_false_r, String.eqb_eq. intros <-. by exists EmptyString.
    + rewrite orb_true_iff, String.eqb_eq. intros [<- | [t ->]%IH].
      * by exists EmptyString.
      * by exists (String c t).
  - intros [t ->]. induction t as [| c t IH].
    + change (EmptyString +:+ p) with p.
      destruct p as [| d p]; [done |]. cbn [HasSuffix]. by rewrite String.eqb_refl.
    + rewrite append_cons. cbn [HasSuffix]. by rewrite IH, orb_true_r.
Qed.

Lemma Contains_spec s p : Contains s p = true <-> exists t u, s = t +:+ p +:+ u.
Proof.
  split.
  - induction s as [| c s IH]; cbn [Contains].
    + rewrite orb_false_r. intros [t Ht]%HasPrefix_spec. by exists EmptyString, t.
    + rewrite orb_true_iff. intros [[t Ht]%HasPrefix_spec | (t & u & ->)%IH].
      * by exists EmptyString, t.
      * by exists (String c t), u.
  - intros (t & u & ->). induction t as [| c t IH].
    + rewrite append_nil_l. enough (HasPrefix (p +:+ u) p = true) as Hp.
      { by destruct (p +:+ u); cbn [Contains]; rewrite Hp. }
      apply HasPrefix_spec. by exists u.
    + rewrite append_cons. cbn [Contains]. by rewrite IH, orb_true_r.
Qed.

Lemma Contains_char s c : Contains s (String c EmptyString) = any_char (Ascii.eqb c) s.
Proof.
  induction s as [| d s IH]; [done |]. cbn [Contains any_char HasPrefix].
  by rewrite IH, andb_true_r.
Qed.

Lemma any_char_app f s t : any_char f (s +:+ t) = any_char f s || any_char f t.
Proof.
  induction s as [| c s IH]; [done |].
  rewrite append_cons. cbn. by rewrite IH, orb_assoc.
Qed.

Lemma all_chars_cons f c s : all_chars f (String c s) = f c && all_chars f s.
Proof. unfold all_chars. cbn. by rewrite negb_orb, negb_involutive. Qed.

Lemma Split_not_nil sep s : Split sep s <> [].
Proof. destruct s; cbn; [done |]. case_match; [done |]. by case_match. Qed.

(** The components of a split contain no separator, and joining them with the
    separator gives the string back. *)
Fixpoint Join_ (sep : Ascii.ascii) (ws : list string) : string :=
  match ws with
  | [] => EmptyString
  | w :: ws' => match ws' with [] => w | _ => w +:+ String sep (Join_ sep ws') end
  end.

Lemma Join_Split sep s : Join_ sep (Split sep s) = s.
Proof.
  induction s as [| c s IH]; cbn; [done |].
  destruct (Ascii.eqb_spec c sep) as [-> | Hne].
  - destruct (Split sep s) as [| s0 l] eqn:Hs; [by apply Split_not_nil in Hs |].
    change (String sep (Join_ sep (s0 :: l)) = String sep s). by rewrite IH.
  - destruct (Split sep s) as [| w ws] eqn:Hs; [by apply Split_not_nil in Hs |].
    rewrite <- IH. by destruct ws.
Qed.

Lemma Split_no_sep sep s : Forall (fun w => any_char (fun c => Ascii.eqb c sep) w = false) (Split sep s).
Proof.
  induction s as [| c s IH]; cbn; [by repeat constructor |].
  destruct (Ascii.eqb c sep) eqn:Hc; [by constructor |].
  destruct (Split sep s) as [| w ws] eqn:Hs; [by apply Split_not_nil in Hs |].
  apply Forall_cons in IH as [Hw Hws]. constructor; [| done]. cbn. by rewrite Hc, Hw.
Qed.

(** ** UTF-8 *)

Definition RuneError : Z := 0xFFFD.
Definition between (lo b hi : Z) : bool := (lo <=? b) && (b <=? hi).
Definition cont (b : Z) : bool := between 0x80 b 0xBF.

Definition seq2 (b0 b1 : Z) : option Z :=
  if between 0xC2 b0 0xDF && cont b1
  then Some ((b0 - 0xC0) * 64 + (b1 - 0x80)) else None.
Definition seq3 (b0 b1 b2 : Z) : option Z :=
  if between 0xE0 b0 0xEF
     && between (if b0 =? 0xE0 then 0xA0 else 0x80) b1 (if b0 =? 0xED then 0x9F else 0xBF)
     && cont b2
  then Some ((b0 - 0xE0) * 4096 + (b1 - 0x80) * 64 + (b2 - 0x80)) else None.
Definition seq4 (b0 b1 b2 b3 : Z) : option Z :=
  if between 0xF0 b0 0xF4
     && between (if b0 =? 0xF0 then 0x90 else 0x80) b1 (if b0 =? 0xF4 then 0x8F else 0xBF)
     && cont b2 && cont b3
  then Some ((b0 - 0xF0) * 262144 + (b1 - 0x80) * 4096 + (b2 - 0x80) * 64 + (b3 - 0x80))
  else None.

(** The runes of a byte sequence with their widths, as [for _, r := range s]
    and [utf8.DecodeRune] yield them. *)
Fixpoint decode (bs : list Z) : list (Z * Z) :=
  match bs with
  | [] => []
  | b0 :: r0 =>
      if b0 <? 0x80 then (b0, 1) :: decode r0 else
      match r0 with
      | [] => [(RuneError, 1)]
      | b1 :: r1 =>
          match seq2 b0 b1 with
          | Some r => (r, 2) :: decode r1
          | None =>
              match r1 with
              | [] => (RuneError, 1) :: decode r0
              | b2 :: r2 =>
                  match seq3 b0 b1 b2 with
                  | Some r => (r, 3) :: decode r2
                  | None =>
                      match r2 with
                      | [] => (RuneError, 1) :: decode r0
                      | b3 :: r3 =>
                          match seq4 b0 b1 b2 b3 with
                          | Some r => (r, 4) :: decode r3
                          | None => (RuneError, 1) :: decode r0
                          end
                      end
                  end
              end
          end
      end
  end.

Definition runes (s : string) : list Z := map fst (decode (bytes s)).
Definition RuneCountInString (s : string) : Z := Z.of_nat (length (runes s)).
Definition ValidString (s : string) : bool :=
  forallb (fun '(r, w) => negb ((r =? RuneError) && (w =? 1))) (decode (bytes s)).

Definition IsControl (r : Z) : bool := between 0 r 0x1F || between 0x7F r 0x9F.
Definition IsSpace (r : Z) : bool :=
  between 0x09 r 0x0D || (r =? 0x20) || (r =? 0x85) || (r =? 0xA0) || (r =? 0x1680)
  || between 0x2000 r 0x200A || (r =? 0x2028) || (r =? 0x2029) || (r =? 0x202F)
  || (r =? 0x205F) || (r =? 0x3000).

(** [strings.ContainsRune(chars, r)]. *)
Definition ContainsRune (chars : string) (r : Z) : bool := existsb (Z.eqb r) (runes chars).

(** [utf8.AppendRune]. *)
Definition EncodeRune (r : Z) : list Z :=
  if between 0 r 0x7F then [r]
  else if between 0x80 r 0x7FF then [0xC0 + r / 64; 0x80 + r mod 64]
  else if negb (between 0 r 0x10FFFF) || between 0xD800 r 0xDFFF then [0xEF; 0xBF; 0xBD]
  else if r <=? 0xFFFF then [0xE0 + r / 4096; 0x80 + (r / 64) mod 64; 0x80 + r mod 64]
  else [0xF0 + r / 262144; 0x80 + (r / 4096) mod 64; 0x80 + (r / 64) mod 64; 0x80 + r mod 64].

(** ** TrimSpace *)

Fixpoint leading_space (rs : list (Z * Z)) : Z :=
  match rs with
  | [] => 0
  | (r, w) :: rs => if IsSpace r then w + leading_space rs else 0
  end.
Definition TrimLeftSpace (bs : list Z) : list Z :=
  skipn (Z.to_nat (leading_space (decode bs))) bs.

(** [utf8.DecodeLastRune], on the reversed bytes. *)
Definition RuneStart (b : Z) : bool := negb (cont b).
Definition last_rune (rb : list Z) : Z * nat :=
  let bad := (RuneError, 1%nat) in
  let take w o := match o with Some r => (r, w) | None => bad end in
  match rb with
  | [] => (RuneError, 0%nat)
  | b0 :: r0 =>
      if b0 <? 0x80 then (b0, 1%nat) else
      match r0 with
      | [] => bad
      | b1 :: r1 =>
          if RuneStart b1 then take 2%nat (seq2 b1 b0) else
          match r1 with
          | [] => bad
          | b2 :: r2 =>
              if RuneStart b2 then take 3%nat (seq3 b2 b1 b0) else
              match r2 with
              | [] => bad
              | b3 :: _ => if RuneStart b3 then take 4%nat (seq4 b3 b2 b1 b0) else bad
              end
          end
      end
  end.

Fixpoint trim_right (fuel : nat) (rb : list Z) : list Z :=
  match fuel with
  | O => rb
  | S fuel =>
      let '(r, w) := last_rune rb in
      if IsSpace r then trim_right fuel (skipn w rb) else rb
  end.

(** One step per byte is enough: each step drops at least one. *)
Definition TrimRightSpace (bs : list Z) : list Z :=
  rev (trim_right (length bs) (rev bs)).
Definition TrimSpace (s : string) : string :=
  of_bytes (TrimRightSpace (TrimLeftSpace (bytes s))).

(** ** Letter case

    ASCII letters are mapped as Go does; the tables of package [unicode] for
    the other runes are a parameter. *)
Class GoUnicode := {
  unicode_ToLower : Z -> Z;
  unicode_ToUpper : Z -> Z
}.

Definition lower_byte (b : Z) : Z := if between 65 b 90 then b + 32 else b.
Definition upper_byte (b : Z) : Z := if between 97 b 122 then b - 32 else b.
Definition isASCII (s : string) : bool := forallb (fun b => b <? 0x80) (bytes s).

Definition ToLower `{GoUnicode} (s : string) : string :=
  if isASCII s then of_bytes (map lower_byte (bytes s))
  else of_bytes (concat (map (fun r =>
         EncodeRune (if r <? 0x80 then lower_byte r else unicode_ToLower r)) (runes s))).
Definition ToUpper `{GoUnicode} (s : string) : string :=
  if isASCII s then of_bytes (map upper_byte (bytes s))
  else of_bytes (concat (map (fun r =>
         EncodeRune (if r <? 0x80 then upper_byte r else unicode_ToUpper r)) (runes s))).

(** ** Regular expressions of one character class, as [^class{n}$] *)

Definition in_range (lo hi : Z) (c : Ascii.ascii) : bool := between lo (byte_of c) hi.
Definition is_lower (c : Ascii.ascii) : bool := in_range 97 122 c.
Definition is_upper (c : Ascii.ascii) : bool := in_range 65 90 c.
Definition is_digit (c : Ascii.ascii) : bool := in_range 48 57 c.
Definition is_lower_hex (c : Ascii.ascii) : bool := is_digit c || in_range 97 102 c.
Definition is_char (d c : Ascii.ascii) : bool := Ascii.eqb c d.

(** [^first rest*$] *)
Definition match_first_rest (first rest : Ascii.ascii -> bool) (s : string) : bool :=
  match s with EmptyString => false | String c s => first c && all_chars rest s end.
(** [^class{n}$] *)
Definition match_class_n (cls : Ascii.ascii -> bool) (n : nat) (s : string) : bool :=
  Nat.eqb (String.length s) n && all_chars cls s.
(** [^(?:[0-9a-f]{40}|[0-9a-f]{64})$] *)
Definition match_git_sha (s : string) : bool :=
  match_class_n is_lower_hex 40 s || match_class_n is_lower_hex 64 s.

(** ** Package [slices] on strings *)

Definition string_le (s t : string) : Prop := String.leb s t = true.
#[export] Instance string_le_dec : RelDecision string_le.
Proof. intros s t. unfold string_le. apply _. Defined.

(** [slices.Sort]: equal strings are indistinguishable, so the result does not
    depend on the sorting algorithm. *)
Definition Sort (l : list string) : list string := merge_sort string_le l.
(** [slices.Compact]. *)
Fixpoint Compact (l : list string) : list string :=
  match l with
  | [] => []
  | x :: l' =>
      match l' with
      | [] => [x]
      | y :: _ => if String.eqb x y then Compact l' else x :: Compact l'
      end
  end.
(** [slices.IsSorted]: no element is less than its predecessor. *)
Fixpoint IsSorted (l : list string) : bool :=
  match l with
  | [] => true
  | x :: l' => match l' with [] => true | y :: _ => negb (String.ltb y x) end && IsSorted l'
  end.

Lemma string_compare_lt s t : String.compare s t = Lt <-> String_as_OT.lt s t.
Proof. done. Qed.

Lemma string_compare_refl s : String.compare s s = Eq.
Proof.
  change (String_as_OT.compare s s = Eq).
  destruct (String_as_OT.compare_spec s s) as [| H | H]; [done | |];
    by apply (irreflexivity _ _) in H.
Qed.

#[export] Instance string_le_total : Total string_le.
Proof. intros s t. unfold string_le. apply String.leb_total. Qed.

#[export] Instance string_le_antisymm : AntiSymm eq string_le.
Proof. intros s t. unfold string_le. apply String.leb_antisym. Qed.

Lemma string_le_iff s t : string_le s t <-> s = t \/ String_as_OT.lt s t.
Proof.
  unfold string_le, String.leb. rewrite <- string_compare_lt.
  destruct (String.compare s t) eqn:E; split; intros H; try done; auto.
  - left. by apply String.compare_eq_iff.
  - destruct H as [-> |]; [| done]. by rewrite string_compare_refl in E.
Qed.

#[export] Instance string_le_trans : Transitive string_le.
Proof.
  intros s t u. rewrite !string_le_iff. intros [-> | H1] [-> | H2]; auto.
  right. by eapply String_as_OT.lt_strorder.
Qed.

#[export] Instance string_le_preorder : PreOrder string_le.
Proof.
  split; [| apply _]. intros s. apply string_le_iff. by left.
Qed.

Lemma ltb_le s t : String.ltb t s = false <-> string_le s t.
Proof.
  unfold string_le, String.ltb, String.leb. rewrite (String.compare_antisym t s).
  by destruct (String.compare s t).
Qed.

Lemma IsSorted_Sorted l : IsSorted l = true <-> StronglySorted string_le l.
Proof.
  split.
  - intros H. apply Sorted_StronglySorted; [apply _ |].
    induction l as [| x l IH]; [constructor |]. cbn in H.
    apply andb_true_iff in H as [Hx Hl]. constructor; [auto |].
    destruct l as [| y l]; constructor. apply negb_true_iff, ltb_le in Hx. done.
  - induction 1 as [| x l Hl IH Hx]; [done |]. cbn. rewrite IH, andb_true_r.
    destruct l as [| y l]; [done |]. apply negb_true_iff, ltb_le.
    by apply Forall_cons in Hx as [? _].
Qed.

Lemma Sort_sorted l : StronglySorted string_le (Sort l).
Proof. apply Sorted_StronglySorted; [apply _ |]. apply (Sorted_merge_sort _). Qed.

Lemma Sort_perm l : Sort l ≡ₚ l.
Proof. apply merge_sort_Permutation. Qed.

Lemma Compact_elem_of x l : x ∈ Compact l <-> x ∈ l.
Proof.
  induction l as [| y l IH]; [done |]. cbn. destruct l as [| z l]; [done |].
  destruct (String.eqb_spec y z) as [-> | Hne].
  - rewrite IH. set_solver.
  - rewrite !elem_of_cons, IH. set_solver.
Qed.

Lemma Compact_sorted l : StronglySorted string_le l -> StronglySorted string_le (Compact l).
Proof.
  induction 1 as [| y l Hl IH Hy]; [constructor |]. cbn. destruct l as [| z l]; [by repeat constructor |].
  destruct (String.eqb y z); [done |]. constructor; [done |].
  apply Forall_forall. intros x Hx. rewrite Compact_elem_of in Hx.
  rewrite Forall_forall in Hy. by apply Hy.
Qed.

Lemma Compact_NoDup l : StronglySorted string_le l -> NoDup (Compact l).
Proof.
  induction 1 as [| y l Hl IH Hy]; [constructor |]. cbn. destruct l as [| z l]; [repeat constructor; set_solver |].
  destruct (String.eqb_spec y z) as [-> | Hne]; [done |]. constructor; [| done].
  rewrite Compact_elem_of. intros Hin.
  rewrite Forall_forall in Hy.
  assert (string_le y z) as Hyz by (apply Hy; set_solver).
  assert (string_le z y) as Hzy.
  { apply elem_of_cons in Hin as [-> | Hin]; [reflexivity |].
    apply StronglySorted_inv in Hl as [_ Hz]. rewrite Forall_forall in Hz. by apply Hz. }
  apply Hne. by apply (anti_symm string_le).
Qed.

(** ** Facts about decoding and trimming *)

Ltac zbool :=
  unfold between, cont, RuneStart in *;
  repeat match goal with
  | H : _ && _ = true |- _ => apply andb_true_iff in H as [? ?]
  | H : (_ <=? _) = true |- _ => apply Z.leb_le in H
  | H : (_ <=? _) = false |- _ => apply Z.leb_gt in H
  | H : (_ <? _) = true |- _ => apply Z.ltb_lt in H
  | H : (_ <? _) = false |- _ => apply Z.ltb_ge in H
  | H : (_ =? _) = true |- _ => apply Z.eqb_eq in H
  | H : (_ =? _) = false |- _ => apply Z.eqb_neq in H
  end.

Lemma between_iff lo b hi : between lo b hi = true <-> lo <= b <= hi.
Proof. unfold between. rewrite andb_true_iff, !Z.leb_le. done. Qed.

Lemma between_false lo b hi : b < lo -> between lo b hi = false.
Proof. intros H. unfold between. by rewrite (proj2 (Z.leb_gt lo b)) by lia. Qed.

Lemma cont_ascii c : c < 0x80 -> cont c = false.
Proof. apply between_false. Qed.

Lemma seq2_ascii b c : c < 0x80 -> seq2 b c = None.
Proof. intros H. unfold seq2. by rewrite cont_ascii, andb_false_r. Qed.

Lemma seq3_ascii_2 b c d : c < 0x80 -> seq3 b c d = None.
Proof.
  intros H. unfold seq3. rewrite (between_false _ c) by (case_match; lia).
  by rewrite andb_false_r.
Qed.

Lemma seq3_ascii_3 b c d : d < 0x80 -> seq3 b c d = None.
Proof. intros H. unfold seq3. by rewrite (cont_ascii d), andb_false_r. Qed.

Lemma seq4_ascii_2 b c d e : c < 0x80 -> seq4 b c d e = None.
Proof.
  intros H. unfold seq4. rewrite (between_false _ c) by (case_match; lia).
  by rewrite andb_false_r.
Qed.

Lemma seq4_ascii_3 b c d e : d < 0x80 -> seq4 b c d e = None.
Proof. intros H. unfold seq4. by rewrite (cont_ascii d), !andb_false_r. Qed.

Lemma seq4_ascii_4 b c d e : e < 0x80 -> seq4 b c d e = None.
Proof. intros H. unfold seq4. by rewrite (cont_ascii e), andb_false_r. Qed.

(** An ASCII byte is always a rune of its own: decoding splits there. *)
Lemma decode_app_ascii bs c cs :
  c < 0x80 -> decode (bs ++ c :: cs) = decode bs ++ (c, 1) :: decode cs.
Proof.
  intros Hc.
  assert (Hascii : (c <? 0x80) = true) by lia.
  induction bs as [bs IH] using (induction_ltof1 _ length); unfold ltof in IH.
  destruct bs as [| b0 r0]; cbn [decode app]; [by rewrite Hascii |].
  assert (IH0 : decode (r0 ++ c :: cs) = decode r0 ++ (c, 1) :: decode cs)
    by (apply IH; cbn; lia).
  destruct (b0 <? 0x80); cbn [app]; [by rewrite IH0 |].
  destruct r0 as [| b1 r1].
  { cbn [app] in *. rewrite seq2_ascii, IH0 by done. cbn [app].
    destruct cs as [| d cs]; [done |]. rewrite seq3_ascii_2 by done.
    destruct cs as [| e cs]; [done |]. by rewrite seq4_ascii_2. }
  cbn [app] in *. destruct (seq2 b0 b1); [rewrite IH by (cbn; lia); done |].
  destruct r1 as [| b2 r2].
  { cbn [app] in *. rewrite seq3_ascii_3, IH0 by done.
    destruct cs as [| d cs]; [done |]. by rewrite seq4_ascii_3. }
  cbn [app] in *. destruct (seq3 b0 b1 b2); [rewrite IH by (cbn; lia); done |].
  destruct r2 as [| b3 r3].
  { cbn [app] in *. by rewrite seq4_ascii_4, IH0. }
  cbn [app] in *. destruct (seq4 b0 b1 b2 b3); [rewrite IH by (cbn; lia); done |].
  by rewrite IH0.
Qed.

(** The runes of an ASCII string are its bytes. *)
Lemma runes_ascii s : Forall (fun b => b < 0x80) (bytes s) -> runes s = bytes s.
Proof.
  unfold runes. generalize (bytes s). induction 1 as [| b bs Hb _ IH]; [done |].
  cbn [decode]. rewrite (proj2 (Z.ltb_lt b 0x80)) by done. cbn. by rewrite IH.
Qed.

Definition total_width (rs : list (Z * Z)) : Z := fold_right (fun p n => snd p + n) 0 rs.

Lemma total_width_cons p rs : total_width (p :: rs) = snd p + total_width rs.
Proof. done. Qed.

Lemma decode_total_width bs : total_width (decode bs) = Z.of_nat (length bs).
Proof.
  induction bs as [bs IH] using (induction_ltof1 _ length); unfold ltof in IH.
  destruct bs as [| b0 r0]; [done |]. cbn [decode].
  repeat case_match; simplify_eq; rewrite ?total_width_cons; cbn [snd];
    try (rewrite IH by (cbn; lia)); cbn [length]; try lia; done.
Qed.

Lemma decode_width_pos bs : Forall (fun p => 0 < snd p) (decode bs).
Proof.
  induction bs as [bs IH] using (induction_ltof1 _ length); unfold ltof in IH.
  destruct bs as [| b0 r0]; [constructor |]. cbn [decode].
  repeat case_match; simplify_eq; (constructor; [cbn; lia |]);
    first [constructor; fail | apply IH; cbn; lia].
Qed.

Lemma leading_space_bound rs c rest :
  Forall (fun p => 0 < snd p) rs -> IsSpace c = false ->
  0 <= leading_space (rs ++ (c, 1) :: rest) <= total_width rs.
Proof.
  intros Hpos Hc. induction Hpos as [| [r w] rs Hw _ IH].
  - cbn. rewrite Hc. lia.
  - rewrite total_width_cons. cbn [app leading_space snd] in *.
    destruct (IsSpace r); lia.
Qed.

Lemma TrimLeftSpace_app bs c cs :
  c < 0x80 -> IsSpace c = false ->
  exists bs', TrimLeftSpace (bs ++ c :: cs) = bs' ++ c :: cs.
Proof.
  intros Hc Hsp. unfold TrimLeftSpace. rewrite decode_app_ascii by done.
  pose proof (leading_space_bound (decode bs) c (decode cs) (decode_width_pos bs) Hsp) as Hb.
  rewrite decode_total_width in Hb.
  exists (skipn (Z.to_nat (leading_space (decode bs ++ (c, 1) :: decode cs))) bs).
  rewrite skipn_app.
  replace (Z.to_nat _ - length bs)%nat with 0%nat by lia. done.
Qed.

Lemma last_rune_ascii b rb : b < 0x80 -> last_rune (b :: rb) = (b, 1%nat).
Proof. intros H. cbn. by rewrite (proj2 (Z.ltb_lt _ _)). Qed.

Lemma trim_right_ascii fuel sp c rb :
  Forall (fun b => b < 0x80 /\ IsSpace b = true) sp -> c < 0x80 -> IsSpace c = false ->
  (length sp <= fuel)%nat -> trim_right fuel (sp ++ c :: rb) = c :: rb.
Proof.
  intros Hsp Hc Hcs; revert fuel.
  induction Hsp as [| b sp [Hb Hbs] _ IH]; intros [| fuel] Hf; cbn in Hf; try lia; cbn [app trim_right].
  - done.
  - by rewrite last_rune_ascii, Hcs.
  - rewrite last_rune_ascii, Hbs by done. cbn [skipn drop]. apply IH. lia.
Qed.

Lemma TrimRightSpace_app bs c sp :
  Forall (fun b => b < 0x80 /\ IsSpace b = true) sp -> c < 0x80 -> IsSpace c = false ->
  TrimRightSpace (bs ++ c :: sp) = bs ++ [c].
Proof.
  intros Hsp Hc Hcs. unfold TrimRightSpace.
  rewrite rev_app_distr. cbn [rev]. rewrite <- app_assoc. cbn [app].
  rewrite trim_right_ascii; try done.
  - cbn. by rewrite rev_involutive.
  - by apply Forall_rev.
  - rewrite length_rev, length_app. cbn. lia.
Qed.

(** Trimming keeps what lies between two ASCII non-space characters, up to
    dropping a prefix before them: the suffix [mid] survives. *)
Lemma TrimSpace_HasSuffix m c mid d sp :
  byte_of c < 0x80 -> IsSpace (byte_of c) = false ->
  byte_of d < 0x80 -> IsSpace (byte_of d) = false ->
  Forall (fun b => b < 0x80 /\ IsSpace b = true) (bytes sp) ->
  HasSuffix (TrimSpace (m +:+ String c (mid +:+ String d sp)))
            (String c (mid +:+ String d EmptyString)) = true.
Proof.
  intros Hc Hcs Hd Hds Hsp. unfold TrimSpace.
  rewrite bytes_app. cbn [bytes]. rewrite bytes_app. cbn [bytes].
  destruct (TrimLeftSpace_app (bytes m) (byte_of c) (bytes mid ++ byte_of d :: bytes sp))
    as [m' Hm']; [done .. |].
  rewrite Hm'. change (m' ++ byte_of c :: bytes mid ++ byte_of d :: bytes sp)
    with (m' ++ (byte_of c :: bytes mid) ++ byte_of d :: bytes sp).
  rewrite app_assoc, TrimRightSpace_app by done. rewrite <- app_assoc, of_bytes_app.
  apply HasSuffix_spec. exists (of_bytes m'). f_equal.
  cbn [app of_bytes]. rewrite ascii_of_byte_of, of_bytes_app, of_bytes_bytes.
  cbn [of_bytes]. by rewrite ascii_of_byte_of.
Qed.

(** ** Components of a split *)

Lemma Split_cons sep c s :
  Split sep (String c s) =
  if Ascii.eqb c sep then EmptyString :: Split sep s
  else match Split sep s with
       | [] => [String c EmptyString]
       | w :: ws => String c w :: ws
       end.
Proof. done. Qed.

Lemma Split_no_char sep s :
  any_char (fun c => Ascii.eqb c sep) s = false -> Split sep s = [s].
Proof.
  induction s as [| c s IH]; [done |]. cbn [any_char]. intros [Hc Hs]%orb_false_iff.
  by rewrite Split_cons, Hc, IH.
Qed.

(** A suffix without separators is a suffix of the last component. *)
Lemma Split_suffix sep t p :
  any_char (fun c => Ascii.eqb c sep) p = false ->
  Exists (fun w => HasSuffix w p = true) (Split sep (t +:+ p)).
Proof.
  intros Hp. induction t as [| c t IH].
  - rewrite append_nil_l, Split_no_char by done. constructor.
    apply HasSuffix_spec. by exists EmptyString.
  - rewrite append_cons, Split_cons. destruct (Ascii.eqb c sep); [by constructor |].
    destruct (Split sep (t +:+ p)) as [| w ws]; [by apply Exists_nil in IH |].
    apply Exists_cons in IH as [Hw | Hws]; [| by apply Exists_cons; right].
    apply Exists_cons; left. apply HasSuffix_spec in Hw as [u ->].
    apply HasSuffix_spec. by exists (String c u).
Qed.

Lemma HasPrefix_char c d s : HasPrefix (String d s) (String c EmptyString) = Ascii.eqb c d.
Proof. cbn. by rewrite andb_true_r. Qed.

Lemma HasSuffix_char c d s :
  HasSuffix (String d s) (String c EmptyString)
  = match s with EmptyString => Ascii.eqb d c | _ => HasSuffix s (String c EmptyString) end.
Proof.
  destruct s as [| e s].
  - cbn. destruct (Ascii.eqb d c); [done |]. by rewrite andb_false_r || done.
  - cbn [HasSuffix]. change (String.eqb (String d (String e s)) (String c EmptyString))
      with (if Ascii.eqb d c then false else false). by destruct (Ascii.eqb d c).
Qed.

Lemma Contains_char2 c d s :
  Contains (String d s) (String c (String c EmptyString))
  = Ascii.eqb c d && HasPrefix s (String c EmptyString)
    || Contains s (String c (String c EmptyString)).
Proof. done. Qed.

(** An empty component after the first one: the string ends in the separator
    or repeats it. *)
Lemma Split_tail_empty sep s :
  EmptyString ∈ tail (Split sep s) <->
  HasSuffix s (String sep EmptyString) = true \/
  Contains s (String sep (String sep EmptyString)) = true.
Proof.
  induction s as [| c s IH]; [cbn; split; [by intros ?%elem_of_nil | by intros [|]] |].
  rewrite Split_cons, HasSuffix_char, Contains_char2, orb_true_iff, andb_true_iff, !Ascii.eqb_eq.
  destruct (Ascii.eqb_spec c sep) as [-> | Hne].
  - cbn [tail]. destruct s as [| d s].
    + cbn [Split]. rewrite list_elem_of_singleton. naive_solver.
    + rewrite HasPrefix_char, Ascii.eqb_eq.
      trans (sep = d \/ EmptyString ∈ tail (Split sep (String d s))); [| rewrite IH; tauto].
      rewrite Split_cons. destruct (Ascii.eqb_spec d sep) as [-> | Hd].
      * cbn [tail]. rewrite elem_of_cons. naive_solver.
      * destruct (Split sep s) as [| w ws]; cbn [tail]; rewrite elem_of_cons; naive_solver.
  - assert (Hc : tail (match Split sep s with [] => [String c EmptyString]
                       | w :: ws => String c w :: ws end) = tail (Split sep s))
      by by destruct (Split sep s).
    rewrite Hc, IH. destruct s as [| d s]; [| naive_solver].
    split; [intros [? | ?]; done |]. intros [? | [[? _] | ?]]; congruence || done.
Qed.

(** A string has an empty component exactly when it is empty, starts or ends
    with the separator, or repeats it. *)
Lemma Split_empty sep s :
  EmptyString ∈ Split sep s <->
  s = EmptyString \/ HasPrefix s (String sep EmptyString) = true \/
  HasSuffix s (String sep EmptyString) = true \/
  Contains s (String sep (String sep EmptyString)) = true.
Proof.
  destruct s as [| c s]; [cbn [Split]; rewrite list_elem_of_singleton; naive_solver |].
  rewrite <- Split_tail_empty, HasPrefix_char, Ascii.eqb_eq, Split_cons.
  destruct (Ascii.eqb_spec c sep) as [-> | Hne].
  - cbn [tail]. rewrite elem_of_cons. naive_solver.
  - destruct (Split sep s) as [| w ws]; cbn [tail]; rewrite elem_of_cons; naive_solver.
Qed.

Lemma byte_of_nonneg c : 0 <= byte_of c.
Proof. apply byte_of_range. Qed.

(** Runes are never negative. *)
Lemma decode_nonneg bs : Forall (fun b => 0 <= b) bs -> Forall (fun p => 0 <= fst p) (decode bs).
Proof.
  induction bs as [bs IH] using (induction_ltof1 _ length); unfold ltof in IH. intros Hbs.
  destruct bs as [| b0 r0]; [constructor |]. cbn [decode].
  apply Forall_cons in Hbs as [Hb0 Hr0].
  repeat (case_match; simplify_eq; try (apply Forall_cons in Hr0 as [? Hr0]));
    try (constructor; [| first [constructor; fail | apply IH; [cbn; lia |]]]);
    repeat constructor; try done.
  all: unfold seq2, seq3, seq4 in *; repeat case_match; simplify_eq; cbn; zbool; lia.
Qed.

Lemma runes_nonneg s : Forall (fun r => 0 <= r) (runes s).
Proof.
  unfold runes. apply Forall_map, decode_nonneg.
  eapply Forall_impl; [apply bytes_is_byte |]. unfold is_byte. lia.
Qed.

(** From here on these are reasoned about through their lemmas. *)
#[global] Arguments HasPrefix : simpl never.
#[global] Arguments HasSuffix : simpl never.
#[global] Arguments Contains : simpl never.
#[global] Arguments ContainsAny : simpl never.
#[global] Arguments Split : simpl never.
#[global] Arguments TrimSpace : simpl never.
#[global] Arguments ToLower : simpl never.
#[global] Arguments ToUpper : simpl never.
#[global] Arguments String.eqb : simpl never.
#[global] Arguments len : simpl never.
