(* ===== verification/Encoding.v ===== *)
(** * Encoding: the parts of [crypto/sha256], [encoding/base32],
    [encoding/hex] and [encoding/binary] the modelled code calls.

    Everything is executable: record keys and content identifiers of concrete
    records are computed by [vm_compute] in the witnesses. *)

From S2P Require Import Prelude.
From S2P Require Import GoText.

(** ** SHA-256 (FIPS 180-4), on 32-bit words kept in [Z] *)

Definition w32 (x : Z) : Z := Z.land x 0xFFFFFFFF.
Definition rotr (n x : Z) : Z := Z.lor (Z.shiftr x n) (w32 (Z.shiftl x (32 - n))).
Definition bsig0 x := Z.lxor (rotr 2 x) (Z.lxor (rotr 13 x) (rotr 22 x)).
Definition bsig1 x := Z.lxor (rotr 6 x) (Z.lxor (rotr 11 x) (rotr 25 x)).
Definition ssig0 x := Z.lxor (rotr 7 x) (Z.lxor (rotr 18 x) (Z.shiftr x 3)).
Definition ssig1 x := Z.lxor (rotr 17 x) (Z.lxor (rotr 19 x) (Z.shiftr x 10)).
Definition ch x y z := Z.lxor (Z.land x y) (Z.land (Z.lxor x 0xFFFFFFFF) z).
Definition maj x y z := Z.lxor (Z.land x y) (Z.lxor (Z.land x z) (Z.land y z)).

(** FIPS 180-4 takes its constants from the first primes: the round constants
    are the first 32 fractional bits of their cube roots, the initial hash the
    first 32 fractional bits of the square roots of the first eight. *)
Definition is_prime (n : Z) : bool :=
  forallb (fun d => negb (n mod d =? 0)) (seqZ 2 (n - 2)).
Definition primes : list Z := List.filter is_prime (seqZ 2 310).
Definition cube_root (n : Z) : Z :=
  fold_left (fun root bit => let r := root + 2 ^ bit in if r ^ 3 <=? n then r else root)
    (rev (seqZ 0 40)) 0.
Definition round_constants : list Z :=
  Eval vm_compute in map (fun p => w32 (cube_root (p * 2 ^ 96))) primes.
Definition initial_hash : list Z :=
  Eval vm_compute in map (fun p => w32 (Z.sqrt (p * 2 ^ 64))) (firstn 8 primes).

(** The message schedule, newest word first. *)
Fixpoint extend (n : nat) (rw : list Z) : list Z :=
  match n with
  | O => rw
  | S n =>
      extend n (w32 (ssig1 (nth 1 rw 0) + nth 6 rw 0 + ssig0 (nth 14 rw 0) + nth 15 rw 0) :: rw)
  end.

Definition sha_round (st : list Z) (kw : Z * Z) : list Z :=
  match st with
  | [a; b; c; d; e; f; g; h] =>
      let t1 := h + bsig1 e + ch e f g + fst kw + snd kw in
      let t2 := bsig0 a + maj a b c in
      [w32 (t1 + t2); a; b; c; w32 (d + t1); e; f; g]
  | _ => st
  end.

Definition be32 (b0 b1 b2 b3 : Z) : Z := ((b0 * 256 + b1) * 256 + b2) * 256 + b3.
Fixpoint words (bs : list Z) : list Z :=
  match bs with
  | b0 :: b1 :: b2 :: b3 :: bs => be32 b0 b1 b2 b3 :: words bs
  | _ => []
  end.

Definition compress (hs : list Z) (block : list Z) : list Z :=
  let w := rev (extend 48 (rev (words block))) in
  map (fun '(x, y) => w32 (x + y)) (combine hs (fold_left sha_round (combine round_constants w) hs)).

Definition be_bytes (n : nat) (x : Z) : list Z :=
  map (fun i => Z.land (Z.shiftr x (8 * Z.of_nat i)) 255) (rev (seq 0 n)).

Definition sha_pad (m : list Z) : list Z :=
  let l := Z.of_nat (length m) in
  m ++ 0x80 :: repeat 0 (Z.to_nat ((55 - l) mod 64)) ++ be_bytes 8 (8 * l).

Fixpoint blocks (fuel : nat) (bs : list Z) : list (list Z) :=
  match fuel, bs with
  | S fuel, _ :: _ => firstn 64 bs :: blocks fuel (skipn 64 bs)
  | _, _ => []
  end.

(** [sha256.Sum256]: 32 bytes. *)
Definition Sum256 (m : list Z) : list Z :=
  let p := sha_pad m in
  concat (map (be_bytes 4) (fold_left compress (blocks (length p) p) initial_hash)).

(** ** Hexadecimal and base32 *)

Definition hex_digit (d : Z) : Z := if d <? 10 then 48 + d else 87 + d.
Definition hex_EncodeToString (bs : list Z) : string :=
  of_bytes (flat_map (fun b => [hex_digit (b / 16); hex_digit (b mod 16)]) bs).

Definition bits_of (n : nat) (b : Z) : list bool :=
  map (fun i => Z.testbit b (Z.of_nat i)) (rev (seq 0 n)).
Definition of_bits (bs : list bool) : Z :=
  fold_left (fun n (b : bool) => 2 * n + (if b then 1 else 0)) bs 0.

(** Five bits per character; the last group is padded with zero bits. *)
Fixpoint group5 (bs : list bool) : list Z :=
  match bs with
  | [] => []
  | a :: b :: c :: d :: e :: rest => of_bits [a; b; c; d; e] :: group5 rest
  | [a] => [of_bits [a; false; false; false; false]]
  | [a; b] => [of_bits [a; b; false; false; false]]
  | [a; b; c] => [of_bits [a; b; c; false; false]]
  | [a; b; c; d] => [of_bits [a; b; c; d; false]]
  end.
Fixpoint group8 (bs : list bool) : list Z :=
  match bs with
  | a :: b :: c :: d :: e :: f :: g :: h :: rest =>
      of_bits [a; b; c; d; e; f; g; h] :: group8 rest
  | _ => []
  end.

(** [base32.StdEncoding]: [A]-[Z] then [2]-[7]. *)
Definition base32_char (v : Z) : Z := if v <? 26 then 65 + v else 24 + v.
Definition base32_value (b : Z) : option Z :=
  if between 65 b 90 then Some (b - 65) else if between 50 b 55 then Some (b - 24) else None.

(** [base32.StdEncoding.WithPadding(base32.NoPadding).EncodeToString]. *)
Definition base32_Encode (bs : list Z) : string :=
  of_bytes (map base32_char (group5 (flat_map (bits_of 8) bs))).

(** The bytes a final quantum of 0 to 7 characters decodes to: lengths 1, 3
    and 6 fall through Go's switch and yield none. *)
Definition tail_bytes (n : nat) : nat :=
  match n with 2%nat => 1 | 4%nat => 2 | 5%nat => 3 | 7%nat => 4 | _ => 0 end.

(** [DecodeString] of the same encoding: line breaks are dropped first. *)
Definition base32_Decode (s : string) : option (list Z) :=
  let cs := List.filter (fun b => negb ((b =? 13) || (b =? 10))) (bytes s) in
  match mapM base32_value cs with
  | None => None
  | Some vs =>
      let n := (5 * (length vs / 8) + tail_bytes (length vs mod 8))%nat in
      Some (firstn n (group8 (flat_map (bits_of 5) vs)))
  end.

(** ** Variable-length integers *)

Definition two64 : Z := 2 ^ 64.
Definition MaxVarintLen64 : Z := 10.

(** [binary.Uvarint]: the value and the number of bytes read; a count of zero
    means the input ends early, a negative one that the value overflows. *)
Fixpoint uvarint_loop (i x s : Z) (buf : list Z) : Z * Z :=
  match buf with
  | [] => (0, 0)
  | b :: buf =>
      if i =? MaxVarintLen64 then (0, - (i + 1))
      else if b <? 0x80 then
        if (i =? MaxVarintLen64 - 1) && (1 <? b) then (0, - (i + 1))
        else (Z.lor x (Z.shiftl b s mod two64), i + 1)
      else uvarint_loop (i + 1) (Z.lor x (Z.shiftl (Z.land b 0x7f) s mod two64)) (s + 7) buf
  end.
Definition Uvarint (buf : list Z) : Z * Z := uvarint_loop 0 0 0 buf.

(** [binary.AppendUvarint(nil, x)]; ten groups of seven bits hold any uint64. *)
Fixpoint append_uvarint (fuel : nat) (x : Z) : list Z :=
  match fuel with
  | O => [Z.land x 255]
  | S fuel =>
      if x <? 0x80 then [x]
      else Z.lor (Z.land x 0x7f) 0x80 :: append_uvarint fuel (Z.shiftr x 7)
  end.
Definition AppendUvarint (x : Z) : list Z := append_uvarint 9 x.

Example sha256_abc :
  hex_EncodeToString (Sum256 (bytes "abc"))
  = "ba7816bf8f01cfea414140de5dae2223b00361a396177a9cb410ff61f20015ad".
Proof. vm_compute. reflexivity. Qed.

Example sha256_two_blocks :
  hex_EncodeToString (Sum256 (bytes "abcdbcdecdefdefgefghfghighijhijkijkljklmklmnlmnomnopnopq"))
  = "248d6a61d20638b8e5c026930c3e6039a33ce45964ff2167f6ecedd419db06c1".
Proof. vm_compute. reflexivity. Qed.

Example base32_rfc4648 : base32_Encode (bytes "foobar") = "MZXW6YTBOI".
Proof. reflexivity. Qed.

Example uvarint_300 : Uvarint (AppendUvarint 300 ++ [7]) = (300, 2).
Proof. reflexivity. Qed.

(** ** SHA-256 yields 32 bytes *)

Lemma be_bytes_length n x : length (be_bytes n x) = n.
Proof. unfold be_bytes. by rewrite length_map, length_rev, length_seq. Qed.

Lemma be_bytes_is_byte n x : Forall is_byte (be_bytes n x).
Proof.
  unfold be_bytes. apply Forall_map, Forall_forall. intros i _. unfold is_byte.
  change 255 with (Z.ones 8). rewrite Z.land_ones by lia. apply Z.mod_pos_bound. lia.
Qed.

Lemma sha_round_length st kw : length (sha_round st kw) = length st.
Proof. unfold sha_round. do 8 (destruct st as [| ? st]; [done |]). by destruct st. Qed.

Lemma compress_length hs block : length (compress hs block) = length hs.
Proof.
  unfold compress. rewrite length_map, length_combine.
  assert (Hf : forall l st, length (fold_left sha_round l st) = length st).
  { intros l; induction l as [| kw l IH]; intros st; cbn; [done |].
    by rewrite IH, sha_round_length. }
  rewrite Hf. lia.
Qed.

Lemma Sum256_length m : length (Sum256 m) = 32%nat.
Proof.
  unfold Sum256. set (bl := blocks _ _).
  assert (Hl : length (fold_left compress bl initial_hash) = 8%nat).
  { change 8%nat with (length initial_hash). generalize initial_hash.
    induction bl as [| b bl IH]; intros hs; cbn; [done |]. by rewrite IH, compress_length. }
  generalize dependent (fold_left compress bl initial_hash). intros l Hl.
  do 8 (destruct l as [| ? l]; [done |]). by destruct l.
Qed.

Lemma Sum256_is_byte m : Forall is_byte (Sum256 m).
Proof.
  unfold Sum256. apply Forall_concat, Forall_map, Forall_forall.
  intros x _. apply be_bytes_is_byte.
Qed.

(** ** base32 *)

Lemma of_bits_range bs : 0 <= of_bits bs < 2 ^ Z.of_nat (length bs).
Proof.
  unfold of_bits. enough (H : forall n, 0 <= n ->
    let v := fold_left (fun n (b : bool) => 2 * n + (if b then 1 else 0)) bs n in
    n * 2 ^ Z.of_nat (length bs) <= v < (n + 1) * 2 ^ Z.of_nat (length bs)).
  { specialize (H 0 ltac:(lia)). cbv zeta in H. lia. }
  induction bs as [| b bs IH]; intros n Hn; cbn [fold_left length]; [cbn; lia |].
  specialize (IH (2 * n + (if b then 1 else 0)) ltac:(destruct b; lia)). cbv zeta in IH.
  rewrite Nat2Z.inj_succ, Z.pow_succ_r by lia. destruct b; nia.
Qed.

(** Exhaustive check of a decidable fact about small integers. *)
Lemma seqZ_check n (f : Z -> bool) :
  forallb f (seqZ 0 n) = true -> forall b, 0 <= b < n -> f b = true.
Proof.
  intros H b Hb. rewrite forallb_forall in H.
  apply H, list_elem_of_In, elem_of_seqZ. lia.
Qed.

Lemma bits_of_5 b : 0 <= b < 32 -> of_bits (bits_of 5 b) = b.
Proof.
  intros Hb. apply Z.eqb_eq. revert b Hb. apply seqZ_check. vm_compute. reflexivity.
Qed.

Lemma bits_of_8 b : is_byte b -> of_bits (bits_of 8 b) = b.
Proof.
  intros Hb. apply Z.eqb_eq. revert b Hb. apply seqZ_check. vm_compute. reflexivity.
Qed.

Lemma bits_5_of (a b c d e : bool) : bits_of 5 (of_bits [a; b; c; d; e]) = [a; b; c; d; e].
Proof. by destruct a, b, c, d, e. Qed.

Lemma bits_of_length n b : length (bits_of n b) = n.
Proof. unfold bits_of. by rewrite length_map, length_rev, length_seq. Qed.

(** Induction on a bit string five bits at a time. *)
Lemma five_ind (P : list bool -> Prop) :
  P [] -> (forall a, P [a]) -> (forall a b, P [a; b]) -> (forall a b c, P [a; b; c]) ->
  (forall a b c d, P [a; b; c; d]) ->
  (forall a b c d e bs, P bs -> P (a :: b :: c :: d :: e :: bs)) -> forall bs, P bs.
Proof.
  intros H0 H1 H2 H3 H4 H5 bs.
  induction bs as [bs IH] using (induction_ltof1 _ length); unfold ltof in IH.
  destruct bs as [| a [| b [| c [| d [| e bs]]]]]; auto. apply H5, IH. cbn. lia.
Qed.

Lemma group5_bits bs :
  exists pad, (length pad < 5)%nat /\ flat_map (bits_of 5) (group5 bs) = bs ++ pad.
Proof.
  induction bs using five_ind; cbn [group5 flat_map].
  6: { destruct IHbs as (pad & Hp & ->). exists pad. rewrite bits_5_of. done. }
  all: rewrite ?bits_5_of; cbn [app]; eexists (_ : list bool);
    (split; [| rewrite ?app_nil_r; cbn [app]; reflexivity || (by instantiate (1 := []))]);
    cbn; lia.
Qed.

Lemma group5_length bs : length (group5 bs) = ((length bs + 4) / 5)%nat.
Proof.
  induction bs using five_ind; try done. cbn [group5 length]. rewrite IHbs.
  replace (S (S (S (S (S (length bs))))) + 4)%nat with (1 * 5 + (length bs + 4))%nat by lia.
  rewrite Nat.div_add_l by lia. done.
Qed.

Lemma group5_range bs : Forall (fun v => 0 <= v < 32) (group5 bs).
Proof.
  induction bs using five_ind; cbn [group5]; repeat constructor; try done; apply of_bits_range.
Qed.

Lemma group8_bytes bs pad :
  Forall is_byte bs -> (length pad < 8)%nat ->
  group8 (flat_map (bits_of 8) bs ++ pad) = bs.
Proof.
  intros Hbs Hp. induction Hbs as [| b bs Hb _ IH]; cbn [flat_map].
  - by do 8 (destruct pad as [| ? pad]; [done |]); cbn in Hp; lia.
  - rewrite <- app_assoc.
    transitivity (of_bits (bits_of 8 b) :: group8 (flat_map (bits_of 8) bs ++ pad)); [done |].
    by rewrite bits_of_8, IH.
Qed.

Lemma base32_char_cases v :
  0 <= v < 32 -> 65 <= base32_char v <= 90 \/ 50 <= base32_char v <= 55.
Proof. unfold base32_char. case_match; lia. Qed.

Lemma base32_char_value v : 0 <= v < 32 -> base32_value (base32_char v) = Some v.
Proof.
  intros Hv.
  pose proof (seqZ_check 32 (fun v => match base32_value (base32_char v) with
    Some w => w =? v | None => false end) ltac:(vm_compute; reflexivity) v Hv) as H.
  cbv beta in H. destruct (base32_value (base32_char v)); [| done].
  apply Z.eqb_eq in H. by subst.
Qed.

Lemma base32_bytes bs :
  bytes (base32_Encode bs) = map base32_char (group5 (flat_map (bits_of 8) bs)).
Proof.
  unfold base32_Encode. apply bytes_of_bytes, Forall_map.
  eapply Forall_impl; [apply group5_range |]. intros v Hv.
  pose proof (base32_char_cases v Hv). unfold is_byte. cbn. lia.
Qed.

Lemma flat_bits_length bs : length (flat_map (bits_of 8) bs) = (8 * length bs)%nat.
Proof.
  induction bs as [| b bs IH]; [done |]. cbn [flat_map].
  rewrite length_app, bits_of_length, IH. cbn [length]. lia.
Qed.

Lemma quantum_bytes k :
  let m := ((8 * k + 4) / 5)%nat in (5 * (m / 8) + tail_bytes (m mod 8))%nat = k.
Proof.
  cbv zeta. pose proof (Nat.div_mod_eq k 5) as Hk.
  pose proof (Nat.mod_upper_bound k 5 ltac:(lia)) as Hr.
  set (q := (k / 5)%nat) in *. set (r := (k mod 5)%nat) in *.
  replace ((8 * k + 4) / 5)%nat with (8 * q + (8 * r + 4) / 5)%nat
    by (rewrite Hk; replace (8 * (5 * q + r) + 4)%nat with ((8 * q) * 5 + (8 * r + 4))%nat by lia;
        rewrite Nat.div_add_l by lia; lia).
  assert (Hm : ((8 * r + 4) / 5 < 8)%nat) by (apply Nat.Div0.div_lt_upper_bound; lia).
  rewrite (Nat.mul_comm 8 q), Nat.div_add_l by lia.
  rewrite (Nat.add_comm (q * 8)), Nat.Div0.mod_add, Nat.mod_small, Nat.div_small by lia.
  clearbody q r. clear Hm. do 5 (destruct r as [| r]; [cbn; lia |]). lia.
Qed.

(** Round trip of the unpadded encoding. *)
Lemma base32_Decode_Encode bs : Forall is_byte bs -> base32_Decode (base32_Encode bs) = Some bs.
Proof.
  intros Hbs. unfold base32_Decode. rewrite base32_bytes.
  set (vs := group5 (flat_map (bits_of 8) bs)).
  assert (Hvs : Forall (fun v => 0 <= v < 32) vs) by apply group5_range.
  assert (Hf : List.filter (fun b => negb ((b =? 13) || (b =? 10))) (map base32_char vs)
               = map base32_char vs).
  { clearbody vs. induction Hvs as [| v vs Hv _ IH]; [done |]. cbn [map List.filter].
    pose proof (base32_char_cases v Hv).
    rewrite (proj2 (Z.eqb_neq _ 13)), (proj2 (Z.eqb_neq _ 10)) by lia. cbn. by rewrite IH. }
  assert (Hm : mapM base32_value (map base32_char vs) = Some vs).
  { clearbody vs. clear Hf. induction Hvs as [| v vs Hv _ IH]; [done |].
    cbn [map mapM]. rewrite base32_char_value by done. by rewrite IH. }
  rewrite Hf, Hm. f_equal.
  assert (Hlen : length vs = ((8 * length bs + 4) / 5)%nat)
    by (unfold vs; by rewrite group5_length, flat_bits_length).
  destruct (group5_bits (flat_map (bits_of 8) bs)) as (pad & Hp & Hbits). fold vs in Hbits.
  rewrite Hbits, group8_bytes by (done || lia). rewrite Hlen, quantum_bytes.
  by rewrite firstn_all.
Qed.

(** ** Lower-case base32 *)

Definition is_base32_lower (c : Ascii.ascii) : bool := is_lower c || in_range 50 55 c.

Section Case.
Context `{GoUnicode}.

Lemma base32_ASCII bs : isASCII (base32_Encode bs) = true.
Proof.
  unfold isASCII. rewrite base32_bytes. apply forallb_forall. intros b Hb%in_map_iff.
  destruct Hb as (v & <- & Hv).
  pose proof (group5_range (flat_map (bits_of 8) bs)) as Hr. rewrite List.Forall_forall in Hr.
  pose proof (base32_char_cases v (Hr v Hv)). lia.
Qed.

Lemma ToLower_base32_bytes bs :
  bytes (ToLower (base32_Encode bs))
  = map lower_byte (map base32_char (group5 (flat_map (bits_of 8) bs))).
Proof.
  unfold ToLower. rewrite base32_ASCII, base32_bytes. apply bytes_of_bytes.
  rewrite !Forall_map. eapply Forall_impl; [apply group5_range |]. intros v Hv.
  pose proof (base32_char_cases v Hv). unfold is_byte, lower_byte, between. cbn.
  case_match; lia.
Qed.

Lemma lower_char_range v :
  0 <= v < 32 ->
  let c := lower_byte (base32_char v) in 97 <= c <= 122 \/ 50 <= c <= 55.
Proof.
  intros Hv. cbv zeta. pose proof (base32_char_cases v Hv). unfold lower_byte, between.
  destruct (65 <=? base32_char v) eqn:?, (base32_char v <=? 90) eqn:?; cbn; zbool; lia.
Qed.

Lemma all_chars_bytes f P s :
  (forall c, f c = true <-> P (byte_of c)) -> all_chars f s = true <-> Forall P (bytes s).
Proof.
  intros HfP. induction s as [| c s IH]; [done |].
  cbn [bytes]. by rewrite all_chars_cons, andb_true_iff, Forall_cons, HfP, IH.
Qed.

Lemma is_base32_lower_iff c :
  is_base32_lower c = true <-> 97 <= byte_of c <= 122 \/ 50 <= byte_of c <= 55.
Proof.
  unfold is_base32_lower, is_lower, in_range. by rewrite orb_true_iff, !between_iff.
Qed.

Lemma lower_base32_class bs : all_chars is_base32_lower (ToLower (base32_Encode bs)) = true.
Proof.
  apply (all_chars_bytes _ (fun b => 97 <= b <= 122 \/ 50 <= b <= 55) _ is_base32_lower_iff).
  rewrite ToLower_base32_bytes, !Forall_map.
  eapply Forall_impl; [apply group5_range |]. intros v Hv. by apply lower_char_range.
Qed.

(** The record keys derived from a digest all have the shape
    [^[a-z2-7]{52}$]. *)
Lemma lower_base32_digest m :
  match_class_n is_base32_lower 52 (ToLower (base32_Encode (Sum256 m))) = true.
Proof.
  unfold match_class_n. rewrite lower_base32_class, andb_true_r.
  by rewrite <- length_bytes, ToLower_base32_bytes, !length_map, group5_length,
    flat_bits_length, Sum256_length.
Qed.

Lemma isASCII_below s : isASCII s = true <-> Forall (fun b => b < 0x80) (bytes s).
Proof.
  unfold isASCII. rewrite forallb_forall, List.Forall_forall.
  by setoid_rewrite Z.ltb_lt.
Qed.

Lemma base32_lower_bytes s :
  all_chars is_base32_lower s = true ->
  Forall (fun b => 97 <= b <= 122 \/ 50 <= b <= 55) (bytes s).
Proof. apply (all_chars_bytes _ (fun b => 97 <= b <= 122 \/ 50 <= b <= 55) _ is_base32_lower_iff). Qed.

Lemma base32_lower_ASCII s : all_chars is_base32_lower s = true -> isASCII s = true.
Proof.
  intros Hs%base32_lower_bytes. apply isASCII_below.
  eapply Forall_impl; [done |]. cbn. lia.
Qed.

Lemma ToLower_base32_lower s : all_chars is_base32_lower s = true -> ToLower s = s.
Proof.
  intros Hs. unfold ToLower. rewrite base32_lower_ASCII by done.
  apply base32_lower_bytes in Hs. rewrite <- (of_bytes_bytes s) at 2. f_equal.
  induction Hs as [| b bs Hb _ IH]; [done |]. cbn [map]. rewrite IH.
  unfold lower_byte. destruct (between 65 b 90) eqn:Hu; [| done].
  apply between_iff in Hu. lia.
Qed.

Lemma ToUpper_ToLower_base32 bs : ToUpper (ToLower (base32_Encode bs)) = base32_Encode bs.
Proof.
  unfold ToUpper. rewrite base32_lower_ASCII by apply lower_base32_class.
  rewrite ToLower_base32_bytes. unfold base32_Encode. f_equal.
  generalize (group5_range (flat_map (bits_of 8) bs)).
  induction 1 as [| v vs Hv _ IH]; [done |]. cbn [map]. rewrite IH. f_equal.
  apply Z.eqb_eq. revert v Hv.
  apply (seqZ_check 32 (fun v => upper_byte (lower_byte (base32_char v)) =? base32_char v)).
  vm_compute. reflexivity.
Qed.
End Case.

(** ** Round trips of the variable-length integers *)

Lemma lor_add a b s : 0 <= s -> 0 <= a < 2 ^ s -> Z.lor a (b * 2 ^ s) = a + b * 2 ^ s.
Proof.
  intros Hs Ha. enough (Hl : Z.land a (b * 2 ^ s) = 0)
    by (rewrite <- Z.lxor_lor by done; symmetry; by apply Z.add_nocarry_lxor).
  apply Z.bits_inj'. intros i Hi. rewrite Z.land_spec, Z.bits_0.
  destruct (Z.lt_ge_cases i s).
  - rewrite Z.mul_pow2_bits_low by lia. apply andb_false_r.
  - rewrite <- (Z.mod_small a (2 ^ s)) by lia. by rewrite Z.mod_pow2_bits_high by lia.
Qed.

Lemma low7 b : Z.land b 0x7f = b mod 128.
Proof. change 0x7f with (Z.ones 7). by rewrite Z.land_ones. Qed.

Lemma low8 b : Z.land b 255 = b mod 256.
Proof. change 255 with (Z.ones 8). by rewrite Z.land_ones. Qed.

Lemma shift7 x : Z.shiftr x 7 = x / 128.
Proof. by rewrite Z.shiftr_div_pow2. Qed.

Lemma continuation g : 0 <= g < 128 -> Z.lor g 0x80 = 128 + g.
Proof.
  intros Hg. change 0x80 with (1 * 2 ^ 7). rewrite lor_add by (cbn; lia). lia.
Qed.

Lemma group_step x : 0 <= x ->
  Z.lor (Z.land x 0x7f) 0x80 = 128 + x mod 128.
Proof. intros Hx. rewrite low7. apply continuation. apply Z.mod_pos_bound. lia. Qed.

(** The room left above [7 i] bits. *)
Definition room (i : Z) : Z := 2 ^ (64 - 7 * i).

Lemma room_succ i : 0 <= i <= 8 -> room i = 128 * room (i + 1).
Proof.
  intros Hi. unfold room. replace (64 - 7 * i) with (7 + (64 - 7 * (i + 1))) by lia.
  by rewrite Z.pow_add_r by lia.
Qed.

Lemma room_9 : room 9 = 2.
Proof. done. Qed.

Lemma room_ge i : 0 <= i <= 8 -> 128 <= room i.
Proof.
  intros Hi. rewrite room_succ by done. unfold room.
  assert (0 < 2 ^ (64 - 7 * (i + 1))) by (apply Z.pow_pos_nonneg; lia). lia.
Qed.

Lemma room_shift i b : 0 <= i <= 9 -> 0 <= b < room i ->
  Z.shiftl b (7 * i) mod two64 = b * 2 ^ (7 * i).
Proof.
  intros Hi Hb. rewrite Z.shiftl_mul_pow2 by lia. apply Z.mod_small. unfold room, two64 in *.
  replace (2 ^ 64) with (2 ^ (64 - 7 * i) * 2 ^ (7 * i))
    by (rewrite <- Z.pow_add_r by lia; f_equal; lia).
  assert (0 < 2 ^ (7 * i)) by (apply Z.pow_pos_nonneg; lia). nia.
Qed.

Lemma pow_step i : 0 <= i -> 2 ^ (7 * (i + 1)) = 128 * 2 ^ (7 * i).
Proof.
  intros Hi. replace (7 * (i + 1)) with (7 + 7 * i) by lia. by rewrite Z.pow_add_r by lia.
Qed.

Lemma append_uvarint_pos f x : (0 < length (append_uvarint f x))%nat.
Proof. destruct f; cbn; [lia |]. case_match; cbn; lia. Qed.

(** Reading back what was appended, from group [i] on. *)
Lemma uvarint_loop_append f i acc x rest :
  Z.of_nat f = 9 - i -> 0 <= i -> 0 <= acc < 2 ^ (7 * i) -> 0 <= x < room i ->
  uvarint_loop i acc (7 * i) (append_uvarint f x ++ rest)
  = (acc + x * 2 ^ (7 * i), i + Z.of_nat (length (append_uvarint f x))).
Proof.
  revert i acc x; induction f as [| f IH]; intros i acc x Hf Hi Hacc Hx.
  - assert (i = 9) as -> by lia. rewrite room_9 in Hx. cbn [append_uvarint app].
    rewrite low8, Z.mod_small by lia. cbn [uvarint_loop length].
    rewrite (proj2 (Z.ltb_lt x 0x80)) by lia. rewrite (proj2 (Z.ltb_ge 1 x)) by lia.
    cbn [Z.eqb]. change (9 =? MaxVarintLen64) with false. rewrite andb_false_r.
    rewrite room_shift by (rewrite ?room_9; lia). by rewrite lor_add by lia.
  - assert (Hi8 : 0 <= i <= 8) by lia. pose proof (room_ge i Hi8) as Hr.
    cbn [append_uvarint]. destruct (Z.ltb_spec x 0x80) as [Hs | Hs].
    + cbn [app uvarint_loop length].
      rewrite (proj2 (Z.eqb_neq i MaxVarintLen64)) by (unfold MaxVarintLen64; lia).
      rewrite (proj2 (Z.ltb_lt x 0x80)) by lia.
      rewrite (proj2 (Z.eqb_neq i (MaxVarintLen64 - 1))) by (unfold MaxVarintLen64; lia).
      cbn [andb]. rewrite room_shift by lia. by rewrite lor_add by lia.
    + cbn [app uvarint_loop length].
      rewrite (proj2 (Z.eqb_neq i MaxVarintLen64)) by (unfold MaxVarintLen64; lia).
      pose proof (Z.mod_pos_bound x 128 ltac:(lia)) as Hm.
      pose proof (Z.div_mod x 128 ltac:(lia)) as Hd.
      rewrite group_step, shift7 by lia. set (g := x mod 128) in *. set (q := x / 128) in *.
      rewrite (proj2 (Z.ltb_ge (128 + g) 0x80)) by lia.
      replace (Z.land (128 + g) 0x7f) with g
        by (rewrite low7; replace (128 + g) with (g + 1 * 128) by lia;
            by rewrite Z.mod_add, Z.mod_small by lia).
      rewrite room_shift by lia. rewrite lor_add by lia.
      rewrite (room_succ i Hi8) in Hx. pose proof (pow_step i Hi) as Hp.
      replace (7 * i + 7) with (7 * (i + 1)) by lia.
      rewrite IH; [f_equal; [rewrite Hp; nia | lia] | lia | lia | rewrite Hp; nia | nia].
Qed.

Lemma uvarint_loop_10 acc s buf : snd (uvarint_loop 10 acc s buf) <= 0.
Proof. by destruct buf. Qed.

(** What a successful read consumed: a value whose own encoding is no longer,
    and is the input itself when it is as long. *)
Lemma uvarint_loop_canonical buf i acc v c :
  Forall is_byte buf -> 0 <= i <= 9 -> 0 <= acc < 2 ^ (7 * i) ->
  uvarint_loop i acc (7 * i) buf = (v, c) -> 0 < c ->
  exists x gs rest,
    v = acc + x * 2 ^ (7 * i) /\ 0 <= x < room i /\ buf = gs ++ rest /\
    c = i + Z.of_nat (length gs) /\
    let enc := append_uvarint (Z.to_nat (9 - i)) x in
    (length enc <= length gs)%nat /\ (length enc = length gs -> enc = gs).
Proof.
  revert i acc; induction buf as [| b buf IH]; intros i acc Hb Hi Hacc Hl Hc;
    cbn [uvarint_loop] in Hl; [simplify_eq; lia |].
  apply Forall_cons in Hb as [Hb Hbuf]. unfold is_byte in Hb.
  rewrite (proj2 (Z.eqb_neq i MaxVarintLen64)) in Hl by (unfold MaxVarintLen64; lia).
  destruct (Z.ltb_spec b 0x80) as [Hs | Hs].
  - destruct ((i =? MaxVarintLen64 - 1) && (1 <? b)) eqn:Hov; [simplify_eq; lia |].
    assert (Hx : 0 <= b < room i).
    { destruct (Z.eq_dec i 9) as [-> |].
      - rewrite room_9. apply andb_false_iff in Hov as [H | H]; [done |]. zbool. lia.
      - pose proof (room_ge i). lia. }
    rewrite room_shift, lor_add in Hl by lia.
    exists b, [b], buf. simplify_eq. cbn [length app]. repeat split; try lia.
    + destruct (Z.to_nat (9 - i)); cbn; [lia |]. by rewrite (proj2 (Z.ltb_lt b 128)).
    + intros _. destruct (Z.to_nat (9 - i)); cbn [append_uvarint].
      * by rewrite low8, Z.mod_small by lia.
      * by rewrite (proj2 (Z.ltb_lt b 128)).
  - destruct (Z.eq_dec i 9) as [-> |].
    { change (9 + 1) with 10 in Hl.
      pose proof (uvarint_loop_10 (Z.lor acc (Z.shiftl (Z.land b 127) (7 * 9) mod two64))
        (7 * 9 + 7) buf) as H10. rewrite Hl in H10. cbn in H10. lia. }
    assert (Hi8 : 0 <= i <= 8) by lia.
    pose proof (room_ge i Hi8) as Hr. pose proof (room_succ i Hi8) as Hrs.
    pose proof (pow_step i ltac:(lia)) as Hp.
    set (g := b - 128). assert (Hg : 0 <= g < 128) by lia.
    replace (Z.land b 0x7f) with g in Hl
      by (rewrite low7; replace b with (g + 1 * 128) by lia;
          by rewrite Z.mod_add, Z.mod_small by lia).
    rewrite room_shift, lor_add in Hl by lia.
    replace (7 * i + 7) with (7 * (i + 1)) in Hl by lia.
    destruct (IH (i + 1) (acc + g * 2 ^ (7 * i)) Hbuf ltac:(lia) ltac:(nia) Hl Hc)
      as (x & gs & rest & Hv & Hx & -> & Hc' & Hle & Heq).
    exists (g + 128 * x), (b :: gs), rest. cbn [length app].
    assert (Hfuel : Z.to_nat (9 - i) = S (Z.to_nat (9 - (i + 1)))) by lia.
    assert (Hmod : (g + 128 * x) mod 128 = g)
      by (rewrite (Z.mul_comm 128), Z.mod_add, Z.mod_small; lia).
    assert (Hdiv : (g + 128 * x) / 128 = x)
      by (rewrite (Z.mul_comm 128), Z.div_add, Z.div_small; lia).
    cbv zeta in *. rewrite Hfuel. cbn [append_uvarint].
    split; [rewrite Hv, Hp; lia |]. split; [lia |]. split; [done |]. split; [lia |].
    destruct (Z.ltb_spec (g + 128 * x) 0x80).
    + cbn [length]. pose proof (append_uvarint_pos (Z.to_nat (9 - (i + 1))) x).
      split; [lia |]. intros. lia.
    + rewrite group_step, shift7, Hmod, Hdiv by lia. cbn [length].
      split; [lia |]. intros [= Hlen]. rewrite (Heq Hlen). f_equal. lia.
Qed.

Lemma Uvarint_AppendUvarint x rest :
  0 <= x < two64 ->
  Uvarint (AppendUvarint x ++ rest) = (x, Z.of_nat (length (AppendUvarint x))).
Proof.
  intros Hx. unfold Uvarint, AppendUvarint.
  pose proof (uvarint_loop_append 9 0 0 x rest eq_refl ltac:(lia) ltac:(cbn; lia)
    ltac:(unfold room; cbn; unfold two64 in Hx; cbn in Hx; lia)) as H.
  change (7 * 0) with 0 in H. rewrite H. f_equal. cbn. lia.
Qed.

Lemma AppendUvarint_of_Uvarint buf v c :
  Forall is_byte buf -> Uvarint buf = (v, c) -> 0 < c ->
  c = Z.of_nat (length (AppendUvarint v)) ->
  0 <= v < two64 /\ buf = AppendUvarint v ++ skipn (Z.to_nat c) buf.
Proof.
  intros Hb Hu Hc Hlen. unfold Uvarint in Hu.
  destruct (uvarint_loop_canonical buf 0 0 v c Hb ltac:(lia) ltac:(cbn; lia) Hu Hc)
    as (x & gs & rest & Hv & Hx & -> & Hc' & Hle & Heq).
  change (7 * 0) with 0 in Hv. change (Z.to_nat (9 - 0)) with 9%nat in *. cbv zeta in *.
  assert (x = v) as -> by lia. fold (AppendUvarint v) in *.
  assert (Hgs : AppendUvarint v = gs) by (apply Heq; lia).
  split; [unfold room in Hx; done |]. rewrite Hgs. f_equal.
  rewrite Hc'. replace (Z.to_nat (0 + Z.of_nat (length gs))) with (length gs) by lia.
  by rewrite drop_app_length.
Qed.

(** ** Decoded values are bytes *)

Lemma low_bits_is_byte x : is_byte (Z.land x 255).
Proof. rewrite low8. apply Z.mod_pos_bound. lia. Qed.

Lemma append_uvarint_is_byte f x : 0 <= x -> Forall is_byte (append_uvarint f x).
Proof.
  revert x; induction f as [| f IH]; intros x Hx; cbn [append_uvarint].
  - repeat constructor; apply low_bits_is_byte.
  - destruct (Z.ltb_spec x 0x80); [by repeat constructor; lia |]. constructor.
    + rewrite group_step by done. pose proof (Z.mod_pos_bound x 128). unfold is_byte. lia.
    + apply IH. rewrite shift7. apply Z.div_pos; lia.
Qed.

Lemma AppendUvarint_is_byte x : 0 <= x -> Forall is_byte (AppendUvarint x).
Proof. apply append_uvarint_is_byte. Qed.

Lemma group8_is_byte n bs : (length bs <= n)%nat -> Forall is_byte (group8 bs).
Proof.
  revert bs; induction n as [| n IH]; intros bs Hn.
  { destruct bs; [constructor | cbn in Hn; lia]. }
  do 8 (destruct bs as [| ? bs]; [constructor |]). cbn [group8]. constructor.
  - apply of_bits_range.
  - apply IH. cbn in Hn. lia.
Qed.

Lemma base32_Decode_is_byte s raw : base32_Decode s = Some raw -> Forall is_byte raw.
Proof.
  unfold base32_Decode. destruct (mapM _ _); [| done]. intros [= <-].
  apply Forall_take. by eapply group8_is_byte.
Qed.

(** ** Hexadecimal digests *)

Lemma is_lower_hex_iff c :
  is_lower_hex c = true <-> 48 <= byte_of c <= 57 \/ 97 <= byte_of c <= 102.
Proof. unfold is_lower_hex, is_digit, in_range. by rewrite orb_true_iff, !between_iff. Qed.

Lemma lower_hex_bytes s :
  all_chars is_lower_hex s = true <->
  Forall (fun b => 48 <= b <= 57 \/ 97 <= b <= 102) (bytes s).
Proof.
  apply (all_chars_bytes _ (fun b => 48 <= b <= 57 \/ 97 <= b <= 102) _ is_lower_hex_iff).
Qed.

Lemma hex_digit_range d :
  0 <= d < 16 -> 48 <= hex_digit d <= 57 \/ 97 <= hex_digit d <= 102.
Proof. unfold hex_digit. case_match; lia. Qed.

Lemma hex_bytes bs :
  Forall is_byte bs ->
  match_class_n is_lower_hex (2 * length bs) (hex_EncodeToString bs) = true.
Proof.
  intros Hb. assert (Hh : Forall (fun b => 48 <= b <= 57 \/ 97 <= b <= 102)
    (flat_map (fun b => [hex_digit (b / 16); hex_digit (b mod 16)]) bs)).
  { induction Hb as [| b bs Hb _ IH]; [constructor |]. unfold is_byte in Hb.
    cbn [flat_map app]. constructor; [| constructor; [| done]]; apply hex_digit_range.
    - pose proof (Z.div_pos b 16). pose proof (Z.div_lt_upper_bound b 16 16). lia.
    - apply Z.mod_pos_bound. lia. }
  assert (Hbytes : bytes (hex_EncodeToString bs)
    = flat_map (fun b => [hex_digit (b / 16); hex_digit (b mod 16)]) bs).
  { apply bytes_of_bytes. eapply Forall_impl; [exact Hh |]. unfold is_byte. cbn. lia. }
  unfold match_class_n. apply andb_true_iff. split.
  - apply Nat.eqb_eq. rewrite <- length_bytes, Hbytes. clear.
    induction bs as [| b bs IH]; [done |]. cbn [flat_map app length]. rewrite IH. cbn. lia.
  - apply lower_hex_bytes. by rewrite Hbytes.
Qed.

Lemma hex_digest s :
  match_class_n is_lower_hex 64 (hex_EncodeToString (Sum256 (bytes s))) = true.
Proof.
  pose proof (hex_bytes (Sum256 (bytes s)) (Sum256_is_byte _)) as H.
  by rewrite Sum256_length in H.
Qed.

#[global] Arguments Sum256 : simpl never.
#[global] Arguments hex_EncodeToString : simpl never.
#[global] Arguments base32_Encode : simpl never.
#[global] Arguments base32_Decode : simpl never.
