(* ===== verification/Syntax.v ===== *)
(** * Syntax: the identifier packages the code imports.

    [Syntax] stands for package [github.com/bluesky-social/indigo/atproto/syntax]
    and [UUIDs] for package [github.com/google/uuid]: both are parameters of the
    development, with the documented behaviour the code relies on in the classes
    of laws.  [Demo] is an executable instance of each, for the witnesses. *)

From S2P Require Import Prelude.
From S2P Require Import GoText.
From S2P Require Import Encoding.

(** ** AT Protocol identifiers *)

Class Syntax := {
  ATURI : Type;
  AtIdentifier : Type;
  DID : Type;
  NSID : Type;
  RecordKeyT : Type;
  CIDT : Type;
  ParseATURI : string -> option ATURI;
  ATURI_String : ATURI -> string;
  Authority : ATURI -> AtIdentifier;
  AuthorityString : AtIdentifier -> string;
  AsDID : AtIdentifier -> option DID;
  ParseDID : string -> option DID;
  DID_String : DID -> string;
  ATURI_Collection : ATURI -> NSID;
  NSID_String : NSID -> string;
  ATURI_RecordKey : ATURI -> RecordKeyT;
  ParseRecordKey : string -> option RecordKeyT;
  RecordKey_String : RecordKeyT -> string;
  ParseCID : string -> option CIDT;
  CID_String : CIDT -> string
}.

(** The record-key grammar of the AT Protocol specification. *)
Definition is_rkey_char (c : Ascii.ascii) : bool :=
  is_lower c || is_upper c || is_digit c || any_char (Ascii.eqb c) "_~.:-".
Definition rkey_grammar (s : string) : bool :=
  (1 <=? len s) && (len s <=? 512) && all_chars is_rkey_char s && (s != ".") && (s != "..").

Class SyntaxLaws `{Syntax} := {
  ParseRecordKey_grammar s :
    rkey_grammar s = true ->
    exists k, ParseRecordKey s = Some k /\ RecordKey_String k = s
}.

(** What the packages' URI validators have in common: the value is the
    canonical spelling of a record URI of one collection, under a DID. *)
Definition canonical_record_uri `{Syntax} (collection value : string) (uri : ATURI) : Prop :=
  ParseATURI value = Some uri /\ ATURI_String uri = value /\
  NSID_String (ATURI_Collection uri) = collection /\
  RecordKey_String (ATURI_RecordKey uri) <> EmptyString /\
  exists did, AsDID (Authority uri) = Some did /\
    DID_String did = AuthorityString (Authority uri).

Definition canonical_did `{Syntax} (value : string) : Prop :=
  exists did, ParseDID value = Some did /\ DID_String did = value.

Definition canonical_cid `{Syntax, GoUnicode} (value : string) : Prop :=
  ToLower value = value /\ HasPrefix value "b" = true /\
  exists cid, ParseCID value = Some cid /\ CID_String cid = value.

Definition canonical_rkey `{Syntax} (value : string) : Prop :=
  exists rkey, ParseRecordKey value = Some rkey /\ RecordKey_String rkey = value.

(** The envelope of a record of [collection] that its author owns. *)
Definition owned_envelope `{Syntax, GoUnicode}
    (collection uriValue cidValue author : string) (uri : ATURI) : Prop :=
  canonical_record_uri collection uriValue uri /\
  AuthorityString (Authority uri) = author /\ canonical_did author /\ canonical_cid cidValue.

(** A strong reference to a record of [collection]. *)
Definition canonical_ref `{Syntax, GoUnicode} (collection uriValue cidValue : string) : Prop :=
  (exists uri, canonical_record_uri collection uriValue uri) /\ canonical_cid cidValue.

(** The packages' validators test the canonical forms one comparison at a time;
    this decides such a test against its specification. *)
Ltac canonical_cases :=
  unfold canonical_record_uri, canonical_did, canonical_cid, canonical_rkey;
  repeat first
    [ match goal with
      | |- context [match ?o with Some _ => _ | None => _ end] =>
          destruct o eqn:?; [| split; [done | intros; destruct_and?; naive_solver]]
      | |- context [String.eqb ?a ?b] =>
          destruct (String.eqb_spec a b); cbn [negb orb andb];
          try (split; [done | intros; destruct_and?; naive_solver])
      | |- context [HasPrefix ?a ?b] =>
          destruct (HasPrefix a b) eqn:?; cbn [negb orb andb];
          try (split; [done | intros; destruct_and?; naive_solver])
      end ];
  naive_solver.

(** The same for strong references and envelopes, given what the package's URI
    and CID validators accept. *)
Ltac reference_cases uri_Ok cid_Ok :=
  unfold canonical_ref; rewrite bind_Ok; setoid_rewrite mapErr_Ok;
  setoid_rewrite cid_Ok; setoid_rewrite uri_Ok; naive_solver.

Ltac envelope_cases uri_Ok cid_Ok :=
  unfold owned_envelope, canonical_did;
  match goal with |- context [ParseDID ?a] =>
    destruct (ParseDID a) as [did |]; [| naive_solver];
    destruct (String.eqb_spec (DID_String did) a); cbn [negb]; [| naive_solver]
  end;
  rewrite bind_Ok; setoid_rewrite reject_Ok; setoid_rewrite bind_unit_Ok;
  setoid_rewrite uri_Ok; setoid_rewrite neq_false; setoid_rewrite cid_Ok; naive_solver.

(** ** UUIDs *)

Class UUIDs := {
  uuid_String : UUID -> string;
  uuid_NewSHA1 : UUID -> list Z -> UUID
}.

(** [xxxxxxxx-xxxx-xxxx-xxxx-xxxxxxxxxxxx] in lower-case hexadecimal. *)
Class UUIDLaws `{UUIDs} := {
  uuid_String_format id :
    exists a b c d e,
      uuid_String id = a +:+ "-" +:+ b +:+ "-" +:+ c +:+ "-" +:+ d +:+ "-" +:+ e /\
      match_class_n is_lower_hex 8 a = true /\ match_class_n is_lower_hex 4 b = true /\
      match_class_n is_lower_hex 4 c = true /\ match_class_n is_lower_hex 4 d = true /\
      match_class_n is_lower_hex 12 e = true
}.

Lemma all_chars_app f s t : all_chars f (s +:+ t) = all_chars f s && all_chars f t.
Proof. unfold all_chars. by rewrite any_char_app, negb_orb. Qed.

Lemma all_chars_impl (f g : Ascii.ascii -> bool) s :
  (forall c, f c = true -> g c = true) -> all_chars f s = true -> all_chars g s = true.
Proof.
  intros Hfg. induction s as [| c s IH]; [done |].
  rewrite !all_chars_cons, !andb_true_iff. intros [Hc Hs]. auto.
Qed.

Lemma length_append s t : String.length (s +:+ t) = (String.length s + String.length t)%nat.
Proof. by rewrite <- !length_bytes, bytes_app, length_app. Qed.

Lemma drop_append p t : drop_chars (String.length p) (p +:+ t) = t.
Proof. induction p as [| c p IH]; [by destruct t | exact IH]. Qed.
Lemma TrimPrefix_append p t : TrimPrefix (p +:+ t) p = t.
Proof.
  unfold TrimPrefix. rewrite (proj2 (HasPrefix_spec _ _)) by by exists t. apply drop_append.
Qed.
Lemma substring_append t p : String.substring 0 (String.length t) (t +:+ p) = t.
Proof. induction t as [| c t IH]; [by destruct p |].
  rewrite append_cons. cbn [String.length String.substring]. by rewrite IH.
Qed.
Lemma TrimSuffix_append t p : TrimSuffix (t +:+ p) p = t.
Proof.
  unfold TrimSuffix. rewrite (proj2 (HasSuffix_spec _ _)) by by exists t.
  rewrite length_append, Nat.add_sub. apply substring_append.
Qed.

Lemma Split_append sep w t : any_char (fun c => Ascii.eqb c sep) w = false ->
  Split sep (w +:+ String sep t) = w :: Split sep t.
Proof.
  induction w as [| c w IH]; cbn [any_char].
  - intros _. rewrite append_nil_l, Split_cons, Ascii.eqb_refl. done.
  - intros [Hc Hw]%orb_false_iff. rewrite append_cons, Split_cons, Hc, IH by done. done.
Qed.
Lemma any_char_impl (f g : Ascii.ascii -> bool) s :
  (forall c, g c = true -> f c = true) -> any_char f s = false -> any_char g s = false.
Proof.
  intros Hfg. induction s as [| c s IH]; [done |]. cbn. rewrite !orb_false_iff. intros [Hc Hs].
  split; [| auto]. apply not_true_iff_false. intros Hg%Hfg. congruence.
Qed.
Lemma all_any (f g : Ascii.ascii -> bool) s :
  (forall c, f c = true -> g c = false) -> all_chars f s = true -> any_char g s = false.
Proof.
  intros Hfg. induction s as [| c s IH]; [done |]. rewrite all_chars_cons, andb_true_iff.
  intros [Hc Hs]. cbn. by rewrite (Hfg c Hc), IH.
Qed.

Lemma remove_char_app c s t : remove_char c (s +:+ t) = remove_char c s +:+ remove_char c t.
Proof.
  induction s as [| d s IH]; [done |]. rewrite append_cons. cbn.
  destruct (Ascii.eqb d c); [done |]. by rewrite IH, append_cons.
Qed.

Lemma remove_char_id c (f : Ascii.ascii -> bool) s :
  f c = false -> all_chars f s = true -> remove_char c s = s.
Proof.
  intros Hc. induction s as [| d s IH]; [done |].
  rewrite all_chars_cons, andb_true_iff. intros [Hd Hs]. cbn.
  destruct (Ascii.eqb_spec d c) as [-> |]; [congruence | by rewrite IH].
Qed.

Lemma match_class_n_true f n s :
  match_class_n f n s = true <-> String.length s = n /\ all_chars f s = true.
Proof. unfold match_class_n. by rewrite andb_true_iff, Nat.eqb_eq. Qed.

Lemma hex_rkey_char c : is_lower_hex c = true -> is_rkey_char c = true.
Proof.
  unfold is_lower_hex, is_rkey_char, is_lower, is_digit, in_range.
  rewrite orb_true_iff, !between_iff. intros [Hc | Hc].
  - rewrite (proj2 (between_iff 48 (byte_of c) 57)) by done.
    by rewrite orb_true_r.
  - rewrite (proj2 (between_iff 97 (byte_of c) 122)) by lia. done.
Qed.

Lemma base32_rkey_char c : is_base32_lower c = true -> is_rkey_char c = true.
Proof.
  unfold is_base32_lower, is_rkey_char, is_digit. rewrite orb_true_iff.
  intros [-> | Hc]; [done |]. unfold in_range in *. apply between_iff in Hc.
  rewrite (proj2 (between_iff 48 (byte_of c) 57)) by lia. by rewrite orb_true_r.
Qed.

Lemma rkey_grammar_class f n s :
  (forall c, f c = true -> is_rkey_char c = true) -> (3 <= n <= 512)%nat ->
  match_class_n f n s = true -> rkey_grammar s = true.
Proof.
  intros Hf Hn. rewrite match_class_n_true. intros [Hl Hs].
  unfold rkey_grammar, len. rewrite Hl, (all_chars_impl f is_rkey_char s Hf Hs).
  destruct (String.eqb_spec s ".") as [-> |]; [cbn in Hl; lia |].
  destruct (String.eqb_spec s "..") as [-> |]; [cbn in Hl; lia |].
  repeat (apply andb_true_iff; split); try done; lia.
Qed.

(** A UUID without its dashes is 32 hexadecimal digits. *)
Lemma uuid_hex `{UUIDLaws} id :
  match_class_n is_lower_hex 32 (remove_char "-"%char (uuid_String id)) = true.
Proof.
  destruct (uuid_String_format id) as (a & b & c & d & e & -> & Ha & Hb & Hc & Hd & He).
  rewrite match_class_n_true in *. destruct Ha, Hb, Hc, Hd, He.
  rewrite !remove_char_app. change (remove_char "-"%char "-") with EmptyString.
  rewrite !append_nil_l, !(remove_char_id "-"%char is_lower_hex) by done.
  rewrite !length_append, !all_chars_app. split; [lia |].
  repeat (apply andb_true_iff; split); done.
Qed.

(** ** An executable instance *)

Module Demo.
Record aturi := { text : string; authority : string; collection : string; rkey : string }.

Definition valid_did (s : string) : bool := HasPrefix s "did:".
Definition parse_aturi (s : string) : option aturi :=
  match Split "/"%char s with
  | [scheme; e; a; c; r] =>
      if (scheme == "at:") && (e == EmptyString) && (a != EmptyString) && (c != EmptyString)
         && rkey_grammar r
      then Some {| text := s; authority := a; collection := c; rkey := r |} else None
  | _ => None
  end.
Definition parse_if (f : string -> bool) (s : string) : option string :=
  if f s then Some s else None.

#[export] Instance syntax : Syntax := {|
  ATURI := aturi; AtIdentifier := string; DID := string; NSID := string;
  RecordKeyT := string; CIDT := string;
  ParseATURI := parse_aturi; ATURI_String := text; Authority := authority;
  AuthorityString := id; AsDID := parse_if valid_did;
  ParseDID := parse_if valid_did; DID_String := id;
  ATURI_Collection := collection; NSID_String := id;
  ATURI_RecordKey := rkey; ParseRecordKey := parse_if rkey_grammar; RecordKey_String := id;
  ParseCID := parse_if (fun s => 8 <=? len s); CID_String := id
|}.

#[export] Instance syntax_laws : SyntaxLaws.
Proof. split. intros s Hs. exists s. cbn. unfold parse_if. by rewrite Hs. Qed.

#[export] Instance unicode : GoUnicode := {| unicode_ToLower := id; unicode_ToUpper := id |}.

Definition hex (n : nat) (z : Z) : string := hex_EncodeToString (be_bytes n z).
#[export] Instance uuids : UUIDs := {|
  uuid_String id :=
    hex 4 (Z.shiftr id 96) +:+ "-" +:+ hex 2 (Z.shiftr id 80) +:+ "-"
    +:+ hex 2 (Z.shiftr id 64) +:+ "-" +:+ hex 2 (Z.shiftr id 48) +:+ "-" +:+ hex 6 id;
  uuid_NewSHA1 ns data := fold_left (fun h b => (h * 257 + b + 1) mod 2 ^ 128) data ns
|}.

Lemma hex_class n m z : m = (2 * n)%nat -> match_class_n is_lower_hex m (hex n z) = true.
Proof.
  intros ->. pose proof (hex_bytes (be_bytes n z) (be_bytes_is_byte n z)) as H.
  by rewrite be_bytes_length in H.
Qed.

#[export] Instance uuid_laws : UUIDLaws.
Proof.
  split. intros id. cbn [uuid_String uuids]. do 5 eexists. split; [reflexivity |].
  split_and!; by apply hex_class.
Qed.
End Demo.
