(* ===== verification/Json.v ===== *)
(** * Json: the parts of [encoding/json] and [time] the modelled code uses to
    fingerprint requests. *)

From S2P Require Import Prelude.
From S2P Require Import GoText.
From S2P Require Import Encoding.

Module json.

Definition hex4 (r : Z) : list Z :=
  map (fun i => hex_digit (Z.land (Z.shiftr r (4 * i)) 15)) [3; 2; 1; 0].
(** [\uXXXX] *)
Definition u_escape (r : Z) : list Z := [92; 117] ++ hex4 r.

(** One rune of a string literal, as [appendString] writes it with HTML
    escaping; a byte that is no UTF-8 becomes [\ufffd]. *)
Definition escape (p : Z * Z) : list Z :=
  let '(r, w) := p in
  if (r =? RuneError) && (w =? 1) then u_escape RuneError
  else if (r =? 34) || (r =? 92) then [92; r]
  else if r =? 8 then [92; 98]
  else if r =? 12 then [92; 102]
  else if r =? 10 then [92; 110]
  else if r =? 13 then [92; 114]
  else if r =? 9 then [92; 116]
  else if (r <? 0x20) || (r =? 60) || (r =? 62) || (r =? 38) || (r =? 0x2028) || (r =? 0x2029)
  then u_escape r
  else EncodeRune r.

Definition string_ (s : string) : list Z :=
  [34] ++ flat_map escape (decode (bytes s)) ++ [34].

Definition nullable {A} (f : A -> list Z) (v : option A) : list Z :=
  match v with None => bytes "null" | Some a => f a end.

Fixpoint fields (fs : list (string * list Z)) : list Z :=
  match fs with
  | [] => []
  | (name, v) :: fs' =>
      string_ name ++ [58] ++ v ++ match fs' with [] => [] | _ => [44] ++ fields fs' end
  end.
Definition object (fs : list (string * list Z)) : list Z := [123] ++ fields fs ++ [125].

(** ** Times *)

(** The proleptic Gregorian date of a day number counted from January 1 of
    year 1. *)
Definition civil (days : Z) : Z * Z * Z :=
  let z := days + 306 in
  let era := z / 146097 in
  let doe := z mod 146097 in
  let yoe := (doe - doe / 1460 + doe / 36524 - doe / 146096) / 365 in
  let doy := doe - (365 * yoe + yoe / 4 - yoe / 100) in
  let mp := (5 * doy + 2) / 153 in
  let d := doy - (153 * mp + 2) / 5 + 1 in
  let m := if mp <? 10 then mp + 3 else mp - 9 in
  (yoe + era * 400 + (if m <=? 2 then 1 else 0), m, d).

Definition nanosPerDay : Z := 86400 * second.

(** Zero-padded decimal digits. *)
Fixpoint digits (n : nat) (v : Z) : list Z :=
  match n with O => [] | S n => digits n (v / 10) ++ [48 + v mod 10] end.

Fixpoint drop_zeros (rds : list Z) : list Z :=
  match rds with d :: r => if d =? 48 then drop_zeros r else rds | [] => [] end.
(** The fraction of a second, without trailing zeros. *)
Definition fraction (nanos : Z) : list Z :=
  match rev (drop_zeros (rev (digits 9 nanos))) with [] => [] | ds => 46 :: ds end.

(** [Time.MarshalJSON] of a UTC time: RFC 3339 with nanoseconds; a year outside
    [0, 9999] is an error. *)
Definition time_ (t : time) : option (list Z) :=
  let '(y, m, d) := civil (t / nanosPerDay) in
  let ns := t mod nanosPerDay in
  let secs := ns / second in
  if (y <? 0) || (9999 <? y) then None else
  Some ([34] ++ digits 4 y ++ [45] ++ digits 2 m ++ [45] ++ digits 2 d ++ [84]
        ++ digits 2 (secs / 3600) ++ [58] ++ digits 2 (secs / 60 mod 60) ++ [58]
        ++ digits 2 (secs mod 60) ++ fraction (ns mod second) ++ [90; 34]).

Definition optional_time (t : option time) : option (list Z) :=
  match t with None => Some (bytes "null") | Some t => time_ t end.
End json.

(** August 9, 2026, 12:00:00.000000120 UTC, and a string with every escape. *)
Example time_2026 :
  option_map of_bytes (json.time_ ((739836 * 86400 + 43200) * second + 120))
  = Some (of_bytes ([34] ++ bytes "2026-08-09T12:00:00.00000012Z" ++ [34])).
Proof. reflexivity. Qed.

Example time_zero :
  option_map of_bytes (json.time_ 0) = Some (of_bytes ([34] ++ bytes "0001-01-01T00:00:00Z" ++ [34])).
Proof. reflexivity. Qed.

Example string_escapes :
  json.string_ (of_bytes [34; 92; 60; 10; 1; 65; 0xFF; 0xE2; 0x80; 0xA8])
  = [34] ++ bytes "\" ++ [34] ++ bytes "\\\u003c\n\u0001A\ufffd\u2028" ++ [34].
Proof. reflexivity. Qed.
