(* ===== verification/JsonDecode.v ===== *)
(** * JsonDecode: [encoding/json]'s reader, which the pagination cursors and the
    federation events go through.

    The input is read as its runes: every structural character of JSON is ASCII,
    and within strings a byte that is no UTF-8 reads as U+FFFD. *)

From S2P Require Import Prelude.
From S2P Require Import GoText.
From S2P Require Import Encoding.
From S2P Require Import Json.

Module jsondecode.

(** A value; strings and member names are their runes, numbers their text. *)
Inductive value :=
| Null
| Bool (b : bool)
| Number (text : list Z)
| Str (rs : list Z)
| Arr (elements : list value)
| Obj (members : list (list Z * value)).

Definition is_ws (r : Z) : bool := (r =? 32) || (r =? 9) || (r =? 10) || (r =? 13).
Fixpoint skip_ws (rs : list Z) : list Z :=
  match rs with r :: rest => if is_ws r then skip_ws rest else rs | [] => [] end.

Definition hex_value (r : Z) : option Z :=
  if between 48 r 57 then Some (r - 48)
  else if between 97 r 102 then Some (r - 87)
  else if between 65 r 70 then Some (r - 55)
  else None.
(** [getu4]. *)
Definition u4 (a b c d : Z) : option Z :=
  a ← hex_value a; b ← hex_value b; c ← hex_value c; d ← hex_value d;
  Some (((a * 16 + b) * 16 + c) * 16 + d).

Definition is_surrogate (u : Z) : bool := between 0xD800 u 0xDFFF.
(** [utf16.DecodeRune]. *)
Definition decode_pair (u v : Z) : option Z :=
  if between 0xD800 u 0xDBFF && between 0xDC00 v 0xDFFF
  then Some ((u - 0xD800) * 1024 + (v - 0xDC00) + 0x10000) else None.

(** The rune a simple escape stands for. *)
Definition simple_escape (e : Z) : option Z :=
  if (e =? 34) || (e =? 92) || (e =? 47) then Some e
  else if e =? 98 then Some 8 else if e =? 102 then Some 12
  else if e =? 110 then Some 10 else if e =? 114 then Some 13
  else if e =? 116 then Some 9 else None.

Definition cons_rune (r : Z) (p : option (list Z * list Z)) : option (list Z * list Z) :=
  '(rs, rest) ← p; Some (r :: rs, rest).

(** The rest of a string literal, after its opening quote. *)
Fixpoint str (rs : list Z) : option (list Z * list Z) :=
  match rs with
  | [] => None
  | r :: rest =>
      if r =? 34 then Some ([], rest)
      else if r <? 0x20 then None
      else if negb (r =? 92) then cons_rune r (str rest)
      else
        match rest with
        | [] => None
        | e :: rest1 =>
            match simple_escape e with
            | Some r => cons_rune r (str rest1)
            | None =>
                if negb (e =? 117) then None else
                match rest1 with
                | a :: b :: c :: d :: rest2 =>
                    match u4 a b c d with
                    | None => None
                    | Some u =>
                        if negb (is_surrogate u) then cons_rune u (str rest2) else
                        match rest2 with
                        | s :: t :: a' :: b' :: c' :: d' :: rest3 =>
                            match (if (s =? 92) && (t =? 117) then u4 a' b' c' d' else None) with
                            | Some v =>
                                match decode_pair u v with
                                | Some r => cons_rune r (str rest3)
                                | None => cons_rune RuneError (str rest2)
                                end
                            | None => cons_rune RuneError (str rest2)
                            end
                        | _ => cons_rune RuneError (str rest2)
                        end
                    end
                | _ => None
                end
            end
        end
  end.

Definition is_digit_rune (r : Z) : bool := between 48 r 57.
Fixpoint take_digits (rs : list Z) : list Z * list Z :=
  match rs with
  | r :: rest => if is_digit_rune r then let '(ds, rest') := take_digits rest in (r :: ds, rest')
                 else ([], rs)
  | [] => ([], [])
  end.

(** The rest after the character [c]. *)
Definition expect (c : Z) (rs : list Z) : option (list Z) :=
  match rs with r :: rest => if r =? c then Some rest else None | [] => None end.

(** [-? (0 | [1-9][0-9]* ) ( . [0-9]+ )? ( [eE] [+-]? [0-9]+ )?] *)
Definition some_digits (rs : list Z) : option (list Z * list Z) :=
  match take_digits rs with ([], _) => None | (ds, rest) => Some (ds, rest) end.
Definition int_part (rs : list Z) : option (list Z * list Z) :=
  match expect 48 rs with Some rest => Some ([48], rest) | None => some_digits rs end.
Definition frac_part (rs : list Z) : option (list Z * list Z) :=
  match expect 46 rs with
  | Some rest => '(ds, rest) ← some_digits rest; Some (46 :: ds, rest)
  | None => Some ([], rs)
  end.
Definition sign_part (rs : list Z) : list Z * list Z :=
  match rs with
  | s :: rest => if (s =? 43) || (s =? 45) then ([s], rest) else ([], rs)
  | [] => ([], rs)
  end.
Definition exp_part (rs : list Z) : option (list Z * list Z) :=
  match rs with
  | e :: rest =>
      if negb ((e =? 101) || (e =? 69)) then Some ([], rs) else
      let '(sign, rest) := sign_part rest in
      '(ds, rest) ← some_digits rest; Some (e :: sign ++ ds, rest)
  | [] => Some ([], rs)
  end.
Definition number (rs : list Z) : option (list Z * list Z) :=
  let '(sign, rs) := match expect 45 rs with Some rest => ([45], rest) | None => ([], rs) end in
  '(i, rs) ← int_part rs; '(f, rs) ← frac_part rs; '(e, rs) ← exp_part rs;
  Some (sign ++ i ++ f ++ e, rs).

Definition maxNestingDepth : nat := Z.to_nat 10000.

Fixpoint strip_prefix (p rs : list Z) : option (list Z) :=
  match p, rs with
  | [], _ => Some rs
  | a :: p, b :: rs => if a =? b then strip_prefix p rs else None
  | _ :: _, [] => None
  end.
Definition literal (rs : list Z) : option (value * list Z) :=
  match strip_prefix (bytes "null") rs with
  | Some rest => Some (Null, rest)
  | None =>
      match strip_prefix (bytes "true") rs with
      | Some rest => Some (Bool true, rest)
      | None => rest ← strip_prefix (bytes "false") rs; Some (Bool false, rest)
      end
  end.

(** A value; the members of an object, after its opening brace, and the elements
    of an array; [depth] is how many more may be open. *)
Fixpoint parse (fuel depth : nat) (rs : list Z) : option (value * list Z) :=
  match fuel with
  | O => None
  | S fuel =>
      let rs := skip_ws rs in
      match expect 123 rs with
      | Some rest =>
          match depth with
          | O => None
          | S depth =>
              match expect 125 (skip_ws rest) with
              | Some rest => Some (Obj [], rest)
              | None => '(ms, rest) ← members fuel depth rest; Some (Obj ms, rest)
              end
          end
      | None =>
      match expect 91 rs with
      | Some rest =>
          match depth with
          | O => None
          | S depth =>
              match expect 93 (skip_ws rest) with
              | Some rest => Some (Arr [], rest)
              | None => '(vs, rest) ← elements fuel depth rest; Some (Arr vs, rest)
              end
          end
      | None =>
      match expect 34 rs with
      | Some rest => '(s, rest) ← str rest; Some (Str s, rest)
      | None =>
          if match rs with r :: _ => is_digit_rune r || (r =? 45) | [] => false end
          then '(t, rest) ← number rs; Some (Number t, rest)
          else literal rs
      end end end
  end
with members (fuel depth : nat) (rs : list Z) : option (list (list Z * value) * list Z) :=
  match fuel with
  | O => None
  | S fuel =>
      rest ← expect 34 (skip_ws rs);
      '(name, rest) ← str rest;
      rest ← expect 58 (skip_ws rest);
      '(v, rest) ← parse fuel depth rest;
      match expect 125 (skip_ws rest) with
      | Some rest => Some ([(name, v)], rest)
      | None =>
          rest ← expect 44 (skip_ws rest);
          '(ms, rest) ← members fuel depth rest; Some ((name, v) :: ms, rest)
      end
  end
with elements (fuel depth : nat) (rs : list Z) : option (list value * list Z) :=
  match fuel with
  | O => None
  | S fuel =>
      '(v, rest) ← parse fuel depth rs;
      match expect 93 (skip_ws rest) with
      | Some rest => Some ([v], rest)
      | None =>
          rest ← expect 44 (skip_ws rest);
          '(vs, rest) ← elements fuel depth rest; Some (v :: vs, rest)
      end
  end.

(** The fuel an input of runes needs: a call consumes one, or is the first of two
    at the same place. *)
Definition enough (rs : list Z) : nat := S (2 * length rs).

(** The single value of the input. *)
Definition read (input : list Z) : option value :=
  let rs := map fst (decode input) in
  '(v, rest) ← parse (enough rs) maxNestingDepth rs;
  match skip_ws rest with [] => Some v | _ => None end.

(** ** Decoding into the fields of a struct *)

(** The string a field of type [string] receives. *)
Definition text_of (rs : list Z) : string := of_bytes (flat_map EncodeRune rs).

(** [foldName], for comparison with an ASCII name: besides the letters' case, the
    long s and the Kelvin sign fold to letters. *)
Definition fold_rune (r : Z) : Z :=
  if between 97 r 122 then r - 32 else if r =? 0x17F then 83 else if r =? 0x212A then 75 else r.
Definition same_name (name : string) (key : list Z) : bool :=
  bool_decide (map fold_rune key = map fold_rune (bytes name)).

(** [strconv.ParseInt] of a number's text into 64 bits. *)
Definition digits_value (ds : list Z) : Z := fold_left (fun n d => n * 10 + (d - 48)) ds 0.
Definition parse_int64 (text : list Z) : option Z :=
  let '(neg, ds) := match expect 45 text with Some ds => (true, ds) | None => (false, text) end in
  if negb (forallb is_digit_rune ds) then None else
  let v := if neg : bool then - digits_value ds else digits_value ds in
  if between (- 2 ^ 63) v (2 ^ 63 - 1) then Some v else None.

(** A member into an [int] or a [string] field: [null] leaves it, a value of
    another type is an error. *)
Definition into_int (v : value) (old : Z) : option Z :=
  match v with Null => Some old | Number t => parse_int64 t | _ => None end.
Definition into_string (v : value) (old : string) : option string :=
  match v with Null => Some old | Str rs => Some (text_of rs) | _ => None end.
End jsondecode.

(** ** Reading back what [encoding/json] writes *)

Module jsonfacts.
Import jsondecode.
#[local] Ltac Zify.zify_post_hook ::= Z.to_euclidean_division_equations.

(** A Unicode scalar value, the only rune valid UTF-8 encodes. *)
Definition scalar (r : Z) : Prop := 0 <= r <= 0x10FFFF /\ ~ (0xD800 <= r <= 0xDFFF).

Lemma between_false_hi lo b hi : hi < b -> between lo b hi = false.
Proof. intros H. apply not_true_is_false. rewrite between_iff. lia. Qed.

Lemma seq2_EncodeRune b0 b1 r : seq2 b0 b1 = Some r -> EncodeRune r = [b0; b1] /\ scalar r.
Proof.
  unfold seq2, cont. destruct (_ && _) eqn:Hc; [| done]. intros [= <-].
  rewrite andb_true_iff, !between_iff in Hc. unfold EncodeRune, scalar.
  rewrite (between_false_hi 0) by lia.
  rewrite (proj2 (between_iff 0x80 _ 0x7FF)) by lia. split; [repeat f_equal |]; lia.
Qed.

Lemma seq3_EncodeRune b0 b1 b2 r :
  seq3 b0 b1 b2 = Some r -> EncodeRune r = [b0; b1; b2] /\ scalar r.
Proof.
  unfold seq3, cont. destruct (_ && _) eqn:Hc; [| done]. intros [= <-].
  rewrite !andb_true_iff, !between_iff in Hc.
  assert (Hb : 0x800 <= (b0 - 0xE0) * 4096 + (b1 - 0x80) * 64 + (b2 - 0x80) <= 0xFFFF /\
    ~ (0xD800 <= (b0 - 0xE0) * 4096 + (b1 - 0x80) * 64 + (b2 - 0x80) <= 0xDFFF) /\
    0x80 <= b1 <= 0xBF /\ 0x80 <= b2 <= 0xBF).
  { destruct (Z.eqb_spec b0 0xE0), (Z.eqb_spec b0 0xED); lia. }
  unfold EncodeRune, scalar. rewrite !(between_false_hi 0 _ 127), (between_false_hi 128 _ 2047) by lia.
  rewrite (proj2 (between_iff 0 _ 0x10FFFF)) by lia. cbn [negb orb].
  replace (between 0xD800 _ 0xDFFF) with false
    by (symmetry; apply not_true_is_false; rewrite between_iff; lia).
  rewrite (proj2 (Z.leb_le _ 0xFFFF)) by lia. split; [| lia]. repeat f_equal; lia.
Qed.

Lemma seq4_EncodeRune b0 b1 b2 b3 r :
  seq4 b0 b1 b2 b3 = Some r -> EncodeRune r = [b0; b1; b2; b3] /\ scalar r.
Proof.
  unfold seq4, cont. destruct (_ && _) eqn:Hc; [| done]. intros [= <-].
  rewrite !andb_true_iff, !between_iff in Hc.
  set (r := (b0 - 0xF0) * 262144 + (b1 - 0x80) * 4096 + (b2 - 0x80) * 64 + (b3 - 0x80)).
  assert (Hb : 0x10000 <= r <= 0x10FFFF /\ 0x80 <= b1 <= 0xBF /\ 0x80 <= b2 <= 0xBF /\
               0x80 <= b3 <= 0xBF).
  { destruct (Z.eqb_spec b0 0xF0), (Z.eqb_spec b0 0xF4); lia. }
  unfold EncodeRune, scalar. rewrite !(between_false_hi 0 _ 127), (between_false_hi 128 _ 2047) by lia.
  rewrite (proj2 (between_iff 0 _ 0x10FFFF)), (between_false_hi 0xD800) by lia. cbn [negb orb].
  rewrite (proj2 (Z.leb_gt _ 0xFFFF)) by lia. split; [| lia]. unfold r in *. repeat f_equal; lia.
Qed.

Definition valid_pair (p : Z * Z) : bool := let '(r, w) := p in negb ((r =? RuneError) && (w =? 1)).

(** Valid UTF-8 consists of scalar values, and is their encoding. *)
Lemma valid_decode bs :
  Forall is_byte bs -> forallb valid_pair (decode bs) = true ->
  Forall (fun p => scalar (fst p)) (decode bs) /\ flat_map (fun p => EncodeRune (fst p)) (decode bs) = bs.
Proof.
  induction bs as [bs IH] using (induction_ltof1 _ length); unfold ltof in IH.
  destruct bs as [| b0 r0]; [by intros; split; [constructor |] |]. intros [Hb Hr0]%Forall_cons.
  assert (IH' : forall bs', (length bs' < length (b0 :: r0))%nat -> Forall is_byte bs' ->
    forall r w pre, EncodeRune r = pre -> scalar r -> forallb valid_pair ((r, w) :: decode bs') = true ->
    Forall (fun p => scalar (fst p)) ((r, w) :: decode bs') /\
    flat_map (fun p => EncodeRune (fst p)) ((r, w) :: decode bs') = pre ++ bs').
  { intros bs' Hl Hbs' r w pre He Hs [_ Hv]%andb_true_iff. destruct (IH bs' Hl Hbs' Hv) as [Hf Hm].
    split; [by constructor |]. cbn [flat_map fst]. by rewrite He, Hm. }
  cbn [decode]. destruct (Z.ltb_spec b0 0x80) as [Hlt | _].
  { refine (IH' r0 _ Hr0 b0 1 [b0] _ _); [cbn; lia | | unfold scalar, is_byte in *; lia].
    unfold EncodeRune. unfold is_byte in Hb. by rewrite (proj2 (between_iff 0 b0 0x7F)) by lia. }
  destruct r0 as [| b1 r1]; [done |]. apply Forall_cons in Hr0 as [Hb1 Hr1].
  destruct (seq2 b0 b1) as [r |] eqn:H2.
  { apply seq2_EncodeRune in H2 as [He Hs]. refine (IH' r1 _ Hr1 r 2 [b0; b1] He Hs); cbn; lia. }
  destruct r1 as [| b2 r2]; [done |]. apply Forall_cons in Hr1 as [Hb2 Hr2].
  destruct (seq3 b0 b1 b2) as [r |] eqn:H3.
  { apply seq3_EncodeRune in H3 as [He Hs]. refine (IH' r2 _ Hr2 r 3 [b0; b1; b2] He Hs); cbn; lia. }
  destruct r2 as [| b3 r3]; [done |]. apply Forall_cons in Hr2 as [Hb3 Hr3].
  destruct (seq4 b0 b1 b2 b3) as [r |] eqn:H4; [| done].
  apply seq4_EncodeRune in H4 as [He Hs]. refine (IH' r3 _ Hr3 r 4 [b0; b1; b2; b3] He Hs); cbn; lia.
Qed.

Lemma ValidString_runes s :
  ValidString s = true ->
  Forall (fun p => scalar (fst p)) (decode (bytes s)) /\ text_of (runes s) = s.
Proof.
  intros Hv. destruct (valid_decode (bytes s) (bytes_is_byte s)) as [Hf Hm].
  { unfold ValidString in Hv. rewrite <- Hv. f_equal. }
  split; [done |]. unfold text_of, runes. rewrite flat_map_concat_map, map_map, <- flat_map_concat_map, Hm.
  apply of_bytes_bytes.
Qed.

(** The runes of a byte sequence, and of one begun with an encoded rune. *)
Definition dec (bs : list Z) : list Z := map fst (decode bs).

Lemma dec_ascii c bs : c < 0x80 -> dec (c :: bs) = c :: dec bs.
Proof. intros Hc. unfold dec. cbn [decode]. by rewrite (proj2 (Z.ltb_lt c 0x80) Hc). Qed.

Lemma dec_ascii_app cs bs : Forall (fun c => c < 0x80) cs -> dec (cs ++ bs) = cs ++ dec bs.
Proof. induction 1 as [| c cs Hc _ IH]; [done |]. cbn [app]. by rewrite dec_ascii, IH. Qed.

Lemma dec_app_ascii bs c cs : c < 0x80 -> dec (bs ++ c :: cs) = dec bs ++ c :: dec cs.
Proof. intros Hc. unfold dec. by rewrite decode_app_ascii, map_app. Qed.

Lemma seq2_range b0 b1 : ~ (0xC2 <= b0 <= 0xDF) -> seq2 b0 b1 = None.
Proof.
  intros Hn. unfold seq2. replace (between 0xC2 b0 0xDF) with false; [done |].
  symmetry. apply not_true_is_false. by rewrite between_iff.
Qed.
Lemma seq3_range b0 b1 b2 : ~ (0xE0 <= b0 <= 0xEF) -> seq3 b0 b1 b2 = None.
Proof.
  intros Hn. unfold seq3. replace (between 0xE0 b0 0xEF) with false; [done |].
  symmetry. apply not_true_is_false. by rewrite between_iff.
Qed.

Lemma dec_EncodeRune r bs : scalar r -> dec (EncodeRune r ++ bs) = r :: dec bs.
Proof.
  intros [Hr Hs]. unfold EncodeRune.
  destruct (between 0 r 0x7F) eqn:H1; [apply between_iff in H1; by rewrite dec_ascii_app by (repeat constructor; lia) |].
  apply not_true_iff_false in H1. rewrite between_iff in H1.
  unfold dec.
  destruct (between 0x80 r 0x7FF) eqn:H2.
  { apply between_iff in H2. cbn [app decode]. rewrite (proj2 (Z.ltb_ge _ _)) by lia.
    unfold seq2, cont. rewrite !(proj2 (between_iff _ _ _)) by lia. cbn [andb map fst]. f_equal. lia. }
  apply not_true_iff_false in H2. rewrite between_iff in H2.
  rewrite (proj2 (between_iff 0 r 0x10FFFF)) by lia. cbn [negb orb].
  destruct (between 0xD800 r 0xDFFF) eqn:H3; [apply between_iff in H3; lia |].
  destruct (Z.leb_spec r 0xFFFF) as [Hle | Hgt].
  - cbn [app decode]. rewrite (proj2 (Z.ltb_ge _ _)) by lia. rewrite seq2_range by lia.
    unfold seq3, cont. rewrite (proj2 (between_iff 0xE0 _ _)), (proj2 (between_iff 0x80 (_ + r mod 64) _)) by lia.
    replace (between _ (0x80 + _) _) with true.
    { cbn [andb map fst]. f_equal. lia. }
    symmetry. apply between_iff.
    destruct (Z.eqb_spec (224 + r / 4096) 224), (Z.eqb_spec (224 + r / 4096) 237); lia.
  - cbn [app decode]. rewrite (proj2 (Z.ltb_ge _ _)) by lia.
    rewrite seq2_range, seq3_range by lia. unfold seq4, cont.
    rewrite (proj2 (between_iff 0xF0 _ _)), (proj2 (between_iff 0x80 (_ + r mod 64) _)),
      (proj2 (between_iff 0x80 (_ + (r / 64) mod 64) _)) by lia.
    replace (between _ (0x80 + _) _) with true.
    { cbn [andb map fst]. f_equal. lia. }
    symmetry. apply between_iff.
    destruct (Z.eqb_spec (240 + r / 262144) 240), (Z.eqb_spec (240 + r / 262144) 244); lia.
Qed.

(** ** Strings *)

Lemma hex_value_digit d : 0 <= d < 16 -> hex_value (hex_digit d) = Some d.
Proof.
  intros Hd. unfold hex_digit, hex_value. destruct (Z.ltb_spec d 10).
  - rewrite (proj2 (between_iff 48 _ 57)) by lia. f_equal. lia.
  - rewrite (between_false_hi 48), (proj2 (between_iff 97 _ 102)) by lia. f_equal. lia.
Qed.

Lemma u4_hex4 r : 0 <= r < 0x10000 ->
  exists a b c d, json.hex4 r = [a; b; c; d] /\ u4 a b c d = Some r /\
    Forall (fun x => x < 0x80) [a; b; c; d].
Proof.
  intros Hr. unfold json.hex4. cbn [map]. do 4 eexists. split; [reflexivity |].
  assert (Hland : forall k, 0 <= k -> Z.land (Z.shiftr r k) 15 = (r / 2 ^ k) mod 16).
  { intros k Hk. rewrite Z.shiftr_div_pow2 by done. by rewrite (Z.land_ones _ 4). }
  rewrite !Hland by lia.
  change (2 ^ (4 * 3)) with 4096. change (2 ^ (4 * 2)) with 256. change (2 ^ (4 * 1)) with 16.
  change (2 ^ (4 * 0)) with 1. split.
  - unfold u4. rewrite !hex_value_digit by lia. cbn [mbind option_bind]. f_equal. lia.
  - repeat constructor; match goal with |- hex_digit ?d < _ =>
      pose proof (hex_digit_range d ltac:(lia)); lia end.
Qed.

(** An escaped rune, as its runes. *)
Definition escape_runes (p : Z * Z) : list Z :=
  let r := fst p in
  if (r =? 34) || (r =? 92) then [92; r]
  else if r =? 8 then [92; 98]
  else if r =? 12 then [92; 102]
  else if r =? 10 then [92; 110]
  else if r =? 13 then [92; 114]
  else if r =? 9 then [92; 116]
  else if (r <? 0x20) || (r =? 60) || (r =? 62) || (r =? 38) || (r =? 0x2028) || (r =? 0x2029)
  then json.u_escape r
  else [r].

Lemma dec_escape p bs :
  valid_pair p = true -> scalar (fst p) -> dec (json.escape p ++ bs) = escape_runes p ++ dec bs.
Proof.
  destruct p as [r w]. cbn [fst valid_pair]. intros Hv Hs. unfold json.escape, escape_runes.
  cbn [fst]. apply negb_true_iff in Hv. rewrite Hv.
  repeat match goal with
  | |- context [if ?b then [92; ?c] else _] =>
      destruct b eqn:?; [apply dec_ascii_app; repeat constructor; lia |]
  end.
  match goal with |- context [if ?b then json.u_escape _ else _] =>
    destruct b eqn:Hu end; [| by apply dec_EncodeRune].
  apply dec_ascii_app. destruct (u4_hex4 r) as (a & b & c & d & He & _ & Hf); [destruct Hs; lia |].
  unfold json.u_escape. rewrite He. by repeat (constructor; [lia |]).
Qed.

Lemma dec_flat_escape l bs :
  Forall (fun p => scalar (fst p)) l -> forallb valid_pair l = true ->
  dec (flat_map json.escape l ++ bs) = flat_map escape_runes l ++ dec bs.
Proof.
  induction 1 as [| p l Hp _ IH]; cbn [flat_map forallb app]; [done |].
  intros [Hv Hl]%andb_true_iff.
  rewrite <- !app_assoc, dec_escape by done. by rewrite IH.
Qed.

Lemma str_escape p rest : scalar (fst p) -> str (escape_runes p ++ rest) = cons_rune (fst p) (str rest).
Proof.
  intros [Hr Hs]. destruct p as [r w]. cbn [fst] in *. unfold escape_runes. cbn [fst].
  destruct ((r =? 34) || (r =? 92)) eqn:H1.
  { apply orb_true_iff in H1 as [->%Z.eqb_eq | ->%Z.eqb_eq]; done. }
  apply orb_false_iff in H1 as [Hq Hb].
  destruct (Z.eqb_spec r 8) as [-> |]; [done |]. destruct (Z.eqb_spec r 12) as [-> |]; [done |].
  destruct (Z.eqb_spec r 10) as [-> |]; [done |]. destruct (Z.eqb_spec r 13) as [-> |]; [done |].
  destruct (Z.eqb_spec r 9) as [-> |]; [done |].
  match goal with |- context [if ?b then json.u_escape _ else _] => destruct b eqn:Hu end.
  - destruct (u4_hex4 r) as (a & b & c & d & He & Hd & _); [lia |].
    unfold json.u_escape. rewrite He. cbn -[u4 is_surrogate]. rewrite Hd.
    replace (is_surrogate r) with false; [done |]. symmetry. apply not_true_is_false.
    unfold is_surrogate. rewrite between_iff. lia.
  - cbn [app str]. rewrite Hq, Hb. rewrite (proj2 (Z.ltb_ge r 0x20)) by lia. done.
Qed.

Lemma str_runes l rest :
  Forall (fun p => scalar (fst p)) l -> str (flat_map escape_runes l ++ 34 :: rest) = Some (map fst l, rest).
Proof.
  induction 1 as [| p l Hp _ IH]; [done |]. cbn [flat_map]. rewrite <- app_assoc, str_escape by done.
  by rewrite IH.
Qed.

(** The runes of the literal of [s], its opening quote taken. *)
Definition literal_runes (s : string) : list Z := flat_map escape_runes (decode (bytes s)) ++ [34].

Lemma dec_string s bs :
  ValidString s = true -> dec (json.string_ s ++ bs) = 34 :: literal_runes s ++ dec bs.
Proof.
  intros Hv. destruct (ValidString_runes s Hv) as [Hf _]. unfold json.string_, literal_runes.
  rewrite <- !app_assoc. change ([34] ++ ?x) with (34 :: x). rewrite dec_ascii by lia. f_equal.
  rewrite dec_flat_escape by done.
  by f_equal.
Qed.

Lemma str_literal s rest :
  ValidString s = true -> str (literal_runes s ++ rest) = Some (runes s, rest).
Proof.
  intros Hv. destruct (ValidString_runes s Hv) as [Hf _]. unfold literal_runes.
  rewrite <- app_assoc. by apply str_runes.
Qed.

(** ** The fuel is enough *)

Lemma skip_ws_length rs : (length (skip_ws rs) <= length rs)%nat.
Proof. induction rs as [| r rs IH]; cbn; [lia |]. destruct (is_ws r); cbn; lia. Qed.

Lemma cons_rune_length r p rs rest n :
  (forall rs rest, p = Some (rs, rest) -> (length rest < n)%nat) ->
  cons_rune r p = Some (rs, rest) -> (length rest < n)%nat.
Proof. intros Hp. destruct p as [[rs' rest'] |]; [| done]. cbn. intros [= <- <-]. by eapply Hp. Qed.

Lemma str_length rs s rest : str rs = Some (s, rest) -> (length rest < length rs)%nat.
Proof.
  revert s rest. induction rs as [rs IH] using (induction_ltof1 _ length); unfold ltof in IH.
  intros s rest. destruct rs as [| r rest0]; [done |].
  assert (Hc : forall x rs', (length rs' < length (r :: rest0))%nat ->
            cons_rune x (str rs') = Some (s, rest) -> (length rest < length (r :: rest0))%nat).
  { intros x rs' Hl. apply cons_rune_length. intros s' rest' Hs. apply IH in Hs; lia. }
  cbn [str]. repeat case_match; try done; try (intros [= <- <-]; cbn; lia);
    apply Hc; subst; cbn; lia.
Qed.

Lemma take_digits_length rs ds rest :
  take_digits rs = (ds, rest) -> (length ds + length rest = length rs)%nat.
Proof.
  revert ds rest. induction rs as [| r rs IH]; intros ds rest; cbn; [by intros [= <- <-] |].
  destruct (is_digit_rune r); [| by intros [= <- <-]].
  destruct (take_digits rs) as [ds' rest']. intros [= <- <-]. cbn. by rewrite (IH ds' rest').
Qed.

Lemma expect_length c rs rest : expect c rs = Some rest -> length rs = S (length rest).
Proof. destruct rs as [| r rs]; cbn; [done |]. destruct (r =? c); [| done]. by intros [= ->]. Qed.

Lemma some_digits_length rs ds rest :
  some_digits rs = Some (ds, rest) -> (length rest < length rs)%nat.
Proof.
  unfold some_digits. destruct (take_digits rs) as [[| d ds'] rest'] eqn:Ht; [done |].
  intros [= _ <-]. apply take_digits_length in Ht. cbn in Ht. lia.
Qed.

Lemma int_part_length rs t rest : int_part rs = Some (t, rest) -> (length rest < length rs)%nat.
Proof.
  unfold int_part. destruct (expect 48 rs) as [r |] eqn:He; [| apply some_digits_length].
  intros [= _ <-]. apply expect_length in He. lia.
Qed.

Lemma frac_part_length rs t rest : frac_part rs = Some (t, rest) -> (length rest <= length rs)%nat.
Proof.
  unfold frac_part. destruct (expect 46 rs) as [r |] eqn:He; [| by intros [= _ <-]].
  apply expect_length in He. destruct (some_digits r) as [[ds r'] |] eqn:Hs; [| done].
  apply some_digits_length in Hs. cbn. intros [= _ <-]. lia.
Qed.

Lemma sign_part_length rs t rest : sign_part rs = (t, rest) -> (length rest <= length rs)%nat.
Proof.
  unfold sign_part. destruct rs as [| s rs]; [by intros [= _ <-] |].
  destruct (_ || _); intros [= _ <-]; cbn; lia.
Qed.

Lemma exp_part_length rs t rest : exp_part rs = Some (t, rest) -> (length rest <= length rs)%nat.
Proof.
  unfold exp_part. destruct rs as [| e r]; [by intros [= _ <-] |].
  destruct (negb _); [by intros [= _ <-] |]. destruct (sign_part r) as [sign r1] eqn:Hs.
  apply sign_part_length in Hs. destruct (some_digits r1) as [[ds r2] |] eqn:Hd; [| done].
  apply some_digits_length in Hd. cbn. intros [= _ <-]. lia.
Qed.

Lemma number_length rs t rest : number rs = Some (t, rest) -> (length rest < length rs)%nat.
Proof.
  unfold number.
  destruct (match expect 45 rs with Some rest => ([45], rest) | None => ([], rs) end)
    as [sign rs0] eqn:Hs.
  assert (Hl : (length rs0 <= length rs)%nat).
  { destruct (expect 45 rs) as [r |] eqn:He; injection Hs as <- <-; [| lia].
    apply expect_length in He. lia. }
  destruct (int_part rs0) as [[i rs1] |] eqn:Hi; [| done]. cbn. apply int_part_length in Hi.
  destruct (frac_part rs1) as [[f rs2] |] eqn:Hf; [| done]. cbn. apply frac_part_length in Hf.
  destruct (exp_part rs2) as [[e rs3] |] eqn:He; [| done]. cbn. apply exp_part_length in He.
  intros [= _ <-]. lia.
Qed.

Lemma strip_prefix_length p rs rest :
  strip_prefix p rs = Some rest -> (length rest + length p = length rs)%nat.
Proof.
  revert rs. induction p as [| a p IH]; intros rs; cbn; [intros [= <-]; lia |].
  destruct rs as [| b rs]; [done |]. destruct (a =? b); [| done]. intros H%IH. cbn. lia.
Qed.

Lemma literal_length rs v rest : literal rs = Some (v, rest) -> (length rest < length rs)%nat.
Proof.
  unfold literal. destruct (strip_prefix (bytes "null") rs) eqn:H1.
  { apply strip_prefix_length in H1. intros [= _ <-]. cbn in H1. lia. }
  destruct (strip_prefix (bytes "true") rs) eqn:H2.
  { apply strip_prefix_length in H2. intros [= _ <-]. cbn in H2. lia. }
  destruct (strip_prefix (bytes "false") rs) eqn:H3; [| done]. cbn.
  apply strip_prefix_length in H3. intros [= _ <-]. cbn in H3. lia.
Qed.

Lemma lengths fuel :
  (forall depth rs v rest, parse fuel depth rs = Some (v, rest) -> (length rest < length rs)%nat) /\
  (forall depth rs ms rest, members fuel depth rs = Some (ms, rest) -> (length rest < length rs)%nat) /\
  (forall depth rs vs rest, elements fuel depth rs = Some (vs, rest) -> (length rest < length rs)%nat).
Proof.
  assert (Hx : forall c rs rest, expect c (skip_ws rs) = Some rest -> (length rest < length rs)%nat).
  { intros c rs rest He%expect_length. pose proof (skip_ws_length rs). lia. }
  induction fuel as [| fuel (IHp & IHm & IHe)]; [by split_and! |]. split_and!; intros depth rs v rest; cbn.
  - pose proof (skip_ws_length rs) as Hws.
    destruct (expect 123 (skip_ws rs)) as [r1 |] eqn:E1.
    { destruct depth; [done |]. apply Hx in E1.
      destruct (expect 125 (skip_ws r1)) as [r2 |] eqn:E2;
        [apply Hx in E2; intros [= _ <-]; lia |].
      destruct (members _ _ _) as [[ms r3] |] eqn:Em; [| done]. apply IHm in Em. cbn.
      intros [= _ <-]. lia. }
    destruct (expect 91 (skip_ws rs)) as [r1 |] eqn:E3.
    { destruct depth; [done |]. apply Hx in E3.
      destruct (expect 93 (skip_ws r1)) as [r2 |] eqn:E2;
        [apply Hx in E2; intros [= _ <-]; lia |].
      destruct (elements _ _ _) as [[ms r3] |] eqn:Em; [| done]. apply IHe in Em. cbn.
      intros [= _ <-]. lia. }
    destruct (expect 34 (skip_ws rs)) as [r1 |] eqn:E4.
    { apply Hx in E4. destruct (str r1) as [[s r2] |] eqn:Es; [| done].
      apply str_length in Es. cbn. intros [= _ <-]. lia. }
    match goal with |- context [if ?b then _ else _] => destruct b end.
    + destruct (number (skip_ws rs)) as [[s r2] |] eqn:Es; [| done]. apply number_length in Es. cbn.
      intros [= _ <-]. lia.
    + intros Hl%literal_length. lia.
  - destruct (expect 34 (skip_ws rs)) as [r1 |] eqn:E1; [| done]. apply Hx in E1. cbn.
    destruct (str r1) as [[name r2] |] eqn:Es; [| done]. apply str_length in Es. cbn.
    destruct (expect 58 (skip_ws r2)) as [r3 |] eqn:E2; [| done]. apply Hx in E2. cbn.
    destruct (parse fuel depth r3) as [[x r4] |] eqn:Ep; [| done]. apply IHp in Ep. cbn.
    destruct (expect 125 (skip_ws r4)) as [r5 |] eqn:E3;
      [apply Hx in E3; intros [= _ <-]; lia |].
    destruct (expect 44 (skip_ws r4)) as [r5 |] eqn:E4; [| done]. apply Hx in E4. cbn.
    destruct (members fuel depth r5) as [[ms r6] |] eqn:Em; [| done]. apply IHm in Em. cbn.
    intros [= _ <-]. lia.
  - destruct (parse fuel depth rs) as [[x r4] |] eqn:Ep; [| done]. apply IHp in Ep. cbn.
    destruct (expect 93 (skip_ws r4)) as [r5 |] eqn:E3;
      [apply Hx in E3; intros [= _ <-]; lia |].
    destruct (expect 44 (skip_ws r4)) as [r5 |] eqn:E4; [| done]. apply Hx in E4. cbn.
    destruct (elements fuel depth r5) as [[ms r6] |] eqn:Em; [| done]. apply IHe in Em. cbn.
    intros [= _ <-]. lia.
Qed.

(** More fuel changes nothing. *)
Lemma fuel_enough fuel : forall fuel',
  (forall depth rs, (2 * length rs < fuel)%nat -> (2 * length rs < fuel')%nat ->
     parse fuel depth rs = parse fuel' depth rs) /\
  (forall depth rs, (2 * length rs < fuel)%nat -> (2 * length rs < fuel')%nat ->
     members fuel depth rs = members fuel' depth rs) /\
  (forall depth rs, (2 * length rs + 1 < fuel)%nat -> (2 * length rs + 1 < fuel')%nat ->
     elements fuel depth rs = elements fuel' depth rs).
Proof.
  assert (Hx : forall c rs rest, expect c (skip_ws rs) = Some rest -> (length rest < length rs)%nat).
  { intros c rs rest He%expect_length. pose proof (skip_ws_length rs). lia. }
  induction fuel as [| fuel IH]; intros fuel'; [split_and!; intros; lia |].
  destruct fuel' as [| fuel']; [split_and!; intros; lia |]. destruct (IH fuel') as (IHp & IHm & IHe).
  pose proof (fun d rs v r => proj1 (lengths fuel') d rs v r) as Hlen.
  split_and!; intros depth rs Hf Hf'; cbn.
  - destruct (expect 123 (skip_ws rs)) as [r1 |] eqn:E1.
    { destruct depth; [done |]. apply Hx in E1. destruct (expect 125 (skip_ws r1)); [done |].
      by rewrite IHm by lia. }
    destruct (expect 91 (skip_ws rs)) as [r1 |] eqn:E2; [| done].
    destruct depth; [done |]. apply Hx in E2. destruct (expect 93 (skip_ws r1)); [done |].
    by rewrite IHe by lia.
  - destruct (expect 34 (skip_ws rs)) as [r1 |] eqn:E1; [| done]. apply Hx in E1. cbn.
    destruct (str r1) as [[name r2] |] eqn:Es; [| done]. apply str_length in Es. cbn.
    destruct (expect 58 (skip_ws r2)) as [r3 |] eqn:E2; [| done]. apply Hx in E2. cbn.
    rewrite IHp by lia. destruct (parse fuel' depth r3) as [[x r4] |] eqn:Ep; [| done].
    apply Hlen in Ep. cbn. destruct (expect 125 (skip_ws r4)) as [r5 |] eqn:E3; [done |].
    destruct (expect 44 (skip_ws r4)) as [r5 |] eqn:E4; [| done]. apply Hx in E4. cbn.
    by rewrite IHm by lia.
  - rewrite IHp by lia. destruct (parse fuel' depth rs) as [[x r4] |] eqn:Ep; [| done].
    apply Hlen in Ep. cbn. destruct (expect 93 (skip_ws r4)) as [r5 |] eqn:E3; [done |].
    destruct (expect 44 (skip_ws r4)) as [r5 |] eqn:E4; [| done]. apply Hx in E4. cbn.
    by rewrite IHe by lia.
Qed.

(** ** Objects *)

(** The bytes [b] read as [v] before a separator. *)
Definition reads (b : list Z) (v : value) : Prop :=
  exists es, (forall bs, dec (b ++ bs) = es ++ dec bs) /\
    forall fuel depth c rest, c = 44 \/ c = 125 -> (0 < fuel)%nat ->
      parse fuel depth (es ++ c :: rest) = Some (v, c :: rest).

Lemma reads_string s : ValidString s = true -> reads (json.string_ s) (Str (runes s)).
Proof.
  intros Hv. exists (34 :: literal_runes s). split; [intros bs; by apply dec_string |].
  intros fuel depth c rest _ Hf. destruct fuel as [| fuel]; [lia |]. cbn.
  by rewrite str_literal.
Qed.

Lemma reads_digit d : 48 < d <= 57 -> reads [d] (Number [d]).
Proof.
  intros Hd. exists [d]. split; [intros bs; apply dec_ascii; lia |].
  intros fuel depth c rest Hc Hf. destruct fuel as [| fuel]; [lia |].
  assert (d = 49 \/ d = 50 \/ d = 51 \/ d = 52 \/ d = 53 \/ d = 54 \/ d = 55 \/ d = 56 \/ d = 57)
    as Hcases by lia.
  destruct Hc as [-> | ->]; by repeat destruct Hcases as [-> | Hcases]; subst.
Qed.

Lemma fields_cons name v fs :
  json.fields ((name, v) :: fs) =
  json.string_ name ++ 58 :: v ++ match fs with [] => [] | _ => 44 :: json.fields fs end.
Proof. by destruct fs. Qed.

Definition member_of (f : string * list Z) (v : value) : Prop :=
  ValidString (fst f) = true /\ reads (snd f) v.

Lemma members_fields fs vs bs : fs <> [] -> Forall2 member_of fs vs ->
  forall fuel depth, (2 * length fs < fuel)%nat ->
  members fuel depth (dec (json.fields fs ++ 125 :: bs))
  = Some (zip (map (fun f => runes (fst f)) fs) vs, dec bs).
Proof.
  intros Hne HF. induction HF as [| [name b] v fs vs [Hn (es & Hdec & Hp)] HF IH]; [done |].
  intros fuel depth Hf. destruct fuel as [| fuel]; [lia |]. cbn [fst snd length] in *.
  rewrite fields_cons. rewrite <- !app_assoc. cbn [app]. rewrite dec_string by done.
  rewrite dec_ascii, <- app_assoc, Hdec by lia. cbn [members skip_ws is_ws expect Z.eqb orb mbind option_bind].
  cbn -[literal_runes str parse members]. rewrite str_literal by done.
  cbn -[parse members].
  destruct fs as [| f fs].
  - apply Forall2_nil_inv_l in HF as ->. cbn [app]. rewrite dec_ascii by lia.
    rewrite Hp by (auto || lia). done.
  - cbn [app]. rewrite dec_ascii by lia. rewrite Hp by (auto || lia). cbn -[parse members json.fields].
    rewrite IH by (done || (cbn in *; lia)). done.
Qed.

(** Reading back an object. *)
Lemma read_object fs vs : fs <> [] -> Forall2 member_of fs vs ->
  read (json.object fs) = Some (Obj (zip (map (fun f => runes (fst f)) fs) vs)).
Proof.
  intros Hne HF. unfold read, json.object. change (map fst (decode ?x)) with (dec x).
  cbn [app]. rewrite dec_ascii by lia.
  set (rs := dec (json.fields fs ++ [125])).
  assert (Hm : forall fuel depth, (2 * length fs < fuel)%nat ->
    members fuel depth rs = Some (zip (map (fun f => runes (fst f)) fs) vs, [])).
  { intros fuel depth Hf. by apply (members_fields fs vs []). }
  assert (Hm' : forall depth, members (2 * length (123%Z :: rs)) depth rs
            = Some (zip (map (fun f => runes (fst f)) fs) vs, [])).
  { intros depth. rewrite <- (Hm (S (2 * length fs + 2 * length (123%Z :: rs))) depth) by lia.
    apply fuel_enough; cbn [length]; lia. }
  unfold enough. change maxNestingDepth with (S (pred maxNestingDepth)).
  cbn -[members rs Nat.mul].
  assert (Hq : expect 125 (skip_ws rs) = None).
  { destruct fs as [| [name b] fs]; [done |]. unfold rs. rewrite fields_cons, <- !app_assoc.
    inversion HF as [| ? v ? ? [Hn _]]; subst. by rewrite dec_string. }
  rewrite Hq, Hm'. done.
Qed.
End jsonfacts.
