(* ===== verification/Cursor.v ===== *)
(** * Cursor: the REST API's pages (internal/restapi/pagination.go).

    A cursor is the unpadded URL-safe base64 of a JSON object naming the
    collection it belongs to and the last key of its page. *)

From stdpp Require Import pretty.
From S2P Require Import Prelude.
From S2P Require Import GoText.
From S2P Require Import Encoding.
From S2P Require Import Json.
From S2P Require Import JsonDecode.

(** [base64.RawURLEncoding]. *)
Module base64.

Definition char_of (v : Z) : Z :=
  if v <? 26 then 65 + v else if v <? 52 then 71 + v else if v <? 62 then v - 4
  else if v =? 62 then 45 else 95.
Definition value_of (c : Z) : option Z :=
  if between 65 c 90 then Some (c - 65) else if between 97 c 122 then Some (c - 71)
  else if between 48 c 57 then Some (c + 4) else if c =? 45 then Some 62
  else if c =? 95 then Some 63 else None.

Fixpoint sextets (bs : list Z) : list Z :=
  match bs with
  | a :: b :: c :: rest =>
      a / 4 :: a mod 4 * 16 + b / 16 :: b mod 16 * 4 + c / 64 :: c mod 64 :: sextets rest
  | [a; b] => [a / 4; a mod 4 * 16 + b / 16; b mod 16 * 4]
  | [a] => [a / 4; a mod 4 * 16]
  | [] => []
  end.
(** The encoding is not strict: unused low bits of the last digit are ignored. *)
Fixpoint octets (vs : list Z) : option (list Z) :=
  match vs with
  | p :: q :: r :: s :: rest =>
      bs ← octets rest;
      Some (p * 4 + q / 16 :: q mod 16 * 16 + r / 4 :: r mod 4 * 64 + s :: bs)
  | [p; q; r] => Some [p * 4 + q / 16; q mod 16 * 16 + r / 4]
  | [p; q] => Some [p * 4 + q / 16]
  | [_] => None
  | [] => Some []
  end.

Definition EncodeToString (bs : list Z) : string := of_bytes (map char_of (sextets bs)).
(** Line ends are skipped wherever they are. *)
Definition is_newline (c : Z) : bool := (c =? 10) || (c =? 13).
Definition DecodeString (s : string) : option (list Z) :=
  vs ← mapM value_of (List.filter (fun c => negb (is_newline c)) (bytes s));
  octets vs.

#[local] Ltac Zify.zify_post_hook ::= Z.to_euclidean_division_equations.

Lemma three_ind (P : list Z -> Prop) :
  P [] -> (forall a, P [a]) -> (forall a b, P [a; b]) ->
  (forall a b c rest, P rest -> P (a :: b :: c :: rest)) -> forall bs, P bs.
Proof.
  intros H0 H1 H2 H3. fix IH 1. intros [| a [| b [| c rest]]]; [done | done | done |].
  apply H3, IH.
Qed.

Lemma octets_sextets bs : Forall is_byte bs -> octets (sextets bs) = Some bs.
Proof.
  induction bs as [| a | a b | a b c rest IH] using three_ind; intros Hb;
    rewrite ?Forall_cons in Hb; unfold is_byte in *; cbn [sextets octets].
  - done.
  - repeat f_equal. lia.
  - repeat f_equal; lia.
  - rewrite IH by tauto. cbn. repeat f_equal; lia.
Qed.

Lemma sextets_range bs : Forall is_byte bs -> Forall (fun v => 0 <= v < 64) (sextets bs).
Proof.
  induction bs as [| a | a b | a b c rest IH] using three_ind; intros Hb;
    rewrite ?Forall_cons in Hb; unfold is_byte in *; cbn [sextets];
    rewrite ?Forall_cons, ?Forall_nil; repeat split; lia || tauto.
Qed.

Lemma char_range v : 0 <= v < 64 ->
  65 <= char_of v <= 90 \/ 97 <= char_of v <= 122 \/ 48 <= char_of v <= 57 \/
  char_of v = 45 \/ char_of v = 95.
Proof.
  intros Hv. unfold char_of.
  destruct (Z.ltb_spec v 26), (Z.ltb_spec v 52), (Z.ltb_spec v 62), (Z.eqb_spec v 62); lia.
Qed.

Lemma value_char v : 0 <= v < 64 -> value_of (char_of v) = Some v.
Proof.
  intros Hv. unfold char_of, value_of.
  destruct (Z.ltb_spec v 26), (Z.ltb_spec v 52), (Z.ltb_spec v 62), (Z.eqb_spec v 62); try lia;
    repeat match goal with
    | |- context [between ?l ?x ?h] =>
        first [ rewrite (proj2 (between_iff l x h)) by lia
              | replace (between l x h) with false
                  by (symmetry; apply not_true_is_false; rewrite between_iff; lia) ]
    end; cbn; try (f_equal; lia); by subst.
Qed.

Lemma DecodeString_EncodeToString bs :
  Forall is_byte bs -> DecodeString (EncodeToString bs) = Some bs.
Proof.
  intros Hb. pose proof (sextets_range bs Hb) as Hr. unfold DecodeString, EncodeToString.
  assert (Hc : Forall (fun c => is_byte c /\ is_newline c = false) (map char_of (sextets bs))).
  { apply Forall_map. eapply Forall_impl; [exact Hr |]. intros v Hv%char_range.
    unfold is_byte, is_newline. rewrite orb_false_iff, !Z.eqb_neq. lia. }
  rewrite bytes_of_bytes by (eapply Forall_impl; [exact Hc | by intros c [? _]]).
  rewrite forallb_filter_id.
  - replace (mapM value_of (map char_of (sextets bs))) with (Some (sextets bs)).
    { cbn. by apply octets_sextets. }
    symmetry. clear Hc. induction Hr as [| v vs Hv _ IH]; [done |]. cbn. by rewrite value_char, IH.
  - apply forallb_forall. intros c Hin%list_elem_of_In. rewrite Forall_forall in Hc.
    by rewrite (proj2 (Hc c Hin)).
Qed.
End base64.

Module restapi.
Import jsondecode.

Definition defaultPageLimit : Z := 30.
Definition cursorVersion : Z := 1.
Definition errInvalidCursor : error := New "invalid pagination cursor".

Record pageCursor := mkPageCursor { Version : Z; Scope : string; Key : string }.
Definition noCursor : pageCursor := mkPageCursor 0 EmptyString EmptyString.

Definition paginationInputs (limit : option Z) (cursor : option string) : option Z * option string :=
  (limit, cursor).
Definition collectionParameters (limit : option Z) (cursor : option string) : Z * string :=
  (default defaultPageLimit limit, default EmptyString cursor).

(** [json.Marshal] of the cursor, which has no error. *)
Definition marshalCursor (cursor : pageCursor) : list Z :=
  json.object [("v", bytes (pretty (Version cursor))); ("s", json.string_ (Scope cursor));
               ("k", json.string_ (Key cursor))].
Definition encodePageCursor (cursor : pageCursor) : string :=
  base64.EncodeToString (marshalCursor cursor).

(** One member of the object into the cursor. *)
Definition setField (cursor : option pageCursor) (member : list Z * value) : option pageCursor :=
  c ← cursor;
  let '(key, v) := member in
  if same_name "v" key then n ← into_int v (Version c); Some (mkPageCursor n (Scope c) (Key c))
  else if same_name "s" key then s ← into_string v (Scope c); Some (mkPageCursor (Version c) s (Key c))
  else if same_name "k" key then k ← into_string v (Key c); Some (mkPageCursor (Version c) (Scope c) k)
  else Some c.
(** [json.Unmarshal] into a zero cursor. *)
Definition unmarshalCursor (input : list Z) : option pageCursor :=
  match read input with
  | Some (Obj ms) => fold_left setField ms (Some noCursor)
  | Some Null => Some noCursor
  | _ => None
  end.

(** The texts of the base64 and JSON errors, which are only printed, are left
    out. *)
Definition decodeFailure (cause : string) : error :=
  Errorf "%w: decode: %v" [W errInvalidCursor; V (New cause)].

Definition decodePageCursor (encoded scope : string) : result pageCursor :=
  match base64.DecodeString encoded with
  | None => Err (decodeFailure "base64")
  | Some value =>
      match unmarshalCursor value with
      | None => Err (decodeFailure "json")
      | Some cursor =>
          if negb (Version cursor =? cursorVersion) || (Scope cursor != scope)
             || (Key cursor == EmptyString)
          then Err errInvalidCursor
          else Ok cursor
      end
  end.

Definition decodeCollectionCursor (encoded scope : string) : result string :=
  if encoded == EmptyString then Ok EmptyString else
  let* cursor := decodePageCursor encoded scope in Ok (Key cursor).

(** [uuid.Parse] is a dependency's. *)
Definition decodeUUIDCollectionCursor (Parse : string -> option UUID) (encoded scope : string)
    : result (option UUID) :=
  let* key := decodeCollectionCursor encoded scope in
  if key == EmptyString then Ok None else
  match Parse key with None => Err errInvalidCursor | Some id => Ok (Some id) end.

Definition encodeCollectionCursor (scope key : string) : option string :=
  if key == EmptyString then None
  else Some (encodePageCursor (mkPageCursor cursorVersion scope key)).

Section Paginate.
Context {T : Type} (key : T -> string).

(** The position after the value of the key. *)
Fixpoint after (k : string) (values : list T) : option nat :=
  match values with
  | [] => None
  | value :: rest => if key value == k then Some 1%nat else n ← after k rest; Some (S n)
  end.

Definition paginate (values : list T) (requestedLimit : option Z) (encodedCursor : option string)
    (scope : string) : result (list T * option string) :=
  let limit := default defaultPageLimit requestedLimit in
  reject_if (limit <? 1) || (100 <? limit) with
    Errorf "%w: limit must be between 1 and 100" [W errInvalidCursor] ;;
  let* start :=
    if default EmptyString encodedCursor == EmptyString then Ok 0%nat else
    let* cursor := decodePageCursor (default EmptyString encodedCursor) scope in
    match after (Key cursor) values with
    | None => Err (Errorf "%w: cursor no longer belongs to this collection" [W errInvalidCursor])
    | Some start => Ok start
    end in
  if (length values <=? start)%nat then Ok ([], None) else
  let end_ := Nat.min (start + Z.to_nat limit) (length values) in
  let items := take (end_ - start) (drop start values) in
  if (end_ =? length values)%nat then Ok (items, None) else
  match values !! (end_ - 1)%nat with
  | None => Err (New "index out of range")
  | Some last =>
      Ok (items, Some (encodePageCursor (mkPageCursor cursorVersion scope (key last))))
  end.

(** A client that follows the cursors from one page to the next. *)
Fixpoint walk (fuel : nat) (values : list T) (limit : option Z) (cursor : option string)
    (scope : string) : result (list T) :=
  match fuel with
  | O => Err (New "no end")
  | S fuel =>
      let* (items, next) := paginate values limit cursor scope in
      match next with
      | None => Ok items
      | Some _ => let* rest := walk fuel values limit next scope in Ok (items ++ rest)
      end
  end.
End Paginate.

(** ** The cursor's round trip *)

#[local] Ltac Zify.zify_post_hook ::= Z.to_euclidean_division_equations.

Lemma EncodeRune_is_byte r : Forall is_byte (EncodeRune r).
Proof.
  unfold EncodeRune. destruct (between 0 r 0x7F) eqn:H1.
  { apply between_iff in H1. repeat constructor; lia. }
  destruct (between 0x80 r 0x7FF) eqn:H2.
  { apply between_iff in H2. repeat constructor; lia. }
  destruct (between 0 r 0x10FFFF) eqn:H3; cbn [negb orb]; [| repeat constructor; lia].
  apply between_iff in H3. destruct (between 0xD800 r 0xDFFF); [repeat constructor; lia |].
  assert (0x800 <= r).
  { destruct (Z.le_gt_cases 0x800 r); [done |]. destruct (Z.le_gt_cases 0x80 r);
      [rewrite (proj2 (between_iff 0x80 r 0x7FF)) in H2 by lia; done |
       rewrite (proj2 (between_iff 0 r 0x7F)) in H1 by lia; done]. }
  destruct (Z.leb_spec r 0xFFFF); repeat constructor; lia.
Qed.

Lemma escape_is_byte p : Forall is_byte (json.escape p).
Proof.
  assert (Hu : forall r, Forall is_byte (json.u_escape r)).
  { intros r. unfold json.u_escape, json.hex4, is_byte. cbn [app map].
    assert (Hd : forall x, 0 <= hex_digit (Z.land x 15) < 256).
    { intros x. change 15 with (Z.ones 4). rewrite Z.land_ones by lia.
      pose proof (Z.mod_pos_bound x (2 ^ 4) ltac:(done)) as Hm. change (2 ^ 4) with 16 in *.
      unfold hex_digit. destruct (Z.ltb_spec (x mod 16) 10); lia. }
    repeat (apply Forall_cons; split); try apply Forall_nil; (apply Hd || lia). }
  destruct p as [r w]. unfold json.escape.
  destruct (_ && _); [apply Hu |].
  destruct (Z.eqb_spec r 34), (Z.eqb_spec r 92); cbn [orb]; try (repeat constructor; lia).
  repeat match goal with |- context [if ?b then _ else _] =>
    destruct b; [repeat constructor; (lia || apply Hu) |] end.
  match goal with |- context [if ?b then _ else _] => destruct b; [apply Hu |] end.
  apply EncodeRune_is_byte.
Qed.

Lemma string_is_byte s : Forall is_byte (json.string_ s).
Proof.
  unfold json.string_. rewrite !Forall_app. split_and!; [repeat constructor; lia | | repeat constructor; lia].
  induction (decode (bytes s)) as [| p l IH]; cbn; [constructor |].
  apply Forall_app; split; [apply escape_is_byte | done].
Qed.

Lemma object_is_byte fs : Forall (fun f => Forall is_byte (snd f)) fs -> Forall is_byte (json.object fs).
Proof.
  intros HF. unfold json.object. rewrite !Forall_app. split_and!; [repeat constructor; lia | | repeat constructor; lia].
  induction HF as [| [name v] fs Hv HF IH]; [constructor |]. rewrite jsonfacts.fields_cons.
  rewrite Forall_app, Forall_cons, Forall_app. split_and!; [apply string_is_byte | unfold is_byte; lia | done |].
  destruct fs; [constructor |]. apply Forall_cons. split; [unfold is_byte; lia | done].
Qed.

Lemma fold_fields scope key :
  fold_left setField [(runes "v", Number [49]); (runes "s", Str scope); (runes "k", Str key)]
    (Some noCursor)
  = Some (mkPageCursor cursorVersion (text_of scope) (text_of key)).
Proof.
  assert (Hvv : same_name "v" (runes "v") = true) by (vm_compute; reflexivity).
  assert (Hvs : same_name "v" (runes "s") = false) by (vm_compute; reflexivity).
  assert (Hss : same_name "s" (runes "s") = true) by (vm_compute; reflexivity).
  assert (Hvk : same_name "v" (runes "k") = false) by (vm_compute; reflexivity).
  assert (Hsk : same_name "s" (runes "k") = false) by (vm_compute; reflexivity).
  assert (Hkk : same_name "k" (runes "k") = true) by (vm_compute; reflexivity).
  unfold fold_left, setField. cbn [mbind option_bind]. rewrite Hvv. cbn [into_int].
  replace (parse_int64 [49]) with (Some 1) by (vm_compute; reflexivity).
  cbn [mbind option_bind]. rewrite Hvs, Hss. cbn [into_string mbind option_bind].
  rewrite Hvk, Hsk, Hkk. done.
Qed.

Lemma unmarshal_marshal cursor :
  ValidString (Scope cursor) = true -> ValidString (Key cursor) = true ->
  Version cursor = cursorVersion ->
  unmarshalCursor (marshalCursor cursor) = Some cursor.
Proof.
  destruct cursor as [version scope key]. cbn [Version Scope Key]. intros Hs Hk ->.
  unfold unmarshalCursor, marshalCursor. cbn [Version Scope Key].
  rewrite (jsonfacts.read_object _ [Number [49]; Str (runes scope); Str (runes key)]); [| done |].
  - etrans; [apply (fold_fields (runes scope) (runes key)) |].
    by rewrite (proj2 (jsonfacts.ValidString_runes scope Hs)), (proj2 (jsonfacts.ValidString_runes key Hk)).
  - repeat (apply Forall2_cons; split); [| | | by apply Forall2_nil]; (split; [done |]); cbn [snd].
    + by apply (jsonfacts.reads_digit 49).
    + by apply jsonfacts.reads_string.
    + by apply jsonfacts.reads_string.
Qed.

Lemma decode_encode cursor scope :
  ValidString (Scope cursor) = true -> ValidString (Key cursor) = true ->
  Version cursor = cursorVersion -> Key cursor <> EmptyString ->
  decodePageCursor (encodePageCursor cursor) scope =
  if Scope cursor == scope then Ok cursor else Err errInvalidCursor.
Proof.
  intros Hs Hk Hv He. unfold decodePageCursor, encodePageCursor.
  rewrite base64.DecodeString_EncodeToString.
  - rewrite unmarshal_marshal, Hv by done. cbn.
    rewrite (proj2 (String.eqb_neq _ _) He), orb_false_r.
    by destruct (Scope cursor == scope).
  - apply object_is_byte. rewrite !Forall_cons. cbn [snd].
    split_and!; [apply bytes_is_byte | apply string_is_byte.. | apply Forall_nil_2].
Qed.

Lemma encode_nonempty cursor : encodePageCursor cursor <> EmptyString.
Proof. done. Qed.

(** ** Pages *)

Section PaginateFacts.
Context {T : Type} (key : T -> string).

Lemma after_key values i v :
  NoDup (map key values) -> values !! i = Some v -> after key (key v) values = Some (S i).
Proof.
  revert i. induction values as [| w values IH]; intros i; [done |]. cbn [map after].
  intros [Hw Hnd]%NoDup_cons. destruct i as [| i]; cbn; [intros [= ->]; by rewrite String.eqb_refl |].
  intros Hi. destruct (key w == key v) eqn:Heq.
  { apply String.eqb_eq in Heq. destruct Hw. rewrite Heq.
    by eapply list_elem_of_fmap_2, list_elem_of_lookup_2. }
  by rewrite (IH i Hnd Hi).
Qed.

(** A cursor that stands for a position of the collection. *)
Definition at_ (values : list T) (scope : string) (cursor : option string) (start : nat) : Prop :=
  start = 0%nat /\ cursor = None \/
  exists i v, start = S i /\ values !! i = Some v /\
    cursor = Some (encodePageCursor (mkPageCursor cursorVersion scope (key v))).

Definition pageable (values : list T) (scope : string) : Prop :=
  NoDup (map key values) /\ ValidString scope = true /\
  Forall (fun v => key v <> EmptyString /\ ValidString (key v) = true) values.

Lemma paginate_at values limit cursor scope start :
  pageable values scope -> 1 <= default defaultPageLimit limit <= 100 ->
  at_ values scope cursor start ->
  let size := Z.to_nat (default defaultPageLimit limit) in
  exists next, paginate key values limit cursor scope = Ok (take size (drop start values), next) /\
    match next with
    | None => (length values <= start + size)%nat
    | Some _ => at_ values scope next (start + size)
    end.
Proof.
  intros (Hnd & Hscope & Hkeys) Hl Hat size. unfold paginate.
  replace (_ || _) with false by (symmetry; apply orb_false_iff; rewrite !Z.ltb_ge; lia). cbn [reject].
  match goal with |- context [mbind ?f ?s] => replace s with (Ok start : result nat) end.
  2: { destruct Hat as [[-> ->] | (i & v & -> & Hi & ->)]; [done |]. cbn [default].
       pose proof (encode_nonempty (mkPageCursor cursorVersion scope (key v))) as Hc.
       apply String.eqb_neq in Hc. cbn [id default] in *. rewrite Hc.
       pose proof (proj1 (Forall_lookup _ _) Hkeys i v Hi) as [Hne Hv].
       rewrite decode_encode by done. cbn [Scope]. rewrite String.eqb_refl. cbn.
       by rewrite (after_key values i v). }
  cbn [mbind result_bind].
  destruct (Nat.leb_spec (length values) start).
  { exists None. rewrite drop_ge, take_nil by lia. split; [done | lia]. }
  fold size. remember (Nat.min (start + size) (length values)) as stop eqn:Hstop.
  destruct (Nat.eqb_spec stop (length values)).
  { exists None. split; [| lia]. f_equal. f_equal.
    rewrite !take_ge; [done | rewrite length_drop; lia..]. }
  assert (stop = start + size)%nat as -> by lia.
  destruct (lookup_lt_is_Some_2 values (start + size - 1)) as [v Hv]; [lia |].
  rewrite Hv. eexists. split; [by replace (start + size - start)%nat with size by lia |].
  right. exists (start + size - 1)%nat, v. split_and!; [lia | done..].
Qed.

Lemma walk_at fuel : forall values limit cursor scope start,
  pageable values scope -> 1 <= default defaultPageLimit limit <= 100 ->
  at_ values scope cursor start -> (length values < start + fuel)%nat -> (start <= length values)%nat ->
  walk key fuel values limit cursor scope = Ok (drop start values).
Proof.
  induction fuel as [| fuel IH]; intros values limit cursor scope start Hp Hl Hat Hf Hs; [lia |].
  destruct (paginate_at values limit cursor scope start Hp Hl Hat) as (next & Hpage & Hnext).
  cbn [walk]. rewrite Hpage. cbn [mbind result_bind].
  set (size := Z.to_nat (default defaultPageLimit limit)) in *.
  destruct next as [c |].
  - rewrite (IH values limit (Some c) scope (start + size)%nat Hp Hl Hnext); [| lia |].
    + cbn. f_equal. by rewrite <- drop_drop, take_drop.
    + destruct Hnext as [[_ [=]] | (i & v & -> & Hi%lookup_lt_Some & _)]. lia.
  - f_equal. apply take_ge. rewrite length_drop. lia.
Qed.
End PaginateFacts.

(** ** The properties *)

(** C40: a cursor is opaque but exact: the encoding of any cursor of the current version,
    the only one that is made, of valid UTF-8 and with a key decodes, for its own collection, to the cursor it was made from,
    and for every other collection is refused. *)
Theorem cursor_roundtrip (cursor : pageCursor) (scope : string)
    (Hs : ValidString (Scope cursor) = true) (Hk : ValidString (Key cursor) = true)
    (Hv : Version cursor = cursorVersion) (He : Key cursor <> EmptyString) :
  decodePageCursor (encodePageCursor cursor) (Scope cursor) = Ok cursor /\
  (scope <> Scope cursor -> decodePageCursor (encodePageCursor cursor) scope = Err errInvalidCursor).
Proof.
  rewrite !decode_encode by done. rewrite String.eqb_refl. split; [done |]. intros Hn.
  by rewrite (proj2 (String.eqb_neq _ _)) by congruence.
Qed.

(** Following the cursors of [paginate] from the first page visits every value of
    the collection once, in order, and stops, whatever the permitted page size. *)
Theorem walk_all {T} (key : T -> string) (values : list T) (limit : option Z) (scope : string)
    (Hnd : NoDup (map key values)) (Hs : ValidString scope = true)
    (Hk : Forall (fun v => key v <> EmptyString /\ ValidString (key v) = true) values)
    (Hl : 1 <= default defaultPageLimit limit <= 100) :
  walk key (S (length values)) values limit None scope = Ok values.
Proof.
  apply (walk_at key _ values limit None scope 0); [by split_and! | done | by left | lia | lia].
Qed.

(** [decodePageCursor] accepts nothing but this version of a cursor of the collection
    asked for, with a key; its every error is [errInvalidCursor]. *)
Theorem decodePageCursor_checked encoded scope :
  match decodePageCursor encoded scope with
  | Ok cursor => Version cursor = cursorVersion /\ Scope cursor = scope /\ Key cursor <> EmptyString
  | Err e => Is e errInvalidCursor = true
  end.
Proof.
  unfold decodePageCursor. destruct (base64.DecodeString encoded) as [bs |]; [| done].
  destruct (unmarshalCursor bs) as [c |]; [| done].
  destruct (Version c =? cursorVersion) eqn:Hv; [| done]. cbn [negb orb].
  destruct (Scope c == scope) eqn:Hs; [| done]. cbn [negb orb].
  destruct (Key c == EmptyString) eqn:Hk; [done |].
  by rewrite Z.eqb_eq in Hv; rewrite String.eqb_eq in Hs; rewrite String.eqb_neq in Hk.
Qed.

Module restapi_examples.
(** {"v":1,"s":"tokens:did:plc:a","k":"<x>"} *)
Definition tokens : pageCursor := mkPageCursor 1 "tokens:did:plc:a" "<x>".

Example tokens_encoded :
  encodePageCursor tokens
  = "eyJ2IjoxLCJzIjoidG9rZW5zOmRpZDpwbGM6YSIsImsiOiJcdTAwM2N4XHUwMDNlIn0".
Proof. vm_compute. reflexivity. Qed.

(** Case-folded names, white space and repeated members, as [json.Unmarshal] takes
    them. *)
Example lenient :
  unmarshalCursor (bytes (of_bytes [123; 32; 34; 86; 34; 58; 49; 44; 34; 107; 34; 58; 34; 97; 34; 44;
    34; 107; 34; 58; 34; 98; 34; 44; 34; 0xC5; 0xBF; 34; 58; 34; 99; 34; 125; 10]))
  = Some (mkPageCursor 1 "c" "b").
Proof. vm_compute. reflexivity. Qed.

Lemma cursor_roundtrip_witness :
  decodePageCursor (encodePageCursor tokens) "tokens:did:plc:a" = Ok tokens /\
  ("tokens:did:plc:b" <> "tokens:did:plc:a" ->
   decodePageCursor (encodePageCursor tokens) "tokens:did:plc:b" = Err errInvalidCursor).
Proof.
  apply (cursor_roundtrip tokens "tokens:did:plc:b"); [vm_compute; reflexivity.. | discriminate].
Defined.

Lemma walk_all_witness :
  walk (fun s => s) 4 ["a"; "b"; "c"] (Some 2) None "letters" = Ok ["a"; "b"; "c"].
Proof.
  apply (walk_all (fun s => s) ["a"; "b"; "c"] (Some 2) "letters").
  - apply (bool_decide_unpack _). vm_compute. exact I.
  - vm_compute. reflexivity.
  - repeat constructor; discriminate.
  - cbn. lia.
Defined.
End restapi_examples.
End restapi.
