(* ===== verification/Star.v ===== *)
(** * Star: portable star records (package [internal/star]).

    Record keys and content identifiers are computed, so [star.RecordKey] and
    [star.validateCID] run on concrete inputs. *)

From S2P Require Import Prelude.
From S2P Require Import GoText.
From S2P Require Import Encoding.
From S2P Require Import Syntax.

Module star.

Definition Collection : string := "dev.adenosine.star".
Definition repositoryCollection : string := "dev.adenosine.repo".

Definition ErrValidation : error := New "star validation failed".
Definition ErrConflict : error := New "star record conflict".
Definition ErrAuthorization : error := New "AT Protocol star authorization required".
Definition ErrProvider : error := New "star provider failure".
Definition ErrNotFound : error := New "star repository target not found".

Record Target := mkTarget { Target_URI : string; Target_CID : string }.
Record Star := mkStar {
  URI : string; CID : string; AuthorDID : string; Star_Target : Target;
  CreatedAt : time; IndexedAt : time
}.
(** [Stars] may be the nil slice. *)
Record Projection := mkProjection { StarCount : Z; Stars : option (list Star) }.

Definition ValidationError (Field Problem : string) : error :=
  FieldError ErrValidation Field Problem.
Definition ConflictError (Err : option error) : error := CauseError ErrConflict EmptyString Err.
Definition AuthorizationError (Err : option error) : error :=
  CauseError ErrAuthorization EmptyString Err.
Definition ProviderError (Operation : string) (Err : option error) : error :=
  CauseError ErrProvider Operation Err.

(** What the service asks of its store, its publisher and its clock. *)
Inductive effect : Type -> Type :=
| GetTarget (repositoryURI : string) : effect (result (Target * Z))
| GetProjection (repositoryURI : string) (limit : Z) : effect (result Projection)
| CreateStar (authorDID : string) (target : Target) (createdAt : time) : effect (result Star)
| DeleteStar (authorDID : string) (target : Target) : effect (result unit)
| Now : effect time.

Section star.
Context `{Syntax, GoUnicode}.

Definition validateRepositoryURI (value : string) : result unit :=
  let bad p := Err (ValidationError "subject.uri" p) in
  match ParseATURI value with
  | None => bad "must be a canonical repository AT URI"
  | Some uri =>
      if (ATURI_String uri != value)
         || (NSID_String (ATURI_Collection uri) != repositoryCollection)
         || (RecordKey_String (ATURI_RecordKey uri) == EmptyString)
      then bad "must be a canonical repository AT URI"
      else match AsDID (Authority uri) with
           | None => bad "must use a canonical DID authority"
           | Some did =>
               if DID_String did != AuthorityString (Authority uri)
               then bad "must use a canonical DID authority" else Ok tt
           end
  end.

(** The decoded value and the remaining bytes, or [None] for [ok = false]. *)
Definition consumeCanonicalUvarint (value : list Z) : option (Z * list Z) :=
  let '(decoded, count) := Uvarint value in
  if (count <=? 0) || negb (count =? Z.of_nat (length (AppendUvarint decoded))) then None
  else Some (decoded, skipn (Z.to_nat count) value).

Definition validateCID (value : string) : result unit :=
  let b := String "b" EmptyString in
  if (len value <? 2) || negb (HasPrefix value b) || (value != ToLower value)
     || Contains value "="
  then Err (New "CID is not canonical lowercase base32") else
  match base32_Decode (ToUpper (drop_chars 1 value)) with
  | None => Err (New "CID is not canonical base32")
  | Some raw =>
  if b +:+ ToLower (base32_Encode raw) != value
  then Err (New "CID is not canonical base32") else
  match consumeCanonicalUvarint raw with
  | None => Err (New "CID version is not canonical CIDv1")
  | Some (version, remaining) =>
  if negb (version =? 1) then Err (New "CID version is not canonical CIDv1") else
  match consumeCanonicalUvarint remaining with
  | None => Err (New "CID codec is invalid")
  | Some (codec, remaining) =>
  if codec =? 0 then Err (New "CID codec is invalid") else
  match consumeCanonicalUvarint remaining with
  | None => Err (New "CID multihash code is invalid")
  | Some (hashCode, remaining) =>
  if hashCode =? 0 then Err (New "CID multihash code is invalid") else
  match consumeCanonicalUvarint remaining with
  | None => Err (New "CID multihash digest is invalid")
  | Some (digestLength, digest) =>
  if (digestLength =? 0) || negb (Z.of_nat (length digest) =? digestLength)
  then Err (New "CID multihash digest is invalid") else Ok tt
  end end end end end.

Definition Target_Validate (target : Target) : result unit :=
  let* _ := validateRepositoryURI (Target_URI target) in
  mapErr (fun _ => ValidationError "subject.cid" "must be a canonical CID")
    (validateCID (Target_CID target)).

Definition ValidateCID (value : string) : result unit :=
  mapErr (fun _ => ValidationError "CID" "must be a canonical CID") (validateCID value).

(** ["\x00"] in a Go string. *)
Definition nul : string := String zero EmptyString.

Definition RecordKey (repositoryURI : string) : result string :=
  let* _ := validateRepositoryURI repositoryURI in
  let digest := Sum256 (bytes (Collection +:+ nul +:+ repositoryURI)) in
  Ok (ToLower (base32_Encode digest)).

Definition projectionError (operation : string) (err : error) : error :=
  if Is err ErrNotFound then ErrNotFound else Errorf "%s: %w" [Str operation; W err].

Definition Get (repositoryURI : string) : svc effect Projection :=
  let? _ := lift (validateRepositoryURI repositoryURI) in
  let? projection := wrapErr (projectionError "get star projection")
                       (call (GetProjection repositoryURI 100)) in
  done_ (match Stars projection with
         | None => mkProjection (StarCount projection) (Some [])
         | Some _ => projection
         end).

Definition target (repositoryURI : string) : svc effect Target :=
  let? _ := lift (validateRepositoryURI repositoryURI) in
  let? p := wrapErr (projectionError "get repository target")
              (call (GetTarget repositoryURI)) in
  let target := fst p in
  let? _ := lift (mapErr (fun err => Errorf "validate projected repository target: %w" [W err])
                    (Target_Validate target)) in
  done_ target.

Definition Create (authorDID repositoryURI : string) : svc effect Star :=
  let? target := target repositoryURI in
  let! now := call Now in
  call (CreateStar authorDID target (UTC now)).

Definition Delete (authorDID repositoryURI : string) : svc effect unit :=
  let? target := target repositoryURI in
  call (DeleteStar authorDID target).

(** ** Canonical content identifiers *)

(** CIDv1: version, codec, and a multihash of a declared length, each number
    in its shortest variable-length form. *)
Definition canonical_cid_bytes (raw : list Z) : Prop :=
  exists codec hashCode digest,
    0 < codec < two64 /\ 0 < hashCode < two64 /\
    0 < Z.of_nat (length digest) < two64 /\ Forall is_byte digest /\
    raw = AppendUvarint 1 ++ AppendUvarint codec ++ AppendUvarint hashCode
          ++ AppendUvarint (Z.of_nat (length digest)) ++ digest.

Lemma consume_append x rest :
  0 <= x < two64 -> consumeCanonicalUvarint (AppendUvarint x ++ rest) = Some (x, rest).
Proof.
  intros Hx. unfold consumeCanonicalUvarint. rewrite Uvarint_AppendUvarint by done.
  pose proof (append_uvarint_pos 9 x). fold (AppendUvarint x) in *.
  rewrite (proj2 (Z.leb_gt _ 0)), Z.eqb_refl by lia. cbn.
  by rewrite Nat2Z.id, drop_app_length.
Qed.

Lemma consume_inv value x rest :
  Forall is_byte value -> consumeCanonicalUvarint value = Some (x, rest) ->
  0 <= x < two64 /\ value = AppendUvarint x ++ rest /\ Forall is_byte rest.
Proof.
  intros Hb. unfold consumeCanonicalUvarint. destruct (Uvarint value) as [v c] eqn:Hu.
  destruct (_ || _) eqn:Hc; [done |]. intros [= -> <-].
  apply orb_false_iff in Hc as [Hc Hl%negb_false_iff]. zbool.
  destruct (AppendUvarint_of_Uvarint value x c Hb Hu ltac:(lia) ltac:(lia)) as [Hx Hv].
  split; [done |]. split; [done |]. by apply Forall_drop.
Qed.

Lemma cid_bytes_are_bytes raw : canonical_cid_bytes raw -> Forall is_byte raw.
Proof.
  intros (codec & hash & digest & ? & ? & ? & ? & ->).
  rewrite !Forall_app. repeat split; try done; apply AppendUvarint_is_byte; lia.
Qed.

Lemma b_lower_class raw :
  all_chars is_base32_lower ("b" +:+ ToLower (base32_Encode raw)) = true.
Proof. rewrite all_chars_app. by rewrite lower_base32_class. Qed.

Lemma b_lower_length raw :
  canonical_cid_bytes raw -> (len ("b" +:+ ToLower (base32_Encode raw)) <? 2) = false.
Proof.
  intros (codec & hash & digest & _ & _ & _ & _ & ->). apply Z.ltb_ge. unfold len.
  rewrite length_append, <- (length_bytes (ToLower _)), ToLower_base32_bytes, !length_map,
    group5_length, flat_bits_length, length_app.
  pose proof (append_uvarint_pos 9 1). fold (AppendUvarint 1) in *. cbn [String.length].
  match goal with |- context [(8 * (?a + ?b) + 4)%nat] =>
    pose proof (Nat.div_le_lower_bound (8 * (a + b) + 4) 5 1) end. lia.
Qed.

Lemma b_lower_no_pad raw :
  Contains ("b" +:+ ToLower (base32_Encode raw)) "=" = false.
Proof.
  rewrite Contains_char. pose proof (b_lower_class raw) as Hc. revert Hc.
  generalize ("b" +:+ ToLower (base32_Encode raw)). intros s.
  induction s as [| c s IH]; [done |]. rewrite all_chars_cons, andb_true_iff. intros [Hc Hs].
  cbn [any_char]. rewrite IH by done.
  destruct (Ascii.eqb_spec "="%char c) as [<- |]; [by vm_compute in Hc | done].
Qed.

(** A content identifier is accepted exactly when it is the lower-case,
    unpadded, multibase-[b] base32 text of a canonical CIDv1: one spelling for
    each identifier, and every such spelling accepted. *)
Theorem validateCID_iff (value : string) :
  validateCID value = Ok tt <->
  exists raw, canonical_cid_bytes raw /\ value = "b" +:+ ToLower (base32_Encode raw).
Proof.
  split.
  - unfold validateCID. destruct (_ || Contains _ _); [done |].
    destruct (base32_Decode _) as [raw |] eqn:Hd; [| done].
    apply base32_Decode_is_byte in Hd.
    destruct (_ != value) eqn:Hv; [done |]. apply neq_false in Hv.
    destruct (consumeCanonicalUvarint raw) as [[version r1] |] eqn:Hc1; [| done].
    destruct (negb (version =? 1)) eqn:Hver; [done |].
    apply negb_false_iff, Z.eqb_eq in Hver as ->.
    destruct (consumeCanonicalUvarint r1) as [[codec r2] |] eqn:Hc2; [| done].
    destruct (codec =? 0) eqn:Hcodec; [done |].
    destruct (consumeCanonicalUvarint r2) as [[hash r3] |] eqn:Hc3; [| done].
    destruct (hash =? 0) eqn:Hhash; [done |].
    destruct (consumeCanonicalUvarint r3) as [[n digest] |] eqn:Hc4; [| done].
    destruct (_ || _) eqn:Hn; [done |]. intros _.
    apply orb_false_iff in Hn as [Hn Hlen%negb_false_iff]. zbool.
    apply consume_inv in Hc1 as (_ & -> & Hb1); [| done].
    apply consume_inv in Hc2 as (? & -> & Hb2); [| done].
    apply consume_inv in Hc3 as (? & -> & Hb3); [| done].
    apply consume_inv in Hc4 as (? & -> & Hb4); [| done].
    eexists; split; [| done]. exists codec, hash, digest. rewrite Hlen.
    repeat split; try done; lia.
  - intros (raw & Hraw & ->). unfold validateCID.
    pose proof (cid_bytes_are_bytes raw Hraw) as Hbytes.
    rewrite (ToLower_base32_lower _ (b_lower_class raw)).
    rewrite b_lower_no_pad, b_lower_length, String.eqb_refl by done.
    rewrite (proj2 (HasPrefix_spec _ _)) by by eexists.
    change ("b" +:+ ?s) with (String "b" s).
    change (drop_chars 1 (String ?c ?s)) with s.
    rewrite ToUpper_ToLower_base32, base32_Decode_Encode by done.
    change (String "b" ?s) with ("b" +:+ s). rewrite String.eqb_refl. cbn [negb orb].
    destruct Hraw as (codec & hash & digest & Hc & Hh & Hn & Hd & ->).
    rewrite !consume_append by (unfold two64 in *; lia).
    rewrite (proj2 (Z.eqb_neq codec 0)), (proj2 (Z.eqb_neq hash 0)) by lia.
    rewrite (proj2 (Z.eqb_neq (Z.of_nat (length digest)) 0)), !Z.eqb_refl by lia. done.
Qed.

(** The record key of a repository star exists exactly for the canonical
    repository URIs, and always is 52 characters of [a-z2-7]. *)
Theorem RecordKey_shape (repositoryURI : string) :
  match RecordKey repositoryURI with
  | Ok key => validateRepositoryURI repositoryURI = Ok tt /\
              match_class_n is_base32_lower 52 key = true /\ rkey_grammar key = true
  | Err e => validateRepositoryURI repositoryURI = Err e
  end.
Proof.
  unfold RecordKey. destruct (validateRepositoryURI repositoryURI) as [[] | e]; [| done].
  cbn. split; [done |]. pose proof (lower_base32_digest) as Hd.
  split; [apply Hd |]. eapply rkey_grammar_class, Hd; [apply base32_rkey_char | lia].
Qed.

(** A publisher write is made for the acting author, on the target the store
    answered for this very repository, after that target was validated. *)
Definition write_guard (did uri : string) (h : list (event effect)) X (e : effect X) : Prop :=
  let current t :=
    Target_Validate t = Ok tt /\ exists stars, Ev (GetTarget uri) (Ok (t, stars)) ∈ h in
  match e with
  | CreateStar d t at_ => d = did /\ current t /\ Ev Now at_ ∈ h
  | DeleteStar d t => d = did /\ current t
  | _ => True
  end.

Lemma target_wp did uri h :
  wp (write_guard did uri) (target uri)
    (fun h' r => forall t, r = Ok t ->
       Target_Validate t = Ok tt /\ exists stars, Ev (GetTarget uri) (Ok (t, stars)) ∈ h') h.
Proof.
  unfold target. destruct (validateRepositoryURI uri); cbn; [| done].
  split; [done |]. intros [[t stars] | e]; cbn; [| done].
  destruct (Target_Validate t) as [[] | e] eqn:Ht; cbn; [| done].
  intros t' [= <-]. split; [done |]. exists stars. set_solver.
Qed.

(** Creating or deleting a star writes only for the acting author and only
    on the validated current projection of the requested repository; the
    publication time is the one the clock gave. *)
Theorem writes_current_target (did uri : string) :
  guarded (write_guard did uri) (Create did uri) /\
  guarded (write_guard did uri) (Delete did uri).
Proof.
  split; apply (wp_guarded _ _ (fun _ _ => True)); unfold Create, Delete;
    apply wp_svc_bind; (eapply wp_mono, target_wp); intros h' [t | e] Ht; cbn; try done;
    destruct (Ht t eq_refl); split; try done; intros now.
  split_and!; set_solver.
Qed.
End star.
End star.
