(* ===== verification/Issue.v ===== *)
(** * Issue: issue, comment and status records (package [internal/issue]). *)

From S2P Require Import Prelude.
From S2P Require Import GoText.
From S2P Require Import Encoding.
From S2P Require Import Syntax.

Module issue.

Definition Collection : string := "dev.adenosine.issue".
Definition CommentCollection : string := "dev.adenosine.issueComment".
Definition StatusCollection : string := "dev.adenosine.issueStatus".
Definition repositoryCollection : string := "dev.adenosine.repo".
Definition maximumTitleLength : Z := 255.
Definition maximumBodyLength : Z := 65535.

Definition ErrValidation : error := New "issue validation failed".
Definition ErrConflict : error := New "issue record conflict".
Definition ErrAuthorization : error := New "AT Protocol issue authorization required".
Definition ErrProvider : error := New "issue provider failure".
Definition ErrNotFound : error := New "issue target not found".

Definition State : Type := string.
Definition StateOpen : State := "open".
Definition StateClosed : State := "closed".

Record StrongRef := mkStrongRef { URI : string; CID : string }.
(** Go's [issue.Record]. *)
Record IssueRecord := mkRecord {
  Repository : StrongRef; Title : string; Body : string;
  CreatedAt : time; UpdatedAt : time
}.
Record Issue := mkIssue {
  Issue_URI : string; Issue_CID : string; Issue_AuthorDID : string; Issue_Record : IssueRecord
}.
Record CommentRecord := mkCommentRecord {
  Subject : StrongRef; Parent : option StrongRef; Comment_Body : string;
  Comment_CreatedAt : time; Comment_UpdatedAt : time
}.
Record Comment := mkComment {
  Comment_URI : string; Comment_CID : string; Comment_AuthorDID : string;
  Comment_Record : CommentRecord
}.
Record StatusRecord := mkStatusRecord {
  Status_Subject : StrongRef; Status_Repository : StrongRef; Status_State : State;
  Status_CreatedAt : time; Status_UpdatedAt : time
}.
Record Status := mkStatus {
  Status_URI : string; Status_CID : string; Status_AuthorDID : string;
  Status_Record : StatusRecord
}.
Record ProjectedIssue := mkProjectedIssue {
  Projected_Issue : Issue; Projected_State : State; Projected_Status : StrongRef;
  CommentCount : Z; IndexedAt : time
}.
Record Projection := mkProjection {
  IssueCount : Z; OpenIssueCount : Z; Issues : option (list ProjectedIssue)
}.
Record CreateInput := mkCreateInput {
  RepositoryURI : string; Input_Title : string; Input_Body : string
}.
Record StatusInput := mkStatusInput { IssueURI : string; Input_State : State }.
Record statusTarget := mkStatusTarget {
  Target_Subject : StrongRef; Target_Repository : StrongRef;
  RepositoryID : option UUID; StatusCreatedAt : time
}.

Definition ValidationError (Field Problem : string) : error :=
  FieldError ErrValidation Field Problem.
Definition ConflictError (Err : option error) : error := CauseError ErrConflict EmptyString Err.
Definition AuthorizationError (Err : option error) : error :=
  CauseError ErrAuthorization EmptyString Err.
Definition ProviderError (Operation : string) (Err : option error) : error :=
  CauseError ErrProvider Operation Err.

(** The store, the publisher, the clock, the repository triager and
    [uuid.NewV7]. *)
Inductive effect : Type -> Type :=
| GetProjection (repositoryURI : string) (limit : Z) : effect (result Projection)
| GetRepositoryTarget (repositoryURI : string) : effect (result StrongRef)
| GetStatusTarget (issueURI : string) : effect (result statusTarget)
| CreateIssue (authorDID rkey : string) (record : IssueRecord) : effect (result Issue)
| PutIssueStatus (ownerDID : string) (record : StatusRecord) : effect (result Status)
| Now : effect time
| CanTriageRepository (actorDID : string) (id : UUID) : effect (result bool)
| NewV7 : effect (result UUID).

(** The dependencies of a [Service] are effects; its triager may be absent. *)
Record Service := mkService { triager : bool }.

Definition projectionError (operation : string) (err : error) : error :=
  if Is err ErrNotFound then ErrNotFound else Errorf "%s: %w" [Str operation; W err].

Definition validateTimes (createdAt updatedAt : time) : result unit :=
  reject_if IsZero createdAt with ValidationError "createdAt" "must not be empty" ;;
  reject_if IsZero updatedAt with ValidationError "updatedAt" "must not be empty" ;;
  reject_if Before updatedAt createdAt
    with ValidationError "updatedAt" "must not precede createdAt" ;;
  Ok tt.

Section issue.
Context `{Syntax, GoUnicode, UUIDs}.

Definition ValidateRecordKey (value : string) : result unit :=
  match ParseRecordKey value with
  | Some rkey =>
      if RecordKey_String rkey != value
      then Err (ValidationError "rkey" "must be a canonical AT Protocol record key") else Ok tt
  | None => Err (ValidationError "rkey" "must be a canonical AT Protocol record key")
  end.

Definition ValidateCID (value : string) : result unit :=
  let bad := Err (ValidationError "CID" "must be a canonical CID") in
  match ParseCID value with
  | Some cid =>
      if (CID_String cid != value) || (value != ToLower value) || negb (HasPrefix value "b")
      then bad else Ok tt
  | None => bad
  end.

Definition validateATURI (value collection field : string) : result ATURI :=
  let malformed := Err (ValidationError field ("must be a canonical " +:+ collection +:+ " AT URI")) in
  let authority := Err (ValidationError field "must use a canonical DID authority") in
  match ParseATURI value with
  | None => malformed
  | Some uri =>
      if (ATURI_String uri != value)
         || (NSID_String (ATURI_Collection uri) != collection)
         || (RecordKey_String (ATURI_RecordKey uri) == EmptyString)
      then malformed
      else match AsDID (Authority uri) with
           | None => authority
           | Some did =>
               if DID_String did != AuthorityString (Authority uri) then authority else Ok uri
           end
  end.

Definition validateStrongRef (ref : StrongRef) (collection field : string) : result unit :=
  let* _ := validateATURI (URI ref) collection (field +:+ ".uri") in
  mapErr (fun _ => ValidationError (field +:+ ".cid") "must be a canonical CID")
    (ValidateCID (CID ref)).

Definition validateEnvelope (uriValue cidValue authorDID collection : string) : result ATURI :=
  let notDID := Err (ValidationError "authorDID" "must be a canonical AT Protocol DID") in
  match ParseDID authorDID with
  | None => notDID
  | Some did =>
      if DID_String did != authorDID then notDID else
      let* uri := validateATURI uriValue collection "URI" in
      reject_if AuthorityString (Authority uri) != authorDID
        with AuthorizationError (Some (New "record is not authored by its envelope authority")) ;;
      let* _ := ValidateCID cidValue in
      Ok uri
  end.

Definition RepositoryOwnerDID (repositoryURI : string) : result string :=
  let* uri := validateATURI repositoryURI repositoryCollection "repository.uri" in
  Ok (AuthorityString (Authority uri)).

Definition StatusRecordKey (issueURI : string) : result string :=
  let* _ := validateATURI issueURI Collection "subject.uri" in
  let digest := Sum256 (bytes (StatusCollection +:+ String zero EmptyString +:+ issueURI)) in
  Ok (ToLower (base32_Encode digest)).

Definition RandomRecordKey : svc effect string :=
  let? id := wrapErr (fun err => Errorf "generate issue record key: %w" [W err]) (call NewV7) in
  done_ (remove_char "-"%char (uuid_String id)).

Definition Record_Validate (record : IssueRecord) : result unit :=
  let* _ := validateStrongRef (Repository record) repositoryCollection "repository" in
  reject_if maximumTitleLength <? len (Title record)
    with ValidationError "title" "must contain at most 255 bytes" ;;
  reject_if maximumBodyLength <? len (Body record)
    with ValidationError "body" "must contain at most 65535 bytes" ;;
  validateTimes (CreatedAt record) (UpdatedAt record).

Definition CommentRecord_Validate (record : CommentRecord) : result unit :=
  let* _ := validateStrongRef (Subject record) Collection "subject" in
  let* _ := match Parent record with
            | Some parent => validateStrongRef parent CommentCollection "parent"
            | None => Ok tt
            end in
  reject_if maximumBodyLength <? len (Comment_Body record)
    with ValidationError "body" "must contain at most 65535 bytes" ;;
  validateTimes (Comment_CreatedAt record) (Comment_UpdatedAt record).

Definition StatusRecord_Validate (record : StatusRecord) : result unit :=
  let* _ := validateStrongRef (Status_Subject record) Collection "subject" in
  let* _ := validateStrongRef (Status_Repository record) repositoryCollection "repository" in
  reject_if (Status_State record != StateOpen) && (Status_State record != StateClosed)
    with ValidationError "state" "must be open or closed" ;;
  validateTimes (Status_CreatedAt record) (Status_UpdatedAt record).

Definition Issue_Validate (value : Issue) : result unit :=
  let* _ := Record_Validate (Issue_Record value) in
  let* uri := validateEnvelope (Issue_URI value) (Issue_CID value) (Issue_AuthorDID value)
                Collection in
  ValidateRecordKey (RecordKey_String (ATURI_RecordKey uri)).

Definition Comment_Validate (value : Comment) : result unit :=
  let* _ := CommentRecord_Validate (Comment_Record value) in
  let* uri := validateEnvelope (Comment_URI value) (Comment_CID value)
                (Comment_AuthorDID value) CommentCollection in
  reject_if match Parent (Comment_Record value) with
            | Some parent => URI parent == Comment_URI value
            | None => false
            end
    with ValidationError "parent.uri" "must differ from the comment URI" ;;
  ValidateRecordKey (RecordKey_String (ATURI_RecordKey uri)).

Definition Status_Validate (value : Status) : result unit :=
  let record := Status_Record value in
  let* _ := StatusRecord_Validate record in
  let* uri := validateEnvelope (Status_URI value) (Status_CID value)
                (Status_AuthorDID value) StatusCollection in
  let* owner := RepositoryOwnerDID (URI (Status_Repository record)) in
  reject_if owner != Status_AuthorDID value
    with AuthorizationError (Some (New "status author is not repository owner")) ;;
  let* wantRKey := StatusRecordKey (URI (Status_Subject record)) in
  reject_if RecordKey_String (ATURI_RecordKey uri) != wantRKey
    with ValidationError "URI" "must use the deterministic issue status record key" ;;
  Ok tt.

Definition Get (repositoryURI : string) : svc effect Projection :=
  let? _ := lift (RepositoryOwnerDID repositoryURI) in
  let? projection := wrapErr (projectionError "get issue projection")
                       (call (GetProjection repositoryURI 100)) in
  done_ (match Issues projection with
         | None => mkProjection (IssueCount projection) (OpenIssueCount projection) (Some [])
         | Some _ => projection
         end).

Definition Create (authorDID : string) (input : CreateInput) : svc effect Issue :=
  let? _ := lift (RepositoryOwnerDID (RepositoryURI input)) in
  let? repository := wrapErr (projectionError "get issue repository target")
                       (call (GetRepositoryTarget (RepositoryURI input))) in
  let! now := call Now in
  let now := UTC now in
  let record := mkRecord repository (Input_Title input) (Input_Body input) now now in
  let? _ := lift (Record_Validate record) in
  let? rkey := wrapErr (fun err => Errorf "create issue record key: %w" [W err])
                 RandomRecordKey in
  call (CreateIssue authorDID rkey record).

Definition PutStatus (service : Service) (authorDID : string) (input : StatusInput)
    : svc effect Status :=
  let denied := AuthorizationError
                  (Some (New "status actor lacks repository triage permission")) in
  let? _ := lift (validateATURI (IssueURI input) Collection "issue_uri") in
  let? target := wrapErr (projectionError "get issue status target")
                   (call (GetStatusTarget (IssueURI input))) in
  let? ownerDID := lift (RepositoryOwnerDID (URI (Target_Repository target))) in
  let? _ :=
    (if authorDID != ownerDID then
       match RepositoryID target with
       | None => fail denied
       | Some id =>
           if negb (triager service) then fail denied else
           let? allowed := wrapErr (fun err => Errorf "authorize issue status: %w" [W err])
                             (call (CanTriageRepository authorDID id)) in
           if negb allowed then fail denied else done_ tt
       end
     else done_ tt) in
  let! now := call Now in
  let now := UTC now in
  let createdAt := if IsZero (StatusCreatedAt target) then now else StatusCreatedAt target in
  let record := mkStatusRecord (Target_Subject target) (Target_Repository target)
                  (Input_State input) createdAt now in
  let? _ := lift (StatusRecord_Validate record) in
  call (PutIssueStatus ownerDID record).

(** ** What the validators accept *)

Lemma validateATURI_Ok value collection field uri :
  validateATURI value collection field = Ok uri <-> canonical_record_uri collection value uri.
Proof.
  unfold validateATURI. canonical_cases.
Qed.

Lemma ValidateCID_Ok value : ValidateCID value = Ok tt <-> canonical_cid value.
Proof. unfold ValidateCID. canonical_cases. Qed.

Lemma ValidateRecordKey_Ok value : ValidateRecordKey value = Ok tt <-> canonical_rkey value.
Proof. unfold ValidateRecordKey. canonical_cases. Qed.

Lemma validateStrongRef_Ok ref collection field :
  validateStrongRef ref collection field = Ok tt <-> canonical_ref collection (URI ref) (CID ref).
Proof. unfold validateStrongRef. reference_cases validateATURI_Ok ValidateCID_Ok. Qed.

Lemma validateEnvelope_Ok uriValue cidValue author collection uri :
  validateEnvelope uriValue cidValue author collection = Ok uri <->
  owned_envelope collection uriValue cidValue author uri.
Proof. unfold validateEnvelope. envelope_cases validateATURI_Ok ValidateCID_Ok. Qed.

Lemma validateTimes_Ok createdAt updatedAt :
  validateTimes createdAt updatedAt = Ok tt <-> ordered_times createdAt updatedAt.
Proof.
  unfold validateTimes, ordered_times, IsZero, Before, zeroTime. rewrite !reject_Ok.
  rewrite !Z.eqb_neq, Z.ltb_ge. naive_solver.
Qed.

Lemma StatusRecord_Validate_Ok record :
  StatusRecord_Validate record = Ok tt <->
  canonical_ref Collection (URI (Status_Subject record)) (CID (Status_Subject record)) /\
  canonical_ref repositoryCollection (URI (Status_Repository record))
    (CID (Status_Repository record)) /\
  (Status_State record = StateOpen \/ Status_State record = StateClosed) /\
  ordered_times (Status_CreatedAt record) (Status_UpdatedAt record).
Proof.
  unfold StatusRecord_Validate. rewrite !bind_unit_Ok, reject_Ok, !validateStrongRef_Ok,
    validateTimes_Ok, andb_false_iff, !neq_false. done.
Qed.

Lemma RepositoryOwnerDID_Ok uri owner :
  RepositoryOwnerDID uri = Ok owner <->
  exists u, canonical_record_uri repositoryCollection uri u /\
            AuthorityString (Authority u) = owner.
Proof.
  unfold RepositoryOwnerDID. rewrite bind_Ok. setoid_rewrite validateATURI_Ok. naive_solver.
Qed.

(** The slot of an issue's status: a digest of the issue's URI. *)
Definition status_slot (issueURI : string) : string :=
  ToLower (base32_Encode (Sum256 (bytes (StatusCollection +:+ String zero EmptyString +:+ issueURI)))).

Lemma StatusRecordKey_Ok issueURI key :
  StatusRecordKey issueURI = Ok key <->
  (exists u, canonical_record_uri Collection issueURI u) /\ key = status_slot issueURI.
Proof.
  unfold StatusRecordKey. rewrite bind_Ok. setoid_rewrite validateATURI_Ok.
  unfold status_slot. naive_solver.
Qed.

#[local] Opaque RepositoryOwnerDID StatusRecordKey.

(** An issue status is accepted exactly when its content is well formed,
    its envelope is owned by its author, that author is the owner of the
    repository the status names, and it sits in the slot derived from its issue
    (so an owner has one status per issue). *)
Theorem Status_Validate_iff (value : Status) :
  let record := Status_Record value in
  Status_Validate value = Ok tt <->
  (canonical_ref Collection (URI (Status_Subject record)) (CID (Status_Subject record)) /\
   canonical_ref repositoryCollection (URI (Status_Repository record))
     (CID (Status_Repository record)) /\
   (Status_State record = StateOpen \/ Status_State record = StateClosed) /\
   ordered_times (Status_CreatedAt record) (Status_UpdatedAt record)) /\
  exists uri repo,
    owned_envelope StatusCollection (Status_URI value) (Status_CID value)
      (Status_AuthorDID value) uri /\
    canonical_record_uri repositoryCollection (URI (Status_Repository record)) repo /\
    AuthorityString (Authority repo) = Status_AuthorDID value /\
    RecordKey_String (ATURI_RecordKey uri) = status_slot (URI (Status_Subject record)).
Proof.
  cbv zeta. unfold Status_Validate. rewrite bind_unit_Ok, StatusRecord_Validate_Ok, bind_Ok.
  setoid_rewrite bind_Ok. setoid_rewrite reject_Ok. setoid_rewrite bind_Ok.
  setoid_rewrite reject_Ok. setoid_rewrite neq_false.
  setoid_rewrite validateEnvelope_Ok. setoid_rewrite RepositoryOwnerDID_Ok.
  setoid_rewrite StatusRecordKey_Ok. split.
  - naive_solver.
  - intros [Hr (uri & repo & He & Hrepo & Ha & Hk)]. split; [done |].
    destruct Hr as ([Hs _] & _). exists uri. split; [done |].
    exists (Status_AuthorDID value). split; [eauto |]. split; [done |]. eauto.
Qed.

(** An issue comment is accepted exactly when it and its parent refer to an
    issue and a comment, its body fits, its times are ordered, its envelope is
    owned by its author under a canonical key, and it is not its own parent. *)
Theorem Comment_Validate_iff (value : Comment) :
  let record := Comment_Record value in
  Comment_Validate value = Ok tt <->
  canonical_ref Collection (URI (Subject record)) (CID (Subject record)) /\
  (forall parent, Parent record = Some parent ->
     canonical_ref CommentCollection (URI parent) (CID parent) /\
     URI parent <> Comment_URI value) /\
  len (Comment_Body record) <= maximumBodyLength /\
  ordered_times (Comment_CreatedAt record) (Comment_UpdatedAt record) /\
  exists uri,
    owned_envelope CommentCollection (Comment_URI value) (Comment_CID value)
      (Comment_AuthorDID value) uri /\
    canonical_rkey (RecordKey_String (ATURI_RecordKey uri)).
Proof.
  cbv zeta. unfold Comment_Validate, CommentRecord_Validate.
  rewrite !bind_unit_Ok, reject_Ok, validateStrongRef_Ok, validateTimes_Ok, bind_Ok, Z.ltb_ge.
  setoid_rewrite reject_Ok. setoid_rewrite ValidateRecordKey_Ok.
  setoid_rewrite validateEnvelope_Ok.
  destruct (Parent (Comment_Record value)) as [parent |].
  - cbv iota. rewrite validateStrongRef_Ok. setoid_rewrite String.eqb_neq. naive_solver.
  - naive_solver.
Qed.

(** ** What the service publishes *)

(** A status is published only on behalf of the repository owner, by that
    owner or by an actor the repository's triager just admitted; it carries the
    projected subject and repository, the requested state and the clock's time,
    keeps the creation time of an existing status, and is itself valid. *)
Definition status_guard (service : Service) (actor : string) (input : StatusInput)
    (h : list (event effect)) X (e : effect X) : Prop :=
  match e with
  | PutIssueStatus owner record =>
      StatusRecord_Validate record = Ok tt /\ Status_State record = Input_State input /\
      exists target now,
        Ev (GetStatusTarget (IssueURI input)) (Ok target) ∈ h /\ Ev Now now ∈ h /\
        RepositoryOwnerDID (URI (Target_Repository target)) = Ok owner /\
        Status_Subject record = Target_Subject target /\
        Status_Repository record = Target_Repository target /\
        Status_UpdatedAt record = now /\
        Status_CreatedAt record
        = (if IsZero (StatusCreatedAt target) then now else StatusCreatedAt target) /\
        (actor = owner \/
         exists id, triager service = true /\ RepositoryID target = Some id /\
                    Ev (CanTriageRepository actor id) (Ok true) ∈ h)
  | CreateIssue _ _ _ => False
  | _ => True
  end.

(** Every status the issue service publishes is authorised: it is written
    under the repository owner, for the owner or for an actor with triage
    permission on that repository, and nothing else is ever published. *)
Theorem PutStatus_authorised (service : Service) (actor : string) (input : StatusInput) :
  guarded (status_guard service actor input) (PutStatus service actor input).
Proof.
  apply (wp_guarded _ _ (fun _ _ => True)). unfold PutStatus.
  destruct (validateATURI _ _ _); cbn; [| done].
  split; [done |]. intros [target | e]; cbn; [| done].
  destruct (RepositoryOwnerDID _) as [owner | e] eqn:Howner; cbn; [| done].
  destruct (String.eqb_spec actor owner) as [-> | Hne]; cbn.
  - split; [done |]. intros now. destruct (StatusRecord_Validate _) as [[] |] eqn:Hv; cbn; [| done].
    split; [| done]. split_and!; [done .. |]. exists target, now. split_and!; try done; set_solver.
  - destruct (RepositoryID target) as [id |] eqn:Hid; [| done].
    destruct (triager service) eqn:Htr; [cbn | done]. split; [done |].
    intros [[] | e]; cbn; try done. split; [done |]. intros now.
    destruct (StatusRecord_Validate _) as [[] |] eqn:Hv; cbn; [| done].
    split; [| done]. split_and!; [done .. |]. exists target, now. split_and!; try done; try set_solver.
Qed.

(** A published issue is valid, under a valid key, in the repository the store
    answered, created and updated at the clock's time. *)
Definition create_guard (author : string) (input : CreateInput)
    (h : list (event effect)) X (e : effect X) : Prop :=
  match e with
  | CreateIssue did rkey record =>
      did = author /\ Record_Validate record = Ok tt /\
      ValidateRecordKey rkey = Ok tt /\ match_class_n is_lower_hex 32 rkey = true /\
      Title record = Input_Title input /\ Body record = Input_Body input /\
      Ev (GetRepositoryTarget (RepositoryURI input)) (Ok (Repository record)) ∈ h /\
      Ev Now (CreatedAt record) ∈ h /\ UpdatedAt record = CreatedAt record
  | PutIssueStatus _ _ => False
  | _ => True
  end.

Lemma hex_key_valid `{!SyntaxLaws, !UUIDLaws} id :
  ValidateRecordKey (remove_char "-"%char (uuid_String id)) = Ok tt.
Proof.
  apply ValidateRecordKey_Ok, ParseRecordKey_grammar.
  eapply rkey_grammar_class, uuid_hex; [apply hex_rkey_char | lia].
Qed.

(** Creating an issue publishes only validated records under a key the
    validators accept (a UUID without dashes: 32 hexadecimal digits). *)
Theorem Create_publishes_valid `{!SyntaxLaws, !UUIDLaws} (author : string) (input : CreateInput) :
  guarded (create_guard author input) (Create author input).
Proof.
  apply (wp_guarded _ _ (fun _ _ => True)). unfold Create.
  destruct (RepositoryOwnerDID _); cbn; [| done].
  split; [done |]. intros [repo | e]; cbn; [| done].
  split; [done |]. intros now. destruct (Record_Validate _) as [[] |] eqn:Hv; cbn; [| done].
  split; [done |]. intros [id | e]; cbn; [| done]. split; [| done].
  split_and!; try done; [apply hex_key_valid | apply uuid_hex | set_solver ..].
Qed.
End issue.

(** ** Concrete runs *)

Module issue_examples.
Import Demo.

Definition cid : string := "bafyreigh2akiscaildc".
Definition repository : StrongRef := mkStrongRef "at://did:plc:owner/dev.adenosine.repo/r" cid.
Definition subject : StrongRef := mkStrongRef "at://did:plc:reporter/dev.adenosine.issue/i" cid.
Definition handler X (e : effect X) (_ : unit) : X * unit :=
  (match e in effect X return X with
   | GetProjection _ _ => Ok (mkProjection 0 0 None)
   | GetRepositoryTarget _ => Ok repository
   | GetStatusTarget _ => Ok (mkStatusTarget subject repository (Some 7) zeroTime)
   | CreateIssue did rkey record => Ok (mkIssue rkey cid did record)
   | PutIssueStatus did record => Ok (mkStatus "at://did:plc:owner/dev.adenosine.issueStatus/s" cid did record)
   | Now => 1000
   | CanTriageRepository did _ => Ok (did == "did:plc:triager")
   | NewV7 => Ok 42
   end, tt).

(** A triager's request is published under the owner; a stranger's is not. *)
Example PutStatus_triager :
  exists status, fst (fst (run handler (PutStatus (mkService true) "did:plc:triager"
    (mkStatusInput (URI subject) StateClosed)) tt)) = Ok status /\
    Status_AuthorDID status = "did:plc:owner".
Proof. eexists. vm_compute. done. Qed.

Example PutStatus_stranger :
  exists e, fst (fst (run handler (PutStatus (mkService true) "did:plc:stranger"
    (mkStatusInput (URI subject) StateClosed)) tt)) = Err e /\ Is e ErrAuthorization = true.
Proof. eexists. vm_compute. done. Qed.

Lemma Create_publishes_valid_witness :
  guarded (create_guard "did:plc:reporter" (mkCreateInput (URI repository) "t" "b"))
    (Create "did:plc:reporter" (mkCreateInput (URI repository) "t" "b")).
Proof. apply Create_publishes_valid. Defined.
End issue_examples.
End issue.
