(* ===== verification/Git.v ===== *)
(** * Git: the values and validators of package [internal/git] that the pull
    request service relies on.

    The operations that run the [git] executable are effects of their callers;
    what they check before they run it is modelled here. *)

From S2P Require Import Prelude.
From S2P Require Import GoText.
From S2P Require Import Encoding.
From S2P Require Import Syntax.

Module git.

Definition ErrMergeInput : error := New "invalid Git merge input".
Definition ErrMergeConflict : error := New "Git merge conflict".
Definition ErrMergeRefConflict : error := New "Git merge target ref changed".
Definition ErrRemoteInput : error := New "invalid remote Git input".
Definition ErrRefConflict : error := New "remote Git destination ref changed".
Definition maxMergeMessageLength : Z := 1024 * 1024.
Definition maxIdentityLength : Z := 1024.

Definition MergeStrategy : Type := string.
Definition MergeCommit : MergeStrategy := "merge-commit".
Definition MergeSquash : MergeStrategy := "squash".

(** [Zone] is the offset of the [time.Time] from UTC, in seconds. *)
Record MergeIdentity := mkMergeIdentity { Name : string; Email : string; Time : time; Zone : Z }.
Record MergeRequest := mkMergeRequest {
  TargetBranch : string; ExpectedTargetSHA : string; HeadSHA : string;
  Strategy : MergeStrategy; Message : string; Author : MergeIdentity; Committer : MergeIdentity
}.
Record MergeResult := mkMergeResult {
  OldSHA : string; NewSHA : string; Result_HeadSHA : string; TreeSHA : string;
  TargetRef : string; Result_Strategy : MergeStrategy
}.
Record CommitIdentity := mkCommitIdentity { Identity_Name : string; Identity_Email : string; Identity_Time : time }.
Record Commit := mkCommit {
  SHA : string; Parents : list string; Commit_Author : CommitIdentity;
  Commit_Committer : CommitIdentity; Summary : string; Commit_Message : string
}.
Record DiffFile := mkDiffFile {
  FileStatus : string; OldPath : string; NewPath : string;
  Additions : option Z; Deletions : option Z
}.
Record Diff := mkDiff {
  BaseSHA : string; Diff_HeadSHA : string; Files : list DiffFile; Patch : string
}.
Record RemoteFetch := mkRemoteFetch {
  SourceURL : string; SourceBranch : string; ExpectedHead : string;
  Destination : string; PriorHead : string
}.

Definition invalid (what : string) (e : error) : error := Errorf (what +:+ ": %w") [W e].

(** The characters [~^:?*[\] no ref name may hold. *)
Definition refForbidden : string := "~^:?*[\".

Definition validateBranch (branch : string) : result unit :=
  let bad := invalid "invalid source branch" ErrRemoteInput in
  reject_if (branch == EmptyString) || (branch == "@") || (1024 <? len branch)
    || HasPrefix branch "-" || HasPrefix branch "/" || HasSuffix branch "/"
    || Contains branch ".." || Contains branch "//" || Contains branch "@{"
    || HasSuffix branch "." || HasSuffix branch ".lock" with bad ;;
  reject_if existsb (fun component => HasPrefix component "." || HasSuffix component ".lock")
              (Split "/"%char branch) with bad ;;
  reject_if existsb (fun c => (c <=? 0x20) || (c =? 0x7f) || ContainsRune refForbidden c)
              (runes branch) with bad ;;
  Ok tt.

Definition is_hex_rune (c : Z) : bool := between 48 c 57 || between 97 c 102.

Definition validateRemoteSHA (sha : string) : result unit :=
  reject_if negb (len sha =? 40) && negb (len sha =? 64)
    with invalid "SHA must be full length" ErrRemoteInput ;;
  reject_if existsb (fun c => negb (is_hex_rune c)) (runes sha)
    with invalid "SHA must be lowercase hexadecimal" ErrRemoteInput ;;
  Ok tt.

Definition validateMergeSHA (sha : string) (expectedLength : Z) : result unit :=
  reject_if negb (len sha =? expectedLength)
    with invalid "SHA length does not match repository object format" ErrMergeInput ;;
  reject_if existsb (fun c => negb (is_hex_rune c)) (runes sha)
    with invalid "SHA must be lowercase hexadecimal" ErrMergeInput ;;
  Ok tt.

Definition controlledPullRef (destination : string) : result string :=
  reject_if (destination == EmptyString) || (128 <? len destination)
    with invalid "invalid destination" ErrRemoteInput ;;
  reject_if existsb (fun c => negb (between 97 c 122 || between 65 c 90 || between 48 c 57
                                    || (c =? 45))) (runes destination)
    with invalid "invalid destination" ErrRemoteInput ;;
  Ok ("refs/adenosine/pull/" +:+ destination +:+ "/head").

(** Nanoseconds from year 1 to year 10000: 3652059 days. *)
Definition year_10000 : time := 3652059 * 86400 * second.

Definition validateMergeIdentity (identity : MergeIdentity) : result unit :=
  let name := Name identity in
  let email := Email identity in
  reject_if (name == EmptyString) || (email == EmptyString)
    || (maxIdentityLength <? len name) || (maxIdentityLength <? len email)
    || negb (ValidString name) || negb (ValidString email) with ErrMergeInput ;;
  reject_if (TrimSpace name != name) || (TrimSpace email != email)
    || ContainsAny name "<>" || ContainsAny email "<>" with ErrMergeInput ;;
  reject_if existsb (fun c => (c <? 0x20) || (c =? 0x7f)) (runes (name +:+ email))
    with ErrMergeInput ;;
  let localTime := Time identity + Zone identity * second in
  reject_if IsZero (Time identity) || (localTime <? 0) || (year_10000 <=? localTime)
    with ErrMergeInput ;;
  reject_if (Zone identity <? -14 * 60 * 60) || (14 * 60 * 60 <? Zone identity)
    || negb (Z.rem (Zone identity) 60 =? 0) with ErrMergeInput ;;
  Ok tt.

Definition validateMergeRequest (request : MergeRequest) : result unit :=
  reject_if negb (is_Ok (validateBranch (TargetBranch request)))
    || negb (ValidString (TargetBranch request))
    with invalid "invalid target branch" ErrMergeInput ;;
  reject_if (Strategy request != MergeCommit) && (Strategy request != MergeSquash)
    with invalid "unsupported merge strategy" ErrMergeInput ;;
  reject_if (Message request == EmptyString) || (maxMergeMessageLength <? len (Message request))
    || negb (ValidString (Message request)) || ContainsRune (Message request) 0
    with invalid "invalid merge message" ErrMergeInput ;;
  let* _ := mapErr (invalid "invalid author") (validateMergeIdentity (Author request)) in
  mapErr (invalid "invalid committer") (validateMergeIdentity (Committer request)).

(** ** Accepted destinations *)

Lemma controlledPullRef_ascii destination :
  0 < len destination <= 128 ->
  Forall (fun b => 97 <= b <= 122 \/ 65 <= b <= 90 \/ 48 <= b <= 57 \/ b = 45)
    (bytes destination) ->
  controlledPullRef destination = Ok ("refs/adenosine/pull/" +:+ destination +:+ "/head").
Proof.
  intros Hl Hb. unfold controlledPullRef.
  destruct (String.eqb_spec destination EmptyString) as [-> |]; [unfold len in Hl; cbn in Hl; lia |].
  rewrite (proj2 (Z.ltb_ge 128 _)) by lia. cbn.
  rewrite (proj2 (existsb_false _ _)); [done |].
  rewrite runes_ascii by (eapply Forall_impl; [exact Hb |]; intros b Hc; cbv beta in Hc; lia).
  eapply Forall_impl; [done |]. intros b Hc. cbv beta in Hc |- *. apply negb_false_iff.
  rewrite !orb_true_iff, !between_iff, Z.eqb_eq. lia.
Qed.

Lemma hex_runes sha :
  all_chars is_lower_hex sha = true -> Forall (fun c => negb (is_hex_rune c) = false) (runes sha).
Proof.
  intros Hx. assert (Hb : Forall (fun b => is_hex_rune b = true) (bytes sha)).
  { revert Hx. apply all_chars_bytes. done. }
  rewrite runes_ascii.
  - eapply Forall_impl; [exact Hb |]. intros b Hc. by rewrite Hc.
  - eapply Forall_impl; [exact Hb |]. intros b Hc. unfold is_hex_rune in Hc.
    apply orb_true_iff in Hc. rewrite !between_iff in Hc. lia.
Qed.
End git.
