(* ===== verification/PullRequest.v ===== *)
(** * PullRequest: pull request, review and status records
    (package [internal/pullrequest], file [pullrequest.go]). *)

From S2P Require Import Prelude.
From S2P Require Import GoText.
From S2P Require Import Encoding.
From S2P Require Import Syntax.
From S2P Require Import Git.

Module pullrequest.

Definition Collection : string := "dev.adenosine.pullRequest".
Definition StatusCollection : string := "dev.adenosine.pullRequestStatus".
Definition ReviewCollection : string := "dev.adenosine.pullRequestReview".
Definition repositoryCollection : string := "dev.adenosine.repo".
Definition maximumBranchLength : Z := 255.
Definition maximumTitleLength : Z := 255.
Definition maximumBodyLength : Z := 65535.

Definition ErrValidation : error := New "pull request validation failed".
Definition ErrAuthorization : error := New "AT Protocol pull request authorization required".
Definition ErrPermissionDenied : error :=
  Errorf "pull request repository write permission denied: %w" [W ErrAuthorization].
Definition ErrConflict : error := New "pull request record conflict".
Definition ErrProvider : error := New "pull request provider failure".

Definition State : Type := string.
Definition StateOpen : State := "open".
Definition StateClosed : State := "closed".
Definition StateMerged : State := "merged".
Definition Verdict : Type := string.
Definition VerdictComment : Verdict := "comment".
Definition VerdictApprove : Verdict := "approve".
Definition VerdictRequestChanges : Verdict := "request_changes".

Record StrongRef := mkStrongRef { URI : string; CID : string }.
(** Go's [pullrequest.Record]. *)
Record PullRequestRecord := mkRecord {
  SourceRepository : StrongRef; TargetRepository : StrongRef;
  SourceBranch : string; TargetBranch : string; HeadSHA : string;
  Title : string; Body : string; CreatedAt : time; UpdatedAt : time
}.
Record PullRequest := mkPullRequest {
  PR_URI : string; PR_CID : string; PR_AuthorDID : string; PR_Record : PullRequestRecord
}.
Record StatusRecord := mkStatusRecord {
  Status_Subject : StrongRef; Status_TargetRepository : StrongRef; Status_State : State;
  MergeCommitSHA : string; Status_CreatedAt : time; Status_UpdatedAt : time
}.
Record Status := mkStatus {
  Status_URI : string; Status_CID : string; Status_AuthorDID : string;
  Status_Record : StatusRecord
}.
Record ReviewRecord := mkReviewRecord {
  Review_Subject : StrongRef; Review_Verdict : Verdict; Review_Body : string;
  Review_CreatedAt : time; Review_UpdatedAt : time
}.
Record Review := mkReview {
  Review_URI : string; Review_CID : string; Review_AuthorDID : string;
  Review_Record : ReviewRecord
}.

#[export] Instance StrongRef_eq_dec : EqDecision StrongRef.
Proof. solve_decision. Defined.

Definition ValidationError (Field Problem : string) : error :=
  FieldError ErrValidation Field Problem.
Definition ConflictError (Err : option error) : error := CauseError ErrConflict EmptyString Err.
Definition AuthorizationError (Err : option error) : error :=
  CauseError ErrAuthorization EmptyString Err.
Definition ProviderError (Operation : string) (Err : option error) : error :=
  CauseError ErrProvider Operation Err.

Definition validateTimes (createdAt updatedAt : time) : result unit :=
  reject_if IsZero createdAt with ValidationError "createdAt" "must not be empty" ;;
  reject_if IsZero updatedAt with ValidationError "updatedAt" "must not be empty" ;;
  reject_if Before updatedAt createdAt
    with ValidationError "updatedAt" "must not precede createdAt" ;;
  Ok tt.

Definition validateBranch (value field : string) : result unit :=
  let bad := ValidationError field
               "must be a safe Git branch name containing at most 255 bytes" in
  reject_if (len value =? 0) || (maximumBranchLength <? len value) || negb (ValidString value)
    || (value == "@") || HasPrefix value "-" || HasPrefix value "/" || HasSuffix value "/"
    || HasSuffix value "." || Contains value "//" || Contains value ".."
    || Contains value "@{" with bad ;;
  reject_if existsb (fun component => HasPrefix component "." || HasSuffix component ".lock")
              (Split "/"%char value) with bad ;;
  reject_if existsb (fun character =>
                IsSpace character || IsControl character || ContainsRune "~^:?*[\" character)
              (runes value) with bad ;;
  Ok tt.

Definition validateGitSHA (value field : string) : result unit :=
  reject_if negb (match_git_sha value) || all_chars (is_char "0"%char) value
    with ValidationError field
           "must be a lowercase 40 or 64 character hexadecimal Git object ID" ;;
  Ok tt.

Section pullrequest.
Context `{Syntax, GoUnicode, UUIDs}.

Definition ValidateRecordKey (value : string) : result unit :=
  match ParseRecordKey value with
  | Some rkey =>
      if RecordKey_String rkey != value
      then Err (ValidationError "rkey" "must be a canonical AT Protocol record key") else Ok tt
  | None => Err (ValidationError "rkey" "must be a canonical AT Protocol record key")
  end.

Definition ValidateCID (value : string) : result unit :=
  let bad := Err (ValidationError "CID" "must be a canonical CID") in
  match ParseCID value with
  | Some cid =>
      if (CID_String cid != value) || (value != ToLower value) || negb (HasPrefix value "b")
      then bad else Ok tt
  | None => bad
  end.

Definition validateATURI (value collection field : string) : result ATURI :=
  let malformed := Err (ValidationError field ("must be a canonical " +:+ collection +:+ " AT URI")) in
  let authority := Err (ValidationError field "must use a canonical DID authority") in
  match ParseATURI value with
  | None => malformed
  | Some uri =>
      if (ATURI_String uri != value)
         || (NSID_String (ATURI_Collection uri) != collection)
         || (RecordKey_String (ATURI_RecordKey uri) == EmptyString)
      then malformed
      else match AsDID (Authority uri) with
           | None => authority
           | Some did =>
               if DID_String did != AuthorityString (Authority uri) then authority else Ok uri
           end
  end.

Definition validateStrongRef (ref : StrongRef) (collection field : string) : result unit :=
  let* _ := validateATURI (URI ref) collection (field +:+ ".uri") in
  mapErr (fun _ => ValidationError (field +:+ ".cid") "must be a canonical CID")
    (ValidateCID (CID ref)).

Definition validateEnvelope (uriValue cidValue authorDID collection : string) : result ATURI :=
  let notDID := Err (ValidationError "authorDID" "must be a canonical AT Protocol DID") in
  match ParseDID authorDID with
  | None => notDID
  | Some did =>
      if DID_String did != authorDID then notDID else
      let* uri := validateATURI uriValue collection "URI" in
      reject_if AuthorityString (Authority uri) != authorDID
        with AuthorizationError (Some (New "record is not authored by its envelope authority")) ;;
      let* _ := ValidateCID cidValue in
      Ok uri
  end.

Definition RepositoryOwnerDID (repositoryURI : string) : result string :=
  let* uri := validateATURI repositoryURI repositoryCollection "targetRepository.uri" in
  Ok (AuthorityString (Authority uri)).

Definition StatusRecordKey (pullRequestURI : string) : result string :=
  let* _ := validateATURI pullRequestURI Collection "subject.uri" in
  let digest := Sum256 (bytes (StatusCollection +:+ String zero EmptyString +:+ pullRequestURI)) in
  Ok (ToLower (base32_Encode digest)).

(** [uuid.NewV7]'s answer is the argument. *)
Definition RandomRecordKey (id : result UUID) : result string :=
  let* id := mapErr (fun err => Errorf "generate pull request record key: %w" [W err]) id in
  Ok (remove_char "-"%char (uuid_String id)).

Definition Record_Validate (record : PullRequestRecord) : result unit :=
  let* _ := validateStrongRef (SourceRepository record) repositoryCollection "sourceRepository" in
  let* _ := validateStrongRef (TargetRepository record) repositoryCollection "targetRepository" in
  let* _ := validateBranch (SourceBranch record) "sourceBranch" in
  let* _ := validateBranch (TargetBranch record) "targetBranch" in
  reject_if (URI (SourceRepository record) == URI (TargetRepository record))
    && (SourceBranch record == TargetBranch record)
    with ValidationError "sourceRepository" "source and target repository branches must differ" ;;
  let* _ := validateGitSHA (HeadSHA record) "headSHA" in
  reject_if (len (Title record) =? 0) || (maximumTitleLength <? len (Title record))
    || negb (ValidString (Title record))
    with ValidationError "title" "must contain between 1 and 255 bytes" ;;
  reject_if (maximumBodyLength <? len (Body record)) || negb (ValidString (Body record))
    with ValidationError "body" "must contain at most 65535 bytes" ;;
  validateTimes (CreatedAt record) (UpdatedAt record).

Definition StatusRecord_Validate (record : StatusRecord) : result unit :=
  let* _ := validateStrongRef (Status_Subject record) Collection "subject" in
  let* _ := validateStrongRef (Status_TargetRepository record) repositoryCollection
              "targetRepository" in
  reject_if (Status_State record != StateOpen) && (Status_State record != StateClosed)
    && (Status_State record != StateMerged)
    with ValidationError "state" "must be open, closed, or merged" ;;
  let* _ :=
    (if Status_State record == StateMerged
     then validateGitSHA (MergeCommitSHA record) "mergeCommitSHA"
     else reject_if MergeCommitSHA record != EmptyString
            with ValidationError "mergeCommitSHA" "must be absent unless state is merged" ;;
          Ok tt) in
  validateTimes (Status_CreatedAt record) (Status_UpdatedAt record).

Definition ReviewRecord_Validate (record : ReviewRecord) : result unit :=
  let* _ := validateStrongRef (Review_Subject record) Collection "subject" in
  reject_if (Review_Verdict record != VerdictComment) && (Review_Verdict record != VerdictApprove)
    && (Review_Verdict record != VerdictRequestChanges)
    with ValidationError "verdict" "must be comment, approve, or request_changes" ;;
  reject_if (maximumBodyLength <? len (Review_Body record))
    || negb (ValidString (Review_Body record))
    with ValidationError "body" "must contain at most 65535 bytes" ;;
  validateTimes (Review_CreatedAt record) (Review_UpdatedAt record).

Definition PullRequest_Validate (value : PullRequest) : result unit :=
  let* _ := Record_Validate (PR_Record value) in
  let* uri := validateEnvelope (PR_URI value) (PR_CID value) (PR_AuthorDID value) Collection in
  ValidateRecordKey (RecordKey_String (ATURI_RecordKey uri)).

Definition Status_Validate (value : Status) : result unit :=
  let record := Status_Record value in
  let* _ := StatusRecord_Validate record in
  let* uri := validateEnvelope (Status_URI value) (Status_CID value)
                (Status_AuthorDID value) StatusCollection in
  let* owner := RepositoryOwnerDID (URI (Status_TargetRepository record)) in
  reject_if owner != Status_AuthorDID value
    with AuthorizationError (Some (New "status author is not target repository owner")) ;;
  let* wantRKey := StatusRecordKey (URI (Status_Subject record)) in
  reject_if RecordKey_String (ATURI_RecordKey uri) != wantRKey
    with ValidationError "URI" "must use the deterministic pull request status record key" ;;
  Ok tt.

Definition Review_Validate (value : Review) : result unit :=
  let* _ := ReviewRecord_Validate (Review_Record value) in
  let* uri := validateEnvelope (Review_URI value) (Review_CID value) (Review_AuthorDID value)
                ReviewCollection in
  ValidateRecordKey (RecordKey_String (ATURI_RecordKey uri)).

(** ** What the validators accept *)

Lemma pr_validateATURI_Ok value collection field uri :
  validateATURI value collection field = Ok uri <-> canonical_record_uri collection value uri.
Proof. unfold validateATURI. canonical_cases. Qed.

Lemma pr_ValidateCID_Ok value : ValidateCID value = Ok tt <-> canonical_cid value.
Proof. unfold ValidateCID. canonical_cases. Qed.

Lemma pr_ValidateRecordKey_Ok value : ValidateRecordKey value = Ok tt <-> canonical_rkey value.
Proof. unfold ValidateRecordKey. canonical_cases. Qed.

Lemma pr_validateStrongRef_Ok ref collection field :
  validateStrongRef ref collection field = Ok tt <-> canonical_ref collection (URI ref) (CID ref).
Proof. unfold validateStrongRef. reference_cases pr_validateATURI_Ok pr_ValidateCID_Ok. Qed.

Lemma pr_validateEnvelope_Ok uriValue cidValue author collection uri :
  validateEnvelope uriValue cidValue author collection = Ok uri <->
  owned_envelope collection uriValue cidValue author uri.
Proof. unfold validateEnvelope. envelope_cases pr_validateATURI_Ok pr_ValidateCID_Ok. Qed.

Lemma pr_validateTimes_Ok createdAt updatedAt :
  validateTimes createdAt updatedAt = Ok tt <-> ordered_times createdAt updatedAt.
Proof.
  unfold validateTimes, ordered_times, IsZero, Before, zeroTime. rewrite !reject_Ok.
  rewrite !Z.eqb_neq, Z.ltb_ge. naive_solver.
Qed.

(** A full-length, lower-case hexadecimal object id that is not the null id. *)
Definition git_object_id (sha : string) : Prop :=
  (String.length sha = 40%nat \/ String.length sha = 64%nat) /\
  all_chars is_lower_hex sha = true /\ all_chars (is_char "0"%char) sha = false.

Lemma validateGitSHA_Ok value field :
  validateGitSHA value field = Ok tt <-> git_object_id value.
Proof.
  unfold validateGitSHA, git_object_id, match_git_sha. rewrite reject_Ok.
  rewrite orb_false_iff, negb_false_iff, orb_true_iff, !match_class_n_true. naive_solver.
Qed.

Lemma pr_RepositoryOwnerDID_Ok uri owner :
  RepositoryOwnerDID uri = Ok owner <->
  exists u, canonical_record_uri repositoryCollection uri u /\
            AuthorityString (Authority u) = owner.
Proof.
  unfold RepositoryOwnerDID. rewrite bind_Ok. setoid_rewrite pr_validateATURI_Ok. naive_solver.
Qed.

Definition status_slot (pullRequestURI : string) : string :=
  ToLower (base32_Encode
    (Sum256 (bytes (StatusCollection +:+ String zero EmptyString +:+ pullRequestURI)))).

Lemma pr_StatusRecordKey_Ok pullRequestURI key :
  StatusRecordKey pullRequestURI = Ok key <->
  (exists u, canonical_record_uri Collection pullRequestURI u) /\
  key = status_slot pullRequestURI.
Proof.
  unfold StatusRecordKey. rewrite bind_Ok. setoid_rewrite pr_validateATURI_Ok.
  unfold status_slot. naive_solver.
Qed.

(** ** Branch names *)

(** A component of a branch name: non-empty, not hidden, not a lock file. *)
Definition safe_component (w : string) : Prop :=
  w <> EmptyString /\ HasPrefix w "." = false /\ HasSuffix w ".lock" = false.
Definition safe_rune (c : Z) : Prop :=
  IsSpace c = false /\ IsControl c = false /\ ContainsRune "~^:?*[\" c = false.

Lemma components_safe value :
  (value == EmptyString) = false ->
  (HasPrefix value "/" = false /\ HasSuffix value "/" = false /\ Contains value "//" = false /\
   Forall (fun w => HasPrefix w "." || HasSuffix w ".lock" = false) (Split "/"%char value)) <->
  Forall safe_component (Split "/"%char value).
Proof.
  intros Hv%String.eqb_neq. pose proof (Split_empty "/"%char value) as Hempty. split.
  - intros (Hp & Hs & Hd & Hw). rewrite Forall_forall in *. intros w Hin.
    specialize (Hw w Hin) as [? ?]%orb_false_iff. split_and!; try done.
    intros ->. apply Hempty in Hin as [? | [? | [? | ?]]]; congruence.
  - intros Hw.
    assert (Hne : EmptyString ∉ Split "/"%char value)
      by (intros Hin; rewrite Forall_forall in Hw; by destruct (Hw _ Hin)).
    rewrite <- !not_true_iff_false. split_and!; try (intros Ht; apply Hne, Hempty; tauto).
    eapply Forall_impl; [exact Hw |]. intros w (_ & -> & ->). done.
Qed.

(** The branch names a pull request may carry are exactly the valid UTF-8
    names of 1 to 255 bytes that follow git's ref-name rules: non-empty
    slash-separated components, none hidden or ending in [.lock], no [..] or
    [@{], no final dot, no leading dash, no space, control or glob character. *)
Lemma validateBranch_Ok (value field : string) :
  validateBranch value field = Ok tt <->
  1 <= len value <= 255 /\ ValidString value = true /\ value <> "@" /\
  HasPrefix value "-" = false /\ HasSuffix value "." = false /\
  Contains value ".." = false /\ Contains value "@{" = false /\
  Forall safe_component (Split "/"%char value) /\ Forall safe_rune (runes value).
Proof.
  unfold validateBranch. rewrite !reject_Ok, !orb_false_iff, negb_false_iff.
  rewrite !existsb_false, Z.eqb_neq, Z.ltb_ge, String.eqb_neq.
  pose proof (len_nonneg value) as Hn.
  assert (Hr : Forall (fun c => IsSpace c || IsControl c || ContainsRune "~^:?*[\" c = false)
                 (runes value) <-> Forall safe_rune (runes value)).
  { unfold safe_rune. apply Forall_iff. intros c. rewrite !orb_false_iff. tauto. }
  rewrite Hr. clear Hr. unfold maximumBranchLength. destruct (value == EmptyString) eqn:He.
  { apply String.eqb_eq in He as ->. unfold len. cbn. naive_solver lia. }
  rewrite <- (components_safe value He). naive_solver lia.
Qed.

(** The branch names a pull request may carry are exactly the valid UTF-8
    names of 1 to 255 bytes that follow git's ref-name rules: non-empty
    slash-separated components, none hidden or ending in [.lock], no [..] or
    [@{], no final dot, no leading dash, no space, control or glob character. *)
Theorem validateBranch_iff (value field : string) :
  validateBranch value field = Ok tt <->
  1 <= len value <= 255 /\ ValidString value = true /\ value <> "@" /\
  HasPrefix value "-" = false /\ HasSuffix value "." = false /\
  Contains value ".." = false /\ Contains value "@{" = false /\
  Forall safe_component (Split "/"%char value) /\ Forall safe_rune (runes value).
Proof. apply validateBranch_Ok. Qed.

(** A branch name and an object id that a pull request may carry are also
    acceptable to the git service that fetches and merges them. *)
Theorem validated_git_names (branch field sha sha_field : string)
    (Hb : validateBranch branch field = Ok tt) (Hs : validateGitSHA sha sha_field = Ok tt) :
  git.validateBranch branch = Ok tt /\ ValidString branch = true /\
  git.validateRemoteSHA sha = Ok tt /\ git.validateMergeSHA sha (len sha) = Ok tt.
Proof.
  apply validateGitSHA_Ok in Hs as (Hl & Hx & _).
  assert (Hhex : existsb (fun c => negb (git.is_hex_rune c)) (runes sha) = false).
  { apply existsb_false, git.hex_runes, Hx. }
  assert (Hsha : git.validateRemoteSHA sha = Ok tt /\ git.validateMergeSHA sha (len sha) = Ok tt).
  { unfold git.validateRemoteSHA, git.validateMergeSHA. rewrite Z.eqb_refl, Hhex.
    unfold len. by destruct Hl as [-> | ->]. }
  split_and!; [| | apply Hsha ..].
  - revert Hb. unfold validateBranch, git.validateBranch, maximumBranchLength.
    rewrite !reject_Ok, !orb_false_iff, !existsb_false, Z.eqb_neq, !Z.ltb_ge.
    intros (Hshape & Hw & Hr & _). split; [| split; [done | split; [| done]]].
    + assert (HasSuffix branch ".lock" = false) as Hlock.
      { apply not_true_iff_false. intros [t ->]%HasSuffix_spec.
        pose proof (Split_suffix "/"%char t ".lock" eq_refl) as Hx'%Exists_exists.
        destruct Hx' as (w & Hin & Hw'). rewrite Forall_forall in Hw.
        apply Hw in Hin. rewrite Hw', orb_true_r in Hin. done. }
      assert ((branch == EmptyString) = false).
      { apply String.eqb_neq. intros ->. unfold len in Hshape. cbn in Hshape. naive_solver. }
      destruct_and!. split_and!; try done; lia.
    + pose proof (runes_nonneg branch) as Hn. rewrite !Forall_forall in *. intros c Hc.
      specialize (Hn c Hc). apply Hr in Hc as [[Hsp Hct]%orb_false_iff Hcc]%orb_false_iff.
      unfold git.refForbidden. rewrite Hcc, orb_false_r. apply orb_false_iff.
      split; apply not_true_iff_false; intros Hle; zbool.
      * destruct (Z.eq_dec c 0x20) as [-> |]; [by vm_compute in Hsp |].
        apply not_true_iff_false in Hct. apply Hct. unfold IsControl.
        apply orb_true_iff; left. apply between_iff. lia.
      * subst. by vm_compute in Hct.
  - apply validateBranch_Ok in Hb. tauto.
Qed.

Lemma pr_StatusRecord_Validate_Ok record :
  StatusRecord_Validate record = Ok tt <->
  canonical_ref Collection (URI (Status_Subject record)) (CID (Status_Subject record)) /\
  canonical_ref repositoryCollection (URI (Status_TargetRepository record))
    (CID (Status_TargetRepository record)) /\
  (Status_State record = StateMerged /\ git_object_id (MergeCommitSHA record) \/
   (Status_State record = StateOpen \/ Status_State record = StateClosed) /\
   MergeCommitSHA record = EmptyString) /\
  ordered_times (Status_CreatedAt record) (Status_UpdatedAt record).
Proof.
  unfold StatusRecord_Validate. rewrite !bind_unit_Ok, reject_Ok, !bind_unit_Ok,
    !pr_validateStrongRef_Ok, pr_validateTimes_Ok.
  destruct (String.eqb_spec (Status_State record) StateMerged) as [-> | Hne].
  - rewrite validateGitSHA_Ok, !andb_false_iff, !neq_false. naive_solver.
  - rewrite reject_Ok, !andb_false_iff, !neq_false. naive_solver.
Qed.

#[local] Opaque RepositoryOwnerDID StatusRecordKey.

(** A pull request status is accepted exactly when its content is well
    formed (a merge commit for the merged state and for no other), its envelope
    is owned by the target repository's owner, and it sits in the slot derived
    from its pull request. *)
Theorem Status_Validate_merged_iff (value : Status) :
  let record := Status_Record value in
  Status_Validate value = Ok tt <->
  (canonical_ref Collection (URI (Status_Subject record)) (CID (Status_Subject record)) /\
   canonical_ref repositoryCollection (URI (Status_TargetRepository record))
     (CID (Status_TargetRepository record)) /\
   (Status_State record = StateMerged /\ git_object_id (MergeCommitSHA record) \/
    (Status_State record = StateOpen \/ Status_State record = StateClosed) /\
    MergeCommitSHA record = EmptyString) /\
   ordered_times (Status_CreatedAt record) (Status_UpdatedAt record)) /\
  exists uri repo,
    owned_envelope StatusCollection (Status_URI value) (Status_CID value)
      (Status_AuthorDID value) uri /\
    canonical_record_uri repositoryCollection (URI (Status_TargetRepository record)) repo /\
    AuthorityString (Authority repo) = Status_AuthorDID value /\
    RecordKey_String (ATURI_RecordKey uri) = status_slot (URI (Status_Subject record)).
Proof.
  cbv zeta. unfold Status_Validate. rewrite bind_unit_Ok, pr_StatusRecord_Validate_Ok, bind_Ok.
  setoid_rewrite bind_Ok. setoid_rewrite reject_Ok. setoid_rewrite bind_Ok.
  setoid_rewrite reject_Ok. setoid_rewrite neq_false.
  setoid_rewrite pr_validateEnvelope_Ok. setoid_rewrite pr_RepositoryOwnerDID_Ok.
  setoid_rewrite pr_StatusRecordKey_Ok. split.
  - intros [Hr (uri & He & owner & (repo & Hrepo & <-) & Ha & key & [Hs ->] & Hk & _)].
    split; [done |]. exists uri, repo. done.
  - intros [Hr (uri & repo & He & Hrepo & Ha & Hk)]. split; [done |].
    destruct Hr as ([Hs _] & _). exists uri. split; [done |].
    exists (Status_AuthorDID value). split; [eauto |]. split; [done |]. eauto.
Qed.

#[local] Transparent RepositoryOwnerDID StatusRecordKey.

Lemma Record_Validate_Ok record :
  Record_Validate record = Ok tt <->
  canonical_ref repositoryCollection (URI (SourceRepository record))
    (CID (SourceRepository record)) /\
  canonical_ref repositoryCollection (URI (TargetRepository record))
    (CID (TargetRepository record)) /\
  (exists f, validateBranch (SourceBranch record) f = Ok tt) /\
  (exists f, validateBranch (TargetBranch record) f = Ok tt) /\
  (URI (SourceRepository record) <> URI (TargetRepository record) \/
   SourceBranch record <> TargetBranch record) /\
  git_object_id (HeadSHA record) /\
  0 < len (Title record) <= maximumTitleLength /\ ValidString (Title record) = true /\
  len (Body record) <= maximumBodyLength /\ ValidString (Body record) = true /\
  ordered_times (CreatedAt record) (UpdatedAt record).
Proof.
  unfold Record_Validate. rewrite !bind_unit_Ok, reject_Ok, bind_unit_Ok, !reject_Ok.
  rewrite !pr_validateStrongRef_Ok, validateGitSHA_Ok, pr_validateTimes_Ok.
  rewrite !orb_false_iff, andb_false_iff, !negb_false_iff, !String.eqb_neq, Z.eqb_neq, !Z.ltb_ge.
  pose proof (len_nonneg (Title record)) as Hn.
  assert (Hf : forall b f, (exists f', validateBranch b f' = Ok tt) <-> validateBranch b f = Ok tt).
  { intros b f. split; [intros [f' Hb] | eauto].
    apply (validateBranch_Ok b f). by apply (validateBranch_Ok b f') in Hb. }
  rewrite (Hf _ "sourceBranch"), (Hf _ "targetBranch"). naive_solver lia.
Qed.

(** A pull request or review is accepted exactly when its content is well
    formed and its envelope is owned by its author under a canonical key; a
    pull request never names the same branch of one repository twice. *)
Theorem PullRequest_and_Review_Validate_iff (value : PullRequest) (review : Review) :
  (PullRequest_Validate value = Ok tt <->
   Record_Validate (PR_Record value) = Ok tt /\
   (URI (SourceRepository (PR_Record value)) <> URI (TargetRepository (PR_Record value)) \/
    SourceBranch (PR_Record value) <> TargetBranch (PR_Record value)) /\
   exists uri,
     owned_envelope Collection (PR_URI value) (PR_CID value) (PR_AuthorDID value) uri /\
     canonical_rkey (RecordKey_String (ATURI_RecordKey uri))) /\
  (Review_Validate review = Ok tt <->
   let record := Review_Record review in
   canonical_ref Collection (URI (Review_Subject record)) (CID (Review_Subject record)) /\
   (Review_Verdict record = VerdictComment \/ Review_Verdict record = VerdictApprove \/
    Review_Verdict record = VerdictRequestChanges) /\
   len (Review_Body record) <= maximumBodyLength /\ ValidString (Review_Body record) = true /\
   ordered_times (Review_CreatedAt record) (Review_UpdatedAt record) /\
   exists uri,
     owned_envelope ReviewCollection (Review_URI review) (Review_CID review)
       (Review_AuthorDID review) uri /\
     canonical_rkey (RecordKey_String (ATURI_RecordKey uri))).
Proof.
  unfold PullRequest_Validate, Review_Validate, ReviewRecord_Validate.
  rewrite !bind_unit_Ok, !reject_Ok, !bind_Ok. setoid_rewrite pr_validateEnvelope_Ok.
  setoid_rewrite pr_ValidateRecordKey_Ok. split.
  - rewrite Record_Validate_Ok. naive_solver.
  - cbv zeta. rewrite pr_validateStrongRef_Ok, pr_validateTimes_Ok, !andb_false_iff, orb_false_iff.
    rewrite !neq_false, negb_false_iff, Z.ltb_ge. tauto.
Qed.
End pullrequest.

Lemma validated_git_names_witness :
  git.validateBranch "feature/x" = Ok tt /\ ValidString "feature/x" = true /\
  git.validateRemoteSHA "0123456789abcdef0123456789abcdef01234567" = Ok tt /\
  git.validateMergeSHA "0123456789abcdef0123456789abcdef01234567" 40 = Ok tt.
Proof.
  apply (validated_git_names "feature/x" "sourceBranch"
           "0123456789abcdef0123456789abcdef01234567" "headSHA"); vm_compute; reflexivity.
Defined.
End pullrequest.
