(* ===== verification/PullRequestService.v ===== *)
(** * PullRequestService: projected pull requests, reviews, status changes and
    merges (package [internal/pullrequest], file [service.go]). *)

From S2P Require Import Prelude.
From S2P Require Import GoText.
From S2P Require Import Encoding.
From S2P Require Import Syntax.
From S2P Require Import Git.
From S2P Require Import PullRequest.

Module service.
Import pullrequest.

Definition ErrNotFound : error := New "projected pull request not found".
Definition ErrProjectionChanged : error :=
  New "projected pull request changed during refresh".

Record fetchTarget := mkFetchTarget {
  Fetch_URI : string; Fetch_CID : string; Fetch_RepositoryID : UUID; Fetch_SourceURL : string;
  Fetch_SourceBranch : string; Fetch_HeadSHA : string; Fetch_TargetBranch : string
}.
Record repositoryTargets := mkRepositoryTargets { Source : StrongRef; Target : StrongRef }.
Record statusTarget := mkStatusTarget {
  ST_Subject : StrongRef; ST_TargetRepository : StrongRef; ST_RepositoryID : option UUID;
  ST_StatusCreatedAt : time
}.
Record mergeTarget := mkMergeTarget {
  MT_Subject : StrongRef; MT_SourceRepository : StrongRef; MT_SourceBranch : string;
  MT_HeadSHA : string; MT_TargetRepository : StrongRef; MT_TargetBranch : string;
  MT_Title : string; MT_Body : string; MT_CreatedAt : time; MT_TargetOwnerDID : string;
  MT_RepositoryID : UUID; MT_State : State; MT_StatusCreatedAt : time
}.
(** Go compares these structs with [!=]; two times are compared as instants. *)
#[export] Instance fetchTarget_eq_dec : EqDecision fetchTarget.
Proof. solve_decision. Defined.
#[export] Instance mergeTarget_eq_dec : EqDecision mergeTarget.
Proof. solve_decision. Defined.

Record ProjectedPullRequest := mkProjected {
  Projected_PR : PullRequest; Projected_State : State; Projected_Status : StrongRef;
  MergedCommitSHA : string; ReviewCount : Z; IndexedAt : time
}.
Record Projection := mkProjection {
  PullRequestCount : Z; OpenPullRequestCount : Z;
  PullRequests : option (list ProjectedPullRequest)
}.
Record ProjectedReview := mkProjectedReview {
  Projected_Review : Review; Review_IndexedAt : time
}.
Record Result := mkResult {
  Result_RepositoryID : UUID; HeadRef : string; MergeBase : string; Result_Diff : git.Diff
}.
Record Checkout_ := mkCheckout {
  GitHTTPSURL : string; Checkout_SourceBranch : string; Checkout_HeadSHA : string
}.
Record CreateInput := mkCreateInput {
  SourceRepositoryURI : string; TargetRepositoryURI : string; Input_SourceBranch : string;
  Input_TargetBranch : string; Input_HeadSHA : string; Input_Title : string;
  Input_Body : string
}.
Record ReviewInput := mkReviewInput {
  Review_PullRequestURI : string; Input_Verdict : Verdict; Input_ReviewBody : string
}.
Record StatusInput := mkStatusInput { Status_PullRequestURI : string; Input_State : State }.
Record MergeInput := mkMergeInput {
  Merge_PullRequestURI : string; Strategy : git.MergeStrategy
}.
Record MergeResult := mkMergeResult { Merge_Git : git.MergeResult; Merge_Status : Status }.

(** Package [internal/event]'s [GitRefsUpdated]. *)
Record GitRefsUpdated := mkGitRefsUpdated {
  Event_RepositoryID : UUID; Event_Ref : string; Event_OldSHA : string; Event_NewSHA : string;
  Event_HeadSHA : string; Event_ActorDID : string; Event_PullRequestURI : string;
  Event_PullRequestCID : string; Event_Strategy : string
}.

(** The store, the git service, the authorizer, the event writer, the
    publisher, the clock and [uuid.NewV7]. *)
Inductive effect : Type -> Type :=
| GetFetchTarget (uri : string) : effect (result fetchTarget)
| GetMergeTarget (uri : string) : effect (result mergeTarget)
| store_List (repositoryURI : string) (limit : Z) : effect (result Projection)
| store_Get (uri : string) : effect (result ProjectedPullRequest)
| GetRepositoryTargets (source target : string) : effect (result repositoryTargets)
| ListReviews (uri : string) (limit : Z) : effect (result (option (list ProjectedReview)))
| GetReviewTarget (uri : string) : effect (result StrongRef)
| GetStatusTarget (uri : string) : effect (result statusTarget)
| git_ControlledHead (id : UUID) (destination : string) : effect (result string)
| git_FetchRemote (id : UUID) (request : git.RemoteFetch) : effect (result unit)
| git_MergeBase (id : UUID) (base head : string) : effect (result string)
| git_Diff (id : UUID) (base head : string) : effect (result git.Diff)
| git_Commit (id : UUID) (revision : string) : effect (result git.Commit)
| git_Merge (id : UUID) (request : git.MergeRequest) : effect (result git.MergeResult)
| CanWriteRepository (actorDID : string) (id : UUID) : effect (result bool)
| CanTriageRepository (actorDID : string) (id : UUID) : effect (result bool)
| events_GitRefsUpdated (e : GitRefsUpdated) : effect (result unit)
| CreatePullRequest (did rkey : string) (record : PullRequestRecord) : effect (result PullRequest)
| CreatePullRequestReview (did rkey : string) (record : ReviewRecord) : effect (result Review)
| PutPullRequestStatus (did : string) (record : StatusRecord) : effect (result Status)
| Now : effect time
| NewV7 : effect (result UUID).

(** Whether the authorizer is also a [repositoryTriager]. *)
Record Service := mkService { triager : bool }.

Definition projectionError (operation : string) (err : error) : error :=
  if Is err ErrNotFound then ErrNotFound else Errorf "%s: %w" [Str operation; W err].
Definition wrapf (format : string) (err : error) : error := Errorf format [W err].

Definition nl : string := String (ascii_of_N 10) EmptyString.

Definition mergeTrailers (target : mergeTarget) (strategy : git.MergeStrategy) : string :=
  "Adenosine-Pull-Request: " +:+ URI (MT_Subject target) +:+ nl
  +:+ "Adenosine-Pull-Request-CID: " +:+ CID (MT_Subject target) +:+ nl
  +:+ "Adenosine-Pull-Request-Head: " +:+ MT_HeadSHA target +:+ nl
  +:+ "Adenosine-Merge-Strategy: " +:+ strategy.

Definition mergeMessage (target : mergeTarget) (trailers : string) : string :=
  let message := MT_Title target in
  let message := if MT_Body target != EmptyString
                 then message +:+ nl +:+ nl +:+ MT_Body target else message in
  message +:+ nl +:+ nl +:+ trailers +:+ nl.

Definition mergeEmail (actorDID : string) : string :=
  hex_EncodeToString (firstn 16 (Sum256 (bytes actorDID))) +:+ "@users.noreply.adenosine.local".

Definition recognizedMerge (commit : git.Commit) (target : mergeTarget)
    (strategy : git.MergeStrategy) (trailers : string) : option git.MergeResult :=
  match git.Parents commit with
  | [] => None
  | parent :: others =>
      if negb (HasSuffix (TrimSpace (git.Commit_Message commit)) trailers) then None else
      if (strategy == git.MergeCommit)
         && match others with [second] => second != MT_HeadSHA target | _ => true end
      then None else
      if (strategy == git.MergeSquash) && match others with [] => false | _ => true end
      then None else
      Some (git.mkMergeResult parent (git.SHA commit) (MT_HeadSHA target) EmptyString
              ("refs/heads/" +:+ MT_TargetBranch target) strategy)
  end.

Definition destinationKey (pullRequestURI : string) : string :=
  hex_EncodeToString (Sum256 (bytes pullRequestURI)).

Definition Refresh (pullRequestURI : string) : svc effect Result :=
  let? target := wrapErr (wrapf "load projected pull request fetch target: %w")
                   (call (GetFetchTarget pullRequestURI)) in
  let id := Fetch_RepositoryID target in
  let head := Fetch_HeadSHA target in
  let destination := destinationKey (Fetch_URI target) in
  let headRef := "refs/adenosine/pull/" +:+ destination +:+ "/head" in
  let? priorHead := wrapErr (wrapf "inspect projected pull request head: %w")
                      (call (git_ControlledHead id destination)) in
  let? _ :=
    (if priorHead != head then
       let request := git.mkRemoteFetch (Fetch_SourceURL target) (Fetch_SourceBranch target)
                        head destination priorHead in
       let! fetched := call (git_FetchRemote id request) in
       match fetched with
       | Ok _ => done_ tt
       | Err err =>
           if negb (Is err git.ErrRefConflict)
           then fail (wrapf "fetch projected pull request head: %w" err) else
           let? currentHead :=
             wrapErr (wrapf "inspect concurrently refreshed pull request head: %w")
               (call (git_ControlledHead id destination)) in
           if currentHead != head
           then fail (wrapf "fetch projected pull request head: %w" err) else done_ tt
       end
     else done_ tt) in
  let targetRef := "refs/heads/" +:+ Fetch_TargetBranch target in
  let? mergeBase := wrapErr (wrapf "compute projected pull request merge base: %w")
                      (call (git_MergeBase id targetRef head)) in
  let? diff := wrapErr (wrapf "compute projected pull request diff: %w")
                 (call (git_Diff id mergeBase head)) in
  let? current := wrapErr (wrapf "revalidate projected pull request fetch target: %w")
                    (call (GetFetchTarget pullRequestURI)) in
  if negb (bool_decide (current = target)) then fail ErrProjectionChanged else
  done_ (mkResult id headRef mergeBase diff).

Definition Checkout (pullRequestURI : string) : svc effect Checkout_ :=
  let? target := wrapErr (projectionError "load pull request checkout")
                   (call (GetFetchTarget pullRequestURI)) in
  done_ (mkCheckout (Fetch_SourceURL target) (Fetch_SourceBranch target) (Fetch_HeadSHA target)).

(** ** Refreshing the git state *)

(** The local pull ref holds the declared head: it was read there, or a fetch
    that demanded it succeeded. *)
Definition head_verified (tr : list (event effect)) (target : fetchTarget) : Prop :=
  let id := Fetch_RepositoryID target in
  let destination := destinationKey (Fetch_URI target) in
  Ev (git_ControlledHead id destination) (Ok (Fetch_HeadSHA target)) ∈ tr \/
  exists prior,
    Ev (git_FetchRemote id (git.mkRemoteFetch (Fetch_SourceURL target)
          (Fetch_SourceBranch target) (Fetch_HeadSHA target) destination prior)) (Ok tt) ∈ tr.

(** What a successful refresh established, as events of its history. *)
Definition refreshed (uri : string) (tr : list (event effect)) (r : Result) : Prop :=
  exists target middle,
    tr = Ev (GetFetchTarget uri) (Ok target) :: middle
           ++ [Ev (GetFetchTarget uri) (Ok target)] /\
    head_verified middle target /\
    Result_RepositoryID r = Fetch_RepositoryID target /\
    HeadRef r = "refs/adenosine/pull/" +:+ destinationKey (Fetch_URI target) +:+ "/head" /\
    Ev (git_MergeBase (Fetch_RepositoryID target)
          ("refs/heads/" +:+ Fetch_TargetBranch target) (Fetch_HeadSHA target))
       (Ok (MergeBase r)) ∈ middle /\
    Ev (git_Diff (Fetch_RepositoryID target) (MergeBase r) (Fetch_HeadSHA target))
       (Ok (Result_Diff r)) ∈ middle.

Ltac refresh_tail :=
  split; [done |]; intros [base | ?]; cbn; [| done];
  split; [done |]; intros [diff | ?]; cbn; [| done];
  split; [done |]; intros [current | ?]; cbn; [| done];
  case_bool_decide as Hcur; cbn; [| done];
  intros r [= <-]; subst current.

(** The effects a refresh may use. *)
Definition refresh_effect X (e : effect X) : Prop :=
  match e with
  | GetFetchTarget _ | git_ControlledHead _ _ | git_FetchRemote _ _ | git_MergeBase _ _ _
  | git_Diff _ _ _ => True
  | _ => False
  end.

Lemma Refresh_wp uri :
  wp (fun _ => refresh_effect) (Refresh uri) (fun h r => forall x, r = Ok x -> refreshed uri h x) [].
Proof.
  unfold Refresh. cbn. split; [done |]. intros [target | e]; cbn; [| done].
  split; [done |]. intros [prior | e]; cbn; [| done].
  destruct (String.eqb_spec prior (Fetch_HeadSHA target)) as [-> | Hne]; cbn [negb].
  - cbn. refresh_tail. exists target. eexists [_; _; _]. unfold head_verified.
    split_and!; try done; try set_solver.
  - cbn. split; [done |]. intros [[] | e]; cbn.
    + refresh_tail. exists target. eexists [_; _; _; _]. unfold head_verified.
      split_and!; try done; try set_solver.
    + destruct (Is e git.ErrRefConflict); cbn; [| done].
      split; [done |]. intros [currentHead | e']; cbn; [| done].
      destruct (String.eqb_spec currentHead (Fetch_HeadSHA target)) as [-> | Hne']; cbn; [| done].
      refresh_tail. exists target. eexists [_; _; _; _; _]. unfold head_verified.
      split_and!; try done; try set_solver.
Qed.

Lemma destinationKey_controlled uri :
  git.controlledPullRef (destinationKey uri)
  = Ok ("refs/adenosine/pull/" +:+ destinationKey uri +:+ "/head").
Proof.
  pose proof (hex_digest uri) as [Hl Hb]%match_class_n_true.
  apply git.controlledPullRef_ascii; unfold destinationKey.
  - unfold len. rewrite Hl. lia.
  - eapply Forall_impl; [apply lower_hex_bytes, Hb |]. cbn. lia.
Qed.

Section service.
Context `{Syntax, GoUnicode, UUIDs}.

Definition List (repositoryURI : string) : svc effect Projection :=
  let? _ := lift (RepositoryOwnerDID repositoryURI) in
  let? projection := wrapErr (projectionError "list projected pull requests")
                       (call (store_List repositoryURI 100)) in
  done_ (match PullRequests projection with
         | None => mkProjection (PullRequestCount projection)
                     (OpenPullRequestCount projection) (Some [])
         | Some _ => projection
         end).

Definition Get (pullRequestURI : string) : svc effect ProjectedPullRequest :=
  let? _ := lift (validateATURI pullRequestURI Collection "pull_request_uri") in
  wrapErr (projectionError "get projected pull request") (call (store_Get pullRequestURI)).

Definition newKey (format : string) : svc effect string :=
  let! id := call NewV7 in
  lift (mapErr (wrapf format) (RandomRecordKey id)).

Definition Create (authorDID : string) (input : CreateInput) : svc effect PullRequest :=
  let? _ := lift (RepositoryOwnerDID (SourceRepositoryURI input)) in
  let? _ := lift (RepositoryOwnerDID (TargetRepositoryURI input)) in
  let? targets := wrapErr (projectionError "get pull request repository targets")
                    (call (GetRepositoryTargets (SourceRepositoryURI input)
                             (TargetRepositoryURI input))) in
  let! now := call Now in
  let now := UTC now in
  let record := mkRecord (Source targets) (Target targets) (Input_SourceBranch input)
                  (Input_TargetBranch input) (Input_HeadSHA input) (Input_Title input)
                  (Input_Body input) now now in
  let? _ := lift (Record_Validate record) in
  let? rkey := newKey "create pull request record key: %w" in
  call (CreatePullRequest authorDID rkey record).

Definition Reviews (pullRequestURI : string) : svc effect (list ProjectedReview) :=
  let? _ := lift (validateATURI pullRequestURI Collection "pull_request_uri") in
  let? _ := wrapErr (projectionError "get pull request review target")
              (call (GetReviewTarget pullRequestURI)) in
  let? values := wrapErr (projectionError "list projected pull request reviews")
                   (call (ListReviews pullRequestURI 100)) in
  done_ (default [] values).

Definition CreateReview (authorDID : string) (input : ReviewInput) : svc effect Review :=
  let? _ := lift (validateATURI (Review_PullRequestURI input) Collection "pull_request_uri") in
  let? subject := wrapErr (projectionError "get pull request review target")
                    (call (GetReviewTarget (Review_PullRequestURI input))) in
  let! now := call Now in
  let now := UTC now in
  let record := mkReviewRecord subject (Input_Verdict input) (Input_ReviewBody input) now now in
  let? _ := lift (ReviewRecord_Validate record) in
  let? rkey := newKey "create pull request review record key: %w" in
  call (CreatePullRequestReview authorDID rkey record).

Definition PutStatus (service : Service) (authorDID : string) (input : StatusInput)
    : svc effect Status :=
  let denied := AuthorizationError
                  (Some (New "status actor lacks repository triage permission")) in
  let? _ := lift (validateATURI (Status_PullRequestURI input) Collection "pull_request_uri") in
  if (Input_State input != StateOpen) && (Input_State input != StateClosed)
  then fail (ValidationError "state" "must be open or closed") else
  let? target := wrapErr (projectionError "get pull request status target")
                   (call (GetStatusTarget (Status_PullRequestURI input))) in
  let? ownerDID := lift (RepositoryOwnerDID (URI (ST_TargetRepository target))) in
  let? _ :=
    (if authorDID != ownerDID then
       if negb (triager service) then fail denied else
       match ST_RepositoryID target with
       | None => fail denied
       | Some id =>
           let? allowed := wrapErr (wrapf "authorize pull request status: %w")
                             (call (CanTriageRepository authorDID id)) in
           if negb allowed then fail denied else done_ tt
       end
     else done_ tt) in
  let! now := call Now in
  let now := UTC now in
  let createdAt := if IsZero (ST_StatusCreatedAt target) then now else ST_StatusCreatedAt target in
  call (PutPullRequestStatus ownerDID
          (mkStatusRecord (ST_Subject target) (ST_TargetRepository target) (Input_State input)
             EmptyString createdAt now)).

Definition Merge (actorDID : string) (input : MergeInput) : svc effect MergeResult :=
  let uri := Merge_PullRequestURI input in
  let? _ := lift (validateATURI uri Collection "pull_request_uri") in
  if (Strategy input != git.MergeCommit) && (Strategy input != git.MergeSquash)
  then fail (ValidationError "strategy" "must be merge-commit or squash") else
  let? target := wrapErr (projectionError "get pull request merge target")
                   (call (GetMergeTarget uri)) in
  if MT_State target != StateOpen
  then fail (ConflictError (Some (Errorf "pull request state is %q" [Str (MT_State target)]))) else
  let id := MT_RepositoryID target in
  let? allowed := wrapErr (wrapf "authorize pull request merge: %w")
                    (call (CanWriteRepository actorDID id)) in
  if negb allowed then fail ErrPermissionDenied else
  let? _ := Refresh uri in
  let? current := wrapErr (projectionError "revalidate pull request merge target")
                    (call (GetMergeTarget uri)) in
  if negb (bool_decide (current = target)) || (MT_State current != StateOpen)
  then fail (ConflictError (Some ErrProjectionChanged)) else
  let targetRef := "refs/heads/" +:+ MT_TargetBranch target in
  let? commit := wrapErr (wrapf "read pull request merge target ref: %w")
                   (call (git_Commit id targetRef)) in
  let trailers := mergeTrailers target (Strategy input) in
  let? gitResult :=
    match recognizedMerge commit target (Strategy input) trailers with
    | Some reused => done_ reused
    | None =>
        let! now := call Now in
        let identity := git.mkMergeIdentity actorDID (mergeEmail actorDID) (UTC now) 0 in
        let request := git.mkMergeRequest (MT_TargetBranch target) (git.SHA commit)
                         (MT_HeadSHA target) (Strategy input) (mergeMessage target trailers)
                         identity identity in
        wrapErr (fun err =>
            if Is err git.ErrMergeConflict || Is err git.ErrMergeRefConflict
            then ConflictError (Some err)
            else wrapf "merge pull request Git ref: %w" err)
          (call (git_Merge id request))
    end in
  let? _ := wrapErr (wrapf "record pull request merge event: %w")
              (call (events_GitRefsUpdated
                 (mkGitRefsUpdated id (git.TargetRef gitResult) (git.OldSHA gitResult)
                    (git.NewSHA gitResult) (MT_HeadSHA target) actorDID
                    (URI (MT_Subject target)) (CID (MT_Subject target)) (Strategy input)))) in
  let! now := call Now in
  let now := UTC now in
  let createdAt := if IsZero (MT_StatusCreatedAt target) then now else MT_StatusCreatedAt target in
  let? status := call (PutPullRequestStatus (MT_TargetOwnerDID target)
                         (mkStatusRecord (MT_Subject target) (MT_TargetRepository target)
                            StateMerged (git.NewSHA gitResult) createdAt now)) in
  done_ (mkMergeResult gitResult status).
End service.

(** A refresh that succeeds read the same projection before and after its
    git work, verified that the controlled pull ref holds the declared head, and
    returns the merge base and diff computed for that head. *)
Theorem Refresh_verified (uri : string) :
  ensures (fun tr r => forall x, r = Ok x ->
             refreshed uri tr x /\
             exists key, git.controlledPullRef key = Ok (HeadRef x)) (Refresh uri).
Proof.
  eapply wp_ensures, wp_mono, Refresh_wp. intros h r Hr x ->.
  destruct (Hr x eq_refl) as (target & middle & ? & ? & ? & Href & ? & ?).
  split; [by exists target, middle |].
  exists (destinationKey (Fetch_URI target)). rewrite Href. apply destinationKey_controlled.
Qed.

(** ** Merging *)

Section merge.
Context `{Syntax}.
Variables (actorDID : string) (input : MergeInput).

(** The projection the merge acts on: read open, its repository writable for
    the actor, then refreshed, and read again unchanged. *)
Definition merge_authorised (h : list (event effect)) (target : mergeTarget) : Prop :=
  let uri := Merge_PullRequestURI input in
  exists before during after,
    h = before ++ Ev (CanWriteRepository actorDID (MT_RepositoryID target)) (Ok true)
        :: during ++ Ev (GetMergeTarget uri) (Ok target) :: after /\
    Ev (GetMergeTarget uri) (Ok target) ∈ before /\
    (exists r, refreshed uri during r) /\ MT_State target = StateOpen.

(** The commit the target branch holds, as the actor's merge saw it. *)
Definition merge_base_commit (h : list (event effect)) (target : mergeTarget)
    (commit : git.Commit) : Prop :=
  Ev (git_Commit (MT_RepositoryID target) ("refs/heads/" +:+ MT_TargetBranch target))
     (Ok commit) ∈ h.

(** The ref update: performed by git, or found already performed. *)
Definition merge_performed (h : list (event effect)) (target : mergeTarget)
    (r : git.MergeResult) : Prop :=
  (exists request, git.HeadSHA request = MT_HeadSHA target /\
     Ev (git_Merge (MT_RepositoryID target) request) (Ok r) ∈ h) \/
  (exists commit, merge_base_commit h target commit /\
     recognizedMerge commit target (Strategy input) (mergeTrailers target (Strategy input))
     = Some r).

Definition merge_event (target : mergeTarget) (r : git.MergeResult) : GitRefsUpdated :=
  mkGitRefsUpdated (MT_RepositoryID target) (git.TargetRef r) (git.OldSHA r) (git.NewSHA r)
    (MT_HeadSHA target) actorDID (URI (MT_Subject target)) (CID (MT_Subject target))
    (Strategy input).

Definition merge_guard (h : list (event effect)) X (e : effect X) : Prop :=
  match e with
  | git_Merge id request =>
      exists target commit,
        merge_authorised h target /\ merge_base_commit h target commit /\
        id = MT_RepositoryID target /\
        recognizedMerge commit target (Strategy input) (mergeTrailers target (Strategy input))
        = None /\
        git.TargetBranch request = MT_TargetBranch target /\
        git.ExpectedTargetSHA request = git.SHA commit /\
        git.HeadSHA request = MT_HeadSHA target /\ git.Strategy request = Strategy input /\
        git.Message request = mergeMessage target (mergeTrailers target (Strategy input))
  | events_GitRefsUpdated ev =>
      exists target r, merge_authorised h target /\ merge_performed h target r /\
        ev = merge_event target r
  | PutPullRequestStatus owner record =>
      exists target r, merge_authorised h target /\ merge_performed h target r /\
        Ev (events_GitRefsUpdated (merge_event target r)) (Ok tt) ∈ h /\
        owner = MT_TargetOwnerDID target /\ Status_Subject record = MT_Subject target /\
        Status_State record = StateMerged /\ MergeCommitSHA record = git.NewSHA r
  | CreatePullRequest _ _ _ | CreatePullRequestReview _ _ _ => False
  | _ => True
  end.

Lemma merge_authorised_app h t target :
  merge_authorised h target -> merge_authorised (h ++ t) target.
Proof.
  intros (b & d & a & -> & ? & ? & ?). exists b, d, (a ++ t).
  split_and!; try done. by rewrite <- !app_assoc, <- !app_comm_cons, <- !app_assoc.
Qed.

Lemma Refresh_permitted h :
  wp merge_guard (Refresh (Merge_PullRequestURI input))
    (fun h' r => exists t, h' = h ++ t /\
       forall x, r = Ok x -> refreshed (Merge_PullRequestURI input) t x) h.
Proof. eapply wp_embed, Refresh_wp. by intros h' X []. Qed.

#[local] Opaque Refresh.

(** What follows the compare-and-swap: the event, then the merged status. *)
Lemma merge_recorded h target r :
  merge_authorised h target -> merge_performed h target r ->
  wp merge_guard
    (let? _ := wrapErr (wrapf "record pull request merge event: %w")
                 (call (events_GitRefsUpdated (merge_event target r))) in
     let! now := call Now in
     let createdAt := if IsZero (MT_StatusCreatedAt target) then UTC now
                      else MT_StatusCreatedAt target in
     let? status := call (PutPullRequestStatus (MT_TargetOwnerDID target)
                            (mkStatusRecord (MT_Subject target) (MT_TargetRepository target)
                               StateMerged (git.NewSHA r) createdAt (UTC now))) in
     done_ (mkMergeResult r status))
    (fun h' x => forall m, x = Ok m -> Merge_Git m = r /\
       exists record, Ev (PutPullRequestStatus (MT_TargetOwnerDID target) record)
                         (Ok (Merge_Status m)) ∈ h' /\
         Ev (events_GitRefsUpdated (merge_event target r)) (Ok tt) ∈ h' /\
         MergeCommitSHA record = git.NewSHA r) h.
Proof.
  intros Ha Hp. cbn. split; [by exists target, r |].
  intros [[] | e]; cbn; [| done]. split; [done |]. intros now. split.
  - exists target, r. split_and!; try done; try set_solver.
    + by do 2 apply merge_authorised_app.
    + destruct Hp as [(request & ? & ?) | (commit & ? & ?)];
        [left; exists request | right; exists commit];
        unfold merge_base_commit in *; set_solver.
  - intros [status | e]; cbn; [| done]. intros m [= <-]. split; [done |].
    eexists. split; [apply elem_of_app; right; by apply list_elem_of_singleton |].
    split; [set_solver | done].
Qed.

(** A merge that succeeds: the commit it reports is the one git installed (or
    had installed before), the one the event records and the one the published
    status names. *)
Definition merged (h : list (event effect)) (m : MergeResult) : Prop :=
  exists target record,
    merge_authorised h target /\ merge_performed h target (Merge_Git m) /\
    Ev (events_GitRefsUpdated (merge_event target (Merge_Git m))) (Ok tt) ∈ h /\
    Ev (PutPullRequestStatus (MT_TargetOwnerDID target) record) (Ok (Merge_Status m)) ∈ h /\
    MergeCommitSHA record = git.NewSHA (Merge_Git m).

Lemma merge_performed_app h t target r :
  merge_performed h target r -> merge_performed (h ++ t) target r.
Proof.
  intros [(request & ? & ?) | (commit & ? & ?)];
    [left; exists request | right; exists commit]; unfold merge_base_commit in *; set_solver.
Qed.

Lemma merge_recorded_merged h target r :
  merge_authorised h target -> merge_performed h target r ->
  wp merge_guard
    (let? _ := wrapErr (wrapf "record pull request merge event: %w")
                 (call (events_GitRefsUpdated (merge_event target r))) in
     let! now := call Now in
     let createdAt := if IsZero (MT_StatusCreatedAt target) then UTC now
                      else MT_StatusCreatedAt target in
     let? status := call (PutPullRequestStatus (MT_TargetOwnerDID target)
                            (mkStatusRecord (MT_Subject target) (MT_TargetRepository target)
                               StateMerged (git.NewSHA r) createdAt (UTC now))) in
     done_ (mkMergeResult r status))
    (fun h' x => forall m, x = Ok m -> merged h' m) h.
Proof.
  intros Ha Hp. eapply wp_mono, wp_history, merge_recorded; [| done ..]. cbv beta.
  intros h' x [Hm [t ->]] m ->. destruct (Hm m eq_refl) as (<- & record & ? & ? & ?).
  exists target, record. split_and!; auto using merge_authorised_app, merge_performed_app.
Qed.

Lemma Merge_wp :
  wp merge_guard (Merge actorDID input) (fun h x => forall m, x = Ok m -> merged h m) [].
Proof.
  unfold Merge. destruct (validateATURI _ _ _); cbn; [| done].
  destruct (_ && _); [done |]. cbn. split; [done |]. intros [target | e]; cbn; [| done].
  destruct (String.eqb_spec (MT_State target) StateOpen) as [Hopen | _]; cbn; [| done].
  split; [done |]. intros [[] | e]; cbn; try done.
  apply wp_svc_bind. eapply wp_mono, Refresh_permitted. cbv beta.
  intros h [x | e] (t & -> & Hr); [| done]. specialize (Hr x eq_refl).
  cbn. split; [done |]. intros [current | e]; cbn; [| done].
  case_bool_decide as Hcur; cbn; [| done]. subst current. rewrite Hopen. cbn.
  match goal with |- wp _ _ _ ?H => set (h1 := H) end.
  assert (Ha : forall u, merge_authorised (h1 ++ u) target).
  { intros u. apply merge_authorised_app. unfold merge_authorised, h1. cbn.
    exists [Ev (GetMergeTarget (Merge_PullRequestURI input)) (Ok target)], t, [].
    split_and!; [done | set_solver | eauto | done]. }
  assert (Ha0 := Ha []). rewrite app_nil_r in Ha0. clearbody h1.
  split; [done |]. intros [commit | e]; cbn; [| done].
  assert (Hc : forall u, merge_base_commit ((h1 ++ [Ev (git_Commit (MT_RepositoryID target)
    ("refs/heads/" +:+ MT_TargetBranch target)) (Ok commit)]) ++ u) target commit)
    by (unfold merge_base_commit; set_solver).
  destruct (recognizedMerge _ _ _ _) as [r |] eqn:Hrec; cbn [prog_bind].
  - apply merge_recorded_merged; [apply Ha |]. right. exists commit. split; [| done].
    specialize (Hc []). by rewrite app_nil_r in Hc.
  - cbn. split; [done |]. intros now. split.
    { exists target, commit. split_and!; try done. rewrite <- app_assoc. apply Ha. }
    intros [r | e]; [| done]. cbn [mapErr]. apply merge_recorded_merged.
    + rewrite <- !app_assoc. apply Ha.
    + left. eexists. split; [| apply elem_of_app; right; by apply list_elem_of_singleton]. done.
Qed.
End merge.

(** C38: everything a merge does is authorised by what it read: git moves the
    branch only by compare-and-swap on the commit just read, for a projection
    that was open, writable for the actor and unchanged across the refresh; the
    event is recorded after the move, the merged status published after the
    event, and a successful result names the commit all three agree on. *)
Theorem Merge_authorised_and_recorded `{Syntax} (actorDID : string) (input : MergeInput) :
  guarded (merge_guard actorDID input) (Merge actorDID input) /\
  ensures (fun h x => forall m, x = Ok m -> merged actorDID input h m) (Merge actorDID input).
Proof.
  split; [eapply wp_guarded, Merge_wp | eapply wp_ensures, Merge_wp].
Qed.

(** ** Recognising an earlier merge *)

Lemma append_assoc (s t u : string) : (s +:+ t) +:+ u = s +:+ t +:+ u.
Proof. induction s as [| c s IH]; [done |]. by rewrite !append_cons, IH. Qed.

Definition supported (strategy : git.MergeStrategy) : Prop :=
  strategy = git.MergeCommit \/ strategy = git.MergeSquash.

(** The trailers start and end with visible characters, so trimming the commit
    message leaves them whole. *)
Lemma trailers_shape target strategy :
  supported strategy ->
  exists mid d, mergeTrailers target strategy = String "A" (mid +:+ String d EmptyString) /\
    byte_of d < 0x80 /\ IsSpace (byte_of d) = false.
Proof.
  intros Hs.
  assert (exists front d, strategy = front +:+ String d EmptyString /\
    byte_of d < 0x80 /\ IsSpace (byte_of d) = false) as (front & d & -> & Hd).
  { destruct Hs as [-> | ->]; [exists "merge-commi", "t"%char | exists "squas", "h"%char];
      by vm_compute. }
  unfold mergeTrailers. rewrite <- !append_assoc.
  match goal with |- context [?P +:+ String d EmptyString = _] => exists (drop_chars 1 P), d end.
  split; [reflexivity | exact Hd].
Qed.

(** A retried merge recognises the commit it made itself: the commit whose
    message is the one the merge wrote, with the parents its strategy gives,
    yields the same ref update instead of a second merge. *)
Theorem recognizedMerge_own (commit : git.Commit) (target : mergeTarget)
    (strategy : git.MergeStrategy) (old : string)
    (Hs : supported strategy)
    (Hm : git.Commit_Message commit = mergeMessage target (mergeTrailers target strategy))
    (Hp : git.Parents commit =
            if strategy == git.MergeCommit then [old; MT_HeadSHA target] else [old]) :
  recognizedMerge commit target strategy (mergeTrailers target strategy)
  = Some (git.mkMergeResult old (git.SHA commit) (MT_HeadSHA target) EmptyString
            ("refs/heads/" +:+ MT_TargetBranch target) strategy).
Proof.
  assert (Hsuffix : HasSuffix (TrimSpace (git.Commit_Message commit))
                      (mergeTrailers target strategy) = true).
  { rewrite Hm. unfold mergeMessage.
    destruct (trailers_shape target strategy Hs) as (mid & d & -> & Hd & Hsp).
    rewrite !append_cons, append_assoc, append_cons, append_nil_l.
    rewrite <- !(append_assoc _ nl). apply TrimSpace_HasSuffix; try done.
    by repeat constructor. }
  unfold recognizedMerge. rewrite Hp, Hsuffix. destruct Hs as [-> | ->].
  - change (git.MergeCommit == git.MergeCommit) with true.
    change (git.MergeCommit == git.MergeSquash) with false. cbn. by rewrite String.eqb_refl.
  - reflexivity.
Qed.

(** ** What the other operations publish *)

Section publish.
Context `{Syntax, GoUnicode, UUIDs}.

(** The actor is the owner of the target repository, or was just admitted by
    the triager of that repository. *)
Definition may_set_status (service : Service) (actor owner : string) (target : statusTarget)
    (h : list (event effect)) : Prop :=
  actor = owner \/
  exists id, triager service = true /\ ST_RepositoryID target = Some id /\
             Ev (CanTriageRepository actor id) (Ok true) ∈ h.

Definition put_status_guard (service : Service) (actor : string) (input : StatusInput)
    (h : list (event effect)) X (e : effect X) : Prop :=
  match e with
  | PutPullRequestStatus owner record =>
      exists target now,
        Ev (GetStatusTarget (Status_PullRequestURI input)) (Ok target) ∈ h /\ Ev Now now ∈ h /\
        RepositoryOwnerDID (URI (ST_TargetRepository target)) = Ok owner /\
        may_set_status service actor owner target h /\
        (Input_State input = StateOpen \/ Input_State input = StateClosed) /\
        record = mkStatusRecord (ST_Subject target) (ST_TargetRepository target)
                   (Input_State input) EmptyString
                   (if IsZero (ST_StatusCreatedAt target) then now
                    else ST_StatusCreatedAt target) now
  | CreatePullRequest _ _ _ | CreatePullRequestReview _ _ _ | git_Merge _ _
  | git_FetchRemote _ _ | events_GitRefsUpdated _ => False
  | _ => True
  end.

(** A status set through the API is open or closed, never merged, and is
    published under the target repository's owner for that owner or for an
    actor with triage permission there. *)
Theorem PutStatus_never_merges (service : Service) (actor : string) (input : StatusInput) :
  guarded (put_status_guard service actor input) (PutStatus service actor input).
Proof.
  apply (wp_guarded _ _ (fun _ _ => True)). unfold PutStatus.
  destruct (validateATURI _ _ _); cbn; [| done].
  destruct (_ && _) eqn:Hst; [done |]. apply andb_false_iff in Hst. rewrite !neq_false in Hst.
  cbn. split; [done |]. intros [target | e]; cbn; [| done].
  destruct (RepositoryOwnerDID _) as [owner | e] eqn:Howner; cbn; [| done].
  destruct (String.eqb_spec actor owner) as [-> | Hne]; cbn.
  - split; [done |]. intros now. split; [| done]. exists target, now.
    unfold may_set_status. split_and!; try done; try set_solver.
  - destruct (triager service) eqn:Htr; [cbn | done].
    destruct (ST_RepositoryID target) as [id |] eqn:Hid; [cbn | done].
    split; [done |]. intros [[] | e]; cbn; try done. split; [done |]. intros now.
    split; [| done]. exists target, now. split_and!; try done; try set_solver.
    right. exists id. split_and!; try done. set_solver.
Qed.

Lemma random_key_valid `{!SyntaxLaws, !UUIDLaws} id key :
  RandomRecordKey id = Ok key ->
  ValidateRecordKey key = Ok tt /\ match_class_n is_lower_hex 32 key = true.
Proof.
  unfold RandomRecordKey. destruct id as [id | e]; [cbn | done]. intros [= <-].
  pose proof (uuid_hex id) as Hhex. split; [| done].
  apply pr_ValidateRecordKey_Ok, ParseRecordKey_grammar.
  eapply rkey_grammar_class, Hhex; [apply hex_rkey_char | lia].
Qed.

(** What may be created: validated content on the refs the store answered for
    the requested URIs, dated by the clock, under an acceptable fresh key. *)
Definition create_guard (actor sourceURI targetURI subjectURI : string)
    (h : list (event effect)) X (e : effect X) : Prop :=
  let fresh rkey := ValidateRecordKey rkey = Ok tt /\ match_class_n is_lower_hex 32 rkey = true in
  match e with
  | CreatePullRequest did rkey record =>
      did = actor /\ fresh rkey /\ Record_Validate record = Ok tt /\
      Ev (GetRepositoryTargets sourceURI targetURI)
         (Ok (mkRepositoryTargets (SourceRepository record) (TargetRepository record))) ∈ h /\
      Ev Now (CreatedAt record) ∈ h /\ UpdatedAt record = CreatedAt record
  | CreatePullRequestReview did rkey record =>
      did = actor /\ fresh rkey /\ ReviewRecord_Validate record = Ok tt /\
      Ev (GetReviewTarget subjectURI) (Ok (Review_Subject record)) ∈ h /\
      Ev Now (Review_CreatedAt record) ∈ h /\
      Review_UpdatedAt record = Review_CreatedAt record
  | PutPullRequestStatus _ _ | git_Merge _ _ | git_FetchRemote _ _
  | events_GitRefsUpdated _ => False
  | _ => True
  end.

#[local] Opaque RandomRecordKey.

(** Creating a pull request or a review publishes only records the
    validators accept, for the acting author, under a key the validators
    accept, and changes no git state. *)
Theorem Create_and_CreateReview_publish_valid `{!SyntaxLaws, !UUIDLaws} (actor : string)
    (input : CreateInput) (review : ReviewInput) :
  let G := create_guard actor (SourceRepositoryURI input) (TargetRepositoryURI input)
             (Review_PullRequestURI review) in
  guarded G (Create actor input) /\ guarded G (CreateReview actor review).
Proof.
  cbv zeta. split; apply (wp_guarded _ _ (fun _ _ => True)).
  - unfold Create. destruct (RepositoryOwnerDID (SourceRepositoryURI input)); cbn; [| done].
    destruct (RepositoryOwnerDID _); cbn; [| done].
    split; [done |]. intros [[source target] | e]; cbn; [| done].
    split; [done |]. intros now. destruct (Record_Validate _) as [[] |] eqn:Hv; cbn; [| done].
    split; [done |]. intros id. destruct (RandomRecordKey id) as [key | e] eqn:Hk; cbn; [| done].
    apply random_key_valid in Hk as [? ?]. split; [| done]. split_and!; try done; set_solver.
  - unfold CreateReview. destruct (validateATURI _ _ _); cbn; [| done].
    split; [done |]. intros [subject | e]; cbn; [| done].
    split; [done |]. intros now.
    destruct (ReviewRecord_Validate _) as [[] |] eqn:Hv; cbn; [| done].
    split; [done |]. intros id. destruct (RandomRecordKey id) as [key | e] eqn:Hk; cbn; [| done].
    apply random_key_valid in Hk as [? ?]. split; [| done]. split_and!; try done; set_solver.
Qed.
End publish.

(** ** Concrete runs *)

Module service_examples.
Import Demo.

Definition cid : string := "bafyreigh2akiscaildc".
Definition sha (n : Z) : string := Demo.hex 20 n.
Definition repo : StrongRef := mkStrongRef "at://did:plc:owner/dev.adenosine.repo/r" cid.
Definition subject : StrongRef := mkStrongRef "at://did:plc:c/dev.adenosine.pullRequest/p" cid.
Definition fetch : fetchTarget :=
  mkFetchTarget (URI subject) cid 7 "https://example.test/r.git" "feature" (sha 5) "main".
Definition target : mergeTarget :=
  mkMergeTarget subject repo "feature" (sha 5) repo "main" "Title" "Body" 900 "did:plc:owner" 7
    StateOpen zeroTime.
Definition tip : git.Commit :=
  git.mkCommit (sha 3) [sha 2] (git.mkCommitIdentity "n" "e" 1) (git.mkCommitIdentity "n" "e" 1)
    "tip" "tip".

Definition own : git.Commit :=
  git.mkCommit (sha 9) [sha 3; sha 5] (git.Commit_Author tip) (git.Commit_Committer tip)
    "Title" (mergeMessage target (mergeTrailers target git.MergeCommit)).

(** A world in which [main] is at commit 3 until it is merged into commit 9;
    the state counts the merges git performed. *)
Definition handler X (e : effect X) (n : Z) : X * Z :=
  match e in effect X return X * Z with
  | GetFetchTarget _ => (Ok fetch, n)
  | GetMergeTarget _ => (Ok target, n)
  | store_List _ _ => (Ok (mkProjection 0 0 None), n)
  | store_Get _ => (Err ErrNotFound, n)
  | GetRepositoryTargets _ _ => (Ok (mkRepositoryTargets repo repo), n)
  | ListReviews _ _ => (Ok None, n)
  | GetReviewTarget _ => (Ok subject, n)
  | GetStatusTarget _ => (Ok (mkStatusTarget subject repo None zeroTime), n)
  | git_ControlledHead _ _ => (Ok EmptyString, n)
  | git_FetchRemote _ _ => (Ok tt, n)
  | git_MergeBase _ _ _ => (Ok (sha 2), n)
  | git_Diff _ base head => (Ok (git.mkDiff base head [] EmptyString), n)
  | git_Commit _ _ =>
      (Ok (if n =? 0 then tip
           else own), n)
  | git_Merge _ request =>
      (Ok (git.mkMergeResult (git.ExpectedTargetSHA request) (sha 9) (git.HeadSHA request)
             (sha 8) "refs/heads/main" (git.Strategy request)), n + 1)
  | CanWriteRepository did _ => (Ok (did == "did:plc:writer"), n)
  | CanTriageRepository _ _ => (Ok false, n)
  | events_GitRefsUpdated _ => (Ok tt, n)
  | CreatePullRequest did rkey record => (Ok (mkPullRequest rkey cid did record), n)
  | CreatePullRequestReview did rkey record => (Ok (mkReview rkey cid did record), n)
  | PutPullRequestStatus did record => (Ok (mkStatus EmptyString cid did record), n)
  | Now => (1000, n)
  | NewV7 => (Ok 42, n)
  end.

Definition merge (n : Z) : result MergeResult * Z :=
  fst (run handler (Merge "did:plc:writer" (mkMergeInput (URI subject) git.MergeCommit)) n).

(** The first merge moves the branch; a retry finds it moved and does not move
    it again, and both report commit 9 over commit 3. *)
Example merge_and_retry :
  exists m m', merge 0 = (Ok m, 1) /\ merge 1 = (Ok m', 1) /\
    git.NewSHA (Merge_Git m) = sha 9 /\ git.NewSHA (Merge_Git m') = sha 9 /\
    git.OldSHA (Merge_Git m') = sha 3.
Proof. do 2 eexists. vm_compute. split_and!; reflexivity. Qed.

Lemma recognizedMerge_own_witness :
  recognizedMerge own target git.MergeCommit (mergeTrailers target git.MergeCommit)
  = Some (git.mkMergeResult (sha 3) (sha 9) (sha 5) EmptyString "refs/heads/main"
            git.MergeCommit).
Proof.
  apply (recognizedMerge_own own target git.MergeCommit (sha 3)).
  - left. reflexivity.
  - reflexivity.
  - reflexivity.
Defined.

Lemma Create_and_CreateReview_publish_valid_witness :
  let input := mkCreateInput (URI repo) (URI repo) "feature" "main" (sha 5) "t" "b" in
  let review := mkReviewInput (URI subject) VerdictApprove "fine" in
  let G := create_guard "did:plc:c" (URI repo) (URI repo) (URI subject) in
  guarded G (Create "did:plc:c" input) /\ guarded G (CreateReview "did:plc:c" review).
Proof.
  intros input review G.
  exact (Create_and_CreateReview_publish_valid "did:plc:c" input review).
Defined.
End service_examples.
End service.
