(* ===== verification/Event.v ===== *)
(** * Event: the transactional outbox and its writer (internal/event/writer.go).

    A change of state that others must hear of is a row of [ops.outbox_events];
    the webhook worker takes the rows from there. *)

From S2P Require Import Prelude.
From S2P Require Import GoText.
From S2P Require Import Encoding.
From S2P Require Import Syntax.
From S2P Require Import Json.
From S2P Require Import PullRequestService.

Module event.
Import service.

(** A row of [ops.outbox_events]. *)
Record OutboxEvent := mkOutboxEvent {
  ID : UUID; EventType : string; AggregateType : string; AggregateID : string; Payload : list Z;
  CreatedAt : time; AvailableAt : time; ClaimedAt : option time; ClaimedBy : option string;
  CompletedAt : option time; Attempts : Z; LastErrorCode : option string;
  Traceparent : option string; Tracestate : option string
}.

(** The queries of [outbox.sql] the writer uses, [uuid.NewV7], the clock and the
    context's trace headers. *)
Inductive effect : Type -> Type :=
| CreateOutboxEvent (row : OutboxEvent) : effect (result OutboxEvent)
| CreateOutboxEventIfAbsent (row : OutboxEvent) : effect (result unit)
| CreateRepositoryActivityEvent (subjectURI : string) (row : OutboxEvent) : effect (result unit)
| NewV7 : effect (result UUID)
| Now : effect time
| Inject : effect (string * string).

Definition nullableText (value : string) : option string :=
  if value != EmptyString then Some value else None.
Definition traceContext : prog effect (option string * option string) :=
  let! carrier := call Inject in
  Ret (nullableText (fst carrier), nullableText (snd carrier)).

Definition wrapf (format : string) (err : error) : error := Errorf format [W err].

(** The row an insert makes: unclaimed, never attempted, at once available. *)
Definition newEvent (id : UUID) (eventType aggregateType aggregateID : string) (payload : list Z)
    (now : time) (trace : option string * option string) : OutboxEvent :=
  mkOutboxEvent id eventType aggregateType aggregateID payload now now None None None 0 None
    (fst trace) (snd trace).

(** [^(?:[0-9a-f]{40}|[0-9a-f]{64})$], and not all zeros. *)
Definition eventSHA (value : string) : bool :=
  match_git_sha value && negb (all_chars (is_char "0"%char) value).

(** [uuid.NameSpaceOID]. *)
Definition NameSpaceOID : UUID := 0x6ba7b8129dad11d180b400c04fd430c8.

Section event.
Context `{Syntax, GoUnicode, UUIDs}.

Definition GitPushReceived (repositoryID : UUID) : svc effect unit :=
  let? id := wrapErr (wrapf "generate push event ID: %w") (call NewV7) in
  let payload := json.object [("repository_id", json.string_ (uuid_String repositoryID))] in
  let! now := call Now in
  let! trace := traceContext in
  let? _ := wrapErr (wrapf "create push outbox event: %w")
    (call (CreateOutboxEvent (newEvent id "git.push_received" "repository"
                                (uuid_String repositoryID) payload (UTC now) trace))) in
  done_ tt.

Definition invalid (what : string) : error := New ("create refs-updated event: " +:+ what).

(** The three object ids are tested in the order Go's map iteration gives; which
    of several bad ones is named is not determined. *)
Definition validateGitRefsUpdated (input : GitRefsUpdated) : result unit :=
  reject_if Event_RepositoryID input =? uuid_Nil with invalid "repository ID is required" ;;
  reject_if negb (HasPrefix (Event_Ref input) "refs/heads/")
    || (len (Event_Ref input) =? len "refs/heads/")
    || ContainsAny (Event_Ref input) (of_bytes [32; 9; 13; 10])
    with invalid "target ref must be a branch ref" ;;
  reject_if negb (eventSHA (Event_OldSHA input)) with invalid "old SHA is invalid" ;;
  reject_if negb (eventSHA (Event_NewSHA input)) with invalid "new SHA is invalid" ;;
  reject_if negb (eventSHA (Event_HeadSHA input)) with invalid "head SHA is invalid" ;;
  match ParseDID (Event_ActorDID input) with
  | None => Err (invalid "actor DID is invalid")
  | Some did =>
  reject_if DID_String did != Event_ActorDID input with invalid "actor DID is invalid" ;;
  match ParseATURI (Event_PullRequestURI input) with
  | None => Err (invalid "pull request URI is invalid")
  | Some uri =>
  reject_if (ATURI_String uri != Event_PullRequestURI input)
    || (NSID_String (ATURI_Collection uri) != "dev.adenosine.pullRequest")
    || (RecordKey_String (ATURI_RecordKey uri) == EmptyString)
    with invalid "pull request URI is invalid" ;;
  match AsDID (Authority uri) with
  | None => Err (invalid "pull request URI authority is invalid")
  | Some uriDID =>
  reject_if DID_String uriDID != AuthorityString (Authority uri)
    with invalid "pull request URI authority is invalid" ;;
  match ParseCID (Event_PullRequestCID input) with
  | None => Err (invalid "pull request CID is invalid")
  | Some cid =>
  reject_if CID_String cid != Event_PullRequestCID input with invalid "pull request CID is invalid" ;;
  reject_if (Event_Strategy input != "merge-commit") && (Event_Strategy input != "squash")
    with invalid "strategy is invalid" ;;
  Ok tt
  end end end end.

(** The identifier depends on the pull request's CID and the merge commit only. *)
Definition refsUpdatedID (input : GitRefsUpdated) : UUID :=
  uuid_NewSHA1 NameSpaceOID
    (bytes "git.refs_updated" ++ [0] ++ bytes (Event_PullRequestCID input) ++ [0]
     ++ bytes (Event_NewSHA input)).
Definition refsUpdatedPayload (input : GitRefsUpdated) : list Z :=
  json.object
    [("repository_id", json.string_ (uuid_String (Event_RepositoryID input)));
     ("ref", json.string_ (Event_Ref input)); ("old_sha", json.string_ (Event_OldSHA input));
     ("new_sha", json.string_ (Event_NewSHA input)); ("head_sha", json.string_ (Event_HeadSHA input));
     ("actor_did", json.string_ (Event_ActorDID input));
     ("pull_request_uri", json.string_ (Event_PullRequestURI input));
     ("strategy", json.string_ (Event_Strategy input))].

Definition GitRefsUpdated_ (input : GitRefsUpdated) : svc effect unit :=
  let? _ := lift (validateGitRefsUpdated input) in
  let! now := call Now in
  let! trace := traceContext in
  wrapErr (wrapf "create refs-updated outbox event: %w")
    (call (CreateOutboxEventIfAbsent
             (newEvent (refsUpdatedID input) "git.refs_updated" "repository"
                (uuid_String (Event_RepositoryID input)) (refsUpdatedPayload input) (UTC now) trace))).

(** The payload is what [json.Marshal] makes of the caller's value. *)
Definition RepositoryActivity (eventType subjectURI : string) (payload : result (list Z))
    : svc effect unit :=
  let? id := wrapErr (wrapf "generate repository activity event ID: %w") (call NewV7) in
  let? payload := lift (mapErr (wrapf "encode repository activity event: %w") payload) in
  let! now := call Now in
  let! trace := traceContext in
  wrapErr (wrapf "create repository activity event: %w")
    (call (CreateRepositoryActivityEvent subjectURI
             (newEvent id eventType "repository" EmptyString payload (UTC now) trace))).

Definition RepositoryEvent (repositoryID : UUID) (eventType : string) (payload : result (list Z))
    : svc effect unit :=
  if (repositoryID =? uuid_Nil) || (TrimSpace eventType == EmptyString)
  then fail (New "create repository event: repository ID and event type are required") else
  let? id := wrapErr (wrapf "generate repository event ID: %w") (call NewV7) in
  let? payload := lift (mapErr (wrapf "encode repository event: %w") payload) in
  let! now := call Now in
  let! trace := traceContext in
  wrapErr (wrapf "create repository event: %w")
    (call (CreateOutboxEventIfAbsent
             (newEvent id eventType "repository" (uuid_String repositoryID) payload (UTC now) trace))).
End event.

(** ** The table *)

(** [projected] gives the local repository of a projected record, as the first row
    of the query's [target] does. *)
Record db := mkDb {
  outbox : list OutboxEvent; projected : string -> option UUID;
  fresh : UUID; clock : time; headers : string * string
}.
Definition duplicate_key : error := New "duplicate key value violates unique constraint".
Definition has_id (id : UUID) (row : OutboxEvent) : bool := ID row =? id.
Definition insert (row : OutboxEvent) (s : db) : db :=
  mkDb (outbox s ++ [row]) (projected s) (fresh s) (clock s) (headers s).
Definition with_aggregate (id : string) (row : OutboxEvent) : OutboxEvent :=
  mkOutboxEvent (ID row) (EventType row) (AggregateType row) id (Payload row) (CreatedAt row)
    (AvailableAt row) (ClaimedAt row) (ClaimedBy row) (CompletedAt row) (Attempts row)
    (LastErrorCode row) (Traceparent row) (Tracestate row).

Section Table.
Context `{UUIDs}.

Definition handle X (e : effect X) (s : db) : X * db :=
  match e in effect X return X * db with
  | CreateOutboxEvent row =>
      if existsb (has_id (ID row)) (outbox s) then (Err duplicate_key, s)
      else (Ok row, insert row s)
  | CreateOutboxEventIfAbsent row =>
      if existsb (has_id (ID row)) (outbox s) then (Ok tt, s) else (Ok tt, insert row s)
  | CreateRepositoryActivityEvent subjectURI row =>
      match projected s subjectURI with
      | None => (Ok tt, s)
      | Some id =>
          if existsb (has_id (ID row)) (outbox s) then (Err duplicate_key, s)
          else (Ok tt, insert (with_aggregate (uuid_String id) row) s)
      end
  | NewV7 => (Ok (fresh s), mkDb (outbox s) (projected s) (fresh s + 1) (clock s) (headers s))
  | Now => (clock s, s)
  | Inject => (headers s, s)
  end.

(** ** What the writer records *)

#[local] Arguments exec : simpl never.

Lemma exec_traceContext (s : db) :
  exec handle traceContext s
  = ((nullableText (fst (headers s)), nullableText (snd (headers s))), s).
Proof. done. Qed.

Definition ids_unique (s : db) : Prop := NoDup (map ID (outbox s)).

Lemma has_id_absent id rows : existsb (has_id id) rows = false <-> id ∉ map ID rows.
Proof.
  rewrite existsb_false, Forall_forall. split.
  - intros Hf Hin. apply list_elem_of_fmap in Hin as (row & -> & Hrow).
    specialize (Hf row Hrow). unfold has_id in Hf. by rewrite Z.eqb_refl in Hf.
  - intros Hn row Hrow. unfold has_id. apply Z.eqb_neq. intros <-. apply Hn.
    by apply list_elem_of_fmap_2.
Qed.

Lemma insert_unique row s : ids_unique s -> existsb (has_id (ID row)) (outbox s) = false ->
  ids_unique (insert row s).
Proof.
  unfold ids_unique. cbn. intros Hu Hn%has_id_absent. rewrite map_app. cbn.
  apply NoDup_app. split_and!; [done | set_solver | apply NoDup_singleton].
Qed.

(** A query keeps the rows there are, and adds at most one. *)
Lemma handle_grows X (e : effect X) s : ids_unique s ->
  let s' := snd (handle X e s) in ids_unique s' /\ exists more, outbox s' = outbox s ++ more.
Proof.
  intros Hu. assert (Hid : exists more, outbox s = outbox s ++ more) by (exists []; by rewrite app_nil_r).
  destruct e as [row | row | uri row | | |]; cbn; try (split; done).
  - destruct (existsb _ _) eqn:Hn; cbn; [done |]. split; [by apply insert_unique | by eexists].
  - destruct (existsb _ _) eqn:Hn; cbn; [done |]. split; [by apply insert_unique | by eexists].
  - destruct (projected s uri) as [id |]; cbn; [| done].
    destruct (existsb _ _) eqn:Hn; cbn; [done |]. split; [by apply insert_unique | by eexists].
Qed.

Lemma if_absent_present row s :
  ID row ∈ map ID (outbox (snd (handle _ (CreateOutboxEventIfAbsent row) s))).
Proof.
  cbn. destruct (existsb _ _) eqn:Hn; cbn.
  - apply not_false_iff_true in Hn. rewrite has_id_absent in Hn. by apply dec_stable.
  - rewrite map_app. apply elem_of_snoc.
Qed.

Lemma if_absent_again row s :
  ID row ∈ map ID (outbox s) -> snd (handle _ (CreateOutboxEventIfAbsent row) s) = s.
Proof.
  intros Hin. cbn. destruct (existsb _ _) eqn:Hn; [done |]. by apply has_id_absent in Hn.
Qed.
End Table.

Section Once.
Context `{Syntax, GoUnicode, UUIDs}.
#[local] Arguments exec : simpl never.

Lemma exec_refs_updated (input : GitRefsUpdated) (s : db) :
  validateGitRefsUpdated input = Ok tt ->
  exec handle (GitRefsUpdated_ input) s =
  (Ok tt, snd (handle _ (CreateOutboxEventIfAbsent
     (newEvent (refsUpdatedID input) "git.refs_updated" "repository"
        (uuid_String (Event_RepositoryID input)) (refsUpdatedPayload input) (UTC (clock s))
        (nullableText (fst (headers s)), nullableText (snd (headers s))))) s)).
Proof.
  intros Hv. unfold GitRefsUpdated_. rewrite Hv. unfold exec.
  cbn -[newEvent refsUpdatedID refsUpdatedPayload existsb uuid_String insert].
  destruct (existsb _ _); reflexivity.
Qed.

Lemma refsUpdatedID_eq (x y : GitRefsUpdated) :
  Event_PullRequestCID x = Event_PullRequestCID y -> Event_NewSHA x = Event_NewSHA y ->
  refsUpdatedID x = refsUpdatedID y.
Proof. unfold refsUpdatedID. intros -> ->. reflexivity. Qed.

(** A merged pull request is announced once. The event of a merge is recorded
    under an identifier of its pull request's CID and its merge commit, so that
    announcing the merge again, at any later time, succeeds and records nothing
    more; an input that is not a branch update of a canonical pull request is
    refused and records nothing. *)
Theorem refs_updated_once (input again : GitRefsUpdated) (s later : db) :
  match validateGitRefsUpdated input with
  | Err e => exec handle (GitRefsUpdated_ input) s = (Err e, s)
  | Ok _ =>
      let s1 := snd (exec handle (GitRefsUpdated_ input) s) in
      fst (exec handle (GitRefsUpdated_ input) s) = Ok tt /\
      refsUpdatedID input ∈ map ID (outbox s1) /\
      (validateGitRefsUpdated again = Ok tt ->
       Event_PullRequestCID again = Event_PullRequestCID input ->
       Event_NewSHA again = Event_NewSHA input ->
       (exists more, outbox later = outbox s1 ++ more) ->
       exec handle (GitRefsUpdated_ again) later = (Ok tt, later))
  end.
Proof.
  destruct (validateGitRefsUpdated input) as [[] | e] eqn:Hv.
  2: { unfold GitRefsUpdated_, lift. by rewrite Hv. }
  intros s1. assert (Hin : refsUpdatedID input ∈ map ID (outbox s1)).
  { unfold s1. rewrite (exec_refs_updated input s Hv). cbn [snd].
    match goal with |- context [CreateOutboxEventIfAbsent ?row] => exact (if_absent_present row s) end. }
  split_and!; [by rewrite (exec_refs_updated input s Hv) | done |].
  intros Ha Hc Hs [more Hm]. rewrite (exec_refs_updated again later Ha). f_equal.
  apply if_absent_again. cbn [newEvent ID]. rewrite (refsUpdatedID_eq again input Hc Hs), Hm, map_app.
  apply elem_of_app. by left.
Qed.
End Once.

Module event_examples.
Import Demo.

Definition merged : GitRefsUpdated :=
  mkGitRefsUpdated 7 "refs/heads/main" "0123456789abcdef0123456789abcdef01234567"
    "1123456789abcdef0123456789abcdef01234567" "2123456789abcdef0123456789abcdef01234567"
    "did:plc:alice" "at://did:plc:bob/dev.adenosine.pullRequest/3k" "bafyreipull" "squash".
Definition empty : db := mkDb [] (fun _ => Some 7) 1 50 (EmptyString, EmptyString).

Example merged_valid : validateGitRefsUpdated merged = Ok tt.
Proof. vm_compute. reflexivity. Qed.

Example merged_recorded :
  map (fun row => (EventType row, of_bytes (firstn 59 (Payload row)), Traceparent row))
    (outbox (snd (exec handle (GitRefsUpdated_ merged) empty)))
  = [("git.refs_updated", of_bytes ([123; 34] ++ bytes "repository_id" ++ [34; 58; 34]
        ++ bytes "00000000-0000-0000-0000-000000000007" ++ [34; 44; 34; 114; 101]), None)].
Proof. vm_compute. reflexivity. Qed.
End event_examples.
End event.
