(* ===== verification/Triage.v ===== *)
(** * Triage: labels, milestones and subject metadata
    (package [internal/triage]). *)

From S2P Require Import Prelude.
From S2P Require Import GoText.
From S2P Require Import Encoding.
From S2P Require Import Syntax.

Module triage.

Definition LabelCollection : string := "dev.adenosine.repositoryLabel".
Definition MilestoneCollection : string := "dev.adenosine.repositoryMilestone".
Definition MetadataCollection : string := "dev.adenosine.subjectTriage".
Definition repositoryCollection : string := "dev.adenosine.repo".
Definition issueCollection : string := "dev.adenosine.issue".
Definition pullRequestCollection : string := "dev.adenosine.pullRequest".
Definition maximumLabels : Z := 20.
Definition maximumAssignees : Z := 10.

Definition ErrValidation : error := New "triage validation failed".
Definition ErrAuthorization : error := New "repository triage authorization required".
Definition ErrConflict : error := New "triage record conflict".
Definition ErrNotFound : error := New "triage resource not found".
Definition ErrProvider : error := New "triage provider failure".

Definition SubjectKind : Type := string.
Definition SubjectIssue : SubjectKind := "issue".
Definition SubjectPullRequest : SubjectKind := "pull_request".
Definition MilestoneState : Type := string.
Definition MilestoneOpen : MilestoneState := "open".
Definition MilestoneClosed : MilestoneState := "closed".

Record StrongRef := mkStrongRef { URI : string; CID : string }.
Record RepositoryRoute := mkRoute { Owner : string; Slug : string }.
Record RepositoryTarget := mkRepositoryTarget {
  ID : UUID; Repository : StrongRef; OwnerDID : string
}.
Record LabelRecord := mkLabelRecord {
  Label_Repository : StrongRef; Name : string; Color : string; Description : string;
  Label_CreatedAt : time; Label_UpdatedAt : time
}.
Record Label := mkLabel {
  Label_URI : string; Label_CID : string; Label_AuthorDID : string; Label_RKey : string;
  Label_Record : LabelRecord; Label_IndexedAt : time
}.
Record MilestoneRecord := mkMilestoneRecord {
  Milestone_Repository : StrongRef; Title : string; Milestone_Description : string;
  Milestone_State : MilestoneState; DueAt : option time; ClosedAt : option time;
  Milestone_CreatedAt : time; Milestone_UpdatedAt : time
}.
Record Milestone := mkMilestone {
  Milestone_URI : string; Milestone_CID : string; Milestone_AuthorDID : string;
  Milestone_RKey : string; Milestone_Record : MilestoneRecord; Milestone_IndexedAt : time
}.
Record Assignee := mkAssignee { Assignee_DID : string; Handle : string; DisplayName : string }.
Record MetadataRecord := mkMetadataRecord {
  Subject : StrongRef; Kind : SubjectKind; Metadata_Repository : StrongRef;
  LabelURIs : list string; AssigneeDIDs : list string; MilestoneURI : string;
  CreatedAt : time; UpdatedAt : time
}.
Record Metadata := mkMetadata {
  Metadata_URI : string; Metadata_CID : string; Metadata_AuthorDID : string;
  Metadata_RKey : string; Metadata_Record : MetadataRecord; Labels : list Label;
  Assignees : list Assignee; Metadata_Milestone : option Milestone; Metadata_IndexedAt : time
}.
Record LabelInput := mkLabelInput {
  Input_Name : string; Input_Color : string; Input_Description : string
}.
Record MilestoneInput := mkMilestoneInput {
  Input_Title : string; Input_MilestoneDescription : string; Input_State : MilestoneState;
  Input_DueAt : option time
}.
Record MetadataInput := mkMetadataInput {
  LabelIDs : list string; Input_AssigneeDIDs : list string; MilestoneID : string
}.
Record subjectTarget := mkSubjectTarget {
  Target_Repository : RepositoryTarget; Target_Subject : StrongRef;
  Target_Metadata : option Metadata
}.

Definition ValidationError (Field Problem : string) : error :=
  FieldError ErrValidation Field Problem.
Definition ConflictError (Err : option error) : error := CauseError ErrConflict EmptyString Err.
Definition AuthorizationError (Err : option error) : error :=
  CauseError ErrAuthorization EmptyString Err.
Definition ProviderError (Operation : string) (Err : option error) : error :=
  CauseError ErrProvider Operation Err.

(** The store, the publisher, the authorizer, the clock and [uuid.NewV7]. *)
Inductive effect : Type -> Type :=
| ResolveRepository (route : RepositoryRoute) : effect (result RepositoryTarget)
| ResolveRepositoryForRead (route : RepositoryRoute) : effect (result RepositoryTarget)
| store_ListLabels (repositoryURI viewerDID : string) (limit : Z) (cursorURI : string)
    : effect (result (option (list Label)))
| store_GetLabel (repositoryURI id viewerDID : string) : effect (result Label)
| store_ListMilestones (repositoryURI viewerDID : string) (limit : Z) (cursorURI : string)
    : effect (result (option (list Milestone)))
| store_GetMilestone (repositoryURI id viewerDID : string) : effect (result Milestone)
| ResolveSubject (route : RepositoryRoute) (kind : SubjectKind) (subjectURI viewerDID : string)
    : effect (result subjectTarget)
| ResolveSubjectForRead (route : RepositoryRoute) (kind : SubjectKind)
    (subjectURI viewerDID : string) : effect (result subjectTarget)
| ResolveLabelURIs (repositoryURI : string) (ids : list string) : effect (result (list string))
| ResolveMilestoneURI (repositoryURI id : string) : effect (result string)
| ValidateAssignees (dids : list string) : effect (result unit)
| publisher_CreateLabel (ownerDID rkey : string) (record : LabelRecord) : effect (result Label)
| PutLabel (ownerDID rkey cid : string) (record : LabelRecord) : effect (result Label)
| publisher_CreateMilestone (ownerDID rkey : string) (record : MilestoneRecord)
    : effect (result Milestone)
| PutMilestone (ownerDID rkey cid : string) (record : MilestoneRecord) : effect (result Milestone)
| PutSubjectTriage (ownerDID swapCID : string) (record : MetadataRecord) : effect (result Metadata)
| DeleteTriageRecord (ownerDID collection rkey cid : string) : effect (result unit)
| CanTriageRepository (actorDID : string) (id : UUID) : effect (result bool)
| Now : effect time
| NewV7 : effect (result UUID).

Definition uniqueSorted (values : list string) : list string :=
  Compact (Sort (map TrimSpace values)).
(** Whether that is the nil slice: [append([]string(nil), values...)] is nil if there are no
    values, [Sort] leaves the slice where it is and [Compact] returns one of less than two
    values as it got it. *)
Definition uniqueSorted_nil (values : list string) : bool := Nat.eqb (length values) 0.

Fixpoint hasDuplicates (values : list string) : bool :=
  match values with
  | [] => false
  | x :: rest => match rest with [] => false | y :: _ => (y == x) || hasDuplicates rest end
  end.

Definition validateTimes (createdAt updatedAt : time) : result unit :=
  reject_if IsZero createdAt with ValidationError "createdAt" "must not be empty" ;;
  reject_if IsZero updatedAt || Before updatedAt createdAt
    with ValidationError "updatedAt" "must not precede createdAt" ;;
  Ok tt.

Definition canonicalOptionalTime (value : option time) : option time := option_map UTC value.

Definition milestoneRecord (repository : StrongRef) (input : MilestoneInput)
    (createdAt updatedAt : time) (previousClosedAt : option time) : MilestoneRecord :=
  let state := if Input_State input == EmptyString then MilestoneOpen else Input_State input in
  let closedAt :=
    if state == MilestoneClosed then
      match previousClosedAt with None => Some updatedAt | Some t => Some t end
    else None in
  mkMilestoneRecord repository (TrimSpace (Input_Title input))
    (TrimSpace (Input_MilestoneDescription input)) state
    (canonicalOptionalTime (Input_DueAt input)) (canonicalOptionalTime closedAt)
    createdAt updatedAt.

(** [PostgresStore.ResolveLabelURIs]: [rows] answers the query for [ids]; the
    first row of each record key counts. *)
Definition resolveRows (rows : list (string * string)) : gmap string string :=
  fold_left (fun resolved row =>
      match resolved !! fst row with None => <[fst row := snd row]> resolved | Some _ => resolved end)
    rows ∅.

Section triage.
Context `{Syntax, GoUnicode, UUIDs}.

Definition ValidateRecordKey (value : string) : result unit :=
  match ParseRecordKey value with
  | Some rkey =>
      if RecordKey_String rkey != value
      then Err (ValidationError "rkey" "must be a canonical AT Protocol record key") else Ok tt
  | None => Err (ValidationError "rkey" "must be a canonical AT Protocol record key")
  end.

Definition validateCID (value : string) : result unit :=
  let bad := Err (ValidationError "cid" "must be canonical") in
  match ParseCID value with
  | Some cid =>
      if (CID_String cid != value) || (value != ToLower value) || negb (HasPrefix value "b")
      then bad else Ok tt
  | None => bad
  end.

Definition validateATURI (value collection field : string) : result ATURI :=
  let malformed := Err (ValidationError field ("must be a canonical " +:+ collection +:+ " AT URI")) in
  let authority := Err (ValidationError field "must use a canonical DID authority") in
  match ParseATURI value with
  | None => malformed
  | Some uri =>
      if (ATURI_String uri != value)
         || (NSID_String (ATURI_Collection uri) != collection)
         || (RecordKey_String (ATURI_RecordKey uri) == EmptyString)
      then malformed
      else match AsDID (Authority uri) with
           | None => authority
           | Some did =>
               if DID_String did != AuthorityString (Authority uri) then authority else Ok uri
           end
  end.

Definition validateStrongRef (ref : StrongRef) (collection field : string) : result unit :=
  let* _ := validateATURI (URI ref) collection (field +:+ ".uri") in
  mapErr (fun _ => ValidationError (field +:+ ".cid") "must be a canonical CID")
    (validateCID (CID ref)).

Definition RepositoryOwnerDID (repositoryURI : string) : result string :=
  let* uri := validateATURI repositoryURI repositoryCollection "repository" in
  Ok (AuthorityString (Authority uri)).

Definition validatePortableEnvelope (uriValue cid authorDID rkey collection repositoryURI : string)
    (recordErr : result unit) : result unit :=
  let* _ := recordErr in
  let notDID := Err (ValidationError "authorDID" "must be a canonical DID") in
  match ParseDID authorDID with
  | None => notDID
  | Some did =>
      if DID_String did != authorDID then notDID else
      let* uri := validateATURI uriValue collection "uri" in
      reject_if (AuthorityString (Authority uri) != authorDID)
        || (RecordKey_String (ATURI_RecordKey uri) != rkey)
        with AuthorizationError (Some (New "envelope authority or key does not match")) ;;
      let* owner := RepositoryOwnerDID repositoryURI in
      reject_if owner != authorDID
        with AuthorizationError (Some (New "record author is not repository authority")) ;;
      validateCID cid
  end.

(** A subject's collection is not checked for a record key or a DID here. *)
Definition MetadataRecordKey (subjectURI : string) : result string :=
  let bad := Err (ValidationError "subject" "must be a canonical issue or pull request AT URI") in
  match ParseATURI subjectURI with
  | None => bad
  | Some uri =>
      let collection := NSID_String (ATURI_Collection uri) in
      if (ATURI_String uri != subjectURI)
         || ((collection != issueCollection) && (collection != pullRequestCollection))
      then bad
      else Ok (ToLower (base32_Encode
             (Sum256 (bytes (MetadataCollection +:+ String zero EmptyString +:+ subjectURI)))))
  end.

Definition RandomRecordKey : svc effect string :=
  let? id := wrapErr (fun err => Errorf "generate triage record key: %w" [W err]) (call NewV7) in
  done_ (remove_char "-"%char (uuid_String id)).

Definition LabelRecord_Validate (record : LabelRecord) : result unit :=
  let* _ := validateStrongRef (Label_Repository record) repositoryCollection "repository" in
  reject_if (len (Name record) <? 1) || (50 <? len (Name record))
    || negb (ValidString (Name record))
    with ValidationError "name" "must contain between 1 and 50 UTF-8 bytes" ;;
  reject_if negb (match_class_n is_lower_hex 6 (Color record))
    with ValidationError "color" "must be six lowercase hexadecimal characters" ;;
  reject_if (255 <? len (Description record)) || negb (ValidString (Description record))
    with ValidationError "description" "must contain at most 255 UTF-8 bytes" ;;
  validateTimes (Label_CreatedAt record) (Label_UpdatedAt record).

Definition MilestoneRecord_Validate (record : MilestoneRecord) : result unit :=
  let* _ := validateStrongRef (Milestone_Repository record) repositoryCollection "repository" in
  reject_if (len (Title record) <? 1) || (255 <? len (Title record))
    || negb (ValidString (Title record))
    with ValidationError "title" "must contain between 1 and 255 UTF-8 bytes" ;;
  reject_if (65535 <? len (Milestone_Description record))
    || negb (ValidString (Milestone_Description record))
    with ValidationError "description" "must contain at most 65535 UTF-8 bytes" ;;
  reject_if (Milestone_State record != MilestoneOpen)
    && (Milestone_State record != MilestoneClosed)
    with ValidationError "state" "must be open or closed" ;;
  reject_if negb (Bool.eqb (Milestone_State record == MilestoneClosed)
                    (match ClosedAt record with Some _ => true | None => false end))
    with ValidationError "closedAt" "must be present exactly when state is closed" ;;
  validateTimes (Milestone_CreatedAt record) (Milestone_UpdatedAt record).

Fixpoint validateLabels (uris : list string) : result unit :=
  match uris with
  | [] => Ok tt
  | uri :: uris =>
      let* _ := validateATURI uri LabelCollection "labels" in validateLabels uris
  end.

Fixpoint validateDIDs (values : list string) : result unit :=
  match values with
  | [] => Ok tt
  | value :: values =>
      reject_if match ParseDID value with
                | Some did => DID_String did != value
                | None => true
                end
        with ValidationError "assignees" "must contain canonical DIDs" ;;
      validateDIDs values
  end.

Definition MetadataRecord_Validate (record : MetadataRecord) : result unit :=
  reject_if (Kind record != SubjectPullRequest) && (Kind record != SubjectIssue)
    with ValidationError "kind" "must be issue or pull_request" ;;
  let collection := if Kind record == SubjectPullRequest
                    then pullRequestCollection else issueCollection in
  let* _ := validateStrongRef (Subject record) collection "subject" in
  let* _ := validateStrongRef (Metadata_Repository record) repositoryCollection "repository" in
  reject_if maximumLabels <? Z.of_nat (length (LabelURIs record))
    with ValidationError "labels" "must contain at most 20 values" ;;
  reject_if maximumAssignees <? Z.of_nat (length (AssigneeDIDs record))
    with ValidationError "assignees" "must contain at most 10 values" ;;
  reject_if negb (IsSorted (LabelURIs record)) || hasDuplicates (LabelURIs record)
    with ValidationError "labels" "must be sorted and unique" ;;
  let* _ := validateLabels (LabelURIs record) in
  reject_if negb (IsSorted (AssigneeDIDs record)) || hasDuplicates (AssigneeDIDs record)
    with ValidationError "assignees" "must be sorted and unique" ;;
  let* _ := validateDIDs (AssigneeDIDs record) in
  let* _ := (if MilestoneURI record != EmptyString
             then let* _ := validateATURI (MilestoneURI record) MilestoneCollection "milestone" in
                  Ok tt
             else Ok tt) in
  validateTimes (CreatedAt record) (UpdatedAt record).

Definition Label_Validate (value : Label) : result unit :=
  validatePortableEnvelope (Label_URI value) (Label_CID value) (Label_AuthorDID value)
    (Label_RKey value) LabelCollection (URI (Label_Repository (Label_Record value)))
    (LabelRecord_Validate (Label_Record value)).

Definition Milestone_Validate (value : Milestone) : result unit :=
  validatePortableEnvelope (Milestone_URI value) (Milestone_CID value)
    (Milestone_AuthorDID value) (Milestone_RKey value) MilestoneCollection
    (URI (Milestone_Repository (Milestone_Record value)))
    (MilestoneRecord_Validate (Milestone_Record value)).

Definition Metadata_Validate (value : Metadata) : result unit :=
  let* _ := validatePortableEnvelope (Metadata_URI value) (Metadata_CID value)
              (Metadata_AuthorDID value) (Metadata_RKey value) MetadataCollection
              (URI (Metadata_Repository (Metadata_Record value)))
              (MetadataRecord_Validate (Metadata_Record value)) in
  let* want := MetadataRecordKey (URI (Subject (Metadata_Record value))) in
  reject_if Metadata_RKey value != want
    with ValidationError "rkey" "must be derived from the subject URI" ;;
  Ok tt.

Fixpoint validateKeys (ids : list string) : result unit :=
  match ids with
  | [] => Ok tt
  | id :: ids => let* _ := ValidateRecordKey id in validateKeys ids
  end.

(** [rows] is what the query answers for these ids. *)
Definition PostgresStore_ResolveLabelURIs (ids : list string)
    (rows : result (list (string * string))) : result (list string) :=
  if Nat.eqb (length ids) 0 then Ok [] else
  let* _ := validateKeys ids in
  let* rows := mapErr (fun err => Errorf "resolve triage labels: %w" [W err]) rows in
  let resolved := resolveRows rows in
  reject_if negb (Nat.eqb (size resolved) (length ids)) with ErrNotFound ;;
  Ok (Sort (map (fun id => default EmptyString (resolved !! id)) ids)).

(** ** The service *)

Definition authorize (actorDID : string) (target : RepositoryTarget) : svc effect unit :=
  let? allowed := wrapErr (fun err => Errorf "authorize repository triage: %w" [W err])
                    (call (CanTriageRepository actorDID (ID target))) in
  if negb allowed
  then fail (AuthorizationError (Some (New "actor lacks repository triage permission")))
  else done_ tt.

Definition authorizedTarget (actorDID : string) (route : RepositoryRoute)
    : svc effect RepositoryTarget :=
  let? target := call (ResolveRepository route) in
  let? _ := authorize actorDID target in
  done_ target.

Definition ListLabels (route : RepositoryRoute) (viewerDID : string) (limit : Z)
    (cursorURI : string) : svc effect (list Label) :=
  let? target := call (ResolveRepositoryForRead route) in
  let? values := wrapErr (fun err => Errorf "list repository labels: %w" [W err])
                   (call (store_ListLabels (URI (Repository target)) viewerDID limit cursorURI)) in
  done_ (default [] values).

Definition GetLabel (route : RepositoryRoute) (id viewerDID : string) : svc effect Label :=
  let? target := call (ResolveRepositoryForRead route) in
  call (store_GetLabel (URI (Repository target)) id viewerDID).

Definition labelRecord (repository : StrongRef) (input : LabelInput) (createdAt updatedAt : time)
    : LabelRecord :=
  mkLabelRecord repository (TrimSpace (Input_Name input))
    (ToLower (TrimPrefix (TrimSpace (Input_Color input)) "#"))
    (TrimSpace (Input_Description input)) createdAt updatedAt.

Definition CreateLabel (actorDID : string) (route : RepositoryRoute) (input : LabelInput)
    : svc effect Label :=
  let? target := authorizedTarget actorDID route in
  let! now := call Now in
  let record := labelRecord (Repository target) input (UTC now) (UTC now) in
  let? _ := lift (LabelRecord_Validate record) in
  let? rkey := RandomRecordKey in
  call (publisher_CreateLabel (OwnerDID target) rkey record).

Definition transferred (kind : string) : error :=
  ConflictError (Some (New ("transferred " +:+ kind +:+ " is read-only under its former authority"))).

Definition UpdateLabel (actorDID : string) (route : RepositoryRoute) (id : string)
    (input : LabelInput) : svc effect Label :=
  let? target := authorizedTarget actorDID route in
  let? current := call (store_GetLabel (URI (Repository target)) id EmptyString) in
  if (URI (Label_Repository (Label_Record current)) != URI (Repository target))
     || (Label_AuthorDID current != OwnerDID target)
  then fail (transferred "label") else
  let! now := call Now in
  let record := labelRecord (Repository target) input
                  (Label_CreatedAt (Label_Record current)) (UTC now) in
  let? _ := lift (LabelRecord_Validate record) in
  call (PutLabel (OwnerDID target) (Label_RKey current) (Label_CID current) record).

Definition DeleteLabel (actorDID : string) (route : RepositoryRoute) (id : string)
    : svc effect unit :=
  let? target := authorizedTarget actorDID route in
  let? current := call (store_GetLabel (URI (Repository target)) id EmptyString) in
  if (URI (Label_Repository (Label_Record current)) != URI (Repository target))
     || (Label_AuthorDID current != OwnerDID target)
  then fail (transferred "label") else
  call (DeleteTriageRecord (OwnerDID target) LabelCollection (Label_RKey current)
          (Label_CID current)).

Definition ListMilestones (route : RepositoryRoute) (viewerDID : string) (limit : Z)
    (cursorURI : string) : svc effect (list Milestone) :=
  let? target := call (ResolveRepositoryForRead route) in
  let? values := wrapErr (fun err => Errorf "list repository milestones: %w" [W err])
                   (call (store_ListMilestones (URI (Repository target)) viewerDID limit
                            cursorURI)) in
  done_ (default [] values).

Definition GetMilestone (route : RepositoryRoute) (id viewerDID : string)
    : svc effect Milestone :=
  let? target := call (ResolveRepositoryForRead route) in
  call (store_GetMilestone (URI (Repository target)) id viewerDID).

Definition CreateMilestone (actorDID : string) (route : RepositoryRoute) (input : MilestoneInput)
    : svc effect Milestone :=
  let? target := authorizedTarget actorDID route in
  let! now := call Now in
  let record := milestoneRecord (Repository target) input (UTC now) (UTC now) None in
  let? _ := lift (MilestoneRecord_Validate record) in
  let? rkey := RandomRecordKey in
  call (publisher_CreateMilestone (OwnerDID target) rkey record).

Definition UpdateMilestone (actorDID : string) (route : RepositoryRoute) (id : string)
    (input : MilestoneInput) : svc effect Milestone :=
  let? target := authorizedTarget actorDID route in
  let? current := call (store_GetMilestone (URI (Repository target)) id EmptyString) in
  if (URI (Milestone_Repository (Milestone_Record current)) != URI (Repository target))
     || (Milestone_AuthorDID current != OwnerDID target)
  then fail (transferred "milestone") else
  let! now := call Now in
  let record := milestoneRecord (Repository target) input
                  (Milestone_CreatedAt (Milestone_Record current)) (UTC now)
                  (ClosedAt (Milestone_Record current)) in
  let? _ := lift (MilestoneRecord_Validate record) in
  call (PutMilestone (OwnerDID target) (Milestone_RKey current) (Milestone_CID current) record).

Definition DeleteMilestone (actorDID : string) (route : RepositoryRoute) (id : string)
    : svc effect unit :=
  let? target := authorizedTarget actorDID route in
  let? current := call (store_GetMilestone (URI (Repository target)) id EmptyString) in
  if (URI (Milestone_Repository (Milestone_Record current)) != URI (Repository target))
     || (Milestone_AuthorDID current != OwnerDID target)
  then fail (transferred "milestone") else
  call (DeleteTriageRecord (OwnerDID target) MilestoneCollection (Milestone_RKey current)
          (Milestone_CID current)).

Definition GetMetadata (route : RepositoryRoute) (kind : SubjectKind)
    (subjectURI viewerDID : string) : svc effect Metadata :=
  let? target := call (ResolveSubjectForRead route kind subjectURI viewerDID) in
  done_ (match Target_Metadata target with
         | Some metadata => metadata
         | None =>
             mkMetadata EmptyString EmptyString EmptyString EmptyString
               (mkMetadataRecord (Target_Subject target) kind
                  (Repository (Target_Repository target)) [] [] EmptyString zeroTime zeroTime)
               [] [] None zeroTime
         end).

Definition PutMetadata (actorDID : string) (route : RepositoryRoute) (kind : SubjectKind)
    (subjectURI : string) (input : MetadataInput) : svc effect Metadata :=
  let? target := call (ResolveSubject route kind subjectURI EmptyString) in
  let repository := Repository (Target_Repository target) in
  let? _ := authorize actorDID (Target_Repository target) in
  let labelIDs := uniqueSorted (LabelIDs input) in
  let assignees := uniqueSorted (Input_AssigneeDIDs input) in
  if maximumLabels <? Z.of_nat (length labelIDs)
  then fail (ValidationError "label_ids" "must contain at most 20 values") else
  if maximumAssignees <? Z.of_nat (length assignees)
  then fail (ValidationError "assignee_dids" "must contain at most 10 values") else
  let? labelURIs := call (ResolveLabelURIs (URI repository) labelIDs) in
  let? milestoneURI :=
    (if MilestoneID input != EmptyString
     then call (ResolveMilestoneURI (URI repository) (MilestoneID input))
     else done_ EmptyString) in
  let? _ := call (ValidateAssignees assignees) in
  let! now := call Now in
  let now := UTC now in
  let createdAt := match Target_Metadata target with
                   | Some metadata => CreatedAt (Metadata_Record metadata)
                   | None => zeroTime
                   end in
  let createdAt := if IsZero createdAt then now else createdAt in
  let record := mkMetadataRecord (Target_Subject target) kind repository labelURIs assignees
                  milestoneURI createdAt now in
  let? _ := lift (MetadataRecord_Validate record) in
  let swapCID := match Target_Metadata target with
                 | Some metadata => Metadata_CID metadata
                 | None => EmptyString
                 end in
  call (PutSubjectTriage (OwnerDID (Target_Repository target)) swapCID record).

Definition DeleteMetadata (actorDID : string) (route : RepositoryRoute) (kind : SubjectKind)
    (subjectURI : string) : svc effect unit :=
  let? target := call (ResolveSubject route kind subjectURI EmptyString) in
  let? _ := authorize actorDID (Target_Repository target) in
  match Target_Metadata target with
  | None => done_ tt
  | Some metadata =>
      call (DeleteTriageRecord (OwnerDID (Target_Repository target)) MetadataCollection
              (Metadata_RKey metadata) (Metadata_CID metadata))
  end.

(** ** What the validators accept *)

Lemma triage_validateATURI_Ok value collection field uri :
  validateATURI value collection field = Ok uri <-> canonical_record_uri collection value uri.
Proof. unfold validateATURI. canonical_cases. Qed.

Lemma validateCID_Ok value : validateCID value = Ok tt <-> canonical_cid value.
Proof. unfold validateCID. canonical_cases. Qed.

Lemma triage_ValidateRecordKey_Ok value : ValidateRecordKey value = Ok tt <-> canonical_rkey value.
Proof. unfold ValidateRecordKey. canonical_cases. Qed.

Lemma triage_validateStrongRef_Ok ref collection field :
  validateStrongRef ref collection field = Ok tt <-> canonical_ref collection (URI ref) (CID ref).
Proof. unfold validateStrongRef. reference_cases triage_validateATURI_Ok validateCID_Ok. Qed.

Lemma triage_validateTimes_Ok createdAt updatedAt :
  validateTimes createdAt updatedAt = Ok tt <-> ordered_times createdAt updatedAt.
Proof.
  unfold validateTimes, ordered_times, IsZero, Before, zeroTime. rewrite !reject_Ok.
  rewrite orb_false_iff, !Z.eqb_neq, Z.ltb_ge. naive_solver.
Qed.

Lemma triage_RepositoryOwnerDID_Ok uri owner :
  RepositoryOwnerDID uri = Ok owner <->
  exists u, canonical_record_uri repositoryCollection uri u /\
            AuthorityString (Authority u) = owner.
Proof.
  unfold RepositoryOwnerDID. rewrite bind_Ok. setoid_rewrite triage_validateATURI_Ok. naive_solver.
Qed.

(** ** Sorted unique lists *)

Lemma hasDuplicates_sorted l :
  IsSorted l = true -> (hasDuplicates l = false <-> NoDup l).
Proof.
  rewrite IsSorted_Sorted. induction 1 as [| x l Hl IH Hx]; [by split; [constructor |] |].
  cbn [hasDuplicates]. destruct l as [| y l]; [by split; [repeat constructor; set_solver |] |].
  rewrite orb_false_iff, IH, String.eqb_neq, (NoDup_cons x). split; intros [Hne Hnd]; (split; [| done]).
  - intros Hin. rewrite Forall_forall in Hx. apply Hne.
    apply (anti_symm string_le); [| apply Hx; set_solver].
    apply elem_of_cons in Hin as [-> | Hin]; [reflexivity |].
    apply StronglySorted_inv in Hl as [_ Hy]. rewrite Forall_forall in Hy. by apply Hy.
  - intros ->. set_solver.
Qed.

Lemma uniqueSorted_StronglySorted values : StronglySorted string_le (uniqueSorted values).
Proof. apply Compact_sorted, Sort_sorted. Qed.

(** Normalising a list of identifiers keeps exactly its trimmed members,
    each once, in ascending order; on sorted lists the adjacent-duplicate test
    decides whether any member repeats. *)
Theorem uniqueSorted_spec (values : list string) :
  IsSorted (uniqueSorted values) = true /\ NoDup (uniqueSorted values) /\
  (forall x, x ∈ uniqueSorted values <-> exists v, v ∈ values /\ x = TrimSpace v) /\
  (forall l, IsSorted l = true -> (hasDuplicates l = false <-> NoDup l)).
Proof.
  split_and!.
  - apply IsSorted_Sorted, uniqueSorted_StronglySorted.
  - apply Compact_NoDup, Sort_sorted.
  - intros x. unfold uniqueSorted. rewrite Compact_elem_of, Sort_perm, list_elem_of_fmap.
    naive_solver.
  - apply hasDuplicates_sorted.
Qed.

(** ** Envelopes *)

Definition repository_authored (collection uriValue cid author rkey repositoryURI : string) : Prop :=
  exists uri repo,
    owned_envelope collection uriValue cid author uri /\
    RecordKey_String (ATURI_RecordKey uri) = rkey /\
    canonical_record_uri repositoryCollection repositoryURI repo /\
    AuthorityString (Authority repo) = author.

#[local] Opaque RepositoryOwnerDID.

Lemma validatePortableEnvelope_Ok uriValue cid author rkey collection repositoryURI recordErr :
  validatePortableEnvelope uriValue cid author rkey collection repositoryURI recordErr = Ok tt <->
  recordErr = Ok tt /\
  repository_authored collection uriValue cid author rkey repositoryURI.
Proof.
  unfold validatePortableEnvelope, repository_authored, owned_envelope, canonical_did.
  rewrite bind_unit_Ok. destruct (ParseDID author) as [did |]; [| naive_solver].
  destruct (String.eqb_spec (DID_String did) author); cbn [negb]; [| naive_solver].
  rewrite bind_Ok. setoid_rewrite reject_Ok. setoid_rewrite bind_Ok.
  setoid_rewrite reject_Ok. setoid_rewrite orb_false_iff. setoid_rewrite neq_false.
  setoid_rewrite triage_validateATURI_Ok. setoid_rewrite triage_RepositoryOwnerDID_Ok.
  setoid_rewrite validateCID_Ok. naive_solver.
Qed.

Definition metadata_slot (subjectURI : string) : string :=
  ToLower (base32_Encode
    (Sum256 (bytes (MetadataCollection +:+ String zero EmptyString +:+ subjectURI)))).

Lemma MetadataRecordKey_canonical collection subjectURI uri :
  collection = issueCollection \/ collection = pullRequestCollection ->
  canonical_record_uri collection subjectURI uri ->
  MetadataRecordKey subjectURI = Ok (metadata_slot subjectURI).
Proof.
  intros Hc (Hp & Hs & Hcoll & _). unfold MetadataRecordKey. rewrite Hp, Hs, Hcoll.
  rewrite String.eqb_refl. by destruct Hc as [-> | ->].
Qed.

Lemma validateLabels_Ok uris :
  validateLabels uris = Ok tt <->
  Forall (fun uri => exists u, canonical_record_uri LabelCollection uri u) uris.
Proof.
  induction uris as [| uri uris IH]; cbn [validateLabels]; [done |].
  rewrite bind_Ok, Forall_cons, <- IH. setoid_rewrite triage_validateATURI_Ok. naive_solver.
Qed.

Lemma validateDIDs_Ok values : validateDIDs values = Ok tt <-> Forall canonical_did values.
Proof.
  induction values as [| value values IH]; cbn [validateDIDs]; [done |].
  rewrite reject_Ok, Forall_cons, <- IH. unfold canonical_did.
  destruct (ParseDID value); [setoid_rewrite neq_false; naive_solver | naive_solver].
Qed.

(** A complete snapshot: at most 20 labels and 10 assignees, each sorted and
    unique, and at most one milestone. *)
Definition well_formed_metadata (record : MetadataRecord) : Prop :=
  (Kind record = SubjectIssue /\
     canonical_ref issueCollection (URI (Subject record)) (CID (Subject record)) \/
   Kind record = SubjectPullRequest /\
     canonical_ref pullRequestCollection (URI (Subject record)) (CID (Subject record))) /\
  canonical_ref repositoryCollection (URI (Metadata_Repository record))
    (CID (Metadata_Repository record)) /\
  (length (LabelURIs record) <= 20)%nat /\ (length (AssigneeDIDs record) <= 10)%nat /\
  StronglySorted string_le (LabelURIs record) /\ NoDup (LabelURIs record) /\
  Forall (fun uri => exists u, canonical_record_uri LabelCollection uri u) (LabelURIs record) /\
  StronglySorted string_le (AssigneeDIDs record) /\ NoDup (AssigneeDIDs record) /\
  Forall canonical_did (AssigneeDIDs record) /\
  (MilestoneURI record = EmptyString \/
   exists u, canonical_record_uri MilestoneCollection (MilestoneURI record) u) /\
  ordered_times (CreatedAt record) (UpdatedAt record).

Lemma sorted_unique_Ok l :
  negb (IsSorted l) || hasDuplicates l = false <-> StronglySorted string_le l /\ NoDup l.
Proof.
  rewrite orb_false_iff, negb_false_iff, <- IsSorted_Sorted. split.
  - intros [Hs Hd]. split; [done |]. by apply hasDuplicates_sorted.
  - intros [Hs Hd]. split; [done |]. by apply hasDuplicates_sorted.
Qed.

Lemma MetadataRecord_Validate_Ok record :
  MetadataRecord_Validate record = Ok tt <-> well_formed_metadata record.
Proof.
  unfold MetadataRecord_Validate, well_formed_metadata. rewrite reject_Ok, !bind_unit_Ok.
  rewrite !reject_Ok, !bind_unit_Ok, reject_Ok, !bind_unit_Ok.
  rewrite !triage_validateStrongRef_Ok, validateLabels_Ok, validateDIDs_Ok, triage_validateTimes_Ok.
  rewrite !sorted_unique_Ok, andb_false_iff, !neq_false, !Z.ltb_ge.
  unfold maximumLabels, maximumAssignees.
  assert (Hm : (if MilestoneURI record != EmptyString
                then let* _ := validateATURI (MilestoneURI record) MilestoneCollection "milestone"
                     in Ok tt else Ok tt) = Ok tt <->
               (MilestoneURI record = EmptyString \/
                exists u, canonical_record_uri MilestoneCollection (MilestoneURI record) u)).
  { destruct (String.eqb_spec (MilestoneURI record) EmptyString) as [-> |]; cbn [negb]; [naive_solver |].
    rewrite bind_Ok. setoid_rewrite triage_validateATURI_Ok. naive_solver. }
  rewrite Hm. clear Hm.
  destruct (String.eqb_spec (Kind record) SubjectPullRequest) as [-> | Hne].
  - split.
    + intros (_ & ? & ? & ? & ? & [? ?] & ? & [? ?] & ? & ? & ?). split_and!; try done; try lia. by right.
    + intros ([[? ?] | [_ ?]] & ? & ? & ? & ? & ? & ? & ? & ? & ? & ? & ?); [done |].
      split_and!; try done; try lia. by left.
  - split.
    + intros (Hk & ? & ? & ? & ? & [? ?] & ? & [? ?] & ? & ? & ?).
      split_and!; try done; try lia. left. naive_solver.
    + intros ([[-> ?] | [? ?]] & ? & ? & ? & ? & ? & ? & ? & ? & ? & ? & ?); [| done].
      split_and!; try done; try lia. by right.
Qed.

(** A label, a milestone or a triage snapshot is accepted exactly when its
    content is well formed and it is authored by the owner of the repository it
    describes, at the URI made of that author and its key; a snapshot further
    sits in the slot derived from its subject. *)
Theorem portable_records_Validate_iff (label : Label) (milestone : Milestone)
    (metadata : Metadata) :
  (Label_Validate label = Ok tt <->
   LabelRecord_Validate (Label_Record label) = Ok tt /\
   repository_authored LabelCollection (Label_URI label) (Label_CID label)
     (Label_AuthorDID label) (Label_RKey label)
     (URI (Label_Repository (Label_Record label)))) /\
  (Milestone_Validate milestone = Ok tt <->
   MilestoneRecord_Validate (Milestone_Record milestone) = Ok tt /\
   repository_authored MilestoneCollection (Milestone_URI milestone) (Milestone_CID milestone)
     (Milestone_AuthorDID milestone) (Milestone_RKey milestone)
     (URI (Milestone_Repository (Milestone_Record milestone)))) /\
  (Metadata_Validate metadata = Ok tt <->
   well_formed_metadata (Metadata_Record metadata) /\
   repository_authored MetadataCollection (Metadata_URI metadata) (Metadata_CID metadata)
     (Metadata_AuthorDID metadata) (Metadata_RKey metadata)
     (URI (Metadata_Repository (Metadata_Record metadata))) /\
   Metadata_RKey metadata = metadata_slot (URI (Subject (Metadata_Record metadata)))).
Proof.
  split_and!; [apply validatePortableEnvelope_Ok .. |].
  unfold Metadata_Validate.
  rewrite bind_unit_Ok, validatePortableEnvelope_Ok, MetadataRecord_Validate_Ok, bind_Ok.
  setoid_rewrite reject_Ok. setoid_rewrite neq_false.
  assert (Hslot : well_formed_metadata (Metadata_Record metadata) ->
    MetadataRecordKey (URI (Subject (Metadata_Record metadata)))
    = Ok (metadata_slot (URI (Subject (Metadata_Record metadata))))).
  { intros [[[_ [[u Hu] _]] | [_ [[u Hu] _]]] _]; (eapply MetadataRecordKey_canonical; [| exact Hu]); auto. }
  split.
  - intros [[Hw Ha] (want & Hk & Heq & _)]. rewrite (Hslot Hw) in Hk. naive_solver.
  - intros (Hw & Ha & Hk). split; [done |]. eauto.
Qed.

(** ** Milestones *)

(** The milestone an input describes is closed exactly when it has a
    closing time; closing keeps the time it was first closed at, and reopening
    forgets it. *)
Theorem milestoneRecord_closing (repository : StrongRef) (input : MilestoneInput)
    (createdAt updatedAt : time) (previous : option time) :
  let record := milestoneRecord repository input createdAt updatedAt previous in
  (ClosedAt record <> None <-> Milestone_State record = MilestoneClosed) /\
  (forall first, previous = Some first -> Milestone_State record = MilestoneClosed ->
     ClosedAt record = Some first) /\
  (previous = None -> Milestone_State record = MilestoneClosed ->
     ClosedAt record = Some updatedAt) /\
  (Input_State input = EmptyString -> Milestone_State record = MilestoneOpen) /\
  (MilestoneRecord_Validate record = Ok tt <->
   canonical_ref repositoryCollection (URI repository) (CID repository) /\
   1 <= len (Title record) <= 255 /\ ValidString (Title record) = true /\
   len (Milestone_Description record) <= 65535 /\
   ValidString (Milestone_Description record) = true /\
   (Milestone_State record = MilestoneOpen \/ Milestone_State record = MilestoneClosed) /\
   ordered_times createdAt updatedAt).
Proof.
  cbv zeta.
  assert (Hiff : Bool.eqb (Milestone_State (milestoneRecord repository input createdAt updatedAt previous)
      == MilestoneClosed)
    (match ClosedAt (milestoneRecord repository input createdAt updatedAt previous) with
     | Some _ => true | None => false end) = true).
  { cbn [milestoneRecord Milestone_State ClosedAt].
    destruct (_ == MilestoneClosed); [by destruct previous | done]. }
  split_and!.
  - revert Hiff. destruct (ClosedAt _), (String.eqb_spec (Milestone_State
      (milestoneRecord repository input createdAt updatedAt previous)) MilestoneClosed);
      naive_solver.
  - intros first -> Hc. cbn in Hc |- *. by rewrite Hc.
  - intros -> Hc. cbn in Hc |- *. by rewrite Hc.
  - intros He. cbn. by rewrite He.
  - unfold MilestoneRecord_Validate. rewrite bind_unit_Ok, !reject_Ok, Hiff.
    rewrite !orb_false_iff, andb_false_iff, !negb_false_iff, !Z.ltb_ge.
    rewrite triage_validateStrongRef_Ok, triage_validateTimes_Ok, !String.eqb_eq. cbn [Milestone_Repository
      Milestone_CreatedAt Milestone_UpdatedAt milestoneRecord]. naive_solver lia.
Qed.

(** ** What the service writes *)

(** The store resolved this repository, and its authorizer then let the actor
    triage it. *)
Definition admitted (actor : string) (target : RepositoryTarget) (h : list (event effect)) : Prop :=
  Ev (CanTriageRepository actor (ID target)) (Ok true) ∈ h /\
  ((exists route, Ev (ResolveRepository route) (Ok target) ∈ h) \/
   exists route kind uri subject,
     Ev (ResolveSubject route kind uri EmptyString) (Ok subject) ∈ h /\
     Target_Repository subject = target).

(** A replaced or deleted record is the one the store just answered, written
    under the same authority for the same repository. *)
Definition current_label (target : RepositoryTarget) (rkey cid : string) (h : list (event effect))
    (P : LabelRecord -> Prop) : Prop :=
  exists id current, Ev (store_GetLabel (URI (Repository target)) id EmptyString) (Ok current) ∈ h /\
    Label_RKey current = rkey /\ Label_CID current = cid /\
    Label_AuthorDID current = OwnerDID target /\
    URI (Label_Repository (Label_Record current)) = URI (Repository target) /\
    P (Label_Record current).
Definition current_milestone (target : RepositoryTarget) (rkey cid : string)
    (h : list (event effect)) (P : MilestoneRecord -> Prop) : Prop :=
  exists id current,
    Ev (store_GetMilestone (URI (Repository target)) id EmptyString) (Ok current) ∈ h /\
    Milestone_RKey current = rkey /\ Milestone_CID current = cid /\
    Milestone_AuthorDID current = OwnerDID target /\
    URI (Milestone_Repository (Milestone_Record current)) = URI (Repository target) /\
    P (Milestone_Record current).

Definition write_guard (actor : string) (h : list (event effect)) X (e : effect X) : Prop :=
  let under owner P := exists target, admitted actor target h /\ OwnerDID target = owner /\ P target in
  match e with
  | publisher_CreateLabel owner _ record =>
      under owner (fun target =>
        Label_Repository record = Repository target /\ LabelRecord_Validate record = Ok tt)
  | PutLabel owner rkey cid record =>
      under owner (fun target =>
        Label_Repository record = Repository target /\ LabelRecord_Validate record = Ok tt /\
        current_label target rkey cid h (fun old => Label_CreatedAt record = Label_CreatedAt old))
  | publisher_CreateMilestone owner _ record =>
      under owner (fun target =>
        Milestone_Repository record = Repository target /\
        MilestoneRecord_Validate record = Ok tt)
  | PutMilestone owner rkey cid record =>
      under owner (fun target =>
        Milestone_Repository record = Repository target /\
        MilestoneRecord_Validate record = Ok tt /\
        current_milestone target rkey cid h
          (fun old => Milestone_CreatedAt record = Milestone_CreatedAt old))
  | PutSubjectTriage owner swapCID record =>
      under owner (fun target =>
        Metadata_Repository record = Repository target /\ well_formed_metadata record /\
        Ev (ValidateAssignees (AssigneeDIDs record)) (Ok tt) ∈ h /\
        exists route kind uri subject,
          Ev (ResolveSubject route kind uri EmptyString) (Ok subject) ∈ h /\
          Target_Repository subject = target /\ Subject record = Target_Subject subject /\
          swapCID = match Target_Metadata subject with
                    | Some m => Metadata_CID m | None => EmptyString end)
  | DeleteTriageRecord owner collection rkey cid =>
      under owner (fun target =>
        collection = LabelCollection /\ current_label target rkey cid h (fun _ => True) \/
        collection = MilestoneCollection /\ current_milestone target rkey cid h (fun _ => True) \/
        collection = MetadataCollection /\
        exists route kind uri subject m,
          Ev (ResolveSubject route kind uri EmptyString) (Ok subject) ∈ h /\
          Target_Repository subject = target /\ Target_Metadata subject = Some m /\
          Metadata_RKey m = rkey /\ Metadata_CID m = cid)
  | _ => True
  end.

Lemma admitted_app actor target h t : admitted actor target h -> admitted actor target (h ++ t).
Proof.
  intros [Hc [[route Hr] | (route & kind & uri & subject & Hs & <-)]]; (split; [set_solver |]).
  - left. exists route. set_solver.
  - right. exists route, kind, uri, subject. set_solver.
Qed.

Lemma authorizedTarget_wp actor route h :
  wp (write_guard actor) (authorizedTarget actor route)
    (fun h' r => forall target, r = Ok target -> admitted actor target h') h.
Proof.
  unfold authorizedTarget, authorize. cbn. split; [done |]. intros [target | e]; cbn; [| done].
  split; [done |]. intros [[] | e]; cbn; try done. intros target' [= <-].
  split; [set_solver |]. left. exists route. set_solver.
Qed.

#[local] Opaque authorizedTarget.

Ltac authorized :=
  apply wp_svc_bind; (eapply wp_mono, authorizedTarget_wp); cbv beta;
  intros h [target | ?] Ht; [specialize (Ht target eq_refl) | done].
Ltac show_admitted := eexists; split; [eauto using admitted_app |]; split; [reflexivity |].

Lemma label_writes actor route id input :
  let ok {A} (p : svc effect A) := wp (write_guard actor) p (fun _ _ => True) [] in
  ok (CreateLabel actor route input) /\ ok (UpdateLabel actor route id input) /\
  ok (DeleteLabel actor route id).
Proof.
  cbv zeta. split_and!.
  - unfold CreateLabel. authorized. cbn. split; [done |]. intros now.
    destruct (LabelRecord_Validate _) as [[] |] eqn:Hv; cbn; [| done].
    split; [done |]. intros [key | e]; cbn; [| done]. split; [| done]. by show_admitted.
  - unfold UpdateLabel. authorized. cbn. split; [done |]. intros [current | e]; cbn; [| done].
    destruct (_ || _) eqn:Hcur; [done |]. apply orb_false_iff in Hcur as [Hr Ha].
    apply neq_false in Hr, Ha. cbn. split; [done |]. intros now.
    destruct (LabelRecord_Validate _) as [[] |] eqn:Hv; cbn; [| done]. split; [| done].
    show_admitted. split_and!; try done. exists id, current. split_and!; try done. set_solver.
  - unfold DeleteLabel. authorized. cbn. split; [done |]. intros [current | e]; cbn; [| done].
    destruct (_ || _) eqn:Hcur; [done |]. apply orb_false_iff in Hcur as [Hr Ha].
    apply neq_false in Hr, Ha. cbn. split; [| done].
    show_admitted. left. split; [done |]. exists id, current. split_and!; try done. set_solver.
Qed.

Lemma milestone_writes actor route id input :
  let ok {A} (p : svc effect A) := wp (write_guard actor) p (fun _ _ => True) [] in
  ok (CreateMilestone actor route input) /\ ok (UpdateMilestone actor route id input) /\
  ok (DeleteMilestone actor route id).
Proof.
  cbv zeta. split_and!.
  - unfold CreateMilestone. authorized. cbn. split; [done |]. intros now.
    destruct (MilestoneRecord_Validate _) as [[] |] eqn:Hv; cbn; [| done].
    split; [done |]. intros [key | e]; cbn; [| done]. split; [| done]. by show_admitted.
  - unfold UpdateMilestone. authorized. cbn. split; [done |].
    intros [current | e]; cbn; [| done].
    destruct (_ || _) eqn:Hcur; [done |]. apply orb_false_iff in Hcur as [Hr Ha].
    apply neq_false in Hr, Ha. cbn. split; [done |]. intros now.
    destruct (MilestoneRecord_Validate _) as [[] |] eqn:Hv; cbn; [| done]. split; [| done].
    show_admitted. split_and!; try done. exists id, current. split_and!; try done. set_solver.
  - unfold DeleteMilestone. authorized. cbn. split; [done |].
    intros [current | e]; cbn; [| done].
    destruct (_ || _) eqn:Hcur; [done |]. apply orb_false_iff in Hcur as [Hr Ha].
    apply neq_false in Hr, Ha. cbn. split; [| done].
    show_admitted. right; left. split; [done |]. exists id, current. split_and!; try done. set_solver.
Qed.

(** The last part of [PutMetadata], once labels and milestone are resolved. *)
Lemma snapshot_writes actor route kind uri subject labels assignees milestoneURI h :
  Ev (ResolveSubject route kind uri EmptyString) (Ok subject) ∈ h ->
  Ev (CanTriageRepository actor (ID (Target_Repository subject))) (Ok true) ∈ h ->
  wp (write_guard actor)
    (let? _ := call (ValidateAssignees assignees) in
     let! now := call Now in
     let createdAt := match Target_Metadata subject with
                      | Some metadata => CreatedAt (Metadata_Record metadata)
                      | None => zeroTime
                      end in
     let createdAt := if IsZero createdAt then UTC now else createdAt in
     let record := mkMetadataRecord (Target_Subject subject) kind
                     (Repository (Target_Repository subject)) labels assignees milestoneURI
                     createdAt (UTC now) in
     let? _ := lift (MetadataRecord_Validate record) in
     call (PutSubjectTriage (OwnerDID (Target_Repository subject))
             (match Target_Metadata subject with
              | Some metadata => Metadata_CID metadata | None => EmptyString end) record))
    (fun _ _ => True) h.
Proof.
  intros Hs Hc. cbn. split; [done |]. intros [[] | e]; cbn; [| done].
  split; [done |]. intros now.
  destruct (MetadataRecord_Validate _) as [[] |] eqn:Hv; cbn; [| done]. split; [| done].
  apply MetadataRecord_Validate_Ok in Hv. exists (Target_Repository subject).
  split; [split; [set_solver | right; exists route, kind, uri, subject; set_solver] |].
  split_and!; try done; [set_solver |].
  exists route, kind, uri, subject. split_and!; try done. set_solver.
Qed.

Lemma metadata_writes actor route kind uri input :
  let ok {A} (p : svc effect A) := wp (write_guard actor) p (fun _ _ => True) [] in
  ok (PutMetadata actor route kind uri input) /\ ok (DeleteMetadata actor route kind uri).
Proof.
  cbv zeta. split.
  - unfold PutMetadata. cbn. split; [done |]. intros [subject | e]; cbn; [| done].
    split; [done |]. intros [[] | e]; cbn; try done.
    destruct (maximumLabels <? _); [done |]. destruct (maximumAssignees <? _); [done |].
    cbn. split; [done |]. intros [labels | e]; cbn; [| done].
    pose proof (snapshot_writes actor route kind uri subject labels
                  (uniqueSorted (Input_AssigneeDIDs input))) as Hrest.
    destruct (_ != _).
    + split; [done |]. intros [milestoneURI | e]; [| done].
      apply (Hrest milestoneURI); set_solver.
    + apply (Hrest EmptyString); set_solver.
  - unfold DeleteMetadata. cbn. split; [done |]. intros [subject | e]; cbn; [| done].
    split; [done |]. intros [[] | e]; cbn; try done.
    destruct (Target_Metadata subject) as [m |] eqn:Hm; cbn; [| done]. split; [| done].
    exists (Target_Repository subject).
    split; [split; [set_solver | right; exists route, kind, uri, subject; set_solver] |].
    split; [done |]. right; right. split; [done |].
    exists route, kind, uri, subject, m. split_and!; try done. set_solver.
Qed.

(** No triage operation writes for an actor the repository's authorizer
    did not admit; what is written is validated, under the repository's current
    authority, and a replacement or deletion compares and swaps on the record
    just read, which that same authority must have written. *)
Theorem triage_writes_authorised (actor : string) (route : RepositoryRoute) (id : string)
    (kind : SubjectKind) (uri : string) (label : LabelInput) (milestone : MilestoneInput)
    (metadata : MetadataInput) :
  guarded (write_guard actor) (CreateLabel actor route label) /\
  guarded (write_guard actor) (UpdateLabel actor route id label) /\
  guarded (write_guard actor) (DeleteLabel actor route id) /\
  guarded (write_guard actor) (CreateMilestone actor route milestone) /\
  guarded (write_guard actor) (UpdateMilestone actor route id milestone) /\
  guarded (write_guard actor) (DeleteMilestone actor route id) /\
  guarded (write_guard actor) (PutMetadata actor route kind uri metadata) /\
  guarded (write_guard actor) (DeleteMetadata actor route kind uri).
Proof.
  destruct (label_writes actor route id label) as (? & ? & ?).
  destruct (milestone_writes actor route id milestone) as (? & ? & ?).
  destruct (metadata_writes actor route kind uri metadata).
  split_and!; by eapply wp_guarded.
Qed.

(** ** Resolving labels *)

Lemma resolveRows_from rows acc k :
  fold_left (fun (resolved : gmap string string) row =>
      match resolved !! fst row with None => <[fst row := snd row]> resolved | Some _ => resolved end)
    rows acc !! k
  = match acc !! k with
    | Some u => Some u
    | None => snd <$> List.find (fun row : string * string => fst row == k) rows
    end.
Proof.
  revert acc; induction rows as [| [rkey uri] rows IH]; intros acc; cbn [fold_left List.find].
  { by destruct (acc !! k). }
  rewrite IH. cbn [fst snd]. destruct (acc !! rkey) as [u |] eqn:Hk;
    destruct (String.eqb_spec rkey k) as [-> | Hne].
  - by rewrite Hk.
  - done.
  - by rewrite lookup_insert_eq, Hk.
  - by rewrite lookup_insert_ne.
Qed.

Lemma resolveRows_lookup rows k :
  resolveRows rows !! k = snd <$> List.find (fun row => fst row == k) rows.
Proof. unfold resolveRows. by rewrite resolveRows_from, lookup_empty. Qed.

Lemma resolveRows_row rows k u : resolveRows rows !! k = Some u -> (k, u) ∈ rows.
Proof.
  rewrite resolveRows_lookup. destruct (List.find _ rows) as [[k' u'] |] eqn:Hf; [| done].
  apply find_some in Hf as [Hin Hk]. apply String.eqb_eq in Hk. cbn in Hk. subst.
  cbn. intros [= ->]. by apply list_elem_of_In.
Qed.

Lemma resolveRows_total rows ids :
  NoDup ids -> Forall (fun row => fst row ∈ ids) rows ->
  size (resolveRows rows) = length ids ->
  forall id, id ∈ ids -> is_Some (resolveRows rows !! id).
Proof.
  intros Hnd Hrows Hsize id Hid. apply elem_of_dom.
  enough (dom (resolveRows rows) = list_to_set ids) as -> by by apply elem_of_list_to_set.
  apply set_subseteq_size_eq.
  - intros k [u Hu%resolveRows_row]%elem_of_dom. rewrite Forall_forall in Hrows.
    apply elem_of_list_to_set. exact (Hrows _ Hu).
  - rewrite size_dom, Hsize, size_list_to_set by done. done.
Qed.

(** The label URIs the store resolves for distinct label ids are one for
    each id, sorted and unique, so the snapshot they are put in is never refused
    for their order. *)
Theorem ResolveLabelURIs_sorted_unique (ids : list string) (rows : list (string * string))
    (uris : list string)
    (Hids : NoDup ids) (Hrows : Forall (fun row => fst row ∈ ids) rows)
    (Huris : NoDup (map snd rows))
    (Hok : PostgresStore_ResolveLabelURIs ids (Ok rows) = Ok uris) :
  length uris = length ids /\ IsSorted uris = true /\ hasDuplicates uris = false /\
  forall u, u ∈ uris -> exists id, id ∈ ids /\ (id, u) ∈ rows.
Proof.
  unfold PostgresStore_ResolveLabelURIs in Hok.
  destruct ids as [| id0 ids0] eqn:Hcase; [injection Hok as <-; by split_and!; [| | | intros ? ?%elem_of_nil] |].
  rewrite <- Hcase in *. assert (Hl : Nat.eqb (length ids) 0 = false) by by rewrite Hcase.
  rewrite Hl in Hok. clear Hl Hcase. cbn [mapErr] in Hok.
  apply bind_unit_Ok in Hok as [_ Hok]. cbn [mbind result_bind] in Hok.
  apply reject_Ok in Hok as [Hsize [= <-]]. apply negb_false_iff, Nat.eqb_eq in Hsize.
  pose proof (resolveRows_total rows ids Hids Hrows Hsize) as Htotal.
  set (f := fun id => default EmptyString (resolveRows rows !! id)).
  assert (Hf : forall id, id ∈ ids -> (id, f id) ∈ rows).
  { intros id Hid. apply resolveRows_row. unfold f. by destruct (Htotal id Hid) as [u ->]. }
  assert (Hnd : NoDup (map f ids)).
  { apply NoDup_fmap_2_strong; [| done]. intros x y Hx Hy Hxy.
    apply Hf in Hx, Hy. rewrite Hxy in Hx. by eapply snd_unique in Huris; eauto. }
  split_and!.
  - by rewrite Sort_perm, length_map.
  - apply IsSorted_Sorted, Sort_sorted.
  - apply hasDuplicates_sorted; [apply IsSorted_Sorted, Sort_sorted | by rewrite Sort_perm].
  - intros u Hu. rewrite Sort_perm in Hu. apply list_elem_of_fmap in Hu as (id & -> & Hid). eauto.
Qed.
End triage.

(** ** Concrete runs *)

Module triage_examples.
Import Demo.

Definition label_uri (key : string) : string :=
  "at://did:plc:owner/dev.adenosine.repositoryLabel/" +:+ key.
Definition rows : list (string * string) := [("l2", label_uri "l2"); ("l1", label_uri "l1")].

Lemma ResolveLabelURIs_sorted_unique_witness :
  length [label_uri "l1"; label_uri "l2"] = length ["l1"; "l2"] /\
  IsSorted [label_uri "l1"; label_uri "l2"] = true /\
  hasDuplicates [label_uri "l1"; label_uri "l2"] = false /\
  forall u, u ∈ [label_uri "l1"; label_uri "l2"] -> exists id, id ∈ ["l1"; "l2"] /\ (id, u) ∈ rows.
Proof.
  apply (ResolveLabelURIs_sorted_unique ["l1"; "l2"] rows).
  - apply (bool_decide_unpack _). vm_compute. exact I.
  - apply (bool_decide_unpack _). vm_compute. exact I.
  - apply (bool_decide_unpack _). vm_compute. exact I.
  - vm_compute. reflexivity.
Defined.

Definition cid : string := "bafyreigh2akiscaildc".
Definition repository : RepositoryTarget :=
  mkRepositoryTarget 7 (mkStrongRef "at://did:plc:owner/dev.adenosine.repo/r" cid) "did:plc:owner".
Definition issue_ref : StrongRef := mkStrongRef "at://did:plc:c/dev.adenosine.issue/i" cid.

(** One repository, one issue without metadata; only the triager is admitted. *)
Definition handler X (e : effect X) (_ : unit) : X * unit :=
  (match e in effect X return X with
   | ResolveRepository _ | ResolveRepositoryForRead _ => Ok repository
   | store_ListLabels _ _ _ _ => Ok None
   | store_GetLabel _ _ _ => Err ErrNotFound
   | store_ListMilestones _ _ _ _ => Ok None
   | store_GetMilestone _ _ _ => Err ErrNotFound
   | ResolveSubject _ _ _ _ | ResolveSubjectForRead _ _ _ _ =>
       Ok (mkSubjectTarget repository issue_ref None)
   | ResolveLabelURIs _ ids => PostgresStore_ResolveLabelURIs ids (Ok rows)
   | ResolveMilestoneURI _ _ => Err ErrNotFound
   | ValidateAssignees _ => Ok tt
   | publisher_CreateLabel did key r => Ok (mkLabel EmptyString cid did key r 0)
   | PutLabel did key _ r => Ok (mkLabel EmptyString cid did key r 0)
   | publisher_CreateMilestone did key r => Ok (mkMilestone EmptyString cid did key r 0)
   | PutMilestone did key _ r => Ok (mkMilestone EmptyString cid did key r 0)
   | PutSubjectTriage did _ r =>
       Ok (mkMetadata EmptyString cid did (metadata_slot (URI (Subject r))) r [] [] None 0)
   | DeleteTriageRecord _ _ _ _ => Ok tt
   | CanTriageRepository did _ => Ok (did == "did:plc:triager")
   | Now => 1000
   | NewV7 => Ok 42
   end, tt).

Definition input : MetadataInput :=
  mkMetadataInput ["l2 "; "l1"; "l2"] ["did:plc:z"; " did:plc:a"] EmptyString.

Example PutMetadata_normalises :
  exists m, fst (fst (run handler (PutMetadata "did:plc:triager" (mkRoute "o" "s") SubjectIssue
    (URI issue_ref) input) tt)) = Ok m /\
    LabelURIs (Metadata_Record m) = [label_uri "l1"; label_uri "l2"] /\
    AssigneeDIDs (Metadata_Record m) = ["did:plc:a"; "did:plc:z"].
Proof. eexists. vm_compute. split_and!; reflexivity. Qed.

Example PutMetadata_stranger :
  exists e, fst (fst (run handler (PutMetadata "did:plc:other" (mkRoute "o" "s") SubjectIssue
    (URI issue_ref) input) tt)) = Err e /\ Is e ErrAuthorization = true.
Proof. eexists. vm_compute. split; reflexivity. Qed.
End triage_examples.
End triage.
