(* ===== verification/CommitStatus.v ===== *)
(** * CommitStatus: commit statuses and check runs
    (package [internal/commitstatus]). *)

From S2P Require Import Prelude.
From S2P Require Import Keyset.
From S2P Require Import GoText.
From S2P Require Import Encoding.
From S2P Require Import Json.

(** Package [net/url]'s [ParseRequestURI], of which the code reads the scheme,
    the host and whether there is user information. *)
Class GoURL := {
  url : Type;
  ParseRequestURI : string -> option url;
  Scheme : url -> string;
  Host : url -> string;
  HasUser : url -> bool
}.

Module commitstatus.

Definition Retention : Z := 90 * 24 * hour.

Definition ErrNotFound : error := New "commit status resource not found".
Definition ErrConflict : error := New "commit status resource conflict".
Definition ErrValidation : error := New "commit status validation failed".
(** [pgx.ErrNoRows]. *)
Definition ErrNoRows : error := New "no rows in result set".

Definition State : Type := string.
Definition StatePending : State := "pending".
Definition StateSuccess : State := "success".
Definition StateFailure : State := "failure".
Definition StateError : State := "error".

Definition CheckStatus : Type := string.
Definition CheckQueued : CheckStatus := "queued".
Definition CheckInProgress : CheckStatus := "in_progress".
Definition CheckCompleted : CheckStatus := "completed".

Definition Conclusion : Type := string.
Definition conclusions : list Conclusion :=
  ["success"; "failure"; "neutral"; "cancelled"; "skipped"; "timed_out"; "action_required"].

Record CommitStatus := mkCommitStatus {
  ID : UUID; RepositoryID : UUID; CommitSHA : string; Context_ : string; Status_State : State;
  Description : string; TargetURL : option string; CreatorDID : string; ExternalID : string;
  CreatedAt : time
}.
Record StatusInput := mkStatusInput {
  Input_Context : string; Input_State : State; Input_Description : string;
  Input_TargetURL : option string; Input_ExternalID : string
}.
Record CheckRun := mkCheckRun {
  Run_ID : UUID; Run_RepositoryID : UUID; Run_CommitSHA : string; Run_Name : string;
  Run_ExternalID : string; Run_CreatorDID : string; Run_Status : CheckStatus;
  Run_Conclusion : option Conclusion; Run_DetailsURL : option string; Run_OutputTitle : string;
  Run_OutputSummary : string; Version : Z; Run_StartedAt : option time;
  Run_CompletedAt : option time; Run_CreatedAt : time; Run_UpdatedAt : time
}.
Record CheckRunInput := mkCheckRunInput {
  CI_CommitSHA : string; CI_Name : string; CI_ExternalID : string; CI_Status : CheckStatus;
  CI_Conclusion : option Conclusion; CI_DetailsURL : option string; CI_OutputTitle : string;
  CI_OutputSummary : string; CI_StartedAt : option time; CI_CompletedAt : option time
}.
Record CheckRunUpdate := mkCheckRunUpdate {
  ExpectedVersion : Z; CU_Status : CheckStatus; CU_Conclusion : option Conclusion;
  CU_DetailsURL : option string; CU_OutputTitle : string; CU_OutputSummary : string;
  CU_StartedAt : option time; CU_CompletedAt : option time
}.
Record Page (T : Type) := mkPage { Items : list T; NextCursor : option UUID }.
Arguments mkPage {T}. Arguments Items {T}. Arguments NextCursor {T}.
Record Combined_ := mkCombined { SHA : string; Combined_State : State; Combined_Items : list CommitStatus }.

(** The rows of [core.commit_statuses] and [core.check_runs]: the value the
    package returns for a row, and the columns it does not return. *)
Record StatusRow := mkStatusRow {
  row_status : CommitStatus; RequestHash : list Z; Status_ExpiresAt : time
}.
Record RunRow := mkRunRow {
  row_run : CheckRun; CreateRequestHash : list Z; Run_ExpiresAt : time
}.
Definition statusFromRow (row : StatusRow) : CommitStatus := row_status row.
Definition checkRunFromRow (row : RunRow) : CheckRun := row_run row.

(** The queries of [commit_statuses.sql] and [uuid.NewV7]. *)
Inductive effect : Type -> Type :=
| CreateCommitStatus (row : StatusRow) : effect (result StatusRow)
| GetCommitStatusByExternalID (repositoryID : UUID) (creatorDID externalID : string)
    : effect (result StatusRow)
| PageCommitStatuses (repositoryID : UUID) (commitSHA : string) (after : option UUID) (limit : Z)
    : effect (result (list StatusRow))
| LatestCommitStatuses (repositoryID : UUID) (commitSHA : string)
    : effect (result (list StatusRow))
| queries_CreateCheckRun (row : RunRow) : effect (result RunRow)
| queries_GetCheckRun (id repositoryID : UUID) : effect (result RunRow)
| GetCheckRunByExternalID (repositoryID : UUID) (creatorDID externalID : string)
    : effect (result RunRow)
| queries_PageCheckRuns (repositoryID : UUID) (commitSHA : string) (after : option UUID) (limit : Z)
    : effect (result (list RunRow))
| queries_UpdateCheckRun (id repositoryID : UUID) (creatorDID : string) (u : CheckRunUpdate)
    (updatedAt expiresAt : time) : effect (result RunRow)
| DeleteExpiredCommitStatuses (before : time) : effect (result Z)
| DeleteExpiredCheckRuns (before : time) : effect (result Z)
| Now : effect time
| NewV7 : effect (result UUID).

Definition invalid (what : string) : error := Errorf ("%w: " +:+ what) [W ErrValidation].

Definition validateName (field value : string) (maximum : Z) : result unit :=
  reject_if (value == EmptyString) || (maximum <? len value)
    || ContainsAny value (of_bytes [13; 10; 0])
    with Errorf "%w: %s must contain between 1 and %d safe characters"
           [W ErrValidation; Str field; Int maximum] ;;
  Ok tt.

Definition validateCheckOutput (title summary : string) : result unit :=
  reject_if (255 <? len title) || (65535 <? len summary)
    with invalid "check output exceeds its size limit" ;;
  Ok tt.

Definition validTransition (from to : CheckStatus) : bool :=
  if from == to then true
  else ((from == CheckQueued) && ((to == CheckInProgress) || (to == CheckCompleted)))
       || ((from == CheckInProgress) && (to == CheckCompleted)).

Definition validConclusion (value : Conclusion) : bool := existsb (String.eqb value) conclusions.

Definition utcTime (value : option time) : option time := option_map UTC value.

(** [if p == nil { p = &fallback }]. *)
Definition or_else {A} (value fallback : option A) : option A :=
  match value with Some a => Some a | None => fallback end.

Definition normalizeLifecycle (status : CheckStatus) (conclusion : option Conclusion)
    (startedAt completedAt priorStartedAt : option time) (now : time)
    : result (option time * option time) :=
  if status == CheckQueued then
    match conclusion, startedAt, completedAt with
    | None, None, None => Ok (None, None)
    | _, _, _ => Err (invalid "queued checks cannot have conclusion or execution timestamps")
    end
  else if status == CheckInProgress then
    match conclusion, completedAt with
    | None, None =>
        Ok (utcTime (or_else (or_else startedAt priorStartedAt) (Some (UTC now))), None)
    | _, _ => Err (invalid "in-progress checks cannot have a conclusion or completion time")
    end
  else if status == CheckCompleted then
    reject_if match conclusion with Some c => negb (validConclusion c) | None => true end
      with invalid "completed checks require a supported conclusion" ;;
    let started := default (UTC now) (or_else startedAt priorStartedAt) in
    let completed := default (UTC now) completedAt in
    reject_if Before completed started
      with invalid "completion time must not precede start time" ;;
    Ok (utcTime (Some started), utcTime (Some completed))
  else Err (invalid "unsupported check status").

Definition priority (state : State) : Z :=
  if state == StateSuccess then 0 else if state == StatePending then 1
  else if state == StateFailure then 2 else if state == StateError then 3 else 0.
Definition combineState (current candidate : State) : State :=
  if priority current <? priority candidate then candidate else current.

Definition validatePage (commitSHA : string) (limit : Z) : result unit :=
  reject_if negb (match_git_sha commitSHA)
    with invalid "commit SHA must be a full lowercase object ID" ;;
  reject_if (limit <? 1) || (100 <? limit) with invalid "limit must be between 1 and 100" ;;
  Ok tt.

Definition checkRunMatches (current : CheckRun) (input : CheckRunUpdate) : bool :=
  (Run_Status current == CU_Status input)
  && bool_decide (Run_Conclusion current = CU_Conclusion input)
  && bool_decide (Run_DetailsURL current = CU_DetailsURL input)
  && (Run_OutputTitle current == CU_OutputTitle input)
  && (Run_OutputSummary current == CU_OutputSummary input)
  && bool_decide (Run_StartedAt current = CU_StartedAt input)
  && bool_decide (Run_CompletedAt current = CU_CompletedAt input).

(** [requestHash] of the two structs that are fingerprinted. *)
Definition statusRequestHash (commitSHA : string) (input : StatusInput) : list Z :=
  Sum256 (json.object
    [("CommitSHA", json.string_ commitSHA);
     ("Input", json.object
        [("Context", json.string_ (Input_Context input));
         ("State", json.string_ (Input_State input));
         ("Description", json.string_ (Input_Description input));
         ("TargetURL", json.nullable json.string_ (Input_TargetURL input));
         ("ExternalID", json.string_ (Input_ExternalID input))])]).

Definition checkRequestHash (input : CheckRunInput) : result (list Z) :=
  match json.optional_time (CI_StartedAt input), json.optional_time (CI_CompletedAt input) with
  | Some started, Some completed =>
      Ok (Sum256 (json.object
        [("CommitSHA", json.string_ (CI_CommitSHA input));
         ("Name", json.string_ (CI_Name input));
         ("ExternalID", json.string_ (CI_ExternalID input));
         ("Status", json.string_ (CI_Status input));
         ("Conclusion", json.nullable json.string_ (CI_Conclusion input));
         ("DetailsURL", json.nullable json.string_ (CI_DetailsURL input));
         ("OutputTitle", json.string_ (CI_OutputTitle input));
         ("OutputSummary", json.string_ (CI_OutputSummary input));
         ("StartedAt", started); ("CompletedAt", completed)]))
  | _, _ => Err (Errorf "encode replay fingerprint: %w" [W (New "json: time out of range")])
  end.

Section commitstatus.
Context `{GoURL}.

(** The trimmed URL: the code writes it back through the pointer. *)
Definition validateURL (value : option string) : result (option string) :=
  match value with
  | None => Ok None
  | Some value =>
      let trimmed := TrimSpace value in
      let bad := Err (invalid "URLs must be absolute HTTPS URLs without user information") in
      match ParseRequestURI trimmed with
      | None => bad
      | Some parsed =>
          if (Scheme parsed != "https") || (Host parsed == EmptyString) || HasUser parsed
          then bad else Ok (Some trimmed)
      end
  end.

Definition normalizeStatusInput (commitSHA creatorDID : string) (input : StatusInput)
    : result StatusInput :=
  let context := TrimSpace (Input_Context input) in
  let description := TrimSpace (Input_Description input) in
  let externalID := TrimSpace (Input_ExternalID input) in
  let state := Input_State input in
  reject_if negb (match_git_sha commitSHA)
    with invalid "commit SHA must be a full lowercase object ID" ;;
  reject_if TrimSpace creatorDID == EmptyString with invalid "creator DID is required" ;;
  let* _ := validateName "context" context 100 in
  reject_if (state != StatePending) && (state != StateSuccess) && (state != StateFailure)
    && (state != StateError) with invalid "unsupported status state" ;;
  reject_if 140 <? len description with invalid "description must not exceed 140 characters" ;;
  let* _ := validateName "external_id" externalID 255 in
  let* targetURL := validateURL (Input_TargetURL input) in
  Ok (mkStatusInput context state description targetURL externalID).

Definition normalizeCheckRunInput (input : CheckRunInput) (creatorDID : string) (now : time)
    : result CheckRunInput :=
  let name := TrimSpace (CI_Name input) in
  let externalID := TrimSpace (CI_ExternalID input) in
  let title := TrimSpace (CI_OutputTitle input) in
  reject_if negb (match_git_sha (CI_CommitSHA input))
    with invalid "commit SHA must be a full lowercase object ID" ;;
  reject_if TrimSpace creatorDID == EmptyString with invalid "creator DID is required" ;;
  let* _ := validateName "name" name 100 in
  let* _ := validateName "external_id" externalID 255 in
  let* _ := validateCheckOutput title (CI_OutputSummary input) in
  let* detailsURL := validateURL (CI_DetailsURL input) in
  let* times := normalizeLifecycle (CI_Status input) (CI_Conclusion input) (CI_StartedAt input)
                  (CI_CompletedAt input) None now in
  Ok (mkCheckRunInput (CI_CommitSHA input) name externalID (CI_Status input)
        (CI_Conclusion input) detailsURL title (CI_OutputSummary input) (fst times) (snd times)).

Definition normalizeCheckRunUpdate (current : CheckRun) (input : CheckRunUpdate) (now : time)
    : result CheckRunUpdate :=
  let title := TrimSpace (CU_OutputTitle input) in
  reject_if ExpectedVersion input <? 1 with invalid "expected_version must be positive" ;;
  let* _ := validateCheckOutput title (CU_OutputSummary input) in
  let* detailsURL := validateURL (CU_DetailsURL input) in
  reject_if negb (validTransition (Run_Status current) (CU_Status input))
    with Errorf "%w: check run cannot transition from %s to %s"
           [W ErrConflict; Str (Run_Status current); Str (CU_Status input)] ;;
  let* times := normalizeLifecycle (CU_Status input) (CU_Conclusion input) (CU_StartedAt input)
                  (CU_CompletedAt input) (Run_StartedAt current) now in
  Ok (mkCheckRunUpdate (ExpectedVersion input) (CU_Status input) (CU_Conclusion input) detailsURL
        title (CU_OutputSummary input) (fst times) (snd times)).

Definition wrapf (format : string) (err : error) : error := Errorf format [W err].

Definition CreateStatus (repositoryID : UUID) (creatorDID commitSHA : string)
    (input : StatusInput) (now : time) : svc effect (CommitStatus * bool) :=
  let? normalized := lift (normalizeStatusInput commitSHA creatorDID input) in
  let fingerprint := statusRequestHash commitSHA normalized in
  let? id := wrapErr (wrapf "generate commit status ID: %w") (call NewV7) in
  let now := UTC now in
  let row := mkStatusRow
    (mkCommitStatus id repositoryID commitSHA (Input_Context normalized) (Input_State normalized)
       (Input_Description normalized) (Input_TargetURL normalized) creatorDID
       (Input_ExternalID normalized) now) fingerprint (now + Retention) in
  let! created := call (CreateCommitStatus row) in
  match created with
  | Ok row => done_ (statusFromRow row, true)
  | Err err =>
      if negb (Is err ErrNoRows) then fail (wrapf "create commit status: %w" err) else
      let? existing := wrapErr (wrapf "resolve commit status replay: %w")
        (call (GetCommitStatusByExternalID repositoryID creatorDID (Input_ExternalID normalized))) in
      if negb (bool_decide (RequestHash existing = fingerprint))
      then fail (Errorf "%w: external_id was already used with a different status" [W ErrConflict])
      else done_ (statusFromRow existing, false)
  end.

(** The page of at most [limit] items the [limit + 1] requested rows make. *)
Definition page {R T} (id : T -> UUID) (fromRow : R -> T) (limit : Z) (rows : list R) : Page T :=
  let items := map fromRow (firstn (Z.to_nat limit) rows) in
  mkPage items (if limit <? Z.of_nat (length rows) then option_map id (last items) else None).

Definition PageStatuses (repositoryID : UUID) (commitSHA : string) (after : option UUID)
    (limit : Z) : svc effect (Page CommitStatus) :=
  let? _ := lift (validatePage commitSHA limit) in
  let? rows := wrapErr (wrapf "page commit statuses: %w")
                 (call (PageCommitStatuses repositoryID commitSHA after (limit + 1))) in
  done_ (page ID statusFromRow limit rows).

Definition Combined (repositoryID : UUID) (commitSHA : string) : svc effect Combined_ :=
  if negb (match_git_sha commitSHA)
  then fail (invalid "commit SHA must be a full lowercase object ID") else
  let? rows := wrapErr (wrapf "read combined commit status: %w")
                 (call (LatestCommitStatuses repositoryID commitSHA)) in
  let items := map statusFromRow rows in
  let initial := match rows with [] => StatePending | _ => StateSuccess end in
  done_ (mkCombined commitSHA
           (fold_left (fun state item => combineState state (Status_State item)) items initial)
           items).

Definition CreateCheckRun (repositoryID : UUID) (creatorDID : string) (input : CheckRunInput)
    (now : time) : svc effect (CheckRun * bool) :=
  let? normalized := lift (normalizeCheckRunInput input creatorDID (UTC now)) in
  let? fingerprint := lift (checkRequestHash normalized) in
  let? id := wrapErr (wrapf "generate check run ID: %w") (call NewV7) in
  let now := UTC now in
  let row := mkRunRow
    (mkCheckRun id repositoryID (CI_CommitSHA normalized) (CI_Name normalized)
       (CI_ExternalID normalized) creatorDID (CI_Status normalized) (CI_Conclusion normalized)
       (CI_DetailsURL normalized) (CI_OutputTitle normalized) (CI_OutputSummary normalized) 1
       (CI_StartedAt normalized) (CI_CompletedAt normalized) now now)
    fingerprint (now + Retention) in
  let! created := call (queries_CreateCheckRun row) in
  match created with
  | Ok row => done_ (checkRunFromRow row, true)
  | Err err =>
      if negb (Is err ErrNoRows) then fail (wrapf "create check run: %w" err) else
      let? existing := wrapErr (wrapf "resolve check run replay: %w")
        (call (GetCheckRunByExternalID repositoryID creatorDID (CI_ExternalID normalized))) in
      if negb (bool_decide (CreateRequestHash existing = fingerprint))
      then fail (Errorf "%w: external_id was already used with a different check run" [W ErrConflict])
      else done_ (checkRunFromRow existing, false)
  end.

Definition GetCheckRun (repositoryID id : UUID) : svc effect CheckRun :=
  let? row := wrapErr (fun err => if Is err ErrNoRows then ErrNotFound
                                  else wrapf "get check run: %w" err)
                (call (queries_GetCheckRun id repositoryID)) in
  done_ (checkRunFromRow row).

Definition PageCheckRuns (repositoryID : UUID) (commitSHA : string) (after : option UUID)
    (limit : Z) : svc effect (Page CheckRun) :=
  let? _ := lift (validatePage commitSHA limit) in
  let? rows := wrapErr (wrapf "page check runs: %w")
                 (call (queries_PageCheckRuns repositoryID commitSHA after (limit + 1))) in
  done_ (page Run_ID checkRunFromRow limit rows).

Definition UpdateCheckRun (repositoryID : UUID) (creatorDID : string) (id : UUID)
    (input : CheckRunUpdate) (now : time) : svc effect (CheckRun * bool) :=
  let? current := GetCheckRun repositoryID id in
  if Run_CreatorDID current != creatorDID then fail ErrNotFound else
  let? normalized := lift (normalizeCheckRunUpdate current input (UTC now)) in
  if checkRunMatches current normalized then done_ (current, false) else
  if negb (Version current =? ExpectedVersion normalized)
  then fail (Errorf "%w: expected check run version %d, current version is %d"
               [W ErrConflict; Int (ExpectedVersion normalized); Int (Version current)]) else
  let? row := wrapErr (fun err => if Is err ErrNoRows then ErrConflict
                                  else wrapf "update check run: %w" err)
                (call (queries_UpdateCheckRun id repositoryID creatorDID normalized (UTC now)
                         (UTC now + Retention))) in
  done_ (checkRunFromRow row, true).

(** [RetentionWorker.cleanup]. *)
Definition cleanup : svc effect unit :=
  let! now := call Now in
  let cutoff := UTC now in
  let? _ := wrapErr (wrapf "delete expired commit status history: %w")
              (call (DeleteExpiredCommitStatuses cutoff)) in
  let? _ := wrapErr (wrapf "delete expired check run history: %w")
              (call (DeleteExpiredCheckRuns cutoff)) in
  done_ tt.
End commitstatus.

(** ** The lifecycle of a check run *)

Definition lifecycle_ok (status : CheckStatus) (conclusion : option Conclusion)
    (startedAt completedAt : option time) : Prop :=
  (status = CheckQueued /\ conclusion = None /\ startedAt = None /\ completedAt = None) \/
  (status = CheckInProgress /\ conclusion = None /\ completedAt = None /\
   exists t, startedAt = Some t) \/
  (status = CheckCompleted /\
   exists c t u, conclusion = Some c /\ In c conclusions /\ startedAt = Some t /\
                 completedAt = Some u /\ t <= u).

Definition run_ok (run : CheckRun) : Prop :=
  lifecycle_ok (Run_Status run) (Run_Conclusion run) (Run_StartedAt run) (Run_CompletedAt run).

Lemma validConclusion_In c : validConclusion c = true <-> In c conclusions.
Proof.
  unfold validConclusion. rewrite existsb_exists. split.
  - intros (x & Hin & Hx%String.eqb_eq). by subst.
  - intros Hin. exists c. by rewrite String.eqb_refl.
Qed.

Lemma normalizeLifecycle_Ok status conclusion startedAt completedAt prior now s e :
  normalizeLifecycle status conclusion startedAt completedAt prior now = Ok (s, e) ->
  lifecycle_ok status conclusion s e /\
  s = (if status == CheckQueued then None else Some (default now (or_else startedAt prior))) /\
  e = (if status == CheckCompleted then Some (default now completedAt) else None).
Proof.
  unfold normalizeLifecycle, lifecycle_ok.
  destruct (String.eqb_spec status CheckQueued) as [-> | Hq].
  { destruct conclusion, startedAt, completedAt; try done. intros [= <- <-].
    split; [by left | done]. }
  destruct (String.eqb_spec status CheckInProgress) as [-> | Hp].
  { destruct conclusion, completedAt; try done. intros [= <- <-].
    destruct startedAt, prior; (split; [right; left; cbn; eauto | done]). }
  destruct (String.eqb_spec status CheckCompleted) as [-> | Hc]; [| done].
  rewrite !reject_Ok. intros (Hcon & Hle & [= <- <-]).
  destruct conclusion as [c |]; [| done]. apply negb_false_iff, validConclusion_In in Hcon.
  split; [right; right | done]. split; [done |].
  exists c. do 2 eexists. split_and!; try done. unfold Before in Hle. apply Z.ltb_ge in Hle. done.
Qed.

(** The execution times of a check run are normalised into one of three
    shapes: queued without any, in progress with a start, completed with a
    supported conclusion and an end not before its start; times that were given
    are kept, a known start is reused, the clock fills the rest, and everything
    else is a validation error. *)
Theorem normalizeLifecycle_spec (status : CheckStatus) (conclusion : option Conclusion)
    (startedAt completedAt prior : option time) (now : time) :
  match normalizeLifecycle status conclusion startedAt completedAt prior now with
  | Ok (s, e) =>
      lifecycle_ok status conclusion s e /\
      s = (if status == CheckQueued then None else Some (default now (or_else startedAt prior))) /\
      e = (if status == CheckCompleted then Some (default now completedAt) else None)
  | Err err => Is err ErrValidation = true
  end.
Proof.
  destruct (normalizeLifecycle _ _ _ _ _ _) as [[s e] | err] eqn:Hn;
    [by eapply normalizeLifecycle_Ok |].
  unfold normalizeLifecycle in Hn.
  repeat (case_match; try (injection Hn as <-; reflexivity); try done).
  all: unfold reject in Hn; repeat case_match; simplify_eq; try done.
Qed.

(** ** Combined states *)

(** The worst state of the contexts, by priority; pending when there are none. *)
Definition worst (states : list State) : State :=
  match states with
  | [] => StatePending
  | _ => if existsb (String.eqb StateError) states then StateError
         else if existsb (String.eqb StateFailure) states then StateFailure
         else if existsb (String.eqb StatePending) states then StatePending
         else StateSuccess
  end.

Definition known (state : State) : Prop :=
  state = StateSuccess \/ state = StatePending \/ state = StateFailure \/ state = StateError.

Lemma combine_worst states current :
  Forall known states -> known current ->
  fold_left combineState states current = worst (current :: states).
Proof.
  intros Hs; revert current. induction Hs as [| x states Hx _ IH]; intros current Hc.
  { by destruct Hc as [-> | [-> | [-> | ->]]]. }
  cbn [fold_left]. rewrite IH.
  - unfold worst. cbn [existsb].
    destruct Hc as [-> | [-> | [-> | ->]]], Hx as [-> | [-> | [-> | ->]]];
      by repeat match goal with |- context [existsb ?f states] => destruct (existsb f states) end.
  - unfold combineState. by case_match.
Qed.

Lemma worst_success states : states <> [] -> worst (StateSuccess :: states) = worst states.
Proof. by destruct states. Qed.

(** The combined state of a commit is the worst among its contexts: error
    over failure over pending over success, pending when nothing reported; so it
    does not depend on the order the store returns them in. *)
Theorem Combined_worst (repositoryID : UUID) (commitSHA : string) :
  ensures (fun tr r => forall c, r = Ok c ->
    exists rows, tr = [Ev (LatestCommitStatuses repositoryID commitSHA) (Ok rows)] /\
      Combined_Items c = map statusFromRow rows /\
      let states := map Status_State (Combined_Items c) in
      (Forall known states ->
       Combined_State c = worst states /\
       forall states', states' ≡ₚ states -> worst states' = Combined_State c))
    (Combined repositoryID commitSHA).
Proof.
  apply (wp_ensures (fun _ _ _ => True)). unfold Combined.
  destruct (negb _); [done |]. cbn. split; [done |]. intros [rows | e]; cbn; [| done].
  intros c [= <-]. exists rows. cbn [Combined_Items Combined_State]. split_and!; try done.
  intros Hk.
  assert (Hfold : forall items init,
    fold_left (fun state item => combineState state (Status_State item)) items init
    = fold_left combineState (map Status_State items) init).
  { intros items; induction items; intros init; cbn; auto. }
  rewrite Hfold. clear Hfold.
  assert (Hw : fold_left combineState (map Status_State (map statusFromRow rows))
                 match rows with [] => StatePending | _ => StateSuccess end
               = worst (map Status_State (map statusFromRow rows))).
  { destruct rows as [| row rows]; [done |].
    rewrite combine_worst by (done || by left). by apply worst_success. }
  rewrite Hw. split; [done |]. intros states' Hp. unfold worst.
  destruct states' as [| x states'], (map Status_State (map statusFromRow rows)) as [| y ys] eqn:Hl;
    try done.
  - by apply Permutation_nil_cons in Hp.
  - by apply symmetry, Permutation_nil_cons in Hp.
  - assert (He : forall f, existsb f (x :: states') = existsb f (y :: ys)).
    { intros f. apply eq_true_iff_eq. rewrite !existsb_exists.
      split; intros (z & Hz & Hf); exists z; (split; [| done]);
        apply list_elem_of_In; apply list_elem_of_In in Hz; by rewrite Hp || rewrite <- Hp. }
    by rewrite !He.
Qed.

(** ** The tables, as the queries of [commit_statuses.sql] read and write them *)

Record db := mkDb { statuses : list StatusRow; runs : list RunRow; fresh : UUID; clock : time }.

Definition status_key (repositoryID : UUID) (creator external : string) (row : StatusRow) : bool :=
  (RepositoryID (row_status row) =? repositoryID) && (CreatorDID (row_status row) == creator)
  && (ExternalID (row_status row) == external).
Definition run_key (repositoryID : UUID) (creator external : string) (row : RunRow) : bool :=
  (Run_RepositoryID (row_run row) =? repositoryID) && (Run_CreatorDID (row_run row) == creator)
  && (Run_ExternalID (row_run row) == external).

(** [SELECT DISTINCT ON (group) ... ORDER BY group, id DESC]: the row of the
    greatest id of each group. *)
Definition latest {R} (same : R -> R -> bool) (id : R -> UUID) (rows : list R) : list R :=
  List.filter (fun row => forallb (fun other => negb (same row other) || (id other <=? id row)) rows)
    rows.
Definition expired {R} (same : R -> R -> bool) (id : R -> UUID) (old : R -> bool) (rows : list R)
    : list R :=
  List.filter (fun row => negb (old row)
    || existsb (fun kept => id kept =? id row) (latest same id rows)) rows.

Definition update_run (u : CheckRunUpdate) (updatedAt expiresAt : time) (row : RunRow) : RunRow :=
  let run := row_run row in
  mkRunRow (mkCheckRun (Run_ID run) (Run_RepositoryID run) (Run_CommitSHA run) (Run_Name run)
              (Run_ExternalID run) (Run_CreatorDID run) (CU_Status u) (CU_Conclusion u)
              (CU_DetailsURL u) (CU_OutputTitle u) (CU_OutputSummary u) (Version run + 1)
              (CU_StartedAt u) (CU_CompletedAt u) (Run_CreatedAt run) updatedAt)
    (CreateRequestHash row) expiresAt.

(** [WHERE id = ... AND repository_id = ... AND creator_did = ... AND version = ...]. *)
Definition update_hit (id repositoryID : UUID) (creator : string) (expectedVersion : Z)
    (row : RunRow) : bool :=
  (Run_ID (row_run row) =? id) && (Run_RepositoryID (row_run row) =? repositoryID)
  && (Run_CreatorDID (row_run row) == creator) && (Version (row_run row) =? expectedVersion).
Definition update_where (hit : RunRow -> bool) (u : CheckRunUpdate) (updatedAt expiresAt : time)
    (row : RunRow) : RunRow :=
  if hit row then update_run u updatedAt expiresAt row else row.

(** The order and the rows of the [Page...] queries. *)
Definition status_time (row : StatusRow) : time * UUID :=
  (CreatedAt (row_status row), ID (row_status row)).
Definition run_time (row : RunRow) : time * UUID := (Run_CreatedAt (row_run row), Run_ID (row_run row)).
Definition of_commit (repositoryID : UUID) (commitSHA : string) (row : StatusRow) : bool :=
  (RepositoryID (row_status row) =? repositoryID) && (CommitSHA (row_status row) == commitSHA).
Definition run_of_commit (repositoryID : UUID) (commitSHA : string) (row : RunRow) : bool :=
  (Run_RepositoryID (row_run row) =? repositoryID) && (Run_CommitSHA (row_run row) == commitSHA).

Definition duplicate_key : error := New "duplicate key value violates unique constraint".

Definition same_context (x y : StatusRow) : bool :=
  (RepositoryID (row_status x) =? RepositoryID (row_status y))
  && (CommitSHA (row_status x) == CommitSHA (row_status y))
  && (Context_ (row_status x) == Context_ (row_status y)).
Definition same_check (x y : RunRow) : bool :=
  (Run_RepositoryID (row_run x) =? Run_RepositoryID (row_run y))
  && (Run_CommitSHA (row_run x) == Run_CommitSHA (row_run y))
  && (Run_Name (row_run x) == Run_Name (row_run y)).

Definition handle X (e : effect X) (s : db) : X * db :=
  match e in effect X return X * db with
  | CreateCommitStatus row =>
      let st := row_status row in
      if existsb (status_key (RepositoryID st) (CreatorDID st) (ExternalID st)) (statuses s)
      then (Err ErrNoRows, s)
      else if existsb (fun r => ID (row_status r) =? ID st) (statuses s)
      then (Err duplicate_key, s)
      else (Ok row, mkDb (statuses s ++ [row]) (runs s) (fresh s) (clock s))
  | GetCommitStatusByExternalID repo creator external =>
      (find_row ErrNoRows (status_key repo creator external) (statuses s), s)
  | PageCommitStatuses repo sha after limit =>
      (Ok (keyset.page_rows status_time (of_commit repo sha) (of_commit repo sha) after limit
             (statuses s)), s)
  | LatestCommitStatuses repo sha =>
      (Ok (latest same_context (fun r => ID (row_status r))
             (List.filter (fun r => (RepositoryID (row_status r) =? repo)
                                    && (CommitSHA (row_status r) == sha)) (statuses s))), s)
  | queries_CreateCheckRun row =>
      let run := row_run row in
      if existsb (run_key (Run_RepositoryID run) (Run_CreatorDID run) (Run_ExternalID run)) (runs s)
      then (Err ErrNoRows, s)
      else if existsb (fun r => Run_ID (row_run r) =? Run_ID run) (runs s)
      then (Err duplicate_key, s)
      else (Ok row, mkDb (statuses s) (runs s ++ [row]) (fresh s) (clock s))
  | queries_GetCheckRun id repo =>
      (find_row ErrNoRows (fun r => (Run_ID (row_run r) =? id) && (Run_RepositoryID (row_run r) =? repo))
         (runs s), s)
  | GetCheckRunByExternalID repo creator external =>
      (find_row ErrNoRows (run_key repo creator external) (runs s), s)
  | queries_PageCheckRuns repo sha after limit =>
      (Ok (keyset.page_rows run_time (run_of_commit repo sha) (run_of_commit repo sha) after limit
             (runs s)), s)
  | queries_UpdateCheckRun id repo creator u updatedAt expiresAt =>
      let hit := update_hit id repo creator (ExpectedVersion u) in
      let update := update_where hit u updatedAt expiresAt in
      match find_row ErrNoRows hit (runs s) with
      | Err e => (Err e, s)
      | Ok row => (Ok (update row), mkDb (statuses s) (map update (runs s)) (fresh s) (clock s))
      end
  | DeleteExpiredCommitStatuses before =>
      let kept := expired same_context (fun r => ID (row_status r))
                    (fun r => Status_ExpiresAt r <=? before) (statuses s) in
      (Ok (Z.of_nat (length (statuses s)) - Z.of_nat (length kept)),
       mkDb kept (runs s) (fresh s) (clock s))
  | DeleteExpiredCheckRuns before =>
      let kept := expired same_check (fun r => Run_ID (row_run r))
                    (fun r => (Run_ExpiresAt r <=? before)
                              && (Run_Status (row_run r) == CheckCompleted)) (runs s) in
      (Ok (Z.of_nat (length (runs s)) - Z.of_nat (length kept)),
       mkDb (statuses s) kept (fresh s) (clock s))
  | Now => (clock s, s)
  | NewV7 => (Ok (fresh s), mkDb (statuses s) (runs s) (fresh s + 1) (clock s))
  end.

#[global] Arguments statusRequestHash : simpl never.
#[global] Arguments checkRequestHash : simpl never.

Section tables.
Context `{GoURL}.

Lemma find_existsb {R} (f : R -> bool) rows :
  existsb f rows = true <-> exists row, List.find f rows = Some row /\ f row = true /\ In row rows.
Proof.
  rewrite existsb_exists. split.
  - intros (x & Hin & Hx). destruct (List.find f rows) as [row |] eqn:Hf.
    + exists row. split; [done |]. apply find_some in Hf. tauto.
    + by rewrite (find_none f rows Hf x Hin) in Hx.
  - intros (row & _ & Hrow & Hin). by exists row.
Qed.

Lemma status_key_self row :
  status_key (RepositoryID (row_status row)) (CreatorDID (row_status row))
    (ExternalID (row_status row)) row = true.
Proof. unfold status_key. by rewrite Z.eqb_refl, !String.eqb_refl. Qed.

Lemma run_key_self row :
  run_key (Run_RepositoryID (row_run row)) (Run_CreatorDID (row_run row))
    (Run_ExternalID (row_run row)) row = true.
Proof. unfold run_key. by rewrite Z.eqb_refl, !String.eqb_refl. Qed.

(** What a successful creation leaves behind: a row under the external id that
    carries the request's fingerprint and is the one returned. *)
Lemma CreateStatus_created repo creator sha input now s status created s' :
  exec handle (CreateStatus repo creator sha input now) s = (Ok (status, created), s') ->
  exists n row,
    normalizeStatusInput sha creator input = Ok n /\
    List.find (status_key repo creator (Input_ExternalID n)) (statuses s') = Some row /\
    RequestHash row = statusRequestHash sha n /\ status = statusFromRow row /\
    runs s' = runs s.
Proof.
  unfold exec, CreateStatus.
  destruct (normalizeStatusInput sha creator input) as [n | e] eqn:Hn; cbn; [| done].
  destruct (existsb (status_key repo creator (Input_ExternalID n)) (statuses s)) eqn:Hex; cbn.
  - change (Is ErrNoRows ErrNoRows) with true. cbn.
    apply find_existsb in Hex as (row & Hfind & _ & _).
    unfold find_row. rewrite Hfind. cbn. case_bool_decide as Hh; cbn; [| done].
    intros [= <- <- <-]. exists n, row. by split_and!.
  - destruct (existsb (fun r => ID (row_status r) =? fresh s) (statuses s)); cbn.
    { by change (Is duplicate_key ErrNoRows) with false. }
    intros [= <- <- <-]. exists n. eexists. split; [done |].
    split; [apply find_app_last; [done |] | done].
    unfold status_key. cbn. by rewrite Z.eqb_refl, !String.eqb_refl.
Qed.

(** Reporting a status is replay-safe: once a report succeeded, sending the
    same one again, at any later time, changes no table and returns the status
    first stored. *)
Theorem CreateStatus_replay (repo : UUID) (creator sha : string) (input : StatusInput)
    (now later : time) (s s' : db) (status : CommitStatus) (created : bool)
    (Hfirst : exec handle (CreateStatus repo creator sha input now) s = (Ok (status, created), s')) :
  exists s'', exec handle (CreateStatus repo creator sha input later) s' = (Ok (status, false), s'') /\
    statuses s'' = statuses s' /\ runs s'' = runs s'.
Proof.
  apply CreateStatus_created in Hfirst as (n & row & Hn & Hfind & Hhash & -> & _).
  unfold exec, CreateStatus. rewrite Hn. cbn.
  assert (Hex : existsb (status_key repo creator (Input_ExternalID n)) (statuses s') = true).
  { apply find_existsb. exists row. split; [done |]. apply find_some in Hfind. tauto. }
  rewrite Hex. cbn. change (Is ErrNoRows ErrNoRows) with true. cbn.
  unfold find_row. rewrite Hfind. cbn. rewrite Hhash, bool_decide_true by done. cbn. by eexists.
Qed.

(** A request whose execution times do not depend on the clock. *)
Definition times_given (input : CheckRunInput) : Prop :=
  CI_Status input = CheckQueued \/
  (CI_Status input = CheckInProgress /\ CI_StartedAt input <> None) \/
  (CI_Status input = CheckCompleted /\ CI_StartedAt input <> None /\ CI_CompletedAt input <> None).

Lemma normalizeCheckRunInput_clock input creator now later :
  times_given input ->
  normalizeCheckRunInput input creator now = normalizeCheckRunInput input creator later.
Proof.
  intros Ht. unfold normalizeCheckRunInput.
  assert (Hl : normalizeLifecycle (CI_Status input) (CI_Conclusion input) (CI_StartedAt input)
                 (CI_CompletedAt input) None now
             = normalizeLifecycle (CI_Status input) (CI_Conclusion input) (CI_StartedAt input)
                 (CI_CompletedAt input) None later).
  { unfold normalizeLifecycle.
    destruct Ht as [-> | [[-> Hs] | (-> & Hs & He)]]; [done | |];
      by destruct (CI_StartedAt input), (CI_CompletedAt input). }
  by rewrite Hl.
Qed.

#[local] Arguments normalizeCheckRunInput : simpl never.
#[local] Arguments normalizeCheckRunUpdate : simpl never.
#[local] Arguments checkRunMatches : simpl never.

Lemma CreateCheckRun_created repo creator input now s run created s' :
  exec handle (CreateCheckRun repo creator input now) s = (Ok (run, created), s') ->
  exists n hash row,
    normalizeCheckRunInput input creator (UTC now) = Ok n /\ checkRequestHash n = Ok hash /\
    List.find (run_key repo creator (CI_ExternalID n)) (runs s') = Some row /\
    CreateRequestHash row = hash /\ run = checkRunFromRow row.
Proof.
  unfold exec, CreateCheckRun.
  destruct (normalizeCheckRunInput _ _ _) as [n | e] eqn:Hn; cbn; [| done].
  destruct (checkRequestHash n) as [hash | e] eqn:Hhash; cbn; [| done].
  destruct (existsb (run_key repo creator (CI_ExternalID n)) (runs s)) eqn:Hex; cbn.
  - change (Is ErrNoRows ErrNoRows) with true. cbn.
    apply find_existsb in Hex as (row & Hfind & _ & _).
    unfold find_row. rewrite Hfind. cbn. case_bool_decide as Hh; cbn; [| done].
    intros [= <- <- <-]. exists n, hash, row. by split_and!.
  - destruct (existsb (fun r => Run_ID (row_run r) =? fresh s) (runs s)); cbn.
    { by change (Is duplicate_key ErrNoRows) with false. }
    intros [= <- <- <-]. exists n, hash. eexists. split; [done |]. split; [done |].
    split; [apply find_app_last; [done |] | done].
    unfold run_key. cbn. by rewrite Z.eqb_refl, !String.eqb_refl.
Qed.

(** Creating a check run is replay-safe when the request carries its
    execution times (or is queued): sending it again changes no table and
    returns the run first stored. *)
Theorem CreateCheckRun_replay (repo : UUID) (creator : string) (input : CheckRunInput)
    (now later : time) (s s' : db) (run : CheckRun) (created : bool)
    (Htimes : times_given input)
    (Hfirst : exec handle (CreateCheckRun repo creator input now) s = (Ok (run, created), s')) :
  exists s'', exec handle (CreateCheckRun repo creator input later) s' = (Ok (run, false), s'') /\
    statuses s'' = statuses s' /\ runs s'' = runs s'.
Proof.
  apply CreateCheckRun_created in Hfirst as (n & hash & row & Hn & Hhash & Hfind & Hrow & ->).
  rewrite (normalizeCheckRunInput_clock _ _ _ (UTC later) Htimes) in Hn.
  unfold exec, CreateCheckRun. rewrite Hn. cbn. rewrite Hhash. cbn.
  assert (Hex : existsb (run_key repo creator (CI_ExternalID n)) (runs s') = true).
  { apply find_existsb. exists row. split; [done |]. apply find_some in Hfind. tauto. }
  rewrite Hex. cbn. change (Is ErrNoRows ErrNoRows) with true. cbn.
  unfold find_row. rewrite Hfind. cbn. rewrite Hrow, bool_decide_true by done. cbn. by eexists.
Qed.

(** ** The check runs a history of requests can produce *)

(** The primary key holds and every run is in one of its three shapes. *)
Definition runs_ok (s : db) : Prop :=
  NoDup (map (fun r => Run_ID (row_run r)) (runs s)) /\
  Forall (fun r => run_ok (row_run r)) (runs s).

(** What one update may do to a row: nothing, or move it along its lifecycle
    for its creator, one version further. *)
Definition advances (creator : string) (id : UUID) (expected : Z) (old new : RunRow) : Prop :=
  old = new \/
  let o := row_run old in
  let n := row_run new in
  Run_ID o = id /\ Run_CreatorDID o = creator /\ Version o = expected /\
  Version n = Version o + 1 /\ validTransition (Run_Status o) (Run_Status n) = true /\
  Run_ID n = Run_ID o /\ Run_RepositoryID n = Run_RepositoryID o /\
  Run_CommitSHA n = Run_CommitSHA o /\ Run_Name n = Run_Name o /\
  Run_ExternalID n = Run_ExternalID o /\ Run_CreatorDID n = Run_CreatorDID o /\
  Run_CreatedAt n = Run_CreatedAt o /\ CreateRequestHash new = CreateRequestHash old.

Lemma normalizeCheckRunUpdate_Ok current input now n :
  normalizeCheckRunUpdate current input now = Ok n ->
  ExpectedVersion n = ExpectedVersion input /\ CU_Status n = CU_Status input /\
  validTransition (Run_Status current) (CU_Status n) = true /\
  lifecycle_ok (CU_Status n) (CU_Conclusion n) (CU_StartedAt n) (CU_CompletedAt n).
Proof.
  unfold normalizeCheckRunUpdate. rewrite reject_Ok, bind_unit_Ok, bind_Ok.
  intros (_ & _ & details & _ & Hr). apply reject_Ok in Hr as [Ht Hr].
  apply bind_Ok in Hr as ([s e] & Hl & [= <-]). cbn. apply negb_false_iff in Ht.
  apply normalizeLifecycle_Ok in Hl as [Hl _]. done.
Qed.

Lemma update_where_ok s row id repo creator n updatedAt expiresAt :
  runs_ok s -> row ∈ runs s -> Run_ID (row_run row) = id ->
  Run_CreatorDID (row_run row) = creator ->
  validTransition (Run_Status (row_run row)) (CU_Status n) = true ->
  lifecycle_ok (CU_Status n) (CU_Conclusion n) (CU_StartedAt n) (CU_CompletedAt n) ->
  let hit := update_hit id repo creator (ExpectedVersion n) in
  let s' := mkDb (statuses s) (map (update_where hit n updatedAt expiresAt) (runs s)) (fresh s)
              (clock s) in
  runs_ok s' /\ statuses s' = statuses s /\ fresh s' = fresh s /\
  Forall2 (advances creator id (ExpectedVersion n)) (runs s) (runs s').
Proof.
  intros [Hnd Hok] Hin Hid Hcr Htr Hlife hit. cbv zeta. unfold runs_ok. cbn [runs statuses].
  set (update := update_where hit n updatedAt expiresAt).
  assert (Hhit : forall r, r ∈ runs s -> hit r = true ->
            r = row /\ Version (row_run row) = ExpectedVersion n).
  { intros r Hr Hh. unfold hit, update_hit in Hh. rewrite !andb_true_iff, !Z.eqb_eq in Hh.
    destruct Hh as [[[Hri _] _] Hv]. enough (r = row) as -> by done.
    eapply NoDup_map_inj; [exact Hnd | done | done |]. cbv beta. lia. }
  assert (Hids : map (fun r => Run_ID (row_run r)) (map update (runs s))
                 = map (fun r => Run_ID (row_run r)) (runs s)).
  { rewrite map_map. apply map_ext. intros r. unfold update, update_where. by case_match. }
  split_and!; [by rewrite Hids | | done | done |].
  - apply Forall_map, Forall_forall. intros r Hr. rewrite Forall_forall in Hok.
    unfold update, update_where. destruct (hit r); [exact Hlife | by apply Hok].
  - assert (Hall : forall l, (forall r, r ∈ l -> r ∈ runs s) ->
              Forall2 (advances creator id (ExpectedVersion n)) l (map update l)).
    { induction l as [| x l IH]; intros Hl; [constructor |].
      constructor; [| apply IH; set_solver].
      unfold update, update_where. destruct (hit x) eqn:Hh; [| by left].
      apply Hhit in Hh as [-> Hv]; [| set_solver]. right. cbn. split_and!; done. }
    by apply Hall.
Qed.

Definition rank (status : CheckStatus) : Z :=
  if status == CheckCompleted then 2 else if status == CheckInProgress then 1 else 0.

(** The same run, later; of one version, the same in everything. *)
Definition evolves (old new : CheckRun) : Prop :=
  Run_ID new = Run_ID old /\ Version old <= Version new /\ (Version new = Version old -> new = old) /\
  rank (Run_Status old) <= rank (Run_Status new) /\
  Run_RepositoryID new = Run_RepositoryID old /\ Run_CommitSHA new = Run_CommitSHA old /\
  Run_Name new = Run_Name old /\ Run_ExternalID new = Run_ExternalID old /\
  Run_CreatorDID new = Run_CreatorDID old /\ Run_CreatedAt new = Run_CreatedAt old.

#[export] Instance evolves_preorder : PreOrder evolves.
Proof.
  split.
  - intros r. unfold evolves. split_and!; done || lia.
  - intros r1 r2 r3 (?&?&E1&?&?&?&?&?&?&?) (?&?&E2&?&?&?&?&?&?&?). unfold evolves.
    split_and!; try (congruence || lia). intros Hv. rewrite E2 by lia. apply E1. lia.
Qed.

Lemma validTransition_rank from to : validTransition from to = true -> rank from <= rank to.
Proof.
  unfold validTransition, rank.
  destruct (String.eqb_spec from to) as [-> | _]; [done |].
  destruct (String.eqb_spec from CheckQueued) as [-> | _].
  { change (CheckQueued == CheckCompleted) with false. change (CheckQueued == CheckInProgress) with false.
    intros _. repeat case_match; lia. }
  destruct (String.eqb_spec from CheckInProgress) as [-> | _]; cbn; [| done].
  destruct (to == CheckCompleted); [| done]. intros _. by vm_compute.
Qed.

Lemma advances_evolves creator id expected old new :
  advances creator id expected old new -> evolves (row_run old) (row_run new).
Proof.
  intros [-> | (_ & _ & _ & Hv & Ht & ? & ? & ? & ? & ? & ? & ? & _)]; [reflexivity |].
  apply validTransition_rank in Ht. unfold evolves. split_and!; done || lia.
Qed.

(** *** Requests that run at the same time

    A request is in the middle of a program; what it has been answered so far is kept beside
    it.  Each of its statements is one step, so that anything may come between the read and
    the write of an update. *)

Inductive request :=
| Report (repositoryID : UUID) (creatorDID commitSHA : string) (input : StatusInput) (now : time)
| Start (repositoryID : UUID) (creatorDID : string) (input : CheckRunInput) (now : time)
| Advance (repositoryID : UUID) (creatorDID : string) (id : UUID) (input : CheckRunUpdate) (now : time)
| Retain.
Definition serve (r : request) : prog effect unit :=
  match r with
  | Report repo creator sha input now => let! _ := CreateStatus repo creator sha input now in Ret tt
  | Start repo creator input now => let! _ := CreateCheckRun repo creator input now in Ret tt
  | Advance repo creator id input now => let! _ := UpdateCheckRun repo creator id input now in Ret tt
  | Retain => let! _ := cleanup in Ret tt
  end.
Record thread := mkThread { past : list (event effect); rest : prog effect unit }.
Record config := mkConfig { tables : db; threads : list thread }.
Inductive step : config -> config -> Prop :=
| step_request r s ts : step (mkConfig s ts) (mkConfig s (ts ++ [mkThread [] (serve r)]))
| step_statement X (e : effect X) k h x s s' before after : handle X e s = (x, s') ->
    step (mkConfig s (before ++ mkThread h (Vis e k) :: after))
         (mkConfig s' (before ++ mkThread (h ++ [Ev e x]) (k x) :: after))
| step_time s ts t : step (mkConfig s ts) (mkConfig (mkDb (statuses s) (runs s) (fresh s) t) ts).

(** What a thread has drawn, read and inserted. *)
Definition drawn (h : list (event effect)) : list UUID :=
  omap (fun ev => let 'Ev e x := ev in
    (match e in effect X return X -> option UUID with
     | NewV7 => fun r => match r with Ok id => Some id | Err _ => None end
     | _ => fun _ => None
     end) x) h.
Definition reads (h : list (event effect)) : list (UUID * RunRow) :=
  omap (fun ev => let 'Ev e x := ev in
    (match e in effect X return X -> option (UUID * RunRow) with
     | queries_GetCheckRun id _ => fun r => match r with Ok row => Some (id, row) | Err _ => None end
     | _ => fun _ => None
     end) x) h.
Definition inserts (h : list (event effect)) : list RunRow :=
  omap (fun ev => let 'Ev e x := ev in
    (match e in effect X return X -> option RunRow with
     | queries_CreateCheckRun row => fun _ => Some row
     | _ => fun _ => None
     end) x) h.

#[local] Arguments drawn : simpl never.
#[local] Arguments reads : simpl never.
#[local] Arguments inserts : simpl never.
(** What the programs take care of, whatever they are answered. *)
Definition careful (h : list (event effect)) X (e : effect X) : Prop :=
  match e with
  | queries_CreateCheckRun row =>
      run_ok (row_run row) /\ Run_ID (row_run row) ∈ drawn h /\ inserts h = []
  | queries_UpdateCheckRun id _ _ u _ _ => exists row input now,
      (id, row) ∈ reads h /\ normalizeCheckRunUpdate (row_run row) input now = Ok u /\
      Version (row_run row) = ExpectedVersion u
  | _ => True
  end.

Lemma normalizeCheckRunInput_ok input creator now n :
  normalizeCheckRunInput input creator now = Ok n ->
  lifecycle_ok (CI_Status n) (CI_Conclusion n) (CI_StartedAt n) (CI_CompletedAt n).
Proof.
  unfold normalizeCheckRunInput. intros Hn.
  apply reject_Ok in Hn as [_ Hn]. apply reject_Ok in Hn as [_ Hn].
  apply bind_unit_Ok in Hn as [_ Hn]. apply bind_unit_Ok in Hn as [_ Hn].
  apply bind_unit_Ok in Hn as [_ Hn]. apply bind_Ok in Hn as (url & _ & Hn).
  apply bind_Ok in Hn as ([st e] & Hl & [= <-]). by apply normalizeLifecycle_Ok in Hl as [Hl _].
Qed.

Lemma serve_careful r : wp careful (serve r) (fun _ _ => True) [].
Proof.
  destruct r as [repo creator sha input now | repo creator input now | repo creator id input now |]; cbn [serve].
  - unfold CreateStatus. destruct (normalizeStatusInput _ _ _) as [n | e]; cbn; [| done].
    split; [done |]. intros [id | e]; cbn; [| done]. split; [done |]. intros [row | e]; cbn; [done |].
    destruct (negb _); cbn; [done |]. split; [done |]. intros [row | e']; cbn; [| done].
    by destruct (negb _).
  - unfold CreateCheckRun. destruct (normalizeCheckRunInput _ _ _) as [n | e] eqn:Hn; cbn; [| done].
    destruct (checkRequestHash n) as [hash | e]; cbn; [| done].
    split; [done |]. intros [id | e]; cbn; [| done]. split.
    { split_and!; [by eapply normalizeCheckRunInput_ok | by left | done]. }
    intros [row | e]; cbn; [done |].
    destruct (negb _); cbn; [done |]. split; [done |]. intros [row | e']; cbn; [| done].
    by destruct (negb _).
  - unfold UpdateCheckRun, GetCheckRun. cbn. split; [done |]. intros [row | e]; cbn; [| done].
    unfold checkRunFromRow. destruct (_ != creator); cbn; [done |].
    destruct (normalizeCheckRunUpdate _ _ _) as [n | e] eqn:Hn; cbn; [| done].
    destruct (checkRunMatches _ _); cbn; [done |].
    destruct (Z.eqb_spec (Version (row_run row)) (ExpectedVersion n)) as [Hv |]; cbn; [| done].
    split; [| by intros [? | ?]]. exists row, input, (UTC now). split_and!; [by left | done | done].
  - cbn. repeat (split; [done |]; intros ?; cbn; repeat case_match; cbn; try done).
Qed.

(** An id that no thread may still insert a run under. *)
Definition born (c : config) (id : UUID) : Prop :=
  id < fresh (tables c) /\ forall t, t ∈ threads c -> id ∈ drawn (past t) -> inserts (past t) <> [].
(** The runs are later states of one that was read. *)
Definition follows (c : config) (run : CheckRun) : Prop :=
  born c (Run_ID run) /\
  forall n, n ∈ runs (tables c) -> Run_ID (row_run n) = Run_ID run -> evolves run (row_run n).

Record invariant (c : config) : Prop := {
  ci_runs : runs_ok (tables c);
  ci_born : forall r, r ∈ runs (tables c) -> born c (Run_ID (row_run r));
  ci_careful : forall t, t ∈ threads c -> wp careful (rest t) (fun _ _ => True) (past t);
  ci_fresh : Forall (fun id => id < fresh (tables c)) (flat_map (fun t => drawn (past t)) (threads c));
  ci_apart : NoDup (flat_map (fun t => drawn (past t)) (threads c));
  ci_reads : forall t id row, t ∈ threads c -> (id, row) ∈ reads (past t) ->
    Run_ID (row_run row) = id /\ follows c (row_run row)
}.

(** What one step does to the runs. *)
Definition run_step (c c' : config) : Prop :=
  (forall id, born c id -> born c' id) /\
  forall n, n ∈ runs (tables c') ->
    (exists o, o ∈ runs (tables c) /\ evolves (row_run o) (row_run n)) \/ ~ born c (Run_ID (row_run n)).

#[export] Instance run_step_trans : Transitive run_step.
Proof.
  intros c1 c2 c3 [B12 R12] [B23 R23]. split; [auto |]. intros n Hn.
  destruct (R23 n Hn) as [(o & Ho & Hon) | Hb]; [| right; auto].
  destruct (R12 o Ho) as [(p & Hp & Hpo) | Hb].
  - left. exists p. split; [done |]. by etrans.
  - right. by rewrite (proj1 Hon).
Qed.

Lemma follows_step c c' run : run_step c c' -> follows c run -> follows c' run.
Proof.
  intros [Hb Hr] [Hborn Hf]. split; [by apply Hb |]. intros n Hn Hid.
  destruct (Hr n Hn) as [(o & Ho & Hon) | Hno]; [| by rewrite Hid in Hno].
  etrans; [| exact Hon]. apply Hf; [done |]. by rewrite <- (proj1 Hon).
Qed.

Lemma omap_snoc {A B} (f : A -> option B) l x : omap f (l ++ [x]) = omap f l ++ omap f [x].
Proof. by rewrite omap_app. Qed.

(** A statement of a thread, from what it does to the tables and to the thread. *)
Lemma statement_ok s s' ts ts' h ev (p q : prog effect unit) :
  let c := mkConfig s (ts ++ mkThread h p :: ts') in
  let c' := mkConfig s' (ts ++ mkThread (h ++ [ev]) q :: ts') in
  invariant c -> wp careful q (fun _ _ => True) (h ++ [ev]) ->
  runs_ok s' -> fresh s <= fresh s' ->
  (forall n, n ∈ runs s' -> (exists o, o ∈ runs s /\ evolves (row_run o) (row_run n)) \/
     Run_ID (row_run n) ∈ drawn h /\ inserts h = [] /\ inserts [ev] <> []) ->
  (drawn [ev] = [] \/ drawn [ev] = [fresh s] /\ fresh s' = fresh s + 1) ->
  (forall id row, (id, row) ∈ reads [ev] -> row ∈ runs s /\ Run_ID (row_run row) = id /\ runs s' = runs s) ->
  invariant c' /\ run_step c c'.
Proof.
  intros c c' Hi Hq Hok Hf Hruns Hdrawn Hreads.
  assert (Hdr : drawn (h ++ [ev]) = drawn h ++ drawn [ev]) by apply omap_app.
  assert (Hin : inserts (h ++ [ev]) = inserts h ++ inserts [ev]) by apply omap_app.
  assert (Hrd : reads (h ++ [ev]) = reads h ++ reads [ev]) by apply omap_app.
  assert (Ht : mkThread h p ∈ threads c) by (cbn; set_solver).
  assert (Hold : forall t, t ∈ threads c' -> t = mkThread (h ++ [ev]) q \/ t ∈ ts \/ t ∈ ts').
  { cbn. intros t Hin'. set_solver. }
  assert (Hothers : forall t, t ∈ ts \/ t ∈ ts' -> t ∈ threads c) by (cbn; set_solver).
  assert (Hborn : forall id, born c id -> born c' id).
  { intros id [Hlt Hb]. split; [cbn in *; lia |]. intros t [-> | Hin']%Hold; [| by apply Hb, Hothers].
    cbn. rewrite Hdr, Hin. intros [Hd | Hd]%elem_of_app Hnil.
    - apply app_eq_nil in Hnil as [Hnil _]. by apply (Hb _ Ht).
    - destruct Hdrawn as [E | [E _]]; rewrite E in Hd; [by apply not_elem_of_nil in Hd |].
      apply list_elem_of_singleton in Hd. cbn in Hlt. lia. }
  assert (Hstep : run_step c c').
  { split; [done |]. intros n Hn. destruct (Hruns n Hn) as [? | (Hd & Hnil & _)]; [by left |].
    right. intros [_ Hb]. by apply (Hb _ Ht). }
  split; [| exact Hstep]. destruct Hi as [_ Hb Hc Hfr Hap Hre].
  change (threads c) with (ts ++ mkThread h p :: ts') in Hfr, Hap. rewrite flat_map_app in Hfr, Hap.
  cbn in Hfr, Hap. split.
  - exact Hok.
  - intros n Hn. destruct (Hruns n Hn) as [(o & Ho & Hon) | (Hd & Hnil & Hne)].
    { rewrite (proj1 Hon). by apply Hborn, Hb. }
    split.
    + rewrite Forall_forall in Hfr. specialize (Hfr (Run_ID (row_run n))). cbn in *.
      enough (Run_ID (row_run n) < fresh s) by lia. apply Hfr. set_solver.
    + intros t [-> | Hin']%Hold Hdt.
      * cbn. rewrite Hin, Hnil. done.
      * exfalso. apply NoDup_app in Hap as (_ & Hdis & Hap). apply NoDup_app in Hap as (_ & Hdis' & _).
        destruct Hin' as [Hin' | Hin'].
        -- apply (Hdis (Run_ID (row_run n))); [| set_solver].
           apply list_elem_of_In, in_flat_map. exists t. by rewrite <- !list_elem_of_In.
        -- apply (Hdis' (Run_ID (row_run n))); [done |].
           apply list_elem_of_In, in_flat_map. exists t. by rewrite <- !list_elem_of_In.
  - intros t [-> | Hin']%Hold; [done | by apply Hc, Hothers].
  - cbn [threads c']. rewrite flat_map_app. cbn. rewrite Hdr.
    rewrite !Forall_app in Hfr |- *. destruct Hfr as (F1 & F2 & F3).
    assert (Hup : forall l, Forall (fun id => id < fresh s) l -> Forall (fun id => id < fresh s') l).
    { intros l Hl. eapply Forall_impl; [exact Hl |]. cbn. lia. }
    split_and!; auto. apply Forall_app. split; [by apply Hup |]. destruct Hdrawn as [-> | [-> E]]; repeat constructor; lia.
  - cbn [threads c']. rewrite flat_map_app. cbn. rewrite Hdr.
    destruct Hdrawn as [-> | [-> _]]; [by rewrite app_nil_r |].
    rewrite <- app_assoc, (Permutation_app_comm [fresh s]), !app_assoc. rewrite <- !app_assoc.
    rewrite !app_assoc. apply NoDup_snoc.
    + intros Hx. rewrite Forall_forall in Hfr. rewrite <- app_assoc in Hx. specialize (Hfr _ Hx). lia.
    + by rewrite <- app_assoc.
  - intros t id row [-> | Hin']%Hold.
    + cbn. rewrite Hrd. intros [Hr | Hr]%elem_of_app.
      * destruct (Hre _ id row Ht Hr) as [Hid Hfo]. split; [done |]. by eapply follows_step.
      * destruct (Hreads id row Hr) as (Hrow & Hid & Heq). split; [done |].
        apply (follows_step c c' _ Hstep). split; [by apply Hb |]. cbn. intros n Hn Hid'.
        destruct Hok as [Hnd _]. rewrite Heq in Hnd.
        by rewrite (NoDup_map_inj _ _ _ _ Hnd Hn Hrow Hid').
    + intros Hr. destruct (Hre t id row (Hothers t Hin') Hr) as [Hid Hfo]. split; [done |].
      by eapply follows_step.
Qed.

Lemma statement_same s s' ts ts' h ev (p q : prog effect unit) :
  let c := mkConfig s (ts ++ mkThread h p :: ts') in
  invariant c -> wp careful q (fun _ _ => True) (h ++ [ev]) ->
  sublist (runs s') (runs s) -> drawn [ev] = [] -> fresh s' = fresh s ->
  (forall id row, (id, row) ∈ reads [ev] -> row ∈ runs s /\ Run_ID (row_run row) = id /\ runs s' = runs s) ->
  let c' := mkConfig s' (ts ++ mkThread (h ++ [ev]) q :: ts') in invariant c' /\ run_step c c'.
Proof.
  intros c Hi Hq Hsub Hd Hf Hr c'. pose proof (ci_runs _ Hi) as [Hnd Hok]. apply statement_ok; try done.
  - split; [eapply sublist_NoDup; [exact Hnd | by apply fmap_sublist] | by eapply Forall_sublist_of].
  - lia.
  - intros n Hn. left. exists n. split; [by eapply elem_of_sublist | reflexivity].
  - by left.
Qed.

(** The update hits the row that was read, and no other. *)
Lemma update_statement s ts ts' h id repo creator u updatedAt expiresAt x s' k :
  let e := queries_UpdateCheckRun id repo creator u updatedAt expiresAt in
  let c := mkConfig s (ts ++ mkThread h (Vis e k) :: ts') in
  invariant c -> handle _ e s = (x, s') ->
  runs_ok s' /\ fresh s' = fresh s /\
  (forall n, n ∈ runs s' -> exists o, o ∈ runs s /\ evolves (row_run o) (row_run n)).
Proof.
  intros e c Hi He.
  assert (Hsame : runs_ok s /\ fresh s = fresh s /\
    (forall n, n ∈ runs s -> exists o, o ∈ runs s /\ evolves (row_run o) (row_run n))).
  { split_and!; [apply Hi | done |]. intros n Hn. by exists n. }
  assert (Ht : mkThread h (Vis e k) ∈ threads c) by (cbn; set_solver).
  pose proof (ci_careful _ Hi _ Ht) as Hw. cbn [rest past wp] in Hw. destruct Hw as [Hw _].
  destruct Hw as (row & input & now & Hread & Hn & Hv). cbn [handle] in He. unfold e in He. cbn [handle] in He.
  destruct (find_row ErrNoRows _ (runs s)) as [r | err] eqn:Hfind; [| by injection He as _ <-].
  injection He as _ <-. apply find_row_Ok in Hfind as [Hr Hhit].
  unfold update_hit in Hhit. rewrite !andb_true_iff, !Z.eqb_eq, String.eqb_eq in Hhit.
  destruct Hhit as [[[Hid Hrepo] Hcr] Hver].
  destruct (ci_reads _ Hi _ _ _ Ht Hread) as [Hidr [_ Hf]].
  assert (Heq : row_run r = row_run row).
  { destruct (Hf r Hr) as (_ & _ & Hs & _); [congruence |]. apply Hs. congruence. }
  apply normalizeCheckRunUpdate_Ok in Hn as (_ & _ & Htr & Hlife). rewrite <- Heq in Htr.
  destruct (update_where_ok s r id repo creator u updatedAt expiresAt (ci_runs _ Hi) Hr Hid Hcr Htr Hlife)
    as (Hok & _ & _ & HF).
  split_and!; [exact Hok | done |]. intros n (i & Hi')%list_elem_of_lookup_1.
  destruct (Forall2_lookup_r _ _ _ _ _ HF Hi') as (o & Ho & Hadv). exists o.
  split; [by eapply list_elem_of_lookup_2 | by eapply advances_evolves].
Qed.

Lemma step_ok c c' : invariant c -> step c c' -> invariant c' /\ run_step c c'.
Proof.
  intros Hi Hstep. destruct Hstep as [r s ts | X e k h x s s' ts ts' He | s ts t].
  - split.
    + destruct Hi as [Hok Hb Hc Hfr Hap Hre]. cbn [tables threads] in *.
      assert (Hborn : forall id, born (mkConfig s ts) id -> born (mkConfig s (ts ++ [mkThread [] (serve r)])) id).
      { intros id [Hlt Ht]. split; [done |]. cbn. intros t [Hin | ->%list_elem_of_singleton]%elem_of_app; [by apply Ht |].
        by intros ?%not_elem_of_nil. }
      split; cbn [tables threads]; try done.
      * intros n Hn. by apply Hborn, Hb.
      * intros t [Hin | ->%list_elem_of_singleton]%elem_of_app; [by apply Hc | apply serve_careful].
      * rewrite flat_map_app, Forall_app. by split.
      * rewrite flat_map_app. cbn. by rewrite app_nil_r.
      * intros t id row [Hin | ->%list_elem_of_singleton]%elem_of_app; [| by intros ?%not_elem_of_nil].
        intros Hr. destruct (Hre t id row Hin Hr) as [Hid [Hbn Hf]]. split; [done |]. split; [by apply Hborn | done].
    + split.
      * intros id [Hlt Ht]. split; [done |]. cbn. intros t [Hin | ->%list_elem_of_singleton]%elem_of_app; [by apply Ht |].
        by intros ?%not_elem_of_nil.
      * intros n Hn. left. exists n. by split.
  - assert (Ht : mkThread h (Vis e k) ∈ threads (mkConfig s (ts ++ mkThread h (Vis e k) :: ts'))) by (cbn; set_solver).
    pose proof (ci_careful _ Hi _ Ht) as Hw. cbn [rest past wp] in Hw. destruct Hw as [Hg Hw]. specialize (Hw x).
    destruct e; try (by injection He as _ <-; apply statement_same; try done; intros ? ? ?%not_elem_of_nil).
    + (* a status *)
      cbn [handle] in He. destruct (existsb _ _); [| destruct (existsb _ _)]; injection He as _ <-;
        (apply statement_same; try done; intros ? ? ?%not_elem_of_nil; done).
    + (* a new run *)
      cbn [handle] in He. destruct Hg as (Hrun & Hdr & Hnil).
      destruct (existsb (run_key _ _ _) (runs s)); [injection He as _ <-; apply statement_same; try done;
        intros ? ? ?%not_elem_of_nil; done |].
      destruct (existsb _ (runs s)) eqn:Hex; [injection He as _ <-; apply statement_same; try done;
        intros ? ? ?%not_elem_of_nil; done |].
      injection He as _ <-. pose proof (ci_runs _ Hi) as [Hnd Hok]. apply statement_ok; try done.
      * split; cbn [runs].
        -- rewrite map_app. apply NoDup_snoc; [| done]. intros (r & Hid & Hr)%list_elem_of_fmap.
           apply existsb_false in Hex. rewrite Forall_forall in Hex. specialize (Hex r Hr).
           cbn in Hid. rewrite Hid in Hex. by rewrite Z.eqb_refl in Hex.
        -- apply Forall_app. by split; [| constructor].
      * cbn. intros n [Hn | ->%list_elem_of_singleton]%elem_of_app; [left; by exists n | by right].
      * by left.
      * by intros ? ? ?%not_elem_of_nil.
    + (* a read *)
      cbn [handle] in He. injection He as Hx <-. apply statement_same; try done.
      intros id' r Hin. destruct x as [row | err]; [| by apply not_elem_of_nil in Hin].
      change (reads _) with [(id, row)] in Hin. apply list_elem_of_singleton in Hin as [= -> ->].
      apply find_row_Ok in Hx as [Hr [Hid%Z.eqb_eq _]%andb_true_iff]. by split_and!.
    + (* an update *)
      destruct (update_statement s ts ts' h _ _ _ _ _ _ x s' k Hi He) as (Hok & Hf & Hr).
      apply statement_ok; try done; [lia | intros n Hn; left; by apply Hr | by left |].
      by intros ? ? ?%not_elem_of_nil.
    + injection He as _ <-. apply statement_same; try done; [apply filter_sublist_of |].
      intros ? ? ?%not_elem_of_nil. done.
    + injection He as <- <-. pose proof (ci_runs _ Hi). apply statement_ok; try done.
      * cbn. lia.
      * intros n Hn. left. by exists n.
      * by right.
      * by intros ? ? ?%not_elem_of_nil.
  - split.
    + destruct Hi as [Hok Hb Hc Hfr Hap Hre]. by split.
    + split; [done |]. intros n Hn. left. by exists n.
Qed.

Lemma steps_ok c c' : invariant c -> rtc step c c' -> invariant c' /\ (c = c' \/ run_step c c').
Proof.
  intros Hi Hs. induction Hs as [c | c1 c2 c3 H12 _ IH]; [by split; [| left] |].
  destruct (step_ok _ _ Hi H12) as [Hi2 H2]. destruct (IH Hi2) as [Hi3 [<- | H3]]; (split; [done |]); right; [done |].
  by etrans.
Qed.

(** C39: however the statements of any number of requests and of retention interleave, starting
    from empty tables, every check run is always queued, running or completed, with the times
    and the conclusion that state requires.  A run seen again later has the same identity, commit,
    name and creator, no smaller version and never an earlier state - a completed run stays
    completed -, and if its version is the same then so is everything else: no update is lost,
    whatever came between the read and the write of another. *)
Theorem check_runs_history (s : db) (c c' : config)
    (Hempty : runs s = []) (Hs : rtc step (mkConfig s []) c) (Hs' : rtc step c c') :
  Forall (fun r => run_ok (row_run r)) (runs (tables c)) /\
  forall old new, old ∈ runs (tables c) -> new ∈ runs (tables c') ->
    Run_ID (row_run new) = Run_ID (row_run old) ->
    evolves (row_run old) (row_run new) /\
    (Run_Status (row_run old) = CheckCompleted -> Run_Status (row_run new) = CheckCompleted).
Proof.
  assert (Hstart : invariant (mkConfig s [])).
  { split; cbn [tables threads]; unfold runs_ok; rewrite ?Hempty; try constructor; try constructor; set_solver. }
  destruct (steps_ok _ _ Hstart Hs) as [Hi _]. destruct (ci_runs _ Hi) as [Hnd Hok].
  split; [done |]. intros old new Hold Hnew Hid.
  assert (Hev : evolves (row_run old) (row_run new)).
  { destruct (steps_ok _ _ Hi Hs') as [_ [<- | [_ Hr]]].
    - by rewrite (NoDup_map_inj _ _ _ _ Hnd Hnew Hold Hid).
    - destruct (Hr new Hnew) as [(o & Ho & Hon) | Hno].
      + rewrite <- (NoDup_map_inj _ _ _ _ Hnd Ho Hold); [done |]. by rewrite <- (proj1 Hon).
      + destruct Hno. rewrite Hid. by apply (ci_born _ Hi). }
  split; [done |]. intros Hc. destruct Hev as (_ & _ & _ & Hrank & _). rewrite Hc in Hrank.
  unfold rank in Hrank. change (CheckCompleted == CheckCompleted) with true in Hrank.
  destruct (String.eqb_spec (Run_Status (row_run new)) CheckCompleted) as [-> | _]; [done |].
  destruct (_ == CheckInProgress) in Hrank; lia.
Qed.
End tables.
(** A concrete [GoURL] and requests on which the replay properties and the
    history property are evaluated. *)
(** ** Pages *)

Lemma page_cut {R T} (key : R -> time * UUID) (id : T -> UUID) (fromRow : R -> T) (limit : Z) rows :
  (forall row, id (fromRow row) = snd (key row)) ->
  let '(items, next) := keyset.cut key limit rows in
  page id fromRow limit rows = mkPage (map fromRow items) next.
Proof.
  intros Hid. unfold page, keyset.cut. f_equal. destruct (limit <? _); [| done].
  change (map fromRow ?l) with (fromRow <$> l). rewrite fmap_last.
  destruct (last _) as [row |]; cbn; [by rewrite Hid | done].
Qed.

(** One page as its client sees it. *)
Definition fetched {T} (r : result (Page T) * db) : option (list T * option UUID) :=
  match r with (Ok p, _) => Some (Items p, NextCursor p) | _ => None end.

(** The pages of a commit's statuses, followed from the first by their
    cursors, list every one of them once, newest first; so do those of its check
    runs. *)
Theorem pages_complete (s : db) (repositoryID : UUID) (commitSHA : string) (limit : Z)
    (Hl : 1 <= limit <= 100) (Hsha : match_git_sha commitSHA = true)
    (Hst : NoDup (map (fun row => ID (row_status row)) (statuses s)))
    (Hru : NoDup (map (fun row => Run_ID (row_run row)) (runs s))) :
  keyset.follow (fun after => fetched (exec handle (PageStatuses repositoryID commitSHA after limit) s))
    (S (length (statuses s))) None
  = Some (map statusFromRow (keyset.listing status_time (of_commit repositoryID commitSHA) (statuses s))) /\
  keyset.follow (fun after => fetched (exec handle (PageCheckRuns repositoryID commitSHA after limit) s))
    (S (length (runs s))) None
  = Some (map checkRunFromRow (keyset.listing run_time (run_of_commit repositoryID commitSHA) (runs s))).
Proof.
  assert (Hv : validatePage commitSHA limit = Ok tt).
  { unfold validatePage. rewrite Hsha. cbn [negb reject].
    by rewrite (proj2 (Z.ltb_ge _ _)), (proj2 (Z.ltb_ge _ _)) by lia. }
  split.
  - refine (keyset.follow_all status_time (of_commit repositoryID commitSHA) _ _ Hst
              (fun _ H => H) statusFromRow limit _ ltac:(lia) _). intros after.
    unfold PageStatuses. rewrite Hv. unfold exec. cbn -[keyset.cut keyset.page_rows page].
    pose proof (page_cut status_time ID statusFromRow limit) as Hp.
    match goal with |- context [keyset.cut _ _ ?rows] => specialize (Hp rows (fun _ => eq_refl)) end.
    destruct (keyset.cut _ _ _) as [items next]. by rewrite Hp.
  - refine (keyset.follow_all run_time (run_of_commit repositoryID commitSHA) _ _ Hru
              (fun _ H => H) checkRunFromRow limit _ ltac:(lia) _). intros after.
    unfold PageCheckRuns. rewrite Hv. unfold exec. cbn -[keyset.cut keyset.page_rows page].
    pose proof (page_cut run_time Run_ID checkRunFromRow limit) as Hp.
    match goal with |- context [keyset.cut _ _ ?rows] => specialize (Hp rows (fun _ => eq_refl)) end.
    destruct (keyset.cut _ _ _) as [items next]. by rewrite Hp.
Qed.

Module commitstatus_examples.
#[local] Instance DemoURL : GoURL := {|
  url := string;
  ParseRequestURI raw := if HasPrefix raw "https://" then Some raw else None;
  Scheme _ := "https";
  Host raw := raw;
  HasUser _ := false
|}.

Definition sha : string := "0123456789abcdef0123456789abcdef01234567".
Definition creator : string := "did:plc:builder".
Definition empty : db := mkDb [] [] 1 0.
Definition report : StatusInput :=
  mkStatusInput " ci/build " StateSuccess "passed" (Some "https://ci.example/1") "build-1".
Definition queued : CheckRunInput :=
  mkCheckRunInput sha "lint" "lint-1" CheckQueued None None EmptyString EmptyString None None.
Definition running : CheckRunInput :=
  mkCheckRunInput sha "lint" "lint-1" CheckInProgress None None EmptyString EmptyString None None.
Definition stored : CommitStatus :=
  mkCommitStatus 1 7 sha "ci/build" StateSuccess "passed" (Some "https://ci.example/1") creator
    "build-1" 100.
Definition queued_run : CheckRun :=
  mkCheckRun 1 7 sha "lint" "lint-1" creator CheckQueued None None EmptyString EmptyString 1
    None None 100 100.

Lemma CreateStatus_replay_witness :
  exists s'', exec handle (CreateStatus 7 creator sha report 200)
                (snd (exec handle (CreateStatus 7 creator sha report 100) empty))
              = (Ok (stored, false), s'') /\
    statuses s'' = statuses (snd (exec handle (CreateStatus 7 creator sha report 100) empty)) /\
    runs s'' = runs (snd (exec handle (CreateStatus 7 creator sha report 100) empty)).
Proof.
  apply (CreateStatus_replay 7 creator sha report 100 200 empty
           (snd (exec handle (CreateStatus 7 creator sha report 100) empty)) stored true).
  vm_compute. reflexivity.
Defined.

Lemma CreateCheckRun_replay_witness :
  exists s'', exec handle (CreateCheckRun 7 creator queued 200)
                (snd (exec handle (CreateCheckRun 7 creator queued 100) empty))
              = (Ok (queued_run, false), s'') /\
    statuses s'' = statuses (snd (exec handle (CreateCheckRun 7 creator queued 100) empty)) /\
    runs s'' = runs (snd (exec handle (CreateCheckRun 7 creator queued 100) empty)).
Proof.
  apply (CreateCheckRun_replay 7 creator queued 100 200 empty
           (snd (exec handle (CreateCheckRun 7 creator queued 100) empty)) queued_run true);
    [by left |].
  vm_compute. reflexivity.
Defined.

(** Three reports, the first and the last at the same time, one a page. *)
Definition reported : db :=
  let row id at_ := mkStatusRow (mkCommitStatus id 7 sha "ci/build" StateSuccess "passed" None creator
                                  EmptyString at_) [] 0 in
  mkDb [row 1 100; row 2 90; row 3 100] [] 4 0.

Lemma pages_complete_witness :
  option_map (map ID) (keyset.follow
    (fun after => fetched (exec handle (PageStatuses 7 sha after 1) reported)) 4 None)
  = Some [3; 1; 2].
Proof.
  etrans; [apply (f_equal (option_map (map ID))), (pages_complete reported 7 sha 1) |].
  - lia.
  - vm_compute. reflexivity.
  - apply (bool_decide_unpack _). vm_compute. exact I.
  - apply (bool_decide_unpack _). vm_compute. exact I.
  - vm_compute. reflexivity.
Defined.

(** Two requests read the run, and one after the other write it: the second is refused. *)
Definition advance (summary : string) : request :=
  Advance 7 creator 1 (mkCheckRunUpdate 1 CheckInProgress None None EmptyString summary None None) 200.
Fixpoint statement (n : nat) (c : config) : config :=
  match threads c, n with
  | mkThread h (Vis e k) :: ts, O =>
      let '(x, s) := handle _ e (tables c) in mkConfig s (mkThread (h ++ [Ev e x]) (k x) :: ts)
  | t :: ts, S n => let c' := statement n (mkConfig (tables c) ts) in mkConfig (tables c') (t :: threads c')
  | _, _ => c
  end.
Definition asked : config :=
  mkConfig empty (map (fun r => mkThread [] (serve r)) [Start 7 creator queued 100; advance "a"; advance "b"]).
(** The run is started; the two read it. *)
Definition both_read : config := statement 2 (statement 1 (statement 0 (statement 0 asked))).
Definition both_written : config := statement 2 (statement 1 both_read).

Lemma statement_step n : forall before c,
  rtc step (mkConfig (tables c) (before ++ threads c))
    (mkConfig (tables (statement n c)) (before ++ threads (statement n c))).
Proof.
  induction n as [| n IH]; intros before [s [| [h p] ts]]; try apply rtc_refl.
  - cbn. destruct p as [u | X e k]; [apply rtc_refl |]. destruct (handle X e s) as [x s'] eqn:He.
    cbn. apply rtc_once. by apply step_statement.
  - cbn [statement threads tables]. specialize (IH (before ++ [mkThread h p]) (mkConfig s ts)).
    rewrite <- !app_assoc in IH. by destruct p.
Qed.
Lemma statements c n : rtc step c (statement n c).
Proof. pose proof (statement_step n [] c) as H. destruct c, (statement n _). exact H. Qed.
Lemma reaches_asked : rtc step (mkConfig empty []) asked.
Proof.
  eapply rtc_l; [apply (step_request (Start 7 creator queued 100)) |].
  eapply rtc_l; [apply (step_request (advance "a")) |].
  eapply rtc_l; [apply (step_request (advance "b")) | apply rtc_refl].
Qed.

Lemma check_runs_history_witness :
  map (fun r => (Version (row_run r), Run_OutputSummary (row_run r))) (runs (tables both_written)) = [(2, "a")] /\
  forall old new, old ∈ runs (tables both_read) -> new ∈ runs (tables both_written) ->
    Run_ID (row_run new) = Run_ID (row_run old) -> evolves (row_run old) (row_run new).
Proof.
  split; [vm_compute; reflexivity |]. intros old new Ho Hn Hid.
  destruct (check_runs_history empty both_read both_written) as [_ Hh]; [reflexivity | | |].
  - etrans; [exact reaches_asked |]. unfold both_read.
    do 3 (etrans; [apply statements |]). apply statements.
  - unfold both_written. etrans; apply statements.
  - by destruct (Hh old new Ho Hn Hid).
Defined.

(** Without execution times the fingerprint covers the clock: the same request
    sent again a second later is refused as a conflict, although nothing in it
    changed. *)
Example running_replay_conflicts :
  fst (exec handle (CreateCheckRun 7 creator running (100 + 1000000000))
         (snd (exec handle (CreateCheckRun 7 creator running 100) empty)))
  = Err (Errorf "%w: external_id was already used with a different check run" [W ErrConflict]).
Proof. vm_compute. reflexivity. Qed.
End commitstatus_examples.
End commitstatus.
