(* ===== verification/Webhook.v ===== *)
(** * Webhook: repository webhooks and their delivery (package [internal/webhook]).

    webhook.go keeps the configuration; worker.go moves the outbox's events into
    deliveries and sends them, signed, to public addresses only. *)

From stdpp Require Import pretty.
From S2P Require Import Prelude.
From S2P Require Import GoText.
From S2P Require Import Encoding.
From S2P Require Import Syntax.
From S2P Require Import Json.
From S2P Require Import JsonDecode.
From S2P Require Import CommitStatus.
From S2P Require Import Event.

(** ** Addresses *)

(** [net.IP]: 4 or 16 bytes. *)
Module net.
Definition IP : Type := list Z.

Definition v4_prefix : list Z := [0; 0; 0; 0; 0; 0; 0; 0; 0; 0; 0xFF; 0xFF].
(** [IPv4(a, b, c, d)], in its 16-byte form. *)
Definition IPv4 (a b c d : Z) : IP := v4_prefix ++ [a; b; c; d].
Definition IPv4bcast : IP := IPv4 255 255 255 255.
Definition IPv4zero : IP := IPv4 0 0 0 0.
Definition IPv6unspecified : IP := repeat 0 16.
Definition IPv6loopback : IP := repeat 0 15 ++ [1].

Definition To4 (ip : IP) : option IP :=
  if (length ip =? 4)%nat then Some ip
  else if (length ip =? 16)%nat && bool_decide (firstn 12 ip = v4_prefix) then Some (skipn 12 ip)
  else None.
Definition Equal (ip x : IP) : bool :=
  if (length ip =? length x)%nat then bool_decide (ip = x)
  else if (length ip =? 4)%nat && (length x =? 16)%nat
  then bool_decide (firstn 12 x = v4_prefix) && bool_decide (ip = skipn 12 x)
  else if (length ip =? 16)%nat && (length x =? 4)%nat
  then bool_decide (firstn 12 ip = v4_prefix) && bool_decide (skipn 12 ip = x)
  else false.
(** [ip[i]]. *)
Definition at_ (ip : IP) (i : nat) : Z := nth i ip 0.

Definition IsUnspecified (ip : IP) : bool := Equal ip IPv4zero || Equal ip IPv6unspecified.
Definition IsLoopback (ip : IP) : bool :=
  match To4 ip with Some ip4 => at_ ip4 0 =? 127 | None => Equal ip IPv6loopback end.
Definition IsPrivate (ip : IP) : bool :=
  match To4 ip with
  | Some ip4 => (at_ ip4 0 =? 10) || ((at_ ip4 0 =? 172) && (Z.land (at_ ip4 1) 0xf0 =? 16))
                || ((at_ ip4 0 =? 192) && (at_ ip4 1 =? 168))
  | None => (length ip =? 16)%nat && (Z.land (at_ ip 0) 0xfe =? 0xfc)
  end.
Definition IsMulticast (ip : IP) : bool :=
  match To4 ip with
  | Some ip4 => Z.land (at_ ip4 0) 0xf0 =? 0xe0
  | None => (length ip =? 16)%nat && (at_ ip 0 =? 0xff)
  end.
Definition IsLinkLocalMulticast (ip : IP) : bool :=
  match To4 ip with
  | Some ip4 => (at_ ip4 0 =? 224) && (at_ ip4 1 =? 0) && (at_ ip4 2 =? 0)
  | None => (length ip =? 16)%nat && (at_ ip 0 =? 0xff) && (Z.land (at_ ip 1) 0x0f =? 0x02)
  end.
Definition IsLinkLocalUnicast (ip : IP) : bool :=
  match To4 ip with
  | Some ip4 => (at_ ip4 0 =? 169) && (at_ ip4 1 =? 254)
  | None => (length ip =? 16)%nat && (at_ ip 0 =? 0xfe) && (Z.land (at_ ip 1) 0xc0 =? 0x80)
  end.
Definition IsGlobalUnicast (ip : IP) : bool :=
  ((length ip =? 4)%nat || (length ip =? 16)%nat) && negb (Equal ip IPv4bcast)
  && negb (IsUnspecified ip) && negb (IsLoopback ip) && negb (IsMulticast ip)
  && negb (IsLinkLocalUnicast ip).
End net.

(** What else of packages [net/url], [net/http] and [net] the code calls: the host
    and the fragment of a parsed URL, whether [http.NewRequest] accepts a URL,
    [ParseIP] and [SplitHostPort]. *)
Class GoNet `{GoURL} := {
  Hostname : url -> string;
  Fragment : url -> string;
  NewRequest_accepts : string -> bool;
  ParseIP : string -> option net.IP;
  SplitHostPort : string -> option (string * string)
}.

(** AES-GCM (crypto/aes and crypto/cipher), by its key. *)
Class AEAD := {
  NonceSize : nat;
  Seal : list Z -> list Z -> list Z -> list Z -> list Z;
  Open : list Z -> list Z -> list Z -> list Z -> option (list Z)
}.
Class AEADLaws `{AEAD} := {
  Open_Seal key nonce plaintext aad :
    length nonce = NonceSize -> Open key nonce (Seal key nonce plaintext aad) aad = Some plaintext
}.

(** [uuid.Parse]. *)
Class UUIDReader := { uuid_Parse : string -> option UUID }.
(** [crypto/hmac] over SHA-256. *)
Definition hmac (key m : list Z) : list Z :=
  let key := if (64 <? length key)%nat then Sum256 key else key in
  let key := key ++ repeat 0 (64 - length key) in
  Sum256 (map (Z.lxor 0x5c) key ++ Sum256 (map (Z.lxor 0x36) key ++ m)).

Example hmac_rfc4231 :
  hex_EncodeToString (hmac (bytes "Jefe") (bytes "what do ya want for nothing?"))
  = "5bdcc146bf60754e6a042426089575c75a003f089d2739839dec58b964ec3843".
Proof. vm_compute. reflexivity. Qed.

Module webhook.

Definition ErrNotFound : error := New "webhook not found".
Definition ErrValidation : error := New "webhook validation failed".
Definition ErrNoRows : error := commitstatus.ErrNoRows.

Definition allowedEvents : list string :=
  ["check_run"; "issue"; "pull_request"; "push"; "review"; "status"].

Record Webhook := mkWebhook {
  ID : UUID; RepositoryID : UUID; URL : string; Events : list string; Enabled : bool;
  CreatedAt : time; UpdatedAt : time
}.
Record Delivery := mkDelivery {
  D_ID : UUID; WebhookID : UUID; D_EventType : string; Attempts : Z; ResponseStatus : option Z;
  ResponseBody : string; DeliveredAt : option time; FailedAt : option time; LastErrorCode : string;
  D_CreatedAt : time
}.
Record Page (T : Type) := mkPage { Items : list T; NextCursor : option UUID }.
Arguments mkPage {T}. Arguments Items {T}. Arguments NextCursor {T}.
Record CreateInput := mkCreateInput {
  C_URL : string; C_Secret : string; C_Events : list string; C_Enabled : bool
}.
Record UpdateInput := mkUpdateInput {
  U_URL : string; U_Secret : option string; U_Events : list string; U_Enabled : bool
}.

(** The rows of [core.repository_webhooks] and [ops.webhook_deliveries]. *)
Record WebhookRow := mkWebhookRow {
  row_webhook : Webhook; SecretCiphertext : list Z; DeletedAt : option time
}.
Record DeliveryRow := mkDeliveryRow {
  row_ID : UUID; row_WebhookID : UUID; row_EventType : string; EventID : UUID; RequestBody : list Z;
  row_ResponseStatus : option Z; row_ResponseBody : option string; row_Attempts : Z;
  AvailableAt : time; ClaimedAt : option time; ClaimedBy : option string;
  row_DeliveredAt : option time; row_FailedAt : option time; row_LastErrorCode : option string;
  row_CreatedAt : time
}.
(** A claimed delivery with its webhook's URL and secret. *)
Record Claimed := mkClaimed { delivery : DeliveryRow; Url : string; Secret : list Z }.

Definition webhookFromRow (row : WebhookRow) : Webhook := row_webhook row.
Definition deliveryFromRow (row : DeliveryRow) : Delivery :=
  mkDelivery (row_ID row) (row_WebhookID row) (row_EventType row) (row_Attempts row)
    (row_ResponseStatus row) (default EmptyString (row_ResponseBody row)) (row_DeliveredAt row)
    (row_FailedAt row) (default EmptyString (row_LastErrorCode row)) (row_CreatedAt row).

(** A POST, and what comes of it: no response, or a status and the body read up to
    its limit or not to its end. *)
Record Request := mkRequest { R_URL : string; R_Headers : list (string * string); R_Body : list Z }.
Inductive answer :=
| NetworkError
| Response (StatusCode : Z) (contents : option (list Z)).

(** The queries of [webhooks.sql] and the worker's of [outbox.sql], [uuid.NewV7],
    the nonce, the clock and the HTTP client. *)
Inductive effect : Type -> Type :=
| CreateRepositoryWebhook (row : WebhookRow) : effect (result WebhookRow)
| GetRepositoryWebhook (id repositoryID : UUID) : effect (result WebhookRow)
| PageRepositoryWebhooks (repositoryID : UUID) (after : option UUID) (limit : Z)
    : effect (result (list WebhookRow))
| UpdateRepositoryWebhook (id repositoryID : UUID) (url : string) (secret : option (list Z))
    (events : list string) (enabled : bool) (updatedAt : time) : effect (result WebhookRow)
| DeleteRepositoryWebhook (id repositoryID : UUID) (deletedAt : time) : effect (result Z)
| PageWebhookDeliveries (webhookID repositoryID : UUID) (after : option UUID) (limit : Z)
    : effect (result (list DeliveryRow))
| RedeliverWebhookDelivery (id originalID webhookID repositoryID : UUID) (createdAt : time)
    : effect (result DeliveryRow)
| ClaimOutboxEvents (claimTime : time) (claimedBy : string) (staleBefore : time) (batchSize : Z)
    : effect (result (list event.OutboxEvent))
| CreateWebhookDeliveriesForEvent (eventID : UUID) (eventType : string) (requestBody : list Z)
    (createdAt : time) (repositoryID : UUID) : effect (result unit)
| CompleteOutboxEvent (id : UUID) (completedAt : time) : effect (result unit)
| RetryOutboxEvent (id : UUID) (availableAt : time) (code : string) : effect (result unit)
| ClaimWebhookDeliveries (claimTime : time) (claimedBy : string) (staleBefore : time) (batchSize : Z)
    : effect (result (list Claimed))
| CompleteWebhookDelivery (id : UUID) (status : option Z) (body : option string) (deliveredAt : time)
    : effect (result unit)
| RetryWebhookDelivery (id : UUID) (status : option Z) (body : option string) (availableAt : time)
    (code : string) : effect (result unit)
| FailWebhookDelivery (id : UUID) (status : option Z) (body : option string) (failedAt : time)
    (code : string) : effect (result unit)
| NewV7 : effect (result UUID)
| Nonce (size : nat) : effect (result (list Z))
| Now : effect time
| Do (request : Request) : effect answer.

(** The cipher, by its key. *)
Record Service := mkService { cipher : list Z }.

Definition wrapf (format : string) (err : error) : error := Errorf format [W err].
Definition invalid (what : string) : error := Errorf ("%w: " +:+ what) [W ErrValidation].

(** AES accepts a 32-byte key, and GCM its cipher. *)
Definition NewService (rootKey : list Z) : result Service :=
  reject_if negb (length rootKey =? 32)%nat with New "webhook root key must contain 32 bytes" ;;
  Ok (mkService (hmac rootKey (bytes "adenosine/webhook/secrets/v1"))).

Definition publicIP (ip : net.IP) : bool :=
  net.IsGlobalUnicast ip && negb (net.IsLoopback ip) && negb (net.IsPrivate ip)
  && negb (net.IsLinkLocalUnicast ip) && negb (net.IsLinkLocalMulticast ip)
  && negb (net.IsMulticast ip) && negb (net.IsUnspecified ip).

Definition normalizedEvents (events : list string) : list string := Compact (Sort events).

Definition additionalData : list Z := bytes "adenosine:webhook:v1".

Section webhook.
Context `{GoUnicode, UUIDs, UUIDReader, AEAD} `{GoNet}.

Definition validateInput (rawURL secret : string) (events : list string) : result unit :=
  let bad := invalid "URL must be an absolute HTTPS URL without userinfo or fragment" in
  match ParseRequestURI rawURL with
  | None => Err bad
  | Some parsed =>
  reject_if (Scheme parsed != "https") || (Hostname parsed == EmptyString) || HasUser parsed
    || (Fragment parsed != EmptyString) with bad ;;
  let host := ToLower (Hostname parsed) in
  reject_if (host == "localhost") || HasSuffix host ".localhost"
    with invalid "URL host is not public" ;;
  reject_if match ParseIP host with Some address => negb (publicIP address) | None => false end
    with invalid "URL host is not public" ;;
  reject_if (len secret <? 16) || (256 <? len secret)
    with invalid "secret must contain between 16 and 256 characters" ;;
  reject_if (length events =? 0)%nat with invalid "at least one event is required" ;;
  match List.find (fun event => negb (existsb (String.eqb event) allowedEvents)) events with
  | Some event => Err (Errorf "%w: unsupported event %q" [W ErrValidation; Str event])
  | None => Ok tt
  end
  end.

Definition encrypt (service : Service) (value : list Z) : svc effect (list Z) :=
  let? nonce := wrapErr (wrapf "generate webhook secret nonce: %w") (call (Nonce NonceSize)) in
  done_ (nonce ++ Seal (cipher service) nonce value additionalData).
Definition decrypt (service : Service) (value : list Z) : result (list Z) :=
  reject_if (length value <? NonceSize)%nat with New "webhook secret ciphertext is invalid" ;;
  match Open (cipher service) (firstn NonceSize value) (skipn NonceSize value) additionalData with
  | None => Err (wrapf "decrypt webhook secret: %w" (New "cipher: message authentication failed"))
  | Some plaintext => Ok plaintext
  end.

Definition Create (service : Service) (repositoryID : UUID) (input : CreateInput) (now : time)
    : svc effect Webhook :=
  let? _ := lift (validateInput (C_URL input) (C_Secret input) (C_Events input)) in
  let? id := wrapErr (wrapf "generate webhook ID: %w") (call NewV7) in
  let? secret := encrypt service (bytes (C_Secret input)) in
  let? row := wrapErr (wrapf "create repository webhook: %w")
    (call (CreateRepositoryWebhook
       (mkWebhookRow (mkWebhook id repositoryID (C_URL input) (normalizedEvents (C_Events input))
                        (C_Enabled input) (UTC now) (UTC now)) secret None))) in
  done_ (webhookFromRow row).

(** [errors.Is(err, pgx.ErrNoRows)] becomes [ErrNotFound]. *)
Definition noRows (format : string) (err : error) : error :=
  if Is err ErrNoRows then ErrNotFound else wrapf format err.

Definition Get (repositoryID id : UUID) : svc effect Webhook :=
  let? row := wrapErr (noRows "get repository webhook: %w")
                (call (GetRepositoryWebhook id repositoryID)) in
  done_ (webhookFromRow row).

(** The page of at most [limit] items the [limit + 1] requested rows make. *)
Definition page {R T} (id : T -> UUID) (fromRow : R -> T) (limit : Z) (rows : list R) : Page T :=
  let items := map fromRow (firstn (Z.to_nat limit) rows) in
  mkPage items (if limit <? Z.of_nat (length rows) then option_map id (last items) else None).
Definition bad_limit (limit : Z) : bool := (limit <? 1) || (100 <? limit).

Definition Page_ (repositoryID : UUID) (after : option UUID) (limit : Z)
    : svc effect (Page Webhook) :=
  if bad_limit limit then fail (invalid "limit must be between 1 and 100") else
  let? rows := wrapErr (wrapf "page repository webhooks: %w")
                 (call (PageRepositoryWebhooks repositoryID after (limit + 1))) in
  done_ (page ID webhookFromRow limit rows).

Definition Update (service : Service) (repositoryID id : UUID) (input : UpdateInput) (now : time)
    : svc effect Webhook :=
  let secretValue := default "unchanged-secret-value" (U_Secret input) in
  let? _ := lift (validateInput (U_URL input) secretValue (U_Events input)) in
  let? ciphertext :=
    match U_Secret input with
    | Some secret => let? c := encrypt service (bytes secret) in done_ (Some c)
    | None => done_ None
    end in
  let? row := wrapErr (noRows "update repository webhook: %w")
    (call (UpdateRepositoryWebhook id repositoryID (U_URL input) ciphertext
             (normalizedEvents (U_Events input)) (U_Enabled input) (UTC now))) in
  done_ (webhookFromRow row).

Definition Delete (repositoryID id : UUID) (now : time) : svc effect unit :=
  let? rows := wrapErr (wrapf "delete repository webhook: %w")
                 (call (DeleteRepositoryWebhook id repositoryID (UTC now))) in
  if rows =? 0 then fail ErrNotFound else done_ tt.

Definition Deliveries (repositoryID webhookID : UUID) (after : option UUID) (limit : Z)
    : svc effect (Page Delivery) :=
  if bad_limit limit then fail (invalid "limit must be between 1 and 100") else
  let? rows := wrapErr (wrapf "page webhook deliveries: %w")
                 (call (PageWebhookDeliveries webhookID repositoryID after (limit + 1))) in
  done_ (page D_ID deliveryFromRow limit rows).

Definition Redeliver (repositoryID webhookID originalID : UUID) (now : time) : svc effect Delivery :=
  let? id := wrapErr (wrapf "generate delivery ID: %w") (call NewV7) in
  let? row := wrapErr (noRows "redeliver webhook delivery: %w")
    (call (RedeliverWebhookDelivery id originalID webhookID repositoryID (UTC now))) in
  done_ (deliveryFromRow row).
End webhook.

(** ** The worker (worker.go) *)

Definition workerBatchSize : Z := 20.
Definition maxAttempts : Z := 8.
Definition maxResponseBody : nat := Z.to_nat (64 * 1024).
Definition minute : Z := 60 * second.

(** [int32] and [time.Duration] (an [int64]) wrap around. *)
Definition wrap (bits v : Z) : Z := (v + 2 ^ (bits - 1)) mod 2 ^ bits - 2 ^ (bits - 1).
Definition retryDelay (attempt : Z) : Z :=
  let delay := wrap 64 (Z.shiftl minute (Z.max (wrap 32 (attempt - 1)) 0)) in
  if hour <? delay then hour else delay.

Definition webhookEventType (value : string) : string :=
  if value == "git.push_received" then "push"
  else if (value == "git.refs_updated") || HasPrefix value "pull_request." then "pull_request"
  else if HasPrefix value "issue." then "issue"
  else if HasPrefix value "review." then "review"
  else if HasPrefix value "status." then "status"
  else if HasPrefix value "check_run." then "check_run"
  else EmptyString.

(** [json.Compact] with HTML escaping, as marshalling a [json.RawMessage] does. *)
Fixpoint compact_bytes (in_string escaped : bool) (bs : list Z) : list Z :=
  match bs with
  | [] => []
  | c :: rest =>
      if negb in_string then
        if jsondecode.is_ws c then compact_bytes false false rest
        else c :: compact_bytes (c =? 34) false rest
      else
        let next := compact_bytes (escaped || negb (c =? 34)) (negb escaped && (c =? 92)) in
        if (c =? 60) || (c =? 62) || (c =? 38) then json.u_escape c ++ next rest
        else
          match rest with
          | a :: b :: rest' =>
              if (c =? 0xE2) && (a =? 0x80) && ((b =? 0xA8) || (b =? 0xA9))
              then json.u_escape (0x2000 + b - 0x80) ++ compact_bytes true false rest'
              else c :: next rest
          | _ => c :: next rest
          end
  end.
Definition compact (raw : list Z) : option (list Z) :=
  match jsondecode.read raw with Some _ => Some (compact_bytes false false raw) | None => None end.

Record Worker := mkWorker { secrets : Service; worker_id : string }.

Section worker.
Context `{UUIDs, UUIDReader, AEAD} `{GoNet}.

Definition deliveryBody (e : event.OutboxEvent) (eventType : string) : option (list Z) :=
  at_ ← json.time_ (event.CreatedAt e);
  payload ← compact (event.Payload e);
  Some (json.object [("id", json.string_ (uuid_String (event.ID e)));
                     ("event", json.string_ eventType); ("occurred_at", at_); ("payload", payload)]).

Definition retryOutbox (id : UUID) (code : string) (now : time) : svc effect unit :=
  wrapErr (wrapf "retry webhook outbox event: %w") (call (RetryOutboxEvent id (now + minute) code)).

(** The loop over the claimed events: it ends at the first that is put back. *)
Fixpoint dispatchEach (events : list event.OutboxEvent) (now : time) : svc effect unit :=
  match events with
  | [] => done_ tt
  | e :: rest =>
      let complete :=
        let? _ := wrapErr (wrapf "complete webhook outbox event: %w")
                    (call (CompleteOutboxEvent (event.ID e) now)) in
        dispatchEach rest now in
      let eventType := webhookEventType (event.EventType e) in
      if (eventType != EmptyString) && (event.AggregateType e == "repository") then
        match uuid_Parse (event.AggregateID e) with
        | None => retryOutbox (event.ID e) "invalid_repository_id" now
        | Some repositoryID =>
            match deliveryBody e eventType with
            | None => retryOutbox (event.ID e) "encode_payload" now
            | Some body =>
                let! r := call (CreateWebhookDeliveriesForEvent (event.ID e) eventType body
                                  (event.CreatedAt e) repositoryID) in
                match r with
                | Err _ => retryOutbox (event.ID e) "enqueue_delivery" now
                | Ok _ => complete
                end
            end
        end
      else complete
  end.

Definition dispatchOutbox (worker : Worker) : svc effect unit :=
  let! now := call Now in
  let now := UTC now in
  let? events := wrapErr (wrapf "claim webhook outbox events: %w")
    (call (ClaimOutboxEvents now (worker_id worker) (now - 5 * minute) workerBatchSize)) in
  dispatchEach events now.

Definition signature (secret body : list Z) : string :=
  "sha256=" +:+ hex_EncodeToString (hmac secret body).
Definition requestOf (d : Claimed) (secret : list Z) : Request :=
  let row := delivery d in
  mkRequest (Url d)
    [("Content-Type", "application/json"); ("User-Agent", "Adenosine-Webhooks/1.0");
     ("X-Adenosine-Delivery", uuid_String (row_ID row)); ("X-Adenosine-Event", row_EventType row);
     ("X-Adenosine-Signature-256", signature secret (RequestBody row))]
    (RequestBody row).

(** The status, the body and the error code of a delivery; no code is a success. *)
Definition outcome (a : answer) : Z * string * string :=
  match a with
  | NetworkError => (0, EmptyString, "network_error")
  | Response status None => (status, EmptyString, "response_read")
  | Response status (Some contents) =>
      let body := of_bytes (firstn maxResponseBody contents) in
      if (status <? 200) || (300 <=? status) then (status, body, "http_" +:+ pretty status)
      else (status, body, EmptyString)
  end.

Definition send (worker : Worker) (d : Claimed) : prog effect (Z * string * string) :=
  match decrypt (secrets worker) (Secret d) with
  | Err _ => Ret (0, EmptyString, "secret_decryption")
  | Ok secret =>
      if negb (NewRequest_accepts (Url d)) then Ret (0, EmptyString, "invalid_request") else
      let! a := call (Do (requestOf d secret)) in Ret (outcome a)
  end.

(** What one attempt is recorded as. *)
Definition record_ (d : Claimed) (result : Z * string * string) : svc effect unit :=
  let '(status, body, code) := result in
  let id := row_ID (delivery d) in
  let attempts := row_Attempts (delivery d) in
  let statusValue := if status =? 0 then None else Some status in
  let bodyValue := if body != EmptyString then Some body else None in
  let! now := call Now in
  if code == EmptyString then call (CompleteWebhookDelivery id statusValue bodyValue (UTC now))
  else if maxAttempts <=? attempts
  then call (FailWebhookDelivery id statusValue bodyValue (UTC now) code)
  else call (RetryWebhookDelivery id statusValue bodyValue (UTC (now + retryDelay attempts)) code).

Fixpoint deliverEach (worker : Worker) (deliveries : list Claimed) : svc effect unit :=
  match deliveries with
  | [] => done_ tt
  | d :: rest =>
      let! sent := send worker d in
      let? _ := wrapErr (wrapf "record webhook delivery result: %w") (record_ d sent) in
      deliverEach worker rest
  end.

Definition deliver (worker : Worker) : svc effect unit :=
  let! now := call Now in
  let now := UTC now in
  let? deliveries := wrapErr (wrapf "claim webhook deliveries: %w")
    (call (ClaimWebhookDeliveries now (worker_id worker) (now - 5 * minute) workerBatchSize)) in
  deliverEach worker deliveries.

Definition process (worker : Worker) : svc effect unit :=
  let? _ := dispatchOutbox worker in deliver worker.
End worker.

(** ** Dialling *)

(** A resolver and a dialer; an address is dialled as [JoinHostPort] of an IP and a
    port. *)
Inductive dial_effect : Type -> Type :=
| LookupIP (host : string) : dial_effect (result (list net.IP))
| DialContext (network : string) (candidate : net.IP) (port : string) : dial_effect (result Z).

Section dial.
Context `{GoNet}.

(** [joined] is the [errors.Join] of the failures so far, [nil] at first. *)
Fixpoint dialEach (network port : string) (candidates : list net.IP) (joined : option error)
    : svc dial_effect Z :=
  match candidates with
  | [] => fail (Errorf "connect to webhook host: %w" (match joined with Some e => [W e] | None => [] end))
  | candidate :: rest =>
      let! connection := call (DialContext network candidate port) in
      match connection with
      | Ok c => done_ c
      | Err e =>
          dialEach network port rest (Some (Join (match joined with Some j => [j; e] | None => [e] end)))
      end
  end.

Definition secureDialContext (network address : string) : svc dial_effect Z :=
  match SplitHostPort address with
  | None => fail (wrapf "validate webhook address: %w" (New "missing port in address"))
  | Some (host, port) =>
      let! found := call (LookupIP host) in
      match found with
      | Err _ | Ok [] => fail (New "webhook host has no public address")
      | Ok addresses =>
          if existsb (fun candidate => negb (publicIP candidate)) addresses
          then fail (New "webhook host has a non-public address")
          else dialEach network port addresses None
      end
  end.
End dial.

(** ** Public addresses *)

(** Whether [ip] begins with the first [bits] bits of [prefix]. *)
Definition in_cidr (prefix : net.IP) (bits : nat) (ip : net.IP) : bool :=
  bool_decide (firstn bits (flat_map (bits_of 8) ip) = firstn bits (flat_map (bits_of 8) prefix)).

(** 0.0.0.0, 10/8, 127/8, 169.254/16, 172.16/12, 192.168/16, 224/4 and
    255.255.255.255; and ::, ::1, fc00::/7, fe80::/10 and ff00::/8. *)
Definition reserved_v4 : list (net.IP * nat) :=
  [([0; 0; 0; 0], 32%nat); ([10; 0; 0; 0], 8%nat); ([127; 0; 0; 0], 8%nat); ([169; 254; 0; 0], 16%nat);
   ([172; 16; 0; 0], 12%nat); ([192; 168; 0; 0], 16%nat); ([224; 0; 0; 0], 4%nat); ([255; 255; 255; 255], 32%nat)].
Definition reserved_v6 : list (net.IP * nat) :=
  [(net.IPv6unspecified, 128%nat); (net.IPv6loopback, 128%nat); (0xFC :: repeat 0 15, 7%nat);
   (0xFE :: 0x80 :: repeat 0 14, 10%nat); (0xFF :: repeat 0 15, 8%nat)].
Definition in_any (ranges : list (net.IP * nat)) (ip : net.IP) : bool :=
  existsb (fun range => in_cidr (fst range) (snd range) ip) ranges.
(** An address of these ranges, or no address at all. *)
Definition reserved (ip : net.IP) : bool :=
  if (length ip =? 4)%nat then in_any reserved_v4 ip
  else if negb (length ip =? 16)%nat then true
  else if bool_decide (firstn 12 ip = net.v4_prefix) then in_any reserved_v4 (skipn 12 ip)
  else in_any reserved_v6 ip.

Lemma in_cidr_byte b bs c cs n : is_byte b -> is_byte c ->
  in_cidr (c :: cs) (8 + n) (b :: bs) = (b =? c) && in_cidr cs n bs.
Proof.
  intros Hb Hc. unfold in_cidr. cbn [flat_map].
  rewrite !firstn_app, !bits_of_length. replace (8 + n - 8)%nat with n by lia.
  rewrite !(firstn_all2 (n := 8 + n)) by (rewrite bits_of_length; lia).
  destruct (Z.eqb_spec b c) as [-> | Hne]; cbn [andb].
  - apply bool_decide_ext. split; [apply app_inv_head | by intros ->].
  - apply bool_decide_eq_false. intros Heq. apply app_inj_1 in Heq as [Heq _].
    + apply (f_equal of_bits) in Heq. by rewrite !bits_of_8 in Heq.
    + by rewrite !bits_of_length.
Qed.

Lemma in_cidr_0 c b : in_cidr c 0 b = true.
Proof. done. Qed.

(** The bits of a prefix that end within a byte. *)
Lemma in_cidr_bits b bs c cs n (f : Z -> bool) : (n <= 8)%nat -> is_byte b ->
  forallb (fun b => Bool.eqb (f b) (bool_decide (firstn n (bits_of 8 b) = firstn n (bits_of 8 c))))
    (seqZ 0 256) = true ->
  in_cidr (c :: cs) n (b :: bs) = f b.
Proof.
  intros Hn Hb Hf. apply (fun H => seqZ_check 256 _ H b Hb), eqb_prop in Hf. rewrite Hf.
  unfold in_cidr. cbn [flat_map]. rewrite !firstn_app, !bits_of_length.
  replace (n - 8)%nat with 0%nat by lia. by rewrite !firstn_O, !app_nil_r.
Qed.

Lemma in_cidr_all c : forall ip, Forall is_byte c -> Forall is_byte ip -> length ip = length c ->
  in_cidr c (8 * length c) ip = bool_decide (ip = c).
Proof.
  induction c as [| c cs IH]; intros [| b bs] Hc Hb Hl; try done.
  apply Forall_cons in Hc as [Hc Hcs], Hb as [Hb Hbs]. injection Hl as Hl.
  replace (8 * length (c :: cs))%nat with (8 + 8 * length cs)%nat by (cbn; lia).
  rewrite in_cidr_byte, (IH bs Hcs Hbs Hl) by done.
  destruct (Z.eqb_spec b c) as [-> | Hne]; cbn [andb].
  - apply bool_decide_ext. split; congruence.
  - symmetry. apply bool_decide_eq_false. congruence.
Qed.

Lemma cidr_32 ip c : Forall is_byte ip -> length ip = 4%nat -> Forall is_byte c -> length c = 4%nat ->
  in_cidr c 32 ip = bool_decide (ip = c).
Proof. intros Hi Hl Hc Hlc. rewrite <- (in_cidr_all c ip) by (done || congruence). by rewrite Hlc. Qed.

Lemma cidr_128 ip c : Forall is_byte ip -> length ip = 16%nat -> Forall is_byte c -> length c = 16%nat ->
  in_cidr c 128 ip = bool_decide (ip = c).
Proof. intros Hi Hl Hc Hlc. rewrite <- (in_cidr_all c ip) by (done || congruence). by rewrite Hlc. Qed.

Ltac byte := unfold is_byte; lia.

Lemma publicIP_v4 a b c d : Forall is_byte [a; b; c; d] ->
  publicIP [a; b; c; d] = negb (in_any reserved_v4 [a; b; c; d]).
Proof.
  intros HF. unfold in_any, reserved_v4. cbn [existsb fst snd].
  rewrite !cidr_32 by (done || (repeat constructor; byte)).
  apply Forall_cons in HF as [Ha HF]. apply Forall_cons in HF as [Hb _].
  rewrite !(in_cidr_byte a _ _ _ 0), !(in_cidr_byte a _ _ _ 8), (in_cidr_byte a _ _ _ 4),
    !(in_cidr_byte b _ _ _ 0), !in_cidr_0 by (done || byte).
  rewrite (in_cidr_bits b _ 16 _ 4 (fun b => Z.land b 0xf0 =? 16)),
    (in_cidr_bits a _ 224 _ 4 (fun a => Z.land a 0xf0 =? 0xe0))
    by (lia || done || (vm_compute; reflexivity)).
  unfold publicIP, net.IsGlobalUnicast, net.IsUnspecified, net.IsLoopback, net.IsPrivate,
    net.IsMulticast, net.IsLinkLocalMulticast, net.IsLinkLocalUnicast.
  change (net.To4 [a; b; c; d]) with (Some [a; b; c; d]). cbn [net.at_ nth length Nat.eqb orb andb].
  change (net.Equal [a; b; c; d] net.IPv4bcast) with (bool_decide ([a; b; c; d] = [255; 255; 255; 255])).
  change (net.Equal [a; b; c; d] net.IPv4zero) with (bool_decide ([a; b; c; d] = [0; 0; 0; 0])).
  change (net.Equal [a; b; c; d] net.IPv6unspecified) with false.
  assert (Hm : (a =? 224) && (b =? 0) && (c =? 0) = true -> Z.land a 240 =? 224 = true).
  { rewrite !andb_true_iff. intros [[->%Z.eqb_eq _] _]. done. }
  revert Hm. generalize ((a =? 224) && (b =? 0) && (c =? 0)). intros llm.
  by destruct llm, (Z.land a 240 =? 224), (bool_decide _), (bool_decide _), (a =? 127), (a =? 169),
    (b =? 254), (a =? 10), (a =? 172), (Z.land b 240 =? 16), (a =? 192), (b =? 168); intros Hm;
    try specialize (Hm eq_refl).
Qed.

Lemma IsPublic_mapped a b c d : Forall is_byte [a; b; c; d] ->
  publicIP (net.IPv4 a b c d) = publicIP [a; b; c; d].
Proof.
  intros _. assert (He : forall x y z w, net.Equal (net.IPv4 a b c d) (net.IPv4 x y z w)
    = net.Equal [a; b; c; d] (net.IPv4 x y z w)).
  { intros x y z w. change (bool_decide (net.IPv4 a b c d = net.IPv4 x y z w)
      = bool_decide ([a; b; c; d] = [x; y; z; w])).
    apply bool_decide_ext. unfold net.IPv4. split; [apply app_inv_head | by intros ->]. }
  assert (Hu : net.Equal (net.IPv4 a b c d) net.IPv6unspecified = false).
  { apply bool_decide_eq_false_2. done. }
  unfold publicIP, net.IsGlobalUnicast, net.IsUnspecified. rewrite Hu.
  unfold net.IPv4bcast, net.IPv4zero. by rewrite !He.
Qed.

Lemma publicIP_v6 ip : Forall is_byte ip -> length ip = 16%nat -> firstn 12 ip <> net.v4_prefix ->
  publicIP ip = negb (in_any reserved_v6 ip).
Proof.
  intros HF Hl Hp. unfold in_any, reserved_v6. cbn [existsb fst snd].
  rewrite !cidr_128 by (done || (cbn; repeat constructor; byte)).
  unfold publicIP, net.IsGlobalUnicast, net.IsUnspecified, net.IsLoopback, net.IsPrivate,
    net.IsMulticast, net.IsLinkLocalMulticast, net.IsLinkLocalUnicast.
  assert (H4 : net.To4 ip = None).
  { unfold net.To4. rewrite Hl. cbn. by rewrite bool_decide_eq_false_2. }
  rewrite H4.
  assert (He : forall x, length x = 16%nat -> net.Equal ip x = bool_decide (ip = x)).
  { intros x Hx. unfold net.Equal. by rewrite Hl, Hx. }
  rewrite !He by done.
  rewrite (bool_decide_eq_false_2 (ip = net.IPv4bcast)), (bool_decide_eq_false_2 (ip = net.IPv4zero))
    by (by intros ->).
  rewrite Hl. destruct ip as [| b0 [| b1 ip]]; [done.. |].
  apply Forall_cons in HF as [H0 HF]. apply Forall_cons in HF as [H1 _].
  rewrite (in_cidr_bits b0 _ 0xFC _ 7 (fun b => Z.land b 0xfe =? 0xfc)),
    (in_cidr_byte b0 _ 0xFE _ 2), (in_cidr_bits b1 _ 0x80 _ 2 (fun b => Z.land b 0xc0 =? 0x80)),
    (in_cidr_byte b0 _ 0xFF _ 0), in_cidr_0
    by (lia || done || byte || (vm_compute; reflexivity)).
  cbn [net.at_ nth Nat.eqb orb andb].
  assert (Hm : b0 =? 255 = false -> (b0 =? 255) && (Z.land b1 15 =? 2) = false) by (by intros ->).
  revert Hm. generalize (Z.land b1 15 =? 2). intros llm.
  by destruct llm, (b0 =? 255), (bool_decide _), (bool_decide _), (Z.land b0 0xfe =? 0xfc),
    (b0 =? 254), (Z.land b1 0xc0 =? 0x80).
Qed.

(** An address is public exactly when it is an IPv4 address (also in its IPv6
    form) outside the private, loopback, link-local, multicast, unspecified and
    broadcast ranges, or an IPv6 address outside their IPv6 counterparts. *)
Theorem publicIP_iff (ip : net.IP) (Hb : Forall is_byte ip) : publicIP ip = negb (reserved ip).
Proof.
  unfold reserved. destruct (Nat.eqb_spec (length ip) 4) as [H4 | H4].
  { destruct ip as [| a [| b [| c [| d [| e ip]]]]]; try done. by apply publicIP_v4. }
  destruct (Nat.eqb_spec (length ip) 16) as [H16 | H16]; cbn [negb].
  2: { unfold publicIP, net.IsGlobalUnicast.
       by rewrite (proj2 (Nat.eqb_neq _ _) H4), (proj2 (Nat.eqb_neq _ _) H16). }
  case_bool_decide as Hp; [| by apply publicIP_v6].
  assert (Hs : length (skipn 12 ip) = 4%nat) by (rewrite length_skipn; lia).
  replace (publicIP ip) with (publicIP (net.v4_prefix ++ skipn 12 ip))
    by (rewrite <- Hp; f_equal; apply firstn_skipn).
  assert (Hbs : Forall is_byte (skipn 12 ip)).
  { by apply Forall_drop. }
  destruct (skipn 12 ip) as [| a [| b [| c [| d [| e rest]]]]]; try done.
  rewrite <- publicIP_v4 by done. by apply (IsPublic_mapped a b c d).
Qed.

(** A webhook may reach the shared address space of RFC 6598, the benchmark
    networks, the reserved block 240/4, and IPv4 addresses behind a NAT64 or 6to4
    prefix: none of them counts as private. *)
Example shared_address_space_public : publicIP [100; 64; 0; 1] = true.
Proof. reflexivity. Qed.
Example nat64_loopback_public :
  publicIP [0; 0x64; 0xFF; 0x9B; 0; 0; 0; 0; 0; 0; 0; 0; 127; 0; 0; 1] = true.
Proof. reflexivity. Qed.

(** ** Dialling *)

Section DialFacts.
Context `{GoNet}.

(** An address is dialled only if it is one of those that the name was just found under,
    none of which is in a reserved range. *)
Definition dial_guard (address : string) (h : list (Prelude.event dial_effect)) X (e : dial_effect X)
    : Prop :=
  match e with
  | LookupIP host => h = [] /\ exists port, SplitHostPort address = Some (host, port)
  | DialContext network candidate port =>
      exists host addresses rest, SplitHostPort address = Some (host, port) /\
        h = Ev (LookupIP host) (Ok addresses) :: rest /\
        Forall (fun ip => Forall is_byte ip -> reserved ip = false) addresses /\ candidate ∈ addresses
  end.

Lemma dialEach_wp address network port host addresses : forall candidates joined rest,
  SplitHostPort address = Some (host, port) ->
  Forall (fun ip => Forall is_byte ip -> reserved ip = false) addresses ->
  candidates ⊆ addresses ->
  wp (dial_guard address) (dialEach network port candidates joined) (fun _ _ => True)
    (Ev (LookupIP host) (Ok addresses) :: rest).
Proof.
  induction candidates as [| c candidates IH]; intros joined rest Hs Hp Hsub; cbn; [done |]. split.
  - exists host, addresses, rest. split_and!; [done.. |]. apply Hsub. by left.
  - intros [conn | e]; cbn; [done |]. apply IH; [done.. |]. set_solver.
Qed.

(** C34: delivery does not reach the reserved ranges: whatever name a webhook's URL has and
    whatever it resolves to, the transport dials an address only if it is one of those the name
    was just found to have, at the port asked for, and if none of these is in 0.0.0.0,
    10/8, 127/8, 169.254/16, 172.16/12, 192.168/16, 224/4 or 255.255.255.255, also written in
    IPv6, or is ::, ::1 or in fc00::/7, fe80::/10 or ff00::/8.  These ranges are all there is:
    the shared address space 100.64/10, and a private address behind the NAT64 prefix, are
    dialled, though the documentation has deliveries go to public addresses only. *)
Theorem dials_outside_reserved (network address : string) :
  guarded (dial_guard address) (secureDialContext network address) /\
  forall host port ip c, SplitHostPort address = Some (host, port) ->
    ip ∈ [[100; 64; 0; 1]; [0; 0x64; 0xFF; 0x9B; 0; 0; 0; 0; 0; 0; 0; 0; 127; 0; 0; 1]] ->
    runs (secureDialContext network address)
      [Ev (LookupIP host) (Ok [ip]); Ev (DialContext network ip port) (Ok c)] (Ok c).
Proof.
  split.
  - apply (wp_guarded _ _ (fun _ _ => True)). unfold secureDialContext.
    destruct (SplitHostPort address) as [[host port] |] eqn:Hs; [| done]. cbn. split; [by eauto |].
    intros [[| ip addresses] | e]; cbn -[existsb dialEach]; try done.
    destruct (existsb _ _) eqn:Hp; [done |]. apply existsb_false in Hp.
    apply (dialEach_wp address network port host); [done | | done].
    eapply Forall_impl; [exact Hp |]. cbn beta. intros x Hx%negb_false_iff Hb.
    rewrite publicIP_iff in Hx by done. by apply negb_true_iff in Hx.
  - intros host port ip c Hs Hip. unfold secureDialContext. rewrite Hs.
    apply elem_of_cons in Hip as [-> | Hip]; [| apply list_elem_of_singleton in Hip as ->];
      (eexists; split; [reflexivity |]; eexists; split; [reflexivity |]; reflexivity).
Qed.
End DialFacts.

(** ** Configuration *)

Section ConfigFacts.
Context `{GoUnicode, UUIDs, UUIDReader, AEAD} `{GoNet}.

Lemma find_none_iff {A} (f : A -> bool) l : List.find f l = None <-> Forall (fun x => f x = false) l.
Proof.
  induction l as [| x l IH]; cbn; [done |]. rewrite Forall_cons. destruct (f x); [naive_solver |].
  rewrite IH. naive_solver.
Qed.

(** The text of the host does not name the local machine or a private address. *)
Definition public_host (host : string) : Prop :=
  host <> "localhost" /\ HasSuffix host ".localhost" = false /\
  forall ip, ParseIP host = Some ip -> publicIP ip = true.
Definition accepted_url (rawURL : string) : Prop :=
  exists u, ParseRequestURI rawURL = Some u /\ Scheme u = "https" /\ Hostname u <> EmptyString /\
    HasUser u = false /\ Fragment u = EmptyString /\ public_host (ToLower (Hostname u)).

Lemma allowed_iff e : existsb (String.eqb e) allowedEvents = true <-> e ∈ allowedEvents.
Proof.
  rewrite existsb_exists, list_elem_of_In. split.
  - by intros (x & Hx & ->%String.eqb_eq).
  - intros He. exists e. by rewrite String.eqb_refl.
Qed.

Lemma events_iff (events : list string) :
  match List.find (fun event => negb (existsb (String.eqb event) allowedEvents)) events with
  | Some event => @Err unit (Errorf "%w: unsupported event %q" [W ErrValidation; Str event])
  | None => Ok tt
  end = Ok tt <-> Forall (fun e => e ∈ allowedEvents) events.
Proof.
  transitivity (Forall (fun e => negb (existsb (String.eqb e) allowedEvents) = false) events).
  - rewrite <- find_none_iff. by destruct (List.find _ events).
  - apply Forall_iff. intros e. by rewrite negb_false_iff, allowed_iff.
Qed.

(** A webhook's URL, secret and events are accepted exactly when the URL is an
    absolute HTTPS URL without user information or fragment whose host is neither a
    name of the local machine nor the text of an address that is not public, the
    secret has 16 to 256 bytes, and there is at least one event, all of them
    supported; every refusal is a validation error. *)
Theorem validateInput_iff (rawURL secret : string) (events : list string) :
  (validateInput rawURL secret events = Ok tt <->
   accepted_url rawURL /\ 16 <= len secret <= 256 /\ events <> [] /\
   Forall (fun e => e ∈ allowedEvents) events) /\
  (is_Ok (validateInput rawURL secret events) = true \/
   exists e, validateInput rawURL secret events = Err e /\ Is e ErrValidation = true).
Proof.
  split.
  - unfold validateInput, accepted_url, public_host.
    destruct (ParseRequestURI rawURL) as [u |]; [| naive_solver].
    rewrite !reject_Ok, events_iff, !orb_false_iff, !neq_false, Z.ltb_ge, Z.ltb_ge, Nat.eqb_neq,
      length_zero_iff_nil, !String.eqb_neq.
    assert (Hip : match ParseIP (ToLower (Hostname u)) with
                  | Some address => negb (publicIP address) | None => false end = false <->
                  forall ip, ParseIP (ToLower (Hostname u)) = Some ip -> publicIP ip = true).
    { destruct (ParseIP _) as [ip |]; [rewrite negb_false_iff |]; naive_solver. }
    rewrite Hip. naive_solver.
  - unfold validateInput, reject. destruct (ParseRequestURI rawURL) as [u |]; [| by right; eexists].
    repeat match goal with |- context [if ?b then _ else _] =>
      destruct b; [by right; eexists | cbn [is_Ok]] end.
    destruct (List.find _ events) as [e |]; [by right; eexists | by left].
Qed.
End ConfigFacts.

(** ** Secrets and signatures *)

Section SecretFacts.
Context `{UUIDs, UUIDReader} `{AEADLaws} `{GoNet}.

(** The stored form of a secret is one fresh nonce and the sealed secret, and
    decrypts to the secret, for every nonce of the cipher's size and every key. *)
Theorem decrypt_encrypt (service : Service) (secret : list Z) :
  ensures (fun tr r => exists nonce, tr = [Ev (Nonce NonceSize) nonce] /\
    forall n ciphertext, nonce = Ok n -> length n = NonceSize -> r = Ok ciphertext ->
      firstn NonceSize ciphertext = n /\ decrypt service ciphertext = Ok secret) (encrypt service secret).
Proof.
  apply (wp_ensures no_guard). cbn -[additionalData]. split; [done |]. intros nonce.
  destruct nonce as [n | e]; cbn -[additionalData]; eexists; (split; [done |]); intros n' c [= <-] Hl [= <-].
  unfold decrypt.
  assert (Hf : firstn NonceSize (n ++ Seal (cipher service) n secret additionalData) = n)
    by (rewrite <- Hl; by rewrite firstn_app, Nat.sub_diag, firstn_O, app_nil_r, firstn_all).
  assert (Hs : skipn NonceSize (n ++ Seal (cipher service) n secret additionalData)
               = Seal (cipher service) n secret additionalData)
    by (rewrite <- Hl; by rewrite skipn_app, Nat.sub_diag, skipn_O, skipn_all).
  rewrite Hf, Hs, Open_Seal by done. split; [done |].
  rewrite (proj2 (Nat.ltb_ge _ _)); [done |]. rewrite length_app. lia.
Qed.
End SecretFacts.

(** ** Retries *)

(** The delay before a delivery is tried again is a minute after the first attempt
    and doubles with every further one up to an hour, never less and never more;
    the 64-bit computation cannot overflow for the attempts the worker makes. *)
Theorem retryDelay_backoff (attempt : Z) (Ha : 1 <= attempt < maxAttempts) :
  retryDelay attempt = Z.min (minute * 2 ^ (attempt - 1)) hour /\
  minute <= retryDelay attempt <= hour /\ retryDelay attempt <= retryDelay (attempt + 1).
Proof.
  assert (Hc : attempt ∈ seqZ 1 7) by (apply elem_of_seqZ; unfold maxAttempts in *; lia).
  clear Ha. revert attempt Hc. apply Forall_forall. cbn. unfold minute, hour, second.
  repeat (apply Forall_cons; split; [vm_compute; repeat split; discriminate |]).
  apply Forall_nil_2.
Qed.

Example retryDelay_overflow : retryDelay 29 < 0.
Proof. reflexivity. Qed.

(** The one request of an attempt. *)
Section SendFacts.
Context `{UUIDs, UUIDReader, AEAD} `{GoNet}.

Definition sent_for (worker : Worker) (d : Claimed) (request : Request) : Prop :=
  NewRequest_accepts (Url d) = true /\
  exists secret, decrypt (secrets worker) (Secret d) = Ok secret /\
    R_URL request = Url d /\ R_Body request = RequestBody (delivery d) /\
    In ("X-Adenosine-Signature-256", "sha256=" +:+ hex_EncodeToString (hmac secret (R_Body request)))
       (R_Headers request) /\
    In ("X-Adenosine-Delivery", uuid_String (row_ID (delivery d))) (R_Headers request).

Definition send_guard (worker : Worker) (h : list (Prelude.event effect)) X (e : effect X) : Prop :=
  match e with
  | Do request => exists now claimTime claimedBy staleBefore batch deliveries d rest,
      h = Ev Now now :: Ev (ClaimWebhookDeliveries claimTime claimedBy staleBefore batch) (Ok deliveries)
          :: rest /\ d ∈ deliveries /\ sent_for worker d request
  | _ => True
  end.

Lemma deliverEach_wp worker now claimTime claimedBy staleBefore batch deliveries : forall ds rest,
  ds ⊆ deliveries ->
  wp (send_guard worker) (deliverEach worker ds) (fun _ _ => True)
    (Ev Now now :: Ev (ClaimWebhookDeliveries claimTime claimedBy staleBefore batch) (Ok deliveries)
     :: rest).
Proof.
  induction ds as [| d ds IH]; intros rest Hsub; [done |]. cbn [deliverEach].
  rewrite wp_bind. unfold send.
  assert (Hrec : forall r t, wp (send_guard worker)
    (svc_bind (wrapErr (wrapf "record webhook delivery result: %w") (record_ d r))
       (fun _ => deliverEach worker ds)) (fun _ _ => True)
    (Ev Now now :: Ev (ClaimWebhookDeliveries claimTime claimedBy staleBefore batch) (Ok deliveries)
     :: t)).
  { intros [[status body] code] t. rewrite wp_svc_bind. unfold wrapErr, record_. cbn -[deliverEach].
    split; [done |]. intros u.
    repeat match goal with |- context [if ?b then call _ else _] => destruct b end;
      cbn -[deliverEach]; (split; [done |]); intros [x | e]; cbn -[deliverEach]; try done;
      apply IH; set_solver. }
  destruct (decrypt _ _) as [secret | e] eqn:Hd; [| apply Hrec].
  destruct (NewRequest_accepts (Url d)) eqn:Hacc; cbn [negb]; [| apply Hrec]. cbn -[deliverEach record_].
  split.
  - exists now, claimTime, claimedBy, staleBefore, batch, deliveries, d, rest.
    split_and!; [done | set_solver |]. split; [done |]. exists secret. unfold requestOf. cbn [R_URL R_Body R_Headers]. split_and!; try done; cbn; auto 10.
  - intros a. apply Hrec.
Qed.

(** Every request the worker sends is one of a delivery it has just claimed: it
    goes to the URL of that delivery's webhook and carries exactly the stored body,
    the delivery's id and the HMAC-SHA-256 of that body under the webhook's
    secret; a delivery whose secret cannot be decrypted is not sent. *)
Theorem deliveries_signed (worker : Worker) : guarded (send_guard worker) (deliver worker).
Proof.
  apply (wp_guarded _ _ (fun _ _ => True)). unfold deliver. cbn -[deliverEach]. split; [done |].
  intros now. split; [done |]. intros [ds | e]; cbn -[deliverEach]; [| done].
  by apply deliverEach_wp.
Qed.
End SendFacts.

Module webhook_examples.
Lemma publicIP_iff_witness : publicIP [172; 31; 255; 1] = negb (reserved [172; 31; 255; 1]).
Proof. apply (publicIP_iff [172; 31; 255; 1]). repeat constructor; vm_compute; congruence. Defined.

Lemma retryDelay_backoff_witness :
  retryDelay 7 = Z.min (minute * 2 ^ (7 - 1)) hour /\
  minute <= retryDelay 7 <= hour /\ retryDelay 7 <= retryDelay (7 + 1).
Proof. apply (retryDelay_backoff 7). unfold maxAttempts. lia. Defined.
End webhook_examples.
End webhook.
