(* ===== verification/WebhookStore.v ===== *)
(** * WebhookStore: webhooks, their deliveries and the outbox as tables.

    The queries of webhooks.sql and outbox.sql over the rows of
    [core.repository_webhooks], [ops.webhook_deliveries] and [ops.outbox_events],
    with their constraints, and what the service and the worker do to them. *)

From S2P Require Import Prelude.
From S2P Require Import Keyset.
From S2P Require Import GoText.
From S2P Require Import Encoding.
From S2P Require Import Syntax.
From S2P Require Import CommitStatus.
From S2P Require Import Event.
From S2P Require Import Webhook.

(** PostgreSQL's functions the queries call: the stored form of a JSON text, and
    [md5(webhook || ':' || event)::uuid]. *)
Class Postgres := { jsonb : list Z -> list Z; md5_uuid : UUID -> UUID -> UUID }.

Module webhookstore.
Import webhook.

Record db := mkDb {
  webhooks : list WebhookRow; deliveries : list DeliveryRow; outbox : list event.OutboxEvent;
  fresh : UUID; random : nat -> list Z; clock : time;
  receiver : list Request -> Request -> answer; sent : list Request
}.
Definition with_webhooks (rows : list WebhookRow) (s : db) : db :=
  mkDb rows (deliveries s) (outbox s) (fresh s) (random s) (clock s) (receiver s) (sent s).
Definition with_deliveries (rows : list DeliveryRow) (s : db) : db :=
  mkDb (webhooks s) rows (outbox s) (fresh s) (random s) (clock s) (receiver s) (sent s).
Definition with_outbox (rows : list event.OutboxEvent) (s : db) : db :=
  mkDb (webhooks s) (deliveries s) rows (fresh s) (random s) (clock s) (receiver s) (sent s).

Definition duplicate_key : error := New "duplicate key value violates unique constraint".
Definition check_violation : error := New "new row violates check constraint".
Definition invalid_text : error := New "invalid byte sequence for encoding UTF8".

Definition hook_id (row : WebhookRow) : UUID := ID (row_webhook row).
Definition of_repository (repositoryID : UUID) (row : WebhookRow) : bool :=
  RepositoryID (row_webhook row) =? repositoryID.
Definition not_deleted (row : WebhookRow) : bool := bool_decide (DeletedAt row = None).
(** [id = ... AND repository_id = ... AND deleted_at IS NULL]. *)
Definition selects (id repositoryID : UUID) (row : WebhookRow) : bool :=
  (hook_id row =? id) && of_repository repositoryID row && not_deleted row.
(** [enabled AND deleted_at IS NULL]. *)
Definition active (row : WebhookRow) : bool := Enabled (row_webhook row) && not_deleted row.
Definition hook_time (row : WebhookRow) : time * UUID := (CreatedAt (row_webhook row), hook_id row).
Definition delivery_time (row : DeliveryRow) : time * UUID := (row_CreatedAt row, row_ID row).

Definition set_webhook (url : string) (secret : option (list Z)) (events : list string)
    (enabled : bool) (updatedAt : time) (row : WebhookRow) : WebhookRow :=
  let w := row_webhook row in
  mkWebhookRow (mkWebhook (ID w) (RepositoryID w) url events enabled (CreatedAt w) updatedAt)
    (default (SecretCiphertext row) secret) (DeletedAt row).
Definition delete_webhook (deletedAt : time) (row : WebhookRow) : WebhookRow :=
  let w := row_webhook row in
  mkWebhookRow (mkWebhook (ID w) (RepositoryID w) (URL w) (Events w) (Enabled w) (CreatedAt w) deletedAt)
    (SecretCiphertext row) (Some deletedAt).

(** A delivery as it is inserted. *)
Definition new_delivery (id webhookID : UUID) (eventType : string) (eventID : UUID) (body : list Z)
    (at_ : time) : DeliveryRow :=
  mkDeliveryRow id webhookID eventType eventID body None None 0 at_ None None None None None at_.
Definition claim_delivery (claimTime : time) (claimedBy : string) (d : DeliveryRow) : DeliveryRow :=
  mkDeliveryRow (row_ID d) (row_WebhookID d) (row_EventType d) (EventID d) (RequestBody d)
    (row_ResponseStatus d) (row_ResponseBody d) (row_Attempts d + 1) (AvailableAt d) (Some claimTime)
    (Some claimedBy) (row_DeliveredAt d) (row_FailedAt d) (row_LastErrorCode d) (row_CreatedAt d).
(** The result of an attempt: the claim ends. *)
Definition settle (status : option Z) (body : option string) (availableAt : time)
    (deliveredAt failedAt : option time) (code : option string) (d : DeliveryRow) : DeliveryRow :=
  mkDeliveryRow (row_ID d) (row_WebhookID d) (row_EventType d) (EventID d) (RequestBody d) status body
    (row_Attempts d) availableAt None None deliveredAt failedAt code (row_CreatedAt d).
Definition complete_delivery status body (at_ : time) (d : DeliveryRow) : DeliveryRow :=
  settle status body (AvailableAt d) (Some at_) (row_FailedAt d) None d.
Definition retry_delivery status body (at_ : time) (code : string) (d : DeliveryRow) : DeliveryRow :=
  settle status body at_ (row_DeliveredAt d) (row_FailedAt d) (Some code) d.
Definition fail_delivery status body (at_ : time) (code : string) (d : DeliveryRow) : DeliveryRow :=
  settle status body (AvailableAt d) (row_DeliveredAt d) (Some at_) (Some code) d.

Definition set_claim (claim : option time) (by_ : option string) (completed : option time)
    (available : time) (attempts : Z) (code : option string) (e : event.OutboxEvent) : event.OutboxEvent :=
  event.mkOutboxEvent (event.ID e) (event.EventType e) (event.AggregateType e) (event.AggregateID e)
    (event.Payload e) (event.CreatedAt e) available claim by_ completed attempts code
    (event.Traceparent e) (event.Tracestate e).
Definition claim_event (claimTime : time) (claimedBy : string) (e : event.OutboxEvent) :=
  set_claim (Some claimTime) (Some claimedBy) (event.CompletedAt e) (event.AvailableAt e)
    (event.Attempts e + 1) (event.LastErrorCode e) e.
Definition complete_event (at_ : time) (e : event.OutboxEvent) :=
  set_claim None None (Some at_) (event.AvailableAt e) (event.Attempts e) None e.
Definition retry_event (at_ : time) (code : string) (e : event.OutboxEvent) :=
  set_claim None None (event.CompletedAt e) at_ (event.Attempts e) (Some code) e.

(** [claimed_at IS NULL OR claimed_at < stale_before]. *)
Definition unclaimed (claimedAt : option time) (staleBefore : time) : bool :=
  match claimedAt with None => true | Some t => t <? staleBefore end.
Definition event_ready (claimTime staleBefore : time) (e : event.OutboxEvent) : bool :=
  bool_decide (event.CompletedAt e = None) && (event.AvailableAt e <=? claimTime)
  && unclaimed (event.ClaimedAt e) staleBefore.
Definition hook_of (s : db) (d : DeliveryRow) : option WebhookRow :=
  List.find (fun w => hook_id w =? row_WebhookID d) (webhooks s).
Definition unsettled (d : DeliveryRow) : bool :=
  bool_decide (row_DeliveredAt d = None) && bool_decide (row_FailedAt d = None).
(** Whether the webhook of a delivery takes deliveries. *)
Definition deliverable (s : db) (d : DeliveryRow) : bool :=
  match hook_of s d with Some w => active w | None => false end.
Definition delivery_ready (s : db) (claimTime staleBefore : time) (d : DeliveryRow) : bool :=
  unsettled d && (AvailableAt d <=? claimTime) && unclaimed (ClaimedAt d) staleBefore
  && deliverable s d.

(** [ORDER BY available_at, created_at(, id) LIMIT ...], and the rows so chosen. *)
Definition earlier {R} (key : R -> time * time * UUID) (x y : R) : Prop :=
  let '(a, c, i) := key x in let '(a', c', i') := key y in
  a < a' \/ a = a' /\ (c < c' \/ c = c' /\ i <= i').
#[export] Instance earlier_dec {R} (key : R -> time * time * UUID) : RelDecision (earlier key).
Proof.
  intros x y. unfold earlier. destruct (key x) as [[a c] i], (key y) as [[a' c'] i']. apply _.
Defined.
Definition choose {R} (key : R -> time * time * UUID) (ready : R -> bool) (limit : Z) (rows : list R)
    : list UUID :=
  map (fun row => snd (key row)) (firstn (Z.to_nat limit) (merge_sort (earlier key) (List.filter ready rows))).
Definition event_key (e : event.OutboxEvent) : time * time * UUID :=
  (event.AvailableAt e, event.CreatedAt e, event.ID e).
Definition delivery_key (d : DeliveryRow) : time * time * UUID :=
  (AvailableAt d, row_CreatedAt d, row_ID d).
Definition among (ids : list UUID) (id : UUID) : bool := bool_decide (id ∈ ids).

(** [response_status BETWEEN 100 AND 599], and what a [TEXT] column takes. *)
Definition storable_status (status : option Z) : bool :=
  match status with None => true | Some st => (100 <=? st) && (st <=? 599) end.
Definition storable_text (body : option string) : bool :=
  match body with None => true | Some b => ValidString b && negb (any_char (is_char Ascii.zero) b) end.
Definition record_result (id : UUID) (status : option Z) (body : option string)
    (update : DeliveryRow -> DeliveryRow) (s : db) : result unit * db :=
  let hit d := row_ID d =? id in
  if negb (storable_text body) then (Err invalid_text, s)
  else if existsb hit (deliveries s) && negb (storable_status status) then (Err check_violation, s)
  else (Ok tt, with_deliveries (update_where hit update (deliveries s)) s).

Definition same_delivery (webhookID eventID : UUID) (d : DeliveryRow) : bool :=
  (row_WebhookID d =? webhookID) && (EventID d =? eventID).
(** The webhooks an event is delivered to. *)
Definition subscribed (repositoryID : UUID) (eventType : string) (row : WebhookRow) : bool :=
  of_repository repositoryID row && active row && existsb (String.eqb eventType) (Events (row_webhook row)).

Section handle.
Context `{Postgres}.

(** The rows [CreateWebhookDeliveriesForEvent] adds: those of the subscribers that have
    no delivery of the event yet. *)
Definition event_deliveries (eventID : UUID) (eventType : string) (body : list Z) (createdAt : time)
    (repositoryID : UUID) (s : db) : list DeliveryRow :=
  map (fun w => new_delivery (md5_uuid (hook_id w) eventID) (hook_id w) eventType eventID (jsonb body)
                  createdAt)
    (List.filter (fun w => subscribed repositoryID eventType w
                           && negb (existsb (same_delivery (hook_id w) eventID) (deliveries s)))
       (webhooks s)).

Definition handle X (e : effect X) (s : db) : X * db :=
  match e in effect X return X * db with
  | CreateRepositoryWebhook row =>
      if existsb (fun w => hook_id w =? hook_id row) (webhooks s) then (Err duplicate_key, s)
      else if (length (Events (row_webhook row)) =? 0)%nat then (Err check_violation, s)
      else (Ok row, with_webhooks (webhooks s ++ [row]) s)
  | GetRepositoryWebhook id repositoryID =>
      (find_row ErrNoRows (selects id repositoryID) (webhooks s), s)
  | PageRepositoryWebhooks repositoryID after limit =>
      (Ok (keyset.page_rows hook_time (of_repository repositoryID)
             (fun w => of_repository repositoryID w && not_deleted w) after limit (webhooks s)), s)
  | UpdateRepositoryWebhook id repositoryID url secret events enabled updatedAt =>
      let hit := selects id repositoryID in
      let update := set_webhook url secret events enabled updatedAt in
      match find_row ErrNoRows hit (webhooks s) with
      | Err err => (Err err, s)
      | Ok row =>
          if (length events =? 0)%nat then (Err check_violation, s)
          else (Ok (update row), with_webhooks (update_where hit update (webhooks s)) s)
      end
  | DeleteRepositoryWebhook id repositoryID deletedAt =>
      let hit := selects id repositoryID in
      (Ok (Z.of_nat (length (List.filter hit (webhooks s)))),
       with_webhooks (update_where hit (delete_webhook deletedAt) (webhooks s)) s)
  | PageWebhookDeliveries webhookID repositoryID after limit =>
      let mine d := (row_WebhookID d =? webhookID)
                    && existsb (selects webhookID repositoryID) (webhooks s) in
      (Ok (keyset.page_rows delivery_time (fun d => row_WebhookID d =? webhookID) mine after limit
             (deliveries s)), s)
  | RedeliverWebhookDelivery id originalID webhookID repositoryID createdAt =>
      let hit d := (row_ID d =? originalID) && (row_WebhookID d =? webhookID)
                   && existsb (selects webhookID repositoryID) (webhooks s) in
      match find_row ErrNoRows hit (deliveries s) with
      | Err err => (Err err, s)
      | Ok original =>
          let row := new_delivery id (row_WebhookID original) (row_EventType original) id
                       (RequestBody original) createdAt in
          if existsb (fun d => (row_ID d =? id) || same_delivery (row_WebhookID original) id d)
               (deliveries s)
          then (Err duplicate_key, s) else (Ok row, with_deliveries (deliveries s ++ [row]) s)
      end
  | ClaimOutboxEvents claimTime claimedBy staleBefore batchSize =>
      let ids := choose event_key (event_ready claimTime staleBefore) batchSize (outbox s) in
      let hit e := among ids (event.ID e) in
      let claim := claim_event claimTime claimedBy in
      (Ok (map claim (List.filter hit (outbox s))),
       with_outbox (update_where hit claim (outbox s)) s)
  | CreateWebhookDeliveriesForEvent eventID eventType body createdAt repositoryID =>
      let rows := event_deliveries eventID eventType body createdAt repositoryID s in
      if bool_decide (NoDup (map row_ID (deliveries s ++ rows)))
      then (Ok tt, with_deliveries (deliveries s ++ rows) s)
      else (Err duplicate_key, s)
  | CompleteOutboxEvent id completedAt =>
      (Ok tt, with_outbox (update_where (event.has_id id) (complete_event completedAt) (outbox s)) s)
  | RetryOutboxEvent id availableAt code =>
      let hit e := event.has_id id e && bool_decide (event.CompletedAt e = None) in
      (Ok tt, with_outbox (update_where hit (retry_event availableAt code) (outbox s)) s)
  | ClaimWebhookDeliveries claimTime claimedBy staleBefore batchSize =>
      let ids := choose delivery_key (delivery_ready s claimTime staleBefore) batchSize (deliveries s) in
      let hit d := among ids (row_ID d) in
      let claim := claim_delivery claimTime claimedBy in
      (Ok (omap (fun d => w ← hook_of s d;
                          Some (mkClaimed (claim d) (URL (row_webhook w)) (SecretCiphertext w)))
             (List.filter hit (deliveries s))),
       with_deliveries (update_where hit claim (deliveries s)) s)
  | CompleteWebhookDelivery id status body at_ =>
      record_result id status body (complete_delivery status body at_) s
  | RetryWebhookDelivery id status body at_ code =>
      record_result id status body (retry_delivery status body at_ code) s
  | FailWebhookDelivery id status body at_ code =>
      record_result id status body (fail_delivery status body at_ code) s
  | NewV7 =>
      (Ok (fresh s), mkDb (webhooks s) (deliveries s) (outbox s) (fresh s + 1) (random s) (clock s)
                       (receiver s) (sent s))
  | Nonce size =>
      (Ok (firstn size (random s 0)),
       mkDb (webhooks s) (deliveries s) (outbox s) (fresh s) (fun n => random s (S n)) (clock s)
         (receiver s) (sent s))
  | Now => (clock s, s)
  | Do request =>
      (receiver s (sent s) request,
       mkDb (webhooks s) (deliveries s) (outbox s) (fresh s) (random s) (clock s) (receiver s)
         (sent s ++ [request]))
  end.
End handle.

(** ** What every query keeps *)

Section Invariant.
Context `{Postgres}.
#[local] Arguments update_where : simpl never.

Definition delivery_columns (d : DeliveryRow) :=
  (row_ID d, row_WebhookID d, row_EventType d, EventID d, RequestBody d, row_CreatedAt d).
Definition delivery_ok (d : DeliveryRow) : Prop :=
  0 <= row_Attempts d /\ storable_status (row_ResponseStatus d) = true /\
  storable_text (row_ResponseBody d) = true.
Definition is_set (t : option time) : Prop := t <> None.

(** The deliveries a query hands to a worker, and how often one of them is that of an id. *)
Definition handed {X} (e : effect X) : X -> list Claimed :=
  match e in effect X return X -> list Claimed with
  | ClaimWebhookDeliveries _ _ _ _ => fun answer => match answer with Ok l => l | Err _ => [] end
  | _ => fun _ => []
  end.
Definition times (id : UUID) (l : list Claimed) : Z :=
  Z.of_nat (length (List.filter (fun c => row_ID (delivery c) =? id) l)).

(** How a delivery changes while it is handed out [n] times: never what is sent, and to whom;
    its attempts are those; being delivered and having failed are final, and it is not handed
    out any more. *)
Definition delivery_after (n : Z) (d d' : DeliveryRow) : Prop :=
  delivery_columns d' = delivery_columns d /\ row_Attempts d' = row_Attempts d + n /\
  (is_set (row_DeliveredAt d) -> is_set (row_DeliveredAt d')) /\
  (is_set (row_FailedAt d) -> is_set (row_FailedAt d')) /\
  (unsettled d = false -> n = 0).

Record invariant (s : db) : Prop := {
  inv_hooks : NoDup (map hook_id (webhooks s));
  inv_ids : NoDup (map row_ID (deliveries s));
  inv_once : NoDup (map (fun d => (row_WebhookID d, EventID d)) (deliveries s));
  inv_ok : Forall delivery_ok (deliveries s);
  inv_known : Forall (fun d => exists w, w ∈ webhooks s /\ hook_id w = row_WebhookID d) (deliveries s);
  inv_events : Forall (fun w => Events (row_webhook w) <> []) (webhooks s);
  inv_outbox : NoDup (map event.ID (outbox s))
}.

(** The rows there were evolve in place, new ones come after them, and what was handed out
    is a row. *)
Definition progress (l : list Claimed) (s s' : db) : Prop :=
  exists now more, deliveries s' = now ++ more /\
    Forall2 (fun d d' => delivery_after (times (row_ID d) l) d d') (deliveries s) now /\
    Forall (fun d => row_Attempts d = times (row_ID d) l) more /\
    Forall (fun c => exists d, d ∈ deliveries s' /\ delivery_columns (delivery c) = delivery_columns d) l.

Lemma unsettled_false d : unsettled d = false <-> is_set (row_DeliveredAt d) \/ is_set (row_FailedAt d).
Proof.
  unfold unsettled, is_set. rewrite andb_false_iff, !bool_decide_eq_false. done.
Qed.

Lemma delivery_after_refl d : delivery_after 0 d d.
Proof. unfold delivery_after. split_and!; auto; lia. Qed.
Lemma delivery_after_trans n m x y z :
  delivery_after n x y -> delivery_after m y z -> delivery_after (n + m) x z.
Proof.
  intros (C & A & D & F & U) (C' & A' & D' & F' & U'). unfold delivery_after.
  split_and!; [congruence | lia | auto | auto |]. intros Hx.
  rewrite U, U'; [done | | done]. apply unsettled_false. apply unsettled_false in Hx. tauto.
Qed.

Lemma times_app id l k : times id (l ++ k) = times id l + times id k.
Proof. unfold times. rewrite List.filter_app, length_app. lia. Qed.
Lemma times_none id l : (forall c, c ∈ l -> row_ID (delivery c) <> id) -> times id l = 0.
Proof.
  intros Hl. unfold times. rewrite filter_none; [done |]. intros c Hc. by apply Z.eqb_neq, Hl.
Qed.
Lemma column_id {d d'} : delivery_columns d = delivery_columns d' -> row_ID d = row_ID d'.
Proof. unfold delivery_columns. congruence. Qed.

Lemma after_self ds : Forall2 (fun d d' => delivery_after (times (row_ID d) []) d d') ds ds.
Proof. induction ds; constructor; [apply delivery_after_refl | done]. Qed.

Lemma progress_same s s' : deliveries s' = deliveries s -> progress [] s s'.
Proof.
  intros Hd. exists (deliveries s), []. rewrite app_nil_r. split_and!; [done | apply after_self | done..].
Qed.
Lemma progress_append s s' more : deliveries s' = deliveries s ++ more ->
  Forall (fun d => row_Attempts d = 0) more -> progress [] s s'.
Proof. intros Hd Hm. exists (deliveries s), more. split_and!; [done | apply after_self | done..]. Qed.
Lemma Forall2_exists_r {A B} (P : A -> B -> Prop) l k y :
  Forall2 P l k -> y ∈ k -> exists x, x ∈ l /\ P x y.
Proof. intros HF%Forall2_flip Hy. by apply (Forall2_exists_l _ _ _ _ HF Hy). Qed.
Lemma progress_trans l k s s' s'' : NoDup (map row_ID (deliveries s'')) ->
  progress l s s' -> progress k s' s'' -> progress (l ++ k) s s''.
Proof.
  intros Hnd (now & more & H1 & F1 & M1 & C1) (now' & more' & H2 & F2 & M2 & C2). rewrite H1 in F2.
  assert (Hcols : Forall2 (fun d d' => delivery_columns d' = delivery_columns d) (deliveries s') now').
  { rewrite H1. eapply Forall2_impl; [exact F2 |]. by intros d d' (Hcol & _). }
  apply Forall2_app_inv_l in F2 as (a & b & Fa & Fb & ->).
  exists a, (b ++ more'). rewrite H2, <- app_assoc. split_and!; [done | | |].
  - eapply Forall2_comp; [| exact F1 | exact Fa]. cbn. intros x y z Hx Hy.
    rewrite times_app. rewrite (column_id (proj1 Hx)) in Hy. by eapply delivery_after_trans.
  - apply Forall_app. split.
    + apply Forall_forall. intros z Hz. destruct (Forall2_exists_r _ _ _ _ Fb Hz) as (y & Hy & Ha).
      rewrite Forall_forall in M1. destruct Ha as (C & -> & _). rewrite (M1 y Hy), times_app.
      by rewrite (column_id C).
    + apply Forall_forall. intros z Hz. rewrite Forall_forall in M2. rewrite (M2 z Hz), times_app.
      rewrite (times_none (row_ID z) l); [lia |]. intros c Hc Hid. rewrite Forall_forall in C1.
      destruct (C1 c Hc) as (d & Hd & Hcd). destruct (Forall2_exists_l _ _ _ _ Hcols Hd) as (d' & Hd' & Hcd').
      rewrite H2, map_app in Hnd. apply NoDup_app in Hnd as (_ & Hdis & _).
      apply (Hdis (row_ID z)); [| by apply list_elem_of_fmap_2].
      rewrite <- Hid, (column_id Hcd), <- (column_id Hcd'). by apply list_elem_of_fmap_2.
  - apply Forall_app. split; [| by rewrite H2, <- app_assoc in C2].
    eapply Forall_impl; [exact C1 |]. intros c (d & Hd & Hcd).
    destruct (Forall2_exists_l _ _ _ _ Hcols Hd) as (d' & Hd' & Hcd'). exists d'. split; [set_solver | congruence].
Qed.

Lemma progress_update s hit update :
  (forall d, d ∈ deliveries s -> hit d = true -> delivery_after 0 d (update d)) ->
  progress [] s (with_deliveries (update_where hit update (deliveries s)) s).
Proof.
  intros Hu. exists (update_where hit update (deliveries s)), []. rewrite app_nil_r. split_and!; [done | | done..].
  apply update_where_Forall2; [auto | apply delivery_after_refl].
Qed.

(** Handing out the rows that are hit, each with its webhook. *)
Lemma progress_claim s hit claim (made : DeliveryRow -> WebhookRow -> Claimed) :
  NoDup (map row_ID (deliveries s)) ->
  (forall d, d ∈ deliveries s -> is_some (hook_of s d) = true) ->
  (forall d w, delivery (made d w) = claim d) ->
  (forall d, d ∈ deliveries s -> hit d = true -> delivery_after 1 d (claim d)) ->
  progress (omap (fun d => w ← hook_of s d; Some (made d w)) (List.filter hit (deliveries s))) s
    (with_deliveries (update_where hit claim (deliveries s)) s).
Proof.
  intros Hnd Hhook Hmade Hclaim. set (l := deliveries s) in *.
  set (out := omap _ _).
  assert (Hout : forall c, c ∈ out -> exists d, d ∈ l /\ hit d = true /\ delivery c = claim d).
  { intros c (d & [Hd Hh]%filter_elem & Hc)%list_elem_of_omap. exists d. split_and!; [done.. |].
    destruct (hook_of s d) as [w |]; [| done]. injection Hc as <-. apply Hmade. }
  assert (Htimes : forall d, d ∈ l -> times (row_ID d) out = if hit d then 1 else 0).
  { intros d Hd. unfold times, out.
    assert (Hrow : forall k, k ⊆ l ->
      length (List.filter (fun c => row_ID (delivery c) =? row_ID d)
        (omap (fun d => w ← hook_of s d; Some (made d w)) (List.filter hit k)))
      = length (List.filter hit (List.filter (fun e => row_ID e =? row_ID d) k))).
    { intros k. rewrite (filter_swap hit). induction k as [| e k IH]; intros Hk; [done |].
      assert (He : e ∈ l) by set_solver. cbn. destruct (hit e) eqn:Hh; [| apply IH; set_solver]. cbn.
      pose proof (Hhook e He) as Hw. destruct (hook_of s e) as [w |]; [| done]. cbn.
      rewrite Hmade. destruct (Hclaim e He Hh) as (Hcol & _). rewrite (column_id Hcol).
      destruct (row_ID e =? row_ID d); cbn; rewrite IH by set_solver; done. }
    rewrite (Hrow l) by done. rewrite (filter_unique row_ID) by done. cbn. by destruct (hit d). }
  exists (update_where hit claim l), []. rewrite app_nil_r. split_and!; [done | | done |].
  - unfold update_where. eapply Forall2_impl; [apply map_Forall2 |]. cbn. intros d d' [Hd ->].
    rewrite (Htimes d Hd). destruct (hit d) eqn:Hh; [by apply Hclaim | apply delivery_after_refl].
  - apply Forall_forall. intros c Hc. destruct (Hout c Hc) as (d & Hd & Hh & ->). exists (claim d).
    split; [| done]. cbn. apply update_where_elem. exists d. split; [done |]. by rewrite Hh.
Qed.

Lemma invariant_update s hit update : invariant s ->
  (forall d, delivery_columns (update d) = delivery_columns d) ->
  (forall d, hit d = true -> delivery_ok d -> delivery_ok (update d)) ->
  invariant (with_deliveries (update_where hit update (deliveries s)) s).
Proof.
  intros [Hh Hi Ho Hk Hn He Hb] Hc Hu.
  assert (Hcol : forall {B} (f : _ -> B) d, f (delivery_columns (update d)) = f (delivery_columns d))
    by (intros B f d; by rewrite Hc).
  split; cbn; try done.
  - rewrite update_where_map; [done |]. intros d. exact (Hcol _ (fun c => c.1.1.1.1.1) d).
  - rewrite update_where_map; [done |].
    intros d. exact (Hcol _ (fun c => (c.1.1.1.1.2, c.1.1.2)) d).
  - rewrite Forall_forall in *. intros d' (d & Hd & ->)%update_where_elem.
    destruct (hit d) eqn:Hhit; auto.
  - rewrite Forall_forall in *. intros d' (d & Hd & ->)%update_where_elem.
    destruct (Hn d Hd) as (w & Hw & Hid). exists w. split; [done |].
    destruct (hit d); [| done]. rewrite Hid. symmetry. exact (Hcol _ (fun c => c.1.1.1.1.2) d).
Qed.

Lemma invariant_append s more : invariant s ->
  NoDup (map row_ID (deliveries s ++ more)) ->
  NoDup (map (fun d => (row_WebhookID d, EventID d)) (deliveries s ++ more)) ->
  Forall (fun d => exists id w type e body t,
    d = new_delivery id (hook_id w) type e body t /\ w ∈ webhooks s) more ->
  invariant (with_deliveries (deliveries s ++ more) s).
Proof.
  intros [Hh Hi Ho Hk Hn He Hb] Hids Honce Hmore. split; cbn; try done.
  - apply Forall_app; split; [done |]. eapply Forall_impl; [exact Hmore |].
    intros d (id & w & type & e & body & t & -> & _). unfold delivery_ok. cbn. split_and!; [lia | done..].
  - apply Forall_app; split; [done |]. eapply Forall_impl; [exact Hmore |].
    intros d (id & w & type & e & body & t & -> & Hw). by exists w.
Qed.

(** A change of the webhooks that keeps their ids and leaves none without events. *)
Lemma invariant_hooks s rows : invariant s ->
  NoDup (map hook_id rows) -> map hook_id (webhooks s) ⊆ map hook_id rows ->
  Forall (fun w => Events (row_webhook w) <> []) rows -> invariant (with_webhooks rows s).
Proof.
  intros [Hh Hi Ho Hk Hn He Hb] Hnd Hsub Hne. split; cbn; try done.
  eapply Forall_impl; [exact Hn |]. intros d (w & Hw & Hid).
  assert (Hin : hook_id w ∈ map hook_id rows) by (by apply Hsub, list_elem_of_fmap_2).
  apply list_elem_of_fmap in Hin as (w' & Heq & Hw'). exists w'. split; [done | congruence].
Qed.

Lemma invariant_hooks_update s hit update : invariant s ->
  (forall w, hook_id (update w) = hook_id w) ->
  (forall w, Events (row_webhook w) <> [] -> Events (row_webhook (update w)) <> []) ->
  invariant (with_webhooks (update_where hit update (webhooks s)) s).
Proof.
  intros Hi Hid He. assert (Hm : map hook_id (update_where hit update (webhooks s)) = map hook_id (webhooks s))
    by (by apply update_where_map).
  apply invariant_hooks; [done | rewrite Hm; apply Hi | by rewrite Hm |].
  pose proof (inv_events s Hi) as Hev. rewrite Forall_forall in *.
  intros w' (w & Hw & ->)%update_where_elem. destruct (hit w); auto.
Qed.

Lemma invariant_outbox s hit update : invariant s ->
  (forall e, event.ID (update e) = event.ID e) ->
  invariant (with_outbox (update_where hit update (outbox s)) s).
Proof.
  intros [Hh Hi Ho Hk Hn He Hb] Hid. split; cbn; try done. by rewrite update_where_map.
Qed.

Lemma record_result_kept id status body update s : invariant s ->
  (forall d, delivery_columns (update d) = delivery_columns d /\ row_Attempts (update d) = row_Attempts d /\
     (is_set (row_DeliveredAt d) -> is_set (row_DeliveredAt (update d))) /\
     (is_set (row_FailedAt d) -> is_set (row_FailedAt (update d))) /\
     row_ResponseStatus (update d) = status /\ row_ResponseBody (update d) = body) ->
  invariant (snd (record_result id status body update s)) /\
  progress [] s (snd (record_result id status body update s)).
Proof.
  intros Hi Hu. unfold record_result.
  destruct (storable_text body) eqn:Ht; cbn [negb]; [| by split; [| apply progress_same]].
  destruct (existsb _ _ && negb _) eqn:Hs; [by split; [| apply progress_same] |]. cbn [snd]. split.
  - assert (Hst : forall d, d ∈ deliveries s -> row_ID d =? id = true -> storable_status status = true).
    { intros d Hd Hid. apply andb_false_iff in Hs as [Hs | Hs%negb_false_iff]; [| done].
      apply existsb_false in Hs. rewrite Forall_forall in Hs. by rewrite (Hs d Hd) in Hid. }
    assert (Hall : forall d, d ∈ deliveries s -> (row_ID d =? id) = true -> storable_status status = true)
      by done.
    destruct (decide (storable_status status = true)) as [Hss | Hss].
    + apply invariant_update; [done | apply Hu |]. intros d _ (Ha & _ & _).
      destruct (Hu d) as (_ & HA & _ & _ & HS & HB). unfold delivery_ok. by rewrite HA, HS, HB.
    + replace (update_where _ _ _) with (deliveries s); [by destruct s |].
      unfold update_where. rewrite <- (map_id (deliveries s)) at 1. apply map_ext_in.
      intros d Hd%list_elem_of_In. destruct (row_ID d =? id) eqn:Hid; [| done].
      destruct Hss. by eapply Hst.
  - apply progress_update. intros d _ _. destruct (Hu d) as (C & A & D & F & _). split_and!; auto; lia.
Qed.

(** The rows a claim chooses are ready ones. *)
Lemma choose_ready {R} (key : R -> time * time * UUID) ready limit rows row :
  NoDup (map (fun r => snd (key r)) rows) -> row ∈ rows ->
  snd (key row) ∈ choose key ready limit rows -> ready row = true.
Proof.
  intros Hnd Hrow Hin. unfold choose in Hin. apply list_elem_of_fmap in Hin as (r & Heq & Hr).
  apply elem_of_take in Hr as (i & Hr%list_elem_of_lookup_2 & _).
  rewrite merge_sort_Permutation in Hr. apply list_elem_of_In, filter_In in Hr as [Hr%list_elem_of_In Hready].
  by rewrite (NoDup_map_inj (fun r => snd (key r)) rows row r).
Qed.

Lemma event_rows_fresh eventID eventType body createdAt repositoryID s : invariant s ->
  NoDup (map (fun d => (row_WebhookID d, EventID d))
    (deliveries s ++ event_deliveries eventID eventType body createdAt repositoryID s)) /\
  Forall (fun d => exists id w type e body t,
    d = new_delivery id (hook_id w) type e body t /\ w ∈ webhooks s)
    (event_deliveries eventID eventType body createdAt repositoryID s).
Proof.
  intros [Hh Hi Ho Hk Hn He Hb]. unfold event_deliveries.
  set (hit w := subscribed repositoryID eventType w
                && negb (existsb (same_delivery (hook_id w) eventID) (deliveries s))).
  split.
  - rewrite map_app, map_map. cbn [row_WebhookID EventID new_delivery]. apply NoDup_app. split_and!; [done | |].
    + intros p Hp Hq. apply list_elem_of_fmap in Hq as (w & -> & Hw).
      apply list_elem_of_In, filter_In in Hw as [_ [_ Hno]%andb_true_iff].
      apply negb_true_iff, existsb_false in Hno. rewrite Forall_forall in Hno.
      apply list_elem_of_fmap in Hp as (d & [= H1 H2] & Hd). specialize (Hno d Hd).
      unfold same_delivery in Hno. by rewrite H1, H2, !Z.eqb_refl in Hno.
    + rewrite <- (map_map hook_id (fun i => (i, eventID))). apply NoDup_fmap_2; [by intros x y [=] |].
      by apply NoDup_map_filter.
  - apply Forall_map, Forall_forall. intros w Hw%list_elem_of_In.
    apply filter_In in Hw as [Hw%list_elem_of_In _]. by repeat eexists.
Qed.

Lemma handle_kept X (e : effect X) s : invariant s ->
  invariant (snd (handle X e s)) /\ progress (handed e (fst (handle X e s))) s (snd (handle X e s)).
Proof.
  intros Hi. assert (Hsame : invariant s /\ progress [] s s) by (split; [done | by apply progress_same]).
  destruct e; cbn [handle handed fst snd]; try exact Hsame.
  - (* create *)
    destruct (existsb _ _) eqn:Hx; [exact Hsame |]. 
    destruct (length _ =? 0)%nat eqn:Hne; [exact Hsame |].
    split; [| by apply progress_same]. cbn [snd]. apply invariant_hooks; [done | | |].
    + rewrite map_app. cbn. apply NoDup_app. split_and!; [apply Hi | | apply NoDup_singleton].
      intros i Hin Heq%list_elem_of_singleton. subst i. apply list_elem_of_fmap in Hin as (w & Heq & Hw).
      apply existsb_false in Hx. rewrite Forall_forall in Hx. specialize (Hx w Hw).
      by rewrite Heq, Z.eqb_refl in Hx.
    + rewrite map_app. set_solver.
    + apply Forall_app. split; [apply Hi |]. apply Forall_singleton.
      intros He. by rewrite He in Hne.
  - (* update *)
    destruct (find_row _ _ _) as [row |]; [| exact Hsame].
    destruct (length _ =? 0)%nat eqn:Hne; [exact Hsame |]. cbn [snd].
    split; [| by apply progress_same]. apply invariant_hooks_update; [done.. |].
    intros w _. cbn. by destruct events.
  - (* delete *)
    split; [| by apply progress_same]. by apply invariant_hooks_update.
  - (* redeliver *)
    destruct (find_row _ _ _) as [original |] eqn:Hf; [| exact Hsame].
    destruct (existsb _ (deliveries s)) eqn:Hx; [exact Hsame |]. cbn [snd].
    apply find_row_Ok in Hf as [Ho _]. apply existsb_false in Hx. rewrite Forall_forall in Hx.
    assert (Hk : exists w, w ∈ webhooks s /\ hook_id w = row_WebhookID original).
    { pose proof (inv_known s Hi) as Hk. rewrite Forall_forall in Hk. by apply Hk. }
    destruct Hk as (w & Hw & Hid). split; [| eapply progress_append; [done | by apply Forall_singleton]].
    apply invariant_append; [done | | |].
    + rewrite map_app. cbn. apply NoDup_app. split_and!; [apply Hi | | apply NoDup_singleton].
      intros i Hin ->%list_elem_of_singleton. apply list_elem_of_fmap in Hin as (d & -> & Hd).
      specialize (Hx d Hd). by rewrite Z.eqb_refl in Hx.
    + rewrite map_app. cbn. apply NoDup_app. split_and!; [apply Hi | | apply NoDup_singleton].
      intros i Hin ->%list_elem_of_singleton. apply list_elem_of_fmap in Hin as (d & [= H1 H2] & Hd).
      specialize (Hx d Hd). unfold same_delivery in Hx. apply orb_false_iff in Hx as [_ Hx].
      by rewrite H1, H2, !Z.eqb_refl in Hx.
    + apply Forall_singleton. rewrite <- Hid. by repeat eexists.
  - (* claim events *)
    split; [by apply invariant_outbox | by apply progress_same].
  - (* enqueue *)
    destruct (event_rows_fresh eventID eventType requestBody createdAt repositoryID s Hi) as [Hn Hf].
    case_bool_decide as Hd; [| exact Hsame]. cbn [snd].
    split; [by apply invariant_append | eapply progress_append; [done |]].
    apply Forall_forall. intros d (w & -> & _)%list_elem_of_fmap. done.
  - split; [by apply invariant_outbox | by apply progress_same].
  - split; [by apply invariant_outbox | by apply progress_same].
  - (* claim deliveries *)
    split.
    + apply invariant_update; [done.. |]. intros d _ (A & S & B). split_and!; cbn; [lia | done..].
    + apply progress_claim; [apply Hi | | done |].
      * intros d Hd. pose proof (inv_known s Hi) as Hk. rewrite Forall_forall in Hk.
        destruct (Hk d Hd) as (w & Hw & Hid). unfold hook_of. destruct (List.find _ _) eqn:Hf; [done |].
        apply (find_none _ _) with (x := w) in Hf; [| by apply list_elem_of_In].
        by rewrite Hid, Z.eqb_refl in Hf.
      * intros d Hd Hhit%bool_decide_eq_true.
        apply (choose_ready delivery_key) in Hhit; [| apply Hi | done].
        unfold delivery_ready in Hhit. rewrite !andb_true_iff in Hhit. destruct Hhit as [[[Hu _] _] _].
        unfold delivery_after. cbn. split_and!; [done | done | done | done | by rewrite Hu].
  - apply record_result_kept; [done |]. intros d. cbn. by split_and!.
  - apply record_result_kept; [done |]. intros d. cbn. by split_and!.
  - apply record_result_kept; [done |]. intros d. cbn. by split_and!.
  - destruct Hi. by split; [split | apply progress_same].
  - destruct Hi. by split; [split | apply progress_same].
  - destruct Hi. by split; [split | apply progress_same].
Qed.

(** One query of any worker or request, with what it hands out, or a change of what they do
    not control: the clock, a receiver, a new event. *)
Inductive step (s : db) : list Claimed -> db -> Prop :=
| step_query X (e : effect X) : step s (handed e (fst (handle X e s))) (snd (handle X e s))
| step_event row : event.ID row ∉ map event.ID (outbox s) -> step s [] (with_outbox (outbox s ++ [row]) s)
| step_world random' clock' receiver' :
    step s [] (mkDb (webhooks s) (deliveries s) (outbox s) (fresh s) random' clock' receiver' (sent s)).
Inductive history (s : db) : list Claimed -> db -> Prop :=
| history_nil : history s [] s
| history_step l k s' s'' : history s l s' -> step s' k s'' -> history s (l ++ k) s''.

Lemma step_kept s l s' : step s l s' -> invariant s -> invariant s' /\ progress l s s'.
Proof.
  intros [X e | row Hrow | random' clock' receiver'] Hi.
  - by apply handle_kept.
  - split; [| by apply progress_same]. destruct Hi. split; cbn; try done. rewrite map_app. cbn.
    apply NoDup_app. split_and!; [done | set_solver | apply NoDup_singleton].
  - split; [| by apply progress_same]. by destruct Hi.
Qed.

Lemma history_kept s l s' : history s l s' -> invariant s -> invariant s' /\ progress l s s'.
Proof.
  intros Hs Hi. induction Hs as [| l k s' s'' _ [Hi1 Hp1] H2]; [split; [done | by apply progress_same] |].
  destruct (step_kept _ _ _ H2 Hi1) as [Hi2 Hp2]. split; [done |].
  eapply progress_trans; [apply Hi2 | done | done].
Qed.

(** C33: whatever queries any number of workers and requests interleave, a webhook has
    one delivery of an event at most.  Let [handed_out] be what the workers were given in the
    meantime, in order.  Each was a row of the table, with the event, the body and the webhook
    that row still has; a delivery's attempts have grown by exactly the times it was handed
    out, and those of a new one are these times; and one that had been delivered or had failed
    remains so and was never handed out. *)
Theorem delivery_history (s s' : db) (handed_out : list Claimed) (Hi : invariant s) (Hs : history s handed_out s') :
  invariant s' /\
  (forall c, c ∈ handed_out -> exists d, d ∈ deliveries s' /\ delivery_columns (delivery c) = delivery_columns d) /\
  (forall d, d ∈ deliveries s -> exists d', d' ∈ deliveries s' /\
     delivery_columns d' = delivery_columns d /\
     row_Attempts d' = row_Attempts d + times (row_ID d) handed_out /\
     (is_set (row_DeliveredAt d) -> is_set (row_DeliveredAt d')) /\
     (is_set (row_FailedAt d) -> is_set (row_FailedAt d')) /\
     (unsettled d = false -> forall c, c ∈ handed_out -> row_ID (delivery c) <> row_ID d)) /\
  (forall d', d' ∈ deliveries s' -> (forall d, d ∈ deliveries s -> row_ID d <> row_ID d') ->
     row_Attempts d' = times (row_ID d') handed_out).
Proof.
  destruct (history_kept _ _ _ Hs Hi) as [Hi' (now & more & Hd & HF & HM & HC)].
  rewrite Forall_forall in HM. split_and!; [done | by apply Forall_forall | |].
  - intros d Hin. destruct (Forall2_exists_l _ _ _ _ HF Hin) as (d' & Hd' & Ha). exists d'.
    destruct Ha as (C & A & D & F & U). split_and!; [rewrite Hd; set_solver | done.. |].
    intros Hu c Hc Hid. specialize (U Hu). unfold times in U.
    assert (Hx : c ∈ List.filter (fun c => row_ID (delivery c) =? row_ID d) handed_out).
    { apply filter_elem. split; [done |]. by apply Z.eqb_eq. }
    destruct (List.filter _ handed_out); [by apply not_elem_of_nil in Hx | cbn in U; lia].
  - intros d' Hin Hnew. rewrite Hd in Hin. apply elem_of_app in Hin as [Hin | Hin]; [| by apply HM].
    destruct (Forall2_exists_r _ _ _ _ HF Hin) as (d & Hd0 & (C & _)).
    exfalso. by apply (Hnew d Hd0), column_id.
Qed.
End Invariant.

(** ** Dispatching the outbox *)

Section Dispatch.
Context `{Postgres} `{UUIDs, UUIDReader, AEAD} `{GoNet}.
#[local] Arguments exec : simpl never.

Definition event_columns (e : event.OutboxEvent) :=
  (event.ID e, event.EventType e, event.AggregateType e, event.AggregateID e, event.Payload e,
   event.CreatedAt e).

(** What the queries keep, programs keep. *)
Lemma exec_kept {A} (p : prog effect A) : forall s, invariant s -> invariant (snd (exec handle p s)).
Proof.
  induction p as [a | X e k IH]; intros s Hi; [by rewrite exec_ret |].
  rewrite exec_vis. destruct (handle_kept X e s Hi) as [Hi1 _].
  destruct (handle X e s) as [x s1]. by apply IH.
Qed.

(** The webhook is one of the event's repository and wants its kind. *)
Definition wants (w : WebhookRow) (e : event.OutboxEvent) : Prop :=
  webhookEventType (event.EventType e) <> EmptyString /\ event.AggregateType e = "repository" /\
  uuid_Parse (event.AggregateID e) = Some (RepositoryID (row_webhook w)) /\
  Enabled (row_webhook w) = true /\ DeletedAt w = None /\
  webhookEventType (event.EventType e) ∈ Events (row_webhook w).

Lemma wants_subscribed w e : wants w e <->
  webhookEventType (event.EventType e) <> EmptyString /\ event.AggregateType e = "repository" /\
  exists repositoryID, uuid_Parse (event.AggregateID e) = Some repositoryID /\
    subscribed repositoryID (webhookEventType (event.EventType e)) w = true.
Proof.
  unfold wants, subscribed, of_repository, active, not_deleted.
  setoid_rewrite andb_true_iff. setoid_rewrite andb_true_iff. setoid_rewrite andb_true_iff.
  setoid_rewrite Z.eqb_eq. setoid_rewrite bool_decide_eq_true.
  assert (He : existsb (String.eqb (webhookEventType (event.EventType e))) (Events (row_webhook w)) = true
    <-> webhookEventType (event.EventType e) ∈ Events (row_webhook w)).
  { rewrite existsb_exists, list_elem_of_In. split; [by intros (x & Hx & ->%String.eqb_eq) |].
    intros Hin. eexists. split; [exact Hin | apply String.eqb_refl]. }
  setoid_rewrite He. naive_solver.
Qed.
Definition delivery_of (w : WebhookRow) (e : event.OutboxEvent) (d : DeliveryRow) : Prop :=
  row_WebhookID d = hook_id w /\ EventID d = event.ID e.
Definition enqueued (s : db) (e : event.OutboxEvent) : Prop :=
  forall w, w ∈ webhooks s -> wants w e -> exists d, d ∈ deliveries s /\ delivery_of w e d.
(** A new delivery: of a wanted event, with its body, not yet attempted. *)
Definition delivers (s : db) (e : event.OutboxEvent) (d : DeliveryRow) : Prop :=
  exists w body, w ∈ webhooks s /\ wants w e /\
    deliveryBody e (webhookEventType (event.EventType e)) = Some body /\
    d = new_delivery (md5_uuid (hook_id w) (event.ID e)) (hook_id w)
          (webhookEventType (event.EventType e)) (event.ID e) (jsonb body) (event.CreatedAt e).

(** What dispatching the events [es] does. *)
Record dispatched (es : list event.OutboxEvent) (s s' : db) : Prop := {
  dispatched_hooks : webhooks s' = webhooks s;
  dispatched_rows : exists more, deliveries s' = deliveries s ++ more /\
    Forall (fun d => exists e, e ∈ es /\ delivers s e d) more;
  dispatched_events : Forall2 (fun e e' => event_columns e' = event_columns e /\
    (is_set (event.CompletedAt e') -> is_set (event.CompletedAt e) \/
       exists c, c ∈ es /\ event.ID c = event.ID e /\ enqueued s' c)) (outbox s) (outbox s')
}.

Lemma dispatched_none es s s' :
  webhooks s' = webhooks s -> deliveries s' = deliveries s ->
  Forall2 (fun e e' => event_columns e' = event_columns e /\
    (is_set (event.CompletedAt e') -> is_set (event.CompletedAt e))) (outbox s) (outbox s') ->
  dispatched es s s'.
Proof.
  intros Hw Hd HF. split; [done | exists []; rewrite app_nil_r; split; [done | constructor] |].
  eapply Forall2_impl; [exact HF |]. intros x y [Hc Hset]. split; [done |]. intros Hy. left. by apply Hset.
Qed.

Lemma enqueued_grows s s' e :
  webhooks s' = webhooks s -> (exists more, deliveries s' = deliveries s ++ more) ->
  enqueued s e -> enqueued s' e.
Proof.
  intros Hw [more Hd] He w Hin Hwants. rewrite Hw in Hin. destruct (He w Hin Hwants) as (d & Hd' & Hof).
  exists d. rewrite Hd. set_solver.
Qed.

Lemma dispatched_cons e es s s1 s' :
  dispatched [e] s s1 -> dispatched es s1 s' -> dispatched (e :: es) s s'.
Proof.
  intros [W1 (m1 & D1 & F1) E1] [W2 (m2 & D2 & F2) E2]. split; [congruence | |].
  - exists (m1 ++ m2). split; [by rewrite D2, D1, app_assoc |]. apply Forall_app. split.
    + eapply Forall_impl; [exact F1 |]. intros d (c & Hc & Hd). exists c. set_solver.
    + eapply Forall_impl; [exact F2 |]. intros d (c & Hc & w & body & Hw & Hd). exists c.
      split; [set_solver |]. exists w, body. by rewrite W1 in Hw.
  - eapply Forall2_comp; [| exact E1 | exact E2]. cbn. intros x y z [C1 S1] [C2 S2]. split; [congruence |].
    intros Hz. destruct (S2 Hz) as [Hy | (c & Hc & Hid & He)].
    + destruct (S1 Hy) as [Hx | (c & Hc & Hid & He)]; [by left | right]. exists c.
      split_and!; [set_solver | done |]. eapply enqueued_grows; eauto.
    + right. exists c. split_and!; [set_solver | | done].
      pose proof (f_equal (fun t => t.1.1.1.1.1) C1) as Hxy. cbn in Hxy. congruence.
Qed.

Lemma retryOutbox_dispatched id code now es s :
  exists r s', exec handle (retryOutbox id code now) s = (r, s') /\ dispatched es s s'.
Proof.
  unfold retryOutbox, wrapErr. eexists _, _. split; [reflexivity |]. apply dispatched_none; [done.. |].
  apply update_where_Forall2; [by cbn | done].
Qed.

(** Completing an event all of whose webhooks have it. *)
Lemma complete_dispatched e now s s1 : 
  webhooks s1 = webhooks s -> outbox s1 = outbox s -> enqueued s1 e ->
  (exists more, deliveries s1 = deliveries s ++ more /\ Forall (delivers s e) more) ->
  dispatched [e] s (snd (handle _ (CompleteOutboxEvent (event.ID e) now) s1)).
Proof.
  intros Hw Ho He (more & Hd & Hm). split; [done | |].
  - exists more. split; [done |]. eapply Forall_impl; [exact Hm |]. intros d Hdel. exists e. set_solver.
  - cbn. rewrite Ho. apply update_where_Forall2; [| intros x; split; [done | by left]]. intros x Hx Hid%Z.eqb_eq. split; [done |].
    intros _. right. exists e. split_and!; [set_solver | done | exact He].
Qed.

Lemma enqueue_enqueued e repositoryID body s s1 : 
  uuid_Parse (event.AggregateID e) = Some repositoryID ->
  webhookEventType (event.EventType e) <> EmptyString -> event.AggregateType e = "repository" ->
  deliveryBody e (webhookEventType (event.EventType e)) = Some body ->
  handle _ (CreateWebhookDeliveriesForEvent (event.ID e) (webhookEventType (event.EventType e)) body
              (event.CreatedAt e) repositoryID) s = (Ok tt, s1) ->
  webhooks s1 = webhooks s /\ outbox s1 = outbox s /\ enqueued s1 e /\
  exists more, deliveries s1 = deliveries s ++ more /\ Forall (delivers s e) more.
Proof.
  intros Hp Ht Ha Hb. cbn. case_bool_decide; [| done]. intros [= <-]. split_and!; [done.. | |].
  - intros w Hw (_ & _ & repo & Hp' & Hsub)%wants_subscribed. cbn in *. rewrite Hp in Hp'. injection Hp' as <-.
    destruct (existsb (same_delivery (hook_id w) (event.ID e)) (deliveries s)) eqn:Hx.
    + apply existsb_exists in Hx as (d & Hd%list_elem_of_In & Hs). exists d. split; [set_solver |].
      unfold same_delivery in Hs. by rewrite andb_true_iff, !Z.eqb_eq in Hs.
    + eexists. split; [apply elem_of_app; right; apply list_elem_of_fmap_2, list_elem_of_In, filter_In |].
      * split; [by apply list_elem_of_In |]. by rewrite Hsub, Hx.
      * done.
  - eexists. split; [done |]. apply Forall_map, Forall_forall. intros w Hw%list_elem_of_In.
    apply filter_In in Hw as [Hw%list_elem_of_In [Hsub _]%andb_true_iff].
    exists w, body. split_and!; [done | | done | done]. apply wants_subscribed. split_and!; [done.. |].
    by exists repositoryID.
Qed.

Lemma dispatchEach_dispatched now es : forall s,
  exists r s', exec handle (dispatchEach es now) s = (r, s') /\ dispatched es s s'.
Proof.
  induction es as [| e es IH]; intros s.
  { eexists _, _. split; [reflexivity |]. apply dispatched_none; [done.. |].
    induction (outbox s); by constructor. }
  assert (Hcomplete : forall s1, webhooks s1 = webhooks s -> outbox s1 = outbox s -> enqueued s1 e ->
    (exists more, deliveries s1 = deliveries s ++ more /\ Forall (delivers s e) more) ->
    exists r s', exec handle (let? _ := wrapErr (wrapf "complete webhook outbox event: %w")
                    (call (CompleteOutboxEvent (event.ID e) now)) in dispatchEach es now) s1 = (r, s')
      /\ dispatched (e :: es) s s').
  { intros s1 Hw Ho He Hd. unfold svc_bind, wrapErr, call. cbn [prog_bind]. rewrite exec_vis. cbn [handle].
    cbn [prog_bind mapErr]. destruct (IH (snd (handle _ (CompleteOutboxEvent (event.ID e) now) s1)))
      as (r & s' & Hex & Hdis). exists r, s'. split; [exact Hex |].
    eapply dispatched_cons; [by apply complete_dispatched | done]. }
  assert (Hnothing : (forall w, ~ wants w e) ->
    exists r s', exec handle (let? _ := wrapErr (wrapf "complete webhook outbox event: %w")
                    (call (CompleteOutboxEvent (event.ID e) now)) in dispatchEach es now) s = (r, s')
      /\ dispatched (e :: es) s s').
  { intros Hn. apply Hcomplete; [done.. | intros w _ Hw; by destruct (Hn w) |].
    exists []. rewrite app_nil_r. split; [done | constructor]. }
  cbn [dispatchEach]. destruct (String.eqb_spec (webhookEventType (event.EventType e)) EmptyString) as [Ht | Ht];
    cbn [negb andb]; [apply Hnothing; by intros w (? & _) |].
  destruct (String.eqb_spec (event.AggregateType e) "repository") as [Ha | Ha];
    cbn [negb andb]; [| apply Hnothing; by intros w (_ & ? & _)].
  destruct (uuid_Parse (event.AggregateID e)) as [repositoryID |] eqn:Hp; [| apply retryOutbox_dispatched].
  destruct (deliveryBody e _) as [body |] eqn:Hb; [| apply retryOutbox_dispatched].
  unfold call. cbn [prog_bind]. rewrite exec_vis.
  destruct (handle _ _ s) as [x s1] eqn:Hh. destruct x as [[] | err].
  - destruct (enqueue_enqueued e repositoryID body s s1 Hp Ht Ha Hb Hh) as (Hw & Ho & He & Hd).
    by apply Hcomplete.
  - assert (s1 = s) as ->. { revert Hh. cbn. by case_bool_decide; intros [=]. }
    apply retryOutbox_dispatched.
Qed.

(** C32: no event is lost and none is delivered twice. After the outbox has been
    dispatched, whatever became of the run, every event it completed has, for every
    active webhook of its repository that wants its kind, one delivery, and one
    only; and every new delivery is of such an event and such a webhook, with the
    event's body. *)
Theorem dispatch_delivers (worker : Worker) (s : db) (Hi : invariant s) :
  let s' := snd (exec handle (dispatchOutbox worker) s) in
  webhooks s' = webhooks s /\
  (forall e, e ∈ outbox s' -> is_set (event.CompletedAt e) ->
     (exists e0, e0 ∈ outbox s /\ event.ID e0 = event.ID e /\ event.CompletedAt e0 = None) ->
     forall w, w ∈ webhooks s -> wants w e ->
     exists d, d ∈ deliveries s' /\ delivery_of w e d /\
       forall d', d' ∈ deliveries s' -> delivery_of w e d' -> d' = d) /\
  (forall d, d ∈ deliveries s' -> d ∈ deliveries s \/
     exists e, event_columns e ∈ map event_columns (outbox s) /\ delivers s e d).
Proof.
  unfold dispatchOutbox, svc_bind, wrapErr, call. cbn [prog_bind]. rewrite exec_vis. cbn [handle].
  cbn [prog_bind]. rewrite exec_vis. cbn [handle prog_bind mapErr].
  set (ids := choose _ _ _ _). set (hit e := among ids (event.ID e)).
  set (claim := claim_event (UTC (clock s)) (worker_id worker)). set (es := map claim _).
  set (s1 := with_outbox (update_where hit claim (outbox s)) s).
  destruct (dispatchEach_dispatched (UTC (clock s)) es s1) as (r & s' & Hex & [Hw (more & Hd & Hm) He]).
  rewrite Hex. cbn [snd].
  assert (Hi1 : invariant s1) by (by apply invariant_outbox).
  assert (Hi' : invariant s').
  { pose proof (exec_kept (dispatchEach es (UTC (clock s))) s1 Hi1) as Hk. by rewrite Hex in Hk. }
  assert (Hes : forall c, c ∈ es -> event_columns c ∈ map event_columns (outbox s)).
  { intros c Hc. apply list_elem_of_fmap in Hc as (e & -> & Hin). apply list_elem_of_fmap. exists e.
    split; [done |]. by apply list_elem_of_In, filter_In, proj1, list_elem_of_In in Hin. }
  split_and!; [done | |].
  - intros e' Hin Hset (e0 & He0 & Hid & Hnone) w Hww Hwants.
    assert (Hback : exists x, x ∈ outbox s1 /\ event_columns e' = event_columns x /\
      (is_set (event.CompletedAt x) \/ exists c, c ∈ es /\ event.ID c = event.ID x /\ enqueued s' c)).
    { apply Forall2_flip in He. destruct (Forall2_exists_l _ _ _ _ He Hin) as (x & Hx & Hcol & Hc).
      by exists x; auto. }
    destruct Hback as (x & Hx & Hcol & Hcase).
    apply update_where_elem in Hx as (x0 & Hx0 & Hx).
    assert (Hx0col : event_columns x = event_columns x0 /\ event.CompletedAt x = event.CompletedAt x0)
      by (subst x; by destruct (hit x0)).
    assert (x0 = e0) as ->.
    { eapply (NoDup_map_inj event.ID); [apply Hi | done.. |]. rewrite Hid.
      destruct Hx0col as [Hc _]. rewrite <- Hcol in Hc.
      pose proof (f_equal (fun t => t.1.1.1.1.1) Hc) as Hxy. by symmetry. }
    destruct Hcase as [Hset0 | (c & Hc & Hcid & Henq)].
    { destruct Hx0col as [_ Hx0c]. by rewrite Hx0c in Hset0. }
    assert (Hcc : event_columns c = event_columns e').
    { apply list_elem_of_fmap in Hc as (y & -> & Hy). apply list_elem_of_In, filter_In, proj1, list_elem_of_In in Hy.
      assert (y = e0) as ->.
      { eapply (NoDup_map_inj event.ID); [apply Hi | done.. |]. cbn in Hcid.
        destruct Hx0col as [Hx0c _]. pose proof (f_equal (fun t => t.1.1.1.1.1) Hx0c) as Hxy. cbn in Hxy.
        congruence. }
      rewrite Hcol. destruct Hx0col as [Hx0c _]. by rewrite Hx0c. }
    destruct (Henq w) as (d & Hdin & Hof).
    + by rewrite Hw.
    + unfold event_columns in Hcc. unfold wants in *. simplify_eq. by repeat match goal with H : _ c = _ e' |- _ => rewrite H end.
    + assert (Hid' : event.ID c = event.ID e') by (unfold event_columns in Hcc; congruence).
      exists d. unfold delivery_of in *. rewrite <- Hid'. split_and!; [done | tauto.. |].
      intros d' Hd' [Hw' He'].
      eapply (NoDup_map_inj (fun d => (row_WebhookID d, EventID d))); [apply Hi' | done.. |].
      destruct Hof as [-> ->]. by rewrite Hw', He'.
  - intros d Hin. rewrite Hd in Hin. apply elem_of_app in Hin as [Hin | Hin]; [by left | right].
    rewrite Forall_forall in Hm. destruct (Hm d Hin) as (c & Hc & Hdel). exists c. split; [by apply Hes | done].
Qed.
End Dispatch.

(** ** Delivering *)

Section Deliver.
Context `{Postgres} `{UUIDs, UUIDReader, AEAD} `{GoNet}.
#[local] Arguments exec : simpl never.

(** What the table can hold of an outcome. *)
Definition status_value (status : Z) : option Z := if status =? 0 then None else Some status.
Definition body_value (body : string) : option string := if body != EmptyString then Some body else None.
Definition storable_outcome (out : Z * string * string) : bool :=
  let '(status, body, _) := out in
  storable_status (status_value status) && storable_text (body_value body).
(** Every answer of the receivers can be stored. *)
Definition storable (s : db) : Prop :=
  forall h request, storable_outcome (outcome (receiver s h request)) = true.

(** The row after an attempt with this outcome. *)
Definition attempted (now attempts : Z) (out : Z * string * string) (d : DeliveryRow) : DeliveryRow :=
  let '(status, body, code) := out in
  let status := status_value status in
  let body := body_value body in
  if code == EmptyString then complete_delivery status body (UTC now) d
  else if maxAttempts <=? attempts then fail_delivery status body (UTC now) code d
  else retry_delivery status body (UTC (now + retryDelay attempts)) code d.

(** Two states that differ in the deliveries and the requests sent only. *)
Definition same_world (s s' : db) : Prop :=
  webhooks s' = webhooks s /\ outbox s' = outbox s /\ clock s' = clock s /\ receiver s' = receiver s.

Lemma record_attempted c out s : storable_outcome out = true ->
  exec handle (record_ c out) s =
  (Ok tt, with_deliveries (update_where (fun d => row_ID d =? row_ID (delivery c))
            (attempted (clock s) (row_Attempts (delivery c)) out) (deliveries s)) s).
Proof.
  destruct out as [[status body] code]. unfold storable_outcome. intros [Hs Hb]%andb_true_iff.
  unfold record_, attempted. fold (status_value status) (body_value body).
  unfold call. cbn [prog_bind]. rewrite exec_vis. cbn [handle].
  destruct (code == EmptyString); [| destruct (maxAttempts <=? _)]; rewrite exec_vis; cbn [handle];
    unfold record_result; rewrite Hb, Hs; cbn [negb]; by rewrite andb_false_r.
Qed.

Lemma send_outcome worker c s : storable s ->
  exists out s1, exec handle (send worker c) s = (out, s1) /\ storable_outcome out = true /\
    same_world s s1 /\ deliveries s1 = deliveries s.
Proof.
  intros Hst. unfold send. destruct (decrypt _ _); [| by eexists _, _].
  destruct (NewRequest_accepts _); cbn [negb]; [| by eexists _, _].
  unfold call. cbn [prog_bind]. rewrite exec_vis. cbn [handle]. rewrite exec_ret.
  eexists _, _. split_and!; [done | apply Hst | done..].
Qed.

(** The deliveries [ds] have been attempted, the others have not changed. *)
Definition attempted_all (now : time) (ds : list Claimed) (d d' : DeliveryRow) : Prop :=
  (forall c, c ∈ ds -> row_ID (delivery c) = row_ID d ->
     exists out, d' = attempted now (row_Attempts (delivery c)) out d) /\
  ((forall c, c ∈ ds -> row_ID (delivery c) <> row_ID d) -> d' = d).

Lemma attempted_columns now n out d : delivery_columns (attempted now n out d) = delivery_columns d /\
  row_Attempts (attempted now n out d) = row_Attempts d.
Proof. destruct out as [[status body] code]. cbn. by repeat case_match. Qed.

Lemma deliverEach_attempted worker ds : forall s, storable s -> NoDup (map (fun c => row_ID (delivery c)) ds) ->
  exists s', exec handle (deliverEach worker ds) s = (Ok tt, s') /\ same_world s s' /\
    Forall2 (attempted_all (clock s) ds) (deliveries s) (deliveries s').
Proof.
  induction ds as [| c ds IH]; intros s Hst Hnd.
  { exists s. split_and!; [done.. |]. induction (deliveries s); constructor; [| done].
    split; [by intros c ?%elem_of_nil | done]. }
  cbn [map] in Hnd. apply NoDup_cons in Hnd as [Hc Hnd]. cbn [deliverEach]. rewrite exec_bind.
  destruct (send_outcome worker c s Hst) as (out & s1 & Hex & Hout & (W1 & O1 & C1 & R1) & D1). rewrite Hex.
  unfold svc_bind, wrapErr. rewrite exec_bind, exec_bind, record_attempted by done. rewrite exec_ret.
  cbn [mapErr]. set (s2 := with_deliveries _ s1).
  destruct (IH s2) as (s' & Hex' & (W2 & O2 & C2 & R2) & HF); [| done |].
  { intros h r. unfold s2. cbn. rewrite R1. apply Hst. }
  exists s'. split; [exact Hex' |]. unfold s2 in *. cbn in W2, O2, C2, R2.
  split; [by split_and!; congruence |].
  cbn [clock deliveries with_deliveries] in HF. rewrite C1, D1 in HF.
  eapply Forall2_comp; [| apply map_Forall2 | exact HF]. cbn. intros x y z [_ ->] [Hin Hout'].
  destruct (Z.eqb_spec (row_ID x) (row_ID (delivery c))) as [Hx | Hx].
  - assert (Hid : row_ID (attempted (clock s) (row_Attempts (delivery c)) out x) = row_ID x)
      by (destruct (attempted_columns (clock s) (row_Attempts (delivery c)) out x) as [[=] _]; done).
    assert (z = attempted (clock s) (row_Attempts (delivery c)) out x) as ->.
    { apply Hout'. intros c' Hc' Heq. apply Hc. rewrite Hid, Hx in Heq. rewrite <- Heq.
      by apply (list_elem_of_fmap_2 (fun c => row_ID (delivery c))). }
    split.
    + intros c' [-> | Hc']%elem_of_cons Heq; [by exists out |]. destruct Hc. rewrite <- Hx, <- Heq.
      by apply (list_elem_of_fmap_2 (fun c => row_ID (delivery c))).
    + intros Hno. exfalso. apply (Hno c); [by left | done].
  - split.
    + intros c' [-> | Hc']%elem_of_cons Heq; [by destruct Hx |]. by apply Hin.
    + intros Hno. apply Hout'. intros c' Hc'. apply Hno. by right.
Qed.

(** What an attempt at [now] makes of a claimed delivery: it is delivered, or has
    failed for good after the last attempt, or is tried again within the hour. *)
Definition attempt_result (now : time) (d d' : DeliveryRow) : Prop :=
  delivery_columns d' = delivery_columns d /\ row_Attempts d' = row_Attempts d + 1 /\
  ClaimedAt d' = None /\
  (is_set (row_DeliveredAt d') \/
   is_set (row_FailedAt d') /\ maxAttempts <= row_Attempts d' \/
   unsettled d' = true /\ row_Attempts d' < maxAttempts /\
   now + minute <= AvailableAt d' <= now + hour).

Lemma retryDelay_range n : 1 <= n < maxAttempts -> minute <= retryDelay n <= hour.
Proof.
  intros Hn. assert (Hc : n ∈ seqZ 1 7) by (apply elem_of_seqZ; unfold maxAttempts in *; lia).
  clear Hn. revert n Hc. apply Forall_forall.
  repeat (apply Forall_cons; split; [vm_compute; split; discriminate |]). apply Forall_nil_2.
Qed.

Lemma attempted_result now claimTime by_ out d :
  0 <= row_Attempts d -> unsettled d = true ->
  attempt_result now d (attempted now (row_Attempts d + 1) out (claim_delivery claimTime by_ d)).
Proof.
  intros Hn Hu. destruct (attempted_columns now (row_Attempts d + 1) out (claim_delivery claimTime by_ d))
    as [Hc Ha]. unfold attempt_result. split_and!; [exact Hc | exact Ha | |].
  - destruct out as [[status body] code]. cbn. by repeat case_match.
  - destruct out as [[status body] code]. cbn in Ha |- *. destruct (code == EmptyString); [by left |].
    right. destruct (Z.leb_spec maxAttempts (row_Attempts d + 1)) as [Hm | Hm]; [by left | right].
    cbn. split_and!; [done | done |..]; unfold UTC;
      pose proof (retryDelay_range (row_Attempts d + 1)); lia.
Qed.

Lemma omap_NoDup {A B C} (f : A -> option B) (id : B -> C) (id' : A -> C) l :
  (forall x y, f x = Some y -> id y = id' x) -> NoDup (map id' l) -> NoDup (map id (omap f l)).
Proof.
  intros Hf. induction l as [| x l IH]; cbn; [done |]. intros [Hx Hl]%NoDup_cons.
  destruct (f x) as [y |] eqn:Hy; [| by apply IH]. cbn. apply NoDup_cons. split; [| by apply IH].
  rewrite (Hf x y Hy). intros Hin. apply Hx. apply list_elem_of_fmap in Hin as (y' & -> & Hy').
  apply list_elem_of_omap in Hy' as (x' & Hx' & Hfx). rewrite (Hf x' y' Hfx).
  by apply list_elem_of_fmap_2.
Qed.

Definition with_clock (now : time) (s : db) : db :=
  mkDb (webhooks s) (deliveries s) (outbox s) (fresh s) (random s) now (receiver s) (sent s).

(** The deliveries a run at the clock's time claims. *)
Definition claimed_now (s : db) (d : DeliveryRow) : bool :=
  among (choose delivery_key (delivery_ready s (clock s) (clock s - 5 * minute)) workerBatchSize
           (deliveries s)) (row_ID d).

Lemma claimed_now_ready s d : invariant s -> d ∈ deliveries s -> claimed_now s d = true ->
  delivery_ready s (clock s) (clock s - 5 * minute) d = true.
Proof.
  intros Hi Hd Hc%bool_decide_eq_true. apply (choose_ready delivery_key) in Hc; [done | apply Hi | done].
Qed.

(** If what the receivers answer can be stored, a run of the worker succeeds and
    settles every delivery it claims, whatever the answers: each is delivered, or,
    after its last attempt, failed, or available again after a delay between a
    minute and an hour, and claimed no more; no other delivery changes. *)
Theorem deliver_settles (worker : Worker) (s : db) (Hi : invariant s) (Hst : storable s) :
  exists s', exec handle (deliver worker) s = (Ok tt, s') /\ same_world s s' /\
    Forall2 (fun d d' => if claimed_now s d then attempt_result (clock s) d d' else d' = d)
      (deliveries s) (deliveries s').
Proof.
  unfold deliver, svc_bind, wrapErr, call. cbn [prog_bind]. rewrite exec_vis. cbn [handle].
  cbn [prog_bind]. rewrite exec_vis. cbn [handle prog_bind mapErr].
  set (claim := claim_delivery (UTC (clock s)) (worker_id worker)).
  set (cs := omap _ _). set (s1 := with_deliveries _ s).
  assert (Hcs : forall c, c ∈ cs -> exists d, d ∈ deliveries s /\ claimed_now s d = true /\ delivery c = claim d).
  { intros c (d & Hd & Hc)%list_elem_of_omap. apply list_elem_of_In, filter_In in Hd as [Hd%list_elem_of_In Hhit].
    exists d. split_and!; [done | exact Hhit |]. destruct (hook_of s d); [| done]. by injection Hc as <-. }
  assert (Hdc : forall d, d ∈ deliveries s -> claimed_now s d = true -> exists c, c ∈ cs /\ delivery c = claim d).
  { intros d Hd Hc. pose proof (claimed_now_ready s d Hi Hd Hc) as Hr. unfold delivery_ready, deliverable in Hr.
    apply andb_true_iff in Hr as [_ Hr]. destruct (hook_of s d) as [w |] eqn:Hw; [| done].
    eexists. split; [apply list_elem_of_omap; exists d; split; [by apply list_elem_of_In, filter_In; split; [apply list_elem_of_In |] |] |].
    - by rewrite Hw.
    - done. }
  assert (Hnd : NoDup (map (fun c => row_ID (delivery c)) cs)).
  { apply (omap_NoDup _ _ row_ID).
    - intros d c Hc. destruct (hook_of s d); [| done]. by injection Hc as <-.
    - apply NoDup_map_filter, Hi. }
  destruct (deliverEach_attempted worker cs s1) as (s' & Hex & Hw & HF); [exact Hst | done |].
  exists s'. split; [exact Hex |]. split; [exact Hw |].
  eapply Forall2_comp; [| apply map_Forall2 | exact HF]. cbn. intros x y z [Hx ->] [Hin Hout].
  change (among _ (row_ID x)) with (claimed_now s x) in *. destruct (claimed_now s x) eqn:Hc.
  - destruct (Hdc x Hx Hc) as (c & Hcin & Hcx). destruct (Hin c Hcin) as (out & ->); [by rewrite Hcx |].
    rewrite Hcx. pose proof (claimed_now_ready s x Hi Hx Hc) as Hr.
    unfold delivery_ready in Hr. rewrite !andb_true_iff in Hr. destruct Hr as [[[Hu _] _] _].
    apply attempted_result; [| done]. pose proof (inv_ok s Hi) as Hok. rewrite Forall_forall in Hok.
    by destruct (Hok x Hx).
  - apply Hout. intros c Hcin Heq. destruct (Hcs c Hcin) as (d & Hd & Hdc' & Hcd).
    rewrite Hcd in Heq. assert (d = x) as -> by (eapply (NoDup_map_inj row_ID); [apply Hi | done..]).
    by rewrite Hc in Hdc'.
Qed.
End Deliver.

(** ** Every delivery is settled *)

Section Drain.
Context `{Postgres} `{UUIDs, UUIDReader, AEAD} `{GoNet}.
#[local] Arguments exec : simpl never.

Definition pending (s : db) (d : DeliveryRow) : bool := unsettled d && deliverable s d.
(** The attempts a delivery has left. *)
Definition weight (s : db) (d : DeliveryRow) : nat :=
  if pending s d then Z.to_nat (Z.max 1 (maxAttempts - row_Attempts d)) else 0%nat.
Definition total (s : db) : nat := list_sum (map (weight s) (deliveries s)).

(** Nothing that is pending has to wait beyond [now]. *)
Definition due (now : time) (s : db) : Prop :=
  forall d, d ∈ deliveries s -> pending s d = true ->
    AvailableAt d <= now /\ unclaimed (ClaimedAt d) (now - 5 * minute) = true.

(** Runs of the worker at the given times. *)
Definition run_at (worker : Worker) (now : time) (s : db) : db :=
  snd (exec handle (deliver worker) (with_clock now s)).
Definition rounds (worker : Worker) (times : list time) (s : db) : db :=
  fold_left (fun s now => run_at worker now s) times s.

Lemma choose_some {R} (key : R -> time * time * UUID) ready limit rows row :
  1 <= limit -> row ∈ rows -> ready row = true ->
  exists r, r ∈ rows /\ snd (key r) ∈ choose key ready limit rows.
Proof.
  intros Hl Hrow Hr. unfold choose.
  assert (Hin : row ∈ merge_sort (earlier key) (List.filter ready rows))
    by (rewrite merge_sort_Permutation; by apply filter_elem).
  destruct (merge_sort _ _) as [| r rest] eqn:Hm; [by apply elem_of_nil in Hin |].
  exists r. split.
  - assert (Hr' : r ∈ merge_sort (earlier key) (List.filter ready rows)) by (rewrite Hm; by left).
    rewrite merge_sort_Permutation in Hr'. by apply filter_elem in Hr' as [? _].
  - destruct (Z.to_nat limit) eqn:Hn; [lia |]. by left.
Qed.

Lemma sum_le {A} (f : A -> nat) l k :
  Forall2 (fun x y => (f y <= f x)%nat) l k -> (list_sum (map f k) <= list_sum (map f l))%nat.
Proof. unfold list_sum. induction 1; cbn; lia. Qed.

Lemma sum_lt {A} (f : A -> nat) (P : A -> Prop) l k x :
  Forall2 (fun x y => (f y <= f x)%nat /\ (P x -> (f y < f x)%nat)) l k -> x ∈ l -> P x ->
  (list_sum (map f k) < list_sum (map f l))%nat.
Proof.
  intros HF Hx Hp. revert Hx. induction HF as [| a b l k [Hle Hlt] HF IH]; [by intros ?%elem_of_nil |].
  unfold list_sum in *. cbn. intros [-> | Hx]%elem_of_cons; [| specialize (IH Hx); lia]. specialize (Hlt Hp).
  pose proof (sum_le f l k) as Hsum. unfold list_sum in Hsum.
  cut (fold_right Init.Nat.add 0 (map f k) <= fold_right Init.Nat.add 0 (map f l))%nat; [lia |].
  apply Hsum. eapply Forall2_impl; [exact HF |]. by intros y z [? _].
Qed.

Lemma weight_attempt s now d d' : 0 <= row_Attempts d -> pending s d = true ->
  attempt_result now d d' -> (weight s d' < weight s d)%nat.
Proof.
  intros Hn Hp (Hc & Ha & _ & Hcase). unfold weight. rewrite Hp.
  destruct (pending s d') eqn:Hp'; [| lia]. unfold pending in Hp'. apply andb_true_iff in Hp' as [Hu' _].
  destruct Hcase as [Hd | [[Hf _] | (_ & Hm & _)]].
  - assert (Hf : unsettled d' = false) by (apply unsettled_false; by left). by rewrite Hf in Hu'.
  - assert (Hf' : unsettled d' = false) by (apply unsettled_false; by right). by rewrite Hf' in Hu'.
  - rewrite Ha in *. unfold maxAttempts in *. lia.
Qed.

Lemma attempt_deliverable s now d d' : attempt_result now d d' -> deliverable s d' = deliverable s d.
Proof.
  intros (Hc & _). unfold deliverable, hook_of. unfold delivery_columns in Hc. by injection Hc as _ -> _ _ _ _.
Qed.

Lemma run_at_round worker now s : invariant s -> storable s -> due now s ->
  let s' := run_at worker now s in
  invariant s' /\ storable s' /\ (total s' <= total s)%nat /\ ((0 < total s)%nat -> (total s' < total s)%nat) /\
  forall now', now + hour <= now' -> due now' s'.
Proof.
  intros Hi Hst Hdue s'. set (s0 := with_clock now s).
  assert (Hi0 : invariant s0) by (by destruct Hi).
  destruct (deliver_settles worker s0 Hi0 Hst) as (s1 & Hex & (Hw & _ & _ & Hr) & HF).
  assert (Hs1 : s' = s1) by (unfold s', run_at; fold s0; by rewrite Hex). rewrite Hs1. clear Hs1 s'.
  assert (Hi1 : invariant s1).
  { pose proof (exec_kept (deliver worker) s0 Hi0) as Hk. by rewrite Hex in Hk. }
  change (deliveries s0) with (deliveries s) in HF. change (clock s0) with now in HF.
  assert (Hweight : forall d, weight s1 d = weight s d).
  { intros d. unfold weight, pending, deliverable, hook_of. by rewrite Hw. }
  assert (Hpend : forall d, pending s1 d = pending s d).
  { intros d. unfold pending, deliverable, hook_of. by rewrite Hw. }
  assert (Hclaimed : forall d, d ∈ deliveries s -> claimed_now s0 d = true -> pending s d = true /\ 0 <= row_Attempts d).
  { intros d Hd Hc. apply (claimed_now_ready s0 d Hi0 Hd) in Hc. unfold delivery_ready in Hc.
    rewrite !andb_true_iff in Hc. destruct Hc as [[[Hu _] _] Hdel]. split; [by apply andb_true_iff |].
    pose proof (inv_ok s Hi) as Hok. rewrite Forall_forall in Hok. by destruct (Hok d Hd). }
  assert (HF2 : Forall2 (fun d d' => (weight s d' <= weight s d)%nat /\
                 (claimed_now s0 d = true -> (weight s d' < weight s d)%nat)) (deliveries s) (deliveries s1)).
  { apply Forall2_same_length_lookup. split; [by eapply Forall2_length |].
    intros i d d' Hd Hd'. pose proof (Forall2_lookup_lr _ _ _ _ _ _ HF Hd Hd') as Hcase. cbn in Hcase.
    apply list_elem_of_lookup_2 in Hd.
    destruct (claimed_now s0 d) eqn:Hc; [| by subst d'; split].
    destruct (Hclaimed d Hd Hc) as [Hp Hn]. pose proof (weight_attempt s now d d' Hn Hp Hcase). split; [lia | done]. }
  assert (Htotal : total s1 = list_sum (map (weight s) (deliveries s1))).
  { unfold total. f_equal. apply map_ext, Hweight. }
  split_and!; [done | intros h r; rewrite Hr; apply Hst | | |].
  - rewrite Htotal. apply sum_le. eapply Forall2_impl; [exact HF2 |]. by intros x y [? _].
  - intros Hpos. rewrite Htotal.
    assert (Hex' : exists d, d ∈ deliveries s /\ pending s d = true).
    { unfold total, list_sum in Hpos. clear -Hpos. induction (deliveries s) as [| d ds IH]; cbn in Hpos; [lia |].
      destruct (pending s d) eqn:Hp; [exists d; split; [by left | done] |].
      destruct IH as (d' & Hd' & Hp'); [unfold weight at 1 in Hpos; rewrite Hp in Hpos; exact Hpos |].
      exists d'. split; [by right | done]. }
    destruct Hex' as (d & Hd & Hp). destruct (Hdue d Hd Hp) as [Hav Hun].
    destruct (choose_some delivery_key (delivery_ready s0 now (now - 5 * minute)) workerBatchSize
                (deliveries s) d) as (r & Hr' & Hch).
    + by vm_compute.
    + done.
    + unfold delivery_ready. unfold pending in Hp. apply andb_true_iff in Hp as [Hu Hdel].
      rewrite Hu, Hun, (proj2 (Z.leb_le _ _) Hav). exact Hdel.
    + eapply (sum_lt _ (fun d => claimed_now s0 d = true)); [exact HF2 | exact Hr' |].
      by apply bool_decide_eq_true.
  - intros now' Hnow d' Hd' Hp'. rewrite Hpend in Hp'. apply Forall2_flip in HF.
    destruct (Forall2_exists_l _ _ _ _ HF Hd') as (d & Hd & Hcase). cbn in Hcase.
    destruct (claimed_now s0 d) eqn:Hc.
    + destruct Hcase as (_ & _ & Hcl & Hres). unfold pending in Hp'. apply andb_true_iff in Hp' as [Hu _].
      rewrite Hcl. split; [| done]. destruct Hres as [Hx | [[Hx _] | (_ & _ & ?)]]; [| | lia];
        exfalso; assert (Hf : unsettled d' = false) by (apply unsettled_false; tauto); by rewrite Hf in Hu.
    + subst d'. destruct (Hdue d Hd Hp') as [Hav Hun]. split; [unfold hour, second in *; lia |].
      unfold unclaimed in *. destruct (ClaimedAt d); [| done]. apply Z.ltb_lt in Hun. apply Z.ltb_lt.
      unfold hour, second in *. lia.
Qed.

Lemma total_bound s : invariant s -> (total s <= 8 * length (deliveries s))%nat.
Proof.
  intros Hi. pose proof (inv_ok s Hi) as Hok. unfold total, list_sum. induction Hok as [| d ds [Hn _] _ IH]; cbn; [lia |].
  assert (weight s d <= 8)%nat; [| lia]. unfold weight, maxAttempts. destruct (pending s d); lia.
Qed.

Lemma rounds_settle worker times : forall s, invariant s -> storable s ->
  (forall now, head times = Some now -> due now s) -> Sorted (fun t u => t + hour <= u) times ->
  (total s <= length times)%nat -> total (rounds worker times s) = 0%nat.
Proof.
  induction times as [| now times IH]; intros s Hi Hst Hdue Hsorted Hlen;
    [unfold rounds; cbn [fold_left length] in *; lia |].
  destruct (run_at_round worker now s Hi Hst (Hdue now eq_refl)) as (Hi' & Hst' & Hle & Hlt & Hdue').
  apply Sorted_inv in Hsorted as [Hsorted Hhd]. cbn [rounds fold_left]. apply IH; try done.
  - intros t Ht. apply Hdue'. destruct times; [done |]. injection Ht as ->. by inversion Hhd.
  - cbn in Hlen. destruct (total s) eqn:Ht; [lia |]. specialize (Hlt ltac:(lia)). lia.
Qed.

(** C31: every delivery comes to an end. If the receivers' answers can be stored and
    everything pending is due when the worker first runs, then after as many runs of the
    worker, an hour or more apart, as there are attempts left, eight for a delivery at
    most, every delivery of an active webhook has been delivered or has failed, whatever
    the receivers answered. *)
Theorem deliveries_drain (worker : Worker) (s : db) (times : list time) (Hi : invariant s)
    (Hst : storable s) (Hdue : forall now, head times = Some now -> due now s)
    (Hsorted : Sorted (fun t u => t + hour <= u) times)
    (Hlen : (8 * length (deliveries s) <= length times)%nat) :
  forall d, d ∈ deliveries (rounds worker times s) -> deliverable (rounds worker times s) d = true ->
    is_set (row_DeliveredAt d) \/ is_set (row_FailedAt d).
Proof.
  pose proof (total_bound s Hi) as Hb.
  pose proof (rounds_settle worker times s Hi Hst Hdue Hsorted ltac:(lia)) as Hzero.
  intros d Hd Hdel. apply unsettled_false. destruct (unsettled d) eqn:Hu; [exfalso | done].
  unfold total in Hzero. set (s' := rounds worker times s) in *.
  assert (Hw : (1 <= weight s' d)%nat) by (unfold weight, pending; rewrite Hu, Hdel; cbn [andb]; lia).
  assert (Hall : forall ds, d ∈ ds -> list_sum (map (weight s') ds) = 0%nat -> False).
  { intros ds. unfold list_sum. induction ds as [| x ds IH]; [by intros ?%elem_of_nil |].
    cbn. intros [-> | Hx]%elem_of_cons Hz; [lia |]. apply IH; [done | lia]. }
  by eapply Hall.
Qed.
End Drain.

Module webhookstore_examples.
Import Demo.

#[local] Instance demo_url : GoURL := {|
  url := string; ParseRequestURI raw := if HasPrefix raw "https://" then Some raw else None;
  Scheme _ := "https"; Host raw := raw; HasUser _ := false
|}.
#[local] Instance demo_net : GoNet := {|
  Hostname raw := drop_chars 8 raw; Fragment _ := EmptyString; NewRequest_accepts _ := true;
  ParseIP _ := None; SplitHostPort _ := None
|}.
#[local] Instance demo_aead : AEAD := {|
  NonceSize := 12;
  Seal key nonce plaintext aad := hmac key (nonce ++ aad ++ plaintext) ++ plaintext;
  Open key nonce sealed aad :=
    let plaintext := skipn 32 sealed in
    if bool_decide (firstn 32 sealed = hmac key (nonce ++ aad ++ plaintext)) then Some plaintext else None
|}.
#[local] Instance demo_aead_laws : AEADLaws.
Proof.
  split. intros key nonce plaintext aad _. unfold Open, Seal, demo_aead. cbn zeta.
  assert (Hl : length (hmac key (nonce ++ aad ++ plaintext)) = 32%nat) by apply Sum256_length.
  rewrite skipn_app, firstn_app, Hl, Nat.sub_diag, skipn_O, firstn_O, app_nil_r.
  rewrite (firstn_all2 (n := 32)), (skipn_all2 (n := 32)) by lia. cbn [app].
  by rewrite bool_decide_eq_true_2.
Qed.

Fixpoint hex_number (acc : Z) (s : string) : Z :=
  match s with
  | EmptyString => acc
  | String c s =>
      let b := byte_of c in
      hex_number (if b =? 45 then acc else acc * 16 + (if b <? 58 then b - 48 else b - 87)) s
  end.
#[local] Instance demo_reader : UUIDReader := {|
  uuid_Parse s := if len s =? 36 then Some (hex_number 0 s) else None
|}.
#[local] Instance demo_postgres : Postgres := {|
  jsonb body := body; md5_uuid w e := uuid_NewSHA1 w (bytes (uuid_String e))
|}.

Definition service : Service := mkService (repeat 7 32).
Definition worker : Worker := mkWorker service "worker-1".
Definition empty (answers : answer) : db :=
  mkDb [] [] [] 1 (fun _ => repeat 5 12) (1000 * hour) (fun _ _ => answers) [].
Definition hook : CreateInput :=
  mkCreateInput "https://hooks.example/" "0123456789abcdef" ["push"; "status"; "push"] true.
Definition pushed : event.OutboxEvent :=
  event.newEvent 99 "git.push_received" "repository" (uuid_String 7) (bytes "{}") (900 * hour) (None, None).

(** A webhook, an event of its repository, and a dispatched outbox. *)
Definition created (answers : answer) : db :=
  snd (exec handle (Create service 7 hook (800 * hour)) (empty answers)).
Definition ready (answers : answer) : db :=
  snd (exec handle (dispatchOutbox worker) (with_outbox [pushed] (created answers))).
Definition ok : answer := Response 200 (Some (bytes "thanks")).
(** An answer HTTP clients accept and the table does not. *)
Definition strange : answer := Response 600 (Some []).

Lemma decrypt_encrypt_witness :
  ensures (fun tr r => exists nonce, tr = [Ev (Nonce NonceSize) nonce] /\
    forall n ciphertext, nonce = Ok n -> length n = NonceSize -> r = Ok ciphertext ->
      firstn NonceSize ciphertext = n /\ decrypt service ciphertext = Ok (bytes "0123456789abcdef"))
    (encrypt service (bytes "0123456789abcdef")).
Proof. exact (decrypt_encrypt service (bytes "0123456789abcdef")). Defined.

Lemma created_invariant answers : invariant (with_outbox [pushed] (created answers)).
Proof.
  unfold created. set (p := Create service 7 hook (800 * hour)).
  pose proof (exec_kept p (empty answers)) as Hk.
  assert (He : invariant (empty answers)) by (split; try apply NoDup_nil_2; apply Forall_nil_2).
  destruct (Hk He). split; cbn [with_outbox webhooks deliveries outbox]; try done.
  apply NoDup_singleton.
Qed.
Lemma ready_invariant answers : invariant (ready answers).
Proof. apply exec_kept, created_invariant. Qed.

Example delivered_once :
  map (fun d => (row_EventType d, row_ResponseStatus d, row_Attempts d, unsettled d))
    (deliveries (run_at worker (1000 * hour) (ready ok))) = [("push", Some 200, 1, false)].
Proof. vm_compute. reflexivity. Qed.

Definition no_hook : WebhookRow := mkWebhookRow (mkWebhook 0 0 EmptyString [] false 0 0) [] None.
Definition the_hook : WebhookRow := List.hd no_hook (webhooks (created ok)).
Definition done_event : event.OutboxEvent :=
  complete_event (1000 * hour) (claim_event (1000 * hour) "worker-1" pushed).

Lemma dispatch_delivers_witness : exists d,
  d ∈ deliveries (ready ok) /\ delivery_of the_hook done_event d /\
  Forall (fun d' => delivery_of the_hook done_event d' -> d' = d) (deliveries (ready ok)).
Proof.
  destruct (dispatch_delivers worker (with_outbox [pushed] (created ok)) (created_invariant ok))
    as (_ & Hall & _).
  assert (Ho : outbox (ready ok) = [done_event]) by (vm_compute; reflexivity).
  assert (Hw : webhooks (created ok) = [the_hook]) by (vm_compute; reflexivity).
  destruct (Hall done_event) with (w := the_hook) as (d & Hd & Hof & Huniq).
  - change (done_event ∈ outbox (ready ok)). rewrite Ho. by left.
  - discriminate.
  - exists pushed. split; [by left | split; reflexivity].
  - change (the_hook ∈ webhooks (created ok)). rewrite Hw. by left.
  - apply wants_subscribed. split; [discriminate | split; [reflexivity |]]. exists 7.
    split; vm_compute; reflexivity.
  - exists d. split; [exact Hd | split; [exact Hof |]]. apply Forall_forall. exact Huniq.
Defined.

(** Two workers ask for what is due; the first is given it. *)
Definition claiming (name : string) : effect (result (list Claimed)) :=
  ClaimWebhookDeliveries (1000 * hour) name (999 * hour) 20.
Definition claimed : db := snd (handle _ (claiming "worker-2") (ready ok)).
Definition out : list Claimed :=
  handed (claiming "worker-2") (fst (handle _ (claiming "worker-2") (ready ok)))
  ++ handed (claiming "worker-3") (fst (handle _ (claiming "worker-3") claimed)).

Lemma delivery_history_witness :
  map (fun c => (row_EventType (delivery c), row_Attempts (delivery c), Url c)) out
  = [("push", 1, "https://hooks.example/")] /\
  Forall (fun d => exists d', d' ∈ deliveries (snd (handle _ (claiming "worker-3") claimed)) /\
    row_Attempts d' = row_Attempts d + 1) (deliveries (ready ok)).
Proof.
  destruct (delivery_history (ready ok) (snd (handle _ (claiming "worker-3") claimed)) out (ready_invariant ok))
    as (_ & _ & Hall & _).
  - exact (history_step _ _ _ _ _
      (history_step _ _ _ _ _ (history_nil (ready ok)) (step_query (ready ok) _ (claiming "worker-2")))
      (step_query claimed _ (claiming "worker-3"))).
  - split; [vm_compute; reflexivity |]. apply Forall_forall. intros d Hd.
    destruct (Hall d Hd) as (d' & Hd' & _ & Ha & _). exists d'. split; [exact Hd' |]. rewrite Ha. f_equal.
    assert (Hone : map row_ID (deliveries (ready ok)) = map (fun c => row_ID (delivery c)) out) by (vm_compute; reflexivity).
    apply (list_elem_of_fmap_2 row_ID) in Hd. change (row_ID d ∈ map row_ID (deliveries (ready ok))) in Hd.
    rewrite Hone in Hd. assert (Ht : forallb (fun id => times id out =? 1) (map (fun c => row_ID (delivery c)) out) = true)
      by (vm_compute; reflexivity).
    rewrite forallb_forall in Ht. apply Z.eqb_eq, Ht, list_elem_of_In, Hd.
Defined.

Lemma deliver_settles_witness :
  exists s', exec handle (deliver worker) (ready ok) = (Ok tt, s') /\ same_world (ready ok) s' /\
    Forall2 (fun d d' => if claimed_now (ready ok) d then attempt_result (clock (ready ok)) d d' else d' = d)
      (deliveries (ready ok)) (deliveries s').
Proof.
  apply (deliver_settles worker (ready ok) (ready_invariant ok)). intros h request.
  change (storable_outcome (outcome ok) = true). vm_compute. reflexivity.
Defined.

(** The hours after the last the table knows. *)
Definition hours (n : Z) : list time := map (fun i => (1001 + i) * hour) (seqZ 0 n).

Lemma deliveries_drain_witness :
  Forall (fun d => deliverable (rounds worker (hours 8) (ready NetworkError)) d = true ->
            is_set (row_DeliveredAt d) \/ is_set (row_FailedAt d))
    (deliveries (rounds worker (hours 8) (ready NetworkError))).
Proof.
  apply Forall_forall. apply (deliveries_drain worker (ready NetworkError) (hours 8)).
  - apply ready_invariant.
  - intros h request. change (storable_outcome (outcome NetworkError) = true). vm_compute. reflexivity.
  - intros now [= <-] d Hd _.
    assert (Hall : forallb (fun d => (AvailableAt d <=? (1001 + 0) * hour)
                && unclaimed (ClaimedAt d) ((1001 + 0) * hour - 5 * minute)) (deliveries (ready NetworkError))
              = true) by (vm_compute; reflexivity).
    rewrite forallb_forall in Hall. apply list_elem_of_In, Hall, andb_true_iff in Hd as [Ha Hu].
    split; [apply Z.leb_le, Ha | exact Hu].
  - repeat constructor; vm_compute; discriminate.
  - assert (Hl : length (deliveries (ready NetworkError)) = 1%nat) by (vm_compute; reflexivity).
    rewrite Hl. vm_compute. repeat constructor.
Defined.

Example failed_after_eight :
  map (fun d => (row_Attempts d, bool_decide (row_FailedAt d = None), row_LastErrorCode d))
    (deliveries (rounds worker (hours 9) (ready NetworkError))) = [(8, false, Some "network_error")].
Proof. vm_compute. reflexivity. Qed.

(** A receiver that answers with a status outside 100 to 599 stops the run with an
    error and is never done with: its attempts exceed the limit, and the delivery
    is neither delivered nor failed, however often it is sent. *)
Example strange_status_stops_worker :
  exists e, fst (exec handle (deliver worker) (ready strange)) = Err e.
Proof. eexists. vm_compute. reflexivity. Qed.
Example strange_status_never_settles :
  map (fun d => (row_Attempts d, unsettled d)) (deliveries (rounds worker (hours 12) (ready strange)))
  = [(12, true)] /\
  length (sent (rounds worker (hours 12) (ready strange))) = 12%nat.
Proof. split; vm_compute; reflexivity. Qed.

(** Two workers: the first is slow, its claim expires, and the second fails the same
    delivery; when the first then records its success the row is both delivered
    and failed. *)
Example delivered_and_failed :
  let d := List.hd (new_delivery 0 0 EmptyString 0 [] 0) (deliveries (ready ok)) in
  let s1 := snd (handle _ (FailWebhookDelivery (row_ID d) None None 5 "network_error") (ready ok)) in
  let s2 := snd (handle _ (CompleteWebhookDelivery (row_ID d) (Some 200) None 6) s1) in
  map (fun d => (row_DeliveredAt d, row_FailedAt d)) (deliveries s2) = [(Some 6, Some 5)].
Proof. vm_compute. reflexivity. Qed.
End webhookstore_examples.
End webhookstore.
