(* ===== verification/Repository.v ===== *)
(** * Repository: repository metadata, settings, deletion and restoration
    (package [internal/repository]). *)

From stdpp Require Import pretty.
From S2P Require Import Prelude.
From S2P Require Import GoText.

Module repository.

Definition ErrNotFound : error := New "repository not found".
Definition ErrAlreadyExists : error := New "repository already exists".
Definition ErrValidation : error := New "repository validation failed".

(** [^[a-z0-9][a-z0-9._-]*$] *)
Definition slugPattern_text : string := "^[a-z0-9][a-z0-9._-]*$".
Definition slug_first (c : Ascii.ascii) : bool := is_lower c || is_digit c.
Definition slug_rest (c : Ascii.ascii) : bool :=
  slug_first c || is_char "."%char c || is_char "_"%char c || is_char "-"%char c.
Definition slugPattern (s : string) : bool := match_first_rest slug_first slug_rest s.

Definition Visibility : Type := string.
Definition VisibilityPublic : Visibility := "public".
Definition VisibilityPrivate : Visibility := "private".

Definition State : Type := string.
Definition StateCreating : State := "creating".
Definition StateActive : State := "active".
Definition StateFailed : State := "failed".
Definition StateDeleting : State := "deleting".
Definition StateDeleted : State := "deleted".

Record ATIdentity := mkATIdentity { URI : string; CID : string }.
Record ForkSource := mkForkSource {
  Fork_URI : string; Fork_CID : string; Fork_GitHTTPS : string; LocalRepositoryID : option UUID
}.
Record ForkSync := mkForkSync { BeforeSHA : string; AfterSHA : string; Updated : bool }.
Record Repository := mkRepository {
  ID : UUID; OwnerDID : string; OrganizationID : option UUID; OrganizationSlug : string;
  Slug : string; DisplayName : string; Description : string; Repository_Visibility : Visibility;
  Repository_State : State; DefaultBranch : string; StorageKey : string; ATURI : string;
  ATCID : string; ForkedFrom : option ForkSource; TransferredFrom : option ATIdentity;
  ForkCount : Z; ViewerCanAdmin : bool; ArchivedAt : option time; CreatedAt : time;
  UpdatedAt : time
}.
Record Page := mkPage { Items : list Repository; NextCursor : option UUID }.
Record Publication := mkPublication {
  Pub_ID : UUID; Pub_OwnerDID : string; Pub_Organization : option ATIdentity;
  Pub_ForkedFrom : option ATIdentity; Pub_TransferredFrom : option ATIdentity;
  Pub_TransferredTo : option ATIdentity; Pub_Slug : string; Pub_Name : string;
  Pub_Description : string; Pub_DefaultBranch : string; Pub_GitHTTPS : string;
  Pub_GitSSH : string; Pub_Web : string; Pub_CreatedAt : time; Pub_UpdatedAt : time
}.
Record CreateInput := mkCreateInput {
  C_OwnerDID : string; C_OrganizationID : option UUID; C_OrganizationSlug : string;
  C_OrganizationAT : option ATIdentity; C_ForkedFrom : option ForkSource; C_Slug : string;
  C_DisplayName : string; C_Description : string; C_Visibility : Visibility;
  C_DefaultBranch : string
}.
Record SettingsInput := mkSettingsInput {
  S_OwnerAlias : string; S_Slug : string; S_DisplayName : string; S_Description : string;
  S_Visibility : Visibility; S_DefaultBranch : string; S_Archived : bool
}.
Record Deletion := mkDeletion {
  Deletion_ID : UUID; RepositoryID : UUID; RequestedByDID : string; RequestedAt : time;
  PurgeAfter : time
}.

#[global] Instance ATIdentity_eq_dec : EqDecision ATIdentity.
Proof. solve_decision. Defined.
#[global] Instance ForkSource_eq_dec : EqDecision ForkSource.
Proof. solve_decision. Defined.
#[global] Instance Repository_eq_dec : EqDecision Repository.
Proof. solve_decision. Defined.

(** ** Validation *)

Definition errorf (text : string) : error := Errorf text [].

Definition CreateInput_Validate (input : CreateInput) : result unit :=
  reject_if TrimSpace (C_OwnerDID input) == EmptyString
    with errorf "owner DID must not be empty" ;;
  reject_if xorb (negb (is_some (C_OrganizationID input)))
              (C_OrganizationSlug input == EmptyString)
    with errorf "organization ID and slug must be provided together" ;;
  reject_if is_some (C_OrganizationID input)
            && match C_OrganizationAT input with
               | None => true
               | Some at_ => (URI at_ == EmptyString) || (CID at_ == EmptyString)
               end
    with errorf "organization AT identity must be provided for an organization repository" ;;
  let* _ :=
    match C_ForkedFrom input with
    | None => Ok tt
    | Some source =>
        reject_if (TrimSpace (Fork_URI source) == EmptyString)
                  || (TrimSpace (Fork_CID source) == EmptyString)
          with errorf "fork source must include a strong reference" ;;
        reject_if negb (is_some (LocalRepositoryID source))
                  && (TrimSpace (Fork_GitHTTPS source) == EmptyString)
          with errorf "fork source must include a local repository or HTTPS endpoint" ;;
        reject_if C_Visibility input != VisibilityPublic
          with errorf "public fork sources must remain public" ;;
        Ok tt
    end in
  reject_if (100 <? len (C_Slug input)) || negb (slugPattern (C_Slug input))
    with Errorf "slug must match %s and contain at most 100 characters" [Str slugPattern_text] ;;
  reject_if 255 <? len (C_DisplayName input)
    with errorf "display name must contain at most 255 characters" ;;
  reject_if 2000 <? len (C_Description input)
    with errorf "description must contain at most 2000 characters" ;;
  reject_if (C_Visibility input != VisibilityPublic) && (C_Visibility input != VisibilityPrivate)
    with errorf "visibility must be public or private" ;;
  reject_if (C_DefaultBranch input == EmptyString) || (255 <? len (C_DefaultBranch input))
            || HasPrefix (C_DefaultBranch input) "-"
    with errorf "default branch must be a valid non-option branch name" ;;
  Ok tt.

Definition SettingsInput_Validate (input : SettingsInput) : result unit :=
  reject_if TrimSpace (S_OwnerAlias input) == EmptyString
    with errorf "owner route must not be empty" ;;
  CreateInput_Validate (mkCreateInput "did:placeholder:settings" None EmptyString None None
    (S_Slug input) (S_DisplayName input) (S_Description input) (S_Visibility input)
    (S_DefaultBranch input)).

(** ** Endpoints *)

Record Endpoints := mkEndpoints { baseURL : string; sshHost : string; sshPort : Z }.

(** [net.JoinHostPort] and [strconv.Itoa]. *)
Definition JoinHostPort (host port : string) : string :=
  if Contains host ":" then "[" +:+ host +:+ "]:" +:+ port else host +:+ ":" +:+ port.

Definition For (endpoints : Endpoints) (value : Repository) : string * string * string :=
  let owner := if OrganizationSlug value != EmptyString then OrganizationSlug value
               else OwnerDID value in
  let path := "/" +:+ owner +:+ "/" +:+ Slug value in
  let web := baseURL endpoints +:+ path in
  let authority :=
    if negb (sshPort endpoints =? 22) then JoinHostPort (sshHost endpoints) (pretty (sshPort endpoints))
    else if Contains (sshHost endpoints) ":" then "[" +:+ sshHost endpoints +:+ "]"
    else sshHost endpoints in
  (web, web +:+ ".git", "ssh://git@" +:+ authority +:+ path +:+ ".git").

(** ** The service *)

(** The store, git storage, the publisher, the clock and the id generator. *)
Inductive effect : Type -> Type :=
| store_Create (value : Repository) : effect (result Repository)
| store_GetByOwnerSlug (ownerDID slug : string) : effect (result Repository)
| store_ListByOrganization (organizationID : UUID) : effect (result (list Repository))
| store_PageByOrganization (organizationID : UUID) (actorDID : string) (after : option UUID)
    (limit : Z) : effect (result (list Repository))
| UpdateState (id : UUID) (state : State) (updatedAt : time) : effect (result Repository)
| Activate (id : UUID) (identity : option ATIdentity) (updatedAt : time)
    : effect (result Repository)
| UpdateSettings (id : UUID) (input : SettingsInput) (aliasID : UUID) (archivedAt : option time)
    (identity : option ATIdentity) (updatedAt : time) : effect (result Repository)
| RequestDeletion (deletion : Deletion) : effect (result Deletion)
| store_GetDeletion (id : UUID) : effect (result Deletion)
| store_RestoreDeletion (id : UUID) (restoredAt : time) : effect (result Repository)
| GetForkSourceByURI (uri : string) : effect (result ForkSource)
| GetOrganizationIdentity (id : UUID) : effect (result ATIdentity)
| ListDueDeletions (now : time) (after : option UUID) (limit : Z) : effect (result (list Deletion))
| MarkPurged (id : UUID) (purgedAt : time) : effect (result unit)
| git_Init (id : UUID) (branch : string) : effect (result unit)
| git_SetDefaultBranch (id : UUID) (branch : string) : effect (result unit)
| git_Quarantine (id : UUID) : effect (result unit)
| git_Restore (id : UUID) : effect (result unit)
| git_Fork (id : UUID) (source : ForkSource) (branch : string) : effect (result unit)
| git_SyncFork (id : UUID) (source : ForkSource) (branch : string) : effect (result ForkSync)
| git_Purge (id : UUID) : effect (result unit)
| Publish (publication : Publication) : effect (result ATIdentity)
| Unpublish (publication : Publication) (identity : ATIdentity) : effect (result unit)
| Now : effect time
| NewID : effect (result UUID).

(** The endpoints, and which of the optional interfaces the store, the git
    service and the publisher implement (the code asks by type assertion). *)
Record Service := mkService {
  endpoints : Endpoints; gitLifecycle : bool; gitForker : bool; repositoryLifecycleStore : bool;
  organizationIdentityStore : bool; forkSourceStore : bool; unpublisher : bool
}.

Definition wrapf (format : string) (err : error) : error := Errorf format [W err].
Definition unavailable (what : string) : error :=
  Errorf ("%w: " +:+ what) [W ErrValidation].

(** The program without its error. *)
Definition ignore {A} (p : prog effect A) : prog effect unit := prog_bind p (fun _ => Ret tt).

(** [Service.fail]. *)
Definition fail_ (id : UUID) (cause : error) : svc effect Repository :=
  let! now := call Now in
  let! r := call (UpdateState id StateFailed (UTC now)) in
  fail (Join (cause :: match r with
                       | Ok _ => []
                       | Err e => [wrapf "mark repository failed: %w" e]
                       end)).

Definition ListByOrganization (organizationID : UUID) : svc effect (list Repository) :=
  wrapErr (wrapf "list organization repositories: %w")
    (call (store_ListByOrganization organizationID)).

Definition PageByOrganization (organizationID : UUID) (actorDID : string) (after : option UUID)
    (limit : Z) : svc effect Page :=
  if (limit <? 1) || (100 <? limit)
  then fail (Errorf "%w: limit must be between 1 and 100" [W ErrValidation]) else
  let? values := wrapErr (wrapf "page organization repositories: %w")
    (call (store_PageByOrganization organizationID actorDID after (limit + 1))) in
  let items := firstn (Z.to_nat limit) values in
  done_ (mkPage items
    (if limit <? Z.of_nat (length values) then option_map ID (last items) else None)).

Definition GetByOwnerSlug (ownerDID slug : string) : svc effect Repository :=
  wrapErr (wrapf "get repository by owner and slug: %w")
    (call (store_GetByOwnerSlug ownerDID slug)).

Definition forkPublicationReference (source : option ForkSource) : option ATIdentity :=
  option_map (fun source => mkATIdentity (Fork_URI source) (Fork_CID source)) source.

Definition publicationName (value : Repository) : string :=
  if DisplayName value == EmptyString then Slug value else DisplayName value.

(** [Service.publication]. *)
Definition publication (service : Service) (value : Repository) : svc effect Publication :=
  let '(web, gitHTTPS, gitSSH) := For (endpoints service) value in
  let published organization :=
    mkPublication (ID value) (OwnerDID value) organization
      (forkPublicationReference (ForkedFrom value)) (TransferredFrom value) None (Slug value)
      (publicationName value) (Description value) (DefaultBranch value) gitHTTPS gitSSH web
      (CreatedAt value) (UpdatedAt value) in
  match OrganizationID value with
  | None => done_ (published None)
  | Some id =>
      if negb (organizationIdentityStore service)
      then fail (errorf "resolve repository organization identity: unsupported store") else
      let? identity := wrapErr (wrapf "resolve repository organization identity: %w")
                         (call (GetOrganizationIdentity id)) in
      done_ (published (Some identity))
  end.

Definition newRepository (id : UUID) (input : CreateInput) (storageKey : string) (now : time)
    : Repository :=
  mkRepository id (C_OwnerDID input) (C_OrganizationID input) (C_OrganizationSlug input)
    (C_Slug input) (C_DisplayName input) (C_Description input) (C_Visibility input) StateCreating
    (C_DefaultBranch input) storageKey EmptyString EmptyString (C_ForkedFrom input) None 0 false
    None now now.

Section service.
Context (uuid_String : UUID -> string) (service : Service).

(** When [Activate] fails, [repository] already holds the zero value the store
    returned beside its error. *)
Definition Create (input : CreateInput) : svc effect Repository :=
  match CreateInput_Validate input with
  | Err err => fail (Errorf "%w: %v" [W ErrValidation; V err])
  | Ok _ =>
      let? id := wrapErr (wrapf "generate repository ID: %w") (call NewID) in
      let! now := call Now in
      let? repository := wrapErr (wrapf "create repository metadata: %w")
        (call (store_Create (newRepository id input (uuid_String id) (UTC now)))) in
      let! initialized :=
        match C_ForkedFrom input with
        | None => call (git_Init (ID repository) (DefaultBranch repository))
        | Some source =>
            if negb (gitForker service) then fail (New "Git fork support is unavailable")
            else call (git_Fork (ID repository) source (DefaultBranch repository))
        end in
      match initialized with
      | Err gitErr => fail_ (ID repository) (wrapf "initialize bare repository: %w" gitErr)
      | Ok _ =>
          let! published :=
            if Repository_Visibility repository == VisibilityPublic then
              let '(web, gitHTTPS, gitSSH) := For (endpoints service) repository in
              let? at_id := call (Publish (mkPublication (ID repository) (OwnerDID repository)
                (C_OrganizationAT input) (forkPublicationReference (C_ForkedFrom input)) None None
                (Slug repository) (publicationName repository) (Description repository)
                (DefaultBranch repository) gitHTTPS gitSSH web (CreatedAt repository)
                (UpdatedAt repository))) in
              done_ (Some at_id)
            else done_ None in
          match published with
          | Err publishErr =>
              fail_ (ID repository) (wrapf "publish repository record: %w" publishErr)
          | Ok at_id =>
              let! now := call Now in
              let! activated := call (Activate (ID repository) at_id (UTC now)) in
              match activated with
              | Err err => fail_ uuid_Nil (wrapf "activate repository: %w" err)
              | Ok repository => done_ repository
              end
          end
      end
  end.

(** [compensatePublication]: whatever it publishes or fails to is ignored. *)
Definition compensatePublication (previous attempted : Repository)
    (attemptedIdentity : option ATIdentity) : prog effect unit :=
  if Repository_Visibility previous == VisibilityPublic then
    ignore (let? p := publication service previous in call (Publish p))
  else match attemptedIdentity with
       | None => Ret tt
       | Some identity =>
           if unpublisher service
           then ignore (let? p := publication service attempted in call (Unpublish p identity))
           else Ret tt
       end.

Definition withSettings (current : Repository) (input : SettingsInput) (now : time) : Repository :=
  mkRepository (ID current) (OwnerDID current) (OrganizationID current) (OrganizationSlug current)
    (S_Slug input) (S_DisplayName input) (S_Description input) (S_Visibility input)
    (Repository_State current) (S_DefaultBranch input) (StorageKey current) (ATURI current)
    (ATCID current) (ForkedFrom current) (TransferredFrom current) (ForkCount current)
    (ViewerCanAdmin current) (if S_Archived input then Some now else None) (CreatedAt current) now.

(** Publishes the updated record, or removes the record of a repository that
    becomes private. *)
Definition republish (current updated : Repository) : svc effect (option ATIdentity) :=
  if Repository_Visibility updated == VisibilityPublic then
    let? p := publication service updated in
    let? published := wrapErr (wrapf "publish updated repository record: %w") (call (Publish p)) in
    done_ (Some published)
  else if (ATURI current != EmptyString) && (ATCID current != EmptyString) then
    if negb (unpublisher service) then fail (unavailable "repository unpublication is unavailable")
    else
      let? p := publication service current in
      let? _ := wrapErr (wrapf "unpublish private repository record: %w")
                  (call (Unpublish p (mkATIdentity (ATURI current) (ATCID current)))) in
      done_ None
  else done_ None.

(** [Update] after the branch was set, up to where the deferred function
    runs. *)
Definition update_body (current : Repository) (input : SettingsInput) : svc effect Repository :=
  let! now := call Now in
  let now := UTC now in
  let updated := withSettings current input now in
  let? identity := republish current updated in
  let! aliasID := call NewID in
  match aliasID with
  | Err err =>
      let! _ := compensatePublication current updated identity in
      fail (wrapf "generate repository alias ID: %w" err)
  | Ok aliasID =>
      let! stored := call (UpdateSettings (ID current) input aliasID (ArchivedAt updated) identity now) in
      match stored with
      | Err err =>
          let! _ := compensatePublication current updated identity in
          fail (wrapf "update repository settings: %w" err)
      | Ok stored => done_ stored
      end
  end.

Definition Update (current : Repository) (input : SettingsInput) : svc effect Repository :=
  if Repository_State current != StateActive then fail ErrNotFound else
  match SettingsInput_Validate input with
  | Err err => fail (Errorf "%w: %v" [W ErrValidation; V err])
  | Ok _ =>
      if negb (gitLifecycle service)
      then fail (unavailable "repository lifecycle support is unavailable") else
      if negb (repositoryLifecycleStore service)
      then fail (unavailable "repository lifecycle persistence is unavailable") else
      let branchUpdated := S_DefaultBranch input != DefaultBranch current in
      let? _ :=
        if branchUpdated
        then wrapErr (fun err => Errorf "%w: set default branch: %v" [W ErrValidation; V err])
               (call (git_SetDefaultBranch (ID current) (S_DefaultBranch input)))
        else done_ tt in
      let! outcome := update_body current input in
      match outcome with
      | Ok stored => done_ stored
      | Err err =>
          let! _ := if branchUpdated
                    then ignore (call (git_SetDefaultBranch (ID current) (DefaultBranch current)))
                    else Ret tt in
          fail err
      end
  end.

Definition Delete (current : Repository) (actorDID : string) (retention : Z)
    : svc effect Deletion :=
  if Repository_State current != StateActive then fail ErrNotFound else
  if retention <=? 0 then fail (unavailable "deletion retention must be positive") else
  if negb (gitLifecycle service)
  then fail (unavailable "repository lifecycle support is unavailable") else
  if negb (repositoryLifecycleStore service)
  then fail (unavailable "repository lifecycle persistence is unavailable") else
  let? _ :=
    if (ATURI current != EmptyString) && (ATCID current != EmptyString) then
      if negb (unpublisher service)
      then fail (unavailable "repository unpublication is unavailable") else
      let? p := publication service current in
      wrapErr (wrapf "unpublish deleted repository record: %w")
        (call (Unpublish p (mkATIdentity (ATURI current) (ATCID current))))
    else done_ tt in
  let? _ := wrapErr (wrapf "quarantine repository: %w") (call (git_Quarantine (ID current))) in
  let! id := call NewID in
  match id with
  | Err err =>
      let! _ := ignore (call (git_Restore (ID current))) in
      fail (wrapf "generate repository deletion ID: %w" err)
  | Ok id =>
      let! now := call Now in
      let now := UTC now in
      let! deletion := call (RequestDeletion (mkDeletion id (ID current) actorDID now (now + retention))) in
      match deletion with
      | Err err =>
          let! _ := ignore (call (git_Restore (ID current))) in
          let! _ := if Repository_Visibility current == VisibilityPublic
                    then ignore (let? p := publication service current in call (Publish p))
                    else Ret tt in
          fail (wrapf "request repository deletion: %w" err)
      | Ok deletion => done_ deletion
      end
  end.

Definition GetDeletion (id : UUID) : svc effect Deletion :=
  if negb (repositoryLifecycleStore service)
  then fail (unavailable "repository lifecycle persistence is unavailable") else
  wrapErr (wrapf "get repository deletion: %w") (call (store_GetDeletion id)).

Definition routeOwner (value : Repository) : string :=
  if OrganizationSlug value != EmptyString then OrganizationSlug value else OwnerDID value.

Definition settingsOf (value : Repository) : SettingsInput :=
  mkSettingsInput (routeOwner value) (Slug value) (DisplayName value) (Description value)
    (Repository_Visibility value) (DefaultBranch value) (is_some (ArchivedAt value)).

Definition RestoreDeletion (id : UUID) : svc effect Repository :=
  if negb (repositoryLifecycleStore service)
  then fail (unavailable "repository lifecycle persistence is unavailable") else
  let? deletion := wrapErr (wrapf "get repository deletion: %w") (call (store_GetDeletion id)) in
  if negb (gitLifecycle service)
  then fail (unavailable "repository lifecycle support is unavailable") else
  let? _ := wrapErr (wrapf "restore quarantined repository: %w")
              (call (git_Restore (RepositoryID deletion))) in
  let! now := call Now in
  let! restored := call (store_RestoreDeletion id (UTC now)) in
  match restored with
  | Err err =>
      let! _ := ignore (call (git_Quarantine (RepositoryID deletion))) in
      fail (wrapf "restore repository metadata: %w" err)
  | Ok restored =>
      if Repository_Visibility restored == VisibilityPublic then
        let? p := publication service restored in
        let? published := wrapErr (wrapf "republish restored repository: %w") (call (Publish p)) in
        let? aliasID := wrapErr (wrapf "generate restoration identity update ID: %w") (call NewID) in
        let! now := call Now in
        wrapErr (wrapf "store restored repository identity: %w")
          (call (UpdateSettings (ID restored) (settingsOf restored) aliasID (ArchivedAt restored)
                   (Some published) (UTC now)))
      else done_ restored
  end.

Definition SyncFork (value : Repository) : svc effect ForkSync :=
  match ForkedFrom value with
  | None => fail (unavailable "repository is not a fork")
  | Some source =>
      let? source :=
        match LocalRepositoryID source with
        | Some _ => done_ source
        | None =>
            if negb (forkSourceStore service)
            then fail (unavailable "fork source lookup is unavailable")
            else wrapErr (wrapf "resolve fork source: %w") (call (GetForkSourceByURI (Fork_URI source)))
        end in
      if negb (gitForker service) then fail (unavailable "Git fork support is unavailable") else
      wrapErr (wrapf "sync fork: %w") (call (git_SyncFork (ID value) source (DefaultBranch value)))
  end.
End service.

(** ** What the operations do, whatever the store and the providers answer *)

#[global] Arguments For : simpl never.

(** The row an event inserted, and whether it is a failed activation. *)
Definition insertion (ev : event effect) : option Repository :=
  match ev with
  | @Ev _ X e x =>
      match e in effect X return X -> option Repository with
      | store_Create _ => fun r => match r with Ok row => Some row | Err _ => None end
      | _ => fun _ => None
      end x
  end.
Definition activation_error (ev : event effect) : bool :=
  match ev with
  | @Ev _ X e x =>
      match e in effect X return X -> bool with
      | Activate _ _ _ => fun r => negb (is_Ok r)
      | _ => fun _ => false
      end x
  end.
Definition inserted (h : list (event effect)) : list Repository := omap insertion h.
Definition activation_failed (h : list (event effect)) : bool := existsb activation_error h.

(** How a creation ends for the row it inserted. *)
Inductive settled (h : list (event effect)) (row : Repository) : result Repository -> Prop :=
| settled_active at_id t v :
    Ev (Activate (ID row) at_id t) (Ok v) ∈ h ->
    (at_id <> None <-> Repository_Visibility row = VisibilityPublic) ->
    activation_failed h = false -> settled h row (Ok v)
| settled_failed e pre t x :
    h = pre ++ [Ev (UpdateState (if activation_failed h then uuid_Nil else ID row) StateFailed t) x] ->
    settled h row (Err e).

Section operations.
Context (uuid_String : UUID -> string) (service : Service).


Definition settles (h : list (event effect)) (r : result Repository) : Prop :=
  forall row, row ∈ inserted h -> settled h row r.

Lemma fail_settles row id cause h :
  inserted h = [row] -> id = (if activation_failed h then uuid_Nil else ID row) ->
  wp (fun _ _ _ => True) (fail_ id cause) settles h.
Proof.
  intros Hi ->. cbn. split; [done |]. intros now. split; [done |]. intros x row'.
  unfold inserted in *. rewrite !omap_app, Hi. cbn. intros ->%list_elem_of_singleton.
  eapply settled_failed. unfold activation_failed. rewrite !existsb_app. cbn.
  by rewrite !orb_false_r.
Qed.

#[local] Arguments fail_ : simpl never.

(** A repository row that creation inserted is afterwards active, with a
    published identity exactly when it is public, or its creation failed and
    the last thing done marks a row failed: the inserted one, unless it was
    the activation that failed, in which case it is the row of the nil id. *)
Theorem Create_settles (input : CreateInput) :
  ensures settles (Create uuid_String service input).
Proof.
  apply (wp_ensures (fun _ _ _ => True)). unfold Create.
  destruct (CreateInput_Validate input); cbn; [| by intros row ?%elem_of_nil].
  split; [done |]. intros [id | e]; cbn; [| by intros row ?%elem_of_nil].
  split; [done |]. intros now. split; [done |].
  intros [v | e]; cbn; [| by intros row ?%elem_of_nil].
  apply wp_bind. eapply (wp_mono _ _ (fun h r => inserted h = [v] /\ activation_failed h = false)).
  2: { destruct (C_ForkedFrom input) as [source |]; [destruct (gitForker service) |]; cbn; done. }
  intros h [[] | e] [Hi Ha]; [| eapply fail_settles; [exact Hi | by rewrite Ha]].
  apply wp_bind.
  apply (wp_mono _ _ (fun h r => inserted h = [v] /\ activation_failed h = false /\
    forall at_id, r = Ok at_id ->
      (at_id <> None <-> Repository_Visibility v = VisibilityPublic))).
  2: { assert (Happ : forall x : event effect, insertion x = None -> activation_error x = false ->
         inserted (h ++ [x]) = [v] /\ activation_failed (h ++ [x]) = false).
       { intros x Hx Hy. unfold inserted, activation_failed in *.
         rewrite omap_app, existsb_app, Hi, Ha. cbn. by rewrite Hx, Hy. }
       destruct (String.eqb_spec (Repository_Visibility v) VisibilityPublic) as [Hv | Hv].
       - destruct (For _ _) as [[web https] ssh]. cbn. split; [done |]. intros [i | e]; cbn.
         + split_and!; [by apply Happ .. |]. intros at_id [= <-]. done.
         + split_and!; [by apply Happ .. | done].
       - cbn. split_and!; [done .. |]. by intros at_id [= <-]. }
  clear h Hi Ha. intros h [at_id | e] (Hi & Ha & Hp);
    [| eapply fail_settles; [exact Hi | by rewrite Ha]].
  cbn. split; [done |]. intros now'. split; [done |]. intros [x | e]; cbn.
  - intros row. unfold inserted in *. rewrite !omap_app, Hi. cbn.
    intros ->%list_elem_of_singleton.
    apply (settled_active _ _ at_id (UTC now')); [set_solver | by apply Hp |].
    unfold activation_failed in *. by rewrite !existsb_app, Ha.
  - eapply (fail_settles v).
    + unfold inserted in *. by rewrite !omap_app, Hi.
    + unfold activation_failed. rewrite !existsb_app. cbn. by rewrite !orb_true_r.
Qed.


(** The record is the one the code makes of [v]. *)
Definition describes (p : Publication) (v : Repository) : Prop :=
  Pub_ID p = ID v /\ Pub_OwnerDID p = OwnerDID v /\ Pub_Slug p = Slug v /\
  Pub_Name p = publicationName v /\ Pub_Description p = Description v /\
  Pub_DefaultBranch p = DefaultBranch v /\
  For (endpoints service) v = (Pub_Web p, Pub_GitHTTPS p, Pub_GitSSH p) /\
  Pub_CreatedAt p = CreatedAt v /\ Pub_UpdatedAt p = UpdatedAt v.

(** What may be published or removed, given the repositories at hand. *)
Definition public_only (source : list (event effect) -> Repository -> Prop)
    (h : list (event effect)) X (e : effect X) : Prop :=
  match e with
  | Publish p => exists v, source h v /\ Repository_Visibility v = VisibilityPublic /\ describes p v
  | Unpublish p _ => exists v, source h v /\ describes p v
  | _ => True
  end.

Lemma publication_wp source v (Q : list (event effect) -> result Publication -> Prop) h :
  (forall t r, (forall p, r = Ok p -> describes p v) -> Q (h ++ t) r) ->
  wp (public_only source) (publication service v) Q h.
Proof.
  intros HQ. unfold publication. destruct (For _ _) as [[web https] ssh] eqn:Hfor.
  assert (Hd : forall o, describes
    (mkPublication (ID v) (OwnerDID v) o (forkPublicationReference (ForkedFrom v))
      (TransferredFrom v) None (Slug v) (publicationName v) (Description v) (DefaultBranch v)
      https ssh web (CreatedAt v) (UpdatedAt v)) v) by (intros o; unfold describes; by split_and!).
  destruct (OrganizationID v) as [id |]; [destruct (organizationIdentityStore service) |]; cbn.
  - split; [done |]. intros [i | e]; cbn; apply HQ; [by intros p [= <-] | done].
  - rewrite <- (app_nil_r h). by apply HQ.
  - rewrite <- (app_nil_r h). apply HQ. by intros p [= <-].
Qed.

#[local] Arguments publication : simpl never.

Definition update_source (current : Repository) (input : SettingsInput)
    (h : list (event effect)) (v : Repository) : Prop :=
  v = current \/ exists now, Ev Now now ∈ h /\ v = withSettings current input (UTC now).

Lemma update_source_app current input h t v :
  update_source current input h v -> update_source current input (h ++ t) v.
Proof. unfold update_source. intros [-> | (now & Hn & ->)]; [by left | right; set_solver]. Qed.

Lemma compensate_wp current input attempted at_id (Q : list (event effect) -> unit -> Prop) h :
  update_source current input h attempted ->
  (forall h', Q h' tt) ->
  wp (public_only (update_source current input))
    (compensatePublication service current attempted at_id) Q h.
Proof.
  intros Hs HQ. unfold compensatePublication, ignore.
  destruct (String.eqb_spec (Repository_Visibility current) VisibilityPublic) as [Hv | _].
  - apply wp_bind, wp_svc_bind, publication_wp. intros t [p | e] Hp; cbn; [| apply HQ].
    split; [| intros; apply HQ]. exists current. split_and!; [by left | done | by apply Hp].
  - destruct at_id as [i |]; [| apply HQ]. destruct (unpublisher service); [| apply HQ].
    apply wp_bind, wp_svc_bind, publication_wp. intros t [p | e] Hp; cbn; [| apply HQ].
    split; [| intros; apply HQ]. exists attempted. split; [by apply update_source_app | by apply Hp].
Qed.

Lemma republish_wp current input updated (Q : list (event effect) -> result (option ATIdentity) -> Prop) h :
  update_source current input h updated ->
  (forall t r, Q (h ++ t) r) ->
  wp (public_only (update_source current input)) (republish service current updated) Q h.
Proof.
  intros Hs HQ. unfold republish. pose proof (HQ []) as HQ0. rewrite app_nil_r in HQ0.
  destruct (String.eqb_spec (Repository_Visibility updated) VisibilityPublic) as [Hv | _].
  - apply wp_svc_bind, publication_wp. intros t [p | e] Hp; [| apply HQ]. cbn.
    split; [| intros [i | e]; cbn; rewrite <- app_assoc; apply HQ].
    exists updated. split_and!; [by apply update_source_app | done | by apply Hp].
  - destruct (_ && _); [| apply HQ0]. destruct (negb _); [apply HQ0 |].
    apply wp_svc_bind, publication_wp. intros t [p | e] Hp; [| apply HQ]. cbn.
    split; [| intros [i | e]; cbn; rewrite <- app_assoc; apply HQ].
    exists current. split; [by left | by apply Hp].
Qed.

#[local] Arguments compensatePublication : simpl never.
#[local] Arguments republish : simpl never.

Lemma update_body_wp current input (Q : list (event effect) -> result Repository -> Prop) h :
  (forall h' r, Q h' r) ->
  wp (public_only (update_source current input)) (update_body service current input) Q h.
Proof.
  intros HQ. unfold update_body. cbn. split; [done |]. intros now.
  assert (Hs : forall h', Ev Now now ∈ h' -> update_source current input h'
                            (withSettings current input (UTC now))).
  { intros h' Hin. right. by exists now. }
  apply wp_svc_bind, republish_wp; [apply Hs; set_solver |]. intros t [at_id | e]; [| apply HQ].
  cbn. split; [done |]. intros [alias | e]; cbn.
  - split; [done |]. intros [v | e]; cbn; [apply HQ |].
    apply wp_bind, compensate_wp; [apply Hs; set_solver | intros h'; apply HQ].
  - apply wp_bind, compensate_wp; [apply Hs; set_solver | intros h'; apply HQ].
Qed.
#[local] Arguments update_body : simpl never.

Lemma Create_public (input : CreateInput) :
  guarded (public_only (fun h v => exists w, Ev (store_Create w) (Ok v) ∈ h))
    (Create uuid_String service input).
Proof.
  apply (wp_guarded _ _ (fun _ _ => True)).
  unfold Create. destruct (CreateInput_Validate input); cbn; [| done].
  split; [done |]. intros [i | e]; cbn; [| done]. split; [done |]. intros now.
  split; [done |]. intros [v | e]; cbn; [| done].
  set (w := newRepository _ _ _ _).
  apply wp_bind. eapply (wp_mono _ _ (fun h _ => Ev (store_Create w) (Ok v) ∈ h)).
  2: { destruct (C_ForkedFrom input); [destruct (gitForker service) |]; cbn;
         (split; [done | intros x; set_solver]) || set_solver. }
  intros h [_ | e] Hw; [| by cbn].
  apply wp_bind. eapply (wp_mono _ _ (fun _ _ => True)).
  { intros h' [at_id | e] _; cbn; [| done]. split; [done |]. intros t.
    split; [done |]. by intros [x | e]. }
  destruct (String.eqb_spec (Repository_Visibility v) VisibilityPublic) as [Hv | _]; [| done].
  destruct (For _ _) as [[web https] ssh] eqn:Hfor. cbn. split; [| by intros [x | e]].
  exists v. split_and!; [by exists w | done | unfold describes; by split_and!].
Qed.

Lemma Update_public (current : Repository) (settings : SettingsInput) :
  guarded (public_only (update_source current settings)) (Update service current settings).
Proof.
  apply (wp_guarded _ _ (fun _ _ => True)).
  unfold Update. destruct (_ != _); [done |]. destruct (SettingsInput_Validate settings); [| done].
  destruct (negb _); [done |]. destruct (negb _); [done |].
  apply wp_svc_bind. eapply (wp_mono _ _ (fun _ _ => True)).
  2: { destruct (_ != _); [| done]. cbn. split; [done |]. by intros [x | e]. }
  intros h [[] | e] _; [| done]. apply wp_bind, update_body_wp.
  intros h' [v | e]; [done |]. cbn. destruct (_ != _); [| done]. by cbn.
Qed.

Lemma Delete_public (current : Repository) (actor : string) (retention : Z) :
  guarded (public_only (fun _ v => v = current)) (Delete service current actor retention).
Proof.
  apply (wp_guarded _ _ (fun _ _ => True)).
  unfold Delete. destruct (_ != _); [done |]. destruct (_ <=? _); [done |].
  destruct (negb _); [done |]. destruct (negb _); [done |].
  apply wp_svc_bind. eapply (wp_mono _ _ (fun _ _ => True)).
  2: { destruct (_ && _); [| done]. destruct (negb _); [done |].
       apply wp_svc_bind, publication_wp. intros t [p | e] Hp; [| done]. cbn.
       split; [| by intros [x | e]]. exists current. split; [done | by apply Hp]. }
  intros h [[] | e] _; [| done]. cbn. split; [done |]. intros [[] | e]; cbn; [| done].
  split; [done |]. intros [d | e]; cbn; [| done].
  split; [done |]. intros now. split; [done |]. intros [x | e]; cbn; [done |].
  split; [done |]. intros x.
  destruct (String.eqb_spec (Repository_Visibility current) VisibilityPublic) as [Hv | _]; [| done].
  unfold ignore. apply wp_bind, wp_bind, wp_svc_bind, publication_wp.
  intros t [p | e'] Hp; [| done]. cbn. split; [| done]. exists current. split_and!; try done. by apply Hp.
Qed.

Lemma RestoreDeletion_public (id : UUID) :
  guarded (public_only (fun h v => exists t, Ev (store_RestoreDeletion id t) (Ok v) ∈ h))
    (RestoreDeletion service id).
Proof.
  apply (wp_guarded _ _ (fun _ _ => True)).
  unfold RestoreDeletion. destruct (negb _); [done |]. cbn. split; [done |].
  intros [d | e]; cbn; [| done]. destruct (negb _); [done |]. cbn. split; [done |].
  intros [[] | e]; cbn; [| done]. split; [done |]. intros now. split; [done |].
  intros [v | e]; cbn; [| done].
  destruct (String.eqb_spec (Repository_Visibility v) VisibilityPublic) as [Hv | _]; [| done].
  apply wp_svc_bind, publication_wp. intros t [p | e] Hp; [| done]. cbn. split.
  { exists v. split_and!; [exists (UTC now); set_solver | done | by apply Hp]. }
  intros [i | e]; cbn; [| done]. split; [done |]. intros [a | e]; cbn; [| done].
  split; [done |]. intros u. split; [done |]. by intros [x | e].
Qed.

(** C37: no operation publishes the record of a repository that is not public,
    and the record it publishes or removes is always that of the repository it
    acts on: the row just inserted, the current or the updated settings, the
    repository being deleted, or the one just restored. *)
Theorem publishes_public_only (input : CreateInput) (current : Repository)
    (settings : SettingsInput) (actor : string) (retention : Z) (id : UUID) :
  guarded (public_only (fun h v => exists w, Ev (store_Create w) (Ok v) ∈ h))
    (Create uuid_String service input) /\
  guarded (public_only (update_source current settings)) (Update service current settings) /\
  guarded (public_only (fun _ v => v = current)) (Delete service current actor retention) /\
  guarded (public_only (fun h v => exists t, Ev (store_RestoreDeletion id t) (Ok v) ∈ h))
    (RestoreDeletion service id).
Proof.
  split_and!; [apply Create_public | apply Update_public | apply Delete_public
              | apply RestoreDeletion_public].
Qed.

Definition stored_settings (current : Repository) (input : SettingsInput)
    (h : list (event effect)) (v : Repository) : Prop :=
  exists pre alias archived at_id t,
    h = pre ++ [Ev (UpdateSettings (ID current) input alias archived at_id t) (Ok v)].
Definition ends_with {X} (h : list (event effect)) (e : effect X) : Prop :=
  exists pre x, h = pre ++ [Ev e x].

Lemma update_body_stored current input h :
  wp (fun _ _ _ => True) (update_body service current input)
    (fun h' r => forall v, r = Ok v -> stored_settings current input h' v) h.
Proof.
  unfold update_body. cbn. split; [done |]. intros now.
  apply wp_svc_bind, wp_always. intros h' [at_id | e]; [| done].
  cbn. split; [done |]. intros [alias | e]; cbn.
  - split; [done |]. intros [v | e]; cbn.
    + intros w [= <-]. unfold stored_settings. repeat eexists.
    + by apply wp_bind, wp_always.
  - by apply wp_bind, wp_always.
Qed.


(** Whether git did what an event asked of it. *)
Definition git_done (ev : event effect) : bool :=
  match ev with
  | @Ev _ X e x =>
      match e in effect X return X -> bool with
      | git_SetDefaultBranch _ _ => fun r => is_Ok r
      | git_Quarantine _ => fun r => is_Ok r
      | git_Restore _ => fun r => is_Ok r
      | _ => fun _ => true
      end x
  end.
Ltac git_clash :=
  match goal with
  | H : @Ev _ _ _ _ = @Ev _ _ _ _ |- _ => by apply (f_equal git_done) in H
  end.

(** How a settings update, a deletion and a restoration end. *)
Definition update_outcome (current : Repository) (input : SettingsInput)
    (h : list (event effect)) (r : result Repository) : Prop :=
  match r with
  | Ok v => stored_settings current input h v
  | Err _ =>
      S_DefaultBranch input <> DefaultBranch current ->
      Ev (git_SetDefaultBranch (ID current) (S_DefaultBranch input)) (Ok tt) ∈ h ->
      ends_with h (git_SetDefaultBranch (ID current) (DefaultBranch current))
  end.
Definition delete_outcome (current : Repository) (actor : string) (retention : Z)
    (h : list (event effect)) (r : result Deletion) : Prop :=
  match r with
  | Ok d =>
      exists pre id t, Repository_State current = StateActive /\ 0 < retention /\
        Ev (git_Quarantine (ID current)) (Ok tt) ∈ pre /\ Ev Now t ∈ pre /\
        h = pre ++ [Ev (RequestDeletion (mkDeletion id (ID current) actor t (t + retention))) (Ok d)]
  | Err _ =>
      Ev (git_Quarantine (ID current)) (Ok tt) ∈ h ->
      exists pre x post, h = pre ++ Ev (git_Restore (ID current)) x :: post /\
        Ev (git_Quarantine (ID current)) (Ok tt) ∈ pre
  end.
Definition deletion_read (ev : event effect) : option Deletion :=
  match ev with
  | @Ev _ X e x =>
      match e in effect X return X -> option Deletion with
      | store_GetDeletion _ => fun r => match r with Ok d => Some d | Err _ => None end
      | _ => fun _ => None
      end x
  end.
Definition restore_outcome (id : UUID) (h : list (event effect)) (r : result Repository) : Prop :=
  forall d, d ∈ omap deletion_read h ->
  Ev (git_Restore (RepositoryID d)) (Ok tt) ∈ h ->
  (exists t v, Ev (store_RestoreDeletion id t) (Ok v) ∈ h) \/
  (exists e, r = Err e) /\ ends_with h (git_Quarantine (RepositoryID d)).

Lemma update_outcome_nil current input e : update_outcome current input [] (Err e).
Proof. by intros _ ?%elem_of_nil. Qed.

Lemma Update_compensates current input :
  ensures (update_outcome current input) (Update service current input).
Proof.
  apply (wp_ensures (fun _ _ _ => True)). unfold Update.
  destruct (_ != StateActive); [apply update_outcome_nil |].
  destruct (SettingsInput_Validate input); [| apply update_outcome_nil].
  destruct (negb _); [apply update_outcome_nil |]. destruct (negb _); [apply update_outcome_nil |].
  destruct (String.eqb_spec (S_DefaultBranch input) (DefaultBranch current)) as [Hb | Hb]; cbn.
  - apply wp_bind. eapply wp_mono, update_body_stored. intros h' [v | e] Hv; cbn; [by apply Hv |].
    by intros Hne.
  - split; [done |]. intros [[] | e]; cbn.
    + apply wp_bind. eapply wp_mono, update_body_stored.
      intros h' [v | e] Hv; cbn; [by apply Hv |]. split; [done |]. intros x _ _. by eexists _, _.
    + intros _ Hin%list_elem_of_singleton. git_clash.
Qed.

Lemma Delete_compensates current actor retention :
  ensures (delete_outcome current actor retention) (Delete service current actor retention).
Proof.
  apply (wp_ensures (fun _ _ _ => True)). unfold Delete.
  assert (Hnil : forall e, delete_outcome current actor retention [] (Err e)).
  { by intros e ?%elem_of_nil. }
  destruct (String.eqb_spec (Repository_State current) StateActive) as [Hs | _]; [| apply Hnil].
  cbn [negb]. destruct (Z.leb_spec retention 0) as [_ | Hr]; [apply Hnil |].
  destruct (negb _); [apply Hnil |]. destruct (negb _); [apply Hnil |].
  apply wp_svc_bind.
  apply (wp_mono _ _ (fun h _ => Ev (git_Quarantine (ID current)) (Ok tt) ∉ h)).
  2: { destruct (_ && _); [| by intros ?%elem_of_nil]. destruct (negb _); [by intros ?%elem_of_nil |].
       apply wp_svc_bind. unfold publication. destruct (For _ _) as [[web https] ssh].
       destruct (OrganizationID current); [destruct (negb _) |]; cbn;
       repeat match goal with
       | |- _ /\ _ => split; [done |]
       | |- forall _ : result _, _ => intros [? | ?]; cbn
       | |- _ ∉ _ => set_solver
       end. }
  intros h [[] | e] Hh; [| by intros ?%Hh]. cbn. split; [done |]. intros [[] | e]; cbn.
  - split; [done |]. intros [id | e]; cbn.
    + split; [done |]. intros now. split; [done |]. intros [d | e]; cbn.
      * eexists _, _, _. split_and!; [done .. | | | reflexivity]; set_solver.
      * split; [done |]. intros x. apply wp_bind, wp_always. intros t _ _.
        eexists _, x, _. split; [by rewrite <- app_assoc |]. set_solver.
    + split; [done |]. intros x _. eexists _, _, []. split; [reflexivity |]. set_solver.
  - intros [Hin | Hin%list_elem_of_singleton]%elem_of_app; [done | git_clash].
Qed.

Lemma RestoreDeletion_compensates id :
  ensures (restore_outcome id) (RestoreDeletion service id).
Proof.
  apply (wp_ensures (fun _ _ _ => True)). unfold RestoreDeletion.
  destruct (negb _); [by intros d ?%elem_of_nil |]. cbn. split; [done |].
  intros [d | e]; cbn; [| by intros d ?%elem_of_nil].
  destruct (negb _).
  { intros d' _ Hin%list_elem_of_singleton. by apply (f_equal deletion_read) in Hin. }
  cbn. split; [done |]. intros [[] | e]; cbn.
  2: { intros d' _ [Hin | Hin%list_elem_of_singleton]%elem_of_cons; [| git_clash].
       by apply (f_equal deletion_read) in Hin. }
  split; [done |]. intros now. split; [done |]. intros [v | e]; cbn.
  - destruct (_ == _); [| intros d' _ _; left; exists (UTC now), v; set_solver].
    apply wp_svc_bind, wp_always. intros t [p | e]; cbn.
    + split; [done |]. intros [i | e]; cbn; [| intros d' _ _; left; exists (UTC now), v; set_solver].
      split; [done |]. intros [a | e]; cbn; [| intros d' _ _; left; exists (UTC now), v; set_solver].
      split; [done |]. intros u. split; [done |].
      intros [x | e]; cbn; intros d' _ _; left; exists (UTC now), v; set_solver.
    + intros d' _ _. left. exists (UTC now), v. set_solver.
  - split; [done |]. intros x d' Hd _. apply list_elem_of_singleton in Hd as ->. right.
    split; [by eexists |]. by eexists [_; _; _; _], x.
Qed.

(** Metadata and git storage fail together: an update that fails puts
    back the branch it switched, as its last act; a deletion that fails after
    the quarantine restores the git data; a restoration whose metadata fails
    quarantines it again. One that succeeds ends with the change of the
    metadata it returns, a deletion of an active repository then being
    recoverable for exactly the retention asked for. *)
Theorem lifecycle_compensates (current : Repository) (input : SettingsInput) (actor : string)
    (retention : Z) (id : UUID) :
  ensures (update_outcome current input) (Update service current input) /\
  ensures (delete_outcome current actor retention) (Delete service current actor retention) /\
  ensures (restore_outcome id) (RestoreDeletion service id).
Proof.
  split_and!; [apply Update_compensates | apply Delete_compensates
              | apply RestoreDeletion_compensates].
Qed.
End operations.
End repository.
