(* ===== verification/RepositoryStore.v ===== *)
(** * RepositoryStore: the tables of [repositories.sql] with the git storage
    beside them, the purge worker, and the life of a deletion. *)

From stdpp Require Import pretty.
From S2P Require Import Prelude.
From S2P Require Import GoText.
From S2P Require Import Repository.

Module store.
Import repository.

(** ** The purge worker *)

Fixpoint purgeEach (deletions : list Deletion) : svc effect unit :=
  match deletions with
  | [] => done_ tt
  | deletion :: rest =>
      let? _ := wrapErr (wrapf "purge repository: %w") (call (git_Purge (RepositoryID deletion))) in
      let! now := call Now in
      let? _ := wrapErr (wrapf "complete repository purge: %w")
                  (call (MarkPurged (Deletion_ID deletion) (UTC now))) in
      purgeEach rest
  end.

(** The loop of [PurgeWorker.purge]; [None] when [fuel] pages were not enough. *)
Fixpoint purge (fuel : nat) (after : option UUID) : prog effect (option (result unit)) :=
  match fuel with
  | O => Ret None
  | S fuel =>
      let! now := call Now in
      let! deletions := call (ListDueDeletions (UTC now) after 100) in
      match deletions with
      | Err err => Ret (Some (Err (wrapf "list repository deletions due for purge: %w" err)))
      | Ok deletions =>
          let! purged := purgeEach deletions in
          match purged with
          | Err err => Ret (Some (Err err))
          | Ok _ =>
              if Z.of_nat (length deletions) <? 100 then Ret (Some (Ok tt))
              else purge fuel (option_map Deletion_ID (last deletions))
          end
      end
  end.

(** ** The tables, as the queries of [repositories.sql] read and write them *)

(** A row of [core.repositories]: the value made of it, and [deleted_at].
    Empty text stands for NULL, as the store converts it. *)
Record RepositoryRow := mkRepositoryRow { row_repository : Repository; DeletedAt : option time }.
Record DeletionRow := mkDeletionRow {
  row_deletion : Deletion; RestoredAt : option time; PurgedAt : option time
}.
Record AliasRow := mkAliasRow {
  Alias_ID : UUID; Alias_RepositoryID : UUID; OwnerAlias : string; SlugAlias : string
}.

(** [repositoryFromRow] loses the organization slug and the viewer's rights,
    which are not columns, and the upstream's endpoint. *)
Definition storedSource (source : ForkSource) : ForkSource :=
  mkForkSource (Fork_URI source) (Fork_CID source) EmptyString (LocalRepositoryID source).
Definition repositoryFromRow (row : RepositoryRow) : Repository := row_repository row.
Definition deletionFromRow (row : DeletionRow) : Deletion := row_deletion row.

(** [repositoryFromPageRow], with the [viewer_can_admin] the page computes. *)
Definition repositoryFromPageRow (row : RepositoryRow) (viewerCanAdmin : bool) : Repository :=
  let v := row_repository row in
  mkRepository (ID v) (OwnerDID v) (OrganizationID v) EmptyString (Slug v) (DisplayName v)
    (Description v) (Repository_Visibility v) (Repository_State v) (DefaultBranch v)
    (StorageKey v) (ATURI v) (ATCID v) (ForkedFrom v) (TransferredFrom v) (ForkCount v)
    viewerCanAdmin None (CreatedAt v) (UpdatedAt v).

(** [live] and [quarantined] are the repositories with git data at their path
    and in quarantine. *)
Record db := mkDb {
  repositories : list RepositoryRow; deletions : list DeletionRow; aliases : list AliasRow;
  organizations : gmap UUID string; live : gset UUID; quarantined : gset UUID;
  fresh : UUID; clock : time
}.
Definition set_tables (s : db) (rows : list RepositoryRow) (ds : list DeletionRow)
    (als : list AliasRow) : db :=
  mkDb rows ds als (organizations s) (live s) (quarantined s) (fresh s) (clock s).
Definition set_storage (s : db) (l q : gset UUID) : db :=
  mkDb (repositories s) (deletions s) (aliases s) (organizations s) l q (fresh s) (clock s).

Definition storage_error : error := New "repository storage".
Definition constraint_error : error := New "repository query: constraint violation".

Definition present (row : RepositoryRow) : bool := negb (is_some (DeletedAt row)).
Definition has_id (id : UUID) (row : RepositoryRow) : bool := ID (row_repository row) =? id.
Definition opens (row : DeletionRow) : bool :=
  negb (is_some (RestoredAt row)) && negb (is_some (PurgedAt row)).

Section tables.
Context (lower : string -> string) (world : forall X, effect X -> X).

(** The unique indexes a row shares with another: storage key, AT URI, and the
    slug among the present repositories of its account or organization. *)
Definition clashes (x y : RepositoryRow) : bool :=
  let a := row_repository x in
  let b := row_repository y in
  (StorageKey a == StorageKey b)
  || ((ATURI a != EmptyString) && (ATURI a == ATURI b))
  || (present x && present y && (lower (Slug a) == lower (Slug b))
      && match OrganizationID a, OrganizationID b with
         | None, None => OwnerDID a == OwnerDID b
         | Some o, Some o' => o =? o'
         | _, _ => false
         end).
(** Whether [row] may replace the row of its id. *)
Definition admissible (rows : list RepositoryRow) (row : RepositoryRow) : bool :=
  forallb (fun other => has_id (ID (row_repository row)) other || negb (clashes row other)) rows.

Definition set_state (state : State) (updatedAt : time) (v : Repository) : Repository :=
  mkRepository (ID v) (OwnerDID v) (OrganizationID v) (OrganizationSlug v) (Slug v)
    (DisplayName v) (Description v) (Repository_Visibility v) state (DefaultBranch v)
    (StorageKey v) (ATURI v) (ATCID v) (ForkedFrom v) (TransferredFrom v) (ForkCount v)
    (ViewerCanAdmin v) (ArchivedAt v) (CreatedAt v) updatedAt.
Definition set_identity (identity : option ATIdentity) (v : Repository) : Repository :=
  mkRepository (ID v) (OwnerDID v) (OrganizationID v) (OrganizationSlug v) (Slug v)
    (DisplayName v) (Description v) (Repository_Visibility v) (Repository_State v)
    (DefaultBranch v) (StorageKey v) (match identity with Some i => URI i | None => EmptyString end)
    (match identity with Some i => CID i | None => EmptyString end) (ForkedFrom v)
    (TransferredFrom v) (ForkCount v) (ViewerCanAdmin v) (ArchivedAt v) (CreatedAt v)
    (UpdatedAt v).
Definition set_settings (input : SettingsInput) (archivedAt : option time)
    (identity : option ATIdentity) (updatedAt : time) (v : Repository) : Repository :=
  set_identity identity
    (mkRepository (ID v) (OwnerDID v) (OrganizationID v) (OrganizationSlug v) (S_Slug input)
      (S_DisplayName input) (S_Description input) (S_Visibility input) (Repository_State v)
      (S_DefaultBranch input) (StorageKey v) (ATURI v) (ATCID v) (ForkedFrom v)
      (TransferredFrom v) (ForkCount v) (ViewerCanAdmin v) archivedAt (CreatedAt v) updatedAt).
Definition set_organization_slug (slug : string) (v : Repository) : Repository :=
  mkRepository (ID v) (OwnerDID v) (OrganizationID v) slug (Slug v) (DisplayName v)
    (Description v) (Repository_Visibility v) (Repository_State v) (DefaultBranch v)
    (StorageKey v) (ATURI v) (ATCID v) (ForkedFrom v) (TransferredFrom v) (ForkCount v)
    (ViewerCanAdmin v) (ArchivedAt v) (CreatedAt v) (UpdatedAt v).

Definition insertedRow (v : Repository) : RepositoryRow :=
  mkRepositoryRow (mkRepository (ID v) (OwnerDID v) (OrganizationID v) EmptyString (Slug v)
    (DisplayName v) (Description v) (Repository_Visibility v) (Repository_State v)
    (DefaultBranch v) (StorageKey v) (ATURI v) (ATCID v) (option_map storedSource (ForkedFrom v))
    None 0 false None (CreatedAt v) (UpdatedAt v)) None.

Definition withOrganizationSlug (s : db) (v : Repository) : result Repository :=
  match OrganizationID v with
  | None => Ok v
  | Some id => match organizations s !! id with
               | Some slug => Ok (set_organization_slug slug v)
               | None => Err ErrNotFound
               end
  end.

(** Replaces the row [row] of [core.repositories] by what [update] makes of it,
    if the unique indexes allow that. *)
Definition replace_row (s : db) (row : RepositoryRow) (update : Repository -> Repository)
    (als : list AliasRow) : result Repository * db :=
  let row' := mkRepositoryRow (update (row_repository row)) (DeletedAt row) in
  if negb (admissible (repositories s) row') then (Err ErrAlreadyExists, s) else
  (Ok (row_repository row'),
   set_tables s (update_where (has_id (ID (row_repository row))) (fun _ => row') (repositories s))
     (deletions s) als).

Definition due (now : time) (row : DeletionRow) : bool :=
  opens row && (PurgeAfter (row_deletion row) <=? now).
Definition due_key (row : DeletionRow) : time * UUID :=
  (PurgeAfter (row_deletion row), Deletion_ID (row_deletion row)).
Definition key_lt (x y : time * UUID) : bool :=
  (fst x <? fst y) || ((fst x =? fst y) && (snd x <? snd y)).
Definition key_le (x y : DeletionRow) : Prop := key_lt (due_key y) (due_key x) = false.
#[export] Instance key_le_dec : RelDecision key_le.
Proof. intros x y. unfold key_le. apply _. Defined.

(** [WHERE due AND (purge_after, id) > cursor ORDER BY purge_after, id LIMIT]. *)
Definition dueRows (now : time) (after : option UUID) (limit : Z) (rows : list DeletionRow)
    : list DeletionRow :=
  let eligible := List.filter (due now) rows in
  let eligible :=
    match after with
    | None => eligible
    | Some id =>
        match List.find (fun row => Deletion_ID (row_deletion row) =? id) rows with
        | None => []
        | Some cursor => List.filter (fun row => key_lt (due_key cursor) (due_key row)) eligible
        end
    end in
  firstn (Z.to_nat limit) (merge_sort key_le eligible).

Definition handle X (e : effect X) (s : db) : X * db :=
  match e in effect X return X * db with
  | store_Create v =>
      let row := insertedRow v in
      if existsb (has_id (ID v)) (repositories s) || negb (admissible (repositories s) row)
      then (Err ErrAlreadyExists, s)
      else if negb (slugPattern (Slug v)) then (Err constraint_error, s)
      else (Ok (set_organization_slug (OrganizationSlug v) (row_repository row)),
            set_tables s (repositories s ++ [row]) (deletions s) (aliases s))
  | UpdateState id state updatedAt =>
      match find_row ErrNotFound (fun row => has_id id row && present row) (repositories s) with
      | Err e => (Err e, s)
      | Ok row => replace_row s row (set_state state updatedAt) (aliases s)
      end
  | Activate id identity updatedAt =>
      match find_row ErrNotFound (fun row => has_id id row && present row) (repositories s) with
      | Err e => (Err e, s)
      | Ok row => replace_row s row
                    (fun v => set_identity identity (set_state StateActive updatedAt v)) (aliases s)
      end
  | UpdateSettings id input aliasID archivedAt identity updatedAt =>
      match find_row ErrNotFound (fun row => has_id id row && present row
                                 && (Repository_State (row_repository row) == StateActive))
              (repositories s) with
      | Err e => (Err e, s)
      | Ok row =>
          let slug := Slug (row_repository row) in
          let taken := existsb (fun a => (lower (OwnerAlias a) == lower (S_OwnerAlias input))
                                         && (lower (SlugAlias a) == lower slug)) (aliases s) in
          let inserts := (lower slug != lower (S_Slug input)) && negb taken in
          if inserts && existsb (fun a => Alias_ID a =? aliasID) (aliases s)
          then (Err ErrAlreadyExists, s)
          else if negb (slugPattern (S_Slug input)) then (Err constraint_error, s) else
          let als := if inserts
                     then aliases s ++ [mkAliasRow aliasID id (S_OwnerAlias input) slug]
                     else aliases s in
          let '(r, s') := replace_row s row (set_settings input archivedAt identity updatedAt) als in
          (mbind (withOrganizationSlug s) r, s')
      end
  | RequestDeletion d =>
      match find_row ErrNotFound (fun row => has_id (RepositoryID d) row && present row
                                 && (Repository_State (row_repository row) == StateActive))
              (repositories s) with
      | Err e => (Err e, s)
      | Ok row =>
          if existsb (fun other => (RepositoryID (row_deletion other) =? RepositoryID d)
                       || (Deletion_ID (row_deletion other) =? Deletion_ID d)) (deletions s)
          then (Err ErrAlreadyExists, s)
          else if PurgeAfter d <=? RequestedAt d then (Err constraint_error, s) else
          (Ok d,
           set_tables s
             (update_where (has_id (RepositoryID d))
                (fun row => mkRepositoryRow
                   (set_state StateDeleting (RequestedAt d) (row_repository row)) (DeletedAt row))
                (repositories s))
             (deletions s ++ [mkDeletionRow d None None]) (aliases s))
      end
  | store_GetDeletion id =>
      (deletionFromRow <$> find_row ErrNotFound
         (fun d => (Deletion_ID (row_deletion d) =? id) && opens d
                   && existsb (has_id (RepositoryID (row_deletion d))) (repositories s))
         (deletions s), s)
  | store_RestoreDeletion id restoredAt =>
      let hit d := (Deletion_ID (row_deletion d) =? id) && opens d
                   && (restoredAt <? PurgeAfter (row_deletion d)) in
      match find_row ErrNotFound hit (deletions s) with
      | Err e => (Err e, s)
      | Ok d =>
          let ds := update_where hit
                      (fun d => mkDeletionRow (row_deletion d) (Some restoredAt) (PurgedAt d))
                      (deletions s) in
          let rows := update_where (has_id (RepositoryID (row_deletion d)))
                        (fun row => mkRepositoryRow
                           (set_state StateActive restoredAt (row_repository row)) (DeletedAt row))
                        (repositories s) in
          (mbind (fun row => withOrganizationSlug s (repositoryFromRow row))
             (find_row ErrNotFound (has_id (RepositoryID (row_deletion d))) rows),
           set_tables s rows ds (aliases s))
      end
  | ListDueDeletions now after limit =>
      (Ok (map deletionFromRow (dueRows now after limit (deletions s))), s)
  | MarkPurged id purgedAt =>
      let hit d := (Deletion_ID (row_deletion d) =? id) && opens d in
      let purged := map (fun d => RepositoryID (row_deletion d))
                      (List.filter hit (deletions s)) in
      (Ok tt,
       set_tables s
         (update_where (fun row => existsb (fun r => has_id r row) purged)
            (fun row => mkRepositoryRow
               (set_state StateDeleted purgedAt (row_repository row)) (Some purgedAt))
            (repositories s))
         (update_where hit (fun d => mkDeletionRow (row_deletion d) (RestoredAt d) (Some purgedAt))
            (deletions s)) (aliases s))
  | git_Init id branch =>
      match world _ (git_Init id branch) with
      | Err e => (Err e, s)
      | Ok _ => (Ok tt, set_storage s ({[id]} ∪ live s) (quarantined s))
      end
  | git_Fork id source branch =>
      match world _ (git_Fork id source branch) with
      | Err e => (Err e, s)
      | Ok _ => (Ok tt, set_storage s ({[id]} ∪ live s) (quarantined s))
      end
  | git_Quarantine id =>
      if bool_decide (id ∈ live s) && negb (bool_decide (id ∈ quarantined s))
      then (Ok tt, set_storage s (live s ∖ {[id]}) ({[id]} ∪ quarantined s))
      else (Err storage_error, s)
  | git_Restore id =>
      if bool_decide (id ∈ quarantined s) && negb (bool_decide (id ∈ live s))
      then (Ok tt, set_storage s ({[id]} ∪ live s) (quarantined s ∖ {[id]}))
      else (Err storage_error, s)
  | git_Purge id => (Ok tt, set_storage s (live s) (quarantined s ∖ {[id]}))
  | Now => (clock s, s)
  | NewID => (Ok (fresh s), mkDb (repositories s) (deletions s) (aliases s) (organizations s)
                              (live s) (quarantined s) (fresh s + 1) (clock s))
  | e => (world _ e, s)
  end.

End tables.

(** ** What the tables can go through *)

(** The queries the code issues: rows are inserted as being created, and the
    only state set directly is [failed]. *)
Definition issued X (e : effect X) : Prop :=
  match e with
  | store_Create v => Repository_State v = StateCreating
  | UpdateState _ state _ => state = StateFailed
  | _ => True
  end.

Section history.
Context (lower : string -> string) (world : forall X, effect X -> X).

(** The columns of [core.repositories] that nobody but this package writes.  The projection
    of federated events recounts the forks of a repository (federation.sql,
    [RecomputeFederationForkCount] and the reconciliation of lineages), and the completion of
    a transfer changes its owner, its record and where it came from, and adds aliases
    (transfers.sql, [CompleteRepositoryTransfer], [CompletePrivateRepositoryTransfer]);
    neither asks whether the repository is deleted. *)
Definition own_columns (row : RepositoryRow) :=
  let v := row_repository row in
  (ID v, Slug v, DisplayName v, Description v, Repository_Visibility v, Repository_State v,
   DefaultBranch v, StorageKey v, ForkedFrom v, ArchivedAt v, CreatedAt v, DeletedAt row).

(** One query, one git or provider call, what another package does to the same tables, or
    the passing of time; those of any number of concurrent requests and workers, in any
    order. *)
Inductive step : db -> db -> Prop :=
| step_effect X (e : effect X) x s s' :
    issued X e -> handle lower world X e s = (x, s') -> step s s'
| step_others s rows als :
    Forall2 (fun row row' => own_columns row' = own_columns row) (repositories s) rows ->
    step s (set_tables s rows (deletions s) als)
| step_time s t :
    step s (mkDb (repositories s) (deletions s) (aliases s) (organizations s) (live s)
              (quarantined s) (fresh s) t).

Definition row_id (row : RepositoryRow) : UUID := ID (row_repository row).
Definition deletion_id (d : DeletionRow) : UUID := Deletion_ID (row_deletion d).
Definition deletion_repository (d : DeletionRow) : UUID := RepositoryID (row_deletion d).

Definition deletion_ok (d : DeletionRow) : Prop :=
  RequestedAt (row_deletion d) < PurgeAfter (row_deletion d) /\
  (forall t, RestoredAt d = Some t -> t < PurgeAfter (row_deletion d)) /\
  (RestoredAt d = None \/ PurgedAt d = None).

(** A repository is marked deleted exactly when, and at the time that, its
    deletion was purged. *)
Definition row_ok (ds : list DeletionRow) (row : RepositoryRow) : Prop :=
  (Repository_State (row_repository row) = StateDeleted <-> DeletedAt row <> None) /\
  forall t, DeletedAt row = Some t <->
    exists d, d ∈ ds /\ deletion_repository d = row_id row /\ PurgedAt d = Some t.

Definition tables_ok (rows : list RepositoryRow) (ds : list DeletionRow) : Prop :=
  NoDup (map row_id rows) /\ NoDup (map deletion_id ds) /\ NoDup (map deletion_repository ds) /\
  (forall d, d ∈ ds -> exists row, row ∈ rows /\ row_id row = deletion_repository d) /\
  Forall deletion_ok ds /\ Forall (row_ok ds) rows.

(** What a step does to the rows: those deleted keep the columns of this package; the
    deletions restored or purged stay as they are. *)
Definition row_later (row row' : RepositoryRow) : Prop :=
  row_id row' = row_id row /\ (DeletedAt row <> None -> own_columns row' = own_columns row).
Definition deletion_later (d d' : DeletionRow) : Prop :=
  row_deletion d' = row_deletion d /\ (opens d = false -> d' = d).
Definition tables_later (rows rows' : list RepositoryRow) (ds ds' : list DeletionRow) : Prop :=
  (forall row, row ∈ rows -> exists row', row' ∈ rows' /\ row_later row row') /\
  (forall d, d ∈ ds -> exists d', d' ∈ ds' /\ deletion_later d d').

#[export] Instance row_later_preorder : PreOrder row_later.
Proof.
  split; [by intros r; split |]. intros r1 r2 r3 [H12 K12] [H23 K23].
  split; [congruence |]. intros Hd. rewrite K23; [by apply K12 |].
  replace (DeletedAt r2) with (DeletedAt r1); [done |].
  specialize (K12 Hd). unfold own_columns in K12. congruence.
Qed.
#[export] Instance deletion_later_preorder : PreOrder deletion_later.
Proof.
  split; [by intros r; split |]. intros r1 r2 r3 [H12 K12] [H23 K23].
  split; [congruence |]. intros Hd. rewrite K23; [by apply K12 |]. by rewrite K12.
Qed.

(** A change of the columns of others, or of present rows that deletes none of them. *)
Definition soft (row row' : RepositoryRow) : Prop :=
  own_columns row' = own_columns row \/
  (row_id row' = row_id row /\ DeletedAt row = None /\ DeletedAt row' = None /\
   Repository_State (row_repository row') <> StateDeleted).

Lemma soft_later row row' : soft row row' -> row_later row row'.
Proof.
  intros [Heq | (Hid & Hd & _)]; [| by split; [| rewrite Hd]]. split; [| done].
  unfold own_columns in Heq. unfold row_id. congruence.
Qed.

Lemma soft_ok ds row row' : soft row row' -> row_ok ds row -> row_ok ds row'.
Proof.
  intros [Heq | (Hid & Hd & Hd' & Hs)] [Hst Hp].
  { assert (DeletedAt row' = DeletedAt row /\ row_id row' = row_id row /\
      Repository_State (row_repository row') = Repository_State (row_repository row)) as (Hd & Hid & Hs).
    { unfold own_columns in Heq. unfold row_id. split_and!; congruence. }
    split; [by rewrite Hs, Hd |]. intros t. by rewrite Hd, Hid. }
  split; [rewrite Hd'; split; [done | by intros []] |].
  intros t. rewrite Hd', Hid, <- Hp, Hd. done.
Qed.

(** Softly changed rows leave everything as it was. *)
Lemma soft_tables rows rows' ds :
  Forall2 soft rows rows' -> tables_ok rows ds ->
  tables_ok rows' ds /\ tables_later rows rows' ds ds.
Proof.
  intros HF (Hr & Hd & Hdr & Hfk & Hds & Hrs).
  assert (Hids : map row_id rows' = map row_id rows).
  { eapply Forall2_map_eq; [| exact HF]. intros x y Hs%soft_later. apply Hs. }
  split.
  - split_and!; try done; [by rewrite Hids | |].
    + intros d Hin. destruct (Hfk d Hin) as (row & Hrow & Hid).
      destruct (Forall2_exists_l _ _ _ _ HF Hrow) as (row' & Hrow' & Hs%soft_later).
      exists row'. split; [done |]. rewrite <- Hid. apply Hs.
    + clear -HF Hrs. induction HF as [| x y l k Hs _ IH]; [constructor |].
      apply Forall_cons in Hrs as [Hx Hl]. constructor; [by eapply soft_ok | by apply IH].
  - split; [| intros d Hin; by exists d].
    intros row Hrow. destruct (Forall2_exists_l _ _ _ _ HF Hrow) as (row' & Hrow' & Hs%soft_later).
    by exists row'.
Qed.

(** A repository whose deletion is open is present. *)
Lemma open_present rows ds d row :
  tables_ok rows ds -> d ∈ ds -> opens d = true -> row ∈ rows ->
  row_id row = deletion_repository d -> DeletedAt row = None.
Proof.
  intros (_ & _ & Hdr & _ & _ & Hrs) Hd Ho Hrow Hid.
  destruct (DeletedAt row) as [t |] eqn:Ht; [| done]. exfalso.
  rewrite Forall_forall in Hrs. apply (Hrs row Hrow) in Ht as (d' & Hd' & Hid' & Hp).
  assert (d' = d) as ->. { eapply NoDup_map_inj; [exact Hdr | done | done | congruence]. }
  unfold opens in Ho. rewrite Hp, andb_false_r in Ho. done.
Qed.

Lemma replace_row_soft s row update als r s' :
  NoDup (map row_id (repositories s)) -> row ∈ repositories s -> DeletedAt row = None ->
  ID (update (row_repository row)) = row_id row ->
  Repository_State (update (row_repository row)) <> StateDeleted ->
  replace_row lower s row update als = (r, s') ->
  Forall2 soft (repositories s) (repositories s') /\ deletions s' = deletions s.
Proof.
  intros Hnd Hrow Hd Hid Hst. unfold replace_row. destruct (negb _).
  { intros [= _ <-]. split; [| done]. apply Forall_Forall2_diag, Forall_forall. by left. }
  intros [= _ <-]. split; [| done]. cbn. apply update_where_Forall2; [| by left].
  intros r0 Hr0 Hh%Z.eqb_eq. right.
  assert (r0 = row) as ->. { eapply NoDup_map_inj; [exact Hnd | done | done | done]. }
  split_and!; try done.
Qed.

Lemma present_None row : present row = true -> DeletedAt row = None.
Proof. unfold present. by destruct (DeletedAt row). Qed.

Lemma insert_tables rows ds row :
  tables_ok rows ds -> (forall r, r ∈ rows -> row_id r <> row_id row) ->
  DeletedAt row = None -> Repository_State (row_repository row) <> StateDeleted ->
  tables_ok (rows ++ [row]) ds /\ tables_later rows (rows ++ [row]) ds ds.
Proof.
  intros (Hr & Hd & Hdr & Hfk & Hds & Hrs) Hnew Hnone Hst. split.
  - split_and!; try done.
    + rewrite map_app. apply NoDup_app. split_and!; [done | | apply NoDup_singleton].
      intros x (r & -> & Hin)%list_elem_of_fmap Hx%list_elem_of_singleton. by eapply Hnew.
    + intros d Hin. destruct (Hfk d Hin) as (r & Hrin & Hid). exists r. set_solver.
    + apply Forall_app. split; [done |]. constructor; [| constructor]. split.
      * rewrite Hnone. split; [by intros ?%Hst | done].
      * intros t. rewrite Hnone. split; [done |]. intros (d & Hin & Hid & _).
        destruct (Hfk d Hin) as (r & Hrin & Hrid). exfalso. eapply Hnew; [exact Hrin |]. congruence.
  - split; [| intros d Hin; by exists d]. intros r Hin. exists r. set_solver.
Qed.

(** Deletion rows changed without purging any. *)
Lemma row_ok_deletions ds ds' row :
  Forall2 (fun d d' => deletion_repository d' = deletion_repository d /\ PurgedAt d' = PurgedAt d)
    ds ds' -> row_ok ds row -> row_ok ds' row.
Proof.
  intros HF [Hs Hp]. split; [done |]. intros t. rewrite Hp. split.
  - intros (d & Hd & Hid & Ht). destruct (Forall2_exists_l _ _ _ _ HF Hd) as (d' & Hd' & Hr & Hpu).
    exists d'. split_and!; congruence.
  - apply Forall2_flip in HF. intros (d & Hd & Hid & Ht).
    destruct (Forall2_exists_l _ _ _ _ HF Hd) as (d' & Hd' & Hr & Hpu).
    exists d'. cbn in *. split_and!; congruence.
Qed.

Lemma request_tables rows ds d :
  tables_ok rows ds -> PurgedAt d = None -> deletion_ok d ->
  (exists row, row ∈ rows /\ row_id row = deletion_repository d) ->
  (forall d', d' ∈ ds -> deletion_repository d' <> deletion_repository d /\
                         deletion_id d' <> deletion_id d) ->
  tables_ok rows (ds ++ [d]) /\ tables_later rows rows ds (ds ++ [d]).
Proof.
  intros (Hr & Hd & Hdr & Hfk & Hds & Hrs) Hp Hok Hex Hnew. split.
  - split_and!; try done.
    + rewrite map_app. apply NoDup_app. split_and!; [done | | apply NoDup_singleton].
      intros x (d' & -> & Hin)%list_elem_of_fmap Hx%list_elem_of_singleton.
      destruct (Hnew d' Hin); congruence.
    + rewrite map_app. apply NoDup_app. split_and!; [done | | apply NoDup_singleton].
      intros x (d' & -> & Hin)%list_elem_of_fmap Hx%list_elem_of_singleton.
      destruct (Hnew d' Hin); congruence.
    + intros d' [Hin | ->%list_elem_of_singleton]%elem_of_app; [by apply Hfk | done].
    + apply Forall_app. split; [done |]. by constructor.
    + eapply Forall_impl; [exact Hrs |]. intros row [Hs Hiff]. split; [done |]. intros t.
      rewrite Hiff. split; intros (d' & Hin & Hid & Ht); exists d'; [set_solver |].
      apply elem_of_app in Hin as [Hin | ->%list_elem_of_singleton]; [done | congruence].
  - split; [intros r Hin; by exists r |]. intros d' Hin. exists d'. set_solver.
Qed.

(** Restoring a deletion before its deadline. *)
Lemma restore_tables rows ds hit restoredAt :
  (forall d, hit d = true -> opens d = true /\ restoredAt < PurgeAfter (row_deletion d)) ->
  tables_ok rows ds ->
  let ds' := update_where hit
    (fun d => mkDeletionRow (row_deletion d) (Some restoredAt) (PurgedAt d)) ds in
  tables_ok rows ds' /\ tables_later rows rows ds ds'.
Proof.
  intros Hhit (Hr & Hd & Hdr & Hfk & Hds & Hrs). cbv zeta.
  set (update := fun d : DeletionRow => _).
  assert (HF : Forall2 (fun d d' => row_deletion d' = row_deletion d /\ PurgedAt d' = PurgedAt d)
                 ds (update_where hit update ds)).
  { by apply update_where_Forall2. }
  assert (Hids : map deletion_id (update_where hit update ds) = map deletion_id ds /\
                 map deletion_repository (update_where hit update ds) = map deletion_repository ds).
  { split; (eapply Forall2_map_eq; [| exact HF]); unfold deletion_id, deletion_repository; cbn;
      by intros x y [-> _]. }
  split.
  - split_and!; [done | by rewrite (proj1 Hids) | by rewrite (proj2 Hids) | | |].
    + intros d' Hin. apply Forall2_flip in HF.
      destruct (Forall2_exists_l _ _ _ _ HF Hin) as (d & Hin' & Heq & _). cbn in Heq.
      unfold deletion_repository. rewrite Heq. by apply Hfk.
    + unfold update_where. apply Forall_map. eapply Forall_impl; [exact Hds |]. intros d Hok.
      destruct (hit d) eqn:Hh; [| done]. apply Hhit in Hh as [Ho Hlt].
      destruct Hok as (Hw & _ & _). split_and!; [done | by intros t [= <-] |]. right. cbn.
      unfold opens in Ho. by destruct (PurgedAt d); [rewrite andb_false_r in Ho |].
    + eapply Forall_impl; [exact Hrs |]. intros row. apply row_ok_deletions.
      eapply Forall2_impl; [exact HF |]. unfold deletion_repository. cbn. by intros d d' [-> ->].
  - split; [intros r Hin; by exists r |]. intros d Hin.
    exists (if hit d then update d else d). split.
    + unfold update_where. apply list_elem_of_fmap. by exists d.
    + destruct (hit d) eqn:Hh; [| done]. split; [done |]. apply Hhit in Hh as [-> _]. done.
Qed.

(** Purging the open deletion of an id deletes its repository. *)
Lemma purge_tables rows ds id purgedAt :
  tables_ok rows ds ->
  let hit d := (deletion_id d =? id) && opens d in
  let purged := map deletion_repository (List.filter hit ds) in
  let rows' := update_where (fun row => existsb (fun r => has_id r row) purged)
    (fun row => mkRepositoryRow (set_state StateDeleted purgedAt (row_repository row))
                  (Some purgedAt)) rows in
  let ds' := update_where hit
    (fun d => mkDeletionRow (row_deletion d) (RestoredAt d) (Some purgedAt)) ds in
  tables_ok rows' ds' /\ tables_later rows rows' ds ds'.
Proof.
  intros Hok. pose proof Hok as (Hr & Hd & Hdr & Hfk & Hds & Hrs). cbv zeta.
  set (hit := fun d => _ && _). set (purged := map _ (List.filter _ _)).
  set (hitr := fun row : RepositoryRow => existsb _ purged). set (upd := fun row : RepositoryRow => _).
  set (updd := fun d : DeletionRow => _).
  assert (Hhitr : forall row, hitr row = true <->
            exists d, d ∈ ds /\ hit d = true /\ deletion_repository d = row_id row).
  { intros row. unfold hitr, purged. rewrite existsb_exists. split.
    - intros (x & (d & <- & Hin)%in_map_iff & Heq%Z.eqb_eq). apply filter_In in Hin as [Hin Hh].
      exists d. split_and!; [by apply list_elem_of_In | done | by rewrite <- Heq].
    - intros (d & Hin & Hh & Heq). exists (deletion_repository d). split.
      + apply in_map_iff. exists d. split; [done |]. apply filter_In. by apply list_elem_of_In in Hin.
      + unfold has_id. rewrite Heq. apply Z.eqb_refl. }
  assert (Hopen : forall d, hit d = true -> opens d = true) by (by intros d [_ ?]%andb_true_iff).
  assert (Hupd : forall row, row_id (upd row) = row_id row) by done.
  assert (Hupdd : forall d, deletion_repository (updd d) = deletion_repository d) by done.
  split; [split_and! |].
  - replace (map row_id _) with (map row_id rows); [done |]. unfold update_where.
    rewrite map_map. apply map_ext. intros r. by destruct (hitr r).
  - replace (map deletion_id _) with (map deletion_id ds); [done |]. unfold update_where.
    rewrite map_map. apply map_ext. intros d. by destruct (hit d).
  - replace (map deletion_repository _) with (map deletion_repository ds); [done |].
    unfold update_where. rewrite map_map. apply map_ext. intros d. by destruct (hit d).
  - intros d' (d & -> & Hin)%list_elem_of_fmap. destruct (Hfk d Hin) as (row & Hrow & Hid).
    exists (if hitr row then upd row else row). split; [apply list_elem_of_fmap; by exists row |].
    by destruct (hitr row), (hit d).
  - unfold update_where. apply Forall_map. eapply Forall_impl; [exact Hds |]. intros d Hdok.
    destruct (hit d) eqn:Hh; [| done]. apply Hopen in Hh. destruct Hdok as (Hw & Hre & _).
    split_and!; [done .. |]. left. cbn. unfold opens in Hh. by destruct (RestoredAt d).
  - unfold update_where at 2. apply Forall_map, Forall_forall. intros row Hrow.
    rewrite Forall_forall in Hrs. specialize (Hrs row Hrow) as [Hst Hiff].
    destruct (hitr row) eqn:Hh.
    + apply Hhitr in Hh as (d & Hin & Hh & Hid). split; [by cbn |]. cbn. intros t. split.
      * intros [= <-]. exists (updd d). split_and!; [| done | done].
        apply list_elem_of_fmap. exists d. by rewrite Hh.
      * intros (d' & (d0 & -> & Hin0)%list_elem_of_fmap & Hid' & Hp).
        assert (d0 = d) as ->.
        { eapply NoDup_map_inj; [exact Hdr | done | done |].
          rewrite Hid. change (deletion_repository (if hit d0 then updd d0 else d0) = row_id row) in Hid'.
          destruct (hit d0); exact Hid'. }
        rewrite Hh in Hp. cbn in Hp. congruence.
    + split; [done |]. intros t. rewrite Hiff. split.
      * intros (d & Hin & Hid & Hp). exists d. split_and!; try done.
        apply list_elem_of_fmap. exists d. split; [| done]. destruct (hit d) eqn:Hhd; [| done].
        apply Hopen in Hhd. unfold opens in Hhd. by rewrite Hp, andb_false_r in Hhd.
      * intros (d' & (d & -> & Hin)%list_elem_of_fmap & Hid & Hp). destruct (hit d) eqn:Hhd.
        -- assert (hitr row = true); [| congruence]. apply Hhitr. by exists d.
        -- by exists d.
  - split.
    + intros row Hrow. exists (if hitr row then upd row else row).
      split; [apply list_elem_of_fmap; by exists row |]. destruct (hitr row) eqn:Hh; [| done].
      apply Hhitr in Hh as (d & Hin & Hh & Hid). split; [done |]. intros []. 
      eapply open_present; [exact Hok | exact Hin | by apply Hopen | done | done].
    + intros d Hin. exists (if hit d then updd d else d).
      split; [apply list_elem_of_fmap; by exists d |]. destruct (hit d) eqn:Hh; [| done].
      split; [done |]. rewrite (Hopen d Hh). done.
Qed.

Definition consistent (s : db) : Prop := tables_ok (repositories s) (deletions s).
Definition later (s s' : db) : Prop :=
  tables_later (repositories s) (repositories s') (deletions s) (deletions s').

#[export] Instance later_preorder : PreOrder later.
Proof.
  split.
  - intros s. split; [intros r Hr; by exists r | intros d Hd; by exists d].
  - intros s1 s2 s3 [R12 D12] [R23 D23]. split.
    + intros r Hr. destruct (R12 r Hr) as (r2 & Hr2 & H12). destruct (R23 r2 Hr2) as (r3 & Hr3 & H23).
      exists r3. split; [done |]. by transitivity r2.
    + intros d Hd. destruct (D12 d Hd) as (d2 & Hd2 & H12). destruct (D23 d2 Hd2) as (d3 & Hd3 & H23).
      exists d3. split; [done |]. by transitivity d2.
Qed.

Lemma same_tables s s' :
  repositories s' = repositories s -> deletions s' = deletions s ->
  consistent s -> consistent s' /\ later s s'.
Proof.
  intros Hr Hd Hs. unfold consistent, later. rewrite Hr, Hd. split; [done |].
  split; [intros r Hin; by exists r | intros d Hin; by exists d].
Qed.

Lemma soft_step s s' :
  consistent s -> Forall2 soft (repositories s) (repositories s') /\ deletions s' = deletions s ->
  consistent s' /\ later s s'.
Proof. intros Hs [HF Hd]. unfold consistent, later. rewrite Hd. by apply soft_tables. Qed.

Lemma UpdateSettings_soft s id input aliasID archivedAt identity updatedAt r s' :
  consistent s ->
  handle lower world _ (UpdateSettings id input aliasID archivedAt identity updatedAt) s = (r, s') ->
  Forall2 soft (repositories s) (repositories s') /\ deletions s' = deletions s.
Proof.
  intros Hs. cbn.
  assert (Hsame : forall e : db, e = s ->
    Forall2 soft (repositories s) (repositories e) /\ deletions e = deletions s).
  { intros e ->. split; [| done]. apply Forall_Forall2_diag, Forall_forall. by left. }
  destruct (find_row _ _ (repositories s)) as [row | e] eqn:Hf; [| by intros [= _ <-]; apply Hsame].
  apply find_row_Ok in Hf as [Hin [[Hid Hp]%andb_true_iff Hst]%andb_true_iff].
  apply String.eqb_eq in Hst.
  destruct (_ && _); [by intros [= _ <-]; apply Hsame |].
  destruct (negb _); [by intros [= _ <-]; apply Hsame |].
  destruct (replace_row _ _ _ _ _) as [r1 s1] eqn:Hrep. intros [= _ <-].
  eapply replace_row_soft in Hrep; [exact Hrep | apply Hs | exact Hin | by apply present_None | done |].
  cbn. by rewrite Hst.
Qed.

Lemma RequestDeletion_step s d r s' :
  consistent s -> handle lower world _ (RequestDeletion d) s = (r, s') ->
  consistent s' /\ later s s'.
Proof.
  intros Hs. cbn.
  destruct (find_row _ _ (repositories s)) as [row | e] eqn:Hf;
    [| by intros [= _ <-]; apply same_tables].
  apply find_row_Ok in Hf as [Hin [[Hid Hp]%andb_true_iff Hst]%andb_true_iff].
  apply String.eqb_eq in Hst. apply Z.eqb_eq in Hid.
  destruct (existsb _ (deletions s)) eqn:Hex; [by intros [= _ <-]; apply same_tables |].
  destruct (Z.leb_spec (PurgeAfter d) (RequestedAt d)) as [_ | Hw];
    [by intros [= _ <-]; apply same_tables |].
  intros [= _ <-]. cbn [set_tables].
  set (rows' := update_where _ _ (repositories s)).
  assert (HF : Forall2 soft (repositories s) rows').
  { apply update_where_Forall2; [| by left]. intros r0 Hr0 Hh%Z.eqb_eq. right.
    assert (r0 = row) as ->.
    { eapply (NoDup_map_inj row_id); [apply Hs | done | done |]. unfold row_id. congruence. }
    apply present_None in Hp. by split_and!. }
  destruct (soft_tables _ _ _ HF Hs) as [Hok [Hl _]].
  destruct (request_tables rows' (deletions s) (mkDeletionRow d None None)) as [Hok' [_ Hl']];
    [done | done | | | |].
  - split_and!; [done | done | by left].
  - destruct (Forall2_exists_l _ _ _ _ HF Hin) as (row' & Hrow' & Hsoft%soft_later).
    exists row'. split; [done |]. destruct Hsoft as [-> _]. exact Hid.
  - intros d' Hd'. pose proof (proj1 (Forall_forall _ _) (proj1 (existsb_false _ _) Hex) d' Hd') as [Hn1 Hn2]%orb_false_iff.
    apply Z.eqb_neq in Hn1, Hn2. by split.
  - split; [exact Hok' |]. by split.
Qed.

Lemma RestoreDeletion_step s id t r s' :
  consistent s -> handle lower world _ (store_RestoreDeletion id t) s = (r, s') ->
  consistent s' /\ later s s'.
Proof.
  intros Hs. cbn. set (hit := fun d : DeletionRow => _ && _ && _).
  destruct (find_row ErrNotFound hit (deletions s)) as [d | e] eqn:Hf;
    [| by intros [= _ <-]; apply same_tables].
  intros [= _ <-]. cbn [set_tables].
  apply find_row_Ok in Hf as [Hin Hh].
  assert (Hhit : forall d, hit d = true -> opens d = true /\ t < PurgeAfter (row_deletion d)).
  { intros d0 [[_ Ho]%andb_true_iff Hlt%Z.ltb_lt]%andb_true_iff. done. }
  set (rows' := update_where _ _ (repositories s)).
  assert (HF : Forall2 soft (repositories s) rows').
  { apply update_where_Forall2; [| by left]. intros row Hrow Hid%Z.eqb_eq. right.
    assert (DeletedAt row = None) as Hnone.
    { eapply open_present; [exact Hs | exact Hin | by apply Hhit | done | done]. }
    by split_and!. }
  destruct (soft_tables _ _ _ HF Hs) as [Hok [Hl _]].
  destruct (restore_tables rows' (deletions s) hit t Hhit Hok) as [Hok' [_ Hl']].
  split; [exact Hok' |]. by split.
Qed.

Lemma handle_ok X (e : effect X) x s s' :
  issued X e -> handle lower world X e s = (x, s') -> consistent s ->
  consistent s' /\ later s s'.
Proof.
  intros Hi He Hs. destruct e; try (by injection He as _ <-; apply same_tables).
  - cbn in He. destruct (_ || _) eqn:Hor; [by injection He as _ <-; apply same_tables |].
    apply orb_false_iff in Hor as [Hex _].
    destruct (slugPattern _); cbn in He; injection He as _ <-; [| by apply same_tables].
    apply insert_tables; [done | | done | by rewrite Hi].
    intros r Hr Heq. pose proof (proj1 (Forall_forall _ _) (proj1 (existsb_false _ _) Hex) r Hr) as Hn. apply Z.eqb_neq in Hn. done.
  - cbn in He. destruct (find_row _ _ (repositories s)) as [row | e] eqn:Hf;
      [| by injection He as _ <-; apply same_tables].
    apply find_row_Ok in Hf as [Hin [_ Hp]%andb_true_iff].
    apply soft_step; [done |]. cbn in Hi. subst state.
    eapply replace_row_soft in He; [exact He | apply Hs | exact Hin | by apply present_None | done | done].
  - cbn in He. destruct (find_row _ _ (repositories s)) as [row | e] eqn:Hf;
      [| by injection He as _ <-; apply same_tables].
    apply find_row_Ok in Hf as [Hin [_ Hp]%andb_true_iff]. apply soft_step; [done |].
    eapply replace_row_soft in He; [exact He | apply Hs | exact Hin | by apply present_None | done | done].
  - apply soft_step; [done |]. by eapply UpdateSettings_soft.
  - by eapply RequestDeletion_step.
  - by eapply RestoreDeletion_step.
  - cbn in He. injection He as _ <-. by apply purge_tables.
  - cbn in He. destruct (world _ _); injection He as _ <-; by apply same_tables.
  - cbn in He. destruct (_ && _); injection He as _ <-; by apply same_tables.
  - cbn in He. destruct (_ && _); injection He as _ <-; by apply same_tables.
  - cbn in He. destruct (world _ _); injection He as _ <-; by apply same_tables.
Qed.

Lemma tables_steps s s' : consistent s -> rtc step s s' -> consistent s' /\ later s s'.
Proof.
  intros Hs Hsteps. revert Hs.
  induction Hsteps as [s | s1 s2 s3 H12 _ IH]; intros Hs; [by split |].
  assert (H2 : consistent s2 /\ later s1 s2).
  { destruct H12 as [X e x s1 s2 Hi He | s1 rows als HF | s1 t].
    - by eapply handle_ok.
    - apply soft_step; [done |]. split; [| done]. eapply Forall2_impl; [exact HF |]. intros row row' ?. by left.
    - by apply same_tables. }
  destruct H2 as [Hs2 Hl]. destruct (IH Hs2) as [Hs3 Hl']. split; [done |]. by transitivity s2.
Qed.

(** C36: however the requests and workers of this package, the recounts and transfers of
    others, and the clock interleave, starting from empty
    tables: a repository is marked deleted exactly when its deletion was
    purged, at that time; no deletion is both restored and purged, and every
    restoration came before its deadline; and what is settled stays settled: a
    restored or purged deletion never changes again, and a deleted repository remains one,
    with its name, visibility, branch and dates, though the projection of federated events
    goes on counting its forks, and a transfer under way may still give it an owner. *)
Theorem deletion_history (start s s' : db)
    (Hempty : repositories start = [] /\ deletions start = [])
    (Hs : rtc step start s) (Hs' : rtc step s s') :
  (forall row, row ∈ repositories s ->
     (Repository_State (row_repository row) = StateDeleted <-> DeletedAt row <> None) /\
     forall t, DeletedAt row = Some t <->
       exists d, d ∈ deletions s /\ deletion_repository d = row_id row /\ PurgedAt d = Some t) /\
  (forall d, d ∈ deletions s -> deletion_ok d) /\
  (forall row, row ∈ repositories s -> DeletedAt row <> None ->
     exists row', row' ∈ repositories s' /\ own_columns row' = own_columns row) /\
  (forall d, d ∈ deletions s -> opens d = false -> d ∈ deletions s').
Proof.
  assert (Hstart : consistent start).
  { destruct Hempty as [Hr Hd]. unfold consistent, tables_ok. rewrite Hr, Hd.
    split_and!; try constructor. by intros d ?%elem_of_nil. }
  destruct (tables_steps _ _ Hstart Hs) as [Hok _].
  destruct (tables_steps _ _ Hok Hs') as [_ [Hrl Hdl]].
  destruct Hok as (_ & _ & _ & _ & Hds & Hrs).
  rewrite Forall_forall in Hds. rewrite Forall_forall in Hrs.
  split_and!; [exact Hrs | exact Hds | |].
  - intros row Hrow Hd. destruct (Hrl row Hrow) as (row' & Hin & _ & Heq). exists row'. by split; [| apply Heq].
  - intros d Hd Ho. destruct (Hdl d Hd) as (d' & Hin & _ & Heq). by rewrite <- Heq.
Qed.

#[local] Arguments exec : simpl never.

Lemma exec_publication service v s :
  exists r, exec (handle lower world) (publication service v) s = (r, s).
Proof.
  unfold publication. destruct (For _ _) as [[web https] ssh].
  destruct (OrganizationID v) as [id |]; [destruct (negb _) |]; [by eexists | | by eexists].
  unfold exec. cbn. destruct (world _ _); cbn; by eexists.
Qed.

(** Quarantine followed by restoration leaves the storage as it was. *)
Lemma quarantine_restore s id :
  id ∈ live s -> id ∉ quarantined s ->
  {[id]} ∪ live s ∖ {[id]} = live s /\ ({[id]} ∪ quarantined s) ∖ {[id]} = quarantined s.
Proof.
  intros Hl Hq. split.
  - symmetry. apply union_difference_L. set_solver.
  - set_solver.
Qed.

Definition same_rows (s s' : db) : Prop :=
  repositories s' = repositories s /\ deletions s' = deletions s.

Lemma git_Restore_back s s1 id :
  id ∈ live s -> id ∉ quarantined s -> same_rows s s1 ->
  live s1 = live s ∖ {[id]} -> quarantined s1 = {[id]} ∪ quarantined s ->
  exists s2, handle lower world _ (git_Restore id) s1 = (Ok tt, s2) /\ same_rows s s2 /\
    live s2 = live s /\ quarantined s2 = quarantined s.
Proof.
  intros Hl Hq [Hr Hd] Hl1 Hq1. cbn. rewrite Hl1, Hq1.
  rewrite (bool_decide_true (id ∈ _)), (bool_decide_false (id ∈ _)) by set_solver.
  destruct (quarantine_restore s id Hl Hq) as [El Eq]. rewrite El, Eq.
  eexists. split; [reflexivity |]. by split_and!.
Qed.

Lemma exec_compensation service current s :
  exists u, exec (handle lower world) (if Repository_Visibility current == VisibilityPublic
     then ignore (let? p := publication service current in call (Publish p)) else Ret tt) s = (u, s).
Proof.
  destruct (_ == _); [| by eexists]. unfold ignore, svc_bind. rewrite !exec_bind.
  destruct (exec_publication service current s) as ([p | e] & ->); [| by eexists].
  by eexists.
Qed.

Lemma RequestDeletion_again s d request :
  d ∈ deletions s -> deletion_repository d = RepositoryID request ->
  exists e, handle lower world _ (RequestDeletion request) s = (Err e, s).
Proof.
  intros Hd Hr. cbn. destruct (find_row _ _ (repositories s)) as [row | e]; [| by eexists].
  destruct (existsb _ (deletions s)) eqn:Hex; [by eexists |].
  apply existsb_false in Hex; rewrite Forall_forall in Hex; apply Hex in Hd as [Hn _]%orb_false_iff. by apply Z.eqb_neq in Hn.
Qed.

(** A repository has at most one deletion in its life: once one was
    recorded for it, even if it was restored since, deleting it again fails,
    with the tables unchanged but for the identifier drawn, and its git data
    back where it was. *)
Theorem deleted_only_once (service : Service) (current : Repository) (actor : string)
    (retention : Z) (s : db) (d : DeletionRow)
    (Hd : d ∈ deletions s) (Hr : deletion_repository d = ID current) :
  exists err s', exec (handle lower world) (Delete service current actor retention) s = (Err err, s') /\
    repositories s' = repositories s /\ deletions s' = deletions s /\
    live s' = live s /\ quarantined s' = quarantined s.
Proof.
  unfold Delete.
  assert (Hsame : forall e, exists err s', exec (handle lower world) (fail (A := Deletion) e) s = (Err err, s') /\
    repositories s' = repositories s /\ deletions s' = deletions s /\
    live s' = live s /\ quarantined s' = quarantined s) by (intros e; by eexists _, _).
  destruct (_ != _); [apply Hsame |]. destruct (_ <=? _); [apply Hsame |].
  destruct (negb _); [apply Hsame |]. destruct (negb _); [apply Hsame |].
  unfold svc_bind at 1. rewrite exec_bind.
  match goal with |- context [exec (handle lower world) ?p s] =>
    assert (Hp : exists r, exec (handle lower world) p s = (r, s)) end.
  { destruct (_ && _); [| by eexists]. destruct (negb _); [by eexists |].
    unfold svc_bind. rewrite exec_bind. destruct (exec_publication service current s) as (r & ->).
    destruct r as [p | e]; [| by eexists]. unfold exec. cbn. destruct (world _ _); by eexists. }
  destruct Hp as ([[] | e] & ->); [| by eexists _, _].
  unfold svc_bind at 1, wrapErr, call. cbn [prog_bind]. rewrite exec_vis. cbn [handle].
  destruct (bool_decide_reflect (ID current ∈ live s)) as [Hl |]; [| by eexists _, s].
  destruct (bool_decide_reflect (ID current ∈ quarantined s)) as [| Hq]; [by eexists _, s |].
  cbn [andb negb mapErr prog_bind].
  rewrite exec_vis. cbn [handle]. rewrite exec_vis. cbn [handle]. rewrite exec_vis.
  set (s1 := mkDb _ _ _ _ _ _ _ _).
  destruct (git_Restore_back s s1 (ID current)) as (s2 & Hs2 & [Er Ed] & El & Eq); try done.
  match goal with |- context [handle _ _ _ (RequestDeletion ?q) s1] =>
    destruct (RequestDeletion_again s1 d q Hd Hr) as (e & ->) end.
  unfold ignore at 1. rewrite !exec_bind, exec_vis, Hs2, !exec_ret, exec_bind.
  destruct (exec_compensation service current s2) as (u & Hu). unfold call in Hu. rewrite Hu.
  by eexists _, s2.
Qed.

(** ** The purge worker finishes, having purged all that was due *)

Definition due_rows (s : db) (now : time) : list DeletionRow := List.filter (due now) (deletions s).

(** [s'] is [s] with the deletions [ids] purged, as far as what is due goes. *)
Definition purged_to (now : time) (s s' : db) (ids : list UUID) : Prop :=
  map row_deletion (deletions s') = map row_deletion (deletions s) /\ clock s' = clock s /\
  (forall d, d ∈ due_rows s' now <-> d ∈ due_rows s now /\ deletion_id d ∉ ids) /\
  (forall d, d ∈ deletions s -> deletion_id d ∉ ids -> d ∈ deletions s').

Lemma due_rows_elem s now d : d ∈ due_rows s now <-> d ∈ deletions s /\ due now d = true.
Proof. unfold due_rows. rewrite !list_elem_of_In. apply filter_In. Qed.

Lemma MarkPurged_purged_to now s id t s' x :
  handle lower world _ (MarkPurged id t) s = (x, s') -> purged_to now s s' [id] /\ x = Ok tt.
Proof.
  cbn. intros [= <- <-]. split; [| done]. unfold purged_to. cbn [set_tables deletions clock].
  split_and!; [| done | |].
  - unfold update_where. rewrite map_map. apply map_ext. intros d. by destruct (_ && _).
  - intros d. rewrite !due_rows_elem. cbn [set_tables deletions]. split.
    + intros [(d0 & -> & Hin)%list_elem_of_fmap Hdue].
      destruct (_ && _) eqn:Hh; [unfold due, opens in Hdue; cbn in Hdue; by rewrite andb_false_r in Hdue |].
      split_and!; [done | done |]. intros Heq%list_elem_of_singleton.
      unfold due in Hdue. apply andb_true_iff in Hdue as [Ho _].
      by rewrite <- Heq, Ho, Z.eqb_refl in Hh.
    + intros [[Hin Hdue] Hid]. split; [| done]. apply list_elem_of_fmap. exists d.
      split; [| done]. rewrite (proj2 (Z.eqb_neq _ _)); [done |]. intros Heq. apply Hid.
      by apply list_elem_of_singleton.
  - intros d Hin Hid. apply list_elem_of_fmap. exists d. split; [| done].
    rewrite (proj2 (Z.eqb_neq _ _)); [done |]. intros Heq. apply Hid. by apply list_elem_of_singleton.
Qed.

Lemma purged_to_trans now s1 s2 s3 ids ids' :
  purged_to now s1 s2 ids -> purged_to now s2 s3 ids' -> purged_to now s1 s3 (ids ++ ids').
Proof.
  intros (M1 & C1 & D1 & K1) (M2 & C2 & D2 & K2). split_and!; [congruence .. | |].
  - intros d. rewrite D2, D1, elem_of_app. tauto.
  - intros d Hd Hn. rewrite elem_of_app in Hn. apply K2; [apply K1 |]; tauto.
Qed.


(** What purging leaves: the deletions [hit] are purged now, their repositories marked
    deleted. *)
Definition stamped (now : time) (hit : DeletionRow -> bool) (d : DeletionRow) : DeletionRow :=
  if hit d then mkDeletionRow (row_deletion d) (RestoredAt d) (Some now) else d.
Definition marked (now : time) (hit : DeletionRow -> bool) (ds : list DeletionRow) (row : RepositoryRow) : RepositoryRow :=
  if existsb (fun d => hit d && (deletion_repository d =? row_id row)) ds
  then mkRepositoryRow (set_state StateDeleted now (row_repository row)) (Some now) else row.
Definition open_in (ids : list UUID) (d : DeletionRow) : bool := bool_decide (deletion_id d ∈ ids) && opens d.
Record purged_by (now : time) (ds : list Deletion) (s s' : db) : Prop := {
  pb_deletions : deletions s' = map (stamped now (open_in (map Deletion_ID ds))) (deletions s);
  pb_repositories : repositories s'
    = map (marked now (open_in (map Deletion_ID ds)) (deletions s)) (repositories s);
  pb_quarantined : quarantined s' = quarantined s ∖ list_to_set (map RepositoryID ds);
  pb_rest : (aliases s', organizations s', live s', fresh s', clock s')
    = (aliases s, organizations s, live s, fresh s, clock s)
}.

Lemma open_in_app ids ids' now d :
  open_in (ids ++ ids') d = open_in ids d || open_in ids' (stamped now (open_in ids) d) /\
  stamped now (open_in (ids ++ ids')) d = stamped now (open_in ids') (stamped now (open_in ids) d).
Proof.
  unfold stamped. destruct (open_in ids d) eqn:Hi; cbn [orb].
  - assert (Hi' : open_in (ids ++ ids') d = true).
    { unfold open_in in *. apply andb_true_iff in Hi as [Hi%bool_decide_eq_true ->].
      rewrite bool_decide_eq_true_2 by set_solver. done. }
    rewrite Hi'. split; [done |]. unfold open_in, opens. cbn. by rewrite !andb_false_r.
  - assert (Hi' : open_in (ids ++ ids') d = open_in ids' d).
    { unfold open_in in *. destruct (opens d); [| by rewrite !andb_false_r].
      rewrite andb_true_r in Hi |- *. apply bool_decide_eq_false in Hi. rewrite andb_true_r.
      apply bool_decide_ext. set_solver. }
    by rewrite Hi'.
Qed.

Lemma marked_id now hit ds row : row_id (marked now hit ds row) = row_id row.
Proof. unfold marked. by destruct (existsb _ ds). Qed.
Lemma marked_app now ids ids' ds row :
  marked now (open_in (ids ++ ids')) ds row
  = marked now (open_in ids') (map (stamped now (open_in ids)) ds) (marked now (open_in ids) ds row).
Proof.
  assert (He : existsb (fun d => open_in (ids ++ ids') d && (deletion_repository d =? row_id row)) ds
    = existsb (fun d => open_in ids d && (deletion_repository d =? row_id row)) ds
      || existsb (fun d => open_in ids' d && (deletion_repository d =? row_id row))
           (map (stamped now (open_in ids)) ds)).
  { induction ds as [| d ds IH]; [done |]. cbn [existsb map]. rewrite IH, (proj1 (open_in_app ids ids' now d)).
    replace (deletion_repository (stamped now (open_in ids) d)) with (deletion_repository d)
      by (unfold stamped; by destruct (open_in ids d)).
    match goal with |- (?a || ?b) && ?c || (?x || ?y) = _ => generalize a b c x y end.
    by intros [] [] [] [] []. }
  set (row1 := marked now (open_in ids) ds row).
  assert (Hid : row_id row1 = row_id row) by apply marked_id.
  unfold marked at 1. rewrite He. unfold marked at 1. rewrite Hid. unfold row1, marked.
  match goal with |- (if ?a || ?b then _ else _) = _ => by destruct a, b end.
Qed.

Lemma purged_by_trans now ds ds' s1 s2 s3 :
  purged_by now ds s1 s2 -> purged_by now ds' s2 s3 -> purged_by now (ds ++ ds') s1 s3.
Proof.
  intros [D1 R1 Q1 E1] [D2 R2 Q2 E2]. split.
  - rewrite D2, D1, map_map, map_app. apply map_ext. intros d. symmetry. apply open_in_app.
  - rewrite R2, R1, D1, map_map, map_app. apply map_ext. intros row. by rewrite marked_app.
  - rewrite Q2, Q1, map_app, list_to_set_app_L. set_solver.
  - congruence.
Qed.

Lemma purgeEach_purges now ds s : clock s = now ->
  exists s', exec (handle lower world) (purgeEach ds) s = (Ok tt, s') /\
    purged_to now s s' (map Deletion_ID ds) /\ purged_by now ds s s'.
Proof.
  revert s. induction ds as [| d ds IH]; intros s Hc; cbn [purgeEach].
  { exists s. split; [done |]. split.
    - split_and!; try done. intros d. cbn. set_solver.
    - split; [| | | done].
      + symmetry. etrans; [apply map_ext |]; [| apply map_id]. intros d. unfold stamped, open_in. cbn. done.
      + symmetry. etrans; [apply map_ext |]; [| apply map_id]. intros row. unfold marked, open_in. cbn.
        replace (existsb _ _) with false; [done |]. symmetry. apply existsb_false, Forall_forall. done.
      + cbn. set_solver. }
  unfold svc_bind, wrapErr, call. cbn [prog_bind]. rewrite exec_vis. cbn [handle].
  cbn [mapErr prog_bind]. rewrite exec_vis. cbn [handle]. rewrite exec_vis.
  destruct (handle _ _ _ (MarkPurged _ _) _) as [x s1] eqn:Hm.
  assert (Hp : purged_by now [d] s s1).
  { cbn [handle] in Hm. injection Hm as _ <-. unfold UTC. cbn [clock set_storage]. rewrite Hc.
    assert (Hone : forall e, open_in [Deletion_ID d] e = (Deletion_ID (row_deletion e) =? Deletion_ID d) && opens e).
    { intros e. unfold open_in. f_equal. unfold deletion_id. apply eq_iff_eq_true.
      by rewrite bool_decide_eq_true, list_elem_of_singleton, Z.eqb_eq. }
    split; cbn [deletions repositories quarantined set_tables set_storage map list_to_set].
    - apply map_ext. intros e. unfold stamped. by rewrite Hone.
    - apply map_ext. intros row. unfold marked.
      match goal with |- (if ?a then _ else _) = (if ?b then _ else _) => replace a with b; [done |] end.
      generalize (deletions s). intros l. induction l as [| e l IHl]; [done |]. cbn [existsb List.filter].
      rewrite Hone, IHl. destruct (_ && opens e); [| done]. cbn [map existsb]. f_equal. apply Z.eqb_sym.
    - set_solver.
    - done. }
  apply (MarkPurged_purged_to now) in Hm as [H1 ->]. cbn [mapErr prog_bind].
  destruct (IH s1) as (s2 & -> & H2 & Hp2).
  { destruct Hp as [_ _ _ E]. congruence. }
  exists s2. split; [done |]. split.
  - change (map Deletion_ID (d :: ds)) with ([Deletion_ID d] ++ map Deletion_ID ds).
    eapply purged_to_trans; [exact H1 | exact H2].
  - change (d :: ds) with ([d] ++ ds). by eapply purged_by_trans.
Qed.

#[export] Instance key_le_total : Total key_le.
Proof. intros x y. unfold key_le, key_lt. lia. Qed.
#[export] Instance key_le_trans : Transitive key_le.
Proof. intros x y z. unfold key_le, key_lt. lia. Qed.

Definition sorted_due (s : db) (now : time) : list DeletionRow :=
  merge_sort key_le (due_rows s now).

(** The cursor a page is asked after: all that is due comes after it. *)
Definition after_ok (now : time) (s : db) (after : option UUID) : Prop :=
  match after with
  | None => True
  | Some id =>
      exists c, List.find (fun row => Deletion_ID (row_deletion row) =? id) (deletions s) = Some c /\
        forall d, d ∈ due_rows s now -> key_lt (due_key c) (due_key d) = true
  end.

Lemma due_page now s after limit :
  after_ok now s after ->
  dueRows now after limit (deletions s) = firstn (Z.to_nat limit) (sorted_due s now).
Proof.
  unfold dueRows, sorted_due, due_rows. destruct after as [id |]; [| done].
  intros (c & -> & Hall). do 2 f_equal. apply forallb_filter_id, forallb_forall.
  intros d Hd. apply Hall. by apply list_elem_of_In.
Qed.

Lemma find_deletion ds d :
  NoDup (map deletion_id ds) -> row_deletion d ∈ map row_deletion ds ->
  exists c, List.find (fun row => Deletion_ID (row_deletion row) =? deletion_id d) ds = Some c /\
    row_deletion c = row_deletion d.
Proof.
  intros Hnd (d' & Heq & Hin)%list_elem_of_fmap.
  destruct (List.find _ ds) as [c |] eqn:Hf.
  - exists c. split; [done |]. apply find_some in Hf as [Hc Hid%Z.eqb_eq].
    apply list_elem_of_In in Hc. rewrite Heq. f_equal.
    eapply NoDup_map_inj; [exact Hnd | done | done |]. unfold deletion_id in *. congruence.
  - exfalso. apply list_elem_of_In in Hin. pose proof (find_none _ _ Hf d' Hin) as Hn. cbn in Hn.
    unfold deletion_id in Hn. rewrite <- Heq, Z.eqb_refl in Hn. done.
Qed.

(** One full page: what is left is the rest, and comes after its last row. *)
Lemma page_step now s s1 page rest :
  NoDup (map deletion_id (deletions s)) ->
  sorted_due s now = page ++ rest -> purged_to now s s1 (map deletion_id page) ->
  NoDup (map deletion_id (deletions s1)) /\
  (length (due_rows s1 now) <= length rest)%nat /\
  (forall l, last page = Some l -> after_ok now s1 (Some (deletion_id l))).
Proof.
  intros Hnd Hsort (Hmap & _ & Hdue & _).
  assert (Hnd1 : NoDup (map deletion_id (deletions s1))).
  { unfold deletion_id. rewrite <- (map_map row_deletion Deletion_ID), Hmap, map_map. exact Hnd. }
  assert (Hperm : forall d, d ∈ due_rows s now <-> d ∈ page \/ d ∈ rest).
  { intros d. rewrite <- elem_of_app, <- Hsort. unfold sorted_due. by rewrite merge_sort_Permutation. }
  assert (Hrest : forall d, d ∈ due_rows s1 now -> d ∈ rest /\ deletion_id d ∉ map deletion_id page).
  { intros d [Hd Hn]%Hdue. split; [| done]. apply Hperm in Hd as [Hd |]; [| done].
    destruct Hn. by apply list_elem_of_fmap_2. }
  split_and!; [done | |].
  - apply submseteq_length, NoDup_submseteq; [| intros d Hd; by apply Hrest].
    unfold due_rows. apply NoDup_ListNoDup, List.NoDup_filter, NoDup_ListNoDup. by eapply NoDup_fmap_1.
  - intros l Hl. apply last_Some in Hl as [page' ->].
    destruct (find_deletion (deletions s1) l) as (c & Hc & Heq); [done | |].
    { rewrite Hmap. apply list_elem_of_fmap_2.
      assert (Hin : l ∈ due_rows s now).
      { apply Hperm. left. set_solver. }
      by apply due_rows_elem in Hin as [Hin _]. }
    exists c. split; [done |]. intros d Hd. destruct (Hrest d Hd) as [Hr Hn].
    assert (Hle : key_le l d).
    { eapply (StronglySorted_app_1_elem_of _ (page' ++ [l]) rest); [| set_solver | done].
      rewrite <- Hsort. apply (StronglySorted_merge_sort key_le). }
    assert (Hne : deletion_id d <> deletion_id l).
    { intros Heq'. apply Hn. rewrite Heq', map_app. set_solver. }
    unfold key_le, key_lt, due_key in *. unfold deletion_id in Hne. rewrite Heq. cbn in *. lia.
Qed.

Lemma purge_loop fuel : forall s after,
  NoDup (map deletion_id (deletions s)) -> after_ok (clock s) s after ->
  (length (due_rows s (clock s)) < 100 * fuel)%nat ->
  exists s' ds, exec (handle lower world) (purge fuel after) s = (Some (Ok tt), s') /\
    purged_to (clock s) s s' (map Deletion_ID ds) /\ due_rows s' (clock s) = [] /\
    purged_by (clock s) ds s s' /\
    (forall x, x ∈ ds -> exists d, d ∈ due_rows s (clock s) /\ row_deletion d = x).
Proof.
  induction fuel as [| fuel IH]; intros s after Hnd Hafter Hlen; [lia |].
  cbn [purge]. unfold call. cbn [prog_bind]. rewrite exec_vis. cbn [handle]. rewrite exec_vis.
  cbn [handle]. unfold UTC. rewrite (due_page _ _ _ _ Hafter), exec_bind.
  set (page := firstn _ _). set (rest := skipn 100 (sorted_due s (clock s))).
  assert (Hsort : sorted_due s (clock s) = page ++ rest) by (symmetry; apply firstn_skipn).
  destruct (purgeEach_purges (clock s) (map deletionFromRow page) s eq_refl) as (s1 & -> & Hp & Hby).
  pose proof Hp as Hp'. rewrite map_map in Hp'.
  change (fun x => Deletion_ID (deletionFromRow x)) with deletion_id in Hp'.
  destruct (page_step _ _ _ _ _ Hnd Hsort Hp') as (Hnd1 & Hlen1 & Hnext).
  assert (Hpage : forall x, x ∈ map deletionFromRow page ->
            exists d, d ∈ due_rows s (clock s) /\ row_deletion d = x).
  { intros x (d & -> & Hd)%list_elem_of_fmap. exists d. split; [| done].
    assert (Hs : d ∈ sorted_due s (clock s)) by (rewrite Hsort; set_solver).
    unfold sorted_due in Hs. by rewrite merge_sort_Permutation in Hs. }
  rewrite length_map.
  assert (Hlenpage : (length page + length rest)%nat = length (due_rows s (clock s))).
  { rewrite <- length_app, <- Hsort. unfold sorted_due. by rewrite merge_sort_Permutation. }
  assert (Hfirst : length page = Nat.min 100 (length (sorted_due s (clock s)))) by apply length_firstn.
  rewrite Hsort, length_app in Hfirst.
  destruct (Z.ltb_spec (Z.of_nat (length page)) 100) as [Hlt | Hge].
  - exists s1, (map deletionFromRow page). rewrite exec_ret. split_and!; try done. apply nil_length_inv. lia.
  - pose proof Hp as (_ & Hclock & Hrest & _).
    change (map deletionFromRow page) with (deletionFromRow <$> page). rewrite fmap_last.
    destruct (last page) as [l |] eqn:Hl; [| apply last_None in Hl; rewrite Hl in Hge; cbn in Hge; lia].
    cbn [option_map fmap option_fmap].
    destruct (IH s1 (Some (deletion_id l))) as (s2 & ds & Hex & Hp2 & Hnil & Hby2 & Hds).
    + done.
    + rewrite Hclock. by apply Hnext.
    + rewrite Hclock. lia.
    + exists s2, (map deletionFromRow page ++ ds). rewrite Hclock in *. split; [exact Hex |].
      split; [rewrite map_app; by eapply purged_to_trans |]. split; [done |].
      split; [by eapply purged_by_trans |]. intros x [Hx | Hx]%elem_of_app; [by apply Hpage |].
      destruct (Hds x Hx) as (d & Hd & Hid). exists d. split; [by apply Hrest | done].
Qed.

(** C35: when the storage removes what it is told to, one run of the purge worker terminates,
    a page for every hundred deletions being enough, and nothing is due any more.  What was
    due, however many pages it filled, is purged: its deletion is stamped with the time of the
    run, its repository is marked deleted at that time, and its git data is gone.  Nothing
    else changes: no other deletion, repository, alias or git data. *)
Theorem purge_completes (s : db) (fuel : nat)
    (Hs : consistent s) (Hfuel : (length (deletions s) < 100 * fuel)%nat) :
  exists s', exec (handle lower world) (purge fuel None) s = (Some (Ok tt), s') /\
    deletions s' = map (stamped (clock s) (due (clock s))) (deletions s) /\
    repositories s' = map (marked (clock s) (due (clock s)) (deletions s)) (repositories s) /\
    (forall id, id ∈ quarantined s' <->
       id ∈ quarantined s /\ forall d, d ∈ deletions s -> due (clock s) d = true -> deletion_repository d <> id) /\
    (aliases s', organizations s', live s', clock s') = (aliases s, organizations s, live s, clock s) /\
    (forall d, d ∈ deletions s' -> due (clock s) d = false).
Proof.
  destruct Hs as (_ & Hnd & _).
  destruct (purge_loop fuel s None Hnd I) as (s' & ds & Hex & (_ & _ & Hdue & _) & Hnil & [D R Q E] & Hds).
  { eapply Nat.le_lt_trans; [| exact Hfuel]. apply filter_length_le. }
  assert (Hopen : forall d, d ∈ deletions s -> open_in (map Deletion_ID ds) d = due (clock s) d).
  { intros d Hd. apply eq_iff_eq_true. unfold open_in. rewrite andb_true_iff, bool_decide_eq_true. split.
    - intros [(x & Hid & Hx)%list_elem_of_fmap _]. destruct (Hds x Hx) as (d' & [Hd' Ht]%due_rows_elem & <-).
      by replace d with d' by (by eapply (NoDup_map_inj deletion_id)).
    - intros Ht. split; [| unfold due in Ht; by apply andb_true_iff in Ht as [Ht _]].
      destruct (decide (deletion_id d ∈ map Deletion_ID ds)) as [| Hn]; [done |].
      assert (Hin : d ∈ due_rows s' (clock s)) by (apply Hdue; split; [by apply due_rows_elem | done]).
      rewrite Hnil in Hin. by apply elem_of_nil in Hin. }
  assert (Hstamp : deletions s' = map (stamped (clock s) (due (clock s))) (deletions s)).
  { rewrite D. apply map_ext_in. intros d Hd%list_elem_of_In. unfold stamped. by rewrite Hopen. }
  exists s'. split_and!; [exact Hex | exact Hstamp | | | congruence |].
  - rewrite R. apply map_ext. intros row. unfold marked.
    match goal with |- (if ?a then _ else _) = (if ?b then _ else _) => replace a with b; [done |] end.
    revert Hopen. generalize (deletions s). induction l as [| d l IHl]; intros Hopen; [done |]. cbn [existsb].
    rewrite Hopen by (by left). f_equal. apply IHl. intros e He. apply Hopen. by right.
  - intros id. rewrite Q, elem_of_difference, elem_of_list_to_set.
    assert (Hiff : id ∈ map RepositoryID ds <->
      exists d, d ∈ deletions s /\ due (clock s) d = true /\ deletion_repository d = id); [| naive_solver].
    rewrite list_elem_of_fmap. split.
    + intros (x & -> & Hx). destruct (Hds x Hx) as (d & [Hd Ht]%due_rows_elem & <-). by exists d.
    + intros (d & Hd & Ht & <-). pose proof (Hopen d Hd) as Ho. rewrite Ht in Ho.
      unfold open_in in Ho. apply andb_true_iff in Ho as [Ho%bool_decide_eq_true _].
      apply list_elem_of_fmap in Ho as (x & Hid & Hx). exists x. split; [| done].
      destruct (Hds x Hx) as (d' & [Hd' _]%due_rows_elem & <-).
      by replace d with d' by (by eapply (NoDup_map_inj deletion_id)).
  - rewrite Hstamp. intros d' (d & -> & Hd)%list_elem_of_fmap. unfold stamped.
    destruct (due (clock s) d) eqn:Ht; [| done]. unfold due, opens. cbn. by rewrite andb_false_r.
Qed.
End history.

(** ** Concrete runs *)

Module store_examples.
Definition lower_ (s : string) : string := s.
(** A provider that answers every publication with the same URI. *)
Definition world_ X (e : effect X) : X :=
  match e in effect X return X with
  | store_Create _ | store_GetByOwnerSlug _ _ | UpdateState _ _ _ | Activate _ _ _
  | UpdateSettings _ _ _ _ _ _ | store_RestoreDeletion _ _ => Err ErrNotFound
  | store_ListByOrganization _ | store_PageByOrganization _ _ _ _ => Ok []
  | RequestDeletion _ | store_GetDeletion _ => Err ErrNotFound
  | GetForkSourceByURI _ => Err ErrNotFound
  | GetOrganizationIdentity _ => Err ErrNotFound
  | ListDueDeletions _ _ _ => Ok []
  | MarkPurged _ _ | git_Init _ _ | git_SetDefaultBranch _ _ | git_Quarantine _
  | git_Restore _ | git_Fork _ _ _ | git_Purge _ | Unpublish _ _ => Ok tt
  | git_SyncFork _ _ _ => Err ErrNotFound
  | Publish _ => Ok (mkATIdentity "at://did:plc:owner/dev.adenosine.repo/r" "bafy1")
  | Now => 0
  | NewID => Ok 0
  end.
Definition uuid_ (id : UUID) : string := pretty id.
Definition service_ : Service :=
  mkService (mkEndpoints "https://host" "host" 22) true true true true true true.
Definition input (slug : string) (visibility : Visibility) : CreateInput :=
  mkCreateInput "did:plc:owner" None EmptyString None None slug "Name" EmptyString visibility "main".
Definition empty : db := mkDb [] [] [] ∅ ∅ ∅ 1 1000.
Definition on {A} (s : db) (p : prog effect A) : A * db := exec (handle lower_ world_) p s.

Definition one : db := snd (on empty (Create uuid_ service_ (input "tool" VisibilityPrivate))).
Definition tool : Repository :=
  mkRepository 1 "did:plc:owner" None EmptyString "tool" "Name" EmptyString VisibilityPrivate
    StateActive "main" "1" EmptyString EmptyString None None 0 false None 1000 1000.
Example created : fst (on empty (Create uuid_ service_ (input "tool" VisibilityPrivate))) = Ok tool.
Proof. vm_compute. reflexivity. Qed.

(** Deleted, restored, and then not deletable again. *)
Definition deleted : db := snd (on one (Delete service_ tool "did:plc:owner" (24 * hour))).
Definition restored : db := snd (on deleted (RestoreDeletion service_ 2)).
Example restored_tool : fst (on deleted (RestoreDeletion service_ 2)) = Ok tool.
Proof. vm_compute. reflexivity. Qed.
Example deleted_again :
  fst (on restored (Delete service_ tool "did:plc:owner" (24 * hour)))
  = Err (Errorf "request repository deletion: %w" [W ErrAlreadyExists]).
Proof. vm_compute. reflexivity. Qed.

Lemma deleted_only_once_witness :
  exists err s', exec (handle lower_ world_) (Delete service_ tool "did:plc:owner" (24 * hour)) restored
                 = (Err err, s') /\
    repositories s' = repositories restored /\ deletions s' = deletions restored /\
    live s' = live restored /\ quarantined s' = quarantined restored.
Proof.
  apply (deleted_only_once lower_ world_ service_ tool "did:plc:owner" (24 * hour) restored
           (mkDeletionRow (mkDeletion 2 1 "did:plc:owner" 1000 (1000 + 24 * hour)) (Some 1000) None)).
  - vm_compute. constructor.
  - reflexivity.
Defined.

(** Two public repositories whose records got the same URI: the second cannot
    be activated, and stays in creation instead of being marked failed. *)
Definition two : db :=
  snd (on (snd (on empty (Create uuid_ service_ (input "tool" VisibilityPublic))))
         (Create uuid_ service_ (input "copy" VisibilityPublic))).
Example activation_failure_leaves_creating :
  map (fun row => (Slug (row_repository row), Repository_State (row_repository row)))
    (repositories two) = [("tool", StateActive); ("copy", StateCreating)].
Proof. vm_compute. reflexivity. Qed.

(** The organization's page shows an archived repository as not archived. *)
Example page_forgets_archive :
  let row := mkRepositoryRow (withSettings tool
    (mkSettingsInput "owner" "tool" "Name" EmptyString VisibilityPrivate "main" true) 2000) None in
  ArchivedAt (repositoryFromRow row) = Some 2000 /\
  ArchivedAt (repositoryFromPageRow row false) = None.
Proof. split; reflexivity. Qed.

(** The repository is deleted, purged, and then found to have a fork. *)
Definition asked_for : Deletion := mkDeletion 5 1 "did:plc:owner" 1000 2000.
Definition doomed : db := snd (handle lower_ world_ _ (RequestDeletion asked_for) one).
Definition purged_ : db := snd (handle lower_ world_ _ (MarkPurged 5 3000) doomed).
Definition forked (row : RepositoryRow) : RepositoryRow :=
  let v := row_repository row in
  mkRepositoryRow (mkRepository (ID v) (OwnerDID v) (OrganizationID v) (OrganizationSlug v) (Slug v)
    (DisplayName v) (Description v) (Repository_Visibility v) (Repository_State v) (DefaultBranch v)
    (StorageKey v) (ATURI v) (ATCID v) (ForkedFrom v) (TransferredFrom v) 1 (ViewerCanAdmin v)
    (ArchivedAt v) (CreatedAt v) (UpdatedAt v)) (DeletedAt row).
Definition recounted : db := set_tables purged_ (map forked (repositories purged_)) (deletions purged_) [].

Lemma reaches_one : rtc (step lower_ world_) empty one.
Proof.
  eapply rtc_l; [apply (step_effect _ _ _ NewID (Ok 1)); [exact I | reflexivity] |].
  eapply rtc_l; [eapply (step_effect _ _ _ (store_Create (newRepository 1
    (input "tool" VisibilityPrivate) "1" 1000))); [reflexivity | reflexivity] |].
  eapply rtc_l; [eapply (step_effect _ _ _ (git_Init 1 "main")); [exact I | reflexivity] |].
  eapply rtc_l; [eapply (step_effect _ _ _ (Activate 1 None 1000)); [exact I | reflexivity] |].
  vm_compute. apply rtc_refl.
Qed.

Lemma deletion_history_witness :
  map (fun row => (DeletedAt row, Repository_State (row_repository row))) (repositories purged_)
  = [(Some 3000, StateDeleted)] /\
  Forall (fun row => exists row', row' ∈ repositories recounted /\ own_columns row' = own_columns row /\
    ForkCount (row_repository row') <> ForkCount (row_repository row)) (repositories purged_).
Proof.
  destruct (deletion_history lower_ world_ empty purged_ recounted) as (Hrows & _ & Hkept & _); [by split | | |].
  - eapply rtc_r; [eapply rtc_r; [exact reaches_one |] |].
    + eapply (step_effect _ _ _ (RequestDeletion asked_for)); [exact I | apply surjective_pairing].
    + eapply (step_effect _ _ _ (MarkPurged 5 3000)); [exact I | apply surjective_pairing].
  - eapply rtc_r; [apply rtc_refl |]. apply step_others. vm_compute. repeat constructor.
  - split; [vm_compute; reflexivity |]. apply Forall_forall. intros row Hrow.
    destruct (Hkept row Hrow) as (row' & Hin & Heq).
    + intros Hn. vm_compute in Hrow. apply list_elem_of_singleton in Hrow as ->. discriminate Hn.
    + exists row'. split; [exact Hin |]. split; [exact Heq |]. intros Hc. vm_compute in Hrow, Hin.
      apply list_elem_of_singleton in Hrow as ->, Hin as ->. discriminate Hc.
Defined.

(** The deadline of the deletion has passed. *)
Definition overdue : db :=
  mkDb (repositories deleted) (deletions deleted) [] ∅ (live deleted) (quarantined deleted) 9
    (1000 + 24 * hour).

Definition overdue_deletion : DeletionRow :=
  mkDeletionRow (mkDeletion 2 1 "did:plc:owner" 1000 (1000 + 24 * hour)) None None.
Lemma overdue_deletions : deletions overdue = [overdue_deletion].
Proof. vm_compute. reflexivity. Qed.
Lemma overdue_due : due (clock overdue) overdue_deletion = true.
Proof. vm_compute. reflexivity. Qed.

Lemma purge_completes_witness :
  exists s', exec (handle lower_ world_) (purge 1 None) overdue = (Some (Ok tt), s') /\
    map PurgedAt (deletions s') = [Some (1000 + 24 * hour)] /\
    map (fun row => (Repository_State (row_repository row), DeletedAt row)) (repositories s')
    = [(StateDeleted, Some (1000 + 24 * hour))] /\ 1 ∉ quarantined s'.
Proof.
  destruct (purge_completes lower_ world_ overdue 1) as (s' & Hex & Hd & Hr & Hq & _); [| vm_compute; lia |].
  2: { exists s'. split; [exact Hex |]. rewrite Hd, Hr. split; [vm_compute; reflexivity |].
       split; [vm_compute; reflexivity |]. intros [_ Hn]%Hq.
       apply (Hn overdue_deletion); [rewrite overdue_deletions; by left | exact overdue_due | reflexivity]. }
  unfold consistent, tables_ok. vm_compute (repositories overdue). vm_compute (deletions overdue).
  cbn [map]. split; [| split; [| split; [| split; [| split]]]]; try apply NoDup_singleton.
  - intros d ->%list_elem_of_singleton. eexists. split; [by left | done].
  - constructor; [| constructor]. split_and!; [done | done | by left].
  - constructor; [| constructor]. split; [done |]. intros t. split; [done |].
    by intros (d & ->%list_elem_of_singleton & _ & ?).
Defined.
End store_examples.
End store.
