(* ===== verification/Transfer.v ===== *)
(** * Transfer: bilateral repository ownership transfers
    (package [internal/transfer]). *)

From S2P Require Import Prelude.
From S2P Require Import GoText.
From S2P Require Import Encoding.
From S2P Require Import Syntax.
From S2P Require Import Repository.

Module transfer.

Definition Lifetime : Z := 7 * 24 * hour.
Definition ProposalCollection : string := "dev.adenosine.repositoryTransfer".
Definition AcceptanceCollection : string := "dev.adenosine.repositoryTransferAcceptance".

Definition ErrNotFound : error := New "repository transfer not found".
Definition ErrForbidden : error := New "repository transfer forbidden".
Definition ErrConflict : error := New "repository transfer conflict".
Definition ErrValidation : error := New "repository transfer validation failed".
Definition ErrProvider : error := New "repository transfer provider unavailable".

Definition Status : Type := string.
Definition StatusPending : Status := "pending".
Definition StatusCompleted : Status := "completed".
Definition StatusCancelled : Status := "cancelled".

Definition OwnerKind : Type := string.
Definition OwnerAccount : OwnerKind := "account".
Definition OwnerOrganization : OwnerKind := "organization".

Record Owner := mkOwner {
  Kind : OwnerKind; Alias : string; AccountDID : string; Owner_OrganizationID : option UUID;
  Organization : option repository.ATIdentity; RecordAuthorDID : string
}.
Record Identity := mkIdentity { URI : string; CID : string }.
Record ProposalPublication := mkProposalPublication {
  Prop_ID : UUID; Prop_ActorDID : string; Prop_Repository : Identity; DestinationDID : string;
  DestinationOwnerAlias : string; DestinationOrganization : option repository.ATIdentity;
  Prop_CreatedAt : time; Prop_ExpiresAt : time
}.
Record AcceptancePublication := mkAcceptancePublication {
  Acc_ActorDID : string; Acc_Proposal : Identity; Acc_Repository : Identity; Acc_CreatedAt : time
}.
Record Transfer := mkTransfer {
  ID : UUID; RepositoryID : UUID; SourceOwnerDID : string; SourceOrganizationID : option UUID;
  SourceOwnerAlias : string; SourceRepository : option Identity; Destination : Owner;
  InitiatedByDID : string; AcceptedByDID : string; Proposal : option Identity;
  Successor : option Identity; Acceptance : option Identity; SourceRedirectCID : string;
  Transfer_Status : Status; CreatedAt : time; ExpiresAt : time;
  AcceptanceStartedAt : option time; AcceptedAt : option time; CancelledAt : option time
}.
Record Page := mkPage { Items : list Transfer; NextCursor : option UUID }.

#[export] Instance Identity_eq_dec : EqDecision Identity.
Proof. solve_decision. Defined.
#[export] Instance Owner_eq_dec : EqDecision Owner.
Proof. solve_decision. Defined.
#[export] Instance Transfer_eq_dec : EqDecision Transfer.
Proof. solve_decision. Defined.

(** The store, the two publishers, the clock and the id generator. *)
Inductive effect : Type -> Type :=
| ResolveOwner (alias : string) : effect (result Owner)
| ResolveOrganizationIdentity (id : UUID) : effect (result repository.ATIdentity)
| CanInitiate (repositoryID : UUID) (actorDID : string) : effect (result bool)
| CanAccept (owner : Owner) (actorDID : string) : effect (result bool)
| CanComplete (id : UUID) : effect (result bool)
| ResolveSourceAlias (repositoryID : UUID) : effect (result string)
| GetRepository (id : UUID) : effect (result repository.Repository)
| GetPending (repositoryID : UUID) : effect (result Transfer)
| store_Create (value : Transfer) : effect (result Transfer)
| store_Get (id : UUID) : effect (result Transfer)
| store_Page (repositoryID : UUID) (after : option UUID) (limit : Z)
    : effect (result (list Transfer))
| SetProposal (id : UUID) (identity : Identity) : effect (result Transfer)
| SetSuccessor (id : UUID) (identity : Identity) : effect (result Transfer)
| StartAcceptance (id : UUID) (startedAt : time) : effect (result Transfer)
| SetAcceptance (id : UUID) (identity : Identity) : effect (result Transfer)
| SetSourceRedirect (id : UUID) (cid : string) : effect (result Transfer)
| store_Cancel (id : UUID) (cancelledAt : time) : effect (result Transfer)
| Complete (id aliasID sourceDIDAliasID : UUID) (actorDID : string) (acceptedAt : time)
    : effect (result Transfer)
| CompletePrivate (id aliasID sourceDIDAliasID : UUID) (actorDID : string) (acceptedAt : time)
    : effect (result Transfer)
| PublishProposal (publication : ProposalPublication) : effect (result Identity)
| DeleteProposal (publication : ProposalPublication) (identity : Identity) : effect (result unit)
| PublishAcceptance (publication : AcceptancePublication) : effect (result Identity)
| Publish (publication : repository.Publication) : effect (result repository.ATIdentity)
| NewID : effect (result UUID)
| Now : effect time.

(** The publishers and endpoints, which may be missing. *)
Record Service := mkService {
  publisher : bool; repositoryPublisher : bool; endpoints : option repository.Endpoints
}.

Definition wrapf (format : string) (err : error) : error := Errorf format [W err].
Definition invalid (what : string) : error := Errorf ("%w: " +:+ what) [W ErrValidation].
Definition providerFailure (operation : string) (cause : error) : error :=
  CauseError ErrProvider operation (Some cause).
(** A run-time panic: a nil pointer was dereferenced. *)
Definition nil_dereference : error := New "invalid memory address or nil pointer dereference".
Definition deref {A} (p : option A) (k : A -> svc effect Transfer) : svc effect Transfer :=
  match p with Some a => k a | None => fail nil_dereference end.

Definition same_id (x y : option UUID) : bool :=
  match x, y with Some a, Some b => a =? b | _, _ => false end.

Definition sameOwner (value : repository.Repository) (owner : Owner) : bool :=
  if is_some (repository.OrganizationID value) || is_some (Owner_OrganizationID owner)
  then same_id (repository.OrganizationID value) (Owner_OrganizationID owner)
  else repository.OwnerDID value == AccountDID owner.
Definition sameDestination (left right : Owner) : bool :=
  if is_some (Owner_OrganizationID left) || is_some (Owner_OrganizationID right)
  then same_id (Owner_OrganizationID left) (Owner_OrganizationID right)
  else AccountDID left == AccountDID right.

Definition proposalPublication (value : Transfer) (source : Identity) : ProposalPublication :=
  mkProposalPublication (ID value) (SourceOwnerDID value) source
    (AccountDID (Destination value)) (Alias (Destination value))
    (Organization (Destination value)) (CreatedAt value) (ExpiresAt value).

Definition withDestination (value : Transfer) (destination : Owner) : Transfer :=
  mkTransfer (ID value) (RepositoryID value) (SourceOwnerDID value) (SourceOrganizationID value)
    (SourceOwnerAlias value) (SourceRepository value) destination (InitiatedByDID value)
    (AcceptedByDID value) (Proposal value) (Successor value) (Acceptance value)
    (SourceRedirectCID value) (Transfer_Status value) (CreatedAt value) (ExpiresAt value)
    (AcceptanceStartedAt value) (AcceptedAt value) (CancelledAt value).

(** The repository a publication is made of, with the fields the code sets. *)
Definition withRepository (repo : repository.Repository) (ownerDID : string)
    (organizationID : option UUID) (organizationSlug : string) (updatedAt : time)
    : repository.Repository :=
  repository.mkRepository (repository.ID repo) ownerDID organizationID organizationSlug
    (repository.Slug repo) (repository.DisplayName repo) (repository.Description repo)
    (repository.Repository_Visibility repo) (repository.Repository_State repo)
    (repository.DefaultBranch repo) (repository.StorageKey repo) (repository.ATURI repo)
    (repository.ATCID repo) (repository.ForkedFrom repo) (repository.TransferredFrom repo)
    (repository.ForkCount repo) (repository.ViewerCanAdmin repo) (repository.ArchivedAt repo)
    (repository.CreatedAt repo) updatedAt.

(** [repositoryPublication], with the strong references its callers set
    afterwards. *)
Definition repositoryPublication (value : repository.Repository) (ownerDID : string)
    (organization transferredFrom transferredTo : option repository.ATIdentity)
    (urls : string * string * string) (updatedAt : time) : repository.Publication :=
  let '(web, gitHTTPS, gitSSH) := urls in
  let name := if repository.DisplayName value == EmptyString then repository.Slug value
              else repository.DisplayName value in
  repository.mkPublication (repository.ID value) ownerDID organization None transferredFrom
    transferredTo (repository.Slug value) name (repository.Description value)
    (repository.DefaultBranch value) gitHTTPS gitSSH web (repository.CreatedAt value) updatedAt.

Definition toATIdentity (i : Identity) : repository.ATIdentity :=
  repository.mkATIdentity (URI i) (CID i).

Section transfer.
Context `{UUIDs} `{GoUnicode}.

Definition ProposalRecordKey (id : UUID) : string := remove_char "-"%char (uuid_String id).
Definition AcceptanceRecordKey (proposalURI : string) : string :=
  ToLower (base32_Encode (Sum256 (bytes proposalURI))).

Variable service : Service.

Definition publishPendingProposal (value : Transfer) : svc effect Transfer :=
  match SourceRepository value, Proposal value with
  | None, _ | _, Some _ => done_ value
  | Some source, None =>
      if negb (publisher service)
      then fail (Errorf "%w: proposal publisher is unavailable" [W ErrProvider]) else
      let? proposal := wrapErr (providerFailure "publish proposal")
                         (call (PublishProposal (proposalPublication value source))) in
      wrapErr (wrapf "store proposal identity: %w") (call (SetProposal (ID value) proposal))
  end.

Definition newTransfer (id : UUID) (value : repository.Repository) (sourceOwnerAlias : string)
    (destination : Owner) (actorDID : string) (now : time) : Transfer :=
  mkTransfer id (repository.ID value) (repository.OwnerDID value) (repository.OrganizationID value)
    sourceOwnerAlias
    (if (repository.ATURI value != EmptyString) && (repository.ATCID value != EmptyString)
     then Some (mkIdentity (repository.ATURI value) (repository.ATCID value)) else None)
    destination actorDID EmptyString None None None EmptyString StatusPending now (now + Lifetime)
    None None None.

Definition Initiate (value : repository.Repository) (actorDID destinationAlias : string)
    : svc effect Transfer :=
  let actorDID := TrimSpace actorDID in
  let destinationAlias := TrimSpace destinationAlias in
  if (actorDID == EmptyString) || (destinationAlias == EmptyString)
     || (repository.Repository_State value != repository.StateActive)
  then fail (invalid "active repository, actor, and destination are required") else
  let? allowed := wrapErr (wrapf "authorize current owner: %w")
                    (call (CanInitiate (repository.ID value) actorDID)) in
  if negb allowed then fail ErrForbidden else
  let? sourceOwnerAlias := wrapErr (wrapf "resolve current owner route: %w")
                             (call (ResolveSourceAlias (repository.ID value))) in
  let? destination := call (ResolveOwner destinationAlias) in
  if sameOwner value destination then fail (invalid "destination already owns repository") else
  let! pending := call (GetPending (repository.ID value)) in
  match pending with
  | Ok pending =>
      let! now := call Now in
      if negb (Before (UTC now) (ExpiresAt pending)) then fail ErrConflict else
      if negb (sameDestination (Destination pending) destination) then fail ErrConflict else
      publishPendingProposal (withDestination pending destination)
  | Err err =>
      if negb (Is err ErrNotFound) then fail (wrapf "get pending transfer: %w" err) else
      let? id := wrapErr (wrapf "generate transfer ID: %w") (call NewID) in
      let! now := call Now in
      let? created := wrapErr (wrapf "create transfer: %w")
        (call (store_Create (newTransfer id value sourceOwnerAlias destination actorDID (UTC now)))) in
      publishPendingProposal (withDestination created destination)
  end.

(** [authorizeInspection]. *)
Definition authorizeInspection (value : Transfer) (actorDID : string) : svc effect unit :=
  let actorDID := TrimSpace actorDID in
  let? allowed := wrapErr (wrapf "authorize current repository owner: %w")
                    (call (CanInitiate (RepositoryID value) (TrimSpace actorDID))) in
  if allowed : bool then done_ tt else
  let source := mkOwner (if is_some (SourceOrganizationID value) then OwnerOrganization
                         else OwnerAccount) EmptyString (SourceOwnerDID value)
                  (SourceOrganizationID value) None EmptyString in
  let? allowed := wrapErr (wrapf "authorize source owner: %w") (call (CanAccept source actorDID)) in
  if allowed : bool then done_ tt else
  let? allowed := wrapErr (wrapf "authorize destination owner: %w")
                    (call (CanAccept (Destination value) (TrimSpace actorDID))) in
  if negb allowed then fail ErrForbidden else done_ tt.

Definition Get (id : UUID) (actorDID : string) : svc effect Transfer :=
  let? value := call (store_Get id) in
  let? _ := authorizeInspection value actorDID in
  done_ value.

Definition Page_ (repositoryID : UUID) (actorDID : string) (after : option UUID) (limit : Z)
    : svc effect Page :=
  if (limit <? 1) || (100 <? limit) then fail (invalid "limit must be between 1 and 100") else
  let? allowed := wrapErr (wrapf "authorize transfer history: %w")
                    (call (CanInitiate repositoryID (TrimSpace actorDID))) in
  if negb allowed then fail ErrForbidden else
  let? values := wrapErr (wrapf "page transfers: %w")
                   (call (store_Page repositoryID after (limit + 1))) in
  let items := firstn (Z.to_nat limit) values in
  done_ (mkPage items
    (if limit <? Z.of_nat (length values) then option_map ID (last items) else None)).

Definition AuthorizeAcceptance (id : UUID) (actorDID : string)
    : svc effect (Transfer * repository.Repository) :=
  let? value := call (store_Get id) in
  let! expired :=
    if (Transfer_Status value == StatusPending) && negb (is_some (AcceptanceStartedAt value))
    then let! now := call Now in Ret (negb (Before (UTC now) (ExpiresAt value)))
    else Ret false in
  if (Transfer_Status value != StatusPending) || expired then fail ErrConflict else
  let? allowed := wrapErr (wrapf "authorize destination owner: %w")
                    (call (CanAccept (Destination value) (TrimSpace actorDID))) in
  if negb allowed then fail ErrForbidden else
  let? repo := call (GetRepository (RepositoryID value)) in
  done_ (value, repo).

Definition successorPublication (value : Transfer) (repo : repository.Repository)
    (endpoints : repository.Endpoints) (source : Identity) (now : time)
    : svc effect repository.Publication :=
  let destination := Destination value in
  let organizationSlug := match Owner_OrganizationID destination with
                          | None => EmptyString | Some _ => Alias destination end in
  let repo := withRepository repo (RecordAuthorDID destination) (Owner_OrganizationID destination)
                organizationSlug now in
  let publication organization :=
    repositoryPublication repo (repository.OwnerDID repo) organization
      (Some (toATIdentity source)) None (repository.For endpoints repo) now in
  match Owner_OrganizationID destination with
  | None => done_ (publication None)
  | Some id =>
      match Organization destination with
      | Some found => done_ (publication (Some found))
      | None =>
          let? identity := wrapErr (wrapf "resolve destination organization: %w")
                             (call (ResolveOrganizationIdentity id)) in
          done_ (publication (Some identity))
      end
  end.

Definition sourceRedirectPublication (value : Transfer) (repo : repository.Repository)
    (endpoints : repository.Endpoints) (successor : Identity) (now : time)
    : svc effect repository.Publication :=
  let repo := match SourceOrganizationID value with
              | None => repo
              | Some _ => withRepository repo (repository.OwnerDID repo)
                            (repository.OrganizationID repo) (SourceOwnerAlias value)
                            (repository.UpdatedAt repo)
              end in
  let publication organization :=
    repositoryPublication repo (SourceOwnerDID value) organization
      (repository.TransferredFrom repo) (Some (toATIdentity successor))
      (repository.For endpoints repo) now in
  match SourceOrganizationID value with
  | None => done_ (publication None)
  | Some id =>
      let? identity := wrapErr (wrapf "resolve source organization: %w")
                         (call (ResolveOrganizationIdentity id)) in
      done_ (publication (Some identity))
  end.

(** The three publications of [Accept], each skipped when its result is
    already stored. *)
Definition ensureSuccessor (id : UUID) (value : Transfer) (repo : repository.Repository)
    (endpoints : repository.Endpoints) (source : Identity) (workflowAt : time)
    : svc effect Transfer :=
  if is_some (Successor value) then done_ value else
  let? publication := successorPublication value repo endpoints source workflowAt in
  let? identity := wrapErr (providerFailure "publish successor") (call (Publish publication)) in
  wrapErr (wrapf "store successor identity: %w")
    (call (SetSuccessor id (mkIdentity (repository.URI identity) (repository.CID identity)))).

Definition ensureAcceptance (id : UUID) (value : Transfer) (workflowAt : time)
    : svc effect Transfer :=
  if is_some (Acceptance value) then done_ value else
  deref (Proposal value) (fun proposal =>
  deref (Successor value) (fun successor =>
    let? identity := wrapErr (providerFailure "publish acceptance")
      (call (PublishAcceptance (mkAcceptancePublication (RecordAuthorDID (Destination value))
               proposal successor workflowAt))) in
    wrapErr (wrapf "store acceptance identity: %w") (call (SetAcceptance id identity)))).

Definition ensureSourceRedirect (id : UUID) (value : Transfer) (repo : repository.Repository)
    (endpoints : repository.Endpoints) (workflowAt : time) : svc effect Transfer :=
  if SourceRedirectCID value != EmptyString then done_ value else
  deref (Successor value) (fun successor =>
    let? publication := sourceRedirectPublication value repo endpoints successor workflowAt in
    let? identity := wrapErr (providerFailure "publish source redirect")
                       (call (Publish publication)) in
    wrapErr (wrapf "store source redirect: %w")
      (call (SetSourceRedirect id (repository.CID identity)))).

Definition Accept (id : UUID) (actorDID : string) : svc effect Transfer :=
  let? (value, repo) := AuthorizeAcceptance id actorDID in
  let? available := wrapErr (wrapf "check destination route: %w") (call (CanComplete id)) in
  if negb available then fail ErrConflict else
  let! now := call Now in
  let now := UTC now in
  let? value := match AcceptanceStartedAt value with
                | Some _ => done_ value
                | None => wrapErr (wrapf "start transfer acceptance: %w")
                            (call (StartAcceptance id now))
                end in
  deref (AcceptanceStartedAt value) (fun startedAt =>
  let workflowAt := UTC startedAt in
  let aliasID := uuid_NewSHA1 id (bytes "source-owner-alias") in
  let sourceDIDAliasID := uuid_NewSHA1 id (bytes "source-owner-did-alias") in
  match SourceRepository value with
  | None => call (CompletePrivate id aliasID sourceDIDAliasID actorDID now)
  | Some source =>
      match Proposal value, publisher service, repositoryPublisher service, endpoints service with
      | Some _, true, true, Some endpoints =>
          let? value := ensureSuccessor id value repo endpoints source workflowAt in
          let? value := ensureAcceptance id value workflowAt in
          let? value := ensureSourceRedirect id value repo endpoints workflowAt in
          wrapErr (wrapf "complete transfer: %w")
            (call (Complete id aliasID sourceDIDAliasID actorDID now))
      | _, _, _, _ => fail (Errorf "%w: portable transfer is not ready" [W ErrProvider])
      end
  end).

Definition Cancel (id : UUID) (actorDID : string) : svc effect Transfer :=
  let? value := call (store_Get id) in
  let? allowed := wrapErr (wrapf "authorize cancellation: %w")
                    (call (CanInitiate (RepositoryID value) actorDID)) in
  if negb allowed then fail ErrForbidden else
  if Transfer_Status value == StatusCancelled then done_ value else
  if (Transfer_Status value != StatusPending) || is_some (AcceptanceStartedAt value)
  then fail ErrConflict else
  let cancel := let! now := call Now in call (store_Cancel id (UTC now)) in
  match Proposal value with
  | Some proposal =>
      if publisher service then
        deref (SourceRepository value) (fun source =>
          let? _ := wrapErr (providerFailure "delete proposal")
                      (call (DeleteProposal (proposalPublication value source) proposal)) in
          cancel)
      else cancel
  | None => cancel
  end.

(** ** Record keys *)

(** The record keys of a proposal and of an acceptance are always of the
    grammar the validators accept: 32 hexadecimal digits for the one, 52
    characters of [a-z2-7] for the other. *)
Theorem record_keys_valid `{!UUIDLaws} (id : UUID) (proposalURI : string) :
  match_class_n is_lower_hex 32 (ProposalRecordKey id) = true /\
  rkey_grammar (ProposalRecordKey id) = true /\
  match_class_n is_base32_lower 52 (AcceptanceRecordKey proposalURI) = true /\
  rkey_grammar (AcceptanceRecordKey proposalURI) = true.
Proof.
  pose proof (uuid_hex id) as Hid. pose proof (lower_base32_digest (bytes proposalURI)) as Hd.
  split_and!; try done.
  - eapply rkey_grammar_class, Hid; [apply hex_rkey_char | lia].
  - eapply rkey_grammar_class, Hd; [apply base32_rkey_char | lia].
Qed.

(** ** Accepting *)

(** What the store last said of the transfer. *)
Definition current (id : UUID) (h : list (event effect)) (v : Transfer) : Prop :=
  Ev (store_Get id) (Ok v) ∈ h \/
  (exists t, Ev (StartAcceptance id t) (Ok v) ∈ h) \/
  (exists i, Ev (SetSuccessor id i) (Ok v) ∈ h) \/
  (exists i, Ev (SetAcceptance id i) (Ok v) ∈ h) \/
  (exists c, Ev (SetSourceRedirect id c) (Ok v) ∈ h).

(** The actor owns the destination of the pending transfer, and its route is
    free. *)
Definition accepted_by (id : UUID) (actorDID : string) (h : list (event effect)) : Prop :=
  exists v, Ev (store_Get id) (Ok v) ∈ h /\ Transfer_Status v = StatusPending /\
    Ev (CanAccept (Destination v) (TrimSpace actorDID)) (Ok true) ∈ h /\
    Ev (CanComplete id) (Ok true) ∈ h.

(** The time the acceptance started, in the store's words. *)
Definition started (id : UUID) (h : list (event effect)) (t : time) : Prop :=
  exists v, current id h v /\ AcceptanceStartedAt v = Some t.

Definition publishes_successor (v : Transfer) (p : repository.Publication) : Prop :=
  Successor v = None /\ repository.Pub_OwnerDID p = RecordAuthorDID (Destination v) /\
  repository.Pub_TransferredTo p = None.
Definition publishes_redirect (v : Transfer) (p : repository.Publication) : Prop :=
  SourceRedirectCID v = EmptyString /\ repository.Pub_OwnerDID p = SourceOwnerDID v /\
  exists successor, Successor v = Some successor /\
    repository.Pub_TransferredTo p = Some (toATIdentity successor).

Definition accept_guard (id : UUID) (actorDID : string) (h : list (event effect)) X
    (e : effect X) : Prop :=
  match e with
  | StartAcceptance i _ | SetSuccessor i _ | SetAcceptance i _ | SetSourceRedirect i _ =>
      i = id /\ accepted_by id actorDID h
  | Publish p =>
      accepted_by id actorDID h /\ started id h (repository.Pub_UpdatedAt p) /\
      exists v, current id h v /\
        (publishes_successor v p \/
         publishes_redirect v p /\
         (Acceptance v <> None \/ exists i, Ev (SetAcceptance id i) (Ok v) ∈ h))
  | PublishAcceptance a =>
      accepted_by id actorDID h /\ started id h (Acc_CreatedAt a) /\
      exists v, current id h v /\ Acceptance v = None /\
        Proposal v = Some (Acc_Proposal a) /\ Successor v = Some (Acc_Repository a) /\
        Acc_ActorDID a = RecordAuthorDID (Destination v)
  | Complete i alias didAlias actor _ =>
      i = id /\ actor = actorDID /\ accepted_by id actorDID h /\ (exists t, started id h t)
  | CompletePrivate i alias didAlias actor _ =>
      i = id /\ actor = actorDID /\ accepted_by id actorDID h /\
      exists v t, current id h v /\ SourceRepository v = None /\ AcceptanceStartedAt v = Some t
  | store_Create _ | SetProposal _ _ | store_Cancel _ _ | PublishProposal _
  | DeleteProposal _ _ => False
  | _ => True
  end.

Lemma accepted_by_app id actor h t : accepted_by id actor h -> accepted_by id actor (h ++ t).
Proof. intros (v & ? & ? & ? & ?). exists v. split_and!; set_solver. Qed.
Lemma current_app id h t v : current id h v -> current id (h ++ t) v.
Proof.
  unfold current. intros [? | [[x ?] | [[x ?] | [[x ?] | [x ?]]]]];
    [left | right; left; exists x | do 2 right; left; exists x | do 3 right; left; exists x
    | do 4 right; exists x]; set_solver.
Qed.
Lemma started_app id h t u : started id h u -> started id (h ++ t) u.
Proof. intros (v & Hv & Hu). exists v. split; [by apply current_app | done]. Qed.

Lemma successorPublication_wp id actor v repo eps source now
    (Q : list (event effect) -> result repository.Publication -> Prop) h :
  (forall t r, (forall p, r = Ok p -> repository.Pub_OwnerDID p = RecordAuthorDID (Destination v) /\
      repository.Pub_TransferredTo p = None /\ repository.Pub_UpdatedAt p = now) -> Q (h ++ t) r) ->
  wp (accept_guard id actor) (successorPublication v repo eps source now) Q h.
Proof.
  intros HQ. unfold successorPublication, repositoryPublication.
  destruct (repository.For _ _) as [[web https] ssh].
  destruct (Owner_OrganizationID _) as [o |]; [destruct (Organization _) as [at_id |] |]; cbn.
  - rewrite <- (app_nil_r h). apply HQ. by intros p [= <-].
  - split; [done |]. intros [at_id | e]; cbn; apply HQ; [by intros p [= <-] | done].
  - rewrite <- (app_nil_r h). apply HQ. by intros p [= <-].
Qed.

Lemma sourceRedirectPublication_wp id actor v repo eps successor now
    (Q : list (event effect) -> result repository.Publication -> Prop) h :
  (forall t r, (forall p, r = Ok p -> repository.Pub_OwnerDID p = SourceOwnerDID v /\
      repository.Pub_TransferredTo p = Some (toATIdentity successor) /\
      repository.Pub_UpdatedAt p = now) -> Q (h ++ t) r) ->
  wp (accept_guard id actor) (sourceRedirectPublication v repo eps successor now) Q h.
Proof.
  intros HQ. unfold sourceRedirectPublication, repositoryPublication.
  destruct (repository.For _ _) as [[web https] ssh].
  destruct (SourceOrganizationID v) as [o |]; cbn.
  - split; [done |]. intros [at_id | e]; cbn; apply HQ; [by intros p [= <-] | done].
  - rewrite <- (app_nil_r h). apply HQ. by intros p [= <-].
Qed.

#[local] Arguments successorPublication : simpl never.
#[local] Arguments sourceRedirectPublication : simpl never.

(** What each publication of an acceptance starts and ends with. *)
Definition accepting (id : UUID) (actorDID : string) (at_ : time) (h : list (event effect)) : Prop :=
  accepted_by id actorDID h /\ started id h at_.
Definition continues (id : UUID) (actorDID : string) (at_ : time)
    (P : list (event effect) -> Transfer -> Prop) (h : list (event effect))
    (r : result Transfer) : Prop :=
  accepting id actorDID at_ h /\ forall v, r = Ok v -> current id h v /\ P h v.

Lemma accepting_app id actor at_ h t : accepting id actor at_ h -> accepting id actor at_ (h ++ t).
Proof. intros [? ?]. split; [by apply accepted_by_app | by apply started_app]. Qed.

Lemma ensureSuccessor_wp id actor at_ v repo eps source h :
  accepting id actor at_ h -> current id h v ->
  wp (accept_guard id actor) (ensureSuccessor id v repo eps source at_)
    (continues id actor at_ (fun _ _ => True)) h.
Proof.
  intros Ha Hc. unfold ensureSuccessor.
  destruct (Successor v) as [s |] eqn:Hs; cbn; [by split; [| intros v' [= <-]] |].
  apply wp_svc_bind, successorPublication_wp. intros t [p | e] Hp; [| by split; [apply accepting_app |]].
  destruct (Hp p eq_refl) as (Ho & Hto & Hu). cbn.
  pose proof (accepting_app _ _ _ _ t Ha) as [Hb Hst]. split.
  { split_and!; [done | by rewrite Hu |]. exists v. split; [by apply current_app |].
    left. by split_and!. }
  intros [i | e]; cbn; [| by split; [do 2 apply accepting_app |]].
  split; [split; [done | by apply accepted_by_app] |]. intros [v' | e]; cbn.
  - split; [by do 3 apply accepting_app |]. intros v'' [= <-]. split; [| done].
    right; right; left. eexists. apply elem_of_snoc.
  - by split; [do 3 apply accepting_app |].
Qed.

Definition acceptance_recorded (id : UUID) (h : list (event effect)) (v : Transfer) : Prop :=
  Acceptance v <> None \/ exists i, Ev (SetAcceptance id i) (Ok v) ∈ h.

Lemma ensureAcceptance_wp id actor at_ v h :
  accepting id actor at_ h -> current id h v ->
  wp (accept_guard id actor) (ensureAcceptance id v at_)
    (continues id actor at_ (acceptance_recorded id)) h.
Proof.
  intros Ha Hc. unfold ensureAcceptance.
  destruct (Acceptance v) as [a |] eqn:Hacc; cbn.
  { split; [done |]. intros v' [= <-]. split; [done |]. left. by rewrite Hacc. }
  destruct (Proposal v) as [proposal |] eqn:Hp; cbn; [| by split].
  destruct (Successor v) as [successor |] eqn:Hs; cbn; [| by split].
  pose proof Ha as [Hb Hst]. split.
  { split_and!; [done .. |]. exists v. by split_and!. }
  intros [i | e]; cbn; [| by split; [apply accepting_app |]].
  split; [split; [done | by apply accepted_by_app] |]. intros [v' | e]; cbn.
  - split; [by do 2 apply accepting_app |]. intros v'' [= <-].
    split; [do 3 right; left | right]; exists i; apply elem_of_snoc.
  - by split; [do 2 apply accepting_app |].
Qed.

Lemma ensureSourceRedirect_wp id actor at_ v repo eps h :
  accepting id actor at_ h -> current id h v -> acceptance_recorded id h v ->
  wp (accept_guard id actor) (ensureSourceRedirect id v repo eps at_)
    (continues id actor at_ (fun _ _ => True)) h.
Proof.
  intros Ha Hc Hr. unfold ensureSourceRedirect.
  destruct (String.eqb_spec (SourceRedirectCID v) EmptyString) as [He | _]; cbn;
    [| by split; [| intros v' [= <-]]].
  destruct (Successor v) as [successor |] eqn:Hs; cbn; [| by split].
  apply wp_svc_bind, sourceRedirectPublication_wp.
  intros t [p | e] Hp; [| by split; [apply accepting_app |]].
  destruct (Hp p eq_refl) as (Ho & Hto & Hu). cbn.
  pose proof (accepting_app _ _ _ _ t Ha) as [Hb Hst]. split.
  { split_and!; [done | by rewrite Hu |]. exists v. split; [by apply current_app |]. right.
    split; [split_and!; [done | done | by exists successor] |].
    destruct Hr as [Hr | (i & Hi)]; [by left | right; exists i; set_solver]. }
  intros [i | e]; cbn; [| by split; [do 2 apply accepting_app |]].
  split; [split; [done | by apply accepted_by_app] |]. intros [v' | e]; cbn.
  - split; [by do 3 apply accepting_app |]. intros v'' [= <-]. split; [| done].
    do 4 right. eexists. apply elem_of_snoc.
  - by split; [do 3 apply accepting_app |].
Qed.

#[local] Arguments ensureSuccessor : simpl never.
#[local] Arguments ensureAcceptance : simpl never.
#[local] Arguments ensureSourceRedirect : simpl never.

Lemma AuthorizeAcceptance_wp id actorDID :
  wp (accept_guard id actorDID) (AuthorizeAcceptance id actorDID)
    (fun h r => forall v repo, r = Ok (v, repo) ->
       Ev (store_Get id) (Ok v) ∈ h /\ Transfer_Status v = StatusPending /\
       Ev (CanAccept (Destination v) (TrimSpace actorDID)) (Ok true) ∈ h) [].
Proof.
  unfold AuthorizeAcceptance. cbn. split; [done |]. intros [v | e]; cbn; [| done].
  set (h := [Ev (store_Get id) (Ok v)]).
  apply wp_bind. apply (wp_mono _ _ (fun h' _ => Ev (store_Get id) (Ok v) ∈ h')).
  2: { destruct (_ == _); [destruct (is_some _) |]; cbn;
         [set_solver | split; [done |]; intros; set_solver | set_solver]. }
  clear h. intros h expired Hget.
  destruct (String.eqb_spec (Transfer_Status v) StatusPending) as [Hp | _]; [| done].
  destruct expired; [done |]. cbn. split; [done |]. intros [[] | e]; cbn; [| done ..].
  split; [done |]. intros [repo | e]; cbn; [| done].
  intros v' repo' [= <- <-]. split_and!; [| done |]; set_solver.
Qed.

#[local] Arguments AuthorizeAcceptance : simpl never.

Lemma publications_wp id actorDID v repo eps source at_ aliasID didAlias now h :
  accepting id actorDID at_ h -> current id h v ->
  wp (accept_guard id actorDID)
    (let? value := ensureSuccessor id v repo eps source at_ in
     let? value := ensureAcceptance id value at_ in
     let? value := ensureSourceRedirect id value repo eps at_ in
     wrapErr (wrapf "complete transfer: %w")
       (call (Complete id aliasID didAlias actorDID now))) (fun _ _ => True) h.
Proof.
  intros Ha Hc. apply wp_svc_bind. eapply wp_mono, ensureSuccessor_wp; [| done | done].
  intros h1 [v1 | e] [Ha1 H1]; [| done]. destruct (H1 v1 eq_refl) as [Hc1 _].
  apply wp_svc_bind. eapply wp_mono, ensureAcceptance_wp; [| done | done].
  intros h2 [v2 | e] [Ha2 H2]; [| done]. destruct (H2 v2 eq_refl) as [Hc2 Hr2].
  apply wp_svc_bind. eapply wp_mono, ensureSourceRedirect_wp; [| done | done | done].
  intros h3 [v3 | e] [[Hb Hst] _]; [| done]. cbn. split; [| by intros [x | e]].
  split_and!; [done .. |]. by exists at_.
Qed.

(** An acceptance acts only for an owner of the destination, on a transfer
    read pending whose route was free, and only once its start is recorded; it
    publishes each of the three records at most when the store has none yet,
    in their order: the successor under the destination's author, the
    acceptance naming that successor, the redirect of the source to it once the
    acceptance is stored; and completes last. *)
Theorem Accept_ordered (id : UUID) (actorDID : string) :
  guarded (accept_guard id actorDID) (Accept id actorDID).
Proof.
  apply (wp_guarded _ _ (fun _ _ => True)). unfold Accept.
  apply wp_svc_bind. eapply wp_mono, AuthorizeAcceptance_wp.
  intros h [[v repo] | e] Hv; [| done]. destruct (Hv v repo eq_refl) as (Hget & Hpend & Hcan).
  cbn. split; [done |]. intros [[] | e]; cbn; [| done ..]. split; [done |]. intros now.
  set (h0 := (h ++ _) ++ _).
  assert (Hb : accepted_by id actorDID h0 /\ current id h0 v).
  { split; [exists v; split_and!; [| done | |] | left]; unfold h0; set_solver. }
  destruct Hb as [Hb Hc]. clearbody h0. apply wp_svc_bind.
  apply (wp_mono _ _ (fun h' r => accepted_by id actorDID h' /\
           forall v', r = Ok v' -> current id h' v')).
  2: { destruct (AcceptanceStartedAt v) as [t |]; cbn.
       - split; [done |]. by intros v' [= <-].
       - split; [done |]. intros [v' | e]; cbn; (split; [by apply accepted_by_app |]); [| done].
         intros v'' [= <-]. right; left. eexists. apply elem_of_snoc. }
  intros h' [v' | e] [Hb' Hc']; [| done]. specialize (Hc' v' eq_refl).
  destruct (AcceptanceStartedAt v') as [at_ |] eqn:Hat; [| done]. cbn [deref].
  assert (Ha : accepting id actorDID at_ h') by (split; [done | by exists v']).
  destruct (SourceRepository v') as [source |] eqn:Hsrc.
  - destruct (Proposal v'); [| done]. destruct (publisher service); [| done].
    destruct (repositoryPublisher service); [| done]. destruct (endpoints service); [| done].
    by apply publications_wp.
  - cbn. split; [| done]. split_and!; [done .. |]. by exists v', at_.
Qed.

(** ** Initiating, cancelling, inspecting *)

(** The current owner asks for a transfer to another owner. *)
Definition offered (value : repository.Repository) (actorDID destinationAlias : string)
    (h : list (event effect)) (destination : Owner) : Prop :=
  repository.Repository_State value = repository.StateActive /\
  Ev (CanInitiate (repository.ID value) (TrimSpace actorDID)) (Ok true) ∈ h /\
  Ev (ResolveOwner (TrimSpace destinationAlias)) (Ok destination) ∈ h /\
  sameOwner value destination = false.

Definition initiate_guard (value : repository.Repository) (actorDID destinationAlias : string)
    (h : list (event effect)) X (e : effect X) : Prop :=
  match e with
  | store_Create t =>
      exists destination id alias now err,
        offered value actorDID destinationAlias h destination /\
        Ev (ResolveSourceAlias (repository.ID value)) (Ok alias) ∈ h /\
        Ev (GetPending (repository.ID value)) (Err err) ∈ h /\ Is err ErrNotFound = true /\
        Ev NewID (Ok id) ∈ h /\ Ev Now now ∈ h /\
        t = newTransfer id value alias destination (TrimSpace actorDID) now
  | PublishProposal p =>
      exists destination v source,
        offered value actorDID destinationAlias h destination /\
        SourceRepository v = Some source /\ Proposal v = None /\
        p = proposalPublication (withDestination v destination) source /\
        ((exists t, Ev (store_Create t) (Ok v) ∈ h) \/
         Ev (GetPending (repository.ID value)) (Ok v) ∈ h /\
         sameDestination (Destination v) destination = true /\
         exists now, Ev Now now ∈ h /\ now < ExpiresAt v)
  | SetProposal id proposal =>
      exists p, Ev (PublishProposal p) (Ok proposal) ∈ h /\ Prop_ID p = id
  | SetSuccessor _ _ | StartAcceptance _ _ | SetAcceptance _ _ | SetSourceRedirect _ _
  | store_Cancel _ _ | Complete _ _ _ _ _ | CompletePrivate _ _ _ _ _ | DeleteProposal _ _
  | PublishAcceptance _ | Publish _ => False
  | _ => True
  end.

Definition cancel_guard (id : UUID) (actorDID : string) (h : list (event effect)) X
    (e : effect X) : Prop :=
  let cancellable v :=
    Ev (store_Get id) (Ok v) ∈ h /\ Ev (CanInitiate (RepositoryID v) actorDID) (Ok true) ∈ h /\
    Transfer_Status v = StatusPending /\ AcceptanceStartedAt v = None in
  match e with
  | store_Cancel i _ => i = id /\ exists v, cancellable v
  | DeleteProposal p proposal =>
      exists v source, cancellable v /\ Proposal v = Some proposal /\
        SourceRepository v = Some source /\ p = proposalPublication v source
  | store_Create _ | SetProposal _ _ | SetSuccessor _ _ | StartAcceptance _ _
  | SetAcceptance _ _ | SetSourceRedirect _ _ | Complete _ _ _ _ _
  | CompletePrivate _ _ _ _ _ | PublishProposal _ | PublishAcceptance _ | Publish _ => False
  | _ => True
  end.

Lemma publishPendingProposal_wp value actorDID alias v destination h :
  offered value actorDID alias h destination ->
  ((exists t, Ev (store_Create t) (Ok v) ∈ h) \/
   Ev (GetPending (repository.ID value)) (Ok v) ∈ h /\
   sameDestination (Destination v) destination = true /\
   exists now, Ev Now now ∈ h /\ now < ExpiresAt v) ->
  wp (initiate_guard value actorDID alias) (publishPendingProposal (withDestination v destination))
    (fun _ _ => True) h.
Proof.
  intros Ho Hv. unfold publishPendingProposal. cbn.
  destruct (SourceRepository v) as [source |] eqn:Hs; [| done].
  destruct (Proposal v) as [p |] eqn:Hp; [done |].
  destruct (negb (publisher service)); [done |]. cbn. split.
  - exists destination, v, source. by split_and!.
  - intros [proposal | e]; cbn; [| done]. split; [| by intros [x | e]].
    eexists. split; [apply elem_of_snoc | done].
Qed.

#[local] Arguments publishPendingProposal : simpl never.

Lemma Initiate_guarded value actorDID alias :
  guarded (initiate_guard value actorDID alias) (Initiate value actorDID alias).
Proof.
  apply (wp_guarded _ _ (fun _ _ => True)). unfold Initiate.
  destruct (_ || _) eqn:Hvalid; [done |]. apply orb_false_iff in Hvalid as [_ Hact%neq_false].
  cbn. split; [done |]. intros [[] | e]; cbn; [| done ..]. split; [done |].
  intros [sourceAlias | e]; cbn; [| done]. split; [done |]. intros [destination | e]; cbn; [| done].
  destruct (sameOwner value destination) eqn:Hsame; [done |]. cbn. split; [done |].
  pose (h := [Ev (CanInitiate (repository.ID value) (TrimSpace actorDID)) (Ok true);
    Ev (ResolveSourceAlias (repository.ID value)) (Ok sourceAlias);
    Ev (ResolveOwner (TrimSpace alias)) (Ok destination)]).
  assert (Ho : forall t, offered value actorDID alias (h ++ t) destination).
  { intros t. unfold offered, h. split_and!; [done | set_solver | set_solver | done]. }
  intros [pending | e]; cbn.
  - split; [done |]. intros now. destruct (negb (Before _ _)) eqn:Hbefore; [done |].
    destruct (sameDestination _ _) eqn:Hdest; [| done]. cbn.
    apply publishPendingProposal_wp; [apply (Ho [_; _]) |]. right.
    split_and!; [set_solver | done |]. exists now. split; [set_solver |].
    apply negb_false_iff, Z.ltb_lt in Hbefore. done.
  - destruct (Is e ErrNotFound) eqn:Hnf; [| done]. cbn. split; [done |].
    intros [id | e']; cbn; [| done]. split; [done |]. intros now. split.
    + exists destination, id, sourceAlias, now, e. unfold h.
      split_and!; [apply (Ho [_; _; _]) | | | done | | | done]; set_solver.
    + intros [created | e']; cbn; [| done].
      apply publishPendingProposal_wp; [apply (Ho [_; _; _; _]) |].
      left. eexists. apply (elem_of_snoc [_; _; _; _; _; _]).
Qed.

Lemma Cancel_guarded id actorDID :
  guarded (cancel_guard id actorDID) (Cancel id actorDID).
Proof.
  apply (wp_guarded _ _ (fun _ _ => True)). unfold Cancel. cbn. split; [done |].
  intros [v | e]; cbn; [| done]. split; [done |]. intros [[] | e]; cbn; [| done ..].
  destruct (_ == StatusCancelled); [done |].
  destruct (String.eqb_spec (Transfer_Status v) StatusPending) as [Hp | _]; [| done].
  destruct (AcceptanceStartedAt v) eqn:Hst; [done |]. cbn.
  pose (h := [Ev (store_Get id) (Ok v); Ev (CanInitiate (RepositoryID v) actorDID) (Ok true)]).
  assert (Hc : forall t, Ev (store_Get id) (Ok v) ∈ h ++ t /\
            Ev (CanInitiate (RepositoryID v) actorDID) (Ok true) ∈ h ++ t).
  { intros t. unfold h. split; set_solver. }
  assert (Hcancel : forall t, wp (cancel_guard id actorDID)
            (let! now := call Now in call (store_Cancel id (UTC now))) (fun _ _ => True) (h ++ t)).
  { intros t. cbn -[h app]. split; [done |]. intros now. split; [| done]. split; [done |]. exists v.
    rewrite <- app_assoc. split_and!; [apply Hc | apply Hc | done | done]. }
  specialize (Hcancel []) as Hnil. rewrite app_nil_r in Hnil.
  destruct (Proposal v) as [proposal |] eqn:Hprop; [| exact Hnil].
  destruct (publisher service); [| exact Hnil].
  destruct (SourceRepository v) as [source |] eqn:Hsrc; [| done]. cbn [deref].
  split.
  - exists v, source. pose proof (Hc []) as H0'. rewrite app_nil_r in H0'. destruct H0'. split; [| done]. split_and!; done.
  - intros [[] | e]; [| done]. apply (Hcancel [_]).
Qed.

(** C4: a transfer is offered only by a current owner of the active
    repository, to an owner who is another one, either newly, when none is
    pending, or by resuming the pending one while it has not expired and goes
    to the same destination; its proposal is published at most when the store
    has none. It is cancelled, and exactly its stored proposal deleted, only by
    a current owner, while it is pending and its acceptance has not started.
    Nobody sees it who is not an owner of the repository, its source or its
    destination. *)
Theorem transfers_authorised (value : repository.Repository) (actorDID alias : string) (id : UUID) :
  guarded (initiate_guard value actorDID alias) (Initiate value actorDID alias) /\
  guarded (cancel_guard id actorDID) (Cancel id actorDID) /\
  ensures (fun tr r => forall v, r = Ok v ->
    Ev (store_Get id) (Ok v) ∈ tr /\
    (Ev (CanInitiate (RepositoryID v) (TrimSpace (TrimSpace actorDID))) (Ok true) ∈ tr \/
     (exists source, AccountDID source = SourceOwnerDID v /\
        Owner_OrganizationID source = SourceOrganizationID v /\
        Ev (CanAccept source (TrimSpace actorDID)) (Ok true) ∈ tr) \/
     Ev (CanAccept (Destination v) (TrimSpace (TrimSpace actorDID))) (Ok true) ∈ tr))
    (Get id actorDID).
Proof.
  split; [apply Initiate_guarded |]. split; [apply Cancel_guarded |].
  apply (wp_ensures (fun _ _ _ => True)). unfold Get, authorizeInspection. cbn.
  split; [done |]. intros [v | e]; cbn; [| done]. split; [done |].
  intros [[] | e]; cbn; [| | done]; [intros v' [= <-]; split; [| left]; set_solver |].
  split; [done |]. intros [[] | e]; cbn; [| | done].
  - intros v' [= <-]. split; [set_solver |]. right; left.
    refine (ex_intro _ _ (conj _ (conj _ (elem_of_snoc [_; _] _)))); done.
  - split; [done |]. intros [[] | e]; cbn; [| done ..].
    intros v' [= <-]. split; [set_solver |]. do 2 right. set_solver.
Qed.
End transfer.

Module transfer_examples.
Import Demo.

(** C70 at the demonstration identifiers. *)
Lemma record_keys_valid_witness :
  match_class_n is_lower_hex 32 (ProposalRecordKey 42) = true /\
  rkey_grammar (ProposalRecordKey 42) = true /\
  match_class_n is_base32_lower 52 (AcceptanceRecordKey "at://did:plc:a/c/r") = true /\
  rkey_grammar (AcceptanceRecordKey "at://did:plc:a/c/r") = true.
Proof. apply (record_keys_valid 42 "at://did:plc:a/c/r"). Defined.
End transfer_examples.
End transfer.
