(* ===== verification/TransferStore.v ===== *)
(** * TransferStore: the tables of [transfers.sql], the life of a transfer and
    the move of ownership it ends with. *)

From S2P Require Import Prelude.
From S2P Require Import GoText.
From S2P Require Import Encoding.
From S2P Require Import Syntax.
From S2P Require Import Repository.
From S2P Require Import RepositoryStore.
From S2P Require Import Transfer.

Module transferstore.
Import transfer.

(** ** The tables *)

(** The columns of [core.repository_transfers] no query updates, and those the
    workflow fills in.  A pair of columns that are NULL together is an option. *)
Record Offer := mkOffer {
  o_ID : UUID; o_RepositoryID : UUID; o_SourceOwnerDid : string;
  o_SourceOrganizationID : option UUID; o_SourceOwnerAlias : string; o_Source : option Identity;
  o_DestinationOwnerDid : string; o_DestinationOrganizationID : option UUID;
  o_DestinationOwnerAlias : string; o_InitiatedByDid : string; o_CreatedAt : time;
  o_ExpiresAt : time
}.
Record TransferRow := mkTransferRow {
  offer : Offer; row_Proposal : option Identity; row_Successor : option Identity;
  row_Acceptance : option Identity; row_SourceRedirectCid : option string; row_Status : Status;
  row_StartedAt : option time; row_AcceptedByDid : option string; row_AcceptedAt : option time;
  row_CancelledAt : option time
}.
#[export] Instance Offer_eq_dec : EqDecision Offer.
Proof. solve_decision. Defined.
#[export] Instance TransferRow_eq_dec : EqDecision TransferRow.
Proof. solve_decision. Defined.

Definition row_ID (row : TransferRow) : UUID := o_ID (offer row).

(** A row of [core.owner_routes], and of [core.organizations] as far as it is
    read here. *)
Record Route := mkRoute {
  route_alias : string; route_account : option string; route_organization : option UUID;
  route_created : time
}.
Record OrganizationRow := mkOrganizationRow {
  creatorDid : string; org_identity : option repository.ATIdentity; org_active : bool;
  org_present : bool
}.

(** [owners] are the members of role owner; [teams] the repositories granted to
    teams; [projections] the local repository of each record of the network. *)
Record db := mkDb {
  transfers : list TransferRow; repositories : list store.RepositoryRow;
  aliases : list store.AliasRow; teams : list (UUID * UUID);
  projections : list (string * option UUID); routes : list Route;
  organizations : gmap UUID OrganizationRow; owners : list (UUID * string);
  fresh : UUID; clock : time
}.
Definition set_transfers (s : db) (rows : list TransferRow) : db :=
  mkDb rows (repositories s) (aliases s) (teams s) (projections s) (routes s) (organizations s)
    (owners s) (fresh s) (clock s).

Definition text (o : option string) : string :=
  match o with Some s => s | None => EmptyString end.

Definition transferFromRow (row : TransferRow) : Transfer :=
  let o := offer row in
  mkTransfer (o_ID o) (o_RepositoryID o) (o_SourceOwnerDid o) (o_SourceOrganizationID o)
    (o_SourceOwnerAlias o) (o_Source o)
    (mkOwner (if is_some (o_DestinationOrganizationID o) then OwnerOrganization else OwnerAccount)
       (o_DestinationOwnerAlias o) (o_DestinationOwnerDid o) (o_DestinationOrganizationID o) None
       (o_DestinationOwnerDid o))
    (o_InitiatedByDid o) (text (row_AcceptedByDid row)) (row_Proposal row) (row_Successor row)
    (row_Acceptance row) (text (row_SourceRedirectCid row)) (row_Status row) (o_CreatedAt o)
    (o_ExpiresAt o) (row_StartedAt row) (row_AcceptedAt row) (row_CancelledAt row).

(** [repositoryFromRow] of this package, which reads no fork source. *)
Definition repositoryFromRow (row : store.RepositoryRow) : repository.Repository :=
  let v := store.row_repository row in
  repository.mkRepository (repository.ID v) (repository.OwnerDID v) (repository.OrganizationID v)
    EmptyString (repository.Slug v) (repository.DisplayName v) (repository.Description v)
    (repository.Repository_Visibility v) (repository.Repository_State v)
    (repository.DefaultBranch v) (repository.StorageKey v) (repository.ATURI v)
    (repository.ATCID v) None (repository.TransferredFrom v) (repository.ForkCount v) false
    (repository.ArchivedAt v) (repository.CreatedAt v) (repository.UpdatedAt v).

Definition insertedRow (v : Transfer) : TransferRow :=
  let d := Destination v in
  mkTransferRow (mkOffer (ID v) (RepositoryID v) (SourceOwnerDID v) (SourceOrganizationID v)
    (SourceOwnerAlias v) (SourceRepository v) (AccountDID d) (Owner_OrganizationID d) (Alias d)
    (InitiatedByDID v) (CreatedAt v) (ExpiresAt v))
    None None None None StatusPending None None None None.

Definition queryError : error := Errorf "repository transfer query: %w" [W (New "check constraint")].

(** The check constraints: the expiry, the acceptance window, the states. *)
Definition at_most (x : time) (y : option time) : bool :=
  match y with Some y => x <=? y | None => false end.
Definition checks (row : TransferRow) : bool :=
  let o := offer row in
  (o_CreatedAt o <? o_ExpiresAt o)
  && match row_StartedAt row with
     | None => true
     | Some t => (o_CreatedAt o <=? t) && (t <? o_ExpiresAt o)
     end
  && (((row_Status row == StatusPending) && negb (is_some (row_AcceptedByDid row))
        && negb (is_some (row_AcceptedAt row)) && negb (is_some (row_CancelledAt row)))
      || ((row_Status row == StatusCompleted) && is_some (row_AcceptedByDid row)
          && match row_StartedAt row with
             | Some t => at_most t (row_AcceptedAt row)
             | None => false
             end
          && negb (is_some (row_CancelledAt row)))
      || ((row_Status row == StatusCancelled) && negb (is_some (row_StartedAt row))
          && negb (is_some (row_AcceptedByDid row)) && negb (is_some (row_AcceptedAt row))
          && is_some (row_CancelledAt row))).

Definition is_pending (row : TransferRow) : bool := row_Status row == StatusPending.
Definition has_row_id (id : UUID) (row : TransferRow) : bool := row_ID row =? id.
Definition replaced (row' : TransferRow) (rows : list TransferRow) : list TransferRow :=
  update_where (has_row_id (row_ID row')) (fun _ => row') rows.

(** [UPDATE ... WHERE id = ... AND status = 'pending' AND guard RETURNING *]. *)
Definition update_pending (s : db) (id : UUID) (missing : error) (guard : TransferRow -> bool)
    (update : TransferRow -> TransferRow) : result Transfer * db :=
  match find_row missing (fun row => has_row_id id row && (is_pending row && guard row))
          (transfers s) with
  | Err e => (Err e, s)
  | Ok row =>
      let row' := update row in
      if negb (checks row') then (Err queryError, s)
      else (Ok (transferFromRow row'), set_transfers s (replaced row' (transfers s)))
  end.

Definition same_uri (stored : option Identity) (i : Identity) : bool :=
  match stored with None => true | Some old => URI old == URI i end.

Definition with_proposal (i : Identity) (r : TransferRow) : TransferRow :=
  mkTransferRow (offer r) (Some i) (row_Successor r) (row_Acceptance r) (row_SourceRedirectCid r)
    (row_Status r) (row_StartedAt r) (row_AcceptedByDid r) (row_AcceptedAt r) (row_CancelledAt r).
Definition with_successor (i : Identity) (r : TransferRow) : TransferRow :=
  mkTransferRow (offer r) (row_Proposal r) (Some i) (row_Acceptance r) (row_SourceRedirectCid r)
    (row_Status r) (row_StartedAt r) (row_AcceptedByDid r) (row_AcceptedAt r) (row_CancelledAt r).
Definition with_acceptance (i : Identity) (r : TransferRow) : TransferRow :=
  mkTransferRow (offer r) (row_Proposal r) (row_Successor r) (Some i) (row_SourceRedirectCid r)
    (row_Status r) (row_StartedAt r) (row_AcceptedByDid r) (row_AcceptedAt r) (row_CancelledAt r).
Definition with_redirect (cid : string) (r : TransferRow) : TransferRow :=
  mkTransferRow (offer r) (row_Proposal r) (row_Successor r) (row_Acceptance r) (Some cid)
    (row_Status r) (row_StartedAt r) (row_AcceptedByDid r) (row_AcceptedAt r) (row_CancelledAt r).
(** [COALESCE(acceptance_started_at, started_at)]. *)
Definition with_start (t : time) (r : TransferRow) : TransferRow :=
  mkTransferRow (offer r) (row_Proposal r) (row_Successor r) (row_Acceptance r)
    (row_SourceRedirectCid r) (row_Status r)
    (match row_StartedAt r with Some t' => Some t' | None => Some t end) (row_AcceptedByDid r)
    (row_AcceptedAt r) (row_CancelledAt r).
Definition cancelled (t : time) (r : TransferRow) : TransferRow :=
  mkTransferRow (offer r) (row_Proposal r) (row_Successor r) (row_Acceptance r)
    (row_SourceRedirectCid r) StatusCancelled (row_StartedAt r) (row_AcceptedByDid r)
    (row_AcceptedAt r) (Some t).
Definition completed (actor : string) (t : time) (r : TransferRow) : TransferRow :=
  mkTransferRow (offer r) (row_Proposal r) (row_Successor r) (row_Acceptance r)
    (row_SourceRedirectCid r) StatusCompleted (row_StartedAt r) (Some actor) (Some t)
    (row_CancelledAt r).

Section tables.
Context (lower : string -> string) (world : forall X, effect X -> X).

(** ** The queries that read *)

Definition exact_route (owner : string) (route : Route) : bool :=
  lower (route_alias route) == lower owner.
(** [ORDER BY exact first, created_at DESC]. *)
Definition route_before (owner : string) (x y : Route) : Prop :=
  (if exact_route owner x then true
   else negb (exact_route owner y) && (route_created y <=? route_created x)) = true.
#[export] Instance route_before_dec owner : RelDecision (route_before owner).
Proof. intros x y. unfold route_before. apply _. Defined.

Definition resolveOwner (s : db) (owner : string) : result Owner :=
  let candidates := List.filter (fun route =>
    exact_route owner route
    || match route_account route with Some did => did == owner | None => false end) (routes s) in
  match merge_sort (route_before owner) candidates with
  | [] => Err ErrNotFound
  | route :: _ =>
      match route_organization route, route_account route with
      | None, Some did => Ok (mkOwner OwnerAccount (route_alias route) did None None did)
      | Some id, _ =>
          match organizations s !! id with
          | Some o =>
              if org_active o && org_present o
              then Ok (mkOwner OwnerOrganization (route_alias route) (creatorDid o) (Some id)
                         (org_identity o) (creatorDid o))
              else Err (Errorf "resolve transfer owner: %w" [W ErrNotFound])
          | None => Err (Errorf "resolve transfer owner: %w" [W ErrNotFound])
          end
      | None, None => Err (Errorf "resolve transfer owner: %w" [W ErrNotFound])
      end
  end.

Definition organizationIdentity (s : db) (id : UUID) : result repository.ATIdentity :=
  match organizations s !! id with
  | Some o =>
      if negb (org_present o) then Err ErrNotFound else
      match org_identity o with
      | Some i => Ok i
      | None => Err (Errorf "resolve transfer organization: %w" [W ErrValidation])
      end
  | None => Err ErrNotFound
  end.

(** Whether [did] is an owner of [organizationID]. *)
Definition is_owner (s : db) (organizationID : UUID) (did : string) : bool :=
  existsb (fun m => (fst m =? organizationID) && (snd m == did)) (owners s).

Definition is_active (row : store.RepositoryRow) : bool :=
  (repository.Repository_State (store.row_repository row) == repository.StateActive)
  && store.present row.

Definition canInitiate (s : db) (repositoryID : UUID) (did : string) : bool :=
  existsb (fun row => store.has_id repositoryID row && is_active row
    && match repository.OrganizationID (store.row_repository row) with
       | None => repository.OwnerDID (store.row_repository row) == did
       | Some id => is_owner s id did
       end) (repositories s).

Definition canAccept (s : db) (owner : Owner) (did : string) : bool :=
  match Owner_OrganizationID owner with
  | None => did == AccountDID owner
  | Some id => is_owner s id did
  end.

Definition sourceAlias (s : db) (repositoryID : UUID) : result string :=
  match List.find (fun row => store.has_id repositoryID row && is_active row) (repositories s) with
  | None => Err ErrNotFound
  | Some row =>
      let v := store.row_repository row in
      route_alias <$> find_row ErrNotFound (fun route =>
        match repository.OrganizationID v with
        | None => match route_account route with
                  | Some did => did == repository.OwnerDID v | None => false end
        | Some id => same_id (route_organization route) (Some id)
        end) (routes s)
  end.

(** The address [repo] would have at the destination, and the old ones it would
    keep, are not another repository's. *)
Definition route_available (s : db) (o : Offer) (repo : repository.Repository) : bool :=
  let slug := lower (repository.Slug repo) in
  negb (existsb (fun row =>
    let v := store.row_repository row in
    negb (repository.ID v =? repository.ID repo) && store.present row
    && (lower (repository.Slug v) == slug)
    && ((negb (is_some (o_DestinationOrganizationID o))
         && negb (is_some (repository.OrganizationID v))
         && (repository.OwnerDID v == o_DestinationOwnerDid o))
        || same_id (repository.OrganizationID v) (o_DestinationOrganizationID o)))
    (repositories s))
  && negb (existsb (fun a =>
    negb (store.Alias_RepositoryID a =? repository.ID repo)
    && (lower (store.SlugAlias a) == slug)
    && ((lower (store.OwnerAlias a) == lower (o_DestinationOwnerAlias o))
        || (lower (store.OwnerAlias a) == lower (o_SourceOwnerAlias o))
        || (negb (is_some (o_SourceOrganizationID o))
            && (lower (store.OwnerAlias a) == lower (o_SourceOwnerDid o)))))
    (aliases s)).

Definition canComplete (s : db) (id : UUID) : bool :=
  existsb (fun t => has_row_id id t && is_pending t
    && existsb (fun row => store.has_id (o_RepositoryID (offer t)) row && is_active row
         && route_available s (offer t) (store.row_repository row)) (repositories s))
    (transfers s).

(** [ORDER BY created_at DESC, id DESC] after the cursor. *)
Definition row_key (row : TransferRow) : time * UUID :=
  (o_CreatedAt (offer row), row_ID row).
Definition newest_first (x y : TransferRow) : Prop := store.key_lt (row_key x) (row_key y) = false.
#[export] Instance newest_first_dec : RelDecision newest_first.
Proof. intros x y. unfold newest_first. apply _. Defined.

Definition page (s : db) (repositoryID : UUID) (after : option UUID) (limit : Z)
    : list TransferRow :=
  let own := List.filter (fun t => o_RepositoryID (offer t) =? repositoryID) (transfers s) in
  let later :=
    match after with
    | None => own
    | Some id => match List.find (has_row_id id) own with
                 | None => []
                 | Some c => List.filter (fun t => store.key_lt (row_key t) (row_key c)) own
                 end
    end in
  firstn (Z.to_nat limit) (merge_sort newest_first later).

(** ** Completing: one statement of common table expressions *)

(** The aliases the old addresses become. *)
Definition expected_aliases (o : Offer) (repo : repository.Repository) (aliasID didAliasID : UUID)
    : list store.AliasRow :=
  let entry id owner := store.mkAliasRow id (o_RepositoryID o) owner (repository.Slug repo) in
  entry aliasID (o_SourceOwnerAlias o)
  :: (if negb (is_some (o_SourceOrganizationID o))
         && (lower (o_SourceOwnerDid o) != lower (o_SourceOwnerAlias o))
      then [entry didAliasID (o_SourceOwnerDid o)] else []).

Definition same_address (a b : store.AliasRow) : bool :=
  (lower (store.OwnerAlias a) == lower (store.OwnerAlias b))
  && (lower (store.SlugAlias a) == lower (store.SlugAlias b)).

(** [INSERT ... ON CONFLICT (address) DO UPDATE ... WHERE same repository
    RETURNING]: the aliases, and how many rows were returned; [None] when an
    identifier is taken. *)
Fixpoint insert_aliases (expected als : list store.AliasRow) : option (list store.AliasRow * nat) :=
  match expected with
  | [] => Some (als, O)
  | a :: rest =>
      match List.find (same_address a) als with
      | Some old =>
          '(als', n) ← insert_aliases rest als;
          Some (als', if store.Alias_RepositoryID old =? store.Alias_RepositoryID a then S n else n)
      | None =>
          if existsb (fun b => store.Alias_ID b =? store.Alias_ID a) als then None else
          '(als', n) ← insert_aliases rest (als ++ [a]);
          Some (als', S n)
      end
  end.

(** What becomes of the repository: one with a public record continues it in
    the successor. *)
Definition moved (portable : bool) (row : TransferRow) (acceptedAt : time)
    (v : repository.Repository) : repository.Repository :=
  let o := offer row in
  let successor := match row_Successor row with
                   | Some i => i | None => mkIdentity EmptyString EmptyString end in
  repository.mkRepository (repository.ID v) (o_DestinationOwnerDid o)
    (o_DestinationOrganizationID o) (repository.OrganizationSlug v) (repository.Slug v)
    (repository.DisplayName v) (repository.Description v) (repository.Repository_Visibility v)
    (repository.Repository_State v) (repository.DefaultBranch v) (repository.StorageKey v)
    (if portable then URI successor else repository.ATURI v)
    (if portable then CID successor else repository.ATCID v) (repository.ForkedFrom v)
    (if portable then option_map toATIdentity (o_Source o) else repository.TransferredFrom v)
    (repository.ForkCount v) (repository.ViewerCanAdmin v) (repository.ArchivedAt v)
    (repository.CreatedAt v) acceptedAt.

Definition started_in_time (row : TransferRow) : bool :=
  match row_StartedAt row with Some t => t <? o_ExpiresAt (offer row) | None => false end.
Definition portable_ready (row : TransferRow) : bool :=
  is_some (row_Successor row) && is_some (row_Acceptance row)
  && is_some (row_SourceRedirectCid row) && started_in_time row.
Definition private_ready (row : TransferRow) : bool :=
  negb (is_some (o_Source (offer row))) && started_in_time row.

Definition moved_row (portable : bool) (t : TransferRow) (acceptedAt : time)
    (row : store.RepositoryRow) : store.RepositoryRow :=
  store.mkRepositoryRow (moved portable t acceptedAt (store.row_repository row))
    (store.DeletedAt row).

Definition linked (portable : bool) (t : TransferRow) (ps : list (string * option UUID))
    : list (string * option UUID) :=
  match row_Successor t with
  | Some i =>
      if portable
      then map (fun p => if fst p == URI i then (fst p, Some (o_RepositoryID (offer t))) else p) ps
      else ps
  | None => ps
  end.

(** [Complete] and [CompletePrivate]: aliases for the old addresses, the team
    grants removed, the repository moved, its record linked, the transfer
    completed; all or nothing when a constraint fails, and nothing when a guard
    does, but for the aliases. *)
Definition complete (portable : bool) (id aliasID didAliasID : UUID) (actor : string)
    (acceptedAt : time) (s : db) : result Transfer * db :=
  let ready := if portable then portable_ready else private_ready in
  match find_row ErrConflict (fun t => has_row_id id t && (is_pending t && ready t))
          (transfers s) with
  | Err e => (Err e, s)
  | Ok t =>
      let o := offer t in
      match find_row ErrConflict (store.has_id (o_RepositoryID o)) (repositories s) with
      | Err e => (Err e, s)
      | Ok row =>
          if negb (route_available s o (store.row_repository row)) then (Err ErrConflict, s) else
          let expected := expected_aliases o (store.row_repository row) aliasID didAliasID in
          match insert_aliases expected (aliases s) with
          | None => (Err ErrConflict, s)
          | Some (als, n) =>
              if negb (n =? length expected)%nat
              then (Err ErrConflict,
                    mkDb (transfers s) (repositories s) als (teams s) (projections s) (routes s)
                      (organizations s) (owners s) (fresh s) (clock s)) else
              let row' := moved_row portable t acceptedAt row in
              let t' := completed actor acceptedAt t in
              if negb (store.admissible lower (repositories s) row') then (Err ErrConflict, s)
              else if negb (checks t') then (Err queryError, s) else
              (Ok (transferFromRow t'),
               mkDb (replaced t' (transfers s))
                 (update_where (store.has_id (o_RepositoryID o)) (fun _ => row') (repositories s))
                 als (List.filter (fun g => negb (snd g =? o_RepositoryID o)) (teams s))
                 (linked portable t (projections s)) (routes s) (organizations s) (owners s)
                 (fresh s) (clock s))
          end
      end
  end.

Definition handle X (e : effect X) (s : db) : X * db :=
  match e in effect X return X * db with
  | ResolveOwner alias => (resolveOwner s alias, s)
  | ResolveOrganizationIdentity id => (organizationIdentity s id, s)
  | CanInitiate id did => (Ok (canInitiate s id did), s)
  | CanAccept owner did => (Ok (canAccept s owner did), s)
  | CanComplete id => (Ok (canComplete s id), s)
  | ResolveSourceAlias id => (sourceAlias s id, s)
  | GetRepository id =>
      (repositoryFromRow <$> find_row ErrNotFound
         (fun row => store.has_id id row && is_active row) (repositories s), s)
  | GetPending id =>
      (transferFromRow <$> find_row ErrNotFound
         (fun t => (o_RepositoryID (offer t) =? id) && is_pending t) (transfers s), s)
  | store_Create v =>
      let row := insertedRow v in
      if existsb (fun t => has_row_id (ID v) t
                  || ((o_RepositoryID (offer t) =? RepositoryID v) && is_pending t)) (transfers s)
      then (Err ErrConflict, s)
      else if negb (checks row) then (Err queryError, s)
      else (Ok (transferFromRow row), set_transfers s (transfers s ++ [row]))
  | store_Get id => (transferFromRow <$> find_row ErrNotFound (has_row_id id) (transfers s), s)
  | store_Page id after limit => (Ok (map transferFromRow (page s id after limit)), s)
  | SetProposal id i =>
      update_pending s id ErrNotFound (fun t => same_uri (row_Proposal t) i) (with_proposal i)
  | SetSuccessor id i =>
      update_pending s id ErrNotFound (fun t => same_uri (row_Successor t) i) (with_successor i)
  | StartAcceptance id startedAt =>
      update_pending s id ErrConflict
        (fun t => is_some (row_StartedAt t) || (startedAt <? o_ExpiresAt (offer t)))
        (with_start startedAt)
  | SetAcceptance id i =>
      update_pending s id ErrNotFound (fun t => same_uri (row_Acceptance t) i) (with_acceptance i)
  | SetSourceRedirect id cid =>
      update_pending s id ErrNotFound (fun _ => true) (with_redirect cid)
  | store_Cancel id cancelledAt =>
      update_pending s id ErrNotFound (fun t => negb (is_some (row_StartedAt t)))
        (cancelled cancelledAt)
  | Complete id aliasID didAliasID actor acceptedAt =>
      complete true id aliasID didAliasID actor acceptedAt s
  | CompletePrivate id aliasID didAliasID actor acceptedAt =>
      complete false id aliasID didAliasID actor acceptedAt s
  | NewID =>
      (Ok (fresh s), mkDb (transfers s) (repositories s) (aliases s) (teams s) (projections s)
                       (routes s) (organizations s) (owners s) (fresh s + 1) (clock s))
  | Now => (clock s, s)
  | e => (world _ e, s)
  end.
End tables.
#[global] Arguments checks : simpl never.

(** ** The life of a transfer *)

Section history.
Context (lower : string -> string) (world : forall X, effect X -> X).

(** One call of the store or of a provider, the passing of time, or a change
    of the other tables by other parts of the system; those of any number of
    concurrent requests, in any order. *)
Inductive step : db -> db -> Prop :=
| step_effect X (e : effect X) x s s' : handle lower world X e s = (x, s') -> step s s'
| step_others s s' : transfers s' = transfers s -> step s s'.

Definition settled (t : TransferRow) : Prop := is_pending t = false.

(** A completed transfer was started in time; one of a public record has all
    its records. *)
Definition row_ok (t : TransferRow) : Prop :=
  checks t = true /\
  (row_Status t = StatusCompleted ->
   o_Source (offer t) = None \/
   row_Successor t <> None /\ row_Acceptance t <> None /\ row_SourceRedirectCid t <> None).

Definition keeps_uri (x y : option Identity) : Prop :=
  forall i, x = Some i -> exists j, y = Some j /\ URI j = URI i.

Definition row_later (t t' : TransferRow) : Prop :=
  offer t' = offer t /\ (settled t -> t' = t) /\
  (forall at_, row_StartedAt t = Some at_ ->
     row_StartedAt t' = Some at_ /\ (is_pending t = true -> row_Status t' <> StatusCancelled)) /\
  keeps_uri (row_Proposal t) (row_Proposal t') /\ keeps_uri (row_Successor t) (row_Successor t') /\
  keeps_uri (row_Acceptance t) (row_Acceptance t').

Definition pending_unique (rows : list TransferRow) : Prop :=
  forall t t', t ∈ rows -> t' ∈ rows -> is_pending t = true -> is_pending t' = true ->
    o_RepositoryID (offer t) = o_RepositoryID (offer t') -> row_ID t = row_ID t'.

Definition rows_ok (rows : list TransferRow) : Prop :=
  NoDup (map row_ID rows) /\ pending_unique rows /\ Forall row_ok rows.
Definition rows_later (rows rows' : list TransferRow) : Prop :=
  forall t, t ∈ rows -> exists t', t' ∈ rows' /\ row_later t t'.

Lemma keeps_uri_refl x : keeps_uri x x.
Proof. intros i ->. by exists i. Qed.
Lemma keeps_uri_trans x y z : keeps_uri x y -> keeps_uri y z -> keeps_uri x z.
Proof.
  intros Hxy Hyz i (j & Hj & Hu)%Hxy. apply Hyz in Hj as (k & Hk & Hu').
  exists k. split; [done | congruence].
Qed.
Lemma keeps_same_uri x i : same_uri x i = true -> keeps_uri x (Some i).
Proof. intros Hs j ->. cbn in Hs. apply String.eqb_eq in Hs. by exists i. Qed.

#[local] Hint Resolve keeps_uri_refl keeps_same_uri : core.

#[export] Instance row_later_refl : Reflexive row_later.
Proof. intros t. split_and!; auto. intros at_ Hat. split; [done |]. by intros ->%String.eqb_eq. Qed.

#[export] Instance row_later_trans : Transitive row_later.
Proof.
  intros t1 t2 t3 (O1 & S1 & A1 & P1 & Q1 & R1) (O2 & S2 & A2 & P2 & Q2 & R2).
  split_and!; [congruence | | | by eapply keeps_uri_trans ..].
  - intros Hs. rewrite S2; [by apply S1 |]. by rewrite S1.
  - intros at_ (H2 & Hc)%A1. destruct (A2 _ H2) as [H3 Hc']. split; [done |]. intros Hp.
    destruct (is_pending t2) eqn:Hp2; [by apply Hc' |]. rewrite (S2 Hp2). by apply Hc.
Qed.

#[export] Instance rows_later_preorder : PreOrder rows_later.
Proof.
  split; [intros rows t Ht; by exists t |]. intros r1 r2 r3 H12 H23 t (t2 & Hin & Hl)%H12.
  apply H23 in Hin as (t3 & Hin & Hl'). exists t3. split; [done |]. by transitivity t2.
Qed.
Lemma replaced_elem t' rows x' :
  x' ∈ replaced t' rows <->
  exists x, x ∈ rows /\ x' = if has_row_id (row_ID t') x then t' else x.
Proof. unfold replaced, update_where. rewrite list_elem_of_fmap. naive_solver. Qed.

(** A pending row may become any later one that satisfies the constraints. *)
Lemma replace_ok rows t t' :
  rows_ok rows -> t ∈ rows -> is_pending t = true -> row_later t t' -> row_ok t' ->
  rows_ok (replaced t' rows) /\ rows_later rows (replaced t' rows).
Proof.
  intros (Hnd & Hu & Hok) Ht Hp Hl Hok'.
  assert (Hid : row_ID t' = row_ID t) by (unfold row_ID; by rewrite (proj1 Hl)).
  assert (Hkey : forall x, x ∈ rows -> has_row_id (row_ID t') x = true -> x = t).
  { intros x Hx Hh%Z.eqb_eq. eapply NoDup_map_inj; [exact Hnd | done | done | congruence]. }
  split; [split_and! |].
  - replace (map row_ID (replaced t' rows)) with (map row_ID rows); [done |].
    unfold replaced, update_where. rewrite map_map. apply map_ext. intros x.
    destruct (has_row_id _ x) eqn:Hh; [by apply Z.eqb_eq in Hh | done].
  - assert (Hback : forall x', x' ∈ replaced t' rows -> is_pending x' = true ->
              exists x, x ∈ rows /\ is_pending x = true /\ row_ID x = row_ID x' /\
                o_RepositoryID (offer x) = o_RepositoryID (offer x')).
    { intros x' (x & Hx & ->)%replaced_elem Hpx. exists x. split; [done |].
      destruct (has_row_id _ x) eqn:Hh; [| done]. apply Hkey in Hh as ->; [| done].
      split_and!; [done | done | by rewrite (proj1 Hl)]. }
    intros x' y' Hx' Hy' Hpx Hpy Hr. destruct (Hback x' Hx' Hpx) as (x & ? & ? & <- & ?).
    destruct (Hback y' Hy' Hpy) as (y & ? & ? & <- & ?). apply Hu; congruence.
  - rewrite Forall_forall in Hok. apply Forall_forall. intros x' (x & Hx & ->)%replaced_elem.
    destruct (has_row_id _ x); [done | by apply Hok].
  - intros x Hx. exists (if has_row_id (row_ID t') x then t' else x). split.
    + apply replaced_elem. by exists x.
    + destruct (has_row_id _ x) eqn:Hh; [apply Hkey in Hh as ->; done | done].
Qed.

Lemma insert_ok rows t :
  rows_ok rows -> is_pending t = true -> row_ok t ->
  (forall x, x ∈ rows -> row_ID x <> row_ID t /\
     (o_RepositoryID (offer x) = o_RepositoryID (offer t) -> is_pending x = false)) ->
  rows_ok (rows ++ [t]) /\ rows_later rows (rows ++ [t]).
Proof.
  intros (Hnd & Hu & Hok) Hp Hokt Hnew. split; [split_and! |].
  - rewrite map_app. apply NoDup_app. split_and!; [done | | apply NoDup_singleton].
    intros x (y & -> & Hin)%list_elem_of_fmap Hx%list_elem_of_singleton. by apply (Hnew y).
  - intros x y [Hx | ->%list_elem_of_singleton]%elem_of_app
      [Hy | ->%list_elem_of_singleton]%elem_of_app Hpx Hpy Hr; [by apply Hu | | | done].
    + destruct (Hnew x Hx) as [_ Hn]. by rewrite Hn in Hpx.
    + destruct (Hnew y Hy) as [_ Hn]. by rewrite Hn in Hpy.
  - apply Forall_app. split; [done |]. by constructor.
  - intros x Hx. exists x. split; [set_solver | done].
Qed.

Lemma update_pending_step s id missing guard update r s' :
  rows_ok (transfers s) -> update_pending s id missing guard update = (r, s') ->
  (forall t, is_pending t = true -> guard t = true ->
     row_later t (update t) /\ row_Status (update t) <> StatusCompleted) ->
  rows_ok (transfers s') /\ rows_later (transfers s) (transfers s').
Proof.
  intros Hs. unfold update_pending.
  destruct (find_row _ _ _) as [t | e] eqn:Hf; [| by intros [= _ <-]].
  apply find_row_Ok in Hf as (Ht & [_ [Hp Hg]%andb_true_iff]%andb_true_iff).
  destruct (checks (update t)) eqn:Hc; cbn; [| by intros [= _ <-]]. intros [= _ <-] Hup. cbn.
  destruct (Hup t Hp Hg) as [Hl Hst]. eapply replace_ok; [done | exact Ht | done | done |].
  split; [done |]. by intros ?%Hst.
Qed.

Lemma pending_not t : is_pending t = true -> row_Status t <> StatusCompleted /\ row_Status t <> StatusCancelled.
Proof. intros ->%String.eqb_eq. done. Qed.

(** The updates of the single columns. *)
Lemma column_later t t' :
  is_pending t = true -> offer t' = offer t -> row_Status t' = row_Status t ->
  (forall at_, row_StartedAt t = Some at_ -> row_StartedAt t' = Some at_) ->
  keeps_uri (row_Proposal t) (row_Proposal t') -> keeps_uri (row_Successor t) (row_Successor t') ->
  keeps_uri (row_Acceptance t) (row_Acceptance t') ->
  row_later t t' /\ row_Status t' <> StatusCompleted.
Proof.
  intros Hp Ho Hst Hat Hq Hs Ha. pose proof (pending_not t Hp) as [Hn Hn']. split; [| congruence].
  split_and!; try done; [by unfold settled; rewrite Hp |]. intros at_ H. split; [by apply Hat |].
  congruence.
Qed.

Lemma complete_rows lower' portable id aliasID didAliasID actor at_ s r s' :
  complete lower' portable id aliasID didAliasID actor at_ s = (r, s') ->
  transfers s' = transfers s \/
  exists t, t ∈ transfers s /\ is_pending t = true /\
    (if portable then portable_ready t else private_ready t) = true /\
    checks (completed actor at_ t) = true /\ transfers s' = replaced (completed actor at_ t) (transfers s).
Proof.
  unfold complete. destruct (find_row _ _ (transfers s)) as [t | e] eqn:Hf;
    [| intros [= _ <-]; by left].
  apply find_row_Ok in Hf as (Ht & [_ [Hp Hg]%andb_true_iff]%andb_true_iff).
  destruct (find_row _ _ (repositories s)) as [row | e]; [| intros [= _ <-]; by left].
  destruct (negb _); [intros [= _ <-]; by left |].
  destruct (insert_aliases _ _ _) as [[als n] |]; [| intros [= _ <-]; by left].
  destruct (negb _); [intros [= _ <-]; by left |].
  destruct (negb _); [intros [= _ <-]; by left |].
  destruct (checks (completed actor at_ t)) eqn:Hc; cbn; intros [= _ <-]; [| by left].
  right. exists t. split_and!; try done. by destruct portable.
Qed.

Lemma complete_step lower' portable id aliasID didAliasID actor at_ s r s' :
  rows_ok (transfers s) ->
  complete lower' portable id aliasID didAliasID actor at_ s = (r, s') ->
  rows_ok (transfers s') /\ rows_later (transfers s) (transfers s').
Proof.
  intros Hs [-> | (t & Ht & Hp & Hr & Hc & ->)]%complete_rows; [done |].
  pose proof (pending_not t Hp) as [_ Hn]. eapply replace_ok; [done | exact Ht | done | |].
  - split_and!; auto. by unfold settled; rewrite Hp.
  - split; [done |]. intros _. cbn. destruct portable.
    + unfold portable_ready in Hr. right.
      destruct (row_Successor t), (row_Acceptance t), (row_SourceRedirectCid t); done.
    + unfold private_ready in Hr. left. by destruct (o_Source (offer t)).
Qed.

Lemma transfers_handle X (e : effect X) x s s' :
  handle lower world X e s = (x, s') -> rows_ok (transfers s) ->
  rows_ok (transfers s') /\ rows_later (transfers s) (transfers s').
Proof.
  intros He Hs. destruct e; try (by injection He as _ <-); cbn in He.
  - destruct (existsb _ _) eqn:Hex; [by injection He as _ <- |].
    destruct (checks _) eqn:Hc; cbn in He; injection He as _ <-; [| done].
    apply existsb_false in Hex. rewrite Forall_forall in Hex.
    apply insert_ok; [done | done | by split |]. intros t Ht.
    apply Hex in Ht as [Hi Hr]%orb_false_iff. split; [by apply Z.eqb_neq |].
    intros Hrep. apply andb_false_iff in Hr as [Hr%Z.eqb_neq |]; done.
  - eapply update_pending_step; [done | exact He |]. intros t Hp Hg. apply column_later; cbn; auto.
  - eapply update_pending_step; [done | exact He |]. intros t Hp Hg. apply column_later; cbn; auto.
  - eapply update_pending_step; [done | exact He |]. intros t Hp Hg. apply column_later; cbn; auto.
    by intros at_ ->.
  - eapply update_pending_step; [done | exact He |]. intros t Hp Hg. apply column_later; cbn; auto.
  - eapply update_pending_step; [done | exact He |]. intros t Hp Hg. apply column_later; cbn; auto.
  - eapply update_pending_step; [done | exact He |]. intros t Hp Hg. cbn in Hg.
    destruct (row_StartedAt t) eqn:Hat; [done |]. split; [| done].
    split_and!; try done; auto; [by unfold settled; rewrite Hp | by rewrite Hat].
  - by eapply complete_step.
  - by eapply complete_step.
Qed.

Lemma transfers_steps s s' : rows_ok (transfers s) -> rtc step s s' ->
  rows_ok (transfers s') /\ rows_later (transfers s) (transfers s').
Proof.
  intros Hs Hsteps. revert Hs.
  induction Hsteps as [s | s1 s2 s3 H12 _ IH]; intros Hs; [done |].
  assert (H2 : rows_ok (transfers s2) /\ rows_later (transfers s1) (transfers s2)).
  { destruct H12 as [X e x s1 s2 He | s1 s2 Heq]; [by eapply transfers_handle | by rewrite Heq]. }
  destruct H2 as [Hs2 Hl]. destruct (IH Hs2) as [Hs3 Hl']. split; [done |].
  by transitivity (transfers s2).
Qed.

(** C2: however requests interleave, and whatever the rest of the system does
    to the other tables, starting from no transfers: a repository has at most
    one pending transfer; a transfer is completed only if its acceptance started
    before it expired and, for a public record, once its three records are
    stored; and over time, what was offered never changes, nor does a settled
    transfer; one whose acceptance has started keeps its start and is never
    cancelled; and the addresses of the stored records are never replaced. *)
Theorem transfer_history (start s s' : db) (Hempty : transfers start = [])
    (Hs : rtc step start s) (Hs' : rtc step s s') :
  (forall t t', t ∈ transfers s -> t' ∈ transfers s ->
     is_pending t = true -> is_pending t' = true ->
     o_RepositoryID (offer t) = o_RepositoryID (offer t') -> t = t') /\
  (forall t, t ∈ transfers s -> row_Status t = StatusCompleted ->
     (exists at_, row_StartedAt t = Some at_ /\ at_ < o_ExpiresAt (offer t)) /\
     (o_Source (offer t) = None \/
      row_Successor t <> None /\ row_Acceptance t <> None /\ row_SourceRedirectCid t <> None)) /\
  (forall t, t ∈ transfers s -> exists t', t' ∈ transfers s' /\
     offer t' = offer t /\ (is_pending t = false -> t' = t) /\
     (forall at_, row_StartedAt t = Some at_ ->
        row_StartedAt t' = Some at_ /\ row_Status t' <> StatusCancelled) /\
     keeps_uri (row_Proposal t) (row_Proposal t') /\
     keeps_uri (row_Successor t) (row_Successor t') /\
     keeps_uri (row_Acceptance t) (row_Acceptance t')).
Proof.
  assert (Hstart : rows_ok (transfers start)).
  { rewrite Hempty. split_and!; [constructor | | constructor]. by intros t t' ?%elem_of_nil. }
  destruct (transfers_steps _ _ Hstart Hs) as [Hok _].
  destruct (transfers_steps _ _ Hok Hs') as [_ Hlater].
  destruct Hok as (Hnd & Hu & Hrows). rewrite Forall_forall in Hrows.
  assert (Hchecks : forall t, t ∈ transfers s ->
    (forall at_, row_StartedAt t = Some at_ ->
       at_ < o_ExpiresAt (offer t) /\ row_Status t <> StatusCancelled) /\
    (row_Status t = StatusCompleted -> row_StartedAt t <> None)).
  { intros t Ht. apply Hrows in Ht as [Hc _]. unfold checks in Hc.
    apply andb_true_iff in Hc as [[_ Hw]%andb_true_iff Hst].
    split; [intros at_ Hat; rewrite Hat in Hw, Hst | intros He; rewrite He in Hst].
    - split; [lia |]. intros He. by rewrite He in Hst.
    - destruct (row_StartedAt t); [done |]. by rewrite andb_false_r in Hst. }
  split_and!.
  - intros t t' Ht Ht' Hp Hp' Hr. eapply NoDup_map_inj; [exact Hnd | done | done |]. by apply Hu.
  - intros t Ht Hc. split; [| by apply Hrows]. destruct (Hchecks t Ht) as [Hlt Hsome].
    destruct (row_StartedAt t) as [at_ |]; [| by destruct (Hsome Hc)].
    exists at_. split; [done |]. by apply Hlt.
  - intros t Ht. destruct (Hlater t Ht) as (t' & Hin & Ho & Hset & Hst & Hrest).
    exists t'. split_and!; try apply Hrest; try done. intros at_ Hat.
    destruct (Hst _ Hat) as [Hat' Hc]. split; [done |].
    destruct (is_pending t) eqn:Hp; [by apply Hc |]. rewrite (Hset Hp).
    by apply (proj1 (Hchecks t Ht) at_).
Qed.
End history.

(** ** Ownership moves by completing, and only so *)

Section moves.
Context (lower : string -> string) (world : forall X, effect X -> X).

Lemma insert_aliases_spec expected als als' n :
  insert_aliases lower expected als = Some (als', n) ->
  (forall b, b ∈ als -> b ∈ als') /\ (n <= length expected)%nat /\
  (n = length expected -> forall a, a ∈ expected -> exists b, b ∈ als' /\
     same_address lower a b = true /\ store.Alias_RepositoryID b = store.Alias_RepositoryID a).
Proof.
  revert als als' n. induction expected as [| a rest IH]; intros als als' n; cbn.
  { intros [= <- <-]. split_and!; [done | done |]. by intros _ a ?%elem_of_nil. }
  destruct (List.find _ als) as [old |] eqn:Hf.
  - destruct (insert_aliases lower rest als) as [[als1 m] |] eqn:Hi; [| done]. cbn.
    destruct (IH _ _ _ Hi) as (Hk & Hle & Hex). intros [= <- <-]. split_and!; [done | |].
    + destruct (_ =? _); lia.
    + destruct (Z.eqb_spec (store.Alias_RepositoryID old) (store.Alias_RepositoryID a)) as [He |];
        [| lia].
      intros [= Hm] b [-> | Hb]%elem_of_cons; [| by apply Hex].
      apply find_some in Hf as [Hold%list_elem_of_In Hs]. exists old. split_and!; auto.
  - destruct (existsb _ als); [done |].
    destruct (insert_aliases lower rest _) as [[als1 m] |] eqn:Hi; [| done]. cbn.
    destruct (IH _ _ _ Hi) as (Hk & Hle & Hex). intros [= <- <-]. split_and!; [set_solver | lia |].
    intros [= Hm] b [-> | Hb]%elem_of_cons; [| by apply Hex].
    exists a. split_and!; [apply Hk; set_solver | | done]. unfold same_address.
    by rewrite !String.eqb_refl.
Qed.

Lemma expected_aliases_elem o v aliasID didAliasID a :
  a ∈ expected_aliases lower o v aliasID didAliasID ->
  store.Alias_RepositoryID a = o_RepositoryID o /\ store.SlugAlias a = repository.Slug v.
Proof.
  intros [-> | Ha]%elem_of_cons; [done |]. destruct (_ && _) in Ha; [| by apply elem_of_nil in Ha].
  by apply list_elem_of_singleton in Ha as ->.
Qed.

(** [t] moved the repository [row], in one step from [s] to [s']. *)
Definition moves (t : TransferRow) (row : store.RepositoryRow) (s s' : db) : Prop :=
  let o := offer t in
  let v := store.row_repository row in
  t ∈ transfers s /\ is_pending t = true /\ started_in_time t = true /\
  row ∈ repositories s /\ repository.ID v = o_RepositoryID o /\
  (exists t', t' ∈ transfers s' /\ offer t' = o /\ row_Status t' = StatusCompleted) /\
  (exists row', row' ∈ repositories s' /\
     let v' := store.row_repository row' in
     repository.ID v' = o_RepositoryID o /\ repository.OwnerDID v' = o_DestinationOwnerDid o /\
     repository.OrganizationID v' = o_DestinationOrganizationID o /\
     repository.Slug v' = repository.Slug v /\ repository.StorageKey v' = repository.StorageKey v /\
     repository.Repository_Visibility v' = repository.Repository_Visibility v /\
     (store.present row' = true -> forall other, other ∈ repositories s' ->
        store.present other = true ->
        lower (repository.Slug (store.row_repository other)) = lower (repository.Slug v') ->
        repository.OwnerDID (store.row_repository other) = repository.OwnerDID v' ->
        repository.OrganizationID (store.row_repository other) = repository.OrganizationID v' ->
        repository.ID (store.row_repository other) = repository.ID v')) /\
  (forall row', row' ∈ repositories s -> repository.ID (store.row_repository row') <> o_RepositoryID o ->
     row' ∈ repositories s') /\
  (forall owner, owner = o_SourceOwnerAlias o \/
       o_SourceOrganizationID o = None /\ owner = o_SourceOwnerDid o ->
     exists a, a ∈ aliases s' /\ store.Alias_RepositoryID a = o_RepositoryID o /\
       lower (store.OwnerAlias a) = lower owner /\
       lower (store.SlugAlias a) = lower (repository.Slug v)) /\
  (forall g, g ∈ teams s' <-> g ∈ teams s /\ snd g <> o_RepositoryID o).

Lemma update_where_keeps {R} (hit : R -> bool) update rows r :
  r ∈ rows -> hit r = false -> r ∈ update_where hit update rows.
Proof. intros Hr Hh. apply list_elem_of_fmap. exists r. by rewrite Hh. Qed.
Lemma update_where_hit {R} (hit : R -> bool) update rows r :
  r ∈ rows -> hit r = true -> update r ∈ update_where hit update rows.
Proof. intros Hr Hh. apply list_elem_of_fmap. exists r. by rewrite Hh. Qed.

(** An admissible row is alone at its address. *)
Lemma admissible_alone rows row' other :
  store.admissible lower rows row' = true -> other ∈ rows ->
  store.present row' = true -> store.present other = true ->
  lower (repository.Slug (store.row_repository other))
    = lower (repository.Slug (store.row_repository row')) ->
  repository.OwnerDID (store.row_repository other)
    = repository.OwnerDID (store.row_repository row') ->
  repository.OrganizationID (store.row_repository other)
    = repository.OrganizationID (store.row_repository row') ->
  repository.ID (store.row_repository other) = repository.ID (store.row_repository row').
Proof.
  unfold store.admissible. rewrite forallb_forall. intros Ha Hin Hp Hp' Hs Ho Hg.
  apply list_elem_of_In, Ha, orb_true_iff in Hin as [Hid | Hc]; [by apply Z.eqb_eq in Hid |].
  exfalso. unfold store.clashes in Hc. rewrite Hp, Hp', Hs, Ho, Hg, !String.eqb_refl in Hc. cbn in Hc.
  destruct (repository.OrganizationID _) as [g |]; rewrite ?Z.eqb_refl, !orb_true_r in Hc; done.
Qed.

Lemma complete_moves portable id aliasID didAliasID actor at_ s r s' :
  complete lower portable id aliasID didAliasID actor at_ s = (r, s') ->
  (repositories s' = repositories s /\ transfers s' = transfers s) \/
  exists t row, moves t row s s'.
Proof.
  unfold complete. destruct (find_row _ _ (transfers s)) as [t | e] eqn:Hf;
    [| intros [= _ <-]; by left].
  apply find_row_Ok in Hf as (Ht & [_ [Hp Hg]%andb_true_iff]%andb_true_iff).
  destruct (find_row _ _ (repositories s)) as [row | e] eqn:Hrow; [| intros [= _ <-]; by left].
  apply find_row_Ok in Hrow as [Hrow Hid].
  destruct (negb _); [intros [= _ <-]; by left |].
  destruct (insert_aliases _ _ _) as [[als n] |] eqn:Hals; [| intros [= _ <-]; by left].
  destruct (Nat.eqb_spec n (length (expected_aliases lower (offer t) (store.row_repository row)
    aliasID didAliasID))) as [Hn |]; cbn [negb]; [| intros [= _ <-]; by left].
  destruct (store.admissible lower (repositories s) (moved_row portable t at_ row)) eqn:Hadm;
    cbn [negb]; [| intros [= _ <-]; by left].
  destruct (checks (completed actor at_ t)) eqn:Hc; cbn [negb]; intros [= _ <-]; [| by left].
  right. exists t, row. apply insert_aliases_spec in Hals as (_ & _ & Hals). specialize (Hals Hn).
  pose proof (proj1 (Z.eqb_eq _ _) Hid) as Hid'.
  unfold moves. cbn [transfers repositories aliases teams].
  split; [done |]. split; [done |].
  split; [destruct portable; [unfold portable_ready in Hg | unfold private_ready in Hg]; 
          by apply andb_true_iff in Hg as [_ ?] |].
  split; [done |]. split; [done |]. split; [| split; [| split; [| split]]].
  - exists (completed actor at_ t). split; [| done]. apply replaced_elem. exists t.
    split; [done |]. unfold has_row_id. by rewrite Z.eqb_refl.
  - exists (moved_row portable t at_ row).
    split; [apply (update_where_hit _ (fun _ => moved_row portable t at_ row) _ row Hrow Hid) |].
    split_and!; try done. intros Hpr other (o & -> & Ho)%list_elem_of_fmap Hpo Hs Hd Hg'.
    destruct (store.has_id (o_RepositoryID (offer t)) o) eqn:Hh; [done |].
    by eapply admissible_alone.
  - intros row' Hin Hne. apply update_where_keeps; [done |]. by apply Z.eqb_neq.
  - intros owner Howner.
    assert (Hexp : exists a, a ∈ expected_aliases lower (offer t) (store.row_repository row)
              aliasID didAliasID /\ lower (store.OwnerAlias a) = lower owner).
    { destruct Howner as [-> | [Hnone ->]]; [by eexists; split; [left |] |].
      unfold expected_aliases. rewrite Hnone. cbn.
      destruct (String.eqb_spec (lower (o_SourceOwnerDid (offer t)))
                  (lower (o_SourceOwnerAlias (offer t)))) as [He | _]; cbn;
        [eexists; split; [left | by rewrite He] | eexists; split; [right; left | done]]. }
    destruct Hexp as (a & Ha & Hl). destruct (Hals a Ha) as (b & Hb & Hs & Hrep).
    apply andb_true_iff in Hs as [Hs1%String.eqb_eq Hs2%String.eqb_eq].
    apply expected_aliases_elem in Ha as [Hr Hslug].
    exists b. split_and!; [done | congruence | congruence | by rewrite <- Hs2, Hslug].
  - intros g. rewrite list_elem_of_In, filter_In, <- list_elem_of_In, negb_true_iff, Z.eqb_neq. done.
Qed.

(** C3: no call of the store touches a repository's row or completes a
    transfer, except the completion of a pending transfer whose acceptance
    started in time: that gives exactly its repository to the destination, with
    its name, storage and visibility as they were, alone at its new address;
    the addresses it had are aliases of it; and no team keeps a grant on it. *)
Theorem ownership_moves X (e : effect X) (s : db) :
  let s' := snd (handle lower world X e s) in
  (repositories s' = repositories s /\
   forall t, t ∈ transfers s' -> row_Status t = StatusCompleted -> t ∈ transfers s) \/
  exists t row, moves t row s s'.
Proof.
  cbv zeta. destruct (handle lower world X e s) as [x s'] eqn:He. cbn.
  assert (Hupd : forall id missing guard update r,
    update_pending s id missing guard update = (r, s') ->
    (forall t, row_Status (update t) = StatusCompleted -> row_Status t = StatusCompleted) ->
    repositories s' = repositories s /\
    forall t, t ∈ transfers s' -> row_Status t = StatusCompleted -> t ∈ transfers s).
  { intros id missing guard update r. unfold update_pending.
    destruct (find_row _ _ _) as [t | err] eqn:Hf; [| by intros [= _ <-]].
    apply find_row_Ok in Hf as (Ht & [_ [Hp _]%andb_true_iff]%andb_true_iff).
    apply String.eqb_eq in Hp.
    destruct (negb _); [by intros [= _ <-] |]. intros [= _ <-] Hst. split; [done |].
    intros t' (t0 & Ht0 & ->)%replaced_elem. destruct (has_row_id _ t0); [| done].
    intros Hc%Hst. by rewrite Hp in Hc. }
  destruct e; try (injection He as _ <-; by left); cbn in He.
  - destruct (existsb _ _); [injection He as _ <-; by left |].
    destruct (negb _); injection He as _ <-; [by left |]. left. split; [done |].
    intros t Ht Hc. cbn in Ht. apply elem_of_app in Ht as [Ht | ->%list_elem_of_singleton]; done.
  - left. by eapply Hupd.
  - left. by eapply Hupd.
  - left. by eapply Hupd.
  - left. by eapply Hupd.
  - left. by eapply Hupd.
  - left. by eapply Hupd.
  - destruct (complete_moves _ _ _ _ _ _ _ _ _ He) as [[Hr Ht] | Hm]; [left | by right].
    split; [done |]. intros t. by rewrite Ht.
  - destruct (complete_moves _ _ _ _ _ _ _ _ _ He) as [[Hr Ht] | Hm]; [left | by right].
    split; [done |]. intros t. by rewrite Ht.
Qed.
End moves.

(** ** An acceptance goes through *)

Section accept.
Context `{UUIDs} `{GoUnicode}.
Context (lower : string -> string) (world : forall X, effect X -> X).
Context (eps : repository.Endpoints).

Definition ready_service : Service := mkService true true (Some eps).

(** The row the query of an id selects. *)
Definition stored (s : db) (id : UUID) (t : TransferRow) : Prop :=
  List.find (has_row_id id) (transfers s) = Some t.

(** What an acceptance of the pending [t] by [actor] needs: its offer is
    published, its repository active, the actor an owner of the destination,
    the addresses free, the clock past the creation and, if the acceptance has
    not started, before the expiry. *)
Record acceptable (s : db) (id : UUID) (actor : string) (t : TransferRow)
    (row : store.RepositoryRow) : Prop := {
  acc_stored : stored s id t;
  acc_pending : is_pending t = true;
  acc_checks : checks t = true;
  acc_proposal : o_Source (offer t) <> None -> row_Proposal t <> None;
  acc_row : List.find (store.has_id (o_RepositoryID (offer t))) (repositories s) = Some row;
  acc_active : is_active row = true;
  acc_owner : canAccept s (Destination (transferFromRow t)) (TrimSpace actor) = true;
  acc_route : route_available lower s (offer t) (store.row_repository row) = true;
  acc_created : o_CreatedAt (offer t) <= clock s;
  acc_time : match row_StartedAt t with
             | Some at_ => at_ <= clock s
             | None => clock s < o_ExpiresAt (offer t)
             end;
  acc_organizations : forall org,
    o_DestinationOrganizationID (offer t) = Some org \/
    o_SourceOrganizationID (offer t) = Some org -> exists i, organizationIdentity s org = Ok i;
  acc_aliases : forall a, a ∈ aliases s ->
    store.Alias_ID a <> uuid_NewSHA1 id (bytes "source-owner-alias") /\
    store.Alias_ID a <> uuid_NewSHA1 id (bytes "source-owner-did-alias");
  acc_alias_ids : uuid_NewSHA1 id (bytes "source-owner-alias")
                  <> uuid_NewSHA1 id (bytes "source-owner-did-alias")
}.

(** Where a successor's address comes from. *)
Definition successor_of (t : TransferRow) (uri : string) : Prop :=
  (exists i, row_Successor t = Some i /\ URI i = uri) \/
  (exists p i, world _ (Publish p) = Ok i /\ repository.URI i = uri).

(** The providers answer, and no successor's address is another repository's. *)
Record providers (s : db) (t : TransferRow) (row : store.RepositoryRow) : Prop := {
  prov_publish : forall p, exists i, world _ (Publish p) = Ok i;
  prov_acceptance : forall a, exists i, world _ (PublishAcceptance a) = Ok i;
  prov_unique : forall uri other,
    other ∈ repositories s ->
    repository.ID (store.row_repository other) <> o_RepositoryID (offer t) ->
    successor_of t uri \/
    (o_Source (offer t) = None /\ uri = repository.ATURI (store.row_repository row)) ->
    repository.ATURI (store.row_repository other) <> uri /\
    repository.StorageKey (store.row_repository other)
      <> repository.StorageKey (store.row_repository row)
}.

(** [s'] differs from [s] in the transfers. *)
Definition rest_same (s s' : db) : Prop := s' = set_transfers s (transfers s').

(** [t'] is [t] with more of its records. *)
Definition advanced (t t' : TransferRow) : Prop :=
  offer t' = offer t /\ is_pending t' = true /\ checks t' = true /\
  row_StartedAt t' = row_StartedAt t /\ row_Proposal t' = row_Proposal t.

#[local] Instance rest_same_trans : Transitive rest_same.
Proof. intros s1 s2 s3 H12 H23. unfold rest_same in *. by rewrite H23, H12. Qed.
#[local] Instance advanced_trans : Transitive advanced.
Proof. intros t1 t2 t3 (?&?&?&?&?) (?&?&?&?&?). split_and!; congruence. Qed.

Lemma find_also {R} (f g : R -> bool) l x :
  List.find f l = Some x -> g x = true -> List.find (fun y => f y && g y) l = Some x.
Proof.
  intros Hf Hg. induction l as [| y l IH]; cbn in *; [done |].
  destruct (f y); cbn; [| by apply IH]. injection Hf as ->. by rewrite Hg.
Qed.

Lemma stored_replaced s id t t' :
  stored s id t -> row_ID t' = row_ID t ->
  stored (set_transfers s (replaced t' (transfers s))) id t'.
Proof.
  unfold stored. cbn. intros Hf Hid.
  assert (Ht : row_ID t' = id).
  { apply find_some in Hf as [_ He%Z.eqb_eq]. congruence. }
  clear Hid. unfold replaced, update_where. rewrite Ht.
  induction (transfers s) as [| x l IH]; cbn in *; [done |].
  destruct (has_row_id id x) eqn:Hx; cbn.
  - unfold has_row_id at 1. by rewrite Ht, Z.eqb_refl.
  - rewrite Hx. by apply IH.
Qed.

Lemma update_pending_exec s id missing guard update t :
  stored s id t -> is_pending t = true -> guard t = true -> checks (update t) = true ->
  offer (update t) = offer t ->
  exists s', update_pending s id missing guard update = (Ok (transferFromRow (update t)), s') /\
    rest_same s s' /\ stored s' id (update t).
Proof.
  intros Hs Hp Hg Hc Ho. unfold update_pending, find_row.
  rewrite (find_also _ (fun row => is_pending row && guard row) _ t Hs) by by rewrite Hp, Hg.
  rewrite Hc. cbn [negb]. eexists. split; [reflexivity |]. split; [done |].
  eapply stored_replaced; [done |]. unfold row_ID. by rewrite Ho.
Qed.

#[local] Arguments exec : simpl never.
Lemma exec_svc_bind {A B} (p : svc effect A) (f : A -> svc effect B) s :
  exec (handle lower world) (svc_bind p f) s =
  let '(r, s') := exec (handle lower world) p s in
  match r with Ok a => exec (handle lower world) (f a) s' | Err e => (Err e, s') end.
Proof.
  unfold svc_bind. rewrite exec_bind. by destruct (exec _ p s) as [[a | e] s'].
Qed.
Lemma exec_wrapErr {A} w (p : svc effect A) s :
  exec (handle lower world) (wrapErr w p) s =
  let '(r, s') := exec (handle lower world) p s in (mapErr w r, s').
Proof. unfold wrapErr. rewrite exec_bind. by destruct (exec _ p s) as [r s']. Qed.
(** The three steps of the workflow, each from a state where [t] is stored. *)
Definition step_done (s : db) (id : UUID) (t : TransferRow) (p : svc effect Transfer)
    (P : TransferRow -> Prop) : Prop :=
  exists t' s', exec (handle lower world) p s = (Ok (transferFromRow t'), s') /\
    rest_same s s' /\ stored s' id t' /\ advanced t t' /\ P t'.

Lemma step_skip s id t (P : TransferRow -> Prop) :
  stored s id t -> is_pending t = true -> checks t = true -> P t ->
  step_done s id t (done_ (transferFromRow t)) P.
Proof. intros Hs Hp Hc HP. exists t, s. split_and!; try done. by destruct s. Qed.

Lemma step_update s id t (e : effect (result Transfer)) missing guard update
    (P : TransferRow -> Prop) w :
  handle lower world _ e s = update_pending s id missing guard update ->
  stored s id t -> is_pending t = true -> guard t = true -> checks (update t) = true ->
  offer (update t) = offer t -> is_pending (update t) = is_pending t ->
  row_StartedAt (update t) = row_StartedAt t -> row_Proposal (update t) = row_Proposal t ->
  P (update t) ->
  step_done s id t (wrapErr w (call e)) P.
Proof.
  intros He Hs Hp Hg Hc Ho Hpp Hst Hpr HP.
  destruct (update_pending_exec s id missing guard update t) as (s' & Hu & Hr & Hs'); try done.
  exists (update t), s'. rewrite exec_wrapErr, exec_call, He, Hu. split_and!; try done. unfold advanced. split_and!; congruence.
Qed.

Lemma exec_published (p : svc effect repository.Publication) s pub :
  exec (handle lower world) p s = (Ok pub, s) ->
  (forall q, exists i, world _ (Publish q) = Ok i) ->
  exists i, world _ (Publish pub) = Ok i /\
    forall A w w' (k : repository.ATIdentity -> svc effect A),
      exec (handle lower world)
        (let? publication := p in
         let? found := wrapErr w (call (Publish publication)) in wrapErr w' (k found)) s
      = exec (handle lower world) (wrapErr w' (k i)) s.
Proof.
  intros Hp Hw. destruct (Hw pub) as [i Hi]. exists i. split; [done |]. intros A w w' k.
  rewrite exec_svc_bind, Hp. rewrite exec_svc_bind, exec_wrapErr, exec_call. cbn. by rewrite Hi.
Qed.
Lemma successorPublication_exec s v repo source at_ :
  (forall org, Owner_OrganizationID (Destination v) = Some org ->
     exists i, organizationIdentity s org = Ok i) ->
  exists p, exec (handle lower world) (successorPublication v repo eps source at_) s = (Ok p, s).
Proof.
  intros Horg. unfold successorPublication, repositoryPublication.
  destruct (repository.For _ _) as [[web https] ssh].
  destruct (Owner_OrganizationID _) as [org |] eqn:Ho; [| by eexists].
  destruct (Organization _) as [i |]; [by eexists |]. destruct (Horg org eq_refl) as [i Hi].
  rewrite exec_svc_bind, exec_wrapErr, exec_call. cbn [handle]. rewrite Hi. by eexists.
Qed.

Lemma sourceRedirectPublication_exec s v repo successor at_ :
  (forall org, SourceOrganizationID v = Some org -> exists i, organizationIdentity s org = Ok i) ->
  exists p, exec (handle lower world) (sourceRedirectPublication v repo eps successor at_) s
            = (Ok p, s).
Proof.
  intros Horg. unfold sourceRedirectPublication, repositoryPublication.
  destruct (repository.For _ _) as [[web https] ssh].
  destruct (SourceOrganizationID v) as [org |] eqn:Ho; [| by eexists].
  destruct (Horg org eq_refl) as [i Hi].
  rewrite exec_svc_bind, exec_wrapErr, exec_call. cbn [handle]. rewrite Hi. by eexists.
Qed.

#[local] Arguments successorPublication : simpl never.
#[local] Arguments sourceRedirectPublication : simpl never.

Lemma ensureSuccessor_done s id t repo source at_ :
  stored s id t -> is_pending t = true -> checks t = true ->
  (forall p, exists i, world _ (Publish p) = Ok i) ->
  (forall org, o_DestinationOrganizationID (offer t) = Some org ->
     exists i, organizationIdentity s org = Ok i) ->
  step_done s id t (ensureSuccessor id (transferFromRow t) repo eps source at_)
    (fun t' => exists i, row_Successor t' = Some i /\ successor_of t (URI i)).
Proof.
  intros Hs Hp Hc Hpub Horg. unfold ensureSuccessor. cbn [transferFromRow Successor].
  destruct (row_Successor t) as [i |] eqn:Hsucc; cbn [is_some is_some].
  { apply step_skip; try done. exists i. split; [done |]. left. by exists i. }
  destruct (successorPublication_exec s (transferFromRow t) repo source at_ Horg) as [p Hpe].
  destruct (exec_published _ s p Hpe Hpub) as (i & Hi & Hk).
  unfold step_done. rewrite Hk.
  eapply (step_update s id t (SetSuccessor id _)); [reflexivity | try done ..].
  - cbn. by rewrite Hsucc.
  - eexists. split; [reflexivity |]. right. by exists p, i.
Qed.

Lemma ensureAcceptance_done s id t proposal successor at_ :
  stored s id t -> is_pending t = true -> checks t = true ->
  row_Proposal t = Some proposal -> row_Successor t = Some successor ->
  (forall a, exists i, world _ (PublishAcceptance a) = Ok i) ->
  step_done s id t (ensureAcceptance id (transferFromRow t) at_)
    (fun t' => row_Successor t' = row_Successor t /\ row_Acceptance t' <> None).
Proof.
  intros Hs Hp Hc Hprop Hsucc Hpub. unfold ensureAcceptance.
  cbn [transferFromRow Acceptance Proposal Successor].
  destruct (row_Acceptance t) as [i |] eqn:Hacc; cbn [is_some is_some].
  { apply step_skip; try done. by rewrite Hacc. }
  rewrite Hprop, Hsucc. cbn [deref].
  match goal with |- context [PublishAcceptance ?a] => destruct (Hpub a) as [i Hi] end.
  unfold step_done. rewrite exec_svc_bind, exec_wrapErr, exec_call. cbn [handle]. rewrite Hi.
  eapply (step_update s id t (SetAcceptance id _)); [reflexivity | try done ..].
  cbn. by rewrite Hacc.
Qed.

Lemma ensureSourceRedirect_done s id t repo successor at_ :
  stored s id t -> is_pending t = true -> checks t = true -> row_Successor t = Some successor ->
  (forall p, exists i, world _ (Publish p) = Ok i) ->
  (forall org, o_SourceOrganizationID (offer t) = Some org ->
     exists i, organizationIdentity s org = Ok i) ->
  step_done s id t (ensureSourceRedirect id (transferFromRow t) repo eps at_)
    (fun t' => row_Successor t' = row_Successor t /\ row_Acceptance t' = row_Acceptance t /\
               row_SourceRedirectCid t' <> None).
Proof.
  intros Hs Hp Hc Hsucc Hpub Horg. unfold ensureSourceRedirect.
  cbn [transferFromRow SourceRedirectCID Successor].
  destruct (text (row_SourceRedirectCid t) != EmptyString) eqn:Hred.
  { apply step_skip; try done. by destruct (row_SourceRedirectCid t). }
  rewrite Hsucc. cbn [deref].
  destruct (sourceRedirectPublication_exec s (transferFromRow t) repo successor at_ Horg) as [p Hpe].
  destruct (exec_published _ s p Hpe Hpub) as (i & Hi & Hk).
  unfold step_done. rewrite Hk.
  by eapply (step_update s id t (SetSourceRedirect id _)); [reflexivity | ..].
Qed.

(** Completing. *)

Lemma insert_expected s o v aliasID didAliasID :
  route_available lower s o v = true -> repository.ID v = o_RepositoryID o ->
  (forall a, a ∈ aliases s -> store.Alias_ID a <> aliasID /\ store.Alias_ID a <> didAliasID) ->
  aliasID <> didAliasID ->
  exists als, insert_aliases lower (expected_aliases lower o v aliasID didAliasID) (aliases s)
    = Some (als, length (expected_aliases lower o v aliasID didAliasID)).
Proof.
  intros Hr Hid Hfree Hne. unfold route_available in Hr.
  apply andb_true_iff in Hr as [_ Hr%negb_true_iff]. apply existsb_false in Hr.
  rewrite Forall_forall in Hr.
  assert (Hown : forall id owner a, a ∈ aliases s ->
    (owner = o_SourceOwnerAlias o \/
     o_SourceOrganizationID o = None /\ owner = o_SourceOwnerDid o) ->
    same_address lower (store.mkAliasRow id (o_RepositoryID o) owner (repository.Slug v)) a = true ->
    store.Alias_RepositoryID a = o_RepositoryID o).
  { intros id owner a Ha Ho Hs. apply Hr in Ha. unfold same_address in Hs. cbn in Hs.
    apply andb_true_iff in Hs as [Hs1%String.eqb_eq Hs2%String.eqb_eq].
    rewrite Hid, <- Hs2, <- Hs1, String.eqb_refl in Ha. cbn in Ha.
    destruct (Z.eqb_spec (store.Alias_RepositoryID a) (o_RepositoryID o)) as [| Hn]; [done |].
    exfalso. destruct Ho as [-> | [Hnone ->]].
    - by rewrite String.eqb_refl, !orb_true_r in Ha.
    - by rewrite Hnone, String.eqb_refl, !orb_true_r in Ha. }
  assert (Hnew : forall i (als : list store.AliasRow),
    (forall a, a ∈ als -> store.Alias_ID a <> i) ->
    existsb (fun b => store.Alias_ID b =? i) als = false).
  { intros i als Hi. apply existsb_false, Forall_forall. intros a Ha. by apply Z.eqb_neq, Hi. }
  unfold expected_aliases. set (rest := if _ && _ then _ else []). cbn [insert_aliases].
  assert (Hrest : forall als, (forall a, a ∈ als -> a ∈ aliases s \/
            a = store.mkAliasRow aliasID (o_RepositoryID o) (o_SourceOwnerAlias o) (repository.Slug v)) ->
            exists als', insert_aliases lower rest als = Some (als', length rest)).
  { intros als Hals. unfold rest. destruct (_ && _) eqn:Hg; [| by eexists].
    apply andb_true_iff in Hg as [Hnone Hdiff].
    assert (Hso : o_SourceOrganizationID o = None) by (by destruct (o_SourceOrganizationID o)).
    cbn [insert_aliases]. destruct (List.find _ als) as [old |] eqn:Hf.
    - apply find_some in Hf as [Hold%list_elem_of_In Hsame].
      destruct (Hals old Hold) as [Hin | ->].
      + rewrite (Hown _ _ _ Hin (or_intror (conj Hso eq_refl)) Hsame). cbn. rewrite Z.eqb_refl.
        by eexists.
      + unfold same_address in Hsame. cbn in Hsame. exfalso.
        apply andb_true_iff in Hsame as [He _]. by rewrite He in Hdiff.
    - rewrite Hnew; [by eexists |]. intros a [Ha | ->]%Hals; [by apply Hfree | done]. }
  destruct (List.find _ (aliases s)) as [old |] eqn:Hf.
  - apply find_some in Hf as [Hold%list_elem_of_In Hsame].
    destruct (Hrest (aliases s)) as [als' ->]; [by left |]. cbn.
    rewrite (Hown _ _ _ Hold (or_introl eq_refl) Hsame), Z.eqb_refl. by eexists.
  - rewrite Hnew; [| intros a Ha; by apply Hfree].
    destruct (Hrest (aliases s ++ [store.mkAliasRow aliasID (o_RepositoryID o)
      (o_SourceOwnerAlias o) (repository.Slug v)])) as [als' Hi].
    { intros a [Ha | ->%list_elem_of_singleton]%elem_of_app; [by left | by right]. }
    rewrite Hi. by eexists.
Qed.

Lemma moved_admissible s portable t row at_ :
  route_available lower s (offer t) (store.row_repository row) = true ->
  repository.ID (store.row_repository row) = o_RepositoryID (offer t) ->
  (forall other, other ∈ repositories s ->
    repository.ID (store.row_repository other) <> o_RepositoryID (offer t) ->
    repository.ATURI (store.row_repository other)
      <> repository.ATURI (moved portable t at_ (store.row_repository row)) /\
    repository.StorageKey (store.row_repository other)
      <> repository.StorageKey (store.row_repository row)) ->
  store.admissible lower (repositories s) (moved_row portable t at_ row) = true.
Proof.
  intros Hr Hid Hother. unfold store.admissible. apply forallb_forall.
  intros other Hin%list_elem_of_In. apply orb_true_iff. unfold store.has_id. cbn. rewrite Hid.
  destruct (Z.eqb_spec (repository.ID (store.row_repository other)) (o_RepositoryID (offer t)))
    as [| Hne]; [by left | right].
  destruct (Hother other Hin Hne) as [Hu Hk]. apply negb_true_iff.
  unfold route_available in Hr. apply andb_true_iff in Hr as [Hr%negb_true_iff _].
  apply existsb_false in Hr. rewrite Forall_forall in Hr. specialize (Hr other Hin).
  cbv beta zeta in Hr. rewrite Hid, (proj2 (Z.eqb_neq _ _) Hne) in Hr. cbn [negb andb] in Hr.
  unfold store.clashes. apply orb_false_iff. split; [apply orb_false_iff; split |].
  - apply String.eqb_neq. cbn. congruence.
  - apply andb_false_iff. right. apply String.eqb_neq. cbn [moved_row store.row_repository].
    congruence.
  - cbn [moved_row store.row_repository moved repository.OwnerDID repository.OrganizationID
         repository.Slug].
    destruct (store.present other); [| by rewrite andb_false_r].
    rewrite (String.eqb_sym (lower (repository.Slug (store.row_repository row)))).
    destruct (lower (repository.Slug (store.row_repository other)) == _); [| by rewrite andb_false_r].
    cbn in Hr |- *. rewrite (String.eqb_sym (o_DestinationOwnerDid (offer t))).
    destruct (o_DestinationOrganizationID (offer t)) as [g |],
      (repository.OrganizationID (store.row_repository other)) as [g' |]; cbn in Hr |- *.
    + by rewrite Z.eqb_sym, Hr, andb_false_r.
    + by rewrite andb_false_r.
    + by rewrite andb_false_r.
    + rewrite orb_false_r in Hr. by rewrite Hr, andb_false_r.
Qed.

Definition completes (portable : bool) (s : db) (id : UUID) (t : TransferRow)
    (row : store.RepositoryRow) (actor : string) (now : time) (out : result Transfer * db) : Prop :=
  exists s', out = (Ok (transferFromRow (completed actor now t)), s') /\
    stored s' id (completed actor now t) /\
    List.find (store.has_id (o_RepositoryID (offer t))) (repositories s')
      = Some (moved_row portable t now row).

Lemma find_update_where {R} (hit : R -> bool) (r r' : R) l :
  List.find hit l = Some r -> hit r' = true ->
  List.find hit (update_where hit (fun _ => r') l) = Some r'.
Proof.
  intros Hf Hr'. induction l as [| x l IH]; cbn in *; [done |].
  destruct (hit x) eqn:Hx; cbn; [by rewrite Hr' | rewrite Hx; by apply IH].
Qed.

Lemma complete_exec (portable : bool) s id t row actor now :
  let aliasID := uuid_NewSHA1 id (bytes "source-owner-alias") in
  let didAliasID := uuid_NewSHA1 id (bytes "source-owner-did-alias") in
  stored s id t -> is_pending t = true ->
  (if portable then portable_ready t else private_ready t) = true ->
  List.find (store.has_id (o_RepositoryID (offer t))) (repositories s) = Some row ->
  route_available lower s (offer t) (store.row_repository row) = true ->
  (forall a, a ∈ aliases s -> store.Alias_ID a <> aliasID /\ store.Alias_ID a <> didAliasID) ->
  aliasID <> didAliasID ->
  (forall other, other ∈ repositories s ->
    repository.ID (store.row_repository other) <> o_RepositoryID (offer t) ->
    repository.ATURI (store.row_repository other)
      <> repository.ATURI (moved portable t now (store.row_repository row)) /\
    repository.StorageKey (store.row_repository other)
      <> repository.StorageKey (store.row_repository row)) ->
  checks (completed actor now t) = true ->
  completes portable s id t row actor now
    (complete lower portable id aliasID didAliasID actor now s).
Proof.
  intros aliasID didAliasID Hs Hp Hr Hrow Hroute Hfree Hne Hother Hc. unfold complete, find_row.
  assert (Hid : repository.ID (store.row_repository row) = o_RepositoryID (offer t)).
  { apply find_some in Hrow as [_ He%Z.eqb_eq]. done. }
  rewrite (find_also _ (fun t => is_pending t && (if portable then portable_ready else private_ready) t)
             _ t Hs) by (rewrite Hp; by destruct portable).
  rewrite Hrow, Hroute. cbn [negb].
  destruct (insert_expected s (offer t) (store.row_repository row) aliasID didAliasID) as [als ->];
    [done .. |].
  rewrite Nat.eqb_refl. cbn [negb].
  rewrite moved_admissible by done. rewrite Hc. cbn [negb].
  eexists. split; [reflexivity |]. split; [by eapply (stored_replaced s id t) |].
  cbn. eapply find_update_where; [exact Hrow |]. unfold store.has_id. cbn. rewrite Hid.
  apply Z.eqb_refl.
Qed.

#[local] Ltac compute_statuses :=
  change (StatusPending == StatusPending) with true in *;
  change (StatusPending == StatusCompleted) with false in *;
  change (StatusPending == StatusCancelled) with false in *;
  change (StatusCompleted == StatusPending) with false in *;
  change (StatusCompleted == StatusCompleted) with true in *;
  change (StatusCompleted == StatusCancelled) with false in *; cbn in *.

Lemma checks_start t now :
  checks t = true -> is_pending t = true -> o_CreatedAt (offer t) <= now ->
  now < o_ExpiresAt (offer t) -> checks (with_start now t) = true.
Proof.
  intros Hc Hp Hcr Hex. apply String.eqb_eq in Hp. destruct t as [o ? ? ? ? st started ? ? ?].
  cbn in *. subst st. unfold checks in *. cbn in *. compute_statuses. destruct started; [done |].
  rewrite !orb_false_r in Hc |- *. apply andb_true_iff in Hc as [[Hw _]%andb_true_iff ->].
  rewrite Hw. lia.
Qed.

Lemma checks_completed t at_ actor now :
  checks t = true -> is_pending t = true -> row_StartedAt t = Some at_ -> at_ <= now ->
  checks (completed actor now t) = true /\ started_in_time t = true.
Proof.
  intros Hc Hp Hat Hle. apply String.eqb_eq in Hp. destruct t as [o ? ? ? ? st started ? ? can].
  cbn in *. subst st started. unfold checks, started_in_time in *. cbn in *. compute_statuses.
  destruct can; cbn in *; rewrite ?andb_false_r in Hc; [done |].
  apply andb_true_iff in Hc as [Hw%andb_true_iff _]. lia.
Qed.

Lemma AuthorizeAcceptance_exec s id actor t row :
  acceptable s id actor t row ->
  exec (handle lower world) (AuthorizeAcceptance id actor) s
  = (Ok (transferFromRow t, repositoryFromRow row), s).
Proof.
  intros Ha. unfold AuthorizeAcceptance. rewrite exec_svc_bind, exec_call. cbn [handle].
  unfold find_row. rewrite (acc_stored _ _ _ _ _ Ha). cbn [fmap result_fmap].
  assert (Hst : Transfer_Status (transferFromRow t) = StatusPending).
  { by apply String.eqb_eq, (acc_pending _ _ _ _ _ Ha). }
  rewrite Hst, exec_bind.
  assert (Hex : exec (handle lower world)
    (if (StatusPending == StatusPending) && negb (is_some (AcceptanceStartedAt (transferFromRow t)))
     then let! now := call Now in
          Ret (negb (Before (UTC now) (ExpiresAt (transferFromRow t)))) else Ret false) s = (false, s)).
  { pose proof (acc_time _ _ _ _ _ Ha) as Ht.
    cbn [transferFromRow AcceptanceStartedAt ExpiresAt].
    destruct (row_StartedAt t); [by rewrite andb_false_r |].
    rewrite String.eqb_refl. cbn [negb andb is_some is_some].
    rewrite exec_bind, exec_call. cbn [handle]. rewrite exec_ret. unfold Before, UTC.
    by rewrite (proj2 (Z.ltb_lt _ _) Ht). }
  rewrite Hex. cbn [negb orb]. rewrite (String.eqb_refl StatusPending). cbn [negb orb].
  rewrite exec_svc_bind, exec_wrapErr, exec_call. cbn [handle mapErr].
  rewrite (acc_owner _ _ _ _ _ Ha). cbn [negb]. rewrite exec_svc_bind, exec_call. cbn [handle].
  unfold find_row. cbn [transferFromRow RepositoryID].
  rewrite (find_also _ is_active _ row (acc_row _ _ _ _ _ Ha) (acc_active _ _ _ _ _ Ha)). done.
Qed.

#[local] Arguments AuthorizeAcceptance : simpl never.
#[local] Arguments ensureSuccessor : simpl never.
#[local] Arguments ensureAcceptance : simpl never.
#[local] Arguments ensureSourceRedirect : simpl never.

(** After its start: the acceptance is stored, and the rest as it was. *)
Definition started_now (s s' : db) (id : UUID) (t t' : TransferRow) : Prop :=
  rest_same s s' /\ stored s' id t' /\ offer t' = offer t /\ is_pending t' = true /\
  checks t' = true /\ row_Proposal t' = row_Proposal t /\ row_Successor t' = row_Successor t /\
  exists at_, row_StartedAt t' = Some at_ /\ at_ <= clock s.

Lemma start_exec s id actor t row w :
  acceptable s id actor t row ->
  exists t' s', exec (handle lower world)
    match AcceptanceStartedAt (transferFromRow t) with
    | Some _ => done_ (transferFromRow t)
    | None => wrapErr w (call (StartAcceptance id (clock s)))
    end s = (Ok (transferFromRow t'), s') /\ started_now s s' id t t'.
Proof.
  intros Ha. pose proof (acc_time _ _ _ _ _ Ha) as Ht. pose proof (acc_pending _ _ _ _ _ Ha) as Hp.
  cbn [transferFromRow AcceptanceStartedAt]. destruct (row_StartedAt t) as [at_ |] eqn:Hat.
  - exists t, s. split; [done |]. unfold started_now. split; [by destruct s |].
    split_and!; try done; [apply Ha .. |]. by exists at_.
  - destruct (update_pending_exec s id ErrConflict
      (fun t => is_some (row_StartedAt t) || (clock s <? o_ExpiresAt (offer t)))
      (with_start (clock s)) t) as (s' & Hu & Hr & Hs').
    + apply Ha.
    + done.
    + by rewrite Hat, (proj2 (Z.ltb_lt _ _) Ht).
    + apply checks_start; [apply Ha | done | apply Ha | done].
    + done.
    + exists (with_start (clock s) t), s'. rewrite exec_wrapErr, exec_call. cbn [handle].
      rewrite Hu. split; [done |]. unfold started_now. split_and!; try done.
      * apply checks_start; [apply Ha | done | apply Ha | done].
      * exists (clock s). cbn. rewrite Hat. split; [done | lia].
Qed.

(** What an accepted transfer leaves: the transfer completed by [actor], and
    the repository the destination's. *)
Definition accepted (s' : db) (id : UUID) (actor : string) (t : TransferRow)
    (v : Transfer) : Prop :=
  Transfer_Status v = StatusCompleted /\ AcceptedByDID v = actor /\
  (exists t', stored s' id t' /\ v = transferFromRow t' /\ offer t' = offer t) /\
  exists row', List.find (store.has_id (o_RepositoryID (offer t))) (repositories s') = Some row' /\
    let r := store.row_repository row' in
    repository.OwnerDID r = o_DestinationOwnerDid (offer t) /\
    repository.OrganizationID r = o_DestinationOrganizationID (offer t) /\
    (o_Source (offer t) <> None ->
       exists i, Successor v = Some i /\ repository.ATURI r = URI i /\ repository.ATCID r = CID i).

Lemma rest_same_fields s s' :
  rest_same s s' -> repositories s' = repositories s /\ aliases s' = aliases s /\
    organizations s' = organizations s /\ clock s' = clock s.
Proof. unfold rest_same. by intros ->. Qed.

Lemma route_available_rest s s' o v :
  rest_same s s' -> route_available lower s' o v = route_available lower s o v.
Proof. unfold rest_same. by intros ->. Qed.

(** The last call, from a state that differs in the progress of the transfer. *)
Lemma complete_accepted (portable : bool) s s1 id actor t t1 row :
  acceptable s id actor t row -> providers s t row -> rest_same s s1 -> stored s1 id t1 ->
  offer t1 = offer t -> is_pending t1 = true -> checks t1 = true ->
  (exists at_, row_StartedAt t1 = Some at_ /\ at_ <= clock s) ->
  (if portable
   then row_Acceptance t1 <> None /\ row_SourceRedirectCid t1 <> None /\
        exists i, row_Successor t1 = Some i /\ successor_of t (URI i)
   else o_Source (offer t) = None) ->
  exists v s', complete lower portable id (uuid_NewSHA1 id (bytes "source-owner-alias"))
      (uuid_NewSHA1 id (bytes "source-owner-did-alias")) actor (clock s) s1 = (Ok v, s') /\
    accepted s' id actor t v.
Proof.
  intros Ha Hpr Hrest Hs Ho Hp Hc (at_ & Hat & Hle) Hready.
  destruct (checks_completed t1 at_ actor (clock s) Hc Hp Hat Hle) as [Hcc Hin].
  destruct (rest_same_fields _ _ Hrest) as (Hrep & Hal & _ & _).
  destruct (complete_exec portable s1 id t1 row actor (clock s)) as (s' & He & Hs' & Hrow').
  - done.
  - done.
  - destruct portable; [unfold portable_ready | unfold private_ready]; rewrite Hin.
    + destruct Hready as (Hacc & Hred & i & -> & _). by destruct (row_Acceptance t1), (row_SourceRedirectCid t1).
    + by rewrite Ho, Hready.
  - rewrite Ho, Hrep. apply Ha.
  - rewrite Ho, (route_available_rest s s1) by done. apply Ha.
  - rewrite Hal. apply Ha.
  - apply Ha.
  - rewrite Ho, Hrep. intros other Hother Hne.
    destruct (prov_unique _ _ _ Hpr (repository.ATURI (moved portable t1 (clock s)
      (store.row_repository row))) other Hother Hne) as [Hu Hk]; [| done].
    destruct portable; cbn; [left | by right].
    destruct Hready as (_ & _ & i & -> & Hi). exact Hi.
  - done.
  - exists (transferFromRow (completed actor (clock s) t1)), s'. split; [exact He |].
    rewrite Ho in Hrow'. split_and!; try done; [by eexists |].
    eexists. split; [exact Hrow' |]. cbn. rewrite Ho. split_and!; try done. intros Hsrc.
    destruct portable; [| done]. destruct Hready as (_ & _ & i & -> & _). by exists i.
Qed.

(** The portable workflow, resumed wherever it was left. *)
Lemma publications_exec s s1 id actor t t1 row repo source proposal at_ :
  acceptable s id actor t row -> providers s t row -> started_now s s1 id t t1 ->
  o_Source (offer t) = Some source -> row_Proposal t = Some proposal ->
  exists v s', exec (handle lower world)
      (let? value := ensureSuccessor id (transferFromRow t1) repo eps source at_ in
       let? value := ensureAcceptance id value at_ in
       let? value := ensureSourceRedirect id value repo eps at_ in
       wrapErr (wrapf "complete transfer: %w")
         (call (Complete id (uuid_NewSHA1 id (bytes "source-owner-alias"))
            (uuid_NewSHA1 id (bytes "source-owner-did-alias")) actor (clock s)))) s1 = (Ok v, s') /\
    accepted s' id actor t v.
Proof.
  intros Ha Hpr (R1 & S1 & O1 & P1 & C1 & Pr1 & Su1 & at1 & At1 & Le1) Hsrc Hprop.
  destruct (rest_same_fields _ _ R1) as (_ & _ & Horg & _).
  destruct (ensureSuccessor_done s1 id t1 repo source at_ S1 P1 C1 (prov_publish _ _ _ Hpr))
    as (t2 & s2 & E2 & R2 & S2 & (O2 & P2 & C2 & At2 & Pr2) & i & Su2 & Hi).
  { intros org Ho. unfold organizationIdentity. rewrite Horg. apply (acc_organizations _ _ _ _ _ Ha).
    left. congruence. }
  rewrite exec_svc_bind, E2.
  destruct (ensureAcceptance_done s2 id t2 proposal i at_ S2 P2 C2)
    as (t3 & s3 & E3 & R3 & S3 & (O3 & P3 & C3 & At3 & Pr3) & Su3 & Ac3);
    [congruence | done | apply Hpr |].
  rewrite exec_svc_bind, E3.
  destruct (ensureSourceRedirect_done s3 id t3 repo i at_ S3 P3 C3)
    as (t4 & s4 & E4 & R4 & S4 & (O4 & P4 & C4 & At4 & Pr4) & Su4 & Ac4 & Rd4);
    [congruence | apply Hpr | |].
  { intros org Ho. assert (R13 : rest_same s s3) by (by transitivity s1; [| transitivity s2]).
    destruct (rest_same_fields _ _ R13) as (_ & _ & Horg3 & _).
    unfold organizationIdentity. rewrite Horg3. apply (acc_organizations _ _ _ _ _ Ha).
    right. congruence. }
  rewrite exec_svc_bind, E4.
  assert (R14 : rest_same s s4) by (by transitivity s1; [| transitivity s2; [| transitivity s3]]).
  destruct (complete_accepted true s s4 id actor t t4 row) as (v & s' & Hc & Hacc); try done.
  - congruence.
  - exists at1. split; [congruence | done].
  - split_and!; [by rewrite Ac4 | done |]. exists i. split; [congruence |].
    destruct Hi as [(j & Hj & Hu) | Hi]; [left; exists j; split; [congruence | done] | by right].
  - exists v, s'. rewrite exec_wrapErr, exec_call. cbn [handle]. by rewrite Hc.
Qed.

(** C1: an acceptance that may go through does, wherever an earlier attempt
    stopped: whichever of the start and the three records are stored already,
    [Accept] by an owner of the destination completes the transfer, if the
    providers answer; the repository is then the destination's, continued in
    the stored successor; and accepting once more is a conflict that changes
    nothing. *)
Theorem Accept_completes (s : db) (id : UUID) (actor : string) (t : TransferRow)
    (row : store.RepositoryRow)
    (Ha : acceptable s id actor t row) (Hpr : providers s t row) :
  exists v s', exec (handle lower world) (Accept ready_service id actor) s = (Ok v, s') /\
    accepted s' id actor t v /\
    exec (handle lower world) (Accept ready_service id actor) s' = (Err ErrConflict, s').
Proof.
  enough (Hmain : exists v s', exec (handle lower world) (Accept ready_service id actor) s
                    = (Ok v, s') /\ accepted s' id actor t v).
  { destruct Hmain as (v & s' & He & Hacc). exists v, s'. split_and!; [done | done |].
    destruct Hacc as (Hst & _ & (t' & Hs' & -> & _) & _). unfold Accept, AuthorizeAcceptance.
    rewrite exec_svc_bind, exec_svc_bind, exec_call. cbn [handle]. unfold find_row. rewrite Hs'.
    cbn [fmap result_fmap]. rewrite Hst. by rewrite exec_bind. }
  unfold Accept. rewrite exec_svc_bind, (AuthorizeAcceptance_exec s id actor t row Ha).
  rewrite exec_svc_bind, exec_wrapErr, exec_call. cbn [handle].
  assert (Hcan : canComplete lower s id = true).
  { unfold canComplete. apply existsb_exists. exists t.
    pose proof (acc_stored _ _ _ _ _ Ha) as [Hin Hid]%find_some. split; [done |].
    rewrite Hid, (acc_pending _ _ _ _ _ Ha). cbn [andb]. apply existsb_exists. exists row.
    pose proof (acc_row _ _ _ _ _ Ha) as [Hin' Hid']%find_some. split; [done |].
    by rewrite Hid', (acc_active _ _ _ _ _ Ha), (acc_route _ _ _ _ _ Ha). }
  rewrite Hcan. cbn [mapErr negb]. rewrite exec_bind, exec_call. cbn [handle]. unfold UTC.
  rewrite exec_svc_bind.
  destruct (start_exec s id actor t row (wrapf "start transfer acceptance: %w") Ha)
    as (t1 & s1 & -> & Hst). pose proof Hst as (R1 & S1 & O1 & P1 & C1 & Pr1 & Su1 & at1 & At1 & Le1).
  cbn [transferFromRow AcceptanceStartedAt SourceRepository Proposal]. rewrite At1. cbn [deref].
  rewrite O1. destruct (o_Source (offer t)) as [source |] eqn:Hsrc.
  - destruct (row_Proposal t) as [proposal |] eqn:Hprop;
      [| exfalso; apply (acc_proposal _ _ _ _ _ Ha); [by rewrite Hsrc | done]].
    rewrite Pr1. cbn [ready_service publisher repositoryPublisher endpoints].
    by eapply publications_exec.
  - destruct (complete_accepted false s s1 id actor t t1 row) as (v & s' & Hc & Hacc); try done.
    { by exists at1. }
    exists v, s'. rewrite exec_call. cbn [handle]. by rewrite Hc.
Qed.
End accept.

(** ** A transfer to an organization, resumed after its expiry *)

Module transferstore_examples.
Import Demo.

Definition source_did : string := "did:plc:source".
Definition owner_did : string := "did:plc:owner".
Definition tool : store.RepositoryRow :=
  store.mkRepositoryRow (repository.mkRepository 7 source_did None EmptyString "tool" "Tool"
    EmptyString repository.VisibilityPublic repository.StateActive "main" "7"
    "at://did:plc:source/dev.adenosine.repository/7" "cid7" None None 0 false None 10 10) None.
Definition other : store.RepositoryRow :=
  store.mkRepositoryRow (repository.mkRepository 8 owner_did None EmptyString "tool" "Other"
    EmptyString repository.VisibilityPublic repository.StateActive "main" "8"
    "at://did:plc:owner/dev.adenosine.repository/8" "cid8" None None 0 false None 10 10) None.

Definition start : db :=
  mkDb [] [tool; other] [] [(3, 7); (3, 8)] [] [mkRoute "source.example" (Some source_did) None 1;
    mkRoute "acme" None (Some 5) 2]
    {[5 := mkOrganizationRow "did:plc:creator" (Some (repository.mkATIdentity "at://org" "orgcid"))
             true true]} [(5, owner_did)] 100 1000.

(** Providers that answer, but for the acceptance when [up] is false. *)
Definition providers_ (up : bool) X (e : effect X) : X :=
  match e in effect X return X with
  | PublishProposal _ => Ok (mkIdentity "at://did:plc:source/proposal" "pcid")
  | PublishAcceptance _ =>
      if up then Ok (mkIdentity "at://did:plc:creator/acceptance" "acid") else Err ErrProvider
  | Publish _ => Ok (repository.mkATIdentity "at://did:plc:creator/dev.adenosine.repository/7" "scid")
  | DeleteProposal _ _ => Ok tt
  | ResolveOwner _ | ResolveOrganizationIdentity _ | CanInitiate _ _ | CanAccept _ _
  | CanComplete _ | ResolveSourceAlias _ | GetRepository _ | GetPending _ | store_Create _
  | store_Get _ | store_Page _ _ _ | SetProposal _ _ | SetSuccessor _ _ | StartAcceptance _ _
  | SetAcceptance _ _ | SetSourceRedirect _ _ | store_Cancel _ _ | Complete _ _ _ _ _
  | CompletePrivate _ _ _ _ _ | NewID => Err ErrNotFound
  | Now => 0
  end.
Definition eps : repository.Endpoints :=
  repository.mkEndpoints "https://adenosine.example" "ssh.adenosine.example" 22.
Definition run_ {A} (up : bool) (p : prog effect A) (s : db) : A * db :=
  exec (handle id (providers_ up)) p s.

Definition at_time (t : time) (s : db) : db :=
  mkDb (transfers s) (repositories s) (aliases s) (teams s) (projections s) (routes s)
    (organizations s) (owners s) (fresh s) t.
Lemma at_time_transfers t s : transfers (at_time t s) = transfers s.
Proof. reflexivity. Qed.
Definition offered : db :=
  snd (run_ true (Initiate (ready_service eps) (store.row_repository tool) source_did "acme") start).
(** The acceptance provider fails once; a month later the offer has expired. *)
Definition interrupted : db :=
  at_time (720 * hour) (snd (run_ false (Accept (ready_service eps) 100 owner_did) offered)).

Example offered_once :
  map row_Status (transfers offered) = [StatusPending] /\
  map row_Proposal (transfers offered) = [Some (mkIdentity "at://did:plc:source/proposal" "pcid")].
Proof. vm_compute. done. Qed.
Example interrupted_started :
  map row_StartedAt (transfers interrupted) = [Some 1000] /\
  map (fun t => is_some (row_Successor t)) (transfers interrupted) = [true] /\
  map (fun t => is_some (row_Acceptance t)) (transfers interrupted) = [false] /\
  fst (run_ true (Cancel (ready_service eps) 100 source_did) interrupted) = Err ErrConflict.
Proof. vm_compute. done. Qed.
Example resumed :
  let '(r, s') := run_ true (Accept (ready_service eps) 100 owner_did) interrupted in
  is_Ok r = true /\
  map (fun row => repository.OrganizationID (store.row_repository row)) (repositories s')
    = [Some 5; None] /\
  map store.OwnerAlias (aliases s') = ["source.example"; source_did] /\ teams s' = [(3, 8)].
Proof. vm_compute. done. Qed.

Definition open_transfer : TransferRow :=
  match transfers interrupted with
  | t :: _ => t
  | [] => insertedRow (newTransfer 0 (store.row_repository tool) EmptyString
                         (mkOwner OwnerAccount EmptyString EmptyString None None EmptyString)
                         EmptyString 0)
  end.

Lemma open_acceptable : acceptable id interrupted 100 owner_did open_transfer tool.
Proof.
  split; try (vm_compute; done).
  - intros org Horg. vm_compute in Horg. destruct Horg as [[= <-] | [=]].
    eexists. vm_compute. reflexivity.
  - intros a Ha. assert (Hn : aliases interrupted = []) by (vm_compute; reflexivity).
    rewrite Hn in Ha. by apply elem_of_nil in Ha.
Qed.

Lemma open_providers : providers (providers_ true) interrupted open_transfer tool.
Proof.
  split; [by eexists | by eexists |].
  intros uri row Hin Hne Huri.
  assert (Hrow : row = tool \/ row = other).
  { assert (Hr : repositories interrupted = [tool; other]) by (vm_compute; reflexivity).
    rewrite Hr in Hin. clear -Hin.
    apply elem_of_cons in Hin as [-> | ->%list_elem_of_singleton]; [by left | by right]. }
  assert (Hu : uri = "at://did:plc:creator/dev.adenosine.repository/7").
  { destruct Huri as [[(i & Hi & <-) | (p & i & Hi & <-)] | [Hs _]].
    - vm_compute in Hi. injection Hi as <-. done.
    - injection Hi as <-. done.
    - vm_compute in Hs. done. }
  subst uri. clear Huri. destruct Hrow as [-> | ->]; [destruct Hne; vm_compute; reflexivity |].
  split; vm_compute; discriminate.
Qed.

Lemma Accept_completes_witness :
  exists v s', exec (handle id (providers_ true)) (Accept (ready_service eps) 100 owner_did)
                 interrupted = (Ok v, s') /\
    accepted s' 100 owner_did open_transfer v /\
    exec (handle id (providers_ true)) (Accept (ready_service eps) 100 owner_did) s'
      = (Err ErrConflict, s').
Proof.
  apply (Accept_completes id (providers_ true) eps interrupted 100 owner_did open_transfer tool
           open_acceptable open_providers).
Defined.

Lemma run_steps {A} up (p : prog effect A) s : rtc (step id (providers_ up)) s (snd (run_ up p s)).
Proof.
  unfold run_. revert s. induction p as [a | X e k IH]; intros s; [done |].
  rewrite exec_vis. destruct (handle id (providers_ up) X e s) as [x s'] eqn:He.
  eapply rtc_l; [by eapply step_effect | apply IH].
Qed.

Lemma transfer_history_witness :
  (forall t, t ∈ transfers offered -> row_Status t = StatusCompleted ->
     (exists at_, row_StartedAt t = Some at_ /\ at_ < o_ExpiresAt (offer t)) /\
     (o_Source (offer t) = None \/
      row_Successor t <> None /\ row_Acceptance t <> None /\ row_SourceRedirectCid t <> None)) /\
  (forall t, t ∈ transfers offered -> exists t', t' ∈ transfers interrupted /\
    offer t' = offer t /\ (is_pending t = false -> t' = t) /\
    (forall at_, row_StartedAt t = Some at_ ->
       row_StartedAt t' = Some at_ /\ row_Status t' <> StatusCancelled) /\
    keeps_uri (row_Proposal t) (row_Proposal t') /\
    keeps_uri (row_Successor t) (row_Successor t') /\
    keeps_uri (row_Acceptance t) (row_Acceptance t')).
Proof.
  refine (proj2 (transfer_history id (providers_ false) start offered interrupted eq_refl _ _)).
  - assert (Hs : offered = snd (run_ false
      (Initiate (ready_service eps) (store.row_repository tool) source_did "acme") start)).
    { vm_compute. reflexivity. }
    rewrite Hs. apply run_steps.
  - apply rtc_r with (snd (run_ false (Accept (ready_service eps) 100 owner_did) offered)).
    + apply run_steps.
    + unfold interrupted. apply step_others, at_time_transfers.
Defined.
End transferstore_examples.
End transferstore.
