(* ===== verification/Organization.v ===== *)
(** * Organization: organizations, their members, invitations and roles
    (package [internal/organization]: organization.go, service.go). *)

From stdpp Require Import pretty.
From S2P Require Import Prelude.
From S2P Require Import GoText.
From S2P Require Import Encoding.
From S2P Require Import Syntax.
From S2P Require Import Json.
From S2P Require Import CommitStatus.

Module organization.

Definition InvitationLifetime : Z := 7 * 24 * hour.
Definition maxNameBytes : Z := 255.
Definition maxDescriptionBytes : Z := 2000.

Definition ErrNotFound : error := New "organization not found".
Definition ErrAlreadyExists : error := New "organization already exists".
Definition ErrForbidden : error := New "organization action forbidden".
Definition ErrLastOwner : error := New "organization must retain at least one owner".
Definition ErrCreatorOwner : error := New "organization creator must remain an owner".
Definition ErrInvitation : error := New "organization invitation is not active".
Definition ErrValidation : error := New "organization validation failed".

(** [^[a-z0-9][a-z0-9-]*$] *)
Definition slugPattern_text : string := "^[a-z0-9][a-z0-9-]*$".
Definition slug_first (c : Ascii.ascii) : bool := is_lower c || is_digit c.
Definition slug_rest (c : Ascii.ascii) : bool := slug_first c || is_char "-"%char c.
Definition slugPattern (s : string) : bool := match_first_rest slug_first slug_rest s.
Definition reservedOwnerSlugs : list string :=
  ["api"; "docs"; "explore"; "health"; "login"; "oauth"; "organizations"; "profiles"; "settings"].

Definition Role : Type := string.
Definition RoleOwner : Role := "owner".
Definition RoleMember : Role := "member".
Definition Role_Validate (role : Role) : result unit :=
  reject_if (role != RoleOwner) && (role != RoleMember)
    with Errorf "role must be owner or member" [] ;; Ok tt.

Definition MembershipVisibility : Type := string.
Definition VisibilityPrivate : MembershipVisibility := "private".
Definition VisibilityPublic : MembershipVisibility := "public".
Definition MembershipVisibility_Validate (visibility : MembershipVisibility) : result unit :=
  reject_if (visibility != VisibilityPrivate) && (visibility != VisibilityPublic)
    with Errorf "membership visibility must be private or public" [] ;; Ok tt.

Definition BasePermission : Type := string.
Definition BasePermissionNone : BasePermission := "none".
Definition BasePermissionRead : BasePermission := "read".
Definition BasePermissionWrite : BasePermission := "write".
Definition BasePermission_Validate (permission : BasePermission) : result unit :=
  reject_if (permission != BasePermissionNone) && (permission != BasePermissionRead)
            && (permission != BasePermissionWrite)
    with Errorf "base permission must be none, read, or write" [] ;; Ok tt.

Definition RepositoryRole : Type := string.
Definition RepositoryRoleNone : RepositoryRole := "none".
Definition RepositoryRoleRead : RepositoryRole := "read".
Definition RepositoryRoleTriage : RepositoryRole := "triage".
Definition RepositoryRoleWrite : RepositoryRole := "write".
Definition RepositoryRoleMaintain : RepositoryRole := "maintain".
Definition RepositoryRoleAdmin : RepositoryRole := "admin".

(** The map [repositoryRoleRank], and its zero value where a key is missing. *)
Definition repositoryRoleRank : gmap RepositoryRole Z := list_to_map
  [(RepositoryRoleNone, 0); (RepositoryRoleRead, 1); (RepositoryRoleTriage, 2);
   (RepositoryRoleWrite, 3); (RepositoryRoleMaintain, 4); (RepositoryRoleAdmin, 5)].
Definition rank (role : RepositoryRole) : Z := default 0 (repositoryRoleRank !! role).
Definition RepositoryRole_Validate (role : RepositoryRole) : result unit :=
  reject_if negb (bool_decide (is_Some (repositoryRoleRank !! role))) || (role == RepositoryRoleNone)
    with Errorf "repository role must be read, triage, write, maintain, or admin" [] ;; Ok tt.

Definition TeamRole : Type := string.
Definition TeamRoleMember : TeamRole := "member".
Definition TeamRoleMaintainer : TeamRole := "maintainer".
Definition TeamVisibility : Type := string.
Definition TeamVisibilityVisible : TeamVisibility := "visible".
Definition TeamVisibilitySecret : TeamVisibility := "secret".

Definition State : Type := string.
Definition StateCreating : State := "creating".
Definition StateActive : State := "active".
Definition StateFailed : State := "failed".
Definition StateDeleting : State := "deleting".
Definition StateDeleted : State := "deleted".

(** ** Data *)

Record Organization := mkOrganization {
  ID : UUID; Slug : string; Name : string; Description : string; Website : string;
  Location : string; CreatorDID : string; Organization_BasePermission : BasePermission;
  MembersCanCreateRepo : bool; Organization_State : State; ATURI : string; ATCID : string;
  CreatedAt : time; UpdatedAt : time
}.
Record ATIdentity := mkATIdentity { URI : string; CID : string }.
(** [ATIdentity{}]. *)
Definition noIdentity : ATIdentity := mkATIdentity EmptyString EmptyString.
Record Page (T : Type) := mkPage { Items : list T; NextCursor : string }.
Arguments mkPage {T} Items NextCursor.
Arguments Items {T} _.
Arguments NextCursor {T} _.

Record Publication := mkPublication {
  Pub_ID : UUID; Pub_CreatorDID : string; Pub_Slug : string; Pub_Name : string;
  Pub_Description : string; Pub_Website : string; Pub_Location : string; Pub_CreatedAt : time;
  Pub_UpdatedAt : time
}.
Record GrantPublication := mkGrantPublication {
  Grant_ID : UUID; Grant_ActorDID : string; Grant_Organization : ATIdentity;
  Grant_SubjectDID : string; Grant_Role : Role; Grant_Authority : ATIdentity;
  Grant_CreatedAt : time; Grant_ExpiresAt : time
}.
Record MembershipPublication := mkMembershipPublication {
  Membership_ActorDID : string; Membership_Organization : ATIdentity;
  Membership_Grant : ATIdentity; Membership_Visibility : MembershipVisibility;
  Membership_CreatedAt : time; Membership_UpdatedAt : time
}.
Record RevocationPublication := mkRevocationPublication {
  Revocation_ID : UUID; Revocation_ActorDID : string; Revocation_Organization : ATIdentity;
  Revocation_Grant : ATIdentity; Revocation_SubjectDID : string;
  Revocation_Authority : ATIdentity; Revocation_CreatedAt : time
}.
Record Member := mkMember {
  M_OrganizationID : UUID; AccountDID : string; Handle : string; Member_Role : Role;
  Visibility : MembershipVisibility; M_InvitedByDID : string; M_GrantURI : string;
  M_GrantCID : string; MembershipURI : string; MembershipCID : string; JoinedAt : time;
  M_UpdatedAt : time
}.
Record Invitation := mkInvitation {
  I_ID : UUID; I_OrganizationID : UUID; OrganizationSlug : string; OrganizationName : string;
  InviteeDID : string; I_Role : Role; I_InvitedByDID : string; I_GrantURI : string;
  I_GrantCID : string; I_CreatedAt : time; ExpiresAt : time; RevokedAt : option time;
  AcceptedAt : option time
}.
Record Team := mkTeam {
  Team_ID : UUID; Team_OrganizationID : UUID; ParentTeamID : option UUID; Team_Slug : string;
  Team_Name : string; Team_Description : string; Team_Visibility : TeamVisibility;
  ViewerIsMember : bool; ViewerRole : TeamRole; Team_CreatedAt : time; Team_UpdatedAt : time
}.
Record TeamMember := mkTeamMember {
  TM_TeamID : UUID; TM_AccountDID : string; TM_Handle : string; TeamMember_Role : TeamRole;
  TM_CreatedAt : time; TM_UpdatedAt : time
}.
Record TeamRepository := mkTeamRepository {
  TR_TeamID : UUID; TR_RepositoryID : UUID; TR_RepositorySlug : string; TR_Role : RepositoryRole;
  TR_CreatedAt : time; TR_UpdatedAt : time
}.
Record RepositoryCollaborator := mkRepositoryCollaborator {
  RC_RepositoryID : UUID; RC_RepositorySlug : string; RC_AccountDID : string; RC_Handle : string;
  RC_Role : RepositoryRole; RC_CreatedAt : time; RC_UpdatedAt : time
}.
Record CollaboratorPage := mkCollaboratorPage {
  CP_Items : list RepositoryCollaborator; CP_NextCursor : option string
}.
Record AuditEvent := mkAuditEvent {
  Audit_ID : UUID; Audit_OrganizationID : UUID; Audit_ActorDID : string; Action : string;
  TargetType : string; TargetID : string; RequestID : string; Metadata : list Z;
  Audit_CreatedAt : time
}.
Record AuditPage := mkAuditPage { AP_Items : list AuditEvent; AP_NextCursor : option UUID }.

#[export] Instance Organization_eq_dec : EqDecision Organization.
Proof. solve_decision. Defined.
#[export] Instance Member_eq_dec : EqDecision Member.
Proof. solve_decision. Defined.
#[export] Instance Invitation_eq_dec : EqDecision Invitation.
Proof. solve_decision. Defined.
#[export] Instance Team_eq_dec : EqDecision Team.
Proof. solve_decision. Defined.


Definition Active (invitation : Invitation) (now : time) : bool :=
  negb (is_some (RevokedAt invitation)) && negb (is_some (AcceptedAt invitation))
  && Before now (ExpiresAt invitation).

(** ** Validation *)

Record InviteInput := mkInviteInput {
  Invite_OrganizationID : UUID; Invite_ActorDID : string; Invite_InviteeDID : string;
  Invite_Role : Role
}.
Record CreateInput := mkCreateInput {
  C_CreatorDID : string; C_Slug : string; C_Name : string; C_Description : string;
  C_Website : string; C_Location : string; C_BasePermission : BasePermission;
  C_MembersCanCreateRepo : bool
}.
Record UpdateInput := mkUpdateInput {
  U_OrganizationID : UUID; U_ActorDID : string; U_Name : string; U_Description : string;
  U_Website : string; U_Location : string; U_BasePermission : BasePermission;
  U_MembersCanCreateRepo : bool
}.
Record CreateTeamInput := mkCreateTeamInput {
  CT_OrganizationID : UUID; CT_ActorDID : string; CT_ParentTeamID : option UUID;
  CT_Slug : string; CT_Name : string; CT_Description : string; CT_Visibility : TeamVisibility
}.
Record UpdateTeamInput := mkUpdateTeamInput {
  UT_OrganizationID : UUID; UT_TeamID : UUID; UT_ActorDID : string;
  UT_ParentTeamID : option UUID; UT_Name : string; UT_Description : string;
  UT_Visibility : TeamVisibility
}.

(** [fmt.Errorf("%w: " + problem, ErrValidation)], and [fmt.Errorf("%w: %v", ...)]. *)
Definition invalid (problem : string) : error := Errorf ("%w: " +:+ problem) [W ErrValidation].
Definition invalidly (format : string) (err : error) : error :=
  Errorf ("%w: " +:+ format) [W ErrValidation; V err].
Definition blank (s : string) : bool := TrimSpace s == EmptyString.
Definition same_parent (parent : option UUID) (id : UUID) : bool :=
  match parent with Some p => p =? id | None => false end.

Section validation.
Context `{Syntax, GoURL}.

Definition validateDID (value : string) : result unit :=
  match ParseDID value with
  | Some did => reject_if DID_String did != value
                  with Errorf "must be a canonical DID" [] ;; Ok tt
  | None => Err (Errorf "must be a canonical DID" [])
  end.

Definition InviteInput_Validate (input : InviteInput) : result unit :=
  reject_if (Invite_OrganizationID input =? uuid_Nil) || blank (Invite_ActorDID input)
            || blank (Invite_InviteeDID input)
    with invalid "organization, actor, and invitee are required" ;;
  reject_if Invite_ActorDID input == Invite_InviteeDID input
    with invalid "an owner cannot invite themselves" ;;
  let* _ := mapErr (invalidly "actor DID: %v") (validateDID (Invite_ActorDID input)) in
  let* _ := mapErr (invalidly "invitee DID: %v") (validateDID (Invite_InviteeDID input)) in
  let* _ := mapErr (invalidly "%v") (Role_Validate (Invite_Role input)) in
  Ok tt.

Definition validateOptionalWebsite (value : string) : result unit :=
  if value == EmptyString then Ok tt else
  match ParseRequestURI value with
  | Some website =>
      reject_if ((Scheme website != "http") && (Scheme website != "https"))
                || (Host website == EmptyString)
        with Errorf "website must be an absolute HTTP or HTTPS URL" [] ;; Ok tt
  | None => Err (Errorf "website must be an absolute HTTP or HTTPS URL" [])
  end.

Definition UpdateTeamInput_Validate (input : UpdateTeamInput) : result unit :=
  reject_if (UT_OrganizationID input =? uuid_Nil) || (UT_TeamID input =? uuid_Nil)
            || (UT_ActorDID input == EmptyString)
    with invalid "organization, team, and actor are required" ;;
  reject_if blank (UT_Name input) || (maxNameBytes <? len (UT_Name input))
            || (maxDescriptionBytes <? len (UT_Description input))
    with invalid "team name or description is invalid" ;;
  reject_if (UT_Visibility input != TeamVisibilityVisible)
            && (UT_Visibility input != TeamVisibilitySecret)
    with invalid "team visibility must be visible or secret" ;;
  reject_if same_parent (UT_ParentTeamID input) (UT_TeamID input)
    with invalid "a team cannot be its own parent" ;;
  Ok tt.

Definition CreateTeamInput_Validate (input : CreateTeamInput) : result unit :=
  reject_if (CT_OrganizationID input =? uuid_Nil) || (CT_ActorDID input == EmptyString)
    with invalid "organization and actor are required" ;;
  reject_if (100 <? len (CT_Slug input)) || negb (slugPattern (CT_Slug input))
    with invalid "team slug is invalid" ;;
  reject_if blank (CT_Name input) || (maxNameBytes <? len (CT_Name input))
            || (maxDescriptionBytes <? len (CT_Description input))
    with invalid "team name or description is invalid" ;;
  reject_if (CT_Visibility input != TeamVisibilityVisible)
            && (CT_Visibility input != TeamVisibilitySecret)
    with invalid "team visibility must be visible or secret" ;;
  Ok tt.

Definition UpdateInput_Validate (input : UpdateInput) : result unit :=
  reject_if (U_OrganizationID input =? uuid_Nil) || blank (U_ActorDID input)
    with invalid "organization and actor are required" ;;
  reject_if blank (U_Name input) || (maxNameBytes <? len (U_Name input))
            || (maxDescriptionBytes <? len (U_Description input))
    with invalid "organization name or description is invalid" ;;
  let* _ := mapErr (invalidly "%v") (validateOptionalWebsite (U_Website input)) in
  let* _ := mapErr (invalidly "%v") (BasePermission_Validate (U_BasePermission input)) in
  Ok tt.

Definition CreateInput_Validate (input : CreateInput) : result unit :=
  reject_if blank (C_CreatorDID input) with invalid "creator DID must not be empty" ;;
  reject_if (100 <? len (C_Slug input)) || negb (slugPattern (C_Slug input))
    with Errorf "%w: slug must match %s and contain at most 100 characters"
           [W ErrValidation; Str slugPattern_text] ;;
  reject_if bool_decide (C_Slug input ∈ reservedOwnerSlugs)
    with invalid "slug is reserved by an application route" ;;
  reject_if blank (C_Name input) || (maxNameBytes <? len (C_Name input))
    with Errorf "%w: name must contain between 1 and %d bytes" [W ErrValidation; Int maxNameBytes] ;;
  reject_if maxDescriptionBytes <? len (C_Description input)
    with Errorf "%w: description must contain at most %d bytes"
           [W ErrValidation; Int maxDescriptionBytes] ;;
  reject_if maxNameBytes <? len (C_Location input)
    with Errorf "%w: location must contain at most %d bytes" [W ErrValidation; Int maxNameBytes] ;;
  let* _ := mapErr (invalidly "%v") (validateOptionalWebsite (C_Website input)) in
  let* _ := mapErr (invalidly "%v") (BasePermission_Validate (C_BasePermission input)) in
  Ok tt.
End validation.

(** ** Repository roles *)

(** [if rank[role] > rank[result] { result = role }]. *)
Definition stronger (result role : RepositoryRole) : RepositoryRole :=
  if rank result <? rank role then role else result.

Definition EffectiveRepositoryRole (memberRole : Role) (base : BasePermission)
    (direct : RepositoryRole) (teams : list RepositoryRole) : RepositoryRole :=
  if memberRole == RoleOwner then RepositoryRoleAdmin else
  let result :=
    if base == BasePermissionRead then RepositoryRoleRead
    else if base == BasePermissionWrite then RepositoryRoleWrite
    else RepositoryRoleNone in
  fold_left stronger teams (stronger result direct).

(** ** The service *)

(** The store, the publisher, the clock and the identifier generators of the
    package's three services. *)
Inductive effect : Type -> Type :=
| store_Create (value : Organization) : effect (result Organization)
| Activate (id : UUID) (identity : ATIdentity) (updatedAt : time) : effect (result Organization)
| Fail_ (id : UUID) (updatedAt : time) : effect (result unit)
| store_GetBySlug (slug : string) : effect (result Organization)
| store_Update (value : Organization) : effect (result Organization)
| store_ListForAccount (did : string) : effect (result (list Organization))
| store_PageForAccount (did : string) (after : option UUID) (limit : Z)
    : effect (result (list Organization))
| store_ListMembers (id : UUID) : effect (result (list Member))
| store_PageMembers (id : UUID) (includePrivate : bool) (after : string) (limit : Z)
    : effect (result (list Member))
| GetByID (id : UUID) : effect (result Organization)
| GetOwner (id : UUID) (did : string) : effect (result Member)
| store_GetMember (id : UUID) (did : string) : effect (result Member)
| CreateInvitation (invitation : Invitation) : effect (result Invitation)
| store_RevokeInvitation (id : UUID) (revokedAt : time) : effect (result unit)
| GetInvitation (id : UUID) : effect (result Invitation)
| store_ListInvitations (organizationID : UUID) : effect (result (list Invitation))
| store_PageInvitations (organizationID : UUID) (after : option UUID) (limit : Z)
    : effect (result (list Invitation))
| store_ListPendingInvitations (did : string) (now : time) : effect (result (list Invitation))
| store_PagePendingInvitations (did : string) (now : time) (after : option UUID) (limit : Z)
    : effect (result (list Invitation))
| AcceptInvitation (id : UUID) (actorDID : string) (membership : ATIdentity) (now : time)
    : effect (result Member)
| UpdateMemberRole (organizationID : UUID) (did : string) (role : Role)
    (grant membership : ATIdentity) (now : time) : effect (result Member)
| store_RemoveMember (organizationID : UUID) (did : string) : effect (result Member)
| UpdateVisibility (organizationID : UUID) (did : string) (visibility : MembershipVisibility)
    (grant membership : ATIdentity) (now : time) : effect (result Member)
| RecordAudit (event : AuditEvent) : effect (result unit)
| ListAuditEvents (organizationID : UUID) (after : option UUID) (limit : Z)
    : effect (result (list AuditEvent))
| CreateTeam (value : Team) : effect (result Team)
| UpdateTeam (value : Team) : effect (result Team)
| DeleteTeam (organizationID teamID : UUID) (deletedAt : time) : effect (result Z)
| TeamHasChildren (organizationID teamID : UUID) : effect (result bool)
| IsTeamDescendant (organizationID teamID candidateID : UUID) : effect (result bool)
| ListTeams (organizationID : UUID) (viewerDID : string) : effect (result (list Team))
| PageTeams (organizationID : UUID) (viewerDID : string) (includeSecret : bool)
    (after : option UUID) (limit : Z) : effect (result (list Team))
| GetTeam (organizationID teamID : UUID) : effect (result Team)
| AddTeamMember (teamID : UUID) (accountDID : string) (role : TeamRole) (now : time)
    : effect (result TeamMember)
| GetTeamMember (teamID : UUID) (accountDID : string) : effect (result TeamMember)
| ListTeamMembers (teamID : UUID) : effect (result (list TeamMember))
| PageTeamMembers (teamID : UUID) (after : string) (limit : Z) : effect (result (list TeamMember))
| RemoveTeamMember (teamID : UUID) (accountDID : string) : effect (result unit)
| PutTeamRepository (teamID repositoryID : UUID) (role : RepositoryRole) (now : time)
    : effect (result TeamRepository)
| ListTeamRepositories (teamID : UUID) : effect (result (list TeamRepository))
| PageTeamRepositories (teamID : UUID) (after : option UUID) (limit : Z)
    : effect (result (list TeamRepository))
| RemoveTeamRepository (teamID repositoryID : UUID) : effect (result unit)
| CanAdminRepository (organizationID repositoryID : UUID) (accountDID : string)
    : effect (result bool)
| PutRepositoryCollaborator (organizationID repositoryID : UUID) (accountDID : string)
    (role : RepositoryRole) (now : time) : effect (result RepositoryCollaborator)
| ListRepositoryCollaborators (organizationID repositoryID : UUID) (after : string) (limit : Z)
    : effect (result (list RepositoryCollaborator))
| RemoveRepositoryCollaborator (organizationID repositoryID : UUID) (accountDID : string)
    : effect (result unit)
| PublishOrganization (publication : Publication) : effect (result ATIdentity)
| PublishOrganizationGrant (publication : GrantPublication) : effect (result ATIdentity)
| PublishOrganizationMembership (publication : MembershipPublication) : effect (result ATIdentity)
| PublishOrganizationRevocation (publication : RevocationPublication) : effect (result ATIdentity)
| DeleteOrganizationMembership (actorDID : string) (organization membership : ATIdentity)
    : effect (result unit)
| Now : effect time
| NewID : effect (result UUID)
| uuid_New : effect UUID.

Definition wrapf (format : string) (err : error) : error := Errorf format [W err].
(** [if errors.Is(err, ErrNotFound) { return ErrForbidden }] before a wrapping
    return. *)
Definition forbidden_or (format : string) (err : error) : error :=
  if Is err ErrNotFound then ErrForbidden else wrapf format err.

(** A value of a [map[string]any] as [json.Marshal] writes it; the keys are
    listed in the order the encoder sorts them in. *)
Definition json_bool (b : bool) : list Z := bytes (if b then "true" else "false").
Definition json_int (n : Z) : list Z := bytes (pretty n).

Section service.
Context `{Syntax, UUIDs, GoURL} (requestID : string).

Definition json_id (id : option UUID) : list Z :=
  json.nullable (fun id => json.string_ (uuid_String id)) id.

Definition recordOrganizationAudit (organizationID : UUID)
    (actorDID action targetType targetID : string) (metadata : list (string * list Z))
    : svc effect unit :=
  let! id := call uuid_New in
  let! now := call Now in
  wrapErr (wrapf "record organization audit event: %w")
    (call (RecordAudit (mkAuditEvent id organizationID actorDID action targetType targetID
                          requestID (json.object metadata) (UTC now)))).

Definition publicationAuthority (organization : Organization) (owner : Member)
    : string * ATIdentity :=
  if M_GrantURI owner != EmptyString
  then (AccountDID owner, mkATIdentity (M_GrantURI owner) (M_GrantCID owner))
  else (CreatorDID organization, mkATIdentity (ATURI organization) (ATCID organization)).

Definition authorizeOwner (organizationID : UUID) (actorDID : string)
    : svc effect (Organization * Member) :=
  let? organization := wrapErr (wrapf "get organization: %w") (call (GetByID organizationID)) in
  let? owner := wrapErr (forbidden_or "authorize organization owner: %w")
    (call (GetOwner organizationID actorDID)) in
  done_ (organization, owner).

Definition fail_ (id : UUID) (cause : error) : svc effect Organization :=
  let! now := call Now in
  let! r := call (Fail_ id (UTC now)) in
  fail (Join (cause :: match r with
                       | Ok _ => []
                       | Err e => [wrapf "mark organization failed: %w" e]
                       end)).

Definition publicationOf (value : Organization) : Publication :=
  mkPublication (ID value) (CreatorDID value) (Slug value) (Name value) (Description value)
    (Website value) (Location value) (CreatedAt value) (UpdatedAt value).
Definition identityOf (value : Organization) : ATIdentity :=
  mkATIdentity (ATURI value) (ATCID value).

(** When [Activate] fails, [organization] already holds the zero value the store
    returned beside its error. *)
Definition Create (input : CreateInput) : svc effect Organization :=
  let? _ := lift (CreateInput_Validate input) in
  let? id := wrapErr (wrapf "generate organization ID: %w") (call NewID) in
  let! now := call Now in
  let? organization := wrapErr (wrapf "create organization: %w")
    (call (store_Create
       (mkOrganization id (C_Slug input) (C_Name input) (C_Description input) (C_Website input)
          (C_Location input) (C_CreatorDID input) (C_BasePermission input)
          (C_MembersCanCreateRepo input) StateCreating EmptyString EmptyString (UTC now)
          (UTC now)))) in
  let! published := call (PublishOrganization (publicationOf organization)) in
  match published with
  | Err err => fail_ (ID organization) (wrapf "publish organization: %w" err)
  | Ok identity =>
      let! now := call Now in
      let! activated := call (Activate (ID organization) identity (UTC now)) in
      match activated with
      | Err err => fail_ uuid_Nil (wrapf "activate organization: %w" err)
      | Ok organization =>
          let? _ := recordOrganizationAudit (ID organization) (C_CreatorDID input)
            "organization.create" "organization" (uuid_String (ID organization))
            [("slug", json.string_ (Slug organization))] in
          done_ organization
      end
  end.

Definition GetBySlug (slug : string) : svc effect Organization :=
  wrapErr (wrapf "get organization: %w") (call (store_GetBySlug slug)).

Definition withSettings (value : Organization) (input : UpdateInput) (now : time) : Organization :=
  mkOrganization (ID value) (Slug value) (U_Name input) (U_Description input) (U_Website input)
    (U_Location input) (CreatorDID value) (U_BasePermission input) (U_MembersCanCreateRepo input)
    (Organization_State value) (ATURI value) (ATCID value) (CreatedAt value) now.
Definition withCID (value : Organization) (cid : string) : Organization :=
  mkOrganization (ID value) (Slug value) (Name value) (Description value) (Website value)
    (Location value) (CreatorDID value) (Organization_BasePermission value)
    (MembersCanCreateRepo value) (Organization_State value) (ATURI value) cid (CreatedAt value)
    (UpdatedAt value).

Definition Update (input : UpdateInput) : svc effect Organization :=
  let? _ := lift (UpdateInput_Validate input) in
  let? (value, _) := authorizeOwner (U_OrganizationID input) (U_ActorDID input) in
  let! now := call Now in
  let value := withSettings value input (UTC now) in
  let? identity := wrapErr (wrapf "publish organization update: %w")
    (call (PublishOrganization (publicationOf value))) in
  let value := withCID value (CID identity) in
  let? updated := wrapErr (wrapf "store organization update: %w") (call (store_Update value)) in
  let? _ := recordOrganizationAudit (ID value) (U_ActorDID input) "organization.update"
    "organization" (uuid_String (ID value))
    [("base_permission", json.string_ (Organization_BasePermission value));
     ("members_can_create_repositories", json_bool (MembersCanCreateRepo value))] in
  done_ updated.

Definition ListForAccount (did : string) : svc effect (list Organization) :=
  wrapErr (wrapf "list organizations: %w") (call (store_ListForAccount did)).

Definition validateCollectionLimit (limit : Z) : result unit :=
  reject_if (limit <? 1) || (100 <? limit) with invalid "limit must be between 1 and 100" ;; Ok tt.

Definition keysetPage {T} (values : list T) (limit : Z) (key : T -> string) : Page T :=
  if limit <? Z.of_nat (length values) then
    let items := firstn (Z.to_nat limit) values in
    mkPage items (match last items with Some value => key value | None => EmptyString end)
  else mkPage values EmptyString.

Definition PageForAccount (did : string) (after : option UUID) (limit : Z)
    : svc effect (Page Organization) :=
  let? _ := lift (validateCollectionLimit limit) in
  let? values := wrapErr (wrapf "page organizations: %w")
    (call (store_PageForAccount did after (limit + 1))) in
  done_ (keysetPage values limit (fun value => uuid_String (ID value))).

Definition ListMembers (id : UUID) : svc effect (list Member) :=
  wrapErr (wrapf "list organization members: %w") (call (store_ListMembers id)).

Definition PageMembers (id : UUID) (includePrivate : bool) (after : string) (limit : Z)
    : svc effect (Page Member) :=
  let? _ := lift (validateCollectionLimit limit) in
  let? values := wrapErr (wrapf "page organization members: %w")
    (call (store_PageMembers id includePrivate after (limit + 1))) in
  done_ (keysetPage values limit AccountDID).

Definition GetMember (id : UUID) (did : string) : svc effect Member :=
  wrapErr (wrapf "get organization member: %w") (call (store_GetMember id did)).

Definition Invite (input : InviteInput) : svc effect Invitation :=
  let? _ := lift (InviteInput_Validate input) in
  let? organization := wrapErr (wrapf "load organization for invitation: %w")
    (call (GetByID (Invite_OrganizationID input))) in
  let? _ := wrapErr (forbidden_or "authorize organization invitation: %w")
    (call (GetOwner (Invite_OrganizationID input) (Invite_ActorDID input))) in
  let? id := wrapErr (wrapf "generate invitation ID: %w") (call NewID) in
  let! now := call Now in
  let? invitation := wrapErr (wrapf "create organization invitation: %w")
    (call (CreateInvitation
       (mkInvitation id (ID organization) EmptyString EmptyString (Invite_InviteeDID input)
          (Invite_Role input) (Invite_ActorDID input) EmptyString EmptyString (UTC now)
          (UTC now + InvitationLifetime) None None))) in
  let? _ := recordOrganizationAudit (ID organization) (Invite_ActorDID input) "member.invite"
    "invitation" (uuid_String (I_ID invitation))
    [("role", json.string_ (Invite_Role input));
     ("subject_did", json.string_ (Invite_InviteeDID input))] in
  done_ invitation.

(** A failing [||] operand is evaluated only where the ones before it are false. *)
Definition Accept (invitationID : UUID) (actorDID : string) : svc effect Member :=
  let? invitation := wrapErr (wrapf "get organization invitation: %w")
    (call (GetInvitation invitationID)) in
  if InviteeDID invitation != actorDID then fail ErrInvitation else
  let! now := call Now in
  if negb (Active invitation (UTC now)) then fail ErrInvitation else
  let! now := call Now in
  let? member := wrapErr (wrapf "accept organization invitation: %w")
    (call (AcceptInvitation invitationID actorDID noIdentity (UTC now))) in
  let? _ := recordOrganizationAudit (I_OrganizationID invitation) actorDID "member.accept"
    "member" actorDID
    [("invitation_id", json.string_ (uuid_String invitationID));
     ("role", json.string_ (I_Role invitation))] in
  done_ member.

Definition ListInvitations (organizationID : UUID) (actorDID : string)
    : svc effect (list Invitation) :=
  let? _ := wrapErr (forbidden_or "authorize invitation list: %w")
    (call (GetOwner organizationID actorDID)) in
  call (store_ListInvitations organizationID).

Definition PageInvitations (organizationID : UUID) (actorDID : string) (after : option UUID)
    (limit : Z) : svc effect (Page Invitation) :=
  let? _ := lift (validateCollectionLimit limit) in
  let? _ := wrapErr (forbidden_or "authorize invitation page: %w")
    (call (GetOwner organizationID actorDID)) in
  let? values := wrapErr (wrapf "page organization invitations: %w")
    (call (store_PageInvitations organizationID after (limit + 1))) in
  done_ (keysetPage values limit (fun value => uuid_String (I_ID value))).

Definition ListPendingInvitations (actorDID : string) : svc effect (list Invitation) :=
  let! now := call Now in call (store_ListPendingInvitations actorDID (UTC now)).

Definition PagePendingInvitations (actorDID : string) (after : option UUID) (limit : Z)
    : svc effect (Page Invitation) :=
  let? _ := lift (validateCollectionLimit limit) in
  let! now := call Now in
  let? values := wrapErr (wrapf "page pending organization invitations: %w")
    (call (store_PagePendingInvitations actorDID (UTC now) after (limit + 1))) in
  done_ (keysetPage values limit (fun value => uuid_String (I_ID value))).

Definition RevokeInvitation (organizationID invitationID : UUID) (actorDID : string)
    : svc effect unit :=
  let? (value, owner) := authorizeOwner organizationID actorDID in
  let! found := call (GetInvitation invitationID) in
  match found with
  | Err _ => fail ErrInvitation
  | Ok invitation =>
      if negb (I_OrganizationID invitation =? organizationID) then fail ErrInvitation else
      let! now := call Now in
      if negb (Active invitation (UTC now)) then fail ErrInvitation else
      let! now := call Now in
      let? _ :=
        if I_GrantURI invitation != EmptyString then
          let? id := wrapErr (wrapf "generate invitation revocation ID: %w") (call NewID) in
          let '(issuer, authority) := publicationAuthority value owner in
          wrapErr (wrapf "publish invitation revocation: %w")
            (call (PublishOrganizationRevocation
               (mkRevocationPublication id issuer (identityOf value)
                  (mkATIdentity (I_GrantURI invitation) (I_GrantCID invitation))
                  (InviteeDID invitation) authority (UTC now))))
        else done_ noIdentity in
      let? _ := wrapErr (wrapf "revoke organization invitation: %w")
        (call (store_RevokeInvitation invitationID (UTC now))) in
      recordOrganizationAudit organizationID actorDID "invitation.revoke" "invitation"
        (uuid_String invitationID) [("subject_did", json.string_ (InviteeDID invitation))]
  end.

(** The public grant and the member's own record of it, when the membership
    becomes public. *)
Definition publishMembership (organization : Organization) (member : Member)
    (organizationID : UUID) (actorDID : string) (now : time) : svc effect (ATIdentity * ATIdentity) :=
  let? owner := wrapErr (wrapf "load organization controller: %w")
    (call (GetOwner organizationID (CreatorDID organization))) in
  let? grantID := wrapErr (wrapf "generate public membership grant ID: %w") (call NewID) in
  let '(issuer, authority) := publicationAuthority organization owner in
  let? grant := wrapErr (wrapf "publish public membership grant: %w")
    (call (PublishOrganizationGrant
       (mkGrantPublication grantID issuer (identityOf organization) actorDID (Member_Role member)
          authority now zeroTime))) in
  let? membership := wrapErr (wrapf "publish organization membership visibility: %w")
    (call (PublishOrganizationMembership
       (mkMembershipPublication actorDID (identityOf organization) grant VisibilityPublic
          (JoinedAt member) now))) in
  done_ (grant, membership).

(** The revocation of the grant and the removal of the record, when the
    membership becomes private. *)
Definition withdrawMembership (organization : Organization) (member : Member)
    (organizationID : UUID) (actorDID : string) (now : time) : svc effect (ATIdentity * ATIdentity) :=
  let? _ :=
    if M_GrantURI member != EmptyString then
      let? owner := wrapErr (wrapf "load organization controller: %w")
        (call (GetOwner organizationID (CreatorDID organization))) in
      let? revocationID := wrapErr (wrapf "generate public membership revocation ID: %w")
        (call NewID) in
      let '(issuer, authority) := publicationAuthority organization owner in
      wrapErr (wrapf "revoke public membership grant: %w")
        (call (PublishOrganizationRevocation
           (mkRevocationPublication revocationID issuer (identityOf organization)
              (mkATIdentity (M_GrantURI member) (M_GrantCID member)) actorDID authority now)))
    else done_ noIdentity in
  let? _ :=
    if MembershipURI member != EmptyString then
      wrapErr (wrapf "delete public organization membership: %w")
        (call (DeleteOrganizationMembership actorDID (identityOf organization)
           (mkATIdentity (MembershipURI member) (MembershipCID member))))
    else done_ tt in
  done_ (noIdentity, noIdentity).

Definition SetVisibility (organizationID : UUID) (actorDID : string)
    (visibility : MembershipVisibility) : svc effect Member :=
  let? _ := lift (mapErr (invalidly "%v") (MembershipVisibility_Validate visibility)) in
  let? organization := wrapErr (wrapf "get organization for visibility: %w")
    (call (GetByID organizationID)) in
  let! found := call (store_GetMember organizationID actorDID) in
  match found with
  | Err _ => fail ErrForbidden
  | Ok member =>
      if AccountDID member == EmptyString then fail ErrForbidden else
      let! now := call Now in
      let now := UTC now in
      if Visibility member == visibility then done_ member else
      let? (grant, membership) :=
        if visibility == VisibilityPublic
        then publishMembership organization member organizationID actorDID now
        else withdrawMembership organization member organizationID actorDID now in
      let? updated := call (UpdateVisibility organizationID actorDID visibility grant membership now) in
      let? _ := recordOrganizationAudit organizationID actorDID "member.visibility" "member"
        actorDID [("visibility", json.string_ visibility)] in
      done_ updated
  end.

Definition ChangeRole (organizationID : UUID) (actorDID memberDID : string) (role : Role)
    : svc effect Member :=
  let? _ := lift (mapErr (invalidly "%v") (Role_Validate role)) in
  let? (organization, owner) := authorizeOwner organizationID actorDID in
  let? target := wrapErr (wrapf "get organization member: %w")
    (call (store_GetMember organizationID memberDID)) in
  let audited member :=
    let? _ := recordOrganizationAudit organizationID actorDID "member.role" "member" memberDID
      [("from", json.string_ (Member_Role target)); ("to", json.string_ role)] in
    done_ member in
  if Member_Role target == role then done_ target else
  if memberDID == CreatorDID organization then fail ErrCreatorOwner else
  if Visibility target != VisibilityPublic then
    let! now := call Now in
    let? member := wrapErr (wrapf "update private organization role: %w")
      (call (UpdateMemberRole organizationID memberDID role noIdentity noIdentity (UTC now))) in
    audited member
  else
    let? id := wrapErr (wrapf "generate role grant ID: %w") (call NewID) in
    let? revocationID :=
      if M_GrantURI target != EmptyString
      then wrapErr (wrapf "generate prior role revocation ID: %w") (call NewID)
      else done_ uuid_Nil in
    let! now := call Now in
    let now := UTC now in
    let '(issuer, authority) := publicationAuthority organization owner in
    let? grant := wrapErr (wrapf "publish organization role: %w")
      (call (PublishOrganizationGrant
         (mkGrantPublication id issuer (identityOf organization) memberDID role authority now
            zeroTime))) in
    let? membership := wrapErr (wrapf "publish organization role membership: %w")
      (call (PublishOrganizationMembership
         (mkMembershipPublication memberDID (identityOf organization) grant VisibilityPublic
            (JoinedAt target) now))) in
    let? _ :=
      if M_GrantURI target != EmptyString then
        wrapErr (wrapf "revoke prior organization role: %w")
          (call (PublishOrganizationRevocation
             (mkRevocationPublication revocationID issuer (identityOf organization)
                (mkATIdentity (M_GrantURI target) (M_GrantCID target)) memberDID authority now)))
      else done_ noIdentity in
    let? member := wrapErr (wrapf "update organization role: %w")
      (call (UpdateMemberRole organizationID memberDID role grant membership now)) in
    audited member.

Definition Remove (organizationID : UUID) (actorDID memberDID : string) : svc effect unit :=
  let? organization := wrapErr (wrapf "get organization for member removal: %w")
    (call (GetByID organizationID)) in
  let! found := call (store_GetMember organizationID actorDID) in
  match found with
  | Err _ => fail ErrForbidden
  | Ok actor =>
      if (Member_Role actor != RoleOwner) && (actorDID != memberDID) then fail ErrForbidden else
      let? target := wrapErr (wrapf "get member for removal: %w")
        (call (store_GetMember organizationID memberDID)) in
      if memberDID == CreatorDID organization then fail ErrCreatorOwner else
      let! now := call Now in
      let now := UTC now in
      let? _ :=
        if M_GrantURI target != EmptyString then
          let? revocationAuthority :=
            if Member_Role actor != RoleOwner then
              wrapErr (wrapf "load organization controller for member removal: %w")
                (call (GetOwner organizationID (CreatorDID organization)))
            else done_ actor in
          let? id := wrapErr (wrapf "generate membership revocation ID: %w") (call NewID) in
          let '(issuer, authority) := publicationAuthority organization revocationAuthority in
          wrapErr (wrapf "publish organization member removal: %w")
            (call (PublishOrganizationRevocation
               (mkRevocationPublication id issuer (identityOf organization)
                  (mkATIdentity (M_GrantURI target) (M_GrantCID target)) memberDID authority now)))
        else done_ noIdentity in
      let? _ :=
        if MembershipURI target != EmptyString then
          wrapErr (wrapf "delete public organization membership: %w")
            (call (DeleteOrganizationMembership memberDID (identityOf organization)
               (mkATIdentity (MembershipURI target) (MembershipCID target))))
        else done_ tt in
      let? _ := wrapErr (wrapf "remove organization member: %w")
        (call (store_RemoveMember organizationID memberDID)) in
      recordOrganizationAudit organizationID actorDID "member.remove" "member" memberDID
        [("role", json.string_ (Member_Role target))]
  end.

Definition AuditEvents (organizationID : UUID) (actorDID : string) (limit : Z)
    (after : option UUID) : svc effect AuditPage :=
  if (limit <? 1) || (100 <? limit)
  then fail (invalid "audit limit must be between 1 and 100") else
  let? _ := wrapErr (forbidden_or "authorize audit log: %w")
    (call (GetOwner organizationID actorDID)) in
  let? values := wrapErr (wrapf "list organization audit events: %w")
    (call (ListAuditEvents organizationID after (limit + 1))) in
  done_ (if limit <? Z.of_nat (length values) then
           let items := firstn (Z.to_nat limit) values in
           mkAuditPage items (option_map Audit_ID (last items))
         else mkAuditPage values None).
End service.

(** ** Roles *)

(** What a person's access to a repository comes from: ownership, the base
    permission, a direct assignment and the assignments of teams. *)
Definition base_role (base : BasePermission) : RepositoryRole :=
  if base == BasePermissionRead then RepositoryRoleRead
  else if base == BasePermissionWrite then RepositoryRoleWrite else RepositoryRoleNone.
Definition contributions (memberRole : Role) (base : BasePermission) (direct : RepositoryRole)
    (teams : list RepositoryRole) : list RepositoryRole :=
  (if memberRole == RoleOwner then [RepositoryRoleAdmin] else []) ++ base_role base :: direct :: teams.
Definition strongest (roles : list RepositoryRole) : Z := fold_right Z.max 0 (map rank roles).

Lemma rank_bounds role : 0 <= rank role <= 5.
Proof.
  unfold rank. destruct (repositoryRoleRank !! role) as [z |] eqn:Hr; cbn; [| lia].
  apply elem_of_list_to_map_2 in Hr. set_unfold.
  repeat match goal with H : _ \/ _ |- _ => destruct H | H : False |- _ => destruct H end; simplify_eq; lia.
Qed.

Lemma rank_stronger result role : rank (stronger result role) = Z.max (rank result) (rank role).
Proof. unfold stronger. destruct (Z.ltb_spec (rank result) (rank role)); lia. Qed.

Lemma strongest_cons role roles : strongest (role :: roles) = Z.max (rank role) (strongest roles).
Proof. done. Qed.

Lemma strongest_bounds roles : 0 <= strongest roles <= 5.
Proof.
  induction roles as [| role roles IH]; [done |].
  rewrite strongest_cons. pose proof (rank_bounds role). lia.
Qed.

Lemma fold_stronger roles : forall role,
  rank (fold_left stronger roles role) = Z.max (rank role) (strongest roles) /\
  fold_left stronger roles role ∈ role :: roles.
Proof.
  induction roles as [| r roles IH]; intros role; cbn [fold_left].
  - split; [| by left]. change (strongest []) with 0. pose proof (rank_bounds role). lia.
  - destruct (IH (stronger role r)) as [-> Hin]. rewrite rank_stronger, strongest_cons. split; [lia |].
    apply elem_of_cons in Hin as [-> | Hin]; [| by do 2 right].
    unfold stronger. destruct (_ <? _); [right |]; by left.
Qed.

Lemma EffectiveRepositoryRole_rank memberRole base direct teams :
  EffectiveRepositoryRole memberRole base direct teams ∈ contributions memberRole base direct teams /\
  rank (EffectiveRepositoryRole memberRole base direct teams)
  = strongest (contributions memberRole base direct teams).
Proof.
  unfold EffectiveRepositoryRole, contributions.
  destruct (memberRole == RoleOwner); cbn [app].
  - split; [by left |]. rewrite strongest_cons. change (rank RepositoryRoleAdmin) with 5.
    pose proof (strongest_bounds (base_role base :: direct :: teams)). lia.
  - fold (base_role base). destruct (fold_stronger (direct :: teams) (base_role base)) as [Hr Hin].
    cbn [fold_left] in Hr, Hin. split; [exact Hin | exact Hr].
Qed.

Lemma strongest_max r roles : r ∈ roles -> rank r <= strongest roles.
Proof.
  induction roles as [| x roles IH]; [by intros ?%elem_of_nil |].
  rewrite strongest_cons. intros [-> | Hr%IH]%elem_of_cons; lia.
Qed.

(** A positive threshold is reached by one of the roles. *)
Lemma strongest_reaches t roles : 0 < t -> (t <= strongest roles <-> exists r, r ∈ roles /\ t <= rank r).
Proof.
  intros Ht. split; [| intros (r & Hr%strongest_max & ?); lia].
  induction roles as [| x roles IH]; [change (strongest []) with 0; lia |].
  rewrite strongest_cons. intros Hm. destruct (Z.le_gt_cases t (rank x)) as [Hx |].
  - exists x. split; [by left | done].
  - destruct IH as (r & Hr & ?); [lia |]. exists r. split; [by right | done].
Qed.

(** The effective role of a person in a repository is one of those they were given,
    or none, and no role they were given is stronger; an owner of the organization
    is an administrator whatever else they have. *)
Theorem EffectiveRepositoryRole_strongest memberRole base direct teams :
  let role := EffectiveRepositoryRole memberRole base direct teams in
  let given := contributions memberRole base direct teams in
  role ∈ given /\ Forall (fun r => rank r <= rank role) given /\
  (role = RepositoryRoleAdmin \/ memberRole <> RoleOwner).
Proof.
  cbn zeta. destruct (EffectiveRepositoryRole_rank memberRole base direct teams) as [Hin Hr].
  split_and!; [done | apply Forall_forall; intros r; rewrite Hr; apply strongest_max |].
  destruct (decide (memberRole = RoleOwner)) as [-> |]; [by left | by right].
Qed.

(** ** Who may do what *)

Section authorisation.
Context (org : UUID) (actor : string).

Definition owns (h : list (event effect)) : Prop :=
  exists m, Ev (GetOwner org actor) (Ok m) ∈ h.
Definition loaded (h : list (event effect)) (o : Organization) : Prop :=
  Ev (GetByID org) (Ok o) ∈ h.
(** An invitation read before it was found active at a time of the clock. *)
Definition read_active (h : list (event effect)) (id : UUID) (i : Invitation) : Prop :=
  Ev (GetInvitation id) (Ok i) ∈ h /\ exists now, Ev Now now ∈ h /\ Active i (UTC now) = true.

(** What [actor] must have been found to be before a change of the organization
    [org] reaches the store. *)
Definition authorised (h : list (event effect)) X (e : effect X) : Prop :=
  match e with
  | store_Update v => owns h /\ exists o, loaded h o /\ ID v = ID o /\ CreatorDID v = CreatorDID o
  | CreateInvitation i =>
      owns h /\ (exists o, loaded h o /\ I_OrganizationID i = ID o) /\
      I_InvitedByDID i = actor /\ InviteeDID i <> actor /\
      ExpiresAt i = I_CreatedAt i + InvitationLifetime /\ RevokedAt i = None /\ AcceptedAt i = None
  | store_RevokeInvitation id _ =>
      owns h /\ exists i, read_active h id i /\ I_OrganizationID i = org
  | AcceptInvitation id did _ _ =>
      did = actor /\ exists i, read_active h id i /\ InviteeDID i = actor
  | UpdateMemberRole o did _ _ _ _ =>
      o = org /\ owns h /\ exists v, loaded h v /\ did <> CreatorDID v
  | store_RemoveMember o did =>
      o = org /\ (exists v, loaded h v /\ did <> CreatorDID v) /\
      exists m, Ev (store_GetMember org actor) (Ok m) ∈ h /\ (Member_Role m = RoleOwner \/ did = actor)
  | UpdateVisibility o did _ _ _ _ =>
      o = org /\ did = actor /\ exists m, Ev (store_GetMember org actor) (Ok m) ∈ h
  | RecordAudit event => Audit_ActorDID event = actor
  | _ => True
  end.
End authorisation.

(** The requests that change an organization, and the one change each may ask the store
    for; [True] of what changes none. *)
Inductive request :=
| Updating (input : UpdateInput)
| Inviting (input : InviteInput)
| Accepting (invitationID : UUID)
| Revoking (invitationID : UUID)
| Choosing (visibility : MembershipVisibility)
| Promoting (memberDID : string) (role : Role)
| Removing (memberDID : string).

Definition only_asked (r : request) X (e : effect X) : Prop :=
  match e with
  | store_Update v =>
      exists input, r = Updating input /\ Name v = U_Name input /\ Description v = U_Description input /\
        Website v = U_Website input /\ Location v = U_Location input /\
        Organization_BasePermission v = U_BasePermission input /\
        MembersCanCreateRepo v = U_MembersCanCreateRepo input
  | CreateInvitation i =>
      exists input, r = Inviting input /\ InviteeDID i = Invite_InviteeDID input /\ I_Role i = Invite_Role input
  | AcceptInvitation id _ _ _ => r = Accepting id
  | store_RevokeInvitation id _ => r = Revoking id
  | UpdateVisibility _ _ visibility _ _ _ => r = Choosing visibility
  | UpdateMemberRole _ did role _ _ _ => r = Promoting did role
  | store_RemoveMember _ did => r = Removing did
  | store_Create _ | Activate _ _ _ | Fail_ _ _ | CreateTeam _ | UpdateTeam _ | DeleteTeam _ _ _
  | AddTeamMember _ _ _ _ | RemoveTeamMember _ _ | PutTeamRepository _ _ _ _
  | RemoveTeamRepository _ _ => False
  | _ => True
  end.
Definition authorised_as (r : request) (org : UUID) (actor : string) (h : list (event effect)) X (e : effect X) : Prop :=
  authorised org actor h X e /\ only_asked r X e.

Lemma as_authorised {A} r org actor (p : prog effect A) :
  guarded (authorised_as r org actor) p -> guarded (authorised org actor) p.
Proof. intros Hp tr a pre X e x post Hr Ht. exact (proj1 (Hp tr a pre X e x post Hr Ht)). Qed.

(** A grant or a membership record is published only for a person who asked for a
    public membership or already has one. *)
Definition published_by_choice (org : UUID) (asking : option string) (h : list (event effect)) X
    (e : effect X) : Prop :=
  let chosen did :=
    asking = Some did \/
    exists m, Ev (store_GetMember org did) (Ok m) ∈ h /\ Visibility m = VisibilityPublic in
  match e with
  | PublishOrganizationGrant p => chosen (Grant_SubjectDID p)
  | PublishOrganizationMembership p => chosen (Membership_ActorDID p)
  | _ => True
  end.

(** ** Walking through a service method *)

(** Finds an exchange in the history. *)
Ltac in_history := solve [repeat first [apply list_elem_of_here | apply list_elem_of_further]].

(** A guard, from the exchanges that precede it and the tests that were passed. *)
Ltac guard_step :=
  match goal with
  | |- True => exact I
  | |- _ /\ _ => split
  | |- _ = _ => reflexivity
  | |- _ ∈ _ => in_history
  | |- exists _, _ => eexists
  end.
Ltac tests :=
  repeat match goal with
  | H : (_ == _) = true |- _ => apply String.eqb_eq in H
  | H : (_ != _) = false |- _ => apply neq_false in H
  | H : (_ == _) = false |- _ => apply String.eqb_neq in H
  | H : negb (_ =? _) = false |- _ => apply negb_false_iff, Z.eqb_eq in H
  | H : negb _ = false |- _ => apply negb_false_iff in H
  | H : (_ && _) = false |- _ => apply andb_false_iff in H
  | H : negb (_ == _) = true |- _ => apply negb_true_iff, String.eqb_neq in H
  end.
Ltac walk := repeat first
  [ match goal with |- wp _ (match ?r with Ok _ => _ | Err _ => _ end) _ _ => destruct r eqn:?; cbn end
  | wp_step ].
Ltac guards :=
  unfold authorised_as, only_asked, authorised, owns, loaded, read_active in *; tests; repeat guard_step; try congruence; auto.

#[local] Arguments json.object : simpl never.
#[local] Arguments Is : simpl never.
Section facts.
Context `{Syntax, UUIDs, GoURL} (requestID : string).


Tactic Notation "walk_through" reference(d) :=
  apply (wp_guarded _ _ (fun _ _ => True));
  unfold d, authorizeOwner, recordOrganizationAudit, publishMembership, withdrawMembership,
    publicationAuthority, fail_;
  cbn -[MembershipVisibility_Validate Role_Validate InviteInput_Validate UpdateInput_Validate
        CreateInput_Validate];
  walk; guards.

Lemma InviteInput_Validate_other input u :
  InviteInput_Validate input = Ok u -> Invite_InviteeDID input <> Invite_ActorDID input.
Proof.
  unfold InviteInput_Validate. intros Hv. apply reject_Ok in Hv as [_ Hv].
  apply reject_Ok in Hv as [Hv _]. apply String.eqb_neq in Hv. congruence.
Qed.

Lemma Create_authorised org input :
  guarded (authorised org (C_CreatorDID input)) (Create requestID input).
Proof. walk_through Create. Qed.
Lemma Update_authorised input :
  guarded (authorised_as (Updating input) (U_OrganizationID input) (U_ActorDID input)) (Update requestID input).
Proof. walk_through Update. Qed.
Lemma Invite_authorised input :
  guarded (authorised_as (Inviting input) (Invite_OrganizationID input) (Invite_ActorDID input))
    (Invite requestID input).
Proof. walk_through Invite. by eapply InviteInput_Validate_other. Qed.
Lemma Accept_authorised org actor id :
  guarded (authorised_as (Accepting id) org actor) (Accept requestID id actor).
Proof. walk_through Accept. Qed.
Lemma RevokeInvitation_authorised org actor id :
  guarded (authorised_as (Revoking id) org actor) (RevokeInvitation requestID org id actor).
Proof. walk_through RevokeInvitation. Qed.
Lemma SetVisibility_authorised org actor visibility :
  guarded (authorised_as (Choosing visibility) org actor) (SetVisibility requestID org actor visibility).
Proof. walk_through SetVisibility. Qed.
Lemma ChangeRole_authorised org actor member role :
  guarded (authorised_as (Promoting member role) org actor) (ChangeRole requestID org actor member role).
Proof. walk_through ChangeRole. Qed.
Lemma Remove_authorised org actor member :
  guarded (authorised_as (Removing member) org actor) (Remove requestID org actor member).
Proof.
  walk_through Remove.
  all: destruct_or!; tests; first [discriminate | left; congruence | right; congruence].
Qed.

(** C29: Every change of an organization was authorised before the store was asked to
    make it: its settings, invitations and roles are changed by an active owner
    found under the actor's DID; an invitation is into the organization that was loaded
    under the id whose owner the actor is, is issued to someone else, for
    seven days, and is accepted only by its invitee while it is active; a member is
    removed by an owner or by themself; the visibility of a membership is
    changed by the member; the creator is neither demoted nor removed; and the
    audit events name the actor.  And a request changes what it names and nothing else:
    inviting asks the store for that invitation with that role, a removal for the removal
    of that member. *)
Theorem changes_authorised (org : UUID) (actor : string) :
  (forall input, guarded (authorised_as (Updating input) (U_OrganizationID input) (U_ActorDID input))
     (Update requestID input)) /\
  (forall input, guarded (authorised_as (Inviting input) (Invite_OrganizationID input) (Invite_ActorDID input))
     (Invite requestID input)) /\
  (forall id, guarded (authorised_as (Accepting id) org actor) (Accept requestID id actor)) /\
  (forall id, guarded (authorised_as (Revoking id) org actor) (RevokeInvitation requestID org id actor)) /\
  (forall visibility, guarded (authorised_as (Choosing visibility) org actor)
     (SetVisibility requestID org actor visibility)) /\
  (forall member role, guarded (authorised_as (Promoting member role) org actor)
     (ChangeRole requestID org actor member role)) /\
  (forall member, guarded (authorised_as (Removing member) org actor) (Remove requestID org actor member)).
Proof.
  split_and!; intros; [apply Update_authorised | apply Invite_authorised | apply Accept_authorised
    | apply RevokeInvitation_authorised | apply SetVisibility_authorised | apply ChangeRole_authorised
    | apply Remove_authorised].
Qed.

(** C30: Membership stays private unless the member chose otherwise: grants and
    membership records are published only when the member themself makes the
    membership public, or for a member whose membership is public already;
    creating, inviting, accepting, revoking, removing and hiding publish none. *)
Theorem memberships_published_by_choice (org : UUID) (actor : string) :
  (forall visibility, guarded (published_by_choice org
     (if visibility == VisibilityPublic then Some actor else None))
     (SetVisibility requestID org actor visibility)) /\
  (forall member role, guarded (published_by_choice org None)
     (ChangeRole requestID org actor member role)) /\
  (forall input, guarded (published_by_choice org None) (Create requestID input)) /\
  (forall input, guarded (published_by_choice org None) (Update requestID input)) /\
  (forall input, guarded (published_by_choice org None) (Invite requestID input)) /\
  (forall id, guarded (published_by_choice org None) (Accept requestID id actor)) /\
  (forall id, guarded (published_by_choice org None) (RevokeInvitation requestID org id actor)) /\
  (forall member, guarded (published_by_choice org None) (Remove requestID org actor member)).
Proof.
  split_and!.
  - intros visibility. walk_through SetVisibility.
  - intros member role. walk_through ChangeRole; right; guards.
  - intros input. walk_through Create.
  - intros input. walk_through Update.
  - intros input. walk_through Invite.
  - intros id. walk_through Accept.
  - intros id. walk_through RevokeInvitation.
  - intros member. walk_through Remove.
Qed.
End facts.
End organization.
