(* ===== verification/Team.v ===== *)
(** * Team: teams, their members and repositories, and the collaborators of a
    repository (package [internal/organization]: team_service.go and
    collaborator_service.go). *)

From S2P Require Import Prelude.
From S2P Require Import GoText.
From S2P Require Import Encoding.
From S2P Require Import Syntax.
From S2P Require Import Json.
From S2P Require Import CommitStatus.
From S2P Require Import Organization.

Module team.
Import organization.

Section service.
Context `{Syntax, UUIDs, GoURL} (requestID : string).

Definition audit := recordOrganizationAudit requestID.
Definition quoted_id (id : UUID) : list Z := json.string_ (uuid_String id).

Definition authorizeMaintainer (organizationID teamID : UUID) (actorDID : string)
    : svc effect unit :=
  let! owner := call (GetOwner organizationID actorDID) in
  match owner with
  | Ok _ => done_ tt
  | Err err =>
      if negb (Is err ErrNotFound) then fail (wrapf "authorize organization owner: %w" err) else
      let! member := call (GetTeamMember teamID actorDID) in
      match member with
      | Ok member =>
          if TeamMember_Role member == TeamRoleMaintainer then done_ tt else fail ErrForbidden
      | Err err =>
          if negb (Is err ErrNotFound) then fail (wrapf "authorize team maintainer: %w" err)
          else fail ErrForbidden
      end
  end.

(** [if _, err := store.GetTeam(...); err != nil { return ... "get team: %w" }] *)
Definition getTeam (organizationID teamID : UUID) : svc effect Team :=
  wrapErr (wrapf "get team: %w") (call (GetTeam organizationID teamID)).
(** [if _, err := store.GetMember(...); err != nil { return ErrForbidden }] *)
Definition requireMember (organizationID : UUID) (actorDID : string) : svc effect Member :=
  wrapErr (fun _ => ErrForbidden) (call (store_GetMember organizationID actorDID)).

Definition Create (input : CreateTeamInput) : svc effect Team :=
  let? _ := lift (CreateTeamInput_Validate input) in
  let? _ := wrapErr (forbidden_or "authorize team creation: %w")
    (call (GetOwner (CT_OrganizationID input) (CT_ActorDID input))) in
  let? _ :=
    match CT_ParentTeamID input with
    | None => done_ tt
    | Some parentID =>
        let? parent := wrapErr (wrapf "get parent team: %w")
          (call (GetTeam (CT_OrganizationID input) parentID)) in
        if (CT_Visibility input == TeamVisibilitySecret)
           || (Team_Visibility parent == TeamVisibilitySecret)
        then fail (invalid "secret teams cannot be nested") else done_ tt
    end in
  let? id := wrapErr (wrapf "generate team ID: %w") (call NewID) in
  let! now := call Now in
  let now := UTC now in
  let? team := wrapErr (wrapf "create organization team: %w")
    (call (CreateTeam
       (mkTeam id (CT_OrganizationID input) (CT_ParentTeamID input) (CT_Slug input)
          (CT_Name input) (CT_Description input) (CT_Visibility input) false EmptyString now
          now))) in
  let? _ := audit (CT_OrganizationID input) (CT_ActorDID input) "team.create" "team"
    (uuid_String (Team_ID team))
    [("parent_team_id", json_id (ParentTeamID team)); ("slug", json.string_ (Team_Slug team));
     ("visibility", json.string_ (Team_Visibility team))] in
  done_ team.

(** The checks on a new parent. *)
Definition checkParent (input : UpdateTeamInput) (current : Team) (parentID : UUID)
    : svc effect unit :=
  let? parent := wrapErr (wrapf "get parent team: %w")
    (call (GetTeam (UT_OrganizationID input) parentID)) in
  if (UT_Visibility input == TeamVisibilitySecret)
     || (Team_Visibility parent == TeamVisibilitySecret)
  then fail (invalid "secret teams cannot be nested") else
  let? isDescendant := wrapErr (wrapf "check team hierarchy: %w")
    (call (IsTeamDescendant (UT_OrganizationID input) (UT_TeamID input) parentID)) in
  if isDescendant : bool
  then fail (invalid "a team cannot be moved beneath its child") else
  if negb (same_parent (ParentTeamID current) parentID)
  then authorizeMaintainer (UT_OrganizationID input) parentID (UT_ActorDID input)
  else done_ tt.

Definition withTeamSettings (current : Team) (input : UpdateTeamInput) (now : time) : Team :=
  mkTeam (Team_ID current) (Team_OrganizationID current) (UT_ParentTeamID input)
    (Team_Slug current) (UT_Name input) (UT_Description input) (UT_Visibility input)
    (ViewerIsMember current) (ViewerRole current) (Team_CreatedAt current) now.

Definition Update (input : UpdateTeamInput) : svc effect Team :=
  let? _ := lift (UpdateTeamInput_Validate input) in
  let? current := getTeam (UT_OrganizationID input) (UT_TeamID input) in
  let? _ := authorizeMaintainer (UT_OrganizationID input) (UT_TeamID input) (UT_ActorDID input) in
  let? _ :=
    match UT_ParentTeamID input with
    | None => done_ tt
    | Some parentID => checkParent input current parentID
    end in
  let? _ :=
    if UT_Visibility input == TeamVisibilitySecret then
      let? hasChildren := wrapErr (wrapf "check child teams: %w")
        (call (TeamHasChildren (UT_OrganizationID input) (UT_TeamID input))) in
      if is_some (UT_ParentTeamID input) || hasChildren
      then fail (invalid "secret teams cannot be nested") else done_ tt
    else done_ tt in
  let! now := call Now in
  let? updated := wrapErr (wrapf "update team: %w")
    (call (UpdateTeam (withTeamSettings current input (UTC now)))) in
  let? _ := audit (UT_OrganizationID input) (UT_ActorDID input) "team.update" "team"
    (uuid_String (UT_TeamID input))
    [("parent_team_id", json_id (UT_ParentTeamID input));
     ("visibility", json.string_ (UT_Visibility input))] in
  done_ updated.

Definition Delete (organizationID teamID : UUID) (actorDID : string) : svc effect unit :=
  let? _ := getTeam organizationID teamID in
  let? _ := authorizeMaintainer organizationID teamID actorDID in
  let! now := call Now in
  let? count := wrapErr (wrapf "delete team hierarchy: %w")
    (call (DeleteTeam organizationID teamID (UTC now))) in
  if count =? 0 then fail ErrNotFound else
  audit organizationID actorDID "team.delete" "team" (uuid_String teamID)
    [("deleted_team_count", json_int count)].

Definition visible_to (team : Team) : bool :=
  (Team_Visibility team == TeamVisibilityVisible) || ViewerIsMember team.

Definition List_ (organizationID : UUID) (actorDID : string) : svc effect (list Team) :=
  let? member := requireMember organizationID actorDID in
  let? teams := wrapErr (wrapf "list organization teams: %w")
    (call (ListTeams organizationID actorDID)) in
  done_ (if Member_Role member == RoleOwner then teams else List.filter visible_to teams).

Definition PageList (organizationID : UUID) (actorDID : string) (after : option UUID) (limit : Z)
    : svc effect (Page Team) :=
  let? _ := lift (validateCollectionLimit limit) in
  let? member := requireMember organizationID actorDID in
  let? values := wrapErr (wrapf "page organization teams: %w")
    (call (PageTeams organizationID actorDID (Member_Role member == RoleOwner) after (limit + 1))) in
  done_ (keysetPage values limit (fun value => uuid_String (Team_ID value))).

Definition Members (organizationID teamID : UUID) (actorDID : string)
    : svc effect (list TeamMember) :=
  let? _ := requireMember organizationID actorDID in
  let? _ := getTeam organizationID teamID in
  wrapErr (wrapf "list team members: %w") (call (ListTeamMembers teamID)).

Definition PageMembers (organizationID teamID : UUID) (actorDID after : string) (limit : Z)
    : svc effect (Page TeamMember) :=
  let? _ := lift (validateCollectionLimit limit) in
  let? _ := requireMember organizationID actorDID in
  let? _ := getTeam organizationID teamID in
  let? values := wrapErr (wrapf "page team members: %w")
    (call (PageTeamMembers teamID after (limit + 1))) in
  done_ (keysetPage values limit TM_AccountDID).

Definition PutMember (organizationID teamID : UUID) (actorDID memberDID : string) (role : TeamRole)
    : svc effect TeamMember :=
  if (role != TeamRoleMember) && (role != TeamRoleMaintainer) then fail ErrValidation else
  let? _ := getTeam organizationID teamID in
  let? _ := authorizeMaintainer organizationID teamID actorDID in
  let! now := call Now in
  let? member := wrapErr (wrapf "add team member: %w")
    (call (AddTeamMember teamID memberDID role (UTC now))) in
  let? _ := audit organizationID actorDID "team.member.put" "member" memberDID
    [("role", json.string_ role); ("team_id", quoted_id teamID)] in
  done_ member.

Definition RemoveMember (organizationID teamID : UUID) (actorDID memberDID : string)
    : svc effect unit :=
  let? _ := getTeam organizationID teamID in
  let? _ := authorizeMaintainer organizationID teamID actorDID in
  let? _ := wrapErr (wrapf "remove team member: %w") (call (RemoveTeamMember teamID memberDID)) in
  audit organizationID actorDID "team.member.remove" "member" memberDID
    [("team_id", quoted_id teamID)].

Definition Repositories (organizationID teamID : UUID) (actorDID : string)
    : svc effect (list TeamRepository) :=
  let? _ := requireMember organizationID actorDID in
  let? _ := getTeam organizationID teamID in
  wrapErr (wrapf "list team repositories: %w") (call (ListTeamRepositories teamID)).

Definition PageRepositories (organizationID teamID : UUID) (actorDID : string)
    (after : option UUID) (limit : Z) : svc effect (Page TeamRepository) :=
  let? _ := lift (validateCollectionLimit limit) in
  let? _ := requireMember organizationID actorDID in
  let? _ := getTeam organizationID teamID in
  let? values := wrapErr (wrapf "page team repositories: %w")
    (call (PageTeamRepositories teamID after (limit + 1))) in
  done_ (keysetPage values limit (fun value => uuid_String (TR_RepositoryID value))).

Definition PutRepository (organizationID teamID : UUID) (actorDID : string) (repositoryID : UUID)
    (role : RepositoryRole) : svc effect TeamRepository :=
  let? _ := lift (mapErr (fun _ => ErrValidation) (RepositoryRole_Validate role)) in
  let? _ := getTeam organizationID teamID in
  let? _ := authorizeMaintainer organizationID teamID actorDID in
  let! now := call Now in
  let? value := wrapErr (wrapf "put team repository: %w")
    (call (PutTeamRepository teamID repositoryID role (UTC now))) in
  let? _ := audit organizationID actorDID "team.repository.put" "repository"
    (uuid_String repositoryID)
    [("role", json.string_ role); ("team_id", quoted_id teamID)] in
  done_ value.

Definition RemoveRepository (organizationID teamID : UUID) (actorDID : string)
    (repositoryID : UUID) : svc effect unit :=
  let? _ := getTeam organizationID teamID in
  let? _ := authorizeMaintainer organizationID teamID actorDID in
  let? _ := wrapErr (wrapf "remove team repository: %w")
    (call (RemoveTeamRepository teamID repositoryID)) in
  audit organizationID actorDID "team.repository.remove" "repository" (uuid_String repositoryID)
    [("team_id", quoted_id teamID)].

(** ** Collaborators ([CollaboratorService]) *)

Definition authorizeCollaborators (organizationID repositoryID : UUID) (actorDID : string)
    : svc effect unit :=
  let? allowed := wrapErr (wrapf "authorize repository administrator: %w")
    (call (CanAdminRepository organizationID repositoryID actorDID)) in
  if negb allowed then fail ErrForbidden else done_ tt.

Definition ListCollaborators (organizationID repositoryID : UUID) (actorDID after : string)
    (limit : Z) : svc effect CollaboratorPage :=
  if (limit <? 1) || (100 <? limit)
  then fail (invalid "collaborator limit must be between 1 and 100") else
  let? _ := authorizeCollaborators organizationID repositoryID actorDID in
  let? values := wrapErr (wrapf "list repository collaborators: %w")
    (call (ListRepositoryCollaborators organizationID repositoryID after (limit + 1))) in
  done_ (if limit <? Z.of_nat (length values) then
           let items := firstn (Z.to_nat limit) values in
           mkCollaboratorPage items (option_map RC_AccountDID (last items))
         else mkCollaboratorPage values None).

Definition PutCollaborator (organizationID repositoryID : UUID)
    (actorDID collaboratorDID : string) (role : RepositoryRole)
    : svc effect RepositoryCollaborator :=
  let? _ := lift (mapErr (invalidly "%v") (RepositoryRole_Validate role)) in
  let? _ := lift (mapErr (invalidly "collaborator DID: %v") (validateDID collaboratorDID)) in
  let? _ := authorizeCollaborators organizationID repositoryID actorDID in
  let! now := call Now in
  let? value := wrapErr (wrapf "put repository collaborator: %w")
    (call (PutRepositoryCollaborator organizationID repositoryID collaboratorDID role (UTC now))) in
  let? _ := audit organizationID actorDID "repository.collaborator.put" "member" collaboratorDID
    [("repository_id", quoted_id repositoryID); ("role", json.string_ role)] in
  done_ value.

Definition RemoveCollaborator (organizationID repositoryID : UUID)
    (actorDID collaboratorDID : string) : svc effect unit :=
  let? _ := authorizeCollaborators organizationID repositoryID actorDID in
  let? _ := wrapErr (wrapf "remove repository collaborator: %w")
    (call (RemoveRepositoryCollaborator organizationID repositoryID collaboratorDID)) in
  audit organizationID actorDID "repository.collaborator.remove" "member" collaboratorDID
    [("repository_id", quoted_id repositoryID)].
End service.

(** ** Every change leaves an audit event *)

(** A change the store made. *)
Definition changes (ev : event effect) : bool :=
  match ev with
  | Ev e x =>
      match e in effect X return X -> bool with
      | store_Create _ | Activate _ _ _ | store_Update _ => is_Ok
      | CreateInvitation _ => is_Ok
      | store_RevokeInvitation _ _ => is_Ok
      | AcceptInvitation _ _ _ _ | UpdateMemberRole _ _ _ _ _ _ | store_RemoveMember _ _
      | UpdateVisibility _ _ _ _ _ _ => is_Ok
      | CreateTeam _ | UpdateTeam _ => is_Ok
      | DeleteTeam _ _ _ => is_Ok
      | AddTeamMember _ _ _ _ => is_Ok
      | RemoveTeamMember _ _ | RemoveTeamRepository _ _ | RemoveRepositoryCollaborator _ _ _ => is_Ok
      | PutTeamRepository _ _ _ _ => is_Ok
      | PutRepositoryCollaborator _ _ _ _ _ => is_Ok
      | _ => fun _ => false
      end x
  end.

(** The organization an audit event is of: the one asked for, the one that was
    loaded, or the one that issued the invitation. *)
Definition asked_for (org : UUID) (h : list (event effect)) (o : UUID) : Prop := o = org.
Definition of_loaded (org : UUID) (h : list (event effect)) (o : UUID) : Prop :=
  exists v, Ev (GetByID org) (Ok v) ∈ h /\ o = ID v.
Definition of_invitation (id : UUID) (h : list (event effect)) (o : UUID) : Prop :=
  exists i, Ev (GetInvitation id) (Ok i) ∈ h /\ o = I_OrganizationID i.

Definition last_audit (requestID : string) (names : list (event effect) -> UUID -> Prop)
    (actor action : string) (h : list (event effect)) : Prop :=
  exists event, last h = Some (Ev (RecordAudit event) (Ok tt)) /\
    names h (Audit_OrganizationID event) /\ Audit_ActorDID event = actor /\ Action event = action /\
    RequestID event = requestID.
Definition audited {A} (requestID : string) (names : list (event effect) -> UUID -> Prop)
    (actor action : string) (h : list (event effect)) (r : result A) : Prop :=
  is_Ok r = true -> existsb changes h = false \/ last_audit requestID names actor action h.

#[local] Arguments json.object : simpl never.
#[local] Arguments Is : simpl never.

Section facts.
Context `{Syntax, UUIDs, GoURL} (requestID : string).

Tactic Notation "leaves_audit" reference(d) :=
  apply (wp_ensures no_guard);
  unfold d, audit, getTeam, requireMember, checkParent, authorizeMaintainer, authorizeCollaborators,
    authorizeOwner, recordOrganizationAudit, publishMembership, withdrawMembership,
    publicationAuthority, fail_;
  cbn -[MembershipVisibility_Validate Role_Validate RepositoryRole_Validate InviteInput_Validate
        UpdateInput_Validate CreateInput_Validate CreateTeamInput_Validate UpdateTeamInput_Validate
        validateDID audited];
  walk; try exact I; intros Hok; try discriminate Hok;
  repeat match goal with u : unit |- _ => destruct u end;
  unfold last_audit, asked_for, of_loaded, of_invitation;
  first [left; reflexivity | right; eexists; (split; [reflexivity |]); repeat guard_step].

(** Every change of an organization, its members, invitations, teams and
    collaborators leaves an audit event: a method that succeeds and changed
    anything has, as the last thing it did, recorded an event with the
    organization, the actor, the action and the request. *)
Theorem changes_audited (org team repository : UUID) (actor other : string) :
  (forall input, ensures (audited requestID (of_loaded (U_OrganizationID input)) (U_ActorDID input)
     "organization.update") (organization.Update requestID input)) /\
  (forall input, ensures (fun tr r => forall o, r = Ok o ->
       last_audit requestID (asked_for (ID o)) (C_CreatorDID input) "organization.create" tr)
     (organization.Create requestID input)) /\
  (forall input, ensures (audited requestID (of_loaded (Invite_OrganizationID input))
     (Invite_ActorDID input) "member.invite") (Invite requestID input)) /\
  (forall id, ensures (audited requestID (of_invitation id) actor "member.accept")
     (Accept requestID id actor)) /\
  (forall id, ensures (audited requestID (asked_for org) actor "invitation.revoke")
     (RevokeInvitation requestID org id actor)) /\
  (forall visibility, ensures (audited requestID (asked_for org) actor "member.visibility")
     (SetVisibility requestID org actor visibility)) /\
  (forall role, ensures (audited requestID (asked_for org) actor "member.role")
     (ChangeRole requestID org actor other role)) /\
  ensures (audited requestID (asked_for org) actor "member.remove") (Remove requestID org actor other) /\
  (forall input, ensures (audited requestID (asked_for (CT_OrganizationID input)) (CT_ActorDID input)
     "team.create") (Create requestID input)) /\
  (forall input, ensures (audited requestID (asked_for (UT_OrganizationID input)) (UT_ActorDID input)
     "team.update") (Update requestID input)) /\
  ensures (audited requestID (asked_for org) actor "team.delete") (Delete requestID org team actor) /\
  (forall role, ensures (audited requestID (asked_for org) actor "team.member.put")
     (PutMember requestID org team actor other role)) /\
  ensures (audited requestID (asked_for org) actor "team.member.remove")
    (RemoveMember requestID org team actor other) /\
  (forall role, ensures (audited requestID (asked_for org) actor "team.repository.put")
     (PutRepository requestID org team actor repository role)) /\
  ensures (audited requestID (asked_for org) actor "team.repository.remove")
    (RemoveRepository requestID org team actor repository) /\
  (forall role, ensures (audited requestID (asked_for org) actor "repository.collaborator.put")
     (PutCollaborator requestID org repository actor other role)) /\
  ensures (audited requestID (asked_for org) actor "repository.collaborator.remove")
    (RemoveCollaborator requestID org repository actor other).
Proof.
  split_and!.
  - intros input. leaves_audit organization.Update.
  - intros input. apply (wp_ensures no_guard).
    unfold organization.Create, recordOrganizationAudit, fail_. cbn -[CreateInput_Validate].
    walk; simplify_eq; try exact I.
    repeat match goal with u : unit |- _ => destruct u end.
    eexists. split; [reflexivity |]. by split_and!.
  - intros input. leaves_audit Invite.
  - intros id. leaves_audit Accept.
  - intros id. leaves_audit RevokeInvitation.
  - intros visibility. leaves_audit SetVisibility.
  - intros role. leaves_audit ChangeRole.
  - leaves_audit Remove.
  - intros input. leaves_audit Create.
  - intros input. leaves_audit Update.
  - leaves_audit Delete.
  - intros role. leaves_audit PutMember.
  - leaves_audit RemoveMember.
  - intros role. leaves_audit PutRepository.
  - leaves_audit RemoveRepository.
  - intros role. leaves_audit PutCollaborator.
  - leaves_audit RemoveCollaborator.
Qed.

(** ** Who may change a team or a repository's collaborators *)

Section authorisation.
Context (org : UUID) (actor : string).

Definition manages (h : list (event effect)) (team : UUID) : Prop :=
  (exists m, Ev (GetOwner org actor) (Ok m) ∈ h) \/
  (exists m, Ev (GetTeamMember team actor) (Ok m) ∈ h /\ TeamMember_Role m = TeamRoleMaintainer).
Definition has_team (h : list (event effect)) (team : UUID) (t : Team) : Prop :=
  Ev (GetTeam org team) (Ok t) ∈ h.
Definition manages_own (h : list (event effect)) (team : UUID) : Prop :=
  manages h team /\ exists t, has_team h team t.
(** A parent exists, and neither it nor its child is secret. *)
Definition parent_ok (h : list (event effect)) (parentID : UUID) (visibility : TeamVisibility) : Prop :=
  (exists p, has_team h parentID p /\ Team_Visibility p <> TeamVisibilitySecret) /\
  visibility <> TeamVisibilitySecret.

(** What has been established when [actor] changes the team [team] of [org]. *)
Definition team_authorised (team : UUID) (h : list (event effect)) X (e : effect X) : Prop :=
  match e with
  | CreateTeam t =>
      (exists m, Ev (GetOwner org actor) (Ok m) ∈ h) /\ Team_OrganizationID t = org /\
      match ParentTeamID t with None => True | Some p => parent_ok h p (Team_Visibility t) end
  | UpdateTeam t =>
      manages h team /\
      exists current, has_team h team current /\ Team_ID t = Team_ID current /\
        Team_OrganizationID t = Team_OrganizationID current /\
        match ParentTeamID t with
        | None => Team_Visibility t = TeamVisibilitySecret ->
                  Ev (TeamHasChildren org team) (Ok false) ∈ h
        | Some p => parent_ok h p (Team_Visibility t) /\ p <> team /\
                    Ev (IsTeamDescendant org team p) (Ok false) ∈ h /\
                    (ParentTeamID current = Some p \/ manages h p)
        end
  | DeleteTeam o t _ => o = org /\ t = team /\ manages_own h team
  | AddTeamMember t _ _ _ => t = team /\ manages_own h team
  | RemoveTeamMember t _ => t = team /\ manages_own h team
  | PutTeamRepository t _ role _ =>
      t = team /\ manages_own h team /\ RepositoryRole_Validate role = Ok tt
  | RemoveTeamRepository t _ => t = team /\ manages_own h team
  | PutRepositoryCollaborator o r _ _ _ => o = org /\ Ev (CanAdminRepository o r actor) (Ok true) ∈ h
  | RemoveRepositoryCollaborator o r _ => o = org /\ Ev (CanAdminRepository o r actor) (Ok true) ∈ h
  | RecordAudit event => Audit_ActorDID event = actor
  | _ => True
  end.
End authorisation.

Lemma UpdateTeamInput_Validate_parent input u p :
  UpdateTeamInput_Validate input = Ok u -> UT_ParentTeamID input = Some p -> p <> UT_TeamID input.
Proof.
  unfold UpdateTeamInput_Validate. intros Hv Hp. go_inv Hv. unfold same_parent in *.
  match goal with H : match UT_ParentTeamID input with _ => _ end = false |- _ =>
    rewrite Hp in H; by apply Z.eqb_neq in H end.
Qed.

Lemma same_parent_true o p : same_parent o p = true -> o = Some p.
Proof. destruct o as [q |]; [by intros ->%Z.eqb_eq | done]. Qed.

(** An answer of the history that makes the actor a manager, or a known parent. *)
Ltac settle :=
  solve
    [ assumption | congruence | by eapply mapErr_Ok | in_history | intros _; in_history | by eauto using UpdateTeamInput_Validate_parent
    | left; eexists; in_history | right; eexists; split; [in_history | assumption]
    | left; by apply same_parent_true | right; left; eexists; in_history
    | right; right; eexists; split; [in_history | assumption] ].
Tactic Notation "walk_team" reference(d) :=
  apply (wp_guarded _ _ (fun _ _ => True));
  unfold d, audit, getTeam, requireMember, checkParent, authorizeMaintainer, authorizeCollaborators,
    recordOrganizationAudit;
  cbn -[RepositoryRole_Validate CreateTeamInput_Validate UpdateTeamInput_Validate validateDID];
  walk; repeat match goal with b : bool |- _ => destruct b; try discriminate end;
  repeat match goal with u : unit |- _ => destruct u end;
  repeat match goal with H : _ || _ = false |- _ => apply orb_false_iff in H as [? ?] end;
  tests; simplify_eq; unfold parent_ok, manages_own, manages, has_team;
  repeat match goal with
  | |- _ /\ _ => split
  | |- exists _, _ => eexists
  | |- True => exact I
  end; try settle.

(** Only those who manage a team change it: a team is created by an owner of the
    organization; it is changed or deleted, and its members and repositories
    are, by an owner or a maintainer of that team; a team is put below another
    only if neither is secret, it is no descendant of it, and the actor manages
    both; a secret team has no children; and a repository's collaborators are
    changed only by who may administer it. *)
Theorem team_changes_authorised (org team repository : UUID) (actor other : string) :
  (forall input, guarded (team_authorised (CT_OrganizationID input) (CT_ActorDID input) team)
     (Create requestID input)) /\
  (forall input, guarded (team_authorised (UT_OrganizationID input) (UT_ActorDID input)
                            (UT_TeamID input)) (Update requestID input)) /\
  guarded (team_authorised org actor team) (Delete requestID org team actor) /\
  (forall role, guarded (team_authorised org actor team) (PutMember requestID org team actor other role)) /\
  guarded (team_authorised org actor team) (RemoveMember requestID org team actor other) /\
  (forall role, guarded (team_authorised org actor team)
     (PutRepository requestID org team actor repository role)) /\
  guarded (team_authorised org actor team) (RemoveRepository requestID org team actor repository) /\
  (forall role, guarded (team_authorised org actor team)
     (PutCollaborator requestID org repository actor other role)) /\
  guarded (team_authorised org actor team) (RemoveCollaborator requestID org repository actor other).
Proof.
  split_and!.
  - intros input. walk_team Create.
  - intros input. walk_team Update.
  - walk_team Delete.
  - intros role. walk_team PutMember.
  - walk_team RemoveMember.
  - intros role. walk_team PutRepository.
  - walk_team RemoveRepository.
  - intros role. walk_team PutCollaborator.
  - walk_team RemoveCollaborator.
Qed.
End facts.
End team.
