(* ===== verification/OrganizationStore.v ===== *)
(** * OrganizationStore: the tables of [organizations.sql] and
    [collaborators.sql], as [PostgresStore] of package [internal/organization]
    reads and writes them, and the permission queries over them. *)

From S2P Require Import Prelude.
From S2P Require Import Keyset.
From S2P Require Import GoText.
From S2P Require Import Repository.
From S2P Require Import RepositoryStore.
From S2P Require Import Transfer.
From S2P Require Import TransferStore.
From S2P Require Import Organization.

Module orgstore.
Import organization.

(** ** The tables *)

(** Rows of [core.organizations] and [core.organization_teams] with their
    [deleted_at].  The rows of the other tables are the values made of them,
    without the columns a query joins to them; a NULL text is the empty string,
    as [pgText] writes it. *)
Record OrganizationRow := mkOrganizationRow {
  row_organization : Organization; organization_DeletedAt : option time
}.
Record TeamRow := mkTeamRow { row_team : Team; team_DeletedAt : option time }.

(** [accounts] maps a DID to [handle_cache]. *)
Record db := mkDb {
  accounts : gmap string (option string); organizations : list OrganizationRow;
  members : list Member; invitations : list Invitation; teams : list TeamRow;
  teamMembers : list TeamMember; teamRepositories : list TeamRepository;
  repositories : list store.RepositoryRow; collaborators : list RepositoryCollaborator;
  routes : list transferstore.Route; audits : list AuditEvent; fresh : UUID; clock : time
}.
Definition set_organizations (s : db) (rows : list OrganizationRow)
    (ms : list Member) (rs : list transferstore.Route) : db :=
  mkDb (accounts s) rows ms (invitations s) (teams s) (teamMembers s) (teamRepositories s)
    (repositories s) (collaborators s) rs (audits s) (fresh s) (clock s).
Definition set_members (s : db) (ms : list Member) (is_ : list Invitation) : db :=
  mkDb (accounts s) (organizations s) ms is_ (teams s) (teamMembers s) (teamRepositories s)
    (repositories s) (collaborators s) (routes s) (audits s) (fresh s) (clock s).
Definition set_teams (s : db) (ts : list TeamRow) (tms : list TeamMember)
    (trs : list TeamRepository) : db :=
  mkDb (accounts s) (organizations s) (members s) (invitations s) ts tms trs
    (repositories s) (collaborators s) (routes s) (audits s) (fresh s) (clock s).
Definition set_collaborators (s : db) (as_ : gmap string (option string))
    (cs : list RepositoryCollaborator) : db :=
  mkDb as_ (organizations s) (members s) (invitations s) (teams s) (teamMembers s)
    (teamRepositories s) (repositories s) cs (routes s) (audits s) (fresh s) (clock s).
Definition set_audits (s : db) (es : list AuditEvent) : db :=
  mkDb (accounts s) (organizations s) (members s) (invitations s) (teams s) (teamMembers s)
    (teamRepositories s) (repositories s) (collaborators s) (routes s) es (fresh s) (clock s).
Definition next_id (s : db) : db :=
  mkDb (accounts s) (organizations s) (members s) (invitations s) (teams s) (teamMembers s)
    (teamRepositories s) (repositories s) (collaborators s) (routes s) (audits s) (fresh s + 1)
    (clock s).

(** What [mapStoreError] makes of a violated CHECK constraint; a violated unique
    index is [ErrAlreadyExists] and no row is [ErrNotFound]. *)
Definition queryError : error :=
  Errorf "organization query: %w" [W (New "check constraint")].

(** ** Predicates of rows *)

Definition has_org (id : UUID) (row : OrganizationRow) : bool := ID (row_organization row) =? id.
Definition org_present (row : OrganizationRow) : bool := negb (is_some (organization_DeletedAt row)).
Definition org_active (row : OrganizationRow) : bool :=
  (Organization_State (row_organization row) == StateActive) && org_present row.
Definition is_member (org : UUID) (did : string) (m : Member) : bool :=
  (M_OrganizationID m =? org) && (AccountDID m == did).
Definition owner_row (org : UUID) (m : Member) : bool :=
  (M_OrganizationID m =? org) && (Member_Role m == RoleOwner).
Definition has_invitation (id : UUID) (i : Invitation) : bool := I_ID i =? id.
Definition is_pending (i : Invitation) : bool :=
  negb (is_some (AcceptedAt i)) && negb (is_some (RevokedAt i)).
Definition team_present (row : TeamRow) : bool := negb (is_some (team_DeletedAt row)).
Definition has_team (id : UUID) (row : TeamRow) : bool := Team_ID (row_team row) =? id.
Definition of_org (org : UUID) (row : TeamRow) : bool := Team_OrganizationID (row_team row) =? org.
Definition is_team_member (team : UUID) (did : string) (m : TeamMember) : bool :=
  (TM_TeamID m =? team) && (TM_AccountDID m == did).
Definition is_team_repository (team repository : UUID) (r : TeamRepository) : bool :=
  (TR_TeamID r =? team) && (TR_RepositoryID r =? repository).
Definition is_collaborator (repository : UUID) (did : string) (c : RepositoryCollaborator) : bool :=
  (RC_RepositoryID c =? repository) && (RC_AccountDID c == did).
Definition same_id (o : option UUID) (id : UUID) : bool :=
  match o with Some i => i =? id | None => false end.
Definition org_repository (org repository : UUID) (row : store.RepositoryRow) : bool :=
  store.has_id repository row && store.present row
  && same_id (repository.OrganizationID (store.row_repository row)) org.

(** ** CHECK constraints *)

Definition one_of (values : list string) (value : string) : bool := bool_decide (value ∈ values).
Definition organization_checks (v : Organization) : bool :=
  slugPattern (Slug v) && (0 <? len (Name v))
  && one_of [BasePermissionNone; BasePermissionRead; BasePermissionWrite] (Organization_BasePermission v)
  && one_of [StateCreating; StateActive; StateFailed; StateDeleting; StateDeleted]
       (Organization_State v).
Definition alias_rest (c : Ascii.ascii) : bool := slug_rest c || is_char "."%char c.
Definition route_checks (alias : string) : bool :=
  match_first_rest slug_first alias_rest alias && (len alias <=? 253)
  && negb (one_of reservedOwnerSlugs alias).
(** [(uri IS NULL) = (cid IS NULL)] *)
Definition paired (uri cid : string) : bool := Bool.eqb (uri == EmptyString) (cid == EmptyString).
Definition member_checks (m : Member) : bool :=
  one_of [RoleOwner; RoleMember] (Member_Role m)
  && one_of [VisibilityPrivate; VisibilityPublic] (Visibility m)
  && paired (M_GrantURI m) (M_GrantCID m) && paired (MembershipURI m) (MembershipCID m).
Definition invitation_checks (i : Invitation) : bool :=
  one_of [RoleOwner; RoleMember] (I_Role i) && (I_CreatedAt i <? ExpiresAt i)
  && paired (I_GrantURI i) (I_GrantCID i)
  && (negb (is_some (AcceptedAt i)) || negb (is_some (RevokedAt i))).
Definition team_checks (t : Team) : bool :=
  slugPattern (Team_Slug t) && (0 <? len (Team_Name t))
  && one_of [TeamVisibilityVisible; TeamVisibilitySecret] (Team_Visibility t).
Definition repository_roles : list RepositoryRole :=
  [RepositoryRoleRead; RepositoryRoleTriage; RepositoryRoleWrite; RepositoryRoleMaintain;
   RepositoryRoleAdmin].
Definition audit_checks (e : AuditEvent) : bool :=
  (0 <? len (Action e)) && (0 <? len (TargetType e)) && (0 <? len (TargetID e)).

(** ** The hierarchy of teams *)

(** The rows a step of a recursive query adds: the present teams whose parent is
    one of [ids] ([WHERE child.deleted_at IS NULL], and the organization where
    the query says so). *)
Definition children (keep : TeamRow -> bool) (ts : list TeamRow) (ids : list UUID) : list UUID :=
  map (fun row => Team_ID (row_team row))
    (List.filter (fun row => team_present row && keep row
       && match ParentTeamID (row_team row) with
          | Some p => bool_decide (p ∈ ids) | None => false end) ts).
(** [WITH RECURSIVE ... UNION ALL]: every level below [ids]; the working table
    is empty before [fuel] levels, a hierarchy of [n] teams having at most [n]. *)
Fixpoint levels (fuel : nat) (keep : TeamRow -> bool) (ts : list TeamRow) (ids : list UUID)
    : list UUID :=
  match fuel with
  | O => []
  | S fuel =>
      match children keep ts ids with
      | [] => []
      | below => below ++ levels fuel keep ts below
      end
  end.
Definition descendants (keep : TeamRow -> bool) (s : db) (id : UUID) : list UUID :=
  levels (length (teams s)) keep (teams s) [id].

(** [WITH RECURSIVE team_lineage ... UNION]: the present teams of the account
    and, in turn, their present parents, without duplicates, until a step adds
    none; [length] steps reach that, each earlier one adding a team. *)
Definition parents (keep : TeamRow -> bool) (ts : list TeamRow) (ids : list UUID) : list UUID :=
  map (fun row => Team_ID (row_team row))
    (List.filter (fun row => team_present row && keep row
       && existsb (fun child => bool_decide (Team_ID (row_team child) ∈ ids)
                                && same_id (ParentTeamID (row_team child)) (Team_ID (row_team row))) ts)
       ts).
Definition grow (keep : TeamRow -> bool) (ts : list TeamRow) (ids : list UUID) : list UUID :=
  ids ++ List.filter (fun id => negb (bool_decide (id ∈ ids))) (parents keep ts ids).
Definition own_teams (keep : TeamRow -> bool) (s : db) (did : string) : list UUID :=
  map (fun row => Team_ID (row_team row))
    (List.filter (fun row => team_present row && keep row
       && existsb (is_team_member (Team_ID (row_team row)) did) (teamMembers s)) (teams s)).
Definition team_lineage (keep : TeamRow -> bool) (s : db) (did : string) : list UUID :=
  Nat.iter (length (teams s)) (grow keep (teams s)) (own_teams keep s did).
Definition any_team (row : TeamRow) : bool := true.

(** ** The permission queries of [collaborators.sql] *)

(** [EXISTS (... team_lineage JOIN organization_team_repositories ... role IN roles)] *)
Definition team_grants (keep : TeamRow -> bool) (s : db) (repository : UUID) (did : string)
    (roles : list RepositoryRole) : bool :=
  let lineage := team_lineage keep s did in
  existsb (fun r => bool_decide (TR_TeamID r ∈ lineage) && (TR_RepositoryID r =? repository)
                    && one_of roles (TR_Role r)) (teamRepositories s).
Definition collaborates (s : db) (repository : UUID) (did : string) (roles : list RepositoryRole)
    : bool :=
  existsb (fun c => is_collaborator repository did c && one_of roles (RC_Role c)) (collaborators s).
(** The member row joined to a repository row, if there is one. *)
Definition membership (s : db) (row : store.RepositoryRow) (did : string) (test : Member -> bool)
    : bool :=
  match repository.OrganizationID (store.row_repository row) with
  | Some org => existsb (fun m => is_member org did m && test m) (members s)
  | None => false
  end.
Definition based (s : db) (row : store.RepositoryRow) (bases : list BasePermission) : bool :=
  match repository.OrganizationID (store.row_repository row) with
  | Some org => existsb (fun o => has_org org o
                  && one_of bases (Organization_BasePermission (row_organization o))) (organizations s)
  | None => false
  end.
Definition own_account (row : store.RepositoryRow) (did : string) : bool :=
  negb (is_some (repository.OrganizationID (store.row_repository row)))
  && (repository.OwnerDID (store.row_repository row) == did).

(** The body the four queries share: ownership, the base permissions [bases] of a
    member, and the [roles] of teams and collaborators. *)
Definition permits (s : db) (did : string) (bases : list BasePermission)
    (roles : list RepositoryRole) (row : store.RepositoryRow) : bool :=
  let id := repository.ID (store.row_repository row) in
  own_account row did
  || membership s row did (fun m => Member_Role m == RoleOwner)
  || (membership s row did (fun _ => true) && based s row bases)
  || team_grants any_team s id did roles
  || collaborates s id did roles.
Definition find_repository (s : db) (id : UUID) (test : store.RepositoryRow -> bool) : bool :=
  existsb (fun row => store.has_id id row && store.present row && test row) (repositories s).

Definition canReadRepository (s : db) (id : UUID) (did : string) : bool :=
  find_repository s id (fun row =>
    (repository.Repository_Visibility (store.row_repository row) == repository.VisibilityPublic)
    || permits s did [BasePermissionRead; BasePermissionWrite] repository_roles row).
Definition canTriageRepository (s : db) (id : UUID) (did : string) : bool :=
  find_repository s id (permits s did [BasePermissionWrite]
    [RepositoryRoleTriage; RepositoryRoleWrite; RepositoryRoleMaintain; RepositoryRoleAdmin]).
Definition canWriteRepository (s : db) (id : UUID) (did : string) : bool :=
  find_repository s id (permits s did [BasePermissionWrite]
    [RepositoryRoleWrite; RepositoryRoleMaintain; RepositoryRoleAdmin]).
Definition canAdminRepository (s : db) (id : UUID) (did : string) : bool :=
  find_repository s id (permits s did [] [RepositoryRoleAdmin]).

(** [CanAdminOrganizationRepository] looks only at the teams of the organization. *)
Definition canAdminOrganizationRepository (s : db) (org id : UUID) (did : string) : bool :=
  find_repository s id (fun row =>
    same_id (repository.OrganizationID (store.row_repository row)) org
    && (existsb (fun m => is_member org did m && (Member_Role m == RoleOwner)) (members s)
        || collaborates s id did [RepositoryRoleAdmin]
        || team_grants (of_org org) s id did [RepositoryRoleAdmin])).

(** ** Rows of queries *)

Definition lex_le (x y : string * UUID) : Prop :=
  fst x <> fst y /\ string_le (fst x) (fst y) \/ fst x = fst y /\ snd x <= snd y.
#[export] Instance lex_le_dec : RelDecision lex_le.
Proof. intros x y. unfold lex_le, string_le. apply _. Defined.
Definition text_le (x y : string * string) : Prop :=
  fst x <> fst y /\ string_le (fst x) (fst y) \/ fst x = fst y /\ string_le (snd x) (snd y).
#[export] Instance text_le_dec : RelDecision text_le.
Proof. intros x y. unfold text_le, string_le. apply _. Defined.
(** [ORDER BY column], and the rows after a cursor's column. *)
Definition ordered {R K} (le : K -> K -> Prop) `{dec : !RelDecision le} (key : R -> K)
    (rows : list R) : list R :=
  @merge_sort R (fun x y => le (key x) (key y)) (fun x y => dec (key x) (key y)) rows.
Definition following {R K} (le : K -> K -> Prop) `{!RelDecision le} (key : R -> K)
    (cursor : option R) (rows : list R) : list R :=
  match cursor with
  | None => []
  | Some c => List.filter (fun row => negb (bool_decide (le (key row) (key c)))) rows
  end.
Definition limited {R} (limit : Z) (rows : list R) : list R := firstn (Z.to_nat limit) rows.

Section tables.
Context (lower : string -> string) (jsonb : list Z -> list Z) (world : forall X, effect X -> X).

(** The handle a row is joined with, and what it is listed by:
    [lower(COALESCE(account.handle_cache, account_did))]. *)
Definition handle_of (s : db) (did : string) : string :=
  match accounts s !! did with Some (Some handle) => handle | _ => EmptyString end.
Definition shown (s : db) (did : string) : string :=
  lower (match accounts s !! did with Some (Some handle) => handle | _ => did end).
Definition has_account (s : db) (did : string) : bool := is_some (accounts s !! did).

Definition with_handle (s : db) (m : Member) : Member :=
  mkMember (M_OrganizationID m) (AccountDID m) (handle_of s (AccountDID m)) (Member_Role m)
    (Visibility m) (M_InvitedByDID m) (M_GrantURI m) (M_GrantCID m) (MembershipURI m)
    (MembershipCID m) (JoinedAt m) (M_UpdatedAt m).
Definition with_team_handle (s : db) (m : TeamMember) : TeamMember :=
  mkTeamMember (TM_TeamID m) (TM_AccountDID m) (handle_of s (TM_AccountDID m)) (TeamMember_Role m)
    (TM_CreatedAt m) (TM_UpdatedAt m).

(** ** Organizations *)

Definition insertedOrganization (v : Organization) : Organization :=
  mkOrganization (ID v) (Slug v) (Name v) (Description v) (Website v) (Location v) (CreatorDID v)
    (Organization_BasePermission v) (MembersCanCreateRepo v) StateCreating EmptyString EmptyString
    (CreatedAt v) (CreatedAt v).
Definition ownerRow (v : Organization) : Member :=
  mkMember (ID v) (CreatorDID v) EmptyString RoleOwner VisibilityPrivate (CreatorDID v) EmptyString
    EmptyString EmptyString EmptyString (CreatedAt v) (CreatedAt v).

(** [Create]: the organization, its owner route and its first owner, or nothing. *)
Definition create (v : Organization) (s : db) : result Organization * db :=
  let row := insertedOrganization v in
  let alias := lower (Slug v) in
  if negb (organization_checks row) then (Err queryError, s) else
  if existsb (fun r => has_org (ID v) r
                || (org_present r && (lower (Slug (row_organization r)) == lower (Slug v))))
       (organizations s) then (Err ErrAlreadyExists, s) else
  if negb (route_checks alias) then (Err queryError, s) else
  if existsb (fun r => lower (transferstore.route_alias r) == lower alias) (routes s)
  then (Err ErrAlreadyExists, s) else
  if existsb (is_member (ID v) (CreatorDID v)) (members s) then (Err ErrAlreadyExists, s) else
  (Ok row, set_organizations s (organizations s ++ [mkOrganizationRow row None])
             (members s ++ [ownerRow v])
             (routes s ++ [transferstore.mkRoute alias None (Some (ID v)) (CreatedAt v)])).

(** [UPDATE core.organizations ... WHERE id = ... AND guard RETURNING *]. *)
Definition update_organization (id : UUID) (guard : OrganizationRow -> bool)
    (update : Organization -> Organization) (s : db) : result Organization * db :=
  match find_row ErrNotFound (fun r => has_org id r && guard r) (organizations s) with
  | Err e => (Err e, s)
  | Ok r =>
      let v := update (row_organization r) in
      if negb (organization_checks v) then (Err queryError, s) else
      if (ATURI v != EmptyString)
         && existsb (fun o => negb (has_org id o) && (ATURI (row_organization o) == ATURI v))
              (organizations s)
      then (Err ErrAlreadyExists, s) else
      (Ok v, set_organizations s
         (update_where (has_org id) (fun o => mkOrganizationRow v (organization_DeletedAt o))
            (organizations s)) (members s) (routes s))
  end.

Definition with_state (state : State) (identity : option ATIdentity) (updatedAt : time)
    (v : Organization) : Organization :=
  mkOrganization (ID v) (Slug v) (Name v) (Description v) (Website v) (Location v) (CreatorDID v)
    (Organization_BasePermission v) (MembersCanCreateRepo v) state
    (match identity with Some i => URI i | None => ATURI v end)
    (match identity with Some i => CID i | None => ATCID v end) (CreatedAt v) updatedAt.
Definition with_settings (w v : Organization) : Organization :=
  mkOrganization (ID v) (Slug v) (Name w) (Description w) (Website w) (Location w) (CreatorDID v)
    (Organization_BasePermission w) (MembersCanCreateRepo w) (Organization_State v) (ATURI v)
    (ATCID w) (CreatedAt v) (UpdatedAt w).

Definition get_organization (f : OrganizationRow -> bool) (s : db) : result Organization :=
  row_organization <$> find_row ErrNotFound (fun r => f r && org_present r) (organizations s).
Definition active_of (s : db) (did : string) : list Organization :=
  map row_organization (List.filter (fun r => org_active r
    && existsb (is_member (ID (row_organization r)) did) (members s)) (organizations s)).
Definition page_organizations (s : db) (did : string) (after : option UUID) (limit : Z)
    : list Organization :=
  limited limit (ordered Z.ge ID (List.filter (fun v =>
    match after with None => true | Some id => ID v <? id end) (active_of s did))).
Definition get_owner (s : db) (org : UUID) (did : string) : result Member :=
  find_row ErrNotFound (fun m => is_member org did m && (Member_Role m == RoleOwner)
    && existsb (fun r => has_org org r && org_active r) (organizations s)) (members s).

(** ** Members *)

Definition member_order (s : db) (m : Member) : string * string :=
  (if Member_Role m == RoleOwner then "0" else "1", shown s (AccountDID m)).
Definition list_members (s : db) (org : UUID) : list Member :=
  map (with_handle s) (ordered text_le (member_order s)
    (List.filter (fun m => (M_OrganizationID m =? org) && has_account s (AccountDID m)) (members s))).
Definition page_members (s : db) (org : UUID) (includePrivate : bool) (after : string) (limit : Z)
    : list Member :=
  map (with_handle s) (limited limit (ordered string_le AccountDID (List.filter (fun m =>
    (M_OrganizationID m =? org) && has_account s (AccountDID m)
    && (includePrivate || (Visibility m == VisibilityPublic))
    && ((after == EmptyString) || negb (bool_decide (string_le (AccountDID m) after))))
    (members s)))).

(** [LockOrganizationOwners], and the test that keeps the last of them. *)
Definition owners_of (s : db) (org : UUID) : list string :=
  map AccountDID (List.filter (owner_row org) (members s)).
Definition is_last_owner (s : db) (org : UUID) (did : string) : bool :=
  match owners_of s org with [only] => only == did | _ => false end.

Definition update_member (org : UUID) (did : string) (update : Member -> Member) (s : db)
    : result Member * db :=
  match find_row ErrNotFound (is_member org did) (members s) with
  | Err e => (Err e, s)
  | Ok m =>
      let m' := update m in
      if negb (member_checks m') then (Err queryError, s) else
      (Ok m', set_members s (update_where (is_member org did) (fun _ => m') (members s))
                (invitations s))
  end.
Definition with_role (role : Role) (grant membership : ATIdentity) (now : time) (m : Member) : Member :=
  mkMember (M_OrganizationID m) (AccountDID m) EmptyString role (Visibility m) (M_InvitedByDID m)
    (URI grant) (CID grant) (URI membership) (CID membership) (JoinedAt m) now.
Definition with_visibility (visibility : MembershipVisibility) (grant membership : ATIdentity)
    (now : time) (m : Member) : Member :=
  mkMember (M_OrganizationID m) (AccountDID m) EmptyString (Member_Role m) visibility
    (M_InvitedByDID m) (URI grant) (CID grant) (URI membership) (CID membership) (JoinedAt m) now.

Definition update_role (org : UUID) (did : string) (role : Role) (grant membership : ATIdentity)
    (now : time) (s : db) : result Member * db :=
  if (role != RoleOwner) && is_last_owner s org did then (Err ErrLastOwner, s)
  else update_member org did (with_role role grant membership now) s.
Definition remove_member (org : UUID) (did : string) (s : db) : result Member * db :=
  if is_last_owner s org did then (Err ErrLastOwner, s) else
  match find_row ErrNotFound (is_member org did) (members s) with
  | Err e => (Err e, s)
  | Ok m => (Ok m, set_members s (List.filter (fun x => negb (is_member org did x)) (members s))
                     (invitations s))
  end.

(** ** Invitations *)

Definition insertedInvitation (i : Invitation) : Invitation :=
  mkInvitation (I_ID i) (I_OrganizationID i) EmptyString EmptyString (InviteeDID i) (I_Role i)
    (I_InvitedByDID i) EmptyString EmptyString (I_CreatedAt i) (ExpiresAt i) None None.
Definition create_invitation (i : Invitation) (s : db) : result Invitation * db :=
  let row := insertedInvitation i in
  if negb (invitation_checks row) then (Err queryError, s) else
  if existsb (fun j => has_invitation (I_ID i) j
                || (is_pending j && (I_OrganizationID j =? I_OrganizationID i)
                    && (InviteeDID j == InviteeDID i))) (invitations s)
  then (Err ErrAlreadyExists, s)
  else (Ok row, set_members s (members s) (invitations s ++ [row])).

Definition accepted (now : time) (i : Invitation) : Invitation :=
  mkInvitation (I_ID i) (I_OrganizationID i) (OrganizationSlug i) (OrganizationName i)
    (InviteeDID i) (I_Role i) (I_InvitedByDID i) (I_GrantURI i) (I_GrantCID i) (I_CreatedAt i)
    (ExpiresAt i) (RevokedAt i) (Some now).
Definition revoked (now : time) (i : Invitation) : Invitation :=
  mkInvitation (I_ID i) (I_OrganizationID i) (OrganizationSlug i) (OrganizationName i)
    (InviteeDID i) (I_Role i) (I_InvitedByDID i) (I_GrantURI i) (I_GrantCID i) (I_CreatedAt i)
    (ExpiresAt i) (Some now) (AcceptedAt i).
Definition revoke_invitation (id : UUID) (now : time) (s : db) : result unit * db :=
  match find_row ErrNotFound (fun i => has_invitation id i && is_pending i) (invitations s) with
  | Err e => (Err e, s)
  | Ok _ => (Ok tt, set_members s (members s)
                      (update_where (has_invitation id) (revoked now) (invitations s)))
  end.

Definition memberFromInvitation (i : Invitation) (did : string) (membership : ATIdentity)
    (now : time) : Member :=
  mkMember (I_OrganizationID i) did EmptyString (I_Role i) VisibilityPrivate (I_InvitedByDID i)
    (I_GrantURI i) (I_GrantCID i) (URI membership) (CID membership) now now.
(** [AcceptInvitation]: the invitation and the member, or nothing. *)
Definition accept_invitation (id : UUID) (did : string) (membership : ATIdentity) (now : time)
    (s : db) : result Member * db :=
  match find_row ErrNotFound (has_invitation id) (invitations s) with
  | Err e => (Err e, s)
  | Ok i =>
      if (InviteeDID i != did) || negb (Active i now) then (Err ErrInvitation, s) else
      let m := memberFromInvitation i did membership now in
      if negb (member_checks m) then (Err queryError, s) else
      if existsb (is_member (I_OrganizationID i) did) (members s) then (Err ErrAlreadyExists, s) else
      (Ok m, set_members s (members s ++ [m])
               (update_where (has_invitation id) (accepted now) (invitations s)))
  end.

Definition invitation_key (i : Invitation) : time * UUID := (I_CreatedAt i, I_ID i).
Definition org_invitation (org : UUID) (i : Invitation) : bool := I_OrganizationID i =? org.
(** The organization of a pending invitation is joined for its name. *)
Definition joined_organization (s : db) (i : Invitation) : option Organization :=
  option_map row_organization
    (List.find (fun r => has_org (I_OrganizationID i) r && org_active r) (organizations s)).
Definition pending_for (s : db) (did : string) (now : time) (i : Invitation) : bool :=
  (InviteeDID i == did) && is_pending i && (now <? ExpiresAt i) && is_some (joined_organization s i).
Definition with_organization (s : db) (i : Invitation) : Invitation :=
  match joined_organization s i with
  | Some o => mkInvitation (I_ID i) (I_OrganizationID i) (Slug o) (Name o) (InviteeDID i)
                (I_Role i) (I_InvitedByDID i) (I_GrantURI i) (I_GrantCID i) (I_CreatedAt i)
                (ExpiresAt i) None None
  | None => i
  end.

(** ** Audit events *)

Definition storedAudit (e : AuditEvent) : AuditEvent :=
  mkAuditEvent (Audit_ID e) (Audit_OrganizationID e) (Audit_ActorDID e) (Action e) (TargetType e)
    (TargetID e) (RequestID e)
    (jsonb (match Metadata e with [] => bytes "{}" | m => m end)) (Audit_CreatedAt e).
Definition record_audit (e : AuditEvent) (s : db) : result unit * db :=
  if negb (audit_checks e) then (Err queryError, s) else
  if existsb (fun x => Audit_ID x =? Audit_ID e) (audits s) then (Err ErrAlreadyExists, s)
  else (Ok tt, set_audits s (audits s ++ [storedAudit e])).
Definition audit_key (e : AuditEvent) : time * UUID := (Audit_CreatedAt e, Audit_ID e).
Definition org_audit (org : UUID) (e : AuditEvent) : bool := Audit_OrganizationID e =? org.

(** ** Teams *)

Definition visible_parent (s : db) (org parent : UUID) : bool :=
  existsb (fun r => has_team parent r && of_org org r
    && (Team_Visibility (row_team r) == TeamVisibilityVisible) && team_present r) (teams s).

Definition insertedTeam (t : Team) : Team :=
  mkTeam (Team_ID t) (Team_OrganizationID t) (ParentTeamID t) (Team_Slug t) (Team_Name t)
    (Team_Description t) (Team_Visibility t) false EmptyString (Team_CreatedAt t) (Team_CreatedAt t).
Definition create_team (t : Team) (s : db) : result Team * db :=
  let row := insertedTeam t in
  if negb match ParentTeamID t with
          | None => true
          | Some p => (Team_Visibility t == TeamVisibilityVisible)
                      && visible_parent s (Team_OrganizationID t) p
          end then (Err ErrNotFound, s) else
  if negb (team_checks row) then (Err queryError, s) else
  if existsb (fun r => has_team (Team_ID t) r
                || (of_org (Team_OrganizationID t) r && team_present r
                    && (lower (Team_Slug (row_team r)) == lower (Team_Slug t)))) (teams s)
  then (Err ErrAlreadyExists, s)
  else (Ok row, set_teams s (teams s ++ [mkTeamRow row None]) (teamMembers s) (teamRepositories s)).

(** The conditions of [UpdateOrganizationTeam] on the parent and on secrecy. *)
Definition may_move (s : db) (t : Team) : bool :=
  let below := descendants any_team s (Team_ID t) in
  match ParentTeamID t with
  | None => true
  | Some p => (Team_Visibility t == TeamVisibilityVisible) && negb (p =? Team_ID t)
              && negb (bool_decide (p ∈ below)) && visible_parent s (Team_OrganizationID t) p
  end
  && ((Team_Visibility t != TeamVisibilitySecret)
      || (negb (is_some (ParentTeamID t)) && match below with [] => true | _ => false end)).
Definition with_team_settings (t u : Team) : Team :=
  mkTeam (Team_ID u) (Team_OrganizationID u) (ParentTeamID t) (Team_Slug u) (Team_Name t)
    (Team_Description t) (Team_Visibility t) false EmptyString (Team_CreatedAt u) (Team_UpdatedAt t).
Definition update_team (t : Team) (s : db) : result Team * db :=
  match find_row ErrNotFound (fun r => has_team (Team_ID t) r
          && of_org (Team_OrganizationID t) r && team_present r && may_move s t) (teams s) with
  | Err e => (Err e, s)
  | Ok r =>
      let u := with_team_settings t (row_team r) in
      if negb (team_checks u) then (Err queryError, s) else
      (Ok u, set_teams s (update_where (has_team (Team_ID t))
               (fun x => mkTeamRow u (team_DeletedAt x)) (teams s)) (teamMembers s)
               (teamRepositories s))
  end.

Definition get_team (s : db) (org team : UUID) : result Team :=
  row_team <$> find_row ErrNotFound (fun r => has_team team r && of_org org r && team_present r) (teams s).

(** [DeleteOrganizationTeamHierarchy]. *)
Definition hierarchy (s : db) (org team : UUID) : list UUID :=
  if is_Ok (get_team s org team) then team :: descendants (of_org org) s team else [].
Definition deleted_team (now : time) (r : TeamRow) : TeamRow :=
  let t := row_team r in
  mkTeamRow (mkTeam (Team_ID t) (Team_OrganizationID t) (ParentTeamID t) (Team_Slug t)
    (Team_Name t) (Team_Description t) (Team_Visibility t) (ViewerIsMember t) (ViewerRole t)
    (Team_CreatedAt t) now) (Some now).
Definition delete_team (org team : UUID) (now : time) (s : db) : result Z * db :=
  let ids := hierarchy s org team in
  let hit r := bool_decide (Team_ID (row_team r) ∈ ids) in
  (Ok (Z.of_nat (length (List.filter hit (teams s)))),
   set_teams s (update_where hit (deleted_team now) (teams s)) (teamMembers s) (teamRepositories s)).

(** The columns [viewer_is_member] and [viewer_role]. *)
Definition with_viewer (s : db) (did : string) (t : Team) : Team :=
  let own := List.find (is_team_member (Team_ID t) did) (teamMembers s) in
  mkTeam (Team_ID t) (Team_OrganizationID t) (ParentTeamID t) (Team_Slug t) (Team_Name t)
    (Team_Description t) (Team_Visibility t) (is_some own)
    (match own with Some m => TeamMember_Role m | None => EmptyString end) (Team_CreatedAt t)
    (Team_UpdatedAt t).
Definition team_key (t : Team) : string * UUID := (lower (Team_Name t), Team_ID t).
Definition teams_of (s : db) (org : UUID) (did : string) : list Team :=
  map (with_viewer s did)
    (map row_team (List.filter (fun r => of_org org r && team_present r) (teams s))).
Definition page_teams (s : db) (org : UUID) (did : string) (includeSecret : bool)
    (after : option UUID) (limit : Z) : list Team :=
  let mine := List.filter (fun t => includeSecret || (Team_Visibility t == TeamVisibilityVisible)
                || ViewerIsMember t) (teams_of s org did) in
  limited limit (ordered lex_le team_key
    match after with
    | None => mine
    | Some id => following lex_le team_key
                   (option_map row_team (List.find (fun r => of_org org r && has_team id r) (teams s)))
                   mine
    end).

(** ** Members and repositories of teams *)

Definition put_team_member (team : UUID) (did : string) (role : TeamRole) (now : time) (s : db)
    : result TeamMember * db :=
  if negb (existsb (fun r => has_team team r && team_present r
             && existsb (is_member (Team_OrganizationID (row_team r)) did) (members s)) (teams s))
  then (Err ErrNotFound, s) else
  if negb (one_of [TeamRoleMember; TeamRoleMaintainer] role) then (Err queryError, s) else
  let update m := mkTeamMember (TM_TeamID m) (TM_AccountDID m) EmptyString role (TM_CreatedAt m) now in
  match List.find (is_team_member team did) (teamMembers s) with
  | Some m => (Ok (update m), set_teams s (teams s)
                 (update_where (is_team_member team did) update (teamMembers s)) (teamRepositories s))
  | None => let m := mkTeamMember team did EmptyString role now now in
            (Ok m, set_teams s (teams s) (teamMembers s ++ [m]) (teamRepositories s))
  end.
Definition remove_team_member (team : UUID) (did : string) (s : db) : result unit * db :=
  if negb (existsb (is_team_member team did) (teamMembers s)) then (Err ErrNotFound, s) else
  (Ok tt, set_teams s (teams s)
     (List.filter (fun m => negb (is_team_member team did m)) (teamMembers s)) (teamRepositories s)).
Definition team_member_order (s : db) (m : TeamMember) : string * string :=
  (if TeamMember_Role m == TeamRoleMaintainer then "0" else "1", shown s (TM_AccountDID m)).
Definition members_of_team (s : db) (team : UUID) : list TeamMember :=
  List.filter (fun m => (TM_TeamID m =? team) && has_account s (TM_AccountDID m)) (teamMembers s).

Definition with_slug (slug : string) (r : TeamRepository) : TeamRepository :=
  mkTeamRepository (TR_TeamID r) (TR_RepositoryID r) slug (TR_Role r) (TR_CreatedAt r)
    (TR_UpdatedAt r).
Definition slug_of (row : store.RepositoryRow) : string :=
  repository.Slug (store.row_repository row).
Definition put_team_repository (team repository : UUID) (role : RepositoryRole) (now : time) (s : db)
    : result TeamRepository * db :=
  match find_row ErrNotFound (fun row => store.has_id repository row && store.present row
          && existsb (fun r => has_team team r && team_present r
               && same_id (repository.OrganizationID (store.row_repository row))
                    (Team_OrganizationID (row_team r))) (teams s)) (repositories s) with
  | Err e => (Err e, s)
  | Ok row =>
      if negb (one_of repository_roles role) then (Err queryError, s) else
      let update r := mkTeamRepository (TR_TeamID r) (TR_RepositoryID r) EmptyString role
                        (TR_CreatedAt r) now in
      match List.find (is_team_repository team repository) (teamRepositories s) with
      | Some r => (Ok (with_slug (slug_of row) (update r)),
                   set_teams s (teams s) (teamMembers s)
                     (update_where (is_team_repository team repository) update (teamRepositories s)))
      | None => let r := mkTeamRepository team repository EmptyString role now now in
                (Ok (with_slug (slug_of row) r),
                 set_teams s (teams s) (teamMembers s) (teamRepositories s ++ [r]))
      end
  end.
Definition remove_team_repository (team repository : UUID) (s : db) : result unit * db :=
  if negb (existsb (is_team_repository team repository) (teamRepositories s))
  then (Err ErrNotFound, s) else
  (Ok tt, set_teams s (teams s) (teamMembers s)
     (List.filter (fun r => negb (is_team_repository team repository r)) (teamRepositories s))).
(** The assignments of a team to repositories that are present, with their slugs. *)
Definition repositories_of_team (s : db) (team : UUID) : list TeamRepository :=
  omap (fun r =>
    match List.find (fun row => store.has_id (TR_RepositoryID r) row && store.present row)
            (repositories s) with
    | Some row => if TR_TeamID r =? team then Some (with_slug (slug_of row) r) else None
    | None => None
    end) (teamRepositories s).

(** ** Collaborators *)

(** [PutRepositoryCollaborator]: the account and the assignment, or nothing. *)
Definition put_collaborator (org repository : UUID) (did : string) (role : RepositoryRole)
    (now : time) (s : db) : result RepositoryCollaborator * db :=
  let accounts' := match accounts s !! did with
                   | Some _ => accounts s | None => <[did := None]> (accounts s) end in
  if negb (existsb (org_repository org repository) (repositories s)) then (Err ErrNotFound, s) else
  if negb (one_of repository_roles role) then (Err queryError, s) else
  let update c := mkRepositoryCollaborator (RC_RepositoryID c) EmptyString (RC_AccountDID c)
                    EmptyString role (RC_CreatedAt c) now in
  match List.find (is_collaborator repository did) (collaborators s) with
  | Some c => (Ok (update c), set_collaborators s accounts'
                 (update_where (is_collaborator repository did) update (collaborators s)))
  | None => let c := mkRepositoryCollaborator repository EmptyString did EmptyString role now now in
            (Ok c, set_collaborators s accounts' (collaborators s ++ [c]))
  end.
Definition remove_collaborator (org repository : UUID) (did : string) (s : db) : result unit * db :=
  if existsb (is_collaborator repository did) (collaborators s)
     && existsb (fun row => store.has_id repository row
          && same_id (repository.OrganizationID (store.row_repository row)) org) (repositories s)
  then (Ok tt, set_collaborators s (accounts s)
          (List.filter (fun c => negb (is_collaborator repository did c)) (collaborators s)))
  else (Err ErrNotFound, s).
Definition collaborator_key (s : db) (c : RepositoryCollaborator) : string * string :=
  (shown s (RC_AccountDID c), RC_AccountDID c).
Definition page_collaborators (s : db) (org repository : UUID) (after : string) (limit : Z)
    : list RepositoryCollaborator :=
  match List.find (org_repository org repository) (repositories s) with
  | None => []
  | Some row =>
      let mine := List.filter (fun c => (RC_RepositoryID c =? repository)
                                        && has_account s (RC_AccountDID c)) (collaborators s) in
      map (fun c => mkRepositoryCollaborator (RC_RepositoryID c) (slug_of row) (RC_AccountDID c)
             (handle_of s (RC_AccountDID c)) (RC_Role c) (RC_CreatedAt c) (RC_UpdatedAt c))
        (limited limit (ordered text_le (collaborator_key s)
           (if after == EmptyString then mine else
              following text_le (collaborator_key s)
                (List.find (is_collaborator repository after) mine) mine)))
  end.

Definition handle X (e : effect X) (s : db) : X * db :=
  match e in effect X return X * db with
  | store_Create v => create v s
  | Activate id identity updatedAt =>
      update_organization id org_present (with_state StateActive (Some identity) updatedAt) s
  | Fail_ id updatedAt =>
      let '(r, s') := update_organization id org_present (with_state StateFailed None updatedAt) s in
      ((fun _ => tt) <$> r, s')
  | store_GetBySlug slug =>
      (get_organization (fun r => lower (Slug (row_organization r)) == lower slug) s, s)
  | store_Update v => update_organization (ID v) org_active (with_settings v) s
  | store_ListForAccount did =>
      (Ok (ordered lex_le (fun v => (lower (Name v), ID v)) (active_of s did)), s)
  | store_PageForAccount did after limit => (Ok (page_organizations s did after limit), s)
  | store_ListMembers id => (Ok (list_members s id), s)
  | store_PageMembers id includePrivate after limit =>
      (Ok (page_members s id includePrivate after limit), s)
  | GetByID id => (get_organization (has_org id) s, s)
  | GetOwner id did => (get_owner s id did, s)
  | store_GetMember id did => (find_row ErrNotFound (is_member id did) (members s), s)
  | CreateInvitation i => create_invitation i s
  | store_RevokeInvitation id revokedAt => revoke_invitation id revokedAt s
  | GetInvitation id => (find_row ErrNotFound (has_invitation id) (invitations s), s)
  | store_ListInvitations org =>
      (Ok (keyset.listing invitation_key (fun i => org_invitation org i && is_pending i)
             (invitations s)), s)
  | store_PageInvitations org after limit =>
      (Ok (keyset.page_rows invitation_key (org_invitation org)
             (fun i => org_invitation org i && is_pending i) after limit (invitations s)), s)
  | store_ListPendingInvitations did now =>
      (Ok (map (with_organization s)
             (keyset.listing invitation_key (pending_for s did now) (invitations s))), s)
  | store_PagePendingInvitations did now after limit =>
      (Ok (map (with_organization s)
             (keyset.page_rows invitation_key (fun i => InviteeDID i == did) (pending_for s did now)
                after limit (invitations s))), s)
  | AcceptInvitation id did membership now => accept_invitation id did membership now s
  | UpdateMemberRole org did role grant membership now =>
      update_role org did role grant membership now s
  | store_RemoveMember org did => remove_member org did s
  | UpdateVisibility org did visibility grant membership now =>
      update_member org did (with_visibility visibility grant membership now) s
  | RecordAudit event => record_audit event s
  | ListAuditEvents org after limit =>
      (Ok (keyset.page_rows audit_key (org_audit org) (org_audit org) after limit (audits s)), s)
  | CreateTeam t => create_team t s
  | UpdateTeam t => update_team t s
  | DeleteTeam org team now => delete_team org team now s
  | TeamHasChildren org team =>
      (Ok match children (of_org org) (teams s) [team] with [] => false | _ => true end, s)
  | IsTeamDescendant org team candidate =>
      (Ok (bool_decide (candidate ∈ descendants (of_org org) s team)), s)
  | ListTeams org did => (Ok (ordered lex_le team_key (teams_of s org did)), s)
  | PageTeams org did includeSecret after limit =>
      (Ok (page_teams s org did includeSecret after limit), s)
  | GetTeam org team => (get_team s org team, s)
  | AddTeamMember team did role now => put_team_member team did role now s
  | GetTeamMember team did => (find_row ErrNotFound (is_team_member team did) (teamMembers s), s)
  | ListTeamMembers team =>
      (Ok (map (with_team_handle s) (ordered text_le (team_member_order s) (members_of_team s team))), s)
  | PageTeamMembers team after limit =>
      (Ok (map (with_team_handle s) (limited limit (ordered string_le TM_AccountDID
             (List.filter (fun m => (after == EmptyString)
                || negb (bool_decide (string_le (TM_AccountDID m) after))) (members_of_team s team))))), s)
  | RemoveTeamMember team did => remove_team_member team did s
  | PutTeamRepository team repository role now => put_team_repository team repository role now s
  | ListTeamRepositories team =>
      (Ok (ordered lex_le (fun r => (lower (TR_RepositorySlug r), TR_RepositoryID r))
             (repositories_of_team s team)), s)
  | PageTeamRepositories team after limit =>
      (Ok (limited limit (ordered Z.le TR_RepositoryID (List.filter (fun r =>
             match after with None => true | Some id => id <? TR_RepositoryID r end)
             (repositories_of_team s team)))), s)
  | RemoveTeamRepository team repository => remove_team_repository team repository s
  | CanAdminRepository org repository did =>
      (Ok (canAdminOrganizationRepository s org repository did), s)
  | PutRepositoryCollaborator org repository did role now =>
      put_collaborator org repository did role now s
  | ListRepositoryCollaborators org repository after limit =>
      (Ok (page_collaborators s org repository after limit), s)
  | RemoveRepositoryCollaborator org repository did => remove_collaborator org repository did s
  | Now => (clock s, s)
  | NewID => (Ok (fresh s), next_id s)
  | uuid_New => (fresh s, next_id s)
  | e => (world _ e, s)
  end.
End tables.
#[global] Arguments descendants : simpl never.
#[global] Arguments team_lineage : simpl never.
End orgstore.
