(* ===== verification/Access.v ===== *)
(** * Access: who may read, triage, write and administer a repository.

    The permission queries of [collaborators.sql] against the rule of
    [EffectiveRepositoryRole]: the strongest of ownership, the base permission of
    the organization's members, a direct assignment and the assignments of teams. *)

From S2P Require Import Prelude.
From S2P Require Import GoText.
From S2P Require Import Syntax.
From S2P Require Import CommitStatus.
From S2P Require Import Repository.
From S2P Require Import RepositoryStore.
From S2P Require Import Organization.
From S2P Require Import OrganizationStore.

Module access.
Import organization orgstore.

(** ** What a person was given *)

Section given.
Context (s : db) (row : store.RepositoryRow) (did : string).

Definition repository_id : UUID := repository.ID (store.row_repository row).
Definition member_of : option Member :=
  match repository.OrganizationID (store.row_repository row) with
  | Some org => List.find (is_member org did) (members s)
  | None => None
  end.
Definition base_of : BasePermission :=
  match repository.OrganizationID (store.row_repository row) with
  | Some org =>
      match List.find (has_org org) (organizations s) with
      | Some o => Organization_BasePermission (row_organization o)
      | None => BasePermissionNone
      end
  | None => BasePermissionNone
  end.
Definition direct_role : RepositoryRole :=
  match List.find (is_collaborator repository_id did) (collaborators s) with
  | Some c => RC_Role c
  | None => RepositoryRoleNone
  end.
Definition team_roles : list RepositoryRole :=
  map TR_Role (List.filter (fun r => bool_decide (TR_TeamID r ∈ team_lineage any_team s did)
                 && (TR_RepositoryID r =? repository_id)) (teamRepositories s)).

(** The role the rule gives: an account administers its own repositories. *)
Definition effective_role : RepositoryRole :=
  if own_account row did then RepositoryRoleAdmin else
  match member_of with
  | Some m => EffectiveRepositoryRole (Member_Role m) base_of direct_role team_roles
  | None => EffectiveRepositoryRole EmptyString BasePermissionNone direct_role team_roles
  end.
End given.

(** The keys of the tables. *)
Definition keys_unique (s : db) : Prop :=
  NoDup (map (fun m => (M_OrganizationID m, AccountDID m)) (members s)) /\
  NoDup (map (fun c => (RC_RepositoryID c, RC_AccountDID c)) (collaborators s)) /\
  NoDup (map (fun o => ID (row_organization o)) (organizations s)) /\
  NoDup (map repository_id (repositories s)) /\
  NoDup (map (fun r => Team_ID (row_team r)) (teams s)).

Lemma existsb_unique {A B} (key : A -> B) (f g : A -> bool) l :
  NoDup (map key l) -> (forall x y, f x = true -> f y = true -> key x = key y) ->
  existsb (fun x => f x && g x) l = match List.find f l with Some x => g x | None => false end.
Proof.
  intros Hnd Hf. apply eq_true_iff_eq. split.
  - rewrite existsb_exists. intros (x & Hx%list_elem_of_In & [Hfx Hgx]%andb_true_iff).
    destruct (List.find f l) as [y |] eqn:Hy.
    + apply find_some in Hy as [Hy%list_elem_of_In Hfy].
      by rewrite (NoDup_map_inj key l y x Hnd Hy Hx (Hf _ _ Hfy Hfx)).
    + apply list_elem_of_In in Hx. by rewrite (find_none _ _ Hy x Hx) in Hfx.
  - destruct (List.find f l) as [y |] eqn:Hy; [| done].
    intros Hg. apply find_some in Hy as [Hy Hfy]. apply existsb_exists. exists y. by rewrite Hfy, Hg.
Qed.

(** ** Roles by rank *)

(** The roles and base permissions a query accepts are those of at least a rank. *)
Definition at_least (t : Z) (bases : list BasePermission) (roles : list RepositoryRole) : Prop :=
  (forall role, one_of roles role = (t <=? rank role)) /\
  (forall base, one_of bases base = (t <=? rank (base_role base))).

Lemma rank_cases (P : RepositoryRole -> Z -> Prop) role :
  P "read" 1 -> P "triage" 2 -> P "write" 3 -> P "maintain" 4 -> P "admin" 5 ->
  (role ∉ repository_roles -> P role 0) -> P role (rank role).
Proof.
  intros H1 H2 H3 H4 H5 H0. destruct (decide (role ∈ repository_roles)) as [Hin | Hout].
  - unfold repository_roles in Hin. set_unfold. destruct_or!; subst; done.
  - replace (rank role) with 0; [by apply H0 |]. unfold rank.
    destruct (repositoryRoleRank !! role) as [z |] eqn:Hz; [| done]. apply elem_of_list_to_map_2 in Hz.
    unfold repository_roles in Hout. set_unfold. destruct_or!; simplify_eq; tauto.
Qed.

Lemma base_role_cases (P : BasePermission -> RepositoryRole -> Prop) base :
  P "read" RepositoryRoleRead -> P "write" RepositoryRoleWrite ->
  (base ∉ ["read"; "write"] -> P base RepositoryRoleNone) -> P base (base_role base).
Proof.
  intros H1 H2 H0. unfold base_role, BasePermissionRead, BasePermissionWrite.
  destruct (String.eqb_spec base "read") as [-> |]; [done |].
  destruct (String.eqb_spec base "write") as [-> |]; [done |]. apply H0. set_solver.
Qed.

(** What the four queries accept. *)
Ltac by_rank :=
  split; intros x;
  [ apply (rank_cases (fun role t => one_of _ role = (_ <=? t))); try reflexivity;
    intros Hout; apply bool_decide_eq_false_2; unfold repository_roles in Hout; set_solver
  | apply (base_role_cases (fun base role => one_of _ base = (_ <=? rank role))); try reflexivity;
    intros Hout; apply bool_decide_eq_false_2; set_solver ].

Lemma at_least_read : at_least 1 [BasePermissionRead; BasePermissionWrite] repository_roles.
Proof. by_rank. Qed.
Lemma at_least_triage : at_least 2 [BasePermissionWrite]
  [RepositoryRoleTriage; RepositoryRoleWrite; RepositoryRoleMaintain; RepositoryRoleAdmin].
Proof. by_rank. Qed.
Lemma at_least_write : at_least 3 [BasePermissionWrite]
  [RepositoryRoleWrite; RepositoryRoleMaintain; RepositoryRoleAdmin].
Proof. by_rank. Qed.
Lemma at_least_admin : at_least 5 [] [RepositoryRoleAdmin].
Proof. by_rank. Qed.

(** ** The queries and the rule *)

Section agree.
Context (s : db) (row : store.RepositoryRow) (did : string).
Hypothesis unique : keys_unique s.

Lemma membership_find test :
  membership s row did test = match member_of s row did with Some m => test m | None => false end.
Proof.
  unfold membership, member_of. destruct (repository.OrganizationID _) as [org |]; [| done].
  apply existsb_unique with (key := fun m => (M_OrganizationID m, AccountDID m)); [apply unique |].
  intros x y [Hx%Z.eqb_eq Hx'%String.eqb_eq]%andb_true_iff [Hy%Z.eqb_eq Hy'%String.eqb_eq]%andb_true_iff.
  congruence.
Qed.

Lemma based_rank t bases roles :
  0 < t -> at_least t bases roles -> based s row bases = (t <=? rank (base_role (base_of s row))).
Proof.
  intros Ht [_ Hb]. unfold based, base_of. destruct (repository.OrganizationID _) as [org |].
  - rewrite existsb_unique with (key := fun o => ID (row_organization o)); [| apply unique |].
    + destruct (List.find _ _); [apply Hb |]. symmetry. apply Z.leb_gt. done.
    + intros x y Hx%Z.eqb_eq Hy%Z.eqb_eq. congruence.
  - symmetry. apply Z.leb_gt. done.
Qed.

Lemma collaborates_rank t bases roles :
  0 < t -> at_least t bases roles ->
  collaborates s (repository_id row) did roles = (t <=? rank (direct_role s row did)).
Proof.
  intros Ht [Hr _]. unfold collaborates, direct_role.
  rewrite existsb_unique with (key := fun c => (RC_RepositoryID c, RC_AccountDID c)); [| apply unique |].
  - destruct (List.find _ _); [apply Hr |]. symmetry. by apply Z.leb_gt.
  - intros x y [Hx%Z.eqb_eq Hx'%String.eqb_eq]%andb_true_iff [Hy%Z.eqb_eq Hy'%String.eqb_eq]%andb_true_iff.
    congruence.
Qed.

Lemma team_grants_rank t bases roles :
  0 < t -> at_least t bases roles ->
  team_grants any_team s (repository_id row) did roles = (t <=? strongest (team_roles s row did)).
Proof.
  intros Ht [Hr _]. apply eq_true_iff_eq. rewrite Z.leb_le, strongest_reaches by done.
  unfold team_grants, team_roles. rewrite existsb_exists. split.
  - intros (r & Hin%list_elem_of_In & [Hg Ho]%andb_true_iff). exists (TR_Role r).
    rewrite Hr in Ho. apply Z.leb_le in Ho. split; [| done].
    apply list_elem_of_fmap_2, filter_elem. done.
  - intros (role & (r & -> & [Hin Hg]%filter_elem)%list_elem_of_fmap & Hle).
    exists r. split; [by apply list_elem_of_In |]. rewrite Hg, Hr. by apply Z.leb_le.
Qed.

Lemma permits_rank t bases roles :
  0 < t <= 5 -> at_least t bases roles ->
  permits s did bases roles row = (t <=? rank (effective_role s row did)).
Proof.
  intros Ht Hal. unfold permits, effective_role. fold (repository_id row).
  destruct (own_account row did); cbn [orb].
  { symmetry. apply Z.leb_le. change (rank RepositoryRoleAdmin) with 5. lia. }
  rewrite !membership_find, (based_rank t bases roles), (team_grants_rank t bases roles),
    (collaborates_rank t bases roles) by (done || lia).
  destruct (member_of s row did) as [m |];
    rewrite (proj2 (EffectiveRepositoryRole_rank _ _ _ _)); unfold contributions.
  - destruct (Member_Role m == RoleOwner); cbn [app orb].
    + rewrite strongest_cons. change (rank RepositoryRoleAdmin) with 5. symmetry. apply Z.leb_le. lia.
    + rewrite !strongest_cons. lia.
  - change (EmptyString == RoleOwner) with false. cbn [app orb andb]. rewrite !strongest_cons.
    change (rank (base_role BasePermissionNone)) with 0. lia.
Qed.

Lemma find_repository_row id test :
  row ∈ repositories s -> store.present row = true -> id = repository_id row ->
  find_repository s id test = test row.
Proof.
  intros Hin Hp ->. unfold find_repository.
  apply eq_true_iff_eq. rewrite existsb_exists. split.
  - intros (r & Hr%list_elem_of_In & [[Hid%Z.eqb_eq _]%andb_true_iff Ht]%andb_true_iff).
    by rewrite (NoDup_map_inj repository_id (repositories s) row r (proj1 (proj2 (proj2 (proj2 unique)))) Hin Hr (eq_sym Hid)).
  - intros Ht. exists row. split; [by apply list_elem_of_In |].
    unfold store.has_id. by rewrite Ht, Hp, Z.eqb_refl.
Qed.
End agree.


(** ** The lineage of teams *)

Section lineage.
Context (keep : TeamRow -> bool) (ts : list TeamRow).
Hypothesis team_ids : NoDup (map (fun r => Team_ID (row_team r)) ts).

(** [p] is the parent of [c], and a team the query keeps. *)
Definition parent_of (c p : UUID) : Prop :=
  exists rc rp, rc ∈ ts /\ rp ∈ ts /\ Team_ID (row_team rc) = c /\ Team_ID (row_team rp) = p /\
    ParentTeamID (row_team rc) = Some p /\ team_present rp = true /\ keep rp = true.

Lemma parents_elem ids p : p ∈ parents keep ts ids <-> exists c, c ∈ ids /\ parent_of c p.
Proof.
  unfold parents. rewrite list_elem_of_fmap. split.
  - intros (rp & -> & [Hrp [[Hp Hk]%andb_true_iff He]%andb_true_iff]%filter_elem).
    apply existsb_exists in He as (rc & Hrc%list_elem_of_In & [Hc Hs]%andb_true_iff).
    apply bool_decide_eq_true in Hc. exists (Team_ID (row_team rc)). split; [done |].
    exists rc, rp. split_and!; try done. unfold same_id in Hs.
    destruct (ParentTeamID (row_team rc)); [by apply Z.eqb_eq in Hs as -> | done].
  - intros (c & Hc & rc & rp & Hrc & Hrp & <- & <- & Hpar & Hp & Hk). exists rp. split; [done |].
    apply filter_elem. split; [done |]. rewrite Hp, Hk. apply existsb_exists. exists rc.
    split; [by apply list_elem_of_In |]. rewrite bool_decide_eq_true_2 by done. unfold same_id.
    by rewrite Hpar, Z.eqb_refl.
Qed.

Lemma grow_elem ids p :
  p ∈ grow keep ts ids <-> p ∈ ids \/ exists c, c ∈ ids /\ parent_of c p.
Proof.
  unfold grow. rewrite elem_of_app, filter_elem, parents_elem, negb_true_iff, bool_decide_eq_false.
  destruct (decide (p ∈ ids)); naive_solver.
Qed.

Lemma grow_NoDup ids : NoDup ids -> NoDup (grow keep ts ids).
Proof.
  intros Hnd. unfold grow. apply NoDup_app. split_and!; [done | |].
  - intros x Hx [_ Hn]%filter_elem. apply negb_true_iff, bool_decide_eq_false in Hn. done.
  - apply NoDup_ListNoDup, List.NoDup_filter, NoDup_ListNoDup. unfold parents. by apply NoDup_map_filter.
Qed.

Definition closed (ids : list UUID) : Prop := forall c p, c ∈ ids -> parent_of c p -> p ∈ ids.

Lemma grow_closed ids : closed ids -> forall n, Nat.iter n (grow keep ts) ids = ids.
Proof.
  intros Hc n. induction n as [| n IH]; [done |]. rewrite Nat.iter_succ, IH. unfold grow.
  destruct (List.filter _ _) as [| p added] eqn:Hf; [by rewrite app_nil_r |].
  assert (Hp : p ∈ p :: added) by by left. rewrite <- Hf in Hp.
  apply filter_elem in Hp as [(c & Hin & Hcp)%parents_elem Hn].
  apply negb_true_iff, bool_decide_eq_false in Hn. destruct Hn. by eapply Hc.
Qed.

Definition known (ids : list UUID) : Prop := ids ⊆ map (fun r => Team_ID (row_team r)) ts.

Lemma grow_known ids : known ids -> known (grow keep ts ids).
Proof.
  intros Hk p [Hp | (c & _ & rc & rp & _ & Hrp & _ & <- & _)]%grow_elem; [by apply Hk |].
  by apply (list_elem_of_fmap_2 (fun r => Team_ID (row_team r))).
Qed.

(** A step that reaches no fixed point adds a team. *)
Lemma grow_longer ids : closed ids \/ (length ids < length (grow keep ts ids))%nat.
Proof.
  unfold grow. destruct (List.filter _ _) as [| p added] eqn:Hf.
  - left. intros c p Hc Hp. destruct (decide (p ∈ ids)) as [| Hn]; [done |].
    assert (Hin : p ∈ List.filter (fun id => negb (bool_decide (id ∈ ids))) (parents keep ts ids)).
    { apply filter_elem. split; [apply parents_elem; eauto |].
      by rewrite negb_true_iff, bool_decide_eq_false. }
    rewrite Hf in Hin. by apply elem_of_nil in Hin.
  - right. rewrite length_app. cbn. lia.
Qed.

Lemma iter_grow ids n :
  NoDup ids -> known ids -> ids <> [] ->
  let l := Nat.iter n (grow keep ts) ids in
  NoDup l /\ known l /\ (closed l \/ (n < length l)%nat).
Proof.
  intros Hnd Hk Hne. induction n as [| n (IHn & IHk & IHc)]; cbn zeta in *.
  - split_and!; [done | done |]. right. destruct ids; [done | cbn; lia].
  - rewrite Nat.iter_succ. set (l := Nat.iter n (grow keep ts) ids) in *. split_and!; [by apply grow_NoDup | by apply grow_known |].
    destruct IHc as [Hc | Hn].
    + left. by rewrite (grow_closed l Hc 1 : grow keep ts l = l).
    + destruct (grow_longer l) as [Hc | Hlt]; [| right; lia].
      left. by rewrite (grow_closed l Hc 1 : grow keep ts l = l).
Qed.

Lemma iter_grow_closed ids :
  NoDup ids -> known ids -> closed (Nat.iter (length ts) (grow keep ts) ids).
Proof.
  intros Hnd Hk. destruct (decide (ids = [])) as [-> | Hne].
  { rewrite grow_closed; by intros c p ?%elem_of_nil. }
  destruct (iter_grow ids (length ts) Hnd Hk Hne) as (Hn & Hk' & [Hc | Hlt]); [done |].
  apply NoDup_submseteq, submseteq_length in Hk'; [| done]. rewrite length_map in Hk'. lia.
Qed.

(** Exactly the teams at or above the given ones. *)
Lemma iter_grow_iff ids p :
  NoDup ids -> known ids ->
  p ∈ Nat.iter (length ts) (grow keep ts) ids <-> exists c, c ∈ ids /\ rtc parent_of c p.
Proof.
  intros Hnd Hk. split.
  - generalize (length ts). intros n. revert p. induction n as [| n IH]; intros p.
    + intros Hp. exists p. split; [done | apply rtc_refl].
    + rewrite Nat.iter_succ. intros [Hp%IH | (c & (c0 & Hc0 & Hr)%IH & Hcp)]%grow_elem; [done |].
      exists c0. split; [done | by eapply rtc_r].
  - intros (c & Hc & Hr). assert (Hin : c ∈ Nat.iter (length ts) (grow keep ts) ids).
    { clear Hr. generalize (length ts). intros n. induction n as [| n IH]; [done |].
      rewrite Nat.iter_succ. apply grow_elem. by left. }
    clear Hc. induction Hr as [c | c d p Hcd _ IH]; [done |]. apply IH.
    by eapply iter_grow_closed.
Qed.
End lineage.

(** The account is a member of a team, and the team is one or more levels below
    [team] or is [team] itself. *)
Definition belongs_to (s : db) (did : string) (team : UUID) : Prop :=
  exists own m, own ∈ teams s /\ team_present own = true /\ m ∈ teamMembers s /\
    is_team_member (Team_ID (row_team own)) did m = true /\
    rtc (parent_of any_team (teams s)) (Team_ID (row_team own)) team.

Lemma own_teams_elem s did id :
  id ∈ own_teams any_team s did <->
  exists own m, own ∈ teams s /\ team_present own = true /\ m ∈ teamMembers s /\
    is_team_member (Team_ID (row_team own)) did m = true /\ Team_ID (row_team own) = id.
Proof.
  unfold own_teams. rewrite list_elem_of_fmap. split.
  - intros (own & -> & [Hin [[Hp _]%andb_true_iff (m & Hm%list_elem_of_In & Ht)%existsb_exists]%andb_true_iff]%filter_elem).
    by exists own, m.
  - intros (own & m & Hin & Hp & Hm & Ht & <-). exists own. split; [done |]. apply filter_elem.
    split; [done |]. rewrite Hp. cbn. apply existsb_exists. exists m. split; [by apply list_elem_of_In | done].
Qed.

Lemma team_lineage_iff s did team :
  NoDup (map (fun r => Team_ID (row_team r)) (teams s)) ->
  team ∈ team_lineage any_team s did <-> belongs_to s did team.
Proof.
  intros Hnd. unfold team_lineage. rewrite iter_grow_iff; [| done | |].
  - unfold belongs_to. setoid_rewrite own_teams_elem. naive_solver.
  - by apply NoDup_map_filter.
  - intros id (own & m & Hin & _ & _ & _ & <-)%own_teams_elem.
    by apply (list_elem_of_fmap_2 (fun r => Team_ID (row_team r))).
Qed.

Lemma team_roles_iff s row did role :
  keys_unique s ->
  role ∈ team_roles s row did <->
  exists r, r ∈ teamRepositories s /\ TR_Role r = role /\ TR_RepositoryID r = repository_id row /\
    belongs_to s did (TR_TeamID r).
Proof.
  intros (_ & _ & _ & _ & Hnd). unfold team_roles. rewrite list_elem_of_fmap.
  setoid_rewrite filter_elem. setoid_rewrite andb_true_iff. setoid_rewrite bool_decide_eq_true.
  setoid_rewrite Z.eqb_eq. setoid_rewrite (team_lineage_iff s did _ Hnd). naive_solver.
Qed.

(** C5: For every repository that is not deleted the permission queries give what the
    rule gives: a person may administer, write, triage or read it exactly if the
    strongest of what they were given - ownership, the base permission as a
    member, a direct assignment, and the assignments of their teams and of the
    teams above those - is at least admin, write, triage or read; and everyone may
    read a public one. *)
Theorem permissions_follow_rule (s : db) (row : store.RepositoryRow) (did : string) :
  keys_unique s -> row ∈ repositories s -> store.present row = true ->
  let id := repository.ID (store.row_repository row) in
  let role := rank (effective_role s row did) in
  canAdminRepository s id did = (rank RepositoryRoleAdmin <=? role) /\
  canWriteRepository s id did = (rank RepositoryRoleWrite <=? role) /\
  canTriageRepository s id did = (rank RepositoryRoleTriage <=? role) /\
  canReadRepository s id did =
    (repository.Repository_Visibility (store.row_repository row) == repository.VisibilityPublic)
    || (rank RepositoryRoleRead <=? role) /\
  forall given, given ∈ team_roles s row did <->
    exists r, r ∈ teamRepositories s /\ TR_Role r = given /\ TR_RepositoryID r = id /\
      belongs_to s did (TR_TeamID r).
Proof.
  intros Hu Hin Hp. cbn zeta.
  unfold canAdminRepository, canWriteRepository, canTriageRepository, canReadRepository.
  split_and!; try (rewrite (find_repository_row s row) by done).
  - by apply permits_rank, at_least_admin.
  - by apply permits_rank, at_least_write.
  - by apply permits_rank, at_least_triage.
  - f_equal. by apply permits_rank, at_least_read.
  - intros given. by apply team_roles_iff.
Qed.

Module access_examples.
Import Demo.

#[export] Instance demo_url : GoURL := {|
  url := string; ParseRequestURI raw := if HasPrefix raw "https://" then Some raw else None;
  Scheme _ := "https"; Host raw := raw; HasUser _ := false
|}.

Definition identity : ATIdentity := mkATIdentity "at://did:plc:alice/r/1" "bafy1".
(** Publications succeed. *)
Definition world X (e : effect X) : X :=
  match e in effect X return X with
  | PublishOrganization _ | PublishOrganizationGrant _ | PublishOrganizationMembership _
  | PublishOrganizationRevocation _ => Ok identity
  | DeleteOrganizationMembership _ _ _ => Ok tt
  | Now | uuid_New => 0
  | _ => Err ErrNotFound
  end.
Definition run_ {A} (p : prog effect A) (s : db) : A * db := exec (handle id id world) p s.

Definition alice : string := "did:plc:alice".
Definition bob : string := "did:plc:bob".
Definition carol : string := "did:plc:carol".
Definition acme : Organization :=
  mkOrganization 10 "acme" "Acme" EmptyString EmptyString EmptyString alice BasePermissionNone true StateActive
    "at://did:plc:alice/o/10" "bafy10" 0 0.
Definition member (did : string) (role : Role) : Member :=
  mkMember 10 did EmptyString role VisibilityPrivate alice EmptyString EmptyString EmptyString EmptyString 0 0.
Definition core : Team := mkTeam 20 10 None "core" "Core" EmptyString TeamVisibilityVisible false EmptyString 0 0.
Definition tools : repository.Repository :=
  repository.mkRepository 50 alice (Some 10) EmptyString "tools" EmptyString EmptyString repository.VisibilityPrivate
    repository.StateActive "main" "50" EmptyString EmptyString None None 0 false None 0 0.

(** An organization of two members, a team of one of them, and a private
    repository the team may write to. *)
Definition start : db :=
  mkDb (list_to_map [(alice, None); (bob, None); (carol, None)]) [mkOrganizationRow acme None]
    [member alice RoleOwner; member bob RoleMember] [] [mkTeamRow core None]
    [mkTeamMember 20 bob EmptyString TeamRoleMember 0 0]
    [mkTeamRepository 20 50 EmptyString RepositoryRoleWrite 0 0]
    [store.mkRepositoryRow tools None] [] [] [] 1000 hour.
Definition later (t : time) (s : db) : db :=
  mkDb (accounts s) (organizations s) (members s) (invitations s) (teams s) (teamMembers s)
    (teamRepositories s) (repositories s) (collaborators s) (routes s) (audits s) (fresh s)
    (clock s + t).

Lemma start_keys : keys_unique start.
Proof. unfold keys_unique. split_and!; by apply (bool_decide_unpack _); vm_compute. Qed.

Lemma permissions_follow_rule_witness :
  let row := store.mkRepositoryRow tools None in
  let id := repository.ID (store.row_repository row) in
  let role := rank (effective_role start row bob) in
  canAdminRepository start id bob = (rank RepositoryRoleAdmin <=? role) /\
  canWriteRepository start id bob = (rank RepositoryRoleWrite <=? role) /\
  canTriageRepository start id bob = (rank RepositoryRoleTriage <=? role) /\
  canReadRepository start id bob =
    (repository.Repository_Visibility (store.row_repository row) == repository.VisibilityPublic)
    || (rank RepositoryRoleRead <=? role) /\
  forall given, given ∈ team_roles start row bob <->
    exists r, r ∈ teamRepositories start /\ TR_Role r = given /\ TR_RepositoryID r = id /\
      belongs_to start bob (TR_TeamID r).
Proof.
  apply (permissions_follow_rule start (store.mkRepositoryRow tools None) bob).
  - apply start_keys.
  - left.
  - reflexivity.
Defined.

Example through_the_team :
  (canWriteRepository start 50 bob, canAdminRepository start 50 bob, canReadRepository start 50 carol,
   canAdminRepository start 50 alice) = (true, false, false, true).
Proof. vm_compute. reflexivity. Qed.

(** Removing a member leaves their rows in the organization's teams, and the
    permission queries do not ask for membership: who was removed keeps the access
    of their teams, though they are no longer a member. *)
Example removed_member_keeps_access :
  let '(r, s) := run_ (Remove EmptyString 10 alice bob) start in
  (r, is_Ok (find_row ErrNotFound (is_member 10 bob) (members s)), canWriteRepository s 50 bob)
  = (Ok tt, false, true).
Proof. vm_compute. reflexivity. Qed.

(** An invitation that expired is no longer active, so it cannot be revoked, and is
    still the pending one of its invitee, who cannot be invited again. *)
Definition invite : InviteInput := mkInviteInput 10 alice carol RoleMember.
Definition expired : db := later (8 * 24 * hour) (snd (run_ (Invite EmptyString invite) start)).
Example expired_invitation_stays :
  fst (run_ (Invite EmptyString invite) expired)
    = Err (Errorf "create organization invitation: %w" [W ErrAlreadyExists]) /\
  fst (run_ (RevokeInvitation EmptyString 10 1000 alice) expired) = Err ErrInvitation /\
  fst (run_ (Accept EmptyString 1000 carol) expired) = Err ErrInvitation.
Proof. split_and!; vm_compute; reflexivity. Qed.
End access_examples.
End access.
