(* ===== verification/OrganizationHistory.v ===== *)
(** * OrganizationHistory: what stays true of organizations, members and
    invitations, whatever requests are made and however they interleave. *)

From S2P Require Import Prelude.
From S2P Require Import GoText.
From S2P Require Import Syntax.
From S2P Require Import CommitStatus.
From S2P Require Import Organization.
From S2P Require Import OrganizationStore.
From S2P Require Import Access.

Module orghistory.
Import organization orgstore.

Definition member_key (m : Member) : UUID * string := (M_OrganizationID m, AccountDID m).
Definition org_id (r : OrganizationRow) : UUID := ID (row_organization r).

Lemma is_member_key org did m : is_member org did m = true <-> member_key m = (org, did).
Proof. unfold is_member, member_key. rewrite andb_true_iff, Z.eqb_eq, String.eqb_eq. split; [intros [-> ->] | intros [= -> ->]]; done. Qed.

(** Somebody founded the organization, or accepted an invitation of it in time. *)
Definition founded (s : db) (m : Member) : Prop :=
  exists r, r ∈ organizations s /\ org_id r = M_OrganizationID m /\
    CreatorDID (row_organization r) = AccountDID m.
Definition invited (s : db) (m : Member) : Prop :=
  exists i, i ∈ invitations s /\ I_OrganizationID i = M_OrganizationID m /\
    InviteeDID i = AccountDID m /\ AcceptedAt i <> None.

Definition invitation_ok (i : Invitation) : Prop :=
  forall t, AcceptedAt i = Some t -> t < ExpiresAt i /\ RevokedAt i = None.

Record invariant (s : db) : Prop := {
  members_unique : NoDup (map member_key (members s));
  organizations_unique : NoDup (map org_id (organizations s));
  invitations_unique : NoDup (map I_ID (invitations s));
  owned r : r ∈ organizations s -> exists m, m ∈ members s /\ owner_row (org_id r) m = true;
  consented m : m ∈ members s -> founded s m \/ invited s m;
  pending_once i j : i ∈ invitations s -> j ∈ invitations s -> is_pending i = true ->
    is_pending j = true -> I_OrganizationID i = I_OrganizationID j -> InviteeDID i = InviteeDID j ->
    I_ID i = I_ID j;
  invitations_ok : Forall invitation_ok (invitations s)
}.

(** What no request changes of an organization and of an invitation: once it was
    accepted or revoked it stays so. *)
Definition organization_after (r r' : OrganizationRow) : Prop :=
  org_id r' = org_id r /\ CreatorDID (row_organization r') = CreatorDID (row_organization r) /\
  Slug (row_organization r') = Slug (row_organization r).
Definition invitation_after (i i' : Invitation) : Prop :=
  I_ID i' = I_ID i /\ I_OrganizationID i' = I_OrganizationID i /\ InviteeDID i' = InviteeDID i /\
  I_Role i' = I_Role i /\ ExpiresAt i' = ExpiresAt i /\ (is_pending i = false -> i' = i).
Definition rows_after {R} (after : R -> R -> Prop) (rows rows' : list R) : Prop :=
  forall r, r ∈ rows -> exists r', r' ∈ rows' /\ after r r'.
Definition evolves (s s' : db) : Prop :=
  rows_after organization_after (organizations s) (organizations s') /\
  rows_after invitation_after (invitations s) (invitations s').

#[export] Instance organization_after_preorder : PreOrder organization_after.
Proof.
  split; [by intros r |]. intros x y z (? & ? & ?) (? & ? & ?). unfold organization_after.
  split_and!; congruence.
Qed.
#[export] Instance invitation_after_preorder : PreOrder invitation_after.
Proof.
  split; [by intros i |]. intros x y z (? & ? & ? & ? & ? & Hxy) (? & ? & ? & ? & ? & Hyz).
  unfold invitation_after. split_and!; try congruence. intros Hp. rewrite Hyz; [by apply Hxy |].
  by rewrite (Hxy Hp).
Qed.
#[export] Instance rows_after_preorder {R} (after : R -> R -> Prop) `{!PreOrder after} :
  PreOrder (rows_after after).
Proof.
  split; [intros rows r Hr; by exists r |]. intros a b c Hab Hbc r (y & Hy & Hry)%Hab.
  apply Hbc in Hy as (z & Hz & Hyz). exists z. split; [done | by transitivity y].
Qed.
#[export] Instance evolves_preorder : PreOrder evolves.
Proof.
  split; [by intros s |]. intros a b c [Hab Hab'] [Hbc Hbc']. split; by etransitivity.
Qed.

Lemma rows_after_app {R} (after : R -> R -> Prop) `{!PreOrder after} rows more :
  rows_after after rows (rows ++ more).
Proof. intros r Hr. exists r. split; [set_solver | done]. Qed.
Lemma rows_after_update {R} (after : R -> R -> Prop) `{!PreOrder after} hit update rows :
  (forall r, r ∈ rows -> hit r = true -> after r (update r)) ->
  rows_after after rows (update_where hit update rows).
Proof.
  intros Hu r Hr. exists (if hit r then update r else r). split.
  - apply update_where_elem. by exists r.
  - destruct (hit r) eqn:Hh; [by apply Hu | done].
Qed.

(** ** Owners *)

Lemma owner_row_spec org m : owner_row org m = true <-> M_OrganizationID m = org /\ Member_Role m = RoleOwner.
Proof. unfold owner_row. by rewrite andb_true_iff, Z.eqb_eq, String.eqb_eq. Qed.

(** An owner who is not the last one leaves another. *)
Lemma other_owner s org did :
  NoDup (map member_key (members s)) -> (exists m, m ∈ members s /\ owner_row org m = true) ->
  is_last_owner s org did = false ->
  exists m, m ∈ members s /\ owner_row org m = true /\ AccountDID m <> did.
Proof.
  intros Hnd (m & Hm & Ho) Hl.
  destruct (decide (AccountDID m = did)) as [Hd |]; [| by exists m].
  assert (Hin : m ∈ List.filter (owner_row org) (members s)) by by apply filter_elem.
  assert (Hnd' : NoDup (map member_key (List.filter (owner_row org) (members s)))) by by apply NoDup_map_filter.
  unfold is_last_owner, owners_of in Hl.
  destruct (List.filter (owner_row org) (members s)) as [| a l] eqn:Hf; [by apply elem_of_nil in Hin |].
  assert (Hall : forall x, x ∈ a :: l -> x ∈ members s /\ owner_row org x = true).
  { intros x Hx. rewrite <- Hf in Hx. by apply filter_elem. }
  destruct (decide (AccountDID a = did)) as [Ha | Ha]; [| destruct (Hall a) as [? ?]; [by left | by exists a]].
  destruct l as [| b l].
  - cbn in Hl. rewrite Ha, String.eqb_refl in Hl. done.
  - exists b. destruct (Hall b) as [Hb Hbo]; [by right; left |]. split_and!; [done.. |].
    intros Hbd. destruct (Hall a) as [_ Hao]; [by left |].
    apply owner_row_spec in Hao as [Hao _]. apply owner_row_spec in Hbo as [Hbo _].
    cbn in Hnd'. apply NoDup_cons in Hnd' as [Hn _]. apply Hn. replace (member_key a) with (member_key b) by (unfold member_key; congruence). left.
Qed.

(** ** The operations *)

(** An update of a member's row that keeps an owner. *)
Lemma update_member_keeps s org did update r s' :
  invariant s -> update_member org did update s = (r, s') ->
  (forall m, member_key (update m) = member_key m) ->
  (is_last_owner s org did = false \/
   forall m, Member_Role m = RoleOwner -> Member_Role (update m) = RoleOwner) ->
  invariant s' /\ evolves s s'.
Proof.
  intros [Hmu Hou Hiu Hown Hcon Hpen Hok] Hup Hkey Hrole. unfold update_member in Hup.
  destruct (find_row _ _ _) as [m | e] eqn:Hf; [| injection Hup as _ <-; by repeat split].
  destruct (negb _); [injection Hup as _ <-; by repeat split |]. injection Hup as _ <-.
  apply find_row_Ok in Hf as [Hm Hk]. apply is_member_key in Hk.
  assert (Honly : forall x, x ∈ members s -> is_member org did x = true -> x = m).
  { intros x Hx Hk'%is_member_key. eapply NoDup_map_inj; [exact Hmu | done.. | congruence]. }
  assert (Hin : forall x, x ∈ members s -> x = m \/ x ∈ update_where (is_member org did) (fun _ => update m) (members s)).
  { intros x Hx. destruct (is_member org did x) eqn:Hxk; [left; by apply Honly |]. right.
    apply update_where_elem. exists x. by rewrite Hxk. }
  assert (Hin' : update m ∈ update_where (is_member org did) (fun _ => update m) (members s)).
  { apply update_where_elem. exists m. by rewrite (proj2 (is_member_key _ _ _) Hk). }
  split; [| by repeat split]. split; cbn [set_members organizations members invitations]; try done.
  - replace (map member_key _) with (map member_key (members s)); [done |].
    unfold update_where. rewrite map_map. apply map_ext_in. intros x Hx%list_elem_of_In.
    destruct (is_member org did x) eqn:Hxk; [| done]. by rewrite Hkey, (Honly x Hx Hxk).
  - intros o Ho. destruct (decide (org_id o = org)) as [Heq | Hne].
    + destruct Hrole as [Hlast | Hrole].
      * destruct (other_owner s org did Hmu) as (x & Hx & Hxo & Hxd); [rewrite <- Heq; by apply Hown | done |].
        destruct (Hin x Hx) as [-> | Hx']; [unfold member_key in Hk; congruence |].
        exists x. split; [done | by rewrite Heq].
      * destruct (Hown o Ho) as (x & Hx & Hxo). destruct (Hin x Hx) as [-> | Hx']; [| by exists x].
        exists (update m). split; [done |]. apply owner_row_spec in Hxo as [Hxo Hxr].
        apply owner_row_spec. split; [| by apply Hrole].
        pose proof (f_equal fst (Hkey m)) as Hk'. cbn in Hk'. congruence.
    + destruct (Hown o Ho) as (x & Hx & Hxo). destruct (Hin x Hx) as [-> | Hx']; [| by exists x].
      apply owner_row_spec in Hxo as [Hxo _]. unfold member_key in Hk. congruence.
  - intros x (y & Hy & ->)%update_where_elem. destruct (is_member org did y) eqn:Hyk; [| by apply Hcon].
    pose proof (Hkey m) as Hk'. injection Hk' as Hk1 Hk2.
    unfold founded, invited in *. cbn. rewrite Hk1, Hk2. by apply Hcon.
Qed.

Lemma remove_member_keeps s org did r s' :
  invariant s -> remove_member org did s = (r, s') -> invariant s' /\ evolves s s'.
Proof.
  intros [Hmu Hou Hiu Hown Hcon Hpen Hok]. unfold remove_member.
  destruct (is_last_owner s org did) eqn:Hl; [intros [= _ <-]; by repeat split |].
  destruct (find_row _ _ _) as [m | e] eqn:Hf; intros [= _ <-]; [| by repeat split].
  split; [| by repeat split]. split; cbn [set_members organizations members invitations]; try done.
  - by apply NoDup_map_filter.
  - intros o Ho. destruct (Hown o Ho) as (x & Hx & Hxo).
    destruct (decide (org_id o = org)) as [<- | Hne].
    + destruct (other_owner s (org_id o) did Hmu (Hown o Ho) Hl) as (y & Hy & Hyo & Hyd).
      exists y. split; [| done]. apply filter_elem. split; [done |]. apply negb_true_iff.
      unfold is_member. apply andb_false_iff. right. by apply String.eqb_neq.
    + exists x. split; [| done]. apply filter_elem. split; [done |]. apply negb_true_iff.
      apply owner_row_spec in Hxo as [Hxo _]. unfold is_member. apply andb_false_iff. left.
      apply Z.eqb_neq. congruence.
  - intros x [Hx _]%filter_elem. by apply Hcon.
Qed.

Lemma create_keeps lower v s r s' :
  invariant s -> create lower v s = (r, s') -> invariant s' /\ evolves s s'.
Proof.
  intros [Hmu Hou Hiu Hown Hcon Hpen Hok]. unfold create.
  destruct (negb (organization_checks _)); [intros [= _ <-]; by repeat split |].
  destruct (existsb _ (organizations s)) eqn:Ho; [intros [= _ <-]; by repeat split |].
  destruct (negb (route_checks _)); [intros [= _ <-]; by repeat split |].
  destruct (existsb _ (routes s)); [intros [= _ <-]; by repeat split |].
  destruct (existsb _ (members s)) eqn:Hm; [intros [= _ <-]; by repeat split |]. intros [= _ <-].
  split; [split |]; cbn [set_organizations organizations members invitations]; try done.
  - rewrite map_app. apply NoDup_app. split_and!; [done | | apply NoDup_singleton].
    intros k (x & -> & Hx)%list_elem_of_fmap Hk%list_elem_of_singleton.
    rewrite existsb_false, Forall_forall in Hm. specialize (Hm x Hx).
    change (is_member (ID v) (CreatorDID v) x = false) in Hm.
    by rewrite (proj2 (is_member_key (ID v) (CreatorDID v) x) Hk) in Hm.
  - rewrite map_app. apply NoDup_app. split_and!; [done | | apply NoDup_singleton].
    intros k (x & -> & Hx)%list_elem_of_fmap Hk%list_elem_of_singleton.
    rewrite existsb_false, Forall_forall in Ho. specialize (Ho x Hx). apply orb_false_iff in Ho as [Ho _].
    by apply Z.eqb_neq in Ho.
  - intros o [Hin | ->%list_elem_of_singleton]%elem_of_app.
    + destruct (Hown o Hin) as (x & Hx & Hxo). exists x. split; [set_solver | done].
    + exists (ownerRow v). split; [apply elem_of_snoc |]. by apply owner_row_spec.
  - intros x [Hx | ->%list_elem_of_singleton]%elem_of_app.
    + destruct (Hcon x Hx) as [(o & Ho' & ?) | Hi]; [left; exists o; split; [set_solver | done] | by right].
    + left. exists (mkOrganizationRow (insertedOrganization v) None). split; [apply elem_of_snoc | done].
  - split; [by apply (rows_after_app organization_after) | done].
Qed.

Lemma update_organization_keeps s id guard update r s' :
  invariant s -> update_organization id guard update s = (r, s') ->
  (forall v, ID (update v) = ID v /\ CreatorDID (update v) = CreatorDID v /\ Slug (update v) = Slug v) ->
  invariant s' /\ evolves s s'.
Proof.
  intros [Hmu Hou Hiu Hown Hcon Hpen Hok] Hup Hkeep. unfold update_organization in Hup.
  destruct (find_row _ _ _) as [o | e] eqn:Hf; [| injection Hup as _ <-; by repeat split].
  destruct (negb _); [injection Hup as _ <-; by repeat split |].
  destruct (_ && _); [injection Hup as _ <-; by repeat split |]. injection Hup as _ <-.
  apply find_row_Ok in Hf as [Ho [Hid%Z.eqb_eq _]%andb_true_iff].
  destruct (Hkeep (row_organization o)) as (Hk1 & Hk2 & Hk3).
  set (rows := update_where _ _ (organizations s)).
  assert (Hafter : forall x, x ∈ organizations s -> has_org id x = true ->
            organization_after x (mkOrganizationRow (update (row_organization o)) (organization_DeletedAt x))).
  { intros x Hx Hxid%Z.eqb_eq. assert (x = o) as ->.
    { eapply NoDup_map_inj; [exact Hou | done.. | unfold org_id; congruence]. }
    done. }
  assert (Hids : map org_id rows = map org_id (organizations s)).
  { unfold rows, update_where. rewrite map_map. apply map_ext_in. intros x Hx%list_elem_of_In.
    destruct (has_org id x) eqn:Hxid; [by apply Hafter | done]. }
  assert (Hev : rows_after organization_after (organizations s) rows) by by apply (rows_after_update organization_after).
  split; [split |]; cbn [set_organizations organizations members invitations]; try done.
  - by rewrite Hids.
  - intros x' Hx'. assert (Hin : org_id x' ∈ map org_id rows) by by apply list_elem_of_fmap_2.
    rewrite Hids in Hin. apply list_elem_of_fmap in Hin as (x & Hxe & Hx). rewrite Hxe. by apply Hown.
  - intros m Hm. destruct (Hcon m Hm) as [(x & Hx & Hxo & Hxc) | Hi]; [left | by right].
    destruct (Hev x Hx) as (x' & Hx' & He & Hc & _). exists x'. unfold founded. cbn. split_and!; congruence.
Qed.

(** ** Invitations *)

Lemma create_invitation_keeps i s r s' :
  invariant s -> create_invitation i s = (r, s') -> invariant s' /\ evolves s s'.
Proof.
  intros [Hmu Hou Hiu Hown Hcon Hpen Hok]. unfold create_invitation.
  destruct (negb _); [intros [= _ <-]; by repeat split |].
  destruct (existsb _ _) eqn:He; intros [= _ <-]; [by repeat split |].
  rewrite existsb_false, Forall_forall in He.
  assert (Hnew : forall j, j ∈ invitations s -> I_ID j <> I_ID i /\
            (is_pending j = true -> I_OrganizationID j = I_OrganizationID i ->
             InviteeDID j <> InviteeDID i)).
  { intros j Hj. specialize (He j Hj). apply orb_false_iff in He as [Hid Hp].
    split; [by apply Z.eqb_neq |]. intros Hpj Ho Hd.
    rewrite Hpj, Ho, Hd, Z.eqb_refl, String.eqb_refl in Hp. done. }
  split; [split |]; cbn [set_members organizations members invitations]; try done.
  - rewrite map_app. apply NoDup_app. split_and!; [done | | apply NoDup_singleton].
    intros k (j & -> & Hj)%list_elem_of_fmap Hk%list_elem_of_singleton. by apply (proj1 (Hnew j Hj)).
  - intros m Hm. destruct (Hcon m Hm) as [Hf | (j & Hj & ?)]; [by left | right].
    exists j. split; [set_solver | done].
  - intros a b [Ha | ->%list_elem_of_singleton]%elem_of_app
      [Hb | ->%list_elem_of_singleton]%elem_of_app Hpa Hpb Ho Hd; [by apply Hpen | | | done].
    + by destruct (proj2 (Hnew a Ha) Hpa Ho).
    + by destruct (proj2 (Hnew b Hb) Hpb (eq_sym Ho)).
  - apply Forall_app. split; [done |]. apply Forall_singleton. by intros t.
  - split; [done |]. by apply (rows_after_app invitation_after).
Qed.

(** Settling a pending invitation, one way or the other. *)
Lemma settle_keeps (i : Invitation) (update : Invitation -> Invitation) (ms : list Member) s :
  invariant s -> i ∈ invitations s -> is_pending i = true ->
  (forall j, j ∈ invitations s -> has_invitation (I_ID i) j = true ->
     invitation_after j (update j) /\ invitation_ok (update j) /\ is_pending (update j) = false) ->
  NoDup (map member_key ms) -> (forall m, m ∈ members s -> m ∈ ms) ->
  (forall m, m ∈ ms -> m ∈ members s \/
     M_OrganizationID m = I_OrganizationID i /\ AccountDID m = InviteeDID i /\
     AcceptedAt (update i) <> None) ->
  let s' := set_members s ms (update_where (has_invitation (I_ID i)) update (invitations s)) in
  invariant s' /\ evolves s s'.
Proof.
  intros [Hmu Hou Hiu Hown Hcon Hpen Hok] Hi Hp Hu Hnd Hold Hnew. cbn zeta.
  assert (Hev : rows_after invitation_after (invitations s)
            (update_where (has_invitation (I_ID i)) update (invitations s))).
  { apply (rows_after_update invitation_after). intros j Hj Hh. by apply Hu. }
  assert (Hback : forall x, x ∈ update_where (has_invitation (I_ID i)) update (invitations s) ->
            exists j, j ∈ invitations s /\ I_ID x = I_ID j /\ (is_pending x = true -> x = j) /\
              (invitation_ok x)).
  { intros x (j & Hj & ->)%update_where_elem. exists j. split; [done |].
    rewrite Forall_forall in Hok. destruct (has_invitation (I_ID i) j) eqn:Hh; [| by split_and!; auto].
    destruct (Hu j Hj Hh) as ((Hid & _) & Hok' & Hpu). split_and!; [done | by rewrite Hpu | done]. }
  split; [split |]; cbn [set_members organizations members invitations]; try done.
  - replace (map I_ID _) with (map I_ID (invitations s)); [done |].
    unfold update_where. rewrite map_map. apply map_ext_in. intros j Hj%list_elem_of_In.
    destruct (has_invitation (I_ID i) j) eqn:Hh; [| done]. by destruct (Hu j Hj Hh) as [[-> _] _].
  - intros o Ho. destruct (Hown o Ho) as (m & Hm & Hmo). exists m. split; [by apply Hold | done].
  - intros m Hm. destruct (Hnew m Hm) as [Hm' | (Ho & Hd & Ha)].
    + destruct (Hcon m Hm') as [Hf | (j & Hj & Hjo & Hjd & Hja)]; [by left | right].
      destruct (Hev j Hj) as (j' & Hj' & (_ & He1 & He2 & _ & _ & He3)). exists j'.
      split_and!; [done | congruence | congruence |]. rewrite He3; [done |].
      unfold is_pending. by destruct (AcceptedAt j).
    + right. exists (update i). split_and!; [| | | done].
      * apply update_where_elem. exists i. unfold has_invitation. by rewrite Z.eqb_refl.
      * destruct (Hu i Hi) as [(_ & -> & _) _]; [apply Z.eqb_refl | done].
      * destruct (Hu i Hi) as [(_ & _ & -> & _) _]; [apply Z.eqb_refl | done].
  - intros a b Ha Hb Hpa Hpb. destruct (Hback a Ha) as (a' & Ha' & _ & ->%(fun H => H Hpa) & _).
    destruct (Hback b Hb) as (b' & Hb' & _ & ->%(fun H => H Hpb) & _). by apply Hpen.
  - apply Forall_forall. intros x Hx. by destruct (Hback x Hx) as (j & _ & _ & _ & ?).
Qed.

Lemma invitation_by_id s id i j :
  invariant s -> i ∈ invitations s -> j ∈ invitations s -> has_invitation id i = true ->
  has_invitation (I_ID i) j = true -> j = i.
Proof.
  intros Hs Hi Hj _ Hh%Z.eqb_eq. by eapply NoDup_map_inj; [apply Hs | ..].
Qed.

Lemma revoke_invitation_keeps id now s r s' :
  invariant s -> revoke_invitation id now s = (r, s') -> invariant s' /\ evolves s s'.
Proof.
  intros Hs. unfold revoke_invitation.
  destruct (find_row _ _ _) as [i | e] eqn:Hf; intros [= _ <-]; [| done].
  apply find_row_Ok in Hf as [Hi [Hid Hp]%andb_true_iff]. pose proof Hid as <-%Z.eqb_eq.
  apply settle_keeps; try done; [| apply Hs | by left].
  intros j Hj Hh. rewrite (invitation_by_id s (I_ID i) i j Hs Hi Hj Hid Hh).
  unfold is_pending in *. apply andb_true_iff in Hp as [Ha Hr]. split_and!.
  - unfold invitation_after, is_pending. cbn. split_and!; try done. by rewrite Ha, Hr.
  - intros t. cbn. by destruct (AcceptedAt i).
  - cbn. by rewrite andb_false_r.
Qed.

Lemma accept_invitation_keeps id did membership now s r s' :
  invariant s -> accept_invitation id did membership now s = (r, s') ->
  invariant s' /\ evolves s s'.
Proof.
  intros Hs. unfold accept_invitation.
  destruct (find_row _ _ _) as [i | e] eqn:Hf; [| by intros [= _ <-]].
  destruct ((InviteeDID i != did) || negb (Active i now)) eqn:Ha; [by intros [= _ <-] |].
  cbn zeta. destruct (negb (member_checks _)); [by intros [= _ <-] |].
  destruct (existsb _ (members s)) eqn:Hm; [by intros [= _ <-] |]. intros [= _ <-].
  apply find_row_Ok in Hf as [Hi Hid]. pose proof Hid as <-%Z.eqb_eq.
  apply orb_false_iff in Ha as [Hd%neq_false Ha%negb_false_iff]. unfold Active in Ha.
  apply andb_true_iff in Ha as [[Hr Hac]%andb_true_iff Ht%Z.ltb_lt].
  rewrite existsb_false, Forall_forall in Hm.
  apply settle_keeps; try done.
  - unfold is_pending. by rewrite Hr, Hac.
  - intros j Hj Hh. rewrite (invitation_by_id s (I_ID i) i j Hs Hi Hj Hid Hh). split_and!.
    + unfold invitation_after, is_pending. cbn. split_and!; try done. by rewrite Hr, Hac.
    + intros t [= <-]. cbn. split; [done |]. by destruct (RevokedAt i).
    + done.
  - rewrite map_app. apply NoDup_app. split_and!; [apply Hs | | apply NoDup_singleton].
    intros k (x & -> & Hx)%list_elem_of_fmap Hk%list_elem_of_singleton. specialize (Hm x Hx).
    change (member_key x = (I_OrganizationID i, did)) in Hk.
    by rewrite (proj2 (is_member_key _ _ x) Hk) in Hm.
  - intros m Hin. set_solver.
  - intros m [Hin | ->%list_elem_of_singleton]%elem_of_app; [by left | right]. by split_and!.
Qed.

(** ** Every request *)

(** The three tables are left alone. *)
Definition untouched (s s' : db) : Prop :=
  organizations s' = organizations s /\ members s' = members s /\ invitations s' = invitations s.

Lemma untouched_keeps s s' : untouched s s' -> invariant s -> invariant s' /\ evolves s s'.
Proof.
  intros (Ho & Hm & Hi) [H1 H2 H3 H4 H5 H6 H7]. split.
  - split; unfold founded, invited in *; rewrite ?Ho, ?Hm, ?Hi; done.
  - unfold evolves. by rewrite Ho, Hi.
Qed.

Section requests.
Context (lower : string -> string) (jsonb : list Z -> list Z) (world : forall X, effect X -> X).

Lemma team_requests_untouched X (e : effect X) x s s' :
  handle lower jsonb world X e s = (x, s') ->
  match e with
  | store_Create _ | Activate _ _ _ | Fail_ _ _ | store_Update _ => True
  | CreateInvitation _ | store_RevokeInvitation _ _ | AcceptInvitation _ _ _ _ => True
  | UpdateMemberRole _ _ _ _ _ _ | store_RemoveMember _ _ | UpdateVisibility _ _ _ _ _ _ => True
  | _ => untouched s s'
  end.
Proof.
  destruct e; try exact (fun _ => I); cbn [handle];
    try (intros Hh; apply (f_equal snd) in Hh; cbn [snd] in Hh; subst s'; done);
    unfold record_audit, create_team, update_team, delete_team, put_team_member, remove_team_member,
      put_team_repository, remove_team_repository, put_collaborator, remove_collaborator; cbn zeta;
    repeat match goal with
    | |- context [if ?b then _ else _] =>
        lazymatch b with context [if _ then _ else _] => fail | _ => destruct b end
    | |- context [match ?o with Ok _ => _ | Err _ => _ end = _] => destruct o
    | |- context [match ?o with Some _ => _ | None => _ end = _] => destruct o
    end;
    intros Hh; apply (f_equal snd) in Hh; cbn [snd] in Hh; subst s'; done.
Qed.

Lemma handle_keeps X (e : effect X) x s s' :
  invariant s -> handle lower jsonb world X e s = (x, s') -> invariant s' /\ evolves s s'.
Proof.
  intros Hs Hh. pose proof (team_requests_untouched X e x s s' Hh) as Hu.
  destruct e; try (by apply untouched_keeps); cbn [handle] in Hh.
  - by eapply create_keeps.
  - eapply update_organization_keeps; [exact Hs | exact Hh | by intros v].
  - destruct (update_organization _ _ _ _) as [r s1] eqn:Hr. injection Hh as _ <-.
    eapply update_organization_keeps; [exact Hs | exact Hr | by intros v].
  - eapply update_organization_keeps; [exact Hs | exact Hh | by intros v].
  - by eapply create_invitation_keeps.
  - by eapply revoke_invitation_keeps.
  - by eapply accept_invitation_keeps.
  - unfold update_role in Hh. destruct (_ && _) eqn:Hl; [by injection Hh as _ <- |].
    eapply update_member_keeps; [exact Hs | exact Hh | by intros m |].
    apply andb_false_iff in Hl as [Hl%neq_false | Hl]; [by right | by left].
  - by eapply remove_member_keeps.
  - eapply update_member_keeps; [exact Hs | exact Hh | by intros m | by right].
Qed.

(** One request of any service, or a change of the other tables (accounts,
    repositories, the clock) by other parts of the system. *)
Inductive step : db -> db -> Prop :=
| step_request X (e : effect X) x s s' : handle lower jsonb world X e s = (x, s') -> step s s'
| step_others s s' : untouched s s' -> step s s'.

Lemma exec_steps {A} (p : prog effect A) s : rtc step s (snd (exec (handle lower jsonb world) p s)).
Proof.
  revert s. induction p as [a | X e k IH]; intros s; [apply rtc_refl |]. rewrite exec_vis.
  destruct (handle lower jsonb world X e s) as [x s1] eqn:Hh. eapply rtc_l; [by eapply step_request | apply IH].
Qed.

(** C28: Whatever requests are made of the store, in any order: an organization keeps at
    least one owner; every member founded it or accepted an invitation of it,
    and while the invitation was valid; an account has one pending invitation of
    an organization at most; an invitation that was accepted or revoked stays so;
    and an organization keeps its creator and slug. *)
Theorem organization_history (s s' : db) :
  rtc step s s' -> invariant s -> invariant s' /\ evolves s s'.
Proof.
  intros Hr. induction Hr as [s | s1 s2 s3 Hstep _ IH]; [done |]. intros Hs.
  assert (Hk : invariant s2 /\ evolves s1 s2).
  { destruct Hstep; [by eapply handle_keeps | by apply untouched_keeps]. }
  destruct Hk as [H2 He]. destruct (IH H2) as [H3 He']. split; [done | by transitivity s2].
Qed.

(** ** The creator *)

Definition owner_key (s : db) (k : UUID * string) : Prop :=
  exists m, m ∈ members s /\ member_key m = k /\ Member_Role m = RoleOwner.
(** Every organization has its creator among its owners. *)
Definition creators_own (s : db) : Prop :=
  forall r, r ∈ organizations s -> owner_key s (org_id r, CreatorDID (row_organization r)).
(** What a method read of the organization is still true of its creator. *)
Definition creator_known (org : UUID) (h : list (event effect)) (s : db) : Prop :=
  forall o, loaded org h o ->
    exists r, r ∈ organizations s /\ org_id r = org /\ CreatorDID (row_organization r) = CreatorDID o.

Lemma update_member_owner_key org did update s r s' k :
  NoDup (map member_key (members s)) -> update_member org did update s = (r, s') ->
  (forall m, member_key (update m) = member_key m) ->
  k <> (org, did) \/ (forall m, Member_Role m = RoleOwner -> Member_Role (update m) = RoleOwner) ->
  owner_key s k -> owner_key s' k.
Proof.
  intros Hnd Hup Hkey Hor (m & Hm & Hk & Hr). unfold update_member in Hup.
  destruct (find_row _ _ _) as [x | e] eqn:Hf; [| injection Hup as _ <-; by exists m].
  destruct (negb (member_checks _)); [injection Hup as _ <-; by exists m |]. injection Hup as _ <-.
  apply find_row_Ok in Hf as [Hx Hxk%is_member_key].
  destruct (is_member org did m) eqn:Hh.
  - apply is_member_key in Hh. destruct Hor as [Hne | Hrole]; [congruence |].
    assert (x = m) as -> by (eapply NoDup_map_inj; [exact Hnd | done.. | congruence]).
    exists (update m). split_and!; [| by rewrite Hkey | by apply Hrole].
    apply update_where_elem. exists m. by rewrite (proj2 (is_member_key _ _ _) Hh).
  - exists m. split_and!; [| done..]. apply update_where_elem. exists m. by rewrite Hh.
Qed.

Lemma remove_member_owner_key org did s r s' k :
  remove_member org did s = (r, s') -> k <> (org, did) -> owner_key s k -> owner_key s' k.
Proof.
  intros Hrem Hne (m & Hm & Hk & Hr). unfold remove_member in Hrem.
  destruct (is_last_owner _ _ _); [injection Hrem as _ <-; by exists m |].
  destruct (find_row _ _ _); injection Hrem as _ <-; [| by exists m].
  exists m. split_and!; [| done..]. apply filter_elem. split; [done |]. apply negb_true_iff.
  destruct (is_member org did m) eqn:Hh; [| done]. apply is_member_key in Hh. congruence.
Qed.

(** Which organizations there are afterwards. *)
Lemma organizations_back X (e : effect X) x s s' :
  invariant s -> handle lower jsonb world X e s = (x, s') ->
  forall r', r' ∈ organizations s' ->
    (exists r, r ∈ organizations s /\ org_id r' = org_id r /\
       CreatorDID (row_organization r') = CreatorDID (row_organization r)) \/
    owner_key s' (org_id r', CreatorDID (row_organization r')).
Proof.
  intros Hs Hh r' Hr'.
  assert (Hsame : organizations s' = organizations s ->
    exists r, r ∈ organizations s /\ org_id r' = org_id r /\
       CreatorDID (row_organization r') = CreatorDID (row_organization r)).
  { intros He. exists r'. by rewrite <- He. }
  assert (Hupdate : forall id guard update r1,
    update_organization id guard update s = (r1, s') ->
    (forall v, ID (update v) = ID v /\ CreatorDID (update v) = CreatorDID v) ->
    exists r, r ∈ organizations s /\ org_id r' = org_id r /\
       CreatorDID (row_organization r') = CreatorDID (row_organization r)).
  { intros id guard update r1 Hup Hkeep. unfold update_organization in Hup.
    destruct (find_row _ _ _) as [o | e'] eqn:Hf; [| injection Hup as _ <-; by apply Hsame].
    destruct (negb (organization_checks _)); [injection Hup as _ <-; by apply Hsame |].
    destruct (_ && _); [injection Hup as _ <-; by apply Hsame |]. injection Hup as _ <-.
    apply find_row_Ok in Hf as [Ho [Hid _]%andb_true_iff].
    apply update_where_elem in Hr' as (y & Hy & ->). destruct (has_org id y) eqn:Hyid; [| by exists y].
    exists o. unfold org_id. cbn [row_organization]. destruct (Hkeep (row_organization o)) as [-> ->]. done. }
  pose proof (team_requests_untouched X e x s s' Hh) as Hu.
  destruct e; try (left; by apply Hsame, Hu); cbn [handle] in Hh.
  - unfold create in Hh.
    repeat match type of Hh with (if ?b then _ else _) = _ =>
      destruct b; [injection Hh as _ <-; left; by apply Hsame |] end.
    injection Hh as _ <-. cbn in Hr'. apply elem_of_app in Hr' as [Hr' | ->%list_elem_of_singleton].
    + left. by exists r'.
    + right. exists (ownerRow value). split; [apply elem_of_snoc | done].
  - left. eapply Hupdate; [exact Hh | by intros v].
  - destruct (update_organization _ _ _ _) as [r s1] eqn:Hr. injection Hh as _ <-.
    left. eapply Hupdate; [exact Hr | by intros v].
  - left. eapply Hupdate; [exact Hh | by intros v].
  - left. apply Hsame. unfold create_invitation in Hh.
    repeat match type of Hh with (if ?b then _ else _) = _ => destruct b; [by injection Hh as _ <- |] end.
    by injection Hh as _ <-.
  - left. apply Hsame. unfold revoke_invitation in Hh. destruct (find_row _ _ _); by injection Hh as _ <-.
  - left. apply Hsame. unfold accept_invitation in Hh. destruct (find_row _ _ _); [| by injection Hh as _ <-].
    repeat match type of Hh with (if ?b then _ else _) = _ => destruct b; [by injection Hh as _ <- |] end.
    by injection Hh as _ <-.
  - left. apply Hsame. unfold update_role, update_member in Hh.
    destruct (_ && _); [by injection Hh as _ <- |]. destruct (find_row _ _ _); [| by injection Hh as _ <-].
    destruct (negb (member_checks _)); by injection Hh as _ <-.
  - left. apply Hsame. unfold remove_member in Hh.
    destruct (is_last_owner _ _ _); [by injection Hh as _ <- |].
    destruct (find_row _ _ _); by injection Hh as _ <-.
  - left. apply Hsame. unfold update_member in Hh. destruct (find_row _ _ _); [| by injection Hh as _ <-].
    destruct (negb (member_checks _)); by injection Hh as _ <-.
Qed.

(** Only three requests change or remove the row of a member. *)
Lemma members_kept X (e : effect X) x s s' :
  handle lower jsonb world X e s = (x, s') ->
  match e with
  | UpdateMemberRole _ _ _ _ _ _ | store_RemoveMember _ _ | UpdateVisibility _ _ _ _ _ _ => True
  | _ => forall m, m ∈ members s -> m ∈ members s'
  end.
Proof.
  intros Hh. pose proof (team_requests_untouched X e x s s' Hh) as Hu.
  destruct e; try exact I; try (intros m Hm; destruct Hu as (_ & -> & _); exact Hm);
    cbn [handle] in Hh; intros m Hm;
    unfold create, update_organization, create_invitation, revoke_invitation, accept_invitation in Hh;
    cbn zeta in Hh;
    repeat match type of Hh with
    | (if ?b then _ else _) = _ => destruct b
    | match ?o with Ok _ => _ | Err _ => _ end = _ => destruct o
    | (let '(_, _) := match ?o with Ok _ => _ | Err _ => _ end in _) = _ => destruct o
    | (let '(_, _) := if ?b then _ else _ in _) = _ => destruct b
    end;
    apply (f_equal snd) in Hh; cbn [snd] in Hh; subst s'; cbn; set_solver.
Qed.

Lemma owner_key_step org actor h X (e : effect X) x s s' r :
  invariant s -> creator_known org h s -> authorised org actor h X e ->
  handle lower jsonb world X e s = (x, s') -> r ∈ organizations s ->
  owner_key s (org_id r, CreatorDID (row_organization r)) ->
  owner_key s' (org_id r, CreatorDID (row_organization r)).
Proof.
  intros Hs Hknown Hg Hh Hr Hown. pose proof (members_kept X e x s s' Hh) as Hm.
  assert (Hother : forall v did, loaded org h v -> did <> CreatorDID v ->
            (org_id r, CreatorDID (row_organization r)) <> (org, did)).
  { intros v did Hv Hd [= Ho Hc]. destruct (Hknown v Hv) as (r0 & Hr0 & Hid & Hcr).
    assert (r = r0) as -> by (eapply NoDup_map_inj; [apply Hs | done.. | congruence]). congruence. }
  destruct e; cbn [authorised] in Hg; cbn [handle] in Hh;
    try (destruct Hown as (m & Hin & ? & ?); exists m; split_and!; [by apply Hm | done..]).
  - destruct Hg as (-> & _ & v & Hv & Hd). unfold update_role in Hh.
    destruct (_ && _); [by injection Hh as _ <- |].
    eapply update_member_owner_key; [apply Hs | exact Hh | by intros m | left; by eapply Hother | done].
  - destruct Hg as (-> & (v & Hv & Hd) & _).
    eapply remove_member_owner_key; [exact Hh | by eapply Hother | done].
  - eapply update_member_owner_key; [apply Hs | exact Hh | by intros m | by right | done].
Qed.

Lemma creator_known_step org h X (e : effect X) x s s' :
  invariant s -> creator_known org h s -> handle lower jsonb world X e s = (x, s') ->
  creator_known org (h ++ [Ev e x]) s'.
Proof.
  intros Hs Hknown Hh o [Ho | Heq%list_elem_of_singleton]%elem_of_app.
  - destruct (Hknown o Ho) as (r & Hr & Hid & Hc).
    destruct (handle_keeps X e x s s' Hs Hh) as [_ [Hev _]].
    destruct (Hev r Hr) as (r' & Hr' & He & Hc' & _). exists r'. split_and!; congruence.
  - assert (Hget : get_organization (has_org org) s = Ok o /\ s' = s).
    { clear Hknown. pose proof (f_equal (fun ev => match ev with
        | Ev e x => match e in effect X return X -> Prop with
                    | GetByID id => fun x => id = org /\ x = Ok o | _ => fun _ => True end x end) Heq) as Hp.
      cbn in Hp. assert (Hq : match e in effect X return X -> Prop with
                    | GetByID id => fun x => id = org /\ x = Ok o | _ => fun _ => True end x)
        by by rewrite <- Hp.
      clear Hp. destruct e; try discriminate Heq. destruct Hq as [-> ->]. cbn in Hh.
      split; [exact (f_equal fst Hh) | exact (eq_sym (f_equal snd Hh))]. }
    destruct Hget as [Hget ->]. unfold get_organization in Hget.
    destruct (find_row _ _ _) as [r |] eqn:Hf; [| done]. injection Hget as <-.
    apply find_row_Ok in Hf as [Hr [Hid%Z.eqb_eq _]%andb_true_iff]. by exists r.
Qed.

Lemma method_keeps_creators {A} org actor (p : prog effect A) s :
  guarded (authorised org actor) p -> invariant s -> creators_own s ->
  let s' := snd (exec (handle lower jsonb world) p s) in invariant s' /\ creators_own s'.
Proof.
  intros Hg Hs Hc. cbn zeta.
  set (I := fun h s => invariant s /\ creators_own s /\ creator_known org h s).
  destruct (exec_guarded (handle lower jsonb world) (authorised org actor) I p s) as (tr & Hi & Ho & _).
  - intros h X e s1 x s2 Hge (Hs1 & Hc1 & Hk1) Hh. split_and!.
    + by eapply handle_keeps.
    + intros r' Hr'. destruct (organizations_back X e x s1 s2 Hs1 Hh r' Hr') as [(r & Hr & -> & ->) | ?];
        [| done].
      eapply owner_key_step; [exact Hs1 | exact Hk1 | exact Hge | exact Hh | exact Hr | by apply Hc1].
    + by eapply creator_known_step.
  - done.
  - split_and!; [done | done |]. intros o ?%elem_of_nil. done.
  - done.
Qed.

(** The creator of an organization remains one of its owners: no method of the
    service, by whatever actor it is called and on whatever arguments, leaves an
    organization whose creator was an owner without it. *)
Theorem creators_remain_owners `{Syntax, UUIDs, GoURL} (requestID actor other : string)
    (org id : UUID) (s : db) :
  let served {A} (p : prog effect A) :=
    let s' := snd (exec (handle lower jsonb world) p s) in invariant s' /\ creators_own s' in
  invariant s -> creators_own s ->
  (forall input, served (Create requestID input)) /\
  (forall input, served (Update requestID input)) /\
  (forall input, served (Invite requestID input)) /\
  served (Accept requestID id actor) /\ served (RevokeInvitation requestID org id actor) /\
  (forall visibility, served (SetVisibility requestID org actor visibility)) /\
  (forall role, served (ChangeRole requestID org actor other role)) /\
  served (Remove requestID org actor other).
Proof.
  cbn zeta. intros Hs Hc.
  refine (conj _ (conj _ (conj _ (conj _ (conj _ (conj _ (conj _ _)))))));
    intros; eapply method_keeps_creators; try done;
    [apply (Create_authorised requestID org) | eapply as_authorised ..];
    [apply Update_authorised | apply Invite_authorised
    | apply (Accept_authorised requestID org) | apply RevokeInvitation_authorised
    | apply SetVisibility_authorised | apply ChangeRole_authorised | apply Remove_authorised].
Qed.
End requests.

Module orghistory_examples.
Import Demo access.access_examples.

(** Three accounts, an organization of the first, an invitation of the second and
    its acceptance. *)
Definition genesis : db :=
  mkDb (list_to_map [(alice, None); (bob, None); (carol, None)]) [] [] [] [] [] [] [] [] [] [] 10 hour.
Definition input : CreateInput :=
  mkCreateInput alice "acme" "Acme" EmptyString EmptyString EmptyString BasePermissionRead true.
Definition acme_founded : db := snd (run_ (Create EmptyString input) genesis).
Definition bob_invited : db :=
  snd (run_ (Invite EmptyString (mkInviteInput 10 alice bob RoleMember)) acme_founded).
Definition bob_joined : db := snd (run_ (Accept EmptyString 12 bob) bob_invited).

Lemma genesis_invariant : invariant genesis /\ creators_own genesis.
Proof.
  split; [split | by intros r ?%elem_of_nil]; try apply NoDup_nil_2; try apply Forall_nil_2;
    cbn; set_solver.
Qed.
Lemma bob_joined_invariant : invariant bob_joined /\ creators_own bob_joined.
Proof.
  destruct genesis_invariant as [H1 H2].
  destruct (method_keeps_creators id id world 0 alice (Create EmptyString input) genesis) as [H3 H4];
    [exact (Create_authorised EmptyString 0 input) | done | done |].
  destruct (method_keeps_creators id id world 10 alice
              (Invite EmptyString (mkInviteInput 10 alice bob RoleMember)) acme_founded) as [H5 H6];
    [exact (as_authorised _ _ _ _ (Invite_authorised EmptyString (mkInviteInput 10 alice bob RoleMember))) | done | done |].
  destruct (method_keeps_creators id id world 10 bob (Accept EmptyString 12 bob) bob_invited) as [H7 H8];
    [exact (as_authorised _ _ _ _ (Accept_authorised EmptyString 10 bob 12)) | done | done | done].
Qed.

Example bob_is_member :
  map (fun m => (AccountDID m, Member_Role m)) (members bob_joined)
  = [(alice, RoleOwner); (bob, RoleMember)].
Proof. vm_compute. reflexivity. Qed.

Lemma organization_history_witness :
  length (members bob_joined) = 2%nat /\ invariant bob_joined /\ evolves genesis bob_joined.
Proof.
  split; [vm_compute; reflexivity |].
  apply (organization_history id id world genesis bob_joined).
  - transitivity acme_founded; [apply exec_steps |].
    transitivity bob_invited; [apply exec_steps | apply exec_steps].
  - apply genesis_invariant.
Defined.

Lemma creators_remain_owners_witness :
  let served {A} (p : prog effect A) :=
    let s' := snd (exec (handle id id world) p bob_joined) in invariant s' /\ creators_own s' in
  (forall input, served (Create EmptyString input)) /\
  (forall input, served (Update EmptyString input)) /\
  (forall input, served (Invite EmptyString input)) /\
  served (Accept EmptyString 12 bob) /\ served (RevokeInvitation EmptyString 10 12 bob) /\
  (forall visibility, served (SetVisibility EmptyString 10 bob visibility)) /\
  (forall role, served (ChangeRole EmptyString 10 bob alice role)) /\
  served (Remove EmptyString 10 bob alice).
Proof.
  apply (creators_remain_owners id id world EmptyString bob alice 10 12 bob_joined);
    apply bob_joined_invariant.
Defined.

(** The creator can neither be demoted nor removed, by any owner. *)
Example creator_stays :
  fst (run_ (ChangeRole EmptyString 10 alice alice RoleMember) bob_joined) = Err ErrCreatorOwner /\
  fst (run_ (Remove EmptyString 10 alice alice) bob_joined) = Err ErrCreatorOwner.
Proof. split; vm_compute; reflexivity. Qed.
End orghistory_examples.
End orghistory.
