(* ===== verification/Hierarchy.v ===== *)
(** * Hierarchy: the teams of an organization form a forest.

    Why the recursive queries over teams end, what they return, and why no
    request closes a circle or nests a secret team. *)

From S2P Require Import Prelude.
From S2P Require Import GoText.
From S2P Require Import Syntax.
From S2P Require Import CommitStatus.
From S2P Require Import Organization.
From S2P Require Import Team.
From S2P Require Import OrganizationStore.
From S2P Require Import Access.

Module hierarchy.
Import organization orgstore.

Definition team_id (r : TeamRow) : UUID := Team_ID (row_team r).

(** [x] is a present team the query keeps, directly below [p]. *)
Definition below (keep : TeamRow -> bool) (ts : list TeamRow) (x p : UUID) : Prop :=
  exists r, r ∈ ts /\ team_id r = x /\ team_present r = true /\ keep r = true /\
    ParentTeamID (row_team r) = Some p.
Definition acyclic (ts : list TeamRow) : Prop := forall x, ~ tc (below any_team ts) x x.

(** A present team below another: both are visible, of one organization, and the
    other is present. *)
Definition nested_ok (ts : list TeamRow) (r : TeamRow) : Prop :=
  forall p, team_present r = true -> ParentTeamID (row_team r) = Some p ->
    Team_Visibility (row_team r) = TeamVisibilityVisible /\
    exists q, q ∈ ts /\ team_id q = p /\ team_present q = true /\
      Team_OrganizationID (row_team q) = Team_OrganizationID (row_team r) /\
      Team_Visibility (row_team q) = TeamVisibilityVisible.

Record forest (ts : list TeamRow) : Prop := {
  teams_unique : NoDup (map team_id ts);
  teams_nested r : r ∈ ts -> nested_ok ts r;
  teams_acyclic : acyclic ts
}.

(** ** What the recursive queries return *)

Lemma children_elem keep ts ids x :
  x ∈ children keep ts ids <-> exists p, p ∈ ids /\ below keep ts x p.
Proof.
  unfold children. rewrite list_elem_of_fmap. split.
  - intros (r & -> & [Hr [[Hp Hk]%andb_true_iff Hc]%andb_true_iff]%filter_elem).
    destruct (ParentTeamID (row_team r)) as [p |] eqn:Hpar; [| done].
    exists p. split; [by apply bool_decide_eq_true in Hc |]. by exists r.
  - intros (p & Hp & r & Hr & <- & Hpr & Hk & Hpar). exists r. split; [done |].
    apply filter_elem. split; [done |]. rewrite Hpr, Hk, Hpar. by apply bool_decide_eq_true.
Qed.

Lemma levels_elem keep ts fuel : forall ids x,
  x ∈ levels fuel keep ts ids <->
  exists k p, (0 < k <= fuel)%nat /\ p ∈ ids /\ nsteps (below keep ts) k x p.
Proof.
  induction fuel as [| fuel IH]; intros ids x; cbn [levels].
  - split; [by intros ?%elem_of_nil | intros (k & p & ? & _); lia].
  - transitivity (x ∈ children keep ts ids \/ x ∈ levels fuel keep ts (children keep ts ids)).
    { destruct (children keep ts ids) as [| c cs] eqn:Hc; [| by rewrite elem_of_app].
      split; [by intros ?%elem_of_nil |]. intros [?%elem_of_nil | Hx]; [done |].
      apply IH in Hx as (k & p & _ & Hp & _). by apply elem_of_nil in Hp. }
    rewrite IH, children_elem. split.
    + intros [(p & Hp & Hb) | (k & c & Hk & (p & Hp & Hcp)%children_elem & Hn)].
      * exists 1%nat, p. split_and!; [lia | lia | done |]. by apply nsteps_once.
      * exists (S k), p. split_and!; [lia | lia | done |]. by eapply nsteps_r.
    + intros (k & p & Hk & Hp & Hn). destruct k as [| k]; [lia |].
      apply nsteps_inv_r in Hn as (c & Hn & Hcp). destruct k as [| k].
      * inversion Hn; subst. left. by exists p.
      * right. exists (S k), c. split_and!; [lia | lia | | done]. apply children_elem. by exists p.
Qed.

(** A chain of teams visits no team twice. *)
Lemma chain_nodes keep ts k x p :
  acyclic ts -> (forall a b, below keep ts a b -> below any_team ts a b) ->
  nsteps (below keep ts) k x p ->
  exists l, length l = k /\ NoDup l /\
    forall z, z ∈ l -> z ∈ map team_id ts /\ rtc (below any_team ts) x z.
Proof.
  intros Hac Hany. revert x. induction k as [| k IH]; intros x Hn.
  - exists []. split_and!; [done | apply NoDup_nil_2 | by intros z ?%elem_of_nil].
  - inversion Hn as [| ? ? y ? Hxy Hn']; subst. clear Hn. rename Hn' into Hn. destruct (IH y Hn) as (l & Hl & Hnd & Hz).
    pose proof (Hany _ _ Hxy) as Hxy'. exists (x :: l). split_and!; [cbn; lia | |].
    + apply NoDup_cons. split; [| done]. intros Hx. apply Hz in Hx as [_ Hyx].
      apply (Hac x). eapply tc_rtc_r; [by apply tc_once | done].
    + intros z [-> | Hz']%elem_of_cons.
      * split; [| apply rtc_refl]. destruct Hxy as (r & Hr & <- & _).
        by apply (list_elem_of_fmap_2 team_id).
      * apply Hz in Hz' as [? ?]. split; [done |]. by eapply rtc_l.
Qed.

Lemma chain_bound keep ts k x p :
  acyclic ts -> nsteps (below keep ts) k x p -> (k <= length ts)%nat.
Proof.
  intros Hac Hn. destruct (chain_nodes keep ts k x p Hac) as (l & <- & Hnd & Hz); [| done |].
  - intros a b (r & ? & ? & ? & _ & ?). by exists r.
  - rewrite <- (length_map team_id ts). apply submseteq_length, NoDup_submseteq; [done |].
    intros z Hin. by apply Hz.
Qed.

Lemma descendants_iff keep s id x :
  acyclic (teams s) -> x ∈ descendants keep s id <-> tc (below keep (teams s)) x id.
Proof.
  intros Hac. unfold descendants. rewrite levels_elem. split.
  - intros (k & p & Hk & ->%list_elem_of_singleton & Hn). apply tc_nsteps. exists k. split; [lia | done].
  - intros (k & Hk & Hn)%tc_nsteps. exists k, id. split_and!; [lia | by eapply chain_bound | by left | done].
Qed.

(** On the teams of any organization whose parents form no circle the recursive
    queries end - there is nothing more than as many levels below a team as there
    are teams - and return exactly the teams below it, at any depth. *)
Theorem descendants_exact keep (s : db) (id : UUID) :
  acyclic (teams s) ->
  (forall x, x ∈ descendants keep s id <-> tc (below keep (teams s)) x id) /\
  forall more, (length (teams s) <= more)%nat ->
    forall x, x ∈ levels more keep (teams s) [id] <-> x ∈ descendants keep s id.
Proof.
  intros Hac. split; [intros x; by apply descendants_iff |]. intros more Hm x.
  unfold descendants. rewrite !levels_elem. split.
  - intros (k & p & Hk & Hp & Hn). exists k, p. split_and!; [lia | by eapply chain_bound | done | done].
  - intros (k & p & Hk & Hp & Hn). exists k, p. split_and!; [lia | lia | done | done].
Qed.

(** ** Requests keep the forest *)

Lemma tc_first {A} (R : A -> A -> Prop) x z : tc R x z -> exists y, R x y /\ rtc R y z.
Proof.
  intros [x' y' H | x' y' z' H Hr]; [exists y'; split; [done | apply rtc_refl] |].
  exists y'. split; [done | by apply tc_rtc].
Qed.

(** Giving one node other successors closes no circle if none of them reaches it. *)
Lemma reparent_acyclic {A} `{EqDecision A} (R R' : A -> A -> Prop) (t : A) :
  (forall x, ~ tc R x x) -> (forall x y, x <> t -> R' x y -> R x y) ->
  (forall p, R' t p -> ~ rtc R p t) -> forall x, ~ tc R' x x.
Proof.
  intros Hac Hsame Hnew.
  assert (Hto : forall x y, rtc R' x y -> y = t -> rtc R x t).
  { intros x y Hr. induction Hr as [x | x y z Hxy _ IH]; intros Hy; [by subst; apply rtc_refl |].
    destruct (decide (x = t)) as [-> | Hx]; [apply rtc_refl |].
    eapply rtc_l; [by apply Hsame | by apply IH]. }
  assert (Hback : ~ tc R' t t).
  { intros (p & Hp & Hr)%tc_first. apply (Hnew p Hp). by apply (Hto p t). }
  assert (Hvia : forall x y, tc R' x y -> tc R x y \/ rtc R' x t /\ tc R' t y).
  { intros x y Hr. induction Hr as [x y Hxy | x y z Hxy Hyz IH];
      (destruct (decide (x = t)) as [-> | Hx];
        [right; split; [apply rtc_refl | by econstructor] |]).
    - left. by apply tc_once, Hsame.
    - destruct IH as [IH | [Hyt Htz]]; [left; by eapply tc_l; [apply Hsame |] | right].
      split; [by eapply rtc_l | done]. }
  intros x [Hx | [Hxt Htx]]%Hvia; [by eapply Hac |]. apply Hback. by eapply tc_rtc_r.
Qed.

Lemma below_parent ts x p :
  forest ts -> below any_team ts x p ->
  exists q, q ∈ ts /\ team_id q = p /\ team_present q = true.
Proof.
  intros Hf (r & Hr & _ & Hp & _ & Hpar). destruct (teams_nested ts Hf r Hr p Hp Hpar) as (_ & q & ? & ? & ? & _).
  by exists q.
Qed.

Lemma visible_parent_row s org p :
  visible_parent s org p = true ->
  exists q, q ∈ teams s /\ team_id q = p /\ team_present q = true /\
    Team_OrganizationID (row_team q) = org /\ Team_Visibility (row_team q) = TeamVisibilityVisible.
Proof.
  unfold visible_parent.
  intros (q & Hq%list_elem_of_In & [[[Hid%Z.eqb_eq Ho%Z.eqb_eq]%andb_true_iff Hv%String.eqb_eq]%andb_true_iff Hp]%andb_true_iff)%existsb_exists.
  by exists q.
Qed.

Lemma create_team_keeps lower t s r s' :
  forest (teams s) -> create_team lower t s = (r, s') -> forest (teams s').
Proof.
  intros Hf Hc. unfold create_team in Hc. cbn zeta in Hc.
  destruct (negb match ParentTeamID t with None => true | Some p => _ end) eqn:Hpar;
    [by injection Hc as _ <- |].
  destruct (negb (team_checks _)); [by injection Hc as _ <- |].
  destruct (existsb _ (teams s)) eqn:He; [by injection Hc as _ <- |]. injection Hc as _ <-.
  cbn [set_teams teams]. set (new := mkTeamRow (insertedTeam t) None).
  apply negb_false_iff in Hpar. rewrite existsb_false, Forall_forall in He.
  assert (Hfresh : forall r, r ∈ teams s -> team_id r <> Team_ID t).
  { intros x Hx. specialize (He x Hx). apply orb_false_iff in He as [He _]. by apply Z.eqb_neq. }
  split.
  - rewrite map_app. apply NoDup_app. split_and!; [apply Hf | | apply NoDup_singleton].
    intros k (x & -> & Hx)%list_elem_of_fmap Hk%list_elem_of_singleton. by apply (Hfresh x).
  - intros x [Hx | ->%list_elem_of_singleton]%elem_of_app p Hp Hpx.
    + destruct (teams_nested _ Hf x Hx p Hp Hpx) as (Hv & q & Hq & ?). split; [done |].
      exists q. split; [set_solver | done].
    + cbn in Hpx. rewrite Hpx in Hpar. apply andb_true_iff in Hpar as [Hv%String.eqb_eq Hq].
      apply visible_parent_row in Hq as (q & Hq & ? & ? & ? & ?). split; [done |].
      exists q. split_and!; [set_solver | done..].
  - refine (reparent_acyclic (below any_team (teams s)) _ (Team_ID t) (teams_acyclic _ Hf) _ _).
    + intros x y Hx (q & [Hq | ->%list_elem_of_singleton]%elem_of_app & <- & ?); [by exists q | done].
    + intros p (q & [Hq | ->%list_elem_of_singleton]%elem_of_app & Hid & _ & _ & Hp) Hr;
        [by apply (Hfresh q) |].
      cbn in Hp. rewrite Hp in Hpar. apply andb_true_iff in Hpar as [_ Hq].
      apply visible_parent_row in Hq as (q & Hq & Hqid & _).
      apply rtc_inv_r in Hr as [-> | (y & _ & Hy)]; [by apply (Hfresh q) |].
      destruct (below_parent _ y (Team_ID t) Hf Hy) as (z & Hz & Hzid & _). by apply (Hfresh z).
Qed.

Lemma update_team_keeps t s r s' :
  forest (teams s) -> update_team t s = (r, s') -> forest (teams s').
Proof.
  intros Hf Hu. unfold update_team in Hu.
  destruct (find_row _ _ _) as [x | e] eqn:Hfind; [| by injection Hu as _ <-].
  destruct (negb (team_checks _)) eqn:Hchk; [by injection Hu as _ <- |]. injection Hu as _ <-.
  cbn [set_teams teams]. apply find_row_Ok in Hfind as [Hx Hg].
  apply andb_true_iff in Hg as [[[Hid Horg%Z.eqb_eq]%andb_true_iff Hpres]%andb_true_iff Hmove].
  pose proof Hid as Hid'%Z.eqb_eq. unfold may_move in Hmove.
  apply andb_true_iff in Hmove as [Hpar Hsec].
  set (u := with_team_settings t (row_team x)) in *.
  assert (Honly : forall y, y ∈ teams s -> has_team (Team_ID t) y = true -> y = x).
  { intros y Hy Hyid%Z.eqb_eq. eapply NoDup_map_inj; [apply (teams_unique _ Hf) | done.. | unfold team_id; congruence]. }
  assert (Hrow : forall y, y ∈ update_where (has_team (Team_ID t)) (fun x => mkTeamRow u (team_DeletedAt x)) (teams s) ->
            y = mkTeamRow u (team_DeletedAt x) \/ y ∈ teams s /\ team_id y <> Team_ID t).
  { intros y (z & Hz & ->)%update_where_elem. destruct (has_team (Team_ID t) z) eqn:Hzid.
    - left. by rewrite (Honly z Hz Hzid).
    - right. split; [done |]. by apply Z.eqb_neq. }
  assert (Hold : forall y, y ∈ teams s -> team_id y <> Team_ID t ->
            y ∈ update_where (has_team (Team_ID t)) (fun x => mkTeamRow u (team_DeletedAt x)) (teams s)).
  { intros y Hy Hne. apply update_where_elem. exists y. split; [done |].
    destruct (has_team (Team_ID t) y) eqn:Hh; [by apply Z.eqb_eq in Hh | done]. }
  assert (Hin : mkTeamRow u (team_DeletedAt x) ∈
            update_where (has_team (Team_ID t)) (fun x => mkTeamRow u (team_DeletedAt x)) (teams s)).
  { apply update_where_elem. exists x. by rewrite Hid. }
  assert (Hvisible : forall y, y ∈ teams s -> team_present y = true ->
            ParentTeamID (row_team y) = Some (Team_ID t) -> Team_Visibility t = TeamVisibilityVisible).
  { intros y Hy Hp Hyp. apply orb_true_iff in Hsec as [Hsec | Hsec].
    - apply negb_false_iff in Hchk. unfold team_checks, one_of in Hchk.
      apply andb_true_iff in Hchk as [_ Hone%bool_decide_eq_true].
      apply negb_true_iff, String.eqb_neq in Hsec. cbn in Hone. set_solver.
    - apply andb_true_iff in Hsec as [_ Hnil].
      assert (Hd : team_id y ∈ descendants any_team s (Team_ID t)).
      { apply descendants_iff; [apply Hf |]. apply tc_once. by exists y. }
      destruct (descendants any_team s (Team_ID t)); [by apply elem_of_nil in Hd | done]. }
  split.
  - replace (map team_id _) with (map team_id (teams s)); [apply Hf |].
    unfold update_where. rewrite map_map. apply map_ext_in. intros y Hy%list_elem_of_In.
    destruct (has_team (Team_ID t) y) eqn:Hyid; [| done]. by rewrite (Honly y Hy Hyid).
  - intros y [-> | [Hy Hne]]%Hrow p Hp Hyp.
    + cbn in Hyp. rewrite Hyp in Hpar.
      apply andb_true_iff in Hpar as [[[Hv%String.eqb_eq Hne%negb_true_iff]%andb_true_iff _]%andb_true_iff Hq].
      apply visible_parent_row in Hq as (q & Hq & Hqid & ? & ? & ?). split; [done |].
      exists q. split_and!; [| done..| cbn; congruence | done]. apply Hold; [done |].
      apply Z.eqb_neq in Hne. congruence.
    + destruct (teams_nested _ Hf y Hy p Hp Hyp) as (Hv & q & Hq & Hqid & Hqp & Hqo & Hqv).
      split; [done |]. destruct (decide (p = Team_ID t)) as [-> | Hpt].
      * assert (q = x) as -> by (apply Honly; [done | by apply Z.eqb_eq]).
        exists (mkTeamRow u (team_DeletedAt x)). split_and!; [done | done | done | done |].
        by apply (Hvisible y).
      * exists q. split_and!; [apply Hold; [done | congruence] | done..].
  - refine (reparent_acyclic (below any_team (teams s)) _ (Team_ID t) (teams_acyclic _ Hf) _ _).
    + intros a b Ha (q & [-> | [Hq _]]%Hrow & Hqid & ? & ? & ?); [destruct Ha; rewrite <- Hqid; exact Hid' | by exists q].
    + intros p (q & [-> | [_ Hne]]%Hrow & Hqid & _ & _ & Hqp) Hr; [| done].
      cbn in Hqp. rewrite Hqp in Hpar.
      apply andb_true_iff in Hpar as [[[_ Hne%negb_true_iff%Z.eqb_neq]%andb_true_iff Hd]%andb_true_iff _].
      apply negb_true_iff, bool_decide_eq_false in Hd. apply Hd, descendants_iff; [apply Hf |].
      apply rtc_tc in Hr as [-> | Hr]; [done |]. exact Hr.
Qed.

Lemma below_keep_any keep ts x p : below keep ts x p -> below any_team ts x p.
Proof. intros (r & ? & ? & ? & _ & ?). by exists r. Qed.

Lemma delete_team_keeps org team now s r s' :
  forest (teams s) -> delete_team org team now s = (r, s') -> forest (teams s').
Proof.
  intros Hf Hd. unfold delete_team in Hd. injection Hd as _ <-. cbn [set_teams teams].
  set (ids := hierarchy s org team).
  set (hit := fun r => bool_decide (Team_ID (row_team r) ∈ ids)).
  assert (Hdead : forall x, team_present (deleted_team now x) = false) by done.
  assert (Hrow : forall y, y ∈ update_where hit (deleted_team now) (teams s) -> team_present y = true ->
            y ∈ teams s /\ team_id y ∉ ids).
  { intros y (z & Hz & ->)%update_where_elem. destruct (hit z) eqn:Hh; [by rewrite Hdead |].
    intros _. split; [done | by apply bool_decide_eq_false in Hh]. }
  split.
  - rewrite update_where_map; [apply Hf | done].
  - intros y Hy p Hp Hyp. apply Hrow in Hy as [Hy Hn]; [| done].
    destruct (teams_nested _ Hf y Hy p Hp Hyp) as (Hv & q & Hq & Hqid & Hqp & Hqo & Hqv).
    split; [done |]. exists q. split_and!; [| done..]. apply update_where_elem. exists q.
    split; [done |]. destruct (hit q) eqn:Hh; [| done]. destruct Hn.
    apply bool_decide_eq_true in Hh. unfold ids, hierarchy in Hh |- *.
    destruct (get_team s org team) as [t0 | e] eqn:Hg; [| by apply elem_of_nil in Hh]. cbn [is_Ok] in *.
    assert (Hstep : Team_OrganizationID (row_team q) = org -> below (of_org org) (teams s) (team_id y) (team_id q)).
    { intros Ho. exists y. split_and!; [done | done | done | | congruence].
      apply Z.eqb_eq. congruence. }
    apply elem_of_cons in Hh as [Hqt | Hqd].
    + assert (Horg : Team_OrganizationID (row_team q) = org).
      { unfold get_team in Hg. destruct (find_row _ _ _) as [x |] eqn:Hfx; [| done].
        apply find_row_Ok in Hfx as [Hx [[Hxid%Z.eqb_eq Hxo%Z.eqb_eq]%andb_true_iff _]%andb_true_iff].
        assert (q = x) as -> by (eapply NoDup_map_inj; [apply (teams_unique _ Hf) | done.. | unfold team_id; congruence]).
        done. }
      right. apply descendants_iff; [apply Hf |]. apply tc_once. rewrite <- Hqt. by apply Hstep.
    + right. apply descendants_iff in Hqd; [| apply Hf]. apply descendants_iff; [apply Hf |].
      eapply tc_l; [| exact Hqd]. apply Hstep. apply tc_first in Hqd as (z & (x & Hx & Hxid & _ & Hxo%Z.eqb_eq & _) & _).
      assert (q = x) as -> by (eapply NoDup_map_inj; [apply (teams_unique _ Hf) | done.. | unfold team_id in *; congruence]).
      done.
  - intros x Hx. apply (teams_acyclic _ Hf x). revert Hx. apply tc_congruence with (f := fun z => z).
    intros a b (q & Hq & <- & Hp & ? & ?). apply Hrow in Hq as [Hq _]; [| done]. by exists q.
Qed.

Section requests.
Context (lower : string -> string) (jsonb : list Z -> list Z) (world : forall X, effect X -> X).

(** The requests that do not write the table of teams. *)
Lemma teams_untouched X (e : effect X) x s s' :
  handle lower jsonb world X e s = (x, s') ->
  match e with
  | CreateTeam _ | UpdateTeam _ | DeleteTeam _ _ _ => True
  | _ => teams s' = teams s
  end.
Proof.
  destruct e; try exact (fun _ => I); cbn [handle];
    try (intros Hh; apply (f_equal snd) in Hh; cbn [snd] in Hh; subst s'; done);
    unfold create, create_invitation, revoke_invitation, accept_invitation, update_role, update_member,
      remove_member, update_organization, record_audit, put_team_member, remove_team_member,
      put_team_repository, remove_team_repository, put_collaborator, remove_collaborator; cbn zeta;
    repeat match goal with
    | |- context [if ?b then _ else _] =>
        lazymatch b with context [if _ then _ else _] => fail | _ => destruct b end
    | |- context [match ?o with Ok _ => _ | Err _ => _ end] => destruct o
    | |- context [match ?o with Some _ => _ | None => _ end = _] => destruct o
    end;
    intros Hh; apply (f_equal snd) in Hh; cbn [snd] in Hh; subst s'; done.
Qed.

(** One request of any service, or a change of the other tables. *)
Inductive step : db -> db -> Prop :=
| step_request X (e : effect X) x s s' : handle lower jsonb world X e s = (x, s') -> step s s'
| step_others s s' : teams s' = teams s -> step s s'.

Lemma step_forest s s' : step s s' -> forest (teams s) -> forest (teams s').
Proof.
  intros [X e x s1 s2 Hh | s1 s2 ->] Hf; [| done]. pose proof (teams_untouched X e x s1 s2 Hh) as Hu.
  destruct e; try (by rewrite Hu); cbn [handle] in Hh;
    [by eapply create_team_keeps | by eapply update_team_keeps | by eapply delete_team_keeps].
Qed.

Lemma steps_forest s s' : rtc step s s' -> forest (teams s) -> forest (teams s').
Proof. induction 1 as [| s1 s2 s3 Hst _ IH]; intros Hf; [done |]. by apply IH, (step_forest s1). Qed.

(** C27: Whatever requests are made, one after the other, the teams stay a forest: no
    team is above itself; a team below another is visible, as is its parent, which
    is present and of the same organization; so a secret team is at the top and
    has no team below it. *)
Theorem teams_stay_forest (s s' : db) :
  rtc step s s' -> forest (teams s) ->
  forest (teams s') /\
  forall r, r ∈ teams s' -> team_present r = true ->
    Team_Visibility (row_team r) = TeamVisibilitySecret ->
    ParentTeamID (row_team r) = None /\ forall x, ~ below any_team (teams s') x (team_id r).
Proof.
  intros Hr Hf. pose proof (steps_forest s s' Hr Hf) as Hf'. split; [done |].
  intros r Hin Hp Hv. split.
  - destruct (ParentTeamID (row_team r)) as [p |] eqn:Hpar; [| done].
    destruct (teams_nested _ Hf' r Hin p Hp Hpar) as [Hv' _]. by rewrite Hv in Hv'.
  - intros x (c & Hc & _ & Hcp & _ & Hcpar).
    destruct (teams_nested _ Hf' c Hc _ Hcp Hcpar) as (_ & q & Hq & Hqid & _ & _ & Hqv).
    assert (q = r) as -> by (eapply NoDup_map_inj; [apply (teams_unique _ Hf') | done..]). by rewrite Hv in Hqv.
Qed.
End requests.

Module hierarchy_examples.
Import Demo access.access_examples.

Definition new_team (slug : string) (parent : option UUID) : CreateTeamInput :=
  mkCreateTeamInput 10 alice parent slug slug EmptyString TeamVisibilityVisible.
(** [core] exists; three teams below it, one under the other. *)
Definition create (input : CreateTeamInput) (s : db) : db :=
  snd (run_ (team.Create EmptyString input) s).
Definition nested : db :=
  create (new_team "c" (Some 1002)) (create (new_team "b" (Some 1000)) (create (new_team "a" (Some 20)) start)).

Example nested_teams :
  map (fun r => (team_id r, ParentTeamID (row_team r))) (teams nested)
  = [(20, None); (1000, Some 20); (1002, Some 1000); (1004, Some 1002)].
Proof. vm_compute. reflexivity. Qed.

Definition move (id : UUID) (parent : option UUID) : UpdateTeamInput :=
  mkUpdateTeamInput 10 id alice parent "team" EmptyString TeamVisibilityVisible.

(** [core] cannot go below its own descendant; a deleted team takes those below it
    along. *)
Example no_circle :
  fst (run_ (team.Update EmptyString (move 20 (Some 1004))) nested)
  = Err (invalid "a team cannot be moved beneath its child") /\
  map team_present (teams (snd (run_ (team.Delete EmptyString 10 1000 alice) nested)))
  = [true; false; false; false].
Proof. split; vm_compute; reflexivity. Qed.

Lemma start_forest : forest (teams start).
Proof.
  split; [apply NoDup_singleton | |].
  - by intros r ->%list_elem_of_singleton p.
  - intros x Hx. apply tc_first in Hx as (y & (r & ->%list_elem_of_singleton & _ & _ & _ & ?) & _). done.
Qed.

Lemma request_steps {A} (p : prog effect A) s : rtc (step id id world) s (snd (run_ p s)).
Proof.
  unfold run_. revert s. induction p as [a | X e k IH]; intros s; [apply rtc_refl |]. rewrite exec_vis.
  destruct (handle id id world X e s) as [x s1] eqn:Hh.
  eapply rtc_l; [by eapply step_request | apply IH].
Qed.

Lemma nested_reached : rtc (step id id world) start nested.
Proof. unfold nested, create. do 2 (etransitivity; [| apply request_steps]). apply request_steps. Qed.

Lemma teams_stay_forest_witness :
  length (teams nested) = 4%nat /\ forest (teams nested) /\
  forall r, r ∈ teams nested -> team_present r = true ->
    Team_Visibility (row_team r) = TeamVisibilitySecret ->
    ParentTeamID (row_team r) = None /\ forall x, ~ below any_team (teams nested) x (team_id r).
Proof.
  split; [vm_compute; reflexivity |].
  apply (teams_stay_forest id id world start nested); [apply nested_reached | apply start_forest].
Defined.

Lemma descendants_exact_witness :
  descendants any_team nested 20 = [1000; 1002; 1004] /\
  (forall x, x ∈ descendants any_team nested 20 <-> tc (below any_team (teams nested)) x 20) /\
  forall more, (length (teams nested) <= more)%nat ->
    forall x, x ∈ levels more any_team (teams nested) [20] <-> x ∈ descendants any_team nested 20.
Proof.
  split; [vm_compute; reflexivity |].
  apply (descendants_exact any_team nested 20).
  apply (steps_forest id id world start nested nested_reached start_forest).
Defined.
End hierarchy_examples.
End hierarchy.
