(* ===== verification/Wire.v ===== *)
(** * Wire: [encoding/json] decoding into Go structs, with and without
    [DisallowUnknownFields].

    A struct type is its zero value: the list of its fields, each under its JSON
    name.  Decoding puts the members of an object into the fields one after the
    other, as [encoding/json] does: the last of several members wins, [null]
    clears a pointer or a slice and leaves anything else. *)

From S2P Require Import Prelude.
From S2P Require Import GoText.
From S2P Require Import Encoding.
From S2P Require Import Json.
From S2P Require Import JsonDecode.

Module wire.
Import jsondecode jsonfacts.

(** A Go variable by its type: [string], [int64], [*bool], [*string], [[]string]
    (its elements, and what else its backing array holds), [json.RawMessage], a
    struct, and a pointer to a struct, which is allocated as [zero]. *)
Inductive slot :=
| Text (s : string)
| Int64 (z : Z)
| BoolPtr (b : option bool)
| TextPtr (s : option string)
| Texts (elements : option (list string)) (spare : list string)
| Raw (text : list Z)
| Struct (fields : list (string * slot))
| Pointer (zero : list (string * slot)) (value : option (list (string * slot))).

Definition fields : Type := list (string * slot).

(** An array into a slice: an element [null] leaves what the backing array holds. *)
Fixpoint into_texts (vs : list value) (backing : list string) : option (list string) :=
  match vs with
  | [] => Some []
  | v :: vs =>
      s ← into_string v (hd EmptyString backing);
      rest ← into_texts vs (tl backing);
      Some (s :: rest)
  end.
Definition backing (elements : option (list string)) (spare : list string) : list string :=
  default [] elements ++ spare.

(** A member into the field of its name; [strict] is [DisallowUnknownFields]. *)
Definition put (strict : bool) (into : slot -> option slot) (name : list Z) (fs : fields)
    : option fields :=
  match List.find (fun f => same_name (fst f) name) fs with
  | None => if strict then None else Some fs
  | Some (field, old) =>
      new ← into old;
      Some (map (fun f => if fst f == field then (field, new) else f) fs)
  end.

(** A value into a variable. The text of a value matters to a [RawMessage] only,
    and those are fields of outermost structs. *)
Fixpoint into (strict : bool) (v : value) (old : slot) {struct v} : option slot :=
  let members :=
    fix members (ms : list (list Z * value)) (fs : fields) {struct ms} : option fields :=
      match ms with
      | [] => Some fs
      | (name, v) :: ms => fs ← put strict (into strict v) name fs; members ms fs
      end in
  match old with
  | Text s => Text <$> into_string v s
  | Int64 z => Int64 <$> into_int v z
  | BoolPtr _ =>
      match v with Null => Some (BoolPtr None) | Bool b => Some (BoolPtr (Some b)) | _ => None end
  | TextPtr s =>
      match v with
      | Null => Some (TextPtr None)
      | Str rs => Some (TextPtr (Some (text_of rs)))
      | _ => None
      end
  | Texts elements spare =>
      match v with
      | Null => Some (Texts None [])
      | Arr [] => Some (Texts (Some []) [])
      | Arr vs =>
          new ← into_texts vs (backing elements spare);
          Some (Texts (Some new) (skipn (length new) (backing elements spare)))
      | _ => None
      end
  | Raw _ => None
  | Struct fs =>
      match v with Null => Some old | Obj ms => Struct <$> members ms fs | _ => None end
  | Pointer zero value =>
      match v with
      | Null => Some (Pointer zero None)
      | Obj ms => (fun fs => Pointer zero (Some fs)) <$> members ms (default zero value)
      | _ => None
      end
  end.

(** A member of an outermost object: its name, its value and the value's text. *)
Record member := mkMember { m_name : list Z; m_value : value; m_text : list Z }.
Definition into_field (strict : bool) (m : member) (old : slot) : option slot :=
  match old with Raw _ => Some (Raw (m_text m)) | _ => into strict (m_value m) old end.
Fixpoint put_members (strict : bool) (ms : list member) (fs : fields) : option fields :=
  match ms with
  | [] => Some fs
  | m :: ms => fs ← put strict (into_field strict m) (m_name m) fs; put_members strict ms fs
  end.

(** ** The text of the members *)

(** How many runes are left where the value of each member begins and ends. *)
Fixpoint spans (fuel depth : nat) (rs : list Z) : list (nat * nat) :=
  match fuel with
  | O => []
  | S fuel =>
      match (rest ← expect 34 (skip_ws rs); '(_, rest) ← str rest; expect 58 (skip_ws rest)) with
      | None => []
      | Some start =>
          match parse fuel depth start with
          | None => []
          | Some (_, rest) =>
              (length (skip_ws start), length rest) ::
              match expect 44 (skip_ws rest) with
              | Some rest => spans fuel depth rest
              | None => []
              end
          end
      end
  end.
(** The bytes from where [from] runes are left to where [till] are. *)
Definition left_bytes (body : list Z) (n : nat) : nat :=
  let rs := decode body in Z.to_nat (total_width (skipn (length rs - n) rs)).
Definition slice (body : list Z) (span : nat * nat) : list Z :=
  let '(from, till) := span in
  firstn (left_bytes body from - left_bytes body till)
    (skipn (length body - left_bytes body from) body).

(** The members of the outermost object; none for [null]. *)
Definition outer_members (body : list Z) : option (list member) :=
  v ← read body;
  match v with
  | Null => Some []
  | Obj ms =>
      let rs := map fst (decode body) in
      let texts :=
        match expect 123 (skip_ws rs) with
        | Some rest => map (slice body) (spans (enough rs) maxNestingDepth rest)
        | None => []
        end in
      Some (zip_with (fun m text => mkMember (fst m) (snd m) text) ms texts)
  | _ => None
  end.

(** [json.Unmarshal], or a strict [Decoder] that must reach the end, into a struct. *)
Definition decode_into (strict : bool) (zero : fields) (body : list Z) : option fields :=
  ms ← outer_members body; put_members strict ms zero.

(** ** Reading the fields *)

Definition field (name : string) (fs : fields) : option slot :=
  snd <$> List.find (fun f => fst f == name) fs.
Definition text (name : string) (fs : fields) : string :=
  match field name fs with Some (Text s) => s | _ => EmptyString end.
Definition int (name : string) (fs : fields) : Z :=
  match field name fs with Some (Int64 z) => z | _ => 0 end.
Definition bool_ptr (name : string) (fs : fields) : option bool :=
  match field name fs with Some (BoolPtr b) => b | _ => None end.
Definition text_ptr (name : string) (fs : fields) : option string :=
  match field name fs with Some (TextPtr s) => s | _ => None end.
Definition texts (name : string) (fs : fields) : option (list string) :=
  match field name fs with Some (Texts l _) => l | _ => None end.
Definition raw (name : string) (fs : fields) : list Z :=
  match field name fs with Some (Raw b) => b | _ => [] end.
Definition struct (name : string) (fs : fields) : fields :=
  match field name fs with Some (Struct s) => s | _ => [] end.
Definition struct_ptr (name : string) (fs : fields) : option fields :=
  match field name fs with Some (Pointer _ s) => s | _ => None end.
End wire.
