(* ===== verification/Endpoint.v ===== *)
(** * Endpoint: the web and Git URLs a repository record may advertise
    (internal/federation/event.go).

    [GoEndpoint] stands for what the code calls of packages [net/url] and [net]. *)

From stdpp Require Import pretty.
From S2P Require Import Prelude.
From S2P Require Import GoText.
From S2P Require Import Syntax.
From S2P Require Import Webhook.

(** [url.URL] and [url.Userinfo]. *)
Record Userinfo := mkUserinfo { Username : string; Password : option string }.
Record URL := mkURL {
  Scheme : string; Opaque : string; User : option Userinfo; Host : string; Path : string;
  RawQuery : string; ForceQuery : bool; Fragment : string
}.

Class GoEndpoint := {
  url_Parse : string -> option URL;
  URL_String : URL -> string;
  Hostname : URL -> string;
  Port : URL -> string;
  EscapedPath : URL -> string;
  Userinfo_String : Userinfo -> string;
  ParseIP : string -> option net.IP
}.

Module endpoint.

Definition IsAbs (parsed : URL) : bool := Scheme parsed != EmptyString.

(** [strconv.Atoi]: an optional sign and decimal digits, within an [int]. *)
Fixpoint digits_value (s : string) (acc : Z) : option Z :=
  match s with
  | EmptyString => Some acc
  | String c s => if is_digit c then digits_value s (acc * 10 + (byte_of c - 48)) else None
  end.
Definition Atoi (s : string) : option Z :=
  let unsigned s := match s with EmptyString => None | _ => digits_value s 0 end in
  n ← match s with
      | String "-"%char s => Z.opp <$> unsigned s
      | String "+"%char s => unsigned s
      | _ => unsigned s
      end;
  if between (- 2 ^ 63) n (2 ^ 63 - 1) then Some n else None.
(** [strconv.Itoa]. *)
Definition Itoa (n : Z) : string := pretty n.

(** The rest of [s] after the last [c]: [strings.LastIndexByte]. *)
Fixpoint after_last (c : Ascii.ascii) (s : string) : option string :=
  match s with
  | EmptyString => None
  | String d s =>
      match after_last c s with
      | Some rest => Some rest
      | None => if Ascii.eqb d c then Some s else None
      end
  end.

Definition hasControl (value : string) : bool := existsb IsControl (runes value).

Definition host_rune (r : Z) : bool :=
  between 97 r 122 || between 65 r 90 || between 48 r 57 || (r =? 45).
Definition last_char (s : string) : option Ascii.ascii := String.get (String.length s - 1) s.
Definition is_hyphen (c : option Ascii.ascii) : bool :=
  match c with Some c => Ascii.eqb c "-"%char | None => false end.
Definition valid_label (label : string) : bool :=
  (label != EmptyString) && (len label <=? 63) && negb (is_hyphen (String.get 0 label))
  && negb (is_hyphen (last_char label)) && forallb host_rune (runes label).

Section endpoint.
Context `{GoUnicode, GoEndpoint}.

Definition validEndpointHost (hostname : string) : bool :=
  if (hostname == EmptyString) || Contains hostname "%" then false else
  if is_some (ParseIP hostname) then true else
  if (253 <? len hostname) || HasSuffix hostname "." then false else
  forallb valid_label (Split "."%char hostname).

(** Whether the authority names a port; [None] when it is malformed. *)
Definition has_port (parsed : URL) : option bool :=
  if HasPrefix (Host parsed) "[" then
    match after_last "]"%char (Host parsed) with
    | Some (String c _) =>
        if (Port parsed == EmptyString) || negb (Ascii.eqb c ":"%char) then None else Some true
    | _ => Some false
    end
  else if Contains (Host parsed) ":"
  then if Port parsed == EmptyString then None else Some true
  else Some false.

Definition validateEndpointAuthority (parsed : URL) (defaultPort : string) : result unit :=
  reject_if negb (validEndpointHost (Hostname parsed)) with New "host is invalid" ;;
  match has_port parsed with
  | None => Err (New "port is malformed")
  | Some false => Ok tt
  | Some true =>
      match Atoi (Port parsed) with
      | None => Err (New "port is malformed")
      | Some number =>
          reject_if (number <? 1) || (65535 <? number) || (Itoa number != Port parsed)
            with New "port is malformed" ;;
          reject_if Port parsed == defaultPort with New "default port must be omitted" ;;
          Ok tt
      end
  end.

Definition validateEndpointPath (parsed : URL) : result unit :=
  reject_if (Path parsed == EmptyString) || (Path parsed == "/") || negb (HasPrefix (Path parsed) "/")
    || hasControl (Path parsed) || Contains (Path parsed) "\"
    with New "path must be non-root and unambiguous" ;;
  let escaped := ToLower (EscapedPath parsed) in
  reject_if existsb (Contains escaped) ["%2e"; "%2f"; "%5c"]
    with New "path must not contain encoded dot, slash, or backslash characters" ;;
  reject_if existsb (fun component => (component == EmptyString) || (component == ".")
                                      || (component == ".."))
      (Split "/"%char (TrimPrefix (Path parsed) "/"))
    with New "path must not contain empty or dot segments" ;;
  Ok tt.

Definition parseEndpoint (value : string) : result URL :=
  reject_if (value == EmptyString) || hasControl value || Contains value "\"
    with New "must not contain control characters or backslashes" ;;
  match url_Parse value with
  | None => Err (New "must be a canonical absolute URI")
  | Some parsed =>
      reject_if negb (IsAbs parsed) || (Opaque parsed != EmptyString) || (Host parsed == EmptyString)
        || (URL_String parsed != value)
        with New "must be a canonical absolute URI" ;;
      reject_if (RawQuery parsed != EmptyString) || ForceQuery parsed || (Fragment parsed != EmptyString)
        || ContainsAny value "?#"
        with New "must not contain a query or fragment" ;;
      Ok parsed
  end.

Definition validateWebEndpoint (value : string) : result unit :=
  let* parsed := parseEndpoint value in
  reject_if is_some (User parsed) with New "must not contain user information" ;;
  reject_if (Scheme parsed != "https") && (Scheme parsed != "http") with New "must use HTTPS" ;;
  let* defaultPort :=
    if Scheme parsed == "http" then
      match ParseIP (Hostname parsed) with
      | Some ip => if net.IsLoopback ip then Ok "80"
                   else Err (New "must use HTTPS except on a literal loopback IP")
      | None => Err (New "must use HTTPS except on a literal loopback IP")
      end
    else Ok "443" in
  let* _ := validateEndpointAuthority parsed defaultPort in
  validateEndpointPath parsed.

Definition validateGitSSHEndpoint (value : string) : result unit :=
  let* parsed := parseEndpoint value in
  reject_if Scheme parsed != "ssh" with New "must be an absolute SSH URI" ;;
  let* _ :=
    match User parsed with
    | None => Ok tt
    | Some user =>
        reject_if is_some (Password user) || (Username user != "git") || (Userinfo_String user != "git")
          with New "username must be git and password must be absent" ;;
        Ok tt
    end in
  let* _ := validateEndpointAuthority parsed "22" in
  validateEndpointPath parsed.
End endpoint.
End endpoint.

(** An executable instance, for the witnesses: HTTPS URLs without user information. *)
Module EndpointDemo.
Import Demo.
Definition parse_url (s : string) : option URL :=
  if negb (HasPrefix s "https://") then None else
  match Split "/"%char (drop_chars 8 s) with
  | host :: segments =>
      Some (mkURL "https" EmptyString None host ("/" +:+ Join_ "/"%char segments) EmptyString false
              EmptyString)
  | [] => None
  end.
#[export] Instance go_endpoint : GoEndpoint := {|
  url_Parse := parse_url;
  URL_String u := Scheme u +:+ "://" +:+ Host u +:+ Path u;
  Hostname := Host;
  Port u := EmptyString;
  EscapedPath := Path;
  Userinfo_String := Username;
  ParseIP _ := None
|}.
Example repository_url :
  endpoint.validateWebEndpoint "https://forge.example/alice/tool" = Ok tt /\
  endpoint.validateWebEndpoint "https://forge.example/alice/../tool"
  = Err (New "path must not contain empty or dot segments").
Proof. split; vm_compute; reflexivity. Qed.
End EndpointDemo.
