(* ===== verification/Profile.v ===== *)
(** * Profile: developer profiles (package [internal/profile]). *)

From S2P Require Import Prelude.
From S2P Require Import GoText.
From S2P Require Import Syntax.
From S2P Require Import Endpoint.

Module profile.

Definition maxDisplayNameBytes : Z := 640.
Definition maxDisplayNameRunes : Z := 64.
Definition maxBioBytes : Z := 2560.
Definition maxBioRunes : Z := 256.
Definition maxWebsiteBytes : Z := 2048.
Definition maxLocationBytes : Z := 640.
Definition maxLocationRunes : Z := 64.

Definition ErrValidation : error := New "profile validation failed".
Definition ErrNotFound : error := New "profile not found".
Definition ErrProvider : error := New "profile provider failure".
Definition ErrAuthorization : error := New "AT Protocol profile authorization required".

Definition ValidationError (Field Problem : string) : error :=
  FieldError ErrValidation Field Problem.
(** Both unwrap to their class; the provider error to its cause as well. *)
Definition NotFoundError (DID : string) : error := CauseError ErrNotFound DID None.
Definition ProviderError (Operation : string) (Err : error) : error :=
  CauseError ErrProvider Operation (Some Err).
Definition AuthorizationError (Err : error) : error :=
  CauseError ErrAuthorization EmptyString (Some Err).

Record ProfileRecord := mkRecord {
  Record_DisplayName : string; Record_Bio : string; Record_Website : string;
  Record_Location : string; Record_CreatedAt : time
}.
Record Profile := mkProfile {
  DID : string; URI : string; CID : string; Handle : string; DisplayName : string; Bio : string;
  AvatarRef : string; Website : string; Location : string; RepositoryCount : Z;
  ContributionCount : Z; RecordCreatedAt : time; IndexedAt : time
}.
Record UpdateInput := mkUpdateInput {
  U_DisplayName : string; U_Bio : string; U_Website : string; U_Location : string
}.

(** The projection, the provider and the clock. *)
Inductive effect : Type -> Type :=
| profiles_Get (did : string) : effect (result Profile)
| remote_Get (did : string) : effect (result Profile)
| remote_Put (did : string) (record : ProfileRecord) : effect (result Profile)
| Now : effect time.

Definition validateText (field value : string) (maximumBytes maximumRunes : Z) : result unit :=
  reject_if negb (ValidString value) || (maximumBytes <? len value)
    || (maximumRunes <? RuneCountInString value)
    with ValidationError field "must be valid UTF-8 and contain at most %d bytes and %d characters" ;;
  Ok tt.

Section profile.
Context `{Syntax, GoUnicode, GoEndpoint}.

Definition UpdateInput_Validate (input : UpdateInput) : result unit :=
  let* _ := validateText "displayName" (U_DisplayName input) maxDisplayNameBytes maxDisplayNameRunes in
  let* _ := validateText "bio" (U_Bio input) maxBioBytes maxBioRunes in
  let* _ := validateText "location" (U_Location input) maxLocationBytes maxLocationRunes in
  reject_if (maxWebsiteBytes <? len (U_Website input)) || negb (ValidString (U_Website input))
    with ValidationError "website" "must be valid UTF-8 and contain at most 2048 bytes" ;;
  if U_Website input != EmptyString then
    match url_Parse (U_Website input) with
    | Some website =>
        reject_if (Scheme website != "https") || (Host website == EmptyString)
          || is_some (User website) || negb (endpoint.IsAbs website)
          with ValidationError "website" "must be an absolute HTTPS URL without user information" ;;
        Ok tt
    | None =>
        Err (ValidationError "website" "must be an absolute HTTPS URL without user information")
    end
  else Ok tt.

Definition validateDID (value : string) : result string :=
  let value := TrimSpace value in
  match ParseDID value with
  | Some _ => Ok value
  | None => Err (ValidationError "DID" "must be a valid AT Protocol DID")
  end.

Definition validateProviderProfile (profile : Profile) (did : string) : result unit :=
  reject_if DID profile != did
    with ValidationError "DID" "provider profile does not match requested identity" ;;
  reject_if URI profile != "at://" +:+ did +:+ "/dev.adenosine.profile/self"
    with ValidationError "URI" "must identify the authenticated DID's self profile record" ;;
  reject_if TrimSpace (CID profile) == EmptyString with ValidationError "CID" "must not be empty" ;;
  reject_if IsZero (RecordCreatedAt profile) with ValidationError "createdAt" "must not be empty" ;;
  UpdateInput_Validate (mkUpdateInput (DisplayName profile) (Bio profile) (Website profile)
    (Location profile)).

Definition Get (did : string) : svc effect Profile :=
  let? did := lift (validateDID did) in
  let! projected := call (profiles_Get did) in
  match projected with
  | Ok projected => done_ projected
  | Err err => if Is err ErrNotFound then fail (NotFoundError did)
               else fail (Errorf "get profile projection: %w" [W err])
  end.

Definition indexed (profile : Profile) (now : time) : Profile :=
  mkProfile (DID profile) (URI profile) (CID profile) (Handle profile) (DisplayName profile)
    (Bio profile) (AvatarRef profile) (Website profile) (Location profile) (RepositoryCount profile)
    (ContributionCount profile) (RecordCreatedAt profile) now.

Definition Update (authenticatedDID : string) (input : UpdateInput) : svc effect Profile :=
  let? did := lift (validateDID authenticatedDID) in
  let? _ := lift (UpdateInput_Validate input) in
  let! now := call Now in
  let now := UTC now in
  let! existing := call (remote_Get did) in
  let? createdAt :=
    match existing with
    | Ok existing =>
        match validateProviderProfile existing did with
        | Ok _ => done_ (RecordCreatedAt existing)
        | Err err => fail (ProviderError "get before update" err)
        end
    | Err err => if negb (Is err ErrNotFound) then fail (ProviderError "get before update" err)
                 else done_ now
    end in
  let? remoteProfile := wrapErr (ProviderError "put")
    (call (remote_Put did
       (mkRecord (U_DisplayName input) (U_Bio input) (U_Website input) (U_Location input) createdAt))) in
  let? _ := lift (mapErr (ProviderError "put") (validateProviderProfile remoteProfile did)) in
  done_ (indexed remoteProfile now).
End profile.
End profile.
