(* ===== verification/FederationEvent.v ===== *)
(** * FederationEvent: the events of the network (internal/federation/event.go).

    A Tap event is an envelope of JSON whose record or identity is decoded strictly
    and validated.  [TapSyntax] stands for the rest of package
    [indigo/atproto/syntax] that the decoder calls. *)

From S2P Require Import Prelude.
From S2P Require Import GoText.
From S2P Require Import Encoding.
From S2P Require Import Syntax.
From S2P Require Import Json.
From S2P Require Import Star.
From S2P Require Import Issue.
From S2P Require Import PullRequest.
From S2P Require Import Triage.
From S2P Require Import Transfer.
From S2P Require Import Wire.
From S2P Require Import Endpoint.
From S2P Require Import Profile.

(** [format_datetime t] is [t.UTC().Format(syntax.AtprotoDatetimeLayout)], a layout
    the package declares. *)
Class TapSyntax `{Syntax} := {
  ParseNSID : string -> option NSID;
  HandleT : Type;
  ParseHandle : string -> option HandleT;
  Normalize : HandleT -> HandleT;
  Handle_String : HandleT -> string;
  ParseDatetimeTime : string -> option time;
  format_datetime : time -> string
}.

Module federation.
Import wire.

Definition ProfileCollection : string := "dev.adenosine.profile".
Definition RepositoryCollection : string := "dev.adenosine.repo".
Definition StarCollection : string := star.Collection.
Definition IssueCollection : string := issue.Collection.
Definition IssueStatusCollection : string := issue.StatusCollection.
Definition PullRequestCollection : string := pullrequest.Collection.
Definition PullRequestStatusCollection : string := pullrequest.StatusCollection.
Definition PullRequestReviewCollection : string := pullrequest.ReviewCollection.
Definition OrganizationCollection : string := "dev.adenosine.organization".
Definition OrganizationGrantCollection : string := "dev.adenosine.organizationGrant".
Definition OrganizationMembershipCollection : string := "dev.adenosine.organizationMembership".
Definition OrganizationRevocationCollection : string := "dev.adenosine.organizationRevocation".
Definition RepositoryTransferCollection : string := transfer.ProposalCollection.
Definition RepositoryTransferAcceptanceCollection : string := transfer.AcceptanceCollection.
Definition RepositoryLabelCollection : string := triage.LabelCollection.
Definition RepositoryMilestoneCollection : string := triage.MilestoneCollection.
Definition SubjectTriageCollection : string := triage.MetadataCollection.
Definition maxEventBytes : Z := 2 ^ 20.

(** [slugPattern], [organizationSlugPattern], [starRKeyPattern] and
    [transferRKeyPattern]. *)
Definition match_slug : string -> bool :=
  match_first_rest (fun c => is_lower c || is_digit c)
    (fun c => is_lower c || is_digit c || any_char (Ascii.eqb c) "._-").
Definition match_organization_slug : string -> bool :=
  match_first_rest (fun c => is_lower c || is_digit c)
    (fun c => is_lower c || is_digit c || is_char "-"%char c).
Definition match_star_rkey : string -> bool :=
  match_class_n (fun c => is_lower c || in_range 50 55 c) 52.
Definition match_transfer_rkey : string -> bool := match_class_n is_lower_hex 32.

Definition ErrInvalidEvent : error := New "invalid federation event".

Record StrongRef := mkStrongRef { URI : string; CID : string }.
Record ProfileRecord := mkProfileRecord {
  Profile_DisplayName : string; Profile_Bio : string; Profile_Website : string;
  Profile_Location : string; Profile_CreatedAt : time
}.
Record RepositoryRecord := mkRepositoryRecord {
  Slug : string; Name : string; Description : string; DefaultBranch : string; GitHTTPS : string;
  GitSSH : string; Web : string; CreatedAt : time; UpdatedAt : time;
  Organization : option StrongRef; ForkedFrom : option StrongRef;
  TransferredFrom : option StrongRef; TransferredTo : option StrongRef
}.
Record RepositoryTransferRecord := mkRepositoryTransferRecord {
  Transfer_Repository : StrongRef; DestinationDID : string;
  DestinationOrganization : option StrongRef; DestinationOwner : string;
  Transfer_CreatedAt : time; Transfer_ExpiresAt : time
}.
Record RepositoryTransferAcceptanceRecord := mkRepositoryTransferAcceptanceRecord {
  Acceptance_Proposal : StrongRef; Acceptance_Repository : StrongRef; Acceptance_CreatedAt : time
}.
Record StarRecord := mkStarRecord {
  RepositoryURI : string; RepositoryCID : string; Star_CreatedAt : time
}.
Record OrganizationRecord := mkOrganizationRecord {
  Org_Slug : string; Org_Name : string; Org_Description : string; Org_Website : string;
  Org_Location : string; Org_CreatedAt : time; Org_UpdatedAt : time
}.
Record OrganizationGrantRecord := mkOrganizationGrantRecord {
  Grant_Organization : StrongRef; Grant_Subject : string; Grant_Role : string;
  Grant_Authority : StrongRef; Grant_CreatedAt : time; Grant_ExpiresAt : option time
}.
Record OrganizationMembershipRecord := mkOrganizationMembershipRecord {
  Member_Organization : StrongRef; Member_Grant : StrongRef; Member_Visibility : string;
  Member_CreatedAt : time; Member_UpdatedAt : time
}.
Record OrganizationRevocationRecord := mkOrganizationRevocationRecord {
  Revocation_Organization : StrongRef; Revocation_Grant : StrongRef; Revocation_Subject : string;
  Revocation_Authority : StrongRef; Revocation_CreatedAt : time
}.

(** The pointers of a [RecordEvent], of which a delete sets none and anything else
    sets one.  Whether the slices of triage metadata are nil matters to the
    projection, which stores a nil slice as NULL. *)
Inductive payload :=
| NoPayload
| ProfilePayload (value : ProfileRecord)
| RepositoryPayload (value : RepositoryRecord)
| StarPayload (value : StarRecord)
| IssuePayload (value : issue.IssueRecord)
| IssueCommentPayload (value : issue.CommentRecord)
| IssueStatusPayload (value : issue.StatusRecord)
| PullRequestPayload (value : pullrequest.PullRequestRecord)
| PullRequestStatusPayload (value : pullrequest.StatusRecord)
| PullRequestReviewPayload (value : pullrequest.ReviewRecord)
| OrganizationPayload (value : OrganizationRecord)
| OrganizationGrantPayload (value : OrganizationGrantRecord)
| OrganizationMembershipPayload (value : OrganizationMembershipRecord)
| OrganizationRevocationPayload (value : OrganizationRevocationRecord)
| RepositoryTransferPayload (value : RepositoryTransferRecord)
| RepositoryTransferAcceptancePayload (value : RepositoryTransferAcceptanceRecord)
| RepositoryLabelPayload (value : triage.LabelRecord)
| RepositoryMilestonePayload (value : triage.MilestoneRecord)
| SubjectTriagePayload (value : triage.MetadataRecord) (nil_labels nil_assignees : bool).

Record RecordEvent := mkRecordEvent {
  DID : string; Collection : string; RKey : string; RecordURI : string; Action : string;
  RecordCID : string; RawRecord : list Z; Payload : payload
}.
Record IdentityEvent := mkIdentityEvent {
  Identity_DID : string; Handle : string; Status : string; IsActive : bool
}.
(** [Record] and [Identity] are pointers. *)
Record Event := mkEvent {
  ID : Z; Type_ : string; Record_ : option RecordEvent; Identity : option IdentityEvent
}.

(** ** The structs the decoder reads into, at their zero values *)

Definition empty : slot := Text EmptyString.
Definition zero_ref : fields := [("URI", empty); ("CID", empty)].
Definition zero_envelope : fields :=
  [("id", Int64 0); ("type", empty); ("record", Raw []); ("identity", Raw [])].
Definition zero_record : fields :=
  [("live", BoolPtr None); ("rev", empty); ("did", empty); ("collection", empty); ("rkey", empty);
   ("action", empty); ("cid", empty); ("record", Raw [])].
Definition zero_identity : fields :=
  [("did", empty); ("handle", empty); ("status", empty); ("is_active", BoolPtr None)].

Definition ref (name : string) (fs : fields) : StrongRef :=
  let v := struct name fs in mkStrongRef (text "URI" v) (text "CID" v).
Definition ref_ptr (name : string) (fs : fields) : option StrongRef :=
  (fun v => mkStrongRef (text "URI" v) (text "CID" v)) <$> struct_ptr name fs.
Definition to_issue (r : StrongRef) : issue.StrongRef := issue.mkStrongRef (URI r) (CID r).
Definition to_pull (r : StrongRef) : pullrequest.StrongRef := pullrequest.mkStrongRef (URI r) (CID r).
Definition to_triage (r : StrongRef) : triage.StrongRef := triage.mkStrongRef (URI r) (CID r).

Definition invalid (format : string) (arguments : list operand) : error :=
  Errorf "%w: %s" (W ErrInvalidEvent :: Str format :: arguments).
(** [%v] of an error: it is not wrapped. *)
Definition invalidly (format : string) (err : error) : error := invalid format [V err].

(** A run-time panic: an error that no code raises. *)
Definition panic : error := New "runtime error: index out of range".

Definition decodeStrict (raw : list Z) (target : fields) : result fields :=
  match decode_into true target raw with
  | Some fs => Ok fs
  | None => Err (New "json: cannot decode")
  end.

Definition validText (value : string) (maximumBytes maximumRunes : Z) (required : bool) : bool :=
  (negb required || (value != EmptyString)) && ValidString value && (len value <=? maximumBytes)
  && (RuneCountInString value <=? maximumRunes).

(** The components of a branch; [None] is an index past the end of an empty one. *)
Fixpoint valid_components (components : list string) : option bool :=
  match components with
  | [] => Some true
  | component :: components =>
      first ← String.get 0 component;
      if is_char "."%char first || HasSuffix component ".lock" then Some false
      else valid_components components
  end.
Definition validDefaultBranch (value : string) : option bool :=
  if negb (validText value 255 255 true) || (value == "@") then Some false else
  first ← String.get 0 value;
  last ← endpoint.last_char value;
  if is_char "-"%char first || is_char "/"%char first || is_char "/"%char last
     || is_char "."%char last then Some false else
  if Contains value ".." || Contains value "//" || Contains value "@{" then Some false else
  if existsb (fun character => IsControl character || ContainsRune " ~^:?*[\" character)
       (runes value) then Some false else
  valid_components (Split "/"%char value).

Section federation.
Context `{TapSyntax, GoUnicode, GoEndpoint, UUIDs}.

Definition canonicalDID (value : string) : result unit :=
  match ParseDID value with
  | Some did => reject_if DID_String did != value with invalid "did is not canonical" [] ;; Ok tt
  | None => Err (invalid "did is not canonical" [])
  end.

Definition canonicalDatetime (value : string) : result time :=
  match ParseDatetimeTime value with
  | Some parsed =>
      reject_if format_datetime parsed != value with invalid "datetime is not canonical" [] ;;
      Ok parsed
  | None => Err (invalid "datetime is not canonical" [])
  end.

Definition optionalCanonicalDatetime (value : option string) : result (option time) :=
  match value with
  | None => Ok None
  | Some value => let* parsed := canonicalDatetime value in Ok (Some parsed)
  end.

Definition validateStrongRef (value : StrongRef) (collection : string) : result unit :=
  let* _ :=
    match ParseATURI (URI value) with
    | Some uri => reject_if ATURI_String uri != URI value
                    with invalid "strong reference URI is invalid" [] ;; Ok tt
    | None => Err (invalid "strong reference URI is invalid" [])
    end in
  let* _ :=
    match ParseCID (CID value) with
    | Some cid => reject_if CID_String cid != CID value
                    with invalid "strong reference CID is invalid" [] ;; Ok tt
    | None => Err (invalid "strong reference CID is invalid" [])
    end in
  reject_if (collection != EmptyString) && negb (Contains (URI value) ("/" +:+ collection +:+ "/"))
    with invalid "strong reference collection is invalid" [] ;;
  Ok tt.
(** An optional reference is validated when it is there. *)
Definition validateOptionalRef (value : option StrongRef) (collection : string) : result unit :=
  match value with Some value => validateStrongRef value collection | None => Ok tt end.

(** ** Records *)

Definition decodeRepositoryLabelRecord (raw : list Z) : result triage.LabelRecord :=
  let* wire := mapErr (invalidly "decode repository label: %v") (decodeStrict raw
    [("$type", empty); ("repository", Struct zero_ref); ("name", empty); ("color", empty);
     ("description", empty); ("createdAt", empty); ("updatedAt", empty)]) in
  reject_if text "$type" wire != RepositoryLabelCollection
    with invalid "repository label type is invalid" [] ;;
  let* createdAt := canonicalDatetime (text "createdAt" wire) in
  let* updatedAt := canonicalDatetime (text "updatedAt" wire) in
  let value := triage.mkLabelRecord (to_triage (ref "repository" wire)) (text "name" wire)
                 (text "color" wire) (text "description" wire) createdAt updatedAt in
  let* _ := mapErr (invalidly "repository label: %v") (triage.LabelRecord_Validate value) in
  Ok value.

Definition decodeRepositoryMilestoneRecord (raw : list Z) : result triage.MilestoneRecord :=
  let* wire := mapErr (invalidly "decode repository milestone: %v") (decodeStrict raw
    [("$type", empty); ("repository", Struct zero_ref); ("title", empty); ("description", empty);
     ("state", empty); ("dueAt", TextPtr None); ("closedAt", TextPtr None);
     ("createdAt", empty); ("updatedAt", empty)]) in
  reject_if text "$type" wire != RepositoryMilestoneCollection
    with invalid "repository milestone type is invalid" [] ;;
  let* createdAt := canonicalDatetime (text "createdAt" wire) in
  let* updatedAt := canonicalDatetime (text "updatedAt" wire) in
  let* dueAt := optionalCanonicalDatetime (text_ptr "dueAt" wire) in
  let* closedAt := optionalCanonicalDatetime (text_ptr "closedAt" wire) in
  let value := triage.mkMilestoneRecord (to_triage (ref "repository" wire)) (text "title" wire)
                 (text "description" wire) (text "state" wire) dueAt closedAt createdAt updatedAt in
  let* _ := mapErr (invalidly "repository milestone: %v") (triage.MilestoneRecord_Validate value) in
  Ok value.

(** The record, and whether its labels and its assignees are nil slices. *)
Definition decodeSubjectTriageRecord (raw : list Z) : result (triage.MetadataRecord * bool * bool) :=
  let* wire := mapErr (invalidly "decode subject triage: %v") (decodeStrict raw
    [("$type", empty); ("subject", Struct zero_ref); ("kind", empty);
     ("repository", Struct zero_ref); ("labels", Texts None []); ("assignees", Texts None []);
     ("milestone", empty); ("createdAt", empty); ("updatedAt", empty)]) in
  reject_if text "$type" wire != SubjectTriageCollection
    with invalid "subject triage type is invalid" [] ;;
  let* createdAt := canonicalDatetime (text "createdAt" wire) in
  let* updatedAt := canonicalDatetime (text "updatedAt" wire) in
  let value := triage.mkMetadataRecord (to_triage (ref "subject" wire)) (text "kind" wire)
                 (to_triage (ref "repository" wire)) (default [] (texts "labels" wire))
                 (default [] (texts "assignees" wire)) (text "milestone" wire) createdAt updatedAt in
  let* _ := mapErr (invalidly "subject triage: %v") (triage.MetadataRecord_Validate value) in
  Ok (value, negb (is_some (texts "labels" wire)), negb (is_some (texts "assignees" wire))).

Definition decodePullRequestRecord (raw : list Z) : result pullrequest.PullRequestRecord :=
  let* wire := mapErr (invalidly "decode pull request record: %v") (decodeStrict raw
    [("$type", empty); ("sourceRepository", Struct zero_ref); ("targetRepository", Struct zero_ref);
     ("sourceBranch", empty); ("targetBranch", empty); ("headSHA", empty); ("title", empty);
     ("body", empty); ("createdAt", empty); ("updatedAt", empty)]) in
  reject_if text "$type" wire != PullRequestCollection
    with invalid "pull request record type is invalid" [] ;;
  let* createdAt := canonicalDatetime (text "createdAt" wire) in
  let* updatedAt := canonicalDatetime (text "updatedAt" wire) in
  let value := pullrequest.mkRecord (to_pull (ref "sourceRepository" wire))
                 (to_pull (ref "targetRepository" wire)) (text "sourceBranch" wire)
                 (text "targetBranch" wire) (text "headSHA" wire) (text "title" wire)
                 (text "body" wire) createdAt updatedAt in
  let* _ := mapErr (invalidly "pull request record: %v") (pullrequest.Record_Validate value) in
  Ok value.

Definition decodePullRequestStatusRecord (raw : list Z) : result pullrequest.StatusRecord :=
  let* wire := mapErr (invalidly "decode pull request status record: %v") (decodeStrict raw
    [("$type", empty); ("subject", Struct zero_ref); ("targetRepository", Struct zero_ref);
     ("state", empty); ("mergeCommitSHA", empty); ("createdAt", empty); ("updatedAt", empty)]) in
  reject_if text "$type" wire != PullRequestStatusCollection
    with invalid "pull request status record type is invalid" [] ;;
  let* createdAt := canonicalDatetime (text "createdAt" wire) in
  let* updatedAt := canonicalDatetime (text "updatedAt" wire) in
  let value := pullrequest.mkStatusRecord (to_pull (ref "subject" wire))
                 (to_pull (ref "targetRepository" wire)) (text "state" wire)
                 (text "mergeCommitSHA" wire) createdAt updatedAt in
  let* _ := mapErr (invalidly "pull request status record: %v")
              (pullrequest.StatusRecord_Validate value) in
  Ok value.

Definition decodePullRequestReviewRecord (raw : list Z) : result pullrequest.ReviewRecord :=
  let* wire := mapErr (invalidly "decode pull request review record: %v") (decodeStrict raw
    [("$type", empty); ("subject", Struct zero_ref); ("verdict", empty); ("body", empty);
     ("createdAt", empty); ("updatedAt", empty)]) in
  reject_if text "$type" wire != PullRequestReviewCollection
    with invalid "pull request review record type is invalid" [] ;;
  let* createdAt := canonicalDatetime (text "createdAt" wire) in
  let* updatedAt := canonicalDatetime (text "updatedAt" wire) in
  let value := pullrequest.mkReviewRecord (to_pull (ref "subject" wire)) (text "verdict" wire)
                 (text "body" wire) createdAt updatedAt in
  let* _ := mapErr (invalidly "pull request review record: %v")
              (pullrequest.ReviewRecord_Validate value) in
  Ok value.

Definition decodeIssueCommentRecord (raw : list Z) : result issue.CommentRecord :=
  let* wire := mapErr (invalidly "decode issue comment record: %v") (decodeStrict raw
    [("$type", empty); ("subject", Struct zero_ref); ("parent", Pointer zero_ref None);
     ("body", empty); ("createdAt", empty); ("updatedAt", empty)]) in
  reject_if text "$type" wire != issue.CommentCollection
    with invalid "issue comment record type is invalid" [] ;;
  let* createdAt := canonicalDatetime (text "createdAt" wire) in
  let* updatedAt := canonicalDatetime (text "updatedAt" wire) in
  let value := issue.mkCommentRecord (to_issue (ref "subject" wire))
                 (to_issue <$> ref_ptr "parent" wire) (text "body" wire) createdAt updatedAt in
  let* _ := mapErr (invalidly "issue comment record: %v") (issue.CommentRecord_Validate value) in
  Ok value.

Definition decodeIssueRecord (raw : list Z) : result issue.IssueRecord :=
  let* wire := mapErr (invalidly "decode issue record: %v") (decodeStrict raw
    [("$type", empty); ("repository", Struct zero_ref); ("title", empty); ("body", empty);
     ("createdAt", empty); ("updatedAt", empty)]) in
  reject_if text "$type" wire != IssueCollection with invalid "issue record type is invalid" [] ;;
  let* createdAt := canonicalDatetime (text "createdAt" wire) in
  let* updatedAt := canonicalDatetime (text "updatedAt" wire) in
  let value := issue.mkRecord (to_issue (ref "repository" wire)) (text "title" wire)
                 (text "body" wire) createdAt updatedAt in
  let* _ := mapErr (invalidly "issue record: %v") (issue.Record_Validate value) in
  Ok value.

Definition decodeIssueStatusRecord (raw : list Z) : result issue.StatusRecord :=
  let* wire := mapErr (invalidly "decode issue status record: %v") (decodeStrict raw
    [("$type", empty); ("subject", Struct zero_ref); ("repository", Struct zero_ref);
     ("state", empty); ("createdAt", empty); ("updatedAt", empty)]) in
  reject_if text "$type" wire != IssueStatusCollection
    with invalid "issue status record type is invalid" [] ;;
  let* createdAt := canonicalDatetime (text "createdAt" wire) in
  let* updatedAt := canonicalDatetime (text "updatedAt" wire) in
  let value := issue.mkStatusRecord (to_issue (ref "subject" wire)) (to_issue (ref "repository" wire))
                 (text "state" wire) createdAt updatedAt in
  let* _ := mapErr (invalidly "issue status record: %v") (issue.StatusRecord_Validate value) in
  Ok value.

Definition decodeStarRecord (raw : list Z) : result StarRecord :=
  let* wire := mapErr (invalidly "decode star record: %v") (decodeStrict raw
    [("$type", empty); ("subject", Struct [("uri", empty); ("cid", empty)]);
     ("createdAt", empty)]) in
  reject_if text "$type" wire != StarCollection with invalid "star record type is invalid" [] ;;
  let subject := struct "subject" wire in
  let target := star.mkTarget (text "uri" subject) (text "cid" subject) in
  let* _ := mapErr (invalidly "star subject: %v") (star.Target_Validate target) in
  let* createdAt := canonicalDatetime (text "createdAt" wire) in
  Ok (mkStarRecord (text "uri" subject) (text "cid" subject) createdAt).

Definition decodeProfileRecord (raw : list Z) : result ProfileRecord :=
  let* wire := mapErr (invalidly "decode profile record: %v") (decodeStrict raw
    [("$type", empty); ("displayName", empty); ("bio", empty); ("website", empty);
     ("location", empty); ("createdAt", empty)]) in
  reject_if text "$type" wire != ProfileCollection
    with invalid "profile record type is invalid" [] ;;
  let* createdAt := canonicalDatetime (text "createdAt" wire) in
  let* _ := mapErr (invalidly "profile record: %v") (profile.UpdateInput_Validate
    (profile.mkUpdateInput (text "displayName" wire) (text "bio" wire) (text "website" wire)
       (text "location" wire))) in
  Ok (mkProfileRecord (text "displayName" wire) (text "bio" wire) (text "website" wire)
        (text "location" wire) createdAt).

Definition decodeOrganizationRecord (raw : list Z) : result OrganizationRecord :=
  let* wire := mapErr (invalidly "decode organization record: %v") (decodeStrict raw
    [("$type", empty); ("slug", empty); ("name", empty); ("description", empty);
     ("website", empty); ("location", empty); ("createdAt", empty); ("updatedAt", empty)]) in
  reject_if (text "$type" wire != OrganizationCollection) || (100 <? len (text "slug" wire))
    || negb (match_organization_slug (text "slug" wire))
    || negb (validText (text "name" wire) 255 100 true)
    || negb (validText (text "description" wire) 2000 2000 false)
    || negb (validText (text "location" wire) 255 100 false)
    with invalid "organization record fields are invalid" [] ;;
  reject_if (text "website" wire != EmptyString)
    && ((2048 <? len (text "website" wire))
        || negb (is_Ok (endpoint.validateWebEndpoint (text "website" wire))))
    with invalid "organization website is invalid" [] ;;
  let* createdAt := canonicalDatetime (text "createdAt" wire) in
  let* updatedAt := canonicalDatetime (text "updatedAt" wire) in
  reject_if Before updatedAt createdAt
    with invalid "organization updatedAt must not precede createdAt" [] ;;
  Ok (mkOrganizationRecord (text "slug" wire) (text "name" wire) (text "description" wire)
        (text "website" wire) (text "location" wire) createdAt updatedAt).

Definition decodeOrganizationGrantRecord (raw : list Z) : result OrganizationGrantRecord :=
  let* wire := mapErr (invalidly "decode organization grant: %v") (decodeStrict raw
    [("$type", empty); ("organization", Struct zero_ref); ("subject", empty); ("role", empty);
     ("authority", Struct zero_ref); ("createdAt", empty); ("expiresAt", empty)]) in
  reject_if (text "$type" wire != OrganizationGrantCollection)
    || ((text "role" wire != "owner") && (text "role" wire != "member"))
    || negb (is_Ok (canonicalDID (text "subject" wire)))
    with invalid "organization grant fields are invalid" [] ;;
  let* _ := validateStrongRef (ref "organization" wire) OrganizationCollection in
  let* _ := validateStrongRef (ref "authority" wire) EmptyString in
  let* createdAt := canonicalDatetime (text "createdAt" wire) in
  let* expiresAt :=
    if text "expiresAt" wire != EmptyString then
      match canonicalDatetime (text "expiresAt" wire) with
      | Ok parsed => reject_if negb (After parsed createdAt)
                       with invalid "organization grant expiry is invalid" [] ;; Ok (Some parsed)
      | Err _ => Err (invalid "organization grant expiry is invalid" [])
      end
    else Ok None in
  Ok (mkOrganizationGrantRecord (ref "organization" wire) (text "subject" wire) (text "role" wire)
        (ref "authority" wire) createdAt expiresAt).

Definition decodeOrganizationMembershipRecord (raw : list Z)
    : result OrganizationMembershipRecord :=
  let* wire := mapErr (invalidly "decode organization membership: %v") (decodeStrict raw
    [("$type", empty); ("organization", Struct zero_ref); ("grant", Struct zero_ref);
     ("visibility", empty); ("createdAt", empty); ("updatedAt", empty)]) in
  reject_if (text "$type" wire != OrganizationMembershipCollection)
    || (text "visibility" wire != "public")
    with invalid "organization membership fields are invalid" [] ;;
  let* _ := validateStrongRef (ref "organization" wire) OrganizationCollection in
  let* _ := validateStrongRef (ref "grant" wire) OrganizationGrantCollection in
  let* createdAt := canonicalDatetime (text "createdAt" wire) in
  let* updatedAt := canonicalDatetime (text "updatedAt" wire) in
  reject_if Before updatedAt createdAt
    with invalid "organization membership updatedAt must not precede createdAt" [] ;;
  Ok (mkOrganizationMembershipRecord (ref "organization" wire) (ref "grant" wire)
        (text "visibility" wire) createdAt updatedAt).

Definition decodeOrganizationRevocationRecord (raw : list Z)
    : result OrganizationRevocationRecord :=
  let* wire := mapErr (invalidly "decode organization revocation: %v") (decodeStrict raw
    [("$type", empty); ("organization", Struct zero_ref); ("grant", Struct zero_ref);
     ("subject", empty); ("authority", Struct zero_ref); ("createdAt", empty)]) in
  reject_if (text "$type" wire != OrganizationRevocationCollection)
    || negb (is_Ok (canonicalDID (text "subject" wire)))
    with invalid "organization revocation fields are invalid" [] ;;
  let* _ := validateStrongRef (ref "organization" wire) OrganizationCollection in
  let* _ := validateStrongRef (ref "grant" wire) OrganizationGrantCollection in
  let* _ := validateStrongRef (ref "authority" wire) EmptyString in
  let* createdAt := canonicalDatetime (text "createdAt" wire) in
  Ok (mkOrganizationRevocationRecord (ref "organization" wire) (ref "grant" wire)
        (text "subject" wire) (ref "authority" wire) createdAt).

(** The struct of [decodeRepositoryRecord]. *)
Definition zero_repository : fields :=
  [("$type", empty); ("slug", empty); ("name", empty); ("description", empty);
   ("organization", Pointer zero_ref None); ("forkedFrom", Pointer zero_ref None);
   ("transferredFrom", Pointer zero_ref None); ("transferredTo", Pointer zero_ref None);
   ("defaultBranch", empty); ("git", Struct [("https", empty); ("ssh", empty)]);
   ("web", empty); ("createdAt", empty); ("updatedAt", empty)].

Definition decodeRepositoryRecord (raw : list Z) : result RepositoryRecord :=
  let* wire := mapErr (invalidly "decode repository record: %v") (decodeStrict raw zero_repository) in
  reject_if text "$type" wire != RepositoryCollection
    with invalid "repository record type is invalid" [] ;;
  reject_if (100 <? len (text "slug" wire)) || negb (match_slug (text "slug" wire))
    with invalid "repository slug is invalid" [] ;;
  reject_if negb (validText (text "name" wire) 100 100 true)
    || negb (validText (text "description" wire) 2000 2000 false)
    with invalid "repository text fields are invalid" [] ;;
  let* _ :=
    match validDefaultBranch (text "defaultBranch" wire) with
    | None => Err panic
    | Some valid => reject_if negb valid
                      with invalid "repository text fields are invalid" [] ;; Ok tt
    end in
  let https := text "https" (struct "git" wire) in
  let ssh := text "ssh" (struct "git" wire) in
  reject_if (2048 <? len https) || (2048 <? len ssh) || (2048 <? len (text "web" wire))
    with invalid "repository URL is too long" [] ;;
  let* _ := mapErr (invalidly "git https URL: %v") (endpoint.validateWebEndpoint https) in
  let* _ := (if ssh != EmptyString
             then mapErr (invalidly "git ssh URL: %v") (endpoint.validateGitSSHEndpoint ssh)
             else Ok tt) in
  let* _ := mapErr (invalidly "web URL: %v") (endpoint.validateWebEndpoint (text "web" wire)) in
  let* _ := validateOptionalRef (ref_ptr "organization" wire) OrganizationCollection in
  let* _ := validateOptionalRef (ref_ptr "forkedFrom" wire) RepositoryCollection in
  let* _ := validateOptionalRef (ref_ptr "transferredFrom" wire) RepositoryCollection in
  let* _ := validateOptionalRef (ref_ptr "transferredTo" wire) RepositoryCollection in
  let* createdAt := canonicalDatetime (text "createdAt" wire) in
  let* updatedAt := canonicalDatetime (text "updatedAt" wire) in
  reject_if Before updatedAt createdAt
    with invalid "repository updatedAt must not precede createdAt" [] ;;
  Ok (mkRepositoryRecord (text "slug" wire) (text "name" wire) (text "description" wire)
        (text "defaultBranch" wire) https ssh (text "web" wire) createdAt updatedAt
        (ref_ptr "organization" wire) (ref_ptr "forkedFrom" wire)
        (ref_ptr "transferredFrom" wire) (ref_ptr "transferredTo" wire)).

Definition decodeRepositoryTransferRecord (raw : list Z) : result RepositoryTransferRecord :=
  let* wire := mapErr (invalidly "decode repository transfer: %v") (decodeStrict raw
    [("$type", empty); ("repository", Struct zero_ref); ("destinationDID", empty);
     ("destinationOrganization", Pointer zero_ref None); ("destinationOwner", empty);
     ("createdAt", empty); ("expiresAt", empty)]) in
  reject_if (text "$type" wire != RepositoryTransferCollection)
    || negb (is_Ok (canonicalDID (text "destinationDID" wire)))
    || negb (validText (text "destinationOwner" wire) 253 253 true)
    with invalid "repository transfer fields are invalid" [] ;;
  let* _ := validateStrongRef (ref "repository" wire) RepositoryCollection in
  let* _ := validateOptionalRef (ref_ptr "destinationOrganization" wire) OrganizationCollection in
  let* createdAt := canonicalDatetime (text "createdAt" wire) in
  let* expiresAt :=
    match canonicalDatetime (text "expiresAt" wire) with
    | Ok expiresAt => reject_if negb (After expiresAt createdAt)
                        with invalid "repository transfer expiry is invalid" [] ;; Ok expiresAt
    | Err _ => Err (invalid "repository transfer expiry is invalid" [])
    end in
  Ok (mkRepositoryTransferRecord (ref "repository" wire) (text "destinationDID" wire)
        (ref_ptr "destinationOrganization" wire) (text "destinationOwner" wire)
        createdAt expiresAt).

Definition decodeRepositoryTransferAcceptanceRecord (raw : list Z)
    : result RepositoryTransferAcceptanceRecord :=
  let* wire := mapErr (invalidly "decode repository transfer acceptance: %v") (decodeStrict raw
    [("$type", empty); ("proposal", Struct zero_ref); ("repository", Struct zero_ref);
     ("createdAt", empty)]) in
  reject_if text "$type" wire != RepositoryTransferAcceptanceCollection
    with invalid "repository transfer acceptance type is invalid" [] ;;
  let* _ := validateStrongRef (ref "proposal" wire) RepositoryTransferCollection in
  let* _ := validateStrongRef (ref "repository" wire) RepositoryCollection in
  let* createdAt := canonicalDatetime (text "createdAt" wire) in
  Ok (mkRepositoryTransferAcceptanceRecord (ref "proposal" wire) (ref "repository" wire) createdAt).

Definition decodeIdentityEvent (raw : list Z) : result IdentityEvent :=
  let* wire := mapErr (invalidly "decode identity event: %v") (decodeStrict raw zero_identity) in
  let* _ := canonicalDID (text "did" wire) in
  match bool_ptr "is_active" wire with
  | Some isActive =>
      reject_if text "status" wire == EmptyString
        with invalid "identity status and isActive are required" [] ;;
      let* _ :=
        if text "handle" wire != EmptyString then
          match ParseHandle (text "handle" wire) with
          | Some handle => reject_if Handle_String (Normalize handle) != text "handle" wire
                             with invalid "handle is not canonical" [] ;; Ok tt
          | None => Err (invalid "handle is not canonical" [])
          end
        else Ok tt in
      Ok (mkIdentityEvent (text "did" wire) (text "handle" wire) (text "status" wire) isActive)
  | None => Err (invalid "identity status and isActive are required" [])
  end.

(** ** Record events *)

Definition collections : list string :=
  [ProfileCollection; RepositoryCollection; StarCollection; IssueCollection;
   issue.CommentCollection; IssueStatusCollection; PullRequestCollection;
   PullRequestStatusCollection; PullRequestReviewCollection; OrganizationCollection;
   OrganizationGrantCollection; OrganizationMembershipCollection; OrganizationRevocationCollection;
   RepositoryTransferCollection; RepositoryTransferAcceptanceCollection;
   RepositoryLabelCollection; RepositoryMilestoneCollection; SubjectTriageCollection].

(** The checks of the record key each collection asks for, in their order. *)
Definition checkRecordKey (collection rkey : string) : result unit :=
  let when (cond : bool) (check : result unit) : result unit := if cond then check else Ok tt in
  let shaped (ok : bool) (message : string) : result unit :=
    reject_if negb ok with invalid message [] ;; Ok tt in
  let* _ := when (collection == ProfileCollection)
              (shaped (rkey == "self") "profile rkey must be self") in
  let* _ := when (collection == StarCollection)
              (shaped (match_star_rkey rkey) "star rkey is not deterministic key shaped") in
  let* _ := when (collection == IssueCollection)
              (mapErr (invalidly "issue rkey: %v") (issue.ValidateRecordKey rkey)) in
  let* _ := when (collection == issue.CommentCollection)
              (mapErr (invalidly "issue comment rkey: %v") (issue.ValidateRecordKey rkey)) in
  let* _ := when (collection == IssueStatusCollection)
              (shaped (match_star_rkey rkey) "issue status rkey is not deterministic key shaped") in
  let* _ := when (collection == PullRequestStatusCollection)
              (shaped (match_star_rkey rkey)
                 "pull request status rkey is not deterministic key shaped") in
  let* _ := when ((collection == PullRequestCollection) || (collection == PullRequestReviewCollection))
              (mapErr (invalidly "pull request record rkey: %v") (pullrequest.ValidateRecordKey rkey)) in
  let* _ := when ((collection == RepositoryLabelCollection)
                  || (collection == RepositoryMilestoneCollection))
              (mapErr (invalidly "triage definition rkey: %v") (triage.ValidateRecordKey rkey)) in
  let* _ := when (collection == SubjectTriageCollection)
              (shaped (match_star_rkey rkey) "subject triage rkey is not deterministic key shaped") in
  let* _ := when (collection == OrganizationMembershipCollection)
              (shaped (match_star_rkey rkey)
                 "organization membership rkey is not deterministic key shaped") in
  when (collection == RepositoryTransferCollection)
    (shaped (match_transfer_rkey rkey) "repository transfer rkey is not UUID shaped").

(** [expected, err := ...; if err != nil || rkey != expected]. *)
Definition expectRKey (rkey : string) (expected : result string) (message : string) : result unit :=
  match expected with
  | Ok expected => reject_if rkey != expected with invalid message [] ;; Ok tt
  | Err _ => Err (invalid message [])
  end.
Definition same_uri (r : option StrongRef) (uri : string) : bool :=
  match r with Some r => URI r == uri | None => false end.

(** The record of a create or an update: the decoder its collection selects, and
    what relates the record to its envelope. *)
Definition decodePayload (did collection rkey uri cid : string) (raw : list Z) : result payload :=
  if collection == ProfileCollection then
    let* value := decodeProfileRecord raw in Ok (ProfilePayload value)
  else if collection == RepositoryCollection then
    let* value := decodeRepositoryRecord raw in
    reject_if same_uri (ForkedFrom value) uri
      with invalid "repository cannot be forked from itself" [] ;;
    reject_if same_uri (TransferredFrom value) uri || same_uri (TransferredTo value) uri
      with invalid "repository transfer cannot reference itself" [] ;;
    reject_if match TransferredFrom value, TransferredTo value with
              | Some from, Some to => URI from == URI to
              | _, _ => false
              end
      with invalid "repository transfer predecessor and successor must differ" [] ;;
    Ok (RepositoryPayload value)
  else if collection == StarCollection then
    let* value := decodeStarRecord raw in
    let* _ := expectRKey rkey (star.RecordKey (RepositoryURI value))
                "star rkey does not match repository URI" in
    Ok (StarPayload value)
  else if collection == IssueCollection then
    let* value := decodeIssueRecord raw in Ok (IssuePayload value)
  else if collection == issue.CommentCollection then
    let* value := decodeIssueCommentRecord raw in
    let* _ := mapErr (invalidly "issue comment: %v")
                (issue.Comment_Validate (issue.mkComment uri cid did value)) in
    Ok (IssueCommentPayload value)
  else if collection == IssueStatusCollection then
    let* value := decodeIssueStatusRecord raw in
    let* _ := expectRKey rkey (issue.StatusRecordKey (issue.URI (issue.Status_Subject value)))
                "issue status rkey does not match issue URI" in
    Ok (IssueStatusPayload value)
  else if collection == PullRequestCollection then
    let* value := decodePullRequestRecord raw in
    let* _ := mapErr (invalidly "pull request: %v")
                (pullrequest.PullRequest_Validate (pullrequest.mkPullRequest uri cid did value)) in
    Ok (PullRequestPayload value)
  else if collection == PullRequestStatusCollection then
    let* value := decodePullRequestStatusRecord raw in
    let* _ := expectRKey rkey
                (pullrequest.StatusRecordKey (pullrequest.URI (pullrequest.Status_Subject value)))
                "pull request status rkey does not match pull request URI" in
    Ok (PullRequestStatusPayload value)
  else if collection == PullRequestReviewCollection then
    let* value := decodePullRequestReviewRecord raw in
    let* _ := mapErr (invalidly "pull request review: %v")
                (pullrequest.Review_Validate (pullrequest.mkReview uri cid did value)) in
    Ok (PullRequestReviewPayload value)
  else if collection == RepositoryLabelCollection then
    let* value := decodeRepositoryLabelRecord raw in
    let* _ := mapErr (invalidly "repository label: %v")
                (triage.Label_Validate (triage.mkLabel uri cid did rkey value zeroTime)) in
    Ok (RepositoryLabelPayload value)
  else if collection == RepositoryMilestoneCollection then
    let* value := decodeRepositoryMilestoneRecord raw in
    let* _ := mapErr (invalidly "repository milestone: %v")
                (triage.Milestone_Validate (triage.mkMilestone uri cid did rkey value zeroTime)) in
    Ok (RepositoryMilestonePayload value)
  else if collection == SubjectTriageCollection then
    let* (value, nil_labels, nil_assignees) := decodeSubjectTriageRecord raw in
    let* _ := expectRKey rkey (triage.MetadataRecordKey (triage.URI (triage.Subject value)))
                "subject triage rkey does not match subject URI" in
    let* _ := mapErr (invalidly "subject triage: %v")
                (triage.Metadata_Validate
                   (triage.mkMetadata uri cid did rkey value [] [] None zeroTime)) in
    Ok (SubjectTriagePayload value nil_labels nil_assignees)
  else if collection == OrganizationCollection then
    let* value := decodeOrganizationRecord raw in Ok (OrganizationPayload value)
  else if collection == OrganizationGrantCollection then
    let* value := decodeOrganizationGrantRecord raw in Ok (OrganizationGrantPayload value)
  else if collection == OrganizationMembershipCollection then
    let* value := decodeOrganizationMembershipRecord raw in
    let expected := ToLower (base32_Encode (Sum256 (bytes (URI (Member_Organization value))))) in
    reject_if rkey != expected
      with invalid "organization membership rkey does not match organization URI" [] ;;
    Ok (OrganizationMembershipPayload value)
  else if collection == OrganizationRevocationCollection then
    let* value := decodeOrganizationRevocationRecord raw in Ok (OrganizationRevocationPayload value)
  else if collection == RepositoryTransferCollection then
    let* value := decodeRepositoryTransferRecord raw in Ok (RepositoryTransferPayload value)
  else
    let* value := decodeRepositoryTransferAcceptanceRecord raw in
    reject_if rkey != transfer.AcceptanceRecordKey (URI (Acceptance_Proposal value))
      with invalid "repository transfer acceptance rkey does not match proposal URI" [] ;;
    Ok (RepositoryTransferAcceptancePayload value).

(** [parsed, err := parse(value); if err != nil || parsed.String() != value]. *)
Definition canonical {A} (parse : string -> option A) (print : A -> string) (value message : string)
    : result unit :=
  match parse value with
  | Some parsed => reject_if print parsed != value with invalid message [] ;; Ok tt
  | None => Err (invalid message [])
  end.

Definition decodeRecordEvent (raw : list Z) : result RecordEvent :=
  let* wire := mapErr (invalidly "decode record event: %v") (decodeStrict raw zero_record) in
  let did := text "did" wire in
  let collection := text "collection" wire in
  let rkey := text "rkey" wire in
  let cid := text "cid" wire in
  let record := wire.raw "record" wire in
  reject_if negb (is_some (bool_ptr "live" wire)) with invalid "record live flag is required" [] ;;
  let* _ := canonical ParseRecordKey RecordKey_String (text "rev" wire)
              "record rev is not canonical" in
  let* _ := canonicalDID did in
  let* _ := canonical ParseNSID NSID_String collection "collection is not a canonical NSID" in
  reject_if forallb (fun known => collection != known) collections
    with invalid "unsupported collection %q" [Prelude.Str collection] ;;
  let* _ := canonical ParseRecordKey RecordKey_String rkey "rkey is not canonical" in
  let uri := "at://" +:+ did +:+ "/" +:+ collection +:+ "/" +:+ rkey in
  let action := text "action" wire in
  let* _ := canonical ParseATURI ATURI_String uri "record URI is not canonical" in
  let* _ := checkRecordKey collection rkey in
  if action == "delete" then
    reject_if (cid != EmptyString) || negb (bool_decide (record = []))
      with invalid "delete event must not contain cid or record" [] ;;
    Ok (mkRecordEvent did collection rkey uri action EmptyString [] NoPayload)
  else
    reject_if (action != "create") && (action != "update")
      with invalid "unsupported record action %q" [Prelude.Str action] ;;
    let* _ := canonical ParseCID CID_String cid "cid is not canonical" in
    reject_if bool_decide (record = []) || bool_decide (record = bytes "null")
      with invalid "record value is required" [] ;;
    let* value := decodePayload did collection rkey uri cid record in
    Ok (mkRecordEvent did collection rkey uri action cid record value).

(** ** Events *)

(** [EventID]: the receipt key, also of an event that is otherwise invalid. *)
Definition EventID (body : list Z) : option Z :=
  let size := Z.of_nat (length body) in
  if (size =? 0) || (maxEventBytes <? size) then None else
  value ← decode_into false [("id", Int64 0)] body;
  if int "id" value <=? 0 then None else Some (int "id" value).

Definition DecodeEvent (body : list Z) : result Event :=
  let size := Z.of_nat (length body) in
  reject_if (size =? 0) || (maxEventBytes <? size)
    with invalid "event envelope exceeds the permitted size" [] ;;
  let* wire := mapErr (invalidly "decode envelope: %v") (decodeStrict body zero_envelope) in
  let id := int "id" wire in
  let record := wire.raw "record" wire in
  let identity := wire.raw "identity" wire in
  reject_if id <=? 0 with invalid "event id must be positive" [] ;;
  if text "type" wire == "record" then
    reject_if bool_decide (record = []) || negb (bool_decide (identity = []))
      with invalid "record event must contain only a record payload" [] ;;
    let* record := decodeRecordEvent record in
    Ok (mkEvent id (text "type" wire) (Some record) None)
  else if text "type" wire == "identity" then
    reject_if bool_decide (identity = []) || negb (bool_decide (record = []))
      with invalid "identity event must contain only an identity payload" [] ;;
    let* identity := decodeIdentityEvent identity in
    Ok (mkEvent id (text "type" wire) None (Some identity))
  else Err (invalid "unsupported event type %q" [Prelude.Str (text "type" wire)]).
End federation.
End federation.

(** An executable instance, for the witnesses: a handle in any spelling, and a time of
    day in full seconds of the first day. *)
Module TapDemo.
Import Demo.
Definition seconds (t : time) : string := of_bytes (json.digits 5 (t / second)).
Definition parse_seconds (s : string) : option time :=
  n ← endpoint.Atoi s;
  if seconds (n * second) == s then Some (n * second) else None.
#[export] Instance tap_syntax : TapSyntax := {|
  ParseNSID := Some;
  HandleT := string;
  ParseHandle := Some;
  Normalize h := h;
  Handle_String h := h;
  ParseDatetimeTime := parse_seconds;
  format_datetime := seconds
|}.
End TapDemo.
