(* ===== verification/FederationFacts.v ===== *)
(** * FederationFacts: what the decoder of network events guarantees. *)

From S2P Require Import Prelude.
From S2P Require Import GoText.
From S2P Require Import Encoding.
From S2P Require Import Syntax.
From S2P Require Import Star.
From S2P Require Import Issue.
From S2P Require Import PullRequest.
From S2P Require Import Triage.
From S2P Require Import Transfer.
From S2P Require Import Json.
From S2P Require Import JsonDecode.
From S2P Require Import Wire.
From S2P Require Import Endpoint.
From S2P Require Import Profile.
From S2P Require Import FederationEvent.

Module federationfacts.
Import federation.

(** ** Default branches *)

Lemma first_char s : s <> EmptyString ->
  exists c, String.get 0 s = Some c /\ forall d, is_char d c = HasPrefix s (String d EmptyString).
Proof.
  destruct s as [| c s]; [done |]. intros _. exists c. split; [done |]. intros d.
  rewrite HasPrefix_char. unfold is_char. apply Ascii.eqb_sym.
Qed.

Lemma last_char_suffix s : s <> EmptyString ->
  exists c, endpoint.last_char s = Some c /\
    forall d, is_char d c = HasSuffix s (String d EmptyString).
Proof.
  unfold endpoint.last_char. induction s as [| c s IH]; [done |]. intros _.
  destruct s as [| e s].
  - exists c. split; [done |]. intros d. by rewrite HasSuffix_char.
  - destruct IH as (l & Hl & Hd); [done |]. exists l. split; [| intros d; by rewrite HasSuffix_char, Hd].
    rewrite <- Hl. cbn. by rewrite Nat.sub_0_r.
Qed.

Definition plain_component (w : string) : bool := negb (HasPrefix w "." || HasSuffix w ".lock").
Lemma valid_components_plain ws : EmptyString ∉ ws ->
  valid_components ws = Some (forallb plain_component ws).
Proof.
  induction ws as [| w ws IH]; [done |]. rewrite not_elem_of_cons. intros [Hw Hws].
  destruct (first_char w) as (c & Hc & Hd); [congruence |].
  cbn [valid_components forallb]. rewrite Hc. cbn. rewrite Hd, IH by done.
  unfold plain_component. by destruct (_ || _).
Qed.

(** What a portable repository may name as its default branch: as in a pull request,
    except that spaces of other scripts are let through. *)
Definition branch_rune (c : Z) : Prop := IsControl c = false /\ ContainsRune " ~^:?*[\" c = false.
Definition default_branch (value : string) : Prop :=
  value <> EmptyString /\ ValidString value = true /\ len value <= 255 /\
  RuneCountInString value <= 255 /\ value <> "@" /\
  HasPrefix value "-" = false /\ HasSuffix value "." = false /\
  Contains value ".." = false /\ Contains value "@{" = false /\
  Forall pullrequest.safe_component (Split "/"%char value) /\ Forall branch_rune (runes value).

Lemma runes_ok value :
  existsb (fun c => IsControl c || ContainsRune " ~^:?*[\" c) (runes value) = false
  <-> Forall branch_rune (runes value).
Proof. rewrite existsb_false. apply Forall_iff. intros c. unfold branch_rune. by rewrite orb_false_iff. Qed.

Lemma validText_iff value bytes runes required :
  validText value bytes runes required = true <->
  (required = true -> value <> EmptyString) /\ ValidString value = true /\ len value <= bytes /\
  RuneCountInString value <= runes.
Proof.
  unfold validText. rewrite !andb_true_iff, orb_true_iff, !Z.leb_le, !negb_true_iff, String.eqb_neq.
  destruct required; naive_solver.
Qed.

(** The branch validator never indexes past the end of an empty string, and accepts
    exactly the names that follow git's rules. *)
Lemma validDefaultBranch_spec value :
  exists valid, validDefaultBranch value = Some valid /\ (valid = true <-> default_branch value).
Proof.
  unfold validDefaultBranch, default_branch.
  pose proof (validText_iff value 255 255 true) as Ht.
  destruct (validText value 255 255 true); cbn [negb orb];
    [| exists false; split; [done |]; split; [done |]; intros Hx; apply Ht; naive_solver].
  destruct Ht as [(Hne & Hv & Hl & Hr) _]; [done |]. specialize (Hne eq_refl).
  destruct (String.eqb_spec value "@"); [exists false; naive_solver |].
  destruct (first_char value Hne) as (f & -> & Hf), (last_char_suffix value Hne) as (l & -> & Hlast).
  cbn. rewrite !Hf, !Hlast.
  assert (Heq : (value == EmptyString) = false) by by apply String.eqb_neq.
  pose proof (pullrequest.components_safe value Heq) as Hsafe.
  pose proof (Split_empty "/"%char value) as Hempty.
  destruct (HasPrefix value "-"); [exists false; naive_solver |].
  destruct (HasSuffix value "."); [exists false; rewrite !orb_true_r; naive_solver |].
  destruct (HasPrefix value "/"); [exists false; naive_solver |].
  destruct (HasSuffix value "/"); [exists false; naive_solver |]. cbn [orb].
  destruct (Contains value ".."); [exists false; naive_solver |].
  destruct (Contains value "//"); [exists false; naive_solver |].
  destruct (Contains value "@{"); [exists false; naive_solver |]. cbn [orb].
  pose proof (runes_ok value) as Hrunes. destruct (existsb _ _).
  { exists false. split; [done |]. split; [done |]. intros Hx. enough (true = false) by done. tauto. }
  rewrite valid_components_plain by (rewrite Hempty; naive_solver).
  eexists. split; [done |]. rewrite forallb_forall, <- Hsafe, Forall_forall.
  unfold plain_component. setoid_rewrite negb_true_iff. setoid_rewrite <- list_elem_of_In. naive_solver.
Qed.

(** ** Every refusal is an invalid event *)

Definition refuses {A} (r : result A) : Prop := forall e, r = Err e -> Is e ErrInvalidEvent = true.

Lemma refuses_Ok {A} (a : A) : refuses (Ok a).
Proof. done. Qed.
Lemma refuses_invalid {A} format arguments : refuses (@Err A (invalid format arguments)).
Proof. by intros e [= <-]. Qed.
Lemma refuses_mapErr {A} format (r : result A) : refuses (mapErr (invalidly format) r).
Proof. destruct r; [done |]. by intros ? [= <-]. Qed.
Lemma refuses_reject {A} c format arguments (r : result A) :
  refuses r -> refuses (reject c (invalid format arguments) r).
Proof. destruct c; [intros _; apply refuses_invalid | done]. Qed.
Lemma refuses_bind {A B} (f : A -> result B) (r : result A) :
  refuses r -> (forall a, refuses (f a)) -> refuses (mbind (M := result) f r).
Proof. intros Hr Hf. destruct r; [apply Hf |]. intros e' [= <-]. by apply Hr. Qed.
Create HintDb refuses.
#[export] Hint Resolve refuses_Ok refuses_invalid refuses_mapErr refuses_reject refuses_bind : refuses.

(** Walks a decoder down to its refusals. *)
Ltac refuse :=
  repeat first
    [ lazymatch goal with |- forall _ : _, refuses _ => intro end
    | apply refuses_bind | apply refuses_reject | apply refuses_mapErr
    | apply refuses_invalid | apply refuses_Ok
    | solve [auto with refuses]
    | case_match ].

Section facts.
Context `{TapSyntax, GoUnicode, GoEndpoint, UUIDs}.

Lemma refuses_canonicalDID value : refuses (canonicalDID value).
Proof. unfold canonicalDID. refuse. Qed.
Lemma refuses_canonicalDatetime value : refuses (canonicalDatetime value).
Proof. unfold canonicalDatetime. refuse. Qed.
Hint Resolve refuses_canonicalDID refuses_canonicalDatetime : refuses.
Lemma refuses_optional value : refuses (optionalCanonicalDatetime value).
Proof. unfold optionalCanonicalDatetime. refuse. Qed.
Lemma refuses_validateStrongRef value collection : refuses (validateStrongRef value collection).
Proof. unfold validateStrongRef. refuse. Qed.
Hint Resolve refuses_optional refuses_validateStrongRef : refuses.
Lemma refuses_validateOptionalRef value collection : refuses (validateOptionalRef value collection).
Proof. unfold validateOptionalRef. refuse. Qed.
Hint Resolve refuses_validateOptionalRef : refuses.
Lemma refuses_canonical {A} parse (print : A -> string) value message :
  refuses (canonical parse print value message).
Proof. unfold canonical. refuse. Qed.
Lemma refuses_expectRKey rkey expected message : refuses (expectRKey rkey expected message).
Proof. unfold expectRKey. refuse. Qed.
Lemma refuses_checkRecordKey collection rkey : refuses (checkRecordKey collection rkey).
Proof. unfold checkRecordKey. cbn zeta. refuse. Qed.
Hint Resolve refuses_canonical refuses_expectRKey refuses_checkRecordKey : refuses.

Lemma refuses_decodeRepositoryRecord raw : refuses (decodeRepositoryRecord raw).
Proof.
  unfold decodeRepositoryRecord. apply refuses_bind; [refuse | intros wire].
  do 3 apply refuses_reject. apply refuses_bind; [| refuse].
  destruct (validDefaultBranch_spec (wire.text "defaultBranch" wire)) as (valid & -> & _). refuse.
Qed.
Hint Resolve refuses_decodeRepositoryRecord : refuses.

Lemma refuses_decodePayload did collection rkey uri cid raw :
  refuses (decodePayload did collection rkey uri cid raw).
Proof.
  unfold decodePayload, decodeProfileRecord, decodeStarRecord, decodeIssueRecord,
    decodeIssueCommentRecord, decodeIssueStatusRecord, decodePullRequestRecord,
    decodePullRequestStatusRecord, decodePullRequestReviewRecord, decodeRepositoryLabelRecord,
    decodeRepositoryMilestoneRecord, decodeSubjectTriageRecord, decodeOrganizationRecord,
    decodeOrganizationGrantRecord, decodeOrganizationMembershipRecord,
    decodeOrganizationRevocationRecord, decodeRepositoryTransferRecord,
    decodeRepositoryTransferAcceptanceRecord.
  repeat case_match; try (apply refuses_bind; [apply refuses_decodeRepositoryRecord |]); refuse.
Qed.
Hint Resolve refuses_decodePayload : refuses.

Lemma refuses_decodeRecordEvent raw : refuses (decodeRecordEvent raw).
Proof. unfold decodeRecordEvent. refuse. Qed.
Lemma refuses_decodeIdentityEvent raw : refuses (decodeIdentityEvent raw).
Proof. unfold decodeIdentityEvent. refuse. Qed.
Hint Resolve refuses_decodeRecordEvent refuses_decodeIdentityEvent : refuses.

(** Whatever bytes arrive, decoding them succeeds or reports an invalid event: no
    refusal escapes the class the processor acknowledges, and no index runs past the
    end of a string. *)
Theorem DecodeEvent_refuses body e :
  DecodeEvent body = Err e -> Is e ErrInvalidEvent = true.
Proof. revert e. change (refuses (DecodeEvent body)). unfold DecodeEvent. refuse. Qed.
(** ** What a decoded event carries *)

Definition sound_uri (value : string) : Prop :=
  exists uri, ParseATURI value = Some uri /\ ATURI_String uri = value.
Definition sound_cid (value : string) : Prop :=
  exists cid, ParseCID value = Some cid /\ CID_String cid = value.
Definition sound_time (t : time) : Prop :=
  exists value, ParseDatetimeTime value = Some t /\ format_datetime t = value.
(** A strong reference to a record of [collection], of any when it is empty. *)
Definition sound_ref (collection : string) (r : StrongRef) : Prop :=
  sound_uri (URI r) /\ sound_cid (CID r) /\
  (collection <> EmptyString -> Contains (URI r) ("/" +:+ collection +:+ "/") = true).
Definition sound_optional (collection : string) (r : option StrongRef) : Prop :=
  forall r', r = Some r' -> sound_ref collection r'.

Definition sound_repository (uri : string) (v : RepositoryRecord) : Prop :=
  len (Slug v) <= 100 /\ match_slug (Slug v) = true /\
  validText (Name v) 100 100 true = true /\ validText (Description v) 2000 2000 false = true /\
  default_branch (DefaultBranch v) /\
  len (GitHTTPS v) <= 2048 /\ len (GitSSH v) <= 2048 /\ len (Web v) <= 2048 /\
  endpoint.validateWebEndpoint (GitHTTPS v) = Ok tt /\
  (GitSSH v <> EmptyString -> endpoint.validateGitSSHEndpoint (GitSSH v) = Ok tt) /\
  endpoint.validateWebEndpoint (Web v) = Ok tt /\
  sound_optional OrganizationCollection (Organization v) /\
  sound_optional RepositoryCollection (ForkedFrom v) /\
  sound_optional RepositoryCollection (TransferredFrom v) /\
  sound_optional RepositoryCollection (TransferredTo v) /\
  sound_time (CreatedAt v) /\ sound_time (UpdatedAt v) /\ CreatedAt v <= UpdatedAt v /\
  (forall r, ForkedFrom v = Some r \/ TransferredFrom v = Some r \/ TransferredTo v = Some r ->
             URI r <> uri) /\
  (forall from to, TransferredFrom v = Some from -> TransferredTo v = Some to -> URI from <> URI to).

Definition sound_organization (v : OrganizationRecord) : Prop :=
  len (Org_Slug v) <= 100 /\ match_organization_slug (Org_Slug v) = true /\
  validText (Org_Name v) 255 100 true = true /\
  validText (Org_Description v) 2000 2000 false = true /\
  validText (Org_Location v) 255 100 false = true /\
  (Org_Website v <> EmptyString ->
     len (Org_Website v) <= 2048 /\ endpoint.validateWebEndpoint (Org_Website v) = Ok tt) /\
  sound_time (Org_CreatedAt v) /\ sound_time (Org_UpdatedAt v) /\ Org_CreatedAt v <= Org_UpdatedAt v.
Definition sound_grant (v : OrganizationGrantRecord) : Prop :=
  sound_ref OrganizationCollection (Grant_Organization v) /\ canonical_did (Grant_Subject v) /\
  Grant_Role v ∈ ["owner"; "member"] /\ sound_ref EmptyString (Grant_Authority v) /\
  sound_time (Grant_CreatedAt v) /\
  (forall t, Grant_ExpiresAt v = Some t -> sound_time t /\ Grant_CreatedAt v < t).
Definition sound_membership (v : OrganizationMembershipRecord) : Prop :=
  sound_ref OrganizationCollection (Member_Organization v) /\
  sound_ref OrganizationGrantCollection (Member_Grant v) /\ Member_Visibility v = "public" /\
  sound_time (Member_CreatedAt v) /\ sound_time (Member_UpdatedAt v) /\
  Member_CreatedAt v <= Member_UpdatedAt v.
Definition sound_revocation (v : OrganizationRevocationRecord) : Prop :=
  sound_ref OrganizationCollection (Revocation_Organization v) /\
  sound_ref OrganizationGrantCollection (Revocation_Grant v) /\
  canonical_did (Revocation_Subject v) /\ sound_ref EmptyString (Revocation_Authority v) /\
  sound_time (Revocation_CreatedAt v).
Definition sound_transfer (v : RepositoryTransferRecord) : Prop :=
  sound_ref RepositoryCollection (Transfer_Repository v) /\ canonical_did (DestinationDID v) /\
  sound_optional OrganizationCollection (DestinationOrganization v) /\
  validText (DestinationOwner v) 253 253 true = true /\
  sound_time (Transfer_CreatedAt v) /\ sound_time (Transfer_ExpiresAt v) /\
  Transfer_CreatedAt v < Transfer_ExpiresAt v.
Definition sound_acceptance (v : RepositoryTransferAcceptanceRecord) : Prop :=
  sound_ref RepositoryTransferCollection (Acceptance_Proposal v) /\
  sound_ref RepositoryCollection (Acceptance_Repository v) /\ sound_time (Acceptance_CreatedAt v).

(** The record of each collection, under its envelope: what the record's own package
    accepts, at the record key it derives. *)
Definition sound_payload (did collection rkey uri cid : string) (p : payload) : Prop :=
  match p with
  | NoPayload => False
  | ProfilePayload v =>
      collection = ProfileCollection /\ sound_time (Profile_CreatedAt v) /\
      profile.UpdateInput_Validate (profile.mkUpdateInput (Profile_DisplayName v) (Profile_Bio v)
        (Profile_Website v) (Profile_Location v)) = Ok tt
  | RepositoryPayload v => collection = RepositoryCollection /\ sound_repository uri v
  | StarPayload v =>
      collection = StarCollection /\ star.RecordKey (RepositoryURI v) = Ok rkey /\
      star.Target_Validate (star.mkTarget (RepositoryURI v) (RepositoryCID v)) = Ok tt /\
      sound_time (Star_CreatedAt v)
  | IssuePayload v => collection = IssueCollection /\ issue.Record_Validate v = Ok tt
  | IssueCommentPayload v =>
      collection = issue.CommentCollection /\
      issue.Comment_Validate (issue.mkComment uri cid did v) = Ok tt
  | IssueStatusPayload v =>
      collection = IssueStatusCollection /\ issue.StatusRecord_Validate v = Ok tt /\
      issue.StatusRecordKey (issue.URI (issue.Status_Subject v)) = Ok rkey
  | PullRequestPayload v =>
      collection = PullRequestCollection /\
      pullrequest.PullRequest_Validate (pullrequest.mkPullRequest uri cid did v) = Ok tt
  | PullRequestStatusPayload v =>
      collection = PullRequestStatusCollection /\ pullrequest.StatusRecord_Validate v = Ok tt /\
      pullrequest.StatusRecordKey (pullrequest.URI (pullrequest.Status_Subject v)) = Ok rkey
  | PullRequestReviewPayload v =>
      collection = PullRequestReviewCollection /\
      pullrequest.Review_Validate (pullrequest.mkReview uri cid did v) = Ok tt
  | OrganizationPayload v => collection = OrganizationCollection /\ sound_organization v
  | OrganizationGrantPayload v => collection = OrganizationGrantCollection /\ sound_grant v
  | OrganizationMembershipPayload v =>
      collection = OrganizationMembershipCollection /\ sound_membership v /\
      rkey = ToLower (base32_Encode (Sum256 (bytes (URI (Member_Organization v)))))
  | OrganizationRevocationPayload v =>
      collection = OrganizationRevocationCollection /\ sound_revocation v
  | RepositoryTransferPayload v => collection = RepositoryTransferCollection /\ sound_transfer v
  | RepositoryTransferAcceptancePayload v =>
      collection = RepositoryTransferAcceptanceCollection /\ sound_acceptance v /\
      rkey = transfer.AcceptanceRecordKey (URI (Acceptance_Proposal v))
  | RepositoryLabelPayload v =>
      collection = RepositoryLabelCollection /\
      triage.Label_Validate (triage.mkLabel uri cid did rkey v zeroTime) = Ok tt
  | RepositoryMilestonePayload v =>
      collection = RepositoryMilestoneCollection /\
      triage.Milestone_Validate (triage.mkMilestone uri cid did rkey v zeroTime) = Ok tt
  | SubjectTriagePayload v _ _ =>
      collection = SubjectTriageCollection /\
      triage.Metadata_Validate (triage.mkMetadata uri cid did rkey v [] [] None zeroTime) = Ok tt
  end.

Definition sound_record (r : RecordEvent) : Prop :=
  canonical_did (DID r) /\ Collection r ∈ collections /\ canonical_rkey (RKey r) /\
  checkRecordKey (Collection r) (RKey r) = Ok tt /\
  RecordURI r = "at://" +:+ DID r +:+ "/" +:+ Collection r +:+ "/" +:+ RKey r /\
  sound_uri (RecordURI r) /\
  (Action r = "delete" /\ RecordCID r = EmptyString /\ RawRecord r = [] /\ Payload r = NoPayload \/
   (Action r = "create" \/ Action r = "update") /\ sound_cid (RecordCID r) /\
   RawRecord r <> [] /\
   sound_payload (DID r) (Collection r) (RKey r) (RecordURI r) (RecordCID r) (Payload r)).
Definition sound_identity (v : IdentityEvent) : Prop :=
  canonical_did (Identity_DID v) /\ Status v <> EmptyString /\
  (Handle v <> EmptyString -> exists h, ParseHandle (Handle v) = Some h /\
     Handle_String (Normalize h) = Handle v).
Definition sound_event (event : Event) : Prop :=
  0 < ID event /\
  match Record_ event, Identity event with
  | Some r, None => Type_ event = "record" /\ sound_record r
  | None, Some v => Type_ event = "identity" /\ sound_identity v
  | _, _ => False
  end.

(** One step of taking apart a decoder that succeeded. *)
Ltac ok_step :=
  match goal with
  | h : Ok _ = Ok _ |- _ => injection h as h; subst
  | h : Err _ = Ok _ |- _ => discriminate h
  | h : mbind _ _ = Ok _ |- _ => apply bind_Ok in h as (? & ? & h)
  | h : reject _ _ _ = Ok _ |- _ => apply reject_Ok in h as [? h]
  | h : mapErr _ _ = Ok _ |- _ => apply mapErr_Ok in h
  | x : unit |- _ => destruct x
  end.
Ltac ok_inv := repeat (ok_step; cbn beta iota in *).

Lemma canonicalDID_Ok value : canonicalDID value = Ok tt <-> canonical_did value.
Proof.
  unfold canonicalDID, canonical_did. destruct (ParseDID value) as [did |]; [| naive_solver].
  rewrite reject_Ok, neq_false. naive_solver.
Qed.
Lemma canonicalDatetime_Ok value t : canonicalDatetime value = Ok t -> sound_time t.
Proof.
  unfold canonicalDatetime, sound_time. destruct (ParseDatetimeTime value) as [parsed |] eqn:E; [| done].
  rewrite reject_Ok, neq_false. naive_solver.
Qed.
Lemma canonical_Ok {A} parse (print : A -> string) value message :
  canonical parse print value message = Ok tt <-> exists x, parse value = Some x /\ print x = value.
Proof.
  unfold canonical. destruct (parse value); [| naive_solver]. rewrite reject_Ok, neq_false. naive_solver.
Qed.
Lemma expectRKey_Ok rkey expected message : expectRKey rkey expected message = Ok tt <-> expected = Ok rkey.
Proof.
  unfold expectRKey. destruct expected; [| naive_solver]. rewrite reject_Ok, neq_false. naive_solver.
Qed.
Lemma sound_StrongRef value collection :
  validateStrongRef value collection = Ok tt -> sound_ref collection value.
Proof.
  unfold validateStrongRef, sound_ref, sound_uri, sound_cid. intros Hv. ok_inv.
  repeat case_match; ok_inv. rewrite !neq_false in *. split_and!; [eauto | eauto |].
  intros Hc. match goal with h : _ && _ = false |- _ => apply andb_false_iff in h as [Hn%neq_false | Hn%negb_false_iff] end; congruence.
Qed.
Lemma validateOptionalRef_Ok value collection :
  validateOptionalRef value collection = Ok tt -> sound_optional collection value.
Proof. destruct value; [| done]. intros Hv%sound_StrongRef ? [= <-]. done. Qed.

Create HintDb sound.
#[local] Hint Resolve canonicalDatetime_Ok sound_StrongRef validateOptionalRef_Ok : sound.
(** The guards a successful decoder passed, as facts. *)
Ltac guards :=
  repeat match goal with
  | h : _ || _ = false |- _ => apply orb_false_iff in h as [? h]
  | h : negb (is_Ok (canonicalDID _)) = false |- _ => apply negb_false_iff in h
  | h : negb _ = false |- _ => apply negb_false_iff in h
  | h : (_ <? _) = false |- _ => apply Z.ltb_ge in h
  | h : (_ =? _) = true |- _ => apply Z.eqb_eq in h
  | h : String.eqb _ _ = true |- _ => apply String.eqb_eq in h
  | h : Before _ _ = false |- _ => unfold Before in h
  | h : After _ _ = true |- _ => apply Z.ltb_lt in h
  | h : is_Ok ?r = true |- _ => destruct r as [[] |] eqn:?; [clear h | discriminate h]
  | h : canonicalDID _ = Ok tt |- _ => apply canonicalDID_Ok in h
  end.

Lemma decodeRepositoryRecord_Ok raw v uri :
  decodeRepositoryRecord raw = Ok v ->
  same_uri (ForkedFrom v) uri = false ->
  same_uri (TransferredFrom v) uri || same_uri (TransferredTo v) uri = false ->
  match TransferredFrom v, TransferredTo v with
  | Some from, Some to => URI from == URI to
  | _, _ => false
  end = false -> sound_repository uri v.
Proof.
  unfold decodeRepositoryRecord. intros Hv Hf [Htf Htt]%orb_false_iff Hd. ok_inv. cbn in Hf, Htf, Htt, Hd.
  match goal with h : match validDefaultBranch ?b with _ => _ end = _ |- _ =>
    destruct (validDefaultBranch_spec b) as (valid & Eb & Hb); rewrite Eb in h end.
  ok_inv. guards. unfold sound_repository; cbn.
  split_and!; eauto with sound; try lia.
  - by apply Hb.
  - intros Hs. apply String.eqb_neq in Hs. match goal with h : (if _ != _ then _ else _) = _ |- _ =>
      rewrite Hs in h; cbn in h; by apply mapErr_Ok in h end.
  - intros r Hr. destruct Hr as [Hr | [Hr | Hr]]; rewrite Hr in *; cbn in *; by apply String.eqb_neq.
  - intros from to Hfrom Hto. rewrite Hfrom, Hto in Hd. by apply String.eqb_neq.
Qed.

Lemma decodeOrganizationRecord_Ok raw v :
  decodeOrganizationRecord raw = Ok v -> sound_organization v.
Proof.
  unfold decodeOrganizationRecord. intros Hv. ok_inv. guards. unfold sound_organization; cbn.
  split_and!; eauto with sound; try lia. intros Hw%String.eqb_neq.
  match goal with h : (_ != _) && _ = false |- _ => rewrite Hw in h; cbn in h end. guards.
  split; [lia |]. by match goal with u : unit |- _ => destruct u | _ => idtac end.
Qed.

Lemma decodeOrganizationGrantRecord_Ok raw v :
  decodeOrganizationGrantRecord raw = Ok v -> sound_grant v.
Proof.
  unfold decodeOrganizationGrantRecord. intros Hv. ok_inv. guards. unfold sound_grant; cbn.
  split_and!; eauto with sound.
  - match goal with h : (_ != _) && (_ != _) = false |- _ =>
      apply andb_false_iff in h as [->%neq_false | ->%neq_false] end; set_solver.
  - intros t ->. repeat case_match; ok_inv; guards; simplify_eq. eauto with sound.
Qed.

Lemma decodeOrganizationMembershipRecord_Ok raw v :
  decodeOrganizationMembershipRecord raw = Ok v -> sound_membership v.
Proof.
  unfold decodeOrganizationMembershipRecord. intros Hv. ok_inv. guards. unfold sound_membership; cbn.
  split_and!; eauto with sound.
Qed.

Lemma decodeOrganizationRevocationRecord_Ok raw v :
  decodeOrganizationRevocationRecord raw = Ok v -> sound_revocation v.
Proof.
  unfold decodeOrganizationRevocationRecord. intros Hv. ok_inv. guards. unfold sound_revocation; cbn.
  split_and!; eauto with sound.
Qed.

Lemma decodeRepositoryTransferRecord_Ok raw v :
  decodeRepositoryTransferRecord raw = Ok v -> sound_transfer v.
Proof.
  unfold decodeRepositoryTransferRecord. intros Hv. ok_inv. guards. unfold sound_transfer; cbn.
  repeat case_match; ok_inv; guards. split_and!; eauto with sound.
Qed.

Lemma decodeRepositoryTransferAcceptanceRecord_Ok raw v :
  decodeRepositoryTransferAcceptanceRecord raw = Ok v -> sound_acceptance v.
Proof.
  unfold decodeRepositoryTransferAcceptanceRecord. intros Hv. ok_inv. unfold sound_acceptance; cbn.
  split_and!; eauto with sound.
Qed.

(** One collection after the other. *)
Lemma decodePayload_Ok did collection rkey uri cid raw p :
  collection ∈ collections -> decodePayload did collection rkey uri cid raw = Ok p ->
  sound_payload did collection rkey uri cid p.
Proof.
  intros Hc. unfold decodePayload.
  repeat match goal with
  | |- context [if ?c == ?k then _ else _] =>
      destruct (String.eqb_spec c k) as [-> |]; [| try (exfalso; done)]
  end; intros Hp; ok_inv; cbn.
  - unfold decodeProfileRecord in *. ok_inv. cbn. eauto with sound.
  - split; [done |]. eapply decodeRepositoryRecord_Ok; eauto.
  - unfold decodeStarRecord in *. ok_inv. cbn in *. split_and!; eauto with sound. by eapply expectRKey_Ok.
  - unfold decodeIssueRecord in *. by ok_inv.
  - done.
  - unfold decodeIssueStatusRecord in *. ok_inv. split_and!; try done. by eapply expectRKey_Ok.
  - done.
  - unfold decodePullRequestStatusRecord in *. ok_inv. split_and!; try done. by eapply expectRKey_Ok.
  - done.
  - done.
  - done.
  - repeat case_match. ok_inv. done.
  - by eauto using decodeOrganizationRecord_Ok.
  - by eauto using decodeOrganizationGrantRecord_Ok.
  - guards. by eauto using decodeOrganizationMembershipRecord_Ok.
  - by eauto using decodeOrganizationRevocationRecord_Ok.
  - by eauto using decodeRepositoryTransferRecord_Ok.
  - guards. assert (collection = RepositoryTransferAcceptanceCollection) as -> by set_solver.
    split_and!; eauto using decodeRepositoryTransferAcceptanceRecord_Ok.
Qed.

Lemma decodeRecordEvent_Ok raw r : decodeRecordEvent raw = Ok r -> sound_record r.
Proof.
  unfold decodeRecordEvent. cbn zeta. intros Hr. ok_inv.
  repeat match goal with h : canonical _ _ _ _ = Ok tt |- _ => apply canonical_Ok in h end. guards.
  match goal with h : forallb _ _ = false |- _ => rename h into Hk end.
  assert (Hc : wire.text "collection" x ∈ collections).
  { apply not_true_iff_false in Hk. destruct (decide (wire.text "collection" x ∈ collections)); [done |].
    destruct Hk. apply forallb_forall. intros k Hin%list_elem_of_In. apply negb_true_iff, String.eqb_neq.
    congruence. }
  destruct (String.eqb_spec (wire.text "action" x) "delete") as [Ha |].
  - ok_inv. guards. match goal with h : bool_decide _ = true |- _ => apply bool_decide_eq_true in h end.
    unfold sound_record; cbn. split_and!; try done. left. split_and!; done.
  - ok_inv. guards.
    repeat match goal with h : bool_decide _ = false |- _ => apply bool_decide_eq_false in h end.
    repeat match goal with h : canonical _ _ _ _ = Ok tt |- _ => apply canonical_Ok in h end.
    unfold sound_record; cbn. split_and!; try done. right. split_and!; try done.
    + match goal with h : (_ != "create") && _ = false |- _ =>
        apply andb_false_iff in h as [->%neq_false | ->%neq_false] end; auto.
    + by eapply decodePayload_Ok.
Qed.

Lemma decodeIdentityEvent_Ok raw v : decodeIdentityEvent raw = Ok v -> sound_identity v.
Proof.
  unfold decodeIdentityEvent. intros Hv. ok_inv. destruct (wire.bool_ptr _ _); [| done]. ok_inv.
  unfold sound_identity; cbn. split_and!; [by apply canonicalDID_Ok | by apply String.eqb_neq |].
  intros Hh%String.eqb_neq. match goal with h : (if _ != _ then _ else _) = _ |- _ =>
    rewrite Hh in h; cbn in h end. case_match; [| done]. ok_inv. guards. eauto.
Qed.

(** C13: An event that decodes is what its type promises: a positive id, and a record or an
    identity but not both; the record under a canonical DID, collection and key, at the
    URI they spell, deleted with nothing attached or written with a canonical CID and a
    record of its own collection that the record's package accepts, at the key the
    record derives. *)
Theorem DecodeEvent_sound body event : DecodeEvent body = Ok event -> sound_event event.
Proof.
  unfold DecodeEvent. cbn zeta. intros Hd. ok_inv. guards.
  destruct (String.eqb_spec (wire.text "type" x) "record") as [Ht |].
  { ok_inv. unfold sound_event; cbn. split_and!; [by apply Z.leb_gt | done | by eapply decodeRecordEvent_Ok]. }
  destruct (String.eqb_spec (wire.text "type" x) "identity") as [Ht |]; [| done].
  ok_inv. unfold sound_event; cbn. split_and!; [by apply Z.leb_gt | done | by eapply decodeIdentityEvent_Ok].
Qed.

(** ** One id for an event, however it is read *)

Definition envelope_of (z : Z) (type record identity : wire.slot) : wire.fields :=
  [("id", wire.Int64 z); ("type", type); ("record", record); ("identity", identity)].

Lemma put_envelope m z type record identity fs :
  wire.put true (wire.into_field true m) (wire.m_name m) (envelope_of z type record identity) = Some fs ->
  exists z' type' record' identity', fs = envelope_of z' type' record' identity' /\
    wire.put false (wire.into_field false m) (wire.m_name m) [("id", wire.Int64 z)]
    = Some [("id", wire.Int64 z')].
Proof.
  unfold wire.put, envelope_of. cbn [List.find fst].
  destruct (jsondecode.same_name "id" (wire.m_name m)).
  { intros Hp. assert (Hi : forall strict, wire.into_field strict m (wire.Int64 z)
              = wire.Int64 <$> jsondecode.into_int (wire.m_value m) z)
      by (intros strict; unfold wire.into_field; by destruct (wire.m_value m)).
    rewrite Hi in *. destruct (jsondecode.into_int _ _) as [z' |]; [| done]. injection Hp as <-.
    by exists z', type, record, identity. }
  destruct (jsondecode.same_name "type" (wire.m_name m)).
  { destruct (wire.into_field true m type) as [s |]; [| done]. intros [= <-]. by exists z, s, record, identity. }
  destruct (jsondecode.same_name "record" (wire.m_name m)).
  { destruct (wire.into_field true m record) as [s |]; [| done]. intros [= <-]. by exists z, type, s, identity. }
  destruct (jsondecode.same_name "identity" (wire.m_name m)); [| done].
  destruct (wire.into_field true m identity) as [s |]; [| done]. intros [= <-]. by exists z, type, record, s.
Qed.

Lemma put_members_envelope ms z type record identity fs :
  wire.put_members true ms (envelope_of z type record identity) = Some fs ->
  exists z' type' record' identity', fs = envelope_of z' type' record' identity' /\
    wire.put_members false ms [("id", wire.Int64 z)] = Some [("id", wire.Int64 z')].
Proof.
  revert z type record identity. induction ms as [| m ms IH]; intros z type record identity.
  { intros [= <-]. by exists z, type, record, identity. }
  cbn [wire.put_members]. destruct (wire.put true _ _ _) as [fs' |] eqn:E; [| done].
  apply put_envelope in E as (z' & type' & record' & identity' & -> & ->). cbn. apply IH.
Qed.

(** The receipt key read leniently from a body is the id of the event the strict decoder
    finds in it: an event is never received twice under two ids. *)
Theorem EventID_agrees body event : DecodeEvent body = Ok event -> EventID body = Some (ID event).
Proof.
  unfold DecodeEvent, EventID. cbn zeta. intros Hd. ok_inv.
  match goal with h : _ || _ = false |- _ => rewrite h end.
  unfold decodeStrict, wire.decode_into in *.
  destruct (wire.outer_members body) as [ms |]; [| done]. cbn -[Z.leb wire.put_members] in *.
  destruct (wire.put_members true ms zero_envelope) as [fs |] eqn:E; [| done]. ok_inv.
  apply put_members_envelope in E as (z & type & record & identity & -> & ->).
  change (wire.int "id" (envelope_of z type record identity)) with z in *.
  cbn -[Z.leb wire.int wire.text wire.raw envelope_of].
  change (wire.int "id" [("id", wire.Int64 z)]) with z. match goal with h : Z.leb _ _ = false |- _ => rewrite h; clear h end.
  destruct (_ == "record"); [ok_inv; done |]. destruct (_ == "identity"); [ok_inv; done | done].
Qed.
End facts.
End federationfacts.

Module federation_examples.
Import Demo TapDemo EndpointDemo federation federationfacts.

Definition reference (uri cid : string) : list Z :=
  json.object [("uri", json.string_ uri); ("cid", json.string_ cid)].
Definition cid : string := "bafyreigh2akiscaildc".
Definition repository_uri : string := "at://did:plc:owner/dev.adenosine.repo/tool".
(** A fork of [tool], created and announced over the network. *)
Definition fork_record : list Z :=
  json.object
    [("$type", json.string_ RepositoryCollection); ("slug", json.string_ "tool");
     ("name", json.string_ "Tool"); ("forkedFrom", reference repository_uri cid);
     ("defaultBranch", json.string_ "main");
     ("git", json.object [("https", json.string_ "https://forge.example/alice/tool.git")]);
     ("web", json.string_ "https://forge.example/alice/tool");
     ("createdAt", json.string_ "00060"); ("updatedAt", json.string_ "00090")].
Definition event_of (id : string) (record : list (string * list Z)) : list Z :=
  json.object [("id", bytes id); ("type", json.string_ "record"); ("record", json.object record)].
Definition written (collection rkey : string) (record : list Z) : list (string * list Z) :=
  [("live", bytes "true"); ("rev", json.string_ "3k"); ("did", json.string_ "did:plc:alice");
   ("collection", json.string_ collection); ("rkey", json.string_ rkey);
   ("action", json.string_ "create"); ("cid", json.string_ cid); ("record", record)].
Definition fork_event : list Z := event_of "7" (written RepositoryCollection "tool" fork_record).

Example fork_decoded :
  exists event r v, DecodeEvent fork_event = Ok event /\ ID event = 7 /\ Record_ event = Some r /\
    RecordURI r = "at://did:plc:alice/dev.adenosine.repo/tool" /\ RawRecord r = fork_record /\
    Payload r = RepositoryPayload v /\ URI <$> ForkedFrom v = Some repository_uri /\
    UpdatedAt v = 90 * second.
Proof. do 3 eexists. split; [vm_compute; reflexivity |]. by vm_compute. Qed.

(** A repository that claims to be its own fork. *)
Definition self_fork : list Z :=
  event_of "8" (written RepositoryCollection "tool"
    (json.object
      [("$type", json.string_ RepositoryCollection); ("slug", json.string_ "tool");
       ("name", json.string_ "Tool");
       ("forkedFrom", reference "at://did:plc:alice/dev.adenosine.repo/tool" cid);
       ("defaultBranch", json.string_ "main");
       ("git", json.object [("https", json.string_ "https://forge.example/alice/tool.git")]);
       ("web", json.string_ "https://forge.example/alice/tool");
       ("createdAt", json.string_ "00060"); ("updatedAt", json.string_ "00090")])).
Example self_fork_refused :
  DecodeEvent self_fork = Err (invalid "repository cannot be forked from itself" []) /\
  EventID self_fork = Some 8.
Proof. split; vm_compute; reflexivity. Qed.

Lemma DecodeEvent_refuses_witness :
  Is (invalid "repository cannot be forked from itself" []) ErrInvalidEvent = true.
Proof. apply (DecodeEvent_refuses self_fork). vm_compute. reflexivity. Defined.

Definition fork_decoding : Event := match DecodeEvent fork_event with Ok e => e | Err _ => mkEvent 0 EmptyString None None end.
Lemma DecodeEvent_sound_witness : sound_event fork_decoding.
Proof. apply (DecodeEvent_sound fork_event). vm_compute. reflexivity. Defined.
Lemma EventID_agrees_witness : EventID fork_event = Some 7.
Proof. apply (EventID_agrees fork_event fork_decoding). vm_compute. reflexivity. Defined.
End federation_examples.
