(* ===== verification/FederationProjection.v ===== *)
(** * FederationProjection: events into the tables of the network
    (internal/federation/postgres.go and processor.go).

    The queries of federation.sql, federation_organizations.sql and triage.sql are
    effects; their parameters are those of the generated package [dbgen]. *)

From S2P Require Import Prelude.
From S2P Require Import GoText.
From S2P Require Import Syntax.
From S2P Require Import Star.
From S2P Require Import Issue.
From S2P Require Import PullRequest.
From S2P Require Import Triage.
From S2P Require Import Endpoint.
From S2P Require Import FederationEvent.

Module projection.
Import federation.

(** [pgtype.Text], [pgtype.Timestamptz]: a value or NULL. *)
Definition pgText (value : string) : option string :=
  if value == EmptyString then None else Some value.
Definition pgTime (value : time) : option time := if IsZero value then None else Some value.
Definition optionalPGTime (value : option time) : option time :=
  match value with None => None | Some value => pgTime value end.

(** The columns every table of records has: who wrote which record when, when it was
    indexed, and the event that did it. *)
Record envelope := mkEnvelope {
  Uri : string; Cid : option string; AuthorDid : string; Rkey : string;
  RecordCreatedAt : option time; RecordUpdatedAt : option time; IndexedAt : option time;
  SourceEventID : Z
}.
(** The columns of each table. *)
Record record_columns := mkRecordColumns { record_collection : string; record_json : option (list Z) }.
Record profile_columns := mkProfileColumns {
  display_name : option string; bio : option string; website : option string; location : option string
}.
Record repository_columns := mkRepositoryColumns {
  slug : option string; name : option string; description : option string;
  default_branch : option string; git_https : option string; git_ssh : option string;
  web : option string; organization_uri : option string; organization_cid : option string;
  forked_from_uri : option string; forked_from_cid : option string;
  transferred_from_uri : option string; transferred_from_cid : option string;
  transferred_to_uri : option string; transferred_to_cid : option string
}.
Record star_columns := mkStarColumns { star_repository_uri : string; star_repository_cid : string }.
Record issue_columns := mkIssueColumns {
  issue_repository_uri : string; issue_repository_cid : string; issue_title : string; issue_body : string
}.
Record comment_columns := mkCommentColumns {
  comment_issue_uri : string; comment_issue_cid : string; parent_uri : option string;
  parent_cid : option string; comment_body : string
}.
Record issue_status_columns := mkIssueStatusColumns {
  status_issue_uri : string; status_issue_cid : string; status_repository_uri : string;
  status_repository_cid : string; status_state : string
}.
Record pull_request_columns := mkPullRequestColumns {
  source_repository_uri : string; source_repository_cid : string; source_branch : string;
  target_repository_uri : string; target_repository_cid : string; target_branch : string;
  head_sha : string; pull_title : string; pull_body : string
}.
Record pull_status_columns := mkPullStatusColumns {
  status_pull_request_uri : string; status_pull_request_cid : string;
  status_target_repository_uri : string; status_target_repository_cid : string;
  pull_status_state : string; merged_commit_sha : option string
}.
Record review_columns := mkReviewColumns {
  review_pull_request_uri : string; review_pull_request_cid : string; review_body : string;
  review_verdict : string
}.
Record label_columns := mkLabelColumns {
  label_repository_uri : string; label_repository_cid : string; label_name : string;
  label_color : string; label_description : string
}.
Record milestone_columns := mkMilestoneColumns {
  milestone_repository_uri : string; milestone_repository_cid : string; milestone_title : string;
  milestone_description : string; milestone_state : string; due_at : option time;
  closed_at : option time
}.
(** A nil slice is NULL. *)
Record triage_columns := mkTriageColumns {
  subject_uri : string; subject_cid : string; subject_kind : string; triage_repository_uri : string;
  triage_repository_cid : string; label_uris : option (list string);
  assignee_dids : option (list string); milestone_uri : option string
}.
Record organization_columns := mkOrganizationColumns {
  org_slug : option string; org_name : option string; org_description : option string;
  org_website : option string; org_location : option string
}.
Record grant_columns := mkGrantColumns {
  grant_organization_uri : string; grant_organization_cid : string; grant_subject : option string;
  grant_role : option string; grant_authority_uri : option string;
  grant_authority_cid : option string; grant_expires_at : option time
}.
Record membership_columns := mkMembershipColumns {
  member_organization_uri : string; member_organization_cid : string; member_grant_uri : string;
  member_grant_cid : string; member_visibility : option string
}.
Record revocation_columns := mkRevocationColumns {
  revocation_organization_uri : string; revocation_organization_cid : string;
  revocation_grant_uri : string; revocation_grant_cid : string; revocation_subject : option string;
  revocation_authority_uri : option string; revocation_authority_cid : option string
}.
Record transfer_columns := mkTransferColumns {
  transfer_repository_uri : option string; transfer_repository_cid : option string;
  destination_did : option string; destination_organization_uri : option string;
  destination_organization_cid : option string; destination_owner_alias : option string;
  transfer_expires_at : option time
}.
Record acceptance_columns := mkAcceptanceColumns {
  proposal_uri : option string; proposal_cid : option string;
  acceptance_repository_uri : option string; acceptance_repository_cid : option string
}.

(** The queries that take an advisory lock to the end of the transaction, with their
    argument.  What is locked is the 64-bit key that the database hashes the URI to, with a
    seed of the query's own ([hashtextextended(uri, seed)]), or a constant for the lineages;
    two URIs may share a key.  A lock changes no row, and nothing here depends on which
    transactions wait for each other. *)
Inductive lock_query :=
| LockIssueComments (issue_uri : string)
| LockRepositoryIssues (repository_uri : string)
| LockPullRequest (pull_request_uri : string)
| LockRepositoryPullRequests (repository_uri : string)
| LockRepositoryStars (repository_uri : string)
| LockRepositoryForks (repository_uri : string)
| LockTransferLineages.

(** What a recomputation brings up to date, and a tombstone marks. *)
Inductive recomputation :=
| RepositoryCount (did : string)
| StarCount (repositoryURI : string)
| IssueState (issueURI : string)
| IssueCounts (repositoryURI : string)
| IssueCommentCount (issueURI : string)
| RepositoryCommentCount (repositoryURI : string)
| PullRequestState (pullRequestURI : string)
| PullRequestReviewCount (pullRequestURI : string)
| PullRequestCounts (repositoryURI : string)
| ForkCount (repositoryURI : string)
| ReconcileTransferLineages
| RepositoryLineageCounts.

(** The queries.  An [:one] query answers [ErrNoRows] when it has no row. *)
Inductive effect : Type -> Type :=
| Begin : effect (result unit)
| Commit : effect (result unit)
| Rollback : effect (result unit)
| Now : effect time
| HasFederationReceipt (consumer : string) (id : Z) : effect (result bool)
| InsertFederationReceipt (consumer : string) (id : Z) (outcome : string) (rejection : option error)
    (receivedAt : option time) : effect (result unit)
| AdvanceFederationCursor (consumer : string) (id : Z) (updatedAt : option time)
    : effect (result unit)
| UpsertFederationIdentity (did : string) (handle : option string) (status : string)
    (isActive : bool) (indexedAt : option time) (id : Z) : effect (result unit)
| ProjectIdentityHandle (did : string) (handle : option string) (indexedAt : option time) (id : Z)
    : effect (result unit)
| Lock (query : lock_query) : effect (result unit)
| Recompute (r : recomputation) : effect (result unit)
| GetFederationStarRepositoryURI (uri : string) : effect (result string)
| GetFederationIssueRepositoryURI (uri : string) : effect (result string)
| GetFederationIssueRepositoryForComment (uri : string) : effect (result string)
| GetFederationIssueCommentIssueURI (uri : string) : effect (result string)
| ListFederationCommentChildIssueURIs (parent : option string) : effect (result (list string))
| GetFederationIssueStatusTarget (uri : string) : effect (result (string * string))
| GetFederationPullRequestTargetRepositoryURI (uri : string) : effect (result string)
| GetFederationPullRequestStatusTarget (uri : string) : effect (result (string * string))
| GetFederationPullRequestReviewSubject (uri : string) : effect (result string)
| ListFederationRepositoryPullRequestURIs (repositoryURI : string) : effect (result (list string))
| GetFederationRepositoryForkSource (uri : string) : effect (result (option string))
| GetFederationRepositoryTransferLinks (uri : string)
    : effect (result (option string * option string))
| UpsertFederationRecord (row : envelope) (columns : record_columns) : effect (result unit)
| UpsertFederationProfile (row : envelope) (columns : profile_columns) : effect (result unit)
| UpsertFederationOrganization (row : envelope) (columns : organization_columns)
    : effect (result unit)
| UpsertFederationOrganizationGrant (row : envelope) (columns : grant_columns)
    : effect (result unit)
| UpsertFederationOrganizationMembership (row : envelope) (columns : membership_columns)
    : effect (result unit)
| UpsertFederationOrganizationRevocation (row : envelope) (columns : revocation_columns)
    : effect (result unit)
| UpsertFederationRepositoryTransfer (row : envelope) (columns : transfer_columns)
    : effect (result unit)
| UpsertFederationRepositoryTransferAcceptance (row : envelope) (columns : acceptance_columns)
    : effect (result unit)
| UpsertFederationStar (row : envelope) (columns : star_columns) : effect (result string)
| UpsertFederationIssue (row : envelope) (columns : issue_columns) : effect (result string)
| UpsertFederationIssueComment (row : envelope) (columns : comment_columns)
    : effect (result string)
| UpsertFederationIssueStatus (row : envelope) (columns : issue_status_columns)
    : effect (result (string * string))
| UpsertFederationPullRequest (row : envelope) (columns : pull_request_columns)
    : effect (result string)
| UpsertFederationPullRequestStatus (row : envelope) (columns : pull_status_columns)
    : effect (result (string * string))
| UpsertFederationPullRequestReview (row : envelope) (columns : review_columns)
    : effect (result string)
| UpsertFederationRepositoryLabel (row : envelope) (columns : label_columns)
    : effect (result unit)
| UpsertFederationRepositoryMilestone (row : envelope) (columns : milestone_columns)
    : effect (result unit)
| UpsertFederationSubjectTriage (row : envelope) (columns : triage_columns)
    : effect (result unit)
| UpsertFederationRepository (row : envelope) (columns : repository_columns)
    : effect (result unit)
| TombstoneFederationRecord (uri authorDID collection rkey : string) (indexedAt : option time)
    (id : Z) : effect (result unit)
| TombstoneFederationProfile (did : string) (profileURI : option string)
    (indexedAt : option time) (id : Z) : effect (result unit)
| TombstoneFederationOrganizationProjection (uri : string) (deletedAt : option time) (id : Z)
    : effect (result unit)
| TombstoneFederationOrganizationGrant (uri : string) (deletedAt : option time) (id : Z)
    : effect (result unit)
| TombstoneFederationOrganizationMembership (uri : string) (deletedAt : option time) (id : Z)
    : effect (result unit)
| TombstoneFederationOrganizationRevocation (uri : string) (deletedAt : option time) (id : Z)
    : effect (result unit)
| TombstoneFederationRepositoryTransfer (uri : string) (indexedAt : option time) (id : Z)
    : effect (result unit)
| TombstoneFederationRepositoryTransferAcceptance (uri : string) (indexedAt : option time) (id : Z)
    : effect (result unit)
| TombstoneFederationStar (uri : string) (indexedAt : option time) (id : Z)
    : effect (result string)
| TombstoneFederationIssue (uri : string) (indexedAt : option time) (id : Z)
    : effect (result string)
| TombstoneFederationIssueComment (uri : string) (indexedAt : option time) (id : Z)
    : effect (result string)
| TombstoneFederationIssueStatus (uri : string) (indexedAt : option time) (id : Z)
    : effect (result (string * string))
| TombstoneFederationPullRequest (uri : string) (indexedAt : option time) (id : Z)
    : effect (result string)
| TombstoneFederationPullRequestStatus (uri : string) (indexedAt : option time) (id : Z)
    : effect (result (string * string))
| TombstoneFederationPullRequestReview (uri : string) (indexedAt : option time) (id : Z)
    : effect (result string)
| TombstoneFederationRepositoryLabel (uri : string) (indexedAt : option time) (id : Z)
    : effect (result unit)
| TombstoneFederationRepositoryMilestone (uri : string) (indexedAt : option time) (id : Z)
    : effect (result unit)
| TombstoneFederationSubjectTriage (uri : string) (indexedAt : option time) (id : Z)
    : effect (result unit)
| TombstoneFederationRepository (uri ownerDID rkey : string) (indexedAt : option time) (id : Z)
    : effect (result unit).

(** [pgx.ErrNoRows], which the code compares by identity. *)
Definition ErrNoRows : error := New "no rows in result set".
Definition is_no_rows (err : error) : bool :=
  match err with New text => text == "no rows in result set" | _ => false end.

(** [if err := q; err != nil { return fmt.Errorf(format, err) }]. *)
Definition query {X} (format : string) (q : effect (result X)) : svc effect X :=
  wrapErr (fun err => Errorf format [W err]) (call q).
(** A row, or none: [err != nil && err != pgx.ErrNoRows] is an error. *)
Definition optional {X} (format : string) (q : effect (result X)) : svc effect (option X) :=
  let! r := call q in
  match r with
  | Ok x => done_ (Some x)
  | Err err => if is_no_rows err then done_ None else fail (Errorf format [W err])
  end.
(** The rest of the projection, unless the query had no row. *)
Definition found {X} (format : string) (q : effect (result X)) (k : X -> svc effect unit)
    : svc effect unit :=
  let? row := optional format q in
  match row with Some x => k x | None => done_ tt end.

(** [sortedKeys]: a map used as a set, in order. *)
Definition sortedKeys (values : gset string) : list string := Sort (elements values).
Definition insert_some (uri : option string) (set : gset string) : gset string :=
  match uri with Some uri => {[uri]} ∪ set | None => set end.

(** A step for every element, threading the set the steps add to. *)
Fixpoint for_each {S} (step : string -> S -> svc effect S) (uris : list string) (s : S)
    : svc effect S :=
  match uris with
  | [] => done_ s
  | uri :: uris => let? s := step uri s in for_each step uris s
  end.
Definition for_each_ (step : string -> svc effect unit) (uris : list string) : svc effect unit :=
  for_each (fun uri _ => step uri) uris tt.

(** ** Locks *)

Definition one_of (collection : string) (l : list string) : bool :=
  existsb (fun c => collection == c) l.

(** What the payload and the tables say an issue event touches. *)
Definition issue_targets (record : RecordEvent) : svc effect (gset string * gset string) :=
  let repositories : gset string :=
    if Collection record == RepositoryCollection then {[RecordURI record]} else ∅ in
  let issues : gset string := ∅ in
  let (repositories, issues) :=
    match Payload record with
    | IssuePayload value => ({[issue.URI (issue.Repository value)]} ∪ repositories,
                             {[RecordURI record]} ∪ issues)
    | _ => (repositories, issues)
    end in
  let? repositories :=
    if Collection record == IssueCollection then
      let? uri := optional "resolve issue repository for lock: %w"
                    (GetFederationIssueRepositoryURI (RecordURI record)) in
      done_ (insert_some uri repositories)
    else done_ repositories in
  let? (repositories, issues) :=
    match Payload record with
    | IssueStatusPayload value =>
        let subject := issue.URI (issue.Status_Subject value) in
        let issues := {[subject]} ∪ issues in
        let repositories := {[issue.URI (issue.Status_Repository value)]} ∪ repositories in
        let? uri := optional "resolve status issue repository for lock: %w"
                      (GetFederationIssueRepositoryURI subject) in
        done_ (insert_some uri repositories, issues)
    | _ => done_ (repositories, issues)
    end in
  let issues :=
    match Payload record with
    | IssueCommentPayload value => {[issue.URI (issue.Subject value)]} ∪ issues
    | _ => issues
    end in
  let? issues :=
    if Collection record == issue.CommentCollection then
      let? uri := optional "resolve comment issue for lock: %w"
                    (GetFederationIssueCommentIssueURI (RecordURI record)) in
      let? children := query "resolve comment child issues for lock: %w"
                         (ListFederationCommentChildIssueURIs (pgText (RecordURI record))) in
      done_ (list_to_set children ∪ insert_some uri issues)
    else done_ issues in
  let? repositories :=
    if Collection record == IssueStatusCollection then
      let? target := optional "resolve issue status target for lock: %w"
                       (GetFederationIssueStatusTarget (RecordURI record)) in
      match target with
      | None => done_ repositories
      | Some (issueURI, repositoryURI) =>
          let? uri := optional "resolve projected status issue repository for lock: %w"
                        (GetFederationIssueRepositoryURI issueURI) in
          done_ (insert_some uri ({[repositoryURI]} ∪ repositories))
      end
    else done_ repositories in
  done_ (repositories, issues).

Definition lockIssueProjection (record : RecordEvent) : svc effect unit :=
  if negb (one_of (Collection record)
             [RepositoryCollection; IssueCollection; issue.CommentCollection; IssueStatusCollection])
  then done_ tt else
  let? (repositories, issues) := issue_targets record in
  let? repositories := for_each (fun issueURI repositories =>
      let? _ := query "lock issue comment projection: %w" (Lock (LockIssueComments issueURI)) in
      let? uri := optional "resolve comment repository for lock: %w"
                    (GetFederationIssueRepositoryForComment issueURI) in
      done_ (insert_some uri repositories)) (sortedKeys issues) repositories in
  for_each_ (fun uri => query "lock repository issue projection: %w" (Lock (LockRepositoryIssues uri)))
    (sortedKeys repositories).

Definition pull_targets (record : RecordEvent) : svc effect (gset string * gset string) :=
  let? (pullRequests, repositories) :=
    if Collection record == RepositoryCollection then
      let? uris := query "resolve repository pull requests for lock: %w"
                     (ListFederationRepositoryPullRequestURIs (RecordURI record)) in
      done_ (list_to_set uris : gset string, {[RecordURI record]} : gset string)
    else done_ (∅, ∅) in
  let (pullRequests, repositories) :=
    match Payload record with
    | PullRequestPayload value =>
        ({[RecordURI record]} ∪ pullRequests,
         {[pullrequest.URI (pullrequest.TargetRepository value)]} ∪ repositories)
    | PullRequestStatusPayload value =>
        ({[pullrequest.URI (pullrequest.Status_Subject value)]} ∪ pullRequests,
         {[pullrequest.URI (pullrequest.Status_TargetRepository value)]} ∪ repositories)
    | PullRequestReviewPayload value =>
        ({[pullrequest.URI (pullrequest.Review_Subject value)]} ∪ pullRequests, repositories)
    | _ => (pullRequests, repositories)
    end in
  let? (pullRequests, repositories) :=
    if Collection record == PullRequestCollection then
      let? target := optional "resolve pull request target for lock: %w"
                       (GetFederationPullRequestTargetRepositoryURI (RecordURI record)) in
      match target with
      | Some uri => done_ ({[RecordURI record]} ∪ pullRequests, {[uri]} ∪ repositories)
      | None => done_ (pullRequests, repositories)
      end
    else done_ (pullRequests, repositories) in
  let? (pullRequests, repositories) :=
    if Collection record == PullRequestStatusCollection then
      let? target := optional "resolve pull request status target for lock: %w"
                       (GetFederationPullRequestStatusTarget (RecordURI record)) in
      match target with
      | Some (pullRequest, repository) =>
          done_ ({[pullRequest]} ∪ pullRequests, {[repository]} ∪ repositories)
      | None => done_ (pullRequests, repositories)
      end
    else done_ (pullRequests, repositories) in
  if Collection record == PullRequestReviewCollection then
    let? subject := optional "resolve pull request review subject for lock: %w"
                      (GetFederationPullRequestReviewSubject (RecordURI record)) in
    done_ (insert_some subject pullRequests, repositories)
  else done_ (pullRequests, repositories).

Definition lockPullRequestProjection (record : RecordEvent) : svc effect unit :=
  if negb (one_of (Collection record)
             [RepositoryCollection; PullRequestCollection; PullRequestStatusCollection;
              PullRequestReviewCollection])
  then done_ tt else
  let? (pullRequests, repositories) := pull_targets record in
  let? repositories := for_each (fun uri repositories =>
      let? _ := query "lock pull request projection: %w" (Lock (LockPullRequest uri)) in
      let? target := optional "resolve locked pull request target: %w"
                       (GetFederationPullRequestTargetRepositoryURI uri) in
      done_ (insert_some target repositories)) (sortedKeys pullRequests) repositories in
  for_each_ (fun uri => query "lock repository pull request projection: %w"
                          (Lock (LockRepositoryPullRequests uri))) (sortedKeys repositories).

Definition lockForkProjection (repositoryURIs : list string) : svc effect unit :=
  for_each_ (fun uri => query "lock repository fork projection: %w" (Lock (LockRepositoryForks uri)))
    (sortedKeys (list_to_set (List.filter (fun uri => uri != EmptyString) repositoryURIs))).

(** The star lock of [project]. *)
Definition lockStarProjection (record : RecordEvent) : svc effect unit :=
  let? lockURI :=
    if Collection record == RepositoryCollection then done_ (RecordURI record) else
    match Payload record with
    | StarPayload value => done_ (RepositoryURI value)
    | _ =>
        if Collection record == StarCollection then
          let? uri := optional "resolve star repository for lock: %w"
                        (GetFederationStarRepositoryURI (RecordURI record)) in
          done_ (default EmptyString uri)
        else done_ EmptyString
    end in
  if lockURI != EmptyString
  then query "lock repository star projection: %w" (Lock (LockRepositoryStars lockURI))
  else done_ tt.

Definition reconcileTransferLineages : svc effect unit :=
  let? _ := query "lock repository transfer lineages: %w" (Lock LockTransferLineages) in
  let? _ := query "reconcile repository transfer lineages: %w" (Recompute ReconcileTransferLineages) in
  query "recompute repository lineage counts: %w" (Recompute RepositoryLineageCounts).

(** ** Recomputations *)

Definition recomputeCommentCounts (issueURI : string) : svc effect unit :=
  let? _ := query "recompute issue comment count: %w" (Recompute (IssueCommentCount issueURI)) in
  found "resolve comment repository for count: %w" (GetFederationIssueRepositoryForComment issueURI)
    (fun repositoryURI => query "recompute repository comment count: %w"
                            (Recompute (RepositoryCommentCount repositoryURI))).
Definition recomputeChildCommentCounts (issueURIs : list string) : svc effect unit :=
  for_each_ recomputeCommentCounts issueURIs.
Definition recomputeIssueStateAndCounts (issueURI : string) : svc effect unit :=
  let? _ := query "recompute issue state: %w" (Recompute (IssueState issueURI)) in
  found "resolve issue repository for counts: %w" (GetFederationIssueRepositoryURI issueURI)
    (fun repositoryURI => query "recompute issue counts: %w" (Recompute (IssueCounts repositoryURI))).
Definition recomputePullRequestStateAndCounts (pullRequestURI : string) : svc effect unit :=
  let? _ := query "recompute pull request state: %w" (Recompute (PullRequestState pullRequestURI)) in
  found "resolve pull request target for counts: %w"
    (GetFederationPullRequestTargetRepositoryURI pullRequestURI)
    (fun uri => query "recompute pull request counts: %w" (Recompute (PullRequestCounts uri))).
Definition recomputePullRequestReviewCount (pullRequestURI : string) : svc effect unit :=
  query "recompute pull request review count: %w" (Recompute (PullRequestReviewCount pullRequestURI)).

(** ** Deletes *)

Definition projectDelete (record : RecordEvent) (indexedAt : time) (id : Z) : svc effect unit :=
  let uri := RecordURI record in
  let at_ := pgTime indexedAt in
  let collection := Collection record in
  let? _ := query "tombstone raw record: %w"
              (TombstoneFederationRecord uri (DID record) collection (RKey record) at_ id) in
  if collection == ProfileCollection then
    query "tombstone profile: %w" (TombstoneFederationProfile (DID record) (pgText uri) at_ id)
  else if collection == OrganizationCollection then
    let? _ := query "tombstone organization: %w"
                (TombstoneFederationOrganizationProjection uri at_ id) in
    reconcileTransferLineages
  else if collection == OrganizationGrantCollection then
    query "tombstone organization grant: %w" (TombstoneFederationOrganizationGrant uri at_ id)
  else if collection == OrganizationMembershipCollection then
    query "tombstone organization membership: %w"
      (TombstoneFederationOrganizationMembership uri at_ id)
  else if collection == OrganizationRevocationCollection then
    query "tombstone organization revocation: %w"
      (TombstoneFederationOrganizationRevocation uri at_ id)
  else if collection == RepositoryTransferCollection then
    let? _ := query "tombstone repository transfer: %w"
                (TombstoneFederationRepositoryTransfer uri at_ id) in
    reconcileTransferLineages
  else if collection == RepositoryTransferAcceptanceCollection then
    let? _ := query "tombstone repository transfer acceptance: %w"
                (TombstoneFederationRepositoryTransferAcceptance uri at_ id) in
    reconcileTransferLineages
  else if collection == StarCollection then
    found "tombstone star: %w" (TombstoneFederationStar uri at_ id) (fun repositoryURI =>
    query "recompute star count: %w" (Recompute (StarCount repositoryURI)))
  else if collection == IssueCollection then
    found "tombstone issue: %w" (TombstoneFederationIssue uri at_ id) (fun repositoryURI =>
    let? _ := query "recompute issue counts: %w" (Recompute (IssueCounts repositoryURI)) in
    query "recompute repository comment count: %w" (Recompute (RepositoryCommentCount repositoryURI)))
  else if collection == issue.CommentCollection then
    let? childIssueURIs := query "list comment children before tombstone: %w"
                             (ListFederationCommentChildIssueURIs (pgText uri)) in
    found "tombstone issue comment: %w" (TombstoneFederationIssueComment uri at_ id) (fun issueURI =>
    let? _ := recomputeCommentCounts issueURI in
    recomputeChildCommentCounts childIssueURIs)
  else if collection == IssueStatusCollection then
    found "tombstone issue status: %w" (TombstoneFederationIssueStatus uri at_ id)
      (fun target => recomputeIssueStateAndCounts (fst target))
  else if collection == PullRequestCollection then
    found "tombstone pull request: %w" (TombstoneFederationPullRequest uri at_ id)
      (fun repositoryURI =>
       query "recompute pull request counts: %w" (Recompute (PullRequestCounts repositoryURI)))
  else if collection == PullRequestStatusCollection then
    found "tombstone pull request status: %w" (TombstoneFederationPullRequestStatus uri at_ id)
      (fun target => recomputePullRequestStateAndCounts (fst target))
  else if collection == PullRequestReviewCollection then
    found "tombstone pull request review: %w" (TombstoneFederationPullRequestReview uri at_ id)
      recomputePullRequestReviewCount
  else if collection == RepositoryLabelCollection then
    query "tombstone repository label: %w" (TombstoneFederationRepositoryLabel uri at_ id)
  else if collection == RepositoryMilestoneCollection then
    query "tombstone repository milestone: %w" (TombstoneFederationRepositoryMilestone uri at_ id)
  else if collection == SubjectTriageCollection then
    query "tombstone subject triage: %w" (TombstoneFederationSubjectTriage uri at_ id)
  else
    let? previous := optional "resolve deleted repository fork source: %w"
                       (GetFederationRepositoryForkSource uri) in
    let previousForkSource := match previous with Some source => source | None => None end in
    let? _ := lockForkProjection [uri; default EmptyString previousForkSource] in
    let? _ := query "tombstone repository: %w"
                (TombstoneFederationRepository uri (DID record) (RKey record) at_ id) in
    let? _ := match previousForkSource with
              | Some source => query "recompute upstream fork count: %w" (Recompute (ForkCount source))
              | None => done_ tt
              end in
    let? _ := query "recompute repository count: %w" (Recompute (RepositoryCount (DID record))) in
    let? _ := query "recompute star count: %w" (Recompute (StarCount uri)) in
    let? _ := query "recompute issue counts: %w" (Recompute (IssueCounts uri)) in
    let? _ := query "recompute repository comment count: %w" (Recompute (RepositoryCommentCount uri)) in
    let? _ := query "recompute pull request counts: %w" (Recompute (PullRequestCounts uri)) in
    reconcileTransferLineages.

(** ** Writes *)

Definition recordTime (p : payload) : time :=
  match p with
  | NoPayload => zeroTime
  | ProfilePayload v => Profile_CreatedAt v
  | RepositoryPayload v => CreatedAt v
  | StarPayload v => Star_CreatedAt v
  | IssuePayload v => issue.CreatedAt v
  | IssueCommentPayload v => issue.Comment_CreatedAt v
  | IssueStatusPayload v => issue.Status_CreatedAt v
  | PullRequestPayload v => pullrequest.CreatedAt v
  | PullRequestStatusPayload v => pullrequest.Status_CreatedAt v
  | PullRequestReviewPayload v => pullrequest.Review_CreatedAt v
  | OrganizationPayload v => Org_CreatedAt v
  | OrganizationGrantPayload v => Grant_CreatedAt v
  | OrganizationMembershipPayload v => Member_CreatedAt v
  | OrganizationRevocationPayload v => Revocation_CreatedAt v
  | RepositoryTransferPayload v => Transfer_CreatedAt v
  | RepositoryTransferAcceptancePayload v => Acceptance_CreatedAt v
  | RepositoryLabelPayload v => triage.Label_CreatedAt v
  | RepositoryMilestonePayload v => triage.Milestone_CreatedAt v
  | SubjectTriagePayload v _ _ => triage.CreatedAt v
  end.

(** The common columns of a record's row; [updatedAt] where the table has it. *)
Definition row_of (record : RecordEvent) (updatedAt : option time) (indexedAt : time) (id : Z)
    : envelope :=
  mkEnvelope (RecordURI record) (pgText (RecordCID record)) (DID record) (RKey record)
    (pgTime (recordTime (Payload record)))
    (match updatedAt with Some t => pgTime t | None => None end) (pgTime indexedAt) id.

Definition ref_uri (r : option StrongRef) : string :=
  match r with Some r => URI r | None => EmptyString end.
Definition ref_cid (r : option StrongRef) : string :=
  match r with Some r => CID r | None => EmptyString end.

Definition projectRepository (record : RecordEvent) (value : RepositoryRecord) (indexedAt : time)
    (id : Z) : svc effect unit :=
  let uri := RecordURI record in
  let forkedFromURI := ref_uri (ForkedFrom value) in
  let transferredFromURI := ref_uri (TransferredFrom value) in
  let transferredToURI := ref_uri (TransferredTo value) in
  let? previous := optional "resolve previous repository fork source: %w"
                     (GetFederationRepositoryForkSource uri) in
  let previousForkSource := match previous with Some source => source | None => None end in
  let? previousTransfer := optional "resolve previous repository transfer links: %w"
                             (GetFederationRepositoryTransferLinks uri) in
  let reconcileTransfers :=
    (transferredFromURI != EmptyString) || (transferredToURI != EmptyString)
    || match previousTransfer with Some (from, to) => is_some from || is_some to | None => false end in
  let? _ := lockForkProjection [uri; default EmptyString previousForkSource; forkedFromURI] in
  let? _ := query "upsert repository: %w"
              (UpsertFederationRepository (row_of record (Some (UpdatedAt value)) indexedAt id)
                 (mkRepositoryColumns (pgText (Slug value)) (pgText (Name value))
                    (pgText (Description value)) (pgText (DefaultBranch value))
                    (pgText (GitHTTPS value)) (pgText (GitSSH value)) (pgText (Web value))
                    (pgText (ref_uri (Organization value))) (pgText (ref_cid (Organization value)))
                    (pgText forkedFromURI) (pgText (ref_cid (ForkedFrom value)))
                    (pgText transferredFromURI) (pgText (ref_cid (TransferredFrom value)))
                    (pgText transferredToURI) (pgText (ref_cid (TransferredTo value))))) in
  let? _ := match previousForkSource with
            | Some source => if source != forkedFromURI
                             then query "recompute previous upstream fork count: %w"
                                    (Recompute (ForkCount source))
                             else done_ tt
            | None => done_ tt
            end in
  let? _ := if forkedFromURI != EmptyString
            then query "recompute upstream fork count: %w" (Recompute (ForkCount forkedFromURI))
            else done_ tt in
  let? _ := query "recompute repository fork count: %w" (Recompute (ForkCount uri)) in
  let? _ := query "recompute repository count: %w" (Recompute (RepositoryCount (DID record))) in
  let? _ := query "recompute star count: %w" (Recompute (StarCount uri)) in
  let? _ := query "recompute issue counts: %w" (Recompute (IssueCounts uri)) in
  let? _ := query "recompute repository comment count: %w" (Recompute (RepositoryCommentCount uri)) in
  let? pullRequestURIs := query "list repository pull requests: %w"
                            (ListFederationRepositoryPullRequestURIs uri) in
  let? _ := for_each_ (fun pullRequestURI =>
      let? _ := query "recompute pull request state: %w"
                  (Recompute (PullRequestState pullRequestURI)) in
      query "recompute pull request review count: %w"
        (Recompute (PullRequestReviewCount pullRequestURI))) pullRequestURIs in
  let? _ := query "recompute pull request counts: %w" (Recompute (PullRequestCounts uri)) in
  if reconcileTransfers then reconcileTransferLineages else done_ tt.

Definition projectIssue (record : RecordEvent) (value : issue.IssueRecord) (indexedAt : time)
    (id : Z) : svc effect unit :=
  let? previous := optional "resolve previous issue repository: %w"
                     (GetFederationIssueRepositoryURI (RecordURI record)) in
  found "upsert issue: %w"
    (UpsertFederationIssue (row_of record (Some (issue.UpdatedAt value)) indexedAt id)
       (mkIssueColumns (issue.URI (issue.Repository value)) (issue.CID (issue.Repository value))
          (issue.Title value) (issue.Body value))) (fun repositoryURI =>
  let? _ := query "recompute issue state: %w" (Recompute (IssueState (RecordURI record))) in
  let? _ := query "recompute issue comment count: %w"
              (Recompute (IssueCommentCount (RecordURI record))) in
  let? _ := query "recompute issue counts: %w" (Recompute (IssueCounts repositoryURI)) in
  let? _ := match previous with
            | Some previousRepositoryURI =>
                if previousRepositoryURI != repositoryURI then
                  let? _ := query "recompute previous repository issue counts: %w"
                              (Recompute (IssueCounts previousRepositoryURI)) in
                  query "recompute previous repository comment count: %w"
                    (Recompute (RepositoryCommentCount previousRepositoryURI))
                else done_ tt
            | None => done_ tt
            end in
  query "recompute repository comment count: %w" (Recompute (RepositoryCommentCount repositoryURI))).

Definition projectIssueComment (record : RecordEvent) (value : issue.CommentRecord)
    (indexedAt : time) (id : Z) : svc effect unit :=
  let? childIssueURIs := query "list comment children before upsert: %w"
                           (ListFederationCommentChildIssueURIs (pgText (RecordURI record))) in
  let parentURI := match issue.Parent value with Some p => issue.URI p | None => EmptyString end in
  let parentCID := match issue.Parent value with Some p => issue.CID p | None => EmptyString end in
  let? previous := optional "resolve previous comment issue: %w"
                     (GetFederationIssueCommentIssueURI (RecordURI record)) in
  found "upsert issue comment: %w"
    (UpsertFederationIssueComment (row_of record (Some (issue.Comment_UpdatedAt value)) indexedAt id)
       (mkCommentColumns (issue.URI (issue.Subject value)) (issue.CID (issue.Subject value))
          (pgText parentURI) (pgText parentCID) (issue.Comment_Body value))) (fun issueURI =>
  let? _ := match previous with
            | Some previousIssueURI => if previousIssueURI != issueURI
                                       then recomputeCommentCounts previousIssueURI else done_ tt
            | None => done_ tt
            end in
  let? _ := recomputeCommentCounts issueURI in
  recomputeChildCommentCounts childIssueURIs).

Definition projectPullRequest (record : RecordEvent) (value : pullrequest.PullRequestRecord)
    (indexedAt : time) (id : Z) : svc effect unit :=
  let source := pullrequest.SourceRepository value in
  let target := pullrequest.TargetRepository value in
  found "upsert pull request: %w"
    (UpsertFederationPullRequest (row_of record (Some (pullrequest.UpdatedAt value)) indexedAt id)
       (mkPullRequestColumns (pullrequest.URI source) (pullrequest.CID source)
          (pullrequest.SourceBranch value) (pullrequest.URI target) (pullrequest.CID target)
          (pullrequest.TargetBranch value) (pullrequest.HeadSHA value) (pullrequest.Title value)
          (pullrequest.Body value))) (fun targetRepositoryURI =>
  let? _ := query "recompute pull request state: %w"
              (Recompute (PullRequestState (RecordURI record))) in
  let? _ := query "recompute pull request review count: %w"
              (Recompute (PullRequestReviewCount (RecordURI record))) in
  query "recompute pull request counts: %w" (Recompute (PullRequestCounts targetRepositoryURI))).

(** A create or an update, after its raw record. *)
Definition projectPayload (record : RecordEvent) (indexedAt : time) (id : Z) : svc effect unit :=
  match Payload record with
  | ProfilePayload value =>
      let? _ := query "upsert profile: %w"
                  (UpsertFederationProfile (row_of record None indexedAt id)
                     (mkProfileColumns (pgText (Profile_DisplayName value))
                        (pgText (Profile_Bio value)) (pgText (Profile_Website value))
                        (pgText (Profile_Location value)))) in
      query "recompute repository count: %w" (Recompute (RepositoryCount (DID record)))
  | OrganizationPayload value =>
      let? _ := query "upsert organization: %w"
                  (UpsertFederationOrganization
                     (row_of record (Some (Org_UpdatedAt value)) indexedAt id)
                     (mkOrganizationColumns (pgText (Org_Slug value)) (pgText (Org_Name value))
                        (pgText (Org_Description value)) (pgText (Org_Website value))
                        (pgText (Org_Location value)))) in
      reconcileTransferLineages
  | OrganizationGrantPayload value =>
      query "upsert organization grant: %w"
        (UpsertFederationOrganizationGrant (row_of record None indexedAt id)
           (mkGrantColumns (URI (Grant_Organization value)) (CID (Grant_Organization value))
              (pgText (Grant_Subject value)) (pgText (Grant_Role value))
              (pgText (URI (Grant_Authority value))) (pgText (CID (Grant_Authority value)))
              (optionalPGTime (Grant_ExpiresAt value))))
  | OrganizationMembershipPayload value =>
      query "upsert organization membership: %w"
        (UpsertFederationOrganizationMembership
           (row_of record (Some (Member_UpdatedAt value)) indexedAt id)
           (mkMembershipColumns (URI (Member_Organization value)) (CID (Member_Organization value))
              (URI (Member_Grant value)) (CID (Member_Grant value))
              (pgText (Member_Visibility value))))
  | OrganizationRevocationPayload value =>
      query "upsert organization revocation: %w"
        (UpsertFederationOrganizationRevocation (row_of record None indexedAt id)
           (mkRevocationColumns (URI (Revocation_Organization value))
              (CID (Revocation_Organization value)) (URI (Revocation_Grant value))
              (CID (Revocation_Grant value)) (pgText (Revocation_Subject value))
              (pgText (URI (Revocation_Authority value)))
              (pgText (CID (Revocation_Authority value)))))
  | RepositoryTransferPayload value =>
      let? _ := query "upsert repository transfer: %w"
                  (UpsertFederationRepositoryTransfer (row_of record None indexedAt id)
                     (mkTransferColumns (pgText (URI (Transfer_Repository value)))
                        (pgText (CID (Transfer_Repository value))) (pgText (DestinationDID value))
                        (pgText (ref_uri (DestinationOrganization value)))
                        (pgText (ref_cid (DestinationOrganization value)))
                        (pgText (DestinationOwner value)) (pgTime (Transfer_ExpiresAt value)))) in
      reconcileTransferLineages
  | RepositoryTransferAcceptancePayload value =>
      let? _ := query "upsert repository transfer acceptance: %w"
                  (UpsertFederationRepositoryTransferAcceptance (row_of record None indexedAt id)
                     (mkAcceptanceColumns (pgText (URI (Acceptance_Proposal value)))
                        (pgText (CID (Acceptance_Proposal value)))
                        (pgText (URI (Acceptance_Repository value)))
                        (pgText (CID (Acceptance_Repository value))))) in
      reconcileTransferLineages
  | StarPayload value =>
      found "upsert star: %w"
        (UpsertFederationStar (row_of record None indexedAt id)
           (mkStarColumns (RepositoryURI value) (RepositoryCID value))) (fun repositoryURI =>
      query "recompute star count: %w" (Recompute (StarCount repositoryURI)))
  | IssuePayload value => projectIssue record value indexedAt id
  | IssueCommentPayload value => projectIssueComment record value indexedAt id
  | IssueStatusPayload value =>
      let subject := issue.Status_Subject value in
      let repository := issue.Status_Repository value in
      found "upsert issue status: %w"
        (UpsertFederationIssueStatus
           (row_of record (Some (issue.Status_UpdatedAt value)) indexedAt id)
           (mkIssueStatusColumns (issue.URI subject) (issue.CID subject) (issue.URI repository)
              (issue.CID repository) (issue.Status_State value)))
        (fun target => recomputeIssueStateAndCounts (fst target))
  | PullRequestPayload value => projectPullRequest record value indexedAt id
  | PullRequestStatusPayload value =>
      let subject := pullrequest.Status_Subject value in
      let target := pullrequest.Status_TargetRepository value in
      found "upsert pull request status: %w"
        (UpsertFederationPullRequestStatus
           (row_of record (Some (pullrequest.Status_UpdatedAt value)) indexedAt id)
           (mkPullStatusColumns (pullrequest.URI subject) (pullrequest.CID subject)
              (pullrequest.URI target) (pullrequest.CID target) (pullrequest.Status_State value)
              (pgText (pullrequest.MergeCommitSHA value))))
        (fun target => recomputePullRequestStateAndCounts (fst target))
  | PullRequestReviewPayload value =>
      let subject := pullrequest.Review_Subject value in
      found "upsert pull request review: %w"
        (UpsertFederationPullRequestReview
           (row_of record (Some (pullrequest.Review_UpdatedAt value)) indexedAt id)
           (mkReviewColumns (pullrequest.URI subject) (pullrequest.CID subject)
              (pullrequest.Review_Body value) (pullrequest.Review_Verdict value)))
        recomputePullRequestReviewCount
  | RepositoryLabelPayload value =>
      let repository := triage.Label_Repository value in
      query "upsert repository label: %w"
        (UpsertFederationRepositoryLabel
           (row_of record (Some (triage.Label_UpdatedAt value)) indexedAt id)
           (mkLabelColumns (triage.URI repository) (triage.CID repository) (triage.Name value)
              (triage.Color value) (triage.Description value)))
  | RepositoryMilestonePayload value =>
      let repository := triage.Milestone_Repository value in
      query "upsert repository milestone: %w"
        (UpsertFederationRepositoryMilestone
           (row_of record (Some (triage.Milestone_UpdatedAt value)) indexedAt id)
           (mkMilestoneColumns (triage.URI repository) (triage.CID repository)
              (triage.Title value) (triage.Milestone_Description value)
              (triage.Milestone_State value) (optionalPGTime (triage.DueAt value))
              (optionalPGTime (triage.ClosedAt value))))
  | SubjectTriagePayload value nil_labels nil_assignees =>
      let subject := triage.Subject value in
      let repository := triage.Metadata_Repository value in
      query "upsert subject triage: %w"
        (UpsertFederationSubjectTriage
           (row_of record (Some (triage.UpdatedAt value)) indexedAt id)
           (mkTriageColumns (triage.URI subject) (triage.CID subject) (triage.Kind value)
              (triage.URI repository) (triage.CID repository)
              (if nil_labels then None else Some (triage.LabelURIs value))
              (if nil_assignees then None else Some (triage.AssigneeDIDs value))
              (pgText (triage.MilestoneURI value))))
  | RepositoryPayload value => projectRepository record value indexedAt id
  | NoPayload => fail (New "project repository: missing decoded value")
  end.

Definition projectWrite (record : RecordEvent) (indexedAt : time) (id : Z) : svc effect unit :=
  let? _ := query "upsert raw record: %w"
              (UpsertFederationRecord (row_of record None indexedAt id)
                 (mkRecordColumns (Collection record) (Some (RawRecord record)))) in
  projectPayload record indexedAt id.

Definition project (event : Event) (indexedAt : time) : svc effect unit :=
  match Identity event with
  | Some identity =>
      let? _ := query "project identity: %w"
                  (UpsertFederationIdentity (Identity_DID identity) (pgText (Handle identity))
                     (Status identity) (IsActive identity) (pgTime indexedAt) (ID event)) in
      query "project identity handle: %w"
        (ProjectIdentityHandle (Identity_DID identity) (pgText (Handle identity))
           (pgTime indexedAt) (ID event))
  | None =>
      match Record_ event with
      | None => fail (New "project event: missing validated payload")
      | Some record =>
          let? _ := lockIssueProjection record in
          let? _ := lockPullRequestProjection record in
          let? _ := lockStarProjection record in
          if Action record == "delete" then projectDelete record indexedAt (ID event)
          else projectWrite record indexedAt (ID event)
      end
  end.

(** ** Receipts *)

Record postgresStore := mkStore { consumer : string }.

(** What [Store] does inside its transaction. No rejection is the empty string. *)
Definition store_body (store : postgresStore) (event : Event) (rejection : option error)
    : svc effect bool :=
  let? duplicate := query "check receipt: %w" (HasFederationReceipt (consumer store) (ID event)) in
  if duplicate : bool then
    let? _ := query "commit duplicate receipt: %w" Commit in done_ true
  else
    let! now := call Now in
    let now := UTC now in
    let? _ := match rejection with None => project event now | Some _ => done_ tt end in
    let? _ := query "advance cursor: %w"
                (AdvanceFederationCursor (consumer store) (ID event) (pgTime now)) in
    let outcome := match rejection with Some _ => "rejected" | None => "applied" end in
    let? _ := query "insert receipt: %w"
                (InsertFederationReceipt (consumer store) (ID event) outcome rejection (pgTime now)) in
    let? _ := query "commit transaction: %w" Commit in
    done_ false.

(** The rollback is deferred: it undoes what was not committed. *)
Definition Store (store : postgresStore) (event : Event) (rejection : option error)
    : svc effect bool :=
  let? _ := query "begin transaction: %w" Begin in
  let! duplicate := store_body store event rejection in
  let! _ := call Rollback in
  lift duplicate.

(** ** The processor *)

Record Result := mkResult {
  EventID_ : Z; Outcome : string; Duplicate : bool; Rejection : option error
}.

Section processor.
Context `{TapSyntax, GoUnicode, GoEndpoint, UUIDs}.

(** [Process]: the event, or what is left of one that is invalid, and why. *)
Definition received (body : list Z) : result (Event * option error) :=
  match DecodeEvent body with
  | Ok event => Ok (event, None)
  | Err validationErr =>
      match EventID body with
      | None => Err validationErr
      | Some id => Ok (mkEvent id EmptyString None None, Some validationErr)
      end
  end.
Definition Process (store : postgresStore) (body : list Z) : svc effect Result :=
  let? (event, rejection) := lift (received body) in
  let? duplicate := wrapErr (fun err => Errorf "store federation event %d: %w" [Prelude.Int (ID event); W err])
                      (Store store event rejection) in
  done_ (mkResult (ID event) (match rejection with None => "applied" | Some _ => "rejected" end)
           duplicate rejection).
End processor.

(** ** The effects of the combinators *)

Section every.
Variable P : forall X, effect X -> Prop.
Lemma every_query {X} format (q : effect (result X)) : P _ q -> every P (query format q).
Proof. done. Qed.
Lemma every_optional {X} format (q : effect (result X)) : P _ q -> every P (optional format q).
Proof. intros Hq. split; [done |]. intros [x | err]; [done |]. cbn. by destruct (is_no_rows err). Qed.
Lemma every_found {X} format (q : effect (result X)) k :
  P _ q -> (forall x, every P (k x)) -> every P (found format q k).
Proof.
  intros Hq Hk. apply every_then; [by apply every_optional |]. intros [x |]; [apply Hk | done].
Qed.
Lemma every_for_each {S} (step : string -> S -> svc effect S) uris s :
  (forall uri s, every P (step uri s)) -> every P (for_each step uris s).
Proof.
  intros Hs. revert s. induction uris as [| uri uris IH]; intros s; [done |].
  apply every_then; [apply Hs | exact IH].
Qed.
End every.
End projection.
