(* ===== verification/FederationTables.v ===== *)
(** * FederationTables: the network's tables and the queries on them
    (federation.sql, federation_organizations.sql, triage.sql and their migrations).

    Every table of records has the columns of [envelope], a deletion time and columns
    of its own.  The columns that queries derive (states, counts, lineages) are kept in
    maps of their own, by key, with the value a new row gets as their default. *)

From S2P Require Import Prelude.
From S2P Require Import GoText.
From S2P Require Import Issue.
From S2P Require Import PullRequest.
From S2P Require Import Triage.
From S2P Require Import FederationEvent.
From S2P Require Import FederationProjection.

Module tables.
Import federation projection.

Inductive table :=
| Records | Repositories | Stars | Issues | IssueComments_ | IssueStatuses | PullRequests
| PullRequestStatuses | PullRequestReviews | RepositoryLabels | RepositoryMilestones
| SubjectTriage_ | Organizations | Grants | Memberships | Revocations | Transfers | Acceptances.
#[export] Instance table_eq_dec : EqDecision table.
Proof. solve_decision. Defined.

Definition columns_of (t : table) : Type :=
  match t with
  | Records => record_columns
  | Repositories => repository_columns
  | Stars => star_columns
  | Issues => issue_columns
  | IssueComments_ => comment_columns
  | IssueStatuses => issue_status_columns
  | PullRequests => pull_request_columns
  | PullRequestStatuses => pull_status_columns
  | PullRequestReviews => review_columns
  | RepositoryLabels => label_columns
  | RepositoryMilestones => milestone_columns
  | SubjectTriage_ => triage_columns
  | Organizations => organization_columns
  | Grants => grant_columns
  | Memberships => membership_columns
  | Revocations => revocation_columns
  | Transfers => transfer_columns
  | Acceptances => acceptance_columns
  end.

Record row (t : table) := mkRow { env : envelope; deleted_at : option time; cols : columns_of t }.
Arguments mkRow {t} & env deleted_at cols.
Arguments env {t} r.
Arguments deleted_at {t} r.
Arguments cols {t} r.
Definition source {t} (r : row t) : Z := SourceEventID (env r).
Definition live {t} (r : row t) : bool := negb (is_some (deleted_at r)) && is_some (Cid (env r)).

Record identity_row := mkIdentityRow {
  id_handle : option string; id_status : string; id_active : bool; id_indexed_at : option time;
  id_source : Z
}.
Record profile_row := mkProfileRow {
  p_uri : option string; p_cid : option string; p_handle : option string;
  p_columns : profile_columns; p_created_at : option time; p_indexed_at : option time;
  p_deleted_at : option time; p_source : option Z; p_handle_source : option Z;
  p_repository_count : Z
}.
(** The state an issue or a pull request takes from its newest valid status. *)
Record status_link := mkStatusLink {
  l_state : string; l_uri : option string; l_cid : option string; l_updated_at : option time;
  l_source : option Z; l_merged : option string
}.
Definition open_link : status_link := mkStatusLink "open" None None None None None.
Record counts := mkCounts {
  star_count : Z; issue_count : Z; open_issue_count : Z; comment_count : Z;
  pull_request_count : Z; open_pull_request_count : Z; fork_count : Z
}.
Definition no_counts : counts := mkCounts 0 0 0 0 0 0 0.
Record receipt := mkReceipt {
  r_outcome : string; r_rejection : option error; r_received_at : option time
}.

(** [local_repository] is the subquery on the tables of [core] that an upserted
    repository runs: the local repository with that record or that successor. *)
Record network := mkNetwork {
  rows : forall t, gmap string (row t);
  identities : gmap string identity_row;
  profiles : gmap string profile_row;
  issue_links : string -> status_link;
  issue_comments : string -> Z;
  pull_links : string -> status_link;
  pull_reviews : string -> Z;
  lineages : string -> string * string;
  repository_counts : string -> counts;
  local_ids : string -> option UUID;
  local_repository : string -> option UUID;
  core_fork_counts : UUID -> Z;
  receipts : gmap (string * Z) receipt;
  cursors : gmap string (Z * option time)
}.
Definition set_row (t : table) (uri : string) (r : row t) (n : network) : network :=
  mkNetwork
    (fun t' => match decide (t = t') with
               | left e => eq_rect t (fun t => gmap string (row t)) (<[uri := r]> (rows n t)) t' e
               | right _ => rows n t'
               end)
    (identities n) (profiles n) (issue_links n) (issue_comments n) (pull_links n) (pull_reviews n)
    (lineages n) (repository_counts n) (local_ids n) (local_repository n) (core_fork_counts n)
    (receipts n) (cursors n).
Definition set_identities f (n : network) : network :=
  mkNetwork (rows n) (f (identities n)) (profiles n) (issue_links n) (issue_comments n)
    (pull_links n) (pull_reviews n) (lineages n) (repository_counts n) (local_ids n)
    (local_repository n) (core_fork_counts n) (receipts n) (cursors n).
Definition set_profiles f (n : network) : network :=
  mkNetwork (rows n) (identities n) (f (profiles n)) (issue_links n) (issue_comments n)
    (pull_links n) (pull_reviews n) (lineages n) (repository_counts n) (local_ids n)
    (local_repository n) (core_fork_counts n) (receipts n) (cursors n).
(** The derived columns of issues and pull requests, of repositories, and of [core]. *)
Definition set_links issue_links issue_comments pull_links pull_reviews (n : network) : network :=
  mkNetwork (rows n) (identities n) (profiles n) issue_links issue_comments pull_links pull_reviews
    (lineages n) (repository_counts n) (local_ids n) (local_repository n) (core_fork_counts n)
    (receipts n) (cursors n).
Definition set_derived lineages counts local_ids core_counts (n : network) : network :=
  mkNetwork (rows n) (identities n) (profiles n) (issue_links n) (issue_comments n) (pull_links n)
    (pull_reviews n) lineages counts local_ids (local_repository n) core_counts (receipts n)
    (cursors n).
Definition set_receipts f (n : network) : network :=
  mkNetwork (rows n) (identities n) (profiles n) (issue_links n) (issue_comments n) (pull_links n)
    (pull_reviews n) (lineages n) (repository_counts n) (local_ids n) (local_repository n)
    (core_fork_counts n) (f (receipts n)) (cursors n).
Definition set_cursors f (n : network) : network :=
  mkNetwork (rows n) (identities n) (profiles n) (issue_links n) (issue_comments n) (pull_links n)
    (pull_reviews n) (lineages n) (repository_counts n) (local_ids n) (local_repository n)
    (core_fork_counts n) (receipts n) (f (cursors n)).

(** ** Constraints *)

Definition same_null {A B} (a : option A) (b : option B) : bool := Bool.eqb (is_some a) (is_some b).
Definition at_most (n : nat) (l : option (list string)) : bool :=
  match l with Some l => Nat.leb (length l) n | None => true end.
(** Columns that are NOT NULL although their type here allows NULL, and the CHECKs. *)
Definition checks (t : table) (r : row t) : bool :=
  let e := env r in
  let stamped := is_some (RecordCreatedAt e) && is_some (RecordUpdatedAt e) in
  let live_value := is_some (deleted_at r) || is_some (Cid e) in
  let event_id := 0 <? SourceEventID e in
  is_some (IndexedAt e) &&
  match t as t return columns_of t -> bool with
  | Records => fun c =>
      event_id && (is_some (deleted_at r) || (is_some (Cid e) && is_some (record_json c)))
  | Repositories => fun c =>
      event_id && live_value && same_null (forked_from_uri c) (forked_from_cid c)
      && same_null (transferred_from_uri c) (transferred_from_cid c)
      && same_null (transferred_to_uri c) (transferred_to_cid c)
  | Stars => fun _ => event_id && live_value && is_some (RecordCreatedAt e)
  | Issues => fun _ => event_id && live_value && stamped
  | IssueComments_ => fun c =>
      event_id && live_value && stamped && same_null (parent_uri c) (parent_cid c)
  | IssueStatuses => fun c =>
      event_id && live_value && stamped && one_of (status_state c) ["open"; "closed"]
  | PullRequests => fun _ => event_id && live_value && stamped
  | PullRequestStatuses => fun c =>
      event_id && live_value && stamped && one_of (pull_status_state c) ["open"; "closed"; "merged"]
      && Bool.eqb (pull_status_state c == "merged") (is_some (merged_commit_sha c))
  | PullRequestReviews => fun c =>
      event_id && live_value && stamped
      && one_of (review_verdict c) ["comment"; "approve"; "request_changes"]
  | RepositoryLabels => fun c =>
      event_id && live_value && stamped && between 1 (RuneCountInString (label_name c)) 50
      && match_class_n is_lower_hex 6 (label_color c)
      && (RuneCountInString (label_description c) <=? 255)
  | RepositoryMilestones => fun c =>
      event_id && live_value && stamped && between 1 (RuneCountInString (milestone_title c)) 255
      && (RuneCountInString (milestone_description c) <=? 65535)
      && one_of (milestone_state c) ["open"; "closed"]
      && Bool.eqb (milestone_state c == "closed") (is_some (closed_at c))
  | SubjectTriage_ => fun c =>
      event_id && live_value && stamped && one_of (subject_kind c) ["issue"; "pull_request"]
      && is_some (label_uris c) && is_some (assignee_dids c)
      && at_most 20 (label_uris c) && at_most 10 (assignee_dids c)
  | Organizations | Grants | Memberships | Revocations | Acceptances => fun _ => true
  | Transfers => fun c =>
      is_some (destination_did c)
      && same_null (destination_organization_uri c) (destination_organization_cid c)
  end (cols r).

(** The unique indexes: one live star for an author and a repository, one membership not
    deleted for an author and an organization. *)
Definition same_slot {t} (r s : row t) : bool :=
  match t as t return columns_of t -> columns_of t -> bool with
  | Stars => fun c d =>
      (AuthorDid (env r) == AuthorDid (env s)) && (star_repository_uri c == star_repository_uri d)
  | Memberships => fun c d =>
      (AuthorDid (env r) == AuthorDid (env s))
      && (member_organization_uri c == member_organization_uri d)
  | _ => fun _ _ => false
  end (cols r) (cols s).
Definition unique_ok {t} (n : network) (r : row t) : bool :=
  is_some (deleted_at r) ||
  forallb (fun '(uri, s) => (uri == Uri (env r)) || is_some (deleted_at s) || negb (same_slot r s))
    (map_to_list (rows n t)).

Definition constraint_violation : error := New "constraint violation".

(** ** Upserts and tombstones *)

(** Whether the raw record at [uri] is that of event [id], and deleted or not. *)
Definition current (n : network) (uri : string) (id : Z) (deleted : bool) : bool :=
  match rows n Records !! uri with
  | Some r => (source r =? id) && Bool.eqb (is_some (deleted_at r)) deleted
  | None => false
  end.

(** [INSERT ... ON CONFLICT (uri) DO UPDATE ... WHERE table.source_event_id <
    EXCLUDED.source_event_id AND (allowed)]: the row written, or none. *)
Definition upsert {t} (new : row t) (update : row t -> row t) (allowed : row t -> bool)
    (n : network) : result (option (row t)) * network :=
  let uri := Uri (env new) in
  if negb (checks t new) then (Err constraint_violation, n) else
  match rows n t !! uri with
  | None => if unique_ok n new then (Ok (Some new), set_row t uri new n)
            else (Err constraint_violation, n)
  | Some old =>
      if (source old <? source new) && allowed old then
        if checks t (update old) && unique_ok n (update old)
        then (Ok (Some (update old)), set_row t uri (update old) n)
        else (Err constraint_violation, n)
      else (Ok None, n)
  end.
(** The same for the rows of a [SELECT] from the raw records: there is one only while the
    raw record is that of this event. *)
Definition upsert_current {t} (new : row t) (allowed : row t -> bool) (n : network)
    : result (option (row t)) * network :=
  if current n (Uri (env new)) (source new) false
  then upsert new (fun _ => new) allowed n
  else (Ok None, n).
Arguments upsert {t} & new update allowed n.
Arguments upsert_current {t} & new allowed n.

(** A row's columns after its tombstone. *)
Definition buried (clear_cid : bool) (at_ : option time) (id : Z) (e : envelope) : envelope :=
  mkEnvelope (Uri e) (if clear_cid then None else Cid e) (AuthorDid e) (Rkey e) (RecordCreatedAt e)
    (RecordUpdatedAt e) at_ id.
Definition bury {t} (clear_cid : bool) (at_ : option time) (id : Z) (r : row t) : row t :=
  mkRow (buried clear_cid at_ id (env r)) at_ (cols r).
(** [UPDATE ... WHERE uri = $1 AND source_event_id < id AND (allowed)]. *)
Definition tombstone (t : table) (clear_cid allowed : bool) (uri : string) (at_ : option time)
    (id : Z) (n : network) : option (row t) * network :=
  match rows n t !! uri with
  | Some old =>
      if (source old <? id) && allowed
      then (Some (bury clear_cid at_ id old), set_row t uri (bury clear_cid at_ id old) n)
      else (None, n)
  | None => (None, n)
  end.

(** [:exec] and [:one] answers. *)
Definition exec_ {A} (p : result A * network) : result unit * network :=
  let '(r, n) := p in (match r with Ok _ => Ok tt | Err e => Err e end, n).
Definition returning {t A} (f : columns_of t -> A) (p : result (option (row t)) * network)
    : result A * network :=
  let '(r, n) := p in
  (match r with
   | Ok (Some r) => Ok (f (cols r))
   | Ok None => Err ErrNoRows
   | Err e => Err e
   end, n).
Definition of_row {t A} (f : columns_of t -> A) (o : option (row t)) : result A :=
  match o with Some r => Ok (f (cols r)) | None => Err ErrNoRows end.

(** ** Recomputations *)

Definition all_rows (n : network) (t : table) : list (row t) := map snd (map_to_list (rows n t)).
Definition lineage_of (n : network) (uri : string) : option string :=
  _ ← rows n Repositories !! uri; Some (fst (lineages n uri)).
Definition within (n : network) (lineage uri : string) : bool :=
  match lineage_of n uri with Some l => l == lineage | None => false end.
Definition distinct (l : list string) : Z := Z.of_nat (length (Compact (Sort l))).
Definition count {A} (l : list A) : Z := Z.of_nat (length l).

(** The live rows of a table whose repository is observed in a lineage. *)
Definition observed {t} (n : network) (repository : columns_of t -> string) (lineage : string)
    : list (row t) :=
  List.filter (fun r => live r && within n lineage (repository (cols r))) (all_rows n t).
Definition stars_of (n : network) (lineage : string) : Z :=
  distinct (map (fun r => AuthorDid (env r)) (observed (t := Stars) n star_repository_uri lineage)).
Definition issues_of (n : network) (lineage : string) : list (row Issues) :=
  observed (t := Issues) n issue_repository_uri lineage.
Definition pulls_of (n : network) (lineage : string) : list (row PullRequests) :=
  observed (t := PullRequests) n target_repository_uri lineage.
Definition open_issues (n : network) (l : list (row Issues)) : list (row Issues) :=
  List.filter (fun r => l_state (issue_links n (Uri (env r))) == "open") l.
Definition open_pulls (n : network) (l : list (row PullRequests)) : list (row PullRequests) :=
  List.filter (fun r => l_state (pull_links n (Uri (env r))) == "open") l.
Definition forks_of (n : network) (lineage : string) : Z :=
  distinct (map (fun r => fst (lineages n (Uri (env r))))
    (List.filter (fun r : row Repositories =>
        live r && (fst (lineages n (Uri (env r))) != lineage)
        && match forked_from_uri (cols r) with Some from => within n lineage from | None => false end)
      (all_rows n Repositories))).

(** A comment is shown unless its parent is a live comment of another issue. *)
Definition shown (n : network) (c : row IssueComments_) : bool :=
  match parent_uri (cols c) with
  | None => true
  | Some parent =>
      match rows n IssueComments_ !! parent with
      | Some p => is_some (deleted_at p)
                  || (comment_issue_uri (cols p) == comment_issue_uri (cols c))
      | None => true
      end
  end.
Definition not_deleted {t} (r : row t) : bool := negb (is_some (deleted_at r)).
(** [RecomputeFederationRepositoryCommentCount] counts comments of issues that are not
    deleted; the lineage counts ask for a CID as well, and show every comment. *)
Definition repository_comments (n : network) (lineage : string) : Z :=
  count (List.filter (fun c : row IssueComments_ =>
      not_deleted c && shown n c &&
      match rows n Issues !! comment_issue_uri (cols c) with
      | Some i => not_deleted i && within n lineage (issue_repository_uri (cols i))
      | None => false
      end) (all_rows n IssueComments_)).
Definition lineage_comments (n : network) (lineage : string) : Z :=
  count (List.filter (fun c : row IssueComments_ =>
      live c &&
      match rows n Issues !! comment_issue_uri (cols c) with
      | Some i => live i && within n lineage (issue_repository_uri (cols i))
      | None => false
      end) (all_rows n IssueComments_)).

(** Sets counts on every repository of a lineage. *)
Definition recount (f : counts -> counts) (lineage : string) (n : network) : network :=
  set_derived (lineages n)
    (fun uri => if within n lineage uri then f (repository_counts n uri) else repository_counts n uri)
    (local_ids n) (core_fork_counts n) n.
Definition recount_at (f : string -> counts -> counts) (uri : string) (n : network) : network :=
  match lineage_of n uri with Some l => recount (f l) l n | None => n end.
(** [core.repositories.fork_count], of the local repositories of a lineage. *)
Definition recount_core (total : Z) (lineage : string) (n : network) : network :=
  set_derived (lineages n) (repository_counts n) (local_ids n)
    (fun id => if existsb (fun r => within n lineage (Uri (env r))
                                    && bool_decide (local_ids n (Uri (env r)) = Some id))
                    (all_rows n Repositories)
               then total else core_fork_counts n id) n.

(** The newest of the statuses an issue or a pull request may take its state from. *)
Definition newer {t} (r s : row t) : bool :=
  (source s <? source r)
  || ((source s =? source r) && negb (String.leb (Uri (env r)) (Uri (env s)))).
Definition newest {t} (l : list (row t)) : option (row t) :=
  fold_right (fun r best => match best with
                            | Some b => if newer r b then Some r else Some b
                            | None => Some r
                            end) None l.
(** A status counts when its author owns the repository it names, at the CID it names,
    and that repository is the canonical one of the lineage. *)
Definition authorised {t} (n : network) (canonical uri cid : string) (status : row t) : bool :=
  match rows n Repositories !! uri with
  | Some authority =>
      (uri == canonical) && bool_decide (Cid (env authority) = Some cid)
      && (AuthorDid (env status) == AuthorDid (env authority)) && live status
  | None => false
  end.
Definition link_of {t} (state : columns_of t -> string) (merged : columns_of t -> option string)
    (status : option (row t)) : status_link :=
  match status with
  | Some s => mkStatusLink (state (cols s)) (Some (Uri (env s))) (Cid (env s))
                (RecordUpdatedAt (env s)) (Some (source s)) (merged (cols s))
  | None => open_link
  end.
Definition issue_link (n : network) (i : row Issues) (canonical : string) : status_link :=
  link_of (t := IssueStatuses) status_state (fun _ => None)
    (newest (List.filter (fun s : row IssueStatuses =>
        (status_issue_uri (cols s) == Uri (env i))
        && authorised n canonical (status_repository_uri (cols s)) (status_repository_cid (cols s)) s)
      (all_rows n IssueStatuses))).
Definition pull_link (n : network) (p : row PullRequests) (canonical : string) : status_link :=
  link_of (t := PullRequestStatuses) pull_status_state merged_commit_sha
    (newest (List.filter (fun s : row PullRequestStatuses =>
        (status_pull_request_uri (cols s) == Uri (env p))
        && bool_decide (Some (status_pull_request_cid (cols s)) = Cid (env p))
        && authorised n canonical (status_target_repository_uri (cols s))
             (status_target_repository_cid (cols s)) s)
      (all_rows n PullRequestStatuses))).

Definition fn_set {A} (k : string) (v : A) (f : string -> A) : string -> A :=
  fun k' => if k' == k then v else f k'.

(** ** Lineages *)

Definition live_repository (n : network) (uri : string) : option (row Repositories) :=
  r ← rows n Repositories !! uri; if live r then Some r else None.
Definition opt_eqb (a b : option string) : bool := bool_decide (a = b).
(** SQL equality: not true of NULL. *)
Definition sql_eqb (a b : option string) : bool := is_some a && opt_eqb a b.
Definition le_time (a b : option time) : bool :=
  match a, b with Some a, Some b => a <=? b | _, _ => false end.

(** A proposal and an acceptance that agree with each other and with both repositories. *)
Definition destination_ok (n : network) (pc : transfer_columns) (successor : repository_columns)
    : bool :=
  match destination_organization_uri pc with
  | None => negb (is_some (organization_uri successor))
  | Some org =>
      opt_eqb (organization_uri successor) (Some org)
      && sql_eqb (organization_cid successor) (destination_organization_cid pc)
      && match rows n Organizations !! org with
         | Some o => sql_eqb (Cid (env o)) (destination_organization_cid pc)
                     && sql_eqb (Some (AuthorDid (env o))) (destination_did pc)
                     && not_deleted o
         | None => false
         end
  end.
Definition edge_ok (n : network) (p : row Transfers) (a : row Acceptances)
    (origin successor : row Repositories) : bool :=
  let pc : transfer_columns := cols p in
  let ac : acceptance_columns := cols a in
  let from : repository_columns := cols origin in
  let to : repository_columns := cols successor in
  live p && live a
  && opt_eqb (proposal_uri ac) (Some (Uri (env p)))
  && sql_eqb (proposal_cid ac) (Cid (env p))
  && (AuthorDid (env p) == AuthorDid (env origin))
  && sql_eqb (transfer_repository_cid pc) (Cid (env origin))
  && sql_eqb (transferred_to_uri from) (acceptance_repository_uri ac)
  && sql_eqb (transferred_to_cid from) (acceptance_repository_cid ac)
  && sql_eqb (transferred_from_uri to) (transfer_repository_uri pc)
  && sql_eqb (transferred_from_cid to) (transfer_repository_cid pc)
  && sql_eqb (acceptance_repository_cid ac) (Cid (env successor))
  && le_time (RecordCreatedAt (env p)) (RecordCreatedAt (env a))
  && le_time (RecordCreatedAt (env a)) (transfer_expires_at pc)
  && sql_eqb (Some (AuthorDid (env successor))) (destination_did pc)
  && sql_eqb (Some (AuthorDid (env a))) (destination_did pc)
  && destination_ok n pc to.
Definition candidate_edge (n : network) (p : row Transfers) (a : row Acceptances)
    : option (string * string) :=
  source_uri ← transfer_repository_uri (cols p : transfer_columns);
  successor_uri ← acceptance_repository_uri (cols a : acceptance_columns);
  origin ← live_repository n source_uri;
  successor ← live_repository n successor_uri;
  if edge_ok n p a origin successor then Some (source_uri, successor_uri) else None.
Definition edge : Type := string * string.
Definition candidate_edges (n : network) : list edge :=
  flat_map (fun p => omap (candidate_edge n p) (all_rows n Acceptances)) (all_rows n Transfers).
(** No other edge leaves its source or reaches its successor. *)
Definition valid_edges (edges : list edge) : list edge :=
  List.filter (fun e =>
      Nat.eqb (length (List.filter (fun d => fst d == fst e) edges)) 1
      && Nat.eqb (length (List.filter (fun d => snd d == snd e) edges)) 1) edges.

Definition member (uri : string) (path : list string) : bool := existsb (String.eqb uri) path.
Definition maxDepth : nat := 32.
(** [reach]: the paths along the edges, until one closes a cycle or is 32 edges long. *)
Fixpoint reach (fuel : nat) (edges : list edge) (path : list string) (cycle : bool)
    : list (list string * bool * nat) :=
  let here := (path, cycle, (length path - 1)%nat) in
  match fuel with
  | O => [here]
  | S fuel =>
      here :: (if cycle then [] else
        flat_map (fun e =>
            if opt_eqb (last path) (Some (fst e))
            then reach fuel edges (path ++ [snd e]) (member (snd e) path) else [])
          edges)
  end.
Definition reaches (edges : list edge) : list (list string * bool * nat) :=
  flat_map (fun e => reach (maxDepth - 1) edges [fst e; snd e] (fst e == snd e)) edges.
Definition overlong (edges : list edge) (path : list string) (depth : nat) : bool :=
  Nat.eqb depth maxDepth
  && existsb (fun e => opt_eqb (last path) (Some (fst e)) && negb (member (snd e) path)) edges.
Definition invalid_nodes (edges : list edge) : list string :=
  flat_map (fun '(path, cycle, depth) => if cycle || overlong edges path depth then path else [])
    (reaches edges).
Definition safe_edges (edges : list edge) : list edge :=
  List.filter (fun e => negb (member (fst e) (invalid_nodes edges))
                        && negb (member (snd e) (invalid_nodes edges))) edges.

(** The end of the longest path from a repository along the edges, of at most 32 and
    without a repeated node; of several, the first in the order of URIs. *)
Fixpoint walks (fuel : nat) (edges : list edge) (path : list string) : list (nat * string) :=
  match last path with
  | None => []
  | Some here =>
      ((length path - 1)%nat, here) ::
      match fuel with
      | O => []
      | S fuel =>
          flat_map (fun e => if (fst e == here) && negb (member (snd e) path)
                             then walks fuel edges (path ++ [snd e]) else []) edges
      end
  end.
Definition deeper (a b : nat * string) : bool :=
  Nat.ltb (fst b) (fst a) || (Nat.eqb (fst a) (fst b) && String.ltb (snd a) (snd b)).
Definition farthest (edges : list edge) (uri : string) : string :=
  snd (fold_left (fun best w => if deeper w best then w else best)
         (walks maxDepth edges [uri]) (O, uri)).
Definition backwards (edges : list edge) : list edge := map (fun e => (snd e, fst e)) edges.

Definition reconcile (n : network) : network :=
  let edges := safe_edges (valid_edges (candidate_edges n)) in
  set_derived
    (fun uri =>
       match rows n Repositories !! uri with
       | Some r => if not_deleted r then (farthest (backwards edges) uri, farthest edges uri)
                   else lineages n uri
       | None => lineages n uri
       end)
    (repository_counts n) (local_ids n) (core_fork_counts n) n.

(** The lineages of live repositories, and all their counts. *)
Definition live_lineages (n : network) : list string :=
  Compact (Sort (map (fun r => fst (lineages n (Uri (env r))))
                   (List.filter live (all_rows n Repositories)))).
Definition lineage_counts (n : network) (l : string) : counts :=
  mkCounts (stars_of n l) (count (issues_of n l)) (count (open_issues n (issues_of n l)))
    (lineage_comments n l) (count (pulls_of n l)) (count (open_pulls n (pulls_of n l)))
    (forks_of n l).
(** [UPDATE core.repositories ... FROM network_update]: one repository of several that are
    one local repository lends its count; here the first. *)
Definition recount_lineages (n : network) : network :=
  let updated uri := match lineage_of n uri with
                     | Some l => if member l (live_lineages n) then Some l else None
                     | None => None
                     end in
  set_derived (lineages n)
    (fun uri => match updated uri with Some l => lineage_counts n l | None => repository_counts n uri end)
    (local_ids n)
    (fun id => match List.find (fun r => bool_decide (local_ids n (Uri (env r)) = Some id)
                                         && is_some (updated (Uri (env r))))
                       (all_rows n Repositories) with
               | Some r => match updated (Uri (env r)) with
                           | Some l => forks_of n l
                           | None => core_fork_counts n id
                           end
               | None => core_fork_counts n id
               end) n.

Definition recomputeFederationRepositoryCount (did : string) (n : network) : network :=
  let total := count (List.filter (fun r => (AuthorDid (env r) == did) && not_deleted r)
                        (all_rows n Repositories)) in
  set_profiles (alter (fun p => mkProfileRow (p_uri p) (p_cid p) (p_handle p) (p_columns p)
      (p_created_at p) (p_indexed_at p) (p_deleted_at p) (p_source p) (p_handle_source p) total)
    did) n.
Definition recomputeFederationStarCount (uri : string) (n : network) : network :=
  recount_at (fun l c => mkCounts (stars_of n l) (issue_count c) (open_issue_count c)
    (comment_count c) (pull_request_count c) (open_pull_request_count c) (fork_count c)) uri n.
Definition recomputeFederationIssueState (uri : string) (n : network) : network :=
  match rows n Issues !! uri with
  | Some i =>
      let repository := issue_repository_uri (cols i : issue_columns) in
      if is_some (rows n Repositories !! repository)
      then set_links (fn_set uri (issue_link n i (snd (lineages n repository))) (issue_links n))
             (issue_comments n) (pull_links n) (pull_reviews n) n
      else n
  | None => n
  end.
Definition recomputeFederationIssueCounts (uri : string) (n : network) : network :=
  recount_at (fun l c => mkCounts (star_count c) (count (issues_of n l))
    (count (open_issues n (issues_of n l))) (comment_count c) (pull_request_count c)
    (open_pull_request_count c) (fork_count c)) uri n.
Definition recomputeFederationIssueCommentCount (uri : string) (n : network) : network :=
  match rows n Issues !! uri with
  | Some i =>
      let total := count (List.filter (fun c : row IssueComments_ =>
          (comment_issue_uri (cols c) == uri) && is_some (Cid (env i)) && live c && shown n c)
        (all_rows n IssueComments_)) in
      set_links (issue_links n) (fn_set uri total (issue_comments n)) (pull_links n)
        (pull_reviews n) n
  | None => n
  end.
Definition recomputeFederationRepositoryCommentCount (uri : string) (n : network) : network :=
  recount_at (fun l c => mkCounts (star_count c) (issue_count c) (open_issue_count c)
    (repository_comments n l) (pull_request_count c) (open_pull_request_count c) (fork_count c))
    uri n.
Definition recomputeFederationPullRequestState (uri : string) (n : network) : network :=
  match rows n PullRequests !! uri with
  | Some p =>
      let repository := target_repository_uri (cols p : pull_request_columns) in
      if is_some (rows n Repositories !! repository)
      then set_links (issue_links n) (issue_comments n)
             (fn_set uri (pull_link n p (snd (lineages n repository))) (pull_links n))
             (pull_reviews n) n
      else n
  | None => n
  end.
Definition recomputeFederationPullRequestReviewCount (uri : string) (n : network) : network :=
  match rows n PullRequests !! uri with
  | Some p =>
      let total := count (List.filter (fun r : row PullRequestReviews =>
          (review_pull_request_uri (cols r) == uri)
          && sql_eqb (Some (review_pull_request_cid (cols r))) (Cid (env p)) && not_deleted r)
        (all_rows n PullRequestReviews)) in
      set_links (issue_links n) (issue_comments n) (pull_links n)
        (fn_set uri total (pull_reviews n)) n
  | None => n
  end.
Definition recomputeFederationPullRequestCounts (uri : string) (n : network) : network :=
  recount_at (fun l c => mkCounts (star_count c) (issue_count c) (open_issue_count c)
    (comment_count c) (count (pulls_of n l)) (count (open_pulls n (pulls_of n l)))
    (fork_count c)) uri n.
Definition recomputeFederationForkCount (uri : string) (n : network) : network :=
  match lineage_of n uri with
  | Some l =>
      recount_core (forks_of n l) l
        (recount (fun c => mkCounts (star_count c) (issue_count c) (open_issue_count c)
           (comment_count c) (pull_request_count c) (open_pull_request_count c)
           (forks_of n l)) l n)
  | None => n
  end.

Definition recompute (r : recomputation) (n : network) : network :=
  match r with
  | RepositoryCount did => recomputeFederationRepositoryCount did n
  | StarCount uri => recomputeFederationStarCount uri n
  | IssueState uri => recomputeFederationIssueState uri n
  | IssueCounts uri => recomputeFederationIssueCounts uri n
  | IssueCommentCount uri => recomputeFederationIssueCommentCount uri n
  | RepositoryCommentCount uri => recomputeFederationRepositoryCommentCount uri n
  | PullRequestState uri => recomputeFederationPullRequestState uri n
  | PullRequestReviewCount uri => recomputeFederationPullRequestReviewCount uri n
  | PullRequestCounts uri => recomputeFederationPullRequestCounts uri n
  | ForkCount uri => recomputeFederationForkCount uri n
  | ReconcileTransferLineages => reconcile n
  | RepositoryLineageCounts => recount_lineages n
  end.

(** ** Identities and profiles *)

Definition upsert_identity (did : string) (handle : option string) (status : string)
    (isActive : bool) (indexedAt : option time) (id : Z) (n : network) : result unit * network :=
  let new := mkIdentityRow handle status isActive indexedAt id in
  if negb ((0 <? id) && is_some indexedAt) then (Err constraint_violation, n) else
  match identities n !! did with
  | Some old => if id_source old <? id then (Ok tt, set_identities <[did := new]> n) else (Ok tt, n)
  | None => (Ok tt, set_identities <[did := new]> n)
  end.
(** [source IS NULL OR source < id]. *)
Definition older (source : option Z) (id : Z) : bool :=
  match source with Some s => s <? id | None => true end.
Definition project_handle (did : string) (handle : option string) (indexedAt : option time) (id : Z)
    (n : network) : network :=
  set_profiles (alter (fun p =>
      if older (p_handle_source p) id then
        mkProfileRow (p_uri p) (p_cid p) handle (p_columns p) (p_created_at p) indexedAt
          (p_deleted_at p) (p_source p) (Some id) (p_repository_count p)
      else p) did) n.
Definition or_else {A} (a b : option A) : option A := match a with Some _ => a | None => b end.
Definition upsert_profile (e : envelope) (c : profile_columns) (n : network) : network :=
  let did := AuthorDid e in
  let identity := identities n !! did in
  let handle := i ← identity; id_handle i in
  let handle_source := id_source <$> identity in
  match profiles n !! did with
  | None =>
      set_profiles <[did := mkProfileRow (Some (Uri e)) (Cid e) handle c (RecordCreatedAt e)
        (IndexedAt e) None (Some (SourceEventID e)) handle_source 0]> n
  | Some old =>
      if older (p_source old) (SourceEventID e) then
        set_profiles <[did := mkProfileRow (Some (Uri e)) (Cid e) (or_else handle (p_handle old)) c
          (RecordCreatedAt e) (IndexedAt e) None (Some (SourceEventID e))
          (or_else handle_source (p_handle_source old)) (p_repository_count old)]> n
      else n
  end.
Definition no_columns : profile_columns := mkProfileColumns None None None None.
Definition tombstone_profile (did : string) (uri : option string) (at_ : option time) (id : Z)
    (n : network) : network :=
  match profiles n !! did with
  | None =>
      set_profiles <[did := mkProfileRow uri None None no_columns None at_ at_ (Some id) None 0]> n
  | Some old =>
      if older (p_source old) id then
        set_profiles <[did := mkProfileRow (p_uri old) None (p_handle old) no_columns
          (p_created_at old) at_ at_ (Some id) (p_handle_source old) (p_repository_count old)]> n
      else n
  end.

(** ** Records *)

Definition always {t} (r : row t) : bool := true.
(** [new], under the author and the record key the row already has. *)
Definition keep_author {t} (new old : row t) : row t :=
  let e := env new in
  mkRow (mkEnvelope (Uri e) (Cid e) (AuthorDid (env old)) (Rkey (env old)) (RecordCreatedAt e)
           (RecordUpdatedAt e) (IndexedAt e) (SourceEventID e)) (deleted_at new) (cols new).
Arguments keep_author {t} & new old.
Definition same_author {t} (e : envelope) (old : row t) : bool :=
  (AuthorDid (env old) == AuthorDid e) && (Rkey (env old) == Rkey e).

Definition tombstone_record (uri did collection rkey : string) (at_ : option time) (id : Z)
    (n : network) : result unit * network :=
  exec_ (upsert (t := Records)
    (mkRow (mkEnvelope uri None did rkey None None at_ id) at_ (mkRecordColumns collection None))
    (fun old => mkRow (buried true at_ id (env old)) at_
                  (mkRecordColumns (record_collection (cols old)) None)) always n).
Definition empty_repository : repository_columns :=
  mkRepositoryColumns None None None None None None None None None None None None None None None.
Definition tombstone_repository (uri did rkey : string) (at_ : option time) (id : Z) (n : network)
    : result unit * network :=
  exec_ (upsert (t := Repositories)
    (mkRow (mkEnvelope uri None did rkey None None at_ id) at_ empty_repository)
    (bury true at_ id) always n).
(** The upsert links the repository to a local one, and keeps a link it already has. *)
Definition upsert_repository (e : envelope) (c : repository_columns) (n : network)
    : result unit * network :=
  let '(r, n') := upsert (t := Repositories) (mkRow e None c) (fun _ => mkRow e None c) always n in
  match r with
  | Ok (Some _) =>
      (Ok tt, set_derived (lineages n') (repository_counts n')
                (fn_set (Uri e) (or_else (local_repository n' (Uri e)) (local_ids n' (Uri e)))
                   (local_ids n')) (core_fork_counts n') n')
  | Ok None => (Ok tt, n')
  | Err err => (Err err, n')
  end.
(** [$7], the repository's URI, is compared with the URIs of comments. *)
Definition status_inserts (n : network) (c : issue_status_columns) : bool :=
  match rows n IssueComments_ !! status_repository_uri c with
  | Some parent => is_some (deleted_at parent)
                   || (comment_issue_uri (cols parent : comment_columns) == status_issue_uri c)
  | None => true
  end.

(** ** The database: what is committed, and what the open transaction sees *)

Record db := mkDB { committed : network; pending : network; clock : time }.
Definition lookup_column {t A} (f : columns_of t -> A) (uri : string) (n : network) : result A :=
  match rows n t !! uri with Some r => Ok (f (cols r)) | None => Err ErrNoRows end.

(** One definition for a query, named after its constant in the generated package. *)
Definition hasFederationReceipt (consumer : string) (id : Z) (n : network)
    : result bool * network :=
  (Ok (is_some (receipts n !! (consumer, id))), n).
Definition insertFederationReceipt (consumer : string) (id : Z) (outcome : string) (rejection :
    option error) (at_ : option time) (n : network)
    : result unit * network :=
  if is_some (receipts n !! (consumer, id)) || negb (is_some at_) || negb (0 <? id)
     || negb (one_of outcome ["applied"; "rejected"])
  then (Err constraint_violation, n)
  else (Ok tt, set_receipts <[(consumer, id) := mkReceipt outcome rejection at_]> n).
Definition advanceFederationCursor (consumer : string) (id : Z) (at_ : option time) (n : network)
    : result unit * network :=
  if negb (is_some at_) || negb (0 <? id) then (Err constraint_violation, n) else
  let next := match cursors n !! consumer with
              | Some (old, old_at) => if old <? id then (id, at_) else (old, old_at)
              | None => (id, at_)
              end in
  (Ok tt, set_cursors <[consumer := next]> n).
Definition upsertFederationIdentity (did : string) (handle : option string) (status : string)
    (active : bool) (at_ : option time) (id : Z) (n : network)
    : result unit * network :=
  upsert_identity did handle status active at_ id n.
Definition projectIdentityHandle (did : string) (handle : option string) (at_ : option time) (id :
    Z) (n : network)
    : result unit * network :=
  (Ok tt, project_handle did handle at_ id n).
Definition getFederationStarRepositoryURI (uri : string) (n : network)
    : result string * network :=
  (lookup_column (t := Stars) star_repository_uri uri n, n).
Definition getFederationIssueRepositoryURI (uri : string) (n : network)
    : result string * network :=
  (lookup_column (t := Issues) issue_repository_uri uri n, n).
Definition getFederationIssueRepositoryForComment (uri : string) (n : network)
    : result string * network :=
  (lookup_column (t := Issues) issue_repository_uri uri n, n).
Definition getFederationIssueCommentIssueURI (uri : string) (n : network)
    : result string * network :=
  (lookup_column (t := IssueComments_) comment_issue_uri uri n, n).
Definition listFederationCommentChildIssueURIs (parent : option string) (n : network)
    : result (list string) * network :=
  (Ok (Compact (Sort (map (fun c : row IssueComments_ => comment_issue_uri (cols c))
     (List.filter (fun c : row IssueComments_ =>
         sql_eqb (parent_uri (cols c)) parent && not_deleted c) (all_rows n IssueComments_))))), n).
Definition getFederationIssueStatusTarget (uri : string) (n : network)
    : result (string * string) * network :=
  (lookup_column (t := IssueStatuses)
     (fun c => (status_issue_uri c, status_repository_uri c)) uri n, n).
Definition getFederationPullRequestTargetRepositoryURI (uri : string) (n : network)
    : result string * network :=
  (lookup_column (t := PullRequests) target_repository_uri uri n, n).
Definition getFederationPullRequestStatusTarget (uri : string) (n : network)
    : result (string * string) * network :=
  (lookup_column (t := PullRequestStatuses)
     (fun c => (status_pull_request_uri c, status_target_repository_uri c)) uri n, n).
Definition getFederationPullRequestReviewSubject (uri : string) (n : network)
    : result string * network :=
  (lookup_column (t := PullRequestReviews) review_pull_request_uri uri n, n).
Definition listFederationRepositoryPullRequestURIs (uri : string) (n : network)
    : result (list string) * network :=
  (Ok (Sort (map (fun p => Uri (env p))
     (List.filter (fun p : row PullRequests => target_repository_uri (cols p) == uri)
        (all_rows n PullRequests)))), n).
Definition getFederationRepositoryForkSource (uri : string) (n : network)
    : result (option string) * network :=
  (match rows n Repositories !! uri with
   | Some r => if not_deleted r then Ok (forked_from_uri (cols r : repository_columns))
               else Err ErrNoRows
   | None => Err ErrNoRows
   end, n).
Definition getFederationRepositoryTransferLinks (uri : string) (n : network)
    : result (option string * option string) * network :=
  (lookup_column (t := Repositories)
     (fun c => (transferred_from_uri c, transferred_to_uri c)) uri n, n).
Definition upsertFederationRecord (e : envelope) (c : record_columns) (n : network)
    : result unit * network :=
  exec_ (upsert (t := Records) (mkRow e None c) (fun _ => mkRow e None c) always n).
Definition upsertFederationProfile (e : envelope) (c : profile_columns) (n : network)
    : result unit * network :=
  (Ok tt, upsert_profile e c n).
Definition upsertFederationOrganization (e : envelope) (c : organization_columns) (n : network)
    : result unit * network :=
  exec_ (upsert (t := Organizations) (mkRow e None c) (keep_author (mkRow e None c)) always n).
Definition upsertFederationOrganizationGrant (e : envelope) (c : grant_columns) (n : network)
    : result unit * network :=
  exec_ (upsert (t := Grants) (mkRow e None c) (keep_author (mkRow e None c)) always n).
Definition upsertFederationOrganizationMembership (e : envelope) (c : membership_columns) (n :
    network)
    : result unit * network :=
  exec_ (upsert (t := Memberships) (mkRow e None c) (keep_author (mkRow e None c)) always n).
Definition upsertFederationOrganizationRevocation (e : envelope) (c : revocation_columns) (n :
    network)
    : result unit * network :=
  exec_ (upsert (t := Revocations) (mkRow e None c) (keep_author (mkRow e None c)) always n).
Definition upsertFederationRepositoryTransfer (e : envelope) (c : transfer_columns) (n : network)
    : result unit * network :=
  exec_ (upsert (t := Transfers) (mkRow e None c) (fun _ => mkRow e None c) always n).
Definition upsertFederationRepositoryTransferAcceptance (e : envelope) (c : acceptance_columns) (n
    : network)
    : result unit * network :=
  exec_ (upsert (t := Acceptances) (mkRow e None c) (fun _ => mkRow e None c) always n).
Definition upsertFederationStar (e : envelope) (c : star_columns) (n : network)
    : result string * network :=
  returning (t := Stars) star_repository_uri (upsert_current (mkRow e None c) always n).
Definition upsertFederationIssue (e : envelope) (c : issue_columns) (n : network)
    : result string * network :=
  returning (t := Issues) issue_repository_uri (upsert_current (mkRow e None c) always n).
Definition upsertFederationIssueComment (e : envelope) (c : comment_columns) (n : network)
    : result string * network :=
  returning (t := IssueComments_) comment_issue_uri
    (upsert_current (mkRow e None c) (fun old : row IssueComments_ =>
       same_author e old
       && (comment_issue_uri (cols old) == comment_issue_uri c)
       && opt_eqb (parent_uri (cols old)) (parent_uri c)) n).
Definition upsertFederationIssueStatus (e : envelope) (c : issue_status_columns) (n : network)
    : result (string * string) * network :=
  if status_inserts n c then
    returning (t := IssueStatuses) (fun c => (status_issue_uri c, status_repository_uri c))
      (upsert_current (mkRow e None c) always n)
  else (Err ErrNoRows, n).
Definition upsertFederationPullRequest (e : envelope) (c : pull_request_columns) (n : network)
    : result string * network :=
  returning (t := PullRequests) target_repository_uri
    (upsert_current (mkRow e None c) (fun old : row PullRequests =>
       same_author e old
       && (source_repository_uri (cols old) == source_repository_uri c)
       && (source_branch (cols old) == source_branch c)
       && (target_repository_uri (cols old) == target_repository_uri c)
       && (target_branch (cols old) == target_branch c)) n).
Definition upsertFederationPullRequestStatus (e : envelope) (c : pull_status_columns) (n : network)
    : result (string * string) * network :=
  returning (t := PullRequestStatuses)
    (fun c => (status_pull_request_uri c, status_target_repository_uri c))
    (upsert_current (mkRow e None c) (fun old : row PullRequestStatuses =>
       same_author e old
       && (status_pull_request_uri (cols old) == status_pull_request_uri c)
       && (status_target_repository_uri (cols old) == status_target_repository_uri c)) n).
Definition upsertFederationPullRequestReview (e : envelope) (c : review_columns) (n : network)
    : result string * network :=
  returning (t := PullRequestReviews) review_pull_request_uri
    (upsert_current (mkRow e None c) (fun old : row PullRequestReviews =>
       same_author e old
       && (review_pull_request_uri (cols old) == review_pull_request_uri c)) n).
Definition upsertFederationRepositoryLabel (e : envelope) (c : label_columns) (n : network)
    : result unit * network :=
  exec_ (upsert_current (t := RepositoryLabels) (mkRow e None c) (fun old : row RepositoryLabels =>
    same_author e old
    && (label_repository_uri (cols old) == label_repository_uri c)) n).
Definition upsertFederationRepositoryMilestone (e : envelope) (c : milestone_columns) (n : network)
    : result unit * network :=
  exec_ (upsert_current (t := RepositoryMilestones) (mkRow e None c) (fun old : row RepositoryMilestones =>
    same_author e old
    && (milestone_repository_uri (cols old) == milestone_repository_uri c)) n).
Definition upsertFederationSubjectTriage (e : envelope) (c : triage_columns) (n : network)
    : result unit * network :=
  exec_ (upsert_current (t := SubjectTriage_) (mkRow e None c) (fun old : row SubjectTriage_ =>
    same_author e old && (subject_uri (cols old) == subject_uri c)
    && (subject_kind (cols old) == subject_kind c)
    && (triage_repository_uri (cols old) == triage_repository_uri c)) n).
Definition upsertFederationRepository (e : envelope) (c : repository_columns) (n : network)
    : result unit * network :=
  upsert_repository e c n.
Definition tombstoneFederationRecord (uri : string) (did : string) (collection : string) (rkey :
    string) (at_ : option time) (id : Z) (n : network)
    : result unit * network :=
  tombstone_record uri did collection rkey at_ id n.
Definition tombstoneFederationProfile (did : string) (uri : option string) (at_ : option time) (id
    : Z) (n : network)
    : result unit * network :=
  (Ok tt, tombstone_profile did uri at_ id n).
Definition tombstoneFederationOrganizationProjection (uri : string) (at_ : option time) (id : Z)
    (n : network)
    : result unit * network :=
  (Ok tt, snd (tombstone Organizations false true uri at_ id n)).
Definition tombstoneFederationOrganizationGrant (uri : string) (at_ : option time) (id : Z) (n :
    network)
    : result unit * network :=
  (Ok tt, snd (tombstone Grants false true uri at_ id n)).
Definition tombstoneFederationOrganizationMembership (uri : string) (at_ : option time) (id : Z)
    (n : network)
    : result unit * network :=
  (Ok tt, snd (tombstone Memberships false true uri at_ id n)).
Definition tombstoneFederationOrganizationRevocation (uri : string) (at_ : option time) (id : Z)
    (n : network)
    : result unit * network :=
  (Ok tt, snd (tombstone Revocations false true uri at_ id n)).
Definition tombstoneFederationRepositoryTransfer (uri : string) (at_ : option time) (id : Z) (n :
    network)
    : result unit * network :=
  (Ok tt, snd (tombstone Transfers true true uri at_ id n)).
Definition tombstoneFederationRepositoryTransferAcceptance (uri : string) (at_ : option time) (id
    : Z) (n : network)
    : result unit * network :=
  (Ok tt, snd (tombstone Acceptances true true uri at_ id n)).
Definition tombstoneFederationStar (uri : string) (at_ : option time) (id : Z) (n : network)
    : result string * network :=
  let '(r, n') := tombstone Stars true (current n uri id true) uri at_ id n in
  (of_row (t := Stars) star_repository_uri r, n').
Definition tombstoneFederationIssue (uri : string) (at_ : option time) (id : Z) (n : network)
    : result string * network :=
  let '(r, n') := tombstone Issues true (current n uri id true) uri at_ id n in
  (of_row (t := Issues) issue_repository_uri r, n').
Definition tombstoneFederationIssueComment (uri : string) (at_ : option time) (id : Z) (n : network)
    : result string * network :=
  let '(r, n') := tombstone IssueComments_ true (current n uri id true) uri at_ id n in
  (of_row (t := IssueComments_) comment_issue_uri r, n').
Definition tombstoneFederationIssueStatus (uri : string) (at_ : option time) (id : Z) (n : network)
    : result (string * string) * network :=
  let '(r, n') := tombstone IssueStatuses true (current n uri id true) uri at_ id n in
  (of_row (t := IssueStatuses) (fun c => (status_issue_uri c, status_repository_uri c)) r, n').
Definition tombstoneFederationPullRequest (uri : string) (at_ : option time) (id : Z) (n : network)
    : result string * network :=
  let '(r, n') := tombstone PullRequests true (current n uri id true) uri at_ id n in
  (of_row (t := PullRequests) target_repository_uri r, n').
Definition tombstoneFederationPullRequestStatus (uri : string) (at_ : option time) (id : Z) (n :
    network)
    : result (string * string) * network :=
  let '(r, n') := tombstone PullRequestStatuses true (current n uri id true) uri at_ id n in
  (of_row (t := PullRequestStatuses)
     (fun c => (status_pull_request_uri c, status_target_repository_uri c)) r, n').
Definition tombstoneFederationPullRequestReview (uri : string) (at_ : option time) (id : Z) (n :
    network)
    : result string * network :=
  let '(r, n') := tombstone PullRequestReviews true (current n uri id true) uri at_ id n in
  (of_row (t := PullRequestReviews) review_pull_request_uri r, n').
Definition tombstoneFederationRepositoryLabel (uri : string) (at_ : option time) (id : Z) (n :
    network)
    : result unit * network :=
  (Ok tt, snd (tombstone RepositoryLabels true (current n uri id true) uri at_ id n)).
Definition tombstoneFederationRepositoryMilestone (uri : string) (at_ : option time) (id : Z) (n :
    network)
    : result unit * network :=
  (Ok tt, snd (tombstone RepositoryMilestones true (current n uri id true) uri at_ id n)).
Definition tombstoneFederationSubjectTriage (uri : string) (at_ : option time) (id : Z) (n :
    network)
    : result unit * network :=
  (Ok tt, snd (tombstone SubjectTriage_ true (current n uri id true) uri at_ id n)).
Definition tombstoneFederationRepository (uri : string) (did : string) (rkey : string) (at_ :
    option time) (id : Z) (n : network)
    : result unit * network :=
  tombstone_repository uri did rkey at_ id n.

(** A query of the open transaction. *)
Definition on_network (X : Type) (e : effect X) (n : network) : X * network :=
  match e in effect X return X * network with
  | Begin | Commit | Rollback => (Ok tt, n)
  | Now => (zeroTime, n)
  | HasFederationReceipt consumer id => hasFederationReceipt consumer id n
  | InsertFederationReceipt consumer id outcome rejection at_ =>
      insertFederationReceipt consumer id outcome rejection at_ n
  | AdvanceFederationCursor consumer id at_ => advanceFederationCursor consumer id at_ n
  | UpsertFederationIdentity did handle status active at_ id =>
      upsertFederationIdentity did handle status active at_ id n
  | ProjectIdentityHandle did handle at_ id => projectIdentityHandle did handle at_ id n
  | Lock _ => (Ok tt, n)
  | Recompute r => (Ok tt, recompute r n)
  | GetFederationStarRepositoryURI uri => getFederationStarRepositoryURI uri n
  | GetFederationIssueRepositoryURI uri => getFederationIssueRepositoryURI uri n
  | GetFederationIssueRepositoryForComment uri => getFederationIssueRepositoryForComment uri n
  | GetFederationIssueCommentIssueURI uri => getFederationIssueCommentIssueURI uri n
  | ListFederationCommentChildIssueURIs parent => listFederationCommentChildIssueURIs parent n
  | GetFederationIssueStatusTarget uri => getFederationIssueStatusTarget uri n
  | GetFederationPullRequestTargetRepositoryURI uri =>
      getFederationPullRequestTargetRepositoryURI uri n
  | GetFederationPullRequestStatusTarget uri => getFederationPullRequestStatusTarget uri n
  | GetFederationPullRequestReviewSubject uri => getFederationPullRequestReviewSubject uri n
  | ListFederationRepositoryPullRequestURIs uri => listFederationRepositoryPullRequestURIs uri n
  | GetFederationRepositoryForkSource uri => getFederationRepositoryForkSource uri n
  | GetFederationRepositoryTransferLinks uri => getFederationRepositoryTransferLinks uri n
  | UpsertFederationRecord e c => upsertFederationRecord e c n
  | UpsertFederationProfile e c => upsertFederationProfile e c n
  | UpsertFederationOrganization e c => upsertFederationOrganization e c n
  | UpsertFederationOrganizationGrant e c => upsertFederationOrganizationGrant e c n
  | UpsertFederationOrganizationMembership e c => upsertFederationOrganizationMembership e c n
  | UpsertFederationOrganizationRevocation e c => upsertFederationOrganizationRevocation e c n
  | UpsertFederationRepositoryTransfer e c => upsertFederationRepositoryTransfer e c n
  | UpsertFederationRepositoryTransferAcceptance e c =>
      upsertFederationRepositoryTransferAcceptance e c n
  | UpsertFederationStar e c => upsertFederationStar e c n
  | UpsertFederationIssue e c => upsertFederationIssue e c n
  | UpsertFederationIssueComment e c => upsertFederationIssueComment e c n
  | UpsertFederationIssueStatus e c => upsertFederationIssueStatus e c n
  | UpsertFederationPullRequest e c => upsertFederationPullRequest e c n
  | UpsertFederationPullRequestStatus e c => upsertFederationPullRequestStatus e c n
  | UpsertFederationPullRequestReview e c => upsertFederationPullRequestReview e c n
  | UpsertFederationRepositoryLabel e c => upsertFederationRepositoryLabel e c n
  | UpsertFederationRepositoryMilestone e c => upsertFederationRepositoryMilestone e c n
  | UpsertFederationSubjectTriage e c => upsertFederationSubjectTriage e c n
  | UpsertFederationRepository e c => upsertFederationRepository e c n
  | TombstoneFederationRecord uri did collection rkey at_ id =>
      tombstoneFederationRecord uri did collection rkey at_ id n
  | TombstoneFederationProfile did uri at_ id => tombstoneFederationProfile did uri at_ id n
  | TombstoneFederationOrganizationProjection uri at_ id =>
      tombstoneFederationOrganizationProjection uri at_ id n
  | TombstoneFederationOrganizationGrant uri at_ id =>
      tombstoneFederationOrganizationGrant uri at_ id n
  | TombstoneFederationOrganizationMembership uri at_ id =>
      tombstoneFederationOrganizationMembership uri at_ id n
  | TombstoneFederationOrganizationRevocation uri at_ id =>
      tombstoneFederationOrganizationRevocation uri at_ id n
  | TombstoneFederationRepositoryTransfer uri at_ id =>
      tombstoneFederationRepositoryTransfer uri at_ id n
  | TombstoneFederationRepositoryTransferAcceptance uri at_ id =>
      tombstoneFederationRepositoryTransferAcceptance uri at_ id n
  | TombstoneFederationStar uri at_ id => tombstoneFederationStar uri at_ id n
  | TombstoneFederationIssue uri at_ id => tombstoneFederationIssue uri at_ id n
  | TombstoneFederationIssueComment uri at_ id => tombstoneFederationIssueComment uri at_ id n
  | TombstoneFederationIssueStatus uri at_ id => tombstoneFederationIssueStatus uri at_ id n
  | TombstoneFederationPullRequest uri at_ id => tombstoneFederationPullRequest uri at_ id n
  | TombstoneFederationPullRequestStatus uri at_ id =>
      tombstoneFederationPullRequestStatus uri at_ id n
  | TombstoneFederationPullRequestReview uri at_ id =>
      tombstoneFederationPullRequestReview uri at_ id n
  | TombstoneFederationRepositoryLabel uri at_ id => tombstoneFederationRepositoryLabel uri at_ id n
  | TombstoneFederationRepositoryMilestone uri at_ id =>
      tombstoneFederationRepositoryMilestone uri at_ id n
  | TombstoneFederationSubjectTriage uri at_ id => tombstoneFederationSubjectTriage uri at_ id n
  | TombstoneFederationRepository uri did rkey at_ id =>
      tombstoneFederationRepository uri did rkey at_ id n
  end.

Create HintDb queries.
#[export] Hint Unfold hasFederationReceipt insertFederationReceipt advanceFederationCursor
  upsertFederationIdentity projectIdentityHandle getFederationStarRepositoryURI
  getFederationIssueRepositoryURI getFederationIssueRepositoryForComment
  getFederationIssueCommentIssueURI listFederationCommentChildIssueURIs
  getFederationIssueStatusTarget getFederationPullRequestTargetRepositoryURI
  getFederationPullRequestStatusTarget getFederationPullRequestReviewSubject
  listFederationRepositoryPullRequestURIs getFederationRepositoryForkSource
  getFederationRepositoryTransferLinks upsertFederationRecord upsertFederationProfile
  upsertFederationOrganization upsertFederationOrganizationGrant
  upsertFederationOrganizationMembership upsertFederationOrganizationRevocation
  upsertFederationRepositoryTransfer upsertFederationRepositoryTransferAcceptance
  upsertFederationStar upsertFederationIssue upsertFederationIssueComment
  upsertFederationIssueStatus upsertFederationPullRequest upsertFederationPullRequestStatus
  upsertFederationPullRequestReview upsertFederationRepositoryLabel
  upsertFederationRepositoryMilestone upsertFederationSubjectTriage upsertFederationRepository
  tombstoneFederationRecord tombstoneFederationProfile tombstoneFederationOrganizationProjection
  tombstoneFederationOrganizationGrant tombstoneFederationOrganizationMembership
  tombstoneFederationOrganizationRevocation tombstoneFederationRepositoryTransfer
  tombstoneFederationRepositoryTransferAcceptance tombstoneFederationStar tombstoneFederationIssue
  tombstoneFederationIssueComment tombstoneFederationIssueStatus tombstoneFederationPullRequest
  tombstoneFederationPullRequestStatus tombstoneFederationPullRequestReview
  tombstoneFederationRepositoryLabel tombstoneFederationRepositoryMilestone
  tombstoneFederationSubjectTriage tombstoneFederationRepository : queries.
#[export] Hint Unfold recomputeFederationRepositoryCount recomputeFederationStarCount
  recomputeFederationIssueState recomputeFederationIssueCounts
  recomputeFederationIssueCommentCount recomputeFederationRepositoryCommentCount
  recomputeFederationPullRequestState recomputeFederationPullRequestReviewCount
  recomputeFederationPullRequestCounts recomputeFederationForkCount : queries.

(** A transaction starts from what is committed, and a rollback returns to it. *)
Definition handle (X : Type) (e : effect X) (s : db) : X * db :=
  match e in effect X return X * db with
  | Begin | Rollback => (Ok tt, mkDB (committed s) (committed s) (clock s))
  | Commit => (Ok tt, mkDB (pending s) (pending s) (clock s))
  | Now => (clock s, s)
  | e => let '(x, n) := on_network _ e (pending s) in (x, mkDB (committed s) n (clock s))
  end.
End tables.
