(* ===== verification/FederationFrame.v ===== *)
(** * FederationFrame: what each query and each step of a projection may change. *)

From S2P Require Import Prelude.
From S2P Require Import GoText.
From S2P Require Import Syntax.
From S2P Require Import Star.
From S2P Require Import Issue.
From S2P Require Import PullRequest.
From S2P Require Import Triage.
From S2P Require Import Transfer.
From S2P Require Import Endpoint.
From S2P Require Import FederationEvent.
From S2P Require Import FederationFacts.
From S2P Require Import FederationProjection.
From S2P Require Import FederationTables.

Module frames.
Import federation federationfacts projection tables.

(** ** Tables *)

Lemma rows_set_same t uri r n : rows (set_row t uri r n) t = <[uri := r]> (rows n t).
Proof. cbn. case_decide as Hd; [| done]. by rewrite (eq_pi _ _ Hd eq_refl). Qed.
Lemma rows_set_other t t' uri r n : t <> t' -> rows (set_row t uri r n) t' = rows n t'.
Proof. intros Hne. cbn. by case_decide. Qed.

(** What an upsert leaves in its table. *)
Definition upserted {t} (new : row t) (update : row t -> row t) (allowed : row t -> bool)
    (table : gmap string (row t)) : gmap string (row t) :=
  match table !! Uri (env new) with
  | None => <[Uri (env new) := new]> table
  | Some old => if (source old <? source new) && allowed old
                then <[Uri (env new) := update old]> table else table
  end.

Definition same_receipts (n n' : network) : Prop :=
  receipts n' = receipts n /\ cursors n' = cursors n /\ identities n' = identities n.

Lemma upsert_Ok {t} (new : row t) update allowed n o n' :
  upsert new update allowed n = (Ok o, n') ->
  rows n' t = upserted new update allowed (rows n t) /\
  (forall t', t <> t' -> rows n' t' = rows n t') /\ same_receipts n n'.
Proof.
  unfold upsert, upserted. destruct (checks t new); [| done]. cbn [negb].
  destruct (rows n t !! Uri (env new)) as [old |].
  - destruct (_ && allowed old); [| by intros [= <- <-]].
    destruct (_ && _); [| done]. intros [= <- <-].
    rewrite rows_set_same. split_and!; try done. intros t' Ht. by rewrite rows_set_other.
  - destruct (unique_ok n new); [| done]. intros [= <- <-].
    rewrite rows_set_same. split_and!; try done. intros t' Ht. by rewrite rows_set_other.
Qed.
Lemma upsert_Err {t} (new : row t) update allowed n e n' :
  upsert new update allowed n = (Err e, n') -> n' = n.
Proof. unfold upsert. repeat case_match; naive_solver. Qed.

(** ** What a query writes *)

(** The tables of records an effect may write. *)
Definition touched {X} (e : effect X) : option table :=
  match e with
  | UpsertFederationRecord _ _ | TombstoneFederationRecord _ _ _ _ _ _ => Some Records
  | UpsertFederationRepository _ _ | TombstoneFederationRepository _ _ _ _ _ => Some Repositories
  | UpsertFederationStar _ _ | TombstoneFederationStar _ _ _ => Some Stars
  | UpsertFederationIssue _ _ | TombstoneFederationIssue _ _ _ => Some Issues
  | UpsertFederationIssueComment _ _ | TombstoneFederationIssueComment _ _ _ => Some IssueComments_
  | UpsertFederationIssueStatus _ _ | TombstoneFederationIssueStatus _ _ _ => Some IssueStatuses
  | UpsertFederationPullRequest _ _ | TombstoneFederationPullRequest _ _ _ => Some PullRequests
  | UpsertFederationPullRequestStatus _ _ | TombstoneFederationPullRequestStatus _ _ _ =>
      Some PullRequestStatuses
  | UpsertFederationPullRequestReview _ _ | TombstoneFederationPullRequestReview _ _ _ =>
      Some PullRequestReviews
  | UpsertFederationRepositoryLabel _ _ | TombstoneFederationRepositoryLabel _ _ _ =>
      Some RepositoryLabels
  | UpsertFederationRepositoryMilestone _ _ | TombstoneFederationRepositoryMilestone _ _ _ =>
      Some RepositoryMilestones
  | UpsertFederationSubjectTriage _ _ | TombstoneFederationSubjectTriage _ _ _ => Some SubjectTriage_
  | UpsertFederationOrganization _ _ | TombstoneFederationOrganizationProjection _ _ _ =>
      Some Organizations
  | UpsertFederationOrganizationGrant _ _ | TombstoneFederationOrganizationGrant _ _ _ => Some Grants
  | UpsertFederationOrganizationMembership _ _ | TombstoneFederationOrganizationMembership _ _ _ =>
      Some Memberships
  | UpsertFederationOrganizationRevocation _ _ | TombstoneFederationOrganizationRevocation _ _ _ =>
      Some Revocations
  | UpsertFederationRepositoryTransfer _ _ | TombstoneFederationRepositoryTransfer _ _ _ =>
      Some Transfers
  | UpsertFederationRepositoryTransferAcceptance _ _
  | TombstoneFederationRepositoryTransferAcceptance _ _ _ => Some Acceptances
  | _ => None
  end.
(** The transaction's boundaries and its clock. *)
Definition control {X} (e : effect X) : bool :=
  match e with Begin | Commit | Rollback | Now => true | _ => false end.
(** These, and the queries on receipts, cursors and identities. *)
Definition outer {X} (e : effect X) : bool :=
  match e with
  | HasFederationReceipt _ _ | InsertFederationReceipt _ _ _ _ _ | AdvanceFederationCursor _ _ _
  | UpsertFederationIdentity _ _ _ _ _ _ => true
  | e => control e
  end.

Lemma recompute_rows r n : rows (recompute r n) = rows n /\ same_receipts n (recompute r n).
Proof.
  destruct r; cbn [recompute]; autounfold with queries; unfold recount_at, recount, recount_core, reconcile, recount_lineages;
    repeat case_match; done.
Qed.

Lemma upsert_frame {t} (new : row t) update allowed n :
  same_receipts n (snd (upsert new update allowed n)) /\
  forall t', t <> t' -> rows (snd (upsert new update allowed n)) t' = rows n t'.
Proof.
  destruct (upsert _ _ _ _) as [[o | e] n'] eqn:E; cbn.
  - apply upsert_Ok in E as (_ & Ho & Hr). done.
  - apply upsert_Err in E as ->. done.
Qed.
Lemma upsert_current_frame {t} (new : row t) allowed n :
  same_receipts n (snd (upsert_current new allowed n)) /\
  forall t', t <> t' -> rows (snd (upsert_current new allowed n)) t' = rows n t'.
Proof. unfold upsert_current. destruct (current _ _ _ _); [apply upsert_frame | done]. Qed.
Lemma tombstone_frame t c allowed uri at_ id n :
  same_receipts n (snd (tombstone t c allowed uri at_ id n)) /\
  forall t', t <> t' -> rows (snd (tombstone t c allowed uri at_ id n)) t' = rows n t'.
Proof.
  unfold tombstone. destruct (rows n t !! uri); [| done]. destruct (_ && _); [| done].
  split; [done |]. intros t' Hne. cbn [snd]. by rewrite rows_set_other.
Qed.

Lemma snd_exec_ {A} (p : result A * network) : snd (exec_ p) = snd p.
Proof. by destruct p. Qed.
Lemma snd_returning {t A} (f : columns_of t -> A) p : snd (returning f p) = snd p.
Proof. by destruct p. Qed.
Lemma snd_of_row {t A} (f : columns_of t -> A) (p : option (row t) * network) :
  snd (let '(r, n) := p in (of_row f r, n)) = snd p.
Proof. by destruct p. Qed.

(** A query that changes no table of records, and no receipt. *)
Definition aside (n n' : network) : Prop := same_receipts n n' /\ rows n' = rows n.
Definition touches_only (t : table) (n n' : network) : Prop :=
  same_receipts n n' /\ forall t', t <> t' -> rows n' t' = rows n t'.

Lemma upsert_profile_aside e c n : aside n (upsert_profile e c n).
Proof. unfold upsert_profile. repeat case_match; done. Qed.
Lemma tombstone_profile_aside did uri at_ id n : aside n (tombstone_profile did uri at_ id n).
Proof. unfold tombstone_profile. repeat case_match; done. Qed.
Lemma upsert_repository_only e c n : touches_only Repositories n (snd (upsert_repository e c n)).
Proof.
  unfold upsert_repository.
  match goal with |- context [upsert ?a ?b ?c n] => pose proof (upsert_frame a b c n) as Hf;
    destruct (upsert a b c n) as [r n'] end.
  by destruct r as [[r |] | err].
Qed.

Lemma aside_frame n n' o : aside n n' ->
  same_receipts n n' /\ forall t, o <> Some t -> rows n' t = rows n t.
Proof. intros [Hs Hr]. split; [done |]. intros t _. by rewrite Hr. Qed.
Lemma only_frame t n n' : touches_only t n n' ->
  same_receipts n n' /\ forall t', Some t <> Some t' -> rows n' t' = rows n t'.
Proof. intros [Hs Hr]. split; [done |]. intros t' Hne. apply Hr. congruence. Qed.

(** Queries leave the receipts alone, and the tables they do not touch. *)
Lemma on_network_frame X (e : effect X) n :
  outer e = false ->
  same_receipts n (snd (on_network X e n)) /\
  forall t, touched e <> Some t -> rows (snd (on_network X e n)) t = rows n t.
Proof.
  intros Ho.
  destruct e; try discriminate Ho; cbn [on_network]; autounfold with queries; cbn [snd touched];
    rewrite ?snd_exec_, ?snd_returning, ?snd_of_row; try done;
    try (apply only_frame; first [apply upsert_frame | apply upsert_current_frame
           | apply tombstone_frame | apply upsert_repository_only]);
    try (apply aside_frame; first [apply upsert_profile_aside
           | apply tombstone_profile_aside]).
  - apply aside_frame. destruct (recompute_rows r n). done.
  - apply only_frame. destruct (status_inserts n columns); [| done].
    rewrite snd_returning. apply upsert_current_frame.
  - apply only_frame. unfold tombstone_record. rewrite snd_exec_. apply upsert_frame.
  - apply only_frame. unfold tombstone_repository. rewrite snd_exec_. apply upsert_frame.
Qed.

(** ** What a projection touches *)

(** The table of a collection, besides that of all records. *)
Definition table_of (collection : string) : option table :=
  if collection == ProfileCollection then None
  else if collection == OrganizationCollection then Some Organizations
  else if collection == OrganizationGrantCollection then Some Grants
  else if collection == OrganizationMembershipCollection then Some Memberships
  else if collection == OrganizationRevocationCollection then Some Revocations
  else if collection == RepositoryTransferCollection then Some Transfers
  else if collection == RepositoryTransferAcceptanceCollection then Some Acceptances
  else if collection == StarCollection then Some Stars
  else if collection == IssueCollection then Some Issues
  else if collection == issue.CommentCollection then Some IssueComments_
  else if collection == IssueStatusCollection then Some IssueStatuses
  else if collection == PullRequestCollection then Some PullRequests
  else if collection == PullRequestStatusCollection then Some PullRequestStatuses
  else if collection == PullRequestReviewCollection then Some PullRequestReviews
  else if collection == RepositoryLabelCollection then Some RepositoryLabels
  else if collection == RepositoryMilestoneCollection then Some RepositoryMilestones
  else if collection == SubjectTriageCollection then Some SubjectTriage_
  else Some Repositories.

(** An effect inside the transaction that touches no table, or [t]. *)
Definition inside (t : option table) X (e : effect X) : Prop :=
  outer e = false /\ (touched e = None \/ touched e = t).

Create HintDb inside.
#[export] Hint Resolve every_then every_ret every_query every_optional every_found every_for_each
  : inside.
Ltac within_ :=
  repeat first
    [ lazymatch goal with |- forall _, _ => intro end
    | lazymatch goal with |- inside _ _ _ => by split; [| auto] end
    | apply every_then | apply every_query | apply every_optional | apply every_found
    | apply every_ret | apply every_for_each
    | solve [auto 1 with inside]
    | case_match ].

Section touch.
Variable t : option table.
Lemma inside_reconcile : every (inside t) reconcileTransferLineages.
Proof. unfold reconcileTransferLineages. within_. Qed.
Lemma inside_recomputeCommentCounts uri : every (inside t) (recomputeCommentCounts uri).
Proof. unfold recomputeCommentCounts. within_. Qed.
Hint Resolve inside_recomputeCommentCounts : inside.
Lemma inside_recomputeChildCommentCounts uris : every (inside t) (recomputeChildCommentCounts uris).
Proof. unfold recomputeChildCommentCounts, for_each_. within_. Qed.
Lemma inside_recomputeIssueStateAndCounts uri : every (inside t) (recomputeIssueStateAndCounts uri).
Proof. unfold recomputeIssueStateAndCounts. within_. Qed.
Lemma inside_recomputePullRequestStateAndCounts uri :
  every (inside t) (recomputePullRequestStateAndCounts uri).
Proof. unfold recomputePullRequestStateAndCounts. within_. Qed.
Lemma inside_recomputePullRequestReviewCount uri :
  every (inside t) (recomputePullRequestReviewCount uri).
Proof. unfold recomputePullRequestReviewCount. within_. Qed.
Lemma inside_lockForkProjection uris : every (inside t) (lockForkProjection uris).
Proof. unfold lockForkProjection, for_each_. within_. Qed.
Lemma inside_lockStarProjection record : every (inside t) (lockStarProjection record).
Proof. unfold lockStarProjection. within_. Qed.
Lemma inside_lockIssueProjection record : every (inside t) (lockIssueProjection record).
Proof. unfold lockIssueProjection, issue_targets, for_each_. cbn zeta. within_. Qed.
Lemma inside_lockPullRequestProjection record : every (inside t) (lockPullRequestProjection record).
Proof. unfold lockPullRequestProjection, pull_targets, for_each_. cbn zeta. within_. Qed.
End touch.
#[export] Hint Resolve inside_reconcile inside_recomputeCommentCounts inside_recomputeChildCommentCounts
  inside_recomputeIssueStateAndCounts inside_recomputePullRequestStateAndCounts
  inside_recomputePullRequestReviewCount inside_lockForkProjection inside_lockStarProjection
  inside_lockIssueProjection inside_lockPullRequestProjection : inside.

(** After the raw record, a projection touches one more table of records at most. *)
Definition table_of_payload (p : payload) : option table :=
  match p with
  | NoPayload | ProfilePayload _ => None
  | RepositoryPayload _ => Some Repositories
  | StarPayload _ => Some Stars
  | IssuePayload _ => Some Issues
  | IssueCommentPayload _ => Some IssueComments_
  | IssueStatusPayload _ => Some IssueStatuses
  | PullRequestPayload _ => Some PullRequests
  | PullRequestStatusPayload _ => Some PullRequestStatuses
  | PullRequestReviewPayload _ => Some PullRequestReviews
  | OrganizationPayload _ => Some Organizations
  | OrganizationGrantPayload _ => Some Grants
  | OrganizationMembershipPayload _ => Some Memberships
  | OrganizationRevocationPayload _ => Some Revocations
  | RepositoryTransferPayload _ => Some Transfers
  | RepositoryTransferAcceptancePayload _ => Some Acceptances
  | RepositoryLabelPayload _ => Some RepositoryLabels
  | RepositoryMilestonePayload _ => Some RepositoryMilestones
  | SubjectTriagePayload _ _ _ => Some SubjectTriage_
  end.
Lemma inside_projectRepository record v at_ id :
  every (inside (Some Repositories)) (projectRepository record v at_ id).
Proof. unfold projectRepository, for_each_. cbn zeta. within_. Qed.
Lemma inside_projectIssue record v at_ id : every (inside (Some Issues)) (projectIssue record v at_ id).
Proof. unfold projectIssue. within_. Qed.
Lemma inside_projectIssueComment record v at_ id :
  every (inside (Some IssueComments_)) (projectIssueComment record v at_ id).
Proof. unfold projectIssueComment. cbn zeta. within_. Qed.
Lemma inside_projectPullRequest record v at_ id :
  every (inside (Some PullRequests)) (projectPullRequest record v at_ id).
Proof. unfold projectPullRequest. cbn zeta. within_. Qed.
#[export] Hint Resolve inside_projectRepository inside_projectIssue inside_projectIssueComment
  inside_projectPullRequest : inside.
Lemma inside_projectPayload record at_ id :
  every (inside (table_of_payload (Payload record))) (projectPayload record at_ id).
Proof. unfold projectPayload. destruct (Payload record); cbn [table_of_payload]; cbn zeta; within_. Qed.

(** A delete is the tombstone of the raw record, and what follows from it. *)
Lemma inside_projectDelete record at_ id :
  exists rest, every (inside (table_of (Collection record))) rest /\
    projectDelete record at_ id =
    svc_bind (query "tombstone raw record: %w"
                (TombstoneFederationRecord (RecordURI record) (DID record) (Collection record)
                   (RKey record) (pgTime at_) id)) (fun _ => rest).
Proof.
  eexists. split; [| unfold projectDelete; cbn zeta; reflexivity].
  unfold table_of.
  repeat (lazymatch goal with |- every _ (if ?b then _ else _) => destruct b end;
          cbv iota; [solve [within_] |]).
  within_.
Qed.

(** ** Running a projection on the tables *)

Lemma handle_inner {X} (e : effect X) s :
  control e = false ->
  handle X e s = let '(x, n) := on_network X e (pending s) in (x, mkDB (committed s) n (clock s)).
Proof. by destruct e. Qed.
Lemma exec_inner {A} (p : prog effect A) s :
  every (fun X e => control e = false) p ->
  exec handle p s = let '(a, n) := exec on_network p (pending s) in (a, mkDB (committed s) n (clock s)).
Proof.
  revert s. induction p as [a | X e k IH]; intros s; [by destruct s |]. cbn. intros [He Hk].
  rewrite !exec_vis, handle_inner by done. destruct (on_network X e (pending s)) as [x n].
  by rewrite IH.
Qed.
Lemma inside_control t X (e : effect X) : inside t X e -> control e = false.
Proof. intros [Ho _]. by destruct e. Qed.

(** A part of a projection leaves receipts, and all tables of records but its own. *)
Lemma exec_frame {A} t (p : prog effect A) n :
  every (inside t) p ->
  same_receipts n (snd (exec on_network p n)) /\
  forall t', t <> Some t' -> rows (snd (exec on_network p n)) t' = rows n t'.
Proof.
  intros Hp. split.
  - assert (Hv : forall X e m, inside t X e ->
        (fun n => (receipts n, cursors n, identities n)) (snd (on_network X e m))
        = (fun n => (receipts n, cursors n, identities n)) m).
    { intros X e m [Ho _]. cbn. destruct (on_network_frame X e m Ho) as [(-> & -> & ->) _]. done. }
    pose proof (exec_every on_network _ (inside t) p n Hv Hp) as [= ? ? ?]. done.
  - intros t' Ht. apply (exec_every on_network (fun n => rows n t') (inside t)); [| exact Hp].
    intros X e m [Ho Ht']. cbn. apply on_network_frame; [done |]. destruct Ht'; congruence.
Qed.

Lemma exec_query {S X} (h : forall X, effect X -> S -> X * S) format (q : effect (result X)) s :
  exec h (query format q) s =
  let '(r, s') := h _ q s in (mapErr (fun err => Errorf format [W err]) r, s').
Proof.
  unfold query, wrapErr, call. cbn. rewrite exec_vis. by destruct (h _ q s) as [r s'].
Qed.
End frames.
