(* ===== verification/FederationStore.v ===== *)
(** * FederationStore: a store refines a replica of the stream.

    A [replica] is what an indexer promises: which events it has seen and with which
    outcome, the newest of them, and for every record the value of the newest event that
    was accepted.  [Process] over the tables implements it, whatever order, repetition or
    failure the stream has. *)

From S2P Require Import Prelude.
From S2P Require Import GoText.
From S2P Require Import Syntax.
From S2P Require Import Triage.
From S2P Require Import Wire.
From S2P Require Import Endpoint.
From S2P Require Import FederationEvent.
From S2P Require Import FederationProjection.
From S2P Require Import FederationTables.
From S2P Require Import FederationFrame.

Module fedstore.
Import federation projection tables frames.

(** ** Replicas *)

Record content := mkContent {
  c_did : string; c_collection : string; c_rkey : string; c_cid : option string;
  c_created_at : option time; c_json : option (list Z)
}.
Record account := mkAccount { a_handle : option string; a_status : string; a_active : bool }.
(** A deleted record is [None]. *)
Record replica := mkReplica {
  seen : gmap Z string;
  position : option Z;
  registers : gmap string (Z * option content);
  accounts : gmap string (Z * account)
}.
(** A register keeps its newest value. *)
Definition register {V} (key : string) (id : Z) (v : V) (m : gmap string (Z * V)) : gmap string (Z * V) :=
  match m !! key with
  | Some (old, _) => if old <? id then <[key := (id, v)]> m else m
  | None => <[key := (id, v)]> m
  end.

Definition content_of (r : RecordEvent) : content :=
  mkContent (DID r) (Collection r) (RKey r) (pgText (RecordCID r)) (pgTime (recordTime (Payload r)))
    (Some (RawRecord r)).
Definition written (r : RecordEvent) : option content :=
  if Action r == "delete" then None else Some (content_of r).
Definition account_of (i : IdentityEvent) : account :=
  mkAccount (pgText (Handle i)) (Status i) (IsActive i).

Definition apply_event (event : Event) (a : replica) : replica :=
  match Identity event with
  | Some i => mkReplica (seen a) (position a) (registers a)
                (register (Identity_DID i) (ID event) (account_of i) (accounts a))
  | None =>
      match Record_ event with
      | Some r => mkReplica (seen a) (position a)
                    (register (RecordURI r) (ID event) (written r) (registers a)) (accounts a)
      | None => a
      end
  end.
Definition outcome_of (rejection : option error) : string :=
  match rejection with None => "applied" | Some _ => "rejected" end.
Definition advance (position : option Z) (id : Z) : Z :=
  match position with Some p => if p <? id then id else p | None => id end.
(** What an event does to a replica, the first time. *)
Definition accept (event : Event) (rejection : option error) (a : replica) : replica :=
  if is_some (seen a !! ID event) then a else
  let a := match rejection with None => apply_event event a | Some _ => a end in
  mkReplica (<[ID event := outcome_of rejection]> (seen a)) (Some (advance (position a) (ID event)))
    (registers a) (accounts a).

(** ** The tables as a replica *)

Definition value_of (r : row Records) : option content :=
  match deleted_at r with
  | None => Some (mkContent (AuthorDid (env r)) (record_collection (cols r)) (Rkey (env r)) (Cid (env r))
                    (RecordCreatedAt (env r)) (record_json (cols r)))
  | Some _ => None
  end.
Definition entry (r : row Records) : Z * option content := (source r, value_of r).
Definition holder (r : identity_row) : Z * account :=
  (id_source r, mkAccount (id_handle r) (id_status r) (id_active r)).
Record represents (consumer : string) (n : network) (a : replica) : Prop := {
  rep_seen id : seen a !! id = r_outcome <$> receipts n !! (consumer, id);
  rep_position : position a = fst <$> cursors n !! consumer;
  rep_registers : registers a = entry <$> rows n Records;
  rep_accounts : accounts a = holder <$> identities n
}.

Lemma upserted_register (new : row Records) update table :
  (forall old, entry (update old) = entry new) ->
  entry <$> upserted new update always table
  = register (Uri (env new)) (source new) (value_of new) (entry <$> table).
Proof.
  intros Hu. unfold upserted, register, always. rewrite lookup_fmap.
  destruct (table !! Uri (env new)) as [old |] eqn:E; cbn [fmap option_fmap option_map].
  - cbn [entry]. change (entry old) with (source old, value_of old). cbv iota.
    rewrite andb_true_r. destruct (_ <? _); [| done]. by rewrite fmap_insert, Hu.
  - by rewrite fmap_insert.
Qed.

Lemma exec_Ok {A} (p : result A * network) n' : exec_ p = (Ok tt, n') -> exists o, p = (Ok o, n').
Proof. destruct p as [[o | e] n]; cbn; [intros [= <-]; by eexists | done]. Qed.

Lemma raw_write r at_ id n n' :
  on_network _ (UpsertFederationRecord (row_of r None at_ id)
                  (mkRecordColumns (Collection r) (Some (RawRecord r)))) n = (Ok tt, n') ->
  entry <$> rows n' Records = register (RecordURI r) id (Some (content_of r)) (entry <$> rows n Records) /\
  same_receipts n n'.
Proof.
  cbn [on_network]. autounfold with queries. intros (o & Ho)%exec_Ok. apply upsert_Ok in Ho as (-> & _ & Hs).
  split; [| done]. by rewrite upserted_register.
Qed.
Lemma raw_delete r at_ id n n' :
  on_network _ (TombstoneFederationRecord (RecordURI r) (DID r) (Collection r) (RKey r) (pgTime at_) id) n
  = (Ok tt, n') ->
  entry <$> rows n' Records = register (RecordURI r) id None (entry <$> rows n Records) /\
  same_receipts n n'.
Proof.
  cbn [on_network]. autounfold with queries. unfold tombstone_record. intros (o & Ho)%exec_Ok.
  destruct (pgTime at_) as [t |] eqn:Et; [| done].
  apply upsert_Ok in Ho as (-> & _ & Hs). split; [| done]. by rewrite upserted_register.
Qed.

(** ** A projection on the network *)

(** The rest of a projection leaves the raw records alone. *)
Lemma exec_rest {A} t (p : svc effect A) n a n' :
  every (inside t) p -> t <> Some Records -> exec on_network p n = (a, n') ->
  rows n' Records = rows n Records /\ same_receipts n n'.
Proof.
  intros Hp Ht He. destruct (exec_frame t p n Hp) as [Hs Hr]. rewrite He in Hs, Hr. auto.
Qed.
Lemma table_of_not_records collection : table_of collection <> Some Records.
Proof. unfold table_of. repeat (case_match; [done |]). done. Qed.
Lemma table_of_payload_not_records p : table_of_payload p <> Some Records.
Proof. by destruct p. Qed.

Lemma exec_write record at_ id n n' :
  exec on_network (projectWrite record at_ id) n = (Ok tt, n') ->
  entry <$> rows n' Records = register (RecordURI record) id (Some (content_of record)) (entry <$> rows n Records)
  /\ same_receipts n n'.
Proof.
  unfold projectWrite. intros (a & n1 & Hw & Hp)%exec_then_Ok. rewrite exec_query in Hw.
  destruct (on_network _ _ n) as [[[] | e] n2] eqn:E; cbn in Hw; [| done]. injection Hw as <- <-.
  apply raw_write in E as [He Hs].
  eapply exec_rest in Hp as [Hr Hs']; [| apply inside_projectPayload | apply table_of_payload_not_records].
  rewrite Hr. unfold same_receipts in *. naive_solver congruence.
Qed.
Lemma exec_delete record at_ id n n' :
  exec on_network (projectDelete record at_ id) n = (Ok tt, n') ->
  entry <$> rows n' Records = register (RecordURI record) id None (entry <$> rows n Records)
  /\ same_receipts n n'.
Proof.
  destruct (inside_projectDelete record at_ id) as (rest & Hrest & ->).
  intros (a & n1 & Hw & Hp)%exec_then_Ok. rewrite exec_query in Hw.
  destruct (on_network _ _ n) as [[[] | e] n2] eqn:E; cbn in Hw; [| done]. injection Hw as <- <-.
  apply raw_delete in E as [He Hs].
  eapply exec_rest in Hp as [Hr Hs']; [| apply Hrest | apply table_of_not_records].
  rewrite Hr. unfold same_receipts in *. naive_solver congruence.
Qed.

Lemma exec_identity did handle status active at_ id n n' :
  upsert_identity did handle status active at_ id n = (Ok tt, n') ->
  holder <$> identities n' = register did id (mkAccount handle status active) (holder <$> identities n) /\
  rows n' = rows n /\ receipts n' = receipts n /\ cursors n' = cursors n.
Proof.
  unfold upsert_identity, register. rewrite lookup_fmap. destruct (negb _); [done |].
  destruct (identities n !! did) as [old |]; cbn [fmap option_fmap option_map].
  - change (holder old) with (id_source old, mkAccount (id_handle old) (id_status old) (id_active old)).
    cbv iota. destruct (_ <? _); intros [= <-]; [| done]. cbn. by rewrite fmap_insert.
  - intros [= <-]. cbn. by rewrite fmap_insert.
Qed.

(** A projection that succeeds writes the event's register, and no receipt. *)
Lemma exec_project event now n n' :
  exec on_network (project event now) n = (Ok tt, n') ->
  receipts n' = receipts n /\ cursors n' = cursors n /\
  forall c a, represents c n a -> represents c n' (apply_event event a).
Proof.
  unfold project, apply_event. destruct (Identity event) as [i |].
  { intros (a & n1 & Hw & Hp)%exec_then_Ok. rewrite exec_query in Hw, Hp.
    cbn in Hw, Hp. unfold upsertFederationIdentity in Hw. destruct (upsert_identity _ _ _ _ _ _ _) as [[[] | e] n2] eqn:E; [| done].
    injection Hw as <- <-. injection Hp as <-. apply exec_identity in E as (Hi & Hr & Hc & Hu).
    split_and!; [done.. |]. intros c a [Hse Hp Hre Hac].
    split; cbn; [intros id; by rewrite Hse, Hc | by rewrite Hp, Hu | by rewrite Hre, Hr | by rewrite Hac, Hi]. }
  destruct (Record_ event) as [r |]; [| done].
  intros He.
  assert (Hl : exists n1, exec on_network (if Action r == "delete" then projectDelete r now (ID event)
                            else projectWrite r now (ID event)) n1 = (Ok tt, n') /\
                 rows n1 Records = rows n Records /\ same_receipts n n1).
  { do 3 (apply exec_then_Ok in He as (? & ? & ?%(exec_rest None) & He);
          [| solve [auto with inside] | done]).
    eexists; split; [exact He |]. unfold same_receipts in *. naive_solver congruence. }
  destruct Hl as (n1 & Hx & Hr1 & Hs1).
  assert (Hx' : entry <$> rows n' Records
                = register (RecordURI r) (ID event) (written r) (entry <$> rows n1 Records)
                /\ same_receipts n1 n').
  { unfold written. destruct (_ == "delete"); [by apply exec_delete in Hx | by apply exec_write in Hx]. }
  destruct Hx' as [Hen Hs2]. unfold same_receipts in *.
  split_and!; [naive_solver congruence.. |]. intros c a [Hse Hp Hre Hac].
  destruct Hs1 as (Hc1 & Hu1 & Hi1), Hs2 as (Hc2 & Hu2 & Hi2).
  split; cbn; [intros id; by rewrite Hse, Hc2, Hc1 | by rewrite Hp, Hu2, Hu1
              | by rewrite Hre, Hen, Hr1 | by rewrite Hac, Hi2, Hi1].
Qed.

Lemma project_control event now : every (fun X e => control e = false) (project event now).
Proof.
  assert (Hi : forall A t (p : svc effect A), every (inside t) p ->
             every (fun X e => control e = false) p).
  { intros A t p. apply every_mono. intros X e. apply inside_control. }
  unfold project. destruct (Identity event) as [i |]; [by repeat apply every_then |].
  destruct (Record_ event) as [r |]; [| done].
  repeat (apply every_then; [eapply (Hi _ None); auto with inside | intros _]).
  destruct (_ == "delete").
  - destruct (inside_projectDelete r now (ID event)) as (rest & Hr & ->).
    apply every_then; [done |]. intros _. by eapply Hi.
  - unfold projectWrite. apply every_then; [done |]. intros _. eapply Hi, inside_projectPayload.
Qed.

(** ** A transaction *)

Definition receipted (n : network) (consumer : string) (id : Z) : bool :=
  is_some (receipts n !! (consumer, id)).

(** What a store commits: nothing, or the projection with its receipt and cursor. *)
Definition stored (consumer : string) (event : Event) (rejection : option error) (now : time)
    (n n' : network) : Prop :=
  receipted n consumer (ID event) = false /\ exists n1,
    match rejection with
    | None => exec on_network (project event now) n = (Ok tt, n1)
    | Some _ => n1 = n
    end /\
    n' = set_receipts <[(consumer, ID event) := mkReceipt (outcome_of rejection) rejection (pgTime now)]>
           (set_cursors <[consumer := match cursors n1 !! consumer with
                                      | Some (old, old_at) => if old <? ID event then (ID event, pgTime now)
                                                              else (old, old_at)
                                      | None => (ID event, pgTime now)
                                      end]> n1).

Lemma exec_rejection event (rejection : option error) n now :
  exists n1 o, exec handle (match rejection with None => project event now | Some _ => done_ tt end)
                 (mkDB n n now) = (o, mkDB n n1 now) /\
    (o = Ok tt -> match rejection with
                  | None => exec on_network (project event now) n = (Ok tt, n1)
                  | Some _ => n1 = n
                  end).
Proof.
  destruct rejection; [by exists n, (Ok tt) |].
  rewrite exec_inner by apply project_control. cbn [pending committed clock].
  destruct (exec on_network _ _) as [o n1]. exists n1, o. split; [done |]. by intros ->.
Qed.

Lemma exec_store_body c event rejection n now r s' :
  exec handle (store_body (mkStore c) event rejection) (mkDB n n now) = (r, s') ->
  match r with
  | Err _ => committed s' = n
  | Ok true => committed s' = n /\ receipted n c (ID event) = true
  | Ok false => stored c event rejection now n (committed s')
  end.
Proof.
  unfold store_body. cbn [consumer]. rewrite exec_then, exec_query.
  cbn [handle on_network mapErr pending committed clock]; autounfold with queries. cbv iota beta. unfold stored, receipted.
  destruct (is_some (receipts n !! (c, ID event))) eqn:Hd; cbn [mapErr].
  { rewrite exec_then, exec_query. cbn. by intros [= <- <-]. }
  unfold call. cbn [prog_bind]. rewrite exec_vis. cbn [handle clock]. unfold UTC.
  rewrite exec_then. destruct (exec_rejection event rejection n now) as (n1 & [[] | e] & -> & Hn).
  2: { by intros [= <- <-]. }
  specialize (Hn eq_refl). rewrite exec_then, exec_query.
  cbn [handle on_network mapErr pending committed clock]; autounfold with queries.
  destruct (negb (is_some (pgTime now)) || negb (0 <? ID event)); cbn [mapErr]; [by intros [= <- <-] |].
  rewrite exec_then, exec_query. cbn [handle on_network mapErr pending committed clock]; autounfold with queries.
  match goal with |- context [if ?b then (Err constraint_violation, _) else _] => destruct b end;
    cbn [mapErr]; [by intros [= <- <-] |].
  rewrite exec_then, exec_query. cbn. intros [= <- <-]. cbn. split; [done |].
  exists n1. by destruct rejection.
Qed.

Lemma exec_Store c event rejection s r s' :
  exec handle (Store (mkStore c) event rejection) s = (r, s') ->
  match r with
  | Err _ => committed s' = committed s
  | Ok true => committed s' = committed s /\ receipted (committed s) c (ID event) = true
  | Ok false => stored c event rejection (clock s) (committed s) (committed s')
  end.
Proof.
  unfold Store. rewrite exec_then, exec_query. cbn [handle mapErr]. cbv iota beta. rewrite exec_bind.
  destruct (exec handle (store_body _ _ _) _) as [r1 s1] eqn:E. apply exec_store_body in E.
  cbn. by intros [= <- <-].
Qed.

(** ** Newest values *)

Section newest.
Context {V : Type}.
(** [m] holds for every key the newest of the writes [W id key value]. *)
Record newest (W : Z -> string -> V -> Prop) (m : gmap string (Z * V)) : Prop := {
  newest_written k id v : m !! k = Some (id, v) -> W id k v;
  newest_last k id v : W id k v -> exists id' v', m !! k = Some (id', v') /\ id <= id'
}.

Lemma newest_proper W W' m :
  (forall id k v, W id k v <-> W' id k v) -> newest W m -> newest W' m.
Proof. intros HW [Hw Hl]. split; intros k id v Hm; [by apply HW, Hw | by eapply Hl, HW]. Qed.

Lemma newest_register W m k id v :
  newest W m -> newest (fun i x u => W i x u \/ (i = id /\ x = k /\ u = v)) (register k id v m).
Proof.
  intros [Hw Hl]. unfold register. split.
  - intros x i u. destruct (m !! k) as [[old w] |] eqn:E.
    + destruct (Z.ltb_spec old id); [| by eauto]. rewrite lookup_insert_Some. naive_solver.
    + rewrite lookup_insert_Some. naive_solver.
  - assert (Hk : forall i u, W i k u -> exists i' u', m !! k = Some (i', u') /\ i <= i')
      by (intros i u; apply Hl).
    intros x i u [Hx | (-> & -> & ->)].
    + destruct (Hl _ _ _ Hx) as (i' & u' & Hm & Hi).
      destruct (m !! k) as [[old w] |] eqn:E; [destruct (Z.ltb_spec old id); [| by eauto] |];
        (destruct (decide (x = k)) as [-> | Hne]; [rewrite lookup_insert | rewrite lookup_insert_ne by done]);
        rewrite ?decide_True by done; simplify_eq; eauto.
      eexists _, _. split; [done | lia].
    + destruct (m !! k) as [[old w] |] eqn:E; [destruct (Z.ltb_spec old id) |];
        rewrite ?lookup_insert, ?decide_True by done; eauto with lia.
Qed.

Lemma newest_unique W m1 m2 :
  (forall id k v1 v2, W id k v1 -> W id k v2 -> v1 = v2) -> newest W m1 -> newest W m2 -> m1 = m2.
Proof.
  intros Hf [Hw1 Hl1] [Hw2 Hl2]. apply map_eq. intros k.
  destruct (m1 !! k) as [[i1 v1] |] eqn:E1.
  - pose proof (Hw1 _ _ _ E1) as HW1. destruct (Hl2 _ _ _ HW1) as (i2 & v2 & E2 & Hi).
    pose proof (Hw2 _ _ _ E2) as HW2. destruct (Hl1 _ _ _ HW2) as (i3 & v3 & E3 & Hi').
    rewrite E1 in E3. simplify_eq. rewrite E2. assert (i2 = i3) as -> by lia. by rewrite (Hf _ _ _ _ HW1 HW2).
  - destruct (m2 !! k) as [[i2 v2] |] eqn:E2; [| done].
    destruct (Hl1 _ _ _ (Hw2 _ _ _ E2)) as (i & v & ? & _). congruence.
Qed.
End newest.

Lemma stored_represents c event rejection now n n' a :
  represents c n a -> stored c event rejection now n n' ->
  seen a !! ID event = None /\ represents c n' (accept event rejection a).
Proof.
  intros Ha (Hd & n1 & Hn & ->). unfold receipted in Hd.
  assert (Hse : seen a !! ID event = None).
  { rewrite (rep_seen _ _ _ Ha). by destruct (receipts n !! _). }
  split; [done |]. unfold accept. rewrite Hse. cbn [is_some].
  assert (H1 : represents c n1 (match rejection with None => apply_event event a | Some _ => a end)).
  { destruct rejection; [by subst |]. by apply exec_project in Hn as (_ & _ & Hr); apply Hr. }
  assert (Hp : position (match rejection with None => apply_event event a | Some _ => a end) = position a).
  { destruct rejection; [done |]. unfold apply_event. by repeat case_match. }
  assert (Hs : seen (match rejection with None => apply_event event a | Some _ => a end) = seen a).
  { destruct rejection; [done |]. unfold apply_event. by repeat case_match. }
  destruct H1 as [H1s H1p H1r H1a]. rewrite Hp in H1p. rewrite Hs in H1s. split; cbn; rewrite ?Hs, ?Hp.
  - intros id. destruct (decide (id = ID event)) as [-> | Hne].
    + by rewrite !lookup_insert, !decide_True by done.
    + rewrite !lookup_insert_ne by congruence. apply H1s.
  - rewrite lookup_insert, decide_True by done. rewrite H1p. unfold advance. cbn.
    destruct (cursors n1 !! c) as [[old old_at] |]; cbn; [by destruct (old <? ID event) | done].
  - done.
  - done.
Qed.

Section ingest.
Context `{TapSyntax, GoUnicode, GoEndpoint, UUIDs}.

Lemma exec_Process c body s r s' :
  exec handle (Process (mkStore c) body) s = (r, s') ->
  match r with
  | Err _ => committed s' = committed s
  | Ok res => exists event rejection, received body = Ok (event, rejection) /\
      res = mkResult (ID event) (outcome_of rejection) (Duplicate res) rejection /\
      if Duplicate res
      then committed s' = committed s /\ receipted (committed s) c (ID event) = true
      else stored c event rejection (clock s) (committed s) (committed s')
  end.
Proof.
  unfold Process. rewrite exec_then. unfold lift. rewrite exec_ret.
  destruct (received body) as [[event rejection] | e]; [| by intros [= <- <-]].
  rewrite exec_then. unfold wrapErr. rewrite exec_bind.
  destruct (exec handle (Store _ _ _) s) as [o s1] eqn:E. apply exec_Store in E.
  rewrite exec_ret. destruct o as [d | e]; cbn [mapErr]; [| by intros [= <- <-]].
  intros [= <- <-]. cbn [Duplicate]. exists event, rejection. by destruct d.
Qed.

(** C7: Processing refines the replica: a body that is received leaves the tables of a
    replica that has accepted it, the answer tells whether it had been seen before, and
    any failure leaves what was committed. *)
Theorem Process_refines c body s a r s' :
  represents c (committed s) a -> exec handle (Process (mkStore c) body) s = (r, s') ->
  match r with
  | Err _ => committed s' = committed s
  | Ok res => exists event rejection, received body = Ok (event, rejection) /\
      res = mkResult (ID event) (outcome_of rejection) (is_some (seen a !! ID event)) rejection /\
      represents c (committed s') (accept event rejection a)
  end.
Proof.
  intros Ha Hx. apply exec_Process in Hx. destruct r as [res | e]; [| done].
  destruct Hx as (event & rejection & Hr & -> & Hd). exists event, rejection. split; [done |].
  cbn [Duplicate] in *. destruct (Duplicate res).
  - destruct Hd as [-> Hd]. assert (Hs : is_some (seen a !! ID event) = true).
    { rewrite (rep_seen _ _ _ Ha). unfold receipted in Hd. by destruct (receipts _ !! _). }
    unfold accept. by rewrite Hs.
  - destruct (stored_represents _ _ _ _ _ _ _ Ha Hd) as [-> Hr']. done.
Qed.

(** ** Streams *)

(** What a stream says under each id; a delivery repeats it. *)
Definition stream : Type := Z -> option (list Z).
Definition of_stream (log : stream) (body : list Z) : Prop :=
  forall event rejection, received body = Ok (event, rejection) -> log (ID event) = Some body.

(** A consumer's database: deliveries in any order, as often as they come, and a clock. *)
Inductive consumes (log : stream) (c : string) : db -> db -> Prop :=
| consumes_body body r s s' : of_stream log body ->
    exec handle (Process (mkStore c) body) s = (r, s') -> consumes log c s s'
| consumes_tick t s : consumes log c s (mkDB (committed s) (pending s) t).

(** The writes of the events a replica has seen. *)
Definition accepted (log : stream) (a : replica) (id : Z) (event : Event) : Prop :=
  exists body, log id = Some body /\ received body = Ok (event, None) /\ ID event = id /\
    is_some (seen a !! id) = true.
Definition record_write (log : stream) (a : replica) (id : Z) (uri : string) (v : option content) : Prop :=
  exists event r, accepted log a id event /\ Identity event = None /\ Record_ event = Some r /\
    RecordURI r = uri /\ written r = v.
Definition account_write (log : stream) (a : replica) (id : Z) (did : string) (v : account) : Prop :=
  exists event i, accepted log a id event /\ Identity event = Some i /\ Identity_DID i = did /\
    account_of i = v.
(** A replica that says what the events it has seen say. *)
Record faithful (log : stream) (a : replica) : Prop := {
  faithful_seen id outcome : seen a !! id = Some outcome ->
    exists body event rejection, log id = Some body /\ received body = Ok (event, rejection) /\
      ID event = id /\ outcome = outcome_of rejection;
  faithful_position : match position a with
                      | Some p => is_some (seen a !! p) = true /\
                                  forall id, is_some (seen a !! id) = true -> id <= p
                      | None => seen a = ∅
                      end;
  faithful_registers : newest (record_write log a) (registers a);
  faithful_accounts : newest (account_write log a) (accounts a)
}.

Lemma seen_accept event rejection a :
  seen a !! ID event = None ->
  seen (accept event rejection a) = <[ID event := outcome_of rejection]> (seen a).
Proof.
  intros Hn. unfold accept. rewrite Hn. cbn. destruct rejection; [done |]. f_equal.
  unfold apply_event. by repeat case_match.
Qed.
Lemma accepted_accept log body event rejection a i e :
  log (ID event) = Some body -> received body = Ok (event, rejection) -> seen a !! ID event = None ->
  accepted log (accept event rejection a) i e <->
  accepted log a i e \/ (rejection = None /\ i = ID event /\ e = event).
Proof.
  intros Hl Hr Hn. unfold accepted. rewrite (seen_accept _ _ _ Hn). split.
  - intros (b & Hb & He & <- & Hs). destruct (decide (ID e = ID event)) as [Hi | Hi].
    + right. assert (b = body) as -> by congruence. split_and!; congruence.
    + left. exists b. rewrite lookup_insert_ne in Hs by congruence. done.
  - intros [(b & Hb & He & <- & Hs) | (-> & -> & ->)].
    + exists b. split_and!; try done. destruct (decide (ID e = ID event)) as [Hi | Hi].
      * rewrite Hi in Hs. by rewrite Hn in Hs.
      * by rewrite lookup_insert_ne by congruence.
    + exists body. split_and!; try done. by rewrite lookup_insert, decide_True.
Qed.

Lemma accept_registers event rejection a :
  seen a !! ID event = None ->
  registers (accept event rejection a) =
    match rejection, Identity event, Record_ event with
    | None, None, Some r => register (RecordURI r) (ID event) (written r) (registers a)
    | _, _, _ => registers a
    end /\
  accounts (accept event rejection a) =
    match rejection, Identity event with
    | None, Some i => register (Identity_DID i) (ID event) (account_of i) (accounts a)
    | _, _ => accounts a
    end.
Proof.
  intros Hn. unfold accept. rewrite Hn. cbn. destruct rejection; [done |]. unfold apply_event.
  by destruct (Identity event), (Record_ event).
Qed.
Lemma accept_position event rejection a :
  seen a !! ID event = None ->
  position (accept event rejection a) = Some (advance (position a) (ID event)).
Proof.
  intros Hn. unfold accept. rewrite Hn. cbn. destruct rejection; [done |]. unfold apply_event.
  by destruct (Identity event), (Record_ event).
Qed.

Lemma faithful_accept log body event rejection a :
  log (ID event) = Some body -> received body = Ok (event, rejection) ->
  faithful log a -> faithful log (accept event rejection a).
Proof.
  intros Hl Hr Hf. destruct (seen a !! ID event) as [o |] eqn:Hn.
  { unfold accept. by rewrite Hn. }
  pose proof (fun i e => accepted_accept log body event rejection a i e Hl Hr Hn) as Ha.
  destruct (accept_registers event rejection a Hn) as [Hre Hac].
  destruct Hf as [Hse Hpo Hfr Hfa]. split.
  - intros id outcome. rewrite (seen_accept _ _ _ Hn), lookup_insert_Some.
    intros [[<- <-] | [_ Hs]]; [by exists body, event, rejection | by apply Hse].
  - rewrite (accept_position _ _ _ Hn), (seen_accept _ _ _ Hn).
    assert (Hin : forall id, is_some (<[ID event := outcome_of rejection]> (seen a) !! id) = true
                    <-> id = ID event \/ is_some (seen a !! id) = true).
    { intros id. destruct (decide (id = ID event)) as [-> | Hne].
      - rewrite lookup_insert, decide_True by done. naive_solver.
      - rewrite lookup_insert_ne by congruence. naive_solver. }
    setoid_rewrite Hin. unfold advance. destruct (position a) as [p |].
    + destruct Hpo as [Hp Hle]. destruct (Z.ltb_spec p (ID event)).
      * split; [by left |]. intros id [-> | Hi]; [lia |]. specialize (Hle _ Hi). lia.
      * split; [by right |]. intros id [-> | Hi]; [lia |]. by apply Hle.
    + split; [by left |]. rewrite Hpo. intros id [-> | Hi]; [lia |]. by rewrite lookup_empty in Hi.
  - rewrite Hre. destruct rejection as [e |], (Identity event) as [i |] eqn:Ei, (Record_ event) as [r |] eqn:Er; cbv iota;
      (eapply newest_proper;
        [| first [exact Hfr | eapply newest_register, Hfr]]);
      intros id k v; unfold record_write; setoid_rewrite Ha; naive_solver.
  - rewrite Hac. destruct rejection as [e |], (Identity event) as [i |] eqn:Ei; cbv iota;
      (eapply newest_proper;
        [| first [exact Hfa | eapply newest_register, Hfa]]);
      intros id k v; unfold account_write; setoid_rewrite Ha; naive_solver.
Qed.

Definition empty_replica : replica := mkReplica ∅ None ∅ ∅.
Lemma faithful_empty log : faithful log empty_replica.
Proof.
  split; cbn; [done | done | |]; (split; [intros k id v; by rewrite lookup_empty |]).
  - intros id k v (e & r & (b & _ & _ & _ & Hs) & _).
    change (seen empty_replica) with (∅ : gmap Z string) in Hs. by rewrite lookup_empty in Hs.
  - intros id k v (e & r & (b & _ & _ & _ & Hs) & _).
    change (seen empty_replica) with (∅ : gmap Z string) in Hs. by rewrite lookup_empty in Hs.
Qed.

Lemma consumes_keeps log c s s' a :
  consumes log c s s' -> represents c (committed s) a -> faithful log a ->
  exists a', represents c (committed s') a' /\ faithful log a'.
Proof.
  intros Hc Ha Hf. destruct Hc as [body r s0 s1 Hof Hx | t s0]; [| by exists a]. apply exec_Process in Hx.
  destruct r as [res | e]; [| rewrite Hx; by exists a].
  destruct Hx as (event & rejection & Hr & _ & Hd).
  destruct (Duplicate res); [destruct Hd as [-> _]; by exists a |].
  exists (accept event rejection a). split; [by apply (stored_represents _ _ _ _ _ _ _ Ha Hd) |].
  by eapply (faithful_accept _ body); [apply (Hof _ _ Hr) | |].
Qed.
Lemma history_faithful log c s s' :
  represents c (committed s) empty_replica -> rtc (consumes log c) s s' ->
  exists a, represents c (committed s') a /\ faithful log a.
Proof.
  intros Ha Hs. assert (Hi : exists a, represents c (committed s) a /\ faithful log a)
    by (exists empty_replica; eauto using faithful_empty).
  clear Ha. induction Hs as [s | s s1 s2 Hstep _ IH]; [done |].
  apply IH. destruct Hi as (a & Ha & Hf). by eapply consumes_keeps.
Qed.

(** C9: Whatever a consumer was sent, in whatever order, however often and with whatever
    failures: every row of the raw records is that of the newest event it accepted for
    its URI, the rows of identities likewise, and the cursor is its newest event. *)
Theorem stream_history log c s s' :
  represents c (committed s) empty_replica -> rtc (consumes log c) s s' ->
  exists a, represents c (committed s') a /\ faithful log a.
Proof. apply history_faithful. Qed.

Lemma faithful_unique log a1 a2 :
  (forall id, is_some (seen a1 !! id) = is_some (seen a2 !! id)) ->
  faithful log a1 -> faithful log a2 -> a1 = a2.
Proof.
  intros Hd [Hs1 Hp1 Hr1 Ha1] [Hs2 Hp2 Hr2 Ha2].
  assert (Hacc : forall i e, accepted log a1 i e <-> accepted log a2 i e).
  { intros i e. unfold accepted. by setoid_rewrite Hd. }
  assert (Hfun : forall a i e1 e2, accepted log a i e1 -> accepted log a i e2 -> e1 = e2).
  { intros a i e1 e2 (b1 & ? & ? & _) (b2 & ? & ? & _). congruence. }
  assert (Hseen : seen a1 = seen a2).
  { apply map_eq. intros id. specialize (Hd id).
    destruct (seen a1 !! id) as [o1 |] eqn:E1, (seen a2 !! id) as [o2 |] eqn:E2; try done.
    destruct (Hs1 _ _ E1) as (b1 & e1 & r1 & ? & ? & ? & ->), (Hs2 _ _ E2) as (b2 & e2 & r2 & ? & ? & ? & ->).
    congruence. }
  assert (Hpos : position a1 = position a2).
  { rewrite Hseen in Hp1. destruct (position a1) as [p1 |], (position a2) as [p2 |]; try done.
    - destruct Hp1 as [D1 L1], Hp2 as [D2 L2]. f_equal. specialize (L1 _ D2). specialize (L2 _ D1). lia.
    - destruct Hp1 as [D1 _]. rewrite Hp2 in D1. by rewrite lookup_empty in D1.
    - destruct Hp2 as [D2 _]. rewrite Hp1 in D2. by rewrite lookup_empty in D2. }
  assert (Hreg : registers a1 = registers a2).
  { apply (newest_unique (record_write log a2)); [| | done].
    - intros i k v1 v2 (e1 & r1 & A1 & _ & ? & _ & <-) (e2 & r2 & A2 & _ & ? & _ & <-).
      assert (e1 = e2) as -> by eauto. congruence.
    - eapply newest_proper; [| exact Hr1]. intros i k v. unfold record_write. by setoid_rewrite Hacc. }
  assert (Hac : accounts a1 = accounts a2).
  { apply (newest_unique (account_write log a2)); [| | done].
    - intros i k v1 v2 (e1 & r1 & A1 & ? & _ & <-) (e2 & r2 & A2 & ? & _ & <-).
      assert (e1 = e2) as -> by eauto. congruence.
    - eapply newest_proper; [| exact Ha1]. intros i k v. unfold account_write. by setoid_rewrite Hacc. }
  destruct a1, a2. cbn in *. by subst.
Qed.

Lemma represents_seen c n a id : represents c n a -> is_some (seen a !! id) = receipted n c id.
Proof. intros Ha. rewrite (rep_seen _ _ _ Ha). unfold receipted. by destruct (receipts n !! _). Qed.

(** C8: Two instances that have received the same events of a stream hold the same records
    and identities, whatever the order, the times and the failures of the deliveries. *)
Theorem instances_converge log c1 c2 s1 s1' s2 s2' :
  represents c1 (committed s1) empty_replica -> rtc (consumes log c1) s1 s1' ->
  represents c2 (committed s2) empty_replica -> rtc (consumes log c2) s2 s2' ->
  (forall id, receipted (committed s1') c1 id = receipted (committed s2') c2 id) ->
  entry <$> rows (committed s1') Records = entry <$> rows (committed s2') Records /\
  holder <$> identities (committed s1') = holder <$> identities (committed s2') /\
  fst <$> cursors (committed s1') !! c1 = fst <$> cursors (committed s2') !! c2.
Proof.
  intros Hi1 Hh1 Hi2 Hh2 Hd. destruct (history_faithful _ _ _ _ Hi1 Hh1) as (a1 & R1 & F1).
  destruct (history_faithful _ _ _ _ Hi2 Hh2) as (a2 & R2 & F2).
  assert (a1 = a2) as ->.
  { apply (faithful_unique log); [| done | done]. intros id. rewrite (represents_seen _ _ _ id R1), (represents_seen _ _ _ id R2). apply Hd. }
  destruct R1 as [_ P1 G1 A1], R2 as [_ P2 G2 A2]. by rewrite <- P1, <- G1, <- A1, <- P2, <- G2, <- A2.
Qed.

(** ** Invalid events *)

Lemma EventID_positive body id : EventID body = Some id -> 0 < id.
Proof.
  unfold EventID. cbn zeta. destruct (_ || _); [done |]. destruct (wire.decode_into _ _ _) as [v |]; cbn; [| done].
  destruct (Z.leb_spec (wire.int "id" v) 0); [done |]. congruence.
Qed.

Lemma exec_store_rejected c event rejection n now :
  0 < ID event -> now <> zeroTime -> receipted n c (ID event) = false ->
  exists s', exec handle (store_body (mkStore c) event (Some rejection)) (mkDB n n now) = (Ok false, s').
Proof.
  intros Hid Hnow Hd. unfold receipted in Hd. unfold store_body. cbn [consumer].
  rewrite exec_then, exec_query. cbn [handle on_network mapErr pending committed clock]; autounfold with queries. cbv iota beta.
  rewrite Hd. cbn [mapErr]. unfold call. cbn [prog_bind]. rewrite exec_vis. cbn [handle clock]. unfold UTC.
  rewrite exec_then. cbn [done_]. unfold done_. rewrite exec_ret.
  assert (Hp : pgTime now = Some now).
  { unfold pgTime, IsZero. by destruct (Z.eqb_spec now 0). }
  assert (Hz : (0 <? ID event) = true) by by apply Z.ltb_lt.
  rewrite exec_then, exec_query. cbn [handle on_network mapErr pending committed clock]; autounfold with queries.
  rewrite Hp, Hz. cbn [is_some negb orb mapErr].
  rewrite exec_then, exec_query. cbn [handle on_network mapErr pending committed clock]; autounfold with queries; cbn [set_cursors receipts].
  rewrite Hd, Hz. cbn. by eexists.
Qed.

(** C14: An event that does not decode never stops the stream.  As long as its id can be read,
    processing succeeds and says so with the reason.  A new one leaves exactly two changes: the
    receipt of that consumer and event, "rejected" with that reason at the time of the clock,
    and the consumer's cursor at the event, or where it was if it was further; one received
    before changes nothing. *)
Theorem rejected_received c body e id s :
  DecodeEvent body = Err e -> EventID body = Some id -> clock s <> zeroTime ->
  let duplicate := receipted (committed s) c id in
  exists s',
    exec handle (Process (mkStore c) body) s = (Ok (mkResult id "rejected" duplicate (Some e)), s') /\
    committed s' =
      if duplicate then committed s else
      set_receipts (insert (c, id) (mkReceipt "rejected" (Some e) (Some (clock s))))
        (set_cursors (insert c (match cursors (committed s) !! c with
                                | Some (at_, since) => if id <=? at_ then (at_, since) else (id, Some (clock s))
                                | None => (id, Some (clock s))
                                end)) (committed s)).
Proof.
  intros Hd Hid Hc duplicate. assert (Hr : received body = Ok (mkEvent id EmptyString None None, Some e))
    by (unfold received; by rewrite Hd, Hid).
  pose proof (EventID_positive _ _ Hid) as Hpos.
  assert (Hp : pgTime (clock s) = Some (clock s)).
  { unfold pgTime, IsZero. by destruct (Z.eqb_spec (clock s) 0). }
  destruct (exec handle (Process (mkStore c) body) s) as [r s'] eqn:Hx.
  pose proof (exec_Process _ _ _ _ _ Hx) as He. destruct r as [res | err].
  - destruct He as (ev & rej & Hr' & -> & Hst). rewrite Hr in Hr'. injection Hr' as <- <-. cbn [ID] in *.
    exists s'. destruct (Duplicate res).
    + destruct Hst as [-> Hrec]. unfold duplicate. by rewrite Hrec.
    + destruct Hst as (Hrec & n1 & -> & ->). unfold duplicate. cbn [ID] in *. rewrite Hrec, Hp.
      split; [done |]. do 2 f_equal. f_equal. destruct (cursors (committed s) !! c) as [[old since] |]; [| done].
      destruct (Z.ltb_spec old id), (Z.leb_spec id old); done || lia.
  - exfalso. revert Hx. unfold Process. rewrite exec_then. unfold lift. rewrite exec_ret, Hr.
    rewrite exec_then. unfold wrapErr. rewrite exec_bind. unfold Store.
    rewrite exec_then, exec_query. cbn [handle mapErr]. cbv iota beta. rewrite exec_bind.
    destruct (receipted (committed s) c id) eqn:Hrec.
    + unfold store_body. cbn [consumer]. rewrite exec_then, exec_query.
      cbn [handle on_network mapErr pending committed clock ID]; autounfold with queries. cbv iota beta.
      unfold receipted in Hrec. rewrite Hrec. by cbn.
    + destruct (exec_store_rejected c (mkEvent id EmptyString None None) e (committed s) (clock s) Hpos Hc Hrec)
        as (s1 & ->). by cbn.
Qed.
End ingest.

(** ** A valid event that no database receives *)

Lemma upserted_current (new : row Records) update table :
  (forall old, source (update old) = source new) ->
  match table !! Uri (env new) with Some old => source old < source new | None => True end ->
  exists r, upserted new update always table !! Uri (env new) = Some r /\ source r = source new /\
    (r = new \/ exists old, r = update old).
Proof.
  intros Hu Hold. unfold upserted, always. destruct (table !! Uri (env new)) as [old |].
  - assert ((source old <? source new) = true) as -> by by apply Z.ltb_lt. cbn [andb].
    exists (update old). rewrite lookup_insert, decide_True by done. eauto.
  - exists new. rewrite lookup_insert, decide_True by done. eauto.
Qed.

Lemma raw_write_current r at_ id n n' :
  match rows n Records !! RecordURI r with Some old => source old < id | None => True end ->
  on_network _ (UpsertFederationRecord (row_of r None at_ id)
                  (mkRecordColumns (Collection r) (Some (RawRecord r)))) n = (Ok tt, n') ->
  current n' (RecordURI r) id false = true.
Proof.
  intros Hold. cbn [on_network]. autounfold with queries. intros (o & Ho)%exec_Ok. apply upsert_Ok in Ho as (Hr & _).
  unfold current. rewrite Hr.
  match goal with |- context [upserted ?new ?u always ?tb] =>
    destruct (upserted_current new u tb) as (r' & Hl & Hs & Hc); [done | done |] end.
  cbn [env Uri row_of] in Hl. rewrite Hl, Hs. cbn [source env SourceEventID row_of]. rewrite Z.eqb_refl. cbn.
  by destruct Hc as [-> | (old & ->)].
Qed.

Section triage_events.
Context `{TapSyntax, GoUnicode, GoEndpoint, UUIDs}.

(** A triage record without labels or without assignees passes the decoder, and then
    violates a constraint of its table. *)
Lemma triage_stuck c body event r v no_labels no_assignees s :
  received body = Ok (event, None) -> Identity event = None -> Record_ event = Some r ->
  Payload r = SubjectTriagePayload v no_labels no_assignees -> Action r <> "delete" ->
  no_labels || no_assignees = true -> receipted (committed s) c (ID event) = false ->
  match rows (committed s) Records !! RecordURI r with Some old => source old < ID event | None => True end ->
  exists e s', exec handle (Process (mkStore c) body) s = (Err e, s') /\ committed s' = committed s.
Proof.
  intros Hr Hi Hrec Hp Ha Hnull Hd Hold.
  destruct (exec handle (Process (mkStore c) body) s) as [o s'] eqn:Hx.
  apply exec_Process in Hx. destruct o as [res | e]; [| by eauto]. exfalso.
  destruct Hx as (event' & rejection & Hr' & _ & Hst). rewrite Hr in Hr'. simplify_eq.
  destruct (Duplicate res); [destruct Hst as [_ Hdd]; congruence |].
  destruct Hst as (_ & n1 & Hpr & _). unfold project in Hpr. rewrite Hi, Hrec in Hpr.
  do 3 (apply exec_then_Ok in Hpr as (? & ? & ?%(exec_rest None) & Hpr);
          [| solve [auto with inside] | done]).
  destruct (String.eqb_spec (Action r) "delete"); [done |].
  unfold projectWrite in Hpr. apply exec_then_Ok in Hpr as (a & n2 & Hw & Hpr). rewrite exec_query in Hw.
  destruct (on_network _ _ _) as [[[] | e] n3] eqn:E in Hw; cbn in Hw; [| done]. injection Hw as <- <-.
  apply raw_write_current in E.
  2: { match goal with |- context [rows ?n Records] =>
         assert (rows n Records = rows (committed s) Records) as -> by (destruct_and?; congruence) end. done. }
  unfold projectPayload in Hpr. rewrite Hp in Hpr. cbn zeta in Hpr. rewrite exec_query in Hpr.
  cbn [on_network] in Hpr. unfold upsertFederationSubjectTriage, upsert_current in Hpr. cbn [env Uri row_of source SourceEventID] in Hpr.
  rewrite E in Hpr. unfold upsert in Hpr.
  assert (Hch : forall e cs, checks SubjectTriage_ (mkRow e None (mkTriageColumns (triage.URI (triage.Subject v))
      (triage.CID (triage.Subject v)) (triage.Kind v) (triage.URI (triage.Metadata_Repository v))
      (triage.CID (triage.Metadata_Repository v)) (if no_labels then None else Some (triage.LabelURIs v))
      (if no_assignees then None else Some (triage.AssigneeDIDs v)) cs)) = false).
  { intros e cs. unfold checks. cbn [cols label_uris assignee_dids].
    apply orb_true_iff in Hnull as [-> | ->]; cbn [is_some]; repeat rewrite ?andb_false_r, ?andb_false_l; done. }
  rewrite Hch in Hpr. done.
Qed.
End triage_events.
End fedstore.
