(* ===== verification/FederationExamples.v ===== *)
(** * FederationExamples: the store on concrete streams. *)

From S2P Require Import Prelude.
From S2P Require Import GoText.
From S2P Require Import Syntax.
From S2P Require Import Json.
From S2P Require Import PullRequest.
From S2P Require Import Triage.
From S2P Require Import Endpoint.
From S2P Require Import FederationEvent.
From S2P Require Import FederationFacts.
From S2P Require Import FederationProjection.
From S2P Require Import FederationTables.
From S2P Require Import FederationStore.

Module federation_runs.
Import Demo TapDemo EndpointDemo federation projection tables fedstore federation_examples.

Definition no_rows (t : table) : gmap string (row t) := ∅.
Definition empty_network : network :=
  mkNetwork no_rows ∅ ∅ (fun _ => open_link) (fun _ => 0) (fun _ => open_link) (fun _ => 0)
    (fun uri => (uri, uri)) (fun _ => no_counts) (fun _ => None) (fun _ => None) (fun _ => 0) ∅ ∅.
Definition start : db := mkDB empty_network empty_network (5 * second).
Definition tap : string := "adenosine".
Definition answer (s : db) (body : list Z) : result Result * db := exec handle (Process (mkStore tap) body) s.
Definition deliver (s : db) (body : list Z) : db := snd (answer s body).
Definition deliveries (bodies : list (list Z)) : db := fold_left deliver bodies start.

(** The fork, created by event 7 and deleted by event 9. *)
Definition fork_deleted : list Z :=
  event_of "9"
    [("live", bytes "true"); ("rev", json.string_ "3m"); ("did", json.string_ "did:plc:alice");
     ("collection", json.string_ RepositoryCollection); ("rkey", json.string_ "tool");
     ("action", json.string_ "delete")].
Definition log (id : Z) : option (list Z) :=
  if id =? 7 then Some fork_event else if id =? 9 then Some fork_deleted else None.
Definition fork_uri : string := "at://did:plc:alice/dev.adenosine.repo/tool".

(** A late create does not bring the repository back. *)
Example late_create :
  (fst <$> (entry <$> rows (committed (deliveries [fork_event])) Records) !! fork_uri) = Some 7 /\
  (entry <$> rows (committed (deliveries [fork_deleted; fork_event])) Records) !! fork_uri = Some (9, None) /\
  (match rows (committed (deliveries [fork_deleted; fork_event])) Repositories !! fork_uri with
   | Some r => live r | None => true end) = false.
Proof. split_and!; vm_compute; reflexivity. Qed.

Lemma start_empty : represents tap (committed start) empty_replica.
Proof. by split. Qed.
Lemma delivered body :
  match received body with Ok (event, _) => log (ID event) = Some body | Err _ => True end ->
  of_stream log body.
Proof. intros Hl event rejection Hr. by rewrite Hr in Hl. Qed.
Lemma deliveries_consume bodies s :
  Forall (of_stream log) bodies -> rtc (consumes log tap) s (fold_left deliver bodies s).
Proof.
  intros Hb. revert s. induction Hb as [| body bodies Hb _ IH]; intros s; [apply rtc_refl |].
  eapply rtc_l; [| apply IH]. apply (consumes_body log tap body (fst (answer s body))); [done |].
  unfold deliver, answer. by destruct (exec _ _ _).
Qed.
Lemma stream_bodies : Forall (of_stream log) [fork_event; fork_deleted].
Proof. repeat constructor; apply delivered; vm_compute; reflexivity. Qed.

Lemma Process_refines_witness :
  exists event rejection, received fork_event = Ok (event, rejection) /\
    represents tap (committed (deliver start fork_event)) (accept event rejection empty_replica).
Proof.
  destruct (Process_refines tap fork_event start empty_replica (Ok (mkResult 7 "applied" false None))
              (deliver start fork_event) start_empty) as (event & rejection & Hr & _ & Ha); [| eauto].
  unfold deliver. assert (Hf : fst (answer start fork_event) = Ok (mkResult 7 "applied" false None))
    by (vm_compute; reflexivity).
  unfold answer in *. destruct (exec _ _ _) as [r s]. cbn in *. by subst.
Defined.

Lemma stream_history_witness :
  exists a, represents tap (committed (deliveries [fork_event; fork_deleted])) a /\ faithful log a.
Proof.
  apply (stream_history log tap start); [apply start_empty |].
  apply deliveries_consume, stream_bodies.
Defined.

Lemma instances_converge_witness :
  entry <$> rows (committed (deliveries [fork_event; fork_deleted])) Records
  = entry <$> rows (committed (deliveries [fork_deleted; fork_event; fork_event])) Records.
Proof.
  apply (instances_converge log tap tap start _ start); [apply start_empty | | apply start_empty | |].
  - apply deliveries_consume, stream_bodies.
  - apply deliveries_consume. pose proof stream_bodies as Hb. rewrite Forall_forall in *.
    intros body Hin. apply Hb. set_solver.
  - intros id. unfold receipted.
    assert (receipts (committed (deliveries [fork_event; fork_deleted]))
            = receipts (committed (deliveries [fork_deleted; fork_event; fork_event]))) as <-
      by (apply map_to_list_inj; vm_compute; reflexivity). done.
Defined.

Lemma rejected_received_witness :
  exists s', answer start self_fork
    = (Ok (mkResult 8 "rejected" false (Some (invalid "repository cannot be forked from itself" []))), s') /\
    receipts (committed s') !! (tap, 8)
    = Some (mkReceipt "rejected" (Some (invalid "repository cannot be forked from itself" [])) (Some (5 * second))).
Proof.
  destruct (rejected_received tap self_fork (invalid "repository cannot be forked from itself" []) 8 start)
    as (s' & Hx & Hs); [vm_compute; reflexivity | vm_compute; reflexivity | done |].
  exists s'. split; [exact Hx |]. rewrite Hs. apply lookup_insert_eq.
Defined.

(** Triage of an issue of bob's, that names a milestone and no labels. *)
Definition issue_uri : string := "at://did:plc:bob/dev.adenosine.issue/3jui7kd54zh2y".
Definition triage_record : list Z :=
  json.object
    [("$type", json.string_ SubjectTriageCollection); ("subject", reference issue_uri cid);
     ("kind", json.string_ "issue"); ("repository", reference fork_uri cid);
     ("milestone", json.string_ "at://did:plc:alice/dev.adenosine.repositoryMilestone/v1");
     ("createdAt", json.string_ "00060"); ("updatedAt", json.string_ "00060")].
Definition triage_rkey : string :=
  match triage.MetadataRecordKey issue_uri with Ok k => k | Err _ => EmptyString end.
Definition triage_event : list Z := event_of "11" (written SubjectTriageCollection triage_rkey triage_record).

Example triage_fails : match fst (answer start triage_event) with Err _ => true | Ok _ => false end = true.
Proof. vm_compute. reflexivity. Qed.

(** ** What order changes *)

Definition put_event (id did collection rkey action at_cid : string) (record : list Z) : list Z :=
  event_of id
    [("live", bytes "true"); ("rev", json.string_ "3k"); ("did", json.string_ did);
     ("collection", json.string_ collection); ("rkey", json.string_ rkey);
     ("action", json.string_ action); ("cid", json.string_ at_cid); ("record", record)].
Definition delete_event (id did collection rkey : string) : list Z :=
  event_of id
    [("live", bytes "true"); ("rev", json.string_ "3m"); ("did", json.string_ did);
     ("collection", json.string_ collection); ("rkey", json.string_ rkey);
     ("action", json.string_ "delete")].
Definition row_live (t : table) (uri : string) (s : db) : option bool := live <$> rows (committed s) t !! uri.

(** The organization of a deleted record, when its creation is delivered after. *)
Definition organization_created : list Z :=
  put_event "21" "did:plc:alice" OrganizationCollection "acme" "create" cid
    (json.object
      [("$type", json.string_ OrganizationCollection); ("slug", json.string_ "acme");
       ("name", json.string_ "Acme"); ("createdAt", json.string_ "00060");
       ("updatedAt", json.string_ "00060")]).
Definition organization_deleted : list Z := delete_event "22" "did:plc:alice" OrganizationCollection "acme".
Definition organization_uri : string := "at://did:plc:alice/dev.adenosine.organization/acme".
Example organization_resurrected :
  row_live Organizations organization_uri (deliveries [organization_created; organization_deleted])
    = Some false /\
  row_live Records organization_uri (deliveries [organization_deleted; organization_created]) = Some false /\
  row_live Organizations organization_uri (deliveries [organization_deleted; organization_created])
    = Some true.
Proof. split_and!; vm_compute; reflexivity. Qed.

(** A closed pull request, and an update of the repository it was for. *)
Definition pull_created : list Z :=
  put_event "31" "did:plc:bob" PullRequestCollection "3jui7kd54zh2y" "create" cid
    (json.object
      [("$type", json.string_ PullRequestCollection);
       ("sourceRepository", reference "at://did:plc:bob/dev.adenosine.repo/tool" cid);
       ("targetRepository", reference fork_uri cid); ("sourceBranch", json.string_ "topic");
       ("targetBranch", json.string_ "main");
       ("headSHA", json.string_ "0123456789abcdef0123456789abcdef01234567");
       ("title", json.string_ "Topic"); ("body", json.string_ EmptyString);
       ("createdAt", json.string_ "00060"); ("updatedAt", json.string_ "00060")]).
Definition pull_uri : string := "at://did:plc:bob/dev.adenosine.pullRequest/3jui7kd54zh2y".
Definition status_rkey : string :=
  match pullrequest.StatusRecordKey pull_uri with Ok k => k | Err _ => EmptyString end.
Definition pull_closed : list Z :=
  put_event "32" "did:plc:alice" PullRequestStatusCollection status_rkey "create" cid
    (json.object
      [("$type", json.string_ PullRequestStatusCollection); ("subject", reference pull_uri cid);
       ("targetRepository", reference fork_uri cid); ("state", json.string_ "closed");
       ("createdAt", json.string_ "00060"); ("updatedAt", json.string_ "00060")]).
Definition fork_updated : list Z :=
  put_event "33" "did:plc:alice" RepositoryCollection "tool" "update" "bafyreinewcid" fork_record.
Definition pull_state (s : db) : string := l_state (pull_links (committed s) pull_uri).
Example closed_pull_reopened :
  map pull_state
    [deliveries [fork_event; pull_created]; deliveries [fork_event; pull_created; pull_closed];
     deliveries [fork_event; pull_created; pull_closed; fork_updated]]
  = ["open"; "closed"; "open"].
Proof. vm_compute. reflexivity. Qed.
End federation_runs.
