(* ===== verification/Comment.v ===== *)
(** * Comment: comments of issues, and what an account does not want to see
    (packages [internal/comment] and [internal/moderation]).

    Comments are read from the network's tables (FederationTables), where the projection puts
    them, through the blocks and hidden records of the one who reads. *)

From S2P Require Import Prelude.
From S2P Require Import GoText.
From S2P Require Import Encoding.
From S2P Require Import Syntax.
From S2P Require Import Cursor.
From S2P Require Import Issue.
From S2P Require Import FederationEvent.
From S2P Require Import FederationProjection.
From S2P Require Import FederationTables.

(** ** Moderation *)

Module moderation.

Record BlockedDID := mkBlocked { DID_ : string; Blocked_CreatedAt : time }.
Record HiddenRecord := mkHidden { URI : string; Hidden_CreatedAt : time }.

Inductive effect : Type -> Type :=
| PutBlock (accountDID blockedDID : string) (createdAt : time) : effect (result unit)
| DeleteBlock (accountDID blockedDID : string) : effect (result unit)
| ListBlocks_ (accountDID : string) : effect (result (list BlockedDID))
| PutHidden (accountDID recordURI : string) (createdAt : time) : effect (result unit)
| DeleteHidden (accountDID recordURI : string) : effect (result unit)
| ListHidden_ (accountDID : string) : effect (result (list HiddenRecord))
| Now : effect time.

Definition wrap (operation : string) (err : error) : error :=
  if Is err issue.ErrNotFound then issue.ErrNotFound else Errorf "%s: %w" [Str operation; W err].

Section moderation.
Context `{Syntax}.

Definition validateDID (value field : string) : result unit :=
  let bad := Err (issue.ValidationError field "must be a canonical AT Protocol DID") in
  match ParseDID value with
  | Some did => if DID_String did != value then bad else Ok tt
  | None => bad
  end.
Definition validateRecordURI (value : string) : result unit :=
  let malformed := Err (issue.ValidationError "recordURI" "must be a canonical AT Protocol record URI") in
  let authority := Err (issue.ValidationError "recordURI" "must use a canonical DID authority") in
  match ParseATURI value with
  | None => malformed
  | Some uri =>
      if (ATURI_String uri != value) || (NSID_String (ATURI_Collection uri) == EmptyString)
         || (RecordKey_String (ATURI_RecordKey uri) == EmptyString)
      then malformed
      else match AsDID (Authority uri) with
           | None => authority
           | Some did => if DID_String did != AuthorityString (Authority uri) then authority else Ok tt
           end
  end.

Definition Block (accountDID blockedDID : string) : svc effect unit :=
  let? _ := lift (validateDID accountDID "accountDID") in
  let? _ := lift (validateDID blockedDID "blockedDID") in
  if accountDID == blockedDID
  then fail (issue.ValidationError "blockedDID" "must differ from accountDID") else
  let! now := call Now in
  wrapErr (wrap "block DID") (call (PutBlock accountDID blockedDID (UTC now))).
Definition Unblock (accountDID blockedDID : string) : svc effect unit :=
  let? _ := lift (validateDID accountDID "accountDID") in
  let? _ := lift (validateDID blockedDID "blockedDID") in
  wrapErr (wrap "unblock DID") (call (DeleteBlock accountDID blockedDID)).
Definition ListBlocks (accountDID : string) : svc effect (list BlockedDID) :=
  let? _ := lift (validateDID accountDID "accountDID") in
  wrapErr (wrap "list blocked DIDs") (call (ListBlocks_ accountDID)).
Definition Hide (accountDID recordURI : string) : svc effect unit :=
  let? _ := lift (validateDID accountDID "accountDID") in
  let? _ := lift (validateRecordURI recordURI) in
  let! now := call Now in
  wrapErr (wrap "hide record") (call (PutHidden accountDID recordURI (UTC now))).
Definition Unhide (accountDID recordURI : string) : svc effect unit :=
  let? _ := lift (validateDID accountDID "accountDID") in
  let? _ := lift (validateRecordURI recordURI) in
  wrapErr (wrap "unhide record") (call (DeleteHidden accountDID recordURI)).
Definition ListHidden (accountDID : string) : svc effect (list HiddenRecord) :=
  let? _ := lift (validateDID accountDID "accountDID") in
  wrapErr (wrap "list hidden records") (call (ListHidden_ accountDID)).
End moderation.

(** *** The tables (moderation.sql, postgres.go) *)

(** A row: its account, what it blocks or hides, and since when. *)
Definition entry : Type := string * string * time.
Definition of_account (account : string) (row : entry) : bool := fst (fst row) == account.
Definition names (account name : string) (row : entry) : bool := of_account account row && (snd (fst row) == name).
Record tables := mkTables { blocked_dids : list entry; hidden_records : list entry }.

Module queries.
(** [ON CONFLICT DO NOTHING]. *)
Definition insert (account name : string) (at_ : time) (rows : list entry) : list entry :=
  if existsb (names account name) rows then rows else rows ++ [(account, name, at_)].
Definition delete (account name : string) (rows : list entry) : list entry :=
  List.filter (fun row => negb (names account name row)) rows.
(** [ORDER BY created_at DESC, name]. *)
Definition latest (x y : entry) : Prop :=
  snd y < snd x \/ snd x = snd y /\ String.leb (snd (fst x)) (snd (fst y)) = true.
#[export] Instance latest_dec : RelDecision latest.
Proof. intros x y. unfold latest. apply _. Defined.
Definition BlockDID (account blocked : string) (at_ : time) (s : tables) : tables :=
  mkTables (insert account blocked at_ (blocked_dids s)) (hidden_records s).
Definition UnblockDID (account blocked : string) (s : tables) : tables :=
  mkTables (delete account blocked (blocked_dids s)) (hidden_records s).
Definition ListBlockedDIDs (account : string) (s : tables) : list entry :=
  merge_sort latest (List.filter (of_account account) (blocked_dids s)).
Definition HideRecord (account uri : string) (at_ : time) (s : tables) : tables :=
  mkTables (blocked_dids s) (insert account uri at_ (hidden_records s)).
Definition UnhideRecord (account uri : string) (s : tables) : tables :=
  mkTables (blocked_dids s) (delete account uri (hidden_records s)).
Definition ListHiddenRecords (account : string) (s : tables) : list entry :=
  merge_sort latest (List.filter (of_account account) (hidden_records s)).
End queries.

(** [PostgresStore], which fails with the database only. *)
Module postgres.
Definition PutBlock (account blocked : string) (at_ : time) (s : tables) : result unit * tables :=
  (Ok tt, queries.BlockDID account blocked (UTC at_) s).
Definition DeleteBlock (account blocked : string) (s : tables) : result unit * tables :=
  (Ok tt, queries.UnblockDID account blocked s).
Definition ListBlocks (account : string) (s : tables) : result (list BlockedDID) :=
  Ok (map (fun row : entry => mkBlocked (snd (fst row)) (snd row)) (queries.ListBlockedDIDs account s)).
Definition PutHidden (account uri : string) (at_ : time) (s : tables) : result unit * tables :=
  (Ok tt, queries.HideRecord account uri (UTC at_) s).
Definition DeleteHidden (account uri : string) (s : tables) : result unit * tables :=
  (Ok tt, queries.UnhideRecord account uri s).
Definition ListHidden (account : string) (s : tables) : result (list HiddenRecord) :=
  Ok (map (fun row : entry => mkHidden (snd (fst row)) (snd row)) (queries.ListHiddenRecords account s)).
End postgres.

Definition handle (clock : time) X (e : effect X) (s : tables) : X * tables :=
  match e in effect X return X * tables with
  | PutBlock account blocked at_ => postgres.PutBlock account blocked at_ s
  | DeleteBlock account blocked => postgres.DeleteBlock account blocked s
  | ListBlocks_ account => (postgres.ListBlocks account s, s)
  | PutHidden account uri at_ => postgres.PutHidden account uri at_ s
  | DeleteHidden account uri => postgres.DeleteHidden account uri s
  | ListHidden_ account => (postgres.ListHidden account s, s)
  | Now => (clock, s)
  end.

(** What an account, if any, has blocked and hidden. *)
Definition blocks (viewer : option string) (did : string) (s : tables) : bool :=
  match viewer with Some account => existsb (names account did) (blocked_dids s) | None => false end.
Definition hides (viewer : option string) (uri : string) (s : tables) : bool :=
  match viewer with Some account => existsb (names account uri) (hidden_records s) | None => false end.
End moderation.

(** ** Comments *)

Module comment.
Import federation projection tables.

Record CreateInput := mkCreateInput { IssueURI : string; ParentURI : string; Body : string }.
Record ProjectedComment := mkProjected { Comment : issue.Comment; IndexedAt : time }.
Record Projection := mkProjection { CommentCount : Z; Comments : list ProjectedComment }.
Record parentTarget := mkParentTarget { Ref : issue.StrongRef; Parent_IssueURI : string }.

Inductive effect : Type -> Type :=
| GetProjection (issueURI viewerDID : string) (limit : Z) : effect (result Projection)
| GetProjectionAfter (issueURI viewerDID : string) (limit : Z) (afterURI : string) : effect (result Projection)
| GetIssueTarget (issueURI : string) : effect (result issue.StrongRef)
| GetParentTarget (parentURI : string) : effect (result parentTarget)
| CreateIssueComment (authorDID rkey : string) (record : issue.CommentRecord) : effect (result issue.Comment)
| DeleteIssueComment (authorDID commentURI : string) : effect (result unit)
| RandomRecordKey : effect (result string)
| Now : effect time.

(** The store of a [Service] may page. *)
Record Service := mkService { paginated : bool }.
Definition projectionError (operation : string) (err : error) : error :=
  if Is err issue.ErrNotFound then issue.ErrNotFound else Errorf "%s: %w" [Str operation; W err].

Section comment.
Context `{Syntax, GoUnicode}.

Definition validateDID (value field : string) : result unit :=
  let bad := Err (issue.ValidationError field "must be a canonical AT Protocol DID") in
  match ParseDID value with
  | Some did => if DID_String did != value then bad else Ok tt
  | None => bad
  end.
Definition validateATURI (value collection field : string) : result unit :=
  let malformed := Err (issue.ValidationError field ("must be a canonical " +:+ collection +:+ " AT URI")) in
  let authority := Err (issue.ValidationError field "must use a canonical DID authority") in
  match ParseATURI value with
  | None => malformed
  | Some uri =>
      if (ATURI_String uri != value) || (NSID_String (ATURI_Collection uri) != collection)
         || (RecordKey_String (ATURI_RecordKey uri) == EmptyString)
      then malformed
      else match AsDID (Authority uri) with
           | None => authority
           | Some did => if DID_String did != AuthorityString (Authority uri) then authority else Ok tt
           end
  end.
Definition validateViewer (viewerDID : string) : result unit :=
  if viewerDID != EmptyString then validateDID viewerDID "viewerDID" else Ok tt.

Definition Get (issueURI viewerDID : string) : svc effect Projection :=
  let? _ := lift (validateATURI issueURI issue.Collection "issueURI") in
  let? _ := lift (validateViewer viewerDID) in
  wrapErr (projectionError "get comment projection") (call (GetProjection issueURI viewerDID 100)).
Definition GetPage (service : Service) (issueURI viewerDID : string) (limit : Z) (afterURI : string)
    : svc effect Projection :=
  let? _ := lift (validateATURI issueURI issue.Collection "issueURI") in
  let? _ := lift (validateViewer viewerDID) in
  if (limit <? 1) || (101 <? limit) then fail (issue.ValidationError "limit" "must be between 1 and 101") else
  if negb (paginated service) then Get issueURI viewerDID else
  wrapErr (projectionError "get comment projection page")
    (call (GetProjectionAfter issueURI viewerDID limit afterURI)).
Definition Create (authorDID : string) (input : CreateInput) : svc effect issue.Comment :=
  let? _ := lift (validateDID authorDID "authorDID") in
  let? _ := lift (validateATURI (IssueURI input) issue.Collection "issueURI") in
  let? _ := lift (if ParentURI input != EmptyString
                  then validateATURI (ParentURI input) issue.CommentCollection "parentURI" else Ok tt) in
  let? subject := wrapErr (projectionError "get comment issue target") (call (GetIssueTarget (IssueURI input))) in
  let? parent :=
    (if ParentURI input != EmptyString then
       let? target := wrapErr (projectionError "get comment parent target") (call (GetParentTarget (ParentURI input))) in
       if Parent_IssueURI target != IssueURI input
       then fail (issue.ValidationError "parentURI" "must belong to the same issue")
       else done_ (Some (Ref target))
     else done_ None) in
  let! now := call Now in
  let record := issue.mkCommentRecord subject parent (Body input) (UTC now) (UTC now) in
  let? _ := lift (issue.CommentRecord_Validate record) in
  let? rkey := wrapErr (fun err => Errorf "create comment record key: %w" [W err]) (call RandomRecordKey) in
  call (CreateIssueComment authorDID rkey record).
Definition Delete (authorDID commentURI : string) : svc effect unit :=
  let? _ := lift (validateDID authorDID "authorDID") in
  let? _ := lift (validateATURI commentURI issue.CommentCollection "commentURI") in
  call (DeleteIssueComment authorDID commentURI).
End comment.

(** *** The queries on the network's tables (federation.sql) *)

Abbreviation comment_row := (row IssueComments_).
Record db := mkDb { net : network; moderated : moderation.tables }.
Definition blocks (viewer : option string) (did : string) (s : db) : bool := moderation.blocks viewer did (moderated s).
Definition hides (viewer : option string) (uri : string) (s : db) : bool := moderation.hides viewer uri (moderated s).

(** [ORDER BY record_created_at, uri]; both are NOT NULL. *)
Definition created (c : comment_row) : time := default zeroTime (RecordCreatedAt (env c)).
Definition place (c : comment_row) : time * string := (created c, Uri (env c)).
Definition before (x y : time * string) : bool :=
  (fst x <? fst y) || ((fst x =? fst y) && String.ltb (snd x) (snd y)).
Definition ordered (x y : comment_row) : Prop :=
  created x < created y \/ created x = created y /\ String.leb (Uri (env x)) (Uri (env y)) = true.
#[export] Instance ordered_dec : RelDecision ordered.
Proof. intros x y. unfold ordered. apply _. Defined.

Module queries.
(** The common table [target]: the issue, unless it or its repository is gone, or its author
    or owner is blocked, or one of the two hidden. *)
Definition target (issueUri : string) (viewer : option string) (s : db) : option (row Issues) :=
  match rows (net s) Issues !! issueUri with
  | None => None
  | Some i =>
      match rows (net s) Repositories !! issue_repository_uri (cols i) with
      | None => None
      | Some r =>
          if live i && live r
             && negb (blocks viewer (AuthorDid (env r)) s) && negb (blocks viewer (AuthorDid (env i)) s)
             && negb (hides viewer (Uri (env r)) s) && negb (hides viewer (Uri (env i)) s)
          then Some i else None
      end
  end.
Definition visible (issueUri : string) (viewer : option string) (s : db) : list comment_row :=
  merge_sort ordered
    (List.filter (fun c : comment_row =>
       (comment_issue_uri (cols c) == issueUri) && live c && shown (net s) c
       && negb (blocks viewer (AuthorDid (env c)) s) && negb (hides viewer (Uri (env c)) s))
     (all_rows (net s) IssueComments_)).
Definition following (cursor : option string) (s : db) (l : list comment_row) : list comment_row :=
  match cursor with
  | None => l
  | Some uri =>
      match rows (net s) IssueComments_ !! uri with
      | None => []
      | Some c => List.filter (fun r => before (created c, uri) (place r)) l
      end
  end.
(** No rows without a target; otherwise the count and the comments of the page, which the
    query gives as one row of empty columns when there are none. *)
Definition ListNetworkIssueComments (issueUri : string) (viewer : option string) (limit : Z)
    (cursor : option string) (s : db) : option (Z * list comment_row) :=
  match target issueUri viewer s with
  | None => None
  | Some _ =>
      let l := visible issueUri viewer s in
      Some (Z.of_nat (length l), firstn (Z.to_nat limit) (following cursor s l))
  end.
Definition GetNetworkIssueCommentTarget (uri : string) (s : db) : result (string * option string) :=
  match rows (net s) Issues !! uri with
  | Some i => if live i then Ok (Uri (env i), Cid (env i)) else Err (New "no rows in result set")
  | None => Err (New "no rows in result set")
  end.
Definition GetNetworkIssueCommentParentTarget (uri : string) (s : db) : result (string * option string * string) :=
  match rows (net s) IssueComments_ !! uri with
  | Some c =>
      match rows (net s) Issues !! comment_issue_uri (cols c) with
      | Some i => if live c && live i then Ok (Uri (env c), Cid (env c), comment_issue_uri (cols c))
                  else Err (New "no rows in result set")
      | None => Err (New "no rows in result set")
      end
  | None => Err (New "no rows in result set")
  end.
End queries.

Module postgres.
Definition optional (value : string) : option string := if value == EmptyString then None else Some value.
Definition fromRow (c : comment_row) : ProjectedComment :=
  mkProjected
    (issue.mkComment (Uri (env c)) (default EmptyString (Cid (env c))) (AuthorDid (env c))
       (issue.mkCommentRecord
          (issue.mkStrongRef (comment_issue_uri (cols c)) (comment_issue_cid (cols c)))
          (match parent_uri (cols c) with
           | Some uri => if uri == EmptyString then None
                         else Some (issue.mkStrongRef uri (default EmptyString (parent_cid (cols c))))
           | None => None
           end)
          (comment_body (cols c)) (created c) (default zeroTime (RecordUpdatedAt (env c)))))
    (default zeroTime (projection.IndexedAt (env c))).
Definition GetProjectionAfter (issueURI viewerDID : string) (limit : Z) (afterURI : string) (s : db)
    : result Projection :=
  match queries.ListNetworkIssueComments issueURI (optional viewerDID) limit (optional afterURI) s with
  | None => Err issue.ErrNotFound
  | Some (total, rows) =>
      Ok (mkProjection total (map fromRow (List.filter (fun c => Uri (env c) != EmptyString) rows)))
  end.
Definition GetProjection (issueURI viewerDID : string) (limit : Z) (s : db) : result Projection :=
  GetProjectionAfter issueURI viewerDID limit EmptyString s.
Definition missing (err : error) : error :=
  if Is err (New "no rows in result set") then issue.ErrNotFound
  else Errorf "query issue comment target: %w" [W err].
Definition GetIssueTarget (issueURI : string) (s : db) : result issue.StrongRef :=
  mapErr missing (let* found := queries.GetNetworkIssueCommentTarget issueURI s in
                  Ok (issue.mkStrongRef (fst found) (default EmptyString (snd found)))).
Definition GetParentTarget (parentURI : string) (s : db) : result parentTarget :=
  mapErr missing (let* found := queries.GetNetworkIssueCommentParentTarget parentURI s in
                  let '(uri, cid, issueUri) := found in
                  Ok (mkParentTarget (issue.mkStrongRef uri (default EmptyString cid)) issueUri)).
End postgres.

(** The publisher and the generators give any answer. *)
Definition handle (world : forall X, effect X -> X) X (e : effect X) (s : db) : X * db :=
  match e in effect X return (effect X -> X) -> X * db with
  | GetProjection uri viewer limit => fun _ => (postgres.GetProjection uri viewer limit s, s)
  | GetProjectionAfter uri viewer limit after => fun _ => (postgres.GetProjectionAfter uri viewer limit after s, s)
  | GetIssueTarget uri => fun _ => (postgres.GetIssueTarget uri s, s)
  | GetParentTarget uri => fun _ => (postgres.GetParentTarget uri s, s)
  | e => fun answer => (answer e, s)
  end (world X).

(** *** The handler of the list (restapi/handler.go, [GetIssueComments])

    What it does once the viewer is known; [pager] says whether the comments it was given
    implement [CommentPageManager], as [Service] does. *)

Inductive reply :=
| Listed (count : Z) (items : list ProjectedComment) (next : option string)
| Failed (err : error)
| Malformed (err : error)
| Panicked.

Section handler.
Context `{Syntax, GoUnicode}.

Definition commentURI (value : ProjectedComment) : string := issue.Comment_URI (Comment value).
Definition scopeOf (issueUri viewerDID : string) : string :=
  "issue-comments:" +:+ issueUri +:+ ":" +:+ viewerDID.
Definition GetIssueComments (service : Service) (pager : bool) (viewerDID issueUri : string)
    (requested : option Z) (requestedCursor : option string) : prog effect reply :=
  let '(limit, encodedCursor) := restapi.collectionParameters requested requestedCursor in
  let scope := scopeOf issueUri viewerDID in
  match restapi.decodeCollectionCursor encodedCursor scope with
  | Err cursorErr => Ret (Malformed cursorErr)
  | Ok afterURI =>
      let! projection := if pager then GetPage service issueUri viewerDID (limit + 1) afterURI
                         else Get issueUri viewerDID in
      match projection with
      | Err err => Ret (Failed err)
      | Ok projection =>
          let values := Comments projection in
          if pager then
            if limit <? Z.of_nat (length values) then
              let values := firstn (Z.to_nat limit) values in
              match last values with
              | None => Ret Panicked
              | Some value =>
                  Ret (Listed (CommentCount projection) values
                         (Some (restapi.encodePageCursor
                                  (restapi.mkPageCursor restapi.cursorVersion scope (commentURI value)))))
              end
            else Ret (Listed (CommentCount projection) values None)
          else
            let '(requestedLimit, cursor) := restapi.paginationInputs requested requestedCursor in
            match restapi.paginate commentURI values requestedLimit cursor scope with
            | Err err => Ret (Malformed err)
            | Ok (items, next) => Ret (Listed (CommentCount projection) items next)
            end
      end
  end.
End handler.

(** ** What the lists show *)

#[export] Instance ordered_trans : Transitive ordered.
Proof.
  intros x y z. unfold ordered. fold (string_le (Uri (env x)) (Uri (env y))).
  fold (string_le (Uri (env y)) (Uri (env z))). fold (string_le (Uri (env x)) (Uri (env z))).
  intros [H1 | [H1 H1']] [H2 | [H2 H2']]; [left; lia.. |]. right. split; [lia |]. by etrans.
Qed.
#[export] Instance ordered_total : Total ordered.
Proof.
  intros x y. unfold ordered. destruct (String.leb_total (Uri (env x)) (Uri (env y))); lia || (
    destruct (Z.lt_trichotomy (created x) (created y)) as [? | [? | ?]]; auto).
Qed.

Lemma before_irrefl c r : Uri (env c) = Uri (env r) -> ordered r c -> before (place c) (place r) = false.
Proof.
  intros Hu Hr. unfold before, place. cbn [fst snd]. rewrite Hu. apply orb_false_iff.
  unfold ordered in Hr. split; [apply Z.ltb_ge; lia |]. apply andb_false_intro2.
  apply ltb_le. apply string_le_iff. by left.
Qed.
Lemma before_not c r : ordered r c -> before (place c) (place r) = false.
Proof.
  intros Hr. unfold before, place, ordered in *. cbn [fst snd]. apply orb_false_iff.
  split; [apply Z.ltb_ge; lia |]. destruct Hr as [Hr | [Hr Hu]].
  - apply andb_false_intro1, Z.eqb_neq. lia.
  - apply andb_false_intro2. by apply ltb_le.
Qed.
Lemma before_yes c r : ordered c r -> Uri (env c) <> Uri (env r) -> before (place c) (place r) = true.
Proof.
  unfold ordered, before, place. cbn [fst snd]. intros [Hr | [Hr Hu]] Hne.
  - apply orb_true_intro. left. by apply Z.ltb_lt.
  - apply orb_true_intro. right. rewrite Hr, Z.eqb_refl. cbn [andb].
    apply not_false_iff_true. intros Hle%ltb_le. apply Hne.
    by apply (anti_symm string_le).
Qed.

(** What follows a comment of the list. *)
Lemma filter_after pre c post :
  StronglySorted ordered (pre ++ c :: post) -> NoDup (map (fun r => Uri (env r)) (pre ++ c :: post)) ->
  List.filter (fun r => before (place c) (place r)) (pre ++ c :: post) = post.
Proof.
  intros Hs Hnd. apply StronglySorted_app in Hs as (Hpre & _ & [_ Hpost]%StronglySorted_inv).
  rewrite map_app in Hnd. cbn [map] in Hnd. apply NoDup_app in Hnd as (_ & _ & [Hc _]%NoDup_cons).
  rewrite List.filter_app. cbn [List.filter]. rewrite before_irrefl; [| done | right; split; [done | apply string_le_iff; by left]].
  replace (List.filter _ pre) with (@nil comment_row); [cbn |].
  - rewrite Forall_forall in Hpost. clear Hpre. induction post as [| r post IH]; [done |]. cbn [List.filter].
    rewrite before_yes; [f_equal; apply IH |..].
    + intros x Hx. apply Hpost. by right.
    + intros Hin. apply Hc. by right.
    + apply Hpost. by left.
    + intros Heq. apply Hc. rewrite Heq. by left.
  - symmetry. induction pre as [| p pre IH]; [done |]. cbn [List.filter].
    rewrite before_not by (apply Hpre; by left). apply IH. intros x1 x2 Hx. apply Hpre. by right.
Qed.

(** The primary key of the table. *)
Definition keyed (s : db) : Prop := forall uri c, rows (net s) IssueComments_ !! uri = Some c -> Uri (env c) = uri.

Definition visible_row (issueUri : string) (viewer : option string) (s : db) (c : comment_row) : bool :=
  (comment_issue_uri (cols c) == issueUri) && live c && shown (net s) c
  && negb (blocks viewer (AuthorDid (env c)) s) && negb (hides viewer (Uri (env c)) s).

Lemma visible_elem issueUri viewer s c :
  c ∈ queries.visible issueUri viewer s <->
  (exists uri, rows (net s) IssueComments_ !! uri = Some c) /\ visible_row issueUri viewer s c = true.
Proof.
  unfold queries.visible. rewrite merge_sort_Permutation, filter_elem. unfold all_rows.
  rewrite list_elem_of_fmap. split; intros [Hc Hv]; (split; [| exact Hv]).
  - destruct Hc as ([uri r] & -> & Hin%elem_of_map_to_list). by exists uri.
  - destruct Hc as [uri Hc]. exists (uri, c). split; [done |]. by apply elem_of_map_to_list.
Qed.

Lemma all_uris s : keyed s ->
  map (fun c : comment_row => Uri (env c)) (all_rows (net s) IssueComments_)
  = map fst (map_to_list (rows (net s) IssueComments_)).
Proof.
  intros Hk. unfold all_rows. rewrite map_map. apply map_ext_in. intros [uri c] Hin%list_elem_of_In.
  apply elem_of_map_to_list in Hin. cbn. by apply Hk.
Qed.

Lemma NoDup_visible issueUri viewer s : keyed s ->
  NoDup (map (fun c : comment_row => Uri (env c)) (queries.visible issueUri viewer s)).
Proof.
  intros Hk. unfold queries.visible.
  rewrite (Permutation_map _ (merge_sort_Permutation ordered _)).
  apply NoDup_map_filter. rewrite (all_uris s Hk). apply NoDup_fst_map_to_list.
Qed.

Lemma visible_sorted issueUri viewer s : StronglySorted ordered (queries.visible issueUri viewer s).
Proof. apply StronglySorted_merge_sort; apply _. Qed.

(** What is still to come after a cursor. *)
Definition stands (issueUri : string) (viewer : option string) (s : db) (afterURI : string) (post : list comment_row) : Prop :=
  afterURI = EmptyString /\ post = queries.visible issueUri viewer s \/
  exists pre c, afterURI = Uri (env c) /\ afterURI <> EmptyString /\ queries.visible issueUri viewer s = pre ++ c :: post.

Lemma following_stands issueUri viewer s afterURI post : keyed s ->
  stands issueUri viewer s afterURI post ->
  queries.following (postgres.optional afterURI) s (queries.visible issueUri viewer s) = post.
Proof.
  intros Hk [[-> ->] | (pre & c & -> & Hne & Hl)]; [done |]. unfold postgres.optional.
  rewrite (proj2 (String.eqb_neq _ _) Hne). unfold queries.following.
  assert (Hc : c ∈ queries.visible issueUri viewer s) by (rewrite Hl; set_solver).
  apply visible_elem in Hc as [[uri Hc] _]. pose proof (Hk _ _ Hc) as <-. rewrite Hc.
  pose proof (visible_sorted issueUri viewer s) as Hs. pose proof (NoDup_visible issueUri viewer s Hk) as Hnd.
  rewrite Hl in Hs, Hnd |- *. by apply filter_after.
Qed.

Section facts.
Context `{Syntax, GoUnicode}.
Context (world : forall X, effect X -> X) (service : Service) (viewerDID issueUri : string).

Lemma GetPage_runs limit afterURI s :
  paginated service = true -> validateATURI issueUri issue.Collection "issueURI" = Ok tt ->
  validateViewer viewerDID = Ok tt -> 1 <= limit <= 101 ->
  exec (handle world) (GetPage service issueUri viewerDID limit afterURI) s
  = (mapErr (projectionError "get comment projection page")
       (postgres.GetProjectionAfter issueUri viewerDID limit afterURI s), s).
Proof.
  intros Hp Hu Hv Hl. unfold GetPage. rewrite Hu, Hv. do 2 (rewrite exec_then; unfold lift; rewrite exec_ret).
  replace (_ || _) with false by (symmetry; apply orb_false_iff; rewrite !Z.ltb_ge; lia).
  rewrite Hp. cbn [negb]. by rewrite exec_wrap, exec_call.
Qed.

Lemma projected l : Forall (fun c : comment_row => Uri (env c) <> EmptyString) l ->
  List.filter (fun c : comment_row => Uri (env c) != EmptyString) l = l.
Proof.
  intros Hl. apply forallb_filter_id, forallb_forall. intros c Hc%list_elem_of_In.
  rewrite Forall_forall in Hl. by rewrite (proj2 (String.eqb_neq _ _) (Hl c Hc)).
Qed.

(** What the table promises of its keys: at-uris, of which only this is needed. *)
Definition uris_ok (s : db) : Prop :=
  forall uri c, rows (net s) IssueComments_ !! uri = Some c -> uri <> EmptyString /\ ValidString uri = true.

Lemma uri_ok s c v : keyed s -> uris_ok s -> c ∈ queries.visible issueUri v s ->
  Uri (env c) <> EmptyString /\ ValidString (Uri (env c)) = true.
Proof. intros Hk Hu [[uri Hc] _]%visible_elem. rewrite (Hk _ _ Hc). by eapply Hu. Qed.

Definition cursorAt (uri : string) : string :=
  restapi.encodePageCursor (restapi.mkPageCursor restapi.cursorVersion (scopeOf issueUri viewerDID) uri).
Definition cursorURI (cursor : option string) : result string :=
  restapi.decodeCollectionCursor (default EmptyString cursor) (scopeOf issueUri viewerDID).

Lemma cursorURI_at uri : ValidString (scopeOf issueUri viewerDID) = true -> ValidString uri = true ->
  uri <> EmptyString -> cursorURI (Some (cursorAt uri)) = Ok uri.
Proof.
  intros Hs Hv Hne. unfold cursorURI, restapi.decodeCollectionCursor. cbn [default].
  unfold cursorAt, id. rewrite (proj2 (String.eqb_neq _ _)) by apply restapi.encode_nonempty.
  rewrite restapi.decode_encode by done. cbn [restapi.Scope]. by rewrite String.eqb_refl.
Qed.

(** A request that the service accepts, on a table of keyed rows. *)
Record listable (s : db) : Prop := {
  ls_paginated : paginated service = true;
  ls_issue : validateATURI issueUri issue.Collection "issueURI" = Ok tt;
  ls_viewer : validateViewer viewerDID = Ok tt;
  ls_keyed : keyed s;
  ls_uris : uris_ok s;
  ls_scope : ValidString (scopeOf issueUri viewerDID) = true;
  ls_target : is_some (queries.target issueUri (postgres.optional viewerDID) s) = true
}.
Abbreviation seen s := (queries.visible issueUri (postgres.optional viewerDID) s).

Lemma stands_subset s afterURI post c :
  stands issueUri (postgres.optional viewerDID) s afterURI post -> c ∈ post -> c ∈ seen s.
Proof. intros [[_ ->] | (pre & d & _ & _ & ->)] Hc; [done |]. set_solver. Qed.

Lemma projection_stands s afterURI post limit : listable s ->
  stands issueUri (postgres.optional viewerDID) s afterURI post -> 1 <= limit <= 101 ->
  exec (handle world) (GetPage service issueUri viewerDID limit afterURI) s
  = (Ok (mkProjection (Z.of_nat (length (seen s)))
           (map postgres.fromRow (firstn (Z.to_nat limit) post))), s).
Proof.
  intros Hl Hst Hlim. rewrite GetPage_runs by (apply Hl || lia). f_equal.
  unfold postgres.GetProjectionAfter, queries.ListNetworkIssueComments.
  pose proof (ls_target _ Hl) as Ht. destruct (queries.target _ _ _); [| done]. clear Ht.
  rewrite (following_stands _ _ _ _ _ (ls_keyed _ Hl) Hst). cbn [mapErr]. do 3 f_equal.
  apply projected, Forall_forall. intros c Hc. eapply uri_ok; [apply Hl | apply Hl |].
  eapply stands_subset; [exact Hst |]. apply elem_of_take in Hc as (i & Hi & _).
  by eapply list_elem_of_lookup_2.
Qed.

Lemma page_runs s requested cursor afterURI post : listable s ->
  let limit := default restapi.defaultPageLimit requested in
  1 <= limit <= 100 -> cursorURI cursor = Ok afterURI ->
  stands issueUri (postgres.optional viewerDID) s afterURI post ->
  exec (handle world) (GetIssueComments service true viewerDID issueUri requested cursor) s
  = (Listed (Z.of_nat (length (seen s))) (map postgres.fromRow (firstn (Z.to_nat limit) post))
       (if limit <? Z.of_nat (length post)
        then option_map (fun c => cursorAt (Uri (env c))) (last (firstn (Z.to_nat limit) post)) else None), s).
Proof.
  intros Hl limit Hlim Hcur Hst. unfold GetIssueComments. cbn [restapi.collectionParameters].
  fold limit. fold (cursorURI cursor). rewrite Hcur.
  rewrite exec_bind, (projection_stands s afterURI post) by (done || lia). cbn [fst snd].
  cbn [Comments CommentCount]. rewrite length_map, length_firstn.
  destruct (Z.ltb_spec limit (Z.of_nat (length post))) as [Hlt | Hge].
  - rewrite (proj2 (Z.ltb_lt _ _)) by lia. rewrite firstn_map, firstn_firstn.
    replace (Nat.min (Z.to_nat limit) (Z.to_nat (limit + 1))) with (Z.to_nat limit) by lia.
    rewrite (fmap_last postgres.fromRow). destruct (last (firstn (Z.to_nat limit) post)) as [c |] eqn:Hlast.
    + done.
    + apply last_None, (f_equal length) in Hlast. rewrite length_firstn in Hlast. cbn in Hlast. lia.
  - rewrite (proj2 (Z.ltb_ge _ _)) by lia. rewrite exec_ret, !firstn_all2 by lia. done.
Qed.

(** A client that follows the cursors of the pages. *)
Fixpoint read_all (fuel : nat) (requested : option Z) (cursor : option string) (s : db) : option (list ProjectedComment) :=
  match fuel with
  | O => None
  | S fuel =>
      match exec (handle world) (GetIssueComments service true viewerDID issueUri requested cursor) s with
      | (Listed _ items None, _) => Some items
      | (Listed _ items next, s) => rest ← read_all fuel requested next s; Some (items ++ rest)
      | _ => None
      end
  end.

Lemma comment_stands_next s afterURI post n c : listable s ->
  stands issueUri (postgres.optional viewerDID) s afterURI post -> last (firstn n post) = Some c ->
  stands issueUri (postgres.optional viewerDID) s (Uri (env c)) (skipn n post).
Proof.
  intros Hl Hst [items Hitems]%last_Some. right.
  assert (Hp : post = items ++ c :: skipn n post).
  { rewrite <- (firstn_skipn n post) at 1. by rewrite Hitems, <- app_assoc. }
  assert (Hne : Uri (env c) <> EmptyString).
  { eapply uri_ok; [apply Hl | apply Hl |]. eapply stands_subset; [exact Hst |]. rewrite Hp. set_solver. }
  destruct Hst as [[-> Hpost] | (pre & c' & -> & _ & Hv)].
  - exists items, c. split_and!; [done.. |]. by rewrite <- Hpost.
  - exists (pre ++ c' :: items), c. split_and!; [done.. |]. rewrite Hv, Hp at 1. by rewrite <- app_assoc.
Qed.

Lemma read_stands s requested : listable s -> 1 <= default restapi.defaultPageLimit requested <= 100 ->
  forall fuel cursor afterURI post,
  cursorURI cursor = Ok afterURI -> stands issueUri (postgres.optional viewerDID) s afterURI post ->
  (length post < fuel)%nat -> read_all fuel requested cursor s = Some (map postgres.fromRow post).
Proof.
  intros Hl Hlim. induction fuel as [| fuel IH]; intros cursor afterURI post Hcur Hst Hf; [lia |].
  cbn [read_all]. rewrite (page_runs s requested cursor afterURI post) by done.
  set (limit := default restapi.defaultPageLimit requested) in *.
  destruct (Z.ltb_spec limit (Z.of_nat (length post))) as [Hlt | Hge].
  2: { by rewrite firstn_all2 by lia. }
  destruct (last (firstn (Z.to_nat limit) post)) as [c |] eqn:Hlast.
  2: { apply last_None, (f_equal length) in Hlast. rewrite length_firstn in Hlast. cbn in Hlast. lia. }
  cbn [option_map]. pose proof (comment_stands_next _ _ _ _ _ Hl Hst Hlast) as Hnext.
  rewrite (IH (Some (cursorAt (Uri (env c)))) (Uri (env c)) (skipn (Z.to_nat limit) post)); [| | exact Hnext | rewrite length_skipn; lia].
  - cbn. by rewrite <- map_app, firstn_skipn.
  - destruct (uri_ok s c (postgres.optional viewerDID) (ls_keyed _ Hl) (ls_uris _ Hl)) as [Hne Hv].
    { eapply stands_subset; [exact Hst |]. apply last_Some in Hlast as [items Hi].
      rewrite <- (firstn_skipn (Z.to_nat limit) post), Hi. set_solver. }
    apply cursorURI_at; [apply Hl | done..].
Qed.

Lemma GetPage_limit limit afterURI s p s' :
  exec (handle world) (GetPage service issueUri viewerDID limit afterURI) s = (Ok p, s') -> 1 <= limit.
Proof.
  unfold GetPage. rewrite exec_then. unfold lift at 1. rewrite exec_ret.
  destruct (validateATURI issueUri _ _) as [[] | e]; [| done].
  rewrite exec_then. unfold lift at 1. rewrite exec_ret.
  destruct (validateViewer viewerDID) as [[] | e]; [| done].
  destruct (Z.ltb_spec limit 1); [done | lia].
Qed.

(** ** The properties *)

(** The pages of an issue's comments are complete: a reader who follows the cursors, with
    any page size the API documents, is shown every comment visible to him exactly once, in
    the order of creation, and the count of every page is their number. *)
Theorem comments_paged (s : db) (requested : option Z) (Hl : listable s)
    (Hlimit : 1 <= default restapi.defaultPageLimit requested <= 100) :
  read_all (S (length (seen s))) requested None s = Some (map postgres.fromRow (seen s)) /\
  NoDup (map commentURI (map postgres.fromRow (seen s))) /\ StronglySorted ordered (seen s) /\
  exists items next,
    exec (handle world) (GetIssueComments service true viewerDID issueUri requested None) s
    = (Listed (Z.of_nat (length (seen s))) items next, s).
Proof.
  split_and!.
  - apply (read_stands s requested Hl Hlimit _ _ EmptyString); [done | by left | lia].
  - rewrite map_map. apply NoDup_visible, Hl.
  - apply visible_sorted.
  - rewrite (page_runs s requested None EmptyString (seen s)) by (done || by left). eauto.
Qed.

(** The API takes a limit of 0, which the service of comments does not refuse since it is
    asked for one more: if there is a comment to show, the handler indexes the last of none and
    panics.  No other request does. *)
Theorem limit_zero_panics (s : db) (Hl : listable s) (Hsome : seen s <> []) :
  fst (exec (handle world) (GetIssueComments service true viewerDID issueUri (Some 0) None) s) = Panicked /\
  forall pager requested cursor s',
    fst (exec (handle world) (GetIssueComments service pager viewerDID issueUri requested cursor) s') = Panicked ->
    pager = true /\ requested = Some 0.
Proof.
  split.
  - unfold GetIssueComments. cbn [restapi.collectionParameters].
    replace (restapi.decodeCollectionCursor _ _) with (Ok EmptyString : result string) by done.
    rewrite exec_bind, (projection_stands s EmptyString (seen s)) by (done || (by left) || lia).
    cbn [fst snd Comments]. destruct (seen s) as [| c l]; [done |]. done.
  - intros pager requested cursor s'. unfold GetIssueComments. cbn [restapi.collectionParameters].
    destruct (restapi.decodeCollectionCursor _ _) as [afterURI | err]; [| done]. rewrite exec_bind.
    destruct pager.
    + destruct (exec _ (GetPage _ _ _ _ _) s') as [[p | err] s2] eqn:Hp; [| done]. cbn [fst snd restapi.paginationInputs].
      apply GetPage_limit in Hp. destruct (Z.ltb_spec (default restapi.defaultPageLimit requested)
        (Z.of_nat (length (Comments p)))) as [Hlt |]; [| done].
      destruct (last _) as [v |] eqn:Hlast; [done |]. intros _. split; [done |].
      apply last_None, (f_equal length) in Hlast. rewrite length_firstn in Hlast. cbn [length] in Hlast.
      destruct requested as [n |]; cbn [default] in *; unfold id, restapi.defaultPageLimit in *; [f_equal | exfalso]; lia.
    + destruct (exec _ (Get _ _) s') as [[p | err] s2]; [| done]. cbn [fst snd restapi.paginationInputs].
      by destruct (restapi.paginate commentURI _ _ _ _) as [[items next] | err].
Qed.
End facts.

(** ** What moderation changes *)

Inductive change := Block (did : string) | Unblock (did : string) | Hide (uri : string) | Unhide (uri : string).
Section moderated.
Context `{Syntax, GoUnicode}.
Definition perform (account : string) (c : change) : svc moderation.effect unit :=
  match c with
  | Block did => moderation.Block account did
  | Unblock did => moderation.Unblock account did
  | Hide uri => moderation.Hide account uri
  | Unhide uri => moderation.Unhide account uri
  end.

Lemma names_iff account name account' name' t :
  moderation.names account name (account', name', t) = bool_decide (account' = account /\ name' = name).
Proof.
  unfold moderation.names, moderation.of_account. cbn [fst snd].
  destruct (String.eqb_spec account' account), (String.eqb_spec name' name); cbn [andb]; symmetry;
    (by apply bool_decide_eq_true) || (apply bool_decide_eq_false; naive_solver).
Qed.
Lemma insert_names account name t rows a n :
  existsb (moderation.names a n) (moderation.queries.insert account name t rows)
  = bool_decide (account = a /\ name = n) || existsb (moderation.names a n) rows.
Proof.
  unfold moderation.queries.insert. destruct (existsb (moderation.names account name) rows) eqn:He.
  - destruct (bool_decide_reflect (account = a /\ name = n)) as [[-> ->] |]; [by rewrite He | done].
  - rewrite existsb_app. cbn [existsb]. by rewrite names_iff, orb_false_r, orb_comm.
Qed.
Lemma delete_names account name rows a n :
  existsb (moderation.names a n) (moderation.queries.delete account name rows)
  = negb (bool_decide (account = a /\ name = n)) && existsb (moderation.names a n) rows.
Proof.
  unfold moderation.queries.delete. induction rows as [| [[a' n'] t] rows IH]; [by rewrite andb_false_r |].
  cbn [List.filter existsb]. rewrite (names_iff account name).
  destruct (bool_decide_reflect (a' = account /\ n' = name)) as [[-> ->] | Hn]; cbn [negb].
  - rewrite IH, names_iff. by destruct (bool_decide_reflect (account = a /\ name = n)).
  - cbn [existsb]. rewrite IH, names_iff. destruct (bool_decide_reflect (a' = a /\ n' = n)) as [[-> ->] |]; [| done].
    by rewrite bool_decide_eq_false_2 by naive_solver.
Qed.

Ltac service := unfold moderation.Block, moderation.Unblock, moderation.Hide, moderation.Unhide.

(** What the services leave in the tables. *)
Lemma performed clock account c s s' :
  exec (moderation.handle clock) (perform account c) s = (Ok tt, s') ->
  s' = match c with
       | Block did => moderation.queries.BlockDID account did clock s
       | Unblock did => moderation.queries.UnblockDID account did s
       | Hide uri => moderation.queries.HideRecord account uri clock s
       | Unhide uri => moderation.queries.UnhideRecord account uri s
       end.
Proof.
  destruct c; cbn [perform]; service; rewrite exec_then; unfold lift at 1; rewrite exec_ret;
    (destruct (moderation.validateDID account _) as [[] |]; [| done]);
    rewrite exec_then; unfold lift at 1; rewrite exec_ret;
    (match goal with |- context [match ?r with Ok _ => _ | Err _ => _ end] => destruct r as [[] |]; [| done] end);
    [destruct (account == did); [done |]; rewrite exec_bind, exec_call | | rewrite exec_bind, exec_call |];
    cbn [moderation.handle fst snd]; rewrite exec_wrap, exec_call; intros [= <-]; reflexivity.
Qed.

(** Nothing but what is blocked and hidden from him decides what a reader is shown. *)
Lemma visible_ext issueUri viewer n m m' :
  (forall did, moderation.blocks viewer did m = moderation.blocks viewer did m') ->
  (forall uri, moderation.hides viewer uri m = moderation.hides viewer uri m') ->
  queries.target issueUri viewer (mkDb n m) = queries.target issueUri viewer (mkDb n m') /\
  queries.visible issueUri viewer (mkDb n m) = queries.visible issueUri viewer (mkDb n m').
Proof.
  intros Hb Hh. unfold queries.target, queries.visible, blocks, hides. cbn [moderated net]. split.
  - destruct (rows n Issues !! issueUri) as [i |]; [| done].
    destruct (rows n Repositories !! _) as [r |]; [| done]. by rewrite !Hb, !Hh.
  - f_equal. apply List.filter_ext. intros c. by rewrite Hb, Hh.
Qed.

(** What a page is made of. *)
Lemma page_rows issueUri viewerDID limit afterURI s p :
  postgres.GetProjectionAfter issueUri viewerDID limit afterURI s = Ok p ->
  is_some (queries.target issueUri (postgres.optional viewerDID) s) = true /\
  CommentCount p = Z.of_nat (length (queries.visible issueUri (postgres.optional viewerDID) s)) /\
  Forall (fun v => exists c, c ∈ queries.visible issueUri (postgres.optional viewerDID) s /\ v = postgres.fromRow c)
    (Comments p).
Proof.
  unfold postgres.GetProjectionAfter, queries.ListNetworkIssueComments.
  destruct (queries.target _ _ _); [| done]. intros [= <-]. split_and!; [done.. |]. cbn [Comments].
  apply Forall_map, Forall_forall. intros c [Hc _]%filter_elem. exists c. split; [| done].
  apply elem_of_take in Hc as (i & Hc%list_elem_of_lookup_2 & _). unfold queries.following in Hc.
  destruct (postgres.optional afterURI) as [uri |]; [| done].
  destruct (rows (net s) IssueComments_ !! uri) as [d |]; [by apply filter_elem in Hc as [Hc _] | set_solver].
Qed.

Lemma GetPage_Ok world service issueUri viewerDID limit afterURI s p s' :
  exec (handle world) (GetPage service issueUri viewerDID limit afterURI) s = (Ok p, s') ->
  s' = s /\ exists limit afterURI, postgres.GetProjectionAfter issueUri viewerDID limit afterURI s = Ok p.
Proof.
  unfold GetPage, Get. do 2 (rewrite exec_then; unfold lift at 1; rewrite exec_ret;
    match goal with |- context [match ?r with Ok _ => _ | Err _ => _ end] => destruct r as [[] |] eqn:?; [| done] end).
  destruct (_ || _); [done |]. destruct (negb _).
  - do 2 (rewrite exec_then; unfold lift at 1; rewrite exec_ret; cbv iota).
    rewrite exec_wrap, exec_call. cbn. intros [= Hp <-]. split; [done |].
    apply mapErr_Ok in Hp. eauto.
  - rewrite exec_wrap, exec_call. cbn. intros [= Hp <-]. split; [done |]. apply mapErr_Ok in Hp. eauto.
Qed.

Lemma changed_entries clock account c m m' :
  exec (moderation.handle clock) (perform account c) m = (Ok tt, m') ->
  forall viewer name,
     moderation.blocks viewer name m'
     = match c with
       | Block did => bool_decide (viewer = Some account /\ name = did) || moderation.blocks viewer name m
       | Unblock did => negb (bool_decide (viewer = Some account /\ name = did)) && moderation.blocks viewer name m
       | _ => moderation.blocks viewer name m
       end /\
     moderation.hides viewer name m'
     = match c with
       | Hide uri => bool_decide (viewer = Some account /\ name = uri) || moderation.hides viewer name m
       | Unhide uri => negb (bool_decide (viewer = Some account /\ name = uri)) && moderation.hides viewer name m
       | _ => moderation.hides viewer name m
       end.
Proof.
  intros Hp viewer name. apply performed in Hp as ->. unfold moderation.blocks, moderation.hides.
  destruct viewer as [v |].
  - destruct c; cbn -[bool_decide]; (split; [try done | try done]);
      (rewrite insert_names || rewrite delete_names); f_equal; [| f_equal | | f_equal];
      apply bool_decide_ext; naive_solver.
  - destruct c; cbn -[bool_decide]; split; try done; by rewrite ?andb_false_r, ?bool_decide_eq_false_2 by naive_solver.
Qed.

Lemma same_pages world service issueUri viewerDID limit afterURI n m m' :
  (forall did, moderation.blocks (postgres.optional viewerDID) did m' = moderation.blocks (postgres.optional viewerDID) did m) ->
  (forall uri, moderation.hides (postgres.optional viewerDID) uri m' = moderation.hides (postgres.optional viewerDID) uri m) ->
  fst (exec (handle world) (GetPage service issueUri viewerDID limit afterURI) (mkDb n m'))
  = fst (exec (handle world) (GetPage service issueUri viewerDID limit afterURI) (mkDb n m)).
Proof.
  intros Hb Hh. destruct (visible_ext issueUri _ n m' m Hb Hh) as [Ht Hv].
  assert (Hg : forall limit afterURI,
    postgres.GetProjectionAfter issueUri viewerDID limit afterURI (mkDb n m')
    = postgres.GetProjectionAfter issueUri viewerDID limit afterURI (mkDb n m)).
  { intros l a. unfold postgres.GetProjectionAfter, queries.ListNetworkIssueComments, queries.following.
    by rewrite Ht, Hv. }
  unfold GetPage, Get. do 2 (rewrite !exec_then; unfold lift at 1 3; rewrite !exec_ret;
    match goal with |- context [match ?r with Ok _ => _ | Err _ => _ end] => destruct r as [[] |] eqn:?; [| done] end).
  destruct (_ || _); [done |]. destruct (negb _).
  - rewrite !exec_then. unfold lift. rewrite !exec_ret. rewrite !exec_then. unfold lift. rewrite !exec_ret.
    rewrite !exec_wrap, !exec_call. cbn [handle fst]. unfold postgres.GetProjection. by rewrite Hg.
  - rewrite !exec_wrap, !exec_call. cbn [handle fst]. by rewrite Hg.
Qed.
End moderated.

Section moderation_facts.
Context `{Syntax, GoUnicode}.

(** C12: what an account blocks and hides is its own affair, and works: a change that succeeds
    sets or clears exactly the entry it names; the answers to everybody else, and to those not
    signed in, stay the same; and from then on no page the account is given, of any issue, has a
    comment of the author it blocked, or the comment it hid. *)
Theorem moderation_applies (clock : time) (account : string) (c : change) (n : network) (m m' : moderation.tables)
    (Hc : exec (moderation.handle clock) (perform account c) m = (Ok tt, m')) :
  (forall viewer name,
     moderation.blocks viewer name m'
     = match c with
       | Block did => bool_decide (viewer = Some account /\ name = did) || moderation.blocks viewer name m
       | Unblock did => negb (bool_decide (viewer = Some account /\ name = did)) && moderation.blocks viewer name m
       | _ => moderation.blocks viewer name m
       end /\
     moderation.hides viewer name m'
     = match c with
       | Hide uri => bool_decide (viewer = Some account /\ name = uri) || moderation.hides viewer name m
       | Unhide uri => negb (bool_decide (viewer = Some account /\ name = uri)) && moderation.hides viewer name m
       | _ => moderation.hides viewer name m
       end) /\
  (forall world service issueUri viewerDID limit afterURI, postgres.optional viewerDID <> Some account ->
     fst (exec (handle world) (GetPage service issueUri viewerDID limit afterURI) (mkDb n m'))
     = fst (exec (handle world) (GetPage service issueUri viewerDID limit afterURI) (mkDb n m))) /\
  (forall world service issueUri limit afterURI p s, account <> EmptyString ->
     exec (handle world) (GetPage service issueUri account limit afterURI) (mkDb n m') = (Ok p, s) ->
     Forall (fun v => match c with
                      | Block did => issue.Comment_AuthorDID (Comment v) <> did
                      | Hide uri => commentURI v <> uri
                      | _ => True
                      end) (Comments p)).
Proof.
  pose proof (changed_entries clock account c m m' Hc) as Hent. split; [exact Hent | split].
  - intros world service issueUri viewerDID limit afterURI Hv. apply same_pages.
    + intros did. destruct (Hent (postgres.optional viewerDID) did) as [-> _].
      destruct c; try done; by rewrite bool_decide_eq_false_2 by tauto.
    + intros uri. destruct (Hent (postgres.optional viewerDID) uri) as [_ ->].
      destruct c; try done; by rewrite bool_decide_eq_false_2 by tauto.
  - intros world service issueUri limit afterURI p s Hne Hp.
    apply GetPage_Ok in Hp as (_ & l & a & (_ & _ & Hrows)%page_rows).
    eapply Forall_impl; [exact Hrows |]. intros v (r & [_ Hr]%visible_elem & ->).
    unfold visible_row, blocks, hides, postgres.optional in Hr. cbn [moderated] in Hr.
    rewrite (proj2 (String.eqb_neq _ _) Hne) in Hr.
    apply andb_true_iff in Hr as [[_ Hb%negb_true_iff]%andb_true_iff Hh%negb_true_iff].
    destruct c; [| done | | done]; cbn; intros Heq.
    + destruct (Hent (Some account) did) as [Hd _]. rewrite bool_decide_eq_true_2 in Hd by done.
      by rewrite <- Heq, Hb in Hd.
    + destruct (Hent (Some account) uri) as [_ Hd]. rewrite bool_decide_eq_true_2 in Hd by done.
      by rewrite <- Heq, Hh in Hd.
Qed.
End moderation_facts.
End comment.

Module comment_examples.
Import Demo federation projection tables comment.

Definition repo_uri : string := "at://did:plc:owner/dev.adenosine.repo/tool".
Definition issue_uri : string := "at://did:plc:bob/dev.adenosine.issue/3jui7kd54zh2y".
Definition comment_uri (rkey : string) : string := "at://did:plc:carol/dev.adenosine.issueComment/" +:+ rkey.
Definition envelope_of (uri did : string) (at_ : time) : envelope :=
  mkEnvelope uri (Some "bafyreigh2akiscaildc") did EmptyString (Some at_) (Some at_) (Some 900) 1.
Definition said (rkey did body : string) (at_ : time) : row IssueComments_ :=
  @mkRow IssueComments_ (envelope_of (comment_uri rkey) did at_) None
    (mkCommentColumns issue_uri "bafyreigh2akiscaildc" None None body).
Definition network_rows (t : table) : gmap string (row t) :=
  match t return gmap string (row t) with
  | Repositories =>
      {[ repo_uri := @mkRow Repositories (envelope_of repo_uri "did:plc:owner" 10) None
           (mkRepositoryColumns (Some "tool") None None None None None None None None None None None None None None) ]}
  | Issues =>
      {[ issue_uri := @mkRow Issues (envelope_of issue_uri "did:plc:bob" 20) None
           (mkIssueColumns repo_uri "bafyreigh2akiscaildc" "crash" "it crashes") ]}
  | IssueComments_ =>
      <[comment_uri "a" := said "a" "did:plc:carol" "first" 30]>
      (<[comment_uri "b" := said "b" "did:plc:dave" "second" 40]>
      {[ comment_uri "c" := said "c" "did:plc:carol" "third" 50 ]})
  | _ => ∅
  end.
Definition the_network : network :=
  mkNetwork network_rows ∅ ∅ (fun _ => open_link) (fun _ => 0) (fun _ => open_link) (fun _ => 0)
    (fun uri => (uri, uri)) (fun _ => no_counts) (fun _ => None) (fun _ => None) (fun _ => 0) ∅ ∅.
Definition quiet : moderation.tables := moderation.mkTables [] [].
Definition the_db : db := mkDb the_network quiet.
Definition nobody X (e : effect X) : X :=
  match e in effect X return X with Now => 0 | RandomRecordKey => Err (New "none")
  | GetProjection _ _ _ => Err (New "none") | GetProjectionAfter _ _ _ _ => Err (New "none")
  | GetIssueTarget _ => Err (New "none") | GetParentTarget _ => Err (New "none")
  | CreateIssueComment _ _ _ => Err (New "none") | DeleteIssueComment _ _ => Err (New "none") end.

Lemma comment_rows uri c : network_rows IssueComments_ !! uri = Some c ->
  Uri (env c) = uri /\ uri <> EmptyString /\ ValidString uri = true.
Proof.
  cbn. intros [[<- <-] | [_ [[<- <-] | [_ [<- <-]%lookup_singleton_Some]]%lookup_insert_Some]]%lookup_insert_Some;
    by vm_compute.
Qed.
Lemma the_db_listable viewerDID : validateViewer viewerDID = Ok tt -> ValidString (scopeOf issue_uri viewerDID) = true ->
  listable (mkService true) viewerDID issue_uri the_db.
Proof.
  intros Hv Hs. split; [done | by vm_compute | done | | | done |].
  - intros uri c Hc. by destruct (comment_rows uri c Hc) as (? & ? & ?).
  - intros uri c Hc. by destruct (comment_rows uri c Hc) as (? & ? & ?).
  - unfold queries.target. change (rows (net the_db) Issues) with (network_rows Issues).
    change (rows (net the_db) Repositories) with (network_rows Repositories).
    unfold postgres.optional. by destruct (viewerDID == EmptyString); vm_compute.
Qed.

Example two_pages :
  map commentURI <$> read_all nobody (mkService true) EmptyString issue_uri 4 (Some 2) None the_db
  = Some (map comment_uri ["a"; "b"; "c"]).
Proof. vm_compute. reflexivity. Qed.

Lemma comments_paged_witness :
  map commentURI <$> read_all nobody (mkService true) "did:plc:bob" issue_uri 4 (Some 2) None the_db
  = Some (map comment_uri ["a"; "b"; "c"]).
Proof.
  destruct (comments_paged nobody (mkService true) "did:plc:bob" issue_uri the_db (Some 2)) as [Hr _];
    [by apply the_db_listable; vm_compute | cbn; lia |].
  assert (Hn : S (length (queries.visible issue_uri (postgres.optional "did:plc:bob") the_db)) = 4%nat) by by vm_compute.
  rewrite Hn in Hr. rewrite Hr. vm_compute. reflexivity.
Defined.

Lemma limit_zero_panics_witness :
  fst (exec (handle nobody) (GetIssueComments (mkService true) true EmptyString issue_uri (Some 0) None) the_db)
  = Panicked.
Proof.
  apply (limit_zero_panics nobody (mkService true) EmptyString issue_uri the_db);
    [by apply the_db_listable; vm_compute | by vm_compute].
Defined.

(** Bob blocks carol. *)
Definition blocked : moderation.tables :=
  snd (exec (moderation.handle 60) (perform "did:plc:bob" (Block "did:plc:carol")) quiet).
Definition bodies (viewerDID : string) (m : moderation.tables) : list string :=
  match fst (exec (handle nobody) (GetPage (mkService true) issue_uri viewerDID 100 EmptyString) (mkDb the_network m)) with
  | Ok p => map (fun v => issue.Comment_Body (issue.Comment_Record (Comment v))) (Comments p)
  | Err _ => []
  end.
Lemma moderation_applies_witness :
  moderation.blocks (Some "did:plc:bob") "did:plc:carol" blocked = true /\
  bodies "did:plc:bob" blocked = ["second"] /\
  bodies "did:plc:dave" blocked = ["first"; "second"; "third"].
Proof.
  assert (Hb : exec (moderation.handle 60) (perform "did:plc:bob" (Block "did:plc:carol")) quiet = (Ok tt, blocked)).
  { unfold blocked. rewrite (surjective_pairing (exec _ _ _)) at 1. by f_equal. }
  destruct (moderation_applies 60 "did:plc:bob" (Block "did:plc:carol") the_network quiet blocked Hb) as [He _].
  split_and!; [| by vm_compute..].
  destruct (He (Some "did:plc:bob") "did:plc:carol") as [-> _]. by rewrite bool_decide_eq_true_2.
Defined.
End comment_examples.
