(* ===== verification/Auth.v ===== *)
(** * Auth: credentials (package [internal/auth]).

    Personal access tokens, browser sessions and SSH keys: the services that issue
    and revoke them, the authenticators that resolve them, and the authorization of
    a Git push over HTTP.  [postgres] is the store they use, a query at a time.
    [SSH] stands for what the code calls of golang.org/x/crypto/ssh. *)

From S2P Require Import Prelude.
From S2P Require Import GoText.
From S2P Require Import Encoding.
From S2P Require Import Cursor.
From S2P Require Import CommitStatus.

Class SSH := {
  PublicKey : Type;
  (** The key of the first entry and the bytes after it. *)
  ParseAuthorizedKey : string -> result (PublicKey * list Z);
  IsCertificate : PublicKey -> bool;
  KeyType : PublicKey -> string;
  MarshalAuthorizedKey : PublicKey -> string;
  FingerprintSHA256 : PublicKey -> string
}.

Module auth.

Definition ErrUnauthorized : error := New "authentication required".
Definition ErrForbidden : error := New "permission denied".
Definition ErrNotFound : error := New "credential not found".
Definition ErrConflict : error := New "credential conflict".
Definition ErrValidation : error := New "credential validation failed".
(** [pgx.ErrNoRows], and the error of code 23505. *)
Definition ErrNoRows : error := commitstatus.ErrNoRows.
Definition unique_violation : error := New "duplicate key value violates unique constraint".

Definition ScopeRepositoryRead : string := "repository:read".
Definition ScopeRepositoryWrite : string := "repository:write".
Definition ScopeRepositoryStatus : string := "repository:status".
Definition tokenPrefix : string := "adn_pat_".

Record AccessToken := mkToken {
  Token_ID : UUID; Token_AccountDID : string; Token_Name : string; Prefix : string;
  Token_Hash : list Z; Scopes : list string; RepositoryID : option UUID; Token_CreatedAt : time;
  Token_ExpiresAt : option time; Token_LastUsedAt : option time; Token_RevokedAt : option time
}.
Record CreateTokenInput := mkTokenInput {
  T_AccountDID : string; T_Name : string; T_Scopes : list string; T_RepositoryID : option UUID;
  T_ExpiresAt : option time
}.
Record Session := mkSession {
  Session_ID : UUID; Session_AccountDID : string; Session_Hash : list Z; Session_CreatedAt : time;
  Session_ExpiresAt : time; LastSeenAt : option time; Session_RevokedAt : option time
}.
Record SessionIdentity := mkSessionIdentity { SessionID : UUID; SI_AccountDID : string }.
Record SSHKey := mkKey {
  Key_ID : UUID; Key_AccountDID : string; Key_Name : string; Algorithm : string; Public : string;
  Fingerprint : string; Key_CreatedAt : time; Key_LastUsedAt : option time;
  Key_RevokedAt : option time
}.
Record CreateSSHKeyInput := mkKeyInput { K_AccountDID : string; K_Name : string; AuthorizedKey : string }.
Record SSHIdentity := mkSSHIdentity { KeyID : UUID; SSH_AccountDID : string }.
Record Account := mkAccount { DID : string; Handle : option string }.

(** The queries, the clock, the generator of ids and [crypto/rand].  A row of
    [auth.access_tokens], [auth.sessions] or [auth.ssh_keys] is the record it is read
    into. *)
Inductive effect : Type -> Type :=
| Now : effect time
| NewV7 : effect (result UUID)
| rand_Read (n : nat) : effect (result (list Z))
| queries_UpsertAccount (did : string) (handle : option string) (now : time) : effect (result Account)
| queries_GetAccount (did : string) : effect (result Account)
| CreateAccessToken (row : AccessToken) : effect (result AccessToken)
| GetActiveAccessTokenByHash (hash : list Z) : effect (result AccessToken)
| TouchAccessToken (id : UUID) (usedAt : time) : effect (result unit)
| ListActiveAccessTokensByAccountDID (accountDID : string) (activeAt : time)
    : effect (result (list AccessToken))
| RevokeAccessToken (revokedAt : time) (id : UUID) (accountDID : string) : effect (result AccessToken)
| queries_CreateSSHKey (row : SSHKey) : effect (result SSHKey)
| queries_GetActiveSSHKeyByFingerprint (fingerprint : string) : effect (result SSHKey)
| queries_TouchSSHKey (id : UUID) (usedAt : time) : effect (result unit)
| ListActiveSSHKeysByAccountDID (accountDID : string) : effect (result (list SSHKey))
| queries_RevokeSSHKey (revokedAt : time) (id : UUID) (accountDID : string) : effect (result SSHKey)
| queries_CreateSession (row : Session) : effect (result Session)
| queries_RevokeSession (revokedAt : time) (id : UUID) (accountDID : string) : effect (result Session)
| queries_AuthenticateSession (seenAt : time) (hash : list Z) : effect (result Session)
| queries_CanWriteRepository (accountDID : string) (id : UUID) : effect (result bool)
| queries_CanAdminRepository (accountDID : string) (id : UUID) : effect (result bool)
| queries_CanTriageRepository (accountDID : string) (id : UUID) : effect (result bool)
| queries_CanReadRepository (accountDID : string) (id : UUID) : effect (result bool).

Definition wrapf (format : string) (err : error) : error := Errorf format [W err].
(** [fmt.Errorf("%w: %v", ErrValidation, err)]. *)
Definition invalid (problem : error) : error := Errorf "%w: %v" [W ErrValidation; V problem].
(** [errors.Is(err, pgx.ErrNoRows)] becomes [missing]. *)
Definition noRows (missing : error) (format : string) (err : error) : error :=
  if Is err ErrNoRows then missing else wrapf format err.
Definition contains (scopes : list string) (scope : string) : bool := existsb (String.eqb scope) scopes.

Definition withoutHash (token : AccessToken) : AccessToken :=
  mkToken (Token_ID token) (Token_AccountDID token) (Token_Name token) (Prefix token) [] (Scopes token)
    (RepositoryID token) (Token_CreatedAt token) (Token_ExpiresAt token) (Token_LastUsedAt token)
    (Token_RevokedAt token).

(** ** The store *)

Module postgres.

Definition optionalPGText (value : string) : option string :=
  if value == EmptyString then None else Some value.

Definition UpsertLogin (did verifiedHandle : string) (now : time) : svc effect Account :=
  let did := TrimSpace did in
  let verifiedHandle := TrimSpace verifiedHandle in
  if did == EmptyString then fail (Errorf "%w: account DID must not be empty" [W ErrValidation]) else
  wrapErr (wrapf "upsert login account: %w")
    (call (queries_UpsertAccount did (optionalPGText verifiedHandle) (UTC now))).
Definition GetAccount (did : string) : svc effect Account :=
  let did := TrimSpace did in
  if did == EmptyString then fail (Errorf "%w: account DID must not be empty" [W ErrValidation]) else
  wrapErr (noRows ErrNotFound "get account: %w") (call (queries_GetAccount did)).

Definition CreateToken (token : AccessToken) : svc effect AccessToken :=
  wrapErr (wrapf "create access token: %w") (call (CreateAccessToken token)).
Definition GetActiveTokenByHash (hash : list Z) : svc effect AccessToken :=
  wrapErr (noRows ErrUnauthorized "get access token: %w") (call (GetActiveAccessTokenByHash hash)).
Definition TouchToken (id : UUID) (usedAt : time) : svc effect unit :=
  wrapErr (wrapf "touch access token: %w") (call (TouchAccessToken id usedAt)).
(** The query does not select the hash ([tokenFromListRow]). *)
Definition ListTokens (accountDID : string) (activeAt : time) : svc effect (list AccessToken) :=
  let? rows := wrapErr (wrapf "list access tokens: %w")
                 (call (ListActiveAccessTokensByAccountDID accountDID activeAt)) in
  done_ (map withoutHash rows).
Definition RevokeToken (accountDID : string) (id : UUID) (revokedAt : time) : svc effect unit :=
  let? _ := wrapErr (noRows ErrNotFound "revoke access token: %w")
              (call (RevokeAccessToken revokedAt id accountDID)) in
  done_ tt.

Definition CreateSSHKey (key : SSHKey) : svc effect SSHKey :=
  wrapErr (fun err => if Is err unique_violation then ErrConflict else wrapf "create SSH key: %w" err)
    (call (queries_CreateSSHKey key)).
Definition GetActiveSSHKeyByFingerprint (fingerprint : string) : svc effect SSHKey :=
  wrapErr (noRows ErrUnauthorized "get SSH key: %w")
    (call (queries_GetActiveSSHKeyByFingerprint fingerprint)).
Definition TouchSSHKey (id : UUID) (usedAt : time) : svc effect unit :=
  wrapErr (wrapf "touch SSH key: %w") (call (queries_TouchSSHKey id usedAt)).
Definition ListSSHKeys (accountDID : string) : svc effect (list SSHKey) :=
  wrapErr (wrapf "list SSH keys: %w") (call (ListActiveSSHKeysByAccountDID accountDID)).
Definition RevokeSSHKey (accountDID : string) (id : UUID) (revokedAt : time) : svc effect unit :=
  let? _ := wrapErr (noRows ErrNotFound "revoke SSH key: %w")
              (call (queries_RevokeSSHKey revokedAt id accountDID)) in
  done_ tt.

Definition CreateSession (session : Session) : svc effect Session :=
  wrapErr (wrapf "create session: %w") (call (queries_CreateSession session)).
Definition RevokeSession (accountDID : string) (id : UUID) (revokedAt : time) : svc effect unit :=
  let? _ := wrapErr (noRows ErrNotFound "revoke session: %w")
              (call (queries_RevokeSession revokedAt id accountDID)) in
  done_ tt.
Definition AuthenticateSession (hash : list Z) (seenAt : time) : svc effect SessionIdentity :=
  let? row := wrapErr (noRows ErrUnauthorized "authenticate session: %w")
                (call (queries_AuthenticateSession seenAt hash)) in
  done_ (mkSessionIdentity (Session_ID row) (Session_AccountDID row)).

Definition CanWriteRepository (accountDID : string) (id : UUID) : svc effect bool :=
  wrapErr (wrapf "check repository write permission: %w") (call (queries_CanWriteRepository accountDID id)).
Definition CanAdminRepository (accountDID : string) (id : UUID) : svc effect bool :=
  wrapErr (wrapf "check repository admin permission: %w") (call (queries_CanAdminRepository accountDID id)).
Definition CanTriageRepository (accountDID : string) (id : UUID) : svc effect bool :=
  wrapErr (wrapf "check repository triage permission: %w") (call (queries_CanTriageRepository accountDID id)).
Definition CanReadRepository (accountDID : string) (id : UUID) : svc effect bool :=
  wrapErr (wrapf "check repository read permission: %w") (call (queries_CanReadRepository accountDID id)).
End postgres.

(** ** Generators and the clock *)

Definition now : prog effect time := let! t := call Now in Ret (UTC t).
(** [UUIDv7Generator]. *)
Definition newID : svc effect UUID := wrapErr (wrapf "generate UUIDv7: %w") (call NewV7).
(** 256 random bits: [RandomSecretGenerator], [RandomSessionSecretGenerator]. *)
Definition newSecret : svc effect string :=
  let? value := wrapErr (wrapf "read random bytes: %w") (call (rand_Read 32)) in
  done_ (tokenPrefix +:+ base64.EncodeToString value).
Definition newSessionSecret : svc effect string :=
  let? value := wrapErr (wrapf "read random bytes: %w") (call (rand_Read 32)) in
  done_ (base64.EncodeToString value).

(** ** Access tokens *)

Definition scopes : list string := [ScopeRepositoryRead; ScopeRepositoryWrite; ScopeRepositoryStatus].
(** The loop of [validate] over the scopes; [seen] are those before. *)
Fixpoint checkScopes (seen rest : list string) : result unit :=
  match rest with
  | [] => Ok tt
  | scope :: rest =>
      reject_if (scope != ScopeRepositoryRead) && (scope != ScopeRepositoryWrite)
                && (scope != ScopeRepositoryStatus) with Errorf "unsupported scope %q" [Str scope] ;;
      reject_if contains seen scope with Errorf "duplicate scope %q" [Str scope] ;;
      checkScopes (scope :: seen) rest
  end.
Definition validate (input : CreateTokenInput) (now : time) : result unit :=
  reject_if TrimSpace (T_AccountDID input) == EmptyString with New "account DID must not be empty" ;;
  reject_if (TrimSpace (T_Name input) == EmptyString) || (255 <? len (T_Name input))
    with New "name must contain between 1 and 255 characters" ;;
  reject_if bool_decide (T_Scopes input = []) with New "at least one scope is required" ;;
  let* _ := checkScopes [] (T_Scopes input) in
  reject_if contains (T_Scopes input) ScopeRepositoryStatus && negb (is_some (T_RepositoryID input))
    with New "repository:status scope requires a repository_id" ;;
  reject_if match T_ExpiresAt input with Some t => negb (After t now) | None => false end
    with New "expiry must be in the future" ;;
  Ok tt.

Definition CreateToken (input : CreateTokenInput) : svc effect (AccessToken * string) :=
  let input := mkTokenInput (TrimSpace (T_AccountDID input)) (TrimSpace (T_Name input))
                 (T_Scopes input) (T_RepositoryID input) (T_ExpiresAt input) in
  let! now := now in
  let? _ := wrapErr invalid (lift (validate input now)) in
  let? id := wrapErr (wrapf "generate access token ID: %w") newID in
  let? plaintext := wrapErr (wrapf "generate access token secret: %w") newSecret in
  let? token := wrapErr (wrapf "store access token: %w")
    (postgres.CreateToken (mkToken id (T_AccountDID input) (T_Name input)
       (String.substring 0 (Nat.min 16 (String.length plaintext)) plaintext) (Sum256 (bytes plaintext))
       (T_Scopes input) (T_RepositoryID input) now (T_ExpiresAt input) None None)) in
  done_ (token, plaintext).
Definition ListTokens (accountDID : string) : svc effect (list AccessToken) :=
  let! now := now in
  let? tokens := wrapErr (wrapf "list access tokens: %w")
                   (postgres.ListTokens (TrimSpace accountDID) now) in
  done_ (map withoutHash tokens).
Definition RevokeToken (accountDID : string) (id : UUID) : svc effect unit :=
  let! now := now in
  wrapErr (wrapf "revoke access token: %w") (postgres.RevokeToken (TrimSpace accountDID) id now).

(** [errors.Is(err, ErrUnauthorized)] is returned bare. *)
Definition unauthorized (format : string) (err : error) : error :=
  if Is err ErrUnauthorized then ErrUnauthorized else wrapf format err.
(** [TokenAuthenticator.Authenticate]. *)
Definition AuthenticateToken (plaintext : string) : svc effect AccessToken :=
  if plaintext == EmptyString then fail ErrUnauthorized else
  let? token := wrapErr (unauthorized "authenticate access token: %w")
                  (postgres.GetActiveTokenByHash (Sum256 (bytes plaintext))) in
  let! now := now in
  let? _ := wrapErr (wrapf "record access token use: %w") (postgres.TouchToken (Token_ID token) now) in
  done_ token.

(** [GitAuthorizer.AuthorizeWrite]; [password] is that of [request.BasicAuth()]. *)
Definition AuthorizeWrite (password : option string) (repoID : UUID) : svc effect unit :=
  match password with
  | None => fail ErrUnauthorized
  | Some plaintext =>
      if plaintext == EmptyString then fail ErrUnauthorized else
      let? token := wrapErr (wrapf "authenticate Git token: %w")
                      (postgres.GetActiveTokenByHash (Sum256 (bytes plaintext))) in
      if negb (contains (Scopes token) ScopeRepositoryWrite) then fail ErrForbidden else
      if match RepositoryID token with Some id => negb (id =? repoID) | None => false end
      then fail ErrForbidden else
      let? allowed := wrapErr (wrapf "authorize repository write: %w")
                        (postgres.CanWriteRepository (Token_AccountDID token) repoID) in
      if negb allowed then fail ErrForbidden else
      let! now := now in
      wrapErr (wrapf "record token use: %w") (postgres.TouchToken (Token_ID token) now)
  end.
(** [DenyWrites.AuthorizeWrite]. *)
Definition DenyWrites (password : option string) (repoID : UUID) : svc effect unit :=
  fail ErrUnauthorized.

(** ** Sessions *)

Definition CreateSession (lifetime : Z) (accountDID : string) : svc effect (Session * string) :=
  let accountDID := TrimSpace accountDID in
  if accountDID == EmptyString
  then fail (Errorf "%w: account DID must not be empty" [W ErrValidation]) else
  if lifetime <=? 0 then fail (Errorf "%w: session lifetime must be positive" [W ErrValidation]) else
  let? id := wrapErr (wrapf "generate session ID: %w") newID in
  let? plaintext := wrapErr (wrapf "generate session secret: %w") newSessionSecret in
  let! now := now in
  let? session := wrapErr (wrapf "store session: %w")
    (postgres.CreateSession (mkSession id accountDID (Sum256 (bytes plaintext)) now (now + lifetime)
       None None)) in
  done_ (session, plaintext).
Definition RevokeSession (accountDID : string) (sessionID : UUID) : svc effect unit :=
  let accountDID := TrimSpace accountDID in
  if accountDID == EmptyString
  then fail (Errorf "%w: account DID must not be empty" [W ErrValidation]) else
  let! now := now in
  wrapErr (wrapf "revoke session: %w") (postgres.RevokeSession accountDID sessionID now).
(** [SessionAuthenticator.Authenticate]. *)
Definition AuthenticateSession (plaintext : string) : svc effect SessionIdentity :=
  if plaintext == EmptyString then fail ErrUnauthorized else
  let! now := now in
  wrapErr (unauthorized "authenticate session: %w")
    (postgres.AuthenticateSession (Sum256 (bytes plaintext)) now).

(** ** SSH keys *)

Section ssh.
Context `{SSH}.

Definition validateSSHKey (input : CreateSSHKeyInput) : result unit :=
  reject_if TrimSpace (K_AccountDID input) == EmptyString with New "account DID must not be empty" ;;
  reject_if (TrimSpace (K_Name input) == EmptyString) || (255 <? len (K_Name input))
    with New "name must contain between 1 and 255 characters" ;;
  reject_if TrimSpace (AuthorizedKey input) == EmptyString with New "authorized key must not be empty" ;;
  Ok tt.

(** The text a key is stored and compared as. *)
Definition canonical (key : PublicKey) : string := TrimSpace (MarshalAuthorizedKey key).
Definition parseUserPublicKey (line : string) : result (PublicKey * string) :=
  let* (publicKey, rest) := mapErr (wrapf "invalid authorized-key line: %w") (ParseAuthorizedKey line) in
  reject_if negb (bool_decide (TrimRightSpace (TrimLeftSpace rest) = []))
    with New "authorized-key input must contain exactly one key" ;;
  reject_if IsCertificate publicKey with New "SSH certificates are not supported" ;;
  reject_if KeyType publicKey == "ssh-dss" with New "legacy DSA keys are not supported" ;;
  Ok (publicKey, canonical publicKey).

Definition CreateSSHKey (input : CreateSSHKeyInput) : svc effect SSHKey :=
  let input := mkKeyInput (TrimSpace (K_AccountDID input)) (TrimSpace (K_Name input))
                 (TrimSpace (AuthorizedKey input)) in
  let? _ := wrapErr invalid (lift (validateSSHKey input)) in
  let? (publicKey, canonical) := wrapErr invalid (lift (parseUserPublicKey (AuthorizedKey input))) in
  let? id := wrapErr (wrapf "generate SSH key ID: %w") newID in
  let! now := now in
  wrapErr (wrapf "store SSH key: %w")
    (postgres.CreateSSHKey (mkKey id (K_AccountDID input) (K_Name input) (KeyType publicKey) canonical
       (FingerprintSHA256 publicKey) now None None)).
Definition ListSSHKeys (accountDID : string) : svc effect (list SSHKey) :=
  wrapErr (wrapf "list SSH keys: %w") (postgres.ListSSHKeys (TrimSpace accountDID)).
Definition RevokeSSHKey (accountDID : string) (id : UUID) : svc effect unit :=
  let! now := now in
  wrapErr (wrapf "revoke SSH key: %w") (postgres.RevokeSSHKey (TrimSpace accountDID) id now).

Definition Lookup (presented : option PublicKey) : svc effect SSHIdentity :=
  match presented with
  | None => fail ErrUnauthorized
  | Some presented =>
      let? key := wrapErr (unauthorized "get SSH key credential: %w")
                    (postgres.GetActiveSSHKeyByFingerprint (FingerprintSHA256 presented)) in
      if Public key != canonical presented then fail ErrUnauthorized else
      done_ (mkSSHIdentity (Key_ID key) (Key_AccountDID key))
  end.
Definition RecordUse (keyID : UUID) : svc effect unit :=
  let! now := now in
  wrapErr (wrapf "record SSH key use: %w") (postgres.TouchSSHKey keyID now).
(** [SSHKeyAuthenticator.Authenticate]. *)
Definition AuthenticateKey (presented : option PublicKey) : svc effect string :=
  let? identity := Lookup presented in
  let? _ := RecordUse (KeyID identity) in
  done_ (SSH_AccountDID identity).
End ssh.
End auth.
