(* ===== verification/AuthStore.v ===== *)
(** * AuthStore: accounts, credentials and owner routes as tables.

    The queries of access_tokens.sql, ssh_keys.sql, sessions.sql and accounts.sql over
    [auth.access_tokens], [auth.ssh_keys], [auth.sessions], [core.accounts] and
    [core.owner_routes], with their constraints, beside the tables the permission
    queries read; and what the services do to them. *)

From S2P Require Import Prelude.
From S2P Require Import Keyset.
From S2P Require Import GoText.
From S2P Require Import Encoding.
From S2P Require Import Cursor.
From S2P Require Import CommitStatus.
From S2P Require Import Repository.
From S2P Require Import RepositoryStore.
From S2P Require Import TransferStore.
From S2P Require Import Organization.
From S2P Require Import OrganizationStore.
From S2P Require Import Access.
From S2P Require Import Auth.

Module authstore.
Import auth.

(** [core_] holds the tables shared with the organizations, [account_created] the
    [created_at] of the accounts; [clock] is the program's clock, [db_clock] what
    [now()] is in a query, [random] what each read of [crypto/rand] gives. *)
Record db := mkDb {
  core_ : orgstore.db; account_created : gmap string time; tokens : list AccessToken; sessions : list Session; keys : list SSHKey;
  fresh : UUID; random : list (list Z); clock : time; db_clock : time
}.
Definition with_accounts (c : orgstore.db) (created : gmap string time) (s : db) : db :=
  mkDb c created (tokens s) (sessions s) (keys s) (fresh s) (random s) (clock s) (db_clock s).
Definition with_tokens (rows : list AccessToken) (s : db) : db :=
  mkDb (core_ s) (account_created s) rows (sessions s) (keys s) (fresh s) (random s) (clock s) (db_clock s).
Definition with_sessions (rows : list Session) (s : db) : db :=
  mkDb (core_ s) (account_created s) (tokens s) rows (keys s) (fresh s) (random s) (clock s) (db_clock s).
Definition with_keys (rows : list SSHKey) (s : db) : db :=
  mkDb (core_ s) (account_created s) (tokens s) (sessions s) rows (fresh s) (random s) (clock s) (db_clock s).
Definition with_fresh (id : UUID) (s : db) : db :=
  mkDb (core_ s) (account_created s) (tokens s) (sessions s) (keys s) id (random s) (clock s) (db_clock s).
Definition with_random (values : list (list Z)) (s : db) : db :=
  mkDb (core_ s) (account_created s) (tokens s) (sessions s) (keys s) (fresh s) values (clock s) (db_clock s).

Definition foreign_key : error := New "insert or update violates foreign key constraint".
Definition check_violation : error := New "new row violates check constraint".
Definition no_entropy : error := New "no entropy".

(** ** Rows *)

Definition is_null {A} (value : option A) : bool := negb (is_some value).
(** [expires_at IS NULL OR expires_at > at]. *)
Definition unexpired (expiresAt : option time) (at_ : time) : bool :=
  match expiresAt with None => true | Some t => at_ <? t end.
Definition same_hash (hash hash' : list Z) : bool := bool_decide (hash = hash').

Definition active_token (hash : list Z) (at_ : time) (t : AccessToken) : bool :=
  same_hash (Token_Hash t) hash && is_null (Token_RevokedAt t) && unexpired (Token_ExpiresAt t) at_.
Definition listed_token (did : string) (at_ : time) (t : AccessToken) : bool :=
  (Token_AccountDID t == did) && is_null (Token_RevokedAt t) && unexpired (Token_ExpiresAt t) at_.
Definition own_token (id : UUID) (did : string) (t : AccessToken) : bool :=
  (Token_ID t =? id) && (Token_AccountDID t == did) && is_null (Token_RevokedAt t).
Definition token_key (t : AccessToken) : time * UUID := (Token_CreatedAt t, Token_ID t).
Definition touch_token (usedAt : time) (t : AccessToken) : AccessToken :=
  mkToken (Token_ID t) (Token_AccountDID t) (Token_Name t) (Prefix t) (Token_Hash t) (Scopes t)
    (RepositoryID t) (Token_CreatedAt t) (Token_ExpiresAt t) (Some usedAt) (Token_RevokedAt t).
Definition revoke_token (revokedAt : time) (t : AccessToken) : AccessToken :=
  mkToken (Token_ID t) (Token_AccountDID t) (Token_Name t) (Prefix t) (Token_Hash t) (Scopes t)
    (RepositoryID t) (Token_CreatedAt t) (Token_ExpiresAt t) (Token_LastUsedAt t) (Some revokedAt).

Definition active_key (fingerprint : string) (k : SSHKey) : bool :=
  (Fingerprint k == fingerprint) && is_null (Key_RevokedAt k).
Definition own_key (id : UUID) (did : string) (k : SSHKey) : bool :=
  (Key_ID k =? id) && (Key_AccountDID k == did) && is_null (Key_RevokedAt k).
Definition key_key (k : SSHKey) : time * UUID := (Key_CreatedAt k, Key_ID k).
Definition touch_key (usedAt : time) (k : SSHKey) : SSHKey :=
  mkKey (Key_ID k) (Key_AccountDID k) (Key_Name k) (Algorithm k) (Public k) (Fingerprint k)
    (Key_CreatedAt k) (Some usedAt) (Key_RevokedAt k).
Definition revoke_key (revokedAt : time) (k : SSHKey) : SSHKey :=
  mkKey (Key_ID k) (Key_AccountDID k) (Key_Name k) (Algorithm k) (Public k) (Fingerprint k)
    (Key_CreatedAt k) (Key_LastUsedAt k) (Some revokedAt).

Definition active_session (hash : list Z) (seenAt : time) (x : Session) : bool :=
  same_hash (Session_Hash x) hash && is_null (Session_RevokedAt x) && (seenAt <? Session_ExpiresAt x).
Definition own_session (id : UUID) (did : string) (revokedAt : time) (x : Session) : bool :=
  (Session_ID x =? id) && (Session_AccountDID x == did) && is_null (Session_RevokedAt x)
  && (revokedAt <? Session_ExpiresAt x).
Definition see_session (seenAt : time) (x : Session) : Session :=
  mkSession (Session_ID x) (Session_AccountDID x) (Session_Hash x) (Session_CreatedAt x)
    (Session_ExpiresAt x) (Some seenAt) (Session_RevokedAt x).
Definition revoke_session (revokedAt : time) (x : Session) : Session :=
  mkSession (Session_ID x) (Session_AccountDID x) (Session_Hash x) (Session_CreatedAt x)
    (Session_ExpiresAt x) (LastSeenAt x) (Some revokedAt).

(** [UPDATE ... WHERE hit RETURNING *]. *)
Definition returning {R} (hit : R -> bool) (update : R -> R) (rows : list R) : result R * list R :=
  match find_row ErrNoRows hit rows with
  | Err e => (Err e, rows)
  | Ok row => (Ok (update row), update_where hit update rows)
  end.

(** ** Accounts and owner routes *)

Section handle.
Context (lower : string -> string).

Definition same_alias (alias : string) (route : transferstore.Route) : bool :=
  transferstore.route_alias route == alias.
Definition of_account (did : string) (route : transferstore.Route) : bool :=
  bool_decide (transferstore.route_account route = Some did).
(** [lower(route.alias) IS DISTINCT FROM lower(account.handle_cache)]. *)
Definition distinct_alias (handle : option string) (route : transferstore.Route) : bool :=
  match handle with
  | None => true
  | Some handle => lower (transferstore.route_alias route) != lower handle
  end.
Definition stale_route (did : string) (handle : option string) (route : transferstore.Route) : bool :=
  of_account did route && distinct_alias handle route.
(** [ON CONFLICT (alias) DO UPDATE SET account_did = ... WHERE kind = 'account']. *)
Definition reroute (did : string) (route : transferstore.Route) : transferstore.Route :=
  match transferstore.route_account route with
  | Some _ => transferstore.mkRoute (transferstore.route_alias route) (Some did)
                (transferstore.route_organization route) (transferstore.route_created route)
  | None => route
  end.
Definition current_route (did : string) (handle : option string) (createdAt : time)
    (routes : list transferstore.Route) : option (list transferstore.Route) :=
  match handle with
  | None => Some routes
  | Some handle =>
      if handle == EmptyString then Some routes else
      let alias := lower handle in
      if negb (orgstore.route_checks alias) then None else
      if existsb (same_alias alias) routes
      then Some (update_where (same_alias alias) (reroute did) routes)
      else Some (routes ++ [transferstore.mkRoute alias (Some did) None createdAt])
  end.
Definition set_accounts (accounts : gmap string (option string)) (routes : list transferstore.Route)
    (s : orgstore.db) : orgstore.db :=
  orgstore.mkDb accounts (orgstore.organizations s) (orgstore.members s) (orgstore.invitations s)
    (orgstore.teams s) (orgstore.teamMembers s) (orgstore.teamRepositories s) (orgstore.repositories s)
    (orgstore.collaborators s) routes (orgstore.audits s) (orgstore.fresh s) (orgstore.clock s).
(** The account, and its handle as the one route to it. *)
Definition upsertAccount (did : string) (handle : option string) (now : time) (s : db)
    : result Account * db :=
  let c := core_ s in
  let createdAt := default now (account_created s !! did) in
  if len did <=? 0 then (Err check_violation, s) else
  match current_route did handle createdAt
          (List.filter (fun route => negb (stale_route did handle route)) (orgstore.routes c)) with
  | None => (Err check_violation, s)
  | Some routes =>
      (Ok (mkAccount did handle),
       with_accounts (set_accounts (<[did := handle]> (orgstore.accounts c)) routes c)
         (<[did := createdAt]> (account_created s)) s)
  end.

(** ** The queries *)

Definition has_account (s : db) (did : string) : bool := orgstore.has_account (core_ s) did.
Definition has_repository (s : db) (id : UUID) : bool :=
  existsb (store.has_id id) (orgstore.repositories (core_ s)).

Definition createAccessToken (row : AccessToken) (s : db) : result AccessToken * db :=
  if existsb (fun t => (Token_ID t =? Token_ID row) || same_hash (Token_Hash t) (Token_Hash row)) (tokens s)
  then (Err unique_violation, s) else
  if negb (has_account s (Token_AccountDID row))
     || match RepositoryID row with Some id => negb (has_repository s id) | None => false end
  then (Err foreign_key, s) else
  (Ok row, with_tokens (tokens s ++ [row]) s).
Definition createSSHKey (row : SSHKey) (s : db) : result SSHKey * db :=
  if existsb (fun k => (Key_ID k =? Key_ID row) || (Fingerprint k == Fingerprint row)) (keys s)
  then (Err unique_violation, s) else
  if negb (has_account s (Key_AccountDID row)) then (Err foreign_key, s) else
  (Ok row, with_keys (keys s ++ [row]) s).
Definition createSession (row : Session) (s : db) : result Session * db :=
  if existsb (fun x => (Session_ID x =? Session_ID row) || same_hash (Session_Hash x) (Session_Hash row))
       (sessions s)
  then (Err unique_violation, s) else
  if negb (has_account s (Session_AccountDID row)) then (Err foreign_key, s) else
  (Ok row, with_sessions (sessions s ++ [row]) s).

Definition getAccount (did : string) (s : db) : result Account * db :=
  (match orgstore.accounts (core_ s) !! did with
   | Some handle => Ok (mkAccount did handle)
   | None => Err ErrNoRows
   end, s).
Definition getActiveAccessTokenByHash (hash : list Z) (s : db) : result AccessToken * db :=
  (find_row ErrNoRows (active_token hash (db_clock s)) (tokens s), s).
Definition touchAccessToken (id : UUID) (usedAt : time) (s : db) : result unit * db :=
  (Ok tt, with_tokens (update_where (fun t => Token_ID t =? id) (touch_token usedAt) (tokens s)) s).
Definition listActiveAccessTokensByAccountDID (did : string) (activeAt : time) (s : db)
    : result (list AccessToken) * db :=
  (Ok (keyset.listing token_key (listed_token did activeAt) (tokens s)), s).
Definition revokeAccessToken (revokedAt : time) (id : UUID) (did : string) (s : db)
    : result AccessToken * db :=
  let '(r, rows) := returning (own_token id did) (revoke_token revokedAt) (tokens s) in
  (r, with_tokens rows s).
Definition getActiveSSHKeyByFingerprint (fingerprint : string) (s : db) : result SSHKey * db :=
  (find_row ErrNoRows (active_key fingerprint) (keys s), s).
Definition touchSSHKey (id : UUID) (usedAt : time) (s : db) : result unit * db :=
  (Ok tt, with_keys (update_where (fun k => Key_ID k =? id) (touch_key usedAt) (keys s)) s).
Definition listActiveSSHKeysByAccountDID (did : string) (s : db) : result (list SSHKey) * db :=
  (Ok (keyset.listing key_key (fun k => (Key_AccountDID k == did) && is_null (Key_RevokedAt k)) (keys s)), s).
Definition revokeSSHKey (revokedAt : time) (id : UUID) (did : string) (s : db) : result SSHKey * db :=
  let '(r, rows) := returning (own_key id did) (revoke_key revokedAt) (keys s) in
  (r, with_keys rows s).
Definition revokeSession (revokedAt : time) (id : UUID) (did : string) (s : db) : result Session * db :=
  let '(r, rows) := returning (own_session id did revokedAt) (revoke_session revokedAt) (sessions s) in
  (r, with_sessions rows s).
Definition authenticateSession (seenAt : time) (hash : list Z) (s : db) : result Session * db :=
  let '(r, rows) := returning (active_session hash seenAt) (see_session seenAt) (sessions s) in
  (r, with_sessions rows s).
Definition random_read (n : nat) (s : db) : result (list Z) * db :=
  match random s with
  | value :: rest =>
      (if (length value =? n)%nat && forallb (fun b => between 0 b 255) value
       then Ok value else Err no_entropy, with_random rest s)
  | [] => (Err no_entropy, s)
  end.

Definition handle X (e : effect X) (s : db) : X * db :=
  match e in effect X return X * db with
  | Now => (clock s, s)
  | NewV7 => (Ok (fresh s), with_fresh (fresh s + 1) s)
  | rand_Read n => random_read n s
  | queries_UpsertAccount did handle now => upsertAccount did handle now s
  | queries_GetAccount did => getAccount did s
  | CreateAccessToken row => createAccessToken row s
  | GetActiveAccessTokenByHash hash => getActiveAccessTokenByHash hash s
  | TouchAccessToken id usedAt => touchAccessToken id usedAt s
  | ListActiveAccessTokensByAccountDID did activeAt => listActiveAccessTokensByAccountDID did activeAt s
  | RevokeAccessToken revokedAt id did => revokeAccessToken revokedAt id did s
  | queries_CreateSSHKey row => createSSHKey row s
  | queries_GetActiveSSHKeyByFingerprint fingerprint => getActiveSSHKeyByFingerprint fingerprint s
  | queries_TouchSSHKey id usedAt => touchSSHKey id usedAt s
  | ListActiveSSHKeysByAccountDID did => listActiveSSHKeysByAccountDID did s
  | queries_RevokeSSHKey revokedAt id did => revokeSSHKey revokedAt id did s
  | queries_CreateSession row => createSession row s
  | queries_RevokeSession revokedAt id did => revokeSession revokedAt id did s
  | queries_AuthenticateSession seenAt hash => authenticateSession seenAt hash s
  | queries_CanWriteRepository did id => (Ok (orgstore.canWriteRepository (core_ s) id did), s)
  | queries_CanAdminRepository did id => (Ok (orgstore.canAdminRepository (core_ s) id did), s)
  | queries_CanTriageRepository did id => (Ok (orgstore.canTriageRepository (core_ s) id did), s)
  | queries_CanReadRepository did id => (Ok (orgstore.canReadRepository (core_ s) id did), s)
  end.
End handle.
Create HintDb auth_queries.
#[export] Hint Unfold getAccount createAccessToken getActiveAccessTokenByHash touchAccessToken
  listActiveAccessTokensByAccountDID revokeAccessToken createSSHKey getActiveSSHKeyByFingerprint touchSSHKey
  listActiveSSHKeysByAccountDID revokeSSHKey createSession revokeSession authenticateSession random_read
  : auth_queries.
(** What a query answers. *)
Ltac answer := cbn [authstore.handle]; autounfold with auth_queries.

(** ** Credentials *)

(** A table of credentials: rows with an id and a secret of their own, whose other
    columns never change, but for when they were last used and revoked. *)
Class Credential (R : Type) := {
  Secret : Type; Columns : Type;
  row_id : R -> UUID; secret : R -> Secret; fixed : R -> Columns; revoked : R -> option time;
  well_formed : R -> Prop;
  fixed_row r r' : fixed r' = fixed r ->
    row_id r' = row_id r /\ secret r' = secret r /\ (well_formed r -> well_formed r')
}.

Section Table.
Context `{Credential R}.

Record credentials (rows : list R) : Prop := {
  ids_unique : NoDup (map row_id rows); secrets_unique : NoDup (map secret rows);
  all_well_formed : Forall well_formed rows
}.
Definition after (r r' : R) : Prop :=
  fixed r' = fixed r /\ (is_null (revoked r) = false -> revoked r' = revoked r).
Definition grown (rows rows' : list R) : Prop :=
  exists kept more, rows' = kept ++ more /\ Forall2 after rows kept.
Definition table_step (rows rows' : list R) : Prop := credentials rows' /\ grown rows rows'.

#[export] Instance after_preorder : PreOrder after.
Proof.
  split; [by intros r |]. intros r r' r'' [Hf Hr] [Hf' Hr']. split; [congruence |].
  intros Hn. rewrite Hr'; [auto |]. by rewrite Hr.
Qed.
#[export] Instance grown_preorder : PreOrder grown.
Proof.
  split.
  - intros rows. exists rows, []. split; [by rewrite app_nil_r |]. by apply Forall_Forall2_diag, Forall_true.
  - intros rows rows' rows'' (k & m & -> & Hk) (k' & m' & -> & Hk').
    apply Forall2_app_inv_l in Hk' as (k1 & k2 & Hk1 & _ & ->).
    exists k1, (k2 ++ m'). split; [by rewrite app_assoc |].
    eapply Forall2_comp; [| exact Hk | exact Hk1]. by intros ? ? ? ->.
Qed.

Lemma table_same rows : credentials rows -> table_step rows rows.
Proof. intros Hc. split; [done | reflexivity]. Qed.
Lemma table_trans rows rows' rows'' :
  (credentials rows -> table_step rows rows') -> (credentials rows' -> table_step rows' rows'') ->
  credentials rows -> table_step rows rows''.
Proof. intros H1 H2 Hc. destruct (H1 Hc) as [Hc' Hg]. destruct (H2 Hc') as [Hc'' Hg']. split; [done | by etrans]. Qed.

Lemma table_append rows row :
  (forall r, r ∈ rows -> row_id r <> row_id row /\ secret r <> secret row) -> well_formed row ->
  credentials rows -> table_step rows (rows ++ [row]).
Proof.
  intros Hnew Hw [Hi Hs Hf]. split.
  - split; rewrite ?map_app; cbn.
    + apply NoDup_app. split_and!; [done | | apply NoDup_singleton].
      intros id Hin. rewrite list_elem_of_singleton.
      apply list_elem_of_fmap in Hin as (r & -> & Hr%Hnew). tauto.
    + apply NoDup_app. split_and!; [done | | apply NoDup_singleton].
      intros k Hin. rewrite list_elem_of_singleton.
      apply list_elem_of_fmap in Hin as (r & -> & Hr%Hnew). tauto.
    + apply Forall_app. auto.
  - exists rows, [row]. split; [done |]. by apply Forall_Forall2_diag, Forall_true.
Qed.

Lemma table_update rows hit update :
  (forall r, hit r = true -> after r (update r)) -> credentials rows ->
  table_step rows (update_where hit update rows).
Proof.
  intros Hu [Hi Hs Hf].
  assert (Ha : Forall2 after rows (update_where hit update rows))
    by (apply update_where_Forall2; [auto | reflexivity]).
  split; [| by exists (update_where hit update rows), []; rewrite app_nil_r].
  split.
  - rewrite (Forall2_map_eq after row_id rows); [done | | done]. intros x y [Hx _]. by apply fixed_row.
  - rewrite (Forall2_map_eq after secret rows); [done | | done]. intros x y [Hx _].
    by apply (fixed_row x y Hx).
  - rewrite Forall_forall in *. intros y Hy.
    apply update_where_elem in Hy as (r & Hr & ->). specialize (Hf r Hr).
    destruct (hit r) eqn:E; [| done]. destruct (Hu r E) as [Hx _]. by apply (fixed_row _ _ Hx).
Qed.

Lemma table_returning rows hit update r rows' :
  (forall r, hit r = true -> after r (update r)) ->
  returning hit update rows = (r, rows') -> credentials rows -> table_step rows rows'.
Proof.
  unfold returning. intros Hu. destruct (find_row _ _ _); intros [= <- <-];
    [by apply table_update | apply table_same].
Qed.

(** What was revoked stays revoked, under whatever secret it has. *)
Lemma revoked_stays rows rows' r r' :
  grown rows rows' -> credentials rows' -> r ∈ rows -> is_null (revoked r) = false ->
  r' ∈ rows' -> secret r' = secret r -> is_null (revoked r') = false.
Proof.
  intros (kept & more & -> & Hk) Hc Hr Hn Hr' Hs.
  destruct (Forall2_exists_l _ _ _ _ Hk Hr) as (k & Hin & Hf & Hrev).
  enough (k = r') as <- by (by rewrite Hrev).
  apply (NoDup_map_inj secret (kept ++ more)); [apply Hc | set_solver | done |].
  rewrite Hs. by apply fixed_row.
Qed.
End Table.

Arguments credentials {R} & {H} rows.
Arguments grown {R} & {H} rows rows'.

Definition valid_name (name : string) : Prop := 1 <= len name <= 255.
(** What [validate] lets through. *)
Record token_ok (t : AccessToken) : Prop := {
  token_owned : Token_AccountDID t <> EmptyString;
  token_named : valid_name (Token_Name t);
  token_scopes : Scopes t <> [] /\ NoDup (Scopes t) /\ Scopes t ⊆ scopes;
  token_reports : ScopeRepositoryStatus ∈ Scopes t -> RepositoryID t <> None;
  token_expires : forall at_, Token_ExpiresAt t = Some at_ -> Token_CreatedAt t < at_
}.
Record session_ok (x : Session) : Prop := {
  session_owned : Session_AccountDID x <> EmptyString;
  session_expires : Session_CreatedAt x < Session_ExpiresAt x
}.
Record key_ok (k : SSHKey) : Prop := {
  key_owned : Key_AccountDID k <> EmptyString; key_named : valid_name (Key_Name k);
  key_modern : Algorithm k <> "ssh-dss"
}.

#[export, refine] Instance token_credential : Credential AccessToken := {|
  Secret := list Z;
  row_id := Token_ID; secret := Token_Hash; revoked := Token_RevokedAt; well_formed := token_ok;
  fixed t := (Token_ID t, Token_AccountDID t, Token_Name t, Prefix t, Token_Hash t, Scopes t,
              RepositoryID t, Token_CreatedAt t, Token_ExpiresAt t)
|}.
Proof. intros [] []; cbn; intros [= -> -> -> -> -> -> -> -> ->]. split_and!; [done.. |]. intros []. by split. Defined.
#[export, refine] Instance session_credential : Credential Session := {|
  Secret := list Z;
  row_id := Session_ID; secret := Session_Hash; revoked := Session_RevokedAt; well_formed := session_ok;
  fixed x := (Session_ID x, Session_AccountDID x, Session_Hash x, Session_CreatedAt x, Session_ExpiresAt x)
|}.
Proof. intros [] []; cbn; intros [= -> -> -> -> ->]. split_and!; [done.. |]. intros []. by split. Defined.
#[export, refine] Instance key_credential : Credential SSHKey := {|
  Secret := string;
  row_id := Key_ID; secret := Fingerprint; revoked := Key_RevokedAt; well_formed := key_ok;
  fixed k := (Key_ID k, Key_AccountDID k, Key_Name k, Algorithm k, Public k, Fingerprint k, Key_CreatedAt k)
|}.
Proof. intros [] []; cbn; intros [= -> -> -> -> -> -> ->]. split_and!; [done.. |]. intros []. by split. Defined.

Record invariant (s : db) : Prop := {
  tokens_ok : credentials (tokens s); sessions_ok : credentials (sessions s); keys_ok : credentials (keys s)
}.
Definition progress (s s' : db) : Prop :=
  grown (tokens s) (tokens s') /\ grown (sessions s) (sessions s') /\ grown (keys s) (keys s').

(** What the services insert. *)
Definition insertable X (e : effect X) : Prop :=
  match e with
  | CreateAccessToken row => token_ok row
  | queries_CreateSession row => session_ok row
  | queries_CreateSSHKey row => key_ok row
  | _ => True
  end.

Lemma TrimSpace_empty s : (TrimSpace s == EmptyString) = false -> s <> EmptyString.
Proof. by intros Hs ->. Qed.
Lemma nonempty_len s : s <> EmptyString -> 1 <= len s.
Proof. destruct s; [done |]. intros _. unfold len. cbn. lia. Qed.
Lemma valid_name_iff name :
  (TrimSpace name == EmptyString) || (255 <? len name) = false -> valid_name name.
Proof. intros [Hn%TrimSpace_empty%nonempty_len Hl%Z.ltb_ge]%orb_false_iff. by split. Qed.

Lemma contains_iff l x : contains l x = true <-> x ∈ l.
Proof.
  unfold contains. rewrite existsb_exists. setoid_rewrite String.eqb_eq.
  setoid_rewrite <- list_elem_of_In. naive_solver.
Qed.
Lemma contains_false l x : contains l x = false <-> x ∉ l.
Proof. rewrite <- contains_iff. by destruct (contains l x). Qed.

Lemma checkScopes_Ok rest : forall seen, checkScopes seen rest = Ok tt <->
  NoDup rest /\ rest ⊆ scopes /\ forall x, x ∈ rest -> x ∉ seen.
Proof.
  induction rest as [| x rest IH]; intros seen; cbn [checkScopes].
  { split; [| done]. intros _. split_and!; [constructor | set_solver..]. }
  rewrite !reject_Ok, contains_false, IH, NoDup_cons.
  assert (Hx : (x != ScopeRepositoryRead) && (x != ScopeRepositoryWrite) && (x != ScopeRepositoryStatus)
               = false <-> x ∈ scopes).
  { unfold scopes. rewrite !andb_false_iff, !negb_false_iff, !String.eqb_eq. set_solver. }
  rewrite Hx. set_solver.
Qed.


(** A validated part of a service. *)
Lemma every_lift {E A B} (P : forall X, E X -> Prop) wrap (r : result A) (f : A -> svc E B) :
  (forall a, r = Ok a -> every P (f a)) -> every P (svc_bind (wrapErr wrap (lift r)) f).
Proof. intros Hf. destruct r; cbn; auto. Qed.
Lemma every_wrap {E A} (P : forall X, E X -> Prop) wrap (p : svc E A) :
  every P p -> every P (wrapErr wrap p).
Proof. intros Hp. by apply every_bind. Qed.
Create HintDb every.
#[export] Hint Resolve every_wrap every_ret I : every.

(** Every effect of a part of a service, unless it inserts. *)
Ltac head_of t := lazymatch t with ?f _ => head_of f | ?f => f end.
Ltac walk :=
  repeat lazymatch goal with
  | |- forall _, _ => intros ?
  | |- every _ (Ret _) => exact I
  | |- every _ (Vis _ _) => split; [exact I | intros ?]
  | |- every _ (wrapErr _ _) => apply every_wrap
  | |- every _ (svc_bind _ _) => apply every_then
  | |- every _ (prog_bind _ _) => apply every_bind
  | |- every _ (match _ with _ => _ end) => case_match
  | |- every _ (let _ := _ in _) => cbv zeta
  | |- every _ ?p => let h := head_of p in unfold h
  end.

Lemma validate_Ok input at_ : validate input at_ = Ok tt ->
  T_AccountDID input <> EmptyString /\ valid_name (T_Name input) /\ T_Scopes input <> [] /\
  NoDup (T_Scopes input) /\ T_Scopes input ⊆ scopes /\
  (ScopeRepositoryStatus ∈ T_Scopes input -> T_RepositoryID input <> None) /\
  forall t, T_ExpiresAt input = Some t -> at_ < t.
Proof.
  unfold validate. rewrite !reject_Ok. intros (Hd%TrimSpace_empty & Hn%valid_name_iff & Hs & Hv).
  apply bool_decide_eq_false_1 in Hs. apply bind_unit_Ok in Hv as [Hc Hv].
  rewrite !reject_Ok in Hv. destruct Hv as (Hr & He & _).
  apply checkScopes_Ok in Hc as (Hnd & Hsub & _). split_and!; [done.. | |].
  - intros Hin%contains_iff. rewrite Hin in Hr. by destruct (T_RepositoryID input).
  - intros t Ht. rewrite Ht in He. unfold After in He. apply negb_false_iff, Z.ltb_lt in He. done.
Qed.

Lemma CreateToken_inserts input : every insertable (CreateToken input).
Proof.
  unfold CreateToken, now. cbn [prog_bind call every]. split; [done |]. intros t.
  apply every_lift. intros [] (Hd & Hn & Hs & Hnd & Hsub & Hr & He)%validate_Ok.
  apply every_then; [walk |]. intros id. apply every_then; [walk |]. intros plaintext.
  apply every_then; [| walk]. apply every_wrap, every_wrap. cbn. split; [| done]. by split.
Qed.
Lemma CreateSession_inserts lifetime did : every insertable (CreateSession lifetime did).
Proof.
  unfold CreateSession. destruct (String.eqb_spec (TrimSpace did) EmptyString) as [| Hd]; [done |].
  destruct (Z.leb_spec lifetime 0); [done |].
  apply every_then; [walk |]. intros id. apply every_then; [walk |]. intros plaintext.
  unfold now. cbn [prog_bind call every]. split; [done |]. intros t.
  apply every_then; [| walk]. apply every_wrap, every_wrap. cbn. split; [| done].
  split; cbn; [done | unfold UTC; lia].
Qed.
Lemma CreateSSHKey_inserts `{SSH} input : every insertable (CreateSSHKey input).
Proof.
  unfold CreateSSHKey. apply every_lift. intros [] Hv. unfold validateSSHKey in Hv.
  rewrite !reject_Ok in Hv. destruct Hv as (Hd%TrimSpace_empty & Hn%valid_name_iff & _).
  apply every_lift. intros [key text] Hk. unfold parseUserPublicKey in Hk.
  apply bind_Ok in Hk as ([k rest] & _ & Hk). rewrite !reject_Ok in Hk.
  destruct Hk as (_ & _ & Hm & [= -> <-]). apply String.eqb_neq in Hm.
  apply every_then; [walk |]. intros id. unfold now. cbn [prog_bind call every]. split; [done |]. intros t.
  apply every_wrap, every_wrap. cbn. split; [| done]. by split.
Qed.

(** ** Histories *)

Section history.
Context (lower : string -> string).
#[local] Abbreviation handle := (handle lower).

Lemma after_touch_token t r : after r (touch_token t r).
Proof. by split. Qed.
Lemma after_touch_key t k : after k (touch_key t k).
Proof. by split. Qed.

Ltac unfresh H :=
  rewrite Forall_forall in H; intros r Hr; specialize (H r Hr);
  apply orb_false_iff in H as [Hid Hse]; cbn in Hid, Hse;
  first [apply Z.eqb_neq in Hid | idtac];
  first [apply bool_decide_eq_false_1 in Hse | apply String.eqb_neq in Hse]; done.

Lemma handle_credentials X (e : effect X) s x s' :
  insertable X e -> invariant s -> handle X e s = (x, s') -> invariant s' /\ progress s s'.
Proof.
  intros He [Ht Hs Hk] Hh.
  assert (Hstep : table_step (tokens s) (tokens s') /\ table_step (sessions s) (sessions s')
                  /\ table_step (keys s) (keys s')).
  { destruct e; cbn in Hh; autounfold with auth_queries in Hh; simplify_eq; cbn; try (split_and!; by apply table_same).
    - destruct (random s); simplify_eq; cbn; split_and!; by apply table_same.
    - unfold upsertAccount in Hh. repeat case_match; simplify_eq; cbn; split_and!; by apply table_same.
    - destruct (existsb _ (tokens s)) eqn:Hf.
      { simplify_eq. split_and!; by apply table_same. }
      apply existsb_false in Hf.
      case_match; simplify_eq; cbn; split_and!; try by apply table_same.
      apply table_append; [| done..]. unfresh Hf.
    - split_and!; try by apply table_same. by apply table_update.
    - destruct (returning _ _ _) as [r rows] eqn:Hr. simplify_eq. cbn. split_and!; try by apply table_same.
      eapply table_returning; [| exact Hr | done]. intros r [_ Hn]%andb_true_iff. split; [done |].
      cbn. by rewrite Hn.
    - destruct (existsb _ (keys s)) eqn:Hf.
      { simplify_eq. split_and!; by apply table_same. }
      apply existsb_false in Hf.
      case_match; simplify_eq; cbn; split_and!; try by apply table_same.
      apply table_append; [| done..]. unfresh Hf.
    - split_and!; try by apply table_same. by apply table_update.
    - destruct (returning _ _ _) as [r rows] eqn:Hr. simplify_eq. cbn. split_and!; try by apply table_same.
      eapply table_returning; [| exact Hr | done]. intros r [_ Hn]%andb_true_iff. split; [done |].
      cbn. by rewrite Hn.
    - destruct (existsb _ (sessions s)) eqn:Hf.
      { simplify_eq. split_and!; by apply table_same. }
      apply existsb_false in Hf.
      case_match; simplify_eq; cbn; split_and!; try by apply table_same.
      apply table_append; [| done..]. unfresh Hf.
    - destruct (returning _ _ _) as [r rows] eqn:Hr. simplify_eq. cbn. split_and!; try by apply table_same.
      eapply table_returning; [| exact Hr | done].
      intros r [[_ Hn]%andb_true_iff _]%andb_true_iff. split; [done |]. cbn. by rewrite Hn.
    - destruct (returning _ _ _) as [r rows] eqn:Hr. simplify_eq. cbn. split_and!; try by apply table_same.
      eapply table_returning; [| exact Hr | done]. by intros r _. }
  unfold table_step in Hstep. destruct_and!. split; [by split | by split_and!].
Qed.

#[export] Instance progress_preorder : PreOrder progress.
Proof.
  split; [by intros s; split_and! |].
  intros s s' s'' (H1 & H2 & H3) (H4 & H5 & H6). by split_and!; etrans.
Qed.
Lemma credentials_same s s' :
  tokens s' = tokens s -> sessions s' = sessions s -> keys s' = keys s ->
  invariant s -> invariant s' /\ progress s s'.
Proof.
  intros Ht Hs Hk [? ? ?]. split; [split; by rewrite ?Ht, ?Hs, ?Hk |].
  unfold progress. by rewrite Ht, Hs, Hk.
Qed.

Lemma exec_credentials {A} (p : prog effect A) : forall s,
  every insertable p -> invariant s ->
  invariant (snd (exec handle p s)) /\ progress s (snd (exec handle p s)).
Proof.
  induction p as [a | X e k IH]; intros s; cbn; [by intros _ |]. intros [He Hk] Hi.
  rewrite exec_vis. destruct (handle X e s) as [x s1] eqn:Hh.
  destruct (handle_credentials X e s x s1 He Hi Hh) as [Hi1 Hp1].
  destruct (IH x s1 (Hk x) Hi1) as [Hi2 Hp2]. split; [done | by etrans].
Qed.

(** The calls of the services and authenticators. *)
Inductive operation `{SSH} : forall A, prog effect A -> Prop :=
| op_CreateToken input : operation _ (CreateToken input)
| op_ListTokens did : operation _ (ListTokens did)
| op_RevokeToken did id : operation _ (RevokeToken did id)
| op_AuthenticateToken plaintext : operation _ (AuthenticateToken plaintext)
| op_AuthorizeWrite password repo : operation _ (AuthorizeWrite password repo)
| op_CreateSession lifetime did : operation _ (CreateSession lifetime did)
| op_RevokeSession did id : operation _ (RevokeSession did id)
| op_AuthenticateSession plaintext : operation _ (AuthenticateSession plaintext)
| op_CreateSSHKey input : operation _ (CreateSSHKey input)
| op_ListSSHKeys did : operation _ (ListSSHKeys did)
| op_RevokeSSHKey did id : operation _ (RevokeSSHKey did id)
| op_Lookup key : operation _ (Lookup key)
| op_RecordUse id : operation _ (RecordUse id)
| op_AuthenticateKey key : operation _ (AuthenticateKey key)
| op_UpsertLogin did handle at_ : operation _ (postgres.UpsertLogin did handle at_)
| op_GetAccount did : operation _ (postgres.GetAccount did).

(** A call, or anything else: other tables, the clocks, the sources of ids and of
    random bytes. *)
Inductive step `{SSH} (s : db) : db -> Prop :=
| step_call A (p : prog effect A) : operation A p -> step s (snd (exec handle p s))
| step_turn core created id values now db_now :
    step s (mkDb core created (tokens s) (sessions s) (keys s) id values now db_now).

Lemma operation_inserts `{SSH} A (p : prog effect A) : operation A p -> every insertable p.
Proof.
  intros Hop.
  destruct Hop;
    lazymatch goal with
    | |- every _ (CreateToken _) => apply CreateToken_inserts
    | |- every _ (CreateSession _ _) => apply CreateSession_inserts
    | |- every _ (CreateSSHKey _) => apply CreateSSHKey_inserts
    | _ => walk
    end.
Qed.
Lemma steps_kept `{SSH} s s' :
  rtc step s s' -> invariant s -> invariant s' /\ progress s s'.
Proof.
  induction 1 as [| s s1 s2 Hs _ IH]; intros Hi; [by split |].
  assert (H1 : invariant s1 /\ progress s s1).
  { destruct Hs; [by apply exec_credentials, Hi; eapply operation_inserts | by apply credentials_same]. }
  destruct H1 as [Hi1 Hp1]. destruct (IH Hi1) as [Hi2 Hp2]. split; [done | by etrans].
Qed.

(** Whatever the token, session and SSH key services do, in any order and between any
    other activity, no two tokens share an id or a hash, no two sessions either, and
    no two keys an id or a fingerprint; rows are only added; of a row that exists only
    the time of last use and the time of revocation change, and a revocation once
    written never changes again. *)
Theorem credentials_history `{SSH} (s s' : db) (Hi : invariant s) (Hs : rtc step s s') :
  credentials (tokens s') /\ credentials (sessions s') /\ credentials (keys s') /\
  grown (tokens s) (tokens s') /\ grown (sessions s) (sessions s') /\ grown (keys s) (keys s').
Proof. destruct (steps_kept s s' Hs Hi) as [[] (? & ? & ?)]. by split_and!. Qed.
End history.

(** ** What the authenticators answer *)

Section answers.
Context (lower : string -> string).
#[local] Abbreviation handle := (handle lower).

Definition digest (plaintext : string) : list Z := Sum256 (bytes plaintext).

Lemma find_row_none {R} (f : R -> bool) rows :
  (forall r, r ∈ rows -> f r = false) -> find_row ErrNoRows f rows = Err ErrNoRows.
Proof.
  intros Hf. unfold find_row. destruct (List.find f rows) as [r |] eqn:E; [| done].
  apply find_some in E as [Hin%list_elem_of_In Hr]. by rewrite (Hf r Hin) in Hr.
Qed.
(** The row of a secret is the only one. *)
Lemma find_row_secret `{Credential R} (f : R -> bool) rows r :
  credentials rows -> (forall x y, f x = true -> f y = true -> secret x = secret y) ->
  r ∈ rows -> f r = true -> find_row ErrNoRows f rows = Ok r.
Proof.
  intros Hc Hf Hin Hr. unfold find_row. destruct (List.find f rows) as [x |] eqn:E.
  - apply find_some in E as [Hx%list_elem_of_In Hfx]. f_equal.
    apply (NoDup_map_inj secret rows); [apply Hc | done | done | by apply Hf].
  - apply list_elem_of_In in Hin. by rewrite (find_none _ _ E r Hin) in Hr.
Qed.

Lemma active_token_iff hash at_ t : active_token hash at_ t = true <->
  Token_Hash t = hash /\ Token_RevokedAt t = None /\ unexpired (Token_ExpiresAt t) at_ = true.
Proof.
  unfold active_token, same_hash, is_null. rewrite !andb_true_iff, bool_decide_eq_true.
  destruct (Token_RevokedAt t); cbn; naive_solver.
Qed.

Lemma exec_GetActiveTokenByHash hash s :
  exec handle (postgres.GetActiveTokenByHash hash) s
  = (mapErr (noRows ErrUnauthorized "get access token: %w")
       (find_row ErrNoRows (active_token hash (db_clock s)) (tokens s)), s).
Proof. unfold postgres.GetActiveTokenByHash. by rewrite exec_wrap, exec_call. Qed.
Lemma find_row_err {R} (f : R -> bool) rows :
  (exists r, find_row ErrNoRows f rows = Ok r) \/ find_row ErrNoRows f rows = Err ErrNoRows.
Proof. unfold find_row. destruct (List.find f rows); eauto. Qed.

(** The tokens a password stands for. *)
Definition presents (s : db) (plaintext : string) (t : AccessToken) : Prop :=
  plaintext <> EmptyString /\ t ∈ tokens s /\ Token_Hash t = digest plaintext /\
  Token_RevokedAt t = None /\ unexpired (Token_ExpiresAt t) (db_clock s) = true.
Lemma presents_found s plaintext t : invariant s -> presents s plaintext t ->
  find_row ErrNoRows (active_token (digest plaintext) (db_clock s)) (tokens s) = Ok t.
Proof.
  intros Hi (_ & Hin & Ha). apply find_row_secret; [apply Hi | | done | by apply active_token_iff].
  intros x y [Hx _]%active_token_iff [Hy _]%active_token_iff. cbn. congruence.
Qed.
Lemma presents_none s plaintext :
  plaintext <> EmptyString -> ~ (exists t, presents s plaintext t) ->
  find_row ErrNoRows (active_token (digest plaintext) (db_clock s)) (tokens s) = Err ErrNoRows.
Proof.
  intros Hp Hn. apply find_row_none. intros t Ht. apply not_true_iff_false. intros Ha.
  apply Hn. exists t. apply active_token_iff in Ha. unfold presents. tauto.
Qed.

Definition used (t : AccessToken) (s : db) : db :=
  with_tokens (update_where (fun x => Token_ID x =? Token_ID t) (touch_token (clock s)) (tokens s)) s.

Lemma exec_AuthenticateToken s plaintext :
  exec handle (AuthenticateToken plaintext) s =
  if plaintext == EmptyString then (Err ErrUnauthorized, s) else
  match find_row ErrNoRows (active_token (digest plaintext) (db_clock s)) (tokens s) with
  | Ok t => (Ok t, used t s)
  | Err _ => (Err ErrUnauthorized, s)
  end.
Proof.
  unfold AuthenticateToken. destruct (_ == _); [done |].
  rewrite exec_then, exec_wrap, exec_GetActiveTokenByHash. fold (digest plaintext).
  destruct (find_row_err (active_token (digest plaintext) (db_clock s)) (tokens s)) as [[t ->] | ->]; [| done].
  cbn [mapErr]. unfold now. rewrite !exec_bind, exec_call. reflexivity.
Qed.

(** ** Pushes over HTTP *)

(** The token lets its owner write to the repository of [row]. *)
Definition grants_push (s : db) (row : store.RepositoryRow) (t : AccessToken) : Prop :=
  ScopeRepositoryWrite ∈ Scopes t /\
  (RepositoryID t = None \/ RepositoryID t = Some (access.repository_id row)) /\
  organization.rank organization.RepositoryRoleWrite
    <= organization.rank (access.effective_role (core_ s) row (Token_AccountDID t)).

Lemma exec_AuthorizeWrite s row plaintext t : invariant s -> access.keys_unique (core_ s) ->
  row ∈ orgstore.repositories (core_ s) -> store.present row = true -> presents s plaintext t ->
  exec handle (AuthorizeWrite (Some plaintext) (access.repository_id row)) s =
  if contains (Scopes t) ScopeRepositoryWrite
     && match RepositoryID t with Some id => id =? access.repository_id row | None => true end
     && (organization.rank organization.RepositoryRoleWrite
         <=? organization.rank (access.effective_role (core_ s) row (Token_AccountDID t)))
  then (Ok tt, used t s) else (Err ErrForbidden, s).
Proof.
  intros Hi Hu Hin Hpr Hp. unfold AuthorizeWrite.
  destruct (String.eqb_spec plaintext EmptyString) as [-> |]; [by destruct Hp |].
  rewrite exec_then, exec_wrap, exec_GetActiveTokenByHash. fold (digest plaintext).
  rewrite (presents_found s plaintext t) by done. cbn [mapErr].
  destruct (contains _ _); cbn [negb andb]; [| done].
  destruct (match RepositoryID t with Some id => id =? _ | None => true end) eqn:Hc.
  2: { destruct (RepositoryID t); [| done]. by rewrite Hc. }
  replace (match RepositoryID t with Some id => negb (id =? access.repository_id row) | None => false end)
    with false by (destruct (RepositoryID t); [by rewrite Hc | done]).
  rewrite exec_then, exec_wrap. unfold postgres.CanWriteRepository. rewrite exec_wrap, exec_call.
  cbn [authstore.handle mapErr andb]. unfold orgstore.canWriteRepository.
  rewrite (access.find_repository_row (core_ s) row Hu) by done.
  rewrite (access.permits_rank (core_ s) row (Token_AccountDID t) Hu 3) by (lia || apply access.at_least_write).
  change (organization.rank organization.RepositoryRoleWrite) with 3.
  destruct (3 <=? _); cbn [negb]; [reflexivity | done].
Qed.

(** C22: a push over HTTP to a repository with a token as password is let through (and the
    use of the token recorded) exactly when the token is unexpired and not revoked, has
    the scope [repository:write], is bound to no other repository, and its owner has the
    write role on the repository or a higher one; a live token that lacks one of the
    last three is forbidden and anything else unauthorized, both without a trace. *)
Theorem push_authorized_iff (s : db) (row : store.RepositoryRow) (plaintext : string) :
  invariant s -> access.keys_unique (core_ s) -> row ∈ orgstore.repositories (core_ s) ->
  store.present row = true ->
  let push := exec handle (AuthorizeWrite (Some plaintext) (access.repository_id row)) s in
  (forall t, presents s plaintext t -> grants_push s row t -> push = (Ok tt, used t s)) /\
  (forall t, presents s plaintext t -> ~ grants_push s row t -> push = (Err ErrForbidden, s)) /\
  (~ (exists t, presents s plaintext t) ->
   exists e, push = (Err e, s) /\ Is e ErrUnauthorized = true).
Proof.
  intros Hi Hu Hin Hpr push.
  assert (Hg : forall t, contains (Scopes t) ScopeRepositoryWrite
     && match RepositoryID t with Some id => id =? access.repository_id row | None => true end
     && (organization.rank organization.RepositoryRoleWrite
         <=? organization.rank (access.effective_role (core_ s) row (Token_AccountDID t))) = true
     <-> grants_push s row t).
  { intros t. unfold grants_push. rewrite !andb_true_iff, contains_iff, Z.leb_le.
    destruct (RepositoryID t) as [id |]; [rewrite Z.eqb_eq |]; naive_solver. }
  split_and!.
  - intros t Ht Hgr. unfold push. erewrite exec_AuthorizeWrite by done. by rewrite (proj2 (Hg t) Hgr).
  - intros t Ht Hgr. unfold push. erewrite exec_AuthorizeWrite by done. rewrite <- Hg in Hgr.
    by apply not_true_iff_false in Hgr as ->.
  - intros Hn. unfold push, AuthorizeWrite.
    destruct (String.eqb_spec plaintext EmptyString) as [-> |]; [by eexists |].
    rewrite exec_then, exec_wrap, exec_GetActiveTokenByHash. fold (digest plaintext).
    rewrite presents_none by done. by eexists.
Qed.

(** ** Revocation *)

Lemma returning_Ok `{Credential R} hit update (rows rows' : list R) x :
  returning hit update rows = (Ok x, rows') ->
  exists r, r ∈ rows /\ hit r = true /\ x = update r /\ update r ∈ rows' /\
    rows' = update_where hit update rows.
Proof.
  unfold returning. destruct (find_row _ _ _) as [r |] eqn:E; intros [= <- <-].
  apply find_row_Ok in E as [Hin Hr]. exists r. split_and!; [done.. | |].
  - apply update_where_elem. exists r. by rewrite Hr.
  - done.
Qed.

Lemma find_revoked `{Credential R} (active : R -> bool) rows rows' r :
  (forall x, active x = true -> secret x = secret r /\ is_null (revoked x) = true) ->
  grown rows rows' -> credentials rows' -> r ∈ rows -> is_null (revoked r) = false ->
  find_row ErrNoRows active rows' = Err ErrNoRows.
Proof.
  intros Ha Hg Hc Hr Hn. apply find_row_none. intros x Hx. apply not_true_iff_false.
  intros [Hs Hv]%Ha. by rewrite (revoked_stays rows rows' r x) in Hv.
Qed.

Section revocation.
Context `{SSH}.

Lemma op_later {A} (p : prog effect A) s s' : operation A p -> invariant s ->
  rtc (step lower) (snd (exec handle p s)) s' -> invariant s' /\ progress (snd (exec handle p s)) s'.
Proof.
  intros Hop Hi Hs. eapply steps_kept; [exact Hs |]. apply exec_credentials; [| done].
  by eapply operation_inserts.
Qed.

Lemma token_revoked did id s s' : invariant s ->
  fst (exec handle (RevokeToken did id) s) = Ok tt ->
  rtc (step lower) (snd (exec handle (RevokeToken did id) s)) s' ->
  exists t, t ∈ tokens s /\ Token_ID t = id /\ Token_AccountDID t = TrimSpace did /\
    Token_RevokedAt t = None /\
    find_row ErrNoRows (active_token (Token_Hash t) (db_clock s')) (tokens s') = Err ErrNoRows.
Proof.
  intros Hi Hok Hs. apply op_later in Hs as [Hi' (Hg & _)]; [| constructor | done].
  revert Hok Hg. unfold RevokeToken, now. rewrite !exec_bind, exec_call. answer.
  rewrite exec_ret, exec_wrap. unfold postgres.RevokeToken. rewrite exec_then, exec_wrap, exec_call.
  answer. destruct (returning _ _ _) as [[x | e] rows] eqn:Hr; cbn; [| done].
  intros _ Hg. apply returning_Ok in Hr as (t & Hin & Hown & -> & Hin' & _).
  unfold own_token, is_null in Hown.
  apply andb_true_iff in Hown as [[Hid%Z.eqb_eq Hdid%String.eqb_eq]%andb_true_iff Hn].
  exists t. split_and!; [done.. | by destruct (Token_RevokedAt t) |].
  eapply find_revoked; [| exact Hg | apply Hi' | exact Hin' | done].
  intros y (Hy & Hry & _)%active_token_iff. cbn. by rewrite Hry.
Qed.

Lemma exec_AuthenticateSession s plaintext :
  exec handle (AuthenticateSession plaintext) s =
  if plaintext == EmptyString then (Err ErrUnauthorized, s) else
  match find_row ErrNoRows (active_session (digest plaintext) (clock s)) (sessions s) with
  | Ok x => (Ok (mkSessionIdentity (Session_ID x) (Session_AccountDID x)),
             with_sessions (update_where (active_session (digest plaintext) (clock s))
                              (see_session (clock s)) (sessions s)) s)
  | Err _ => (Err ErrUnauthorized, with_sessions (sessions s) s)
  end.
Proof.
  unfold AuthenticateSession. destruct (_ == _); [done |]. unfold now.
  rewrite !exec_bind, exec_call. answer. rewrite exec_ret, exec_wrap.
  unfold postgres.AuthenticateSession. rewrite exec_then, exec_wrap, exec_call. answer.
  unfold returning, UTC, digest.
  destruct (find_row_err (active_session (Sum256 (bytes plaintext)) (clock s)) (sessions s)) as [[x ->] | ->];
    reflexivity.
Qed.

Lemma session_revoked did id s s' : invariant s ->
  fst (exec handle (RevokeSession did id) s) = Ok tt ->
  rtc (step lower) (snd (exec handle (RevokeSession did id) s)) s' ->
  exists x, x ∈ sessions s /\ Session_ID x = id /\ Session_AccountDID x = TrimSpace did /\
    Session_RevokedAt x = None /\ clock s < Session_ExpiresAt x /\
    find_row ErrNoRows (active_session (Session_Hash x) (clock s')) (sessions s') = Err ErrNoRows.
Proof.
  intros Hi Hok Hs. apply op_later in Hs as [Hi' (_ & Hg & _)]; [| constructor | done].
  revert Hok Hg. unfold RevokeSession, now. destruct (_ == _); [done |].
  rewrite !exec_bind, exec_call. answer.
  rewrite exec_ret, exec_wrap. unfold postgres.RevokeSession. rewrite exec_then, exec_wrap, exec_call.
  answer. destruct (returning _ _ _) as [[x | e] rows] eqn:Hr; cbn; [| done].
  intros _ Hg. apply returning_Ok in Hr as (x' & Hin & Hown & -> & Hin' & _).
  unfold own_session, is_null in Hown.
  apply andb_true_iff in Hown as
    [[[Hid%Z.eqb_eq Hdid%String.eqb_eq]%andb_true_iff Hn]%andb_true_iff Hlt%Z.ltb_lt].
  exists x'. split_and!; [done.. | by destruct (Session_RevokedAt x') | done |].
  eapply find_revoked; [| exact Hg | apply Hi' | exact Hin' | done].
  unfold active_session, same_hash. intros y [[Hy%bool_decide_eq_true Hry]%andb_true_iff _]%andb_true_iff.
  done.
Qed.

Lemma exec_Lookup s presented :
  exec handle (Lookup (Some presented)) s =
  match find_row ErrNoRows (active_key (FingerprintSHA256 presented)) (keys s) with
  | Ok k => if Public k != canonical presented then (Err ErrUnauthorized, s)
            else (Ok (mkSSHIdentity (Key_ID k) (Key_AccountDID k)), s)
  | Err _ => (Err ErrUnauthorized, s)
  end.
Proof.
  unfold Lookup. rewrite exec_then, exec_wrap. unfold postgres.GetActiveSSHKeyByFingerprint.
  rewrite exec_wrap, exec_call. answer.
  destruct (find_row_err (active_key (FingerprintSHA256 presented)) (keys s)) as [[k ->] | ->]; cbn; [| done].
  by destruct (Public k != _).
Qed.

Lemma key_revoked did id s s' : invariant s ->
  fst (exec handle (RevokeSSHKey did id) s) = Ok tt ->
  rtc (step lower) (snd (exec handle (RevokeSSHKey did id) s)) s' ->
  exists k, k ∈ keys s /\ Key_ID k = id /\ Key_AccountDID k = TrimSpace did /\ Key_RevokedAt k = None /\
    find_row ErrNoRows (active_key (Fingerprint k)) (keys s') = Err ErrNoRows /\
    exists k', k' ∈ keys s' /\ Fingerprint k' = Fingerprint k.
Proof.
  intros Hi Hok Hs. apply op_later in Hs as [Hi' (_ & _ & Hg)]; [| constructor | done].
  revert Hok Hg. unfold RevokeSSHKey, now. rewrite !exec_bind, exec_call. answer.
  rewrite exec_ret, exec_wrap. unfold postgres.RevokeSSHKey. rewrite exec_then, exec_wrap, exec_call.
  answer. destruct (returning _ _ _) as [[x | e] rows] eqn:Hr; cbn; [| done].
  intros _ Hg. apply returning_Ok in Hr as (k & Hin & Hown & -> & Hin' & _).
  unfold own_key, is_null in Hown.
  apply andb_true_iff in Hown as [[Hid%Z.eqb_eq Hdid%String.eqb_eq]%andb_true_iff Hn].
  exists k. split_and!; [done.. | by destruct (Key_RevokedAt k) | |].
  - eapply find_revoked; [| exact Hg | apply Hi' | exact Hin' | done].
    unfold active_key. intros y [Hy%String.eqb_eq Hry]%andb_true_iff. done.
  - destruct Hg as (kept & more & -> & Hk).
    destruct (Forall2_exists_l _ _ _ _ Hk Hin') as (k' & Hk' & Hf & _).
    exists k'. split; [set_solver |]. by apply (fixed_row _ _ Hf).
Qed.

(** C24: revoking a token, a session or a key succeeds only for a row of the caller that
    was not revoked; from then on, in every state the services can reach, its secret is
    refused as unauthorized by the authenticators and by pushes, the key by the SSH
    login, and the same key cannot be registered again for any account. *)
Theorem revocation_final (s s' : db) (Hi : invariant s) :
  (forall did id, let p := RevokeToken did id in
   fst (exec handle p s) = Ok tt -> rtc (step lower) (snd (exec handle p s)) s' ->
   exists t, t ∈ tokens s /\ Token_ID t = id /\ Token_AccountDID t = TrimSpace did /\
     Token_RevokedAt t = None /\
     forall plaintext, digest plaintext = Token_Hash t ->
       exec handle (AuthenticateToken plaintext) s' = (Err ErrUnauthorized, s') /\
       forall repo, exists e, exec handle (AuthorizeWrite (Some plaintext) repo) s' = (Err e, s') /\
         Is e ErrUnauthorized = true) /\
  (forall did id, let p := RevokeSession did id in
   fst (exec handle p s) = Ok tt -> rtc (step lower) (snd (exec handle p s)) s' ->
   exists x, x ∈ sessions s /\ Session_ID x = id /\ Session_AccountDID x = TrimSpace did /\
     Session_RevokedAt x = None /\
     forall plaintext, digest plaintext = Session_Hash x ->
       fst (exec handle (AuthenticateSession plaintext) s') = Err ErrUnauthorized) /\
  (forall did id, let p := RevokeSSHKey did id in
   fst (exec handle p s) = Ok tt -> rtc (step lower) (snd (exec handle p s)) s' ->
   exists k, k ∈ keys s /\ Key_ID k = id /\ Key_AccountDID k = TrimSpace did /\ Key_RevokedAt k = None /\
     forall presented, FingerprintSHA256 presented = Fingerprint k ->
       exec handle (Lookup (Some presented)) s' = (Err ErrUnauthorized, s') /\
       forall id' did' name at_, let row := mkKey id' did' name (KeyType presented) (canonical presented)
                                   (FingerprintSHA256 presented) at_ None None in
         exec handle (postgres.CreateSSHKey row) s' = (Err ErrConflict, s')).
Proof.
  split_and!; intros did id p Hok Hs; subst p.
  - destruct (token_revoked did id s s') as (t & Hin & Hid & Hd & Hn & Hf); [done.. |].
    exists t. split_and!; [done.. |]. intros plaintext Hp.
    assert (Hf' : find_row ErrNoRows (active_token (digest plaintext) (db_clock s')) (tokens s')
                  = Err ErrNoRows) by by rewrite Hp.
    split; [rewrite exec_AuthenticateToken, Hf'; by case_match |]. intros repo. unfold AuthorizeWrite.
    destruct (_ == _); [by eexists |].
    rewrite exec_then, exec_wrap, exec_GetActiveTokenByHash. fold (digest plaintext). rewrite Hf'.
    by eexists.
  - destruct (session_revoked did id s s') as (x & Hin & Hid & Hd & Hn & _ & Hf); [done.. |].
    exists x. split_and!; [done.. |]. intros plaintext Hp.
    rewrite exec_AuthenticateSession, Hp, Hf. by case_match.
  - destruct (key_revoked did id s s') as (k & Hin & Hid & Hd & Hn & Hf & k' & Hk' & Hfp); [done.. |].
    exists k. split_and!; [done.. |]. intros presented Hp. split; [by rewrite exec_Lookup, Hp, Hf |].
    intros id' did' name at_. cbn zeta. unfold postgres.CreateSSHKey. rewrite exec_wrap, exec_call.
    answer. unfold createSSHKey.
    replace (existsb _ (keys s')) with true; [done |]. symmetry. apply existsb_exists. exists k'.
    split; [by apply list_elem_of_In |]. cbn. by rewrite Hfp, Hp, String.eqb_refl, orb_true_r.
Qed.
End revocation.
End answers.

(** ** Issued credentials *)

Section issued.
Context (lower : string -> string) `{SSH}.
#[local] Abbreviation handle := (handle lower).

(** Same tables and database clock. *)
Definition same_tables (s s' : db) : Prop :=
  tokens s' = tokens s /\ sessions s' = sessions s /\ keys s' = keys s /\ db_clock s' = db_clock s /\
  clock s' = clock s /\ core_ s' = core_ s.
Lemma exec_wrap_Ok {A} wrap (p : svc effect A) s a s' :
  exec handle (wrapErr wrap p) s = (Ok a, s') <-> exec handle p s = (Ok a, s').
Proof. rewrite exec_wrap. destruct (exec handle p s) as [[b | e] t]; cbn; naive_solver. Qed.
Lemma createAccessToken_Ok row s x s' : createAccessToken row s = (Ok x, s') ->
  x = row /\ s' = with_tokens (tokens s ++ [row]) s.
Proof. unfold createAccessToken. repeat case_match; naive_solver. Qed.
Lemma createSession_Ok row s x s' : createSession row s = (Ok x, s') ->
  x = row /\ s' = with_sessions (sessions s ++ [row]) s.
Proof. unfold createSession. repeat case_match; naive_solver. Qed.
Lemma createSSHKey_Ok row s x s' : createSSHKey row s = (Ok x, s') ->
  x = row /\ s' = with_keys (keys s ++ [row]) s.
Proof. unfold createSSHKey. repeat case_match; naive_solver. Qed.

Lemma exec_newID s id s' : exec handle newID s = (Ok id, s') -> same_tables s s'.
Proof. unfold newID. rewrite exec_wrap, exec_call. cbn. by intros [= _ <-]. Qed.
Lemma exec_random s s' (wrap : list Z -> string) plaintext :
  exec handle (svc_bind (wrapErr (wrapf "read random bytes: %w") (call (rand_Read 32)))
                        (fun value => done_ (wrap value))) s = (Ok plaintext, s') ->
  same_tables s s' /\ exists value, length value = 32%nat /\ Forall is_byte value /\ plaintext = wrap value.
Proof.
  rewrite exec_then, exec_wrap, exec_call. answer.
  destruct (random s) as [| value rest]; [done |].
  destruct (_ && _) eqn:Hl; cbn; [| done]. apply andb_true_iff in Hl as [Hl%Nat.eqb_eq Hb].
  intros [= <- <-]. split; [by split_and! |]. exists value. split_and!; [done | | done].
  rewrite forallb_forall in Hb. rewrite Forall_forall. intros b Hin%list_elem_of_In.
  specialize (Hb b Hin). apply between_iff in Hb. unfold is_byte. lia.
Qed.

Lemma CreateToken_Ok input s t plaintext s' :
  exec handle (CreateToken input) s = (Ok (t, plaintext), s') ->
  tokens s' = tokens s ++ [t] /\ Token_Hash t = digest plaintext /\ Token_RevokedAt t = None /\
  db_clock s' = db_clock s /\ core_ s' = core_ s /\
  (exists value, Forall is_byte value /\ plaintext = tokenPrefix +:+ base64.EncodeToString value) /\
  Token_AccountDID t = TrimSpace (T_AccountDID input) /\ Scopes t = T_Scopes input /\
  RepositoryID t = T_RepositoryID input /\ Token_ExpiresAt t = T_ExpiresAt input.
Proof.
  unfold CreateToken, now. rewrite !exec_bind, exec_call. answer. rewrite exec_ret.
  intros (u & s0 & Hv%exec_wrap_Ok & Hx)%exec_then_Ok. injection Hv as _ <-.
  apply exec_then_Ok in Hx as (id & s1 & (Ht1 & _ & _ & Hd1 & _ & Hc1)%exec_wrap_Ok%exec_newID & Hx).
  apply exec_then_Ok in Hx as (text & s2 &
    ((Ht2 & _ & _ & Hd2 & _ & Hc2) & value & _ & Hb & ->)%exec_wrap_Ok%exec_random & Hx).
  apply exec_then_Ok in Hx as (row & s3 & Hr%exec_wrap_Ok%exec_wrap_Ok & Hx).
  rewrite exec_call in Hr. cbn [authstore.handle] in Hr. apply createAccessToken_Ok in Hr as (-> & ->).
  injection Hx as <- <- <-. cbn. rewrite Ht2, Ht1, Hd2, Hd1, Hc2, Hc1. split_and!; eauto.
Qed.
Lemma CreateSession_Ok lifetime did s x plaintext s' :
  exec handle (CreateSession lifetime did) s = (Ok (x, plaintext), s') ->
  sessions s' = sessions s ++ [x] /\ Session_Hash x = digest plaintext /\ Session_RevokedAt x = None /\
  Session_AccountDID x = TrimSpace did /\ Session_ExpiresAt x = clock s + lifetime /\ clock s' = clock s /\
  exists value, length value = 32%nat /\ plaintext = base64.EncodeToString value.
Proof.
  unfold CreateSession. destruct (_ == _); [done |]. destruct (_ <=? _); [done |].
  intros (id & s1 & (_ & Ht1 & _ & _ & Hd1 & _)%exec_wrap_Ok%exec_newID & Hx)%exec_then_Ok.
  apply exec_then_Ok in Hx as (text & s2 &
    ((_ & Ht2 & _ & _ & Hd2 & _) & value & Hl & _ & ->)%exec_wrap_Ok%exec_random & Hx).
  revert Hx. unfold now. rewrite !exec_bind, exec_call. answer. rewrite exec_ret.
  intros (row & s3 & Hr%exec_wrap_Ok%exec_wrap_Ok & Hx)%exec_then_Ok.
  rewrite exec_call in Hr. cbn [authstore.handle] in Hr. apply createSession_Ok in Hr as (-> & ->).
  injection Hx as <- <- <-. cbn. unfold UTC. rewrite Ht2, Ht1, Hd2, Hd1. split_and!; eauto.
Qed.
Lemma CreateSSHKey_Ok input s k s' :
  exec handle (CreateSSHKey input) s = (Ok k, s') ->
  keys s' = keys s ++ [k] /\ Key_RevokedAt k = None /\ Key_AccountDID k = TrimSpace (K_AccountDID input) /\
  exists key rest, ParseAuthorizedKey (TrimSpace (AuthorizedKey input)) = Ok (key, rest) /\
    IsCertificate key = false /\ KeyType key <> "ssh-dss" /\
    Public k = canonical key /\ Fingerprint k = FingerprintSHA256 key.
Proof.
  unfold CreateSSHKey. intros (u & s0 & Hv%exec_wrap_Ok & Hx)%exec_then_Ok. injection Hv as _ <-.
  apply exec_then_Ok in Hx as ([key text] & s1 & Hp%exec_wrap_Ok & Hx). injection Hp as Hp <-.
  cbn [AuthorizedKey] in Hp. unfold parseUserPublicKey in Hp.
  apply bind_Ok in Hp as ([k0 rest] & Hk%mapErr_Ok & Hp). rewrite !reject_Ok in Hp.
  destruct Hp as (_ & Hc & Hm & [= -> <-]). apply String.eqb_neq in Hm.
  apply exec_then_Ok in Hx as (id & s2 & (_ & _ & Ht2 & _)%exec_wrap_Ok%exec_newID & Hx).
  revert Hx. unfold now. rewrite !exec_bind, exec_call. answer. rewrite exec_ret.
  intros Hr%exec_wrap_Ok%exec_wrap_Ok. rewrite exec_call in Hr. cbn [authstore.handle] in Hr.
  apply createSSHKey_Ok in Hr as (-> & ->). cbn. rewrite Ht2. split_and!; [done.. |].
  exists key, rest. by split_and!.
Qed.

Lemma kept_after {A} (p : prog effect A) s r s' : operation A p -> invariant s ->
  exec handle p s = (r, s') -> invariant s'.
Proof.
  intros Hop Hi He. destruct (exec_credentials lower p s) as [Hi' _]; [by eapply operation_inserts | done |].
  by rewrite He in Hi'.
Qed.
Lemma prefixed_nonempty text plaintext : plaintext = tokenPrefix +:+ text -> plaintext <> EmptyString.
Proof. by intros ->. Qed.
Lemma encoded_nonempty value : length value = 32%nat -> base64.EncodeToString value <> EmptyString.
Proof. by destruct value as [| a [| b [| c rest]]]. Qed.

(** The secret that creating a token or a session returns authenticates as what was
    created at once (a token, unless it was created expired), and a key that was
    registered, which is neither a certificate nor of type [ssh-dss], logs in as its
    account. *)
Theorem issued_credentials_work (s s' : db) (Hi : invariant s) :
  (forall input t plaintext, exec handle (CreateToken input) s = (Ok (t, plaintext), s') ->
   unexpired (Token_ExpiresAt t) (db_clock s) = true ->
   exec handle (AuthenticateToken plaintext) s' = (Ok t, used t s')) /\
  (forall lifetime did x plaintext, exec handle (CreateSession lifetime did) s = (Ok (x, plaintext), s') ->
   fst (exec handle (AuthenticateSession plaintext) s')
   = Ok (mkSessionIdentity (Session_ID x) (TrimSpace did))) /\
  (forall input k, exec handle (CreateSSHKey input) s = (Ok k, s') ->
   exists key rest, ParseAuthorizedKey (TrimSpace (AuthorizedKey input)) = Ok (key, rest) /\
     IsCertificate key = false /\ KeyType key <> "ssh-dss" /\
     exec handle (Lookup (Some key)) s'
     = (Ok (mkSSHIdentity (Key_ID k) (TrimSpace (K_AccountDID input))), s')).
Proof.
  split_and!.
  - intros input t plaintext He Hu. pose proof He as Hi'. apply kept_after in Hi'; [| constructor | done].
    apply CreateToken_Ok in He as (Ht & Hh & Hr & Hd & _ & (value & _ & Hp%prefixed_nonempty) & _).
    rewrite exec_AuthenticateToken, (proj2 (String.eqb_neq plaintext EmptyString) Hp).
    rewrite (presents_found s' plaintext t); [done.. |].
    split_and!; [done | rewrite Ht; apply elem_of_snoc | done.. | by rewrite Hd].
  - intros lifetime did x plaintext He. pose proof He as Hi'. apply kept_after in Hi'; [| constructor | done].
    assert (Hl : 0 < lifetime).
    { unfold CreateSession in He. destruct (_ == _); [done |]. destruct (Z.leb_spec lifetime 0); [done | lia]. }
    apply CreateSession_Ok in He as (Ht & Hh & Hr & Ha & Hx & Hc & value & Hv%encoded_nonempty & Hpl).
    rewrite <- Hpl in Hv.
    rewrite exec_AuthenticateSession, (proj2 (String.eqb_neq plaintext EmptyString) Hv).
    rewrite (find_row_secret (active_session (digest plaintext) (clock s')) (sessions s') x).
    + cbn. by rewrite Ha.
    + apply Hi'.
    + unfold active_session, same_hash. intros y z.
      intros [[Hy%bool_decide_eq_true _]%andb_true_iff _]%andb_true_iff
             [[Hz%bool_decide_eq_true _]%andb_true_iff _]%andb_true_iff. cbn. congruence.
    + rewrite Ht. apply elem_of_snoc.
    + unfold active_session, same_hash, is_null. rewrite Hh, Hr, Hc, Hx, bool_decide_eq_true_2 by done.
      apply Z.ltb_lt. lia.
  - intros input k He. pose proof He as Hi'. apply kept_after in Hi'; [| constructor | done].
    apply CreateSSHKey_Ok in He as (Ht & Hr & Ha & key & rest & Hp & Hc & Hm & Hpu & Hf).
    exists key, rest. split_and!; [done.. |]. rewrite exec_Lookup.
    rewrite (find_row_secret (active_key (FingerprintSHA256 key)) (keys s') k).
    + rewrite Hpu, String.eqb_refl. cbn. by rewrite Ha.
    + apply Hi'.
    + unfold active_key. intros y z [Hy%String.eqb_eq _]%andb_true_iff [Hz%String.eqb_eq _]%andb_true_iff.
      cbn. congruence.
    + rewrite Ht. apply elem_of_snoc.
    + unfold active_key, is_null. by rewrite Hf, Hr, String.eqb_refl.
Qed.
End issued.

(** ** Logins and owner routes *)

Section login.
Context (lower : string -> string).
Hypothesis lower_idempotent : forall s, lower (lower s) = lower s.
#[local] Abbreviation handle := (handle lower).
#[local] Abbreviation routes s := (orgstore.routes (core_ s)).
#[local] Abbreviation accounts s := (orgstore.accounts (core_ s)).

(** Every alias is of one owner, and one of an account is its current handle. *)
Record routes_ok (s : db) : Prop := {
  aliases_unique : NoDup (map transferstore.route_alias (routes s));
  aliases_current route did : route ∈ routes s -> transferstore.route_account route = Some did ->
    exists handle, accounts s !! did = Some (Some handle) /\
      transferstore.route_alias route = lower handle
}.
Definition organization_route (route : transferstore.Route) : bool :=
  is_null (transferstore.route_account route).
(** Whose the alias is. *)
Definition holder (alias : string) (s : db) : option transferstore.Route :=
  List.find (same_alias alias) (routes s).

Lemma reroute_alias did route : transferstore.route_alias (reroute did route) = transferstore.route_alias route.
Proof. unfold reroute. by destruct (transferstore.route_account route). Qed.

Lemma stale_false did h (r : transferstore.Route) : stale_route lower did h r = false <->
  (transferstore.route_account r = Some did ->
   exists handle, h = Some handle /\ lower (transferstore.route_alias r) = lower handle).
Proof.
  unfold stale_route, of_account, distinct_alias. rewrite andb_false_iff, bool_decide_eq_false.
  destruct h as [h |]; [rewrite neq_false |]; split; try naive_solver.
  intros Hr. destruct (decide (transferstore.route_account r = Some did)); naive_solver.
Qed.

(** The routes after a login: those that are not stale, and the handle's. *)
Lemma current_route_elem did h createdAt rows rows' r :
  NoDup (map transferstore.route_alias rows) ->
  current_route lower did h createdAt rows = Some rows' ->
  NoDup (map transferstore.route_alias rows') /\
  (r ∈ rows' <->
   match h with
   | Some handle =>
       if handle == EmptyString then r ∈ rows else
       if transferstore.route_alias r == lower handle
       then (exists r0, r0 ∈ rows /\ transferstore.route_alias r0 = lower handle /\ r = reroute did r0)
            \/ existsb (same_alias (lower handle)) rows = false /\
               r = transferstore.mkRoute (lower handle) (Some did) None createdAt
       else r ∈ rows
   | None => r ∈ rows
   end).
Proof.
  intros Hnd. unfold current_route. destruct h as [h |]; [| by intros [= <-]].
  destruct (h == EmptyString); [by intros [= <-] |].
  destruct (negb _); [done |]. destruct (existsb _ rows) eqn:He; intros [= <-].
  - split.
    + rewrite update_where_map; [done | apply reroute_alias].
    + rewrite update_where_elem. unfold same_alias. destruct (String.eqb_spec (transferstore.route_alias r) (lower h)) as [Ha | Ha].
      * split.
        -- intros (r0 & Hin & ->). left. exists r0.
           destruct (String.eqb_spec (transferstore.route_alias r0) (lower h)); [done |]. done.
        -- intros [(r0 & Hin & Ha0 & ->) | [? _]]; [| done]. exists r0.
           by rewrite Ha0, String.eqb_refl.
      * split.
        -- intros (r0 & Hin & ->). destruct (String.eqb_spec (transferstore.route_alias r0) (lower h)); [| done].
           by rewrite reroute_alias in Ha.
        -- intros Hin. exists r. split; [done |]. by rewrite (proj2 (String.eqb_neq _ _) Ha).
  - apply existsb_false in He. rewrite Forall_forall in He. unfold same_alias in He.
    setoid_rewrite String.eqb_neq in He. split.
    + rewrite map_app. cbn. apply NoDup_app. split_and!; [done | | apply NoDup_singleton].
      intros a Hin. rewrite list_elem_of_singleton. apply list_elem_of_fmap in Hin as (r0 & -> & Hr0).
      by apply He.
    + rewrite elem_of_app, list_elem_of_singleton.
      destruct (String.eqb_spec (transferstore.route_alias r) (lower h)) as [Ha | Ha]; [| naive_solver].
      split; [intros [Hin%He | ->]; [done | by right] | intros [(r0 & Hin%He & ? & _) | [_ ->]]; [done | by right]].
Qed.

Lemma optionalPGText_some h handle : postgres.optionalPGText h = Some handle ->
  handle = h /\ (handle == EmptyString) = false.
Proof.
  unfold postgres.optionalPGText. destruct (String.eqb_spec h EmptyString) as [| Hn]; [done |].
  intros [= <-]. split; [done |]. by apply String.eqb_neq.
Qed.

Lemma UpsertLogin_Ok did h at_ s account s' :
  exec handle (postgres.UpsertLogin did h at_) s = (Ok account, s') ->
  let did := TrimSpace did in
  let cached := postgres.optionalPGText (TrimSpace h) in
  account = mkAccount did cached /\ accounts s' = <[did := cached]> (accounts s) /\
  exists createdAt,
    current_route lower did cached createdAt
      (List.filter (fun route => negb (stale_route lower did cached route)) (routes s)) = Some (routes s').
Proof.
  unfold postgres.UpsertLogin. destruct (_ == _); [done |]. intros Hx%exec_wrap_Ok.
  rewrite exec_call in Hx. cbn [authstore.handle] in Hx. unfold upsertAccount in Hx.
  destruct (_ <=? _); [done |]. destruct (current_route _ _ _ _ _) as [rows |] eqn:Hc; [| done].
  injection Hx as <- <-. cbn. split_and!; [done.. | by eexists].
Qed.

Definition names_handle_of (cached : option string) (r : transferstore.Route) : Prop :=
  exists handle, cached = Some handle /\ transferstore.route_alias r = lower handle.
#[export] Instance names_handle_dec cached r : Decision (names_handle_of cached r).
Proof.
  unfold names_handle_of. destruct cached as [handle |]; [| right; naive_solver].
  destruct (decide (transferstore.route_alias r = lower handle)); [left | right]; naive_solver.
Defined.

Section routes_after.
Context (s s' : db) (who : string) (cached : option string) (createdAt : time).
Hypothesis before : routes_ok s.
Hypothesis cached_nonempty : forall handle, cached = Some handle -> (handle == EmptyString) = false.
Hypothesis changed : current_route lower who cached createdAt
  (List.filter (fun route => negb (stale_route lower who cached route)) (routes s)) = Some (routes s').

#[local] Abbreviation names_handle := (names_handle_of cached).

(** What is left of the routes: those of the account are of its handle. *)
Lemma remaining_elem r :
  r ∈ List.filter (fun route => negb (stale_route lower who cached route)) (routes s) <->
  r ∈ routes s /\ (transferstore.route_account r = Some who -> names_handle r).
Proof.
  rewrite filter_elem, negb_true_iff, stale_false. unfold names_handle_of.
  split; intros [Hr Hs]; (split; [done |]); intros Hw; destruct (Hs Hw) as (handle & -> & Hl);
    exists handle; (split; [done |]).
  - destruct (aliases_current s before r who Hr Hw) as (old & _ & Hold).
    rewrite Hold, lower_idempotent in Hl. congruence.
  - by rewrite Hl, lower_idempotent.
Qed.
Lemma remaining_unique :
  NoDup (map transferstore.route_alias
           (List.filter (fun route => negb (stale_route lower who cached route)) (routes s))).
Proof. apply NoDup_map_filter, before. Qed.

(** A route of another alias stays if it is not the account's. *)
Lemma other_alias r : ~ names_handle r ->
  r ∈ routes s' <-> r ∈ routes s /\ transferstore.route_account r <> Some who.
Proof.
  unfold names_handle_of. intros Hn. transitivity (r ∈ List.filter (fun route => negb (stale_route lower who cached route)) (routes s)).
  - destruct (current_route_elem who cached createdAt _ _ r remaining_unique changed) as [_ ->].
    destruct cached as [handle |]; [| done]. rewrite cached_nonempty by done.
    rewrite (proj2 (String.eqb_neq _ _)); [done |]. intros Ha. apply Hn. by exists handle.
  - rewrite remaining_elem. unfold names_handle_of. tauto.
Qed.
(** The route of the handle is the account's, unless an organization has it. *)
Lemma handle_alias r : names_handle r ->
  r ∈ routes s' <->
  (exists r0, r0 ∈ routes s /\ transferstore.route_alias r0 = transferstore.route_alias r /\
     r = reroute who r0) \/
  (forall r0, r0 ∈ routes s -> transferstore.route_alias r0 <> transferstore.route_alias r) /\
  r = transferstore.mkRoute (transferstore.route_alias r) (Some who) None createdAt.
Proof.
  intros (handle & Hh & Ha).
  destruct (current_route_elem who cached createdAt _ _ r remaining_unique changed) as [_ ->].
  rewrite Hh, cached_nonempty, Ha, String.eqb_refl, existsb_false, Forall_forall by done.
  unfold same_alias. setoid_rewrite String.eqb_neq. rewrite <- Hh.
  assert (Hk : forall r0, transferstore.route_alias r0 = lower handle ->
            r0 ∈ List.filter (fun route => negb (stale_route lower who cached route)) (routes s)
            <-> r0 ∈ routes s).
  { intros r0 Hr0. rewrite remaining_elem. unfold names_handle_of. naive_solver. }
  split.
  - intros [(r0 & Hin & Hr0 & ->) | [Hn ->]].
    + left. exists r0. split_and!; [by apply Hk | done | done].
    + right. split; [| done]. intros r0 Hin Hr0. by apply (Hn r0); [apply Hk |].
  - intros [(r0 & Hin & Hr0 & ->) | [Hn ->]].
    + left. exists r0. split_and!; [by apply Hk | done | done].
    + right. split; [| done]. intros r0 [Hin _]%remaining_elem. by apply Hn.
Qed.

Lemma routes_ok_after :
  accounts s' = <[who := cached]> (accounts s) -> routes_ok s'.
Proof.
  intros Hacc. split.
  - by destruct (current_route_elem who cached createdAt _ _
                   (transferstore.mkRoute EmptyString None None 0) remaining_unique changed).
  - intros r did Hin Hd. rewrite Hacc. destruct (decide (names_handle r)) as [Hn | Hn].
    + assert (did = who) as ->.
      { apply handle_alias in Hin; [| done]. destruct Hin as [(r0 & _ & _ & ->) | [_ Hr]].
        - unfold reroute in Hd. destruct (transferstore.route_account r0) eqn:E; cbn in Hd; congruence.
        - rewrite Hr in Hd. by injection Hd. }
      destruct Hn as (handle & -> & Ha). exists handle. by rewrite lookup_insert, decide_True.
    + apply other_alias in Hin as [Hin Hw]; [| done]. rewrite lookup_insert_ne by congruence.
      by apply before.
Qed.
End routes_after.

(** C26: a login stores the handle of the account, an empty one as none; afterwards every
    account's route is its current handle, as before. The route of the new handle is the
    account's, taken from whichever account had it, but routes of organizations are
    kept, also one of that very name; the account's former routes are gone and the
    routes of other accounts stay unless they are of the new handle. *)
Theorem login_owns_handle (s s' : db) (did h : string) (at_ : time) (account : Account) :
  routes_ok s -> exec handle (postgres.UpsertLogin did h at_) s = (Ok account, s') ->
  let did := TrimSpace did in
  let cached := postgres.optionalPGText (TrimSpace h) in
  account = mkAccount did cached /\ accounts s' = <[did := cached]> (accounts s) /\ routes_ok s' /\
  (forall r, organization_route r = true -> r ∈ routes s' <-> r ∈ routes s) /\
  (forall handle, cached = Some handle -> exists r, r ∈ routes s' /\
     transferstore.route_alias r = lower handle /\
     (transferstore.route_account r = Some did \/ organization_route r = true /\ r ∈ routes s)) /\
  (forall r other, transferstore.route_account r = Some other -> other <> did ->
     r ∈ routes s' <->
     r ∈ routes s /\ forall handle, cached = Some handle -> transferstore.route_alias r <> lower handle).
Proof.
  intros Hok He. apply UpsertLogin_Ok in He as (-> & Ha & createdAt & Hr). cbn zeta.
  assert (Hne : forall handle, postgres.optionalPGText (TrimSpace h) = Some handle ->
            (handle == EmptyString) = false) by (intros handle Hh; by destruct (optionalPGText_some _ _ Hh)).
  set (who := TrimSpace did) in *. set (cached := postgres.optionalPGText (TrimSpace h)) in *.
  clearbody who cached.
  pose proof (other_alias s s' who cached createdAt Hok Hne Hr) as Hother.
  pose proof (handle_alias s s' who cached createdAt Hok Hne Hr) as Hmine.
  split_and!; [done.. | by eapply routes_ok_after | | |].
  - intros r Ho. destruct (decide (names_handle_of cached r)) as [Hn | Hn].
    + rewrite (Hmine r Hn). unfold organization_route, is_null in Ho. split.
      * intros [(r0 & Hin & _ & ->) | [_ Hr'%(f_equal transferstore.route_account)]];
          [| cbn in Hr'; by rewrite Hr' in Ho].
        unfold reroute in *. by destruct (transferstore.route_account r0).
      * intros Hin. left. exists r. split_and!; [done.. |]. unfold reroute.
        by destruct (transferstore.route_account r).
    + rewrite (Hother r Hn). unfold organization_route, is_null in Ho.
      destruct (transferstore.route_account r); [done | naive_solver].
  - intros handle Hh. destruct (existsb (same_alias (lower handle)) (routes s)) eqn:E.
    + apply existsb_exists in E as (r0 & Hin%list_elem_of_In & Hal%String.eqb_eq).
      exists (reroute who r0). rewrite reroute_alias. split_and!; [| done |].
      * apply Hmine; [exists handle; by rewrite reroute_alias |]. left. exists r0. by rewrite reroute_alias.
      * unfold organization_route, reroute. destruct (transferstore.route_account r0) eqn:E0; [by left |].
        right. by rewrite E0.
    + apply existsb_false in E. rewrite Forall_forall in E.
      exists (transferstore.mkRoute (lower handle) (Some who) None createdAt). split_and!; [| done | by left].
      apply Hmine; [by exists handle |]. right. split; [| done]. intros r0 Hin. cbn.
      by apply String.eqb_neq, E.
  - intros r other Hacc Hno. destruct (decide (names_handle_of cached r)) as [Hn | Hn].
    + rewrite (Hmine r Hn). split.
      * intros [(r0 & _ & _ & ->) | [_ Hr'%(f_equal transferstore.route_account)]];
          [| cbn in Hr'; congruence].
        unfold reroute in Hacc. destruct (transferstore.route_account r0) eqn:E0; cbn in Hacc; congruence.
      * intros [_ Hx]. destruct Hn as (handle & Hh & Hal). by destruct (Hx handle Hh).
    + rewrite (Hother r Hn). unfold names_handle_of in Hn. naive_solver congruence.
Qed.
End login.
End authstore.

(** * Examples *)

Module authstore_examples.
Import auth authstore.

(** A key is its own text and its own fingerprint. *)
#[export] Instance plain_ssh : SSH := {|
  PublicKey := string;
  ParseAuthorizedKey line := if line == "junk" then Err (New "no key found") else Ok (line, []);
  IsCertificate key := HasPrefix key "ssh-cert"; KeyType key := if HasPrefix key "ssh-dss" then "ssh-dss" else "ssh-ed25519";
  MarshalAuthorizedKey key := key +:+ " "; FingerprintSHA256 key := key
|}.
Definition lower_ : string -> string := fun s => of_bytes (map lower_byte (bytes s)).
Definition run_ {A} (p : prog effect A) (s : db) : A * db := exec (handle lower_) p s.

(** The accounts and the repository of the organizations' examples. *)
Definition start : db :=
  mkDb access.access_examples.start ∅ [] [] [] 1 [repeat 7 32; repeat 8 32] 10 10.
Definition alice : string := access.access_examples.alice.
Definition bob : string := access.access_examples.bob.
Definition carol : string := access.access_examples.carol.
Definition tools : store.RepositoryRow := store.mkRepositoryRow access.access_examples.tools None.

Definition laptop (did : string) : CreateTokenInput :=
  mkTokenInput did " laptop " [ScopeRepositoryWrite; ScopeRepositoryRead] (Some 50) (Some 100).
Definition issued {A} (none : A) (p : svc effect (A * string)) (s : db) : A * string * db :=
  match run_ p s with (Ok (a, plaintext), s') => (a, plaintext, s') | (Err _, s') => (none, EmptyString, s') end.
Definition no_token : AccessToken := mkToken 0 EmptyString EmptyString EmptyString [] [] None 0 None None None.
Definition bobs := Eval vm_compute in issued no_token (CreateToken (laptop bob)) start.
Definition token : AccessToken := fst (fst bobs).
Definition plaintext : string := snd (fst bobs).
Definition with_token : db := snd bobs.

Lemma start_invariant : invariant start.
Proof. split; split; cbn; constructor. Qed.
Lemma bobs_created : exec (handle lower_) (CreateToken (laptop bob)) start = (Ok (token, plaintext), with_token).
Proof. vm_compute. reflexivity. Qed.
Lemma with_token_invariant : invariant with_token.
Proof.
  eapply (kept_after lower_ (CreateToken (laptop bob)) start); [constructor | apply start_invariant |].
  apply bobs_created.
Qed.

(** A token for one repository, whose owner may write to it through a team. *)
Lemma push_authorized_iff_witness :
  let push := exec (handle lower_) (AuthorizeWrite (Some plaintext) (access.repository_id tools)) with_token in
  presents with_token plaintext token /\ grants_push with_token tools token /\
  push = (Ok tt, used token with_token).
Proof.
  assert (Hp : presents with_token plaintext token).
  { unfold presents. split_and!; [done | left | apply (bool_decide_unpack _); vm_compute; done | done | done]. }
  assert (Hg : grants_push with_token tools token).
  { unfold grants_push. split_and!; [left | by right | vm_compute; done]. }
  split; [done |]. split; [done |].
  apply (push_authorized_iff lower_ with_token tools plaintext); try done.
  - apply with_token_invariant.
  - apply access.access_examples.start_keys.
  - left.
Defined.
Example push_refused :
  (fst (run_ (AuthorizeWrite (Some plaintext) 51) with_token),
   fst (run_ (AuthorizeWrite (Some plaintext) 50)
          (mkDb (core_ with_token) ∅ (tokens with_token) [] [] 1 [] 10 100)),
   fst (run_ (AuthorizeWrite (Some EmptyString) 50) with_token))
  = (Err ErrForbidden, Err (wrapf "authenticate Git token: %w" ErrUnauthorized), Err ErrUnauthorized).
Proof. vm_compute. reflexivity. Qed.

Definition revoked_ : db := snd (exec (handle lower_) (RevokeToken bob 1) with_token).
Lemma credentials_history_witness :
  invariant start /\ rtc (step lower_) start revoked_ /\
  credentials (tokens revoked_) /\ credentials (sessions revoked_) /\ credentials (keys revoked_) /\
  grown (tokens start) (tokens revoked_) /\ grown (sessions start) (sessions revoked_) /\
  grown (keys start) (keys revoked_).
Proof.
  assert (Hs : rtc (step lower_) start revoked_).
  { eapply rtc_l; [| eapply rtc_once; apply step_call; constructor].
    replace with_token with (snd (exec (handle lower_) (CreateToken (laptop bob)) start))
      by by rewrite bobs_created. apply step_call. constructor. }
  split; [apply start_invariant |]. split; [exact Hs |].
  apply (credentials_history lower_ start revoked_ start_invariant Hs).
Defined.

Lemma revocation_final_witness :
  fst (exec (handle lower_) (RevokeToken bob 1) with_token) = Ok tt /\
  exists t, t ∈ tokens with_token /\ Token_ID t = 1 /\ Token_AccountDID t = TrimSpace bob /\
     Token_RevokedAt t = None /\
     forall plaintext, digest plaintext = Token_Hash t ->
       exec (handle lower_) (AuthenticateToken plaintext) revoked_ = (Err ErrUnauthorized, revoked_) /\
       forall repo, exists e, exec (handle lower_) (AuthorizeWrite (Some plaintext) repo) revoked_ = (Err e, revoked_) /\
         Is e ErrUnauthorized = true.
Proof.
  split; [vm_compute; reflexivity |].
  apply (proj1 (revocation_final lower_ with_token revoked_ with_token_invariant) bob 1).
  - vm_compute. reflexivity.
  - apply rtc_refl.
Defined.

Lemma issued_credentials_work_witness :
  exec (handle lower_) (CreateToken (laptop bob)) start = (Ok (token, plaintext), with_token) /\
  exec (handle lower_) (AuthenticateToken plaintext) with_token = (Ok token, used token with_token).
Proof.
  split; [apply bobs_created |].
  apply (proj1 (issued_credentials_work lower_ start with_token start_invariant) (laptop bob) token plaintext).
  - apply bobs_created.
  - vm_compute. reflexivity.
Defined.
Example key_registered :
  let create := CreateSSHKey (mkKeyInput alice "desk" " ssh-ed25519 AAAA ") in
  let '(r, s) := run_ create start in
  (fst (run_ (Lookup (Some "ssh-ed25519 AAAA")) s), fst (run_ create s),
   fst (run_ (CreateSSHKey (mkKeyInput bob "desk" "ssh-dss AAAA")) s))
  = (Ok (mkSSHIdentity 1 alice), Err (wrapf "store SSH key: %w" ErrConflict),
     Err (invalid (New "legacy DSA keys are not supported"))).
Proof. vm_compute. reflexivity. Qed.

(** Alice takes the handle Bob had. *)
Definition named := snd (run_ (postgres.UpsertLogin bob "Bob.example" 20) start).
Definition taken := snd (run_ (postgres.UpsertLogin alice " bob.example" 30) named).
Lemma lower_byte_twice b : lower_byte (lower_byte b) = lower_byte b.
Proof. unfold lower_byte, between. repeat case_match; lia. Qed.
Lemma lower_idempotent s : lower_ (lower_ s) = lower_ s.
Proof.
  unfold lower_. rewrite bytes_of_bytes.
  - rewrite map_map. f_equal. apply map_ext. apply lower_byte_twice.
  - apply Forall_map. eapply Forall_impl; [apply bytes_is_byte |]. intros b Hb.
    unfold is_byte, lower_byte, between in *. case_match; lia.
Qed.
Lemma exec_Ok_pair {A} (p : svc effect A) s a :
  fst (run_ p s) = Ok a -> exec (handle lower_) p s = (Ok a, snd (run_ p s)).
Proof. unfold run_. destruct (exec _ p s). cbn. by intros ->. Qed.
Lemma named_routes : orgstore.routes (core_ named) = [transferstore.mkRoute "bob.example" (Some bob) None 20].
Proof. vm_compute. reflexivity. Qed.
Lemma login_owns_handle_witness :
  routes_ok lower_ named /\ routes_ok lower_ taken /\
  (exists r, r ∈ orgstore.routes (core_ taken) /\ transferstore.route_alias r = "bob.example" /\
     transferstore.route_account r = Some alice) /\
  (exists account, exec (handle lower_) (postgres.UpsertLogin alice " bob.example" 30) named = (Ok account, taken)).
Proof.
  assert (H0 : routes_ok lower_ start) by (split; [constructor | by intros r did ?%elem_of_nil]).
  assert (Hn : routes_ok lower_ named).
  { eapply (login_owns_handle lower_ lower_idempotent start named bob "Bob.example" 20); [done |].
    apply exec_Ok_pair. vm_compute. reflexivity. }
  assert (He : exists account,
    exec (handle lower_) (postgres.UpsertLogin alice " bob.example" 30) named = (Ok account, taken))
    by (eexists; apply exec_Ok_pair; vm_compute; reflexivity).
  split; [done |]. destruct He as [account He].
  pose proof (login_owns_handle lower_ lower_idempotent named taken alice " bob.example" 30 account Hn He)
    as (_ & _ & Ht & _ & Hh & _).
  split; [done |]. split; [| by exists account].
  destruct (Hh "bob.example") as (r & Hr & Ha & [Hd | [Ho Hno]]); [vm_compute; reflexivity | |].
  - exists r. split; [exact Hr |]. rewrite Ha, Hd. split; vm_compute; reflexivity.
  - exfalso. rewrite named_routes in Hno. by apply list_elem_of_singleton in Hno as ->.
Defined.
Example handle_taken :
  (map (fun r => (transferstore.route_alias r, transferstore.route_account r)) (orgstore.routes (core_ taken)),
   orgstore.accounts (core_ taken) !! bob, orgstore.accounts (core_ taken) !! alice)
  = ([("bob.example", Some alice)], Some (Some "Bob.example"), Some (Some "bob.example")).
Proof. vm_compute. reflexivity. Qed.
End authstore_examples.
