(* ===== verification/Gates.v ===== *)
(** * Gates: who may use the REST API (internal/restapi/handler.go and transfer.go).

    Every handler of a request that needs an identity starts with one of these
    gates: they authenticate the cookie or the bearer token, check the origin of a
    browser's request and the scopes of a token, resolve the repository of the path
    and ask the permission queries. *)

From S2P Require Import Prelude.
From S2P Require Import GoText.
From S2P Require Import Encoding.
From S2P Require Import Cursor.
From S2P Require Import Repository.
From S2P Require Import OrganizationStore.
From S2P Require Import Access.
From S2P Require Import Auth.
From S2P Require Import AuthStore.

Module gates.
Import auth.

Definition ErrObjectNotFound : error := New "Git object or revision not found".

(** What the gates read of a request. *)
Record request := mkRequest {
  Cookie : option string; Authorization : list string; Origin : string
}.
Record principal := mkPrincipal {
  accountDID : string; sessionID : UUID; session : bool; scopes_ : list string;
  repositoryID : option UUID
}.
(** The dependencies that may be absent, and the origin the service is served from. *)
Record apiHandler := mkHandler {
  Sessions : bool; TokenAuth : bool; AdminAuthorizer : bool; WriteAuthorizer : bool;
  CommitStatuses : bool; origin : string
}.

(** The calls of the services behind the gates, and of [auth]. *)
Inductive effect : Type -> Type :=
| Auth {X} (e : auth.effect X) : effect X
| GetByOwnerSlug (owner slug : string) : effect (result repository.Repository)
| Git_Commit (id : UUID) (sha : string) : effect (result string).

Fixpoint embed {A} (p : prog auth.effect A) : prog effect A :=
  match p with Ret a => Ret a | Vis e k => Vis (Auth e) (fun x => embed (k x)) end.

Section gates.
Context (handler : apiHandler).

(** A bearer token, unless it is malformed. *)
Definition bearerToken (r : request) : option string :=
  match Authorization r with
  | [value] =>
      if negb (HasPrefix value "Bearer ") then None else
      let value := TrimPrefix value "Bearer " in
      if (value != EmptyString) && negb (ContainsAny value (of_bytes [32; 9; 13; 10])) then Some value else None
  | _ => None
  end.
Definition validOrigin (r : request) : bool := Origin r == origin handler.

Definition authenticate (r : request) : svc effect principal :=
  match Cookie r with
  | Some value =>
      if negb (Sessions handler) then fail ErrUnauthorized else
      let? identity := embed (AuthenticateSession value) in
      done_ (mkPrincipal (SI_AccountDID identity) (SessionID identity) true [] None)
  | None =>
      match bearerToken r with
      | None => fail ErrUnauthorized
      | Some plaintext =>
          if negb (TokenAuth handler) then fail ErrUnauthorized else
          let? token := embed (AuthenticateToken plaintext) in
          done_ (mkPrincipal (Token_AccountDID token) uuid_Nil false (Scopes token) (RepositoryID token))
      end
  end.
Definition optionalSessionViewer (r : request) : svc effect string :=
  match Cookie r with
  | None => done_ EmptyString
  | Some value =>
      if negb (Sessions handler) then fail ErrUnauthorized else
      let? identity := embed (AuthenticateSession value) in
      done_ (SI_AccountDID identity)
  end.

Definition requireSession (r : request) (mutation : bool) : svc effect principal :=
  let? identity := authenticate r in
  if negb (session identity) then fail ErrForbidden else
  if mutation && negb (validOrigin r) then fail ErrForbidden else
  done_ identity.

Definition requireRepositoryWrite (r : request) : svc effect principal :=
  let? identity := authenticate r in
  if session identity
  then if negb (validOrigin r) then fail ErrForbidden else done_ identity
  else if is_some (repositoryID identity) || negb (contains (scopes_ identity) ScopeRepositoryWrite)
       then fail ErrForbidden
       else done_ identity.

Definition notificationIdentity (r : request) (mutation : bool) : svc effect principal :=
  let? identity := authenticate r in
  if mutation && session identity && negb (validOrigin r) then fail ErrForbidden else
  if negb (session identity)
     && (is_some (repositoryID identity)
         || (negb (contains (scopes_ identity) ScopeRepositoryRead)
             && negb (contains (scopes_ identity) ScopeRepositoryWrite)))
  then fail ErrForbidden
  else done_ identity.

(** [identity.repositoryID != nil && *identity.repositoryID != id]. *)
Definition elsewhere (identity : principal) (id : UUID) : bool :=
  match repositoryID identity with Some bound => negb (bound =? id) | None => false end.

(** [err != nil || repo.State != StateActive] is not found. *)
Definition activeRepository (owner slug : string) : svc effect repository.Repository :=
  let! found := call (GetByOwnerSlug owner slug) in
  match found with
  | Err _ => fail repository.ErrNotFound
  | Ok repo => if repository.Repository_State repo != repository.StateActive
               then fail repository.ErrNotFound else done_ repo
  end.

Definition authorizeRepositoryAdmin (identity : principal) (id : UUID) : svc effect unit :=
  if negb (session identity)
     && (negb (contains (scopes_ identity) ScopeRepositoryWrite) || elsewhere identity id)
  then fail ErrForbidden else
  if negb (AdminAuthorizer handler) then fail ErrForbidden else
  let? allowed := wrapErr (wrapf "authorize repository administration: %w")
                    (embed (postgres.CanAdminRepository (accountDID identity) id)) in
  if negb allowed then fail ErrForbidden else done_ tt.

Definition requireRepositoryAdmin (r : request) (owner slug : string) (mutation : bool)
    : svc effect (principal * repository.Repository) :=
  let? identity := authenticate r in
  if mutation && session identity && negb (validOrigin r) then fail ErrForbidden else
  let? repo := activeRepository owner slug in
  let? _ := authorizeRepositoryAdmin identity (repository.ID repo) in
  done_ (identity, repo).

Definition requireRepositoryPathWrite (r : request) (owner slug : string) (mutation : bool)
    : svc effect (principal * repository.Repository) :=
  let? identity := authenticate r in
  if mutation && session identity && negb (validOrigin r) then fail ErrForbidden else
  let? repo := activeRepository owner slug in
  if is_some (repository.ArchivedAt repo) then fail ErrForbidden else
  if negb (session identity)
     && (negb (contains (scopes_ identity) ScopeRepositoryWrite) || elsewhere identity (repository.ID repo))
  then fail ErrForbidden else
  if negb (WriteAuthorizer handler) then fail ErrForbidden else
  let? allowed := wrapErr (wrapf "authorize repository write: %w")
                    (embed (postgres.CanWriteRepository (accountDID identity) (repository.ID repo))) in
  if negb allowed then fail ErrForbidden else
  done_ (identity, repo).

Definition canManageRepository (r : request) (id : UUID) : svc effect bool :=
  if negb (is_some (Cookie r)) && negb (is_some (bearerToken r)) then done_ false else
  let? identity := authenticate r in
  if negb (session identity)
     && (negb (contains (scopes_ identity) ScopeRepositoryWrite) || elsewhere identity id)
  then done_ false else
  if negb (WriteAuthorizer handler) then done_ false else
  wrapErr (wrapf "authorize release management: %w")
    (embed (postgres.CanWriteRepository (accountDID identity) id)).

Definition readableRepository (r : request) (owner slug : string) : svc effect repository.Repository :=
  let? repo := activeRepository owner slug in
  if repository.Repository_Visibility repo == repository.VisibilityPublic then done_ repo else
  let? identity := authenticate r in
  if negb (session identity)
     && ((negb (contains (scopes_ identity) ScopeRepositoryRead)
          && negb (contains (scopes_ identity) ScopeRepositoryWrite))
         || elsewhere identity (repository.ID repo))
  then fail repository.ErrNotFound else
  let? allowed := wrapErr (wrapf "authorize repository read: %w")
                    (embed (postgres.CanReadRepository (accountDID identity) (repository.ID repo))) in
  if negb allowed then fail repository.ErrNotFound else done_ repo.

(** [sha != ""]: the commit must be of the repository. *)
Definition checkCommit (id : UUID) (sha : string) : svc effect unit :=
  if sha == EmptyString then done_ tt else
  let? found := call (Git_Commit id sha) in
  if found != sha then fail ErrObjectNotFound else done_ tt.

Definition commitStatusRepository (r : request) (owner slug sha : string)
    : svc effect repository.Repository :=
  if negb (CommitStatuses handler) then fail repository.ErrNotFound else
  let? repo := readableRepository r owner slug in
  let? _ := checkCommit (repository.ID repo) sha in
  done_ repo.

Definition requireCommitStatusWriter (r : request) (owner slug sha : string)
    : svc effect (principal * repository.Repository) :=
  let? identity := authenticate r in
  if session identity && negb (validOrigin r) then fail ErrForbidden else
  let? repo := activeRepository owner slug in
  let? _ :=
    (if negb (session identity)
     then if negb (contains (scopes_ identity) ScopeRepositoryStatus)
             || match repositoryID identity with
                | None => true
                | Some bound => negb (bound =? repository.ID repo)
                end
          then fail ErrForbidden else done_ tt
     else authorizeRepositoryAdmin identity (repository.ID repo)) in
  if negb (CommitStatuses handler) then fail repository.ErrNotFound else
  let? _ := checkCommit (repository.ID repo) sha in
  done_ (identity, repo).

(** ** Transfers (transfer.go) *)

Definition transferIdentity (r : request) (mutation : bool) : svc effect principal :=
  let? identity := authenticate r in
  if session identity
  then if mutation && negb (validOrigin r) then fail ErrForbidden else done_ identity
  else let wantedScope := if mutation then ScopeRepositoryWrite else ScopeRepositoryRead in
       if negb (contains (scopes_ identity) wantedScope)
          && negb ((wantedScope == ScopeRepositoryRead) && contains (scopes_ identity) ScopeRepositoryWrite)
       then fail ErrForbidden else done_ identity.
Definition validateTransferTokenRepository (identity : principal) (id : UUID) : result unit :=
  reject_if elsewhere identity id with ErrForbidden ;; Ok tt.
Definition transferRepository (identity : principal) (owner slug : string)
    : svc effect repository.Repository :=
  let? repo := activeRepository owner slug in
  let? _ := lift (validateTransferTokenRepository identity (repository.ID repo)) in
  done_ repo.
End gates.

(** ** What the gates decide *)

Section decide.
Context (handler : apiHandler) (lower : string -> string) (world : forall X, effect X -> X).
#[local] Abbreviation db := authstore.db.

Definition handle X (e : effect X) (s : db) : X * db :=
  match e in effect X return (effect X -> X) -> X * db with
  | Auth e => fun _ => authstore.handle lower _ e s
  | e => fun answer => (answer e, s)
  end (world X).

Lemma exec_embed {A} (p : prog auth.effect A) s :
  exec handle (embed p) s = exec (authstore.handle lower) p s.
Proof.
  revert s. induction p as [a | X e k IH]; intros s; cbn; [done |]. rewrite !exec_vis. cbn.
  by destruct (authstore.handle lower X e s).
Qed.

(** Who a request is from. *)
Definition authenticated (s : db) (r : request) : result principal :=
  match Cookie r with
  | Some value =>
      if negb (Sessions handler) || (value == EmptyString) then Err ErrUnauthorized else
      match find_row ErrNoRows (authstore.active_session (authstore.digest value) (authstore.clock s))
              (authstore.sessions s) with
      | Ok x => Ok (mkPrincipal (Session_AccountDID x) (Session_ID x) true [] None)
      | Err _ => Err ErrUnauthorized
      end
  | None =>
      match bearerToken r with
      | None => Err ErrUnauthorized
      | Some plaintext =>
          if negb (TokenAuth handler) || (plaintext == EmptyString) then Err ErrUnauthorized else
          match find_row ErrNoRows (authstore.active_token (authstore.digest plaintext) (authstore.db_clock s))
                  (authstore.tokens s) with
          | Ok t => Ok (mkPrincipal (Token_AccountDID t) uuid_Nil false (Scopes t) (RepositoryID t))
          | Err _ => Err ErrUnauthorized
          end
      end
  end.

Lemma exec_authenticate s r : exists s',
  exec handle (authenticate handler r) s = (authenticated s r, s') /\ authstore.core_ s' = authstore.core_ s.
Proof.
  unfold authenticate, authenticated. destruct (Cookie r) as [value |].
  - destruct (Sessions handler); [| by exists s]. cbn [negb orb].
    rewrite exec_then, exec_embed, authstore.exec_AuthenticateSession.
    destruct (value == EmptyString); [by exists s |]. destruct (find_row _ _ _); by eexists.
  - destruct (bearerToken r) as [plaintext |]; [| by exists s].
    destruct (TokenAuth handler); [| by exists s]. cbn [negb orb].
    rewrite exec_then, exec_embed, authstore.exec_AuthenticateToken.
    destruct (plaintext == EmptyString); [by exists s |]. destruct (find_row _ _ _); by eexists.
Qed.

(** A browser's request comes from a page of the service. *)
Definition same_site (r : request) (p : principal) : Prop :=
  session p = true -> Origin r = origin handler.
(** A token has one of the scopes, and is for the repository. *)
Definition scoped (allowed : list string) (p : principal) : Prop :=
  exists scope, scope ∈ allowed /\ scope ∈ scopes_ p.
Definition reaches (id : UUID) (p : principal) : Prop :=
  repositoryID p = None \/ repositoryID p = Some id.
Definition empowered (allowed : list string) (id : UUID) (p : principal) : Prop :=
  session p = true \/ scoped allowed p /\ reaches id p.
Definition found (owner slug : string) (repo : repository.Repository) : Prop :=
  world _ (GetByOwnerSlug owner slug) = Ok repo /\
  repository.Repository_State repo = repository.StateActive.
Definition has_commit (id : UUID) (sha : string) : Prop :=
  sha = EmptyString \/ world _ (Git_Commit id sha) = Ok sha.

Lemma scoped1 scope p : scoped [scope] p <-> contains (scopes_ p) scope = true.
Proof. unfold scoped. rewrite authstore.contains_iff. set_solver. Qed.
Lemma scoped2 scope scope' p : scoped [scope; scope'] p <->
  contains (scopes_ p) scope || contains (scopes_ p) scope' = true.
Proof. unfold scoped. rewrite orb_true_iff, !authstore.contains_iff. set_solver. Qed.
Lemma reaches_iff id p : reaches id p <-> elsewhere p id = false.
Proof.
  unfold reaches, elsewhere. destruct (repositoryID p) as [bound |]; [| naive_solver].
  rewrite negb_false_iff, Z.eqb_eq. naive_solver.
Qed.
Lemma validOrigin_iff r : validOrigin handler r = true <-> Origin r = origin handler.
Proof. apply String.eqb_eq. Qed.

(** The outcome of a gate. *)
Definition passes {A} (p : svc effect A) (s : db) (a : A) : Prop := fst (exec handle p s) = Ok a.

Lemma passes_authenticate {A} (f : principal -> svc effect A) s r a (P : principal -> Prop) :
  (forall p s', authstore.core_ s' = authstore.core_ s -> passes (f p) s' a <-> P p) ->
  passes (svc_bind (authenticate handler r) f) s a <-> exists p, authenticated s r = Ok p /\ P p.
Proof.
  intros Hf. unfold passes. rewrite exec_then. destruct (exec_authenticate s r) as (s' & -> & Hc).
  destruct (authenticated s r) as [p | e]; [| naive_solver]. rewrite (Hf p s' Hc). naive_solver.
Qed.
Lemma passes_repository {A} (f : repository.Repository -> svc effect A) owner slug s a :
  passes (svc_bind (activeRepository owner slug) f) s a <->
  exists repo, found owner slug repo /\ passes (f repo) s a.
Proof.
  unfold passes, activeRepository, found. rewrite exec_then, exec_bind, exec_call. cbn [handle].
  destruct (world _ (GetByOwnerSlug owner slug)) as [repo | e]; [| naive_solver].
  destruct (repository.Repository_State repo != repository.StateActive) eqn:Hs.
  - apply negb_true_iff, String.eqb_neq in Hs. cbn. naive_solver.
  - apply neq_false in Hs. cbn. naive_solver.
Qed.
Lemma passes_if {A} (c : bool) e (p : svc effect A) s a :
  passes (if c then fail e else p) s a <-> c = false /\ passes p s a.
Proof. destruct c; cbn; unfold passes; cbn; naive_solver. Qed.
Lemma passes_done {A} (b : A) s a : passes (done_ b) s a <-> b = a.
Proof. unfold passes. cbn. naive_solver. Qed.
Lemma passes_query {A} wrap wrap' (q : auth.effect (result bool)) b (f : bool -> svc effect A) s a :
  authstore.handle lower _ q s = (Ok b, s) ->
  passes (svc_bind (wrapErr wrap (embed (wrapErr wrap' (call q)))) f) s a <-> passes (f b) s a.
Proof.
  intros Hq. unfold passes. rewrite exec_then, exec_wrap, exec_embed, exec_wrap, exec_call, Hq. done.
Qed.
Lemma passes_commit {A} id sha (f : unit -> svc effect A) s a :
  passes (svc_bind (checkCommit id sha) f) s a <-> has_commit id sha /\ passes (f tt) s a.
Proof.
  unfold passes, checkCommit, has_commit. rewrite exec_then.
  destruct (String.eqb_spec sha EmptyString) as [-> | Hs]; [cbn; naive_solver |].
  rewrite exec_then, exec_call. cbn [handle]. destruct (world _ (Git_Commit id sha)) as [x | e]; [| naive_solver].
  destruct (String.eqb_spec x sha) as [-> | Hx]; cbn; naive_solver.
Qed.

(** The conditions of the gates. *)
Lemma cross_site mutation r p :
  mutation && session p && negb (validOrigin handler r) = false <-> (mutation = true -> same_site r p).
Proof.
  unfold same_site. rewrite <- validOrigin_iff.
  destruct mutation, (session p), (validOrigin handler r); cbn; intuition congruence.
Qed.
Lemma unempowered scope id p :
  negb (session p) && (negb (contains (scopes_ p) scope) || elsewhere p id) = false
  <-> empowered [scope] id p.
Proof.
  unfold empowered. rewrite scoped1, reaches_iff.
  destruct (session p), (contains _ _), (elsewhere p id); cbn; intuition congruence.
Qed.
Lemma unempowered2 scope scope' id p :
  negb (session p) && ((negb (contains (scopes_ p) scope) && negb (contains (scopes_ p) scope')) || elsewhere p id)
    = false <-> empowered [scope; scope'] id p.
Proof.
  unfold empowered. rewrite scoped2, reaches_iff.
  destruct (session p), (contains _ scope), (contains _ scope'), (elsewhere p id); cbn; intuition congruence.
Qed.

Lemma admin_allowed p id s (f : unit -> svc effect (principal * repository.Repository)) a :
  passes (svc_bind (authorizeRepositoryAdmin handler p id) f) s a <->
  empowered [ScopeRepositoryWrite] id p /\ AdminAuthorizer handler = true /\
  orgstore.canAdminRepository (authstore.core_ s) id (accountDID p) = true /\ passes (f tt) s a.
Proof.
  unfold authorizeRepositoryAdmin. rewrite <- unempowered. destruct (_ && _); [unfold passes; cbn; intuition congruence |].
  destruct (AdminAuthorizer handler); cbn [negb]; [| unfold passes; cbn; intuition congruence].
  unfold passes. rewrite exec_then, exec_then, exec_wrap, exec_embed. unfold postgres.CanAdminRepository.
  rewrite exec_wrap, exec_call. cbn [authstore.handle mapErr].
  destruct (orgstore.canAdminRepository _ _ _); cbn; intuition congruence.
Qed.

(** Rewrites a gate after [authenticate] into its conditions. *)
Ltac gate := rewrite ?passes_if, ?passes_done, ?negb_false_iff, ?cross_site, ?unempowered, ?unempowered2.

Lemma requireSession_iff r mutation s p :
  passes (requireSession handler r mutation) s p <->
  authenticated s r = Ok p /\ session p = true /\ (mutation = true -> Origin r = origin handler).
Proof.
  unfold requireSession. rewrite (passes_authenticate _ _ _ _ (fun q =>
    session q = true /\ (mutation = true -> Origin r = origin handler) /\ q = p)); [naive_solver |].
  intros q s' _. gate. rewrite <- validOrigin_iff.
  destruct mutation, (validOrigin handler r); cbn; intuition congruence.
Qed.
Lemma requireRepositoryWrite_iff r s p :
  passes (requireRepositoryWrite handler r) s p <->
  authenticated s r = Ok p /\ same_site r p /\
  (session p = true \/ repositoryID p = None /\ scoped [ScopeRepositoryWrite] p).
Proof.
  unfold requireRepositoryWrite. rewrite (passes_authenticate _ _ _ _ (fun q => same_site r q /\
    (session q = true \/ repositoryID q = None /\ scoped [ScopeRepositoryWrite] q) /\ q = p)); [naive_solver |].
  intros q s' _. unfold same_site. rewrite scoped1. destruct (session q); gate.
  - rewrite validOrigin_iff. intuition congruence.
  - destruct (repositoryID q), (contains _ _); cbn; intuition congruence.
Qed.
Lemma notificationIdentity_iff r mutation s p :
  passes (notificationIdentity handler r mutation) s p <->
  authenticated s r = Ok p /\ (mutation = true -> same_site r p) /\
  (session p = true \/ repositoryID p = None /\ scoped [ScopeRepositoryRead; ScopeRepositoryWrite] p).
Proof.
  unfold notificationIdentity. rewrite (passes_authenticate _ _ _ _ (fun q => (mutation = true -> same_site r q) /\
    (session q = true \/ repositoryID q = None /\ scoped [ScopeRepositoryRead; ScopeRepositoryWrite] q)
    /\ q = p)); [naive_solver |].
  intros q s' _. gate. rewrite scoped2.
  destruct (session q), (repositoryID q), (contains _ ScopeRepositoryRead), (contains _ ScopeRepositoryWrite);
    cbn; intuition congruence.
Qed.
Lemma transferIdentity_iff r mutation s p :
  passes (transferIdentity handler r mutation) s p <->
  authenticated s r = Ok p /\ (mutation = true -> same_site r p) /\
  (session p = true \/
   scoped (if mutation then [ScopeRepositoryWrite] else [ScopeRepositoryRead; ScopeRepositoryWrite]) p).
Proof.
  unfold transferIdentity. rewrite (passes_authenticate _ _ _ _ (fun q => (mutation = true -> same_site r q) /\
    (session q = true \/
     scoped (if mutation then [ScopeRepositoryWrite] else [ScopeRepositoryRead; ScopeRepositoryWrite]) q)
    /\ q = p)); [naive_solver |].
  intros q s' _. unfold same_site. destruct (session q); gate.
  - rewrite <- validOrigin_iff. destruct mutation, (validOrigin handler r); cbn; intuition congruence.
  - cbv zeta. gate. destruct mutation; rewrite ?scoped1, ?scoped2;
      [change (ScopeRepositoryWrite == ScopeRepositoryRead) with false
      | change (ScopeRepositoryRead == ScopeRepositoryRead) with true].
    + destruct (contains _ _); cbn; intuition congruence.
    + destruct (contains _ ScopeRepositoryRead), (contains _ ScopeRepositoryWrite); cbn; intuition congruence.
Qed.

Lemma requireRepositoryAdmin_iff r owner slug mutation s p repo :
  passes (requireRepositoryAdmin handler r owner slug mutation) s (p, repo) <->
  authenticated s r = Ok p /\ (mutation = true -> same_site r p) /\ found owner slug repo /\
  empowered [ScopeRepositoryWrite] (repository.ID repo) p /\ AdminAuthorizer handler = true /\
  orgstore.canAdminRepository (authstore.core_ s) (repository.ID repo) (accountDID p) = true.
Proof.
  unfold requireRepositoryAdmin. rewrite (passes_authenticate _ _ _ _ (fun q =>
    (mutation = true -> same_site r q) /\ exists repo', found owner slug repo' /\
    empowered [ScopeRepositoryWrite] (repository.ID repo') q /\ AdminAuthorizer handler = true /\
    orgstore.canAdminRepository (authstore.core_ s) (repository.ID repo') (accountDID q) = true /\
    (q, repo') = (p, repo))); [naive_solver |].
  intros q s' Hc. gate. rewrite passes_repository. setoid_rewrite admin_allowed. setoid_rewrite passes_done.
  by rewrite Hc.
Qed.
Lemma requireRepositoryPathWrite_iff r owner slug mutation s p repo :
  passes (requireRepositoryPathWrite handler r owner slug mutation) s (p, repo) <->
  authenticated s r = Ok p /\ (mutation = true -> same_site r p) /\ found owner slug repo /\
  repository.ArchivedAt repo = None /\ empowered [ScopeRepositoryWrite] (repository.ID repo) p /\
  WriteAuthorizer handler = true /\
  orgstore.canWriteRepository (authstore.core_ s) (repository.ID repo) (accountDID p) = true.
Proof.
  unfold requireRepositoryPathWrite. rewrite (passes_authenticate _ _ _ _ (fun q =>
    (mutation = true -> same_site r q) /\ exists repo', found owner slug repo' /\
    repository.ArchivedAt repo' = None /\
    empowered [ScopeRepositoryWrite] (repository.ID repo') q /\ WriteAuthorizer handler = true /\
    orgstore.canWriteRepository (authstore.core_ s) (repository.ID repo') (accountDID q) = true /\
    (q, repo') = (p, repo))); [naive_solver |].
  intros q s' Hc. gate. rewrite passes_repository. apply and_iff_compat_l, exist_proper. intros repo'.
  gate. unfold postgres.CanWriteRepository. rewrite passes_query by reflexivity. gate. rewrite Hc.
  destruct (repository.ArchivedAt repo'), (orgstore.canWriteRepository _ _ _); cbn; intuition congruence.
Qed.
Lemma readableRepository_iff r owner slug s repo :
  passes (readableRepository handler r owner slug) s repo <->
  found owner slug repo /\
  (repository.Repository_Visibility repo = repository.VisibilityPublic \/
   exists p, authenticated s r = Ok p /\
     empowered [ScopeRepositoryRead; ScopeRepositoryWrite] (repository.ID repo) p /\
     orgstore.canReadRepository (authstore.core_ s) (repository.ID repo) (accountDID p) = true).
Proof.
  unfold readableRepository. rewrite passes_repository.
  assert (Hk : forall repo', passes (svc_bind (authenticate handler r) (fun identity =>
      if negb (session identity)
         && ((negb (contains (scopes_ identity) ScopeRepositoryRead)
              && negb (contains (scopes_ identity) ScopeRepositoryWrite))
             || elsewhere identity (repository.ID repo'))
      then fail repository.ErrNotFound else
      let? allowed := wrapErr (wrapf "authorize repository read: %w")
                        (embed (postgres.CanReadRepository (accountDID identity) (repository.ID repo'))) in
      if negb allowed then fail repository.ErrNotFound else done_ repo')) s repo <->
    exists p, authenticated s r = Ok p /\
      empowered [ScopeRepositoryRead; ScopeRepositoryWrite] (repository.ID repo') p /\
      orgstore.canReadRepository (authstore.core_ s) (repository.ID repo') (accountDID p) = true /\ repo' = repo).
  { intros repo'. apply passes_authenticate. intros q s' Hc. gate. unfold postgres.CanReadRepository.
    rewrite passes_query by reflexivity. gate. by rewrite Hc. }
  split.
  - intros (repo' & Hf & Hp). destruct (String.eqb_spec (repository.Repository_Visibility repo')
      repository.VisibilityPublic); [apply passes_done in Hp as ->; auto |].
    apply Hk in Hp as (p & Ha & He & Hr & ->). eauto 6.
  - intros [Hf Hv]. exists repo. split; [done |].
    destruct (String.eqb_spec (repository.Repository_Visibility repo) repository.VisibilityPublic);
      [by apply passes_done |]. apply Hk. destruct Hv as [| (p & Ha & He & Hr)]; [done | by exists p].
Qed.
Lemma requireCommitStatusWriter_iff r owner slug sha s p repo :
  passes (requireCommitStatusWriter handler r owner slug sha) s (p, repo) <->
  authenticated s r = Ok p /\ same_site r p /\ found owner slug repo /\ CommitStatuses handler = true /\
  has_commit (repository.ID repo) sha /\
  (session p = true /\ AdminAuthorizer handler = true /\
     orgstore.canAdminRepository (authstore.core_ s) (repository.ID repo) (accountDID p) = true \/
   session p = false /\ scoped [ScopeRepositoryStatus] p /\ repositoryID p = Some (repository.ID repo)).
Proof.
  unfold requireCommitStatusWriter. rewrite (passes_authenticate _ _ _ _ (fun q =>
    same_site r q /\ exists repo', found owner slug repo' /\ CommitStatuses handler = true /\
    has_commit (repository.ID repo') sha /\
    (session q = true /\ AdminAuthorizer handler = true /\
       orgstore.canAdminRepository (authstore.core_ s) (repository.ID repo') (accountDID q) = true \/
     session q = false /\ scoped [ScopeRepositoryStatus] q /\ repositoryID q = Some (repository.ID repo'))
    /\ (q, repo') = (p, repo))); [naive_solver |].
  intros q s' Hc. rewrite passes_if, passes_repository.
  pose proof (cross_site true r q) as Hx. cbn [andb] in Hx. rewrite Hx.
  assert (Htrue : (true = true -> same_site r q) <-> same_site r q) by tauto. rewrite Htrue.
  apply and_iff_compat_l, exist_proper. intros repo'. apply and_iff_compat_l.
  destruct (session q) eqn:Hs; cbn [negb].
  - rewrite admin_allowed, passes_if, passes_commit, passes_done, Hc, negb_false_iff.
    assert (empowered [ScopeRepositoryWrite] (repository.ID repo') q) by by left. intuition congruence.
  - rewrite scoped1. unfold passes at 1. rewrite exec_then.
    destruct (contains _ _) eqn:Hsc; cbn [negb orb]; [| cbn; intuition congruence].
    destruct (repositoryID q) as [bound |]; [| cbn; intuition congruence].
    destruct (Z.eqb_spec bound (repository.ID repo')) as [-> | Hne]; cbn [negb]; [| cbn; intuition congruence].
    change (exec handle (done_ tt) s') with (@Ok unit tt, s'). cbv iota beta. fold (passes (if negb (CommitStatuses handler) then fail repository.ErrNotFound
      else svc_bind (checkCommit (repository.ID repo') sha) (fun _ => done_ (q, repo'))) s' (p, repo)).
    rewrite passes_if, passes_commit, passes_done, negb_false_iff. intuition congruence.
Qed.

(** C21: what each gate of the REST API lets through, exactly. A request comes from a live
    session cookie or else a live bearer token; a change by cookie must come from the
    server's own origin; a token needs its scope and, on a repository, must be bound to
    it or to none; the account needs the role on the repository that the permission
    queries compute; archived repositories refuse path writes; public repositories are
    read by anybody; commit statuses are written by an administrator's session or by a
    token of scope [repository:status] that is bound to the repository. *)
Theorem gates_decide (s : db) (r : request) (mutation : bool) (owner slug sha : string)
    (p : principal) (repo : repository.Repository) :
  let id := repository.ID repo in
  let core := authstore.core_ s in
  let from := authenticated s r = Ok p in
  let trusted := mutation = true -> same_site r p in
  (passes (requireSession handler r mutation) s p <->
     from /\ session p = true /\ (mutation = true -> Origin r = origin handler)) /\
  (passes (requireRepositoryWrite handler r) s p <->
     from /\ same_site r p /\
     (session p = true \/ repositoryID p = None /\ scoped [ScopeRepositoryWrite] p)) /\
  (passes (notificationIdentity handler r mutation) s p <->
     from /\ trusted /\
     (session p = true \/ repositoryID p = None /\ scoped [ScopeRepositoryRead; ScopeRepositoryWrite] p)) /\
  (passes (transferIdentity handler r mutation) s p <->
     from /\ trusted /\
     (session p = true \/
      scoped (if mutation then [ScopeRepositoryWrite] else [ScopeRepositoryRead; ScopeRepositoryWrite]) p)) /\
  (passes (requireRepositoryAdmin handler r owner slug mutation) s (p, repo) <->
     from /\ trusted /\ found owner slug repo /\ empowered [ScopeRepositoryWrite] id p /\
     AdminAuthorizer handler = true /\ orgstore.canAdminRepository core id (accountDID p) = true) /\
  (passes (requireRepositoryPathWrite handler r owner slug mutation) s (p, repo) <->
     from /\ trusted /\ found owner slug repo /\ repository.ArchivedAt repo = None /\
     empowered [ScopeRepositoryWrite] id p /\ WriteAuthorizer handler = true /\
     orgstore.canWriteRepository core id (accountDID p) = true) /\
  (passes (readableRepository handler r owner slug) s repo <->
     found owner slug repo /\
     (repository.Repository_Visibility repo = repository.VisibilityPublic \/
      exists p, authenticated s r = Ok p /\ empowered [ScopeRepositoryRead; ScopeRepositoryWrite] id p /\
        orgstore.canReadRepository core id (accountDID p) = true)) /\
  (passes (requireCommitStatusWriter handler r owner slug sha) s (p, repo) <->
     from /\ same_site r p /\ found owner slug repo /\ CommitStatuses handler = true /\
     has_commit id sha /\
     (session p = true /\ AdminAuthorizer handler = true /\
        orgstore.canAdminRepository core id (accountDID p) = true \/
      session p = false /\ scoped [ScopeRepositoryStatus] p /\ repositoryID p = Some id)).
Proof.
  cbn zeta.
  split_and!; [apply requireSession_iff | apply requireRepositoryWrite_iff | apply notificationIdentity_iff
              | apply transferIdentity_iff | apply requireRepositoryAdmin_iff
              | apply requireRepositoryPathWrite_iff | apply readableRepository_iff
              | apply requireCommitStatusWriter_iff].
Qed.

(** ** Status tokens *)

Lemma any_char_of_bytes f bs : any_char f (of_bytes bs) = existsb (fun b => f (ascii_of b)) bs.
Proof. induction bs as [| b bs IH]; cbn; [done |]. by rewrite IH. Qed.
Lemma encoded_no_blank bs : Forall is_byte bs ->
  ContainsAny (base64.EncodeToString bs) (of_bytes [32; 9; 13; 10]) = false.
Proof.
  intros Hb%base64.sextets_range. unfold ContainsAny, base64.EncodeToString.
  rewrite any_char_of_bytes, existsb_false, Forall_map. eapply Forall_impl; [exact Hb |].
  intros v Hv%base64.char_range. rewrite any_char_of_bytes, existsb_false, Forall_forall.
  intros c Hc. apply Ascii.eqb_neq. intros Heq%(f_equal byte_of).
  rewrite byte_of_ascii_of in Heq by (unfold is_byte; lia).
  rewrite byte_of_ascii_of in Heq by (unfold is_byte; set_unfold in Hc; lia). set_unfold in Hc. lia.
Qed.
(** A token that was issued can be sent. *)
Lemma bearerToken_issued r plaintext value : Forall is_byte value ->
  plaintext = tokenPrefix +:+ base64.EncodeToString value ->
  Authorization r = ["Bearer " +:+ plaintext] -> bearerToken r = Some plaintext.
Proof.
  intros Hb Hp Ha. unfold bearerToken. rewrite Ha, Hp.
  change (HasPrefix ("Bearer " +:+ tokenPrefix +:+ base64.EncodeToString value) "Bearer ") with true.
  change (TrimPrefix ("Bearer " +:+ tokenPrefix +:+ base64.EncodeToString value) "Bearer ")
    with (tokenPrefix +:+ base64.EncodeToString value).
  cbn [negb]. rewrite (proj2 (String.eqb_neq _ _)) by done. cbn [negb andb].
  unfold ContainsAny. rewrite any_char_app. fold (ContainsAny (base64.EncodeToString value) (of_bytes [32; 9; 13; 10])).
  by rewrite encoded_no_blank.
Qed.

(** C25: any account can write the commit statuses of any repository, private ones too:
    an unexpired token of scope [repository:status] that it creates for the id of the
    repository passes the gate, with no assumption on what the account may do there. *)
Theorem status_tokens_need_no_permission (s s' : db) (input : CreateTokenInput) (t : AccessToken)
    (plaintext owner slug : string) (repo : repository.Repository) (r : request) :
  authstore.invariant s ->
  exec (authstore.handle lower) (CreateToken input) s = (Ok (t, plaintext), s') ->
  ScopeRepositoryStatus ∈ T_Scopes input -> T_RepositoryID input = Some (repository.ID repo) ->
  authstore.unexpired (T_ExpiresAt input) (authstore.db_clock s) = true ->
  Cookie r = None -> Authorization r = ["Bearer " +:+ plaintext] -> TokenAuth handler = true ->
  found owner slug repo -> CommitStatuses handler = true ->
  passes (requireCommitStatusWriter handler r owner slug EmptyString) s'
    (mkPrincipal (TrimSpace (T_AccountDID input)) uuid_Nil false (T_Scopes input)
       (Some (repository.ID repo)), repo).
Proof.
  intros Hi He Hsc Hid Hu Hc Ha Hta Hf Hcs.
  assert (Hi' : authstore.invariant s').
  { pose proof (authstore.exec_credentials lower (CreateToken input) s (authstore.CreateToken_inserts input) Hi)
      as [Hi' _]. by rewrite He in Hi'. }
  apply authstore.CreateToken_Ok in He as (Ht & Hh & Hr & Hd & _ & (value & Hb & Hp) & Hdid & Hs & Hrepo & Hx).
  apply requireCommitStatusWriter_iff. split_and!; [| done | done | done | by left |].
  2: { right. split_and!; [done | | done]. exists ScopeRepositoryStatus. split; [by left | done]. }
  unfold authenticated. rewrite Hc, (bearerToken_issued r plaintext value), Hta by done.
  assert (Hne : plaintext <> EmptyString) by by rewrite Hp.
  rewrite (proj2 (String.eqb_neq _ _) Hne). cbn [negb orb].
  rewrite (authstore.presents_found s' plaintext t).
  - by rewrite Hdid, Hs, Hrepo, Hid.
  - done.
  - unfold authstore.presents. rewrite Hx, Hd, Ht. split_and!; [done | apply elem_of_snoc | done..].
Qed.
End decide.
End gates.

(** * Examples *)

Module gates_examples.
Import auth gates.
Import authstore_examples.

Definition service : apiHandler := mkHandler true true true true true "https://adenosine.example".
(** The one repository, under any owner name. *)
Definition world X (e : gates.effect X) : X :=
  match e in gates.effect X return (auth.effect X -> X) -> X with
  | Auth e => fun answer => answer e
  | GetByOwnerSlug _ slug =>
      fun _ => if slug == "tools" then Ok access.access_examples.tools else Err repository.ErrNotFound
  | Git_Commit _ sha => fun _ => Ok sha
  end (fun e => match e in auth.effect X return X with
                | Now => 0
                | _ => Err ErrNotFound
                end).
Definition outcome {A} (p : svc gates.effect A) (s : authstore.db) : result A :=
  fst (exec (gates.handle lower_ world) p s).
Definition bearer (plaintext : string) : request := mkRequest None ["Bearer " +:+ plaintext] EmptyString.

Definition ci : CreateTokenInput := mkTokenInput carol "ci" [ScopeRepositoryStatus] (Some 50) None.
Definition carols := Eval vm_compute in issued no_token (CreateToken ci) start.
Definition ci_token : AccessToken := fst (fst carols).
Definition ci_secret : string := snd (fst carols).
Definition with_ci : authstore.db := snd carols.
Lemma ci_created : exec (authstore.handle lower_) (CreateToken ci) start = (Ok (ci_token, ci_secret), with_ci).
Proof. vm_compute. reflexivity. Qed.

(** Carol may not even read the private repository, and reports on its commits. *)
Lemma status_tokens_need_no_permission_witness :
  orgstore.canReadRepository (authstore.core_ start) 50 carol = false /\
  passes lower_ world (requireCommitStatusWriter service (bearer ci_secret) alice "tools" EmptyString) with_ci
    (mkPrincipal carol uuid_Nil false [ScopeRepositoryStatus] (Some 50), access.access_examples.tools).
Proof.
  split; [vm_compute; reflexivity |].
  apply (status_tokens_need_no_permission service lower_ world start with_ci ci ci_token ci_secret
           alice "tools" access.access_examples.tools (bearer ci_secret) start_invariant ci_created); try reflexivity.
  - left.
  - split; reflexivity.
Defined.

(** Another person's session: no. Their token for writing: no. Bob's: yes. *)
Example gates_run :
  (is_Ok (outcome (requireRepositoryPathWrite service (bearer plaintext) alice "tools" true) with_token),
   outcome (requireRepositoryAdmin service (bearer plaintext) alice "tools" true) with_token,
   outcome (requireCommitStatusWriter service (bearer plaintext) alice "tools" EmptyString) with_token,
   outcome (readableRepository service (bearer ci_secret) alice "tools") with_ci,
   outcome (requireSession service (bearer plaintext) true) with_token,
   outcome (requireRepositoryWrite service (bearer plaintext)) with_token,
   outcome (readableRepository service (bearer "x y") alice "tools") with_token)
  = (true, Err ErrForbidden, Err ErrForbidden, Err repository.ErrNotFound, Err ErrForbidden, Err ErrForbidden,
     Err ErrUnauthorized).
Proof. vm_compute. reflexivity. Qed.
End gates_examples.
