(* ===== verification/GitTransport.v ===== *)
(** * GitTransport: Git over HTTP and over SSH (packages [internal/githttp] and
    [internal/gitssh]).

    The parsers of paths and of commands, and who is served: what a push or a fetch
    asks before the Git process runs, and what is published after it. *)

From S2P Require Import Prelude.
From S2P Require Import GoText.
From S2P Require Import Encoding.
From S2P Require Import Syntax.
From S2P Require Import Repository.
From S2P Require Import Auth.

Module transport.
Import auth.

(** What both servers call; [advertise] lists the refs instead of taking a request. *)
Inductive effect : Type -> Type :=
| Auth {X} (e : auth.effect X) : effect X
| GetByOwnerSlug (owner slug : string) : effect (result repository.Repository)
| UploadPack (id : UUID) (advertise : bool) (protocol : string) : effect (result unit)
| ReceivePack (id : UUID) (advertise : bool) (protocol : string) : effect (result unit)
| GitPushReceived (id : UUID) : effect (result unit)
| WriteString (text : string) : effect bool
| Reply (ok : bool) : effect unit
| SendExitStatus (status : Z) : effect unit.

Fixpoint embed {A} (p : prog auth.effect A) : prog effect A :=
  match p with Ret a => Ret a | Vis e k => Vis (Auth e) (fun x => embed (k x)) end.

Definition newline : string := of_bytes [10].

(** ** Package githttp *)

Module githttp.

(** The parts of a request that are read; [password] is that of [BasicAuth]. *)
Record request := mkRequest {
  Method : string; Path : string; service : string; GitProtocol : string; password : option string
}.
(** A status and its message, or a stream of the content type. *)
Inductive response : Type :=
| NotFound
| Failed (status : Z) (message : string)
| Streamed (contentType : string).

Definition parsePath (path : string) : option (string * string * string) :=
  match Split "/"%char (TrimPrefix path "/") with
  | owner :: name :: rest =>
      if ((length rest =? 1)%nat || (length rest =? 2)%nat) && (owner != EmptyString) && (owner != ".")
         && (owner != "..") && HasSuffix name ".git"
      then
        let slug := TrimSuffix name ".git" in
        if slug == EmptyString then None else
        match rest with
        | [operation] =>
            if (operation == "git-upload-pack") || (operation == "git-receive-pack")
            then Some (owner, slug, operation) else None
        | [info; refs] =>
            if (info == "info") && (refs == "refs") then Some (owner, slug, "info/refs") else None
        | _ => None
        end
      else None
  | _ => None
  end.

Definition authorizeWrite (r : request) (repo : repository.Repository) : prog effect (option response) :=
  let! err :=
    match repository.ArchivedAt repo return svc effect unit with
    | Some _ => fail ErrForbidden
    | None => embed (AuthorizeWrite (password r) (repository.ID repo))
    end in
  Ret match err with
      | Ok _ => None
      | Err e => if Is e ErrUnauthorized then Some (Failed 401 "authentication required")
                 else Some (Failed 403 "permission denied")
      end.

Definition ServeHTTP (r : request) : prog effect response :=
  match parsePath (Path r) with
  | None => Ret NotFound
  | Some (owner, slug, operation) =>
      let! found := call (GetByOwnerSlug owner slug) in
      match found with
      | Err _ => Ret NotFound
      | Ok repo =>
          if (repository.Repository_State repo != repository.StateActive)
             || (repository.Repository_Visibility repo != repository.VisibilityPublic)
          then Ret NotFound else
          let protocol := GitProtocol r in
          if (protocol != EmptyString) && (protocol != "version=1") && (protocol != "version=2")
          then Ret (Failed 400 "unsupported Git protocol") else
          let id := repository.ID repo in
          if (Method r == "GET") && (operation == "info/refs") && (service r == "git-upload-pack") then
            let! ok := call (WriteString ("001e# service=git-upload-pack" +:+ newline +:+ "0000")) in
            let! _ := (if (ok : bool) then call (UploadPack id true protocol) else Ret (Ok tt)) in
            Ret (Streamed "application/x-git-upload-pack-advertisement")
          else if (Method r == "POST") && (operation == "git-upload-pack") then
            let! _ := call (UploadPack id false protocol) in
            Ret (Streamed "application/x-git-upload-pack-result")
          else if (Method r == "GET") && (operation == "info/refs") && (service r == "git-receive-pack") then
            let! denied := authorizeWrite r repo in
            match denied with
            | Some response => Ret response
            | None =>
                let! ok := call (WriteString ("001f# service=git-receive-pack" +:+ newline +:+ "0000")) in
                let! _ := (if (ok : bool) then call (ReceivePack id true protocol) else Ret (Ok tt)) in
                Ret (Streamed "application/x-git-receive-pack-advertisement")
            end
          else if (Method r == "POST") && (operation == "git-receive-pack") then
            let! denied := authorizeWrite r repo in
            match denied with
            | Some response => Ret response
            | None =>
                let! received := call (ReceivePack id false protocol) in
                let! _ := (match received with
                           | Ok _ => call (GitPushReceived id)
                           | Err e => Ret (Err e)
                           end) in
                Ret (Streamed "application/x-git-receive-pack-result")
            end
          else Ret NotFound
      end
  end.
End githttp.

(** ** Package gitssh *)

Module gitssh.

Record command := mkCommand { operation : string; owner : string; slug : string }.

Definition slug_rune (character : Z) : bool :=
  between 97 character 122 || between 48 character 57 || ContainsRune "._-" character.
(** [slug[0]] of a slug that is not empty. *)
Definition slug_start (slug : string) : bool :=
  match String.get 0 slug with
  | Some c => is_lower c || is_digit c
  | None => false
  end.
Definition checkSlug (slug : string) : result unit :=
  reject_if (slug == EmptyString) || (slug == ".") || (slug == "..") with New "repository slug is invalid" ;;
  reject_if negb (forallb slug_rune (runes slug)) with New "repository slug is invalid" ;;
  reject_if negb (slug_start slug) with New "repository slug is invalid" ;;
  Ok tt.

Definition parseCommand (value : string) : result command :=
  let* (operation, value) :=
    (if HasPrefix value "git-upload-pack '"
     then Ok ("upload-pack", TrimPrefix value "git-upload-pack '")
     else if HasPrefix value "git-receive-pack '"
     then Ok ("receive-pack", TrimPrefix value "git-receive-pack '")
     else Err (New "unsupported SSH command")) in
  reject_if negb (HasSuffix value "'") with New "repository path must be single quoted" ;;
  let path := TrimPrefix (TrimSuffix value "'") "/" in
  reject_if ContainsAny path (of_bytes [39; 92; 0; 13; 10; 9])
    with New "repository path contains unsupported characters" ;;
  match Split "/"%char path with
  | [owner; name] =>
      reject_if (owner == EmptyString) || (owner == ".") || (owner == "..")
        with New "repository path must contain an owner and repository" ;;
      reject_if negb (HasSuffix name ".git") with New "repository path must end in .git" ;;
      let slug := TrimSuffix name ".git" in
      let* _ := checkSlug slug in
      Ok (mkCommand operation owner slug)
  | _ => Err (New "repository path must contain an owner and repository")
  end.

(** [ssh.Permissions]: the extensions the server sets. *)
Record Permissions := mkPermissions { accountDIDPermission : string; keyIDPermission : string }.
(** A request of a session channel with its payload, unless that is malformed. *)
Inductive channelRequest : Type :=
| Env (payload : option (string * string))
| Exec (payload : option string)
| OtherRequest.

Section server.
Context `{SSH} (uuid_String : UUID -> string) (uuid_Parse : string -> option UUID).

Definition PublicKeyCallback (user : string) (key : PublicKey) : svc effect Permissions :=
  if user != "git" then fail ErrUnauthorized else
  let? identity := embed (Lookup (Some key)) in
  done_ (mkPermissions (SSH_AccountDID identity) (uuid_String (KeyID identity))).
Definition VerifiedPublicKeyCallback (permissions : Permissions) : svc effect Permissions :=
  match uuid_Parse (keyIDPermission permissions) with
  | None => fail (New "parse authenticated SSH key ID")
  | Some keyID => let? _ := embed (RecordUse keyID) in done_ permissions
  end.

Definition execute (accountDID : string) (parsed : command) (protocol : string) : svc effect unit :=
  let! found := call (GetByOwnerSlug (owner parsed) (slug parsed)) in
  match found with
  | Err _ => fail repository.ErrNotFound
  | Ok repo =>
      if repository.Repository_State repo != repository.StateActive then fail repository.ErrNotFound else
      let id := repository.ID repo in
      let upload := operation parsed == "upload-pack" in
      let? allowed := wrapErr (wrapf "authorize SSH repository operation: %w")
        (embed (if upload then postgres.CanReadRepository accountDID id
                else postgres.CanWriteRepository accountDID id)) in
      if negb allowed then fail ErrForbidden else
      if (operation parsed == "receive-pack") && is_some (repository.ArchivedAt repo) then fail ErrForbidden else
      if upload then call (UploadPack id false protocol) else
      let? _ := call (ReceivePack id false protocol) in
      call (GitPushReceived id)
  end.

Definition validEnv (payload : option (string * string)) : option string :=
  match payload with
  | Some (name, value) =>
      if (name != "GIT_PROTOCOL") || ((value != "version=1") && (value != "version=2")) then None
      else Some value
  | None => None
  end.
(** The requests of a channel until a command has run. *)
Fixpoint handleSession (permissions : Permissions) (protocol : string) (requests : list channelRequest)
    : prog effect unit :=
  match requests with
  | [] => Ret tt
  | Env payload :: rest =>
      match validEnv payload with
      | None => let! _ := call (Reply false) in handleSession permissions protocol rest
      | Some value => let! _ := call (Reply true) in handleSession permissions value rest
      end
  | Exec payload :: rest =>
      match payload with
      | None => call (Reply false)
      | Some text =>
          match parseCommand text with
          | Err _ => call (Reply false)
          | Ok parsed =>
              let! _ := call (Reply true) in
              let! err := execute (accountDIDPermission permissions) parsed protocol in
              match err with
              | Ok _ => call (SendExitStatus 0)
              | Err _ =>
                  let! _ := call (WriteString ("Adenosine: repository unavailable or access denied" +:+ newline)) in
                  call (SendExitStatus 1)
              end
          end
      end
  | OtherRequest :: rest => let! _ := call (Reply false) in handleSession permissions protocol rest
  end.
End server.
End gitssh.

(** ** Commands *)

Section parsing.

Lemma seq2_high b0 b1 r : seq2 b0 b1 = Some r -> 0x80 <= r.
Proof.
  unfold seq2, cont. destruct (_ && _) eqn:E; [| done]. rewrite andb_true_iff, !between_iff in E.
  intros [= <-]. lia.
Qed.
Lemma seq3_high b0 b1 b2 r : seq3 b0 b1 b2 = Some r -> 0x80 <= r.
Proof.
  unfold seq3, cont. destruct (_ && _) eqn:E; [| done]. rewrite !andb_true_iff, !between_iff in E.
  destruct E as [[H0 H1] H2]. intros [= <-]. destruct (Z.eqb_spec b0 0xE0), (Z.eqb_spec b0 0xED); lia.
Qed.
Lemma seq4_high b0 b1 b2 b3 r : seq4 b0 b1 b2 b3 = Some r -> 0x80 <= r.
Proof.
  unfold seq4, cont. destruct (_ && _) eqn:E; [| done]. rewrite !andb_true_iff, !between_iff in E.
  destruct E as [[[H0 H1] H2] H3]. intros [= <-]. destruct (Z.eqb_spec b0 0xF0), (Z.eqb_spec b0 0xF4); lia.
Qed.
Lemma decode_high b0 r0 : 0x80 <= b0 -> exists r w rest, decode (b0 :: r0) = (r, w) :: rest /\ 0x80 <= r.
Proof.
  intros Hb. cbn [decode]. rewrite (proj2 (Z.ltb_ge b0 0x80)) by done.
  assert (He : 0x80 <= RuneError) by (unfold RuneError; lia).
  destruct r0 as [| b1 r1]; [eauto 6 |].
  destruct (seq2 b0 b1) eqn:E2; [apply seq2_high in E2; eauto 6 |].
  destruct r1 as [| b2 r2]; [eauto 6 |].
  destruct (seq3 b0 b1 b2) eqn:E3; [apply seq3_high in E3; eauto 6 |].
  destruct r2 as [| b3 r3]; [eauto 6 |].
  destruct (seq4 b0 b1 b2 b3) eqn:E4; [apply seq4_high in E4; eauto 6 | eauto 6].
Qed.
(** A string of ASCII runes is one of ASCII bytes. *)
Lemma ascii_runes s : Forall (fun r => r < 0x80) (runes s) -> runes s = bytes s.
Proof.
  intros Hr. apply runes_ascii. revert Hr. unfold runes.
  induction (bytes s) as [| b bs IH]; [constructor |].
  destruct (Z.ltb_spec b 0x80) as [Hb | Hb].
  - cbn [decode]. rewrite (proj2 (Z.ltb_lt b 0x80)) by done. cbn. rewrite !Forall_cons. naive_solver.
  - destruct (decode_high b bs Hb) as (r & w & rest & -> & Hr). cbn. rewrite Forall_cons. lia.
Qed.

Lemma slug_rune_ascii r : gitssh.slug_rune r = true -> r < 0x80.
Proof.
  unfold gitssh.slug_rune. rewrite !orb_true_iff, !between_iff.
  change (ContainsRune "._-" r) with ((r =? 46) || ((r =? 95) || ((r =? 45) || false))).
  rewrite !orb_true_iff, !Z.eqb_eq. lia.
Qed.
Lemma slug_rune_byte c : gitssh.slug_rune (byte_of c) = repository.slug_rest c.
Proof.
  unfold gitssh.slug_rune, repository.slug_rest, repository.slug_first, is_lower, is_digit, in_range, is_char.
  change (ContainsRune "._-" (byte_of c))
    with ((byte_of c =? 46) || ((byte_of c =? 95) || ((byte_of c =? 45) || false))).
  assert (Hc : forall d, Ascii.eqb c d = (byte_of c =? byte_of d)).
  { intros d. apply eq_true_iff_eq. rewrite Ascii.eqb_eq, Z.eqb_eq. split; [by intros -> |].
    intros Hb. by rewrite <- (ascii_of_byte_of c), <- (ascii_of_byte_of d), Hb. }
  rewrite !Hc. change (byte_of "."%char) with 46. change (byte_of "_"%char) with 95.
  change (byte_of "-"%char) with 45. by rewrite orb_false_r, !orb_assoc.
Qed.
Lemma forallb_bytes f (g : Ascii.ascii -> bool) s : (forall c, f (byte_of c) = g c) ->
  forallb f (bytes s) = all_chars g s.
Proof. intros Hf. induction s as [| c s IH]; [done |]. cbn [bytes forallb]. by rewrite all_chars_cons, Hf, IH. Qed.

(** The slugs of commands are those of repositories. *)
Lemma checkSlug_iff slug : gitssh.checkSlug slug = Ok tt <-> repository.slugPattern slug = true.
Proof.
  assert (Hr : forallb gitssh.slug_rune (runes slug) = all_chars repository.slug_rest slug).
  { rewrite <- (forallb_bytes gitssh.slug_rune) by apply slug_rune_byte. apply eq_true_iff_eq. split.
    - intros Hf. rewrite <- ascii_runes; [done |]. rewrite Forall_forall. rewrite forallb_forall in Hf.
      intros r Hin%list_elem_of_In. by apply slug_rune_ascii, Hf.
    - intros Hf. rewrite runes_ascii; [done |]. rewrite Forall_forall. rewrite forallb_forall in Hf.
      intros r Hin%list_elem_of_In. by apply slug_rune_ascii, Hf. }
  unfold gitssh.checkSlug. rewrite !reject_Ok, Hr. unfold gitssh.slug_start, repository.slugPattern, match_first_rest.
  destruct slug as [| c slug]; [cbn; naive_solver |]. cbn [String.get]. fold (repository.slug_first c).
  rewrite all_chars_cons, !negb_false_iff, andb_true_iff, andb_true_iff. split; [tauto |].
  intros [Hc Hs]. split_and!; [| by unfold repository.slug_rest; rewrite Hc | done | done | done].
  assert (Hd : is_char "."%char c = false).
  { apply not_true_iff_false. intros ->%Ascii.eqb_eq. done. }
  apply Ascii.eqb_neq in Hd. rewrite !orb_false_iff, !String.eqb_neq. split_and!; congruence.
Qed.

(** The characters a path may not have, and those a name in it may not have. *)
Definition forbidden (c : Ascii.ascii) : bool := any_char (Ascii.eqb c) (of_bytes [39; 92; 0; 13; 10; 9]).
Definition slash (c : Ascii.ascii) : bool := Ascii.eqb c "/"%char.
Definition owner_name (owner : string) : Prop :=
  owner <> EmptyString /\ owner <> "." /\ owner <> ".." /\
  any_char forbidden owner = false /\ any_char slash owner = false.

Lemma slug_plain slug : repository.slugPattern slug = true ->
  any_char forbidden slug = false /\ any_char slash slug = false.
Proof.
  unfold repository.slugPattern, match_first_rest. destruct slug as [| c slug]; [done |].
  intros [Hc Hs]%andb_true_iff.
  assert (Ha : all_chars repository.slug_rest (String c slug) = true).
  { rewrite all_chars_cons, Hs. unfold repository.slug_rest. by rewrite Hc. }
  split; (eapply all_any; [| exact Ha]); intros d; rewrite <- slug_rune_byte; intros Hd;
    apply not_true_iff_false; unfold forbidden, slash.
  - cbn. rewrite !orb_true_iff, !Ascii.eqb_eq.
    intros [-> | [-> | [-> | [-> | [-> | [-> | ?]]]]]]; done.
  - by intros ->%Ascii.eqb_eq.
Qed.

(** The paths of two components, the second of which is [slug.git]. *)
Lemma split_path path owner name :
  Split "/"%char path = [owner; name] <->
  path = owner +:+ "/" +:+ name /\ any_char slash owner = false /\ any_char slash name = false.
Proof.
  split.
  - intros Hs. pose proof (Split_no_sep "/"%char path) as Hn. rewrite Hs in Hn.
    apply Forall_cons in Hn as [Ho Hn]. apply Forall_cons in Hn as [Hn _]. split; [| done].
    rewrite <- (Join_Split "/"%char path), Hs. done.
  - intros (-> & Ho & Hn). change (owner +:+ "/" +:+ name) with (owner +:+ String "/"%char name).
    by rewrite Split_append, Split_no_char.
Qed.
(** One leading slash is taken off. *)
Lemma TrimPrefix_slash value path : HasPrefix path "/" = false ->
  TrimPrefix value "/" = path <-> value = path \/ value = "/" +:+ path.
Proof.
  intros Hp. split.
  - unfold TrimPrefix. destruct (HasPrefix value "/") eqn:E; [| by left].
    apply HasPrefix_spec in E as [t ->]. right. rewrite <- H. by rewrite drop_append.
  - intros [-> | ->]; [unfold TrimPrefix; by rewrite Hp | apply TrimPrefix_append].
Qed.

(** A command as a client sends it. *)
Definition command_text (slash : string) (c : gitssh.command) : string :=
  "git-" +:+ gitssh.operation c +:+ " '" +:+ slash +:+ gitssh.owner c +:+ "/" +:+ gitssh.slug c
  +:+ ".git'".

Lemma parse_path operation path c :
  (reject_if ContainsAny path (of_bytes [39; 92; 0; 13; 10; 9])
     with New "repository path contains unsupported characters" ;;
   match Split "/"%char path with
   | [owner; name] =>
       reject_if (owner == EmptyString) || (owner == ".") || (owner == "..")
         with New "repository path must contain an owner and repository" ;;
       reject_if negb (HasSuffix name ".git") with New "repository path must end in .git" ;;
       let slug := TrimSuffix name ".git" in
       let* _ := gitssh.checkSlug slug in
       Ok (gitssh.mkCommand operation owner slug)
   | _ => Err (New "repository path must contain an owner and repository")
   end) = Ok c <->
  gitssh.operation c = operation /\ owner_name (gitssh.owner c) /\
  repository.slugPattern (gitssh.slug c) = true /\
  path = gitssh.owner c +:+ "/" +:+ gitssh.slug c +:+ ".git".
Proof.
  rewrite reject_Ok. change (ContainsAny path _) with (any_char forbidden path). split.
  - intros [Hf Hs]. destruct (Split "/"%char path) as [| owner [| name [|]]] eqn:Hsp; try done.
    apply split_path in Hsp as (-> & Ho & Hn). rewrite !reject_Ok in Hs.
    destruct Hs as (Hw & Hg & Hs). apply negb_false_iff, HasSuffix_spec in Hg as [slug ->].
    rewrite TrimSuffix_append in Hs. apply bind_unit_Ok in Hs as [Hc [= <-]]. cbn.
    rewrite checkSlug_iff in Hc. rewrite !orb_false_iff, !String.eqb_neq in Hw.
    rewrite any_char_app, orb_false_iff in Hf. unfold owner_name. tauto.
  - intros (<- & (Hn & Hd & Hdd & Hf & Hs) & Hsl & ->). destruct (slug_plain _ Hsl) as [Hsf Hss].
    destruct c as [operation' owner slug]. cbn in *.
    split; [rewrite !any_char_app, Hf, Hsf; done |].
    assert (Hsp : Split "/"%char (owner +:+ "/" +:+ slug +:+ ".git") = [owner; slug +:+ ".git"]).
    { apply split_path. rewrite any_char_app, Hss. done. }
    rewrite Hsp, !reject_Ok. rewrite !orb_false_iff, !String.eqb_neq.
    rewrite (proj2 (HasSuffix_spec _ _)) by by exists slug. split; [done |]. split; [done |].
    rewrite TrimSuffix_append. apply checkSlug_iff in Hsl. by rewrite Hsl.
Qed.

(** [parseCommand] after its first word. *)
Definition parse_rest (operation value : string) : result gitssh.command :=
  reject_if negb (HasSuffix value "'") with New "repository path must be single quoted" ;;
  let path := TrimPrefix (TrimSuffix value "'") "/" in
  reject_if ContainsAny path (of_bytes [39; 92; 0; 13; 10; 9])
    with New "repository path contains unsupported characters" ;;
  match Split "/"%char path with
  | [owner; name] =>
      reject_if (owner == EmptyString) || (owner == ".") || (owner == "..")
        with New "repository path must contain an owner and repository" ;;
      reject_if negb (HasSuffix name ".git") with New "repository path must end in .git" ;;
      let slug := TrimSuffix name ".git" in
      let* _ := gitssh.checkSlug slug in
      Ok (gitssh.mkCommand operation owner slug)
  | _ => Err (New "repository path must contain an owner and repository")
  end.
Lemma owner_no_slash owner t : owner_name owner -> HasPrefix (owner +:+ t) "/" = false.
Proof.
  intros (Hn & _ & _ & _ & Hs). destruct owner as [| o owner]; [done |]. rewrite append_cons, HasPrefix_char.
  cbn in Hs. apply orb_false_iff in Hs as [Hs _]. unfold slash in Hs. by rewrite Ascii.eqb_sym.
Qed.
Lemma concat_assoc s t u : (s +:+ t) +:+ u = s +:+ t +:+ u.
Proof. induction s as [| c s IH]; [done |]. by rewrite !append_cons, IH. Qed.

Lemma parse_rest_iff operation value c : parse_rest operation value = Ok c <->
  gitssh.operation c = operation /\ owner_name (gitssh.owner c) /\
  repository.slugPattern (gitssh.slug c) = true /\
  exists slash, (slash = EmptyString \/ slash = "/") /\
    value = slash +:+ gitssh.owner c +:+ "/" +:+ gitssh.slug c +:+ ".git'".
Proof.
  unfold parse_rest. rewrite reject_Ok. cbv zeta. rewrite parse_path. split.
  - intros (Hq & Ho & Hn & Hs & Hp). apply negb_false_iff, HasSuffix_spec in Hq as [p ->].
    rewrite TrimSuffix_append in Hp. split_and!; [done.. |].
    apply TrimPrefix_slash in Hp; [| by apply owner_no_slash].
    destruct Hp as [-> | ->]; [exists EmptyString | exists "/"]; split; auto;
      by rewrite ?append_nil_l, !concat_assoc.
  - intros (Ho & Hn & Hs & slash & Hsl & ->).
    assert (Hv : slash +:+ gitssh.owner c +:+ "/" +:+ gitssh.slug c +:+ ".git'"
                 = (slash +:+ gitssh.owner c +:+ "/" +:+ gitssh.slug c +:+ ".git") +:+ "'")
      by by rewrite !concat_assoc.
    rewrite Hv, TrimSuffix_append, (proj2 (HasSuffix_spec _ _)) by eauto. split_and!; [done.. |].
    apply TrimPrefix_slash; [by apply owner_no_slash |].
    destruct Hsl as [-> | ->]; [left | right]; done.
Qed.
Lemma parseCommand_rest value :
  gitssh.parseCommand value =
  if HasPrefix value "git-upload-pack '" then parse_rest "upload-pack" (TrimPrefix value "git-upload-pack '")
  else if HasPrefix value "git-receive-pack '"
  then parse_rest "receive-pack" (TrimPrefix value "git-receive-pack '")
  else Err (New "unsupported SSH command").
Proof. unfold gitssh.parseCommand. destruct (HasPrefix _ _); [done |]. by destruct (HasPrefix _ _). Qed.

(** The SSH commands that are accepted are exactly [git-upload-pack] and
    [git-receive-pack] of one quoted path, an owner name, a slash and a repository slug,
    with [.git] at the end and perhaps a slash in front; the owner name is neither empty
    nor a dot directory, has no quote, backslash, slash or control character in it, and
    nothing follows the closing quote. *)
Theorem parseCommand_iff (value : string) (c : gitssh.command) :
  gitssh.parseCommand value = Ok c <->
  (gitssh.operation c = "upload-pack" \/ gitssh.operation c = "receive-pack") /\
  owner_name (gitssh.owner c) /\ repository.slugPattern (gitssh.slug c) = true /\
  (value = command_text EmptyString c \/ value = command_text "/" c).
Proof.
  rewrite parseCommand_rest. unfold command_text. split.
  - intros Hp. destruct (HasPrefix value "git-upload-pack '") eqn:Hu;
      [| destruct (HasPrefix value "git-receive-pack '") eqn:Hr; [| done]].
    + apply HasPrefix_spec in Hu as [t ->]. rewrite TrimPrefix_append in Hp.
      apply parse_rest_iff in Hp as (-> & Ho & Hs & slash & Hsl & ->). naive_solver.
    + apply HasPrefix_spec in Hr as [t ->]. rewrite TrimPrefix_append in Hp.
      apply parse_rest_iff in Hp as (-> & Ho & Hs & slash & Hsl & ->). naive_solver.
  - intros (Hop & Ho & Hs & Hv).
    set (rest slash := slash +:+ gitssh.owner c +:+ "/" +:+ gitssh.slug c +:+ ".git'") in *.
    assert (Hr : forall slash, slash = EmptyString \/ slash = "/" ->
              parse_rest (gitssh.operation c) (rest slash) = Ok c).
    { intros slash Hsl. apply parse_rest_iff. split_and!; [done.. |]. by exists slash. }
    assert (Hx : exists slash, (slash = EmptyString \/ slash = "/") /\
              value = "git-" +:+ gitssh.operation c +:+ " '" +:+ rest slash)
      by (destruct Hv as [-> | ->]; eauto).
    destruct Hx as (slash & Hsl & ->). specialize (Hr slash Hsl). clear Hv. revert Hr.
    destruct Hop as [-> | ->]; intros Hr.
    + change ("git-" +:+ "upload-pack" +:+ " '" +:+ rest slash) with ("git-upload-pack '" +:+ rest slash).
      rewrite (proj2 (HasPrefix_spec _ _)) by eauto. by rewrite TrimPrefix_append.
    + change ("git-" +:+ "receive-pack" +:+ " '" +:+ rest slash) with ("git-receive-pack '" +:+ rest slash).
      change (HasPrefix ("git-receive-pack '" +:+ rest slash) "git-upload-pack '") with false.
      rewrite (proj2 (HasPrefix_spec _ _)) by eauto. by rewrite TrimPrefix_append.
Qed.
End parsing.

(** ** Who is served *)

Section served.

(** The path or the command resolved to an active repository. *)
Definition resolved (h : list (event effect)) (owner slug : string) (repo : repository.Repository) : Prop :=
  Ev (GetByOwnerSlug owner slug) (Ok repo) ∈ h /\
  repository.Repository_State repo = repository.StateActive.
(** The password is of a token that may write to the repository, as may its owner. *)
Definition push_token (h : list (event effect)) (password : option string) (id : UUID) : Prop :=
  exists plaintext t, password = Some plaintext /\ plaintext <> EmptyString /\
    Ev (Auth (GetActiveAccessTokenByHash (Sum256 (bytes plaintext)))) (Ok t) ∈ h /\
    ScopeRepositoryWrite ∈ Scopes t /\ (RepositoryID t = None \/ RepositoryID t = Some id) /\
    Ev (Auth (queries_CanWriteRepository (Token_AccountDID t) id)) (Ok true) ∈ h.

Definition http_guard (r : githttp.request) (h : list (event effect)) X (e : effect X) : Prop :=
  match e with
  | UploadPack id _ _ => exists owner slug operation repo,
      githttp.parsePath (githttp.Path r) = Some (owner, slug, operation) /\ resolved h owner slug repo /\
      repository.ID repo = id /\ repository.Repository_Visibility repo = repository.VisibilityPublic
  | ReceivePack id _ _ => exists owner slug operation repo,
      githttp.parsePath (githttp.Path r) = Some (owner, slug, operation) /\ resolved h owner slug repo /\
      repository.ID repo = id /\ repository.Repository_Visibility repo = repository.VisibilityPublic /\
      repository.ArchivedAt repo = None /\ push_token h (githttp.password r) id
  | GitPushReceived id => exists protocol, Ev (ReceivePack id false protocol) (Ok tt) ∈ h
  | _ => True
  end.
Definition ssh_guard (did : string) (h : list (event effect)) X (e : effect X) : Prop :=
  match e with
  | UploadPack id _ _ => exists owner slug repo, resolved h owner slug repo /\ repository.ID repo = id /\
      Ev (Auth (queries_CanReadRepository did id)) (Ok true) ∈ h
  | ReceivePack id _ _ => exists owner slug repo, resolved h owner slug repo /\ repository.ID repo = id /\
      repository.ArchivedAt repo = None /\ Ev (Auth (queries_CanWriteRepository did id)) (Ok true) ∈ h
  | GitPushReceived id => exists protocol, Ev (ReceivePack id false protocol) (Ok tt) ∈ h
  | _ => True
  end.

Lemma elem_of_more {A} (x : A) (l k : list A) : x ∈ l -> x ∈ l ++ k.
Proof. intros Hx. apply elem_of_app. by left. Qed.

(** The history grew. *)
Ltac grew := first [by exists []; rewrite app_nil_r | by eexists; rewrite <- ?app_assoc].
Ltac seen := rewrite ?elem_of_app, ?list_elem_of_singleton; tauto.

Lemma authorizeWrite_wp r repo h :
  wp (http_guard r) (githttp.authorizeWrite r repo)
    (fun h' denied => (exists k, h' = h ++ k) /\
       (denied = None -> repository.ArchivedAt repo = None /\
                         push_token h' (githttp.password r) (repository.ID repo))) h.
Proof.
  unfold githttp.authorizeWrite. destruct (repository.ArchivedAt repo) as [t |]; cbn; [split; [grew | done] |].
  unfold AuthorizeWrite. destruct (githttp.password r) as [plaintext |]; cbn; [| split; [grew | done]].
  destruct (String.eqb_spec plaintext EmptyString) as [| Hne]; cbn; [split; [grew | done] |].
  split; [done |]. intros [t | e]; cbn; [| split; [grew | by destruct (Is _ _)]].
  destruct (contains (Scopes t) ScopeRepositoryWrite) eqn:Hs; cbn; [| split; [grew | done]].
  destruct (match RepositoryID t with Some id => negb (id =? repository.ID repo) | None => false end) eqn:Hid;
    cbn; [split; [grew | done] |].
  split; [done |]. intros [[|] | e]; cbn; [| split; [grew | done] | split; [grew | by destruct (Is _ _)]].
  split; [done |]. intros now. split; [done |]. intros [[] | e]; cbn; (split; [grew |]); [| by destruct (Is _ _)].
  intros _. split; [done |]. exists plaintext, t.
  split_and!; [done | done | seen | by apply existsb_exists in Hs as (x & ?%list_elem_of_In & ->%String.eqb_eq)
              | | seen].
  destruct (RepositoryID t) as [id |]; [| by left]. apply negb_false_iff, Z.eqb_eq in Hid as ->. by right.
Qed.

Lemma ServeHTTP_wp r : wp (http_guard r) (githttp.ServeHTTP r) (fun _ _ => True) [].
Proof.
  unfold githttp.ServeHTTP. destruct (githttp.parsePath (githttp.Path r)) as [[[owner slug] operation] |] eqn:Hp;
    [| done].
  cbn [wp call prog_bind]. split; [done |]. intros [repo | e]; [| done].
  destruct (repository.Repository_State repo != repository.StateActive) eqn:Hst; [done |].
  destruct (repository.Repository_Visibility repo != repository.VisibilityPublic) eqn:Hv; [done |].
  apply neq_false in Hst, Hv. cbn [orb]. destruct (_ && _ && _); [done |].
  set (h := [] ++ [Ev (GetByOwnerSlug owner slug) (Ok repo)]).
  assert (Hres : resolved h owner slug repo) by (split; [left | done]).
  assert (Hup : forall k advertise protocol,
    http_guard r (h ++ k) _ (UploadPack (repository.ID repo) advertise protocol)).
  { intros k advertise protocol. exists owner, slug, operation, repo. destruct Hres.
    split_and!; [done | split; [by apply elem_of_more | done] | done | done]. }
  assert (Hrec : forall k advertise protocol, repository.ArchivedAt repo = None ->
    push_token (h ++ k) (githttp.password r) (repository.ID repo) ->
    http_guard r (h ++ k) _ (ReceivePack (repository.ID repo) advertise protocol)).
  { intros k advertise protocol Ha Ht. exists owner, slug, operation, repo. destruct Hres.
    split_and!; [done | split; [by apply elem_of_more | done] | done..]. }
  destruct (_ && _ && _).
  { cbn [wp call prog_bind]. split; [done |]. intros [|]; cbn [wp call prog_bind]; [| done].
    split; [apply Hup | done]. }
  destruct (_ && _).
  { cbn [wp call prog_bind]. split; [| done]. specialize (Hup [] false (githttp.GitProtocol r)).
    by rewrite app_nil_r in Hup. }
  destruct (_ && _ && _).
  { rewrite wp_bind. eapply wp_mono, authorizeWrite_wp. intros h' denied [[k ->] Hd].
    destruct denied as [response |]; [done |]. destruct (Hd eq_refl) as [Ha Ht].
    cbn [wp call prog_bind]. split; [done |]. intros [|]; cbn [wp call prog_bind]; [| done].
    split; [| done]. rewrite <- app_assoc. apply Hrec; [done |].
    destruct Ht as (plaintext & t & ? & ? & ? & ? & ? & ?). exists plaintext, t. rewrite app_assoc.
    split_and!; try done; by apply elem_of_more. }
  destruct (_ && _); [| done].
  rewrite wp_bind. eapply wp_mono, authorizeWrite_wp. intros h' denied [[k ->] Hd].
  destruct denied as [response |]; [done |]. destruct (Hd eq_refl) as [Ha Ht].
  cbn [wp call prog_bind]. split; [by apply Hrec |]. intros [[] | e]; cbn [wp call prog_bind]; [| done].
  split; [| done]. exists (githttp.GitProtocol r). apply elem_of_snoc.
Qed.

Lemma parseCommand_operation value c : gitssh.parseCommand value = Ok c ->
  gitssh.operation c = "upload-pack" \/ gitssh.operation c = "receive-pack".
Proof.
  rewrite parseCommand_rest. destruct (HasPrefix _ _); [intros [? _]%parse_rest_iff; by left |].
  destruct (HasPrefix _ _); [intros [? _]%parse_rest_iff; by right | done].
Qed.

Lemma execute_wp did parsed protocol h :
  gitssh.operation parsed = "upload-pack" \/ gitssh.operation parsed = "receive-pack" ->
  wp (ssh_guard did) (gitssh.execute did parsed protocol) (fun h' _ => exists k, h' = h ++ k) h.
Proof.
  intros Hop. unfold gitssh.execute. cbn [wp call prog_bind]. split; [done |]. intros [repo | e]; cbn [wp fail]; [| grew].
  destruct (repository.Repository_State repo != repository.StateActive) eqn:Hst; cbn [wp fail]; [grew |].
  apply neq_false in Hst.
  assert (Hres : forall k, resolved ((h ++ [Ev (GetByOwnerSlug (gitssh.owner parsed) (gitssh.slug parsed)) (Ok repo)]) ++ k)
             (gitssh.owner parsed) (gitssh.slug parsed) repo)
    by (intros k; split; [apply elem_of_more, elem_of_snoc | done]).
  destruct (String.eqb_spec (gitssh.operation parsed) "upload-pack") as [Hu | Hu]; cbn;
    (split; [done |]); intros [[|] | e]; cbn; try grew.
  - destruct (_ && is_some _); cbn; [grew |].
    split; [| intros; grew]. exists (gitssh.owner parsed), (gitssh.slug parsed), repo.
    split_and!; [apply Hres | done | apply elem_of_snoc].
  - destruct (_ && is_some (repository.ArchivedAt repo)) eqn:Ha; cbn; [grew |].
    split; [| intros [[] | e]; cbn; [split; [| intros; grew] | grew]; exists protocol; apply elem_of_snoc].
    exists (gitssh.owner parsed), (gitssh.slug parsed), repo.
    split_and!; [apply Hres | done | | apply elem_of_snoc].
    destruct Hop as [| Hop]; [done |]. rewrite Hop in Ha. cbn in Ha.
    by destruct (repository.ArchivedAt repo).
Qed.

Lemma handleSession_wp permissions requests : forall protocol h,
  wp (ssh_guard (gitssh.accountDIDPermission permissions))
    (gitssh.handleSession permissions protocol requests) (fun _ _ => True) h.
Proof.
  induction requests as [| [payload | payload |] rest IH]; intros protocol h; cbn [gitssh.handleSession].
  - done.
  - destruct (gitssh.validEnv payload); cbn; (split; [done |]; intros ?; apply IH).
  - destruct payload as [text |]; [| done]. destruct (gitssh.parseCommand text) as [parsed | e] eqn:Hp; [| done].
    apply parseCommand_operation in Hp. cbn [wp call prog_bind]. split; [done |]. intros ?.
    rewrite wp_bind. eapply wp_mono; [| by apply execute_wp].
    intros h' [[] | e] _; by repeat split.
  - cbn. split; [done |]. intros ?. apply IH.
Qed.

(** C23: whatever the stores and git answer, an HTTP request fetches only from the active
    public repository its path resolved to, and pushes only if that is not archived and
    a live token that may write to it, as may its owner, was the password; an SSH
    session fetches or pushes only as far as the permission query just answered yes for
    the account of the key, and never pushes to an archived repository; a push is
    announced only after git received it. *)
Theorem transports_authorised (r : githttp.request) (permissions : gitssh.Permissions)
    (protocol : string) (requests : list gitssh.channelRequest) :
  guarded (http_guard r) (githttp.ServeHTTP r) /\
  guarded (ssh_guard (gitssh.accountDIDPermission permissions))
    (gitssh.handleSession permissions protocol requests).
Proof. split; eapply wp_guarded; [apply ServeHTTP_wp | apply handleSession_wp]. Qed.
End served.

Module transport_examples.
Import gitssh.

Example commands :
  (parseCommand "git-upload-pack '/alice.example/tools.git'", parseCommand "git-receive-pack 'acme/a-b.c.git'",
   parseCommand "git-upload-pack '../x.git'", parseCommand "git-upload-pack 'a/b/c.git'",
   parseCommand "git-upload-pack 'a/.git.git'", parseCommand "rm -rf '/'")
  = (Ok (mkCommand "upload-pack" "alice.example" "tools"), Ok (mkCommand "receive-pack" "acme" "a-b.c"),
     Err (New "repository path must contain an owner and repository"),
     Err (New "repository path must contain an owner and repository"),
     Err (New "repository slug is invalid"), Err (New "unsupported SSH command")).
Proof. vm_compute. reflexivity. Qed.
Example paths :
  (githttp.parsePath "/alice.example/tools.git/info/refs", githttp.parsePath "/acme/tools.git/git-receive-pack",
   githttp.parsePath "/acme/tools/git-receive-pack", githttp.parsePath "/../tools.git/info/refs",
   githttp.parsePath "/acme/tools.git/HEAD")
  = (Some ("alice.example", "tools", "info/refs"), Some ("acme", "tools", "git-receive-pack"), None, None, None).
Proof. vm_compute. reflexivity. Qed.
End transport_examples.
End transport.
