(* ===== verification/Identity.v ===== *)
(** * Identity: logins (package [internal/identity]) and owner names (package
    [internal/owner]).

    A login turns the verified identity of the provider into a local account and a
    session, and gives up the provider's credentials if a step fails; the resolver
    says whose an owner name is. *)

From S2P Require Import Prelude.
From S2P Require Import GoText.
From S2P Require Import TransferStore.
From S2P Require Import Organization.
From S2P Require Import OrganizationStore.
From S2P Require Import Auth.
From S2P Require Import AuthStore.

(** ** Package identity *)

Module identity.
Import auth.

Definition ErrInvalidReturnTo : error := New "login return target is not supported".

Record OAuthIdentity := mkOAuthIdentity { OAuth_DID : string; OAuth_Handle : string }.
Record LoginResult := mkLoginResult {
  Login_DID : string; Login_Handle : string; Login_SessionID : UUID; SessionExpiresAt : time;
  SessionPlaintext : string
}.

(** The provider, the grant of its credentials, and the calls of [auth]. *)
Inductive effect : Type -> Type :=
| Auth {X} (e : auth.effect X) : effect X
| provider_Start (identifier : string) : effect (result string)
| provider_Complete (values : list (string * string)) : effect (result (OAuthIdentity * bool))
    (** the identity, and whether there is a grant *)
| Persist : effect (result unit)
| Discard : effect (result unit).

Fixpoint embed {A} (p : prog auth.effect A) : prog effect A :=
  match p with Ret a => Ret a | Vis e k => Vis (Auth e) (fun x => embed (k x)) end.

Definition Start (identifier returnTo : string) : svc effect string :=
  if returnTo != EmptyString then fail ErrInvalidReturnTo else
  wrapErr (wrapf "start OAuth login: %w") (call (provider_Start identifier)).

(** [_ = credentialGrant.Discard(ctx)] before the error. *)
Definition discard {A} (err : error) : svc effect A :=
  let! _ := call Discard in fail err.
Definition orDiscard {A B} (format : string) (p : svc effect A) (k : A -> svc effect B) : svc effect B :=
  let! r := p in
  match r with Ok a => k a | Err err => discard (wrapf format err) end.

Definition Complete (lifetime : Z) (values : list (string * string)) : svc effect LoginResult :=
  let? (externalIdentity, credentialGrant) :=
    wrapErr (wrapf "complete OAuth login: %w") (call (provider_Complete values)) in
  if negb credentialGrant
  then fail (New "complete OAuth login: provider returned no credential grant") else
  if OAuth_DID externalIdentity == EmptyString
  then discard (New "complete OAuth login: provider returned an empty DID") else
  let! now := embed now in
  orDiscard "record OAuth login: %w"
    (embed (postgres.UpsertLogin (OAuth_DID externalIdentity) (OAuth_Handle externalIdentity) now)) (fun _ =>
  orDiscard "persist OAuth credentials: %w" (call Persist) (fun _ =>
  orDiscard "issue local session: %w"
    (embed (CreateSession lifetime (OAuth_DID externalIdentity))) (fun '(session, plaintext) =>
  done_ (mkLoginResult (OAuth_DID externalIdentity) (OAuth_Handle externalIdentity) (Session_ID session)
           (Session_ExpiresAt session) plaintext)))).

(** ** A login is complete or given up *)

Definition discarded (h : list (event effect)) : bool :=
  existsb (fun ev => match ev with Ev Discard _ => true | _ => false end) h.
(** What is asked before each step. *)
Definition login_guard (h : list (event effect)) X (e : effect X) : Prop :=
  match e with
  | Persist => exists account did handle at_,
      Ev (Auth (queries_UpsertAccount did handle at_)) (Ok account) ∈ h
  | Auth (queries_CreateSession row) => Ev Persist (Ok tt) ∈ h /\ discarded h = false
  | _ => True
  end.
(** The provider gave a grant. *)
Definition grants (ev : event effect) : bool :=
  let '(@Ev _ X e x) := ev in
  match e in effect X return X -> bool with
  | provider_Complete _ => fun r => match r with Ok (_, given) => given | Err _ => false end
  | _ => fun _ => false
  end x.
Definition granted (h : list (event effect)) : bool := existsb grants h.
Definition settled (values : list (string * string)) (h : list (event effect)) (r : result LoginResult) : Prop :=
  match r with
  | Ok login => exists handle row row',
      Ev (provider_Complete values) (Ok (mkOAuthIdentity (Login_DID login) handle, true)) ∈ h /\
      Login_DID login <> EmptyString /\ Ev Persist (Ok tt) ∈ h /\ discarded h = false /\
      last h = Some (Ev (Auth (queries_CreateSession row)) (Ok row')) /\
      Session_AccountDID row = TrimSpace (Login_DID login) /\ Session_ID row' = Login_SessionID login /\
      Session_Hash row = authstore.digest (SessionPlaintext login)
  | Err _ => granted h = true -> exists r, last h = Some (Ev Discard r)
  end.

Lemma wp_discard values (err : error) h : wp login_guard (discard err) (settled values) h.
Proof. cbn. split; [done |]. intros r _. exists r. by rewrite last_snoc. Qed.

Lemma Complete_wp lifetime values : wp login_guard (Complete lifetime values) (settled values) [].
Proof.
  unfold Complete. cbn [wp call wrapErr svc_bind prog_bind]. split; [done |].
  intros [[who [|]] | e]; cbn [prog_bind mapErr svc_bind negb].
  2, 3: done.
  destruct (String.eqb_spec (OAuth_DID who) EmptyString) as [| Hne]; [apply wp_discard |].
  cbn [embed now call wp prog_bind]. split; [done |]. intros at_.
  unfold orDiscard, postgres.UpsertLogin.
  destruct (TrimSpace (OAuth_DID who) == EmptyString); [apply wp_discard |].
  cbn [embed call wp prog_bind wrapErr]. split; [done |]. intros [account | e]; [| apply wp_discard].
  cbn [mapErr call wp prog_bind]. split; [do 4 eexists; apply elem_of_snoc |].
  intros [[] | e]; [| apply wp_discard].
  unfold CreateSession, newID, newSessionSecret, now, postgres.CreateSession.
  destruct (TrimSpace (OAuth_DID who) == EmptyString); [apply wp_discard |].
  destruct (lifetime <=? 0); [apply wp_discard |].
  cbn [embed call wp prog_bind wrapErr svc_bind]. split; [done |]. intros [id | e]; [| apply wp_discard].
  cbn [embed call wp prog_bind wrapErr svc_bind mapErr]. split; [done |]. intros [value | e]; [| apply wp_discard].
  cbn [embed call wp prog_bind wrapErr svc_bind mapErr done_]. split; [done |]. intros at'.
  split.
  { cbn [login_guard]. split; [rewrite !elem_of_app, !list_elem_of_singleton; tauto | done]. }
  intros [row' | e]; cbn [embed call wp prog_bind wrapErr svc_bind mapErr done_]; [| apply wp_discard].
  cbn [settled Login_DID Login_SessionID SessionPlaintext]. eexists (OAuth_Handle who), _, row'.
  rewrite last_snoc. split_and!; [| done | | done | done | done | done | done].
  - rewrite !elem_of_app, !list_elem_of_singleton. destruct who. tauto.
  - rewrite !elem_of_app, !list_elem_of_singleton. tauto.
Qed.

(** A login stores the provider's credentials only after the account, and opens a
    session only after the credentials; if it succeeds nothing was discarded, the
    session is the last thing written, for the account of the provider's identity, and
    the secret returned is the session's; if it fails after the provider gave
    credentials, discarding them is the last thing it does. *)
Theorem login_settles (lifetime : Z) (values : list (string * string)) :
  guarded login_guard (Complete lifetime values) /\ ensures (settled values) (Complete lifetime values).
Proof. split; [eapply wp_guarded | eapply wp_ensures]; apply Complete_wp. Qed.
End identity.

(** ** Package owner *)

Module owner.

Definition ErrNotFound : error := New "owner not found".
Definition Kind : Type := string.
Definition KindAccount : Kind := "account".
Definition KindOrganization : Kind := "organization".
Record Owner := mkOwner {
  Owner_Kind : Kind; CanonicalName : string; AccountDID : string; OrganizationSlug : string
}.
Record ResolveOwnerRow := mkResolveOwnerRow {
  row_Kind : Kind; row_CanonicalName : string; row_AccountDid : option string;
  row_OrganizationSlug : option string
}.

(** [Resolve], over what the query answers. *)
Definition Resolve (query : string -> result ResolveOwnerRow) (name : string) : result Owner :=
  let name := TrimSpace name in
  if name == EmptyString then Err ErrNotFound else
  let* row := mapErr (auth.noRows ErrNotFound "resolve owner: %w") (query name) in
  Ok (mkOwner (row_Kind row) (row_CanonicalName row) (default EmptyString (row_AccountDid row))
        (default EmptyString (row_OrganizationSlug row))).

(** A row of [network.identities]. *)
Record NetworkIdentity := mkNetworkIdentity {
  did : string; network_handle : option string; is_active : bool; indexed_at : time
}.
Record candidate := mkCandidate {
  candidate_row : ResolveOwnerRow; source_priority : Z; source_time : time
}.

Section query.
Context (lower : string -> string) (core : orgstore.db) (network : list NetworkIdentity).

(** [COALESCE(account.handle_cache, organization.slug, route.alias)]. *)
Definition coalesce (values : list (option string)) (otherwise : string) : string :=
  default otherwise (List.fold_right (fun value rest => match value with Some _ => value | None => rest end)
                       None values).
Definition organization_of (route : transferstore.Route) : option organization.Organization :=
  match transferstore.route_organization route with
  | None => None
  | Some id =>
      orgstore.row_organization <$>
        List.find (fun row => orgstore.has_org id row && orgstore.org_present row) (orgstore.organizations core)
  end.
Definition handle_cache (route : transferstore.Route) : option string :=
  match transferstore.route_account route with
  | None => None
  | Some account => mjoin (orgstore.accounts core !! account)
  end.
Definition local_owner (name : string) : list candidate :=
  omap (fun route =>
    let slug := organization.Slug <$> organization_of route in
    if (lower (transferstore.route_alias route) == lower name)
       && (negb (is_some (transferstore.route_organization route)) || is_some slug)
    then Some (mkCandidate
      (mkResolveOwnerRow (if is_some (transferstore.route_account route) then KindAccount else KindOrganization)
         (coalesce [handle_cache route; slug] (transferstore.route_alias route))
         (transferstore.route_account route) slug) 0 (transferstore.route_created route))
    else None) (orgstore.routes core).
Definition network_owner (name : string) : list candidate :=
  omap (fun identity =>
    match network_handle identity with
    | Some handle =>
        if (lower handle == lower name) && is_active identity
        then Some (mkCandidate (mkResolveOwnerRow KindAccount handle (Some (did identity)) None) 1
                     (indexed_at identity))
        else None
    | None => None
    end) network.

(** [ORDER BY source_priority, source_time DESC, account_did]; no account comes last. *)
Definition did_le (x y : option string) : Prop :=
  match x, y with Some x, Some y => string_le x y | _, None => True | None, Some _ => False end.
Definition earlier (x y : candidate) : Prop :=
  source_priority x < source_priority y \/ source_priority x = source_priority y /\
  (source_time y < source_time x \/ source_time x = source_time y /\
   did_le (row_AccountDid (candidate_row x)) (row_AccountDid (candidate_row y))).
#[export] Instance did_le_dec : RelDecision did_le.
Proof. intros [x |] [y |]; cbn; apply _. Defined.
#[export] Instance earlier_dec : RelDecision earlier.
Proof. intros x y. unfold earlier. apply _. Defined.
Definition resolveOwner (name : string) : result ResolveOwnerRow :=
  match merge_sort earlier (local_owner name ++ network_owner name) with
  | first :: _ => Ok (candidate_row first)
  | [] => Err auth.ErrNoRows
  end.

#[export] Instance did_le_trans : Transitive did_le.
Proof. intros [x |] [y |] [z |]; cbn; try done. apply string_le_trans. Qed.
#[export] Instance did_le_total : Total did_le.
Proof. intros [x |] [y |]; cbn; auto. apply (total string_le). Qed.
#[export] Instance earlier_trans : Transitive earlier.
Proof.
  intros x y z. unfold earlier.
  intros [H1 | (H1 & [H2 | (H2 & H3)])] [H4 | (H4 & [H5 | (H5 & H6)])];
    try (left; lia); right; (split; [lia |]); try (left; lia).
  right. split; [lia |]. by etrans.
Qed.
#[export] Instance earlier_total : Total earlier.
Proof.
  intros x y. unfold earlier.
  destruct (Z.lt_trichotomy (source_priority x) (source_priority y)) as [? | [Hp |]]; [by left; left | | by right; left].
  destruct (Z.lt_trichotomy (source_time x) (source_time y)) as [? | [Ht |]];
    [right; right; split; [done | by left] | | left; right; split; [done | by left]].
  destruct (total did_le (row_AccountDid (candidate_row x)) (row_AccountDid (candidate_row y)));
    [left | right]; right; (split; [done |]); right; done.
Qed.
(** The first row comes before every candidate. *)
Lemma first_candidate first rest rows :
  merge_sort earlier rows = first :: rest -> first ∈ rows /\ forall x, x ∈ rows -> x = first \/ earlier first x.
Proof.
  intros Hm. assert (Hp : first :: rest ≡ₚ rows) by (rewrite <- Hm; apply merge_sort_Permutation).
  split; [rewrite <- Hp; left |]. intros x Hx. rewrite <- Hp in Hx.
  apply elem_of_cons in Hx as [-> | Hx]; [by left |]. right.
  pose proof (StronglySorted_merge_sort earlier rows) as Hs. rewrite Hm in Hs.
  apply StronglySorted_inv in Hs as [_ Hf]. rewrite Forall_forall in Hf. by apply Hf.
Qed.
Lemma first_exists rows x : x ∈ rows -> exists first rest, merge_sort earlier rows = first :: rest.
Proof.
  intros Hx. destruct (merge_sort earlier rows) as [| first rest] eqn:Hm; [| by eauto].
  rewrite <- (merge_sort_Permutation earlier rows), Hm in Hx. by apply elem_of_nil in Hx.
Qed.
End query.

(** The current handle of a local account, in any case and with blanks around it,
    resolves to that account, whatever accounts of other servers claim the handle. *)
Theorem current_handle_resolves (lower : string -> string) (s : authstore.db) (network : list NetworkIdentity)
    (route : transferstore.Route) (account handle name : string) :
  (forall s, lower (lower s) = lower s) -> authstore.routes_ok lower s ->
  NoDup (map (fun r => lower (transferstore.route_alias r)) (orgstore.routes (authstore.core_ s))) ->
  route ∈ orgstore.routes (authstore.core_ s) -> transferstore.route_account route = Some account ->
  transferstore.route_organization route = None ->
  orgstore.accounts (authstore.core_ s) !! account = Some (Some handle) ->
  TrimSpace name <> EmptyString -> lower (TrimSpace name) = lower handle ->
  Resolve (resolveOwner lower (authstore.core_ s) network) name
  = Ok (mkOwner KindAccount handle account EmptyString).
Proof.
  intros Hid Hok Hnd Hin Hacc Horg Hh Hne Hname. set (core := authstore.core_ s) in *.
  destruct (authstore.aliases_current lower s Hok route account Hin Hacc) as (h' & Hh' & Hal).
  fold core in Hh'. assert (h' = handle) as -> by congruence.
  set (c := mkCandidate (mkResolveOwnerRow KindAccount handle (Some account) None) 0
              (transferstore.route_created route)).
  assert (Hlocal : forall x, x ∈ local_owner lower core (TrimSpace name) <-> x = c).
  { intros x. unfold local_owner. rewrite list_elem_of_omap. split.
    - intros (r & Hr & Hx). destruct (String.eqb_spec (lower (transferstore.route_alias r)) (lower (TrimSpace name)))
        as [Ha |]; [| done].
      assert (r = route) as ->.
      { apply (NoDup_map_inj (fun r => lower (transferstore.route_alias r)) (orgstore.routes core)); [done.. |].
        cbn. by rewrite Ha, Hal, Hid. }
      unfold organization_of in Hx. rewrite Horg, Hacc in Hx. cbn in Hx. injection Hx as <-.
      unfold c, handle_cache. rewrite Hacc. cbn. by rewrite Hh.
    - intros ->. exists route. split; [done |]. rewrite Hal, Hid, <- Hname, String.eqb_refl.
      unfold organization_of, handle_cache. rewrite Horg, Hacc. cbn. by rewrite Hh. }
  unfold Resolve, resolveOwner. rewrite (proj2 (String.eqb_neq _ _)) by done.
  destruct (first_exists (local_owner lower core (TrimSpace name) ++ network_owner lower network (TrimSpace name)) c)
    as (first & rest & Hm); [apply elem_of_app; left; by apply Hlocal |].
  rewrite Hm. apply first_candidate in Hm as [Hf Hall].
  enough (first = c) as -> by done.
  apply elem_of_app in Hf as [Hf%Hlocal | Hf]; [done |]. exfalso.
  assert (Hp : source_priority first = 1).
  { apply list_elem_of_omap in Hf as (x & _ & Hx). destruct (network_handle x); [| done].
    destruct (_ && _); [| done]. by injection Hx as <-. }
  destruct (Hall c) as [<- | He]; [apply elem_of_app; left; by apply Hlocal | done |].
  unfold earlier in He. cbn in He. lia.
Qed.
End owner.

Module owner_examples.
Import owner authstore_examples.

Definition bobs_route : transferstore.Route := transferstore.mkRoute "bob.example" (Some alice) None 20.
(** Another server's account claims the same handle. *)
Definition elsewhere : list NetworkIdentity :=
  [mkNetworkIdentity "did:plc:other" (Some "bob.example") true 99].
Lemma taken_routes : orgstore.routes (authstore.core_ taken) = [bobs_route].
Proof. vm_compute. reflexivity. Qed.
Lemma taken_account : orgstore.accounts (authstore.core_ taken) !! alice = Some (Some "bob.example").
Proof. vm_compute. reflexivity. Qed.
Lemma taken_ok : authstore.routes_ok lower_ taken.
Proof.
  split; rewrite taken_routes; [apply NoDup_singleton |].
  intros r did ->%list_elem_of_singleton [= <-]. exists "bob.example". by rewrite taken_account.
Qed.
Lemma current_handle_resolves_witness :
  Resolve (resolveOwner lower_ (authstore.core_ taken) elsewhere) " BOB.example "
  = Ok (mkOwner KindAccount "bob.example" alice EmptyString).
Proof.
  apply (current_handle_resolves lower_ taken elsewhere bobs_route alice "bob.example" " BOB.example ");
    try (vm_compute; reflexivity).
  - apply lower_idempotent.
  - apply taken_ok.
  - rewrite taken_routes. apply NoDup_singleton.
  - rewrite taken_routes. left.
  - done.
Defined.
Example bob_is_elsewhere :
  (Resolve (resolveOwner lower_ (authstore.core_ start) elsewhere) "bob.example",
   Resolve (resolveOwner lower_ (authstore.core_ taken) elsewhere) "  ")
  = (Ok (mkOwner KindAccount "bob.example" "did:plc:other" EmptyString), Err ErrNotFound).
Proof. vm_compute. reflexivity. Qed.
End owner_examples.
