(* ===== verification/Publisher.v ===== *)
(** * Publisher: records on a personal data server (package [internal/atproto]).

    The client of a PDS: it resolves who an account is, resumes the account's OAuth
    session under the account's lock, writes, swaps, reads and deletes records, and
    stores the session again.  The effects are the identity directory, the store of
    sessions, the library that resumes them, the server's XRPC calls and the locks. *)

From S2P Require Import Prelude.
From S2P Require Import GoText.
From S2P Require Import Encoding.
From S2P Require Import Syntax.
From S2P Require Import Json.
From S2P Require Import JsonDecode.
From S2P Require Import Star.
From S2P Require Import Issue.
From S2P Require Import PullRequest.
From S2P Require Import Triage.
From S2P Require Import Webhook.
From S2P Require Import Repository.
From S2P Require Import Transfer.
From S2P Require Import Organization.
From S2P Require Import Wire.
From S2P Require Import Endpoint.
From S2P Require Import Profile.
From S2P Require Import FederationEvent.

Module atproto.
Import wire.

Definition ErrProviderFailure : error := New "AT Protocol provider failure".
Definition ErrSessionNotFound : error := New "OAuth session not found".
Definition ErrSessionInvalid : error := New "OAuth session invalid".
Definition ProviderError (Operation : string) (Err : error) : error :=
  CauseError ErrProviderFailure Operation (Some Err).

Definition repositoryCollection : string := "dev.adenosine.repo".
Definition profileCollection : string := "dev.adenosine.profile".
Definition profileRKey : string := "self".
Definition organizationCollection : string := "dev.adenosine.organization".
Definition organizationGrantCollection : string := "dev.adenosine.organizationGrant".
Definition organizationMembershipCollection : string := "dev.adenosine.organizationMembership".
Definition organizationRevocationCollection : string := "dev.adenosine.organizationRevocation".

(** What the code uses of [identity.Identity] (the handle is [None] when it is
    invalid, and normalized) and of [oauth.ClientSessionData]. *)
Record Identity := mkIdentity {
  Identity_DID : string; PDSEndpoint : string; Identity_Handle : option string
}.
Record SessionData := mkSessionData { AccountDID : string; SessionID : string; HostURL : string }.

(** A [map[string]any] of a record: its values are strings, [[]string] (perhaps nil)
    and maps of strings. *)
Inductive any :=
| AString (s : string)
| AStrings (l : option (list string))
| AMap (members : list (string * string)).
Definition recordMap : Type := list (string * any).

(** [SwapRecord]: a out of the request, [null], which the slot must not exist for,
    or the CID it must have. *)
Inductive swap := AnyVersion | MustNotExist | MustBe (cid : string).
Record putRecordInput := mkPut {
  Put_Collection : string; Put_Repo : string; Put_RKey : string; SwapRecord : swap;
  Put_Record : recordMap
}.
Record putRecordOutput := mkPutOutput { Output_URI : string; Output_CID : string }.
Record deleteRecordInput := mkDelete {
  Delete_Collection : string; Delete_Repo : string; Delete_RKey : string; Delete_Swap : string
}.
Record getRecordOutput := mkGetOutput {
  Get_URI : string; Get_CID : option string; Value : option (list Z)
}.
(** An error of an XRPC call, and the [StatusCode] and [Name] of the
    [atclient.APIError] that [errors.As] finds in it. *)
Record apiError := mkAPIError { api_err : error; api_found : option (Z * string) }.
Definition reply (A : Type) : Type := A + apiError.

Inductive effect : Type -> Type :=
| LookupDID (did : string) : effect (result (option Identity))
| GetLatestSession (did : string) : effect (result (option SessionData))
| ResumeSession (did sessionID : string) : effect (result (option SessionData))
| SaveSession (session : SessionData) : effect (result unit)
    (** the session as the requests have a it *)
| PutRecord (host : string) (session : SessionData) (input : putRecordInput)
    : effect (reply putRecordOutput)
| DeleteRecord (host : string) (session : SessionData) (input : deleteRecordInput)
    : effect (reply unit)
| GetRecord (host : string) (session : option SessionData) (collection repo rkey : string)
    : effect (reply getRecordOutput)
| Lock (did : string) : effect unit
| Unlock (did : string) : effect unit.

Definition isRecordNotFound (err : apiError) : bool :=
  match api_found err with
  | Some (status, name) => (status =? 404) || (name == "RecordNotFound") || (name == "RepoNotFound")
  | None => false
  end.
Definition isInvalidSwap (err : apiError) : bool :=
  match api_found err with Some (_, name) => name == "InvalidSwap" | None => false end.

(** [lock.Lock(); defer lock.Unlock()]. *)
Definition locked {A} (did : string) (p : svc effect A) : svc effect A :=
  let! _ := call (Lock did) in
  let! r := p in
  let! _ := call (Unlock did) in
  Ret r.

(** [errors.Join(operationErr, persistenceErr)], if either is an error. *)
Definition joined {A} (operation : result A) (persistence : result unit) : result A :=
  match operation, persistence with
  | Ok a, Ok _ => Ok a
  | Err e, Ok _ => Err (Join [e])
  | Ok _, Err p => Err (Join [p])
  | Err e, Err p => Err (Join [e; p])
  end.

(** ** The errors of a package *)

(** Packages report the same failures as errors of their own. *)
Record package := mkPackage {
  invalidAuthor : error;
  pkg_ProviderError : string -> error -> error;
  pkg_AuthorizationError : error -> error
}.
Definition star_pkg : package := mkPackage
  (star.ValidationError "authorDID" "must be a valid canonical AT Protocol DID")
  (fun op e => star.ProviderError op (Some e)) (fun e => star.AuthorizationError (Some e)).
Definition issue_pkg : package := mkPackage
  (issue.ValidationError "authorDID" "must be a valid canonical AT Protocol DID")
  (fun op e => issue.ProviderError op (Some e)) (fun e => issue.AuthorizationError (Some e)).
Definition pullrequest_pkg : package := mkPackage
  (pullrequest.ValidationError "authorDID" "must be a valid canonical AT Protocol DID")
  (fun op e => pullrequest.ProviderError op (Some e)) (fun e => pullrequest.AuthorizationError (Some e)).
Definition triage_pkg : package := mkPackage
  (triage.ValidationError "authorDID" "must be a canonical DID")
  (fun op e => triage.ProviderError op (Some e)) (fun e => triage.AuthorizationError (Some e)).
Definition profile_pkg : package := mkPackage
  (profile.ValidationError "DID" "must be a valid canonical AT Protocol DID")
  profile.ProviderError profile.AuthorizationError.

Section client.
Context `{TapSyntax, GoUnicode, GoEndpoint, UUIDs}.

(** ** Identities and sessions *)

Definition safePublicURL (value : URL) : bool :=
  (Scheme value == "https") && (Hostname value != EmptyString) && negb (is_some (User value)).
Definition canonicalPDSHost (raw : string) : result string :=
  let bad := Err (New "identity has no permitted PDS endpoint") in
  match url_Parse raw with
  | None => bad
  | Some parsed =>
      if negb (safePublicURL parsed) || (RawQuery parsed != EmptyString) || (Fragment parsed != EmptyString)
      then bad else Ok (TrimSuffix (URL_String parsed) "/")
  end.
Definition samePDSHost (a b : string) : bool :=
  match canonicalPDSHost a with Ok canonical => canonical == b | Err _ => false end.

Definition resolveIdentity (pkg : package) (rawDID : string) : svc effect (string * Identity * string) :=
  match ParseDID rawDID with
  | None => fail (invalidAuthor pkg)
  | Some did =>
      if DID_String did != rawDID then fail (invalidAuthor pkg) else
      let? found := wrapErr (pkg_ProviderError pkg "identity resolution") (call (LookupDID rawDID)) in
      match found with
      | None => fail (pkg_ProviderError pkg "identity verification" (New "resolved DID mismatch"))
      | Some found =>
          if Identity_DID found != rawDID
          then fail (pkg_ProviderError pkg "identity verification" (New "resolved DID mismatch")) else
          let? host := wrapErr (pkg_ProviderError pkg "PDS verification")
                         (lift (canonicalPDSHost (PDSEndpoint found))) in
          done_ (rawDID, found, host)
      end
  end.

(** [errors.Is(err, ErrSessionNotFound)] asks the user to log in again. *)
Definition notFoundOr (pkg : package) (operation : string) (err : error) : error :=
  if Is err ErrSessionNotFound then pkg_AuthorizationError pkg err
  else pkg_ProviderError pkg operation err.
Definition belongs (session : SessionData) (did host : string) : bool :=
  (AccountDID session == did) && samePDSHost (HostURL session) host.
Definition resumePackageSession (pkg : package) (did host : string) : svc effect SessionData :=
  let? latest := wrapErr (notFoundOr pkg "credential load") (call (GetLatestSession did)) in
  match latest with
  | None => fail (pkg_AuthorizationError pkg ErrSessionNotFound)
  | Some latest =>
      let? session := wrapErr (notFoundOr pkg "credential resume")
                        (call (ResumeSession did (SessionID latest))) in
      match session with
      | None => fail (pkg_ProviderError pkg "credential resume" ErrSessionInvalid)
      | Some session =>
          if negb (belongs session did host)
          then fail (pkg_ProviderError pkg "credential verification" ErrSessionInvalid)
          else done_ session
      end
  end.

(** An operation with the session of an account, which is stored again whatever the
    operation did. *)
Definition persistSession (pkg : package) (session : SessionData) (operation : string)
    : svc effect unit :=
  wrapErr (pkg_ProviderError pkg operation) (call (SaveSession session)).
Definition withSession {A} (resolve : string -> svc effect (string * Identity * string))
    (resume : string -> string -> svc effect SessionData) (persist : SessionData -> svc effect unit)
    (rawDID : string) (operation : string -> string -> SessionData -> svc effect A) : svc effect A :=
  let? (did, _, host) := resolve rawDID in
  locked did
    (let? session := resume did host in
     let! r := operation host did session in
     let! p := persist session in
     Ret (joined r p)).

(** ** Times, references and JSON *)

Definition parseCanonicalTime (message value : string) : result time :=
  match ParseDatetimeTime value with
  | Some parsed => reject_if format_datetime (UTC parsed) != value with New message ;; Ok parsed
  | None => Err (New message)
  end.
(** The text of two times, each of which must read back. *)
Definition canonicalTimes (message : string) (invalid : string -> error -> error)
    (createdAt updatedAt : time) : result (string * string) :=
  let created := format_datetime (UTC createdAt) in
  let updated := format_datetime (UTC updatedAt) in
  let* _ := mapErr (invalid "createdAt") (parseCanonicalTime message created) in
  let* _ := mapErr (invalid "updatedAt") (parseCanonicalTime message updated) in
  Ok (created, updated).
Definition sameTime (a b : time) : bool :=
  format_datetime (UTC a) == format_datetime (UTC b).
(** [result.CreatedAt, _ = syntax.ParseDatetimeTime(createdAt)]. *)
Definition parsed_or_zero (value : string) : time := default zeroTime (ParseDatetimeTime value).

Definition strongRefMap (uri cid : string) : any := AMap [("uri", uri); ("cid", cid)].

(** A [json.Decoder] over a value: what it decodes first, and whether nothing else
    follows. *)
Definition decode_first (strict : bool) (zero : fields) (raw : list Z) : option (fields * bool) :=
  let rs := map fst (decode raw) in
  '(v, rest) ← jsondecode.parse (jsondecode.enough rs) jsondecode.maxNestingDepth rs;
  s ← into strict v (Struct zero);
  match s with
  | Struct fs => Some (fs, bool_decide (jsondecode.skip_ws rest = []))
  | _ => None
  end.
Definition decodeJSON (strict : bool) (invalid trailing : string) (zero : fields) (raw : list Z)
    : result fields :=
  match decode_first strict zero raw with
  | None => Err (New invalid)
  | Some (fs, ends) => reject_if negb ends with New trailing ;; Ok fs
  end.

Definition recordURI (did collection rkey : string) : string :=
  "at://" +:+ did +:+ "/" +:+ collection +:+ "/" +:+ rkey.
Definition validateRecordEnvelope (uriProblem cidProblem : string) (validateCID : string -> result unit)
    (uriValue cidValue did collection rkey : string) : result unit :=
  let* _ :=
    match ParseATURI uriValue with
    | Some uri => reject_if (ATURI_String uri != uriValue) || (uriValue != recordURI did collection rkey)
                    with New uriProblem ;; Ok tt
    | None => Err (New uriProblem)
    end in
  mapErr (fun _ => New cidProblem) (validateCID cidValue).

(** A record that may not be there. *)
Definition getOptionalRecord (pkg : package) (host : string) (session : SessionData)
    (collection did rkey : string) : svc effect (option getRecordOutput) :=
  let! r := call (GetRecord host (Some session) collection did rkey) in
  match r with
  | inl output => done_ (Some output)
  | inr err => if isRecordNotFound err then done_ None
               else fail (pkg_ProviderError pkg "get" (api_err err))
  end.

Definition empty : slot := Text EmptyString.
Definition zero_ref : fields := [("uri", empty); ("cid", empty)].
Definition ref_uri (name : string) (fs : fields) : string := text "uri" (struct name fs).
Definition ref_cid (name : string) (fs : fields) : string := text "cid" (struct name fs).

(** ** Stars *)

Definition resolveStarIdentity : string -> svc effect (string * Identity * string) :=
  resolveIdentity star_pkg.
Definition resumeStarSession : string -> string -> svc effect SessionData :=
  resumePackageSession star_pkg.
Definition withStarSession {A} : string -> (string -> string -> SessionData -> svc effect A) -> svc effect A :=
  withSession resolveStarIdentity resumeStarSession
    (fun session => persistSession star_pkg session "credential persistence").
Definition getStarRecord : string -> SessionData -> string -> string -> string
    -> svc effect (option getRecordOutput) := getOptionalRecord star_pkg.

Definition validateStarEnvelope (uri cid did rkey : string) : result unit :=
  validateRecordEnvelope "star URI is not canonical" "star CID is not canonical" star.ValidateCID
    uri cid did star.Collection rkey.

Definition decodeStar (output : getRecordOutput) (did rkey : string) : result star.Star :=
  match Value output with
  | None => Err (New "star record is missing")
  | Some value =>
      let cid := default EmptyString (Get_CID output) in
      let* _ := validateStarEnvelope (Get_URI output) cid did rkey in
      let* record := decodeJSON false "star record is invalid" "star record contains trailing JSON"
        [("$type", empty); ("subject", Struct zero_ref); ("createdAt", empty)] value in
      reject_if text "$type" record != star.Collection with New "star record type is invalid" ;;
      let target := star.mkTarget (ref_uri "subject" record) (ref_cid "subject" record) in
      let* _ := star.Target_Validate target in
      let* createdAt := parseCanonicalTime "star createdAt is not canonical" (text "createdAt" record) in
      Ok (star.mkStar (Get_URI output) cid did target createdAt zeroTime)
  end.

Definition starRecord (target : star.Target) (createdAt : string) : recordMap :=
  [("$type", AString star.Collection);
   ("subject", strongRefMap (star.Target_URI target) (star.Target_CID target));
   ("createdAt", AString createdAt)].

Definition createStarRecord (target : star.Target) (createdAt : time) (rkey host did : string)
    (session : SessionData) : svc effect star.Star :=
  let createdAtValue := format_datetime (UTC createdAt) in
  match ParseDatetimeTime createdAtValue with
  | None => fail (star.ValidationError "createdAt" "must be an AT Protocol datetime")
  | Some authoritativeCreatedAt =>
      let! r := call (PutRecord host session
        (mkPut star.Collection did rkey MustNotExist (starRecord target createdAtValue))) in
      match r with
      | inr err =>
          if negb (isInvalidSwap err) then fail (star.ProviderError "create" (Some (api_err err))) else
          let? existing := getStarRecord host session star.Collection did rkey in
          match existing with
          | None => fail (star.ConflictError (Some (New "deterministic record disappeared")))
          | Some existing =>
              let? decoded := lift (mapErr (fun e => star.ConflictError (Some e)) (decodeStar existing did rkey)) in
              if star.Target_URI (star.Star_Target decoded) != star.Target_URI target
              then fail (star.ConflictError (Some (New "deterministic record has another target")))
              else done_ decoded
          end
      | inl output =>
          let? _ := lift (mapErr (fun e => star.ProviderError "create response validation" (Some e))
            (validateStarEnvelope (Output_URI output) (Output_CID output) did rkey)) in
          done_ (star.mkStar (Output_URI output) (Output_CID output) did target authoritativeCreatedAt zeroTime)
      end
  end.

Definition CreateStar (authorDID : string) (target : star.Target) (createdAt : time)
    : svc effect star.Star :=
  let? _ := lift (star.Target_Validate target) in
  if IsZero createdAt then fail (star.ValidationError "createdAt" "must not be empty") else
  let? rkey := lift (star.RecordKey (star.Target_URI target)) in
  withStarSession authorDID (createStarRecord target createdAt rkey).

Definition deleteStarRecord (target : star.Target) (rkey host did : string) (session : SessionData)
    : svc effect unit :=
  let? existing := getStarRecord host session star.Collection did rkey in
  match existing with
  | None => done_ tt
  | Some existing =>
      let? decoded := lift (mapErr (fun e => star.ConflictError (Some e)) (decodeStar existing did rkey)) in
      if star.Target_URI (star.Star_Target decoded) != star.Target_URI target
      then fail (star.ConflictError (Some (New "deterministic record has another target"))) else
      let! r := call (DeleteRecord host session (mkDelete star.Collection did rkey (star.CID decoded))) in
      match r with
      | inl _ => done_ tt
      | inr err =>
          if isRecordNotFound err then done_ tt else
          if negb (isInvalidSwap err) then fail (star.ProviderError "delete" (Some (api_err err))) else
          let? current := getStarRecord host session star.Collection did rkey in
          match current with
          | None => done_ tt
          | Some current =>
              let? currentStar := lift (mapErr (fun e => star.ConflictError (Some e))
                                    (decodeStar current did rkey)) in
              if star.Target_URI (star.Star_Target currentStar) != star.Target_URI target
              then fail (star.ConflictError (Some (New "deterministic record has another target")))
              else done_ tt
          end
      end
  end.

Definition DeleteStar (authorDID : string) (target : star.Target) : svc effect unit :=
  let? _ := lift (star.Target_Validate target) in
  let? rkey := lift (star.RecordKey (star.Target_URI target)) in
  withStarSession authorDID (deleteStarRecord target rkey).

(** ** Issues *)

Definition resolveIssueIdentity : string -> svc effect (string * Identity * string) :=
  resolveIdentity issue_pkg.
Definition resumeIssueSession : string -> string -> svc effect SessionData :=
  resumePackageSession issue_pkg.
Definition persistIssueSession : SessionData -> string -> svc effect unit :=
  persistSession issue_pkg.
Definition withIssueSession {A} (persist rawDID : string)
    (operation : string -> string -> SessionData -> svc effect A) : svc effect A :=
  withSession resolveIssueIdentity resumeIssueSession (fun session => persistIssueSession session persist)
    rawDID operation.
Definition getIssueRecord : string -> SessionData -> string -> string -> string
    -> svc effect (option getRecordOutput) := getOptionalRecord issue_pkg.
Definition sameIssueTime : time -> time -> bool := sameTime.

Definition canonicalIssueTimes (createdAt updatedAt : time) : result (string * string) :=
  canonicalTimes "issue datetime is not canonical"
    (fun field _ => issue.ValidationError field "must be an AT Protocol datetime") createdAt updatedAt.
Definition parseCanonicalIssueTime : string -> result time :=
  parseCanonicalTime "issue datetime is not canonical".
Definition validateIssueEnvelope (uri cid did collection rkey : string) : result unit :=
  validateRecordEnvelope "issue URI is not canonical" "issue CID is not canonical" issue.ValidateCID
    uri cid did collection rkey.
Definition issueRefMap (ref : issue.StrongRef) : any := strongRefMap (issue.URI ref) (issue.CID ref).
Definition issue_ref (name : string) (fs : fields) : issue.StrongRef :=
  issue.mkStrongRef (ref_uri name fs) (ref_cid name fs).
Definition decodeIssueJSON : fields -> list Z -> result fields :=
  decodeJSON false "issue record is invalid" "issue record contains trailing JSON".
Definition same_issue_ref (a b : issue.StrongRef) : bool :=
  (issue.URI a == issue.URI b) && (issue.CID a == issue.CID b).

Definition decodeIssue (output : getRecordOutput) (did rkey : string) : result issue.Issue :=
  match Get_CID output, Value output with
  | Some cid, Some value =>
      let* _ := validateIssueEnvelope (Get_URI output) cid did issue.Collection rkey in
      let* wire := decodeIssueJSON
        [("$type", empty); ("repository", Struct zero_ref); ("title", empty); ("body", empty);
         ("createdAt", empty); ("updatedAt", empty)] value in
      reject_if text "$type" wire != issue.Collection with New "issue record type is invalid" ;;
      let* createdAt := parseCanonicalIssueTime (text "createdAt" wire) in
      let* updatedAt := parseCanonicalIssueTime (text "updatedAt" wire) in
      let record := issue.mkRecord (issue_ref "repository" wire) (text "title" wire) (text "body" wire)
                      createdAt updatedAt in
      let* _ := issue.Record_Validate record in
      Ok (issue.mkIssue (Get_URI output) cid did record)
  | _, _ => Err (New "issue envelope is incomplete")
  end.
Definition sameIssueRecord (a b : issue.IssueRecord) : bool :=
  same_issue_ref (issue.Repository a) (issue.Repository b)
  && (issue.Title a == issue.Title b) && (issue.Body a == issue.Body b)
  && sameIssueTime (issue.CreatedAt a) (issue.CreatedAt b)
  && sameIssueTime (issue.UpdatedAt a) (issue.UpdatedAt b).

Definition issueRecord (record : issue.IssueRecord) (createdAt updatedAt : string) : recordMap :=
  [("$type", AString issue.Collection); ("repository", issueRefMap (issue.Repository record));
   ("title", AString (issue.Title record)); ("body", AString (issue.Body record));
   ("createdAt", AString createdAt); ("updatedAt", AString updatedAt)].

Definition createIssueRecord (record : issue.IssueRecord) (rkey host did : string)
    (session : SessionData) : svc effect issue.Issue :=
  let? (createdAt, updatedAt) := lift (canonicalIssueTimes (issue.CreatedAt record) (issue.UpdatedAt record)) in
  let! r := call (PutRecord host session
    (mkPut issue.Collection did rkey MustNotExist (issueRecord record createdAt updatedAt))) in
  match r with
  | inr err =>
      if negb (isInvalidSwap err) then fail (issue.ProviderError "create" (Some (api_err err))) else
      let? existing := getIssueRecord host session issue.Collection did rkey in
      match existing with
      | None => fail (issue.ConflictError (Some (New "create-only record disappeared")))
      | Some existing =>
          match decodeIssue existing did rkey with
          | Err e => fail (issue.ConflictError (Some e))
          | Ok decoded =>
              if negb (sameIssueRecord (issue.Issue_Record decoded) record)
              then fail (issue.ConflictError None) else done_ decoded
          end
      end
  | inl output =>
      let? _ := lift (mapErr (fun e => issue.ProviderError "create response validation" (Some e))
        (validateIssueEnvelope (Output_URI output) (Output_CID output) did issue.Collection rkey)) in
      done_ (issue.mkIssue (Output_URI output) (Output_CID output) did
        (issue.mkRecord (issue.Repository record) (issue.Title record) (issue.Body record)
           (parsed_or_zero createdAt) (parsed_or_zero updatedAt)))
  end.

Definition CreateIssue (authorDID rkey : string) (record : issue.IssueRecord) : svc effect issue.Issue :=
  let? _ := lift (issue.ValidateRecordKey rkey) in
  let? _ := lift (issue.Record_Validate record) in
  withIssueSession "credential persistence" authorDID (createIssueRecord record rkey).

Definition decodeIssueStatus (output : getRecordOutput) (did rkey : string) : result issue.Status :=
  match Get_CID output, Value output with
  | Some cid, Some value =>
      let* _ := validateIssueEnvelope (Get_URI output) cid did issue.StatusCollection rkey in
      let* wire := decodeIssueJSON
        [("$type", empty); ("subject", Struct zero_ref); ("repository", Struct zero_ref); ("state", empty);
         ("createdAt", empty); ("updatedAt", empty)] value in
      reject_if text "$type" wire != issue.StatusCollection
        with New "issue status record type is invalid" ;;
      let* createdAt := parseCanonicalIssueTime (text "createdAt" wire) in
      let* updatedAt := parseCanonicalIssueTime (text "updatedAt" wire) in
      let record := issue.mkStatusRecord (issue_ref "subject" wire) (issue_ref "repository" wire)
                      (text "state" wire) createdAt updatedAt in
      let* _ := issue.StatusRecord_Validate record in
      match issue.RepositoryOwnerDID (issue.URI (issue.Status_Repository record)) with
      | Ok owner => reject_if owner != did with New "issue status authority is invalid" ;;
                    Ok (issue.mkStatus (Get_URI output) cid did record)
      | Err _ => Err (New "issue status authority is invalid")
      end
  | _, _ => Err (New "issue status envelope is incomplete")
  end.
Definition sameStatusRecord (a b : issue.StatusRecord) : bool :=
  same_issue_ref (issue.Status_Subject a) (issue.Status_Subject b)
  && same_issue_ref (issue.Status_Repository a) (issue.Status_Repository b)
  && (issue.Status_State a == issue.Status_State b)
  && sameIssueTime (issue.Status_CreatedAt a) (issue.Status_CreatedAt b)
  && sameIssueTime (issue.Status_UpdatedAt a) (issue.Status_UpdatedAt b).

Definition issueStatusRecord (record : issue.StatusRecord) (createdAt updatedAt : string) : recordMap :=
  [("$type", AString issue.StatusCollection); ("subject", issueRefMap (issue.Status_Subject record));
   ("repository", issueRefMap (issue.Status_Repository record)); ("state", AString (issue.Status_State record));
   ("createdAt", AString createdAt); ("updatedAt", AString updatedAt)].
(** [record.CreatedAt = current.CreatedAt]. *)
Definition status_created (record : issue.StatusRecord) (createdAt : time) : issue.StatusRecord :=
  issue.mkStatusRecord (issue.Status_Subject record) (issue.Status_Repository record)
    (issue.Status_State record) createdAt (issue.Status_UpdatedAt record).

(** The write of a status, over the version that was read. *)
Definition writeIssueStatus (record : issue.StatusRecord) (swapRecord : swap) (rkey host did : string)
    (session : SessionData) : svc effect issue.Status :=
  let? (createdAt, updatedAt) :=
    lift (canonicalIssueTimes (issue.Status_CreatedAt record) (issue.Status_UpdatedAt record)) in
  let! r := call (PutRecord host session
    (mkPut issue.StatusCollection did rkey swapRecord (issueStatusRecord record createdAt updatedAt))) in
  match r with
  | inr err =>
      if negb (isInvalidSwap err) then fail (issue.ProviderError "put status" (Some (api_err err))) else
      let? found := getIssueRecord host session issue.StatusCollection did rkey in
      let conflict := fail (issue.ConflictError (Some (New "status changed concurrently"))) in
      match found with
      | None => conflict
      | Some currentOutput =>
          match decodeIssueStatus currentOutput did rkey with
          | Err _ => conflict
          | Ok current => if sameStatusRecord (issue.Status_Record current) record
                          then done_ current else conflict
          end
      end
  | inl output =>
      let? _ := lift (mapErr (fun e => issue.ProviderError "status response validation" (Some e))
        (validateIssueEnvelope (Output_URI output) (Output_CID output) did issue.StatusCollection rkey)) in
      done_ (issue.mkStatus (Output_URI output) (Output_CID output) did
        (issue.mkStatusRecord (issue.Status_Subject record) (issue.Status_Repository record)
           (issue.Status_State record) (parsed_or_zero createdAt) (parsed_or_zero updatedAt)))
  end.
Definition putIssueStatusRecord (record : issue.StatusRecord) (rkey host did : string)
    (session : SessionData) : svc effect issue.Status :=
  let? found := getIssueRecord host session issue.StatusCollection did rkey in
  match found with
  | None => writeIssueStatus record MustNotExist rkey host did session
  | Some existing =>
      let? current := lift (mapErr (fun e => issue.ConflictError (Some e)) (decodeIssueStatus existing did rkey)) in
      let old := issue.Status_Record current in
      if (issue.URI (issue.Status_Subject old) != issue.URI (issue.Status_Subject record))
         || (issue.URI (issue.Status_Repository old) != issue.URI (issue.Status_Repository record))
      then fail (issue.ConflictError (Some (New "status slot has incompatible identity"))) else
      let record := status_created record (issue.Status_CreatedAt old) in
      if sameStatusRecord old record then done_ current else
      if negb (After (issue.Status_UpdatedAt record) (issue.Status_UpdatedAt old))
      then fail (issue.ConflictError (Some (New "status update is stale")))
      else writeIssueStatus record (MustBe (issue.Status_CID current)) rkey host did session
  end.

Definition PutIssueStatus (authorDID : string) (record : issue.StatusRecord) : svc effect issue.Status :=
  let? _ := lift (issue.StatusRecord_Validate record) in
  let? ownerDID := lift (issue.RepositoryOwnerDID (issue.URI (issue.Status_Repository record))) in
  if authorDID != ownerDID
  then fail (issue.AuthorizationError (Some (New "status author is not repository owner"))) else
  let? rkey := lift (issue.StatusRecordKey (issue.URI (issue.Status_Subject record))) in
  withIssueSession "status credential persistence" authorDID (putIssueStatusRecord record rkey).

(** ** Comments *)

Definition decodeIssueComment (output : getRecordOutput) (did rkey : string) : result issue.Comment :=
  match Get_CID output, Value output with
  | Some cid, Some value =>
      let* _ := validateIssueEnvelope (Get_URI output) cid did issue.CommentCollection rkey in
      let* wire := decodeIssueJSON
        [("$type", empty); ("subject", Struct zero_ref); ("parent", Pointer zero_ref None); ("body", empty);
         ("createdAt", empty); ("updatedAt", empty)] value in
      reject_if text "$type" wire != issue.CommentCollection
        with New "issue comment record type is invalid" ;;
      let* createdAt := parseCanonicalIssueTime (text "createdAt" wire) in
      let* updatedAt := parseCanonicalIssueTime (text "updatedAt" wire) in
      let record := issue.mkCommentRecord (issue_ref "subject" wire)
        ((fun parent => issue.mkStrongRef (text "uri" parent) (text "cid" parent)) <$> struct_ptr "parent" wire)
        (text "body" wire) createdAt updatedAt in
      let* _ := issue.CommentRecord_Validate record in
      let result := issue.mkComment (Get_URI output) cid did record in
      let* _ := issue.Comment_Validate result in
      Ok result
  | _, _ => Err (New "issue comment envelope is incomplete")
  end.
Definition sameOptionalStrongRef (a b : option issue.StrongRef) : bool :=
  match a, b with
  | Some a, Some b => same_issue_ref a b
  | None, None => true
  | _, _ => false
  end.
Definition sameIssueCommentRecord (a b : issue.CommentRecord) : bool :=
  same_issue_ref (issue.Subject a) (issue.Subject b)
  && sameOptionalStrongRef (issue.Parent a) (issue.Parent b)
  && (issue.Comment_Body a == issue.Comment_Body b)
  && sameIssueTime (issue.Comment_CreatedAt a) (issue.Comment_CreatedAt b)
  && sameIssueTime (issue.Comment_UpdatedAt a) (issue.Comment_UpdatedAt b).

Definition issueCommentRecord (record : issue.CommentRecord) (createdAt updatedAt : string) : recordMap :=
  [("$type", AString issue.CommentCollection); ("subject", issueRefMap (issue.Subject record));
   ("body", AString (issue.Comment_Body record)); ("createdAt", AString createdAt);
   ("updatedAt", AString updatedAt)]
  ++ match issue.Parent record with Some parent => [("parent", issueRefMap parent)] | None => [] end.

Definition createIssueCommentRecord (record : issue.CommentRecord) (rkey host did : string)
    (session : SessionData) : svc effect issue.Comment :=
  let? (createdAt, updatedAt) :=
    lift (canonicalIssueTimes (issue.Comment_CreatedAt record) (issue.Comment_UpdatedAt record)) in
  let! r := call (PutRecord host session
    (mkPut issue.CommentCollection did rkey MustNotExist (issueCommentRecord record createdAt updatedAt))) in
  match r with
  | inr err =>
      if negb (isInvalidSwap err) then fail (issue.ProviderError "create comment" (Some (api_err err))) else
      let? existing := getIssueRecord host session issue.CommentCollection did rkey in
      match existing with
      | None => fail (issue.ConflictError (Some (New "create-only comment disappeared")))
      | Some existing =>
          match decodeIssueComment existing did rkey with
          | Err e => fail (issue.ConflictError (Some e))
          | Ok decoded =>
              if negb (sameIssueCommentRecord (issue.Comment_Record decoded) record)
              then fail (issue.ConflictError None) else done_ decoded
          end
      end
  | inl output =>
      let result := issue.mkComment (Output_URI output) (Output_CID output) did
        (issue.mkCommentRecord (issue.Subject record) (issue.Parent record) (issue.Comment_Body record)
           (parsed_or_zero createdAt) (parsed_or_zero updatedAt)) in
      let invalid e := issue.ProviderError "create comment response validation" (Some e) in
      let? _ := lift (mapErr invalid
        (validateIssueEnvelope (Output_URI output) (Output_CID output) did issue.CommentCollection rkey)) in
      let? _ := lift (mapErr invalid (issue.Comment_Validate result)) in
      done_ result
  end.

Definition CreateIssueComment (authorDID rkey : string) (record : issue.CommentRecord)
    : svc effect issue.Comment :=
  let? _ := lift (issue.ValidateRecordKey rkey) in
  let? _ := lift (issue.CommentRecord_Validate record) in
  if match issue.Parent record with
     | Some parent => issue.URI parent == recordURI authorDID issue.CommentCollection rkey
     | None => false
     end
  then fail (issue.ValidationError "parent.uri" "must differ from the comment URI") else
  withIssueSession "comment credential persistence" authorDID (createIssueCommentRecord record rkey).

Definition deleteIssueCommentRecord (collection rkey host did : string) (session : SessionData)
    : svc effect unit :=
  let? existing := getIssueRecord host session collection did rkey in
  match existing with
  | None => done_ tt
  | Some existing =>
      let? decoded := lift (mapErr (fun e => issue.ConflictError (Some e)) (decodeIssueComment existing did rkey)) in
      let! r := call (DeleteRecord host session (mkDelete collection did rkey (issue.Comment_CID decoded))) in
      match r with
      | inl _ => done_ tt
      | inr err =>
          if isRecordNotFound err then done_ tt else
          if negb (isInvalidSwap err) then fail (issue.ProviderError "delete comment" (Some (api_err err))) else
          let? current := getIssueRecord host session collection did rkey in
          match current with
          | None => done_ tt
          | Some current =>
              let? _ := lift (mapErr (fun e => issue.ConflictError (Some e)) (decodeIssueComment current did rkey)) in
              done_ tt
          end
      end
  end.

Definition DeleteIssueComment (authorDID commentURI : string) : svc effect unit :=
  let canonicalURI := issue.ValidationError "commentURI"
    ("must be a canonical " +:+ issue.CommentCollection +:+ " AT URI") in
  if match ParseDID authorDID with Some did => DID_String did != authorDID | None => true end
  then fail (issue.ValidationError "authorDID" "must be a canonical AT Protocol DID") else
  match ParseATURI commentURI with
  | None => fail canonicalURI
  | Some uri =>
      let rkey := RecordKey_String (ATURI_RecordKey uri) in
      if (ATURI_String uri != commentURI)
         || (NSID_String (ATURI_Collection uri) != issue.CommentCollection) || (rkey == EmptyString)
      then fail canonicalURI else
      match AsDID (Authority uri) with
      | None => fail (issue.ValidationError "commentURI" "must use a canonical DID authority")
      | Some uriDID =>
          if DID_String uriDID != AuthorityString (Authority uri)
          then fail (issue.ValidationError "commentURI" "must use a canonical DID authority") else
          if DID_String uriDID != authorDID
          then fail (issue.AuthorizationError (Some (New "comment is not owned by authenticated author"))) else
          let? _ := lift (issue.ValidateRecordKey rkey) in
          withIssueSession "comment credential persistence" (DID_String uriDID)
            (deleteIssueCommentRecord (NSID_String (ATURI_Collection uri)) rkey)
      end
  end.

(** ** Pull requests *)

Definition resolvePullRequestIdentity : string -> svc effect (string * Identity * string) :=
  resolveIdentity pullrequest_pkg.
Definition resumePullRequestSession : string -> string -> svc effect SessionData :=
  resumePackageSession pullrequest_pkg.
Definition persistPullRequestSession (session : SessionData) : svc effect unit :=
  persistSession pullrequest_pkg session "credential persistence".
Definition withPullRequestSession {A} : string -> (string -> string -> SessionData -> svc effect A) -> svc effect A :=
  withSession resolvePullRequestIdentity resumePullRequestSession persistPullRequestSession.
Definition getPullRequestRecord : string -> SessionData -> string -> string -> string
    -> svc effect (option getRecordOutput) := getOptionalRecord pullrequest_pkg.
Definition samePullRequestTime : time -> time -> bool := sameTime.

Definition canonicalPullRequestTimes (createdAt updatedAt : time) : result (string * string) :=
  canonicalTimes "pull request datetime is not canonical"
    (fun field _ => pullrequest.ValidationError field "must be an AT Protocol datetime") createdAt updatedAt.
Definition parseCanonicalPullRequestTime : string -> result time :=
  parseCanonicalTime "pull request datetime is not canonical".
Definition validatePullRequestEnvelope (uri cid did collection rkey : string) : result unit :=
  validateRecordEnvelope "pull request URI is not canonical" "pull request CID is not canonical"
    pullrequest.ValidateCID uri cid did collection rkey.
Definition pullRequestStrongRef (ref : pullrequest.StrongRef) : any :=
  strongRefMap (pullrequest.URI ref) (pullrequest.CID ref).
Definition pull_ref (name : string) (fs : fields) : pullrequest.StrongRef :=
  pullrequest.mkStrongRef (ref_uri name fs) (ref_cid name fs).
(** The callers report every failure as [message]. *)
Definition decodePullRequestJSON (message : string) (zero : fields) (value : list Z) : result fields :=
  mapErr (fun _ => New message) (decodeJSON false message message zero value).
Definition same_pull_ref (a b : pullrequest.StrongRef) : bool :=
  (pullrequest.URI a == pullrequest.URI b) && (pullrequest.CID a == pullrequest.CID b).

Definition decodePullRequest (output : getRecordOutput) (did rkey : string)
    : result pullrequest.PullRequest :=
  match Get_CID output, Value output with
  | Some cid, Some value =>
      let* _ := validatePullRequestEnvelope (Get_URI output) cid did pullrequest.Collection rkey in
      let* wire := decodePullRequestJSON "pull request record is invalid"
        [("$type", empty); ("sourceRepository", Struct zero_ref); ("targetRepository", Struct zero_ref);
         ("sourceBranch", empty); ("targetBranch", empty); ("headSHA", empty); ("title", empty);
         ("body", empty); ("createdAt", empty); ("updatedAt", empty)] value in
      reject_if text "$type" wire != pullrequest.Collection with New "pull request record is invalid" ;;
      let* createdAt := parseCanonicalPullRequestTime (text "createdAt" wire) in
      let* updatedAt := parseCanonicalPullRequestTime (text "updatedAt" wire) in
      let record := pullrequest.mkRecord (pull_ref "sourceRepository" wire) (pull_ref "targetRepository" wire)
        (text "sourceBranch" wire) (text "targetBranch" wire) (text "headSHA" wire) (text "title" wire)
        (text "body" wire) createdAt updatedAt in
      let* _ := pullrequest.Record_Validate record in
      Ok (pullrequest.mkPullRequest (Get_URI output) cid did record)
  | _, _ => Err (New "pull request envelope is incomplete")
  end.
Definition samePullRequestRecord (a b : pullrequest.PullRequestRecord) : bool :=
  same_pull_ref (pullrequest.SourceRepository a) (pullrequest.SourceRepository b)
  && same_pull_ref (pullrequest.TargetRepository a) (pullrequest.TargetRepository b)
  && (pullrequest.SourceBranch a == pullrequest.SourceBranch b)
  && (pullrequest.TargetBranch a == pullrequest.TargetBranch b)
  && (pullrequest.HeadSHA a == pullrequest.HeadSHA b) && (pullrequest.Title a == pullrequest.Title b)
  && (pullrequest.Body a == pullrequest.Body b)
  && samePullRequestTime (pullrequest.CreatedAt a) (pullrequest.CreatedAt b)
  && samePullRequestTime (pullrequest.UpdatedAt a) (pullrequest.UpdatedAt b).

Definition pullRequestRecord (record : pullrequest.PullRequestRecord) (createdAt updatedAt : string)
    : recordMap :=
  [("$type", AString pullrequest.Collection);
   ("sourceRepository", pullRequestStrongRef (pullrequest.SourceRepository record));
   ("targetRepository", pullRequestStrongRef (pullrequest.TargetRepository record));
   ("sourceBranch", AString (pullrequest.SourceBranch record));
   ("targetBranch", AString (pullrequest.TargetBranch record));
   ("headSHA", AString (pullrequest.HeadSHA record)); ("title", AString (pullrequest.Title record));
   ("body", AString (pullrequest.Body record)); ("createdAt", AString createdAt);
   ("updatedAt", AString updatedAt)].

Definition createPullRequestRecord (record : pullrequest.PullRequestRecord) (rkey host did : string)
    (session : SessionData) : svc effect pullrequest.PullRequest :=
  let? (createdAt, updatedAt) :=
    lift (canonicalPullRequestTimes (pullrequest.CreatedAt record) (pullrequest.UpdatedAt record)) in
  let! r := call (PutRecord host session
    (mkPut pullrequest.Collection did rkey MustNotExist (pullRequestRecord record createdAt updatedAt))) in
  match r with
  | inr err =>
      if negb (isInvalidSwap err) then fail (pullrequest.ProviderError "create" (Some (api_err err))) else
      let? existing := getPullRequestRecord host session pullrequest.Collection did rkey in
      match existing with
      | None => fail (pullrequest.ConflictError (Some (New "create-only record disappeared")))
      | Some existing =>
          match decodePullRequest existing did rkey with
          | Err e => fail (pullrequest.ConflictError (Some e))
          | Ok decoded =>
              if negb (samePullRequestRecord (pullrequest.PR_Record decoded) record)
              then fail (pullrequest.ConflictError None) else done_ decoded
          end
      end
  | inl output =>
      let? _ := lift (mapErr (fun e => pullrequest.ProviderError "create response validation" (Some e))
        (validatePullRequestEnvelope (Output_URI output) (Output_CID output) did pullrequest.Collection rkey)) in
      done_ (pullrequest.mkPullRequest (Output_URI output) (Output_CID output) did
        (pullrequest.mkRecord (pullrequest.SourceRepository record) (pullrequest.TargetRepository record)
           (pullrequest.SourceBranch record) (pullrequest.TargetBranch record) (pullrequest.HeadSHA record)
           (pullrequest.Title record) (pullrequest.Body record) (parsed_or_zero createdAt)
           (parsed_or_zero updatedAt)))
  end.

Definition CreatePullRequest (authorDID rkey : string) (record : pullrequest.PullRequestRecord)
    : svc effect pullrequest.PullRequest :=
  let? _ := lift (pullrequest.ValidateRecordKey rkey) in
  let? _ := lift (pullrequest.Record_Validate record) in
  withPullRequestSession authorDID (createPullRequestRecord record rkey).

Definition decodePullRequestReview (output : getRecordOutput) (did rkey : string)
    : result pullrequest.Review :=
  match Get_CID output, Value output with
  | Some cid, Some value =>
      let* _ := validatePullRequestEnvelope (Get_URI output) cid did pullrequest.ReviewCollection rkey in
      let* wire := decodePullRequestJSON "pull request review record is invalid"
        [("$type", empty); ("subject", Struct zero_ref); ("verdict", empty); ("body", empty);
         ("createdAt", empty); ("updatedAt", empty)] value in
      reject_if text "$type" wire != pullrequest.ReviewCollection
        with New "pull request review record is invalid" ;;
      let* createdAt := parseCanonicalPullRequestTime (text "createdAt" wire) in
      let* updatedAt := parseCanonicalPullRequestTime (text "updatedAt" wire) in
      let record := pullrequest.mkReviewRecord (pull_ref "subject" wire) (text "verdict" wire)
                      (text "body" wire) createdAt updatedAt in
      let* _ := pullrequest.ReviewRecord_Validate record in
      Ok (pullrequest.mkReview (Get_URI output) cid did record)
  | _, _ => Err (New "pull request review envelope is incomplete")
  end.
Definition samePullRequestReviewRecord (a b : pullrequest.ReviewRecord) : bool :=
  same_pull_ref (pullrequest.Review_Subject a) (pullrequest.Review_Subject b)
  && (pullrequest.Review_Verdict a == pullrequest.Review_Verdict b)
  && (pullrequest.Review_Body a == pullrequest.Review_Body b)
  && samePullRequestTime (pullrequest.Review_CreatedAt a) (pullrequest.Review_CreatedAt b)
  && samePullRequestTime (pullrequest.Review_UpdatedAt a) (pullrequest.Review_UpdatedAt b).

Definition pullRequestReviewRecord (record : pullrequest.ReviewRecord) (createdAt updatedAt : string)
    : recordMap :=
  [("$type", AString pullrequest.ReviewCollection);
   ("subject", pullRequestStrongRef (pullrequest.Review_Subject record));
   ("verdict", AString (pullrequest.Review_Verdict record)); ("body", AString (pullrequest.Review_Body record));
   ("createdAt", AString createdAt); ("updatedAt", AString updatedAt)].

Definition createReviewRecord (record : pullrequest.ReviewRecord) (rkey host did : string)
    (session : SessionData) : svc effect pullrequest.Review :=
  let? (createdAt, updatedAt) :=
    lift (canonicalPullRequestTimes (pullrequest.Review_CreatedAt record) (pullrequest.Review_UpdatedAt record)) in
  let! r := call (PutRecord host session
    (mkPut pullrequest.ReviewCollection did rkey MustNotExist
       (pullRequestReviewRecord record createdAt updatedAt))) in
  match r with
  | inr err =>
      if negb (isInvalidSwap err) then fail (pullrequest.ProviderError "create review" (Some (api_err err))) else
      let? existing := getPullRequestRecord host session pullrequest.ReviewCollection did rkey in
      match existing with
      | None => fail (pullrequest.ConflictError (Some (New "create-only review disappeared")))
      | Some existing =>
          match decodePullRequestReview existing did rkey with
          | Err e => fail (pullrequest.ConflictError (Some e))
          | Ok decoded =>
              if negb (samePullRequestReviewRecord (pullrequest.Review_Record decoded) record)
              then fail (pullrequest.ConflictError None) else done_ decoded
          end
      end
  | inl output =>
      let? _ := lift (mapErr (fun e => pullrequest.ProviderError "review response validation" (Some e))
        (validatePullRequestEnvelope (Output_URI output) (Output_CID output) did
           pullrequest.ReviewCollection rkey)) in
      done_ (pullrequest.mkReview (Output_URI output) (Output_CID output) did
        (pullrequest.mkReviewRecord (pullrequest.Review_Subject record) (pullrequest.Review_Verdict record)
           (pullrequest.Review_Body record) (parsed_or_zero createdAt) (parsed_or_zero updatedAt)))
  end.

Definition CreatePullRequestReview (authorDID rkey : string) (record : pullrequest.ReviewRecord)
    : svc effect pullrequest.Review :=
  let? _ := lift (pullrequest.ValidateRecordKey rkey) in
  let? _ := lift (pullrequest.ReviewRecord_Validate record) in
  withPullRequestSession authorDID (createReviewRecord record rkey).

Definition decodePullRequestStatus (output : getRecordOutput) (did rkey : string)
    : result pullrequest.Status :=
  match Get_CID output, Value output with
  | Some cid, Some value =>
      let* _ := validatePullRequestEnvelope (Get_URI output) cid did pullrequest.StatusCollection rkey in
      let* wire := decodePullRequestJSON "pull request status record is invalid"
        [("$type", empty); ("subject", Struct zero_ref); ("targetRepository", Struct zero_ref);
         ("state", empty); ("mergeCommitSHA", empty); ("createdAt", empty); ("updatedAt", empty)] value in
      reject_if text "$type" wire != pullrequest.StatusCollection
        with New "pull request status record is invalid" ;;
      let* createdAt := parseCanonicalPullRequestTime (text "createdAt" wire) in
      let* updatedAt := parseCanonicalPullRequestTime (text "updatedAt" wire) in
      let record := pullrequest.mkStatusRecord (pull_ref "subject" wire) (pull_ref "targetRepository" wire)
        (text "state" wire) (text "mergeCommitSHA" wire) createdAt updatedAt in
      let* _ := pullrequest.StatusRecord_Validate record in
      match pullrequest.RepositoryOwnerDID (pullrequest.URI (pullrequest.Status_TargetRepository record)) with
      | Ok owner => reject_if owner != did with New "pull request status authority is invalid" ;;
                    Ok (pullrequest.mkStatus (Get_URI output) cid did record)
      | Err _ => Err (New "pull request status authority is invalid")
      end
  | _, _ => Err (New "pull request status envelope is incomplete")
  end.
Definition samePullRequestStatusRecord (a b : pullrequest.StatusRecord) : bool :=
  same_pull_ref (pullrequest.Status_Subject a) (pullrequest.Status_Subject b)
  && same_pull_ref (pullrequest.Status_TargetRepository a) (pullrequest.Status_TargetRepository b)
  && (pullrequest.Status_State a == pullrequest.Status_State b)
  && (pullrequest.MergeCommitSHA a == pullrequest.MergeCommitSHA b)
  && samePullRequestTime (pullrequest.Status_CreatedAt a) (pullrequest.Status_CreatedAt b)
  && samePullRequestTime (pullrequest.Status_UpdatedAt a) (pullrequest.Status_UpdatedAt b).

Definition pullRequestStatusRecord (record : pullrequest.StatusRecord) (createdAt updatedAt : string)
    : recordMap :=
  [("$type", AString pullrequest.StatusCollection);
   ("subject", pullRequestStrongRef (pullrequest.Status_Subject record));
   ("targetRepository", pullRequestStrongRef (pullrequest.Status_TargetRepository record));
   ("state", AString (pullrequest.Status_State record)); ("createdAt", AString createdAt);
   ("updatedAt", AString updatedAt)]
  ++ (if pullrequest.MergeCommitSHA record != EmptyString
      then [("mergeCommitSHA", AString (pullrequest.MergeCommitSHA record))] else []).
Definition pull_status_created (record : pullrequest.StatusRecord) (createdAt : time)
    : pullrequest.StatusRecord :=
  pullrequest.mkStatusRecord (pullrequest.Status_Subject record) (pullrequest.Status_TargetRepository record)
    (pullrequest.Status_State record) (pullrequest.MergeCommitSHA record) createdAt
    (pullrequest.Status_UpdatedAt record).

Definition writePullRequestStatus (record : pullrequest.StatusRecord) (swapRecord : swap)
    (rkey host did : string) (session : SessionData) : svc effect pullrequest.Status :=
  let? (createdAt, updatedAt) :=
    lift (canonicalPullRequestTimes (pullrequest.Status_CreatedAt record) (pullrequest.Status_UpdatedAt record)) in
  let! r := call (PutRecord host session
    (mkPut pullrequest.StatusCollection did rkey swapRecord
       (pullRequestStatusRecord record createdAt updatedAt))) in
  match r with
  | inr err =>
      if negb (isInvalidSwap err) then fail (pullrequest.ProviderError "put status" (Some (api_err err))) else
      let? latest := getPullRequestRecord host session pullrequest.StatusCollection did rkey in
      let conflict := fail (pullrequest.ConflictError (Some (New "status changed concurrently"))) in
      match latest with
      | None => conflict
      | Some latest =>
          match decodePullRequestStatus latest did rkey with
          | Err _ => conflict
          | Ok current => if samePullRequestStatusRecord (pullrequest.Status_Record current) record
                          then done_ current else conflict
          end
      end
  | inl output =>
      let? _ := lift (mapErr (fun e => pullrequest.ProviderError "status response validation" (Some e))
        (validatePullRequestEnvelope (Output_URI output) (Output_CID output) did
           pullrequest.StatusCollection rkey)) in
      done_ (pullrequest.mkStatus (Output_URI output) (Output_CID output) did
        (pullrequest.mkStatusRecord (pullrequest.Status_Subject record)
           (pullrequest.Status_TargetRepository record) (pullrequest.Status_State record)
           (pullrequest.MergeCommitSHA record) (parsed_or_zero createdAt) (parsed_or_zero updatedAt)))
  end.
Definition putPullRequestStatusRecord (record : pullrequest.StatusRecord) (rkey host did : string)
    (session : SessionData) : svc effect pullrequest.Status :=
  let? found := getPullRequestRecord host session pullrequest.StatusCollection did rkey in
  match found with
  | None => writePullRequestStatus record MustNotExist rkey host did session
  | Some existing =>
      let? current := lift (mapErr (fun e => pullrequest.ConflictError (Some e))
                              (decodePullRequestStatus existing did rkey)) in
      let old := pullrequest.Status_Record current in
      if (pullrequest.URI (pullrequest.Status_Subject old) != pullrequest.URI (pullrequest.Status_Subject record))
         || (pullrequest.URI (pullrequest.Status_TargetRepository old)
             != pullrequest.URI (pullrequest.Status_TargetRepository record))
      then fail (pullrequest.ConflictError (Some (New "status slot has incompatible identity"))) else
      let record := pull_status_created record (pullrequest.Status_CreatedAt old) in
      if samePullRequestStatusRecord old record then done_ current else
      if negb (After (pullrequest.Status_UpdatedAt record) (pullrequest.Status_UpdatedAt old))
      then fail (pullrequest.ConflictError (Some (New "status update is stale")))
      else writePullRequestStatus record (MustBe (pullrequest.Status_CID current)) rkey host did session
  end.

Definition PutPullRequestStatus (authorDID : string) (record : pullrequest.StatusRecord)
    : svc effect pullrequest.Status :=
  let? _ := lift (pullrequest.StatusRecord_Validate record) in
  let? owner := lift (pullrequest.RepositoryOwnerDID
                        (pullrequest.URI (pullrequest.Status_TargetRepository record))) in
  if authorDID != owner
  then fail (pullrequest.AuthorizationError (Some (New "status author is not target repository owner"))) else
  let? rkey := lift (pullrequest.StatusRecordKey (pullrequest.URI (pullrequest.Status_Subject record))) in
  withPullRequestSession authorDID (putPullRequestStatusRecord record rkey).

(** ** Labels, milestones and triage metadata *)

Definition resolveTriageIdentity : string -> svc effect (string * Identity * string) :=
  resolveIdentity triage_pkg.
Definition resumeTriageSession : string -> string -> svc effect SessionData :=
  resumePackageSession triage_pkg.
Definition persistTriageSession (session : SessionData) : svc effect unit :=
  persistSession triage_pkg session "credential persistence".
Definition withTriageSession {A} : string -> (string -> string -> SessionData -> svc effect A) -> svc effect A :=
  withSession resolveTriageIdentity resumeTriageSession persistTriageSession.
Definition getTriageRecord : string -> SessionData -> string -> string -> string
    -> svc effect (option getRecordOutput) := getOptionalRecord triage_pkg.
Definition sameTriageTime : time -> time -> bool := sameTime.

Definition formatTriageTime (value : time) : string := format_datetime (UTC value).
Definition parseCanonicalTriageTime : string -> result time :=
  parseCanonicalTime "triage datetime is not canonical".
Definition canonicalTriageTimes (createdAt updatedAt : time) : result (string * string) :=
  canonicalTimes "triage datetime is not canonical" (fun _ err => err) createdAt updatedAt.
Definition parseOptionalTriageTime (value : option string) : result (option time) :=
  match value with
  | None => Ok None
  | Some value => let* parsed := parseCanonicalTriageTime value in Ok (Some parsed)
  end.
Definition triageStrongRef (ref : triage.StrongRef) : any := strongRefMap (triage.URI ref) (triage.CID ref).
Definition triage_ref (name : string) (fs : fields) : triage.StrongRef :=
  triage.mkStrongRef (ref_uri name fs) (ref_cid name fs).
Definition swapPointer (value : string) : swap := if value == EmptyString then MustNotExist else MustBe value.
Definition decodeTriageJSON (message : string) (zero : fields) (value : list Z) : result fields :=
  mapErr (fun _ => New message) (decodeJSON true message message zero value).
Definition same_triage_ref (a b : triage.StrongRef) : bool :=
  (triage.URI a == triage.URI b) && (triage.CID a == triage.CID b).
Definition sameOptionalTriageTime (a b : option time) : bool :=
  match a, b with
  | Some a, Some b => sameTriageTime a b
  | None, None => true
  | _, _ => false
  end.
Definition slicesEqual (a b : list string) : bool := bool_decide (a = b).

(** The answer of the server, or the record that is in the slot instead. *)
Definition putTriageRecord (host : string) (session : SessionData) (did collection rkey : string)
    (swapRecord : swap) (record : recordMap) : svc effect (putRecordOutput + getRecordOutput) :=
  let! r := call (PutRecord host session (mkPut collection did rkey swapRecord record)) in
  match r with
  | inl output => done_ (inl output)
  | inr err =>
      if negb (isInvalidSwap err) then fail (triage.ProviderError "put" (Some (api_err err))) else
      let? latest := getTriageRecord host session collection did rkey in
      match latest with
      | None => fail (triage.ConflictError (Some (New "record slot disappeared")))
      | Some latest => done_ (inr latest)
      end
  end.

Definition decodeLabel (output : getRecordOutput) (did rkey : string) : result triage.Label :=
  match Get_CID output, Value output with
  | Some cid, Some value =>
      let* wire := decodeTriageJSON "label record is invalid"
        [("$type", empty); ("repository", Struct zero_ref); ("name", empty); ("color", empty);
         ("description", empty); ("createdAt", empty); ("updatedAt", empty)] value in
      reject_if text "$type" wire != triage.LabelCollection with New "label record is invalid" ;;
      let* createdAt := parseCanonicalTriageTime (text "createdAt" wire) in
      let* updatedAt := parseCanonicalTriageTime (text "updatedAt" wire) in
      let result := triage.mkLabel (Get_URI output) cid did rkey
        (triage.mkLabelRecord (triage_ref "repository" wire) (text "name" wire) (text "color" wire)
           (text "description" wire) createdAt updatedAt) zeroTime in
      let* _ := triage.Label_Validate result in Ok result
  | _, _ => Err (New "label envelope is incomplete")
  end.
Definition sameLabelRecord (a b : triage.LabelRecord) : bool :=
  same_triage_ref (triage.Label_Repository a) (triage.Label_Repository b)
  && (triage.Name a == triage.Name b) && (triage.Color a == triage.Color b)
  && (triage.Description a == triage.Description b)
  && sameTriageTime (triage.Label_CreatedAt a) (triage.Label_CreatedAt b)
  && sameTriageTime (triage.Label_UpdatedAt a) (triage.Label_UpdatedAt b).

Definition labelRecord (record : triage.LabelRecord) (createdAt updatedAt : string) : recordMap :=
  [("$type", AString triage.LabelCollection); ("repository", triageStrongRef (triage.Label_Repository record));
   ("name", AString (triage.Name record)); ("color", AString (triage.Color record));
   ("description", AString (triage.Description record)); ("createdAt", AString createdAt);
   ("updatedAt", AString updatedAt)].

Definition publishLabelRecord (record : triage.LabelRecord) (swapCID rkey host did : string)
    (session : SessionData) : svc effect triage.Label :=
  let? (createdAt, updatedAt) :=
    lift (canonicalTriageTimes (triage.Label_CreatedAt record) (triage.Label_UpdatedAt record)) in
  let? put := putTriageRecord host session did triage.LabelCollection rkey (swapPointer swapCID)
                (labelRecord record createdAt updatedAt) in
  match put with
  | inr latest =>
      match decodeLabel latest did rkey with
      | Err e => fail (triage.ConflictError (Some e))
      | Ok current => if negb (sameLabelRecord (triage.Label_Record current) record)
                      then fail (triage.ConflictError None) else done_ current
      end
  | inl output =>
      let result := triage.mkLabel (Output_URI output) (Output_CID output) did rkey
        (triage.mkLabelRecord (triage.Label_Repository record) (triage.Name record) (triage.Color record)
           (triage.Description record) (parsed_or_zero createdAt) (parsed_or_zero updatedAt)) zeroTime in
      let? _ := lift (mapErr (fun e => triage.ProviderError "label response validation" (Some e))
                        (triage.Label_Validate result)) in
      done_ result
  end.
(** [if owner, err := RepositoryOwnerDID(uri); err != nil || owner != authorDID]. *)
Definition requireRepositoryOwner (authorDID repositoryURI : string) : result unit :=
  match triage.RepositoryOwnerDID repositoryURI with
  | Ok owner => reject_if owner != authorDID with triage.AuthorizationError None ;; Ok tt
  | Err e => Err (triage.AuthorizationError (Some e))
  end.
Definition publishLabel (authorDID rkey swapCID : string) (record : triage.LabelRecord)
    : svc effect triage.Label :=
  let? _ := lift (triage.ValidateRecordKey rkey) in
  let? _ := lift (triage.LabelRecord_Validate record) in
  let? _ := lift (requireRepositoryOwner authorDID (triage.URI (triage.Label_Repository record))) in
  withTriageSession authorDID (publishLabelRecord record swapCID rkey).
Definition requireSwap (swapCID : string) : result unit :=
  reject_if swapCID == EmptyString with triage.ValidationError "swapCID" "must not be empty" ;; Ok tt.
Definition CreateLabel (authorDID rkey : string) (record : triage.LabelRecord) : svc effect triage.Label :=
  publishLabel authorDID rkey EmptyString record.
Definition PutLabel (authorDID rkey swapCID : string) (record : triage.LabelRecord)
    : svc effect triage.Label :=
  let? _ := lift (requireSwap swapCID) in publishLabel authorDID rkey swapCID record.

Definition decodeMilestone (output : getRecordOutput) (did rkey : string) : result triage.Milestone :=
  match Get_CID output, Value output with
  | Some cid, Some value =>
      let* wire := decodeTriageJSON "milestone record is invalid"
        [("$type", empty); ("repository", Struct zero_ref); ("title", empty); ("description", empty);
         ("state", empty); ("dueAt", TextPtr None); ("closedAt", TextPtr None);
         ("createdAt", empty); ("updatedAt", empty)] value in
      reject_if text "$type" wire != triage.MilestoneCollection with New "milestone record is invalid" ;;
      let* createdAt := parseCanonicalTriageTime (text "createdAt" wire) in
      let* updatedAt := parseCanonicalTriageTime (text "updatedAt" wire) in
      let* dueAt := parseOptionalTriageTime (text_ptr "dueAt" wire) in
      let* closedAt := parseOptionalTriageTime (text_ptr "closedAt" wire) in
      let result := triage.mkMilestone (Get_URI output) cid did rkey
        (triage.mkMilestoneRecord (triage_ref "repository" wire) (text "title" wire)
           (text "description" wire) (text "state" wire) dueAt closedAt createdAt updatedAt) zeroTime in
      let* _ := triage.Milestone_Validate result in Ok result
  | _, _ => Err (New "milestone envelope is incomplete")
  end.
Definition sameMilestoneRecord (a b : triage.MilestoneRecord) : bool :=
  same_triage_ref (triage.Milestone_Repository a) (triage.Milestone_Repository b)
  && (triage.Title a == triage.Title b)
  && (triage.Milestone_Description a == triage.Milestone_Description b)
  && (triage.Milestone_State a == triage.Milestone_State b)
  && sameOptionalTriageTime (triage.DueAt a) (triage.DueAt b)
  && sameOptionalTriageTime (triage.ClosedAt a) (triage.ClosedAt b)
  && sameTriageTime (triage.Milestone_CreatedAt a) (triage.Milestone_CreatedAt b)
  && sameTriageTime (triage.Milestone_UpdatedAt a) (triage.Milestone_UpdatedAt b).

Definition optionalTime (name : string) (value : option time) : recordMap :=
  match value with Some t => [(name, AString (formatTriageTime t))] | None => [] end.
Definition milestoneRecord (record : triage.MilestoneRecord) (createdAt updatedAt : string) : recordMap :=
  [("$type", AString triage.MilestoneCollection);
   ("repository", triageStrongRef (triage.Milestone_Repository record));
   ("title", AString (triage.Title record)); ("description", AString (triage.Milestone_Description record));
   ("state", AString (triage.Milestone_State record)); ("createdAt", AString createdAt);
   ("updatedAt", AString updatedAt)]
  ++ optionalTime "dueAt" (triage.DueAt record) ++ optionalTime "closedAt" (triage.ClosedAt record).

Definition publishMilestoneRecord (record : triage.MilestoneRecord) (swapCID rkey host did : string)
    (session : SessionData) : svc effect triage.Milestone :=
  let? (createdAt, updatedAt) :=
    lift (canonicalTriageTimes (triage.Milestone_CreatedAt record) (triage.Milestone_UpdatedAt record)) in
  let? put := putTriageRecord host session did triage.MilestoneCollection rkey (swapPointer swapCID)
                (milestoneRecord record createdAt updatedAt) in
  match put with
  | inr latest =>
      match decodeMilestone latest did rkey with
      | Err e => fail (triage.ConflictError (Some e))
      | Ok current => if negb (sameMilestoneRecord (triage.Milestone_Record current) record)
                      then fail (triage.ConflictError None) else done_ current
      end
  | inl output =>
      let result := triage.mkMilestone (Output_URI output) (Output_CID output) did rkey
        (triage.mkMilestoneRecord (triage.Milestone_Repository record) (triage.Title record)
           (triage.Milestone_Description record) (triage.Milestone_State record) (triage.DueAt record)
           (triage.ClosedAt record) (parsed_or_zero createdAt) (parsed_or_zero updatedAt)) zeroTime in
      let? _ := lift (mapErr (fun e => triage.ProviderError "milestone response validation" (Some e))
                        (triage.Milestone_Validate result)) in
      done_ result
  end.
Definition publishMilestone (authorDID rkey swapCID : string) (record : triage.MilestoneRecord)
    : svc effect triage.Milestone :=
  let? _ := lift (triage.ValidateRecordKey rkey) in
  let? _ := lift (triage.MilestoneRecord_Validate record) in
  let? _ := lift (requireRepositoryOwner authorDID (triage.URI (triage.Milestone_Repository record))) in
  withTriageSession authorDID (publishMilestoneRecord record swapCID rkey).
Definition CreateMilestone (authorDID rkey : string) (record : triage.MilestoneRecord)
    : svc effect triage.Milestone :=
  publishMilestone authorDID rkey EmptyString record.
Definition PutMilestone (authorDID rkey swapCID : string) (record : triage.MilestoneRecord)
    : svc effect triage.Milestone :=
  let? _ := lift (requireSwap swapCID) in publishMilestone authorDID rkey swapCID record.

Definition decodeMetadata (output : getRecordOutput) (did rkey : string) : result triage.Metadata :=
  match Get_CID output, Value output with
  | Some cid, Some value =>
      let* wire := decodeTriageJSON "subject triage record is invalid"
        [("$type", empty); ("subject", Struct zero_ref); ("kind", empty); ("repository", Struct zero_ref);
         ("labels", Texts None []); ("assignees", Texts None []); ("milestone", empty);
         ("createdAt", empty); ("updatedAt", empty)] value in
      reject_if text "$type" wire != triage.MetadataCollection
        with New "subject triage record is invalid" ;;
      let* createdAt := parseCanonicalTriageTime (text "createdAt" wire) in
      let* updatedAt := parseCanonicalTriageTime (text "updatedAt" wire) in
      let result := triage.mkMetadata (Get_URI output) cid did rkey
        (triage.mkMetadataRecord (triage_ref "subject" wire) (text "kind" wire)
           (triage_ref "repository" wire) (default [] (texts "labels" wire))
           (default [] (texts "assignees" wire)) (text "milestone" wire) createdAt updatedAt)
        [] [] None zeroTime in
      let* _ := triage.Metadata_Validate result in Ok result
  | _, _ => Err (New "subject triage envelope is incomplete")
  end.
Definition sameMetadataRecord (a b : triage.MetadataRecord) : bool :=
  same_triage_ref (triage.Subject a) (triage.Subject b) && (triage.Kind a == triage.Kind b)
  && same_triage_ref (triage.Metadata_Repository a) (triage.Metadata_Repository b)
  && slicesEqual (triage.LabelURIs a) (triage.LabelURIs b)
  && slicesEqual (triage.AssigneeDIDs a) (triage.AssigneeDIDs b)
  && (triage.MilestoneURI a == triage.MilestoneURI b)
  && sameTriageTime (triage.CreatedAt a) (triage.CreatedAt b)
  && sameTriageTime (triage.UpdatedAt a) (triage.UpdatedAt b).

(** A slice of the record; one that is nil is written [null]. *)
Definition stringSlice (is_nil : bool) (l : list string) : any := AStrings (if is_nil then None else Some l).
Definition metadataRecord (record : triage.MetadataRecord) (nilLabels nilAssignees : bool)
    (createdAt updatedAt : string) : recordMap :=
  [("$type", AString triage.MetadataCollection); ("subject", triageStrongRef (triage.Subject record));
   ("kind", AString (triage.Kind record)); ("repository", triageStrongRef (triage.Metadata_Repository record));
   ("labels", stringSlice nilLabels (triage.LabelURIs record));
   ("assignees", stringSlice nilAssignees (triage.AssigneeDIDs record));
   ("createdAt", AString createdAt); ("updatedAt", AString updatedAt)]
  ++ (if triage.MilestoneURI record != EmptyString
      then [("milestone", AString (triage.MilestoneURI record))] else []).

Definition putMetadataRecord (record : triage.MetadataRecord) (nilLabels nilAssignees : bool)
    (swapCID rkey host did : string) (session : SessionData) : svc effect triage.Metadata :=
  let? (createdAt, updatedAt) :=
    lift (canonicalTriageTimes (triage.CreatedAt record) (triage.UpdatedAt record)) in
  let? put := putTriageRecord host session did triage.MetadataCollection rkey (swapPointer swapCID)
                (metadataRecord record nilLabels nilAssignees createdAt updatedAt) in
  match put with
  | inr latest =>
      match decodeMetadata latest did rkey with
      | Err e => fail (triage.ConflictError (Some e))
      | Ok current => if negb (sameMetadataRecord (triage.Metadata_Record current) record)
                      then fail (triage.ConflictError None) else done_ current
      end
  | inl output =>
      let result := triage.mkMetadata (Output_URI output) (Output_CID output) did rkey
        (triage.mkMetadataRecord (triage.Subject record) (triage.Kind record)
           (triage.Metadata_Repository record) (triage.LabelURIs record) (triage.AssigneeDIDs record)
           (triage.MilestoneURI record) (parsed_or_zero createdAt) (parsed_or_zero updatedAt))
        [] [] None zeroTime in
      let? _ := lift (mapErr (fun e => triage.ProviderError "subject triage response validation" (Some e))
                        (triage.Metadata_Validate result)) in
      done_ result
  end.
(** [nilLabels] and [nilAssignees] say which slices of the record are nil. *)
Definition PutSubjectTriage (authorDID swapCID : string) (record : triage.MetadataRecord)
    (nilLabels nilAssignees : bool) : svc effect triage.Metadata :=
  let? _ := lift (triage.MetadataRecord_Validate record) in
  let? _ := lift (requireRepositoryOwner authorDID (triage.URI (triage.Metadata_Repository record))) in
  let? rkey := lift (triage.MetadataRecordKey (triage.URI (triage.Subject record))) in
  withTriageSession authorDID
    (putMetadataRecord record nilLabels nilAssignees swapCID rkey).

Definition deleteTriage (collection rkey swapCID host did : string) (session : SessionData)
    : svc effect unit :=
  let! r := call (DeleteRecord host session (mkDelete collection did rkey swapCID)) in
  match r with
  | inl _ => done_ tt
  | inr err =>
      if isRecordNotFound err then done_ tt else
      if negb (isInvalidSwap err) then fail (triage.ProviderError "delete" (Some (api_err err))) else
      let? latest := getTriageRecord host session collection did rkey in
      match latest with
      | None => done_ tt
      | Some latest =>
          if match Get_CID latest with Some cid => cid == swapCID | None => false end
          then fail (triage.ProviderError "delete retry" (Some (api_err err)))
          else fail (triage.ConflictError (Some (New "record changed concurrently")))
      end
  end.
Definition DeleteTriageRecord (authorDID collection rkey swapCID : string) : svc effect unit :=
  if (collection != triage.LabelCollection) && (collection != triage.MilestoneCollection)
     && (collection != triage.MetadataCollection)
  then fail (triage.ValidationError "collection" "must be a triage collection") else
  let? _ := lift (triage.ValidateRecordKey rkey) in
  let? _ := lift (requireSwap swapCID) in
  withTriageSession authorDID (deleteTriage collection rkey swapCID).

(** ** Repositories *)

(** A repository, organization or transfer session: failures are provider errors of
    this package under the name of the operation. *)
Definition openSession (operation did host : string) : svc effect SessionData :=
  let? latest := wrapErr (ProviderError (operation +:+ " credential load")) (call (GetLatestSession did)) in
  match latest with
  | None => fail (ProviderError (operation +:+ " credential load") ErrSessionInvalid)
  | Some latest =>
      let? session := wrapErr (ProviderError (operation +:+ " credential resume"))
                        (call (ResumeSession did (SessionID latest))) in
      match session with
      | None => fail (ProviderError (operation +:+ " credential resume") ErrSessionInvalid)
      | Some session =>
          if negb (belongs session did host)
          then fail (ProviderError (operation +:+ " credential verification") ErrSessionInvalid)
          else done_ session
      end
  end.
(** [providerErrorUnlessNil] of the request and of storing the session, joined. *)
Definition finish {A} (request persistence : string) (r : reply A) (p : result unit) : result A :=
  joined (match r with inl a => Ok a | inr e => Err (ProviderError request (api_err e)) end)
         (mapErr (ProviderError persistence) p).
(** The answer names the record, by a canonical URI and CID. *)
Definition validateResponse (operation uriProblem cidProblem want : string) (output : putRecordOutput)
    : result unit :=
  let bad message := ProviderError (operation +:+ " response validation") (New message) in
  let* _ :=
    match ParseATURI (Output_URI output) with
    | Some uri => reject_if ATURI_String uri != want with bad uriProblem ;; Ok tt
    | None => Err (bad uriProblem)
    end in
  match ParseCID (Output_CID output) with
  | Some cid => reject_if CID_String cid != Output_CID output with bad cidProblem ;; Ok tt
  | None => Err (bad cidProblem)
  end.
Definition canonicalRecordKey (rkey : string) : result unit :=
  match ParseRecordKey rkey with Some _ => Ok tt | None => Err (New "invalid record key") end.
Definition wrapf (format : string) (err : error) : error := Errorf format [W err].
Definition hexKey (id : UUID) : string := remove_char "-"%char (uuid_String id).

Definition optionalString (name value : string) : recordMap :=
  if value != EmptyString then [(name, AString value)] else [].
Definition optionalRef (name : string) (value : option repository.ATIdentity) : recordMap :=
  match value with
  | Some ref => [(name, strongRefMap (repository.URI ref) (repository.CID ref))]
  | None => []
  end.
Definition repositoryRecord (publication : repository.Publication) : recordMap :=
  [("$type", AString repositoryCollection); ("slug", AString (repository.Pub_Slug publication));
   ("name", AString (repository.Pub_Name publication));
   ("defaultBranch", AString (repository.Pub_DefaultBranch publication));
   ("git", AMap [("https", repository.Pub_GitHTTPS publication); ("ssh", repository.Pub_GitSSH publication)]);
   ("web", AString (repository.Pub_Web publication));
   ("createdAt", AString (format_datetime (UTC (repository.Pub_CreatedAt publication))));
   ("updatedAt", AString (format_datetime (UTC (repository.Pub_UpdatedAt publication))))]
  ++ optionalString "description" (repository.Pub_Description publication)
  ++ optionalRef "organization" (repository.Pub_Organization publication)
  ++ optionalRef "forkedFrom" (repository.Pub_ForkedFrom publication)
  ++ optionalRef "transferredFrom" (repository.Pub_TransferredFrom publication)
  ++ optionalRef "transferredTo" (repository.Pub_TransferredTo publication).

(** A write under [operation]: the session is stored again, then the answer is
    checked. *)
Definition publishRecord (operation publication persistence uriProblem cidProblem : string)
    (did host collection rkey : string) (record : recordMap) : svc effect putRecordOutput :=
  locked did
    (let? session := openSession operation did host in
     let! r := call (PutRecord host session (mkPut collection did rkey AnyVersion record)) in
     let! p := call (SaveSession session) in
     let? output := lift (finish publication persistence r p) in
     let? _ := lift (validateResponse operation uriProblem cidProblem
                       (recordURI did collection rkey) output) in
     done_ output).

Definition Publish (publication : repository.Publication) : svc effect repository.ATIdentity :=
  let? (did, _, host) := wrapErr (wrapf "resolve repository owner: %w")
                           (resolveIdentity profile_pkg (repository.Pub_OwnerDID publication)) in
  let rkey := hexKey (repository.Pub_ID publication) in
  let? _ := lift (mapErr (wrapf "derive repository record key: %w") (canonicalRecordKey rkey)) in
  let? output := publishRecord "repository" "repository record publication"
    "repository credential persistence" "published repository URI is not canonical"
    "published repository CID is not canonical" did host repositoryCollection rkey
    (repositoryRecord publication) in
  done_ (repository.mkATIdentity (Output_URI output) (Output_CID output)).

Definition Unpublish (publication : repository.Publication) (identity : repository.ATIdentity)
    : svc effect unit :=
  let? (did, _, host) := wrapErr (wrapf "resolve repository owner: %w")
                           (resolveIdentity profile_pkg (repository.Pub_OwnerDID publication)) in
  let rkey := hexKey (repository.Pub_ID publication) in
  let bad message := ProviderError "repository deletion validation" (New message) in
  let uri_ok :=
    match ParseATURI (repository.URI identity) with
    | Some uri =>
        (ATURI_String uri == repository.URI identity) && (AuthorityString (Authority uri) == did)
        && (NSID_String (ATURI_Collection uri) == repositoryCollection)
        && (RecordKey_String (ATURI_RecordKey uri) == rkey)
    | None => false
    end in
  if negb uri_ok then fail (bad "repository URI is not canonical") else
  if match ParseCID (repository.CID identity) with
     | Some cid => CID_String cid != repository.CID identity
     | None => true
     end
  then fail (bad "repository CID is not canonical") else
  locked did
    (let? session := openSession "repository" did host in
     let! r := call (DeleteRecord host session
                       (mkDelete repositoryCollection did rkey (repository.CID identity))) in
     let! p := call (SaveSession session) in
     lift (finish "repository record deletion" "repository credential persistence" r p)).

(** ** Organizations *)

Definition organizationRecord (publication : organization.Publication) : recordMap :=
  [("$type", AString organizationCollection); ("slug", AString (organization.Pub_Slug publication));
   ("name", AString (organization.Pub_Name publication));
   ("createdAt", AString (format_datetime (UTC (organization.Pub_CreatedAt publication))));
   ("updatedAt", AString (format_datetime (UTC (organization.Pub_UpdatedAt publication))))]
  ++ optionalString "description" (organization.Pub_Description publication)
  ++ optionalString "website" (organization.Pub_Website publication)
  ++ optionalString "location" (organization.Pub_Location publication).

Definition PublishOrganization (publication : organization.Publication)
    : svc effect organization.ATIdentity :=
  let? (did, _, host) := wrapErr (wrapf "resolve organization creator: %w")
                           (resolveIdentity profile_pkg (organization.Pub_CreatorDID publication)) in
  let rkey := hexKey (organization.Pub_ID publication) in
  let? _ := lift (mapErr (wrapf "derive organization record key: %w") (canonicalRecordKey rkey)) in
  let? output := publishRecord "organization" "organization record publication"
    "organization credential persistence" "published organization URI is not canonical"
    "published organization CID is not canonical" did host organizationCollection rkey
    (organizationRecord publication) in
  done_ (organization.mkATIdentity (Output_URI output) (Output_CID output)).

Definition strongRef (identity : organization.ATIdentity) : any :=
  strongRefMap (organization.URI identity) (organization.CID identity).
Definition publishOrganizationRecord (actorDID collection rkey : string) (record : recordMap)
    (operation : string) : svc effect organization.ATIdentity :=
  let? _ := lift (mapErr (wrapf ("derive " +:+ operation +:+ " record key: %w")) (canonicalRecordKey rkey)) in
  let? (did, _, host) := wrapErr (wrapf ("resolve " +:+ operation +:+ " actor: %w"))
                           (resolveIdentity profile_pkg actorDID) in
  let? output := publishRecord operation (operation +:+ " publication")
    (operation +:+ " credential persistence") "published record URI is not canonical"
    "published record CID is not canonical" did host collection rkey record in
  done_ (organization.mkATIdentity (Output_URI output) (Output_CID output)).

Definition grantRecord (publication : organization.GrantPublication) : recordMap :=
  [("$type", AString organizationGrantCollection);
   ("organization", strongRef (organization.Grant_Organization publication));
   ("subject", AString (organization.Grant_SubjectDID publication));
   ("role", AString (organization.Grant_Role publication));
   ("authority", strongRef (organization.Grant_Authority publication));
   ("createdAt", AString (format_datetime (UTC (organization.Grant_CreatedAt publication))))]
  ++ (if negb (IsZero (organization.Grant_ExpiresAt publication))
      then [("expiresAt", AString (format_datetime (UTC (organization.Grant_ExpiresAt publication))))]
      else []).
Definition PublishOrganizationGrant (publication : organization.GrantPublication)
    : svc effect organization.ATIdentity :=
  publishOrganizationRecord (organization.Grant_ActorDID publication) organizationGrantCollection
    (hexKey (organization.Grant_ID publication)) (grantRecord publication) "organization grant".

(** The membership of an organization is one slot of the member's repository. *)
Definition membershipKey (organizationURI : string) : string :=
  ToLower (base32_Encode (Sum256 (bytes organizationURI))).
Definition membershipRecord (publication : organization.MembershipPublication) : recordMap :=
  [("$type", AString organizationMembershipCollection);
   ("organization", strongRef (organization.Membership_Organization publication));
   ("grant", strongRef (organization.Membership_Grant publication));
   ("visibility", AString (organization.Membership_Visibility publication));
   ("createdAt", AString (format_datetime (UTC (organization.Membership_CreatedAt publication))));
   ("updatedAt", AString (format_datetime (UTC (organization.Membership_UpdatedAt publication))))].
Definition PublishOrganizationMembership (publication : organization.MembershipPublication)
    : svc effect organization.ATIdentity :=
  publishOrganizationRecord (organization.Membership_ActorDID publication)
    organizationMembershipCollection
    (membershipKey (organization.URI (organization.Membership_Organization publication)))
    (membershipRecord publication) "organization membership".

Definition revocationRecord (publication : organization.RevocationPublication) : recordMap :=
  [("$type", AString organizationRevocationCollection);
   ("organization", strongRef (organization.Revocation_Organization publication));
   ("grant", strongRef (organization.Revocation_Grant publication));
   ("subject", AString (organization.Revocation_SubjectDID publication));
   ("authority", strongRef (organization.Revocation_Authority publication));
   ("createdAt", AString (format_datetime (UTC (organization.Revocation_CreatedAt publication))))].
Definition PublishOrganizationRevocation (publication : organization.RevocationPublication)
    : svc effect organization.ATIdentity :=
  publishOrganizationRecord (organization.Revocation_ActorDID publication)
    organizationRevocationCollection (hexKey (organization.Revocation_ID publication))
    (revocationRecord publication) "organization revocation".

(** [errors.Join(err, ErrSessionInvalid)]. *)
Definition sessionInvalid (operation : string) (err : option error) : error :=
  ProviderError operation
    (Join (match err with Some e => [e; ErrSessionInvalid] | None => [ErrSessionInvalid] end)).
Definition membershipSession (did host : string) : svc effect SessionData :=
  let load := sessionInvalid "organization membership credential load" in
  let resume := sessionInvalid "organization membership credential resume" in
  let? latest := wrapErr (fun e => load (Some e)) (call (GetLatestSession did)) in
  match latest with
  | None => fail (load None)
  | Some latest =>
      let? session := wrapErr (fun e => resume (Some e)) (call (ResumeSession did (SessionID latest))) in
      match session with
      | None => fail (resume None)
      | Some session =>
          if negb (belongs session did host)
          then fail (ProviderError "organization membership credential verification" ErrSessionInvalid)
          else done_ session
      end
  end.
(** A record that is not there is deleted. *)
Definition ignoreNotFound (r : reply unit) : reply unit :=
  match r with inr e => if isRecordNotFound e then inl tt else r | inl _ => r end.
Definition DeleteOrganizationMembership (actorDID : string)
    (organizationIdentity membership : organization.ATIdentity) : svc effect unit :=
  let rkey := membershipKey (organization.URI organizationIdentity) in
  let? (did, _, host) := wrapErr (wrapf "resolve organization membership actor: %w")
                           (resolveIdentity profile_pkg actorDID) in
  if organization.URI membership != recordURI did organizationMembershipCollection rkey
  then fail (ProviderError "organization membership deletion validation"
               (New "membership URI does not match actor and organization")) else
  locked did
    (let? session := membershipSession did host in
     let! r := call (DeleteRecord host session
       (mkDelete organizationMembershipCollection did rkey (organization.CID membership))) in
     let! p := call (SaveSession session) in
     lift (finish "organization membership deletion" "organization credential persistence"
             (ignoreNotFound r) p)).

(** ** Transfers *)

Definition validateTransferCID (value : string) : result unit :=
  match ParseCID value with
  | Some cid => reject_if CID_String cid != value with New "transfer CID is not canonical" ;; Ok tt
  | None => Err (New "transfer CID is not canonical")
  end.
Definition validateTransferIdentity (uriValue cidValue collection : string) : result unit :=
  let bad := Errorf "transfer strong reference must use %s" [Prelude.Str collection] in
  match ParseATURI uriValue with
  | Some uri =>
      if (ATURI_String uri != uriValue) || (NSID_String (ATURI_Collection uri) != collection)
      then Err bad else validateTransferCID cidValue
  | None => Err bad
  end.
Definition transferSession (did host : string) : svc effect SessionData :=
  let? latest := wrapErr (ProviderError "transfer credential load") (call (GetLatestSession did)) in
  match latest with
  | None => fail (ProviderError "transfer credential load" ErrSessionInvalid)
  | Some latest =>
      let? session := wrapErr (ProviderError "transfer credential resume")
                        (call (ResumeSession did (SessionID latest))) in
      match session with
      | Some session =>
          if belongs session did host then done_ session
          else fail (ProviderError "transfer credential verification" ErrSessionInvalid)
      | None => fail (ProviderError "transfer credential verification" ErrSessionInvalid)
      end
  end.
Definition putTransferRecord (actorDID collection rkey : string) (record : recordMap)
    : svc effect transfer.Identity :=
  let? (did, _, host) := wrapErr (wrapf "resolve transfer author: %w")
                           (resolveIdentity profile_pkg actorDID) in
  locked did
    (let? session := transferSession did host in
     let! r := call (PutRecord host session (mkPut collection did rkey AnyVersion record)) in
     let! p := call (SaveSession session) in
     let? output := lift (finish "transfer record publication" "transfer credential persistence" r p) in
     let bad := ProviderError "transfer response validation" in
     let? _ := lift
       match ParseATURI (Output_URI output) with
       | Some uri => reject_if ATURI_String uri != recordURI did collection rkey
                       with bad (New "published transfer URI is not canonical") ;; Ok tt
       | None => Err (bad (New "published transfer URI is not canonical"))
       end in
     let? _ := lift (mapErr bad (validateTransferCID (Output_CID output))) in
     done_ (transfer.mkIdentity (Output_URI output) (Output_CID output))).
Definition deleteTransferRecord (actorDID collection rkey cid : string) : svc effect unit :=
  let? (did, _, host) := wrapErr (wrapf "resolve transfer author: %w")
                           (resolveIdentity profile_pkg actorDID) in
  locked did
    (let? session := transferSession did host in
     let! r := call (DeleteRecord host session (mkDelete collection did rkey cid)) in
     let! p := call (SaveSession session) in
     lift (finish "transfer record deletion" "transfer credential persistence" (ignoreNotFound r) p)).

Definition proposalRecord (publication : transfer.ProposalPublication) : recordMap :=
  [("$type", AString transfer.ProposalCollection);
   ("repository", strongRefMap (transfer.URI (transfer.Prop_Repository publication))
                    (transfer.CID (transfer.Prop_Repository publication)));
   ("destinationDID", AString (transfer.DestinationDID publication));
   ("destinationOwner", AString (transfer.DestinationOwnerAlias publication));
   ("createdAt", AString (format_datetime (UTC (transfer.Prop_CreatedAt publication))));
   ("expiresAt", AString (format_datetime (UTC (transfer.Prop_ExpiresAt publication))))]
  ++ optionalRef "destinationOrganization" (transfer.DestinationOrganization publication).
Definition PublishProposal (publication : transfer.ProposalPublication) : svc effect transfer.Identity :=
  let repository := transfer.Prop_Repository publication in
  let? _ := lift (validateTransferIdentity (transfer.URI repository) (transfer.CID repository)
                    repositoryCollection) in
  if (transfer.DestinationOwnerAlias publication == EmptyString)
     || negb (After (transfer.Prop_ExpiresAt publication) (transfer.Prop_CreatedAt publication))
  then fail (New "transfer destination and future expiry are required") else
  if match ParseDID (transfer.DestinationDID publication) with
     | Some did => DID_String did != transfer.DestinationDID publication
     | None => true
     end
  then fail (New "transfer destination DID is not canonical") else
  let rkey := transfer.ProposalRecordKey (transfer.Prop_ID publication) in
  let? _ := lift (mapErr (wrapf "derive transfer proposal key: %w") (canonicalRecordKey rkey)) in
  let? _ := match transfer.DestinationOrganization publication with
            | Some organization =>
                lift (validateTransferIdentity (repository.URI organization) (repository.CID organization)
                        organizationCollection)
            | None => done_ tt
            end in
  putTransferRecord (transfer.Prop_ActorDID publication) transfer.ProposalCollection rkey
    (proposalRecord publication).

Definition acceptanceRecord (publication : transfer.AcceptancePublication) : recordMap :=
  [("$type", AString transfer.AcceptanceCollection);
   ("proposal", strongRefMap (transfer.URI (transfer.Acc_Proposal publication))
                  (transfer.CID (transfer.Acc_Proposal publication)));
   ("repository", strongRefMap (transfer.URI (transfer.Acc_Repository publication))
                    (transfer.CID (transfer.Acc_Repository publication)));
   ("createdAt", AString (format_datetime (UTC (transfer.Acc_CreatedAt publication))))].
Definition PublishAcceptance (publication : transfer.AcceptancePublication) : svc effect transfer.Identity :=
  let proposal := transfer.Acc_Proposal publication in
  let repository := transfer.Acc_Repository publication in
  let? _ := lift (validateTransferIdentity (transfer.URI proposal) (transfer.CID proposal)
                    transfer.ProposalCollection) in
  let? _ := lift (validateTransferIdentity (transfer.URI repository) (transfer.CID repository)
                    repositoryCollection) in
  putTransferRecord (transfer.Acc_ActorDID publication) transfer.AcceptanceCollection
    (transfer.AcceptanceRecordKey (transfer.URI proposal)) (acceptanceRecord publication).
Definition DeleteProposal (publication : transfer.ProposalPublication) (identity : transfer.Identity)
    : svc effect unit :=
  let rkey := transfer.ProposalRecordKey (transfer.Prop_ID publication) in
  let uri_ok :=
    match ParseATURI (transfer.URI identity) with
    | Some uri =>
        (ATURI_String uri == transfer.URI identity)
        && (AuthorityString (Authority uri) == transfer.Prop_ActorDID publication)
        && (NSID_String (ATURI_Collection uri) == transfer.ProposalCollection)
        && (RecordKey_String (ATURI_RecordKey uri) == rkey)
    | None => false
    end in
  if negb uri_ok then fail (New "transfer proposal URI is not canonical") else
  let? _ := lift (validateTransferCID (transfer.CID identity)) in
  deleteTransferRecord (transfer.Prop_ActorDID publication) transfer.ProposalCollection rkey
    (transfer.CID identity).

(** ** Profiles *)

Definition mapProfileAPIError (operation did : string) (err : apiError) : error :=
  if isRecordNotFound err then profile.NotFoundError did else profile.ProviderError operation (api_err err).

Definition zero_profile : fields :=
  [("$type", empty); ("displayName", empty); ("bio", empty); ("website", empty); ("location", empty);
   ("createdAt", empty)].
Definition decodeProfile (output : getRecordOutput) (did : string) : result profile.Profile :=
  let* _ :=
    match ParseATURI (Get_URI output) with
    | Some uri => reject_if ATURI_String uri != recordURI did profileCollection profileRKey
                    with New "profile URI is not canonical" ;; Ok tt
    | None => Err (New "profile URI is not canonical")
    end in
  match Get_CID output with
  | None => Err (New "profile CID is missing")
  | Some cid =>
      let* _ :=
        match ParseCID cid with
        | Some parsed => reject_if CID_String parsed != cid with New "profile CID is not canonical" ;; Ok tt
        | None => Err (New "profile CID is not canonical")
        end in
      match Value output with
      | None => Err (New "profile record is missing")
      | Some value =>
          let* record := decodeJSON true "decode profile record" "profile record contains trailing JSON"
                           zero_profile value in
          reject_if text "$type" record != profileCollection with New "profile record type is invalid" ;;
          let* createdAt := parseCanonicalTime "profile createdAt is not canonical" (text "createdAt" record) in
          let* _ := profile.UpdateInput_Validate
            (profile.mkUpdateInput (text "displayName" record) (text "bio" record) (text "website" record)
               (text "location" record)) in
          Ok (profile.mkProfile did (Get_URI output) cid EmptyString (text "displayName" record)
                (text "bio" record) EmptyString (text "website" record) (text "location" record) 0 0 createdAt
                zeroTime)
      end
  end.
Definition withHandle (identity : Identity) (value : profile.Profile) : profile.Profile :=
  match Identity_Handle identity with
  | None => value
  | Some handle =>
      profile.mkProfile (profile.DID value) (profile.URI value) (profile.CID value) handle
        (profile.DisplayName value) (profile.Bio value) (profile.AvatarRef value) (profile.Website value)
        (profile.Location value) (profile.RepositoryCount value) (profile.ContributionCount value)
        (profile.RecordCreatedAt value) (profile.IndexedAt value)
  end.

Definition Get (rawDID : string) : svc effect profile.Profile :=
  let? (did, identity, host) := resolveIdentity profile_pkg rawDID in
  let! r := call (GetRecord host None profileCollection did profileRKey) in
  match r with
  | inr err => fail (mapProfileAPIError "get" did err)
  | inl output =>
      let? result := lift (mapErr (profile.ProviderError "get") (decodeProfile output did)) in
      done_ (withHandle identity result)
  end.

Definition profileRecordMap (record : profile.ProfileRecord) : recordMap :=
  [("$type", AString profileCollection); ("displayName", AString (profile.Record_DisplayName record));
   ("bio", AString (profile.Record_Bio record)); ("website", AString (profile.Record_Website record));
   ("location", AString (profile.Record_Location record));
   ("createdAt", AString (format_datetime (UTC (profile.Record_CreatedAt record))))].
(** [json.Marshal(profileRecord{...})]: empty fields are left out. *)
Definition marshalProfile (record : profile.ProfileRecord) : list Z :=
  let optional name value := if value == EmptyString then [] else [(name, json.string_ value)] in
  json.object ([("$type", json.string_ profileCollection)]
    ++ optional "displayName" (profile.Record_DisplayName record) ++ optional "bio" (profile.Record_Bio record)
    ++ optional "website" (profile.Record_Website record) ++ optional "location" (profile.Record_Location record)
    ++ [("createdAt", json.string_ (format_datetime (UTC (profile.Record_CreatedAt record))))]).
(** No session is reported as one that must be established again; one that is [nil]
    without an error would panic, which the stores do not give. *)
Definition resumeProfileSession (did host : string) : svc effect SessionData :=
  resumePackageSession profile_pkg did host.

Definition Put (rawDID : string) (record : profile.ProfileRecord) : svc effect profile.Profile :=
  if IsZero (profile.Record_CreatedAt record)
  then fail (profile.ValidationError "createdAt" "must not be empty") else
  let? _ := lift (profile.UpdateInput_Validate
    (profile.mkUpdateInput (profile.Record_DisplayName record) (profile.Record_Bio record)
       (profile.Record_Website record) (profile.Record_Location record))) in
  let? (did, identity, host) := resolveIdentity profile_pkg rawDID in
  locked did
    (let? session := resumeProfileSession did host in
     let! r := call (PutRecord host session
       (mkPut profileCollection did profileRKey AnyVersion (profileRecordMap record))) in
     let! p := call (SaveSession session) in
     let? output := lift (joined
       (match r with inl a => Ok a | inr e => Err (mapProfileAPIError "put" did e) end)
       (mapErr (profile.ProviderError "credential persistence") p)) in
     let? result := lift (mapErr (profile.ProviderError "put")
       (decodeProfile (mkGetOutput (Output_URI output) (Some (Output_CID output))
                         (Some (marshalProfile record))) did)) in
     done_ (withHandle identity result)).
End client.
End atproto.
