(* ===== verification/PublisherFacts.v ===== *)
(** * PublisherFacts: what the publishers write is what every instance reads.

    A publisher posts a map; the network carries it as JSON whose members come in any
    order.  The first part shows that decoding into a struct does not depend on that
    order, so that one symbolic run over the posted map tells what every decoder finds. *)

From S2P Require Import Prelude.
From S2P Require Import GoText.
From S2P Require Import Encoding.
From S2P Require Import Syntax.
From S2P Require Import Json.
From S2P Require Import JsonDecode.
From S2P Require Import Star.
From S2P Require Import Issue.
From S2P Require Import PullRequest.
From S2P Require Import Triage.
From S2P Require Import Wire.
From S2P Require Import Endpoint.
From S2P Require Import Profile.
From S2P Require Import FederationEvent.
From S2P Require Import FederationFacts.
From S2P Require Import Publisher.

Module wirefacts.
Import jsondecode jsonfacts wire.

(** ** The order of members *)

(** The field a member goes to. *)
Definition hits (names : list string) (name : list Z) : option string :=
  List.find (fun f => same_name f name) names.

Fixpoint put_at (strict : bool) (i : slot -> option slot) (name : list Z) (fs : fields)
    : option fields :=
  match fs with
  | [] => if strict then None else Some []
  | (k, s) :: fs =>
      if same_name k name then new ← i s; Some ((k, new) :: fs)
      else fs ← put_at strict i name fs; Some ((k, s) :: fs)
  end.

Lemma map_other (k : string) (new : slot) fs : k ∉ map fst fs ->
  map (fun f : string * slot => if fst f == k then (k, new) else f) fs = fs.
Proof.
  induction fs as [| [j s] fs IH]; cbn; [done |]. rewrite not_elem_of_cons. intros [Hj Hfs].
  destruct (String.eqb_spec j k); [congruence |]. by rewrite IH.
Qed.

Lemma find_field_elem name fs k s :
  List.find (fun f : string * slot => same_name (fst f) name) fs = Some (k, s) -> k ∈ map fst fs.
Proof.
  intros [Hin _]%find_some. apply list_elem_of_fmap. exists (k, s). split; [done |].
  by apply list_elem_of_In.
Qed.

Lemma put_put_at strict i name fs : NoDup (map fst fs) -> put strict i name fs = put_at strict i name fs.
Proof.
  unfold put. induction fs as [| [k s] fs IH]; [done |]. intros [Hk Hfs]%NoDup_cons.
  cbn [List.find put_at fst map]. destruct (same_name k name).
  { destruct (i s) as [new |]; cbn; [| done]. by rewrite String.eqb_refl, map_other. }
  rewrite <- (IH Hfs). destruct (List.find _ fs) as [[j old] |] eqn:Hf; [| by destruct strict].
  apply find_field_elem in Hf. destruct (i old) as [new |]; cbn; [| done].
  destruct (String.eqb_spec k j) as [-> |]; [by destruct Hk | done].
Qed.

Lemma put_at_names strict i name fs fs' :
  put_at strict i name fs = Some fs' -> map fst fs' = map fst fs.
Proof.
  revert fs'. induction fs as [| [k s] fs IH]; intros fs'; cbn.
  { destruct strict; [done |]. by intros [= <-]. }
  destruct (same_name k name).
  - destruct (i s); cbn; [| done]. by intros [= <-].
  - destruct (put_at _ _ _ fs) as [fs1 |]; cbn; [| done]. intros [= <-]. cbn. by rewrite (IH fs1).
Qed.

Lemma put_at_comm strict i j m n fs :
  (forall k, hits (map fst fs) m = Some k -> hits (map fst fs) n <> Some k) ->
  (fs1 ← put_at strict i m fs; put_at strict j n fs1)
  = (fs2 ← put_at strict j n fs; put_at strict i m fs2).
Proof.
  induction fs as [| [k s] fs IH]; cbn [put_at map fst hits List.find]; intros Ha.
  { by destruct strict. }
  unfold hits in *. cbn [List.find] in Ha.
  destruct (same_name k m) eqn:Em, (same_name k n) eqn:En.
  - by destruct (Ha k).
  - destruct (i s) as [new |] eqn:Ei; cbn.
    + rewrite En. destruct (put_at strict j n fs); cbn; [| done]. by rewrite Em, Ei.
    + destruct (put_at strict j n fs); cbn; [| done]. by rewrite Em, Ei.
  - destruct (j s) as [new |] eqn:Ej; cbn.
    + rewrite Em. destruct (put_at strict i m fs); cbn; [| done]. by rewrite En, Ej.
    + destruct (put_at strict i m fs); cbn; [| done]. by rewrite En, Ej.
  - specialize (IH Ha). destruct (put_at strict i m fs) as [fs1 |], (put_at strict j n fs) as [fs2 |];
      cbn in *; rewrite ?Em, ?En; [by rewrite IH | by rewrite IH | by rewrite <- IH | done].
Qed.

(** Members of any kind, one after the other. *)
Fixpoint put_all {M} (strict : bool) (name : M -> list Z) (i : M -> slot -> option slot)
    (ms : list M) (fs : fields) : option fields :=
  match ms with
  | [] => Some fs
  | m :: ms => fs ← put strict (i m) (name m) fs; put_all strict name i ms fs
  end.

(** No two of the members go to one field. *)
Definition apart (names : list string) (ms : list (list Z)) : Prop := NoDup (omap (hits names) ms).

Lemma put_all_perm {M} strict (name : M -> list Z) i ms ms' :
  ms ≡ₚ ms' -> forall fs, NoDup (map fst fs) -> apart (map fst fs) (map name ms) ->
  put_all strict name i ms fs = put_all strict name i ms' fs.
Proof.
  unfold apart. intros Hp. induction Hp as [| m ms ms' Hp IH | m n ms | ms ms1 ms' Hp IH Hp' IH'];
    intros fs Hfs Ha; cbn [put_all].
  - done.
  - rewrite put_put_at by done. destruct (put_at _ _ _ fs) as [fs1 |] eqn:E; [| done]. cbn.
    apply put_at_names in E. apply IH; rewrite E; [done |].
    cbn in Ha. destruct (hits _ (name m)); [by apply NoDup_cons in Ha as [_ Ha] | done].
  - pose proof (put_at_comm strict (i n) (i m) (name n) (name m) fs) as Hc.
    rewrite !put_put_at by done.
    transitivity (fs2 ← (fs1 ← put_at strict (i n) (name n) fs; put_at strict (i m) (name m) fs1);
                  put_all strict name i ms fs2).
    { destruct (put_at strict (i n) (name n) fs) as [fs1 |] eqn:E; [| done]. cbn.
      rewrite put_put_at by by rewrite (put_at_names _ _ _ _ _ E). done. }
    rewrite Hc.
    { destruct (put_at strict (i m) (name m) fs) as [fs1 |] eqn:E; [| done]. cbn.
      rewrite put_put_at by by rewrite (put_at_names _ _ _ _ _ E). done. }
    intros k Hn Hm. cbn in Ha. rewrite Hn, Hm in Ha. apply NoDup_cons in Ha as [Ha _]. apply Ha. by left.
  - rewrite IH by done. apply IH'; [done |]. eapply NoDup_Permutation_proper; [| exact Ha].
    apply omap_Permutation. symmetry. by apply Permutation_map.
Qed.

Lemma put_members_all strict ms fs : put_members strict ms fs = put_all strict m_name (into_field strict) ms fs.
Proof.
  revert fs. induction ms as [| m ms IH]; intros fs; cbn [put_members put_all]; [done |].
  destruct (put _ _ _ fs); cbn; [apply IH | done].
Qed.

Lemma into_Obj strict ms fs :
  into strict (Obj ms) (Struct fs) = Struct <$> put_all strict fst (fun m => into strict (snd m)) ms fs.
Proof.
  revert fs. cbn [into]. f_equal. induction ms as [| [n v] ms IH]; intros fs; [done |].
  cbn [put_all fst snd]. destruct (put _ _ _ fs) as [fs1 |]; cbn; [apply IH | done].
Qed.
End wirefacts.

Module publisherfacts.
Import jsondecode jsonfacts wire wirefacts atproto.

(** ** A posted record and its JSON *)

Definition string_value (s : string) : value := jsondecode.Str (runes s).
Definition string_member (m : string * string) : list Z * value := (runes (fst m), string_value (snd m)).

(** The JSON of a value of the map; the members of an object come in any order. *)
Inductive any_json : any -> value -> Prop :=
| json_string s : any_json (AString s) (string_value s)
| json_nil : any_json (AStrings None) Null
| json_strings l : any_json (AStrings (Some l)) (Arr (map string_value l))
| json_map m ms : ms ≡ₚ map string_member m -> any_json (AMap m) (Obj ms).
Definition member_json (m : string * any) (j : member) : Prop :=
  m_name j = runes (fst m) /\ any_json (snd m) (m_value j).
(** [raw] is JSON of [record]. *)
Definition json_of (record : recordMap) (raw : list Z) : Prop :=
  exists record' ms, record' ≡ₚ record /\ outer_members raw = Some ms /\ Forall2 member_json record' ms.

(** The texts of a record are UTF-8. *)
Definition utf8 (s : string) : Prop := ValidString s = true.
Definition any_utf8 (a : any) : Prop :=
  match a with
  | AString s => utf8 s
  | AStrings l => Forall utf8 (default [] l)
  | AMap m => Forall (fun p => utf8 (snd p)) m
  end.
Definition record_utf8 (record : recordMap) : Prop := Forall (fun p => any_utf8 (snd p)) record.

(** ** One run of the decoder over the map *)

Definition no_clash (zero : fields) (names : list string) : bool :=
  bool_decide (NoDup (map fst zero)) && bool_decide (apart (map fst zero) (map runes names)).
Definition put_string (s : string) (old : slot) : option slot :=
  match old with Text _ => Some (Text s) | TextPtr _ => Some (TextPtr (Some s)) | _ => None end.
Definition put_map (m : list (string * string)) (zero : fields) : option fields :=
  if no_clash zero (map fst m)
  then put_all true (fun p => runes (fst p)) (fun p => put_string (snd p)) m zero else None.
Definition put_any (a : any) (old : slot) : option slot :=
  match a, old with
  | AString s, _ => put_string s old
  | AStrings None, Texts _ _ => Some (Texts None [])
  | AStrings (Some l), Texts None [] => Some (Texts (Some l) [])
  | AMap m, Struct zero => Struct <$> put_map m zero
  | AMap m, Pointer zero None => (fun fs => Pointer zero (Some fs)) <$> put_map m zero
  | _, _ => None
  end.
Definition fill (record : recordMap) (zero : fields) : option fields :=
  if no_clash zero (map fst record)
  then put_all true (fun p => runes (fst p)) (fun p => put_any (snd p)) record zero else None.

Lemma text_string s : utf8 s -> text_of (runes s) = s.
Proof. intros Hs. by apply ValidString_runes. Qed.

Lemma put_string_into s old new :
  utf8 s -> put_string s old = Some new -> into true (string_value s) old = Some new.
Proof. intros Hs. destruct old; cbn; intros [= <-]; by rewrite text_string. Qed.

(** Two runs that put the same into every slot end the same. *)
Lemma put_all_rel {M N} strict (P : M -> N -> Prop) (nm : M -> list Z) (nn : N -> list Z) im inn :
  (forall m n old new, P m n -> im m old = Some new -> nm m = nn n /\ inn n old = Some new) ->
  (forall m n, P m n -> nm m = nn n) ->
  forall ms ns zero fs, Forall2 P ms ns -> put_all strict nm im ms zero = Some fs ->
  put_all strict nn inn ns zero = Some fs.
Proof.
  intros Hi Hn ms ns zero fs Hf. revert zero. induction Hf as [| m n ms ns Hp _ IH]; intros zero; [done |].
  cbn [put_all]. unfold put. rewrite <- (Hn m n Hp). destruct (List.find _ zero) as [[k old] |].
  - destruct (im m old) as [new |] eqn:E; cbn; [| done].
    destruct (Hi m n old new Hp E) as [_ ->]. cbn. apply IH.
  - destruct strict; cbn; [done |]. apply IH.
Qed.

Lemma put_map_into m ms zero fs :
  Forall (fun p => utf8 (snd p)) m -> ms ≡ₚ map string_member m -> put_map m zero = Some fs ->
  put_all true fst (fun j => into true (snd j)) ms zero = Some fs.
Proof.
  unfold put_map, no_clash. intros Hu Hp. destruct (_ && _) eqn:Hc; [| done]. intros Hf.
  apply andb_true_iff in Hc as [Hz%bool_decide_eq_true Ha%bool_decide_eq_true].
  symmetry in Hp. rewrite <- (put_all_perm _ _ _ _ _ Hp); [| done |].
  2: { rewrite !map_map in *. exact Ha. }
  revert Hf. apply (put_all_rel true (fun p j => utf8 (snd p) /\ j = string_member p)).
  - intros p j old new [Hs ->] Hput. split; [done |]. by apply put_string_into.
  - by intros p j [_ ->].
  - clear - Hu. induction Hu as [| p m Hp _ IH]; cbn; by constructor.
Qed.

Lemma into_texts_strings l : Forall utf8 l -> into_texts (map string_value l) [] = Some l.
Proof.
  induction 1 as [| s l Hs _ IH]; [done |]. cbn [map into_texts hd tl string_value into_string].
  rewrite text_string by done. cbn. by rewrite IH.
Qed.

Lemma put_any_into a v old new :
  any_utf8 a -> any_json a v -> put_any a old = Some new -> into true v old = Some new.
Proof.
  intros Hu Hj. destruct Hj as [s | | l | m ms Hp]; cbn in Hu.
  - apply put_string_into. done.
  - by destruct old.
  - destruct old as [| | | | elements spare | | |]; try done. cbn. destruct elements, spare; try done. intros [= <-].
    destruct l as [| s l]; [done |]. unfold backing. cbn [default app].
    pose proof (into_texts_strings (s :: l) Hu) as Ht. cbn [map] in *. rewrite Ht. cbn. done.
  - destruct old as [| | | | | | fs | zero [|]]; try done; cbn [put_any].
    + destruct (put_map m fs) as [fs' |] eqn:E; [| done]. intros [= <-]. rewrite into_Obj.
      by rewrite (put_map_into m ms fs fs').
    + destruct (put_map m zero) as [fs' |] eqn:E; [| done]. intros [= <-].
      pose proof (into_Obj true ms zero) as Ho. rewrite (put_map_into m ms zero fs') in Ho by done.
      cbn in *. revert Ho. match goal with |- _ <$> ?x = _ -> _ => destruct x as [y |] end; cbn; congruence.
Qed.

(** What the run over the map says is what every decoder finds in JSON of it. *)
Lemma decode_json_of record raw zero fs :
  record_utf8 record -> json_of record raw -> fill record zero = Some fs ->
  decode_into true zero raw = Some fs.
Proof.
  unfold fill, no_clash, decode_into. intros Hu (record' & ms & Hp & -> & Hj).
  destruct (_ && _) eqn:Hc; [| done]. intros Hf. cbn.
  apply andb_true_iff in Hc as [Hz%bool_decide_eq_true Ha%bool_decide_eq_true].
  symmetry in Hp. rewrite (put_all_perm _ _ _ _ _ Hp) in Hf; [| done | by rewrite map_map in Ha].
  rewrite put_members_all. revert Hf. apply (put_all_rel true (fun p j => any_utf8 (snd p) /\ member_json p j)).
  - intros p j old new [Hs [Hn Hv]] Hput. split; [done |].
    apply (put_any_into _ _ _ _ Hs Hv) in Hput as Hi. unfold into_field. destruct old; try done.
    by destruct (m_value j).
  - by intros p j [_ [Hn _]].
  - unfold record_utf8 in Hu. rewrite Hp in Hu. clear - Hu Hj.
    induction Hj as [| p j record' ms Hpj _ IH]; [constructor |]. apply Forall_cons in Hu as [Hs Hu].
    constructor; [done | by apply IH].
Qed.

(** Decides that a collection is one the decoder knows. *)
Ltac known_collection := apply list_elem_of_In; vm_compute; tauto.

(** ** What the publishers rely on

    Identifiers are ASCII, a record's AT URI is spelled by its parts, and a datetime is
    written up to a resolution (the layout has milliseconds) and read back as written. *)
Class RecordLaws `{TapSyntax, GoUnicode} := {
  resolution : Z;
  resolution_pos : 0 < resolution;
  datetime_read t u : ParseDatetimeTime (format_datetime t) = Some u -> u = t - t mod resolution;
  datetime_truncated t : format_datetime (t - t mod resolution) = format_datetime t;
  datetime_utf8 t : utf8 (format_datetime t);
  aturi_utf8 s uri : ParseATURI s = Some uri -> utf8 s;
  cid_utf8 s cid : ParseCID s = Some cid -> utf8 s;
  did_utf8 s did : ParseDID s = Some did -> utf8 s;
  known_nsid c : c ∈ federation.collections -> exists n, ParseNSID c = Some n /\ NSID_String n = c;
  record_uri did collection rkey :
    canonical_did did -> collection ∈ federation.collections -> canonical_rkey rkey ->
    exists uri, canonical_record_uri collection (recordURI did collection rkey) uri /\
      AuthorityString (Authority uri) = did /\ RecordKey_String (ATURI_RecordKey uri) = rkey
}.

Section published.
Context `{TapSyntax, GoUnicode, GoEndpoint, UUIDs, !SyntaxLaws, !RecordLaws}.

(** ** Times *)

(** A time as it is written, and what is read of it: what the publisher returns. *)
Definition stamp (t : time) : string := format_datetime (UTC t).
Definition written_time (t : time) : time := parsed_or_zero (stamp t).
Definition readable (t : time) : Prop := federation.canonicalDatetime (stamp t) = Ok (written_time t).

Lemma read_stamp t u : ParseDatetimeTime (stamp t) = Some u -> readable t /\ written_time t = u.
Proof.
  unfold readable, written_time, parsed_or_zero, federation.canonicalDatetime. intros Hp.
  rewrite Hp. cbn. split; [| done].
  assert (Hu : u = t - t mod resolution) by (by apply datetime_read).
  subst. unfold stamp, UTC. by rewrite datetime_truncated, String.eqb_refl.
Qed.
Lemma readable_time t : readable t -> written_time t = t - t mod resolution.
Proof.
  unfold readable, federation.canonicalDatetime.
  destruct (ParseDatetimeTime (stamp t)) as [u |] eqn:E; [| done]. intros _.
  apply read_stamp in E as Hr. destruct Hr as [_ ->]. by apply datetime_read.
Qed.
Lemma canonical_readable message t u : parseCanonicalTime message (stamp t) = Ok u -> readable t.
Proof.
  unfold parseCanonicalTime. destruct (ParseDatetimeTime (stamp t)) as [v |] eqn:E; [| done].
  intros _. by apply read_stamp in E as [? _].
Qed.
(** A time read from a slot is written as it was read. *)
Lemma parsed_time message value t : parseCanonicalTime message value = Ok t ->
  value = stamp t /\ readable t /\ written_time t = t.
Proof.
  unfold parseCanonicalTime. destruct (ParseDatetimeTime value) as [v |] eqn:E; [| done].
  rewrite reject_Ok, neq_false. intros [Hv [= ->]]. unfold stamp in *. split; [done |].
  rewrite <- Hv in E. by apply read_stamp in E.
Qed.
Lemma canonicalTimes_Ok message invalid c u cs us :
  canonicalTimes message invalid c u = Ok (cs, us) ->
  cs = stamp c /\ us = stamp u /\ readable c /\ readable u.
Proof.
  unfold canonicalTimes. cbn zeta. intros Hc. rewrite !bind_Ok in Hc.
  destruct Hc as (tc & Hc & Hu). rewrite bind_Ok in Hu. destruct Hu as (tu & Hu & [= <- <-]).
  rewrite mapErr_Ok in Hc, Hu. split_and!; [done | done | by eapply canonical_readable | by eapply canonical_readable].
Qed.

Lemma written_mono t u : readable t -> readable u -> t <= u -> written_time t <= written_time u.
Proof.
  intros Ht Hu Hl. rewrite !readable_time by done. pose proof resolution_pos.
  pose proof (Z_div_mod_eq_full t resolution). pose proof (Z_div_mod_eq_full u resolution).
  pose proof (Z.div_le_mono t u resolution). nia.
Qed.
Lemma written_late t : readable t -> resolution <= t -> resolution <= written_time t.
Proof.
  intros Ht Hl. rewrite readable_time by done. pose proof resolution_pos.
  pose proof (Z_div_mod_eq_full t resolution). pose proof (Z.div_le_mono resolution t resolution).
  rewrite Z.div_same in * by lia. nia.
Qed.
(** Times stay set and in order when they are written. *)
Lemma ordered_written c u :
  readable c -> readable u -> resolution <= c -> ordered_times c u ->
  ordered_times (written_time c) (written_time u).
Proof.
  intros Hc Hu Hl (_ & _ & Ho). pose proof resolution_pos. unfold ordered_times, zeroTime in *.
  pose proof (written_late c Hc Hl). pose proof (written_mono c u Hc Hu Ho). lia.
Qed.

(** ** The event that carries a record *)

(** A Tap event that announces the record [raw] under [rkey], at a version [cid]. *)
Definition carried (did collection rkey cid : string) (raw body : list Z) : Prop :=
  exists env w, Z.of_nat (length body) <= federation.maxEventBytes /\
    federation.decodeStrict body federation.zero_envelope = Ok env /\ 0 < int "id" env /\
    text "type" env = "record" /\ wire.raw "identity" env = [] /\ wire.raw "record" env <> [] /\
    federation.decodeStrict (wire.raw "record" env) federation.zero_record = Ok w /\
    is_some (bool_ptr "live" w) = true /\ canonical_rkey (text "rev" w) /\
    text "did" w = did /\ text "collection" w = collection /\ text "rkey" w = rkey /\
    (text "action" w = "create" \/ text "action" w = "update") /\ text "cid" w = cid /\
    wire.raw "record" w = raw.

(** Every instance that receives it reads [v]. *)
Definition announces (did collection rkey cid : string) (v : federation.payload) (body : list Z) : Prop :=
  exists event r, federation.DecodeEvent body = Ok event /\ federation.Identity event = None /\
    federation.Record_ event = Some r /\ federation.Action r <> "delete" /\
    federation.DID r = did /\ federation.Collection r = collection /\ federation.RKey r = rkey /\
    federation.RecordURI r = recordURI did collection rkey /\ federation.RecordCID r = cid /\
    federation.Payload r = v.

Lemma json_of_value record raw : record <> [] -> json_of record raw -> raw <> [] /\ raw <> bytes "null".
Proof.
  intros Hr (record' & ms & Hp & Ho & Hj).
  assert (Hms : ms <> []).
  { intros ->. apply Forall2_nil_inv_r in Hj as ->. by apply Permutation_nil_l in Hp. }
  split; intros ->; vm_compute in Ho; [done | by injection Ho as <-].
Qed.

Lemma bind_intro {A B} (f : A -> result B) (r : result A) a b : r = Ok a -> f a = Ok b -> mbind (M := result) f r = Ok b.
Proof. by intros ->. Qed.
Lemma reject_intro {A} c e (k : result A) a : c = false -> k = Ok a -> reject c e k = Ok a.
Proof. by intros ->. Qed.

Lemma canonical_rkey_Ok value message :
  canonical_rkey value -> federation.canonical ParseRecordKey RecordKey_String value message = Ok tt.
Proof. intros Hv. by apply federationfacts.canonical_Ok. Qed.

Lemma carried_announces did collection rkey cid raw body v :
  canonical_did did -> collection ∈ federation.collections -> canonical_rkey rkey -> canonical_cid cid ->
  raw <> [] -> raw <> bytes "null" ->
  federation.checkRecordKey collection rkey = Ok tt ->
  federation.decodePayload did collection rkey (recordURI did collection rkey) cid raw = Ok v ->
  carried did collection rkey cid raw body -> announces did collection rkey cid v body.
Proof.
  intros Hd Hc Hk Hcid Hr Hn Hcheck Hv
    (env & w & Hsize & Henv & Hid & Ht & Hi & Hre & Hw & Hlive & Hrev & Ewd & Ewc & Ewk & Hact & Ewi & Ewr).
  assert (Hrec : federation.decodeRecordEvent (wire.raw "record" env)
    = Ok (federation.mkRecordEvent did collection rkey (recordURI did collection rkey)
            (text "action" w) cid raw v)).
  { unfold federation.decodeRecordEvent. eapply bind_intro; [rewrite Hw; done |]. cbn zeta.
    rewrite Ewd, Ewc, Ewk, Ewi, Ewr. apply reject_intro; [by rewrite Hlive |].
    eapply bind_intro; [by apply canonical_rkey_Ok |].
    eapply bind_intro; [by apply federationfacts.canonicalDID_Ok |].
    eapply bind_intro; [apply federationfacts.canonical_Ok; by apply known_nsid |].
    apply reject_intro.
    { apply not_true_iff_false. rewrite forallb_forall. intros Hf.
      specialize (Hf collection (proj1 (list_elem_of_In _ _) Hc)). by rewrite String.eqb_refl in Hf. }
    eapply bind_intro; [by apply canonical_rkey_Ok |].
    destruct (record_uri did collection rkey Hd Hc Hk) as (uri & (Hp & Hs & _) & _).
    eapply bind_intro; [apply federationfacts.canonical_Ok; exists uri; exact (conj Hp Hs) |].
    eapply bind_intro; [exact Hcheck |].
    assert (Hnd : (text "action" w == "delete") = false) by (by destruct Hact as [-> | ->]).
    rewrite Hnd. apply reject_intro; [by destruct Hact as [-> | ->] |].
    destruct Hcid as (_ & _ & Hcid). eapply bind_intro; [by apply federationfacts.canonical_Ok |].
    apply reject_intro; [by rewrite !bool_decide_eq_false_2 |]. eapply bind_intro; [exact Hv |]. done. }
  assert (Hne : body <> []) by (intros ->; by vm_compute in Henv).
  exists (federation.mkEvent (int "id" env) (text "type" env)
    (Some (federation.mkRecordEvent did collection rkey (recordURI did collection rkey)
            (text "action" w) cid raw v)) None), (federation.mkRecordEvent did collection rkey
            (recordURI did collection rkey) (text "action" w) cid raw v).
  split.
  2: { split_and!; try done. cbn [federation.Action]. by destruct Hact as [-> | ->]. }
  unfold federation.DecodeEvent. cbn zeta. apply reject_intro.
  { apply orb_false_iff. split; [| by apply Z.ltb_ge]. apply Z.eqb_neq. destruct body; cbn; [done | lia]. }
  eapply bind_intro; [rewrite Henv; done |]. apply reject_intro; [by apply Z.leb_gt |].
  rewrite Ht, Hi. cbn [String.eqb]. rewrite String.eqb_refl. apply reject_intro.
  { by rewrite bool_decide_eq_false_2. }
  eapply bind_intro; [exact Hrec |]. done.
Qed.

(** ** Texts *)

Lemma ascii_utf8 (f : Ascii.ascii -> bool) s :
  (forall c, f c = true -> byte_of c < 0x80) -> all_chars f s = true -> utf8 s.
Proof.
  intros Hf. unfold utf8, ValidString. induction s as [| c s IH]; [done |].
  rewrite all_chars_cons, andb_true_iff. intros [Hc Hs]. cbn [bytes decode].
  specialize (Hf c Hc). rewrite (proj2 (Z.ltb_lt _ _)) by done. cbn [forallb].
  rewrite (IH Hs), andb_true_r. apply negb_true_iff, andb_false_iff. left. apply Z.eqb_neq.
  unfold RuneError. lia.
Qed.
Lemma hex_utf8 s : all_chars is_lower_hex s = true -> utf8 s.
Proof.
  apply ascii_utf8. intros c. unfold is_lower_hex, is_digit, in_range. rewrite orb_true_iff, !between_iff. lia.
Qed.
Lemma base32_utf8 s : all_chars is_base32_lower s = true -> utf8 s.
Proof.
  apply ascii_utf8. intros c. unfold is_base32_lower, is_lower, in_range. rewrite orb_true_iff, !between_iff. lia.
Qed.
Lemma canonical_ref_utf8 collection uri cid : canonical_ref collection uri cid -> utf8 uri /\ utf8 cid.
Proof.
  intros [(u & Hu & _) (_ & _ & c & Hc & _)]. split; [by eapply aturi_utf8 | by eapply cid_utf8].
Qed.

(** The text of a time that decodes as [t]. *)
Definition reads_as (value : string) (t : time) : Prop :=
  utf8 value /\ federation.canonicalDatetime value = Ok t.

Lemma decode_strict record raw zero fs :
  record_utf8 record -> json_of record raw -> fill record zero = Some fs ->
  federation.decodeStrict raw zero = Ok fs.
Proof. intros Hu Hj Hf. unfold federation.decodeStrict. by rewrite (decode_json_of _ _ _ _ Hu Hj Hf). Qed.

Ltac utf8_record :=
  unfold record_utf8; repeat (apply Forall_cons; split; cbn; [| try apply Forall_nil_2]);
  repeat split; try done; cbn; auto.

(** Picks the decoder of a collection, and runs it over the JSON of a posted map. *)
Ltac select_decoder :=
  unfold federation.decodePayload;
  repeat match goal with
  | |- (if ?a == ?b then _ else _) = _ =>
      let v := eval vm_compute in (a == b) in change (a == b) with v; cbv iota
  end.
Ltac read_record Hjson :=
  eapply bind_intro;
    [ apply mapErr_Ok; eapply decode_strict; [| exact Hjson | vm_compute; reflexivity]; utf8_record |];
  repeat match goal with
  | |- reject (_ != _) _ _ = _ => apply reject_intro; [reflexivity |]
  | |- mbind _ (federation.canonicalDatetime _) = _ => eapply bind_intro; [eassumption |]; cbn beta
  end; cbn.
Lemma issue_decodes did rkey cid raw r cs us c u :
  issue.Record_Validate r = Ok tt -> utf8 (issue.Title r) -> utf8 (issue.Body r) ->
  reads_as cs c -> reads_as us u -> ordered_times c u -> json_of (issueRecord r cs us) raw ->
  federation.decodePayload did issue.Collection rkey (recordURI did issue.Collection rkey) cid raw
  = Ok (federation.IssuePayload
          (issue.mkRecord (issue.Repository r) (issue.Title r) (issue.Body r) c u)).
Proof.
  destruct r as [[uri rcid] title body ct ut].
  unfold issue.Record_Validate. rewrite bind_unit_Ok, !reject_Ok, issue.validateStrongRef_Ok. cbn.
  intros (Href & Ht & Hb & _) Hut Hub [Hcs Hc] [Hus Hu] Ho Hj.
  apply canonical_ref_utf8 in Href as Hr. destruct Hr.
  select_decoder. eapply bind_intro; [| reflexivity]. unfold federation.decodeIssueRecord.
  read_record Hj. eapply bind_intro; [| reflexivity]. apply mapErr_Ok. unfold issue.Record_Validate. cbn.
  rewrite bind_unit_Ok, !reject_Ok, issue.validateStrongRef_Ok, issue.validateTimes_Ok. done.
Qed.

Lemma owned_uri did collection rkey cid :
  canonical_did did -> collection ∈ federation.collections -> canonical_rkey rkey -> canonical_cid cid ->
  exists uri, owned_envelope collection (recordURI did collection rkey) cid did uri /\
    RecordKey_String (ATURI_RecordKey uri) = rkey.
Proof.
  intros Hd Hc Hk Hi. destruct (record_uri did collection rkey Hd Hc Hk) as (uri & Hu & Ha & Hr).
  exists uri. unfold owned_envelope. done.
Qed.

Lemma comment_decodes did rkey cid raw r cs us c u :
  canonical_did did -> canonical_rkey rkey -> canonical_cid cid ->
  issue.CommentRecord_Validate r = Ok tt ->
  (forall parent, issue.Parent r = Some parent ->
     issue.URI parent <> recordURI did issue.CommentCollection rkey) ->
  utf8 (issue.Comment_Body r) ->
  reads_as cs c -> reads_as us u -> ordered_times c u -> json_of (issueCommentRecord r cs us) raw ->
  federation.decodePayload did issue.CommentCollection rkey (recordURI did issue.CommentCollection rkey)
    cid raw
  = Ok (federation.IssueCommentPayload
          (issue.mkCommentRecord (issue.Subject r) (issue.Parent r) (issue.Comment_Body r) c u)).
Proof.
  intros Hd Hk Hi. destruct r as [[uri rcid] parent body ct ut]. unfold issue.CommentRecord_Validate.
  rewrite !bind_unit_Ok, !reject_Ok, issue.validateStrongRef_Ok. cbn.
  intros (Href & Hp & Hb & _) Hself Hub [Hcs Hc] [Hus Hu] Ho Hj.
  apply canonical_ref_utf8 in Href as Hr. destruct Hr.
  assert (Hpt : forall p, parent = Some p -> utf8 (issue.URI p) /\ utf8 (issue.CID p)).
  { intros p ->. apply issue.validateStrongRef_Ok, canonical_ref_utf8 in Hp. done. }
  assert (Hv : issue.CommentRecord_Validate
    (issue.mkCommentRecord (issue.mkStrongRef uri rcid) parent body c u) = Ok tt).
  { unfold issue.CommentRecord_Validate. cbn.
    rewrite !bind_unit_Ok, !reject_Ok, issue.validateStrongRef_Ok, issue.validateTimes_Ok. done. }
  select_decoder. apply (bind_intro _ _
    (issue.mkCommentRecord (issue.mkStrongRef uri rcid) parent body c u)).
  { unfold federation.decodeIssueCommentRecord. destruct parent as [[puri pcid] |].
    - destruct (Hpt _ eq_refl). read_record Hj. eapply bind_intro; [apply mapErr_Ok, Hv | done].
    - read_record Hj. eapply bind_intro; [apply mapErr_Ok, Hv | done]. }
  eapply bind_intro; [| reflexivity]. apply mapErr_Ok. unfold issue.Comment_Validate.
  eapply bind_intro; [exact Hv |].
  destruct (owned_uri did issue.CommentCollection rkey cid) as (ruri & Ho' & Hrk); [done | known_collection | done | done |].
  eapply bind_intro; [by apply issue.validateEnvelope_Ok |]. cbn. apply reject_intro.
  - destruct parent as [p |]; [| done]. apply String.eqb_neq. by apply Hself.
  - by rewrite Hrk, issue.ValidateRecordKey_Ok.
Qed.

Lemma issue_status_decodes did rkey cid raw r cs us c u :
  issue.StatusRecord_Validate r = Ok tt -> issue.StatusRecordKey (issue.URI (issue.Status_Subject r)) = Ok rkey ->
  reads_as cs c -> reads_as us u -> ordered_times c u -> json_of (issueStatusRecord r cs us) raw ->
  federation.decodePayload did issue.StatusCollection rkey (recordURI did issue.StatusCollection rkey) cid raw
  = Ok (federation.IssueStatusPayload
          (issue.mkStatusRecord (issue.Status_Subject r) (issue.Status_Repository r) (issue.Status_State r) c u)).
Proof.
  destruct r as [[uri rcid] [ruri rrcid] state ct ut]. unfold issue.StatusRecord_Validate.
  rewrite !bind_unit_Ok, reject_Ok, !issue.validateStrongRef_Ok. cbn.
  intros (Hs & Hr & Hst & _) Hk [Hcs Hc] [Hus Hu] Ho Hj.
  apply canonical_ref_utf8 in Hs as Ht. apply canonical_ref_utf8 in Hr as Ht'. destruct Ht, Ht'.
  assert (utf8 state).
  { apply andb_false_iff in Hst as [->%neq_false | ->%neq_false]; reflexivity. }
  select_decoder. apply (bind_intro _ _ (issue.mkStatusRecord (issue.mkStrongRef uri rcid)
    (issue.mkStrongRef ruri rrcid) state c u)).
  { unfold federation.decodeIssueStatusRecord. read_record Hj. eapply bind_intro; [| reflexivity].
    apply mapErr_Ok. unfold issue.StatusRecord_Validate. cbn.
    rewrite !bind_unit_Ok, reject_Ok, !issue.validateStrongRef_Ok, issue.validateTimes_Ok. done. }
  eapply bind_intro; [| reflexivity]. by apply federationfacts.expectRKey_Ok.
Qed.

Lemma star_decodes did rkey cid raw target cs c :
  star.Target_Validate target = Ok tt -> star.RecordKey (star.Target_URI target) = Ok rkey ->
  reads_as cs c -> json_of (starRecord target cs) raw ->
  federation.decodePayload did star.Collection rkey (recordURI did star.Collection rkey) cid raw
  = Ok (federation.StarPayload
          (federation.mkStarRecord (star.Target_URI target) (star.Target_CID target) c)).
Proof.
  destruct target as [uri tcid]. intros Hv Hk [Hcs Hc] Hj. cbn [star.Target_URI star.Target_CID] in *.
  assert (utf8 uri /\ utf8 tcid) as [? ?].
  { unfold star.Target_Validate in Hv. rewrite bind_unit_Ok, mapErr_Ok, star.validateCID_iff in Hv.
    destruct Hv as [Hu (bs & Hb & Hcid)]. cbn in Hu, Hcid. split.
    - unfold star.validateRepositoryURI in Hu. destruct (ParseATURI uri) eqn:E; [by eapply aturi_utf8 | done].
    - rewrite Hcid. apply base32_utf8, star.b_lower_class. }
  select_decoder. apply (bind_intro _ _ (federation.mkStarRecord uri tcid c)).
  { unfold federation.decodeStarRecord. read_record Hj. eapply bind_intro; [apply mapErr_Ok, Hv |]. cbn beta.
    eapply bind_intro; [exact Hc | done]. }
  eapply bind_intro; [| reflexivity]. by apply federationfacts.expectRKey_Ok.
Qed.

Lemma sha_utf8 sha field : pullrequest.validateGitSHA sha field = Ok tt -> utf8 sha.
Proof. rewrite pullrequest.validateGitSHA_Ok. intros (_ & Hs & _). by apply hex_utf8. Qed.
Lemma branch_utf8 branch field : pullrequest.validateBranch branch field = Ok tt -> utf8 branch.
Proof. rewrite pullrequest.validateBranch_Ok. by intros (_ & Hs & _). Qed.

Lemma pull_request_decodes did rkey cid raw r cs us c u :
  canonical_did did -> canonical_rkey rkey -> canonical_cid cid ->
  pullrequest.Record_Validate r = Ok tt ->
  reads_as cs c -> reads_as us u -> ordered_times c u -> json_of (pullRequestRecord r cs us) raw ->
  federation.decodePayload did pullrequest.Collection rkey (recordURI did pullrequest.Collection rkey)
    cid raw
  = Ok (federation.PullRequestPayload
          (pullrequest.mkRecord (pullrequest.SourceRepository r) (pullrequest.TargetRepository r)
             (pullrequest.SourceBranch r) (pullrequest.TargetBranch r) (pullrequest.HeadSHA r)
             (pullrequest.Title r) (pullrequest.Body r) c u)).
Proof.
  intros Hd Hk Hi. destruct r as [[su sc] [tu tc] sb tb sha title body ct ut].
  intros Hv [Hcs Hc] [Hus Hu] Ho Hj.
  assert (Hv' : pullrequest.Record_Validate (pullrequest.mkRecord (pullrequest.mkStrongRef su sc)
    (pullrequest.mkStrongRef tu tc) sb tb sha title body c u) = Ok tt).
  { revert Hv. unfold pullrequest.Record_Validate. rewrite !bind_unit_Ok, !reject_Ok, !bind_unit_Ok, !reject_Ok.
    rewrite !pullrequest.pr_validateTimes_Ok. tauto. }
  unfold pullrequest.Record_Validate in Hv.
  rewrite !bind_unit_Ok, !reject_Ok, !bind_unit_Ok, !reject_Ok, !pullrequest.pr_validateStrongRef_Ok in Hv. cbn in Hv.
  destruct Hv as (Hs & Ht & Hsb%branch_utf8 & Htb%branch_utf8 & _ & Hsha%sha_utf8 & Htitle & Hbody & _).
  apply orb_false_iff in Htitle as [_ Htitle%negb_false_iff]. apply orb_false_iff in Hbody as [_ Hbody%negb_false_iff].
  apply canonical_ref_utf8 in Hs as [? ?]. apply canonical_ref_utf8 in Ht as [? ?].
  select_decoder. eapply bind_intro.
  { unfold federation.decodePullRequestRecord. read_record Hj. eapply bind_intro; [apply mapErr_Ok, Hv' | done]. }
  eapply bind_intro; [| reflexivity]. apply mapErr_Ok. unfold pullrequest.PullRequest_Validate.
  eapply bind_intro; [exact Hv' |].
  destruct (owned_uri did pullrequest.Collection rkey cid) as (ruri & Ho' & Hrk); [done | known_collection | done | done |].
  eapply bind_intro; [by apply pullrequest.pr_validateEnvelope_Ok |].
  by rewrite Hrk, pullrequest.pr_ValidateRecordKey_Ok.
Qed.

Lemma review_decodes did rkey cid raw r cs us c u :
  canonical_did did -> canonical_rkey rkey -> canonical_cid cid ->
  pullrequest.ReviewRecord_Validate r = Ok tt ->
  reads_as cs c -> reads_as us u -> ordered_times c u -> json_of (pullRequestReviewRecord r cs us) raw ->
  federation.decodePayload did pullrequest.ReviewCollection rkey
    (recordURI did pullrequest.ReviewCollection rkey) cid raw
  = Ok (federation.PullRequestReviewPayload
          (pullrequest.mkReviewRecord (pullrequest.Review_Subject r) (pullrequest.Review_Verdict r)
             (pullrequest.Review_Body r) c u)).
Proof.
  intros Hd Hk Hi. destruct r as [[su sc] verdict body ct ut]. intros Hv [Hcs Hc] [Hus Hu] Ho Hj.
  assert (Hv' : pullrequest.ReviewRecord_Validate
    (pullrequest.mkReviewRecord (pullrequest.mkStrongRef su sc) verdict body c u) = Ok tt).
  { revert Hv. unfold pullrequest.ReviewRecord_Validate. rewrite !bind_unit_Ok, !reject_Ok.
    rewrite !pullrequest.pr_validateTimes_Ok. tauto. }
  unfold pullrequest.ReviewRecord_Validate in Hv.
  rewrite !bind_unit_Ok, !reject_Ok, !pullrequest.pr_validateStrongRef_Ok in Hv. cbn in Hv.
  destruct Hv as (Hs & Hverdict & Hbody & _). apply orb_false_iff in Hbody as [_ Hbody%negb_false_iff].
  apply canonical_ref_utf8 in Hs as [? ?].
  assert (utf8 verdict).
  { rewrite !andb_false_iff, !neq_false in Hverdict. destruct Hverdict as [[-> | ->] | ->]; reflexivity. }
  select_decoder. eapply bind_intro.
  { unfold federation.decodePullRequestReviewRecord. read_record Hj. eapply bind_intro; [apply mapErr_Ok, Hv' | done]. }
  eapply bind_intro; [| reflexivity]. apply mapErr_Ok. unfold pullrequest.Review_Validate.
  eapply bind_intro; [exact Hv' |].
  destruct (owned_uri did pullrequest.ReviewCollection rkey cid) as (ruri & Ho' & Hrk); [done | known_collection | done | done |].
  eapply bind_intro; [by apply pullrequest.pr_validateEnvelope_Ok |].
  by rewrite Hrk, pullrequest.pr_ValidateRecordKey_Ok.
Qed.

Lemma pull_status_decodes did rkey cid raw r cs us c u :
  pullrequest.StatusRecord_Validate r = Ok tt ->
  pullrequest.StatusRecordKey (pullrequest.URI (pullrequest.Status_Subject r)) = Ok rkey ->
  reads_as cs c -> reads_as us u -> ordered_times c u -> json_of (pullRequestStatusRecord r cs us) raw ->
  federation.decodePayload did pullrequest.StatusCollection rkey
    (recordURI did pullrequest.StatusCollection rkey) cid raw
  = Ok (federation.PullRequestStatusPayload
          (pullrequest.mkStatusRecord (pullrequest.Status_Subject r) (pullrequest.Status_TargetRepository r)
             (pullrequest.Status_State r) (pullrequest.MergeCommitSHA r) c u)).
Proof.
  destruct r as [[su sc] [tu tc] state sha ct ut]. cbn [pullrequest.Status_Subject pullrequest.Status_TargetRepository
    pullrequest.Status_State pullrequest.MergeCommitSHA]. intros Hv Hk [Hcs Hc] [Hus Hu] Ho Hj.
  assert (Hv' : pullrequest.StatusRecord_Validate (pullrequest.mkStatusRecord (pullrequest.mkStrongRef su sc)
    (pullrequest.mkStrongRef tu tc) state sha c u) = Ok tt).
  { revert Hv. unfold pullrequest.StatusRecord_Validate. rewrite !bind_unit_Ok, !reject_Ok, !bind_unit_Ok.
    rewrite !pullrequest.pr_validateTimes_Ok. tauto. }
  unfold pullrequest.StatusRecord_Validate in Hv.
  rewrite !bind_unit_Ok, !reject_Ok, !bind_unit_Ok, !pullrequest.pr_validateStrongRef_Ok in Hv. cbn in Hv.
  destruct Hv as (Hs & Ht & Hstate & Hsha & _).
  apply canonical_ref_utf8 in Hs as [? ?]. apply canonical_ref_utf8 in Ht as [? ?].
  assert (utf8 sha).
  { destruct (state == pullrequest.StateMerged); [by eapply sha_utf8 |].
    by apply reject_Ok in Hsha as [->%neq_false _]. }
  assert (utf8 state).
  { rewrite !andb_false_iff, !neq_false in Hstate. destruct Hstate as [[-> | ->] | ->]; reflexivity. }
  select_decoder. apply (bind_intro _ _ (pullrequest.mkStatusRecord (pullrequest.mkStrongRef su sc)
    (pullrequest.mkStrongRef tu tc) state sha c u)).
  { unfold federation.decodePullRequestStatusRecord, pullRequestStatusRecord in *. cbn [pullrequest.MergeCommitSHA] in Hj.
    destruct (String.eqb_spec sha EmptyString) as [-> |]; cbn [negb] in Hj; read_record Hj;
      (eapply bind_intro; [apply mapErr_Ok, Hv' | done]). }
  eapply bind_intro; [| reflexivity]. by apply federationfacts.expectRKey_Ok.
Qed.

(** The slot of a repository's record, under the repository's own authority. *)
Lemma portable_uri did collection rkey cid repositoryURI recordErr :
  canonical_did did -> collection ∈ federation.collections -> canonical_rkey rkey -> canonical_cid cid ->
  recordErr = Ok tt -> triage.RepositoryOwnerDID repositoryURI = Ok did ->
  triage.validatePortableEnvelope (recordURI did collection rkey) cid did rkey collection repositoryURI
    recordErr = Ok tt.
Proof.
  intros Hd Hc Hk Hi He Ho. apply triage.validatePortableEnvelope_Ok. split; [done |].
  apply triage.triage_RepositoryOwnerDID_Ok in Ho as (repo & Hr & Ha).
  destruct (owned_uri did collection rkey cid Hd Hc Hk Hi) as (uri & Hu & Hrk).
  exists uri, repo. done.
Qed.

Lemma label_decodes did rkey cid raw r cs us c u :
  canonical_did did -> canonical_rkey rkey -> canonical_cid cid ->
  triage.LabelRecord_Validate r = Ok tt ->
  triage.RepositoryOwnerDID (triage.URI (triage.Label_Repository r)) = Ok did ->
  reads_as cs c -> reads_as us u -> ordered_times c u -> json_of (labelRecord r cs us) raw ->
  federation.decodePayload did triage.LabelCollection rkey (recordURI did triage.LabelCollection rkey) cid raw
  = Ok (federation.RepositoryLabelPayload
          (triage.mkLabelRecord (triage.Label_Repository r) (triage.Name r) (triage.Color r)
             (triage.Description r) c u)).
Proof.
  intros Hd Hk Hi. destruct r as [[ru rc] name color desc ct ut]. intros Hv Howner [Hcs Hc] [Hus Hu] Ho Hj.
  assert (Hv' : triage.LabelRecord_Validate
    (triage.mkLabelRecord (triage.mkStrongRef ru rc) name color desc c u) = Ok tt).
  { revert Hv. unfold triage.LabelRecord_Validate. rewrite !bind_unit_Ok, !reject_Ok.
    rewrite !triage.triage_validateTimes_Ok. tauto. }
  unfold triage.LabelRecord_Validate in Hv.
  rewrite !bind_unit_Ok, !reject_Ok, !triage.triage_validateStrongRef_Ok, !orb_false_iff, !negb_false_iff in Hv. cbn in Hv.
  destruct Hv as (Hs & (_ & Hname) & Hcolor & (_ & Hdesc) & _). apply canonical_ref_utf8 in Hs as [? ?].
  apply match_class_n_true in Hcolor as [_ Hcolor%hex_utf8].
  select_decoder. eapply bind_intro.
  { unfold federation.decodeRepositoryLabelRecord. read_record Hj. eapply bind_intro; [apply mapErr_Ok, Hv' | done]. }
  eapply bind_intro; [| reflexivity]. apply mapErr_Ok. apply portable_uri; try done. known_collection.
Qed.

(** An optional time, as it is written and read. *)
Definition reads_optional (t : option time) (u : option time) : Prop :=
  u = written_time <$> t /\ forall t', t = Some t' -> readable t'.

Lemma optional_utf8 name t : Forall (fun p => any_utf8 (snd p)) (optionalTime name t).
Proof. destruct t; repeat constructor. apply datetime_utf8. Qed.

Lemma optional_reads t u : reads_optional t u ->
  federation.optionalCanonicalDatetime (formatTriageTime <$> t) = Ok u.
Proof.
  intros [-> Hr]. destruct t as [t |]; [| done]. specialize (Hr t eq_refl).
  unfold federation.optionalCanonicalDatetime. cbn. unfold readable, stamp in Hr. unfold formatTriageTime.
  by rewrite Hr.
Qed.

(** What the milestone's optional times fill. *)
Lemma milestone_fill r cs us :
  fill (milestoneRecord r cs us)
    [("$type", federation.empty); ("repository", Struct federation.zero_ref); ("title", federation.empty);
     ("description", federation.empty); ("state", federation.empty); ("dueAt", TextPtr None);
     ("closedAt", TextPtr None); ("createdAt", federation.empty); ("updatedAt", federation.empty)]
  = Some [("$type", Text triage.MilestoneCollection);
     ("repository", Struct [("URI", Text (triage.URI (triage.Milestone_Repository r)));
                            ("CID", Text (triage.CID (triage.Milestone_Repository r)))]);
     ("title", Text (triage.Title r)); ("description", Text (triage.Milestone_Description r));
     ("state", Text (triage.Milestone_State r)); ("dueAt", TextPtr (formatTriageTime <$> triage.DueAt r));
     ("closedAt", TextPtr (formatTriageTime <$> triage.ClosedAt r)); ("createdAt", Text cs);
     ("updatedAt", Text us)].
Proof.
  unfold milestoneRecord. destruct (triage.DueAt r), (triage.ClosedAt r); cbn [optionalTime app]; vm_compute; reflexivity.
Qed.

Lemma milestone_decodes did rkey cid raw r cs us c u due closed :
  canonical_did did -> canonical_rkey rkey -> canonical_cid cid ->
  triage.MilestoneRecord_Validate r = Ok tt ->
  triage.RepositoryOwnerDID (triage.URI (triage.Milestone_Repository r)) = Ok did ->
  reads_as cs c -> reads_as us u -> ordered_times c u ->
  reads_optional (triage.DueAt r) due -> reads_optional (triage.ClosedAt r) closed ->
  json_of (milestoneRecord r cs us) raw ->
  federation.decodePayload did triage.MilestoneCollection rkey
    (recordURI did triage.MilestoneCollection rkey) cid raw
  = Ok (federation.RepositoryMilestonePayload
          (triage.mkMilestoneRecord (triage.Milestone_Repository r) (triage.Title r)
             (triage.Milestone_Description r) (triage.Milestone_State r) due closed c u)).
Proof.
  intros Hd Hk Hi Hv Howner [Hcs Hc] [Hus Hu] Ho Hdue Hclosed Hj.
  assert (Hv' : triage.MilestoneRecord_Validate (triage.mkMilestoneRecord (triage.Milestone_Repository r)
    (triage.Title r) (triage.Milestone_Description r) (triage.Milestone_State r) due closed c u) = Ok tt).
  { revert Hv. unfold triage.MilestoneRecord_Validate. rewrite !bind_unit_Ok, !reject_Ok.
    rewrite !triage.triage_validateTimes_Ok. cbn. destruct Hclosed as [-> _], (triage.ClosedAt r); cbn; tauto. }
  unfold triage.MilestoneRecord_Validate in Hv.
  rewrite !bind_unit_Ok, !reject_Ok, !triage.triage_validateStrongRef_Ok, !orb_false_iff, !negb_false_iff in Hv. cbn in Hv.
  destruct Hv as (Hs & (_ & Htitle) & (_ & Hdesc) & Hstate & _). apply canonical_ref_utf8 in Hs as [? ?].
  assert (utf8 (triage.Milestone_State r)).
  { rewrite andb_false_iff, !neq_false in Hstate. destruct Hstate as [-> | ->]; reflexivity. }
  assert (Hutf8 : record_utf8 (milestoneRecord r cs us)).
  { unfold record_utf8, milestoneRecord. rewrite !Forall_app. split; [| split; apply optional_utf8].
    change (record_utf8 [("$type", AString triage.MilestoneCollection);
      ("repository", triageStrongRef (triage.Milestone_Repository r)); ("title", AString (triage.Title r));
      ("description", AString (triage.Milestone_Description r)); ("state", AString (triage.Milestone_State r));
      ("createdAt", AString cs); ("updatedAt", AString us)]). utf8_record. }
  select_decoder. eapply bind_intro.
  { unfold federation.decodeRepositoryMilestoneRecord. eapply bind_intro.
    { apply mapErr_Ok. apply (decode_strict _ _ _ _ Hutf8 Hj (milestone_fill r cs us)). }
    apply reject_intro; [reflexivity |].
    eapply bind_intro; [exact Hc |]; cbn beta. eapply bind_intro; [exact Hu |]; cbn beta.
    eapply bind_intro; [exact (optional_reads _ _ Hdue) |]; cbn beta.
    eapply bind_intro; [exact (optional_reads _ _ Hclosed) |]; cbn beta zeta.
    eapply bind_intro; [apply mapErr_Ok | done]. rewrite <- Hv'. by destruct (triage.Milestone_Repository r). }
  destruct (triage.Milestone_Repository r) as [ru rc].
  eapply bind_intro; [| reflexivity]. apply mapErr_Ok. apply portable_uri; try done. known_collection.
Qed.

(** The slices of triage metadata, one of which may be nil. *)
Definition slice_of (is_nil : bool) (l : list string) : option (list string) := if is_nil then None else Some l.

Lemma labels_utf8 l : triage.validateLabels l = Ok tt -> Forall utf8 l.
Proof.
  rewrite triage.validateLabels_Ok. intros Hl. eapply Forall_impl; [exact Hl |]. intros s (u & Hu & _). by eapply aturi_utf8.
Qed.
Lemma dids_utf8 l : triage.validateDIDs l = Ok tt -> Forall utf8 l.
Proof.
  rewrite triage.validateDIDs_Ok. intros Hl. eapply Forall_impl; [exact Hl |]. intros s (d & Hd & _). by eapply did_utf8.
Qed.

Lemma metadata_decodes did rkey cid raw r nil_labels nil_assignees cs us c u :
  canonical_did did -> canonical_rkey rkey -> canonical_cid cid ->
  triage.MetadataRecord_Validate r = Ok tt ->
  triage.RepositoryOwnerDID (triage.URI (triage.Metadata_Repository r)) = Ok did ->
  triage.MetadataRecordKey (triage.URI (triage.Subject r)) = Ok rkey ->
  (nil_labels = true -> triage.LabelURIs r = []) -> (nil_assignees = true -> triage.AssigneeDIDs r = []) ->
  reads_as cs c -> reads_as us u -> ordered_times c u ->
  json_of (metadataRecord r nil_labels nil_assignees cs us) raw ->
  federation.decodePayload did triage.MetadataCollection rkey
    (recordURI did triage.MetadataCollection rkey) cid raw
  = Ok (federation.SubjectTriagePayload
          (triage.mkMetadataRecord (triage.Subject r) (triage.Kind r) (triage.Metadata_Repository r)
             (triage.LabelURIs r) (triage.AssigneeDIDs r) (triage.MilestoneURI r) c u)
          nil_labels nil_assignees).
Proof.
  intros Hd Hk Hi. destruct r as [[su sc] kind [ru rc] labels assignees milestone ct ut].
  intros Hv Howner Hkey Hnl Hna [Hcs Hc] [Hus Hu] Ho Hj. cbn in Hnl, Hna.
  assert (Hv' : triage.MetadataRecord_Validate (triage.mkMetadataRecord (triage.mkStrongRef su sc) kind
    (triage.mkStrongRef ru rc) labels assignees milestone c u) = Ok tt).
  { revert Hv. rewrite !triage.MetadataRecord_Validate_Ok. unfold triage.well_formed_metadata. cbn. tauto. }
  apply triage.MetadataRecord_Validate_Ok in Hv. unfold triage.well_formed_metadata in Hv. cbn in Hv.
  destruct Hv as (Hs & Hr & _ & _ & _ & _ & Hl & _ & _ & Ha & Hm & _).
  apply triage.validateLabels_Ok, labels_utf8 in Hl. apply triage.validateDIDs_Ok, dids_utf8 in Ha.
  apply canonical_ref_utf8 in Hr as [? ?].
  assert (utf8 kind /\ utf8 su /\ utf8 sc) as (? & ? & ?).
  { destruct Hs as [[-> Hs] | [-> Hs]]; apply canonical_ref_utf8 in Hs as [? ?]; done. }
  assert (utf8 milestone).
  { destruct Hm as [-> | (m & Hm & _)]; [done | by eapply aturi_utf8]. }
  select_decoder.
  apply (bind_intro _ _ (triage.mkMetadataRecord (triage.mkStrongRef su sc) kind
    (triage.mkStrongRef ru rc) labels assignees milestone c u, nil_labels, nil_assignees)).
  { unfold federation.decodeSubjectTriageRecord, metadataRecord, stringSlice in *.
    destruct nil_labels; [rewrite (Hnl eq_refl) in * |]; (destruct nil_assignees; [rewrite (Hna eq_refl) in * |]);
      cbn [triage.MilestoneURI] in Hj;
      (destruct (String.eqb_spec milestone EmptyString) as [-> |]; cbn [negb] in Hj; read_record Hj;
      (eapply bind_intro; [apply mapErr_Ok, Hv' | done])). }
  cbn beta iota. eapply bind_intro; [by apply federationfacts.expectRKey_Ok |].
  eapply bind_intro; [| reflexivity]. apply mapErr_Ok. unfold triage.Metadata_Validate.
  pose proof (portable_uri did triage.MetadataCollection rkey cid ru _ Hd ltac:(known_collection) Hk Hi Hv' Howner) as Hp.
  eapply bind_intro; [exact Hp |].
  eapply bind_intro; [exact Hkey |].
  apply reject_intro; [| done]. cbn. by rewrite String.eqb_refl.
Qed.

Lemma profile_decodes did cid raw r c :
  profile.UpdateInput_Validate (profile.mkUpdateInput (profile.Record_DisplayName r) (profile.Record_Bio r)
    (profile.Record_Website r) (profile.Record_Location r)) = Ok tt ->
  reads_as (stamp (profile.Record_CreatedAt r)) c ->
  json_of (profileRecordMap r) raw ->
  federation.decodePayload did profileCollection profileRKey (recordURI did profileCollection profileRKey)
    cid raw
  = Ok (federation.ProfilePayload (federation.mkProfileRecord (profile.Record_DisplayName r)
          (profile.Record_Bio r) (profile.Record_Website r) (profile.Record_Location r) c)).
Proof.
  destruct r as [name bio web loc ct]. cbn [profile.Record_DisplayName profile.Record_Bio profile.Record_Website
    profile.Record_Location profile.Record_CreatedAt]. intros Hv [Hcs Hc] Hj.
  unfold profileRecordMap in Hj. cbn [profile.Record_CreatedAt] in Hj. fold (stamp ct) in Hj.
  revert Hcs Hc Hj. generalize (stamp ct) as cs'. intros cs' Hcs Hc Hj.
  assert (utf8 name /\ utf8 bio /\ utf8 web /\ utf8 loc) as (? & ? & ? & ?).
  { unfold profile.UpdateInput_Validate, profile.validateText in Hv. cbn in Hv.
    rewrite !bind_unit_Ok, !reject_Ok, !orb_false_iff, !negb_false_iff in Hv. unfold utf8. tauto. }
  select_decoder. eapply bind_intro; [| reflexivity].
  unfold federation.decodeProfileRecord. read_record Hj. eapply bind_intro; [apply mapErr_Ok, Hv | done].
Qed.
End published.
End publisherfacts.
