(* ===== verification/Published.v ===== *)
(** * Published: what holds of every write of a publisher. *)

From S2P Require Import Prelude.
From S2P Require Import GoText.
From S2P Require Import Encoding.
From S2P Require Import Syntax.
From S2P Require Import Json.
From S2P Require Import JsonDecode.
From S2P Require Import Star.
From S2P Require Import Issue.
From S2P Require Import PullRequest.
From S2P Require Import Triage.
From S2P Require Import Repository.
From S2P Require Import Transfer.
From S2P Require Import Organization.
From S2P Require Import Webhook.
From S2P Require Import Wire.
From S2P Require Import Endpoint.
From S2P Require Import Profile.
From S2P Require Import FederationEvent.
From S2P Require Import FederationFacts.
From S2P Require Import FederationProjection.
From S2P Require Import FederationTables.
From S2P Require Import FederationStore.
From S2P Require Import Publisher.
From S2P Require Import PublisherFacts.

Module published.
Import wire atproto publisherfacts.

Section published.
Context `{TapSyntax, GoUnicode, GoEndpoint, UUIDs, !SyntaxLaws, !RecordLaws}.

(** ** Every write of a publisher *)

(** What is posted is read back as [v] from every event that carries it. *)
Definition heard (did : string) (v : federation.payload) (input : putRecordInput) : Prop :=
  forall cid raw body, canonical_cid cid -> json_of (Put_Record input) raw ->
    carried did (Put_Collection input) (Put_RKey input) cid raw body ->
    announces did (Put_Collection input) (Put_RKey input) cid v body.

Lemma heard_intro did collection rkey swap record v :
  canonical_did did -> collection ∈ federation.collections -> canonical_rkey rkey -> record <> [] ->
  federation.checkRecordKey collection rkey = Ok tt ->
  (forall cid raw, canonical_cid cid -> json_of record raw ->
     federation.decodePayload did collection rkey (recordURI did collection rkey) cid raw = Ok v) ->
  heard did v (mkPut collection did rkey swap record).
Proof.
  intros Hd Hc Hk Hr Hcheck Hv cid raw body Hcid Hj. cbn in *.
  destruct (json_of_value _ _ Hr Hj) as [? ?]. apply carried_announces; auto.
Qed.

(** The same record under another version of the slot. *)
Lemma digest_rkey key m : key = ToLower (base32_Encode (Sum256 m)) ->
  canonical_rkey key /\ federation.match_star_rkey key = true.
Proof.
  intros ->. pose proof (lower_base32_digest m) as Hd.
  pose proof (rkey_grammar_class is_base32_lower 52 _ base32_rkey_char ltac:(lia) Hd) as Hg.
  split; [| exact Hd]. destruct (ParseRecordKey_grammar _ Hg) as (k & Hk & Hs). by exists k.
Qed.

(** A write to the repository of [did] that is read back as a [v] with [P]. *)
Definition posts (did : string) (P : putRecordInput -> federation.payload -> Prop) (X : Type)
    (e : effect X) : Prop :=
  match e with
  | PutRecord _ _ input => Put_Repo input = did /\ exists v, P input v /\ heard did v input
  | _ => True
  end.
Abbreviation only v := (fun _ : putRecordInput => eq v).

Section walk.
Context (did : string) (P : putRecordInput -> federation.payload -> Prop).
Abbreviation walks := (every (posts did P)).

Lemma walk_lift {A B} (r : result A) (f : A -> svc effect B) :
  (forall a, r = Ok a -> walks (f a)) -> walks (svc_bind (lift r) f).
Proof. destruct r; cbn; auto. Qed.
Lemma walk_call {X B} (e : effect (result X)) (f : X -> svc effect B) :
  posts did P _ e -> (forall x, walks (f x)) -> walks (svc_bind (call e) f).
Proof. intros He Hf. split; [done |]. intros [x | err]; cbn; [apply Hf | done]. Qed.
Lemma walk_wrapped {X B} wrap (e : effect (result X)) (f : X -> svc effect B) :
  posts did P _ e -> (forall x, walks (f x)) -> walks (svc_bind (wrapErr wrap (call e)) f).
Proof. intros He Hf. split; [done |]. intros [x | err]; cbn; [apply Hf | done]. Qed.
Lemma walk_optional {B} pkg host session collection repo rkey
    (f : option getRecordOutput -> svc effect B) :
  (forall o, walks (f o)) -> walks (svc_bind (getOptionalRecord pkg host session collection repo rkey) f).
Proof. intros Hf. split; [done |]. intros [o | e]; cbn; [apply Hf |]. destruct (isRecordNotFound e); [apply Hf | done]. Qed.

Lemma walk_resume pkg d host : walks (resumePackageSession pkg d host).
Proof.
  unfold resumePackageSession. apply walk_wrapped; [done |]. intros [latest |]; [| done].
  apply walk_wrapped; [done |]. intros [session |]; [| done]. by destruct (negb _).
Qed.
Lemma walk_resolve {B} pkg (f : string * Identity * string -> svc effect B) :
  (forall identity host, canonical_did did -> walks (f (did, identity, host))) ->
  walks (svc_bind (resolveIdentity pkg did) f).
Proof.
  intros Hf. unfold resolveIdentity. destruct (ParseDID did) as [d |] eqn:Hd; [| done].
  destruct (String.eqb_spec (DID_String d) did) as [E |]; cbn [negb]; [| done].
  assert (Hc : canonical_did did) by (by exists d). split; [done |].
  intros [[found |] | e]; cbn; [| done | done]. destruct (negb _); cbn; [done |].
  destruct (canonicalPDSHost _) as [host |]; cbn; [by apply Hf | done].
Qed.

Lemma walk_session {A} pkg (persist : SessionData -> svc effect unit)
    (operation : string -> string -> SessionData -> svc effect A) :
  (forall session, walks (persist session)) ->
  (forall host session, canonical_did did -> walks (operation host did session)) ->
  walks (withSession (resolveIdentity pkg) (resumePackageSession pkg) persist did operation).
Proof.
  intros Hp Ho. apply walk_resolve. intros identity host Hd. split; [done |]. intros []. cbn [prog_bind].
  apply every_bind; [| intros r; split; [done | intros []; exact I]].
  apply every_then; [apply walk_resume |]. intros session. apply every_bind; [by apply Ho |].
  intros r. apply every_bind; [apply Hp |]. by intros p.
Qed.
Lemma walk_persist pkg session operation : walks (persistSession pkg session operation).
Proof. split; [done |]. intros []; exact I. Qed.

(** A write of one record, and whatever follows it. *)
Lemma walk_put {B} host session collection rkey swap record v (f : reply putRecordOutput -> svc effect B) :
  P (mkPut collection did rkey swap record) v -> heard did v (mkPut collection did rkey swap record) ->
  (forall r, walks (f r)) ->
  walks (prog_bind (call (PutRecord host session (mkPut collection did rkey swap record))) f).
Proof. intros Hv Hh Hf. split; [split; [done | by exists v] | exact Hf]. Qed.
End walk.

(** Walks through what follows a write. *)
Ltac walk :=
  repeat first
    [ exact I
    | apply walk_lift; intros ? _
    | apply walk_optional; intros ?
    | progress cbn beta zeta iota
    | match goal with
      | |- every _ (done_ _) => exact I
      | |- every _ (fail _) => exact I
      | |- every _ (Ret _) => exact I
      | |- forall _, _ => intros ?
      | |- context [match ?x with _ => _ end] => destruct x
      end ].

Lemma walk_star did target t :
  every (posts did (only (federation.StarPayload (federation.mkStarRecord (star.Target_URI target)
    (star.Target_CID target) (written_time t))))) (CreateStar did target t).
Proof.
  unfold CreateStar. apply walk_lift. intros [] Hv. destruct (IsZero t); [done |].
  apply walk_lift. intros rkey Hk. apply walk_session; [intros; apply walk_persist |].
  intros host session Hd. unfold createStarRecord. cbn zeta. fold (stamp t).
  destruct (ParseDatetimeTime (stamp t)) as [u |] eqn:Ht; [| done]. apply read_stamp in Ht as [Ht _].
  assert (canonical_rkey rkey /\ federation.match_star_rkey rkey = true) as [Hkey Hmatch].
  { unfold star.RecordKey in Hk. rewrite bind_unit_Ok in Hk. destruct Hk as [_ [= <-]]. by eapply digest_rkey. }
  eapply walk_put; [reflexivity | | walk]. apply heard_intro; try done; [known_collection | |].
  - unfold federation.checkRecordKey. cbn -[federation.match_star_rkey]. by rewrite Hmatch.
  - intros cid raw _ Hj. by eapply star_decodes; [| | split; [apply datetime_utf8 | exact Ht] |].
Qed.

(** What the walks share: the times of a record, as they were checked. *)
Lemma stamp_reads t : readable t -> reads_as (stamp t) (written_time t).
Proof. intros Hr. split; [apply datetime_utf8 | exact Hr]. Qed.

Lemma walk_times {B} did P message invalid c u (f : string * string -> svc effect B) :
  (readable c -> readable u -> every (posts did P) (f (stamp c, stamp u))) ->
  every (posts did P) (svc_bind (lift (canonicalTimes message invalid c u)) f).
Proof.
  intros Hf. apply walk_lift. intros [cs us] Ht. apply canonicalTimes_Ok in Ht as (-> & -> & Hc & Hu). auto.
Qed.

(** The new times of a slot: its creation time, and an update after its last. *)
Lemma slot_times oc ou nc nu :
  written_time oc = oc -> written_time ou = ou -> readable ou -> ordered_times oc ou -> ordered_times nc nu ->
  resolution <= nc -> ou < nu ->
  ordered_times oc nu /\ (readable nu -> ordered_times (written_time oc) (written_time nu)).
Proof.
  intros Hwc Hwu Hru (Hc0 & _ & Hcu) (_ & Hn0 & Hn) Hl Hlt. unfold ordered_times, zeroTime in *.
  split; [lia |]. intros Hr. pose proof (written_mono _ _ Hru Hr ltac:(lia)) as Hm.
  assert (Hlate : resolution <= nu) by lia. pose proof (written_late _ Hr Hlate). pose proof resolution_pos. lia.
Qed.

Lemma walk_issue did rkey r :
  utf8 (issue.Title r) -> utf8 (issue.Body r) -> resolution <= issue.CreatedAt r ->
  every (posts did (only (federation.IssuePayload (issue.mkRecord (issue.Repository r) (issue.Title r)
    (issue.Body r) (written_time (issue.CreatedAt r)) (written_time (issue.UpdatedAt r))))))
    (CreateIssue did rkey r).
Proof.
  intros Htitle Hbody Hl. unfold CreateIssue. apply walk_lift. intros [] Hk. apply walk_lift. intros [] Hv.
  apply walk_session; [intros; apply walk_persist |]. intros host session Hd. unfold createIssueRecord.
  apply walk_times. intros Hc Hu. eapply walk_put; [reflexivity | | walk].
  apply issue.ValidateRecordKey_Ok in Hk as Hrk. apply heard_intro; try done; [known_collection | |].
  - unfold federation.checkRecordKey. cbn -[issue.ValidateRecordKey]. by rewrite Hk.
  - intros cid raw _ Hj. eapply issue_decodes; try done; try by apply stamp_reads.
    apply ordered_written; try done. unfold issue.Record_Validate in Hv.
    rewrite bind_unit_Ok, !reject_Ok, issue.validateTimes_Ok in Hv. tauto.
Qed.

Lemma walk_comment did rkey r :
  utf8 (issue.Comment_Body r) -> resolution <= issue.Comment_CreatedAt r ->
  every (posts did (only (federation.IssueCommentPayload (issue.mkCommentRecord (issue.Subject r)
    (issue.Parent r) (issue.Comment_Body r) (written_time (issue.Comment_CreatedAt r))
    (written_time (issue.Comment_UpdatedAt r))))))
    (CreateIssueComment did rkey r).
Proof.
  intros Hbody Hl. unfold CreateIssueComment. apply walk_lift. intros [] Hk. apply walk_lift. intros [] Hv.
  destruct (match issue.Parent r with Some parent => _ | None => false end) eqn:Hself; [done |].
  apply walk_session; [intros; apply walk_persist |]. intros host session Hd. unfold createIssueCommentRecord.
  apply walk_times. intros Hc Hu. eapply walk_put; [reflexivity | | walk].
  apply issue.ValidateRecordKey_Ok in Hk as Hrk. apply heard_intro; try done; [known_collection | |].
  - unfold federation.checkRecordKey. cbn -[issue.ValidateRecordKey]. by rewrite Hk.
  - intros cid raw Hcid Hj. eapply comment_decodes; try done; try by apply stamp_reads.
    + intros parent Hp. rewrite Hp in Hself. by apply String.eqb_neq.
    + apply ordered_written; try done. unfold issue.CommentRecord_Validate in Hv.
      rewrite !bind_unit_Ok, !reject_Ok, issue.validateTimes_Ok in Hv. tauto.
Qed.

(** ** Statuses, and the creation time of their slot *)

(** The history of a publisher, which a status depends on. *)
Section history.
Context (did : string) (P : list (event effect) -> putRecordInput -> federation.payload -> Prop).
Context (P_more : forall h t input v, P h input v -> P (h ++ t) input v).
Abbreviation follows := (wp (fun h => posts did (P h))).
Abbreviation ended := (fun (_ : list (event effect)) (_ : _) => True).

Lemma follows_every {A} (p : prog effect A) h : every (posts did (P h)) p -> follows p ended h.
Proof.
  enough (Ht : forall t, every (posts did (P h)) p -> follows p ended (h ++ t)).
  { specialize (Ht []). by rewrite app_nil_r in Ht. }
  induction p as [a | X e k IH]; intros t; cbn; [done |]. intros [He Hk]. split.
  - destruct e; try done. destruct He as (? & v & Hv & ?). split; [done |]. exists v. split; [by apply P_more | done].
  - intros x. rewrite <- app_assoc. apply IH, Hk.
Qed.
Lemma follows_bind {A B} (p : prog effect A) (f : A -> prog effect B) h :
  follows p ended h -> (forall t a, follows (f a) ended (h ++ t)) -> follows (prog_bind p f) ended h.
Proof.
  intros Hp Hf. apply wp_bind. eapply wp_mono; [| by apply wp_history].
  cbn. intros h' a [_ [t ->]]. apply Hf.
Qed.
Lemma follows_quiet {A B} (p : prog effect A) (f : A -> prog effect B) h :
  every (posts did (fun _ _ => False)) p -> (forall t a, follows (f a) ended (h ++ t)) ->
  follows (prog_bind p f) ended h.
Proof.
  intros Hp Hf. apply follows_bind; [| exact Hf]. apply follows_every. eapply every_mono; [| exact Hp].
  intros X [] He; try done. by destruct He as (_ & ? & [] & _).
Qed.

Lemma follows_resolve {A} pkg (f : string * Identity * string -> svc effect A) :
  (forall identity host h, canonical_did did -> follows (f (did, identity, host)) ended h) ->
  follows (svc_bind (resolveIdentity pkg did) f) ended [].
Proof.
  intros Hf. unfold resolveIdentity. destruct (ParseDID did) as [d |] eqn:Hd; [| done].
  destruct (String.eqb_spec (DID_String d) did) as [E |]; cbn [negb]; [| done].
  assert (Hc : canonical_did did) by (by exists d). split; [done |].
  intros [[found |] | e]; cbn; [| done | done]. destruct (negb _); cbn; [done |].
  destruct (canonicalPDSHost _) as [host |]; cbn; [by apply Hf | done].
Qed.

(** What is done in a session, whatever came before it. *)
Lemma follows_session {A} pkg (persist : SessionData -> svc effect unit)
    (operation : string -> string -> SessionData -> svc effect A) :
  (forall session, every (posts did (fun _ _ => False)) (persist session)) ->
  (forall host session h, canonical_did did -> follows (operation host did session) ended h) ->
  follows (withSession (resolveIdentity pkg) (resumePackageSession pkg) persist did operation) ended [].
Proof.
  intros Hp Ho. apply follows_resolve. intros identity host h Hd. split; [done |]. intros []. cbn [prog_bind].
  apply follows_bind; [| intros t r; split; [done | intros []; exact I]].
  apply follows_quiet; [apply walk_resume |]. intros t [session | e]; [| done].
  apply follows_bind; [by apply Ho |]. intros t' r. apply follows_quiet; [apply Hp |]. by intros t'' p.
Qed.
End history.

(** The creation time a status is posted with: that of the status read before in the slot
    that is written, over that very version of it, or [fresh] if there was none. *)
Definition keeps (current : getRecordOutput -> string -> string -> result (string * time)) (did : string)
    (fresh : time) (h : list (event effect)) (input : putRecordInput) (createdAt : time) : Prop :=
  exists host session answer,
    Ev (GetRecord host (Some session) (Put_Collection input) did (Put_RKey input)) answer ∈ h /\
    match answer with
    | inl existing =>
        exists cid, current existing did (Put_RKey input) = Ok (cid, createdAt) /\ SwapRecord input = MustBe cid
    | inr err => isRecordNotFound err = true /\ SwapRecord input = MustNotExist /\ createdAt = written_time fresh
    end.
Lemma keeps_more current did fresh h t input createdAt :
  keeps current did fresh h input createdAt -> keeps current did fresh (h ++ t) input createdAt.
Proof. intros (host & session & answer & Hin & Ha). exists host, session, answer. split; [set_solver | done]. Qed.

Lemma follows_optional {A} did P pkg host session collection rkey (f : option getRecordOutput -> svc effect A) h :
  (forall existing, wp (fun h => posts did (P h)) (f (Some existing)) (fun _ _ => True)
     (h ++ [Ev (GetRecord host (Some session) collection did rkey) (inl existing)])) ->
  (forall err, isRecordNotFound err = true -> wp (fun h => posts did (P h)) (f None) (fun _ _ => True)
     (h ++ [Ev (GetRecord host (Some session) collection did rkey) (inr err)])) ->
  wp (fun h => posts did (P h)) (svc_bind (getOptionalRecord pkg host session collection did rkey) f)
    (fun _ _ => True) h.
Proof.
  intros Hsome Hnone. split; [done |]. intros [existing | err]; cbn; [apply Hsome |].
  destruct (isRecordNotFound err) eqn:He; [by apply Hnone | done].
Qed.
Lemma follows_lift {A B} did P (r : result A) (f : A -> svc effect B) h :
  (forall a, r = Ok a -> wp (fun h => posts did (P h)) (f a) (fun _ _ => True) h) ->
  wp (fun h => posts did (P h)) (svc_bind (lift r) f) (fun _ _ => True) h.
Proof. destruct r; cbn; auto. Qed.

(** The version and the creation time of a status. *)
Definition issue_slot (existing : getRecordOutput) (did rkey : string) : result (string * time) :=
  let* current := decodeIssueStatus existing did rkey in
  Ok (issue.Status_CID current, issue.Status_CreatedAt (issue.Status_Record current)).
(** What a status is read back as, with its creation time. *)
Definition issue_status_payload (r : issue.StatusRecord) (createdAt : time) : federation.payload :=
  federation.IssueStatusPayload (issue.mkStatusRecord (issue.Status_Subject r)
    (issue.Status_Repository r) (issue.Status_State r) createdAt (written_time (issue.Status_UpdatedAt r))).
Definition issue_status (did : string) (r : issue.StatusRecord) (h : list (event effect))
    (input : putRecordInput) (v : federation.payload) : Prop :=
  exists createdAt, keeps issue_slot did (issue.Status_CreatedAt r) h input createdAt /\
    v = issue_status_payload r createdAt.
(** A write over the version [swap] of a slot. *)
Definition over (collection rkey : string) (swap : swap) (v : federation.payload) (input : putRecordInput)
    (v' : federation.payload) : Prop :=
  Put_Collection input = collection /\ Put_RKey input = rkey /\ SwapRecord input = swap /\ v' = v.

Lemma walk_write_issue_status did r swap rkey host session :
  canonical_did did -> issue.StatusRecord_Validate r = Ok tt ->
  issue.StatusRecordKey (issue.URI (issue.Status_Subject r)) = Ok rkey ->
  (readable (issue.Status_CreatedAt r) -> readable (issue.Status_UpdatedAt r) ->
   ordered_times (written_time (issue.Status_CreatedAt r)) (written_time (issue.Status_UpdatedAt r))) ->
  every (posts did (over issue.StatusCollection rkey swap (issue_status_payload r (written_time (issue.Status_CreatedAt r)))))
    (writeIssueStatus r swap rkey host did session).
Proof.
  intros Hd Hv Hk Ho. unfold writeIssueStatus. apply walk_times. intros Hc Hu.
  eapply walk_put; [by split_and! | | walk].
  pose proof (proj1 (issue.StatusRecordKey_Ok _ _) Hk) as [_ Hrk].
  destruct (digest_rkey rkey _ Hrk) as [Hkey Hmatch]. apply heard_intro; try done; [known_collection | |].
  - unfold federation.checkRecordKey. cbn -[federation.match_star_rkey]. by rewrite Hmatch.
  - intros cid raw _ Hj. eapply issue_status_decodes;
      [exact Hv | exact Hk | exact (stamp_reads _ Hc) | exact (stamp_reads _ Hu) | auto | exact Hj].
Qed.

(** Takes a decoder that succeeded apart. *)
Ltac ok_inv :=
  repeat (match goal with
  | h : Ok _ = Ok _ |- _ => injection h as h; subst
  | h : Err _ = Ok _ |- _ => discriminate h
  | h : mbind _ _ = Ok _ |- _ => apply bind_Ok in h as (? & ? & h)
  | h : reject _ _ _ = Ok _ |- _ => apply reject_Ok in h as [? h]
  | h : parseCanonicalTime _ _ = Ok _ |- _ => apply parsed_time in h as (_ & ? & ?)
  | x : unit |- _ => destruct x
  end; cbn beta iota zeta in * ).

Lemma decodeIssueStatus_Ok output did rkey current :
  decodeIssueStatus output did rkey = Ok current ->
  let old := issue.Status_Record current in
  issue.StatusRecord_Validate old = Ok tt /\ written_time (issue.Status_CreatedAt old) = issue.Status_CreatedAt old /\
  written_time (issue.Status_UpdatedAt old) = issue.Status_UpdatedAt old /\ readable (issue.Status_UpdatedAt old).
Proof.
  unfold decodeIssueStatus. destruct (Get_CID output), (Value output); try done.
  unfold parseCanonicalIssueTime. intros Hd. ok_inv. destruct (issue.RepositoryOwnerDID _); [| done]. by ok_inv.
Qed.

Lemma follows_issue_status did r :
  resolution <= issue.Status_CreatedAt r ->
  wp (fun h => posts did (issue_status did r h)) (PutIssueStatus did r) (fun _ _ => True) [].
Proof.
  intros Hl. unfold PutIssueStatus. apply follows_lift. intros [] Hv. apply follows_lift. intros owner _.
  destruct (negb _); [done |]. apply follows_lift. intros rkey Hk.
  assert (Hmore : forall h t input v, issue_status did r h input v -> issue_status did r (h ++ t) input v).
  { intros h t input v (c & ? & ?). exists c. split; [by apply keeps_more | done]. }
  apply follows_session; [exact Hmore | intros; apply walk_persist |].
  intros host session h Hd. unfold putIssueStatusRecord.
  assert (Ho : ordered_times (issue.Status_CreatedAt r) (issue.Status_UpdatedAt r)).
  { apply issue.StatusRecord_Validate_Ok in Hv. tauto. }
  apply follows_optional; [intros existing | intros err He].
  2: { apply follows_every; [exact Hmore |]. refine (every_mono _ _ _ _ (walk_write_issue_status did r MustNotExist rkey host session Hd Hv Hk _)).
       - intros X [] Hp; try done. destruct Hp as (? & v & (Hc & Hr & Hs & ->) & ?). split; [done |].
         eexists. split; [| done]. eexists. split; [| done]. exists host, session, (inr err).
         rewrite Hc, Hr. split; [set_solver | done].
       - intros Hc Hu. by apply ordered_written. }
  apply follows_lift. intros current Hdec%mapErr_Ok. cbn zeta. destruct (_ || _); [done |].
  destruct (sameStatusRecord _ _); [done |]. destruct (After _ _) eqn:Hafter; cbn [negb]; [| done].
  destruct (decodeIssueStatus_Ok _ _ _ _ Hdec) as (Hold & Hwc & Hwu & Hru).
  apply issue.StatusRecord_Validate_Ok in Hold as (_ & _ & _ & Hot). apply Z.ltb_lt in Hafter.
  destruct (slot_times _ _ _ _ Hwc Hwu Hru Hot Ho Hl Hafter) as [Hcn Hwn]. apply follows_every; [exact Hmore |].
  refine (every_mono _ _ _ _ (walk_write_issue_status did (status_created r _) (MustBe _) rkey host session Hd _ Hk _)).
  - intros X [] Hp; try done. destruct Hp as (? & v & (Hc & Hr & Hs & ->) & Hh). split; [done |].
    eexists. split; [| exact Hh]. eexists. split; [| done]. exists host, session, (inl existing).
    rewrite Hc, Hr. split; [set_solver |]. eexists. split; [| exact Hs]. unfold issue_slot. rewrite Hdec. cbn.
    by rewrite Hwc.
  - apply issue.StatusRecord_Validate_Ok in Hv as (Hs & Hr & Hst & _). by apply issue.StatusRecord_Validate_Ok.
  - intros _. exact Hwn.
Qed.

Lemma walk_pull_request did rkey r :
  resolution <= pullrequest.CreatedAt r ->
  every (posts did (only (federation.PullRequestPayload (pullrequest.mkRecord (pullrequest.SourceRepository r)
    (pullrequest.TargetRepository r) (pullrequest.SourceBranch r) (pullrequest.TargetBranch r)
    (pullrequest.HeadSHA r) (pullrequest.Title r) (pullrequest.Body r)
    (written_time (pullrequest.CreatedAt r)) (written_time (pullrequest.UpdatedAt r))))))
    (CreatePullRequest did rkey r).
Proof.
  intros Hl. unfold CreatePullRequest. apply walk_lift. intros [] Hk. apply walk_lift. intros [] Hv.
  apply walk_session; [intros; apply walk_persist |]. intros host session Hd. unfold createPullRequestRecord.
  apply walk_times. intros Hc Hu. eapply walk_put; [reflexivity | | walk].
  apply pullrequest.pr_ValidateRecordKey_Ok in Hk as Hrk. apply heard_intro; try done; [known_collection | |].
  - unfold federation.checkRecordKey. cbn -[pullrequest.ValidateRecordKey]. by rewrite Hk.
  - intros cid raw Hcid Hj. eapply pull_request_decodes;
      [exact Hd | exact Hrk | exact Hcid | exact Hv | exact (stamp_reads _ Hc) | exact (stamp_reads _ Hu) | | exact Hj].
    apply ordered_written; try done. unfold pullrequest.Record_Validate in Hv.
    rewrite !bind_unit_Ok, !reject_Ok, !bind_unit_Ok, !reject_Ok, pullrequest.pr_validateTimes_Ok in Hv. tauto.
Qed.

Lemma walk_review did rkey r :
  resolution <= pullrequest.Review_CreatedAt r ->
  every (posts did (only (federation.PullRequestReviewPayload (pullrequest.mkReviewRecord
    (pullrequest.Review_Subject r) (pullrequest.Review_Verdict r) (pullrequest.Review_Body r)
    (written_time (pullrequest.Review_CreatedAt r)) (written_time (pullrequest.Review_UpdatedAt r))))))
    (CreatePullRequestReview did rkey r).
Proof.
  intros Hl. unfold CreatePullRequestReview. apply walk_lift. intros [] Hk. apply walk_lift. intros [] Hv.
  apply walk_session; [intros; apply walk_persist |]. intros host session Hd. unfold createReviewRecord.
  apply walk_times. intros Hc Hu. eapply walk_put; [reflexivity | | walk].
  apply pullrequest.pr_ValidateRecordKey_Ok in Hk as Hrk. apply heard_intro; try done; [known_collection | |].
  - unfold federation.checkRecordKey. cbn -[pullrequest.ValidateRecordKey]. by rewrite Hk.
  - intros cid raw Hcid Hj. eapply review_decodes;
      [exact Hd | exact Hrk | exact Hcid | exact Hv | exact (stamp_reads _ Hc) | exact (stamp_reads _ Hu) | | exact Hj].
    apply ordered_written; try done. unfold pullrequest.ReviewRecord_Validate in Hv.
    rewrite !bind_unit_Ok, !reject_Ok, pullrequest.pr_validateTimes_Ok in Hv. tauto.
Qed.

Definition pull_slot (existing : getRecordOutput) (did rkey : string) : result (string * time) :=
  let* current := decodePullRequestStatus existing did rkey in
  Ok (pullrequest.Status_CID current, pullrequest.Status_CreatedAt (pullrequest.Status_Record current)).
Definition pull_status_payload (r : pullrequest.StatusRecord) (createdAt : time) : federation.payload :=
  federation.PullRequestStatusPayload (pullrequest.mkStatusRecord
    (pullrequest.Status_Subject r) (pullrequest.Status_TargetRepository r) (pullrequest.Status_State r)
    (pullrequest.MergeCommitSHA r) createdAt (written_time (pullrequest.Status_UpdatedAt r))).
Definition pull_status (did : string) (r : pullrequest.StatusRecord) (h : list (event effect))
    (input : putRecordInput) (v : federation.payload) : Prop :=
  exists createdAt, keeps pull_slot did (pullrequest.Status_CreatedAt r) h input createdAt /\
    v = pull_status_payload r createdAt.

Lemma walk_write_pull_status did r swap rkey host session :
  canonical_did did -> pullrequest.StatusRecord_Validate r = Ok tt ->
  pullrequest.StatusRecordKey (pullrequest.URI (pullrequest.Status_Subject r)) = Ok rkey ->
  (readable (pullrequest.Status_CreatedAt r) -> readable (pullrequest.Status_UpdatedAt r) ->
   ordered_times (written_time (pullrequest.Status_CreatedAt r)) (written_time (pullrequest.Status_UpdatedAt r))) ->
  every (posts did (over pullrequest.StatusCollection rkey swap
      (pull_status_payload r (written_time (pullrequest.Status_CreatedAt r)))))
    (writePullRequestStatus r swap rkey host did session).
Proof.
  intros Hd Hv Hk Ho. unfold writePullRequestStatus. apply walk_times. intros Hc Hu.
  eapply walk_put; [by split_and! | | walk].
  pose proof (proj1 (pullrequest.pr_StatusRecordKey_Ok _ _) Hk) as [_ Hrk].
  destruct (digest_rkey rkey _ Hrk) as [Hkey Hmatch]. apply heard_intro; try done; [known_collection | |].
  - unfold federation.checkRecordKey. cbn -[federation.match_star_rkey]. by rewrite Hmatch.
  - intros cid raw _ Hj. eapply pull_status_decodes;
      [exact Hv | exact Hk | exact (stamp_reads _ Hc) | exact (stamp_reads _ Hu) | auto | exact Hj].
Qed.

Lemma pull_status_times r :
  pullrequest.StatusRecord_Validate r = Ok tt ->
  ordered_times (pullrequest.Status_CreatedAt r) (pullrequest.Status_UpdatedAt r) /\
  forall c, ordered_times c (pullrequest.Status_UpdatedAt r) ->
    pullrequest.StatusRecord_Validate (pull_status_created r c) = Ok tt.
Proof.
  unfold pullrequest.StatusRecord_Validate. rewrite !bind_unit_Ok, !reject_Ok, !bind_unit_Ok.
  rewrite pullrequest.pr_validateTimes_Ok. intros (? & ? & ? & ? & Ho). split; [done |]. intros c Hc.
  rewrite !bind_unit_Ok, !reject_Ok, !bind_unit_Ok, pullrequest.pr_validateTimes_Ok. done.
Qed.

Lemma decodePullRequestStatus_Ok output did rkey current :
  decodePullRequestStatus output did rkey = Ok current ->
  let old := pullrequest.Status_Record current in
  pullrequest.StatusRecord_Validate old = Ok tt /\
  written_time (pullrequest.Status_CreatedAt old) = pullrequest.Status_CreatedAt old /\
  written_time (pullrequest.Status_UpdatedAt old) = pullrequest.Status_UpdatedAt old /\
  readable (pullrequest.Status_UpdatedAt old).
Proof.
  unfold decodePullRequestStatus. destruct (Get_CID output), (Value output); try done.
  unfold parseCanonicalPullRequestTime. intros Hd. ok_inv. destruct (pullrequest.RepositoryOwnerDID _); [| done]. by ok_inv.
Qed.

Lemma follows_pull_status did r :
  resolution <= pullrequest.Status_CreatedAt r ->
  wp (fun h => posts did (pull_status did r h)) (PutPullRequestStatus did r) (fun _ _ => True) [].
Proof.
  intros Hl. unfold PutPullRequestStatus. apply follows_lift. intros [] Hv. apply follows_lift. intros owner _.
  destruct (negb _); [done |]. apply follows_lift. intros rkey Hk.
  assert (Hmore : forall h t input v, pull_status did r h input v -> pull_status did r (h ++ t) input v).
  { intros h t input v (c & ? & ?). exists c. split; [by apply keeps_more | done]. }
  apply follows_session; [exact Hmore | intros; apply walk_persist |].
  intros host session h Hd. unfold putPullRequestStatusRecord.
  destruct (pull_status_times r Hv) as [Ho Hre]. apply follows_optional; [intros existing | intros err He].
  2: { apply follows_every; [exact Hmore |]. refine (every_mono _ _ _ _ (walk_write_pull_status did r MustNotExist rkey host session Hd Hv Hk _)).
       - intros X [] Hp; try done. destruct Hp as (? & v & (Hc & Hr & Hs & ->) & ?). split; [done |].
         eexists. split; [| done]. eexists. split; [| done]. exists host, session, (inr err).
         rewrite Hc, Hr. split; [set_solver | done].
       - intros Hc Hu. by apply ordered_written. }
  apply follows_lift. intros current Hdec%mapErr_Ok. cbn zeta. destruct (_ || _); [done |].
  destruct (samePullRequestStatusRecord _ _); [done |]. destruct (After _ _) eqn:Hafter; cbn [negb]; [| done].
  destruct (decodePullRequestStatus_Ok _ _ _ _ Hdec) as (Hold & Hwc & Hwu & Hru).
  apply pull_status_times in Hold as [Hot _]. apply Z.ltb_lt in Hafter.
  destruct (slot_times _ _ _ _ Hwc Hwu Hru Hot Ho Hl Hafter) as [Hcn Hwn]. apply follows_every; [exact Hmore |].
  refine (every_mono _ _ _ _ (walk_write_pull_status did (pull_status_created r _) (MustBe _) rkey host session Hd (Hre _ Hcn) Hk _)).
  - intros X [] Hp; try done. destruct Hp as (? & v & (Hc & Hr & Hs & ->) & Hh). split; [done |].
    eexists. split; [| exact Hh]. eexists. split; [| done]. exists host, session, (inl existing).
    rewrite Hc, Hr. split; [set_solver |]. eexists. split; [| exact Hs]. unfold pull_slot. rewrite Hdec. cbn.
    by rewrite Hwc.
  - intros _. exact Hwn.
Qed.

Lemma walk_put_triage {B} did P host session collection rkey swap record v
    (f : putRecordOutput + getRecordOutput -> svc effect B) :
  P (mkPut collection did rkey swap record) v -> heard did v (mkPut collection did rkey swap record) ->
  (forall r, every (posts did P) (f r)) ->
  every (posts did P) (svc_bind (putTriageRecord host session did collection rkey swap record) f).
Proof.
  intros Hv Hh Hf. apply every_then; [| exact Hf]. unfold putTriageRecord. refine (walk_put did P host session _ _ _ _ v _ Hv Hh _).
  intros [output | err]; [done |]. destruct (negb _); [done |]. apply walk_optional. by intros [|].
Qed.

Lemma owner_Ok did repositoryURI : requireRepositoryOwner did repositoryURI = Ok tt ->
  triage.RepositoryOwnerDID repositoryURI = Ok did.
Proof.
  unfold requireRepositoryOwner. destruct (triage.RepositoryOwnerDID repositoryURI); [| done].
  rewrite reject_Ok, neq_false. by intros [-> _].
Qed.

Definition label_payload (r : triage.LabelRecord) : federation.payload :=
  federation.RepositoryLabelPayload (triage.mkLabelRecord (triage.Label_Repository r) (triage.Name r)
    (triage.Color r) (triage.Description r) (written_time (triage.Label_CreatedAt r))
    (written_time (triage.Label_UpdatedAt r))).
Lemma walk_label did rkey swapCID r :
  resolution <= triage.Label_CreatedAt r ->
  every (posts did (only (label_payload r))) (publishLabel did rkey swapCID r).
Proof.
  intros Hl. unfold publishLabel. apply walk_lift. intros [] Hk. apply walk_lift. intros [] Hv.
  apply walk_lift. intros [] Howner%owner_Ok.
  apply walk_session; [intros; apply walk_persist |]. intros host session Hd. unfold publishLabelRecord.
  apply walk_times. intros Hc Hu. eapply walk_put_triage; [reflexivity | | walk].
  apply triage.triage_ValidateRecordKey_Ok in Hk as Hrk. apply heard_intro; try done; [known_collection | |].
  - unfold federation.checkRecordKey. cbn -[triage.ValidateRecordKey]. by rewrite Hk.
  - intros cid raw Hcid Hj. eapply label_decodes; [exact Hd | exact Hrk | exact Hcid | exact Hv | exact Howner
      | exact (stamp_reads _ Hc) | exact (stamp_reads _ Hu) | | exact Hj].
    apply ordered_written; try done. unfold triage.LabelRecord_Validate in Hv.
    rewrite !bind_unit_Ok, !reject_Ok, triage.triage_validateTimes_Ok in Hv. tauto.
Qed.

Definition milestone_payload (r : triage.MilestoneRecord) : federation.payload :=
  federation.RepositoryMilestonePayload (triage.mkMilestoneRecord (triage.Milestone_Repository r)
    (triage.Title r) (triage.Milestone_Description r) (triage.Milestone_State r)
    (written_time <$> triage.DueAt r) (written_time <$> triage.ClosedAt r)
    (written_time (triage.Milestone_CreatedAt r)) (written_time (triage.Milestone_UpdatedAt r))).
Lemma walk_milestone did rkey swapCID r :
  resolution <= triage.Milestone_CreatedAt r ->
  (forall t, triage.DueAt r = Some t \/ triage.ClosedAt r = Some t -> readable t) ->
  every (posts did (only (milestone_payload r))) (publishMilestone did rkey swapCID r).
Proof.
  intros Hl Hopt. unfold publishMilestone. apply walk_lift. intros [] Hk. apply walk_lift. intros [] Hv.
  apply walk_lift. intros [] Howner%owner_Ok.
  apply walk_session; [intros; apply walk_persist |]. intros host session Hd. unfold publishMilestoneRecord.
  apply walk_times. intros Hc Hu. eapply walk_put_triage; [reflexivity | | walk].
  apply triage.triage_ValidateRecordKey_Ok in Hk as Hrk. apply heard_intro; try done; [known_collection | |].
  - unfold federation.checkRecordKey. cbn -[triage.ValidateRecordKey]. by rewrite Hk.
  - intros cid raw Hcid Hj. eapply milestone_decodes; [exact Hd | exact Hrk | exact Hcid | exact Hv | exact Howner
      | exact (stamp_reads _ Hc) | exact (stamp_reads _ Hu) | | split; [done | auto] | split; [done | auto] | exact Hj].
    apply ordered_written; try done. unfold triage.MilestoneRecord_Validate in Hv.
    rewrite !bind_unit_Ok, !reject_Ok, triage.triage_validateTimes_Ok in Hv. tauto.
Qed.

Definition metadata_payload (r : triage.MetadataRecord) (nil_labels nil_assignees : bool) : federation.payload :=
  federation.SubjectTriagePayload
    (triage.mkMetadataRecord (triage.Subject r) (triage.Kind r) (triage.Metadata_Repository r)
       (triage.LabelURIs r) (triage.AssigneeDIDs r) (triage.MilestoneURI r)
       (written_time (triage.CreatedAt r)) (written_time (triage.UpdatedAt r))) nil_labels nil_assignees.
Lemma walk_metadata did swapCID r nil_labels nil_assignees :
  resolution <= triage.CreatedAt r ->
  (nil_labels = true -> triage.LabelURIs r = []) -> (nil_assignees = true -> triage.AssigneeDIDs r = []) ->
  every (posts did (only (metadata_payload r nil_labels nil_assignees)))
    (PutSubjectTriage did swapCID r nil_labels nil_assignees).
Proof.
  intros Hl Hnl Hna. unfold PutSubjectTriage. apply walk_lift. intros [] Hv.
  apply walk_lift. intros [] Howner%owner_Ok. apply walk_lift. intros rkey Hk.
  apply walk_session; [intros; apply walk_persist |]. intros host session Hd. unfold putMetadataRecord.
  apply walk_times. intros Hc Hu. eapply walk_put_triage; [reflexivity | | walk].
  assert (Hrk : exists m, rkey = ToLower (base32_Encode (Sum256 m))).
  { revert Hk. unfold triage.MetadataRecordKey. destruct (ParseATURI _); [| done]. destruct (_ || _); [done |].
    intros [= <-]. by eexists. }
  destruct Hrk as [m Hm]. destruct (digest_rkey rkey m Hm) as [Hkey Hmatch].
  apply heard_intro; try done; [known_collection | |].
  - unfold federation.checkRecordKey. cbn -[federation.match_star_rkey]. by rewrite Hmatch.
  - intros cid raw Hcid Hj. unfold metadata_payload. eapply metadata_decodes; [exact Hd | exact Hkey | exact Hcid | exact Hv | exact Howner
      | exact Hk | exact Hnl | exact Hna | exact (stamp_reads _ Hc) | exact (stamp_reads _ Hu) | | exact Hj].
    apply ordered_written; try done. apply triage.MetadataRecord_Validate_Ok in Hv.
    unfold triage.well_formed_metadata in Hv. tauto.
Qed.

Lemma walk_profile did r :
  readable (profile.Record_CreatedAt r) ->
  every (posts did (only (federation.ProfilePayload (federation.mkProfileRecord (profile.Record_DisplayName r)
    (profile.Record_Bio r) (profile.Record_Website r) (profile.Record_Location r)
    (written_time (profile.Record_CreatedAt r)))))) (Put did r).
Proof.
  intros Hc. unfold Put. destruct (IsZero _); [done |]. apply walk_lift. intros [] Hv.
  apply walk_resolve. intros identity host Hd. split; [done |]. intros []. cbn [prog_bind].
  apply every_bind; [| intros r'; split; [done | intros []; exact I]].
  apply every_then; [apply walk_resume |]. intros session. eapply walk_put; [reflexivity | |].
  - apply heard_intro; try done; [known_collection | |].
    + apply ParseRecordKey_grammar. reflexivity.
    + intros cid raw _ Hj. eapply profile_decodes; [exact Hv | exact (stamp_reads _ Hc) | exact Hj].
  - intros r'. split; [done |]. intros p'. cbn [prog_bind]. apply walk_lift. intros output _.
    apply walk_lift. intros result _. exact I.
Qed.

(** ** What is published is understood *)

(** That record, whatever came before. *)
Abbreviation just v := (fun _ : list (event effect) => only v).

(** The publishers whose records are checked before they are posted, by the account
    [did], with what every instance reads of the record. *)
Inductive publishes (did : string) : forall A, svc effect A ->
    (list (event effect) -> putRecordInput -> federation.payload -> Prop) -> Prop :=
| publishes_star target t :
    publishes did _ (CreateStar did target t)
      (just (federation.StarPayload (federation.mkStarRecord (star.Target_URI target) (star.Target_CID target)
             (written_time t))))
| publishes_issue rkey r :
    utf8 (issue.Title r) -> utf8 (issue.Body r) -> resolution <= issue.CreatedAt r ->
    publishes did _ (CreateIssue did rkey r)
      (just (federation.IssuePayload (issue.mkRecord (issue.Repository r) (issue.Title r) (issue.Body r)
             (written_time (issue.CreatedAt r)) (written_time (issue.UpdatedAt r)))))
| publishes_comment rkey r :
    utf8 (issue.Comment_Body r) -> resolution <= issue.Comment_CreatedAt r ->
    publishes did _ (CreateIssueComment did rkey r)
      (just (federation.IssueCommentPayload (issue.mkCommentRecord (issue.Subject r) (issue.Parent r)
             (issue.Comment_Body r) (written_time (issue.Comment_CreatedAt r))
             (written_time (issue.Comment_UpdatedAt r)))))
| publishes_issue_status r :
    resolution <= issue.Status_CreatedAt r -> publishes did _ (PutIssueStatus did r) (issue_status did r)
| publishes_pull_request rkey r :
    resolution <= pullrequest.CreatedAt r ->
    publishes did _ (CreatePullRequest did rkey r)
      (just (federation.PullRequestPayload (pullrequest.mkRecord (pullrequest.SourceRepository r)
             (pullrequest.TargetRepository r) (pullrequest.SourceBranch r) (pullrequest.TargetBranch r)
             (pullrequest.HeadSHA r) (pullrequest.Title r) (pullrequest.Body r)
             (written_time (pullrequest.CreatedAt r)) (written_time (pullrequest.UpdatedAt r)))))
| publishes_review rkey r :
    resolution <= pullrequest.Review_CreatedAt r ->
    publishes did _ (CreatePullRequestReview did rkey r)
      (just (federation.PullRequestReviewPayload (pullrequest.mkReviewRecord (pullrequest.Review_Subject r)
             (pullrequest.Review_Verdict r) (pullrequest.Review_Body r)
             (written_time (pullrequest.Review_CreatedAt r)) (written_time (pullrequest.Review_UpdatedAt r)))))
| publishes_pull_status r :
    resolution <= pullrequest.Status_CreatedAt r -> publishes did _ (PutPullRequestStatus did r) (pull_status did r)
| publishes_new_label rkey r :
    resolution <= triage.Label_CreatedAt r -> publishes did _ (CreateLabel did rkey r) (just (label_payload r))
| publishes_label rkey swapCID r :
    resolution <= triage.Label_CreatedAt r -> publishes did _ (PutLabel did rkey swapCID r) (just (label_payload r))
| publishes_new_milestone rkey r :
    resolution <= triage.Milestone_CreatedAt r ->
    (forall t, triage.DueAt r = Some t \/ triage.ClosedAt r = Some t -> readable t) ->
    publishes did _ (CreateMilestone did rkey r) (just (milestone_payload r))
| publishes_milestone rkey swapCID r :
    resolution <= triage.Milestone_CreatedAt r ->
    (forall t, triage.DueAt r = Some t \/ triage.ClosedAt r = Some t -> readable t) ->
    publishes did _ (PutMilestone did rkey swapCID r) (just (milestone_payload r))
| publishes_metadata swapCID r nil_labels nil_assignees :
    resolution <= triage.CreatedAt r ->
    (nil_labels = true -> triage.LabelURIs r = []) -> (nil_assignees = true -> triage.AssigneeDIDs r = []) ->
    publishes did _ (PutSubjectTriage did swapCID r nil_labels nil_assignees)
      (just (metadata_payload r nil_labels nil_assignees))
| publishes_profile r :
    readable (profile.Record_CreatedAt r) ->
    publishes did _ (Put did r)
      (just (federation.ProfilePayload (federation.mkProfileRecord (profile.Record_DisplayName r)
             (profile.Record_Bio r) (profile.Record_Website r) (profile.Record_Location r)
             (written_time (profile.Record_CreatedAt r))))).

Lemma every_posts did v A (p : svc effect A) :
  every (posts did (only v)) p -> guarded (fun h => posts did (just v h)) p.
Proof. apply every_guarded. Qed.
Lemma publishes_posts did A p P : publishes did A p P -> guarded (fun h => posts did (P h)) p.
Proof.
  intros Hp. destruct Hp.
  4: { eapply wp_guarded. by apply follows_issue_status. }
  6: { eapply wp_guarded. by apply follows_pull_status. }
  all: apply every_posts.
  - apply walk_star.
  - by apply walk_issue.
  - by apply walk_comment.
  - by apply walk_pull_request.
  - by apply walk_review.
  - by apply walk_label.
  - apply walk_lift. intros [] _. by apply walk_label.
  - by apply walk_milestone.
  - apply walk_lift. intros [] _. by apply walk_milestone.
  - by apply walk_metadata.
  - by apply walk_profile.
Qed.

(** C6: What this program publishes, every instance reads as it was written.  Whatever the
    directory, the session store and the server answer, a star, issue, comment, issue
    status, pull request, review, pull request status, label, milestone, triage or profile
    is posted to the repository of its author, as a map any JSON of which, members in any
    order, any Tap event may carry: the decoder of events accepts it, under the author,
    the collection, the key and the URI it was posted to, and gives back the record, its
    times to the resolution of the layout.  A status is posted with the creation time of the
    status that was read in its slot, over that version of it, or with its own if the slot
    was found empty, and then only if it still is. *)
Theorem published_records_heard did A p P :
  publishes did A p P -> guarded (fun h => posts did (P h)) p.
Proof. apply publishes_posts. Qed.

(** ** Sessions *)

(** Where a publisher stands: nothing known, given up, the host of the account known, its
    lock held, its latest session named, its session open, done with it, lock released. *)
Inductive phase :=
| Start
| Refused
| Named (host : string)
| Held (host : string)
| Loaded (host id : string)
| Ready (host : string) (session : SessionData)
| Leaving
| Finished.

#[local] Instance session_eq : EqDecision SessionData.
Proof. solve_decision. Defined.

(** A request to the server of the account, with its session, about its own repository. *)
Definition request (did host : string) (session : SessionData) (X : Type) (e : effect X) : Prop :=
  match e with
  | PutRecord h s input => h = host /\ s = session /\ Put_Repo input = did
  | DeleteRecord h s input => h = host /\ s = session /\ Delete_Repo input = did
  | GetRecord h s _ repo _ => h = host /\ s = Some session /\ repo = did
  | _ => False
  end.

(** What may happen next to the account [did], and where it leads. *)
Inductive next (did : string) : phase -> event effect -> phase -> Prop :=
| next_found identity host :
    Identity_DID identity = did -> canonicalPDSHost (PDSEndpoint identity) = Ok host ->
    next did Start (Ev (LookupDID did) (Ok (Some identity))) (Named host)
| next_refused answer : next did Start (Ev (LookupDID did) answer) Refused
| next_lock host : next did (Named host) (Ev (Lock did) tt) (Held host)
| next_latest host latest :
    next did (Held host) (Ev (GetLatestSession did) (Ok (Some latest))) (Loaded host (SessionID latest))
| next_no_session host answer : next did (Held host) (Ev (GetLatestSession did) answer) Leaving
| next_resumed host id session :
    belongs session did host = true ->
    next did (Loaded host id) (Ev (ResumeSession did id) (Ok (Some session))) (Ready host session)
| next_not_resumed host id answer : next did (Loaded host id) (Ev (ResumeSession did id) answer) Leaving
| next_request host session X (e : effect X) answer :
    request did host session X e -> next did (Ready host session) (Ev e answer) (Ready host session)
| next_save host session answer : next did (Ready host session) (Ev (SaveSession session) answer) Leaving
| next_unlock : next did Leaving (Ev (Unlock did) tt) Finished.

(** A whole run, and where it may end: the lock is not held any more. *)
Inductive steps (did : string) : phase -> list (event effect) -> phase -> Prop :=
| steps_nil ph : steps did ph [] ph
| steps_cons ph ev ph' tr ph'' :
    next did ph ev ph' -> steps did ph' tr ph'' -> steps did ph (ev :: tr) ph''.
Definition released (ph : phase) : Prop :=
  match ph with Start | Refused | Named _ | Finished => True | _ => False end.

Section tracks.
Context (did : string).

(** [p], begun at [ph], goes on as it may, and ends as [Q] says. *)
Fixpoint tracks {A} (ph : phase) (p : prog effect A) (Q : phase -> A -> Prop) : Prop :=
  match p with
  | Ret a => Q ph a
  | Vis e k => forall x, exists ph', next did ph (Ev e x) ph' /\ tracks ph' (k x) Q
  end.

Lemma tracks_bind {A B} ph (p : prog effect A) (f : A -> prog effect B) Q :
  tracks ph p (fun ph' a => tracks ph' (f a) Q) -> tracks ph (prog_bind p f) Q.
Proof.
  revert ph. induction p as [a | X e k IH]; intros ph; cbn; [done |]. intros Hp x.
  destruct (Hp x) as (ph' & Hn & Hk). exists ph'. auto.
Qed.
Lemma tracks_mono {A} ph (p : prog effect A) (Q R : phase -> A -> Prop) :
  (forall ph' a, Q ph' a -> R ph' a) -> tracks ph p Q -> tracks ph p R.
Proof.
  intros HQR. revert ph. induction p as [a | X e k IH]; intros ph; cbn; [auto |]. intros Hp x.
  destruct (Hp x) as (ph' & Hn & Hk). exists ph'. auto.
Qed.
Lemma tracks_runs {A} (p : prog effect A) Q ph tr a :
  tracks ph p Q -> runs p tr a -> exists ph', steps did ph tr ph' /\ Q ph' a.
Proof.
  revert ph tr. induction p as [b | X e k IH]; intros ph [| ev tr]; cbn; try done.
  - intros HQ <-. exists ph. split; [constructor | done].
  - intros Hp (x & -> & Hr). destruct (Hp x) as (ph1 & Hn & Hk).
    destruct (IH x ph1 tr Hk Hr) as (ph' & Hs & HQ). exists ph'. split; [by econstructor | done].
Qed.
Lemma tracks_requests {A} host session (p : prog effect A) :
  every (request did host session) p -> tracks (Ready host session) p (fun ph _ => ph = Ready host session).
Proof.
  induction p as [a | X e k IH]; cbn; [done |]. intros [He Hk] x. eexists. split; [by apply next_request | auto].
Qed.

Abbreviation ends ph p := (tracks ph p (fun ph' _ => released ph')).

Lemma ends_lift {A B} ph (r : result A) (f : A -> svc effect B) :
  released ph -> (forall a, r = Ok a -> ends ph (f a)) -> ends ph (svc_bind (lift r) f).
Proof. destruct r; cbn; auto. Qed.

Lemma ends_resolve {B} pkg (f : string * Identity * string -> svc effect B) :
  (forall identity host, ends (Named host) (f (did, identity, host))) ->
  ends Start (svc_bind (resolveIdentity pkg did) f).
Proof.
  intros Hf. unfold resolveIdentity. destruct (ParseDID did) as [d |]; [| done].
  destruct (negb _); [done |]. intros [[found |] | e]; cbn.
  2, 3: exists Refused; split; [apply next_refused | done].
  destruct (String.eqb_spec (Identity_DID found) did); cbn [negb].
  2: { exists Refused. split; [apply next_refused | done]. }
  destruct (canonicalPDSHost (PDSEndpoint found)) as [host |] eqn:Hh; cbn.
  - exists (Named host). split; [by apply next_found | apply Hf].
  - exists Refused. split; [apply next_refused | done].
Qed.

(** Under the lock: the session is opened, used, and stored again. *)
Lemma ends_locked {A B} host (session : svc effect SessionData)
    (use : SessionData -> prog effect A) (save : SessionData -> A -> svc effect B) :
  tracks (Held host) session (fun ph r => match r with Ok s => ph = Ready host s | Err _ => ph = Leaving end) ->
  (forall s, every (request did host s) (use s)) ->
  (forall s r, tracks (Ready host s) (save s r) (fun ph _ => ph = Leaving)) ->
  ends (Named host) (locked did (let? s := session in let! r := use s in save s r)).
Proof.
  intros Hs Hu Hp. intros []. exists (Held host). split; [constructor |]. cbn [prog_bind].
  apply tracks_bind. unfold svc_bind. apply tracks_bind. eapply tracks_mono; [| exact Hs].
  intros ph [s | e]; intros ->; cbn.
  - apply tracks_bind. eapply tracks_mono; [| apply tracks_requests, Hu]. intros ph r ->.
    eapply tracks_mono; [| apply Hp]. intros ph b -> []. exists Finished. split; [constructor | done].
  - intros []. exists Finished. split; [constructor | done].
Qed.
End tracks.

Section protocol.
Context (did : string).
Abbreviation ends ph p := (tracks did ph p (fun ph' _ => released ph')).

Definition opens (host : string) (p : svc effect SessionData) : Prop :=
  tracks did (Held host) p (fun ph r => match r with Ok s => ph = Ready host s | Err _ => ph = Leaving end).

Lemma opens_with host (load resume : error -> error) missing unresumed foreign :
  opens host
    (let? latest := wrapErr load (call (GetLatestSession did)) in
     match latest with
     | None => fail missing
     | Some latest =>
         let? session := wrapErr resume (call (ResumeSession did (SessionID latest))) in
         match session with
         | None => fail unresumed
         | Some session => if negb (belongs session did host) then fail foreign else done_ session
         end
     end).
Proof.
  intros [[latest |] | e]; cbn.
  2, 3: exists Leaving; split; [apply next_no_session | done].
  exists (Loaded host (SessionID latest)). split; [constructor |]. intros [[session |] | e]; cbn.
  2, 3: exists Leaving; split; [apply next_not_resumed | done].
  destruct (belongs session did host) eqn:Hb; cbn.
  - exists (Ready host session). split; [by constructor | done].
  - exists Leaving. split; [apply next_not_resumed | done].
Qed.
Lemma opens_package pkg host : opens host (resumePackageSession pkg did host).
Proof. apply opens_with. Qed.
Lemma opens_operation operation host : opens host (openSession operation did host).
Proof. apply opens_with. Qed.
Lemma opens_membership host : opens host (membershipSession did host).
Proof. apply opens_with. Qed.
Lemma opens_transfer host : opens host (transferSession did host).
Proof.
  unfold transferSession. intros [[latest |] | e]; cbn.
  2, 3: exists Leaving; split; [apply next_no_session | done].
  exists (Loaded host (SessionID latest)). split; [constructor |]. intros [[session |] | e]; cbn.
  2, 3: exists Leaving; split; [apply next_not_resumed | done].
  destruct (belongs session did host) eqn:Hb; cbn.
  - exists (Ready host session). split; [by constructor | done].
  - exists Leaving. split; [apply next_not_resumed | done].
Qed.

Lemma ends_wrapped {B} pkg wrap (f : string * Identity * string -> svc effect B) :
  (forall identity host, ends (Named host) (f (did, identity, host))) ->
  ends Start (svc_bind (wrapErr wrap (resolveIdentity pkg did)) f).
Proof.
  intros Hf. pose proof (ends_resolve did pkg (fun x => svc_bind (wrapErr wrap (done_ x)) f)) as H0'.
  unfold resolveIdentity in *. destruct (ParseDID did) as [d |]; [| done]. destruct (negb _); [done |].
  intros answer. destruct (H0' (fun identity host => Hf identity host) answer) as (ph & Hn & Hk). exists ph.
  split; [exact Hn |]. destruct answer as [[found |] | e]; cbn in *; try done.
  destruct (negb _); cbn in *; [done |]. by destruct (canonicalPDSHost _).
Qed.

Lemma ends_then {A B} ph (p : svc effect A) (f : A -> svc effect B) :
  ends ph p -> (forall ph' a, released ph' -> ends ph' (f a)) -> ends ph (svc_bind p f).
Proof.
  intros Hp Hf. apply tracks_bind. eapply tracks_mono; [| exact Hp]. intros ph' [a | e] Hr; [by apply Hf | done].
Qed.

Lemma ends_session {A} pkg operation (body : string -> string -> SessionData -> svc effect A) :
  (forall host session, every (request did host session) (body host did session)) ->
  ends Start (withSession (resolveIdentity pkg) (resumePackageSession pkg)
    (fun session => persistSession pkg session operation) did body).
Proof.
  intros Hb. apply ends_resolve. intros identity host. apply ends_locked; [apply opens_package | auto |].
  intros s r. intros p. exists Leaving. split; [constructor | done].
Qed.

Lemma ends_publish operation publication persistence uriProblem cidProblem host collection rkey record :
  ends (Named host) (publishRecord operation publication persistence uriProblem cidProblem did host
    collection rkey record).
Proof.
  apply (ends_locked did host (openSession operation did host)
    (fun session => call (PutRecord host session (mkPut collection did rkey AnyVersion record)))
    (fun session r => let! p := call (SaveSession session) in
       let? output := lift (finish publication persistence r p) in
       let? _ := lift (validateResponse operation uriProblem cidProblem (recordURI did collection rkey) output) in
       done_ output)); [apply opens_operation | done |].
  intros s r p. exists Leaving. split; [constructor |]. cbn. destruct (finish _ _ _ _); cbn; [| done].
  by destruct (validateResponse _ _ _ _ _).
Qed.
Lemma ends_put_transfer collection rkey record : ends Start (putTransferRecord did collection rkey record).
Proof.
  apply ends_wrapped. intros identity host.
  apply (ends_locked did host (transferSession did host)
    (fun session => call (PutRecord host session (mkPut collection did rkey AnyVersion record)))); [apply opens_transfer | done |].
  intros s r p. exists Leaving. split; [constructor |]. cbn. destruct (finish _ _ _ _); cbn; [| done].
  destruct (ParseATURI _); cbn; [| done]. destruct (reject _ _ _); cbn; [| done]. by destruct (mapErr _ _).
Qed.
Lemma ends_delete_transfer collection rkey cid : ends Start (deleteTransferRecord did collection rkey cid).
Proof.
  apply ends_wrapped. intros identity host.
  apply (ends_locked did host (transferSession did host)
    (fun session => call (DeleteRecord host session (mkDelete collection did rkey cid)))); [apply opens_transfer | done |].
  intros s r p. exists Leaving. split; [constructor | done].
Qed.
Lemma ends_organization collection rkey record operation :
  ends Start (publishOrganizationRecord did collection rkey record operation).
Proof.
  apply ends_lift; [done |]. intros a _. apply ends_wrapped. intros identity host.
  apply ends_then; [apply ends_publish | done].
Qed.
End protocol.

Section requests.
Context (did host : string) (session : SessionData).
Abbreviation asks := (every (request did host session)).

Lemma asks_lift {A B} (r : result A) (f : A -> svc effect B) : (forall a, asks (f a)) -> asks (svc_bind (lift r) f).
Proof. destruct r; cbn; auto. Qed.
Lemma asks_call {X B} (e : effect X) (f : X -> svc effect B) :
  request did host session X e -> (forall x, asks (f x)) -> asks (prog_bind (call e) f).
Proof. by split. Qed.
Lemma asks_optional {B} pkg collection rkey (f : option getRecordOutput -> svc effect B) :
  (forall o, asks (f o)) -> asks (svc_bind (getOptionalRecord pkg host session collection did rkey) f).
Proof.
  intros Hf. split; [done |]. intros [o | e]; cbn; [apply Hf |]. destruct (isRecordNotFound e); [apply Hf | done].
Qed.

(** Walks through the requests of an operation. *)
Ltac asking :=
  repeat first
    [ exact I
    | apply asks_optional; intros ?
    | apply asks_lift; intros ?
    | apply asks_call; [done | intros ?]
    | lazymatch goal with
      | |- every _ (if ?b then _ else _) => destruct b
      | |- every _ (match ?x with _ => _ end) => destruct x
      end
    | progress cbn zeta ].

Lemma asks_triage {B} collection rkey swap record (f : putRecordOutput + getRecordOutput -> svc effect B) :
  (forall o, asks (f o)) -> asks (svc_bind (putTriageRecord host session did collection rkey swap record) f).
Proof. intros Hf. apply every_then; [| exact Hf]. unfold putTriageRecord. asking. Qed.

Lemma asks_star target t rkey : asks (createStarRecord target t rkey host did session).
Proof. unfold createStarRecord. cbn zeta. asking. Qed.
Lemma asks_unstar target rkey : asks (deleteStarRecord target rkey host did session).
Proof. unfold deleteStarRecord. asking. Qed.
Lemma asks_issue r rkey : asks (createIssueRecord r rkey host did session).
Proof. unfold createIssueRecord. asking. Qed.
Lemma asks_comment r rkey : asks (createIssueCommentRecord r rkey host did session).
Proof. unfold createIssueCommentRecord. asking. Qed.
Lemma asks_uncomment collection rkey : asks (deleteIssueCommentRecord collection rkey host did session).
Proof. unfold deleteIssueCommentRecord. asking. Qed.
Lemma asks_write_issue_status r swap rkey : asks (writeIssueStatus r swap rkey host did session).
Proof. unfold writeIssueStatus. asking. Qed.
Lemma asks_issue_status r rkey : asks (putIssueStatusRecord r rkey host did session).
Proof. unfold putIssueStatusRecord. asking; apply asks_write_issue_status. Qed.
Lemma asks_pull_request r rkey : asks (createPullRequestRecord r rkey host did session).
Proof. unfold createPullRequestRecord. asking. Qed.
Lemma asks_review r rkey : asks (createReviewRecord r rkey host did session).
Proof. unfold createReviewRecord. asking. Qed.
Lemma asks_write_pull_status r swap rkey : asks (writePullRequestStatus r swap rkey host did session).
Proof. unfold writePullRequestStatus. asking. Qed.
Lemma asks_pull_status r rkey : asks (putPullRequestStatusRecord r rkey host did session).
Proof. unfold putPullRequestStatusRecord. asking; apply asks_write_pull_status. Qed.
Lemma asks_label r swapCID rkey : asks (publishLabelRecord r swapCID rkey host did session).
Proof. unfold publishLabelRecord. apply asks_lift. intros []. apply asks_triage. intros ?. asking. Qed.
Lemma asks_milestone r swapCID rkey : asks (publishMilestoneRecord r swapCID rkey host did session).
Proof. unfold publishMilestoneRecord. apply asks_lift. intros []. apply asks_triage. intros ?. asking. Qed.
Lemma asks_metadata r nl na swapCID rkey : asks (putMetadataRecord r nl na swapCID rkey host did session).
Proof. unfold putMetadataRecord. apply asks_lift. intros []. apply asks_triage. intros ?. asking. Qed.
Lemma asks_untriage collection rkey swapCID : asks (deleteTriage collection rkey swapCID host did session).
Proof. unfold deleteTriage. asking. Qed.
End requests.

Ltac gates :=
  repeat first
    [ exact I
    | apply ends_lift; [exact I | intros ? ?]
    | lazymatch goal with
      | |- tracks _ _ (if ?b then _ else _) _ => destruct b eqn:?
      | |- tracks _ _ (match ?x with _ => _ end) _ => destruct x eqn:?
      end
    | progress cbn zeta ].

(** The publishers, each with the account it writes for. *)
Inductive publisher : string -> forall A, svc effect A -> Prop :=
| by_CreateStar did target t : publisher did _ (CreateStar did target t)
| by_DeleteStar did target : publisher did _ (DeleteStar did target)
| by_CreateIssue did rkey r : publisher did _ (CreateIssue did rkey r)
| by_PutIssueStatus did r : publisher did _ (PutIssueStatus did r)
| by_CreateIssueComment did rkey r : publisher did _ (CreateIssueComment did rkey r)
| by_DeleteIssueComment did uri : publisher did _ (DeleteIssueComment did uri)
| by_CreatePullRequest did rkey r : publisher did _ (CreatePullRequest did rkey r)
| by_CreatePullRequestReview did rkey r : publisher did _ (CreatePullRequestReview did rkey r)
| by_PutPullRequestStatus did r : publisher did _ (PutPullRequestStatus did r)
| by_CreateLabel did rkey r : publisher did _ (CreateLabel did rkey r)
| by_PutLabel did rkey cid r : publisher did _ (PutLabel did rkey cid r)
| by_CreateMilestone did rkey r : publisher did _ (CreateMilestone did rkey r)
| by_PutMilestone did rkey cid r : publisher did _ (PutMilestone did rkey cid r)
| by_PutSubjectTriage did cid r nl na : publisher did _ (PutSubjectTriage did cid r nl na)
| by_DeleteTriageRecord did collection rkey cid : publisher did _ (DeleteTriageRecord did collection rkey cid)
| by_Publish p : publisher (repository.Pub_OwnerDID p) _ (Publish p)
| by_Unpublish p identity : publisher (repository.Pub_OwnerDID p) _ (Unpublish p identity)
| by_PublishOrganization p : publisher (organization.Pub_CreatorDID p) _ (PublishOrganization p)
| by_PublishOrganizationGrant p : publisher (organization.Grant_ActorDID p) _ (PublishOrganizationGrant p)
| by_PublishOrganizationMembership p :
    publisher (organization.Membership_ActorDID p) _ (PublishOrganizationMembership p)
| by_PublishOrganizationRevocation p :
    publisher (organization.Revocation_ActorDID p) _ (PublishOrganizationRevocation p)
| by_DeleteOrganizationMembership did o m : publisher did _ (DeleteOrganizationMembership did o m)
| by_PublishProposal p : publisher (transfer.Prop_ActorDID p) _ (PublishProposal p)
| by_PublishAcceptance p : publisher (transfer.Acc_ActorDID p) _ (PublishAcceptance p)
| by_DeleteProposal p identity : publisher (transfer.Prop_ActorDID p) _ (DeleteProposal p identity)
| by_Put did r : publisher did _ (Put did r).

Lemma publisher_tracks did A p : publisher did A p -> tracks did Start p (fun ph _ => released ph).
Proof.
  intros Hp. destruct Hp.
  - unfold CreateStar. gates. apply ends_session. intros. apply asks_star.
  - unfold DeleteStar. gates. apply ends_session. intros. apply asks_unstar.
  - unfold CreateIssue. gates. apply ends_session. intros. apply asks_issue.
  - unfold PutIssueStatus. gates. apply ends_session. intros. apply asks_issue_status.
  - unfold CreateIssueComment. gates; apply ends_session; intros; apply asks_comment.
  - unfold DeleteIssueComment. cbn zeta. gates.
    match goal with h : (DID_String _ != did) = false |- _ => apply neq_false in h as -> end.
    apply ends_session. intros. apply asks_uncomment.
  - unfold CreatePullRequest. gates. apply ends_session. intros. apply asks_pull_request.
  - unfold CreatePullRequestReview. gates. apply ends_session. intros. apply asks_review.
  - unfold PutPullRequestStatus. gates. apply ends_session. intros. apply asks_pull_status.
  - unfold CreateLabel, publishLabel. gates. apply ends_session. intros. apply asks_label.
  - unfold PutLabel, publishLabel. gates. apply ends_session. intros. apply asks_label.
  - unfold CreateMilestone, publishMilestone. gates. apply ends_session. intros. apply asks_milestone.
  - unfold PutMilestone, publishMilestone. gates. apply ends_session. intros. apply asks_milestone.
  - unfold PutSubjectTriage. gates. apply ends_session. intros. apply asks_metadata.
  - unfold DeleteTriageRecord. gates. apply ends_session. intros. apply asks_untriage.
  - apply ends_wrapped. intros. cbn zeta. gates. apply ends_then; [apply ends_publish | done].
  - apply ends_wrapped. intros identity0 host. cbn zeta. gates.
    all: apply (ends_locked _ host (openSession "repository" _ host)
      (fun session => call (DeleteRecord host session (mkDelete repositoryCollection _ _ _))));
      [apply opens_operation | done |];
      intros s r q; exists Leaving; split; [constructor | done].
  - apply ends_wrapped. intros. cbn zeta. gates. apply ends_then; [apply ends_publish | done].
  - apply ends_organization.
  - apply ends_organization.
  - apply ends_organization.
  - unfold DeleteOrganizationMembership. cbn zeta. apply ends_wrapped. intros identity0 host. gates.
    apply (ends_locked _ host (membershipSession _ host)
      (fun session => call (DeleteRecord host session (mkDelete organizationMembershipCollection _ _ _))));
      [apply opens_membership | done |].
    intros s r q. exists Leaving. split; [constructor | done].
  - unfold PublishProposal. gates. destruct (transfer.DestinationOrganization p); gates; apply ends_put_transfer.
  - unfold PublishAcceptance. gates; apply ends_put_transfer.
  - unfold DeleteProposal. gates; apply ends_delete_transfer.
  - unfold Put. destruct (IsZero _); [exact I |]. apply ends_lift; [exact I |]. intros [] _. apply ends_resolve.
    intros identity host. apply (ends_locked _ host (resumeProfileSession _ host)
      (fun session => call (PutRecord host session (mkPut profileCollection _ _ AnyVersion _))));
      [apply opens_package | done |].
    intros s r' q. exists Leaving. split; [constructor |]. cbn [prog_bind].
    apply (tracks_bind did Leaving (lift _)). destruct (joined _ _); cbn [lift tracks]; [| done].
    apply (tracks_bind did Leaving (lift _)). by destruct (mapErr _ _).
Qed.

(** C11: A publisher acts for one account only: it asks the directory who the account is,
    takes the account's lock, opens the latest session of the account, which must belong
    to it and to its host, and then makes requests to that host, with that session, about
    that account's repository; before it returns the session is stored again and the
    lock released, whatever fails. *)
Theorem publishers_keep_session did A p :
  publisher did A p ->
  ensures (fun tr _ => exists ph, steps did Start tr ph /\ released ph) p.
Proof.
  intros Hp tr a Hr. exact (tracks_runs did p (fun ph _ => released ph) Start tr a (publisher_tracks did A p Hp) Hr).
Qed.

(** ** A triage without assignees *)

(** No delivery of an event that carries what is posted is ever stored, unless the event or
    a later one of its record was. *)
Definition blocks (did : string) (X : Type) (e : effect X) : Prop :=
  match e with
  | PutRecord _ _ input =>
      forall cid raw body c s event,
        canonical_cid cid -> json_of (Put_Record input) raw ->
        carried did (Put_Collection input) (Put_RKey input) cid raw body ->
        projection.received body = Ok (event, None) ->
        fedstore.receipted (tables.committed s) c (federation.ID event) = false ->
        match tables.rows (tables.committed s) tables.Records
                !! recordURI did (Put_Collection input) (Put_RKey input) with
        | Some old => tables.source old < federation.ID event
        | None => True
        end ->
        exists err s', exec tables.handle (projection.Process (projection.mkStore c) body) s = (Err err, s') /\
          tables.committed s' = tables.committed s
  | _ => True
  end.

Lemma unassigned_blocks did swapCID r nil_labels :
  resolution <= triage.CreatedAt r -> triage.AssigneeDIDs r = [] ->
  (nil_labels = true -> triage.LabelURIs r = []) ->
  guarded (fun _ => blocks did) (PutSubjectTriage did swapCID r nil_labels true).
Proof.
  intros Hl Hna Hnl. apply every_guarded.
  refine (every_mono _ _ _ _ (walk_metadata did swapCID r nil_labels true Hl Hnl (fun _ => Hna))).
  intros X [] Hp; try done. destruct Hp as (_ & v & <- & Hh). cbn [blocks].
  intros cid raw body c s event Hcid Hj Hc Hr Hd Hold.
  destruct (Hh cid raw body Hcid Hj Hc) as (event' & r' & Hdec & Hi & Hrec & Ha & _ & _ & _ & Hu & _ & Hv).
  unfold projection.received in Hr. rewrite Hdec in Hr. injection Hr as <-. rewrite <- Hu in Hold.
  eapply fedstore.triage_stuck; try done; try by rewrite orb_true_r.
  unfold projection.received. by rewrite Hdec.
Qed.

(** The triage service with its publisher.  The label URIs are those [ResolveLabelURIs]
    makes, a slice that is never nil; the assignees are what [uniqueSorted] left. *)
Definition published_triage (input : triage.MetadataInput) (ownerDID swapCID : string)
    (record : triage.MetadataRecord) : svc effect triage.Metadata :=
  PutSubjectTriage ownerDID swapCID record false (triage.uniqueSorted_nil (triage.Input_AssigneeDIDs input)).

(** C10: Assigning nobody stops every indexer.  When the triage service is asked to assign
    nobody, [uniqueSorted] leaves it the nil slice, which it publishes as the assignees; so
    every record the publisher then posts has a [null] there.  Every instance reads that
    record as valid and violates a constraint of its own table when it projects it, so that
    no delivery of it ever succeeds, is receipted or moves the cursor. *)
Theorem unassigned_triage_blocks actor route kind subjectURI input :
  triage.Input_AssigneeDIDs input = [] ->
  guarded (fun _ X (e : triage.effect X) =>
      match e with
      | triage.PutSubjectTriage ownerDID swapCID record =>
          resolution <= triage.CreatedAt record ->
          guarded (fun _ => blocks ownerDID) (published_triage input ownerDID swapCID record)
      | _ => True
      end)
    (triage.PutMetadata actor route kind subjectURI input).
Proof.
  intros Hin. apply every_guarded. unfold triage.PutMetadata, triage.authorize, published_triage. rewrite Hin.
  cbn zeta. change (triage.uniqueSorted []) with (@nil string).
  repeat first
    [ done
    | apply unassigned_blocks; done
    | apply every_then; [| intros ?]
    | lazymatch goal with
      | |- every _ (if ?b then _ else _) => destruct b
      | |- every _ (match ?x with _ => _ end) => destruct x
      | |- every _ (prog_bind _ _) => apply every_bind; [| intros ?]
      | |- every _ (call _) => split; [try intros ? | done]
      | |- every _ (wrapErr _ _) => apply every_bind; [| intros [] ]
      end ].
Qed.
End published.
End published.

(** ** An instance

    Identifiers that are ASCII and spelled by their parts, and times written as their
    full seconds in binary digits, the last of them first. *)
Module RecordDemo.
Definition valid_did (s : string) : bool := HasPrefix s "did:" && all_chars is_rkey_char s.
Definition parse_if (f : string -> bool) (s : string) : option string := if f s then Some s else None.
Definition parse_aturi (s : string) : option Demo.aturi :=
  if all_chars (fun c => is_rkey_char c || Ascii.eqb c "/") s then Demo.parse_aturi s else None.
#[export] Instance syntax : Syntax := {|
  ATURI := Demo.aturi; AtIdentifier := string; DID := string; NSID := string;
  RecordKeyT := string; CIDT := string;
  ParseATURI := parse_aturi; ATURI_String := Demo.text; Authority := Demo.authority;
  AuthorityString := id; AsDID := parse_if valid_did;
  ParseDID := parse_if valid_did; DID_String := id;
  ATURI_Collection := Demo.collection; NSID_String := id;
  ATURI_RecordKey := Demo.rkey; ParseRecordKey := parse_if rkey_grammar; RecordKey_String := id;
  ParseCID := parse_if (fun s => (8 <=? len s) && all_chars is_rkey_char s); CID_String := id
|}.
#[export] Instance unicode : GoUnicode := Demo.unicode.
#[export] Instance uuids : UUIDs := Demo.uuids.
#[export] Instance go_endpoint : GoEndpoint := EndpointDemo.go_endpoint.

Fixpoint bits (p : positive) : string :=
  match p with xH => "1" | xO p => String "0" (bits p) | xI p => String "1" (bits p) end.
Fixpoint unbits (s : string) : option positive :=
  match s with
  | EmptyString => None
  | String c EmptyString => if Ascii.eqb c "1" then Some xH else None
  | String c rest => p ← unbits rest; Some (if Ascii.eqb c "1" then xI p else xO p)
  end.
Definition digits (z : Z) : string :=
  match z with 0 => "0" | Zpos p => String "p" (bits p) | Zneg p => String "n" (bits p) end.
Definition undigits (s : string) : option Z :=
  match s with
  | String c rest =>
      if Ascii.eqb c "0" then Some 0
      else if Ascii.eqb c "p" then Zpos <$> unbits rest else Zneg <$> unbits rest
  | EmptyString => None
  end.
#[export] Instance tap_syntax : TapSyntax := {|
  ParseNSID := Some; HandleT := string; ParseHandle := Some; Normalize h := h; Handle_String h := h;
  ParseDatetimeTime s := (fun n => n * second) <$> undigits s;
  format_datetime t := digits (t / second)
|}.

Lemma unbits_cons c s : s <> EmptyString ->
  unbits (String c s) = p ← unbits s; Some (if Ascii.eqb c "1" then xI p else xO p).
Proof. by destruct s. Qed.
Lemma unbits_bits p : unbits (bits p) = Some p.
Proof.
  assert (Hb : forall p, bits p <> EmptyString) by (by intros []).
  induction p as [p IH | p IH |]; cbn [bits]; [| | done]; (rewrite unbits_cons by apply Hb); rewrite IH; done.
Qed.
Lemma undigits_digits z : undigits (digits z) = Some z.
Proof. destruct z; cbn; [done | |]; by rewrite unbits_bits. Qed.
Lemma digits_chars z : all_chars is_rkey_char (digits z) = true.
Proof.
  assert (Hb : forall p, all_chars is_rkey_char (bits p) = true).
  { induction p as [p IH | p IH |]; cbn [bits]; rewrite ?all_chars_cons, ?IH; done. }
  destruct z; cbn [digits]; [done | |]; rewrite all_chars_cons, Hb; done.
Qed.

#[export] Instance syntax_laws : SyntaxLaws.
Proof. split. intros s Hs. exists s. cbn. unfold parse_if. by rewrite Hs. Qed.

Lemma parsed f s v : parse_if f s = Some v -> f s = true /\ v = s.
Proof. unfold parse_if. destruct (f s); [| done]. by intros [= <-]. Qed.
Lemma rkey_ascii c : is_rkey_char c || Ascii.eqb c "/" = true -> byte_of c < 0x80.
Proof. destruct c as [[] [] [] [] [] [] [] []]; vm_compute; done. Qed.
Lemma key_utf8 s : all_chars is_rkey_char s = true -> publisherfacts.utf8 s.
Proof. apply publisherfacts.ascii_utf8. intros c Hc. apply rkey_ascii. by rewrite Hc. Qed.
Lemma no_slash s : all_chars is_rkey_char s = true -> any_char (fun c => Ascii.eqb c "/") s = false.
Proof. apply all_any. intros c Hc. destruct (Ascii.eqb_spec c "/"); [by subst | done]. Qed.

Lemma known_chars c : c ∈ federation.collections -> all_chars is_rkey_char c = true /\ c <> EmptyString.
Proof.
  intros Hc. assert (Ha : Forall (fun c => all_chars is_rkey_char c = true /\ c <> EmptyString) federation.collections).
  { vm_compute. repeat constructor; done. }
  by eapply Forall_forall in Ha.
Qed.

Lemma slashed s : all_chars is_rkey_char s = true -> all_chars (fun c => is_rkey_char c || Ascii.eqb c "/") s = true.
Proof. apply all_chars_impl. by intros c ->. Qed.
Lemma split_slash w t : all_chars is_rkey_char w = true -> Split "/" (w +:+ "/" +:+ t) = w :: Split "/" t.
Proof. intros Hw. apply (Split_append "/" w t). by apply no_slash. Qed.
Lemma parse_record did collection rkey :
  all_chars is_rkey_char did = true -> all_chars is_rkey_char collection = true ->
  all_chars is_rkey_char rkey = true ->
  parse_aturi (atproto.recordURI did collection rkey) =
  if (did != EmptyString) && (collection != EmptyString) && rkey_grammar rkey then
    Some {| Demo.text := atproto.recordURI did collection rkey; Demo.authority := did;
            Demo.collection := collection; Demo.rkey := rkey |}
  else None.
Proof.
  intros Hd Hc Hk. unfold parse_aturi.
  assert (Ha : all_chars (fun c => is_rkey_char c || Ascii.eqb c "/") (atproto.recordURI did collection rkey) = true).
  { unfold atproto.recordURI. rewrite !all_chars_app, (slashed did), (slashed collection), (slashed rkey) by done. done. }
  rewrite Ha. unfold Demo.parse_aturi.
  assert (Hs : Split "/"%char (atproto.recordURI did collection rkey) = ["at:"; EmptyString; did; collection; rkey]).
  { unfold atproto.recordURI. change ("at://" +:+ ?s) with ("at:" +:+ String "/" (EmptyString +:+ String "/" s)).
    rewrite (Split_append "/" "at:"), (Split_append "/" EmptyString), !split_slash by done.
    by rewrite Split_no_char by (by apply no_slash). }
  by rewrite Hs.
Qed.

#[export] Instance record_laws : publisherfacts.RecordLaws.
Proof.
  refine (publisherfacts.Build_RecordLaws _ _ _ second _ _ _ _ _ _ _ _ _).
  - done.
  - cbn. intros t u. rewrite undigits_digits. cbn. intros [= <-].
    pose proof (Z.div_mod t second ltac:(done)). lia.
  - intros t. cbn. f_equal. rewrite Z.mod_eq by done. replace (t - (t - second * (t / second))) with (t / second * second) by lia.
    by apply Z.div_mul.
  - intros t. apply key_utf8, digits_chars.
  - cbn. intros s uri. unfold parse_aturi. destruct (all_chars _ s) eqn:Hs; [| done]. intros _.
    eapply publisherfacts.ascii_utf8; [| exact Hs]. exact rkey_ascii.
  - cbn. intros s cid [[_ Hs]%andb_true_iff _]%parsed. by apply key_utf8.
  - cbn. intros s did [[_ Hs]%andb_true_iff _]%parsed. by apply key_utf8.
  - intros c _. by exists c.
  - cbn. intros did collection rkey (d & [Hd ->]%parsed & _) Hc (k & [Hk ->]%parsed & _). unfold id in *.
    apply known_chars in Hc as [Hcc Hc]. apply andb_true_iff in Hd as [Hd Hdc].
    pose proof Hk as Hkc. unfold rkey_grammar in Hkc. apply andb_true_iff in Hkc as [Hkc _].
    apply andb_true_iff in Hkc as [Hkc _]. apply andb_true_iff in Hkc as [_ Hkc].
    exists {| Demo.text := atproto.recordURI did collection rkey; Demo.authority := did; Demo.collection := collection; Demo.rkey := rkey |}.
    split; [| done]. split_and!; cbn; try done.
    + rewrite parse_record by done. rewrite Hk. destruct (String.eqb_spec did EmptyString); [by subst |].
      by destruct (String.eqb_spec collection EmptyString).
    + by destruct rkey.
    + exists did. split; [| done]. unfold parse_if, valid_did. by rewrite Hd, Hdc.
Defined.
End RecordDemo.

(** An account on a server that records what is written. *)
Module published_runs.
Import atproto publisherfacts published RecordDemo.

Definition alice : string := "did:plc:alice".
Definition account : Identity := mkIdentity alice "https://pds.example" None.
Definition session : SessionData := mkSessionData alice "s1" "https://pds.example".
Definition server (X : Type) (e : effect X) (written : list putRecordInput) : X * list putRecordInput :=
  match e in effect X return X * list putRecordInput with
  | LookupDID _ => (Ok (Some account), written)
  | GetLatestSession _ => (Ok (Some session), written)
  | ResumeSession _ _ => (Ok (Some session), written)
  | SaveSession _ => (Ok tt, written)
  | PutRecord _ _ input =>
      (inl (mkPutOutput (recordURI (Put_Repo input) (Put_Collection input) (Put_RKey input)) "bafyissue"),
       input :: written)
  | DeleteRecord _ _ _ => (inl tt, written)
  | GetRecord _ _ _ _ _ => (inr (mkAPIError (New "no record") (Some (404, "RecordNotFound"))), written)
  | Lock _ => (tt, written)
  | Unlock _ => (tt, written)
  end.
Definition map_value (k : string) (record : recordMap) : option any :=
  snd <$> List.find (fun p => fst p == k) record.
Definition tool : issue.StrongRef := issue.mkStrongRef "at://did:plc:alice/dev.adenosine.repo/tool" "bafytool".
Definition report : issue.IssueRecord := issue.mkRecord tool "It crashes" "On start" (5 * second + 7) (6 * second).
Definition report_read : issue.IssueRecord := issue.mkRecord tool "It crashes" "On start" (5 * second) (6 * second).
Definition publication : svc effect issue.Issue := CreateIssue alice "3kissue" report.

(** Another server, with a status in every slot: bob's issue, open since second 3. *)
Definition old_status : string :=
  String.concat (String "034" EmptyString)
    ["{"; "$type"; ":"; issue.StatusCollection; ","; "subject"; ":{"; "uri"; ":";
     "at://did:plc:bob/dev.adenosine.issue/3jui7kd54zh2y"; ","; "cid"; ":"; "bafyissue"; "},"; "repository"; ":{";
     "uri"; ":"; issue.URI tool; ","; "cid"; ":"; issue.CID tool; "},"; "state"; ":"; "open"; ","; "createdAt"; ":";
     digits 3; ","; "updatedAt"; ":"; digits 4; "}"].
Definition occupied (X : Type) (e : effect X) (written : list putRecordInput) : X * list putRecordInput :=
  match e in effect X return X * list putRecordInput with
  | GetRecord _ _ collection did rkey =>
      (inl (mkGetOutput (recordURI did collection rkey) (Some "bafystatus") (Some (bytes old_status))), written)
  | e => server _ e written
  end.
Definition closing : issue.StatusRecord :=
  issue.mkStatusRecord (issue.mkStrongRef "at://did:plc:bob/dev.adenosine.issue/3jui7kd54zh2y" "bafyissue") tool
    "closed" (7 * second) (7 * second).

Lemma published_records_heard_witness :
  fst (exec server publication []) =
    Ok (issue.mkIssue "at://did:plc:alice/dev.adenosine.issue/3kissue" "bafyissue" alice report_read) /\
  length (snd (exec server publication [])) = 1%nat /\
  guarded (fun _ => posts alice (fun _ => eq (federation.IssuePayload report_read))) publication /\
  (fun input => (SwapRecord input, map_value "createdAt" (Put_Record input)))
    <$> snd (exec occupied (PutIssueStatus alice closing) []) = [(MustBe "bafystatus", Some (AString (digits 3)))] /\
  guarded (fun h => posts alice (issue_status alice closing h)) (PutIssueStatus alice closing).
Proof.
  split_and!; [vm_compute; reflexivity | vm_compute; reflexivity | | vm_compute; reflexivity |].
  - apply (published_records_heard alice _ publication).
    refine (publishes_issue alice "3kissue" report _ _ _); [reflexivity | reflexivity |].
    change (second <= 5 * second + 7). unfold second. lia.
  - apply (published_records_heard alice _ (PutIssueStatus alice closing)), publishes_issue_status.
    change (second <= 7 * second). unfold second. lia.
Defined.

Lemma publishers_keep_session_witness :
  let '(r, _, tr) := run server publication [] in
  (exists a, r = Ok a) /\ length tr = 7%nat /\ exists ph, steps alice Start tr ph /\ released ph.
Proof.
  pose proof (run_runs server publication []) as Hr. destruct (run server publication []) as [[r w] tr] eqn:E.
  split_and!.
  - apply (f_equal (fun x => fst (fst x))) in E. cbn [fst] in E. subst r. eexists. vm_compute. reflexivity.
  - apply (f_equal snd) in E. cbn [snd] in E. subst tr. vm_compute. reflexivity.
  - apply (publishers_keep_session alice _ publication) with r; [constructor | exact Hr].
Defined.

(** Triage of an issue of bob's on the repository of alice, with a label and nobody assigned. *)
Definition decision : triage.MetadataRecord :=
  triage.mkMetadataRecord (triage.mkStrongRef "at://did:plc:bob/dev.adenosine.issue/3jui7kd54zh2y" "bafyissue") "issue"
    (triage.mkStrongRef "at://did:plc:alice/dev.adenosine.repo/tool" "bafytool")
    ["at://did:plc:alice/dev.adenosine.repositoryLabel/bug"] [] EmptyString (5 * second) (5 * second).
(** The service of an instance whose triager bob is: one issue, without metadata. *)
Definition triaging (X : Type) (e : triage.effect X) (written : list putRecordInput) : X * list putRecordInput :=
  let target := triage.mkRepositoryTarget 7 (triage.Metadata_Repository decision) alice in
  let subject := triage.mkSubjectTarget target (triage.Subject decision) None in
  match e in triage.effect X return X * list putRecordInput with
  | triage.ResolveRepository _ | triage.ResolveRepositoryForRead _ => (Ok target, written)
  | triage.store_ListLabels _ _ _ _ => (Ok None, written)
  | triage.store_GetLabel _ _ _ => (Err triage.ErrNotFound, written)
  | triage.store_ListMilestones _ _ _ _ => (Ok None, written)
  | triage.store_GetMilestone _ _ _ => (Err triage.ErrNotFound, written)
  | triage.ResolveSubject _ _ _ _ | triage.ResolveSubjectForRead _ _ _ _ => (Ok subject, written)
  | triage.ResolveLabelURIs _ ids =>
      (triage.PostgresStore_ResolveLabelURIs ids (Ok [("bug", "at://did:plc:alice/dev.adenosine.repositoryLabel/bug")]), written)
  | triage.ResolveMilestoneURI _ _ => (Err triage.ErrNotFound, written)
  | triage.ValidateAssignees _ => (Ok tt, written)
  | triage.publisher_CreateLabel _ _ _ => (Err triage.ErrNotFound, written)
  | triage.PutLabel _ _ _ _ => (Err triage.ErrNotFound, written)
  | triage.publisher_CreateMilestone _ _ _ => (Err triage.ErrNotFound, written)
  | triage.PutMilestone _ _ _ _ => (Err triage.ErrNotFound, written)
  | triage.PutSubjectTriage did swapCID record =>
      exec server (published_triage (triage.mkMetadataInput [] [] EmptyString) did swapCID record) written
  | triage.DeleteTriageRecord _ _ _ _ => (Ok tt, written)
  | triage.CanTriageRepository did _ => (Ok (did == "did:plc:bob"), written)
  | triage.Now => (5 * second, written)
  | triage.NewV7 => (Ok 42, written)
  end.
Lemma unassigned_triage_blocks_witness :
  let input := triage.mkMetadataInput ["bug"] [] EmptyString in
  let p := triage.PutMetadata "did:plc:bob" (triage.mkRoute "alice" "tool") triage.SubjectIssue
             "at://did:plc:bob/dev.adenosine.issue/3jui7kd54zh2y" input in
  (fun input => (map_value "labels" (Put_Record input), map_value "assignees" (Put_Record input)))
    <$> snd (exec triaging p [])
    = [(Some (AStrings (Some ["at://did:plc:alice/dev.adenosine.repositoryLabel/bug"])), Some (AStrings None))] /\
  guarded (fun _ X (e : triage.effect X) =>
      match e with
      | triage.PutSubjectTriage ownerDID swapCID record =>
          resolution <= triage.CreatedAt record ->
          guarded (fun _ => blocks ownerDID) (published_triage input ownerDID swapCID record)
      | _ => True
      end) p.
Proof. split; [vm_compute; reflexivity | by apply unassigned_triage_blocks]. Defined.
End published_runs.
