(* ===== verification/BranchProtection.v ===== *)
(** * BranchProtection: protected branches and the configuration of git
    (package [internal/branchprotection], git/service.go [SetReceiveProtection]).

    The rows are in the database, but what refuses a push is the configuration of the bare
    repository; the service writes the one after the other.  What makes the two agree, and
    what a failure between them leaves behind, is proved here. *)

From S2P Require Import Prelude.
From S2P Require Import GoText.
From S2P Require Import Keyset.

Module branchprotection.

Definition ErrNotFound : error := New "branch protection not found".
Definition ErrConflict : error := New "branch protection already exists".
Definition ErrValidation : error := New "branch protection validation failed".
Definition ErrNoRows : error := New "no rows in result set".
Definition unique_violation : error := New "duplicate key value violates unique constraint".

Record Protection := mkProtection {
  ID : UUID; RepositoryID : UUID; Pattern : string; DenyForcePush : bool; DenyDeletion : bool;
  CreatedAt : time; UpdatedAt : time
}.
Record Input := mkInput {
  Input_Pattern : string; Input_DenyForcePush : bool; Input_DenyDeletion : bool
}.
Record Page := mkPage { Items : list Protection; NextCursor : option UUID }.

Definition wrapf (format : string) (err : error) : error := Errorf format [W err].
Definition invalid (format : string) : error := Errorf format [W ErrValidation].

(** The queries of the package, the generator of ids, and git: where a repository is, and
    [git config --bool key value] there. *)
Inductive effect : Type -> Type :=
| NewV7 : effect (result UUID)
| CreateBranchProtection (row : Protection) : effect (result Protection)
| GetBranchProtection (id repositoryID : UUID) : effect (result Protection)
| PageBranchProtections (repositoryID : UUID) (after : option UUID) (limit : Z) : effect (result (list Protection))
| UpdateBranchProtection (input : Input) (updatedAt : time) (id repositoryID : UUID) : effect (result Protection)
| DeleteBranchProtection (id repositoryID : UUID) : effect (result Z)
| GetEffectiveReceiveProtection (repositoryID : UUID) : effect (result (bool * bool))
| paths_Path (repositoryID : UUID) : effect (result string)
| git_config (repositoryID : UUID) (path key : string) (value : bool) : effect (result unit).

Definition denyNonFastForwards : string := "receive.denyNonFastForwards".
Definition denyDeletes : string := "receive.denyDeletes".

(** git.Service *)
Definition SetReceiveProtection (id : UUID) (denyForcePush denyDeletions : bool) : svc effect unit :=
  let? path := wrapErr (wrapf "resolve repository path: %w") (call (paths_Path id)) in
  let? _ := wrapErr (wrapf "configure %s: %w") (call (git_config id path denyNonFastForwards denyForcePush)) in
  wrapErr (wrapf "configure %s: %w") (call (git_config id path denyDeletes denyDeletions)).

Definition Input_Validate (input : Input) : result unit :=
  reject_if Input_Pattern input != "*"
    with invalid "%w: basic protection supports only the repository-wide * pattern" ;;
  reject_if negb (Input_DenyForcePush input) && negb (Input_DenyDeletion input)
    with invalid "%w: at least one protection must be enabled" ;;
  Ok tt.
Definition mapError (err : error) : error :=
  if Is err ErrNoRows then ErrNotFound
  else if Is err unique_violation then ErrConflict
  else wrapf "branch protection query: %w" err.

Definition syncGit (repositoryID : UUID) : svc effect unit :=
  let? effective := wrapErr (wrapf "resolve effective branch protection: %w")
                      (call (GetEffectiveReceiveProtection repositoryID)) in
  wrapErr (wrapf "apply Git branch protection: %w")
    (SetReceiveProtection repositoryID (fst effective) (snd effective)).

Definition Create (repositoryID : UUID) (input : Input) (now : time) : svc effect Protection :=
  let? _ := lift (Input_Validate input) in
  let? id := wrapErr (wrapf "generate branch protection ID: %w") (call NewV7) in
  let? row := wrapErr mapError (call (CreateBranchProtection
                (mkProtection id repositoryID (Input_Pattern input) (Input_DenyForcePush input)
                   (Input_DenyDeletion input) (UTC now) (UTC now)))) in
  let? _ := syncGit repositoryID in
  done_ row.
Definition Get (repositoryID id : UUID) : svc effect Protection :=
  wrapErr mapError (call (GetBranchProtection id repositoryID)).
Definition page (limit : Z) (rows : list Protection) : Page :=
  let items := firstn (Z.to_nat limit) rows in
  mkPage items (if (Z.to_nat limit <? length rows)%nat then ID <$> last items else None).
Definition Page_ (repositoryID : UUID) (after : option UUID) (limit : Z) : svc effect Page :=
  if (limit <? 1) || (100 <? limit) then fail (invalid "%w: limit must be between 1 and 100") else
  let? rows := wrapErr (wrapf "page branch protections: %w")
                 (call (PageBranchProtections repositoryID after (limit + 1))) in
  done_ (page limit rows).
Definition Update (repositoryID id : UUID) (input : Input) (now : time) : svc effect Protection :=
  let? _ := lift (Input_Validate input) in
  let? row := wrapErr mapError (call (UpdateBranchProtection input (UTC now) id repositoryID)) in
  let? _ := syncGit repositoryID in
  done_ row.
Definition Delete (repositoryID id : UUID) : svc effect unit :=
  let? rows := wrapErr (wrapf "delete branch protection: %w") (call (DeleteBranchProtection id repositoryID)) in
  if rows =? 0 then fail ErrNotFound else syncGit repositoryID.

(** ** The table (branch_protections.sql, 000020_branch_protection.sql) and git's settings *)

(** [faults] says of each next call of git whether it fails. *)
Record db := mkDb {
  protections : list Protection; repositories : gset UUID; config : gmap UUID (bool * bool);
  faults : list bool; fresh : UUID
}.
Definition with_protections l s := mkDb l (repositories s) (config s) (faults s) (fresh s).
Definition with_config m s := mkDb (protections s) (repositories s) m (faults s) (fresh s).
Definition with_faults l s := mkDb (protections s) (repositories s) (config s) l (fresh s).
(** What git refuses of pushes to a repository: nothing until it is configured. *)
Definition refused (s : db) (id : UUID) : bool * bool := default (false, false) (config s !! id).

Definition of_repository (repositoryID : UUID) (row : Protection) : bool := RepositoryID row =? repositoryID.
Definition is_row (id repositoryID : UUID) (row : Protection) : bool :=
  (ID row =? id) && (RepositoryID row =? repositoryID).
Definition key (row : Protection) : time * UUID := (CreatedAt row, ID row).
Definition pattern_ok (row : Protection) : bool := between 1 (RuneCountInString (Pattern row)) 255.
Definition revised (input : Input) (updatedAt : time) (row : Protection) : Protection :=
  mkProtection (ID row) (RepositoryID row) (Input_Pattern input) (Input_DenyForcePush input)
    (Input_DenyDeletion input) (CreatedAt row) updatedAt.
(** [UNIQUE (repository_id, pattern)]. *)
Definition same_slot (r row : Protection) : bool :=
  (RepositoryID r =? RepositoryID row) && (Pattern r == Pattern row).

Module queries.
Definition check_violation : error := New "new row violates check constraint".
Definition CreateBranchProtection (row : Protection) (s : db) : result Protection * db :=
  if negb (pattern_ok row) then (Err check_violation, s) else
  if existsb (fun r => (ID r =? ID row) || same_slot r row) (protections s) then (Err unique_violation, s) else
  if negb (bool_decide (RepositoryID row ∈ repositories s))
  then (Err (New "insert violates foreign key constraint"), s)
  else (Ok row, with_protections (protections s ++ [row]) s).
Definition GetBranchProtection (id repositoryID : UUID) (s : db) : result Protection :=
  find_row ErrNoRows (is_row id repositoryID) (protections s).
Definition PageBranchProtections (repositoryID : UUID) (after : option UUID) (limit : Z) (s : db) : list Protection :=
  keyset.page_rows key (of_repository repositoryID) (of_repository repositoryID) after limit (protections s).
Definition UpdateBranchProtection (input : Input) (updatedAt : time) (id repositoryID : UUID) (s : db)
    : result Protection * db :=
  let hit := is_row id repositoryID in
  match find_row ErrNoRows hit (protections s) with
  | Err e => (Err e, s)
  | Ok row =>
      let new := revised input updatedAt row in
      if negb (pattern_ok new) then (Err check_violation, s) else
      if existsb (fun r => negb (hit r) && same_slot r new) (protections s) then (Err unique_violation, s)
      else (Ok new, with_protections (update_where hit (revised input updatedAt) (protections s)) s)
  end.
Definition DeleteBranchProtection (id repositoryID : UUID) (s : db) : Z * db :=
  let hit := is_row id repositoryID in
  (Z.of_nat (length (List.filter hit (protections s))),
   with_protections (List.filter (fun row => negb (hit row)) (protections s)) s).
Definition GetEffectiveReceiveProtection (repositoryID : UUID) (s : db) : bool * bool :=
  let rows := List.filter (of_repository repositoryID) (protections s) in
  (existsb DenyForcePush rows, existsb DenyDeletion rows).
End queries.

(** A call of git fails or sets the key of the repository. *)
Definition git (set : gmap UUID (bool * bool) -> gmap UUID (bool * bool)) (s : db) : result unit * db :=
  match faults s with
  | true :: rest => (Err (New "git: exit status 255"), with_faults rest s)
  | rest => (Ok tt, with_config (set (config s)) (with_faults (tl rest) s))
  end.
Definition set_key (id : UUID) (name : string) (value : bool) (m : gmap UUID (bool * bool)) : gmap UUID (bool * bool) :=
  let old := default (false, false) (m !! id) in
  <[id := if name == denyNonFastForwards then (value, snd old) else (fst old, value)]> m.
Definition handle X (e : effect X) (s : db) : X * db :=
  match e in effect X return X * db with
  | NewV7 => (Ok (fresh s), mkDb (protections s) (repositories s) (config s) (faults s) (fresh s + 1))
  | CreateBranchProtection row => queries.CreateBranchProtection row s
  | GetBranchProtection id repo => (queries.GetBranchProtection id repo s, s)
  | PageBranchProtections repo after limit => (Ok (queries.PageBranchProtections repo after limit s), s)
  | UpdateBranchProtection input at_ id repo => queries.UpdateBranchProtection input at_ id repo s
  | DeleteBranchProtection id repo => let '(n, s') := queries.DeleteBranchProtection id repo s in (Ok n, s')
  | GetEffectiveReceiveProtection repo => (Ok (queries.GetEffectiveReceiveProtection repo s), s)
  | paths_Path id => let '(r, s') := git (fun m => m) s in (let* _ := r in Ok EmptyString, s')
  | git_config id path name value => git (set_key id name value) s
  end.

(** A change of the protections of a repository, and what git has to refuse after it. *)
Inductive change :=
| Creation (repositoryID : UUID) (input : Input) (now : time)
| Revision (repositoryID id : UUID) (input : Input) (now : time)
| Deletion (repositoryID id : UUID).
Definition perform (c : change) : svc effect unit :=
  match c with
  | Creation repo input now => let? _ := Create repo input now in done_ tt
  | Revision repo id input now => let? _ := Update repo id input now in done_ tt
  | Deletion repo id => Delete repo id
  end.
Definition changed (c : change) : UUID :=
  match c with Creation repo _ _ | Revision repo _ _ _ | Deletion repo _ => repo end.
Definition wanted (c : change) : bool * bool :=
  match c with
  | Creation _ input _ | Revision _ _ input _ => (Input_DenyForcePush input, Input_DenyDeletion input)
  | Deletion _ _ => (false, false)
  end.
Abbreviation run_on p s := (exec handle p s).

(** The rows the service writes: one for each repository, for all its branches. *)
Record wf (s : db) : Prop := {
  wf_pattern row : row ∈ protections s -> Pattern row = "*";
  wf_one : NoDup (map RepositoryID (protections s));
  wf_ids : NoDup (map ID (protections s))
}.
(** Another repository is not touched. *)
Definition apart (repo : UUID) (s s' : db) : Prop :=
  (forall j, j <> repo -> refused s' j = refused s j) /\
  (forall row, RepositoryID row <> repo -> row ∈ protections s' <-> row ∈ protections s).

(** *** Synchronising *)

Lemma exec_git set s r s' :
  git set s = (r, s') -> protections s' = protections s /\ repositories s' = repositories s /\
  match r with Ok _ => config s' = set (config s) | Err _ => config s' = config s end.
Proof. unfold git. destruct (faults s) as [| [] f]; intros [= <- <-]; done. Qed.
Lemma refused_set id name value s s' j :
  config s' = set_key id name value (config s) ->
  refused s' j = if j =? id then (if name == denyNonFastForwards then (value, snd (refused s id)) else (fst (refused s id), value))
                 else refused s j.
Proof.
  intros Hc. unfold refused. rewrite Hc. unfold set_key. destruct (Z.eqb_spec j id) as [-> |].
  - rewrite lookup_insert_eq. by destruct (name == denyNonFastForwards).
  - by rewrite lookup_insert_ne.
Qed.

Lemma set_ran repo force deletions s r s' :
  run_on (SetReceiveProtection repo force deletions) s = (r, s') ->
  protections s' = protections s /\ (forall j, j <> repo -> refused s' j = refused s j) /\
  (r = Ok tt -> refused s' repo = (force, deletions)).
Proof.
  unfold SetReceiveProtection. rewrite exec_then, exec_wrap, exec_call. cbn [handle].
  destruct (git _ s) as [r1 s1] eqn:E1. apply exec_git in E1 as (P1 & _ & C1).
  assert (H1 : forall j, refused s1 j = refused s j) by (intros j; unfold refused; destruct r1; by rewrite C1).
  destruct r1 as [[] | e1]; cbn [mapErr mbind result_bind]; [| intros [= <- <-]; split_and!; done].
  rewrite exec_then, exec_wrap, exec_call. cbn [handle]. destruct (git _ s1) as [r2 s2] eqn:E2.
  apply exec_git in E2 as (P2 & _ & C2).
  destruct r2 as [[] | e2]; cbn [mapErr]; cbn beta iota;
    [| intros [= <- <-]; split_and!; [congruence | | done]; intros j _; rewrite <- H1; unfold refused; by rewrite C2].
  rewrite exec_wrap, exec_call. cbn [handle]. destruct (git _ s2) as [r3 s3] eqn:E3.
  apply exec_git in E3 as (P3 & _ & C3). pose proof (fun j => refused_set _ _ _ _ _ j C2) as H2.
  destruct r3 as [[] | e3]; cbn [mapErr]; cbn beta iota; intros [= <- <-].
  - pose proof (fun j => refused_set _ _ _ _ _ j C3) as H3. split_and!; [congruence | |].
    + intros j Hj. apply Z.eqb_neq in Hj. by rewrite H3, Hj, H2, Hj, H1.
    + intros _. by rewrite H3, H2, Z.eqb_refl.
  - split_and!; [congruence | | done]. intros j Hj. rewrite <- H1.
    replace (refused s3 j) with (refused s2 j) by (unfold refused; by rewrite C3).
    apply Z.eqb_neq in Hj. by rewrite H2, Hj.
Qed.
Lemma syncGit_ran repo s r s' :
  run_on (syncGit repo) s = (r, s') ->
  protections s' = protections s /\ (forall j, j <> repo -> refused s' j = refused s j) /\
  (r = Ok tt -> refused s' repo = queries.GetEffectiveReceiveProtection repo s).
Proof.
  unfold syncGit. rewrite exec_then, exec_wrap, exec_call. cbn [handle mapErr]. rewrite exec_wrap.
  destruct (exec handle (SetReceiveProtection _ _ _) s) as [r1 s1] eqn:E. apply set_ran in E as (HP & HR & HE).
  intros [= <- <-]. split_and!; [done | done |]. destruct r1 as [[] |]; [intros _; by apply HE | done].
Qed.

(** *** The table *)

Lemma one_row s repo row :
  NoDup (map RepositoryID (protections s)) -> row ∈ protections s -> RepositoryID row = repo ->
  queries.GetEffectiveReceiveProtection repo s = (DenyForcePush row, DenyDeletion row).
Proof.
  intros Hnd Hin Hr. unfold queries.GetEffectiveReceiveProtection.
  assert (List.filter (of_repository repo) (protections s) = [row]) as ->; [| cbn; by rewrite !orb_false_r].
  revert Hnd Hin. generalize (protections s). induction l as [| r l IH]; [by intros _ ?%not_elem_of_nil |].
  cbn. intros [Hn Hnd]%NoDup_cons Hin. apply elem_of_cons in Hin as [-> | Hin].
  - unfold of_repository at 1. rewrite Hr, Z.eqb_refl. f_equal. apply filter_none. intros x Hx.
    apply Z.eqb_neq. intros Hxr. apply Hn. rewrite Hr, <- Hxr. apply list_elem_of_fmap_2. exact Hx.
  - unfold of_repository at 1. destruct (Z.eqb_spec (RepositoryID r) repo) as [E |]; [| by apply IH].
    exfalso. apply Hn. rewrite E, <- Hr. by apply list_elem_of_fmap_2.
Qed.
Lemma no_row s repo :
  (forall row, row ∈ protections s -> RepositoryID row <> repo) ->
  queries.GetEffectiveReceiveProtection repo s = (false, false).
Proof.
  intros Hn. unfold queries.GetEffectiveReceiveProtection. rewrite filter_none; [done |].
  intros row Hin. apply Z.eqb_neq. by apply Hn.
Qed.

(** What the query of a change leaves, when it succeeds. *)
Lemma protection_created s repo input now r s' :
  wf s -> run_on (Create repo input now) s = (r, s') ->
  wf s' /\ apart repo s s' /\ (is_Ok r = true -> refused s' repo = (Input_DenyForcePush input, Input_DenyDeletion input)).
Proof.
  intros [W1 W2 W3]. unfold Create. rewrite exec_then. unfold lift at 1. rewrite exec_ret. unfold Input_Validate.
  destruct (String.eqb_spec (Input_Pattern input) "*") as [Hp |]; cbn [negb reject]; [| by intros [= <- <-]].
  destruct (_ && _); cbn [reject]; [by intros [= <- <-] |].
  rewrite exec_then, exec_wrap, exec_call. cbn [handle mapErr]. rewrite exec_then, exec_wrap, exec_call. cbn [handle].
  set (s1 := mkDb (protections s) _ _ _ _). set (row := mkProtection _ _ _ _ _ _ _).
  unfold queries.CreateBranchProtection.
  destruct (negb (pattern_ok row)); [by intros [= <- <-] |].
  destruct (existsb _ _) eqn:Hn; [by intros [= <- <-] |]. apply existsb_false in Hn. rewrite Forall_forall in Hn.
  destruct (negb _); [by intros [= <- <-] |]. cbn [mapErr].
  set (s2 := with_protections _ s1).
  assert (Hnew : forall x, x ∈ protections s -> ID x <> ID row /\ RepositoryID x <> repo).
  { intros x Hx. specialize (Hn x Hx). cbn in Hn. apply orb_false_iff in Hn as [Hi%Z.eqb_neq Hs].
    split; [done |]. intros Hxr. unfold same_slot in Hs. cbn in Hs. by rewrite Hxr, Z.eqb_refl, (W1 x Hx), Hp in Hs. }
  assert (Hwf : wf s2).
  { split; cbn.
    - intros x [Hx | ->%list_elem_of_singleton]%elem_of_app; [by apply W1 | done].
    - rewrite map_app. apply NoDup_snoc; [| done]. intros (x & Hx & Hin)%list_elem_of_fmap. by destruct (Hnew x Hin).
    - rewrite map_app. apply NoDup_snoc; [| done]. intros (x & Hx & Hin)%list_elem_of_fmap. by destruct (Hnew x Hin). }
  rewrite exec_then. destruct (exec handle (syncGit repo) s2) as [r3 s3] eqn:E. apply syncGit_ran in E as (P3 & R3 & S3).
  assert (Hres : wf s3 /\ apart repo s s3 /\ (r3 = Ok tt -> refused s3 repo = (Input_DenyForcePush input, Input_DenyDeletion input))).
  { split_and!.
    - destruct Hwf as [V1 V2 V3]. split; rewrite P3; done.
    - split; [done |]. intros x Hx. rewrite P3. cbn. rewrite elem_of_app, list_elem_of_singleton. split; [| by left].
      by intros [| ->].
    - intros Hr. rewrite (S3 Hr). rewrite (one_row s2 repo row (wf_one _ Hwf)); [done | | done]. cbn. set_solver. }
  destruct Hres as (? & ? & Hs). destruct r3 as [[] | e]; intros [= <- <-]; split_and!; auto; done.
Qed.

Lemma NoDup_map_update {B} (column : Protection -> B) hit change rows :
  (forall r, column (change r) = column r) -> NoDup (map column rows) ->
  NoDup (map column (update_where hit change rows)).
Proof. intros Hc. by rewrite update_where_map. Qed.
Lemma NoDup_map_row {B} (column : Protection -> B) rows x y :
  NoDup (map column rows) -> x ∈ rows -> y ∈ rows -> column x = column y -> x = y.
Proof. apply NoDup_map_inj. Qed.

Lemma protection_updated s repo id input now r s' :
  wf s -> run_on (Update repo id input now) s = (r, s') ->
  wf s' /\ apart repo s s' /\ (is_Ok r = true -> refused s' repo = (Input_DenyForcePush input, Input_DenyDeletion input)).
Proof.
  intros [W1 W2 W3]. unfold Update. rewrite exec_then. unfold lift at 1. rewrite exec_ret. unfold Input_Validate.
  destruct (String.eqb_spec (Input_Pattern input) "*") as [Hp |]; cbn [negb reject]; [| by intros [= <- <-]].
  destruct (_ && _); cbn [reject]; [by intros [= <- <-] |].
  rewrite exec_then, exec_wrap, exec_call. cbn [handle]. unfold queries.UpdateBranchProtection.
  destruct (find_row _ _ _) as [row | e] eqn:Hf; [| by intros [= <- <-]].
  destruct (negb _); [by intros [= <- <-] |]. destruct (existsb _ _); [by intros [= <- <-] |]. cbn [mapErr].
  apply find_row_Ok in Hf as [Hin Hi]. unfold is_row in Hi. apply andb_true_iff in Hi as [Hid%Z.eqb_eq Hrepo%Z.eqb_eq].
  set (s2 := with_protections _ s).
  assert (Hwf : wf s2).
  { split; cbn.
    - intros x (y & Hy & ->)%update_where_elem. destruct (is_row id repo y); [done | by apply W1].
    - by apply NoDup_map_update.
    - by apply NoDup_map_update. }
  rewrite exec_then. destruct (exec handle (syncGit repo) s2) as [r3 s3] eqn:E. apply syncGit_ran in E as (P3 & R3 & S3).
  assert (Hres : wf s3 /\ apart repo s s3 /\ (r3 = Ok tt -> refused s3 repo = (Input_DenyForcePush input, Input_DenyDeletion input))).
  { split_and!.
    - destruct Hwf as [V1 V2 V3]. split; rewrite P3; done.
    - split; [done |]. intros x Hx. rewrite P3. cbn. rewrite update_where_elem. split.
      + intros (y & Hy & ->). unfold is_row in *. destruct (_ && _) eqn:Hh; [| done].
        apply andb_true_iff in Hh as [_ Hh%Z.eqb_eq]. cbn in Hx. congruence.
      + intros Hxin. exists x. split; [done |]. unfold is_row. apply Z.eqb_neq in Hx. by rewrite Hx, andb_false_r.
    - intros Hr. rewrite (S3 Hr).
      rewrite (one_row s2 repo (revised input (UTC now) row) (wf_one _ Hwf)); [done | | done]. cbn. apply update_where_elem.
      exists row. split; [done |]. unfold is_row. by rewrite Hid, Hrepo, !Z.eqb_refl. }
  destruct Hres as (? & ? & Hs). destruct r3 as [[] | e]; intros [= <- <-]; split_and!; auto; done.
Qed.
Lemma protection_deleted s repo id r s' :
  wf s -> run_on (Delete repo id) s = (r, s') ->
  wf s' /\ apart repo s s' /\ (is_Ok r = true -> refused s' repo = (false, false)).
Proof.
  intros [W1 W2 W3]. unfold Delete. rewrite exec_then, exec_wrap, exec_call. cbn [handle].
  unfold queries.DeleteBranchProtection. cbn [mapErr]. set (s2 := with_protections _ s).
  assert (Hwf : wf s2).
  { split; cbn; [| by apply NoDup_map_filter ..]. intros x [Hx _]%filter_elem. by apply W1. }
  assert (Hother : forall x, RepositoryID x <> repo -> x ∈ protections s2 <-> x ∈ protections s).
  { intros x Hx. cbn. rewrite filter_elem. unfold is_row. apply Z.eqb_neq in Hx. rewrite Hx, andb_false_r. tauto. }
  destruct (Z.eqb_spec (Z.of_nat (length (List.filter (is_row id repo) (protections s)))) 0) as [| Hn].
  { intros [= <- <-]. split_and!; [done | by split | done]. }
  intros E. apply syncGit_ran in E as (P3 & R3 & S3). split_and!.
  - destruct Hwf as [V1 V2 V3]. split; rewrite P3; done.
  - split; [done |]. intros x Hx. rewrite P3. by apply Hother.
  - intros Hr. rewrite (S3 ltac:(by destruct r as [[] |])). apply no_row. intros x [Hx Hnot]%filter_elem Hxr. cbn in Hx.
    destruct (List.filter (is_row id repo) (protections s)) as [| y l] eqn:Hy; [done |].
    assert (Hyin : y ∈ List.filter (is_row id repo) (protections s)) by (rewrite Hy; by left).
    apply filter_elem in Hyin as [Hyin Hyi]. unfold is_row in Hyi. apply andb_true_iff in Hyi as [Hyid%Z.eqb_eq Hyr%Z.eqb_eq].
    rewrite (NoDup_map_row RepositoryID _ x y W2 Hx Hyin) in Hnot by congruence.
    unfold is_row in Hnot. by rewrite Hyid, Hyr, !Z.eqb_refl in Hnot.
Qed.

(** When a change of a repository's protection succeeds, git refuses exactly what it asked
    for: forced pushes and deletions as the new or revised protection says, nothing after a
    deletion.  Whether it succeeds or fails, anywhere, there is at most one protection for a
    repository, for all its branches, and the protections and the settings of every other
    repository are left as they were. *)
Theorem protection_applied (c : change) (s s' : db) (r : result unit) :
  wf s -> run_on (perform c) s = (r, s') ->
  wf s' /\ apart (changed c) s s' /\ (r = Ok tt -> refused s' (changed c) = wanted c).
Proof.
  intros Hw. destruct c as [repo input now | repo id input now | repo id]; cbn [perform changed wanted].
  - rewrite exec_then. destruct (exec handle (Create repo input now) s) as [r1 s1] eqn:E.
    apply protection_created in E as (? & ? & Hr); [| done]. destruct r1; intros [= <- <-]; split_and!; auto; done.
  - rewrite exec_then. destruct (exec handle (Update repo id input now) s) as [r1 s1] eqn:E.
    apply protection_updated in E as (? & ? & Hr); [| done]. destruct r1; intros [= <- <-]; split_and!; auto; done.
  - intros E. apply protection_deleted in E as (? & ? & Hr); [| done]. split_and!; [done .. |]. intros ->. by apply Hr.
Qed.

(** *** What a failure between the two leaves *)

(** git cannot be configured: its next call fails. *)
Lemma sync_fails repo s rest :
  faults s = true :: rest ->
  exists e, run_on (syncGit repo) s = (Err e, with_faults rest s).
Proof.
  intros Hf. eexists. unfold syncGit, SetReceiveProtection. rewrite exec_then, exec_wrap, exec_call. cbn [handle mapErr].
  rewrite exec_wrap, exec_then, exec_wrap, exec_call. cbn [handle]. unfold git. rewrite Hf. reflexivity.
Qed.

Lemma star_ok : between 1 (RuneCountInString "*") 255 = true.
Proof. reflexivity. Qed.
Lemma valid_pattern input : Input_Validate input = Ok tt -> Input_Pattern input = "*".
Proof. unfold Input_Validate. by destruct (String.eqb_spec (Input_Pattern input) "*"). Qed.

Lemma creation_sticks s repo input input' now now' rest :
  faults s = true :: rest -> Input_Validate input = Ok tt -> Input_Validate input' = Ok tt -> repo ∈ repositories s ->
  (forall row, row ∈ protections s -> RepositoryID row <> repo /\ ID row < fresh s) ->
  exists e s1, run_on (Create repo input now) s = (Err e, s1) /\ refused s1 repo = refused s repo /\
    (exists row, row ∈ protections s1 /\ RepositoryID row = repo) /\
    forall healthy, exists s2, run_on (Create repo input' now') (with_faults healthy s1) = (Err ErrConflict, s2) /\
      refused s2 repo = refused s repo.
Proof.
  intros Hf Hv Hv' Hrepo Hnone. unfold Create. rewrite exec_then. unfold lift at 1. rewrite exec_ret, Hv.
  rewrite exec_then, exec_wrap, exec_call. cbn [handle mapErr]. rewrite exec_then, exec_wrap, exec_call. cbn [handle].
  set (s1 := mkDb (protections s) _ _ _ _). set (row := mkProtection _ _ _ _ _ _ _).
  unfold queries.CreateBranchProtection at 1. unfold pattern_ok. subst row. cbn [Pattern]. rewrite (valid_pattern _ Hv), star_ok.
  cbn [negb].
  set (row := mkProtection _ _ _ _ _ _ _).
  assert (existsb (fun r => (ID r =? ID row) || same_slot r row) (protections s1) = false) as ->.
  { apply existsb_false, Forall_forall. intros x Hx. destruct (Hnone x Hx) as [Hxr Hxi]. cbn.
    unfold same_slot. cbn. apply Z.eqb_neq in Hxr. rewrite Hxr. rewrite orb_false_r. apply Z.eqb_neq. lia. }
  cbn [RepositoryID row]. rewrite bool_decide_true by done. cbn [negb mapErr].
  rewrite exec_then. destruct (sync_fails repo (with_protections (protections s1 ++ [row]) s1) rest Hf) as [e ->].
  eexists e, _. split; [done |]. split; [done |]. split; [exists row; split; [cbn; set_solver | done] |].
  intros healthy. eexists. rewrite exec_then. unfold lift at 1. rewrite exec_ret, Hv'.
  rewrite exec_then, exec_wrap, exec_call. cbn [handle mapErr]. rewrite exec_then, exec_wrap, exec_call. cbn [handle].
  unfold queries.CreateBranchProtection, pattern_ok. cbn [Pattern]. rewrite (valid_pattern _ Hv'), star_ok.
  cbn [negb].
  match goal with |- context [existsb ?f ?l] => assert (existsb f l = true) as -> end; [| done].
  apply existsb_exists. exists row. split; [cbn; apply in_or_app; right; by left |].
  unfold same_slot. cbn. rewrite Z.eqb_refl. by rewrite orb_true_r.
Qed.
Lemma deletion_sticks s repo id rest :
  faults s = true :: rest -> (exists row, row ∈ protections s /\ is_row id repo row = true) ->
  exists e s1, run_on (Delete repo id) s = (Err e, s1) /\ refused s1 repo = refused s repo /\
    forall healthy, run_on (Delete repo id) (with_faults healthy s1) = (Err ErrNotFound, with_faults healthy s1).
Proof.
  intros Hf (row & Hin & Hi). unfold Delete. rewrite exec_then, exec_wrap, exec_call. cbn [handle].
  unfold queries.DeleteBranchProtection at 1. cbn [mapErr].
  destruct (Z.eqb_spec (Z.of_nat (length (List.filter (is_row id repo) (protections s)))) 0) as [Hn |].
  { destruct (List.filter (is_row id repo) (protections s)) as [| y l] eqn:E; [| cbn in Hn; lia].
    assert (row ∈ List.filter (is_row id repo) (protections s)) by by apply filter_elem. rewrite E in *. set_solver. }
  destruct (sync_fails repo (with_protections (List.filter (fun row => negb (is_row id repo row)) (protections s)) s) rest Hf)
    as [e ->].
  eexists e, _. split; [done |]. split; [done |]. intros healthy.
  rewrite exec_then, exec_wrap, exec_call. cbn [handle]. unfold queries.DeleteBranchProtection. cbn [mapErr].
  cbn [protections with_faults with_protections].
  rewrite (filter_none _ (List.filter _ _)) by (intros x [_ Hx]%filter_elem; by apply negb_true_iff).
  rewrite filter_twice by done. reflexivity.
Qed.

(** A change that fails in git is not made good by trying again.  The row of a protection
    is stored before git is configured, so when git fails, the protection exists and refuses
    nothing, and every further attempt to create it is told that it exists already, however
    well git does; the row of a deletion is gone before, so git goes on refusing, and every
    further attempt is told that there is nothing to delete. *)
Theorem failures_stick (s : db) (repo id : UUID) (input input' : Input) (now now' : time) (rest : list bool) :
  faults s = true :: rest -> Input_Validate input = Ok tt -> Input_Validate input' = Ok tt ->
  repo ∈ repositories s ->
  ((forall row, row ∈ protections s -> RepositoryID row <> repo /\ ID row < fresh s) ->
   exists e s1, run_on (Create repo input now) s = (Err e, s1) /\ refused s1 repo = refused s repo /\
     (exists row, row ∈ protections s1 /\ RepositoryID row = repo) /\
     forall healthy, exists s2, run_on (Create repo input' now') (with_faults healthy s1) = (Err ErrConflict, s2) /\
       refused s2 repo = refused s repo) /\
  ((exists row, row ∈ protections s /\ is_row id repo row = true) ->
   exists e s1, run_on (Delete repo id) s = (Err e, s1) /\ refused s1 repo = refused s repo /\
     forall healthy, run_on (Delete repo id) (with_faults healthy s1) = (Err ErrNotFound, with_faults healthy s1)).
Proof.
  intros Hf Hv Hv' Hrepo. split; [by eapply creation_sticks | by eapply deletion_sticks].
Qed.
End branchprotection.

Module branchprotection_examples.
Import branchprotection.

Definition both : Input := mkInput "*" true true.
Definition no_force : Input := mkInput "*" true false.
Definition empty_db (f : list bool) : db := mkDb [] {[ 7; 8 ]} ∅ f 100.
Lemma empty_wf f : wf (empty_db f).
Proof. split; cbn; try constructor; set_solver. Defined.
Definition protected : db := snd (exec handle (perform (Creation 7 both 50)) (empty_db [])).
Example protects :
  fst (exec handle (perform (Creation 7 both 50)) (empty_db [])) = Ok tt /\ refused protected 7 = (true, true) /\
  refused protected 8 = (false, false).
Proof. vm_compute. split_and!; reflexivity. Qed.
Example invalid_pattern :
  fst (exec handle (perform (Creation 7 (mkInput "main" true true) 50)) (empty_db []))
    = Err (invalid "%w: basic protection supports only the repository-wide * pattern").
Proof. reflexivity. Qed.
(** git fails between its two settings: forced pushes are refused, deletions are not. *)
Example half_applied :
  refused (snd (exec handle (perform (Creation 7 both 50)) (empty_db [false; false; true]))) 7 = (true, false).
Proof. vm_compute. reflexivity. Qed.
Definition listed : list UUID := map ID (Items (mkPage (protections protected) None)).
Example pages : fst (exec handle (Page_ 7 None 1) protected) = Ok (mkPage (protections protected) None) /\ listed = [100].
Proof. vm_compute. split; reflexivity. Qed.

Lemma protection_applied_witness :
  wf protected /\ refused (snd (exec handle (perform (Revision 7 100 no_force 60)) protected)) 7 = (true, false).
Proof.
  assert (Hw : wf protected).
  { apply (fun H => protection_applied (Creation 7 both 50) (empty_db []) protected (Ok tt) (empty_wf []) H).
    unfold protected. rewrite (surjective_pairing (exec _ _ _)) at 1. f_equal. }
  split; [exact Hw |].
  apply (protection_applied (Revision 7 100 no_force 60) protected _ (Ok tt) Hw); [| reflexivity].
  rewrite (surjective_pairing (exec _ _ _)) at 1. f_equal.
Defined.
Lemma failures_stick_witness :
  exists e s1, exec handle (Create 7 both 50) (empty_db [true]) = (Err e, s1) /\ refused s1 7 = (false, false) /\
    forall healthy, exists s2, exec handle (Create 7 no_force 60) (with_faults healthy s1) = (Err ErrConflict, s2) /\
      refused s2 7 = (false, false).
Proof.
  destruct (failures_stick (empty_db [true]) 7 100 both no_force 50 60 []) as [Hc _];
    [reflexivity | reflexivity | reflexivity | cbn; set_solver |].
  destruct Hc as (e & s1 & H1 & H2 & _ & H3); [cbn; set_solver |].
  exists e, s1. split; [exact H1 |]. split; [exact H2 | exact H3].
Defined.
End branchprotection_examples.
