(* ===== verification/Release.v ===== *)
(** * Release: releases and their downloadable assets (package [internal/release]).

    Rows of releases and assets are in the tables; the bytes of an asset are in a blob
    store, under a key of their own.  A release is deleted in steps - marked, emptied,
    removed - which may be resumed. *)

From S2P Require Import Prelude.
From S2P Require Import Keyset.
From S2P Require Import GoText.
From S2P Require Import Encoding.
From S2P Require Import Syntax.

(** Package [mime]'s [ParseMediaType], of which the code reads the media type. *)
Class GoMIME := { ParseMediaType : string -> option string }.

Module release.

(** ** Values (model.go) *)

Definition maxReleaseBodyBytes : Z := 1024 * 1024.

Definition ErrNotFound : error := New "release not found".
Definition ErrConflict : error := New "release already exists".
Definition ErrValidation : error := New "release validation failed".
Definition ErrQuotaExceeded : error := New "release asset quota exceeded".
Definition ErrSizeMismatch : error := New "release asset size mismatch".

Definition State : Type := string.
Definition StateDraft : State := "draft".
Definition StatePublished : State := "published".
Definition StateDeleting : State := "deleting".

Record Release := mkRelease {
  ID : UUID; RepositoryID : UUID; TagName : string; TargetSHA : string; Name : string; Body : string;
  Release_State : State; Prerelease : bool; CreatedByDID : string; CreatedAt : time; UpdatedAt : time;
  PublishedAt : option time
}.
Record Asset := mkAsset {
  Asset_ID : UUID; ReleaseID : UUID; Asset_RepositoryID : UUID; Asset_Name : string;
  ContentType : string; SizeBytes : Z; SHA256 : string; StorageKey : string; Asset_CreatedAt : time
}.
#[export] Instance Asset_eq : EqDecision Asset.
Proof. solve_decision. Defined.
Record CreateInput := mkCreateInput {
  CI_TagName : string; CI_Name : string; CI_Body : string; CI_Draft : bool; CI_Prerelease : bool;
  CI_CreatedByDID : string
}.
Record UpdateInput := mkUpdateInput {
  UI_Name : string; UI_Body : string; UI_Draft : bool; UI_Prerelease : bool
}.
(** A reader is the bytes it gives, if there is one. *)
Record AssetInput := mkAssetInput {
  AI_Name : string; AI_ContentType : string; AI_SizeBytes : Z; AI_Body : option (list Z)
}.
Record Limits := mkLimits { AssetBytes : Z; ReleaseBytes : Z; RepositoryBytes : Z }.
Record Page (T : Type) := mkPage { Items : list T; NextCursor : option UUID }.
Arguments mkPage {T}. Arguments Items {T}. Arguments NextCursor {T}.
(** [git.Tag], as far as it is read. *)
Record Tag := mkTag { Tag_Name : string; PeeledSHA : string }.

Definition invalid (what : string) : error := Errorf ("%w: " +:+ what) [W ErrValidation].
Definition wrapf (format : string) (err : error) : error := Errorf format [W err].

Definition validateText (value name : string) (minimum maximum : Z) : result unit :=
  reject_if (TrimSpace value != value) || (len value <? minimum) || (maximum <? len value)
    with Errorf "%w: %s must contain between %d and %d bytes without surrounding whitespace"
           [W ErrValidation; Str name; Int minimum; Int maximum] ;;
  Ok tt.

Definition has_control (value : string) : bool := existsb IsControl (runes value).

Definition validateTagName (value : string) : result unit :=
  let* _ := validateText value "tag name" 1 1024 in
  reject_if HasPrefix value "-" || Contains value ".." || ContainsAny value "~^:?*[\ "
    || HasPrefix value "/" || HasSuffix value "/" || HasSuffix value "." || HasSuffix value ".lock"
    || Contains value "@{" || Contains value "//"
    with invalid "tag name is not a valid Git ref name" ;;
  reject_if has_control value with invalid "tag name contains a control character" ;;
  Ok tt.

Definition validateBody (body : string) : result unit :=
  reject_if maxReleaseBodyBytes <? len body
    with Errorf "%w: body exceeds %d bytes" [W ErrValidation; Int maxReleaseBodyBytes] ;;
  Ok tt.

Definition CreateInput_Validate (input : CreateInput) : result unit :=
  let* _ := validateTagName (CI_TagName input) in
  let* _ := validateText (CI_Name input) "name" 1 255 in
  let* _ := validateBody (CI_Body input) in
  reject_if (TrimSpace (CI_CreatedByDID input) == EmptyString) || (2048 <? len (CI_CreatedByDID input))
    with invalid "creator DID is required" ;;
  Ok tt.

Definition UpdateInput_Validate (input : UpdateInput) : result unit :=
  let* _ := validateText (UI_Name input) "name" 1 255 in
  validateBody (UI_Body input).

Definition Limits_Validate (limits : Limits) : result unit :=
  reject_if (AssetBytes limits <=? 0) || (ReleaseBytes limits <? AssetBytes limits)
    || (RepositoryBytes limits <? ReleaseBytes limits)
    with invalid "asset quotas must be positive and monotonically increasing" ;;
  Ok tt.

Definition AssetInput_Validate `{GoMIME} (input : AssetInput) (maxBytes : Z) : result (string * list Z) :=
  let* _ := validateText (AI_Name input) "asset name" 1 255 in
  reject_if (AI_Name input == ".") || (AI_Name input == "..") || ContainsAny (AI_Name input) "/\"
    with invalid "asset name must be a file name" ;;
  reject_if has_control (AI_Name input) with invalid "asset name contains a control character" ;;
  reject_if (AI_SizeBytes input <? 0) || (maxBytes <? AI_SizeBytes input)
    with Errorf "%w: asset size must be between 0 and %d bytes" [W ErrQuotaExceeded; Int maxBytes] ;;
  match AI_Body input with
  | None => Err (invalid "asset body is required")
  | Some body =>
      match ParseMediaType (AI_ContentType input) with
      | Some mediaType =>
          reject_if (255 <? len mediaType) || negb (Contains mediaType "/")
            with invalid "content type is invalid" ;;
          Ok (mediaType, body)
      | None => Err (invalid "content type is invalid")
      end
  end.

(** ** The service (service.go) *)

Inductive effect : Type -> Type :=
| Tags (repositoryID : UUID) : effect (result (list Tag))
| NewID : effect (result UUID)
| Now : effect time
| CreateRelease (value : Release) : effect (result Release)
| GetRelease (repositoryID id : UUID) : effect (result Release)
| PageReleases (repositoryID : UUID) (includeDrafts : bool) (after : option UUID) (limit : Z)
    : effect (result (Page Release))
| UpdateRelease (value : Release) : effect (result Release)
| BeginDeleteRelease (repositoryID id : UUID) (now : time) : effect (result unit)
| DeleteRelease (repositoryID id : UUID) : effect (result unit)
| CreateAsset (value : Asset) (limits : Limits) : effect (result Asset)
| store_GetAsset (repositoryID releaseID id : UUID) : effect (result Asset)
| store_PageAssets (repositoryID releaseID : UUID) (after : option UUID) (limit : Z)
    : effect (result (Page Asset))
| ListAssets (repositoryID releaseID : UUID) : effect (result (list Asset))
| store_DeleteAsset (repositoryID releaseID id : UUID) : effect (result unit)
| blobs_Put (key : string) (body : list Z) (size : Z) : effect (result string)
| blobs_Open (key : string) : effect (result (list Z))
| blobs_Delete (key : string) : effect (result unit).

Definition releaseState (draft : bool) (now : time) : State * option time :=
  if draft then (StateDraft, None) else (StatePublished, Some now).

Definition Create (repositoryID : UUID) (input : CreateInput) : svc effect Release :=
  let? _ := lift (CreateInput_Validate input) in
  let? tags := wrapErr (wrapf "list release tag targets: %w") (call (Tags repositoryID)) in
  let targetSHA := match List.find (fun tag => Tag_Name tag == CI_TagName input) tags with
                   | Some tag => PeeledSHA tag
                   | None => EmptyString
                   end in
  if targetSHA == EmptyString then fail (invalid "tag does not exist") else
  let? id := wrapErr (wrapf "generate release ID: %w") (call NewID) in
  let! now := call Now in
  let now := UTC now in
  let '(state, publishedAt) := releaseState (CI_Draft input) now in
  wrapErr (wrapf "create release: %w")
    (call (CreateRelease (mkRelease id repositoryID (CI_TagName input) targetSHA (CI_Name input)
             (CI_Body input) state (CI_Prerelease input) (CI_CreatedByDID input) now now publishedAt))).

Definition Get (repositoryID id : UUID) : svc effect Release :=
  let? value := wrapErr (wrapf "get release: %w") (call (GetRelease repositoryID id)) in
  if Release_State value == StateDeleting then fail ErrNotFound else done_ value.

(** The rows of a page that is nil are made an empty list, which is what they are here. *)
Definition Page_ (repositoryID : UUID) (includeDrafts : bool) (after : option UUID) (limit : Z)
    : svc effect (Page Release) :=
  if (limit <? 1) || (100 <? limit) then fail (invalid "limit must be between 1 and 100") else
  wrapErr (wrapf "page releases: %w") (call (PageReleases repositoryID includeDrafts after limit)).

Definition revised (current : Release) (input : UpdateInput) (now : time) : Release :=
  let '(state, publishedAt) :=
    if UI_Draft input then (StateDraft, None)
    else (StatePublished,
          if (Release_State current != StatePublished) || negb (is_some (PublishedAt current))
          then Some now else PublishedAt current) in
  mkRelease (ID current) (RepositoryID current) (TagName current) (TargetSHA current) (UI_Name input)
    (UI_Body input) state (UI_Prerelease input) (CreatedByDID current) (CreatedAt current) now publishedAt.

Definition Update (repositoryID id : UUID) (input : UpdateInput) : svc effect Release :=
  let? _ := lift (UpdateInput_Validate input) in
  let? current := wrapErr (wrapf "get release for update: %w") (call (GetRelease repositoryID id)) in
  if Release_State current == StateDeleting then fail ErrNotFound else
  let! now := call Now in
  wrapErr (wrapf "update release: %w") (call (UpdateRelease (revised current input (UTC now)))).

Definition DeleteAsset (repositoryID releaseID assetID : UUID) : svc effect unit :=
  let? asset := wrapErr (wrapf "get release asset for deletion: %w")
                  (call (store_GetAsset repositoryID releaseID assetID)) in
  let? _ := wrapErr (wrapf "delete release asset blob: %w") (call (blobs_Delete (StorageKey asset))) in
  wrapErr (wrapf "delete release asset metadata: %w")
    (call (store_DeleteAsset repositoryID releaseID assetID)).

Fixpoint deleteEach (repositoryID id : UUID) (assets : list Asset) : svc effect unit :=
  match assets with
  | [] => done_ tt
  | asset :: rest =>
      let? _ := DeleteAsset repositoryID id (Asset_ID asset) in
      deleteEach repositoryID id rest
  end.

Definition Delete (repositoryID id : UUID) : svc effect unit :=
  let! now := call Now in
  let? _ := wrapErr (wrapf "begin release deletion: %w")
              (call (BeginDeleteRelease repositoryID id (UTC now))) in
  let? assets := wrapErr (wrapf "list release assets for deletion: %w")
                   (call (ListAssets repositoryID id)) in
  let? _ := deleteEach repositoryID id assets in
  wrapErr (wrapf "delete release: %w") (call (DeleteRelease repositoryID id)).

Definition GetAsset (repositoryID releaseID assetID : UUID) : svc effect Asset :=
  wrapErr (wrapf "get release asset: %w") (call (store_GetAsset repositoryID releaseID assetID)).

Definition PageAssets (repositoryID releaseID : UUID) (after : option UUID) (limit : Z)
    : svc effect (Page Asset) :=
  if (limit <? 1) || (100 <? limit) then fail (invalid "limit must be between 1 and 100") else
  wrapErr (wrapf "page release assets: %w") (call (store_PageAssets repositoryID releaseID after limit)).

Definition OpenAsset (asset : Asset) : svc effect (list Z) :=
  wrapErr (wrapf "open release asset: %w") (call (blobs_Open (StorageKey asset))).

Section service.
Context `{UUIDs, GoMIME}.

Definition assetStorageKey (repositoryID releaseID assetID : UUID) : string :=
  uuid_String repositoryID +:+ "/" +:+ uuid_String releaseID +:+ "/" +:+ uuid_String assetID.

Definition UploadAsset (limits : Limits) (repositoryID releaseID : UUID) (input : AssetInput)
    : svc effect Asset :=
  let? (contentType, body) := lift (AssetInput_Validate input (AssetBytes limits)) in
  let? current := wrapErr (wrapf "get release for asset upload: %w")
                    (call (GetRelease repositoryID releaseID)) in
  if Release_State current == StateDeleting then fail ErrNotFound else
  let? id := wrapErr (wrapf "generate release asset ID: %w") (call NewID) in
  let storageKey := assetStorageKey repositoryID releaseID id in
  let? checksum := wrapErr (wrapf "store release asset: %w")
                     (call (blobs_Put storageKey body (AI_SizeBytes input))) in
  let! now := call Now in
  let asset := mkAsset id releaseID repositoryID (AI_Name input) contentType (AI_SizeBytes input)
                 checksum storageKey (UTC now) in
  let! created := call (CreateAsset asset limits) in
  match created with
  | Ok created => done_ created
  | Err err =>
      let! cleanup := call (blobs_Delete storageKey) in
      match cleanup with
      | Err cleanupErr =>
          fail (Errorf "create release asset metadata: %w; clean up blob: %v" [W err; V cleanupErr])
      | Ok _ => fail (wrapf "create release asset metadata: %w" err)
      end
  end.
End service.

Definition IsPublic (value : Release) : bool := Release_State value == StatePublished.
Definition IsExpectedError (err : error) : bool :=
  Is err ErrNotFound || Is err ErrConflict || Is err ErrValidation || Is err ErrQuotaExceeded
  || Is err ErrSizeMismatch.

(** ** The tables (releases.sql, 000021_releases.sql) and the blobs

    [faults] tells of the next calls of the blob store which fail; when there is nothing
    left of it they succeed. *)
Record db := mkDb {
  releases : list Release; assets : list Asset; blobs : gmap string (list Z);
  repo_tags : list (UUID * Tag); faults : list bool; fresh : UUID; clock : time
}.
Definition with_releases (l : list Release) (s : db) : db :=
  mkDb l (assets s) (blobs s) (repo_tags s) (faults s) (fresh s) (clock s).
Definition with_assets (l : list Asset) (s : db) : db :=
  mkDb (releases s) l (blobs s) (repo_tags s) (faults s) (fresh s) (clock s).
Definition with_blobs (m : gmap string (list Z)) (s : db) : db :=
  mkDb (releases s) (assets s) m (repo_tags s) (faults s) (fresh s) (clock s).
Definition with_faults (l : list bool) (s : db) : db :=
  mkDb (releases s) (assets s) (blobs s) (repo_tags s) l (fresh s) (clock s).
Definition with_fresh (id : UUID) (s : db) : db :=
  mkDb (releases s) (assets s) (blobs s) (repo_tags s) (faults s) id (clock s).

(** [pgx.ErrNoRows], [pgconn.PgError] 23505 and the other codes of a constraint. *)
Definition ErrNoRows : error := New "no rows in result set".
Definition unique_violation : error := New "duplicate key value violates unique constraint".
Definition check_violation : error := New "new row violates check constraint".
Definition mapStoreError (err : error) : error :=
  if Is err ErrNoRows then ErrNotFound
  else if Is err unique_violation then ErrConflict
  else wrapf "release query: %w" err.

Definition char_length (s : string) : Z := RuneCountInString s.
(** The CHECK constraints of the two tables. *)
Definition release_checks (row : Release) : bool :=
  (1 <=? char_length (TagName row)) && (char_length (TagName row) <=? 1024)
  && match_git_sha (TargetSHA row)
  && (1 <=? char_length (Name row)) && (char_length (Name row) <=? 255)
  && (char_length (Body row) <=? 1048576)
  && ((Release_State row == "draft") || (Release_State row == "published")
      || (Release_State row == "deleting"))
  && (1 <=? char_length (CreatedByDID row)) && (char_length (CreatedByDID row) <=? 2048)
  && (((Release_State row == "draft") && negb (is_some (PublishedAt row)))
      || ((Release_State row == "published") && is_some (PublishedAt row))
      || (Release_State row == "deleting")).
Definition asset_checks (row : Asset) : bool :=
  (1 <=? char_length (Asset_Name row)) && (char_length (Asset_Name row) <=? 255)
  && (Asset_Name row != ".") && (Asset_Name row != "..") && negb (ContainsAny (Asset_Name row) "/\")
  && (1 <=? char_length (ContentType row)) && (char_length (ContentType row) <=? 255)
  && (0 <=? SizeBytes row) && match_class_n is_lower_hex 64 (SHA256 row)
  && (1 <=? char_length (StorageKey row)) && (char_length (StorageKey row) <=? 1024)
  && negb (HasPrefix (StorageKey row) "/")
  && forallb (fun part => part != "..") (Split "/" (StorageKey row)).

Definition is_release (repositoryID id : UUID) (row : Release) : bool :=
  (ID row =? id) && (RepositoryID row =? repositoryID).
Definition is_asset (repositoryID releaseID id : UUID) (row : Asset) : bool :=
  (Asset_ID row =? id) && (ReleaseID row =? releaseID) && (Asset_RepositoryID row =? repositoryID).
Definition of_release (repositoryID releaseID : UUID) (row : Asset) : bool :=
  (ReleaseID row =? releaseID) && (Asset_RepositoryID row =? repositoryID).

Definition release_key (row : Release) : time * UUID := (CreatedAt row, ID row).
Definition asset_key (row : Asset) : time * UUID := (Asset_CreatedAt row, Asset_ID row).
Definition release_visible (repositoryID : UUID) (includeDrafts : bool) (row : Release) : bool :=
  (RepositoryID row =? repositoryID)
  && ((Release_State row == "published") || (includeDrafts && (Release_State row == "draft"))).

(** [sum(size_bytes)]. *)
Fixpoint total (rows : list Asset) : Z :=
  match rows with [] => 0 | row :: rest => SizeBytes row + total rest end.
Definition repository_assets (repositoryID : UUID) (rows : list Asset) : list Asset :=
  List.filter (fun row => Asset_RepositoryID row =? repositoryID) rows.
Definition release_assets (repositoryID releaseID : UUID) (rows : list Asset) : list Asset :=
  List.filter (of_release repositoryID releaseID) rows.

(** The queries, by their names. *)
Module queries.
Definition CreateRelease (row : Release) (s : db) : result Release * db :=
  if negb (release_checks row) then (Err check_violation, s)
  else if existsb (fun r => ID r =? ID row) (releases s)
     || existsb (fun r => (RepositoryID r =? RepositoryID row) && (TagName r == TagName row)) (releases s)
  then (Err unique_violation, s)
  else (Ok row, with_releases (releases s ++ [row]) s).
Definition GetRelease (repositoryID id : UUID) (s : db) : result Release :=
  find_row ErrNoRows (is_release repositoryID id) (releases s).
Definition PageReleases (repositoryID : UUID) (includeDrafts : bool) (after : option UUID) (limit : Z)
    (s : db) : list Release :=
  keyset.page_rows release_key (fun row => RepositoryID row =? repositoryID)
    (release_visible repositoryID includeDrafts) after limit (releases s).
Definition update (hit : Release -> bool) (change : Release -> Release) (s : db) : result Release * db :=
  match find_row ErrNoRows hit (releases s) with
  | Err e => (Err e, s)
  | Ok row => if negb (release_checks (change row)) then (Err check_violation, s)
              else (Ok (change row), with_releases (update_where hit change (releases s)) s)
  end.
Definition UpdateRelease (v : Release) (s : db) : result Release * db :=
  update (is_release (RepositoryID v) (ID v))
    (fun row => mkRelease (ID row) (RepositoryID row) (TagName row) (TargetSHA row) (Name v) (Body v)
                  (Release_State v) (Prerelease v) (CreatedByDID row) (CreatedAt row) (UpdatedAt v)
                  (PublishedAt v)) s.
Definition MarkReleaseDeleting (updatedAt : time) (repositoryID id : UUID) (s : db) : result Release * db :=
  update (is_release repositoryID id)
    (fun row => mkRelease (ID row) (RepositoryID row) (TagName row) (TargetSHA row) (Name row) (Body row)
                  "deleting" (Prerelease row) (CreatedByDID row) (CreatedAt row) updatedAt
                  (PublishedAt row)) s.
(** The rows deleted; the assets of the release go with it. *)
Definition DeleteRelease (repositoryID id : UUID) (s : db) : Z * db :=
  let hit := is_release repositoryID id in
  (Z.of_nat (length (List.filter hit (releases s))),
   if existsb hit (releases s)
   then with_assets (List.filter (fun row => negb (of_release repositoryID id row)) (assets s))
          (with_releases (List.filter (fun row => negb (hit row)) (releases s)) s)
   else s).
Definition CreateReleaseAsset (row : Asset) (s : db) : result Asset * db :=
  if negb (asset_checks row) then (Err check_violation, s)
  else if existsb (fun r => Asset_ID r =? Asset_ID row) (assets s)
     || existsb (fun r => (ReleaseID r =? ReleaseID row) && (Asset_Name r == Asset_Name row)) (assets s)
     || existsb (fun r => StorageKey r == StorageKey row) (assets s)
  then (Err unique_violation, s)
  else if negb (existsb (is_release (Asset_RepositoryID row) (ReleaseID row)) (releases s))
  then (Err (New "insert violates foreign key constraint"), s)
  else (Ok row, with_assets (assets s ++ [row]) s).
Definition GetReleaseAsset (repositoryID releaseID id : UUID) (s : db) : result Asset :=
  find_row ErrNoRows (is_asset repositoryID releaseID id) (assets s).
Definition PageReleaseAssets (repositoryID releaseID : UUID) (after : option UUID) (limit : Z) (s : db)
    : list Asset :=
  keyset.page_rows asset_key (of_release repositoryID releaseID) (of_release repositoryID releaseID)
    after limit (assets s).
Definition by_id (x y : Asset) : Prop := Asset_ID x <= Asset_ID y.
#[export] Instance by_id_dec : RelDecision by_id.
Proof. intros x y. unfold by_id. apply _. Defined.
Definition ListReleaseAssetsForDeletion (repositoryID releaseID : UUID) (s : db) : list Asset :=
  merge_sort by_id (release_assets repositoryID releaseID (assets s)).
(** The bytes of the release and of the repository. *)
Definition GetReleaseAssetUsage (repositoryID releaseID : UUID) (s : db) : Z * Z :=
  (total (release_assets repositoryID releaseID (assets s)),
   total (repository_assets repositoryID (assets s))).
Definition DeleteReleaseAsset (repositoryID releaseID id : UUID) (s : db) : Z * db :=
  let hit := is_asset repositoryID releaseID id in
  (Z.of_nat (length (List.filter hit (assets s))),
   with_assets (List.filter (fun row => negb (hit row)) (assets s)) s).
End queries.

(** [int64] wraps around. *)
Definition wrap64 (z : Z) : Z := (z + 2 ^ 63) mod 2 ^ 64 - 2 ^ 63.
Definition exceeds (current additional maximum : Z) : bool := wrap64 (maximum - additional) <? current.

(** The methods of [PostgresStore]; a transaction that fails is rolled back. *)
Module postgres.
Definition mapped {A} (r : result A * db) : result A * db := (mapErr mapStoreError (fst r), snd r).
Definition some_rows (r : Z * db) : result unit * db :=
  (if fst r =? 0 then Err ErrNotFound else Ok tt, snd r).
(** The page of at most [limit] items the [limit + 1] requested rows make. *)
Definition page {R} (id : R -> UUID) (limit : Z) (rows : list R) : Page R :=
  let items := firstn (Z.to_nat limit) rows in
  mkPage items (if limit <? Z.of_nat (length rows) then option_map id (last items) else None).

Definition CreateRelease (value : Release) (s : db) : result Release * db :=
  mapped (queries.CreateRelease
    (mkRelease (ID value) (RepositoryID value) (TagName value) (TargetSHA value) (Name value) (Body value)
       (Release_State value) (Prerelease value) (CreatedByDID value) (CreatedAt value) (CreatedAt value)
       (PublishedAt value)) s).
Definition GetRelease (repositoryID id : UUID) (s : db) : result Release :=
  mapErr mapStoreError (queries.GetRelease repositoryID id s).
Definition PageReleases (repositoryID : UUID) (includeDrafts : bool) (after : option UUID) (limit : Z)
    (s : db) : Page Release :=
  page ID limit (queries.PageReleases repositoryID includeDrafts after (limit + 1) s).
Definition UpdateRelease (value : Release) (s : db) : result Release * db :=
  mapped (queries.UpdateRelease value s).
Definition DeleteRelease (repositoryID id : UUID) (s : db) : result unit * db :=
  some_rows (queries.DeleteRelease repositoryID id s).
Definition BeginDeleteRelease (repositoryID id : UUID) (now : time) (s : db) : result unit * db :=
  let '(r, s') := mapped (queries.MarkReleaseDeleting now repositoryID id s) in
  match r with Ok _ => (Ok tt, s') | Err e => (Err e, s) end.
Definition CreateAsset (value : Asset) (limits : Limits) (s : db) : result Asset * db :=
  let repositoryID := Asset_RepositoryID value in
  let '(release_bytes, repository_bytes) := queries.GetReleaseAssetUsage repositoryID (ReleaseID value) s in
  match GetRelease repositoryID (ReleaseID value) s with
  | Err e => (Err e, s)
  | Ok releaseRow =>
      if Release_State releaseRow == StateDeleting then (Err ErrNotFound, s) else
      if exceeds release_bytes (SizeBytes value) (ReleaseBytes limits)
         || exceeds repository_bytes (SizeBytes value) (RepositoryBytes limits)
      then (Err ErrQuotaExceeded, s) else
      let '(row, s') := mapped (queries.CreateReleaseAsset value s) in
      match row with Ok row => (Ok row, s') | Err e => (Err e, s) end
  end.
Definition GetAsset (repositoryID releaseID id : UUID) (s : db) : result Asset :=
  mapErr mapStoreError (queries.GetReleaseAsset repositoryID releaseID id s).
Definition PageAssets (repositoryID releaseID : UUID) (after : option UUID) (limit : Z) (s : db) : Page Asset :=
  page Asset_ID limit (queries.PageReleaseAssets repositoryID releaseID after (limit + 1) s).
Definition ListAssets (repositoryID releaseID : UUID) (s : db) : list Asset :=
  queries.ListReleaseAssetsForDeletion repositoryID releaseID s.
Definition DeleteAsset (repositoryID releaseID id : UUID) (s : db) : result unit * db :=
  some_rows (queries.DeleteReleaseAsset repositoryID releaseID id s).
End postgres.

(** What [BlobStore] promises: a key keeps the first bytes that were put under it, all of
    them or none, until it is deleted. *)
Module blobstore.
Definition unavailable : error := New "blob store unavailable".
Definition Put (key : string) (body : list Z) (size : Z) (m : gmap string (list Z))
    : result string * gmap string (list Z) :=
  if negb (Z.of_nat (length body) =? size) then (Err ErrSizeMismatch, m) else
  let checksum := hex_EncodeToString (Sum256 body) in
  match m !! key with
  | Some old => (if bool_decide (old = body) then Ok checksum else Err ErrConflict, m)
  | None => (Ok checksum, <[key := body]> m)
  end.
Definition Open (key : string) (m : gmap string (list Z)) : result (list Z) :=
  match m !! key with Some body => Ok body | None => Err ErrNotFound end.
Definition Delete (key : string) (m : gmap string (list Z)) : result unit * gmap string (list Z) :=
  (Ok tt, delete key m).
End blobstore.

(** A call of the blob store, if it does not fail. *)
Definition blob_call {A} (s : db) (p : gmap string (list Z) -> result A * gmap string (list Z))
    : result A * db :=
  match faults s with
  | true :: rest => (Err blobstore.unavailable, with_faults rest s)
  | rest => let '(r, m) := p (blobs s) in (r, with_faults (tl rest) (with_blobs m s))
  end.

Definition handle X (e : effect X) (s : db) : X * db :=
  match e in effect X return X * db with
  | Tags repo => (Ok (map snd (List.filter (fun t => fst t =? repo) (repo_tags s))), s)
  | NewID => (Ok (fresh s), with_fresh (fresh s + 1) s)
  | Now => (clock s, s)
  | CreateRelease v => postgres.CreateRelease v s
  | GetRelease repo id => (postgres.GetRelease repo id s, s)
  | PageReleases repo drafts after limit => (Ok (postgres.PageReleases repo drafts after limit s), s)
  | UpdateRelease v => postgres.UpdateRelease v s
  | BeginDeleteRelease repo id now => postgres.BeginDeleteRelease repo id now s
  | DeleteRelease repo id => postgres.DeleteRelease repo id s
  | CreateAsset v limits => postgres.CreateAsset v limits s
  | store_GetAsset repo rel id => (postgres.GetAsset repo rel id s, s)
  | store_PageAssets repo rel after limit => (Ok (postgres.PageAssets repo rel after limit s), s)
  | ListAssets repo rel => (Ok (postgres.ListAssets repo rel s), s)
  | store_DeleteAsset repo rel id => postgres.DeleteAsset repo rel id s
  | blobs_Put key body size => blob_call s (blobstore.Put key body size)
  | blobs_Open key => blob_call s (fun m => (blobstore.Open key m, m))
  | blobs_Delete key => blob_call s (blobstore.Delete key)
  end.

(** ** What the tables keep *)

Lemma size_nonneg a : asset_checks a = true -> 0 <= SizeBytes a.
Proof. unfold asset_checks. rewrite !andb_true_iff, !Z.leb_le. tauto. Qed.
Lemma total_app l k : total (l ++ k) = total l + total k.
Proof. induction l as [| a l IH]; cbn; [done | lia]. Qed.
Lemma total_nonneg l : Forall (fun a => asset_checks a = true) l -> 0 <= total l.
Proof.
  induction 1 as [| a l Ha%size_nonneg _ IH]; cbn; [done |]. lia.
Qed.
Lemma total_filter (f g : Asset -> bool) l :
  Forall (fun a => asset_checks a = true) l ->
  total (List.filter f (List.filter g l)) <= total (List.filter f l).
Proof.
  induction 1 as [| a l Ha%size_nonneg _ IH]; cbn; [done |]. destruct (g a); cbn; destruct (f a); cbn; lia.
Qed.

Lemma wrap64_id z : - 2 ^ 63 <= z < 2 ^ 63 -> wrap64 z = z.
Proof. intros Hz. unfold wrap64. rewrite Z.mod_small by lia. lia. Qed.
Lemma exceeds_false current additional maximum :
  0 <= additional < 2 ^ 63 -> 0 <= maximum < 2 ^ 63 ->
  exceeds current additional maximum = false <-> current + additional <= maximum.
Proof. intros Ha Hm. unfold exceeds. rewrite wrap64_id, Z.ltb_ge by lia. lia. Qed.

Section tables.
Context (limits : Limits).
Hypothesis limits_int64 : ReleaseBytes limits < 2 ^ 63 /\ RepositoryBytes limits < 2 ^ 63.

(** Ids, tags and keys are unique, the rows satisfy their constraints, an asset belongs to a
    release of its repository, and the quotas hold. *)
Record sound (s : db) : Prop := mkSound {
  release_ids : NoDup (map ID (releases s));
  tags_once : NoDup (map (fun r => (RepositoryID r, TagName r)) (releases s));
  asset_ids : NoDup (map Asset_ID (assets s));
  names_once : NoDup (map (fun a => (ReleaseID a, Asset_Name a)) (assets s));
  keys_once : NoDup (map StorageKey (assets s));
  releases_checked : Forall (fun r => release_checks r = true) (releases s);
  assets_checked : Forall (fun a => asset_checks a = true) (assets s);
  assets_owned : Forall (fun a => exists r, r ∈ releases s /\ ID r = ReleaseID a /\
                           RepositoryID r = Asset_RepositoryID a) (assets s);
  release_quota : forall repo rel, total (release_assets repo rel (assets s)) <= ReleaseBytes limits;
  repository_quota : forall repo, total (repository_assets repo (assets s)) <= RepositoryBytes limits
}.

(** What the services ask of the store: the configured limits, and sizes that are int64s. *)
Definition permitted (X : Type) (e : effect X) : Prop :=
  match e with CreateAsset v l => l = limits /\ SizeBytes v < 2 ^ 63 | _ => True end.
Inductive step : db -> db -> Prop :=
| step_effect X (e : effect X) s : permitted X e -> step s (snd (handle X e s))
| step_world s t faults' repo_tags' :
    step s (mkDb (releases s) (assets s) (blobs s) repo_tags' faults' (fresh s) t).

(** Fewer assets: what their constraints and quotas become. *)
Lemma fewer_assets s keep :
  sound s -> sound (with_assets (List.filter keep (assets s)) s).
Proof.
  intros []. assert (Hs : sublist (List.filter keep (assets s)) (assets s)) by apply filter_sublist_of.
  split; cbn; try done;
    try (eapply sublist_NoDup; [eassumption | by apply fmap_sublist]); try by eapply Forall_sublist_of.
  - intros repo rel. etrans; [by apply total_filter | apply release_quota0].
  - intros repo. etrans; [by apply total_filter | apply repository_quota0].
Qed.

(** More releases, or other ones in their place. *)
Lemma other_releases s rows :
  sound s -> NoDup (map ID rows) -> NoDup (map (fun r => (RepositoryID r, TagName r)) rows) ->
  Forall (fun r => release_checks r = true) rows ->
  (forall r a, r ∈ releases s -> a ∈ assets s -> ID r = ReleaseID a -> RepositoryID r = Asset_RepositoryID a ->
     exists r', r' ∈ rows /\ ID r' = ID r /\ RepositoryID r' = RepositoryID r) ->
  sound (with_releases rows s).
Proof.
  intros [] Hi Ht Hc Ho. split; cbn; try done. rewrite Forall_forall in *. intros a Ha.
  destruct (assets_owned0 a Ha) as (r & Hr & E1 & E2). destruct (Ho r a Hr Ha E1 E2) as (r' & Hr' & E3 & E4).
  exists r'. split_and!; congruence.
Qed.

Lemma update_sound s hit change r s' :
  sound s -> (forall r, ID (change r) = ID r /\ RepositoryID (change r) = RepositoryID r /\
                        TagName (change r) = TagName r) ->
  (forall r r', hit r = true -> hit r' = true -> ID r = ID r') ->
  queries.update hit change s = (r, s') -> sound s'.
Proof.
  intros Hs Hch Hone. unfold queries.update. destruct (find_row _ _ _) as [row |] eqn:Hf; [| by intros [= _ <-]].
  destruct (release_checks (change row)) eqn:Hc; cbn [negb]; [| by intros [= _ <-]]. intros [= _ <-].
  apply find_row_Ok in Hf as [Hrow Hhit]. pose proof Hs as [].
  apply other_releases; [done | | | |].
  - by rewrite update_where_map by apply Hch.
  - rewrite update_where_map; [done |]. intros x. destruct (Hch x) as (_ & -> & ->). done.
  - apply Forall_forall. intros x (y & Hy & ->)%update_where_elem. rewrite Forall_forall in releases_checked0.
    destruct (hit y) eqn:Hh; [| by apply releases_checked0].
    assert (y = row) as -> by (eapply NoDup_map_inj; [exact release_ids0 | done | done | by apply Hone]). done.
  - intros x a Hx _ _ _. exists (if hit x then change x else x).
    split; [apply update_where_elem; eauto |]. destruct (hit x); [| done]. destruct (Hch x) as (-> & -> & _). done.
Qed.

Lemma is_release_one repo id r r' : is_release repo id r = true -> is_release repo id r' = true -> ID r = ID r'.
Proof. unfold is_release. rewrite !andb_true_iff, !Z.eqb_eq. intros [-> _] [-> _]. done. Qed.

Lemma CreateRelease_sound s row r s' : sound s -> queries.CreateRelease row s = (r, s') -> sound s'.
Proof.
  intros Hs. unfold queries.CreateRelease. destruct (release_checks row) eqn:Hc; cbn [negb]; [| by intros [= _ <-]].
  destruct (_ || _) eqn:Hu; [by intros [= _ <-] |]. apply orb_false_iff in Hu as [Hi Ht]. intros [= _ <-].
  pose proof Hs as []. apply other_releases; [done | | | |].
  - rewrite map_app. cbn [map]. apply NoDup_snoc; [| done]. intros (x & Hx & Hin)%list_elem_of_fmap.
    rewrite <- not_true_iff_false, existsb_exists in Hi. apply Hi. exists x. split; [by apply list_elem_of_In |].
    by apply Z.eqb_eq.
  - rewrite map_app. cbn [map]. apply NoDup_snoc; [| done]. intros (x & [= E1 E2] & Hin)%list_elem_of_fmap.
    rewrite <- not_true_iff_false, existsb_exists in Ht. apply Ht. exists x. split; [by apply list_elem_of_In |].
    by rewrite E1, E2, Z.eqb_refl, String.eqb_refl.
  - apply Forall_app. split; [done | by repeat constructor].
  - intros x a Hx _ _ _. exists x. split; [| done]. apply elem_of_app. by left.
Qed.

Lemma CreateReleaseAsset_Ok s row r s' :
  queries.CreateReleaseAsset row s = (Ok r, s') ->
  r = row /\ s' = with_assets (assets s ++ [row]) s /\ asset_checks row = true /\
  (forall a, a ∈ assets s -> Asset_ID a <> Asset_ID row /\ StorageKey a <> StorageKey row /\
                             (ReleaseID a, Asset_Name a) <> (ReleaseID row, Asset_Name row)) /\
  exists rel, rel ∈ releases s /\ ID rel = ReleaseID row /\ RepositoryID rel = Asset_RepositoryID row.
Proof.
  unfold queries.CreateReleaseAsset. destruct (asset_checks row) eqn:Hc; cbn [negb]; [| done].
  destruct (_ || _) eqn:Hu; [done |]. destruct (existsb (is_release _ _) _) eqn:He; cbn [negb]; [| done].
  intros [= <- <-]. split_and!; try done.
  - apply orb_false_iff in Hu as [[H1 H2]%orb_false_iff H3]. intros a Ha%list_elem_of_In.
    rewrite <- not_true_iff_false, existsb_exists in H1, H2, H3. split_and!.
    + intros E. apply H1. exists a. split; [done | by apply Z.eqb_eq].
    + intros E. apply H3. exists a. split; [done | by apply String.eqb_eq].
    + intros [= E1 E2]. apply H2. exists a. split; [done |]. by rewrite E1, E2, Z.eqb_refl, String.eqb_refl.
  - apply existsb_exists in He as (rel & Hr%list_elem_of_In & Hk). exists rel. unfold is_release in Hk.
    by rewrite andb_true_iff, !Z.eqb_eq in Hk.
Qed.

Lemma CreateAsset_Ok s v r s' :
  sound s -> SizeBytes v < 2 ^ 63 -> postgres.CreateAsset v limits s = (Ok r, s') ->
  r = v /\ s' = with_assets (assets s ++ [v]) s /\ asset_checks v = true /\
  (forall a, a ∈ assets s -> Asset_ID a <> Asset_ID v /\ StorageKey a <> StorageKey v /\
                             (ReleaseID a, Asset_Name a) <> (ReleaseID v, Asset_Name v)) /\
  (exists rel, rel ∈ releases s /\ ID rel = ReleaseID v /\ RepositoryID rel = Asset_RepositoryID v) /\
  total (release_assets (Asset_RepositoryID v) (ReleaseID v) (assets s)) + SizeBytes v <= ReleaseBytes limits /\
  total (repository_assets (Asset_RepositoryID v) (assets s)) + SizeBytes v <= RepositoryBytes limits.
Proof.
  intros Hs Hz. unfold postgres.CreateAsset. cbn zeta. unfold queries.GetReleaseAssetUsage.
  destruct (postgres.GetRelease _ _ _) as [rel |]; [| done]. destruct (_ == _); [done |].
  destruct (_ || _) eqn:Hq; [done |]. destruct (postgres.mapped _) as [[row | e] s1] eqn:Hm; [| done].
  intros [= -> ->]. unfold postgres.mapped in Hm.
  destruct (queries.CreateReleaseAsset v s) as [[row |] s2] eqn:Hc; cbn in Hm; [| done]. injection Hm as -> ->.
  destruct (CreateReleaseAsset_Ok _ _ _ _ Hc) as (-> & -> & Hck & Hn & Ho). pose proof (size_nonneg _ Hck).
  apply orb_false_iff in Hq as [Hq1 Hq2].
  pose proof (release_quota s Hs (Asset_RepositoryID v) (ReleaseID v)) as B1.
  pose proof (repository_quota s Hs (Asset_RepositoryID v)) as B2.
  pose proof (total_nonneg (release_assets (Asset_RepositoryID v) (ReleaseID v) (assets s))) as P1.
  pose proof (total_nonneg (repository_assets (Asset_RepositoryID v) (assets s))) as P2.
  assert (Hsub : forall f, Forall (fun a => asset_checks a = true) (List.filter f (assets s))).
  { intros f. eapply Forall_sublist_of; [apply filter_sublist_of | apply assets_checked, Hs]. }
  specialize (P1 (Hsub _)). specialize (P2 (Hsub _)).
  apply exceeds_false in Hq1; [| lia | lia]. apply exceeds_false in Hq2; [| lia | lia]. done.
Qed.

Lemma CreateAsset_Err v l s e s' : postgres.CreateAsset v l s = (Err e, s') -> s' = s.
Proof.
  unfold postgres.CreateAsset. cbn zeta. destruct (queries.GetReleaseAssetUsage _ _ _).
  destruct (postgres.GetRelease _ _ _) as [rel |]; [| by intros [= _ <-]].
  destruct (_ == _); [by intros [= _ <-] |]. destruct (_ || _); [by intros [= _ <-] |].
  destruct (postgres.mapped _) as [[row | ?] s1]; [done | by intros [= _ <-]].
Qed.

Lemma CreateAsset_sound s v r s' :
  sound s -> SizeBytes v < 2 ^ 63 -> postgres.CreateAsset v limits s = (r, s') -> sound s'.
Proof.
  intros Hs Hz Hx. destruct r as [r | e].
  2: { by apply CreateAsset_Err in Hx as ->. }
  destruct (CreateAsset_Ok _ _ _ _ Hs Hz Hx) as (-> & -> & Hck & Hn & Ho & Hq1 & Hq2). pose proof Hs as [].
  split; cbn; try done.
  - rewrite map_app. cbn [map]. apply NoDup_snoc; [| done]. intros (a & E & Ha)%list_elem_of_fmap.
    destruct (Hn a Ha) as (? & _). congruence.
  - rewrite map_app. cbn [map]. apply NoDup_snoc; [| done]. intros (a & E & Ha)%list_elem_of_fmap.
    destruct (Hn a Ha) as (_ & _ & ?). congruence.
  - rewrite map_app. cbn [map]. apply NoDup_snoc; [| done]. intros (a & E & Ha)%list_elem_of_fmap.
    destruct (Hn a Ha) as (_ & ? & _). congruence.
  - apply Forall_app. split; [done | by repeat constructor].
  - apply Forall_app. split; [done |]. by repeat constructor.
  - intros repo rel. unfold release_assets in *. rewrite filter_snoc, total_app.
    destruct (of_release repo rel v) eqn:Hv; [| cbn; by rewrite Z.add_0_r].
    unfold of_release in Hv. rewrite andb_true_iff, !Z.eqb_eq in Hv. destruct Hv as [<- <-]. cbn. lia.
  - intros repo. unfold repository_assets in *. rewrite filter_snoc, total_app.
    destruct (Asset_RepositoryID v =? repo) eqn:Hv; [| cbn; by rewrite Z.add_0_r].
    apply Z.eqb_eq in Hv as <-. cbn. lia.
Qed.

Lemma DeleteRelease_sound s repo id n s' : sound s -> queries.DeleteRelease repo id s = (n, s') -> sound s'.
Proof.
  intros Hs. unfold queries.DeleteRelease. intros [= _ <-].
  destruct (existsb _ _) eqn:He; [| done]. pose proof (fewer_assets s (fun row => negb (of_release repo id row)) Hs) as Hf.
  apply (other_releases _ (List.filter (fun row => negb (is_release repo id row)) (releases s))) in Hf.
  - exact Hf.
  - eapply sublist_NoDup; [apply release_ids, Hs | apply fmap_sublist, filter_sublist_of].
  - eapply sublist_NoDup; [apply tags_once, Hs | apply fmap_sublist, filter_sublist_of].
  - eapply Forall_sublist_of; [apply filter_sublist_of | apply releases_checked, Hs].
  - cbn. intros r a Hr [Ha Hn]%filter_elem E1 E2. exists r. split; [| done]. apply filter_elem. split; [done |].
    unfold is_release, of_release in *. by rewrite E1, E2.
Qed.

Lemma blob_call_tables {A} s (p : gmap string (list Z) -> result A * gmap string (list Z)) :
  releases (snd (blob_call s p)) = releases s /\ assets (snd (blob_call s p)) = assets s.
Proof. unfold blob_call. destruct (faults s) as [| [] rest]; [| done |]; destruct (p (blobs s)); done. Qed.
Lemma same_rows s s' : releases s' = releases s -> assets s' = assets s -> sound s -> sound s'.
Proof. intros Hr Ha []. by split; rewrite ?Hr, ?Ha. Qed.

Lemma handle_sound X (e : effect X) s : permitted X e -> sound s -> sound (snd (handle X e s)).
Proof.
  intros Hp Hs. destruct e; cbn [handle snd]; try done.
  - by apply (same_rows s).
  - unfold postgres.CreateRelease, postgres.mapped. cbn [snd]. eapply CreateRelease_sound; [done | apply surjective_pairing].
  - unfold postgres.UpdateRelease, postgres.mapped. cbn [snd].
    eapply update_sound; [done | | | apply surjective_pairing]; [done | apply is_release_one].
  - unfold postgres.BeginDeleteRelease, postgres.mapped. cbn [fst snd].
    destruct (queries.MarkReleaseDeleting _ _ _ _) as [[row |] s1] eqn:Hm; cbn; [| done].
    eapply update_sound; [done | | | exact Hm]; [done | apply is_release_one].
  - unfold postgres.DeleteRelease, postgres.some_rows. cbn [snd]. eapply DeleteRelease_sound; [done | apply surjective_pairing].
  - destruct Hp as [-> Hz]. eapply CreateAsset_sound; [done | done | apply surjective_pairing].
  - unfold postgres.DeleteAsset, postgres.some_rows, queries.DeleteReleaseAsset. cbn [snd]. by apply fewer_assets.
  - destruct (blob_call_tables s (blobstore.Put key body size)). by apply (same_rows s).
  - destruct (blob_call_tables s (fun m => (blobstore.Open key m, m))). by apply (same_rows s).
  - destruct (blob_call_tables s (blobstore.Delete key)). by apply (same_rows s).
Qed.

(** C16: Whatever is asked of the store, and however it interleaves, from empty tables: a tag
    has one release at most, in a state that agrees with its time of publication; an asset
    belongs to a release of its repository, under a name and a key of its own; and the sizes
    of a release's assets and of a repository's never add up to more than their quotas. The
    64-bit comparison that decides on another asset is exact in every such state. *)
Theorem quotas_hold (s s' : db) :
  0 <= ReleaseBytes limits -> 0 <= RepositoryBytes limits ->
  releases s = [] -> assets s = [] -> rtc step s s' ->
  sound s' /\
  forall repo rel size, 0 <= size < 2 ^ 63 ->
    let '(release_bytes, repository_bytes) := queries.GetReleaseAssetUsage repo rel s' in
    (exceeds release_bytes size (ReleaseBytes limits) = false <-> release_bytes + size <= ReleaseBytes limits) /\
    (exceeds repository_bytes size (RepositoryBytes limits) = false
       <-> repository_bytes + size <= RepositoryBytes limits).
Proof.
  intros L1 L2 Hr Ha Hsteps. split.
  - assert (H0 : sound s) by (split; rewrite ?Hr, ?Ha; cbn; done || by constructor).
    clear Hr Ha. induction Hsteps as [| s1 s2 s3 H12 _ IH]; [done |]. apply IH.
    destruct H12 as [X e s1 He | s1]; [by apply handle_sound | by apply (same_rows s1)].
  - intros repo rel size Hz. split; apply exceeds_false; lia.
Qed.
End tables.

(** ** Uploads *)

Section uploads.
Context `{UUIDs, GoMIME}.

Lemma blob_call_cases {A} s (p : gmap string (list Z) -> result A * gmap string (list Z)) r s' :
  blob_call s p = (r, s') ->
  releases s' = releases s /\ assets s' = assets s /\ fresh s' = fresh s /\ faults s' = tl (faults s) /\
  ((r, blobs s') = p (blobs s) \/ faults s <> [] /\ (exists e, r = Err e) /\ blobs s' = blobs s).
Proof.
  unfold blob_call. destruct (faults s) as [| [] rest] eqn:E.
  2: { intros [= <- <-]. cbn. split_and!; try done. right. eauto. }
  all: destruct (p (blobs s)) as [r0 m]; intros [= <- <-]; cbn; split_and!; try done; by left.
Qed.

Lemma every_UploadAsset limits repo rel input :
  AI_SizeBytes input < 2 ^ 63 -> every (permitted limits) (UploadAsset limits repo rel input).
Proof.
  intros Hz. unfold UploadAsset. destruct (AssetInput_Validate _ _) as [[ct body] | e]; [| done].
  split; [done |]. intros [current | e]; cbn; [| done]. destruct (_ == _); [done |].
  split; [done |]. intros [id | e]; cbn; [| done]. split; [done |]. intros [checksum | e]; cbn; [| done].
  split; [done |]. intros now. split; [done |]. intros [created | e]; [done |]. split; [done |].
  by intros [[] | e'].
Qed.

(** C15: An upload is stored whole or not at all.  If it succeeds there is one more asset, of
    the size that was declared, with the SHA-256 of the bytes that came, under a key of its
    own with exactly these bytes, which a download then gives back; if it fails the tables
    are as they were and so are the blobs, unless the blob store itself failed. *)
Theorem upload_all_or_nothing limits repo rel input s r s' :
  sound limits s -> ReleaseBytes limits < 2 ^ 63 /\ RepositoryBytes limits < 2 ^ 63 ->
  AI_SizeBytes input < 2 ^ 63 -> blobs s !! assetStorageKey repo rel (fresh s) = None ->
  exec handle (UploadAsset limits repo rel input) s = (r, s') ->
  releases s' = releases s /\
  match r with
  | Ok asset =>
      exists body, AI_Body input = Some body /\ Z.of_nat (length body) = AI_SizeBytes input /\
        SizeBytes asset = AI_SizeBytes input /\ SHA256 asset = hex_EncodeToString (Sum256 body) /\
        assets s' = assets s ++ [asset] /\ blobs s' = <[StorageKey asset := body]> (blobs s) /\
        fst (exec handle (let? found := GetAsset repo rel (Asset_ID asset) in OpenAsset found)
               (with_faults [] s')) = Ok body
  | Err _ => assets s' = assets s /\ (faults s = [] -> blobs s' = blobs s)
  end.
Proof.
  intros Hs Hl Hz Hk. unfold UploadAsset. rewrite exec_then. unfold lift at 1. rewrite exec_ret.
  destruct (AssetInput_Validate input (AssetBytes limits)) as [[ct body] | e] eqn:Hv; [| by intros [= <- <-]].
  assert (Hbody : AI_Body input = Some body).
  { revert Hv. unfold AssetInput_Validate. rewrite bind_unit_Ok, !reject_Ok. intros (_ & _ & _ & _ & Hv).
    destruct (AI_Body input); [| done]. destruct (ParseMediaType _); [| done]. apply reject_Ok in Hv as [_ Hv]. congruence. }
  rewrite exec_then, exec_wrap, exec_call. cbn [handle].
  destruct (postgres.GetRelease repo rel s) as [current | e]; cbn [mapErr]; [| by intros [= <- <-]].
  destruct (_ == _); [by intros [= <- <-] |].
  rewrite exec_then, exec_wrap, exec_call. cbn [handle mapErr].
  set (key := assetStorageKey repo rel (fresh s)) in *. set (s0 := with_fresh (fresh s + 1) s).
  rewrite exec_then, exec_wrap, exec_call. cbn [handle].
  destruct (blob_call s0 _) as [put s1] eqn:Hput. apply blob_call_cases in Hput as (Hr1 & Ha1 & _ & Hf1 & Hput).
  cbn in Hr1, Ha1, Hf1.
  destruct put as [checksum | e]; cbn [mapErr].
  2: { intros [= <- <-]. rewrite Hr1, Ha1. split_and!; try done. intros Hnf.
       destruct Hput as [Hput | (_ & _ & ?)]; [| done]. unfold blobstore.Put in Hput. cbn in Hput.
       destruct (negb _); [by injection Hput |]. rewrite Hk in Hput. discriminate. }
  destruct Hput as [Hput | (_ & (e & He) & _)]; [| done]. unfold blobstore.Put in Hput. cbn in Hput.
  destruct (Z.of_nat (length body) =? AI_SizeBytes input) eqn:Hlen; cbn [negb] in Hput; [| discriminate].
  apply Z.eqb_eq in Hlen. rewrite Hk in Hput. injection Hput as -> Hb1.
  rewrite exec_bind, exec_call. cbn [handle]. rewrite exec_bind, exec_call. cbn [handle].
  match goal with |- context [postgres.CreateAsset ?v limits s1] => set (asset := v) end.
  assert (Hs1 : sound limits s1) by by apply (same_rows limits s).
  destruct (postgres.CreateAsset asset limits s1) as [[created | e] s2] eqn:Hc.
  - apply (CreateAsset_Ok limits Hl) in Hc as (-> & -> & _ & Hn & _); [| done | done].
    unfold done_. rewrite exec_ret. intros [= <- <-]. cbn [releases with_assets]. split; [done |].
    exists body. cbn [SizeBytes asset SHA256]. split_and!; try done; [by cbn; rewrite Ha1 |].
    unfold GetAsset, OpenAsset. rewrite exec_then, exec_wrap, exec_call. cbn [handle].
    unfold postgres.GetAsset, queries.GetReleaseAsset. cbn [assets with_faults with_assets].
    assert (Hfind : find_row ErrNoRows (is_asset repo rel (Asset_ID asset)) (assets s1 ++ [asset]) = Ok asset).
    { unfold find_row. rewrite find_app_last; [done | | ].
      - apply not_true_iff_false. intros (a & Ha%list_elem_of_In & Hia)%existsb_exists.
        destruct (Hn a Ha) as [Hne _]. unfold is_asset in Hia. rewrite !andb_true_iff, Z.eqb_eq in Hia. tauto.
      - unfold is_asset, asset. cbn. by rewrite !Z.eqb_refl. }
    rewrite Hfind. cbn [mapErr]. rewrite exec_wrap, exec_call. cbn [handle StorageKey asset].
    unfold blob_call, blobstore.Open. cbn. by rewrite Hb1, lookup_insert_eq.
  - apply CreateAsset_Err in Hc as ->.
    rewrite exec_bind, exec_call. cbn [handle].
    destruct (blob_call s1 _) as [cleanup s3] eqn:Hd. apply blob_call_cases in Hd as (Hr3 & Ha3 & _ & _ & Hd).
    intros Hx. assert (s' = s3) as -> by (destruct cleanup; by injection Hx).
    assert (exists e', r = Err e') as [e' ->] by (destruct cleanup; injection Hx as <-; by eexists).
    rewrite Hr3, Ha3, Hr1, Ha1. split_and!; try done. intros Hnf.
    destruct Hd as [Hd | (Hf & _)]; [| by rewrite Hf1, Hnf in Hf]. injection Hd as _ ->. rewrite Hb1.
    by apply delete_insert_id.
Qed.
End uploads.

(** ** Deletion *)

Section deletion.
Context (limits : Limits).
Hypothesis limits_int64 : ReleaseBytes limits < 2 ^ 63 /\ RepositoryBytes limits < 2 ^ 63.

Lemma exec_sound {A} (p : prog effect A) s :
  every (permitted limits) p -> sound limits s -> sound limits (snd (exec handle p s)).
Proof.
  revert s. induction p as [a | X e k IH]; intros s; cbn [every]; [done |]. intros [He Hk] Hs.
  rewrite exec_vis. pose proof (handle_sound limits limits_int64 X e s He Hs) as Hs1.
  destruct (handle X e s) as [x s1]. by apply IH.
Qed.

Context (repo rel : UUID).
Abbreviation hit := (is_release repo rel).
Abbreviation of_it := (of_release repo rel).

Lemma every_deleteEach l : every (permitted limits) (deleteEach repo rel l).
Proof.
  induction l as [| a l IH]; [done |]. cbn [deleteEach]. apply every_then; [| by intros _].
  unfold DeleteAsset. split; [done |]. intros [x | e]; cbn; [| done]. split; [done |].
  intros [y | e]; cbn; [| done]. split; [done |]. intros [z | e]; cbn; done.
Qed.
Lemma every_Delete : every (permitted limits) (Delete repo rel).
Proof.
  unfold Delete. split; [done |]. intros now. split; [done |]. intros [[] | e]; cbn; [| done].
  split; [done |]. intros [assets | e]; cbn; [| done]. apply every_then; [apply every_deleteEach |].
  intros []. split; [done |]. intros [? | e]; cbn; done.
Qed.

(** [s1] is [s] after some of the assets of the release, and their blobs, were deleted. *)
Record emptied (s s1 : db) : Prop := mkEmptied {
  other_rows : List.filter (fun r => negb (hit r)) (releases s1) = List.filter (fun r => negb (hit r)) (releases s);
  still_there : existsb hit (releases s1) = existsb hit (releases s);
  less_assets : sublist (assets s1) (assets s);
  other_assets : List.filter (fun a => negb (of_it a)) (assets s1) = List.filter (fun a => negb (of_it a)) (assets s);
  same_blobs key : blobs s1 !! key = blobs s !! key \/
    blobs s1 !! key = None /\ exists a, a ∈ assets s /\ of_it a = true /\ StorageKey a = key;
  blobs_gone a : a ∈ assets s -> of_it a = true -> a ∉ assets s1 -> blobs s1 !! StorageKey a = None
}.

Lemma emptied_same s s1 : releases s1 = releases s -> assets s1 = assets s -> blobs s1 = blobs s -> emptied s s1.
Proof. intros Hr Ha Hb. split; rewrite ?Hr, ?Ha, ?Hb; try done. by left. Qed.
Lemma emptied_trans s s1 s2 : emptied s s1 -> emptied s1 s2 -> emptied s s2.
Proof.
  intros [] []. split; try congruence.
  - by etrans.
  - intros key. destruct (same_blobs1 key) as [-> | (Hn & a & Ha & Hof & Hk)]; [apply same_blobs0 |].
    right. split; [done |]. exists a. split_and!; try done. by eapply elem_of_sublist.
  - intros a Ha Hof Hn. destruct (decide (a ∈ assets s1)) as [H1 | H1]; [by apply blobs_gone1 |].
    pose proof (blobs_gone0 a Ha Hof H1) as Hb. destruct (same_blobs1 (StorageKey a)) as [-> | [? _]]; done.
Qed.

Lemma find_own s a :
  NoDup (map Asset_ID (assets s)) -> a ∈ assets s -> of_it a = true ->
  find_row ErrNoRows (is_asset repo rel (Asset_ID a)) (assets s) = Ok a.
Proof.
  intros Hnd Ha Hof. assert (Hia : is_asset repo rel (Asset_ID a) a = true).
  { unfold is_asset. rewrite Z.eqb_refl. exact Hof. }
  unfold find_row. destruct (List.find _ _) as [b |] eqn:Hf.
  - apply find_some in Hf as [Hb%list_elem_of_In Hib]. unfold is_asset in Hib. rewrite !andb_true_iff, Z.eqb_eq in Hib.
    f_equal. eapply NoDup_map_inj; [exact Hnd | done | done | tauto].
  - apply (find_none _ _) with (x := a) in Hf; [congruence | by apply list_elem_of_In].
Qed.

Lemma filter_own s a b :
  NoDup (map Asset_ID (assets s)) -> a ∈ assets s -> of_it a = true ->
  (b ∈ List.filter (fun row => negb (is_asset repo rel (Asset_ID a) row)) (assets s) <-> b ∈ assets s /\ b <> a).
Proof.
  intros Hnd Ha Hof. rewrite filter_elem. split; intros [Hb Hx]; (split; [done |]).
  - intros ->. revert Hx. unfold is_asset. rewrite Z.eqb_refl. cbn.
    change ((ReleaseID a =? rel) && (Asset_RepositoryID a =? repo)) with (of_it a). by rewrite Hof.
  - apply negb_true_iff, not_true_iff_false. unfold is_asset. rewrite !andb_true_iff, Z.eqb_eq. intros [[E _] _].
    apply Hx. eapply NoDup_map_inj; [exact Hnd | done | done | done].
Qed.

(** One asset: its blob goes, then its row, unless the blob store fails. *)
Lemma exec_DeleteAsset s a r s' :
  NoDup (map Asset_ID (assets s)) -> a ∈ assets s -> of_it a = true ->
  exec handle (DeleteAsset repo rel (Asset_ID a)) s = (r, s') ->
  emptied s s' /\ faults s' = tl (faults s) /\
  match r with
  | Ok _ => forall b, b ∈ assets s' <-> b ∈ assets s /\ b <> a
  | Err _ => faults s <> []
  end.
Proof.
  intros Hnd Ha Hof. unfold DeleteAsset. rewrite exec_then, exec_wrap, exec_call. cbn [handle].
  unfold postgres.GetAsset, queries.GetReleaseAsset. rewrite (find_own s a Hnd Ha Hof). cbn [mapErr].
  rewrite exec_then, exec_wrap, exec_call. cbn [handle].
  destruct (blob_call s _) as [d s1] eqn:Hd. apply blob_call_cases in Hd as (Hr1 & Ha1 & _ & Hf1 & Hd).
  destruct d as [[] | e]; cbn [mapErr].
  2: { intros [= <- <-]. destruct Hd as [Hd | (Hf & _ & Hb)]; [discriminate |]. split_and!; [by apply emptied_same | done | done]. }
  destruct Hd as [Hd | (_ & (e & He) & _)]; [| discriminate]. injection Hd as Hb1.
  rewrite exec_wrap, exec_call. cbn [handle].
  unfold postgres.DeleteAsset, postgres.some_rows, queries.DeleteReleaseAsset. cbn [fst snd].
  assert (Hn : Z.of_nat (length (List.filter (is_asset repo rel (Asset_ID a)) (assets s1))) =? 0 = false).
  { apply Z.eqb_neq. intros E. assert (Hin : a ∈ List.filter (is_asset repo rel (Asset_ID a)) (assets s1)).
    { rewrite Ha1. apply filter_elem. split; [done |]. unfold is_asset. rewrite Z.eqb_refl. exact Hof. }
    destruct (List.filter _ _); [by apply elem_of_nil in Hin | cbn in E; lia]. }
  rewrite Hn. cbn [mapErr]. intros [= <- <-]. rewrite Ha1.
  assert (Hels := fun b => filter_own s a b Hnd Ha Hof). split_and!; [| done |].
  - split; cbn [releases assets blobs with_assets]; rewrite ?Hr1; try done.
    + apply filter_sublist_of.
    + rewrite filter_twice; [done |]. intros b. unfold is_asset, of_release.
      destruct (Asset_ID b =? Asset_ID a), (ReleaseID b =? rel), (Asset_RepositoryID b =? repo); done.
    + intros key. rewrite Hb1. destruct (decide (StorageKey a = key)) as [<- | Hne].
      * right. rewrite lookup_delete_eq. split; [done | by exists a].
      * left. by rewrite lookup_delete_ne.
    + intros b Hb _ Hnb. rewrite Hels in Hnb. destruct (decide (b = a)) as [-> | Hne]; [| tauto].
      rewrite Hb1. apply lookup_delete_eq.
  - exact Hels.
Qed.

Lemma exec_deleteEach l s r s' :
  NoDup (map Asset_ID (assets s)) -> NoDup l -> (forall a, a ∈ l -> a ∈ assets s /\ of_it a = true) ->
  exec handle (deleteEach repo rel l) s = (r, s') ->
  emptied s s' /\
  match r with
  | Ok _ => forall b, b ∈ assets s' <-> b ∈ assets s /\ b ∉ l
  | Err _ => faults s <> []
  end.
Proof.
  revert s. induction l as [| a l IH]; intros s Hnd Hl Hin; cbn [deleteEach].
  { unfold done_. rewrite exec_ret. intros [= <- <-]. split; [by apply emptied_same |]. set_solver. }
  apply NoDup_cons in Hl as [Hal Hl]. rewrite exec_then.
  destruct (exec handle (DeleteAsset repo rel (Asset_ID a)) s) as [d s1] eqn:Hd.
  destruct (Hin a ltac:(by left)) as [Ha Hof].
  destruct (exec_DeleteAsset s a d s1 Hnd Ha Hof Hd) as (He & Hf & Hr). destruct d as [[] | e].
  2: { by intros [= <- <-]. }
  intros Hx. apply IH in Hx as (He' & Hr'); [| | done |].
  - split; [by eapply emptied_trans |]. destruct r as [[] | e].
    + intros b. rewrite Hr', Hr. set_solver.
    + intros E. apply Hr'. by rewrite Hf, E.
  - eapply sublist_NoDup; [exact Hnd | apply fmap_sublist; by destruct He].
  - intros b Hb. destruct (Hin b ltac:(by right)). split; [| done]. apply Hr. split; [done |]. by intros ->.
Qed.

(** Marking the release. *)
Lemma exec_mark s now :
  sound limits s -> existsb hit (releases s) = true ->
  exists s', postgres.BeginDeleteRelease repo rel now s = (Ok tt, s') /\ sound limits s' /\ emptied s s' /\
    faults s' = faults s /\ assets s' = assets s /\
    (forall r, r ∈ releases s' -> hit r = true -> Release_State r = StateDeleting).
Proof.
  intros Hs He. unfold postgres.BeginDeleteRelease, postgres.mapped. 
  pose proof (handle_sound limits limits_int64 _ (BeginDeleteRelease repo rel now) s I Hs) as Hs'. revert Hs'.
  cbn [handle]. unfold postgres.BeginDeleteRelease, postgres.mapped.
  unfold queries.MarkReleaseDeleting, queries.update.
  apply existsb_exists in He as (row & Hrow%list_elem_of_In & Hh).
  destruct (find_row ErrNoRows hit (releases s)) as [found | e] eqn:Hf.
  2: { exfalso. unfold find_row in Hf. destruct (List.find _ _) eqn:Hf'; [done |].
       apply (find_none _ _) with (x := row) in Hf'; [congruence | by apply list_elem_of_In]. }
  apply find_row_Ok in Hf as [Hfound Hhf].
  pose proof (releases_checked _ _ Hs) as Hc. rewrite Forall_forall in Hc. specialize (Hc found Hfound).
  match goal with |- context [release_checks ?r] => assert (Hck : release_checks r = true) end.
  { revert Hc. unfold release_checks. cbn. rewrite !andb_true_iff. intuition. }
  rewrite Hck. cbn [negb fst snd mapErr]. intros Hs'. eexists. split; [done |]. split; [exact Hs' |].
  split; [| split_and!; [done | done |]].
  - assert (Hview : forall r, hit (mkRelease (ID r) (RepositoryID r) (TagName r) (TargetSHA r) (Name r) (Body r)
              "deleting" (Prerelease r) (CreatedByDID r) (CreatedAt r) now (PublishedAt r)) = hit r) by done.
    split; cbn [releases assets blobs with_releases]; try done; [| | by left].
    + clear -Hview. induction (releases s) as [| x l IH]; [done |]. cbn [update_where map List.filter].
      destruct (hit x) eqn:Hx; [rewrite Hview, Hx | rewrite Hx]; cbn [negb]; unfold update_where in IH; by rewrite IH.
    + clear -Hview. induction (releases s) as [| x l IH]; [done |]. cbn [update_where map existsb].
      unfold update_where in IH. rewrite IH. by destruct (hit x) eqn:Hx; [rewrite Hview, Hx | rewrite Hx].
  - cbn [releases with_releases]. intros r (x & Hx & ->)%update_where_elem Hr. destruct (hit x) eqn:Hhx; [done |].
    congruence.
Qed.

(** The tables and blobs without the release. *)
Record deleted (s s' : db) : Prop := mkDeleted {
  release_gone : releases s' = List.filter (fun r => negb (hit r)) (releases s);
  assets_gone : assets s' = List.filter (fun a => negb (of_it a)) (assets s);
  no_blobs a : a ∈ assets s -> of_it a = true -> blobs s' !! StorageKey a = None;
  others_kept a : a ∈ assets s -> of_it a = false -> blobs s' !! StorageKey a = blobs s !! StorageKey a;
  none_added key : blobs s' !! key = blobs s !! key \/ blobs s' !! key = None
}.

Lemma exec_Delete s r s' :
  sound limits s -> existsb hit (releases s) = true -> exec handle (Delete repo rel) s = (r, s') ->
  match r with
  | Ok _ => deleted s s'
  | Err _ => faults s <> [] /\ emptied s s' /\ sound limits s'
  end.
Proof.
  intros Hs He Hx. pose proof (exec_sound _ s every_Delete Hs) as Hs'. rewrite Hx in Hs'. cbn in Hs'. revert Hx.
  unfold Delete. rewrite exec_bind, exec_call. cbn [handle].
  destruct (exec_mark s (UTC (clock s)) Hs He) as (s1 & Hm & Hs1 & He1 & Hf1 & Ha1 & _).
  rewrite exec_then, exec_wrap, exec_call. cbn [handle]. rewrite Hm. cbn [mapErr].
  rewrite exec_then, exec_wrap, exec_call. cbn [handle mapErr].
  unfold postgres.ListAssets, queries.ListReleaseAssetsForDeletion.
  set (l := merge_sort _ _). assert (Hl : forall a, a ∈ l <-> a ∈ assets s1 /\ of_it a = true).
  { intros a. unfold l. rewrite merge_sort_Permutation. apply filter_elem. }
  rewrite exec_then. destruct (exec handle (deleteEach repo rel l) s1) as [d s2] eqn:Hd.
  apply exec_deleteEach in Hd as (He2 & Hr2); [| apply Hs1 | | by intros a; rewrite Hl].
  2: { unfold l. rewrite merge_sort_Permutation. eapply sublist_NoDup; [| apply filter_sublist_of].
       eapply NoDup_fmap_1, (asset_ids _ _ Hs1). }
  assert (He02 : emptied s s2) by by eapply emptied_trans. destruct d as [[] | e].
  2: { intros [= <- <-]. by rewrite <- Hf1. }
  rewrite exec_wrap, exec_call. cbn [handle]. unfold postgres.DeleteRelease, postgres.some_rows, queries.DeleteRelease.
  cbn [fst snd]. assert (Hex : existsb hit (releases s2) = true) by by rewrite (still_there _ _ He02).
  rewrite Hex. assert (Hn : Z.of_nat (length (List.filter hit (releases s2))) =? 0 = false).
  { apply Z.eqb_neq. apply existsb_exists in Hex as (x & Hx & Hh).
    assert (Hin : x ∈ List.filter hit (releases s2)) by (apply filter_elem; split; [by apply list_elem_of_In | done]).
    destruct (List.filter hit _); [by apply elem_of_nil in Hin | cbn; lia]. }
  rewrite Hn. cbn [mapErr]. intros [= <- <-]. destruct He02.
  assert (Hno : forall a, a ∈ assets s2 -> of_it a = false).
  { intros a [Ha Hnl]%Hr2. rewrite Hl in Hnl. destruct (of_it a); [tauto | done]. }
  split; cbn [releases assets blobs with_assets with_releases]; [done | done | | | ].
  - intros a Ha Hof. apply blobs_gone0; try done. intros Hin. by rewrite (Hno a Hin) in Hof.
  - intros a Ha Hof. destruct (same_blobs0 (StorageKey a)) as [? | (_ & b & Hb & Hofb & Hk)]; [done |].
    assert (b = a) as -> by (eapply NoDup_map_inj; [apply (keys_once _ _ Hs) | done | done | done]). congruence.
  - intros key. destruct (same_blobs0 key) as [-> | [-> _]]; auto.
Qed.

(** An attempt that failed, at any of its steps, because the blob store did. *)
Definition attempt (s s' : db) : Prop :=
  exists fl e, exec handle (Delete repo rel) (with_faults fl s) = (Err e, s').

Lemma attempts_emptied s s1 :
  sound limits s -> existsb hit (releases s) = true -> rtc attempt s s1 -> emptied s s1 /\ sound limits s1.
Proof.
  intros Hs He Ha. induction Ha as [s | s s1 s2 (fl & e & Hx) _ IH]; [split; [by apply emptied_same | done] |].
  apply exec_Delete in Hx as (_ & He1 & Hs1); [| by apply (same_rows limits s) | done].
  assert (Hem : emptied s s1) by (destruct He1; by split).
  destruct IH as [He2 Hs2]; [done | by rewrite (still_there _ _ Hem) |].
  split; [by eapply emptied_trans | done].
Qed.

(** C17: A deletion can always be finished.  Wherever any number of attempts stopped, because
    the blob store failed, the next one to which it answers removes the release with all of
    its assets and their bytes, and nothing else. *)
Theorem Delete_completes (s s1 : db) :
  sound limits s -> existsb hit (releases s) = true -> rtc attempt s s1 ->
  exists s2, exec handle (Delete repo rel) (with_faults [] s1) = (Ok tt, s2) /\ deleted s s2.
Proof.
  intros Hs He Ha. destruct (attempts_emptied s s1 Hs He Ha) as [Hem Hs1].
  destruct (exec handle (Delete repo rel) (with_faults [] s1)) as [r s2] eqn:Hx. exists s2.
  apply exec_Delete in Hx; [| by apply (same_rows limits s1) | by rewrite <- He; apply (still_there _ _ Hem)].
  destruct r as [[] | e]; [| destruct Hx as [? _]; done]. split; [done |].
  destruct Hem, Hx. cbn [releases assets blobs with_faults] in *. split; try congruence.
  - intros a Hin Hof. destruct (decide (a ∈ assets s1)) as [H1 | H1]; [by apply no_blobs0 |].
    pose proof (blobs_gone0 a Hin Hof H1) as Hb. destruct (none_added0 (StorageKey a)) as [-> | ->]; done.
  - intros a Hin Hof.
    assert (H1 : a ∈ assets s1).
    { assert (Hf : a ∈ List.filter (fun a => negb (of_it a)) (assets s)).
      { apply filter_elem. by rewrite Hof. }
      rewrite <- other_assets0 in Hf. by apply filter_elem in Hf as [? _]. }
    rewrite (others_kept0 a H1 Hof). destruct (same_blobs0 (StorageKey a)) as [? | (_ & b & Hb & Hofb & Hk)]; [done |].
    assert (b = a) as -> by (eapply NoDup_map_inj; [apply (keys_once _ _ Hs) | done | done | done]). congruence.
  - intros key. destruct (none_added0 key) as [-> | ->]; [| by right].
    destruct (same_blobs0 key) as [-> | [-> _]]; auto.
Qed.
End deletion.

(** ** Pages *)

Lemma release_page_cut {R} (key : R -> time * UUID) limit rows :
  postgres.page (fun row => snd (key row)) limit rows
  = mkPage (fst (keyset.cut key limit rows)) (snd (keyset.cut key limit rows)).
Proof. done. Qed.

Definition fetched {T} (r : result (Page T) * db) : option (list T * option UUID) :=
  match r with (Ok p, _) => Some (Items p, NextCursor p) | _ => None end.

(** The pages of a repository's releases, followed by their cursors, list every published one
    once, newest first, and the drafts exactly if they were asked for. *)
Theorem release_pages (s : db) (repo : UUID) (drafts : bool) (limit : Z) :
  1 <= limit <= 100 -> NoDup (map ID (releases s)) ->
  keyset.follow (fun after => fetched (exec handle (Page_ repo drafts after limit) s))
    (S (length (releases s))) None
  = Some (keyset.listing release_key (release_visible repo drafts) (releases s)).
Proof.
  intros Hl Hnd. rewrite <- (map_id (keyset.listing _ _ _)).
  refine (keyset.follow_all release_key (fun row => RepositoryID row =? repo) (release_visible repo drafts) _ Hnd
            _ (fun x => x) limit _ ltac:(lia) _).
  - intros row. unfold release_visible. by rewrite andb_true_iff => -[? _].
  - intros after. unfold Page_. rewrite (proj2 (Z.ltb_ge limit 1)), (proj2 (Z.ltb_ge 100 limit)) by lia.
    cbn [orb]. rewrite exec_wrap, exec_call. cbn [handle mapErr fetched]. unfold postgres.PageReleases.
    change ID with (fun row => snd (release_key row)). rewrite release_page_cut. cbn [Items NextCursor].
    destruct (keyset.cut _ _ _) as [items next]. cbn. by rewrite map_id.
Qed.

(** ** Concrete runs *)

Module release_examples.
Import Demo.
#[local] Instance mime : GoMIME := {| ParseMediaType raw := if Contains raw "/" then Some raw else None |}.

Definition limits : Limits := mkLimits 10 15 20.
Definition sha : string := "0123456789abcdef0123456789abcdef01234567".
Definition empty : db := mkDb [] [] ∅ [(7, mkTag "v1" sha)] [] 1 100.
Definition v1 : CreateInput := mkCreateInput "v1" "First" EmptyString false false "did:plc:alice".
Definition released : db := snd (exec handle (Create 7 v1) empty).
Definition tool : AssetInput := mkAssetInput "tool.bin" "application/octet-stream" 3 (Some [1; 2; 3]).
Definition uploaded : db := snd (exec handle (UploadAsset limits 7 1 tool) released).

Lemma limits_ok : ReleaseBytes limits < 2 ^ 63 /\ RepositoryBytes limits < 2 ^ 63.
Proof. by split. Qed.
Lemma empty_sound : sound limits empty.
Proof. split; cbn; done || by constructor. Qed.
Definition row : Release := mkRelease 1 7 "v1" sha "First" EmptyString StatePublished false "did:plc:alice" 100 100 (Some 100).
Lemma released_is : releases released = [row] /\ assets released = [] /\ blobs released = ∅ /\ fresh released = 2.
Proof. vm_compute. split_and!; reflexivity. Qed.
Lemma released_sound : sound limits released.
Proof.
  pose proof (handle_sound limits limits_ok _ (CreateRelease row) empty I empty_sound) as Hs.
  apply (same_rows limits _ released) in Hs; [exact Hs | vm_compute; reflexivity | vm_compute; reflexivity].
Qed.

Lemma quotas_hold_witness :
  let s := snd (handle _ (CreateRelease row) empty) in
  releases s = [row] /\ sound limits s.
Proof.
  split; [vm_compute; reflexivity |].
  apply (quotas_hold limits limits_ok empty); [done | done | done | done |].
  eapply rtc_l; [| apply rtc_refl]. by apply step_effect.
Defined.

Definition stored : Asset :=
  mkAsset 2 1 7 "tool.bin" "application/octet-stream" 3 (hex_EncodeToString (Sum256 [1; 2; 3]))
    (assetStorageKey 7 1 2) 100.
Lemma upload_all_or_nothing_witness :
  fst (exec handle (UploadAsset limits 7 1 tool) released) = Ok stored /\
  assets uploaded = [] ++ [stored] /\ blobs uploaded = <[StorageKey stored := [1; 2; 3]]> ∅.
Proof.
  assert (Hok : fst (exec handle (UploadAsset limits 7 1 tool) released) = Ok stored) by (vm_compute; reflexivity).
  assert (Hfree : blobs released !! assetStorageKey 7 1 (fresh released) = None) by (vm_compute; reflexivity).
  pose proof (upload_all_or_nothing limits 7 1 tool released (fst (exec handle (UploadAsset limits 7 1 tool) released))
    uploaded released_sound limits_ok (eq_refl : 3 < 2 ^ 63) Hfree (surjective_pairing _)) as [_ Hr].
  rewrite Hok in Hr. destruct Hr as (body & [= <-] & _ & _ & _ & Ha & Hb & _).
  destruct released_is as (_ & E1 & E2 & _). rewrite E1 in Ha. rewrite E2 in Hb. split; [exact Hok | split; [exact Ha | exact Hb]].
Defined.

(** The second asset would exceed the quota of the release, and leaves nothing behind. *)
Example quota_refuses :
  let big := mkAssetInput "big.bin" "a/b" 10 (Some (repeat 0 10)) in
  let '(r, s) := exec handle (UploadAsset limits 7 1 big) uploaded in
  let '(r', s') := exec handle (UploadAsset limits 7 1 (mkAssetInput "more.bin" "a/b" 10 (Some (repeat 0 10)))) s in
  match r, r' with Ok _, Err e => Is e ErrQuotaExceeded | _, _ => false end = true /\
  length (assets s') = 2%nat /\ bool_decide (map_size (blobs s') = 2%nat) = true.
Proof. vm_compute. split_and!; reflexivity. Qed.

(** An update that was begun before a deletion puts the release back while it is being
    deleted: an asset uploaded then leaves its bytes behind for ever. *)
Definition race : db :=
  let s1 := released in                                                (* Update reads the release *)
  let s2 := snd (handle _ (BeginDeleteRelease 7 1 200) s1) in                   (* Delete marks it *)
  let s3 := snd (handle _ (UpdateRelease (revised row (mkUpdateInput "First!" EmptyString false false) 300)) s2) in
  let s4 := snd (exec handle (UploadAsset limits 7 1 tool) s3) in
  snd (handle _ (DeleteRelease 7 1) s4).                       (* Delete had found no assets *)
Example update_revives :
  releases race = [] /\ assets race = [] /\
  blobs race !! assetStorageKey 7 1 2 = Some [1; 2; 3].
Proof. vm_compute. split_and!; reflexivity. Qed.

Lemma Delete_completes_witness :
  exists s1 s2, fst (exec handle (Delete 7 1) (with_faults [true] uploaded)) = Err
      (wrapf "delete release asset blob: %w" blobstore.unavailable) /\
    s1 = snd (exec handle (Delete 7 1) (with_faults [true] uploaded)) /\
    exec handle (Delete 7 1) (with_faults [] s1) = (Ok tt, s2) /\ deleted 7 1 uploaded s2.
Proof.
  destruct (exec handle (Delete 7 1) (with_faults [true] uploaded)) as [r s1] eqn:Hx.
  assert (Hr : r = Err (wrapf "delete release asset blob: %w" blobstore.unavailable)).
  { apply (f_equal fst) in Hx. cbn [fst] in Hx. rewrite <- Hx. vm_compute. reflexivity. }
  assert (Hu : sound limits uploaded).
  { unfold uploaded. apply (exec_sound limits limits_ok); [| apply released_sound].
    by apply every_UploadAsset. }
  destruct (Delete_completes limits limits_ok 7 1 uploaded s1 Hu) as (s2 & Hd & Hdel).
  - vm_compute. reflexivity.
  - eapply rtc_l; [| apply rtc_refl]. exists [true]. eexists. rewrite Hx, Hr. reflexivity.
  - exists s1, s2. split_and!; done.
Defined.
End release_examples.
End release.
