(* ===== verification/Passkey.v ===== *)
(** * Passkey: WebAuthn registrations and logins (package [internal/passkey]).

    A ceremony is a challenge the server remembers, under the hash of a token that the
    browser keeps, until it is answered once or expires.  The WebAuthn library is a
    parameter: the types of its values and, as effects, its answers. *)

From S2P Require Import Prelude.
From S2P Require Import GoText.
From S2P Require Import Encoding.
From S2P Require Import Syntax.
From S2P Require Import Json.
From S2P Require Import Cursor.
From S2P Require Import Auth.

(** [webauthn.CredentialFlags] and [webauthn.Credential], as far as they are used. *)
Record CredentialFlags := mkFlags {
  UserPresent : bool; UserVerified : bool; BackupEligible : bool; BackupState : bool;
  ProtocolValue : Z
}.
Record LibraryCredential := mkLibraryCredential {
  Lib_ID : list Z; Lib_PublicKey : list Z; Lib_AttestationType : string; Lib_Transport : list string;
  Lib_Flags : CredentialFlags; Lib_AAGUID : list Z; Lib_SignCount : Z; Lib_CloneWarning : bool;
  Lib_Attachment : string; Lib_ClientDataJSON : list Z; Lib_ClientDataHash : list Z;
  Lib_AuthenticatorData : list Z; Lib_PublicKeyAlgorithm : Z; Lib_Object : list Z
}.

(** The library github.com/go-webauthn/webauthn, and the JSON of its values. *)
Class GoWebAuthn := {
  SessionData : Type;
  with_Expires : SessionData -> time -> SessionData;
  Options : Type;
  marshal_options : Options -> option (list Z);
  (** the JSON of a session and the name of the credential to be, and what it is read as *)
  marshal_state : SessionData * string -> option (list Z);
  unmarshal_state : list Z -> option (SessionData * string);
  ParsedCreation : Type;
  ParseCredentialCreationResponseBytes : list Z -> option ParsedCreation;
  ParsedAssertion : Type;
  ParseCredentialRequestResponseBytes : list Z -> option ParsedAssertion;
  NewCredentialFlags : Z -> CredentialFlags;
  FlagUserPresent : Z; FlagUserVerified : Z; FlagBackupEligible : Z; FlagBackupState : Z
}.

Module passkey.

Definition ceremonyLifetime : Z := 5 * 60 * second.
Definition ceremonyRegistration : string := "registration".
Definition ceremonyAuthentication : string := "authentication".
Definition ErrUnauthorized : error := auth.ErrUnauthorized.
Definition ErrNotFound : error := auth.ErrNotFound.
Definition ErrConflict : error := auth.ErrConflict.

Record Credential := mkCredential {
  ID : UUID; AccountDID : string; Name : string; CredentialID : list Z; PublicKey : list Z;
  AttestationType : string; Transports : list string; Flags : Z; AAGUID : list Z; SignCount : Z;
  CloneWarning : bool; Attachment : string; AttestationClientDataJSON : list Z;
  AttestationClientDataHash : list Z; AttestationAuthenticatorData : list Z;
  AttestationPublicKeyAlgorithm : Z; AttestationObject : list Z; CreatedAt : time;
  LastUsedAt : option time
}.
Record User := mkUser {
  User_AccountDID : string; Handle : list Z; User_Name : string; DisplayName : string;
  Credentials : list Credential
}.
Record Ceremony := mkCeremony {
  TokenHash : list Z; Kind : string; RPID : string; Ceremony_AccountDID : string;
  BrowserSessionID : option UUID; Ceremony_SessionData : list Z; Ceremony_CreatedAt : time;
  ExpiresAt : time
}.
Record BeginResult := mkBegin { Options_JSON : list Z; Token : string }.
Record CredentialSummary := mkSummary {
  Summary_ID : UUID; Summary_Name : string; Summary_CreatedAt : time; Summary_LastUsedAt : option time
}.
Record LoginResult := mkLogin {
  DID : string; SessionID : UUID; SessionPlaintext : string; SessionExpiresAt : time
}.

Definition credentialSummary (credential : Credential) : CredentialSummary :=
  mkSummary (ID credential) (Name credential) (CreatedAt credential) (LastUsedAt credential).

(** A constant-time comparison: the bits in which the slices differ. *)
Fixpoint difference (l r : list Z) : Z :=
  match l, r with
  | x :: l, y :: r => Z.lor (Z.lxor x y) (difference l r)
  | _, _ => 0
  end.
Definition equalBytes (l r : list Z) : bool :=
  if negb (length l =? length r)%nat then false else difference l r =? 0.

Definition decodeSecret (secret : string) : result (list Z) :=
  let bad := Err (New "secret generator must return exactly 256 bits as unpadded base64url") in
  match base64.DecodeString secret with
  | Some value => if negb (length value =? 32)%nat || (base64.EncodeToString value != secret) then bad else Ok value
  | None => bad
  end.
Definition registrationProtocolError : error :=
  Errorf "%w: invalid passkey registration" [W auth.ErrValidation].
Definition wrapf (format : string) (err : error) : error := Errorf format [W err].
(** [errors.Is(err, auth.ErrUnauthorized) || errors.Is(err, auth.ErrNotFound)]. *)
Definition hidden (err : error) : bool := Is err auth.ErrUnauthorized || Is err auth.ErrNotFound.

Section passkey.
Context `{GoWebAuthn}.

Definition webAuthn (credential : Credential) : LibraryCredential :=
  mkLibraryCredential (CredentialID credential) (PublicKey credential) (AttestationType credential)
    (Transports credential) (NewCredentialFlags (Flags credential)) (AAGUID credential)
    (SignCount credential) (CloneWarning credential) (Attachment credential)
    (AttestationClientDataJSON credential) (AttestationClientDataHash credential)
    (AttestationAuthenticatorData credential) (AttestationPublicKeyAlgorithm credential)
    (AttestationObject credential).
(** What the library sees of a user. *)
Record webAuthnUser := mkWebAuthnUser {
  WebAuthnID : list Z; WebAuthnName : string; WebAuthnDisplayName : string;
  WebAuthnCredentials : list LibraryCredential
}.
Definition webauthn_user (user : User) : webAuthnUser :=
  mkWebAuthnUser (Handle user) (User_Name user) (DisplayName user) (map webAuthn (Credentials user)).

Definition mutableMask : Z :=
  Z.lor (Z.lor (Z.lor FlagUserPresent FlagUserVerified) FlagBackupEligible) FlagBackupState.
Definition updatedCredentialFlags (stored : Z) (flags : CredentialFlags) : Z :=
  let set (on : bool) (flag updated : Z) := if on then Z.lor updated flag else updated in
  let updated := Z.ldiff stored mutableMask in
  let updated := set (UserPresent flags) FlagUserPresent updated in
  let updated := set (UserVerified flags) FlagUserVerified updated in
  let updated := set (BackupEligible flags) FlagBackupEligible updated in
  set (BackupState flags) FlagBackupState updated.

Definition credentialFromWebAuthn (id : UUID) (accountDID name : string) (source : LibraryCredential)
    (createdAt : time) : Credential :=
  mkCredential id accountDID name (Lib_ID source) (Lib_PublicKey source) (Lib_AttestationType source)
    (Lib_Transport source) (ProtocolValue (Lib_Flags source)) (Lib_AAGUID source) (Lib_SignCount source)
    (Lib_CloneWarning source) (Lib_Attachment source) (Lib_ClientDataJSON source)
    (Lib_ClientDataHash source) (Lib_AuthenticatorData source) (Lib_PublicKeyAlgorithm source)
    (Lib_Object source) createdAt None.

(** ** The effects *)

(** The store, and the services the package calls. *)
Inductive store : Type -> Type :=
| CreateUser (rpID : string) (user : User) (createdAt : time) : store (result User)
| GetUser (rpID accountDID : string) : store (result User)
| CreateCredential (rpID : string) (credential : Credential) : store (result Credential)
| GetCredentialByCredentialID (rpID : string) (credentialID : list Z) : store (result Credential)
| UpdateCredential (rpID : string) (credential : Credential) (usedAt : time) : store (result Credential)
| ListCredentials (rpID accountDID : string) : store (result (list Credential))
| RevokeCredential (rpID accountDID : string) (id : UUID) (revokedAt : time) : store (result unit)
| CreateCeremony (ceremony : Ceremony) : store (result Ceremony)
| ConsumeCeremony (tokenHash : list Z) (now : time) : store (result Ceremony)
| PurgeExpiredCeremonies (now : time) : store (result unit)
| TouchAccountLogin (accountDID : string) (loggedInAt : time) : store (result unit)
| sessions_CreateSession (accountDID : string) : store (result (auth.Session * string))
| Now : store time
| NewID : store (result UUID)
| NewSecret : store (result string).
(** The library.  [ValidatePasskeyLogin] calls back once, with the raw id of the credential
    and the user handle of the response, unless it refuses the response before; then it
    validates the response for the user it was given. *)
Inductive library : Type -> Type :=
| webauthn_BeginRegistration (user : webAuthnUser) (exclusions : list LibraryCredential)
    : library (result (Options * SessionData))
| webauthn_CreateCredential (user : webAuthnUser) (session : SessionData) (parsed : ParsedCreation)
    : library (result LibraryCredential)
| webauthn_BeginDiscoverableLogin : library (result (Options * SessionData))
| webauthn_callback (session : SessionData) (parsed : ParsedAssertion) : library (result (list Z * list Z))
| webauthn_validate (user : webAuthnUser) (session : SessionData) (parsed : ParsedAssertion)
    : library (result LibraryCredential).
Inductive effect : Type -> Type :=
| Store {X} (e : store X) : effect X
| Library {X} (e : library X) : effect X.
Definition ask {X} (e : store X) : prog effect X := call (Store e).
Definition lib {X} (e : library X) : prog effect X := call (Library e).

(** ** The service (service.go) *)

Context (rpID : string).

Definition newSecretBytes : svc effect (list Z) :=
  let? secret := ask NewSecret in
  lift (decodeSecret secret).

Definition saveCeremony (options : Options) (state : SessionData * string) (ceremony : list Z -> list Z -> Ceremony)
    : svc effect BeginResult :=
  match marshal_options options with
  | None => fail (wrapf "marshal WebAuthn options: %w" (New "json"))
  | Some optionsJSON =>
      match marshal_state state with
      | None => fail (wrapf "marshal WebAuthn ceremony: %w" (New "json"))
      | Some sessionData =>
          let? token := wrapErr (wrapf "generate ceremony token: %w") (ask NewSecret) in
          let? _ := lift (mapErr (wrapf "generate ceremony token: %w") (decodeSecret token)) in
          let? _ := wrapErr (wrapf "store WebAuthn ceremony: %w")
                      (ask (CreateCeremony (ceremony (Sum256 (bytes token)) sessionData))) in
          done_ (mkBegin optionsJSON token)
      end
  end.

Definition consume (token : string) : svc effect Ceremony :=
  let! now := ask Now in
  ask (ConsumeCeremony (Sum256 (bytes token)) (UTC now)).

(** The user of an account, created if there is none. *)
Definition loadUser (accountDID : string) (now : time) : svc effect User :=
  let! user := ask (GetUser rpID accountDID) in
  match user with
  | Ok user => done_ user
  | Err err =>
      if negb (hidden err) then fail (wrapf "load WebAuthn user: %w" err) else
      let? handle := wrapErr (wrapf "generate WebAuthn user handle: %w") newSecretBytes in
      let! created := ask (CreateUser rpID (mkUser accountDID handle accountDID accountDID []) now) in
      match created with
      | Ok user => done_ user
      | Err err =>
          if negb (Is err auth.ErrConflict) then fail (wrapf "load WebAuthn user: %w" err) else
          wrapErr (wrapf "load WebAuthn user: %w") (ask (GetUser rpID accountDID))
      end
  end.

Definition BeginRegistration (rawDID : string) (browserSessionID : UUID) (rawName : string)
    : svc effect BeginResult :=
  let accountDID := TrimSpace rawDID in
  let name := TrimSpace rawName in
  if (accountDID == EmptyString) || (browserSessionID =? uuid_Nil) || (name == EmptyString) || (255 <? len name)
  then fail (Errorf "%w: DID, browser session, and passkey name are required" [W auth.ErrValidation]) else
  let! now := ask Now in
  let now := UTC now in
  let? user := loadUser accountDID now in
  if (User_AccountDID user != accountDID) || negb (length (Handle user) =? 32)%nat
  then fail (New "load WebAuthn user: store returned invalid identity") else
  let? (creation, session) := wrapErr (wrapf "begin WebAuthn registration: %w")
    (lib (webauthn_BeginRegistration (webauthn_user user) (WebAuthnCredentials (webauthn_user user)))) in
  let expires := now + ceremonyLifetime in
  saveCeremony creation (with_Expires session expires, name)
    (fun hash data => mkCeremony hash ceremonyRegistration rpID accountDID (Some browserSessionID) data now expires).

Definition FinishRegistration (accountDID : string) (browserSessionID : UUID) (token : string)
    (response : list Z) : svc effect CredentialSummary :=
  let? ceremony := wrapErr (fun err => if hidden err then registrationProtocolError
                                      else wrapf "consume registration ceremony: %w" err) (consume token) in
  if (Kind ceremony != ceremonyRegistration) || (RPID ceremony != rpID)
     || (Ceremony_AccountDID ceremony != accountDID)
     || negb (bool_decide (BrowserSessionID ceremony = Some browserSessionID))
  then fail registrationProtocolError else
  match unmarshal_state (Ceremony_SessionData ceremony) with
  | None => fail registrationProtocolError
  | Some (session, name) =>
      let? user := wrapErr (fun err => if hidden err then registrationProtocolError
                                       else wrapf "load registration user: %w" err)
                     (ask (GetUser rpID (Ceremony_AccountDID ceremony))) in
      if User_AccountDID user != Ceremony_AccountDID ceremony then fail registrationProtocolError else
      match ParseCredentialCreationResponseBytes response with
      | None => fail registrationProtocolError
      | Some parsed =>
          let? verified := wrapErr (fun _ => registrationProtocolError)
                             (lib (webauthn_CreateCredential (webauthn_user user) session parsed)) in
          let? id := wrapErr (wrapf "generate passkey ID: %w") (ask NewID) in
          let! now := ask Now in
          let credential := credentialFromWebAuthn id (Ceremony_AccountDID ceremony) name verified (UTC now) in
          let? stored := wrapErr (wrapf "store passkey credential: %w") (ask (CreateCredential rpID credential)) in
          done_ (credentialSummary stored)
      end
  end.

Definition BeginLogin : svc effect BeginResult :=
  let! now := ask Now in
  let now := UTC now in
  let? _ := wrapErr (wrapf "purge expired passkey ceremonies: %w") (ask (PurgeExpiredCeremonies now)) in
  let? (assertion, session) := wrapErr (wrapf "begin passkey login: %w") (lib webauthn_BeginDiscoverableLogin) in
  let expires := now + ceremonyLifetime in
  saveCeremony assertion (with_Expires session expires, EmptyString)
    (fun hash data => mkCeremony hash ceremonyAuthentication rpID EmptyString None data now expires).

(** The callback of the login: the credential and its user, if the handle is the user's. An
    error that tells of no more than a missing row is hidden, another one is reported. *)
Definition callback (rawID userHandle : list Z) : svc effect (Credential * User) :=
  let masked err := if hidden err then auth.ErrUnauthorized else wrapf "load passkey login credential: %w" err in
  let? credential := wrapErr masked (ask (GetCredentialByCredentialID rpID rawID)) in
  let? user := wrapErr masked (ask (GetUser rpID (AccountDID credential))) in
  if (User_AccountDID user != AccountDID credential) || negb (equalBytes (Handle user) userHandle)
  then fail auth.ErrUnauthorized else
  done_ (credential, mkUser (User_AccountDID user) (Handle user) (User_Name user) (DisplayName user) [credential]).

Definition used (loaded : Credential) (validated : LibraryCredential) : Credential :=
  mkCredential (ID loaded) (AccountDID loaded) (Name loaded) (CredentialID loaded) (PublicKey loaded)
    (AttestationType loaded) (Transports loaded) (updatedCredentialFlags (Flags loaded) (Lib_Flags validated))
    (AAGUID loaded) (Lib_SignCount validated) (Lib_CloneWarning validated) (Attachment loaded)
    (AttestationClientDataJSON loaded) (AttestationClientDataHash loaded)
    (AttestationAuthenticatorData loaded) (AttestationPublicKeyAlgorithm loaded) (AttestationObject loaded)
    (CreatedAt loaded) (LastUsedAt loaded).

Definition FinishLogin (token : string) (response : list Z) : svc effect LoginResult :=
  let? ceremony := wrapErr (fun err => if hidden err then auth.ErrUnauthorized
                                      else wrapf "consume login ceremony: %w" err) (consume token) in
  if (Kind ceremony != ceremonyAuthentication) || (RPID ceremony != rpID)
     || (Ceremony_AccountDID ceremony != EmptyString) || is_some (BrowserSessionID ceremony)
  then fail auth.ErrUnauthorized else
  match unmarshal_state (Ceremony_SessionData ceremony) with
  | None => fail auth.ErrUnauthorized
  | Some (session, _) =>
      match ParseCredentialRequestResponseBytes response with
      | None => fail auth.ErrUnauthorized
      | Some parsed =>
          let? (rawID, userHandle) := wrapErr (fun _ => auth.ErrUnauthorized) (lib (webauthn_callback session parsed)) in
          let? (loaded, user) := callback rawID userHandle in
          let? validated := wrapErr (fun _ => auth.ErrUnauthorized)
                              (lib (webauthn_validate (webauthn_user user) session parsed)) in
          if (User_AccountDID user == EmptyString) || (AccountDID loaded != User_AccountDID user)
          then fail auth.ErrUnauthorized else
          let! now := ask Now in
          let now := UTC now in
          let? _ := wrapErr (wrapf "update passkey credential: %w")
                      (ask (UpdateCredential rpID (used loaded validated) now)) in
          let? _ := wrapErr (wrapf "touch passkey account login: %w")
                      (ask (TouchAccountLogin (User_AccountDID user) now)) in
          let? (session, plaintext) := wrapErr (wrapf "issue local session: %w")
                                         (ask (sessions_CreateSession (User_AccountDID user))) in
          done_ (mkLogin (User_AccountDID user) (auth.Session_ID session) plaintext (auth.Session_ExpiresAt session))
      end
  end.

Definition List_ (accountDID : string) : svc effect (list CredentialSummary) :=
  let? credentials := wrapErr (wrapf "list passkey credentials: %w") (ask (ListCredentials rpID accountDID)) in
  done_ (map credentialSummary credentials).

Definition Revoke (accountDID : string) (id : UUID) : svc effect unit :=
  let! now := ask Now in
  wrapErr (wrapf "revoke passkey credential: %w") (ask (RevokeCredential rpID accountDID id (UTC now))).

End passkey.

(** ** The tables (passkeys.sql, 000008_passkeys.sql) *)

Record UserRow := mkUserRow { user_rp : string; user_of : User; user_created : time }.
Record CredentialRow := mkRow { rp : string; row_of : Credential; RevokedAt : option time }.
(** The [handle]s and secrets are random: the next of each. *)
Record db := mkDb {
  users : list UserRow; credentials : list CredentialRow; ceremonies : list Ceremony;
  accounts : gmap string time; sessions : list (auth.Session * string);
  random : list (list Z); fresh : UUID; clock : time
}.
Definition ErrNoRows : error := New "no rows in result set".
Definition unique_violation : error := New "duplicate key value violates unique constraint".
Definition foreign_key_violation : error := New "insert violates foreign key constraint".
Definition check_violation : error := New "new row violates check constraint".

Definition with_users l s := mkDb l (credentials s) (ceremonies s) (accounts s) (sessions s) (random s) (fresh s) (clock s).
Definition with_credentials l s := mkDb (users s) l (ceremonies s) (accounts s) (sessions s) (random s) (fresh s) (clock s).
Definition with_ceremonies l s := mkDb (users s) (credentials s) l (accounts s) (sessions s) (random s) (fresh s) (clock s).
Definition with_accounts m s := mkDb (users s) (credentials s) (ceremonies s) m (sessions s) (random s) (fresh s) (clock s).
Definition with_sessions l s := mkDb (users s) (credentials s) (ceremonies s) (accounts s) l (random s) (fresh s) (clock s).
Definition with_random l s := mkDb (users s) (credentials s) (ceremonies s) (accounts s) (sessions s) l (fresh s) (clock s).
Definition with_fresh id s := mkDb (users s) (credentials s) (ceremonies s) (accounts s) (sessions s) (random s) id (clock s).

Definition is_user (rpID did : string) (row : UserRow) : bool :=
  (user_rp row == rpID) && (User_AccountDID (user_of row) == did).
Definition active (row : CredentialRow) : bool := negb (is_some (RevokedAt row)).
(** [WHERE id = ... AND rp_id = ... AND account_did = ... AND revoked_at IS NULL]. *)
Definition own (rpID did : string) (id : UUID) (row : CredentialRow) : bool :=
  (ID (row_of row) =? id) && (rp row == rpID) && (AccountDID (row_of row) == did) && active row.
Definition of_account (rpID did : string) (row : CredentialRow) : bool :=
  (rp row == rpID) && (AccountDID (row_of row) == did) && active row.
Definition newest (x y : CredentialRow) : Prop :=
  CreatedAt (row_of y) < CreatedAt (row_of x) \/
  CreatedAt (row_of x) = CreatedAt (row_of y) /\ ID (row_of y) <= ID (row_of x).
#[export] Instance newest_dec : RelDecision newest.
Proof. intros x y. unfold newest. apply _. Defined.

Definition user_checks (row : UserRow) : bool :=
  (user_rp row != EmptyString) && (length (Handle (user_of row)) =? 32)%nat
  && (User_Name (user_of row) != EmptyString) && (DisplayName (user_of row) != EmptyString).
Definition nonempty (bs : list Z) : bool := negb (length bs =? 0)%nat.
Definition credential_checks (c : Credential) : bool :=
  (Name c != EmptyString) && nonempty (CredentialID c) && nonempty (PublicKey c)
  && between 0 (Flags c) 255 && (length (AAGUID c) =? 16)%nat && between 0 (SignCount c) 4294967295
  && ((Attachment c == EmptyString) || (Attachment c == "platform") || (Attachment c == "cross-platform")).
Definition ceremony_checks (c : Ceremony) : bool :=
  nonempty (TokenHash c) && ((Kind c == "registration") || (Kind c == "authentication"))
  && (RPID c != EmptyString) && (Ceremony_CreatedAt c <? ExpiresAt c)
  && (((Kind c == "registration") && (Ceremony_AccountDID c != EmptyString) && is_some (BrowserSessionID c))
      || ((Kind c == "authentication") && (Ceremony_AccountDID c == EmptyString)
          && negb (is_some (BrowserSessionID c)))).
(** The foreign keys of a ceremony: its account and its browser's session, when it has them. *)
Definition ceremony_references (c : Ceremony) (s : db) : bool :=
  ((Ceremony_AccountDID c == EmptyString) || is_some (accounts s !! Ceremony_AccountDID c))
  && match BrowserSessionID c with
     | None => true
     | Some id => existsb (fun session => auth.Session_ID (fst session) =? id) (sessions s)
     end.

Module queries.
(** The handle is the database's, not the one the service made. *)
Definition CreateWebAuthnUser (rpID : string) (user : User) (createdAt : time) (s : db) : result UserRow * db :=
  let '(handle, rest) := match random s with h :: rest => (h, rest) | [] => ([], []) end in
  let row := mkUserRow rpID (mkUser (User_AccountDID user) handle (User_Name user) (DisplayName user) []) createdAt in
  if negb (user_checks row) then (Err check_violation, with_random rest s) else
  match List.find (is_user rpID (User_AccountDID user)) (users s) with
  | Some old => (Ok old, with_random rest s)
  | None =>
      if existsb (fun r => (user_rp r == rpID) && bool_decide (Handle (user_of r) = handle)) (users s)
      then (Err unique_violation, with_random rest s) else
      if negb (is_some (accounts s !! User_AccountDID user)) then (Err foreign_key_violation, with_random rest s)
      else (Ok row, with_users (users s ++ [row]) (with_random rest s))
  end.
Definition GetWebAuthnUser (rpID did : string) (s : db) : result UserRow :=
  find_row ErrNoRows (is_user rpID did) (users s).
Definition CreatePasskeyCredential (rpID : string) (c : Credential) (s : db) : result CredentialRow * db :=
  let row := mkRow rpID (mkCredential (ID c) (AccountDID c) (Name c) (CredentialID c) (PublicKey c)
    (AttestationType c) (Transports c) (Flags c) (AAGUID c) (SignCount c) (CloneWarning c) (Attachment c)
    (AttestationClientDataJSON c) (AttestationClientDataHash c) (AttestationAuthenticatorData c)
    (AttestationPublicKeyAlgorithm c) (AttestationObject c) (CreatedAt c) None) None in
  if negb (credential_checks c) then (Err check_violation, s) else
  if existsb (fun r => (ID (row_of r) =? ID c) || bool_decide (CredentialID (row_of r) = CredentialID c)) (credentials s)
  then (Err unique_violation, s) else
  if negb (existsb (is_user rpID (AccountDID c)) (users s))
  then (Err foreign_key_violation, s)
  else (Ok row, with_credentials (credentials s ++ [row]) s).
Definition GetActivePasskeyCredentialByCredentialID (rpID : string) (id : list Z) (s : db) : result CredentialRow :=
  find_row ErrNoRows
    (fun row => (rp row == rpID) && bool_decide (CredentialID (row_of row) = id) && active row) (credentials s).
Definition use (signCount flags : Z) (cloneWarning : bool) (lastUsedAt : time) (row : CredentialRow) : CredentialRow :=
  let c := row_of row in
  mkRow (rp row) (mkCredential (ID c) (AccountDID c) (Name c) (CredentialID c) (PublicKey c) (AttestationType c)
    (Transports c) flags (AAGUID c) (Z.max (SignCount c) signCount)
    (CloneWarning c || cloneWarning || (negb (SignCount c =? 0) && (signCount <=? SignCount c))) (Attachment c)
    (AttestationClientDataJSON c) (AttestationClientDataHash c) (AttestationAuthenticatorData c)
    (AttestationPublicKeyAlgorithm c) (AttestationObject c) (CreatedAt c)
    (Some match LastUsedAt c with None => lastUsedAt | Some t => Z.max t lastUsedAt end)) (RevokedAt row).
Definition UpdatePasskeyCredential (signCount flags : Z) (cloneWarning : bool) (lastUsedAt : time) (id : UUID)
    (rpID did : string) (s : db) : result CredentialRow * db :=
  let hit := own rpID did id in
  let change := use signCount flags cloneWarning lastUsedAt in
  match find_row ErrNoRows hit (credentials s) with
  | Err e => (Err e, s)
  | Ok row => if negb (credential_checks (row_of (change row))) then (Err check_violation, s)
              else (Ok (change row), with_credentials (update_where hit change (credentials s)) s)
  end.
Definition ListActivePasskeyCredentials (rpID did : string) (s : db) : list CredentialRow :=
  merge_sort newest (List.filter (of_account rpID did) (credentials s)).
Definition revoke (revokedAt : time) (row : CredentialRow) : CredentialRow :=
  mkRow (rp row) (row_of row) (Some revokedAt).
Definition RevokePasskeyCredential (revokedAt : time) (id : UUID) (rpID did : string) (s : db)
    : result CredentialRow * db :=
  let hit := own rpID did id in
  match find_row ErrNoRows hit (credentials s) with
  | Err e => (Err e, s)
  | Ok row => (Ok (revoke revokedAt row), with_credentials (update_where hit (revoke revokedAt) (credentials s)) s)
  end.
Definition CreatePasskeyCeremony (c : Ceremony) (s : db) : result Ceremony * db :=
  if negb (ceremony_checks c) then (Err check_violation, s) else
  if existsb (fun r => bool_decide (TokenHash r = TokenHash c)) (ceremonies s) then (Err unique_violation, s) else
  if negb (ceremony_references c s) then (Err foreign_key_violation, s)
  else (Ok c, with_ceremonies (ceremonies s ++ [c]) s).
Definition PurgeExpiredPasskeyCeremonies (now : time) (s : db) : Z * db :=
  (Z.of_nat (length (List.filter (fun c => ExpiresAt c <=? now) (ceremonies s))),
   with_ceremonies (List.filter (fun c => negb (ExpiresAt c <=? now)) (ceremonies s)) s).
Definition ConsumePasskeyCeremony (hash : list Z) (now : time) (s : db) : result Ceremony * db :=
  let hit c := bool_decide (TokenHash c = hash) && (now <? ExpiresAt c) in
  match find_row ErrNoRows hit (ceremonies s) with
  | Err e => (Err e, s)
  | Ok c => (Ok c, with_ceremonies (List.filter (fun c => negb (hit c)) (ceremonies s)) s)
  end.
Definition TouchAccountLogin (did : string) (at_ : time) (s : db) : result unit * db :=
  match accounts s !! did with
  | Some _ => (Ok tt, with_accounts (<[did := at_]> (accounts s)) s)
  | None => (Err ErrNoRows, s)
  end.
End queries.

(** ** [PostgresStore] (postgres.go) *)

Definition isUniqueViolation (err : error) : bool := Is err unique_violation.
Module postgres.
(** The error of an insert, and of a query that may find no row. *)
Definition inserted (format : string) (err : error) : error :=
  if isUniqueViolation err then ErrConflict else wrapf format err.
Definition missing (absent : error) (format : string) (err : error) : error :=
  if Is err ErrNoRows then absent else wrapf format err.
Definition userFromRow (row : UserRow) (credentials : list Credential) : User :=
  mkUser (User_AccountDID (user_of row)) (Handle (user_of row)) (User_Name (user_of row))
    (DisplayName (user_of row)) credentials.
Definition credentialFromRow (row : CredentialRow) : Credential := row_of row.

Definition CreateUser (rpID : string) (user : User) (createdAt : time) (s : db) : result User * db :=
  let '(r, s') := queries.CreateWebAuthnUser rpID user createdAt s in
  (mapErr (inserted "create WebAuthn user: %w") (let* row := r in Ok (userFromRow row [])), s').
Definition ListCredentials (rpID did : string) (s : db) : result (list Credential) :=
  Ok (map credentialFromRow (queries.ListActivePasskeyCredentials rpID did s)).
Definition GetUser (rpID did : string) (s : db) : result User :=
  let* row := mapErr (missing ErrUnauthorized "get WebAuthn user: %w") (queries.GetWebAuthnUser rpID did s) in
  let* credentials := ListCredentials rpID did s in
  Ok (userFromRow row credentials).
Definition CreateCredential (rpID : string) (credential : Credential) (s : db) : result Credential * db :=
  let '(r, s') := queries.CreatePasskeyCredential rpID credential s in
  (mapErr (inserted "create passkey credential: %w") (let* row := r in Ok (credentialFromRow row)), s').
Definition GetCredentialByCredentialID (rpID : string) (id : list Z) (s : db) : result Credential :=
  mapErr (missing ErrUnauthorized "get passkey credential: %w")
    (let* row := queries.GetActivePasskeyCredentialByCredentialID rpID id s in Ok (credentialFromRow row)).
Definition UpdateCredential (rpID : string) (c : Credential) (usedAt : time) (s : db) : result Credential * db :=
  let '(r, s') := queries.UpdatePasskeyCredential (SignCount c) (Flags c) (CloneWarning c) (UTC usedAt) (ID c)
                    rpID (AccountDID c) s in
  (mapErr (missing ErrNotFound "update passkey credential: %w") (let* row := r in Ok (credentialFromRow row)), s').
Definition RevokeCredential (rpID did : string) (id : UUID) (revokedAt : time) (s : db) : result unit * db :=
  let '(r, s') := queries.RevokePasskeyCredential (UTC revokedAt) id rpID did s in
  (mapErr (missing ErrNotFound "revoke passkey credential: %w") (let* _ := r in Ok tt), s').
Definition CreateCeremony (ceremony : Ceremony) (s : db) : result Ceremony * db :=
  let '(r, s') := queries.CreatePasskeyCeremony ceremony s in
  (mapErr (inserted "create passkey ceremony: %w") r, s').
Definition ConsumeCeremony (hash : list Z) (now : time) (s : db) : result Ceremony * db :=
  let '(r, s') := queries.ConsumePasskeyCeremony hash (UTC now) s in
  (mapErr (missing ErrUnauthorized "consume passkey ceremony: %w") r, s').
Definition PurgeExpiredCeremonies (now : time) (s : db) : result unit * db :=
  (Ok tt, snd (queries.PurgeExpiredPasskeyCeremonies (UTC now) s)).
Definition TouchAccountLogin (did : string) (at_ : time) (s : db) : result unit * db :=
  let '(r, s') := queries.TouchAccountLogin did (UTC at_) s in
  (mapErr (missing ErrUnauthorized "touch passkey account login: %w") r, s').
End postgres.

(** Secrets and ids are the next ones; a session is issued with the next secret. *)
Definition secret_of (bs : list Z) : string := base64.EncodeToString bs.
Definition on_tables X (e : store X) (s : db) : X * db :=
  match e in store X return X * db with
  | CreateUser rp user at_ => postgres.CreateUser rp user at_ s
  | GetUser rp did => (postgres.GetUser rp did s, s)
  | CreateCredential rp c => postgres.CreateCredential rp c s
  | GetCredentialByCredentialID rp id => (postgres.GetCredentialByCredentialID rp id s, s)
  | UpdateCredential rp c at_ => postgres.UpdateCredential rp c at_ s
  | ListCredentials rp did => (postgres.ListCredentials rp did s, s)
  | RevokeCredential rp did id at_ => postgres.RevokeCredential rp did id at_ s
  | CreateCeremony c => postgres.CreateCeremony c s
  | ConsumeCeremony hash now => postgres.ConsumeCeremony hash now s
  | PurgeExpiredCeremonies now => postgres.PurgeExpiredCeremonies now s
  | TouchAccountLogin did at_ => postgres.TouchAccountLogin did at_ s
  | sessions_CreateSession did =>
      let plaintext := secret_of (List.hd [] (random s)) in
      let session := auth.mkSession (fresh s) did (Sum256 (bytes plaintext)) (clock s) (clock s + hour) None None in
      (Ok (session, plaintext),
       with_fresh (fresh s + 1) (with_random (tl (random s)) (with_sessions (sessions s ++ [(session, plaintext)]) s)))
  | Now => (clock s, s)
  | NewID => (Ok (fresh s), with_fresh (fresh s + 1) s)
  | NewSecret => (Ok (secret_of (List.hd [] (random s))), with_random (tl (random s)) s)
  end.
Section handle.
Context `{GoWebAuthn} (answer : forall X, library X -> X).
Definition handle X (e : effect X) (s : db) : X * db :=
  match e in effect X return X * db with
  | Store e => on_tables _ e s
  | Library e => (answer _ e, s)
  end.
End handle.

(** ** Comparing bytes *)

Lemma difference_zero l r : length l = length r -> difference l r = 0 <-> l = r.
Proof.
  revert r. induction l as [| x l IH]; intros [| y r] Hl; try done. cbn [difference].
  rewrite Z.lor_eq_0_iff, Z.lxor_eq_0_iff, IH by by injection Hl. split; [intros [-> ->] | intros [= -> ->]]; done.
Qed.
Lemma equalBytes_iff l r : equalBytes l r = true <-> l = r.
Proof.
  unfold equalBytes. destruct (Nat.eqb_spec (length l) (length r)) as [E | E]; cbn [negb].
  - by rewrite Z.eqb_eq, difference_zero.
  - split; [done |]. by intros ->.
Qed.

(** ** What a ceremony is for *)

Section ceremonies.
Context `{GoWebAuthn} (rpID : string).

Abbreviation asked h e x := (Ev (Store e) x ∈ h).
Abbreviation answered h e x := (Ev (Library e) x ∈ h).

(** What is known, after [h], of the credential [cred] and of its user, to whom a login with
    [token] and [response] belongs. *)
Definition login_known (token : string) (response : list Z) (h : list (event effect))
    (cred : Credential) (validated : LibraryCredential) : Prop :=
  exists now ceremony session name parsed user,
    asked h (ConsumeCeremony (Sum256 (bytes token)) now) (Ok ceremony) /\
    Kind ceremony = ceremonyAuthentication /\ RPID ceremony = rpID /\
    unmarshal_state (Ceremony_SessionData ceremony) = Some (session, name) /\
    ParseCredentialRequestResponseBytes response = Some parsed /\
    AccountDID cred <> EmptyString /\ User_AccountDID user = AccountDID cred /\
    asked h (GetUser rpID (AccountDID cred)) (Ok user) /\
    (exists rawID, asked h (GetCredentialByCredentialID rpID rawID) (Ok cred) /\
       answered h (webauthn_callback session parsed) (Ok (rawID, Handle user))) /\
    answered h (webauthn_validate (webauthn_user (mkUser (User_AccountDID user) (Handle user)
                  (User_Name user) (DisplayName user) [cred])) session parsed) (Ok validated).

Definition login_guard (token : string) (response : list Z) (h : list (event effect)) (X : Type) (e : effect X) : Prop :=
  match e with
  | Store (sessions_CreateSession did) =>
      exists cred validated now row, AccountDID cred = did /\ login_known token response h cred validated /\
        asked h (UpdateCredential rpID (used cred validated) now) (Ok row)
  | Store (UpdateCredential rp c _) =>
      rp = rpID /\ exists cred validated, c = used cred validated /\ login_known token response h cred validated
  | Store (CreateUser _ _ _) | Store (CreateCredential _ _) | Store (RevokeCredential _ _ _ _)
  | Store (CreateCeremony _) => False
  | _ => True
  end.

Definition registration_guard (accountDID : string) (browserSessionID : UUID) (token : string)
    (response : list Z) (h : list (event effect)) (X : Type) (e : effect X) : Prop :=
  match e with
  | Store (CreateCredential rp c) =>
      rp = rpID /\ AccountDID c = accountDID /\
      exists now ceremony session parsed user verified,
        asked h (ConsumeCeremony (Sum256 (bytes token)) now) (Ok ceremony) /\
        Kind ceremony = ceremonyRegistration /\ RPID ceremony = rpID /\
        Ceremony_AccountDID ceremony = accountDID /\ BrowserSessionID ceremony = Some browserSessionID /\
        unmarshal_state (Ceremony_SessionData ceremony) = Some (session, Name c) /\
        ParseCredentialCreationResponseBytes response = Some parsed /\
        asked h (GetUser rpID accountDID) (Ok user) /\ User_AccountDID user = accountDID /\
        answered h (webauthn_CreateCredential (webauthn_user user) session parsed) (Ok verified) /\
        CredentialID c = Lib_ID verified /\ PublicKey c = Lib_PublicKey verified
  | Store (CreateUser _ _ _) | Store (UpdateCredential _ _ _) | Store (RevokeCredential _ _ _ _)
  | Store (CreateCeremony _) | Store (sessions_CreateSession _) => False
  | _ => True
  end.

(** Membership of the history. *)
Ltac seen := rewrite ?elem_of_app, ?list_elem_of_singleton; tauto.

Lemma login_wp token response :
  wp (login_guard token response) (FinishLogin rpID token response) (fun _ _ => True) [].
Proof.
  unfold FinishLogin, consume, ask, lib. cbn. split; [done |]. intros now. split; [done |].
  intros [ceremony | e]; cbn; [| done].
  destruct (String.eqb_spec (Kind ceremony) ceremonyAuthentication) as [Hk |]; cbn; [| done].
  destruct (String.eqb_spec (RPID ceremony) rpID) as [Hrp |]; cbn; [| done].
  destruct (_ || _); cbn; [done |].
  destruct (unmarshal_state _) as [[session name] |] eqn:Hu; cbn; [| done].
  destruct (ParseCredentialRequestResponseBytes response) as [parsed |] eqn:Hp; cbn; [| done].
  split; [done |]. intros [[rawID userHandle] | e]; cbn; [| done].
  split; [done |]. intros [cred | e]; cbn; [| done]. split; [done |]. intros [user | e]; cbn; [| done].
  destruct (String.eqb_spec (User_AccountDID user) (AccountDID cred)) as [Ha |]; cbn; [| done].
  destruct (equalBytes (Handle user) userHandle) eqn:Hh; cbn; [| done]. apply equalBytes_iff in Hh as <-.
  split; [done |]. intros [validated | e]; cbn; [| done].
  destruct (String.eqb_spec (User_AccountDID user) EmptyString) as [| Hne]; cbn; [done |].
  destruct (String.eqb_spec (AccountDID cred) (User_AccountDID user)) as [Hcu |]; cbn; [| done].
  split; [done |]. intros at_. cbn.
  assert (Hknown : forall h, (forall ev, ev ∈ [Ev (Store Now) now;
      Ev (Store (ConsumeCeremony (Sum256 (bytes token)) now)) (Ok ceremony);
      Ev (Library (webauthn_callback session parsed)) (Ok (rawID, Handle user));
      Ev (Store (GetCredentialByCredentialID rpID rawID)) (Ok cred);
      Ev (Store (GetUser rpID (AccountDID cred))) (Ok user);
      Ev (Library (webauthn_validate (webauthn_user (mkUser (User_AccountDID user) (Handle user)
           (User_Name user) (DisplayName user) [cred])) session parsed)) (Ok validated)] -> ev ∈ h) ->
    login_known token response h cred validated).
  { intros h Hin. exists now, ceremony, session, name, parsed, user. split_and!; try done; [apply Hin | congruence | apply Hin | | apply Hin];
      [repeat constructor .. | | repeat constructor].
    exists rawID. split; apply Hin; repeat constructor. }
  split.
  { split; [done |]. exists cred, validated. split; [done |]. apply Hknown. set_solver. }
  intros [row | e]; cbn; [| done]. split; [done |]. intros [[] | e]; cbn; [| done]. split.
  { exists cred, validated, at_, row. split_and!; [done | apply Hknown; set_solver | set_solver]. }
  intros [[s' p] | e]; done.
Qed.

Lemma registration_wp accountDID browserSessionID token response :
  wp (registration_guard accountDID browserSessionID token response)
    (FinishRegistration rpID accountDID browserSessionID token response) (fun _ _ => True) [].
Proof.
  unfold FinishRegistration, consume, ask, lib. cbn. split; [done |]. intros now. split; [done |].
  intros [ceremony | e]; cbn; [| done].
  destruct (String.eqb_spec (Kind ceremony) ceremonyRegistration) as [Hk |]; cbn; [| done].
  destruct (String.eqb_spec (RPID ceremony) rpID) as [Hrp |]; cbn; [| done].
  destruct (String.eqb_spec (Ceremony_AccountDID ceremony) accountDID) as [Hd |]; cbn; [| done].
  case_bool_decide as Hb; cbn; [| done].
  destruct (unmarshal_state _) as [[session name] |] eqn:Hu; cbn; [| done].
  split; [done |]. intros [user | e]; cbn; [| done].
  destruct (String.eqb_spec (User_AccountDID user) (Ceremony_AccountDID ceremony)) as [Ha |]; cbn; [| done].
  destruct (ParseCredentialCreationResponseBytes response) as [parsed |] eqn:Hp; cbn; [| done].
  split; [done |]. intros [verified | e]; cbn; [| done]. split; [done |]. intros [id | e]; cbn; [| done].
  split; [done |]. intros at_. cbn. split; [| by intros [stored | e]].
  split; [done |]. split; [done |]. exists now, ceremony, session, parsed, user, verified.
  split_and!; try done; [set_solver | rewrite <- Hd; set_solver | congruence | set_solver].
Qed.

(** C18: What a ceremony was begun for is what it can be used for.  A login updates a
    credential and opens a session only for the account of an active credential which the
    authenticator named, with the user handle of that account, after the library verified
    its response against the challenge that the token stood for.  A registration stores a
    credential only for the account and the browser session that began it, under the name
    given then, with the key that the library verified. *)
Theorem ceremonies_bound token response accountDID browserSessionID :
  guarded (login_guard token response) (FinishLogin rpID token response) /\
  guarded (registration_guard accountDID browserSessionID token response)
    (FinishRegistration rpID accountDID browserSessionID token response).
Proof. split; eapply wp_guarded; [apply login_wp | apply registration_wp]. Qed.
End ceremonies.

(** ** A token is good for one attempt *)

Section single_use.
Context `{GoWebAuthn} (answer : forall X, library X -> X).

(** Ceremonies of [hash] are over. *)
Definition over (hash : list Z) (s : db) : Prop :=
  forall c, c ∈ ceremonies s -> TokenHash c = hash -> ExpiresAt c <= clock s.
Definition no_create (hash : list Z) (X : Type) (e : effect X) : Prop :=
  match e with Store (CreateCeremony c) => TokenHash c <> hash | _ => True end.
(** Anything may happen but a new ceremony under the same hash; time passes. *)
Inductive later (hash : list Z) : db -> db -> Prop :=
| later_effect X (e : effect X) s : no_create hash X e -> later hash s (snd (handle answer X e s))
| later_clock s t :
    clock s <= t ->
    later hash s (mkDb (users s) (credentials s) (ceremonies s) (accounts s) (sessions s) (random s) (fresh s) t).

Lemma over_handle hash X (e : effect X) s :
  no_create hash X e -> over hash s -> over hash (snd (handle answer X e s)) /\ clock (snd (handle answer X e s)) = clock s.
Proof.
  intros He Ho. assert (Hkeep : forall s', ceremonies s' = ceremonies s -> clock s' = clock s -> over hash s' /\ clock s' = clock s).
  { intros s' Hc Ht. split; [| done]. intros c Hin Hh. rewrite Ht. apply Ho; [by rewrite <- Hc | done]. }
  destruct e as [X e | X e]; [| by apply Hkeep]. cbn [handle].
  destruct e; cbn [on_tables snd]; try by apply Hkeep.
  - unfold postgres.CreateUser, queries.CreateWebAuthnUser. apply Hkeep.
    all: destruct (random s) as [| h rest]; cbn beta iota zeta;
      (destruct (negb _); [done |]); (destruct (List.find _ _); [done |]); (destruct (existsb _ _); [done |]); by destruct (negb _).
  - unfold postgres.CreateCredential, queries.CreatePasskeyCredential. apply Hkeep.
    all: destruct (negb _); [done |]; destruct (existsb _ _); [done |]; by destruct (negb _).
  - unfold postgres.UpdateCredential, queries.UpdatePasskeyCredential. apply Hkeep.
    all: destruct (find_row _ _ _); [| done]; by destruct (negb _).
  - unfold postgres.RevokeCredential, queries.RevokePasskeyCredential. apply Hkeep; by destruct (find_row _ _ _).
  - unfold postgres.CreateCeremony, queries.CreatePasskeyCeremony. destruct (negb _); [by apply Hkeep |].
    destruct (existsb _ _); [by apply Hkeep |]. destruct (negb _); [by apply Hkeep |]. split; [| done]. cbn. intros c [Hin | ->%list_elem_of_singleton]%elem_of_app Hh;
      [by apply Ho | done].
  - unfold postgres.ConsumeCeremony, queries.ConsumePasskeyCeremony. destruct (find_row _ _ _); [| by apply Hkeep].
    split; [| done]. cbn. intros c [Hin _]%filter_elem Hh. by apply Ho.
  - split; [| done]. cbn. intros c [Hin _]%filter_elem Hh. by apply Ho.
  - unfold postgres.TouchAccountLogin, queries.TouchAccountLogin. apply Hkeep; by destruct (accounts s !! _).
Qed.
Lemma over_exec {A} hash (p : prog effect A) s :
  every (no_create hash) p -> over hash s -> over hash (snd (exec (handle answer) p s)).
Proof.
  revert s. induction p as [a | X e k IH]; intros s; cbn [every]; [done |]. intros [He Hk] Ho. rewrite exec_vis.
  pose proof (over_handle hash X e s He Ho) as [Ho1 _]. destruct (handle answer X e s) as [x s1]. by apply IH.
Qed.
Lemma over_later hash s s' : later hash s s' -> over hash s -> over hash s'.
Proof.
  intros [X e s0 He | s0 t Ht] Ho; [by apply over_handle |]. intros c Hin Hh. cbn in *. specialize (Ho c Hin Hh). lia.
Qed.

(** Consuming. *)
Lemma exec_consume token s :
  exec (handle answer) (consume token) s = postgres.ConsumeCeremony (Sum256 (bytes token)) (clock s) s.
Proof. unfold consume, ask. rewrite exec_bind, exec_call. cbn [handle on_tables]. by rewrite exec_call. Qed.
Lemma consume_over token s : over (Sum256 (bytes token)) (snd (exec (handle answer) (consume token) s)).
Proof.
  rewrite exec_consume. unfold postgres.ConsumeCeremony, queries.ConsumePasskeyCeremony, UTC.
  destruct (find_row _ _ _) as [c0 | e] eqn:Hf; cbn.
  - intros c [Hin Hn]%filter_elem Hh. apply negb_true_iff, andb_false_iff in Hn as [Hn | Hn].
    + by rewrite bool_decide_eq_false in Hn.
    + by apply Z.ltb_ge in Hn.
  - intros c Hin Hh. unfold find_row in Hf. destruct (List.find _ _) eqn:E; [done |].
    apply (find_none _ _) with (x := c) in E; [| by apply list_elem_of_In].
    apply andb_false_iff in E as [E | E]; [by rewrite bool_decide_eq_false in E | by apply Z.ltb_ge in E].
Qed.
Lemma over_consume token s :
  over (Sum256 (bytes token)) s -> exec (handle answer) (consume token) s = (Err ErrUnauthorized, s).
Proof.
  intros Ho. rewrite exec_consume. unfold postgres.ConsumeCeremony, queries.ConsumePasskeyCeremony, UTC.
  destruct (find_row _ _ _) as [c | e] eqn:Hf.
  - apply find_row_Ok in Hf as [Hin Hh]. apply andb_true_iff in Hh as [Hh%bool_decide_eq_true Ht%Z.ltb_lt].
    specialize (Ho c Hin Hh). lia.
  - cbn. unfold find_row in Hf. destruct (List.find _ _); [done |]. by injection Hf as <-.
Qed.
End single_use.

Section attempts.
Context `{GoWebAuthn} (answer : forall X, library X -> X) (rpID token : string).

(** An attempt to finish a ceremony, and its refusal. *)
Inductive attempt :=
| Login (response : list Z)
| Registration (accountDID : string) (browserSessionID : UUID) (response : list Z).
Definition finish (a : attempt) : svc effect unit :=
  match a with
  | Login response => let? _ := FinishLogin rpID token response in done_ tt
  | Registration did browser response => let? _ := FinishRegistration rpID did browser token response in done_ tt
  end.
Definition refusal (a : attempt) : error :=
  match a with Login _ => ErrUnauthorized | Registration _ _ _ => registrationProtocolError end.

(** Only a ceremony's beginning makes a ceremony. *)
Lemma guarded_no_create {A} hash G (p : prog effect A) h :
  (forall h X e, G h X e -> no_create hash X e) -> wp G p (fun _ _ => True) h -> every (no_create hash) p.
Proof.
  intros Hg. revert h. induction p as [a | X e k IH]; intros h; cbn; [done |]. intros [He Hk]. split; [eauto |].
  intros x. eapply IH, Hk.
Qed.
Lemma finish_no_create hash a : every (no_create hash) (finish a).
Proof.
  destruct a as [response | did browser response]; cbn [finish]; (apply every_then; [| done]).
  - eapply guarded_no_create, login_wp. intros h X [Y [] | Y e]; cbn; tauto.
  - eapply guarded_no_create, registration_wp. intros h X [Y [] | Y e]; cbn; tauto.
Qed.

(** An attempt first consumes the ceremony. *)
Lemma every_after {A B} P (p : prog effect A) (f : A -> prog effect B) s :
  every P (prog_bind p f) -> every P (f (fst (exec (handle answer) p s))).
Proof.
  revert s. induction p as [a | X e k IH]; intros s; cbn; [done |]. intros [_ Hk]. rewrite exec_vis.
  destruct (handle answer X e s) as [x s']. by apply IH.
Qed.
Lemma over_bind {A B} hash (p : prog effect A) (f : A -> prog effect B) s :
  every (no_create hash) (prog_bind p f) -> over hash (snd (exec (handle answer) p s)) ->
  over hash (snd (exec (handle answer) (prog_bind p f) s)).
Proof.
  intros He%(every_after _ _ _ s) Ho. rewrite exec_bind. destruct (exec (handle answer) p s) as [a s']. by apply over_exec.
Qed.
Lemma every_first {A B} P (p : prog effect A) (f : A -> prog effect B) : every P (prog_bind p f) -> every P p.
Proof. induction p as [a | X e k IH]; cbn; [done |]. intros [He Hk]. split; [done | naive_solver]. Qed.
Lemma finish_over a s : over (Sum256 (bytes token)) (snd (exec (handle answer) (finish a) s)).
Proof.
  pose proof (finish_no_create (Sum256 (bytes token)) a) as He.
  destruct a; cbn [finish] in *; unfold FinishLogin, FinishRegistration, svc_bind, wrapErr in *;
    apply over_bind; try done; apply every_first in He; apply over_bind; try done;
    apply every_first in He; apply over_bind; try done; apply consume_over.
Qed.
Lemma finish_refused a s :
  over (Sum256 (bytes token)) s -> exec (handle answer) (finish a) s = (Err (refusal a), s).
Proof.
  intros Ho. destruct a; cbn [finish]; rewrite exec_then; unfold FinishLogin, FinishRegistration;
    by rewrite exec_then, exec_wrap, over_consume.
Qed.
Lemma over_laters s s' :
  rtc (later answer (Sum256 (bytes token))) s s' -> over (Sum256 (bytes token)) s -> over (Sum256 (bytes token)) s'.
Proof. induction 1 as [| s1 s2 s3 H1 _ IH]; [done |]. intros Ho. by apply IH, (over_later answer _ s1). Qed.

(** C19: A ceremony's token is good for one attempt, whatever comes of it.  After a login or a
    registration was tried with a token, and after whatever the store and the library then do
    in any order, short of a new ceremony under the hash of that very token, and however much
    time passes, any attempt with it is refused, with the error that tells nothing and with
    no change of the tables. *)
Theorem tokens_single_use first second s s1 s2 r :
  exec (handle answer) (finish first) s = (r, s1) -> rtc (later answer (Sum256 (bytes token))) s1 s2 ->
  exec (handle answer) (finish second) s2 = (Err (refusal second), s2).
Proof.
  intros H1 Hl. apply finish_refused, (over_laters s1); [done |]. pose proof (finish_over first s) as Ho. by rewrite H1 in Ho.
Qed.
End attempts.

(** ** The credentials over time *)

(** The columns of a credential that never change. *)
Definition fixed (row : CredentialRow) :=
  let c := row_of row in
  ((rp row, ID c, AccountDID c, Name c, CredentialID c, PublicKey c, AttestationType c),
   (Transports c, AAGUID c, Attachment c, AttestationClientDataJSON c, AttestationClientDataHash c,
    AttestationAuthenticatorData c, AttestationPublicKeyAlgorithm c, AttestationObject c, CreatedAt c)).
(** A credential between two times: a revoked one rests, and one that was used with a counter
    that did not go up is marked as cloned. *)
Record evolves (old new : CredentialRow) : Prop := {
  ev_fixed : fixed new = fixed old;
  ev_count : SignCount (row_of old) <= SignCount (row_of new);
  ev_clone : CloneWarning (row_of old) = true -> CloneWarning (row_of new) = true;
  ev_revoked : active old = false -> new = old;
  ev_counter : row_of new = row_of old \/ SignCount (row_of old) = 0 \/
               SignCount (row_of old) < SignCount (row_of new) \/ CloneWarning (row_of new) = true
}.
#[export] Instance evolves_preorder : PreOrder evolves.
Proof.
  split.
  - intros row. split; try done. by left.
  - intros a b c [F1 N1 W1 R1 C1] [F2 N2 W2 R2 C2]. split.
    + congruence.
    + lia.
    + auto.
    + intros Ha. rewrite (R1 Ha) in *. by apply R2.
    + destruct C1 as [E1 | [E1 | [E1 | E1]]]; destruct C2 as [E2 | [E2 | [E2 | E2]]];
        rewrite ?E1, ?E2 in *; auto; try (right; right; left; lia).
Qed.

(** What the constraints of the tables say. *)
Record wf (s : db) : Prop := {
  wf_ids : NoDup (map (fun row => ID (row_of row)) (credentials s));
  wf_keys : NoDup (map (fun row => CredentialID (row_of row)) (credentials s));
  wf_checks row : row ∈ credentials s -> credential_checks (row_of row) = true;
  wf_owner row : row ∈ credentials s -> exists u, u ∈ users s /\ is_user (rp row) (AccountDID (row_of row)) u = true;
  wf_users : NoDup (map (fun u => (user_rp u, User_AccountDID (user_of u))) (users s));
  wf_handles : NoDup (map (fun u => (user_rp u, Handle (user_of u))) (users s))
}.
Record grows (s s' : db) : Prop := {
  gr_credentials : exists l new, credentials s' = l ++ new /\ Forall2 evolves (credentials s) l;
  gr_users : exists new, users s' = users s ++ new
}.
#[export] Instance grows_preorder : PreOrder grows.
Proof.
  split.
  - intros s. split; [exists (credentials s), [] | exists []]; rewrite app_nil_r; [| done].
    by split.
  - intros a b c [(l1 & n1 & E1 & F1) (u1 & U1)] [(l2 & n2 & E2 & F2) (u2 & U2)]. split.
    + rewrite E1 in F2. apply Forall2_app_inv_l in F2 as (la & lb & Fa & _ & ->).
      exists la, (lb ++ n2). rewrite E2, app_assoc. split; [done |]. etrans; [apply F1 | apply Fa].
    + exists (u1 ++ u2). by rewrite U2, U1, app_assoc.
Qed.

Inductive step : db -> db -> Prop :=
| step_store X (e : store X) s : step s (snd (on_tables X e s))
| step_clock s t :
    clock s <= t ->
    step s (mkDb (users s) (credentials s) (ceremonies s) (accounts s) (sessions s) (random s) (fresh s) t).

Lemma kept s s' : users s' = users s -> credentials s' = credentials s -> wf s -> wf s' /\ grows s s'.
Proof.
  intros Hu Hc [W1 W2 W3 W4 W5 W6]. split.
  - split; rewrite ?Hu, ?Hc; done.
  - split; [exists (credentials s), [] | exists []]; rewrite ?Hu, ?Hc, app_nil_r; by try split.
Qed.
Lemma updated hit change s :
  (forall row, row ∈ credentials s -> hit row = true -> evolves row (change row)) ->
  (forall row, row ∈ credentials s -> hit row = true -> credential_checks (row_of (change row)) = true) ->
  wf s ->
  wf (with_credentials (update_where hit change (credentials s)) s) /\
  grows s (with_credentials (update_where hit change (credentials s)) s).
Proof.
  intros He Hk [W1 W2 W3 W4 W5 W6].
  assert (HF : Forall2 evolves (credentials s) (update_where hit change (credentials s))).
  { by apply update_where_Forall2. }
  assert (Hmap : forall {B} (column : CredentialRow -> B),
    (forall r r', evolves r r' -> column r' = column r) ->
    map column (update_where hit change (credentials s)) = map column (credentials s)).
  { intros B column Hc. symmetry. apply list_eq_Forall2. apply Forall2_fmap. eapply Forall2_impl; [apply HF |].
    intros r r' Hr. symmetry. by apply Hc. }
  split; [split | split]; cbn.
  - rewrite Hmap; [done |]. intros r r' [[= E] _ _ _ _]. congruence.
  - rewrite Hmap; [done |]. intros r r' [[= E] _ _ _ _]. congruence.
  - intros row (r & Hin & ->)%update_where_elem. destruct (hit r) eqn:Hh; eauto.
  - intros row (r & Hin & ->)%update_where_elem. destruct (W4 r Hin) as (u & Hu & Hi). exists u. split; [done |].
    destruct (hit r) eqn:Hh; [| done]. destruct (He r Hin Hh) as [E _ _ _ _]. unfold fixed in E. injection E. congruence.
  - done.
  - done.
  - exists (update_where hit change (credentials s)), []. by rewrite app_nil_r.
  - exists []. by rewrite app_nil_r.
Qed.

Lemma inserted_row s c row :
  wf s -> row_of row = c -> credential_checks c = true ->
  existsb (fun r => (ID (row_of r) =? ID c) || bool_decide (CredentialID (row_of r) = CredentialID c)) (credentials s) = false ->
  existsb (is_user (rp row) (AccountDID c)) (users s) = true ->
  wf (with_credentials (credentials s ++ [row]) s) /\ grows s (with_credentials (credentials s ++ [row]) s).
Proof.
  intros [W1 W2 W3 W4 W5 W6] <- Hk Hn Hu. apply existsb_false in Hn. rewrite Forall_forall in Hn.
  assert (Hnew : forall r, r ∈ credentials s ->
    ID (row_of r) <> ID (row_of row) /\ CredentialID (row_of r) <> CredentialID (row_of row)).
  { intros r Hin. specialize (Hn r Hin). cbn in Hn. apply orb_false_iff in Hn as [Hi%Z.eqb_neq Hc%bool_decide_eq_false]. done. }
  split; [split | split]; cbn; rewrite ?map_app; try done.
  - apply NoDup_snoc; [| done]. intros (r & Hr & Hin)%list_elem_of_fmap. destruct (Hnew r Hin); congruence.
  - apply NoDup_snoc; [| done]. intros (r & Hr & Hin)%list_elem_of_fmap. destruct (Hnew r Hin); congruence.
  - intros r [Hin | ->%list_elem_of_singleton]%elem_of_app; auto.
  - intros r [Hin | ->%list_elem_of_singleton]%elem_of_app; [auto |].
    apply existsb_exists in Hu as (u & Hin & Hi). apply list_elem_of_In in Hin. eauto.
  - exists (credentials s), [row]. by split.
  - exists []. by rewrite app_nil_r.
Qed.
Lemma inserted_user s row :
  wf s -> existsb (is_user (user_rp row) (User_AccountDID (user_of row))) (users s) = false ->
  existsb (fun r => (user_rp r == user_rp row) && bool_decide (Handle (user_of r) = Handle (user_of row))) (users s) = false ->
  wf (with_users (users s ++ [row]) s) /\ grows s (with_users (users s ++ [row]) s).
Proof.
  intros [W1 W2 W3 W4 W5 W6] Hn Hh. apply existsb_false in Hn, Hh. rewrite Forall_forall in Hn, Hh.
  split; [split | split]; cbn; rewrite ?map_app; try done.
  - intros r Hin. destruct (W4 r Hin) as (u & Hu & Hi). exists u. split; [by apply elem_of_app; left | done].
  - apply NoDup_snoc; [| done]. intros (r & [= Hr Hd] & Hin)%list_elem_of_fmap. specialize (Hn r Hin).
    unfold is_user in Hn. by rewrite Hr, Hd, !String.eqb_refl in Hn.
  - apply NoDup_snoc; [| done]. intros (r & [= Hr Hd] & Hin)%list_elem_of_fmap. specialize (Hh r Hin). cbn in Hh.
    rewrite Hr, Hd, String.eqb_refl, bool_decide_true in Hh; done.
  - exists (credentials s), []. rewrite app_nil_r. by split.
  - by exists [row].
Qed.

(** The updates of a credential let it evolve. *)
Lemma use_evolves signCount flags cloneWarning lastUsedAt row :
  active row = true -> evolves row (queries.use signCount flags cloneWarning lastUsedAt row).
Proof.
  intros Ha. split; cbn; [done | lia | by intros -> | by rewrite Ha |].
  destruct (Z.eqb_spec (SignCount (row_of row)) 0) as [| Hz]; [by right; left |]. right. right.
  destruct (Z.leb_spec signCount (SignCount (row_of row))); [right; by rewrite !orb_true_r | left; lia].
Qed.
Lemma revoke_evolves revokedAt row : active row = true -> evolves row (queries.revoke revokedAt row).
Proof. intros Ha. split; cbn; [done | lia | done | by rewrite Ha | by left]. Qed.
Lemma own_active rpID did id row : own rpID did id row = true -> ID (row_of row) = id /\ active row = true.
Proof. unfold own. rewrite !andb_true_iff, Z.eqb_eq. tauto. Qed.

Lemma step_keeps s s' : step s s' -> wf s -> wf s' /\ grows s s'.
Proof.
  intros [X e s0 | s0 t _] Hw; [| by apply kept]. destruct e; cbn [on_tables snd]; try by apply kept.
  - unfold postgres.CreateUser, queries.CreateWebAuthnUser.
    destruct (match random s0 with h :: rest => (h, rest) | [] => ([], []) end) as [handle rest].
    destruct (negb _); [by apply kept |]. destruct (List.find _ _) as [u |] eqn:Hf; [by apply kept |].
    destruct (existsb _ _) eqn:Hh; [by apply kept |]. destruct (negb _); [by apply kept |]. cbn [snd].
    destruct (kept s0 (with_random rest s0)) as [Hw1 Hg1]; [done .. |].
    destruct (inserted_user (with_random rest s0)
      (mkUserRow rpID (mkUser (User_AccountDID user) handle (User_Name user) (DisplayName user) []) createdAt))
      as [Hw2 Hg2]; [done | cbn | exact Hh | by split; [| etrans]]. apply existsb_false, Forall_forall. intros u Hin. eapply find_none; [exact Hf | by apply list_elem_of_In].
  - unfold postgres.CreateCredential, queries.CreatePasskeyCredential.
    destruct (negb _) eqn:Hk; [by apply kept |]. apply negb_false_iff in Hk.
    destruct (existsb _ (credentials s0)) eqn:Hn; [by apply kept |].
    destruct (existsb _ (users s0)) eqn:Hu; [| by apply kept]. cbn [negb snd].
    by apply (inserted_row _ _ _ Hw eq_refl).
  - unfold postgres.UpdateCredential, queries.UpdatePasskeyCredential.
    destruct (find_row _ _ _) as [row |] eqn:Hf; [| by apply kept]. destruct (negb _) eqn:Hk; [by apply kept |].
    apply negb_false_iff in Hk. apply find_row_Ok in Hf as [Hin [Hi _]%own_active]. cbn [snd].
    apply updated; [intros r _ [_ Ha]%own_active; by apply use_evolves | | done].
    intros r Hr [Hir _]%own_active.
    by rewrite (NoDup_map_inj _ _ r row (wf_ids _ Hw) Hr Hin) by congruence.
  - unfold postgres.RevokeCredential, queries.RevokePasskeyCredential.
    destruct (find_row _ _ _) as [row |] eqn:Hf; [| by apply kept]. cbn [snd].
    apply updated; [intros r _ [_ Ha]%own_active; by apply revoke_evolves | | done].
    intros r Hr _. exact (wf_checks _ Hw r Hr).
  - unfold postgres.CreateCeremony, queries.CreatePasskeyCeremony. destruct (negb _); [by apply kept |].
    destruct (existsb _ _); [by apply kept |]. destruct (negb _); by apply kept.
  - unfold postgres.ConsumeCeremony, queries.ConsumePasskeyCeremony. destruct (find_row _ _ _); by apply kept.
  - unfold postgres.TouchAccountLogin, queries.TouchAccountLogin. destruct (accounts s0 !! _); by apply kept.
Qed.

(** C20: The registered keys never change hands.  Whatever the store does, and for as long,
    every credential keeps its account, its key and its attestation, its signature counter
    never decreases, a revoked one is never touched again, and one that was used with a
    counter that did not go up stays marked as cloned; ids of credentials, and the users and
    handles of each relying party, stay unique, and every credential has its user. *)
Theorem passkeys_history s s' : rtc step s s' -> wf s -> wf s' /\ grows s s'.
Proof.
  induction 1 as [| s1 s2 s3 H1 _ IH]; intros Hw; [by split |].
  destruct (step_keeps _ _ H1 Hw) as [Hw2 Hg2]. destruct (IH Hw2) as [Hw3 Hg3]. split; [done | by etrans].
Qed.
End passkey.

(** ** A registration and a login *)

Module passkey_examples.
Import passkey.

(** A library that accepts the authenticator it registered: its credentials are named by the
    response, and its counter goes up by one. *)
#[local] Instance demo : GoWebAuthn := {
  SessionData := Z;
  with_Expires session _ := session;
  Options := unit;
  marshal_options _ := Some [123; 125];
  marshal_state '(session, name) := Some (session :: bytes name);
  unmarshal_state bs := match bs with session :: name => Some (session, of_bytes name) | [] => None end;
  ParsedCreation := list Z;
  ParseCredentialCreationResponseBytes bs := if nonempty bs then Some bs else None;
  ParsedAssertion := list Z;
  ParseCredentialRequestResponseBytes bs := if nonempty bs then Some bs else None;
  NewCredentialFlags z := mkFlags (Z.testbit z 0) (Z.testbit z 2) (Z.testbit z 3) (Z.testbit z 4) z;
  FlagUserPresent := 1; FlagUserVerified := 4; FlagBackupEligible := 8; FlagBackupState := 16
}.
Definition handle0 : list Z := repeat 5 32.
Definition made (id : list Z) (count : Z) : LibraryCredential :=
  mkLibraryCredential id [1; 2; 3] "none" ["internal"] (NewCredentialFlags 5) (repeat 0 16) count false "platform"
    [] [] [] (-7) [].
Definition answer (X : Type) (e : library X) : X :=
  match e in library X return X with
  | webauthn_BeginRegistration _ _ => Ok (tt, 7)
  | webauthn_CreateCredential _ _ parsed => Ok (made parsed 1)
  | webauthn_BeginDiscoverableLogin => Ok (tt, 9)
  | webauthn_callback _ parsed => Ok (parsed, handle0)
  | webauthn_validate user _ _ =>
      match WebAuthnCredentials user with
      | c :: _ => Ok (made (Lib_ID c) (Lib_SignCount c + 1))
      | [] => Err (New "no credential")
      end
  end.
Definition alice : string := "did:plc:alice".
Definition site : string := "example.com".
Definition secret (n : Z) : list Z := repeat n 32.
Definition start : db :=
  mkDb [] [] [] {[ alice := 0 ]}
    [(auth.mkSession 3 alice [1] 0 2000 None None, "browser"); (auth.mkSession 4 alice [2] 0 2000 None None, "other")]
    [secret 40; handle0; secret 41; secret 42; secret 43; secret 44] 100 1000.

Definition registration_token : string := secret_of (secret 41).
Definition login_token : string := secret_of (secret 42).
Abbreviation demo_exec p s := (exec (handle answer) p s).

(** Alice adds a passkey named Laptop to her account. *)
Definition begun : db := snd (demo_exec (BeginRegistration site alice 3 " Laptop ") start).
Example begins :
  fst (demo_exec (BeginRegistration site alice 3 " Laptop ") start) = Ok (mkBegin [123; 125] registration_token).
Proof. vm_compute. reflexivity. Qed.
Definition registered : db :=
  snd (demo_exec (FinishRegistration site alice 3 registration_token [8; 8]) begun).
Example registers :
  fst (demo_exec (FinishRegistration site alice 3 registration_token [8; 8]) begun)
    = Ok (mkSummary 100 "Laptop" 1000 None) /\ ceremonies registered = [].
Proof. vm_compute. split; reflexivity. Qed.
(** She logs in with it. *)
Definition challenged : db := snd (demo_exec (BeginLogin site) registered).
Example challenges : fst (demo_exec (BeginLogin site) registered) = Ok (mkBegin [123; 125] login_token).
Proof. vm_compute. reflexivity. Qed.
Definition logged_in : db := snd (demo_exec (FinishLogin site login_token [8; 8]) challenged).
Example logs_in :
  fst (demo_exec (FinishLogin site login_token [8; 8]) challenged)
    = Ok (mkLogin alice 101 (secret_of (secret 43)) (1000 + hour)) /\
  map (fun row => (SignCount (row_of row), CloneWarning (row_of row))) (credentials logged_in) = [(2, false)].
Proof. vm_compute. split; reflexivity. Qed.
(** Another browser cannot finish the registration, and its attempt uses the token up. *)
Definition stolen : db := snd (demo_exec (FinishRegistration site alice 4 registration_token [8; 8]) begun).
Example another_browser :
  fst (demo_exec (FinishRegistration site alice 4 registration_token [8; 8]) begun) = Err registrationProtocolError /\
  fst (demo_exec (FinishRegistration site alice 3 registration_token [8; 8]) stolen) = Err registrationProtocolError /\
  ceremonies stolen = [].
Proof. vm_compute. split_and!; reflexivity. Qed.

Lemma login_ran :
  fst (demo_exec (finish site login_token (Login [8; 8])) challenged) = Ok tt.
Proof. vm_compute. reflexivity. Qed.
Definition after : db := snd (demo_exec (finish site login_token (Login [8; 8])) challenged).
(** The passkey is revoked after the login, and the token is tried again. *)
Lemma tokens_single_use_witness :
  exec (handle answer) (finish site login_token (Login [9]))
    (snd (handle answer _ (Store (RevokeCredential site alice 100 1000)) after))
  = (Err ErrUnauthorized, snd (handle answer _ (Store (RevokeCredential site alice 100 1000)) after)).
Proof.
  apply (tokens_single_use answer site login_token (Login [8; 8]) (Login [9]) challenged after _ (Ok tt)).
  - rewrite (surjective_pairing (exec _ _ _)), login_ran. reflexivity.
  - apply rtc_once. exact (later_effect answer _ _ (Store (RevokeCredential site alice 100 1000)) after I).
Defined.

Definition with_key : db :=
  snd (on_tables _ (CreateCredential site (credentialFromWebAuthn 100 alice "Laptop" (made [8; 8] 1) 1000))
    (snd (on_tables _ (CreateUser site (mkUser alice handle0 alice alice []) 1000)
      (mkDb [] [] [] {[ alice := 0 ]} [] [handle0] 100 1000)))).
Lemma passkeys_history_witness :
  rtc step (mkDb [] [] [] {[ alice := 0 ]} [] [handle0] 100 1000) with_key /\ length (credentials with_key) = 1%nat /\
  wf with_key /\ grows (mkDb [] [] [] {[ alice := 0 ]} [] [handle0] 100 1000) with_key.
Proof.
  assert (Hr : rtc step (mkDb [] [] [] {[ alice := 0 ]} [] [handle0] 100 1000) with_key).
  { eapply rtc_l; [apply (step_store _ (CreateUser site (mkUser alice handle0 alice alice []) 1000)) |].
    apply rtc_once, step_store. }
  split; [exact Hr |]. split; [vm_compute; reflexivity |]. apply (passkeys_history _ _ Hr).
  split; cbn; try constructor; set_solver.
Defined.
End passkey_examples.
